(* ===== verification/_CoqProject ===== *)
-Q . S2P
Prelude.v
LinkedList.v
Task.v
Mlfq.v
Scheduler.v
Pmm.v
Buddy.v
BlockDev.v
Bcache.v
Ext2Data.v
Ext2.v
Ext2File.v
Ext2Dir.v
Ext2Sim.v
Ext2Spec.v
Ext2Alloc.v
Ext2FileSpec.v
Ext2DirSpec.v
PageTable.v
Vmm.v
VmmSpec.v
PageFault.v
UserMem.v
UserMemSpec.v
Kheap.v
KheapSpec.v
LibcString.v
LibcStringSpec.v
LibcStdlib.v
LibcSort.v
LibcNumber.v
Vfs.v
VfsSpec.v
LibcFormat.v
LibcPrintf.v
LibcPrintfSpec.v
Stdio.v
StdioSpec.v
Slab.v
SlabSpec.v
TaskLife.v
TaskLifeSpec.v
TaskTree.v
TaskSys.v
TaskSysSpec.v
TaskDemo.v
UMalloc.v
UMallocSpec.v
Ports.v
Irq.v
IrqSpec.v
Ps2.v
Ps2Spec.v
Ps2Keys.v
FileSys.v
FileSysSpec.v
Vga.v
VgaSpec.v
Elf.v
ElfSpec.v
ElfVmm.v
