(* ===== verification/Prelude.v ===== *)
(** * TsOs: a verification development for an x86-64 kernel and its C library

    TsOs (src/src/) is a bare-metal 64-bit kernel in C with a small user space.  The
    development translates its C code into executable Rocq functions and proves what
    makes each part correct.  Paths below are relative to src/src/.

    ** The program, and which file models which part

    - _Scheduling_ (kernel/task.h, mlfq.c, scheduler.c): the timer tick runs the
      multi-level feedback queue and switches tasks.  Task.v is the task control block,
      LinkedList.v the pointer-linked lists it is threaded into, Mlfq.v the four ready
      queues, Scheduler.v the tick, add, wake, unqueue and remove.
    - _Tasks and processes_ (kernel/task.c, the process calls of kernel/syscall.c):
      TaskLife.v is the creation, first frame, exit, wait and destruction of tasks over
      the scheduler, TaskSys.v fork, exec and the calls on processes.
    - _Memory_ (kernel/pmm.c, pmm_buddy.c, page_table.c, vmm.c, kheap.c, slab.c, the
      page-fault handler of main.c, brk/mmap/munmap and the pointer checks of syscall.c):
      Pmm.v is the frame bitmap, Buddy.v the buddy allocator over it, PageTable.v and
      Vmm.v the four-level tables and the address spaces on frames of that allocator,
      PageFault.v demand paging and copy-on-write, UserMem.v the system calls, Kheap.v the
      kernel heap and Slab.v the small objects cut from its pages.
    - _Programs_ (kernel/elf.c): Elf.v is the loader over an interface of address spaces
      and frames; ElfVmm.v shows that Vmm.v implements the interface.
    - _Storage_ (fs/block_dev.c, bcache.c, ext2.c, vfs.c): BlockDev.v is the device table,
      Bcache.v the write-back cache over a device, Ext2Data.v the on-disk layout, Ext2.v,
      Ext2File.v and Ext2Dir.v the file system on an abstract sector store, Vfs.v the mount
      table that routes paths to file systems.
    - _System calls on files_ (kernel/syscall.c): FileSys.v is the calls on paths and
      descriptors, time, system information and the dispatch by number, over Vfs.v.
    - _Interrupts and drivers_ (kernel/pic.c, isr.c, timer.c; drivers/portio.h, pit.c,
      pcspk.c, ps2.c, vga.c): Ports.v is port I/O as an interface, Irq.v the dispatcher,
      the interrupt controllers' commands, the timer with its waits and the speaker, Ps2.v
      the keyboard, its ring and the parser of terminal input, Vga.v the text screen with
      its system calls.
    - _C library_ (libc/common, libc/userspace): LibcString.v, LibcStdlib.v and LibcPrintf.v
      are string.c, stdlib.c with ctype.c, and vsnprintf.c on a byte-addressed memory;
      Stdio.v is the streams of userspace/stdio.c and UMalloc.v the allocator of user
      programs in userspace/malloc.c.

    ** How code becomes definitions

    A w-bit integer is a [Z] in its range and every operation that may leave the range is
    followed by its wrap ([u8] .. [u64], [i8] .. [i64]).  A function on state [S] is a
    computation [M S A = S -> option (A * S)]; [None] is a fault: an access outside an
    array or to unmapped memory, a NULL dereference, a division by zero, or a loop that
    has not ended within the bound written at the loop.  Structures are records, pointers
    to structures are keys of a finite map ([option nat], [None] is NULL), byte buffers
    are lists, words of physical memory and the C library's bytes are finite maps.
    Pointer-linked lists stay pointer-linked; the theorems relate them to lists.

    Where a component calls another, the caller's state contains the callee's (Buddy.v
    over Pmm.v, Vmm.v over both, UserMem.v over Vmm.v, TaskLife.v over Scheduler.v) or the
    callee is a class of operations with a class of its laws, and an instance discharges
    them: [PageHeapLaws] of SlabSpec.v by the kernel heap, [ElfLaws] by ElfVmm.v, block I/O
    by the cache and by an array of sectors in Ext2Sim.v.

    Bounds: a loop over a linked list gets one step per element the heap can hold (the
    size of the heap or of the pool), a loop over a C string one step per byte that
    exists, a loop over a bitmap or table its length, a division loop one step per digit
    the buffer holds, a loop of partial writes one step per byte.  The theorems show that
    no bound is reached: they state that the functions return, and what they return.
    Loops that the C code does not bound (the shrink loop of sys_brk, the waits for time
    and keys, walks over corrupted lists) take a bound as an argument or fault, and the
    theorems say which end.

    ** What the theorems show

    - Mlfq.v, Scheduler.v: the queues refine lists of tasks under every legal sequence of
      operations; a tick keeps the invariant and loses no runnable task; starvation of a
      ready task by the idle task.
    - TaskLifeSpec.v, TaskTree.v, TaskSysSpec.v (run on a machine in TaskDemo.v): boot,
      creation, exit, wait, destruction and fork keep the kernel's tasks sound, each
      allocated block is given back once, also on every failure path; the first frame
      enters the task.
    - Pmm.v, Buddy.v, KheapSpec.v, SlabSpec.v, UMallocSpec.v: each allocator hands out
      memory nobody holds, takes back exactly what was handed out, merges what can be
      merged and never faults, for all sequences of calls.
    - VmmSpec.v, PageFault.v, UserMemSpec.v: mapping, unmapping, cloning and destroying
      change exactly the translations they should, in any number of address spaces; a
      fault is resolved with a fresh zeroed frame or a copy; brk and mmap reserve exactly
      the pages asked for; the pointer check accepts exactly accessible user memory.
    - ElfSpec.v: the loaded memory is the image of the program's segments.
    - BlockDev.v, Bcache.v, Ext2Sim.v, Ext2Spec.v, Ext2Alloc.v, Ext2FileSpec.v,
      Ext2DirSpec.v, VfsSpec.v: the cache refines an array of sectors, so ext2 on the cache
      refines ext2 on the array; what is written is read back; allocation is first fit;
      directories and paths resolve as names do; the mount table is a finite map with
      longest-prefix lookup.
    - FileSysSpec.v: which strings and descriptors the calls accept, that open and close
      restore the table, what lseek returns, and that the dispatcher runs the handler of
      the number.
    - IrqSpec.v: which interrupts are acknowledged and which waits end, other tasks'
      ticks included; Ps2Spec.v, Ps2Keys.v: the ring is a queue under every interleaving,
      the driver stays well typed, what is typed is what is queued; VgaSpec.v: what is
      drawn, and when it is on the screen.
    - LibcStringSpec.v, LibcSort.v, LibcNumber.v, LibcPrintfSpec.v: copying, comparing,
      searching and tokenising agree with functions on lists; qsort sorts and bsearch finds;
      strtol reads numbers and snprintf writes them, so each reads back the other; vsnprintf
      stores exactly the text that LibcFormat.v, a reference written from ISO C and not
      from the code, gives.  StdioSpec.v: buffering changes neither what is written nor
      what is read.

    Theorems that show a defect of the code are stated like the others, next to the
    component they are about.

    ** Assumptions

    Hardware is explicit: a block driver is a function on its own state with the laws of a
    sector array where a theorem needs them, physical memory starts as given words, ports
    are functions on the state of a bus, the Multiboot2 structure is a byte list.  Locks
    are dropped: the models are sequential, which is how the kernel runs the modelled code
    (interrupts off, one CPU); where an interrupt can come in between, as in the waits and
    in the keyboard's ring, the steps are explicit.

    ** Not modelled

    The drivers for ATA, PCI, serial lines and AC'97 are port I/O without logic of their
    own beyond it; boot, GDT and IDT set-up writes machine registers and tables; the
    assembly files, the panic screen, logging, statistics output and the spin lock carry
    no logic of their own.  The interactive shells (user/shell.c, ushell.c), the posix
    wrappers and the front ends of printf, perror and the scanf stubs of the user C library
    are glue over what is modelled. *)

From stdpp Require Import base numbers gmap list.
From stdpp Require Import options.

#[global] Open Scope Z_scope.

(** ** Machine integers

    A w-bit unsigned integer is a [Z] in [0, 2^w); every C operation that may
    leave the range is followed by the wrap of its type. *)

Definition wrap (w x : Z) : Z := x mod 2 ^ w.
Definition u8 (x : Z) : Z := wrap 8 x.
Definition u16 (x : Z) : Z := wrap 16 x.
Definition u32 (x : Z) : Z := wrap 32 x.
Definition u64 (x : Z) : Z := wrap 64 x.

(** Two's complement reading of the low [w] bits. *)
Definition swrap (w x : Z) : Z :=
  let y := wrap w x in if y <? 2 ^ (w - 1) then y else y - 2 ^ w.
Definition i8 (x : Z) : Z := swrap 8 x.
Definition i16 (x : Z) : Z := swrap 16 x.
Definition i32 (x : Z) : Z := swrap 32 x.
Definition i64 (x : Z) : Z := swrap 64 x.

(** [in_w w x]: [x] is a value of a [w]-bit unsigned type. *)
Definition in_w (w x : Z) : Prop := 0 <= x < 2 ^ w.

(** [__builtin_ctz]: index of the lowest set bit (of a positive number). *)
Fixpoint pos_ctz (p : positive) : Z :=
  match p with xO q => 1 + pos_ctz q | _ => 0 end.
Definition ctz (z : Z) : Z := match z with Zpos p => pos_ctz p | _ => 0 end.

(** ** Computations that may fault

    [M S A]: a C function on a state [S].  [None] is a fault: an access outside
    an array, a NULL dereference, a division by zero, or a loop that has not
    ended within the bound written at the loop. *)

Definition M (S A : Type) : Type := S -> option (A * S).

Definition mret {S A} (a : A) : M S A := fun s => Some (a, s).
Definition mbind_ {S A B} (m : M S A) (k : A -> M S B) : M S B :=
  fun s => match m s with Some (a, s') => k a s' | None => None end.
Definition mget {S} : M S S := fun s => Some (s, s).
Definition mput {S} (s' : S) : M S unit := fun _ => Some (tt, s').
Definition mgets {S A} (f : S -> A) : M S A := fun s => Some (f s, s).
Definition mmodify {S} (f : S -> S) : M S unit := fun s => Some (tt, f s).
Definition mfault {S A} : M S A := fun _ => None.
Definition mlift {S A} (o : option A) : M S A :=
  fun s => match o with Some a => Some (a, s) | None => None end.

Declare Scope c_scope.
Delimit Scope c_scope with c.
Notation "x <~ m ;; k" := (mbind_ m (fun x => k))
  (at level 20, m at level 99, k at level 200) : c_scope.
Notation "' p <~ m ;; k" := (mbind_ m (fun x => match x with p => k end))
  (at level 20, p pattern, m at level 99, k at level 200) : c_scope.
Notation "m ;;; k" := (mbind_ m (fun _ => k))
  (at level 100, k at level 200, right associativity) : c_scope.
Notation "'return' a" := (mret a) (at level 60, a at level 9) : c_scope.
#[global] Open Scope c_scope.

(** [for (i = a; i < b; i++) body]: [b] does not change while the loop runs. *)
Fixpoint for_n {S} (n : nat) (i : Z) (body : Z -> M S unit) : M S unit :=
  match n with O => return tt | Datatypes.S n' => body i ;;; for_n n' (i + 1) body end.
Definition for_range {S} (a b : Z) (body : Z -> M S unit) : M S unit :=
  for_n (Z.to_nat (b - a)) a body.

(** [if (c) m] with no else branch. *)
Definition mwhen {S} (c : bool) (m : M S unit) : M S unit := if c then m else return tt.

(** ** Arrays indexed by machine integers: out of range is a fault. *)

Definition zget {A} (l : list A) (i : Z) : option A :=
  if 0 <=? i then l !! Z.to_nat i else None.
Definition zset {A} (l : list A) (i : Z) (v : A) : option (list A) :=
  if (0 <=? i) && (i <? Z.of_nat (length l)) then Some (<[Z.to_nat i := v]> l) else None.

(** ** Byte buffers and little-endian fields *)

Definition byte_ok (b : Z) : Prop := 0 <= b < 256.

(** [slice off n l]: the [n] bytes at [off]; a fault when they leave [l]. *)
Definition slice (off n : Z) (l : list Z) : option (list Z) :=
  if (0 <=? off) && (0 <=? n) && (off + n <=? Z.of_nat (length l))
  then Some (take (Z.to_nat n) (drop (Z.to_nat off) l)) else None.

(** [splice off src l]: memcpy of [src] into [l] at [off]. *)
Definition splice (off : Z) (src l : list Z) : option (list Z) :=
  if (0 <=? off) && (off + Z.of_nat (length src) <=? Z.of_nat (length l))
  then Some (take (Z.to_nat off) l ++ src ++ drop (Z.to_nat off + length src) l) else None.

Fixpoint le_dec (l : list Z) : Z :=
  match l with [] => 0 | b :: t => b + 256 * le_dec t end.
Fixpoint le_enc (n : nat) (v : Z) : list Z :=
  match n with O => [] | S n' => v mod 256 :: le_enc n' (v / 256) end.

Definition get_le (n off : Z) (l : list Z) : option Z := le_dec <$> slice off n l.
Definition put_le (n off v : Z) (l : list Z) : option (list Z) :=
  splice off (le_enc (Z.to_nat n) v) l.
Definition get8 (off : Z) l := get_le 1 off l.
Definition get16 (off : Z) l := get_le 2 off l.
Definition get32 (off : Z) l := get_le 4 off l.
Definition get64 (off : Z) l := get_le 8 off l.
Definition put8 (off v : Z) l := put_le 1 off v l.
Definition put16 (off v : Z) l := put_le 2 off v l.
Definition put32 (off v : Z) l := put_le 4 off v l.
Definition put64 (off v : Z) l := put_le 8 off v l.

(** * Lemmas *)

Create HintDb tsos.

(** ** Wraps *)

Lemma wrap_range w x : 0 <= w -> in_w w (wrap w x).
Proof. intros. unfold in_w, wrap. apply Z.mod_pos_bound. lia. Qed.
Lemma wrap_small w x : in_w w x -> wrap w x = x.
Proof. intros. apply Z.mod_small. done. Qed.
Lemma wrap_add_wrap_l w x y : 0 <= w -> wrap w (wrap w x + y) = wrap w (x + y).
Proof. intros. unfold wrap. rewrite Zplus_mod_idemp_l. done. Qed.
Lemma wrap_wrap w x : 0 <= w -> wrap w (wrap w x) = wrap w x.
Proof. intros. by apply wrap_small, wrap_range. Qed.

(** Discharges goals on [u8 .. u64]: the wrapped value is in range. *)
Ltac wrap_small := rewrite wrap_small by (unfold in_w; lia).
Ltac unwrap := unfold u8, u16, u32, u64 in *.

(** ** ctz *)

Lemma pos_ctz_nonneg p : 0 <= pos_ctz p.
Proof. induction p; simpl; lia. Qed.

Lemma pos_ctz_set p : Z.testbit (Zpos p) (pos_ctz p) = true.
Proof.
  induction p as [p IH|p IH|]; simpl pos_ctz; [done| |done].
  rewrite Pos2Z.inj_xO. replace (1 + pos_ctz p) with (Z.succ (pos_ctz p)) by lia.
  by rewrite Z.double_bits_succ.
Qed.

Lemma pos_ctz_low p i : 0 <= i < pos_ctz p -> Z.testbit (Zpos p) i = false.
Proof.
  revert i; induction p as [p IH|p IH|]; simpl pos_ctz; intros i Hi; try lia.
  rewrite Pos2Z.inj_xO. destruct (decide (i = 0)) as [->|Hn].
  - by rewrite Z.testbit_even_0.
  - replace i with (Z.succ (i - 1)) by lia. rewrite Z.double_bits_succ. apply IH. lia.
Qed.

Lemma ctz_nonneg z : 0 <= ctz z.
Proof. destruct z; simpl; try lia. apply pos_ctz_nonneg. Qed.
Lemma ctz_set z : 0 < z -> Z.testbit z (ctz z) = true.
Proof. destruct z; try lia. intros _. apply pos_ctz_set. Qed.
Lemma ctz_low z i : 0 < z -> 0 <= i < ctz z -> Z.testbit z i = false.
Proof. destruct z; try lia. intros _. apply pos_ctz_low. Qed.

Lemma testbit_high w z i : in_w w z -> w <= i -> Z.testbit z i = false.
Proof.
  intros [H0 H1] Hi. destruct (decide (z = 0)) as [->|]; [apply Z.testbit_0_l|].
  apply Z.bits_above_log2; [done|].
  assert (Z.log2 z < w); [|lia]. apply Z.log2_lt_pow2; lia.
Qed.

Lemma ctz_lt w z : in_w w z -> 0 < z -> ctz z < w.
Proof.
  intros Hw Hz. destruct (decide (ctz z < w)) as [|H]; [done|].
  pose proof (ctz_set z Hz) as Hs. rewrite (testbit_high w) in Hs; [done|done|lia].
Qed.

(** A set bit makes a non-negative number positive. *)
Lemma testbit_pos z i : 0 <= z -> Z.testbit z i = true -> 0 < z.
Proof.
  intros H0 Ht. destruct (decide (z = 0)) as [->|]; [|lia].
  by rewrite Z.testbit_0_l in Ht.
Qed.

(** Extensionality of [w]-bit numbers. *)
Lemma bits_eq w x y :
  0 <= w -> in_w w x -> in_w w y ->
  (forall i, 0 <= i < w -> Z.testbit x i = Z.testbit y i) -> x = y.
Proof.
  intros Hw Hx Hy H. apply Z.bits_inj'. intros i Hi.
  destruct (decide (i < w)); [apply H; lia|].
  rewrite !(testbit_high w) by (done || lia). done.
Qed.

(** A number whose bits vanish from [w] on is below [2^w]. *)
Lemma in_w_bits w z :
  0 <= w -> 0 <= z -> (forall i, w <= i -> Z.testbit z i = false) -> in_w w z.
Proof.
  intros Hw Hz H. split; [done|].
  destruct (decide (z = 0)) as [->|]; [lia|].
  apply Z.log2_lt_pow2; [lia|]. destruct (decide (Z.log2 z < w)); [done|].
  pose proof (H (Z.log2 z) ltac:(lia)) as Hb. rewrite Z.bit_log2 in Hb by lia. done.
Qed.

Lemma in_w_lor w x y : 0 <= w -> in_w w x -> in_w w y -> in_w w (Z.lor x y).
Proof.
  intros Hw Hx Hy. apply in_w_bits; [done| |].
  - apply Z.lor_nonneg. unfold in_w in *. lia.
  - intros i Hi. rewrite Z.lor_spec, !(testbit_high w) by (done||lia). done.
Qed.
Lemma in_w_land_l w x y : 0 <= w -> in_w w x -> in_w w (Z.land x y).
Proof.
  intros Hw Hx. apply in_w_bits; [done| |].
  - apply Z.land_nonneg. unfold in_w in *. lia.
  - intros i Hi. rewrite Z.land_spec, (testbit_high w x) by (done||lia). done.
Qed.

Lemma pow2_testbit n i : 0 <= n -> Z.testbit (Z.shiftl 1 n) i = bool_decide (i = n).
Proof.
  intros. rewrite Z.shiftl_1_l, Z.pow2_bits_eqb by done.
  case_bool_decide; subst; [apply Z.eqb_refl|apply Z.eqb_neq; lia].
Qed.
Lemma in_w_shiftl1 w n : 0 <= n < w -> in_w w (Z.shiftl 1 n).
Proof.
  intros. rewrite Z.shiftl_1_l. split; [lia|]. apply Z.pow_lt_mono_r; lia.
Qed.

(** [x & ~(2^m - 1)] on [w] bits rounds down. *)
Lemma clear_low_bits w m x : 0 <= m <= w -> in_w w x -> Z.land x (Z.lxor (Z.ones m) (Z.ones w)) = x - x mod 2 ^ m.
Proof.
  intros Hw Hx. replace (x - x mod 2 ^ m) with (Z.shiftl (Z.shiftr x m) m).
  2: { rewrite Z.shiftl_mul_pow2, Z.shiftr_div_pow2 by lia. pose proof (Z.div_mod x (2 ^ m) ltac:(lia)). lia. }
  apply Z.bits_inj'. intros n Hn. rewrite Z.land_spec, Z.lxor_spec, !Z.testbit_ones_nonneg by lia.
  destruct (decide (n < m)) as [H|H].
  - rewrite Z.shiftl_spec_low by lia. rewrite (proj2 (Z.ltb_lt n m)), (proj2 (Z.ltb_lt n w)) by lia. apply andb_false_r.
  - rewrite Z.shiftl_spec_high, Z.shiftr_spec by lia. replace (n - m + m) with n by lia. rewrite (proj2 (Z.ltb_ge n m)) by lia.
    destruct (Z.ltb_spec n w); [by rewrite andb_true_r|]. symmetry. rewrite andb_false_r. by apply (testbit_high w).
Qed.

(** ** zget / zset *)

Lemma zget_Some {A} (l : list A) i x :
  zget l i = Some x <-> 0 <= i /\ l !! Z.to_nat i = Some x.
Proof. unfold zget. destruct (Z.leb_spec 0 i); naive_solver lia. Qed.
Lemma zget_is_Some {A} (l : list A) i :
  0 <= i < Z.of_nat (length l) -> exists x, zget l i = Some x.
Proof.
  intros. destruct (lookup_lt_is_Some_2 l (Z.to_nat i)) as [x Hx]; [lia|].
  exists x. apply zget_Some. split; [lia|done].
Qed.
Lemma zget_range {A} (l : list A) i x :
  zget l i = Some x -> 0 <= i < Z.of_nat (length l).
Proof. intros [? H%lookup_lt_Some]%zget_Some. lia. Qed.
Lemma zget_nat {A} (l : list A) (i : nat) : zget l (Z.of_nat i) = l !! i.
Proof. unfold zget. rewrite (proj2 (Z.leb_le _ _)), Nat2Z.id by lia. done. Qed.
Lemma zset_Some {A} (l : list A) i v :
  0 <= i < Z.of_nat (length l) -> zset l i v = Some (<[Z.to_nat i := v]> l).
Proof.
  intros. unfold zset. rewrite (proj2 (Z.leb_le 0 i)), (proj2 (Z.ltb_lt i _)) by lia. done.
Qed.
Lemma zset_inv {A} (l l' : list A) i v :
  zset l i v = Some l' -> 0 <= i < Z.of_nat (length l) /\ l' = <[Z.to_nat i := v]> l.
Proof.
  unfold zset. destruct (Z.leb_spec 0 i), (Z.ltb_spec i (Z.of_nat (length l)));
    simpl; intros; simplify_eq; split; lia || done.
Qed.
Lemma zget_insert_eq {A} (l : list A) i v :
  0 <= i < Z.of_nat (length l) -> zget (<[Z.to_nat i := v]> l) i = Some v.
Proof. intros. apply zget_Some. split; [lia|]. apply list_lookup_insert_eq. lia. Qed.
Lemma zget_insert_ne {A} (l : list A) i j v :
  0 <= i -> i <> j -> zget (<[Z.to_nat i := v]> l) j = zget l j.
Proof.
  intros. unfold zget. destruct (Z.leb_spec 0 j); [|done].
  apply list_lookup_insert_ne. lia.
Qed.
Lemma zget_insert {A} (l : list A) i j v :
  0 <= i < Z.of_nat (length l) ->
  zget (<[Z.to_nat i := v]> l) j = if decide (i = j) then Some v else zget l j.
Proof.
  intros. case_decide; subst; [by apply zget_insert_eq|apply zget_insert_ne; lia].
Qed.

(** ** slice / splice *)

Lemma slice_Some off n l :
  0 <= off -> 0 <= n -> off + n <= Z.of_nat (length l) ->
  slice off n l = Some (take (Z.to_nat n) (drop (Z.to_nat off) l)).
Proof.
  intros. unfold slice. rewrite !(proj2 (Z.leb_le _ _)) by lia. done.
Qed.
Lemma slice_inv off n l x :
  slice off n l = Some x ->
  0 <= off /\ 0 <= n /\ off + n <= Z.of_nat (length l) /\
  x = take (Z.to_nat n) (drop (Z.to_nat off) l).
Proof.
  unfold slice. destruct (Z.leb_spec 0 off), (Z.leb_spec 0 n),
    (Z.leb_spec (off + n) (Z.of_nat (length l))); simpl; intros; simplify_eq.
  repeat split; lia || done.
Qed.
Lemma slice_length off n l x : slice off n l = Some x -> Z.of_nat (length x) = n.
Proof.
  intros (?&?&?&->)%slice_inv. rewrite length_take, length_drop. lia.
Qed.
Lemma splice_Some off src l :
  0 <= off -> off + Z.of_nat (length src) <= Z.of_nat (length l) ->
  splice off src l =
    Some (take (Z.to_nat off) l ++ src ++ drop (Z.to_nat off + length src) l).
Proof. intros. unfold splice. rewrite !(proj2 (Z.leb_le _ _)) by lia. done. Qed.
Lemma splice_inv off src l l' :
  splice off src l = Some l' ->
  0 <= off /\ off + Z.of_nat (length src) <= Z.of_nat (length l) /\
  l' = take (Z.to_nat off) l ++ src ++ drop (Z.to_nat off + length src) l.
Proof.
  unfold splice. destruct (Z.leb_spec 0 off),
    (Z.leb_spec (off + Z.of_nat (length src)) (Z.of_nat (length l)));
    simpl; intros; simplify_eq. repeat split; lia || done.
Qed.
Lemma splice_length off src l l' : splice off src l = Some l' -> length l' = length l.
Proof.
  intros (?&?&->)%splice_inv. rewrite !length_app, length_take, length_drop. lia.
Qed.

(** Reading back what was just copied. *)
Lemma slice_splice_eq off src l l' :
  splice off src l = Some l' -> slice off (Z.of_nat (length src)) l' = Some src.
Proof.
  intros Hs. pose proof (splice_length _ _ _ _ Hs) as Hl.
  apply splice_inv in Hs as (?&?&->). rewrite slice_Some by lia. f_equal.
  rewrite drop_app_ge; rewrite length_take; [|lia].
  replace (Z.to_nat off - Z.to_nat off `min` length l)%nat with 0%nat by lia.
  rewrite drop_0, Nat2Z.id, take_app_length. done.
Qed.

(** A range that does not meet the copied one is unchanged. *)
Lemma slice_splice_ne off src l l' o n :
  splice off src l = Some l' ->
  o + n <= off \/ off + Z.of_nat (length src) <= o ->
  slice o n l' = slice o n l.
Proof.
  intros Hs Hd. pose proof (splice_length _ _ _ _ Hs) as Hl.
  apply splice_inv in Hs as (?&?&->). unfold slice. rewrite Hl.
  destruct (_ && _) eqn:E; [|done].
  rewrite !andb_true_iff, !Z.leb_le in E. destruct E as [[? ?] ?]. f_equal.
  destruct Hd as [Hd|Hd].
  - rewrite drop_app_le by (rewrite length_take; lia).
    rewrite take_app_le by (rewrite length_drop, length_take; lia).
    rewrite skipn_firstn_comm, take_take. f_equal. lia.
  - rewrite drop_app_ge; rewrite length_take; [|lia].
    rewrite drop_app_ge by lia. rewrite drop_drop. do 2 f_equal. lia.
Qed.

(** ** Little-endian codec *)

Lemma le_enc_length n v : length (le_enc n v) = n.
Proof. revert v; induction n; intros; simpl; auto. Qed.
Lemma le_enc_bytes n v : Forall byte_ok (le_enc n v).
Proof.
  revert v; induction n; intros; simpl; constructor; [|done].
  apply Z.mod_pos_bound. lia.
Qed.
Lemma le_dec_enc n v : 0 <= v < 256 ^ Z.of_nat n -> le_dec (le_enc n v) = v.
Proof.
  revert v; induction n as [|n IH]; intros v Hv; [simpl in *; lia|].
  rewrite Nat2Z.inj_succ, Z.pow_succ_r in Hv by lia.
  cbn [le_enc le_dec]. rewrite IH; [pose proof (Z.div_mod v 256); lia|].
  split; [apply Z.div_pos; lia|]. apply Z.div_lt_upper_bound; lia.
Qed.
Lemma le_dec_bound l : Forall byte_ok l -> 0 <= le_dec l < 256 ^ Z.of_nat (length l).
Proof.
  induction 1 as [|b l Hb Hl IH]; [done|].
  cbn [length le_dec]. rewrite Nat2Z.inj_succ, Z.pow_succ_r by lia.
  unfold byte_ok in Hb. lia.
Qed.
Lemma le_enc_dec l : Forall byte_ok l -> le_enc (length l) (le_dec l) = l.
Proof.
  induction 1 as [|b l Hb Hl IH]; [done|]. cbn [length le_dec le_enc]. unfold byte_ok in Hb.
  rewrite Z.mul_comm, Z_mod_plus_full, Z.div_add, (Z.mod_small b), (Z.div_small b) by lia.
  by rewrite Z.add_0_l, IH.
Qed.

Lemma get_put_le_eq n off v l l' :
  put_le n off v l = Some l' -> 0 <= n -> 0 <= v < 256 ^ n ->
  get_le n off l' = Some v.
Proof.
  unfold put_le, get_le. intros H Hn Hv. apply slice_splice_eq in H.
  rewrite le_enc_length, Z2Nat.id in H by done. rewrite H. simpl.
  rewrite le_dec_enc by (rewrite Z2Nat.id; done). done.
Qed.
Lemma get_put_le_ne n off v l l' m o :
  put_le n off v l = Some l' -> 0 <= n ->
  o + m <= off \/ off + n <= o -> get_le m o l' = get_le m o l.
Proof.
  unfold put_le, get_le. intros H Hn Hd. erewrite slice_splice_ne; [done|exact H|].
  rewrite le_enc_length. lia.
Qed.
(** Reading a field of a structure that was laid out by concatenation. *)
Lemma slice_app_at off n p x q :
  Z.of_nat (length p) = off -> Z.of_nat (length x) = n -> slice off n (p ++ x ++ q) = Some x.
Proof.
  intros <- <-. rewrite slice_Some by (rewrite ?length_app; lia).
  rewrite !Nat2Z.id, drop_app_length, take_app_length. done.
Qed.
Lemma get_le_at n off p q v :
  Z.of_nat (length p) = off -> 0 <= n -> 0 <= v < 256 ^ n ->
  get_le n off (p ++ le_enc (Z.to_nat n) v ++ q) = Some v.
Proof.
  intros Hp Hn Hv. unfold get_le. rewrite slice_app_at by (rewrite ?le_enc_length; lia). simpl.
  rewrite le_dec_enc by (rewrite Z2Nat.id; done). done.
Qed.
Lemma put_le_length n off v l l' : put_le n off v l = Some l' -> length l' = length l.
Proof. apply splice_length. Qed.
Lemma put_le_Some n off v l :
  0 <= off -> 0 <= n -> off + n <= Z.of_nat (length l) -> exists l', put_le n off v l = Some l'.
Proof.
  intros. unfold put_le. rewrite splice_Some; [eauto|done|]. rewrite le_enc_length. lia.
Qed.

(** ** Sequences and filters *)

Lemma seqZ_1 m : seqZ m 1 = [m].
Proof. done. Qed.

Lemma filter_iff_in {A} (P Q : A -> Prop)
    `{!forall x, Decision (P x), !forall x, Decision (Q x)} (l : list A) :
  (forall x, x ∈ l -> P x <-> Q x) -> filter P l = filter Q l.
Proof.
  induction l as [|x l IH]; intros Hiff; [done|].
  pose proof (Hiff x ltac:(left)) as Hx. rewrite !filter_cons, IH by (intros; apply Hiff; by right).
  repeat case_decide; tauto.
Qed.

Lemma filter_none {A} (P : A -> Prop) `{!forall x, Decision (P x)} (l : list A) :
  (forall x, x ∈ l -> ~ P x) -> filter P l = [].
Proof.
  induction l as [|x l IH]; intros Hn; [done|].
  rewrite filter_cons_False, IH by (intros; apply Hn; by constructor). done.
Qed.

(** Two predicates that differ only at one element of a duplicate-free list. *)
Lemma filter_length_flip {A} (P Q : A -> Prop)
    `{!forall x, Decision (P x), !forall x, Decision (Q x)} (l : list A) (a : A) :
  NoDup l -> a ∈ l -> P a -> ~ Q a -> (forall x, x ∈ l -> x <> a -> P x <-> Q x) ->
  length (filter P l) = S (length (filter Q l)).
Proof.
  intros Hnd Ha HP HQ Hiff. apply list_elem_of_split in Ha as (l1&l2&->).
  apply NoDup_app in Hnd as (?&Hn1&[Hn2 ?]%NoDup_cons).
  rewrite !filter_app, !length_app, filter_cons_True, filter_cons_False by done. simpl.
  rewrite (filter_iff_in P Q l1), (filter_iff_in P Q l2); [lia| |];
    intros x Hx; apply Hiff; set_solver.
Qed.

(** ** The fault monad *)

Lemma mbind_Some {S A B} (m : M S A) (k : A -> M S B) s a s' :
  m s = Some (a, s') -> mbind_ m k s = k a s'.
Proof. unfold mbind_. by intros ->. Qed.
Lemma mbind_inv {S A B} (m : M S A) (k : A -> M S B) s r :
  mbind_ m k s = Some r -> exists a s', m s = Some (a, s') /\ k a s' = Some r.
Proof. unfold mbind_. destruct (m s) as [[a s']|]; naive_solver. Qed.

(** Runs one monadic step whose result is known. *)
Ltac mstep H := rewrite (mbind_Some _ _ _ _ _ H).
(** Inverts the head of a run that did return. *)
Ltac minv H :=
  let a := fresh "a" in let s := fresh "s" in let Hm := fresh "Hm" in
  apply mbind_inv in H as (a & s & Hm & H).

(** A counted loop runs to its end when every iteration keeps the invariant. *)
Lemma for_range_inv {S} (I : Z -> S -> Prop) a b body s :
  a <= b -> I a s ->
  (forall i s, a <= i < b -> I i s -> exists s', body i s = Some (tt, s') /\ I (i + 1) s') ->
  exists s', for_range a b body s = Some (tt, s') /\ I b s'.
Proof.
  intros Hab HI Hb. unfold for_range.
  assert (forall n i s, a <= i -> i + Z.of_nat n = b -> I i s ->
    exists s', for_n n i body s = Some (tt, s') /\ I b s') as Hn.
  { induction n as [|n IH]; intros i t Hi He Ht; simpl.
    - exists t. replace b with i by lia. done.
    - destruct (Hb i t) as (t'&Hr&Ht'); [lia|done|].
      rewrite (mbind_Some _ _ _ _ _ Hr). apply IH; [lia..|done]. }
  apply Hn; [lia..|done].
Qed.
Lemma for_range_empty {S} a b (body : Z -> M S unit) s :
  b <= a -> for_range a b body s = Some (tt, s).
Proof. intros. unfold for_range. replace (Z.to_nat (b - a)) with 0%nat by lia. done. Qed.

(** ** Overwriting a field *)

Lemma splice_splice off a b l l' : length a = length b -> splice off b l = Some l' -> splice off a l' = splice off a l.
Proof.
  intros Hab Hs. pose proof (splice_length _ _ _ _ Hs) as Hl. unfold splice. rewrite Hl.
  destruct (_ && _) eqn:E; [|done]. apply andb_true_iff in E as [E1%Z.leb_le E2%Z.leb_le]. f_equal.
  apply splice_inv in Hs as (_&_&->). f_equal; [|f_equal].
  - rewrite take_app_le by (rewrite length_take; lia). rewrite take_take. f_equal. lia.
  - rewrite drop_app_ge by (rewrite length_take; lia). rewrite length_take.
    rewrite drop_app_ge by lia. rewrite drop_drop. f_equal. lia.
Qed.
Lemma splice_slice off n l x : slice off n l = Some x -> splice off x l = Some l.
Proof.
  intros Hs. pose proof (slice_length _ _ _ _ Hs) as Hx. apply slice_inv in Hs as (?&?&?&->).
  rewrite splice_Some by lia. f_equal. rewrite length_take, length_drop.
  replace (Z.to_nat off + _)%nat with (Z.to_nat off + Z.to_nat n)%nat by lia.
  rewrite <-drop_drop, take_drop, take_drop. done.
Qed.
Lemma put_get_le n off v l :
  Forall byte_ok l -> 0 <= n -> get_le n off l = Some v -> put_le n off v l = Some l.
Proof.
  intros Hb Hn. unfold get_le, put_le. destruct (slice off n l) as [x|] eqn:E; [|done]. intros [= <-].
  pose proof (slice_length _ _ _ _ E) as Hx. rewrite <-(splice_slice _ _ _ _ E). f_equal.
  replace (Z.to_nat n) with (length x) by lia. apply le_enc_dec.
  apply slice_inv in E as (_&_&_&->). by apply Forall_take, Forall_drop.
Qed.
Lemma put_put_le n off v w l l' : put_le n off w l = Some l' -> put_le n off v l' = put_le n off v l.
Proof. unfold put_le. apply splice_splice. by rewrite !le_enc_length. Qed.
Lemma get_le_bound n off l v : Forall byte_ok l -> get_le n off l = Some v -> 0 <= v < 256 ^ n.
Proof.
  intros Hb. unfold get_le. destruct (slice off n l) as [x|] eqn:E; [|done]. intros [= <-].
  pose proof (slice_length _ _ _ _ E) as Hx. rewrite <-Hx. apply le_dec_bound.
  apply slice_inv in E as (_&_&_&->). by apply Forall_take, Forall_drop.
Qed.
Lemma get_le_Some n off l : 0 <= off -> 0 <= n -> off + n <= Z.of_nat (length l) -> exists v, get_le n off l = Some v.
Proof. intros. unfold get_le. rewrite slice_Some by done. eexists. done. Qed.
Lemma splice_bytes o s l l' : splice o s l = Some l' -> Forall byte_ok s -> Forall byte_ok l -> Forall byte_ok l'.
Proof.
  intros (?&?&->)%splice_inv Hs Hl. apply Forall_app. split; [by apply Forall_take|].
  apply Forall_app. split; [done|by apply Forall_drop].
Qed.
Lemma put_le_bytes n off v l l' : put_le n off v l = Some l' -> Forall byte_ok l -> Forall byte_ok l'.
Proof. unfold put_le. intros. eapply splice_bytes; [done|apply le_enc_bytes|done]. Qed.

(** ** Signed readings *)

Lemma u32_i32 x d : u32 (i32 x + d) = u32 (x + d).
Proof.
  unfold u32, i32, swrap, wrap. destruct (_ <? _); [by rewrite Zplus_mod_idemp_l|].
  replace (x mod 2 ^ 32 - 2 ^ 32 + d) with (x mod 2 ^ 32 + d + (-1) * 2 ^ 32) by lia.
  rewrite Z_mod_plus_full. apply Zplus_mod_idemp_l.
Qed.
Lemma small_i32 x : 0 <= x < 2 ^ 31 -> i32 (u32 x) = x.
Proof.
  intros. unfold i32, swrap, u32. rewrite !(wrap_small 32) by (rewrite ?(wrap_small 32); unfold in_w; lia).
  rewrite (proj2 (Z.ltb_lt _ _)) by (change (32 - 1) with 31; lia). done.
Qed.

(** Two adjacent copies are one. *)
Lemma splice_app off a b l l1 : splice off a l = Some l1 ->
  off + Z.of_nat (length a) + Z.of_nat (length b) <= Z.of_nat (length l) ->
  splice (off + Z.of_nat (length a)) b l1 = splice off (a ++ b) l.
Proof.
  intros Hs Hb. pose proof (splice_length _ _ _ _ Hs) as Hl. apply splice_inv in Hs as (H0&H1&->).
  rewrite splice_Some by lia. rewrite splice_Some by (rewrite ?length_app; lia). f_equal.
  replace (Z.to_nat (off + Z.of_nat (length a))) with (Z.to_nat off + length a)%nat by lia.
  rewrite <-!app_assoc. rewrite (take_app_ge (take _ l)) by (rewrite length_take; lia). rewrite length_take.
  replace (Z.to_nat off + length a - Z.to_nat off `min` length l)%nat with (length a) by lia.
  rewrite take_app_length, <-!app_assoc. do 3 f_equal.
  rewrite drop_app_ge by (rewrite length_take; lia). rewrite drop_app_ge by (rewrite length_take; lia).
  rewrite drop_drop, length_take, length_app. f_equal. lia.
Qed.
