(* ===== verification/LinkedList.v ===== *)
(** * Pointer-linked lists in a heap

    The kernel threads its data structures through pointer fields: the ready
    queues ([task_t.next]), the buddy free lists ([buddy_node_t.next]), the hash
    chains and the LRU list of the buffer cache.  This file gives the shared
    vocabulary: a heap [gmap nat A], a [link] that says which field is the
    pointer, the predicates "this pointer heads this list" ([lseg], [dseg]),
    the C idiom [pp = &head; while ( *pp ) ... pp = &( *pp )->next] as [unlink],
    and the frame, append and removal lemmas that the components use. *)

From stdpp Require Import base numbers gmap list.
From stdpp Require Import options.
From S2P Require Import Prelude.

#[local] Open Scope nat_scope.

(** A pointer field of a structure [A]. *)
Record link (A : Type) := Link {
  lget : A -> option nat;
  lset : option nat -> A -> A;
  lget_lset : forall p a, lget (lset p a) = p
}.
Arguments Link {A} _ _ _.
Arguments lget {A} _ _.
Arguments lset {A} _ _ _.
Arguments lget_lset {A} _ _ _.

Section Single.
Context {A : Type} (f : link A).
Implicit Types (h : gmap nat A) (p q : option nat) (l : list nat).

(** [lseg h p l q]: following [f] from [p] visits [l] and arrives at [q]. *)
Fixpoint lseg (h : gmap nat A) (p : option nat) (l : list nat) (q : option nat) : Prop :=
  match l with
  | [] => p = q
  | x :: l' => p = Some x /\ exists a, h !! x = Some a /\ lseg h (lget f a) l' q
  end.

(** The pointer-to-pointer walk.  [pp = None] stands for [&head], [Some y] for
    [&y->next].  The first node that satisfies [P] is unlinked and returned. *)
Fixpoint unlink (fuel : nat) (P : nat -> A -> bool) (h : gmap nat A) (pp head : option nat)
  : option (option nat * option nat * gmap nat A) :=
  match fuel with
  | O => None
  | S fuel' =>
    match (match pp with None => Some head | Some y => lget f <$> h !! y end) with
    | None => None
    | Some None => Some (None, head, h)
    | Some (Some x) =>
      match h !! x with
      | None => None
      | Some a =>
        if P x a then
          match pp with
          | None => Some (Some x, lget f a, h)
          | Some y => Some (Some x, head, alter (lset f (lget f a)) y h)
          end
        else unlink fuel' P h (Some x) head
      end
    end
  end.

(** [t = head; while (t->next) t = t->next;] *)
Fixpoint walk_last (fuel : nat) (h : gmap nat A) (t : nat) : option nat :=
  match fuel with
  | O => None
  | S fuel' =>
    match h !! t with
    | None => None
    | Some a => match lget f a with None => Some t | Some t' => walk_last fuel' h t' end
    end
  end.

(** [while (t) { if (P(t)) return t; t = t->next; }] *)
Fixpoint walk_find (fuel : nat) (P : nat -> A -> bool) (h : gmap nat A) (p : option nat)
  : option (option nat) :=
  match fuel with
  | O => None
  | S fuel' =>
    match p with
    | None => Some None
    | Some x =>
      match h !! x with
      | None => None
      | Some a => if P x a then Some (Some x) else walk_find fuel' P h (lget f a)
      end
    end
  end.

Lemma lseg_app h p l1 l2 q :
  lseg h p (l1 ++ l2) q <-> exists r, lseg h p l1 r /\ lseg h r l2 q.
Proof.
  revert p; induction l1 as [|x l1 IH]; intros p; simpl; [naive_solver|].
  split.
  - intros (-> & a & Ha & (r & ? & ?)%IH). naive_solver.
  - intros (r & (-> & a & Ha & ?) & ?). split; [done|]. exists a. rewrite IH. naive_solver.
Qed.

Lemma lseg_in h p l q x : lseg h p l q -> x ∈ l -> is_Some (h !! x).
Proof.
  revert p; induction l as [|y l IH]; intros p; simpl; [set_solver|].
  intros (-> & a & Ha & Hl) [->|Hx]%elem_of_cons; [eauto|eapply IH; done].
Qed.

(** A change that keeps the pointer fields of the list's nodes keeps the list. *)
Lemma lseg_frame h h' p l q :
  (forall x, x ∈ l -> lget f <$> h' !! x = lget f <$> h !! x) ->
  lseg h p l q -> lseg h' p l q.
Proof.
  revert p; induction l as [|x l IH]; intros p Hf; simpl; [done|].
  intros (-> & a & Ha & Hl). split; [done|].
  pose proof (Hf x (list_elem_of_here _ _)) as Hx. rewrite Ha in Hx. simpl in Hx.
  destruct (h' !! x) as [a'|]; [|done]. injection Hx as Hx. exists a'. split; [done|].
  rewrite Hx. apply IH; [|done]. intros y Hy. apply Hf. by apply list_elem_of_further.
Qed.

Lemma lseg_insert_ne h p l q x a : x ∉ l -> lseg h p l q -> lseg (<[x:=a]> h) p l q.
Proof.
  intros Hx. apply lseg_frame. intros y Hy. rewrite lookup_insert_ne by set_solver. done.
Qed.

Lemma lseg_head h p l : lseg h p l None -> p = head l.
Proof. destruct l; simpl; [done|naive_solver]. Qed.

(** Two lists read off the same pointer are the same. *)
Lemma lseg_det h p l1 l2 : lseg h p l1 None -> lseg h p l2 None -> l1 = l2.
Proof.
  revert p l2; induction l1 as [|x l1 IH]; intros p [|y l2]; simpl;
    [done|by intros -> [? _]|by intros [-> _]|].
  intros (-> & a & Ha & H1) (? & b & Hb & H2). simplify_eq. f_equal. eauto.
Qed.

(** Linking the last node of one list to the head of another. *)
Lemma lseg_join h p l t b p2 l2 :
  lseg h p (l ++ [t]) None -> lseg h p2 l2 None -> NoDup (l ++ [t]) ->
  (forall x, x ∈ l ++ [t] -> x ∉ l2) -> h !! t = Some b ->
  lseg (<[t := lset f p2 b]> h) p ((l ++ [t]) ++ l2) None.
Proof.
  intros Hl Hl2 Hnd Hx Hb. apply lseg_app in Hl as (r & Hl & Ht). simpl in Ht.
  destruct Ht as (-> & b' & Hb' & _). apply NoDup_app in Hnd as (_ & Hd & _).
  assert (t ∉ l) by (intros ?; eapply Hd; [done|set_solver]).
  apply lseg_app. exists p2. split; [|apply lseg_insert_ne; [apply Hx; set_solver|done]].
  apply lseg_app. exists (Some t). split; [by apply lseg_insert_ne|].
  simpl. split; [done|]. eexists. rewrite lookup_insert_eq. split; [done|]. apply lget_lset.
Qed.

(** Appending a fresh node behind the last one. *)
Lemma lseg_snoc h p l t x a b :
  lseg h p (l ++ [t]) None -> NoDup (l ++ [t]) -> x ∉ l ++ [t] ->
  h !! t = Some b -> h !! x = Some a -> lget f a = None ->
  lseg (<[t := lset f (Some x) b]> h) p ((l ++ [t]) ++ [x]) None.
Proof.
  intros Hl Hnd Hx Hb Ha Hn. apply lseg_join; [done| |done| |done].
  - simpl. eauto.
  - intros y Hy ->%list_elem_of_singleton. done.
Qed.

(** [unlink] on a list whose first match is [x]. *)
Lemma unlink_from_spec fuel P h pp head p l1 x l2 a :
  (match pp with None => Some head | Some y => lget f <$> h !! y end) = Some p ->
  lseg h p (l1 ++ x :: l2) None ->
  (forall y b, y ∈ l1 -> h !! y = Some b -> P y b = false) ->
  h !! x = Some a -> P x a = true -> length l1 < fuel ->
  unlink fuel P h pp head =
    Some (match last l1 with
          | Some y => (Some x, head, alter (lset f (lget f a)) y h)
          | None => match pp with
                    | None => (Some x, lget f a, h)
                    | Some y => (Some x, head, alter (lset f (lget f a)) y h)
                    end
          end).
Proof.
  revert fuel pp p; induction l1 as [|z l1 IH]; intros [|fuel] pp p Hpp Hl HP Ha HPx Hf;
    simpl in *; try lia.
  - destruct Hl as (-> & a' & Ha' & _). rewrite Hpp, Ha, HPx. by destruct pp.
  - destruct Hl as (-> & b & Hb & Hl). rewrite Hpp, Hb, (HP z b) by set_solver.
    rewrite (IH fuel (Some z) (lget f b)); [..|done|lia].
    + rewrite last_cons. destruct (last l1); done.
    + by rewrite Hb.
    + done.
    + intros y c Hy. apply HP. set_solver.
    + done.
Qed.

Lemma unlink_spec fuel P h head l1 x l2 a :
  lseg h head (l1 ++ x :: l2) None ->
  (forall y b, y ∈ l1 -> h !! y = Some b -> P y b = false) ->
  h !! x = Some a -> P x a = true -> length l1 < fuel ->
  unlink fuel P h None head =
    Some (match last l1 with
          | Some y => (Some x, head, alter (lset f (lget f a)) y h)
          | None => (Some x, lget f a, h)
          end).
Proof. intros. by erewrite unlink_from_spec. Qed.

(** No match: the walk ends at NULL and changes nothing. *)
Lemma unlink_from_none fuel P h pp head p l :
  (match pp with None => Some head | Some y => lget f <$> h !! y end) = Some p ->
  lseg h p l None ->
  (forall y b, y ∈ l -> h !! y = Some b -> P y b = false) -> length l < fuel ->
  unlink fuel P h pp head = Some (None, head, h).
Proof.
  revert fuel pp p; induction l as [|z l IH]; intros [|fuel] pp p Hpp Hl HP Hf;
    simpl in *; try lia; subst.
  - by rewrite Hpp.
  - destruct Hl as (-> & b & Hb & Hl). rewrite Hpp, Hb, (HP z b) by set_solver.
    eapply IH; [by rewrite Hb|done| |lia]. intros y c Hy. apply HP. set_solver.
Qed.

Lemma unlink_none fuel P h head l :
  lseg h head l None ->
  (forall y b, y ∈ l -> h !! y = Some b -> P y b = false) -> length l < fuel ->
  unlink fuel P h None head = Some (None, head, h).
Proof. intros. eapply unlink_from_none; eauto. Qed.

(** After the removal of [x] the pointers spell the list without [x]. *)
Lemma lseg_remove h p l1 x l2 a :
  lseg h p (l1 ++ x :: l2) None -> NoDup (l1 ++ x :: l2) -> h !! x = Some a ->
  match last l1 with
  | Some y => lseg (alter (lset f (lget f a)) y h) p (l1 ++ l2) None
  | None => lseg h (lget f a) (l1 ++ l2) None
  end.
Proof.
  intros Hl Hnd Ha. apply lseg_app in Hl as (r & H1 & H2). simpl in H2.
  destruct H2 as (-> & a' & Ha' & H2). rewrite Ha in Ha'. injection Ha' as <-.
  destruct (last l1) as [y|] eqn:Hy.
  - apply last_Some in Hy as [l' ->]. rewrite <-app_assoc in Hnd |- *. simpl in *.
    apply NoDup_app in Hnd as (Hn1 & Hd & Hn2). rewrite !NoDup_cons in Hn2.
    destruct Hn2 as (Hyx & Hx & Hn2).
    apply lseg_app in H1 as (r & H1 & Hy). simpl in Hy. destruct Hy as (-> & b & Hb & Hbx).
    apply lseg_app. exists (Some y). split.
    { eapply lseg_frame; [|done]. intros z Hz. rewrite lookup_alter_ne; [done|].
      intros ->. eapply Hd; [done|set_solver]. }
    simpl. split; [done|]. eexists. rewrite lookup_alter_eq, Hb. split; [done|].
    rewrite lget_lset. eapply lseg_frame; [|done]. intros z Hz.
    rewrite lookup_alter_ne by set_solver. done.
  - apply last_None in Hy as ->. done.
Qed.

Lemma walk_last_spec fuel h p l t :
  lseg h p (l ++ [t]) None -> length l < fuel ->
  exists x, p = Some x /\ walk_last fuel h x = Some t.
Proof.
  revert fuel p; induction l as [|z l IH]; intros [|fuel] p; simpl; try lia.
  - intros (-> & a & Ha & Hn) _. exists t. rewrite Ha, Hn. done.
  - intros (-> & a & Ha & Hl) Hf. exists z. split; [done|]. rewrite Ha.
    destruct (IH fuel (lget f a) Hl) as (y & Hy & Hw); [lia|]. by rewrite Hy.
Qed.

Lemma walk_find_none fuel P h p l :
  lseg h p l None -> (forall y b, y ∈ l -> h !! y = Some b -> P y b = false) ->
  length l < fuel -> walk_find fuel P h p = Some None.
Proof.
  revert fuel p; induction l as [|z l IH]; intros [|fuel] p; simpl; try lia; [by intros ->|].
  intros (-> & a & Ha & Hl) HP Hf. rewrite Ha, (HP z a) by set_solver.
  apply IH; [done| |lia]. intros y b Hy. apply HP. set_solver.
Qed.

Lemma walk_find_some fuel P h p l1 x l2 a :
  lseg h p (l1 ++ x :: l2) None ->
  (forall y b, y ∈ l1 -> h !! y = Some b -> P y b = false) ->
  h !! x = Some a -> P x a = true -> length l1 < fuel ->
  walk_find fuel P h p = Some (Some x).
Proof.
  revert fuel p; induction l1 as [|z l IH]; intros [|fuel] p; simpl; try lia.
  - intros (-> & a' & Ha' & _) _ Ha HP _. by rewrite Ha, HP.
  - intros (-> & b & Hb & Hl) HP Ha HPx Hf. rewrite Hb, (HP z b) by set_solver.
    apply IH; [done| |done..|lia]. intros y c Hy. apply HP. set_solver.
Qed.

(** The walk ends at NULL or at a node that satisfies [P]. *)
Lemma walk_find_total fuel P h p l :
  lseg h p l None -> length l < fuel ->
  (walk_find fuel P h p = Some None /\ forall y b, y ∈ l -> h !! y = Some b -> P y b = false) \/
  exists x a, walk_find fuel P h p = Some (Some x) /\ x ∈ l /\ h !! x = Some a /\ P x a = true.
Proof.
  revert fuel p; induction l as [|z l IH]; intros [|fuel] p; simpl; try lia.
  { intros -> _. left. split; [done|]. set_solver. }
  intros (-> & a & Ha & Hl) Hf. rewrite Ha. destruct (P z a) eqn:HP.
  { right. exists z, a. split; [done|]. split; [left|done]. }
  destruct (IH fuel (lget f a) Hl) as [[Hw Hn]|(x & b & Hw & Hx & Hb & Hp)]; [lia|left|right].
  - split; [done|]. intros y b [->|Hy]%elem_of_cons Hb; [congruence|eauto].
  - exists x, b. split; [done|]. split; [by right|done].
Qed.
End Single.

Arguments unlink {A} f fuel P h pp head : simpl never.
Arguments walk_last {A} f fuel h t : simpl never.
Arguments walk_find {A} f fuel P h p : simpl never.

(** ** Doubly linked segments *)

Section Double.
Context {A : Type} (fn fp : link A).
Implicit Types (h : gmap nat A) (l : list nat).

Definition opt_or (o d : option nat) : option nat :=
  match o with Some y => Some y | None => d end.

(** Every node of [l] is in the heap, its [fp] field is its left neighbour
    ([prev] for the first) and its [fn] field its right one ([nxt] for the last). *)
Fixpoint dseg (h : gmap nat A) (prev : option nat) (l : list nat) (nxt : option nat) : Prop :=
  match l with
  | [] => True
  | x :: l' =>
    (exists a, h !! x = Some a /\ lget fp a = prev /\
               lget fn a = opt_or (head l') nxt) /\
    dseg h (Some x) l' nxt
  end.

Lemma opt_or_last x l d : opt_or (last (x :: l)) d = opt_or (last l) (Some x).
Proof. rewrite last_cons. by destruct (last l). Qed.
Lemma opt_or_head_app l1 l2 d : opt_or (head (l1 ++ l2)) d = opt_or (head l1) (opt_or (head l2) d).
Proof. by destruct l1. Qed.

Lemma dseg_app h prev l1 l2 nxt :
  dseg h prev (l1 ++ l2) nxt <->
  dseg h prev l1 (opt_or (head l2) nxt) /\ dseg h (opt_or (last l1) prev) l2 nxt.
Proof.
  revert prev; induction l1 as [|x l1 IH]; intros prev; [simpl; naive_solver|].
  cbn [app dseg]. rewrite opt_or_last, IH.
  rewrite opt_or_head_app. naive_solver.
Qed.

Lemma dseg_frame h h' prev l nxt :
  (forall x, x ∈ l -> (fun a => (lget fp a, lget fn a)) <$> h' !! x =
                      (fun a => (lget fp a, lget fn a)) <$> h !! x) ->
  dseg h prev l nxt -> dseg h' prev l nxt.
Proof.
  revert prev; induction l as [|x l IH]; intros prev Hf; simpl; [done|].
  intros ((a & Ha & Hp & Hn) & Hl). split.
  - pose proof (Hf x (list_elem_of_here _ _)) as Hx. rewrite Ha in Hx.
    destruct (h' !! x) as [a'|]; [|done]. injection Hx as Hx1 Hx2.
    exists a'. split_and!; congruence.
  - apply IH; [|done]. intros y Hy. apply Hf. by apply list_elem_of_further.
Qed.

Lemma dseg_in h prev l nxt x : dseg h prev l nxt -> x ∈ l -> is_Some (h !! x).
Proof.
  revert prev; induction l as [|y l IH]; intros prev; simpl; [set_solver|].
  intros ((a & Ha & _) & Hl) [->|Hx]%elem_of_cons; [eauto|eapply IH; done].
Qed.

(** The two pointer fields are different fields. *)
Context (Hnp : forall p a, lget fp (lset fn p a) = lget fp a)
        (Hpn : forall p a, lget fn (lset fp p a) = lget fn a).

Lemma dseg_alter_ne h x g prev l nxt : x ∉ l -> dseg h prev l nxt -> dseg (alter g x h) prev l nxt.
Proof.
  intros Hx. apply dseg_frame. intros y Hy. rewrite lookup_alter_ne; [done|]. by intros ->.
Qed.

(** Redirecting the right end, or the left end, of a segment. *)
Lemma dseg_set_last h prev l y nxt nxt' : y ∉ l ->
  dseg h prev (l ++ [y]) nxt -> dseg (alter (lset fn nxt') y h) prev (l ++ [y]) nxt'.
Proof using Hnp.
  intros Hy. rewrite !dseg_app. cbn [head opt_or dseg]. intros [Hl [(a & Ha & Hp & _) _]]. split.
  - by apply dseg_alter_ne.
  - split; [|done]. exists (lset fn nxt' a). rewrite lookup_alter_eq, Ha, Hnp, lget_lset. done.
Qed.
Lemma dseg_set_head h prev prev' y l nxt : y ∉ l ->
  dseg h prev (y :: l) nxt -> dseg (alter (lset fp prev') y h) prev' (y :: l) nxt.
Proof using Hpn.
  intros Hy [(a & Ha & _ & Hn) Hl]. split; [|by apply dseg_alter_ne].
  exists (lset fp prev' a). rewrite lookup_alter_eq, Ha, Hpn, lget_lset. done.
Qed.

(** The heap after [x->prev->next = x->next; x->next->prev = x->prev]. *)
Definition bypass (h : gmap nat A) (p n : option nat) : gmap nat A :=
  let h1 := match p with Some y => alter (lset fn n) y h | None => h end in
  match n with Some y => alter (lset fp p) y h1 | None => h1 end.

Lemma dseg_bypass h l1 x l2 :
  NoDup (l1 ++ x :: l2) -> dseg h None (l1 ++ x :: l2) None ->
  dseg (bypass h (last l1) (head l2)) None (l1 ++ l2) None.
Proof using Hnp Hpn.
  intros Hnd. rewrite !dseg_app. cbn [head opt_or dseg]. intros [H1 [_ H2]].
  apply NoDup_app in Hnd as (Hn1 & Hdis & [Hx Hn2]%NoDup_cons).
  assert (G1 : dseg (bypass h (last l1) (head l2)) None l1 (head l2)).
  { unfold bypass. assert (forall h, dseg h None l1 (head l2) ->
      dseg (match head l2 with Some y => alter (lset fp (last l1)) y h | None => h end) None l1 (head l2)) as Hw.
    { intros h' Hd. destruct l2 as [|y l2]; [done|]. simpl. apply dseg_alter_ne; [|done]. set_solver. }
    apply Hw. destruct (last l1) as [y|] eqn:Ey; [|by apply last_None in Ey; subst].
    apply last_Some in Ey as [l1' ->]. apply NoDup_app in Hn1 as (_ & Hy & _).
    eapply dseg_set_last; [|done]. set_solver. }
  assert (G2 : dseg (bypass h (last l1) (head l2)) (opt_or (last l1) None) l2 None).
  { unfold bypass. assert (dseg (match last l1 with Some y => alter (lset fn (head l2)) y h | None => h end)
      (Some x) l2 None) as Hd.
    { destruct (last l1) as [y|] eqn:Ey; [|done]. apply dseg_alter_ne; [|done].
      apply last_Some in Ey as [l1' ->]. set_solver. }
    replace (opt_or (last l1) None) with (last l1) by (by destruct (last l1)).
    destruct l2 as [|y l2]; [done|]. cbn [head]. apply NoDup_cons in Hn2 as [? _].
    by eapply dseg_set_head. }
  by replace (opt_or (head l2) None) with (head l2) by (by destruct l2).
Qed.

Lemma dseg_links h l1 x l2 a : dseg h None (l1 ++ x :: l2) None -> h !! x = Some a ->
  lget fp a = last l1 /\ lget fn a = head l2.
Proof.
  rewrite dseg_app. intros [_ [(a' & Ha' & Hp & Hn) _]] Ha. rewrite Ha in Ha'. injection Ha' as <-.
  rewrite Hp, Hn. by destruct (last l1), (head l2).
Qed.

(** Walking backwards along [fp] visits the list in reverse. *)
Lemma dseg_rev h l p q : dseg h p l q -> lseg fp h (opt_or (last l) p) (reverse l) p.
Proof.
  revert p q. induction l as [|x l IH] using rev_ind; intros p q; [done|].
  rewrite dseg_app, last_snoc, reverse_snoc. intros [Hl [(a & Ha & Hp & _) _]].
  split; [done|]. exists a. split; [done|]. rewrite Hp. eauto.
Qed.
End Double.
