(* ===== verification/Task.v ===== *)
(** * The task control block

    [task_t] of src/kernel/task.h with every field, its states, its file
    descriptor entries and its memory-map entries.  Pointers to tasks are
    [option nat] ([None] is NULL); the heap of tasks is a [gmap nat task]. *)

From stdpp Require Import base numbers gmap list.
From stdpp Require Import options.
From S2P Require Import Prelude LinkedList.

(** Task states, [task_state_t]. *)
Inductive task_state :=
| TASK_STATE_CREATED
| TASK_STATE_READY
| TASK_STATE_RUNNING
| TASK_STATE_BLOCKED
| TASK_STATE_SLEEPING
| TASK_STATE_ZOMBIE
| TASK_STATE_DEAD.

#[global] Instance task_state_eq_dec : EqDecision task_state.
Proof. solve_decision. Defined.

Definition TASK_MAX_FDS : Z := 64.
Definition TASK_MAX_MMAPS : Z := 16.

(** An open file descriptor entry, [file_t]: the vtable and the private data are
    pointers. *)
Record file := File {
  f_ops : option nat;
  f_data : option nat;
  f_refcount : Z;
  f_flags : Z
}.

(** A mapped region, [mmap_region_t]. *)
Record mmap_region := MmapRegion { mm_base : Z; mm_size : Z; mm_prot : Z }.

(** The process control block, [task_t]. *)
Record task := Task {
  t_kernel_rsp : Z;
  t_pid : Z;
  t_state : task_state;
  t_priority : Z;
  t_time_slice : Z;
  t_remaining_ticks : Z;
  t_mlfq_level : Z;
  t_exit_code : Z;
  t_parent : option nat;
  t_children : option nat;
  t_sibling_next : option nat;
  t_address_space : option nat;
  t_kernel_stack_base : Z;
  t_kernel_stack_size : Z;
  t_user_stack_base : Z;
  t_user_stack_size : Z;
  t_user_heap_start : Z;
  t_user_heap_brk : Z;
  t_fpu_state : option nat;
  t_next : option nat;
  t_g_next : option nat;
  t_is_waiting_for_children : bool;
  t_fd_table : list file;
  t_mmap_regions : list mmap_region;
  t_mmap_count : Z;
  t_name : list Z;
  t_is_kernel : bool
}.

(** Assignments [t->field = v]. *)
Definition set_state (v : task_state) (t : task) : task :=
  Task (t_kernel_rsp t) (t_pid t) v (t_priority t) (t_time_slice t) (t_remaining_ticks
    t) (t_mlfq_level t) (t_exit_code t) (t_parent t) (t_children t) (t_sibling_next t)
    (t_address_space t) (t_kernel_stack_base t) (t_kernel_stack_size t)
    (t_user_stack_base t) (t_user_stack_size t) (t_user_heap_start t) (t_user_heap_brk
    t) (t_fpu_state t) (t_next t) (t_g_next t) (t_is_waiting_for_children t) (t_fd_table
    t) (t_mmap_regions t) (t_mmap_count t) (t_name t) (t_is_kernel t).
Definition set_time_slice (v : Z) (t : task) : task :=
  Task (t_kernel_rsp t) (t_pid t) (t_state t) (t_priority t) v (t_remaining_ticks t)
    (t_mlfq_level t) (t_exit_code t) (t_parent t) (t_children t) (t_sibling_next t)
    (t_address_space t) (t_kernel_stack_base t) (t_kernel_stack_size t)
    (t_user_stack_base t) (t_user_stack_size t) (t_user_heap_start t) (t_user_heap_brk
    t) (t_fpu_state t) (t_next t) (t_g_next t) (t_is_waiting_for_children t) (t_fd_table
    t) (t_mmap_regions t) (t_mmap_count t) (t_name t) (t_is_kernel t).
Definition set_remaining_ticks (v : Z) (t : task) : task :=
  Task (t_kernel_rsp t) (t_pid t) (t_state t) (t_priority t) (t_time_slice t) v
    (t_mlfq_level t) (t_exit_code t) (t_parent t) (t_children t) (t_sibling_next t)
    (t_address_space t) (t_kernel_stack_base t) (t_kernel_stack_size t)
    (t_user_stack_base t) (t_user_stack_size t) (t_user_heap_start t) (t_user_heap_brk
    t) (t_fpu_state t) (t_next t) (t_g_next t) (t_is_waiting_for_children t) (t_fd_table
    t) (t_mmap_regions t) (t_mmap_count t) (t_name t) (t_is_kernel t).
Definition set_mlfq_level (v : Z) (t : task) : task :=
  Task (t_kernel_rsp t) (t_pid t) (t_state t) (t_priority t) (t_time_slice t)
    (t_remaining_ticks t) v (t_exit_code t) (t_parent t) (t_children t) (t_sibling_next
    t) (t_address_space t) (t_kernel_stack_base t) (t_kernel_stack_size t)
    (t_user_stack_base t) (t_user_stack_size t) (t_user_heap_start t) (t_user_heap_brk
    t) (t_fpu_state t) (t_next t) (t_g_next t) (t_is_waiting_for_children t) (t_fd_table
    t) (t_mmap_regions t) (t_mmap_count t) (t_name t) (t_is_kernel t).
Definition set_exit_code (v : Z) (t : task) : task :=
  Task (t_kernel_rsp t) (t_pid t) (t_state t) (t_priority t) (t_time_slice t)
    (t_remaining_ticks t) (t_mlfq_level t) v (t_parent t) (t_children t) (t_sibling_next
    t) (t_address_space t) (t_kernel_stack_base t) (t_kernel_stack_size t)
    (t_user_stack_base t) (t_user_stack_size t) (t_user_heap_start t) (t_user_heap_brk
    t) (t_fpu_state t) (t_next t) (t_g_next t) (t_is_waiting_for_children t) (t_fd_table
    t) (t_mmap_regions t) (t_mmap_count t) (t_name t) (t_is_kernel t).
Definition set_parent (v : option nat) (t : task) : task :=
  Task (t_kernel_rsp t) (t_pid t) (t_state t) (t_priority t) (t_time_slice t)
    (t_remaining_ticks t) (t_mlfq_level t) (t_exit_code t) v (t_children t)
    (t_sibling_next t) (t_address_space t) (t_kernel_stack_base t) (t_kernel_stack_size
    t) (t_user_stack_base t) (t_user_stack_size t) (t_user_heap_start t)
    (t_user_heap_brk t) (t_fpu_state t) (t_next t) (t_g_next t)
    (t_is_waiting_for_children t) (t_fd_table t) (t_mmap_regions t) (t_mmap_count t)
    (t_name t) (t_is_kernel t).
Definition set_children (v : option nat) (t : task) : task :=
  Task (t_kernel_rsp t) (t_pid t) (t_state t) (t_priority t) (t_time_slice t)
    (t_remaining_ticks t) (t_mlfq_level t) (t_exit_code t) (t_parent t) v
    (t_sibling_next t) (t_address_space t) (t_kernel_stack_base t) (t_kernel_stack_size
    t) (t_user_stack_base t) (t_user_stack_size t) (t_user_heap_start t)
    (t_user_heap_brk t) (t_fpu_state t) (t_next t) (t_g_next t)
    (t_is_waiting_for_children t) (t_fd_table t) (t_mmap_regions t) (t_mmap_count t)
    (t_name t) (t_is_kernel t).
Definition set_sibling_next (v : option nat) (t : task) : task :=
  Task (t_kernel_rsp t) (t_pid t) (t_state t) (t_priority t) (t_time_slice t)
    (t_remaining_ticks t) (t_mlfq_level t) (t_exit_code t) (t_parent t) (t_children t) v
    (t_address_space t) (t_kernel_stack_base t) (t_kernel_stack_size t)
    (t_user_stack_base t) (t_user_stack_size t) (t_user_heap_start t) (t_user_heap_brk
    t) (t_fpu_state t) (t_next t) (t_g_next t) (t_is_waiting_for_children t) (t_fd_table
    t) (t_mmap_regions t) (t_mmap_count t) (t_name t) (t_is_kernel t).
Definition set_next (v : option nat) (t : task) : task :=
  Task (t_kernel_rsp t) (t_pid t) (t_state t) (t_priority t) (t_time_slice t)
    (t_remaining_ticks t) (t_mlfq_level t) (t_exit_code t) (t_parent t) (t_children t)
    (t_sibling_next t) (t_address_space t) (t_kernel_stack_base t) (t_kernel_stack_size
    t) (t_user_stack_base t) (t_user_stack_size t) (t_user_heap_start t)
    (t_user_heap_brk t) (t_fpu_state t) v (t_g_next t) (t_is_waiting_for_children t)
    (t_fd_table t) (t_mmap_regions t) (t_mmap_count t) (t_name t) (t_is_kernel t).
Definition set_g_next (v : option nat) (t : task) : task :=
  Task (t_kernel_rsp t) (t_pid t) (t_state t) (t_priority t) (t_time_slice t)
    (t_remaining_ticks t) (t_mlfq_level t) (t_exit_code t) (t_parent t) (t_children t)
    (t_sibling_next t) (t_address_space t) (t_kernel_stack_base t) (t_kernel_stack_size
    t) (t_user_stack_base t) (t_user_stack_size t) (t_user_heap_start t)
    (t_user_heap_brk t) (t_fpu_state t) (t_next t) v (t_is_waiting_for_children t)
    (t_fd_table t) (t_mmap_regions t) (t_mmap_count t) (t_name t) (t_is_kernel t).
Definition set_is_waiting_for_children (v : bool) (t : task) : task :=
  Task (t_kernel_rsp t) (t_pid t) (t_state t) (t_priority t) (t_time_slice t)
    (t_remaining_ticks t) (t_mlfq_level t) (t_exit_code t) (t_parent t) (t_children t)
    (t_sibling_next t) (t_address_space t) (t_kernel_stack_base t) (t_kernel_stack_size
    t) (t_user_stack_base t) (t_user_stack_size t) (t_user_heap_start t)
    (t_user_heap_brk t) (t_fpu_state t) (t_next t) (t_g_next t) v (t_fd_table t)
    (t_mmap_regions t) (t_mmap_count t) (t_name t) (t_is_kernel t).
Definition set_fd_table (v : list file) (t : task) : task :=
  Task (t_kernel_rsp t) (t_pid t) (t_state t) (t_priority t) (t_time_slice t)
    (t_remaining_ticks t) (t_mlfq_level t) (t_exit_code t) (t_parent t) (t_children t)
    (t_sibling_next t) (t_address_space t) (t_kernel_stack_base t) (t_kernel_stack_size
    t) (t_user_stack_base t) (t_user_stack_size t) (t_user_heap_start t)
    (t_user_heap_brk t) (t_fpu_state t) (t_next t) (t_g_next t)
    (t_is_waiting_for_children t) v (t_mmap_regions t) (t_mmap_count t) (t_name t)
    (t_is_kernel t).
Definition set_user_heap (start brk : Z) (t : task) : task :=
  Task (t_kernel_rsp t) (t_pid t) (t_state t) (t_priority t) (t_time_slice t)
    (t_remaining_ticks t) (t_mlfq_level t) (t_exit_code t) (t_parent t) (t_children t)
    (t_sibling_next t) (t_address_space t) (t_kernel_stack_base t) (t_kernel_stack_size
    t) (t_user_stack_base t) (t_user_stack_size t) start brk (t_fpu_state t) (t_next t)
    (t_g_next t) (t_is_waiting_for_children t) (t_fd_table t) (t_mmap_regions t)
    (t_mmap_count t) (t_name t) (t_is_kernel t).

Definition set_kernel_rsp (v : Z) (t : task) : task :=
  Task v (t_pid t) (t_state t) (t_priority t) (t_time_slice t) (t_remaining_ticks t)
    (t_mlfq_level t) (t_exit_code t) (t_parent t) (t_children t) (t_sibling_next t)
    (t_address_space t) (t_kernel_stack_base t) (t_kernel_stack_size t)
    (t_user_stack_base t) (t_user_stack_size t) (t_user_heap_start t) (t_user_heap_brk
    t) (t_fpu_state t) (t_next t) (t_g_next t) (t_is_waiting_for_children t)
    (t_fd_table t) (t_mmap_regions t) (t_mmap_count t) (t_name t) (t_is_kernel t).
Definition set_pid (v : Z) (t : task) : task :=
  Task (t_kernel_rsp t) v (t_state t) (t_priority t) (t_time_slice t)
    (t_remaining_ticks t) (t_mlfq_level t) (t_exit_code t) (t_parent t) (t_children t)
    (t_sibling_next t) (t_address_space t) (t_kernel_stack_base t)
    (t_kernel_stack_size t) (t_user_stack_base t) (t_user_stack_size t)
    (t_user_heap_start t) (t_user_heap_brk t) (t_fpu_state t) (t_next t) (t_g_next t)
    (t_is_waiting_for_children t) (t_fd_table t) (t_mmap_regions t) (t_mmap_count t)
    (t_name t) (t_is_kernel t).
Definition set_name (v : list Z) (t : task) : task :=
  Task (t_kernel_rsp t) (t_pid t) (t_state t) (t_priority t) (t_time_slice t)
    (t_remaining_ticks t) (t_mlfq_level t) (t_exit_code t) (t_parent t) (t_children t)
    (t_sibling_next t) (t_address_space t) (t_kernel_stack_base t)
    (t_kernel_stack_size t) (t_user_stack_base t) (t_user_stack_size t)
    (t_user_heap_start t) (t_user_heap_brk t) (t_fpu_state t) (t_next t) (t_g_next t)
    (t_is_waiting_for_children t) (t_fd_table t) (t_mmap_regions t) (t_mmap_count t) v
    (t_is_kernel t).
Definition set_is_kernel (v : bool) (t : task) : task :=
  Task (t_kernel_rsp t) (t_pid t) (t_state t) (t_priority t) (t_time_slice t)
    (t_remaining_ticks t) (t_mlfq_level t) (t_exit_code t) (t_parent t) (t_children t)
    (t_sibling_next t) (t_address_space t) (t_kernel_stack_base t)
    (t_kernel_stack_size t) (t_user_stack_base t) (t_user_stack_size t)
    (t_user_heap_start t) (t_user_heap_brk t) (t_fpu_state t) (t_next t) (t_g_next t)
    (t_is_waiting_for_children t) (t_fd_table t) (t_mmap_regions t) (t_mmap_count t)
    (t_name t) v.
Definition set_address_space (v : option nat) (t : task) : task :=
  Task (t_kernel_rsp t) (t_pid t) (t_state t) (t_priority t) (t_time_slice t)
    (t_remaining_ticks t) (t_mlfq_level t) (t_exit_code t) (t_parent t) (t_children t)
    (t_sibling_next t) v (t_kernel_stack_base t) (t_kernel_stack_size t)
    (t_user_stack_base t) (t_user_stack_size t) (t_user_heap_start t) (t_user_heap_brk
    t) (t_fpu_state t) (t_next t) (t_g_next t) (t_is_waiting_for_children t)
    (t_fd_table t) (t_mmap_regions t) (t_mmap_count t) (t_name t) (t_is_kernel t).
Definition set_kernel_stack (base size : Z) (t : task) : task :=
  Task (t_kernel_rsp t) (t_pid t) (t_state t) (t_priority t) (t_time_slice t)
    (t_remaining_ticks t) (t_mlfq_level t) (t_exit_code t) (t_parent t) (t_children t)
    (t_sibling_next t) (t_address_space t) base size (t_user_stack_base t)
    (t_user_stack_size t) (t_user_heap_start t) (t_user_heap_brk t) (t_fpu_state t)
    (t_next t) (t_g_next t) (t_is_waiting_for_children t) (t_fd_table t)
    (t_mmap_regions t) (t_mmap_count t) (t_name t) (t_is_kernel t).
Definition set_user_stack (base size : Z) (t : task) : task :=
  Task (t_kernel_rsp t) (t_pid t) (t_state t) (t_priority t) (t_time_slice t)
    (t_remaining_ticks t) (t_mlfq_level t) (t_exit_code t) (t_parent t) (t_children t)
    (t_sibling_next t) (t_address_space t) (t_kernel_stack_base t)
    (t_kernel_stack_size t) base size (t_user_heap_start t) (t_user_heap_brk t)
    (t_fpu_state t) (t_next t) (t_g_next t) (t_is_waiting_for_children t) (t_fd_table
    t) (t_mmap_regions t) (t_mmap_count t) (t_name t) (t_is_kernel t).
Definition set_fpu_state (v : option nat) (t : task) : task :=
  Task (t_kernel_rsp t) (t_pid t) (t_state t) (t_priority t) (t_time_slice t)
    (t_remaining_ticks t) (t_mlfq_level t) (t_exit_code t) (t_parent t) (t_children t)
    (t_sibling_next t) (t_address_space t) (t_kernel_stack_base t)
    (t_kernel_stack_size t) (t_user_stack_base t) (t_user_stack_size t)
    (t_user_heap_start t) (t_user_heap_brk t) v (t_next t) (t_g_next t)
    (t_is_waiting_for_children t) (t_fd_table t) (t_mmap_regions t) (t_mmap_count t)
    (t_name t) (t_is_kernel t).

(** The pointer fields that thread tasks into lists. *)
Definition link_next : link task := Link t_next set_next (fun _ _ => eq_refl).
Definition link_g_next : link task := Link t_g_next set_g_next (fun _ _ => eq_refl).
Definition link_sibling : link task := Link t_sibling_next set_sibling_next (fun _ _ => eq_refl).

(** A PCB after [memset(task, 0, sizeof(task_t))]. *)
Definition file0 : file := File None None 0 0.
Definition mmap0 : mmap_region := MmapRegion 0 0 0.
Definition task0 : task :=
  Task 0 0 TASK_STATE_CREATED 0 0 0 0 0 None None None None 0 0 0 0 0 0 None None None false
    (replicate (Z.to_nat TASK_MAX_FDS) file0) (replicate (Z.to_nat TASK_MAX_MMAPS) mmap0)
    0 [] false.
