(* ===== verification/Mlfq.v ===== *)
(** * The multi-level feedback queue

    src/kernel/mlfq.c: four ready queues linked through [task_t.next], a bitmap of
    the non-empty ones, decay, priority boost.  The definitions work on the
    pointers; [mlfq_rep s L] says that state [s] represents the four lists [L],
    and the operations are proved to implement the list operations
    (append, remove, first of the first non-empty list, concatenate). *)

From stdpp Require Import base numbers gmap list.
From stdpp Require Import options.
From S2P Require Import Prelude LinkedList Task.

Definition MLFQ_LEVELS : Z := 4.
Definition MLFQ_BOOST_INTERVAL : Z := 200.
Definition mlfq_quanta : list Z := [2; 4; 8; 16].

(** One ready queue, [mlfd_queue_t]. *)
Record mlfd_queue := Queue { q_head : option nat; q_tail : option nat; q_count : Z }.

(** The globals of mlfq.c together with the heap of tasks they point into. *)
Record mlfq := Mlfq {
  heap : gmap nat task;
  mlfq_queues : list mlfd_queue;
  mlfq_bitmap : Z;
  g_ticks_since_boost : Z
}.

Definition with_heap (h : gmap nat task) (s : mlfq) : mlfq :=
  Mlfq h (mlfq_queues s) (mlfq_bitmap s) (g_ticks_since_boost s).

(** Loops along a queue stop after this many nodes: a longer walk would visit
    a task twice. *)
Definition walk_fuel (s : mlfq) : nat := S (size (heap s)).

Definition mlfq_init (s : mlfq) : mlfq :=
  Mlfq (heap s) (replicate (Z.to_nat MLFQ_LEVELS) (Queue None None 0)) 0 0.

(** The assignments to the task made by [mlfq_enqueue]. *)
Definition enqueued (level quantum : Z) (a : task) : task :=
  set_time_slice quantum (set_remaining_ticks quantum
    (set_state TASK_STATE_READY (set_mlfq_level level (set_next None a)))).

(** The tail append shared by [mlfq_enqueue] and [mlfq_boost_all]:
    [if (q->tail) q->tail->next = t; else q->head = t; q->tail = t; q->count++]. *)
Definition append_tail (t : nat) (h : gmap nat task) (q : mlfd_queue)
  : option (gmap nat task * mlfd_queue) :=
  match q_tail q with
  | Some y => b ← h !! y;
              Some (<[y := set_next (Some t) b]> h,
                    Queue (q_head q) (Some t) (u32 (q_count q + 1)))
  | None => Some (h, Queue (Some t) (Some t) (u32 (q_count q + 1)))
  end.

Definition mlfq_enqueue (task : option nat) (level : Z) (s : mlfq) : option mlfq :=
  match task with
  | None => Some s
  | Some t =>
    if (level <? 0) || (MLFQ_LEVELS <=? level) then Some s else
    q ← zget (mlfq_queues s) level;
    quantum ← zget mlfq_quanta level;
    a ← heap s !! t;
    '(h, q') ← append_tail t (<[t := enqueued level quantum a]> (heap s)) q;
    qs ← zset (mlfq_queues s) level q';
    Some (Mlfq h qs (Z.lor (mlfq_bitmap s) (Z.shiftl 1 level)) (g_ticks_since_boost s))
  end.

Definition mlfq_dequeue (task : option nat) (s : mlfq) : option mlfq :=
  match task with
  | None => Some s
  | Some t =>
    a ← heap s !! t;
    let level := t_mlfq_level a in
    if (level <? 0) || (MLFQ_LEVELS <=? level) then Some s else
    q ← zget (mlfq_queues s) level;
    r ← unlink link_next (walk_fuel s) (fun x _ => Nat.eqb x t) (heap s) None (q_head q);
    match r with
    | (None, _, _) => Some s
    | (Some _, head', h1) =>
      '(tail', bm) ←
        match head' with
        | None => Some (None, Z.land (mlfq_bitmap s) (u32 (Z.lnot (Z.shiftl 1 level))))
        | Some hd =>
          if bool_decide (q_tail q = Some t)
          then tl ← walk_last link_next (walk_fuel s) h1 hd; Some (Some tl, mlfq_bitmap s)
          else Some (q_tail q, mlfq_bitmap s)
        end;
      qs ← zset (mlfq_queues s) level (Queue head' tail' (u32 (q_count q - 1)));
      Some (Mlfq (alter (set_next None) t h1) qs bm (g_ticks_since_boost s))
    end
  end.

Definition mlfq_pick_highest (s : mlfq) : option (option nat) :=
  if mlfq_bitmap s =? 0 then Some None else
  q ← zget (mlfq_queues s) (ctz (mlfq_bitmap s));
  Some (q_head q).

Definition mlfq_decay (task : option nat) (s : mlfq) : option mlfq :=
  match task with
  | None => Some s
  | Some t =>
    a ← heap s !! t;
    let current_level := t_mlfq_level a in
    if MLFQ_LEVELS - 1 <=? current_level then
      s1 ← mlfq_dequeue (Some t) s;
      mlfq_enqueue (Some t) current_level s1
    else
      s1 ← mlfq_dequeue (Some t) s;
      mlfq_enqueue (Some t) (current_level + 1) s1
  end.

(** First loop of [mlfq_boost_all]: splice the queues [level .. 3] into one list
    and clear them.  Returns the collected head and tail. *)
Fixpoint boost_collect (n : nat) (level : Z) (collect_head collect_tail : option nat) (s : mlfq)
  : option (option nat * option nat * mlfq) :=
  match n with
  | O => Some (collect_head, collect_tail, s)
  | S n' =>
    q ← zget (mlfq_queues s) level;
    match q_head q with
    | None => boost_collect n' (level + 1) collect_head collect_tail s
    | Some _ =>
      '(h, ch) ← match collect_tail with
                 | Some y => b ← heap s !! y;
                             Some (<[y := set_next (q_head q) b]> (heap s), collect_head)
                 | None => Some (heap s, q_head q)
                 end;
      qs ← zset (mlfq_queues s) level (Queue None None 0);
      boost_collect n' (level + 1) ch (q_tail q)
        (Mlfq h qs (mlfq_bitmap s) (g_ticks_since_boost s))
    end
  end.

(** The assignments to a task made by the boost (its state is not touched). *)
Definition boosted (quantum : Z) (a : task) : task :=
  set_next None (set_time_slice quantum (set_remaining_ticks quantum (set_mlfq_level 0 a))).

(** Second loop: append every collected task to queue 0. *)
Fixpoint boost_requeue (fuel : nat) (t : option nat) (s : mlfq) : option mlfq :=
  match fuel with
  | O => None
  | S fuel' =>
    match t with
    | None => Some s
    | Some x =>
      a ← heap s !! x;
      q0 ← zget (mlfq_queues s) 0;
      quantum ← zget mlfq_quanta 0;
      '(h, q0') ← append_tail x (<[x := boosted quantum a]> (heap s)) q0;
      qs ← zset (mlfq_queues s) 0 q0';
      boost_requeue fuel' (t_next a) (Mlfq h qs (mlfq_bitmap s) (g_ticks_since_boost s))
    end
  end.

Definition mlfq_boost_all (s : mlfq) : option mlfq :=
  '(collect_head, _, s1) ← boost_collect (Z.to_nat (MLFQ_LEVELS - 1)) 1 None None s;
  let s2 := Mlfq (heap s1) (mlfq_queues s1) (Z.land (mlfq_bitmap s1) 1)
                 (g_ticks_since_boost s1) in
  s3 ← match collect_head with
       | None => Some s2
       | Some _ =>
         s3 ← boost_requeue (walk_fuel s2) collect_head s2;
         Some (Mlfq (heap s3) (mlfq_queues s3) (Z.lor (mlfq_bitmap s3) 1)
                    (g_ticks_since_boost s3))
       end;
  Some (Mlfq (heap s3) (mlfq_queues s3) (mlfq_bitmap s3) 0).

Definition mlfq_total_count (s : mlfq) : Z :=
  foldl (fun total q => u32 (total + q_count q)) 0 (mlfq_queues s).

Definition mlfq_get_ticks_since_boost (s : mlfq) : Z := g_ticks_since_boost s.

Definition mlfq_tick (s : mlfq) : option mlfq :=
  let ticks := u64 (g_ticks_since_boost s + 1) in
  let s1 := Mlfq (heap s) (mlfq_queues s) (mlfq_bitmap s) ticks in
  if MLFQ_BOOST_INTERVAL <=? ticks then mlfq_boost_all s1 else Some s1.

#[global] Arguments mlfq_enqueue : simpl never.
#[global] Arguments mlfq_dequeue : simpl never.
#[global] Arguments mlfq_decay : simpl never.
#[global] Arguments mlfq_boost_all : simpl never.
#[global] Arguments mlfq_tick : simpl never.
#[global] Arguments append_tail : simpl never.
#[global] Arguments walk_fuel : simpl never.

(** ** Representation *)

Notation next_list := (lseg link_next).

(** Queue [q] at level [i] is the list [l] of tasks. *)
Record queue_ok (h : gmap nat task) (i : Z) (q : mlfd_queue) (l : list nat) : Prop := {
  qo_seg : next_list h (q_head q) l None;
  qo_tail : q_tail q = last l;
  qo_count : q_count q = Z.of_nat (length l);
  qo_nodup : NoDup l;
  qo_level : forall t, t ∈ l -> exists a, h !! t = Some a /\ t_mlfq_level a = i
}.

(** The four lists, indexed by level; [upd L i l] replaces one. *)
Definition upd (L : Z -> list nat) (i : Z) (l : list nat) : Z -> list nat :=
  fun j => if decide (j = i) then l else L j.

Record mlfq_rep (s : mlfq) (L : Z -> list nat) : Prop := {
  mr_len : length (mlfq_queues s) = 4%nat;
  mr_queue : forall i, 0 <= i < 4 ->
    exists q, zget (mlfq_queues s) i = Some q /\ queue_ok (heap s) i q (L i);
  mr_bitmap : in_w 4 (mlfq_bitmap s);
  mr_bits : forall i, 0 <= i < 4 ->
    Z.testbit (mlfq_bitmap s) i = bool_decide (L i <> []);
  mr_size : Z.of_nat (size (heap s)) < 2 ^ 32
}.

(** The tasks of [h] and [h'] agree on every field but the queue pointer. *)
Definition same_body (h h' : gmap nat task) : Prop :=
  forall x, set_next None <$> h' !! x = set_next None <$> h !! x.

(** The part of a task the boost leaves alone, and the part no queue operation touches. *)
Definition fixed (a : task) : task :=
  set_next None (set_time_slice 0 (set_remaining_ticks 0 (set_mlfq_level 0 a))).
Definition frozen (a : task) : task := set_state TASK_STATE_CREATED (fixed a).

(** Task [t] is in none of the queues. *)
Definition unqueued (L : Z -> list nat) (t : nat) : Prop :=
  forall i, 0 <= i < 4 -> t ∉ L i.

(** The lists with task [t] taken out. *)
Definition rm (t : nat) (l : list nat) : list nat := filter (fun x => x <> t) l.
Definition rm_all (t : nat) (L : Z -> list nat) : Z -> list nat := fun i => rm t (L i).

(** The specification of [mlfq_boost_all]: everything at level 0, in order. *)
Definition boost_spec (L : Z -> list nat) : Z -> list nat :=
  fun i => if decide (i = 0) then L 0 ++ L 1 ++ L 2 ++ L 3 else [].

(** The specification of [mlfq_pick_highest]. *)
Definition pick_spec (L : Z -> list nat) : option nat :=
  head (L 0 ++ L 1 ++ L 2 ++ L 3).

(** ** Lemmas *)

Lemma upd_eq L i l : upd L i l i = l.
Proof. unfold upd. by rewrite decide_True. Qed.
Lemma upd_ne L i j l : i <> j -> upd L i l j = L j.
Proof. unfold upd. intros. by rewrite decide_False. Qed.

(** A duplicate-free list of heap cells is not longer than the heap. *)
Lemma nodup_size {A} (h : gmap nat A) (l : list nat) :
  NoDup l -> (forall t, t ∈ l -> is_Some (h !! t)) -> (length l <= size h)%nat.
Proof.
  intros Hnd Hin. rewrite <-size_dom, <-(size_list_to_set (C:=gset nat) l) by done.
  apply subseteq_size. intros t Ht%elem_of_list_to_set. by apply elem_of_dom, Hin.
Qed.

Lemma queue_ok_in h i q l t : queue_ok h i q l -> t ∈ l -> is_Some (h !! t).
Proof. intros Hq Ht. destruct (qo_level _ _ _ _ Hq t Ht) as (a & ? & _). eauto. Qed.

Lemma queue_ok_length h i q l : queue_ok h i q l -> (length l <= size h)%nat.
Proof. intros Hq. apply nodup_size; [apply Hq|intros t; by eapply queue_ok_in]. Qed.

Lemma queue_ok_frame h h' i q l :
  (forall t, t ∈ l -> h' !! t = h !! t) -> queue_ok h i q l -> queue_ok h' i q l.
Proof.
  intros Hf [H1 H2 H3 H4 H5]. split; [|done..|].
  - eapply lseg_frame; [|done]. intros t Ht. by rewrite Hf.
  - intros t Ht. rewrite Hf by done. auto.
Qed.

(** Lists of different levels are disjoint. *)
Lemma queue_ok_disj h i j q q' l l' t :
  queue_ok h i q l -> queue_ok h j q' l' -> i <> j -> t ∈ l -> t ∉ l'.
Proof.
  intros H1 H2 Hij Ht Ht'. destruct (qo_level _ _ _ _ H1 t Ht) as (a & Ha & ?).
  destruct (qo_level _ _ _ _ H2 t Ht') as (b & Hb & ?). congruence.
Qed.

Lemma append_tail_ok h i q l t a :
  queue_ok h i q l -> t ∉ l -> h !! t = Some a -> t_next a = None -> t_mlfq_level a = i ->
  Z.of_nat (size h) < 2 ^ 32 ->
  exists h' q', append_tail t h q = Some (h', q') /\ queue_ok h' i q' (l ++ [t]) /\
    h' !! t = Some a /\ dom h' = dom h /\ (forall x, x ∉ l -> h' !! x = h !! x) /\
    same_body h h'.
Proof.
  intros Hq Ht Ha Hn Hlv Hsz.
  assert (Hlen : (length (l ++ [t]) <= size h)%nat).
  { apply nodup_size; [apply NoDup_app; split_and!; [apply Hq|set_solver|apply NoDup_singleton]|].
    intros x [?| ->%list_elem_of_singleton]%elem_of_app; [by eapply queue_ok_in|eauto]. }
  rewrite length_app in Hlen. simpl in Hlen.
  unfold append_tail. rewrite (qo_tail _ _ _ _ Hq), (qo_count _ _ _ _ Hq).
  assert (Hc : u32 (Z.of_nat (length l) + 1) = Z.of_nat (length (l ++ [t]))).
  { unfold u32. rewrite length_app. simpl. wrap_small. lia. }
  rewrite Hc. destruct (last l) as [y|] eqn:Hy.
  - apply last_Some in Hy as [l0 ->].
    destruct (qo_level _ _ _ _ Hq y) as (b & Hb & Hby); [set_solver|].
    rewrite Hb. simpl. do 2 eexists. split; [done|]. split_and!.
    + split; simpl; [|by rewrite last_snoc|done|..].
      * eapply lseg_snoc; [apply Hq|apply Hq|done|done|done|done].
      * apply NoDup_app. split_and!; [apply Hq|set_solver|apply NoDup_singleton].
      * intros x Hx. destruct (decide (x = y)) as [->|].
        { rewrite lookup_insert_eq. eauto. }
        rewrite lookup_insert_ne by done. apply elem_of_app in Hx as [Hx|Hx%list_elem_of_singleton].
        { by apply (qo_level _ _ _ _ Hq). } subst. eauto.
    + rewrite lookup_insert_ne; [done|]. set_solver.
    + rewrite dom_insert_L. apply elem_of_dom_2 in Hb. set_solver.
    + intros x Hx. rewrite lookup_insert_ne; [done|]. set_solver.
    + intros x. destruct (decide (x = y)) as [->|]; [|by rewrite lookup_insert_ne].
      by rewrite lookup_insert_eq, Hb.
  - apply last_None in Hy as ->. do 2 eexists. split; [done|]. split_and!; [|done..].
    split; simpl; [|done..|apply NoDup_singleton|].
    + split; [done|]. exists a. done.
    + intros x ->%list_elem_of_singleton. eauto.
Qed.

Lemma same_body_refl h : same_body h h.
Proof. done. Qed.
Lemma same_body_trans h1 h2 h3 : same_body h1 h2 -> same_body h2 h3 -> same_body h1 h3.
Proof. intros H1 H2 x. by rewrite H2, H1. Qed.
Lemma same_body_lookup h h' x a :
  same_body h h' -> h !! x = Some a ->
  exists a', h' !! x = Some a' /\ set_next None a' = set_next None a.
Proof.
  intros Hb Ha. specialize (Hb x). rewrite Ha in Hb. simpl in Hb.
  destruct (h' !! x) as [a'|]; [|done]. apply (inj Some) in Hb. eauto.
Qed.
Lemma body_level a b : set_next None a = set_next None b -> t_mlfq_level a = t_mlfq_level b.
Proof. intros H. apply (f_equal t_mlfq_level) in H. done. Qed.
Lemma body_state a b : set_next None a = set_next None b -> t_state a = t_state b.
Proof. intros H. apply (f_equal t_state) in H. done. Qed.
Lemma body_remaining a b :
  set_next None a = set_next None b -> t_remaining_ticks a = t_remaining_ticks b.
Proof. intros H. apply (f_equal t_remaining_ticks) in H. done. Qed.
(** Fields that do not depend on the queue pointer. *)
Lemma body_proj {B} (g : task -> B) (h h' : gmap nat task) (x : nat) :
  (forall a, g a = g (set_next None a)) ->
  set_next None <$> h' !! x = set_next None <$> h !! x -> g <$> h' !! x = g <$> h !! x.
Proof.
  intros Hg. destruct (h !! x) as [a|], (h' !! x) as [b|]; try done. intros E%(inj Some). simpl.
  by rewrite (Hg b), E, <-Hg.
Qed.
Lemma same_body_size h h' : same_body h h' -> size h' = size h.
Proof.
  intros Hb. rewrite <-!size_dom. f_equal. apply set_eq. intros x.
  rewrite !elem_of_dom. specialize (Hb x). destruct (h !! x), (h' !! x); naive_solver.
Qed.

Lemma rm_notin t l : t ∉ l -> rm t l = l.
Proof.
  intros Ht. unfold rm. induction l as [|x l IH]; [done|].
  rewrite filter_cons_True by set_solver. f_equal. apply IH. set_solver.
Qed.
Lemma rm_split t l1 l2 : NoDup (l1 ++ t :: l2) -> rm t (l1 ++ t :: l2) = l1 ++ l2.
Proof.
  intros (_ & Hd & Hn)%NoDup_app. apply NoDup_cons in Hn as [Hn _]. unfold rm.
  rewrite filter_app, filter_cons_False by naive_solver. f_equal; [|by apply rm_notin].
  apply rm_notin. intros Ht. eapply Hd; [done|set_solver].
Qed.
Lemma elem_of_rm x t l : x ∈ rm t l <-> x ∈ l /\ x <> t.
Proof. unfold rm. rewrite list_elem_of_filter. naive_solver. Qed.

Lemma mlfq_rep_ext s L L' :
  (forall i, 0 <= i < 4 -> L i = L' i) -> mlfq_rep s L -> mlfq_rep s L'.
Proof.
  intros He [H1 H2 H3 H4 H5]. split; [done| |done| |done]; intros i Hi;
    rewrite <-He by done; auto.
Qed.

Lemma rep_level s L t a i :
  mlfq_rep s L -> 0 <= i < 4 -> t ∈ L i -> heap s !! t = Some a -> t_mlfq_level a = i.
Proof.
  intros Hr Hi Ht Ha. destruct (mr_queue _ _ Hr i Hi) as (q & _ & Hq).
  destruct (qo_level _ _ _ _ Hq t Ht) as (b & ? & ?). congruence.
Qed.

Lemma quanta_Some i : 0 <= i < 4 -> exists c, zget mlfq_quanta i = Some c /\ 0 < c.
Proof.
  intros Hi. assert (i = 0 \/ i = 1 \/ i = 2 \/ i = 3) as [-> |[-> |[-> | ->]]] by lia;
    eexists; (split; [reflexivity|lia]).
Qed.

(** Replacing one queue of the array. *)
Lemma rep_replace s L i q' l' h' bm' tk :
  mlfq_rep s L -> 0 <= i < 4 -> queue_ok h' i q' l' ->
  (forall j q, 0 <= j < 4 -> j <> i -> queue_ok (heap s) j q (L j) -> queue_ok h' j q (L j)) ->
  size h' = size (heap s) -> in_w 4 bm' ->
  (forall j, 0 <= j < 4 -> Z.testbit bm' j = bool_decide (upd L i l' j <> [])) ->
  exists qs, zset (mlfq_queues s) i q' = Some qs /\ mlfq_rep (Mlfq h' qs bm' tk) (upd L i l').
Proof.
  intros [H1 H2 H3 H4 H5] Hi Hq Hf Hs Hbm Hb. eexists. split; [apply zset_Some; lia|].
  split; simpl; [by rewrite length_insert| |done|done|by rewrite Hs].
  intros j Hj. rewrite zget_insert by lia. case_decide as Hij.
  - subst. rewrite upd_eq. eauto.
  - rewrite upd_ne by done. destruct (H2 j Hj) as (q & ? & ?). eauto.
Qed.

Lemma enqueue_rep s L t a i :
  mlfq_rep s L -> heap s !! t = Some a -> unqueued L t -> 0 <= i < 4 ->
  exists s' c, mlfq_enqueue (Some t) i s = Some s' /\ mlfq_rep s' (upd L i (L i ++ [t])) /\
    zget mlfq_quanta i = Some c /\ heap s' !! t = Some (enqueued i c a) /\
    same_body (<[t := enqueued i c a]> (heap s)) (heap s') /\
    g_ticks_since_boost s' = g_ticks_since_boost s.
Proof.
  intros Hr Ha Hu Hi. destruct (mr_queue _ _ Hr i Hi) as (q & Hq & Hok).
  destruct (quanta_Some i Hi) as (c & Hc & _).
  set (h1 := <[t := enqueued i c a]> (heap s)).
  assert (Hsz : size h1 = size (heap s)).
  { unfold h1. rewrite map_size_insert_Some; eauto. }
  assert (Hfr : forall j q, 0 <= j < 4 -> queue_ok (heap s) j q (L j) -> queue_ok h1 j q (L j)).
  { intros j q' Hj. apply queue_ok_frame. intros x Hx. apply lookup_insert_ne.
    intros ->. by eapply Hu. }
  destruct (append_tail_ok h1 i q (L i) t (enqueued i c a))
    as (h' & q' & Happ & Hok' & Ht & Hd & Hne & Hsb);
    [by apply Hfr|by apply Hu|apply lookup_insert_eq|done|done|rewrite Hsz; apply Hr|].
  assert (Hs' : size h' = size (heap s)) by (rewrite <-Hsz; by apply same_body_size).
  destruct (rep_replace s L i q' (L i ++ [t]) h'
    (Z.lor (mlfq_bitmap s) (Z.shiftl 1 i)) (g_ticks_since_boost s)) as (qs & Hqs & Hrep);
    [done..| |done| | |].
  - intros j q0 Hj Hji Hq0. eapply queue_ok_frame; [|apply Hfr; [done|exact Hq0]].
    intros x Hx. apply Hne. eapply queue_ok_disj; [exact Hq0|exact Hok|done|done].
  - apply in_w_lor; [lia|apply Hr|]. apply in_w_shiftl1. lia.
  - intros j Hj. rewrite Z.lor_spec, pow2_testbit by lia. rewrite (mr_bits _ _ Hr j Hj).
    destruct (decide (j = i)) as [->|Hji].
    + rewrite upd_eq, !(bool_decide_eq_true_2 (_ ++ _ <> [])) by (by destruct (L i)).
      rewrite (bool_decide_eq_true_2 (i = i)) by done. apply orb_true_r.
    + rewrite upd_ne, (bool_decide_eq_false_2 (j = i)) by done. apply orb_false_r.
  - do 2 eexists. split_and!; [|exact Hrep|exact Hc|exact Ht|done|done].
    unfold mlfq_enqueue. rewrite (proj2 (Z.ltb_ge i 0)), (proj2 (Z.leb_gt MLFQ_LEVELS i))
      by (unfold MLFQ_LEVELS; lia). simpl.
    rewrite Hq. simpl. rewrite Hc. simpl. rewrite Ha. simpl. fold h1. rewrite Happ. simpl.
    rewrite Hqs. done.
Qed.

(** Clearing one bit of the bitmap. *)
Lemma clear_bit_spec b i j :
  0 <= i < 32 -> 0 <= j -> in_w 4 b ->
  Z.testbit (Z.land b (u32 (Z.lnot (Z.shiftl 1 i)))) j =
    Z.testbit b j && negb (bool_decide (j = i)).
Proof.
  intros Hi Hj Hb. rewrite Z.land_spec. unfold u32, wrap.
  destruct (decide (j < 32)).
  - rewrite Z.mod_pow2_bits_low, Z.lnot_spec, pow2_testbit by lia. done.
  - rewrite (testbit_high 4 b) by (done || lia). done.
Qed.

(** The walk of [mlfq_dequeue] when the task is where its level says. *)
Lemma dequeue_found s L t a i q l1 l2 :
  mlfq_rep s L -> 0 <= i < 4 -> heap s !! t = Some a ->
  zget (mlfq_queues s) i = Some q -> queue_ok (heap s) i q (L i) -> L i = l1 ++ t :: l2 ->
  exists h1 hd, unlink link_next (walk_fuel s) (fun x _ => Nat.eqb x t) (heap s) None (q_head q)
      = Some (Some t, hd, h1) /\
    next_list h1 hd (l1 ++ l2) None /\ same_body (heap s) h1 /\
    (forall x, x ∉ l1 -> h1 !! x = heap s !! x).
Proof.
  intros Hr Hi Ha Hq Hok Hl. pose proof (qo_seg _ _ _ _ Hok) as Hs.
  pose proof (qo_nodup _ _ _ _ Hok) as Hnd. pose proof (queue_ok_length _ _ _ _ Hok) as Hlen.
  rewrite Hl in Hs, Hnd, Hlen. pose proof (NoDup_app l1 (t :: l2)) as [Hnd' _].
  destruct (Hnd' Hnd) as (_ & Hd & _).
  rewrite (unlink_spec link_next _ _ _ _ l1 t l2 a); [|done| |done|by rewrite Nat.eqb_refl|].
  2:{ intros y b Hy _. apply Nat.eqb_neq. intros ->. eapply Hd; [done|set_solver]. }
  2:{ rewrite length_app in Hlen. simpl in Hlen. unfold walk_fuel. lia. }
  pose proof (lseg_remove link_next _ _ _ _ _ a Hs Hnd Ha) as Hrem.
  destruct (last l1) as [y|] eqn:Hy; do 2 eexists; (split; [done|]);
    (split; [exact Hrem|]); [|split; done].
  apply last_Some in Hy as [l0 ->]. split.
  - intros x. destruct (decide (x = y)) as [->|]; [|by rewrite lookup_alter_ne].
    rewrite lookup_alter_eq. destruct (heap s !! y); done.
  - intros x Hx. rewrite lookup_alter_ne; [done|]. set_solver.
Qed.

(** The tail the code computes after the removal. *)
Lemma dequeue_tail s L t i q l1 l2 h1 hd :
  mlfq_rep s L -> 0 <= i < 4 -> queue_ok (heap s) i q (L i) -> L i = l1 ++ t :: l2 ->
  next_list h1 hd (l1 ++ l2) None ->
  match hd with
  | None => l1 ++ l2 = []
  | Some x => l1 ++ l2 <> [] /\
    (if bool_decide (q_tail q = Some t)
     then tl ← walk_last link_next (walk_fuel s) h1 x; Some (Some tl, mlfq_bitmap s)
     else Some (q_tail q, mlfq_bitmap s)) = Some (last (l1 ++ l2), mlfq_bitmap s)
  end.
Proof.
  intros Hr Hi Hok Hl Hs. pose proof (lseg_head link_next _ _ _ Hs) as Hh.
  pose proof (queue_ok_length _ _ _ _ Hok) as Hlen. rewrite Hl, length_app in Hlen.
  simpl in Hlen. rewrite (qo_tail _ _ _ _ Hok), Hl, last_app, last_cons.
  destruct hd as [x|]; [|by destruct (l1 ++ l2)].
  assert (Hne : l1 ++ l2 <> []) by (intros E; by rewrite E in Hh). split; [done|].
  case_bool_decide as Hb.
  - destruct (exists_last Hne) as (l & y & Hy). rewrite Hy in Hs |- *.
    destruct (walk_last_spec link_next (walk_fuel s) _ _ _ _ Hs) as (x' & ? & Hw).
    { apply (f_equal length) in Hy. rewrite !length_app in Hy. simpl in Hy.
      unfold walk_fuel. lia. }
    simplify_eq. rewrite Hw. simpl. by rewrite last_snoc.
  - rewrite last_app. destruct (last l2) as [z|] eqn:Hz; [done|]. by destruct Hb.
Qed.

(** Lists that lose [t] keep their queues when the heap changes only at [t] and
    at members of the list [t] is in. *)
Lemma rm_all_upd s L t i :
  mlfq_rep s L -> 0 <= i < 4 -> t ∈ L i ->
  forall j, 0 <= j < 4 -> upd L i (rm t (L i)) j = rm_all t L j.
Proof.
  intros Hr Hi Ht j Hj. unfold rm_all. destruct (decide (j = i)) as [->|]; [apply upd_eq|].
  rewrite upd_ne by done. symmetry. apply rm_notin.
  destruct (mr_queue _ _ Hr i Hi) as (q & _ & Hq), (mr_queue _ _ Hr j Hj) as (q' & _ & Hq').
  eapply queue_ok_disj; [exact Hq|exact Hq'|done|done].
Qed.

Lemma dequeue_rep_in s L t a i :
  mlfq_rep s L -> heap s !! t = Some a -> 0 <= i < 4 -> t ∈ L i ->
  exists s', mlfq_dequeue (Some t) s = Some s' /\ mlfq_rep s' (upd L i (rm t (L i))) /\
    same_body (heap s) (heap s') /\ g_ticks_since_boost s' = g_ticks_since_boost s.
Proof.
  intros Hr Ha Hi Ht. destruct (mr_queue _ _ Hr i Hi) as (q & Hq & Hok).
  pose proof (rep_level _ _ _ _ _ Hr Hi Ht Ha) as Hlv.
  apply list_elem_of_split in Ht as (l1 & l2 & Hl).
  pose proof (qo_nodup _ _ _ _ Hok) as Hnd. rewrite Hl in Hnd.
  destruct (dequeue_found s L t a i q l1 l2) as (h1 & hd & Hu & Hs & Hsb & Hne); [done..|].
  pose proof (dequeue_tail s L t i q l1 l2 h1 hd Hr Hi Hok Hl Hs) as Htl.
  assert (Hin : NoDup (l1 ++ l2) /\ t ∉ l1 ++ l2).
  { rewrite <-Permutation_middle in Hnd. by apply NoDup_cons in Hnd as [? ?]. }
  rewrite Hl, rm_split by done.
  set (h2 := alter (set_next None) t h1).
  assert (Hsb2 : same_body (heap s) h2).
  { eapply same_body_trans; [exact Hsb|]. intros x. unfold h2.
    destruct (decide (x = t)) as [->|]; [|by rewrite lookup_alter_ne].
    rewrite lookup_alter_eq. destruct (h1 !! t); done. }
  assert (Hok2 : forall hd' tl' c, hd' = hd -> tl' = last (l1 ++ l2) ->
     c = Z.of_nat (length (l1 ++ l2)) -> queue_ok h2 i (Queue hd' tl' c) (l1 ++ l2)).
  { intros ? ? ? -> -> ->. split; simpl; [|done|done|apply Hin|].
    - eapply lseg_frame; [|exact Hs]. intros x Hx. unfold h2.
      rewrite lookup_alter_ne; [done|]. intros ->. by apply Hin.
    - intros x Hx. destruct (qo_level _ _ _ _ Hok x) as (b & Hb & Hbl); [rewrite Hl; set_solver|].
      destruct (same_body_lookup _ _ _ _ Hsb2 Hb) as (b' & ? & ?%body_level). eexists. split; [done|].
      congruence. }
  assert (Hcnt : u32 (q_count q - 1) = Z.of_nat (length (l1 ++ l2))).
  { rewrite (qo_count _ _ _ _ Hok), Hl. pose proof (queue_ok_length _ _ _ _ Hok) as Hlen.
    pose proof (mr_size _ _ Hr). rewrite Hl in Hlen. rewrite !length_app in *. simpl in *.
    unfold u32. wrap_small. lia. }
  assert (Hfr : forall j q0, 0 <= j < 4 -> j <> i -> queue_ok (heap s) j q0 (L j) -> queue_ok h2 j q0 (L j)).
  { intros j q0 Hj Hji Hq0. eapply queue_ok_frame; [|exact Hq0]. intros x Hx.
    pose proof (queue_ok_disj _ _ _ _ _ _ _ _ Hq0 Hok Hji Hx) as Hxn. rewrite Hl in Hxn.
    unfold h2. rewrite lookup_alter_ne by set_solver. apply Hne. set_solver. }
  assert (Hcore : forall tl bm, tl = last (l1 ++ l2) -> in_w 4 bm ->
    (forall j, 0 <= j < 4 -> Z.testbit bm j = bool_decide (upd L i (l1 ++ l2) j <> [])) ->
    exists s', (qs ← zset (mlfq_queues s) i (Queue hd tl (u32 (q_count q - 1)));
      Some (Mlfq h2 qs bm (g_ticks_since_boost s))) = Some s' /\
      mlfq_rep s' (upd L i (l1 ++ l2)) /\ same_body (heap s) (heap s') /\
      g_ticks_since_boost s' = g_ticks_since_boost s).
  { intros tl bm Htl' Hbm Hb.
    destruct (rep_replace s L i (Queue hd tl (u32 (q_count q - 1))) (l1 ++ l2) h2 bm
      (g_ticks_since_boost s)) as (qs & Hqs & Hrep); [done|done|by apply Hok2|done| |done|done|].
    - by apply same_body_size.
    - rewrite Hqs. simpl. eauto. }
  unfold mlfq_dequeue. rewrite Ha. simpl. rewrite Hlv.
  rewrite (proj2 (Z.ltb_ge i 0)), (proj2 (Z.leb_gt MLFQ_LEVELS i)) by (unfold MLFQ_LEVELS; lia).
  simpl. rewrite Hq. simpl. rewrite Hu. simpl. destruct hd as [x|].
  - destruct Htl as [Hnn ->]. simpl. apply Hcore; [done|apply Hr|]. intros j Hj.
    rewrite (mr_bits _ _ Hr j Hj). destruct (decide (j = i)) as [->|]; [|by rewrite upd_ne].
    rewrite upd_eq, Hl. rewrite !bool_decide_eq_true_2; [done..|]. by destruct l1.
  - simpl. apply Hcore; [by rewrite Htl|apply in_w_land_l; [lia|apply Hr]|]. intros j Hj.
    rewrite clear_bit_spec by (apply Hr || lia). rewrite (mr_bits _ _ Hr j Hj).
    destruct (decide (j = i)) as [->|].
    + rewrite upd_eq, Htl. rewrite (bool_decide_eq_true_2 (i = i)), andb_false_r by done. done.
    + rewrite upd_ne, (bool_decide_eq_false_2 (j = i)), andb_true_r by done. done.
Qed.

Lemma dequeue_rep_notin s L t a :
  mlfq_rep s L -> heap s !! t = Some a ->
  (0 <= t_mlfq_level a < 4 -> t ∉ L (t_mlfq_level a)) ->
  mlfq_dequeue (Some t) s = Some s.
Proof.
  intros Hr Ha Hu. unfold mlfq_dequeue. rewrite Ha. simpl. set (i := t_mlfq_level a) in *.
  destruct (Z.ltb_spec i 0); [done|]. destruct (Z.leb_spec MLFQ_LEVELS i); [done|].
  unfold MLFQ_LEVELS in *. simpl. destruct (mr_queue _ _ Hr i) as (q & Hq & Hok); [lia|].
  rewrite Hq. simpl. rewrite (unlink_none link_next _ _ _ _ (L i)); [done|apply Hok| |].
  - intros y b Hy _. apply Nat.eqb_neq. intros ->. apply Hu; [lia|done].
  - unfold walk_fuel. pose proof (queue_ok_length _ _ _ _ Hok). lia.
Qed.

(** [mlfq_dequeue] takes the task out of whichever queue it is in. *)
Lemma dequeue_rep s L t a :
  mlfq_rep s L -> heap s !! t = Some a ->
  exists s', mlfq_dequeue (Some t) s = Some s' /\ mlfq_rep s' (rm_all t L) /\
    same_body (heap s) (heap s') /\ g_ticks_since_boost s' = g_ticks_since_boost s.
Proof.
  intros Hr Ha. destruct (decide (0 <= t_mlfq_level a < 4 /\ t ∈ L (t_mlfq_level a))) as [[Hi Ht]|Hn].
  - destruct (dequeue_rep_in s L t a _ Hr Ha Hi Ht) as (s' & ? & Hrep & ? & ?).
    exists s'. split_and!; [done| |done|done]. eapply mlfq_rep_ext; [|exact Hrep].
    by eapply rm_all_upd.
  - exists s. split_and!; [|..|done|done].
    + eapply dequeue_rep_notin; [done|done|naive_solver].
    + eapply mlfq_rep_ext; [|exact Hr]. intros i Hi. unfold rm_all. symmetry.
      apply rm_notin. intros Ht. apply Hn. pose proof (rep_level _ _ _ _ _ Hr Hi Ht Ha). by subst.
Qed.

Lemma rm_all_unqueued t L : unqueued (rm_all t L) t.
Proof. intros i _. unfold rm_all. rewrite elem_of_rm. naive_solver. Qed.

(** The level a task decays to. *)
Definition decay_level (i : Z) : Z := if 3 <=? i then i else i + 1.

Lemma decay_rep s L t a :
  mlfq_rep s L -> heap s !! t = Some a -> 0 <= t_mlfq_level a < 4 ->
  let j := decay_level (t_mlfq_level a) in
  exists s' c a1, mlfq_decay (Some t) s = Some s' /\
    mlfq_rep s' (upd (rm_all t L) j (rm t (L j) ++ [t])) /\
    zget mlfq_quanta j = Some c /\ set_next None a1 = set_next None a /\
    heap s' !! t = Some (enqueued j c a1) /\
    (forall x, x <> t -> set_next None <$> heap s' !! x = set_next None <$> heap s !! x) /\
    g_ticks_since_boost s' = g_ticks_since_boost s.
Proof.
  intros Hr Ha Hlv j. destruct (dequeue_rep s L t a Hr Ha) as (s1 & Hd & Hr1 & Hsb & Htk).
  destruct (same_body_lookup _ _ _ _ Hsb Ha) as (a1 & Ha1 & Hb1).
  destruct (enqueue_rep s1 (rm_all t L) t a1 j) as (s' & c & He & Hr' & Hc & Ht & Hsb' & Htk');
    [done|done|apply rm_all_unqueued|unfold j, decay_level; destruct (Z.leb_spec 3 (t_mlfq_level a)); lia|].
  exists s', c, a1. split_and!; [|exact Hr'|done|done|done| |congruence].
  - unfold mlfq_decay. rewrite Ha. simpl. revert He. unfold j, decay_level.
    change (MLFQ_LEVELS - 1) with 3. destruct (3 <=? t_mlfq_level a); intros He; rewrite Hd; exact He.
  - intros x Hx. rewrite (Hsb' x), lookup_insert_ne by done. apply Hsb.
Qed.

(** The lowest set bit of the bitmap is the first non-empty queue. *)
Lemma pick_rep s L : mlfq_rep s L -> mlfq_pick_highest s = Some (pick_spec L).
Proof.
  intros Hr. unfold mlfq_pick_highest, pick_spec. pose proof (mr_bitmap _ _ Hr) as Hw.
  destruct (Z.eqb_spec (mlfq_bitmap s) 0) as [E|E].
  - assert (forall i, 0 <= i < 4 -> L i = []) as HL.
    { intros i Hi. pose proof (mr_bits _ _ Hr i Hi) as Hb. rewrite E, Z.testbit_0_l in Hb.
      symmetry in Hb. apply bool_decide_eq_false_1, dec_stable in Hb. done. }
    rewrite !HL by lia. done.
  - set (i := ctz (mlfq_bitmap s)). assert (Hp : 0 < mlfq_bitmap s) by (destruct Hw; lia).
    pose proof (ctz_nonneg (mlfq_bitmap s)). pose proof (ctz_lt _ _ Hw Hp).
    destruct (mr_queue _ _ Hr i) as (q & Hq & Hok); [lia|]. rewrite Hq. simpl. f_equal.
    rewrite (lseg_head link_next _ _ _ (qo_seg _ _ _ _ Hok)).
    pose proof (mr_bits _ _ Hr i ltac:(lia)) as Hb. unfold i in Hb.
    rewrite ctz_set in Hb by done. fold i in Hb. symmetry in Hb. apply bool_decide_eq_true_1 in Hb.
    assert (forall k, 0 <= k < i -> L k = []) as Hlow.
    { intros k Hk. pose proof (mr_bits _ _ Hr k ltac:(lia)) as Hk'.
      rewrite ctz_low in Hk' by (done || lia). symmetry in Hk'.
      apply bool_decide_eq_false_1, dec_stable in Hk'. done. }
    assert (i = 0 \/ i = 1 \/ i = 2 \/ i = 3) as [Ei|[Ei|[Ei|Ei]]] by lia; rewrite Ei in *;
      rewrite ?(Hlow 0), ?(Hlow 1), ?(Hlow 2) by lia; simpl;
      match goal with |- head ?l = head _ => destruct l; done end.
Qed.

(** ** The priority boost *)

(** The loop invariant of [boost_collect]: levels [1 .. k-1] are spliced into the
    list [C] and their queues cleared, the others are untouched. *)
Record collect_inv (h0 : gmap nat task) (L : Z -> list nat) (k : Z) (C : list nat)
    (ch ct : option nat) (s : mlfq) : Prop := {
  ci_len : length (mlfq_queues s) = 4%nat;
  ci_keep : forall j, (j = 0 \/ k <= j < 4) ->
    exists q, zget (mlfq_queues s) j = Some q /\ queue_ok (heap s) j q (L j);
  ci_clear : forall j, 1 <= j < k -> zget (mlfq_queues s) j = Some (Queue None None 0);
  ci_seg : next_list (heap s) ch C None;
  ci_tail : ct = last C;
  ci_nodup : NoDup C;
  ci_level : forall x, x ∈ C -> exists a, heap s !! x = Some a /\ 1 <= t_mlfq_level a < k;
  ci_body : same_body h0 (heap s)
}.

Lemma collect_step h0 L k C ch ct s q b y C0 :
  collect_inv h0 L k C ch ct s -> 1 <= k < 4 -> zget (mlfq_queues s) k = Some q ->
  queue_ok (heap s) k q (L k) -> C = C0 ++ [y] -> heap s !! y = Some b ->
  collect_inv h0 L (k + 1) (C ++ L k) ch (opt_or (last (L k)) ct)
    (Mlfq (<[y := set_next (q_head q) b]> (heap s)) (<[Z.to_nat k := Queue None None 0]> (mlfq_queues s))
       (mlfq_bitmap s) (g_ticks_since_boost s)).
Proof.
  intros Hci Hk Hq Hok HC Hb. destruct Hci as [Hl Hkp Hcl Hs Ht Hnd Hlv Hbd].
  assert (Hdis : forall x, x ∈ C -> x ∉ L k).
  { intros x Hx Hx'. destruct (Hlv x Hx) as (a & Ha & ?).
    destruct (qo_level _ _ _ _ Hok x Hx') as (a' & ? & ?). simplify_eq. lia. }
  assert (Hsb : same_body (heap s) (<[y := set_next (q_head q) b]> (heap s))).
  { intros x. destruct (decide (x = y)) as [->|]; [|by rewrite lookup_insert_ne].
    by rewrite lookup_insert_eq, Hb. }
  split; simpl.
  - by rewrite length_insert.
  - intros j Hj. destruct (Hkp j) as (qj & Hqj & Hoj); [lia|]. exists qj.
    rewrite zget_insert_ne by lia. split; [done|]. eapply queue_ok_frame; [|exact Hoj].
    intros x Hx. apply lookup_insert_ne. intros <-.
    destruct (Hlv y) as (a & Ha & ?); [subst; set_solver|].
    destruct (qo_level _ _ _ _ Hoj y Hx) as (a' & ? & ?). simplify_eq. lia.
  - intros j Hj. rewrite zget_insert by lia. case_decide; [done|]. apply Hcl. lia.
  - subst C. apply (lseg_join link_next); [done|apply Hok|done|done|done].
  - rewrite last_app. rewrite <-Ht. by destruct (last (L k)).
  - apply NoDup_app. split_and!; [done|done|apply Hok].
  - intros x [Hx|Hx]%elem_of_app.
    + destruct (Hlv x Hx) as (a & Ha & ?).
      destruct (same_body_lookup _ _ _ _ Hsb Ha) as (a' & ? & ?%body_level). eexists. split; [done|lia].
    + destruct (qo_level _ _ _ _ Hok x Hx) as (a & Ha & ?).
      destruct (same_body_lookup _ _ _ _ Hsb Ha) as (a' & ? & ?%body_level). eexists. split; [done|lia].
  - by eapply same_body_trans.
Qed.

Lemma collect_first h0 L k ch s q :
  collect_inv h0 L k [] ch None s -> 1 <= k < 4 -> zget (mlfq_queues s) k = Some q ->
  queue_ok (heap s) k q (L k) ->
  collect_inv h0 L (k + 1) (L k) (q_head q) (last (L k))
    (Mlfq (heap s) (<[Z.to_nat k := Queue None None 0]> (mlfq_queues s))
       (mlfq_bitmap s) (g_ticks_since_boost s)).
Proof.
  intros [Hl Hkp Hcl Hs Ht Hnd Hlv Hbd] Hk Hq Hok. split; simpl; [|..|done].
  - by rewrite length_insert.
  - intros j Hj. destruct (Hkp j) as (qj & Hqj & Hoj); [lia|]. exists qj.
    by rewrite zget_insert_ne by lia.
  - intros j Hj. rewrite zget_insert by lia. case_decide; [done|]. apply Hcl. lia.
  - apply Hok.
  - done.
  - apply Hok.
  - intros x Hx. destruct (qo_level _ _ _ _ Hok x Hx) as (a & ? & ?). exists a. split; [done|lia].
Qed.

Lemma collect_skip h0 L k C ch ct s q :
  collect_inv h0 L k C ch ct s -> 1 <= k < 4 -> zget (mlfq_queues s) k = Some q ->
  queue_ok (heap s) k q (L k) -> L k = [] -> collect_inv h0 L (k + 1) C ch ct s.
Proof.
  intros [Hl Hkp Hcl Hs Ht Hnd Hlv Hbd] Hk Hq Hok HL. split; [done|..|done|done|done| |done].
  - intros j Hj. apply Hkp. lia.
  - intros j Hj. destruct (decide (j = k)) as [->|]; [|apply Hcl; lia]. rewrite Hq. f_equal.
    destruct Hok as [H1 H2 H3 _ _]. rewrite HL in *. destruct q. simpl in *. by subst.
  - intros x Hx. destruct (Hlv x Hx) as (a & ? & ?). exists a. split; [done|lia].
Qed.

Lemma boost_collect_ok h0 L n k C ch ct s :
  collect_inv h0 L k C ch ct s -> 1 <= k -> k + Z.of_nat n = 4 ->
  exists ch' ct' s', boost_collect n k ch ct s = Some (ch', ct', s') /\
    collect_inv h0 L 4 (C ++ concat (L <$> seqZ k (Z.of_nat n))) ch' ct' s' /\
    mlfq_bitmap s' = mlfq_bitmap s /\ g_ticks_since_boost s' = g_ticks_since_boost s.
Proof.
  revert k C ch ct s. induction n as [|n IH]; intros k C ch ct s Hci Hk Hn.
  { exists ch, ct, s. cbn [boost_collect]. split_and!; [done| |done|done].
    replace (seqZ k (Z.of_nat 0)) with (@nil Z) by done. simpl. rewrite app_nil_r.
    by replace 4 with k by lia. }
  destruct (ci_keep _ _ _ _ _ _ _ Hci k) as (q & Hq & Hok); [lia|].
  rewrite seqZ_cons by lia. replace (Z.pred (Z.of_nat (S n))) with (Z.of_nat n) by lia.
  replace (Z.succ k) with (k + 1) by lia. rewrite fmap_cons. cbn [concat boost_collect].
  rewrite Hq. simpl. pose proof (lseg_head link_next _ _ _ (qo_seg _ _ _ _ Hok)) as Hhd.
  destruct (q_head q) as [x|] eqn:Hh; try rewrite Hh in Hhd.
  2:{ assert (L k = []) as HL by (clear -Hhd; destruct (L k); simpl in *; congruence).
      rewrite HL. simpl.
      apply IH; [eapply collect_skip; [done|lia|done|done|done]|lia|lia]. }
  rewrite zset_Some by (pose proof (ci_len _ _ _ _ _ _ _ Hci); lia).
  rewrite (qo_tail _ _ _ _ Hok), app_assoc. rewrite (ci_tail _ _ _ _ _ _ _ Hci) in Hci |- *.
  destruct (last C) as [y|] eqn:Hy.
  - apply last_Some in Hy as [C0 HC]. destruct (ci_level _ _ _ _ _ _ _ Hci y) as (b & Hb & _).
    { subst; set_solver. }
    rewrite Hb. simpl. pose proof (collect_step _ _ _ _ _ _ _ _ _ _ _ Hci ltac:(lia) Hq Hok HC Hb) as Hc'.
    rewrite Hh in Hc'. destruct (last (L k)) as [z|] eqn:Hz; [|apply last_None in Hz; by rewrite Hz in Hhd].
    simpl in Hc'. edestruct IH as (ch' & ct' & s' & Hs' & Hci' & Hbm & Htk); [exact Hc'|lia|lia|].
    exists ch', ct', s'. done.
  - apply last_None in Hy as ->. simpl.
    pose proof (collect_first _ _ _ _ _ _ Hci ltac:(lia) Hq Hok) as Hc'. rewrite Hh in Hc'.
    edestruct IH as (ch' & ct' & s' & Hs' & Hci' & Hbm & Htk); [exact Hc'|lia|lia|].
    exists ch', ct', s'. done.
Qed.

(** The second loop moves the collected list behind queue 0. *)
Lemma boost_requeue_ok fuel C : forall t s l0 q0 (h0 : gmap nat task),
  length (mlfq_queues s) = 4%nat -> zget (mlfq_queues s) 0 = Some q0 ->
  queue_ok (heap s) 0 q0 l0 -> next_list (heap s) t C None -> NoDup C ->
  (forall x, x ∈ C -> x ∉ l0) -> Z.of_nat (size (heap s)) < 2 ^ 32 -> (length C < fuel)%nat ->
  (forall x, fixed <$> heap s !! x = fixed <$> h0 !! x) ->
  exists s' q', boost_requeue fuel t s = Some s' /\ length (mlfq_queues s') = 4%nat /\
    zget (mlfq_queues s') 0 = Some q' /\ queue_ok (heap s') 0 q' (l0 ++ C) /\
    (forall j, 1 <= j -> zget (mlfq_queues s') j = zget (mlfq_queues s) j) /\
    mlfq_bitmap s' = mlfq_bitmap s /\ g_ticks_since_boost s' = g_ticks_since_boost s /\
    size (heap s') = size (heap s) /\
    (forall x, x ∉ C -> set_next None <$> heap s' !! x = set_next None <$> heap s !! x) /\
    (forall x, fixed <$> heap s' !! x = fixed <$> h0 !! x).
Proof.
  revert fuel. induction C as [|x C IH]; intros [|fuel] t s l0 q0 h0 Hl Hq Hok Hs Hnd Hdis Hsz Hf Hst;
    simpl in *; try lia.
  { subst t. exists s, q0. rewrite app_nil_r. split_and!; done. }
  destruct Hs as (-> & a & Ha & Hs). apply NoDup_cons in Hnd as [Hx Hnd].
  rewrite Ha. simpl. rewrite Hq. simpl. set (h1 := <[x := boosted 2 a]> (heap s)).
  assert (Hsz1 : size h1 = size (heap s)) by (unfold h1; rewrite map_size_insert_Some; eauto).
  destruct (append_tail_ok h1 0 q0 l0 x (boosted 2 a)) as (h2 & q2 & Happ & Hok2 & Hx2 & Hd2 & Hne & Hsb).
  { eapply queue_ok_frame; [|exact Hok]. intros y Hy. apply lookup_insert_ne.
    intros ->. eapply Hdis; [apply list_elem_of_here|done]. }
  { apply Hdis. set_solver. } { apply lookup_insert_eq. } { done. } { done. } { by rewrite Hsz1. }
  rewrite Happ. simpl. rewrite zset_Some by lia. simpl.
  assert (Hsz2 : size h2 = size (heap s)) by (rewrite <-Hsz1; by apply same_body_size).
  edestruct (IH fuel (t_next a) (Mlfq h2 (<[0%nat := q2]> (mlfq_queues s)) (mlfq_bitmap s)
    (g_ticks_since_boost s)) (l0 ++ [x]) q2 h0) as (s' & q' & He & ? & Hq' & Hok' & Hj & ? & ? & ? & Hb & Hst').
  { simpl. by rewrite length_insert. }
  { simpl. apply (zget_insert_eq (mlfq_queues s) 0). lia. }
  { done. }
  { simpl. eapply lseg_frame; [|exact Hs]. intros y Hy.
    rewrite Hne by (apply Hdis; set_solver). unfold h1. rewrite lookup_insert_ne; [done|set_solver]. }
  { done. }
  { intros y Hy. rewrite elem_of_app, list_elem_of_singleton. intros [?| ->]; [|done].
    eapply Hdis; [|done]. set_solver. }
  { simpl. by rewrite Hsz2. }
  { lia. }
  { intros y. simpl. rewrite <-Hst, (body_proj fixed h1) by done. unfold h1. destruct (decide (y = x)) as [->|]; [|by rewrite lookup_insert_ne].
    by rewrite lookup_insert_eq, Ha. }
  rewrite <-app_assoc in Hok'. exists s', q'. split_and!; try done.
  - intros j Hj'. rewrite Hj by done. simpl. apply (zget_insert_ne (mlfq_queues s) 0); lia.
  - simpl in *. congruence.
  - intros y Hy. rewrite not_elem_of_cons in Hy. destruct Hy as [Hyx Hy]. rewrite Hb by done. simpl.
    rewrite (Hsb y). unfold h1. by rewrite lookup_insert_ne.
Qed.

#[global] Arguments boost_requeue : simpl never.

Lemma boost_rep s L :
  mlfq_rep s L ->
  exists s', mlfq_boost_all s = Some s' /\ mlfq_rep s' (boost_spec L) /\
    g_ticks_since_boost s' = 0 /\
    (forall x, x ∉ L 1 ++ L 2 ++ L 3 -> set_next None <$> heap s' !! x = set_next None <$> heap s !! x) /\
    (forall x, fixed <$> heap s' !! x = fixed <$> heap s !! x).
Proof.
  intros Hr. destruct (boost_collect_ok (heap s) L 3 1 [] None None s)
    as (ch & ct & s1 & Hc & Hci & Hbm & Htk); [|lia|lia|].
  { split; [apply Hr| |lia|done|done|constructor|set_solver|done].
    intros j Hj. apply (mr_queue _ _ Hr). lia. }
  assert (HC : [] ++ concat (L <$> seqZ 1 (Z.of_nat 3)) = L 1 ++ L 2 ++ L 3).
  { simpl. by rewrite app_nil_r. }
  rewrite HC in Hci. destruct Hci as [Hl Hkp Hcl Hs Ht Hnd Hlv Hbd].
  destruct (Hkp 0) as (q0 & Hq0 & Hok0); [lia|].
  assert (Hsz : size (heap s1) = size (heap s)) by by apply same_body_size.
  pose proof (mr_bits _ _ Hr 0 ltac:(lia)) as Hb0. pose proof (mr_size _ _ Hr) as Hms.
  assert (Hland : Z.land (mlfq_bitmap s) 1 = if bool_decide (L 0 = []) then 0 else 1).
  { apply (bits_eq 4); [lia|apply in_w_land_l; [lia|apply Hr]|unfold in_w; destruct (bool_decide (L 0 = [])); lia|].
    intros i Hi. rewrite Z.land_spec. destruct (decide (i = 0)) as [->|].
    - rewrite Hb0. repeat case_bool_decide; naive_solver.
    - assert (Hi1 : Z.testbit 1 i = false) by (apply (testbit_high 1); [unfold in_w; lia|lia]).
      rewrite Hi1, andb_false_r. destruct (bool_decide (L 0 = [])); [by rewrite Z.testbit_0_l|done]. }
  unfold mlfq_boost_all. change (Z.to_nat (MLFQ_LEVELS - 1)) with 3%nat. rewrite Hc. simpl.
  set (C := L 1 ++ L 2 ++ L 3) in *. pose proof (lseg_head link_next _ _ _ Hs) as Hh.
  assert (Hfin : forall s' q' bm, length (mlfq_queues s') = 4%nat -> zget (mlfq_queues s') 0 = Some q' ->
    queue_ok (heap s') 0 q' (L 0 ++ C) ->
    (forall j, 1 <= j < 4 -> zget (mlfq_queues s') j = Some (Queue None None 0)) ->
    bm = (if bool_decide (L 0 ++ C = []) then 0 else 1) -> size (heap s') = size (heap s) ->
    mlfq_rep (Mlfq (heap s') (mlfq_queues s') bm 0) (boost_spec L)).
  { intros s' q' bm H1 H2 H3 H4 -> H6. split; simpl; [done| | | |by rewrite H6].
    - intros j Hj. unfold boost_spec. case_decide; subst; [eauto|]. rewrite H4 by lia.
      eexists. split; [done|]. split; [done..|constructor|set_solver].
    - unfold in_w. destruct (bool_decide (L 0 ++ C = [])); lia.
    - intros j Hj. unfold boost_spec. case_decide; subst.
      + fold C. destruct (L 0 ++ C); reflexivity.
      + rewrite (bool_decide_eq_false_2 ([] <> [])) by naive_solver.
        destruct (bool_decide (L 0 ++ C = [])); [apply Z.testbit_0_l|]. apply (testbit_high 1); [unfold in_w; lia|lia]. }
  destruct ch as [x|].
  - destruct (boost_requeue_ok (walk_fuel (Mlfq (heap s1) (mlfq_queues s1) (Z.land (mlfq_bitmap s1) 1)
      (g_ticks_since_boost s1))) C (Some x) (Mlfq (heap s1) (mlfq_queues s1) (Z.land (mlfq_bitmap s1) 1)
      (g_ticks_since_boost s1)) (L 0) q0 (heap s)) as (s' & q' & He & H1 & H2 & H3 & H4 & H5 & H6 & H7 & H8 & H9);
      [exact Hl|exact Hq0|exact Hok0|exact Hs|exact Hnd| | | | |].
    + simpl. intros y Hy Hy'. destruct (Hlv y Hy) as (a & Ha & ?).
      destruct (qo_level _ _ _ _ Hok0 y Hy') as (b & ? & ?). simplify_eq. lia.
    + simpl. by rewrite Hsz.
    + unfold walk_fuel. simpl. apply Nat.lt_succ_r, nodup_size; [done|].
      intros y Hy. destruct (Hlv y Hy) as (a & ? & _). eauto.
    + simpl. intros y. by apply (body_proj fixed).
    + rewrite He. simpl. eexists. split; [done|]. simpl in *. split_and!; [|done| |done].
      * eapply Hfin; [done|done|done| | |congruence].
        { intros j Hj. rewrite H4 by lia. apply Hcl. lia. }
        rewrite H5, Hbm, Hland. rewrite (bool_decide_eq_false_2 (L 0 ++ C = [])); [by destruct (bool_decide (L 0 = []))|].
        intros E. apply app_eq_nil in E as [_ E]. by rewrite E in Hh.
      * intros y Hy. rewrite H8 by done. apply Hbd.
  - assert (C = []) as HC0 by (clear -Hh; destruct C; simpl in *; congruence).
    simpl. eexists. split; [done|]. simpl. split_and!; [|done| |].
    + eapply (Hfin s1); [done|exact Hq0|by rewrite HC0, app_nil_r| | |done].
      { intros j Hj. apply Hcl. lia. }
      by rewrite Hbm, Hland, HC0, app_nil_r.
    + intros y _. apply Hbd.
    + intros y. by apply (body_proj fixed).
Qed.

(** ** The other operations *)

Lemma init_rep s :
  Z.of_nat (size (heap s)) < 2 ^ 32 -> mlfq_rep (mlfq_init s) (fun _ => []).
Proof.
  intros Hs. split; simpl; [done| |unfold in_w; lia| |done].
  - intros i Hi. exists (Queue None None 0). split.
    + assert (i = 0 \/ i = 1 \/ i = 2 \/ i = 3) as [-> |[-> |[-> | ->]]] by lia; done.
    + split; [done..|constructor|set_solver].
  - intros i Hi. apply Z.testbit_0_l.
Qed.

Definition tick_boosts (s : mlfq) : bool :=
  MLFQ_BOOST_INTERVAL <=? u64 (g_ticks_since_boost s + 1).

Lemma tick_rep s L :
  mlfq_rep s L ->
  exists s', mlfq_tick s = Some s' /\
    mlfq_rep s' (if tick_boosts s then boost_spec L else L) /\
    g_ticks_since_boost s' = (if tick_boosts s then 0 else u64 (g_ticks_since_boost s + 1)) /\
    (forall x, x ∉ L 1 ++ L 2 ++ L 3 -> set_next None <$> heap s' !! x = set_next None <$> heap s !! x) /\
    (forall x, fixed <$> heap s' !! x = fixed <$> heap s !! x).
Proof.
  intros Hr. unfold mlfq_tick, tick_boosts. set (tk := u64 (g_ticks_since_boost s + 1)).
  assert (Hr1 : mlfq_rep (Mlfq (heap s) (mlfq_queues s) (mlfq_bitmap s) tk) L)
    by (by destruct Hr).
  destruct (MLFQ_BOOST_INTERVAL <=? tk).
  - destruct (boost_rep _ _ Hr1) as (s' & ? & ? & ? & ? & ?). eauto 10.
  - eexists. split; [done|]. done.
Qed.

Lemma queues_list s L :
  mlfq_rep s L -> exists q0 q1 q2 q3, mlfq_queues s = [q0; q1; q2; q3] /\
    queue_ok (heap s) 0 q0 (L 0) /\ queue_ok (heap s) 1 q1 (L 1) /\
    queue_ok (heap s) 2 q2 (L 2) /\ queue_ok (heap s) 3 q3 (L 3).
Proof.
  intros Hr. pose proof (mr_len _ _ Hr) as Hl. pose proof (mr_queue _ _ Hr) as Hq.
  destruct (mlfq_queues s) as [|q0 [|q1 [|q2 [|q3 [|]]]]]; try done.
  exists q0, q1, q2, q3. split; [done|].
  destruct (Hq 0 ltac:(lia)) as (? & [= <-] & ?), (Hq 1 ltac:(lia)) as (? & [= <-] & ?),
    (Hq 2 ltac:(lia)) as (? & [= <-] & ?), (Hq 3 ltac:(lia)) as (? & [= <-] & ?). done.
Qed.

Lemma rep_disj s L i j t :
  mlfq_rep s L -> 0 <= i < 4 -> 0 <= j < 4 -> i <> j -> t ∈ L i -> t ∈ L j -> False.
Proof.
  intros Hr Hi Hj Hij Ht Ht'. destruct (mr_queue _ _ Hr i Hi) as (q & _ & Hq).
  destruct (mr_queue _ _ Hr j Hj) as (q' & _ & Hq').
  by eapply (queue_ok_disj _ _ _ _ _ _ _ t Hq Hq').
Qed.

Lemma rep_nodup s L i : mlfq_rep s L -> 0 <= i < 4 -> NoDup (L i).
Proof. intros Hr Hi. destruct (mr_queue _ _ Hr i Hi) as (q & _ & Hq). apply Hq. Qed.

(** The four lists together are duplicate-free. *)
Lemma all_nodup s L : mlfq_rep s L -> NoDup (L 0 ++ L 1 ++ L 2 ++ L 3).
Proof.
  intros Hr. pose proof (fun i j t => rep_disj s L i j t Hr) as D.
  apply NoDup_app; split; [apply (rep_nodup s L 0 Hr); lia|split].
  { intros t Ht. rewrite !elem_of_app. intros [?|[?|?]];
      [apply (D 0 1 t)|apply (D 0 2 t)|apply (D 0 3 t)]; (lia || done). }
  apply NoDup_app; split; [apply (rep_nodup s L 1 Hr); lia|split].
  { intros t Ht. rewrite !elem_of_app. intros [?|?];
      [apply (D 1 2 t)|apply (D 1 3 t)]; (lia || done). }
  apply NoDup_app; split; [apply (rep_nodup s L 2 Hr); lia|split].
  { intros t Ht ?. apply (D 2 3 t); (lia || done). }
  apply (rep_nodup s L 3 Hr); lia.
Qed.

Lemma all_size s L :
  mlfq_rep s L -> Z.of_nat (length (L 0 ++ L 1 ++ L 2 ++ L 3)) <= Z.of_nat (size (heap s)).
Proof.
  intros Hr. apply Nat2Z.inj_le, nodup_size; [by eapply all_nodup|]. intros t.
  destruct (queues_list s L Hr) as (q0 & q1 & q2 & q3 & _ & H0 & H1 & H2 & H3).
  rewrite !elem_of_app. intros [?|[?|[?|?]]];
    [eapply (queue_ok_in _ _ _ _ _ H0)|eapply (queue_ok_in _ _ _ _ _ H1)
    |eapply (queue_ok_in _ _ _ _ _ H2)|eapply (queue_ok_in _ _ _ _ _ H3)]; done.
Qed.

Lemma total_count_rep s L :
  mlfq_rep s L -> mlfq_total_count s = Z.of_nat (length (L 0 ++ L 1 ++ L 2 ++ L 3)).
Proof.
  intros Hr. pose proof (all_size s L Hr) as Hsz. pose proof (mr_size _ _ Hr).
  destruct (queues_list s L Hr) as (q0 & q1 & q2 & q3 & Hq & H0 & H1 & H2 & H3).
  unfold mlfq_total_count. rewrite Hq. simpl.
  rewrite (qo_count _ _ _ _ H0), (qo_count _ _ _ _ H1), (qo_count _ _ _ _ H2), (qo_count _ _ _ _ H3).
  rewrite !length_app in *. unwrap.
  rewrite (wrap_small 32 (0 + _)) by (unfold in_w; lia).
  rewrite (wrap_small 32 (0 + _ + _)) by (unfold in_w; lia).
  rewrite (wrap_small 32 (0 + _ + _ + _)) by (unfold in_w; lia). wrap_small. lia.
Qed.

(** ** Traces of operations *)

(** The calls other components make into the queue. *)
Inductive mlfq_op :=
| OpEnqueue (t : nat) (level : Z)
| OpDequeue (t : nat)
| OpDecay (t : nat)
| OpBoost
| OpTick.

Definition exec_op (o : mlfq_op) (s : mlfq) : option mlfq :=
  match o with
  | OpEnqueue t i => mlfq_enqueue (Some t) i s
  | OpDequeue t => mlfq_dequeue (Some t) s
  | OpDecay t => mlfq_decay (Some t) s
  | OpBoost => mlfq_boost_all s
  | OpTick => mlfq_tick s
  end.

Definition exec_ops (os : list mlfq_op) (s : mlfq) : option mlfq :=
  foldl (fun o op => s ← o; exec_op op s) (Some s) os.

(** The abstract queue: four lists of tasks, the level each task was last given
    and the boost clock. *)
Record aq := AQ { aq_lists : Z -> list nat; aq_level : gmap nat Z; aq_ticks : Z }.

Definition spec_boost (A : aq) : aq :=
  AQ (boost_spec (aq_lists A))
     (foldr (fun t m => <[t := 0]> m) (aq_level A)
        (aq_lists A 1 ++ aq_lists A 2 ++ aq_lists A 3)) 0.

Definition spec_op (o : mlfq_op) (A : aq) : aq :=
  let L := aq_lists A in
  match o with
  | OpEnqueue t i => AQ (upd L i (L i ++ [t])) (<[t := i]> (aq_level A)) (aq_ticks A)
  | OpDequeue t => AQ (rm_all t L) (aq_level A) (aq_ticks A)
  | OpDecay t =>
    let j := decay_level (default 0 (aq_level A !! t)) in
    AQ (upd (rm_all t L) j (rm t (L j) ++ [t])) (<[t := j]> (aq_level A)) (aq_ticks A)
  | OpBoost => spec_boost A
  | OpTick =>
    let k := u64 (aq_ticks A + 1) in
    if MLFQ_BOOST_INTERVAL <=? k then spec_boost (AQ L (aq_level A) k)
    else AQ L (aq_level A) k
  end.

(** What the header asks of the callers: enqueue only tasks that are in no queue,
    at a valid level. *)
Definition op_pre (o : mlfq_op) (A : aq) : Prop :=
  match o with
  | OpEnqueue t i => 0 <= i < 4 /\ unqueued (aq_lists A) t /\ is_Some (aq_level A !! t)
  | OpDequeue t | OpDecay t => is_Some (aq_level A !! t)
  | _ => True
  end.

Fixpoint ops_pre (os : list mlfq_op) (A : aq) : Prop :=
  match os with [] => True | o :: os' => op_pre o A /\ ops_pre os' (spec_op o A) end.

Definition abs_rel (s : mlfq) (A : aq) : Prop :=
  mlfq_rep s (aq_lists A) /\ t_mlfq_level <$> heap s = aq_level A /\
  (forall t i, aq_level A !! t = Some i -> 0 <= i < 4) /\ g_ticks_since_boost s = aq_ticks A.

Lemma foldr_insert_lookup (l : list nat) (m : gmap nat Z) x :
  foldr (fun t m => <[t := 0]> m) m l !! x = if decide (x ∈ l) then Some 0 else m !! x.
Proof.
  induction l as [|y l IH]; simpl; [done|].
  destruct (decide (x = y)) as [->|Hn].
  - rewrite lookup_insert_eq. rewrite decide_True; [done|set_solver].
  - rewrite lookup_insert_ne, IH by done.
    destruct (decide (x ∈ l)), (decide (x ∈ y :: l)); set_solver.
Qed.

Lemma levels_rel (h : gmap nat task) (m : gmap nat Z) (t : nat) a :
  t_mlfq_level <$> h = m -> h !! t = Some a -> m !! t = Some (t_mlfq_level a).
Proof. intros <- Ha. by rewrite lookup_fmap, Ha. Qed.

Lemma same_body_levels (h h' : gmap nat task) :
  same_body h h' -> t_mlfq_level <$> h' = t_mlfq_level <$> h.
Proof.
  intros Hs. apply map_eq. intros x. rewrite !lookup_fmap. specialize (Hs x).
  destruct (h !! x), (h' !! x); try done. simpl. f_equal. by apply body_level, (inj Some).
Qed.

Lemma boost_levels s s' L :
  mlfq_rep s L -> mlfq_rep s' (boost_spec L) ->
  (forall x, x ∉ L 1 ++ L 2 ++ L 3 -> set_next None <$> heap s' !! x = set_next None <$> heap s !! x) ->
  t_mlfq_level <$> heap s' =
    foldr (fun t m => <[t := 0]> m) (t_mlfq_level <$> heap s) (L 1 ++ L 2 ++ L 3).
Proof.
  intros Hr Hr' Hb. apply map_eq. intros x. rewrite foldr_insert_lookup, !lookup_fmap.
  case_decide as Hx.
  - destruct (mr_queue _ _ Hr' 0 ltac:(lia)) as (q & _ & Hq).
    destruct (qo_level _ _ _ _ Hq x) as (a & Ha & Hl).
    { unfold boost_spec. rewrite decide_True by done. set_solver. }
    rewrite Ha. simpl. by rewrite Hl.
  - specialize (Hb x Hx). destruct (heap s !! x), (heap s' !! x); try done.
    simpl. f_equal. by apply body_level, (inj Some).
Qed.

Lemma boost_simulates s A s' :
  abs_rel s A -> mlfq_boost_all s = Some s' -> abs_rel s' (spec_boost A).
Proof.
  intros (Hr & Hlv & Hrg & Htk) He.
  destruct (boost_rep _ _ Hr) as (s1 & He' & Hr' & Htk' & Hb & _). simplify_eq.
  split_and!; [done|simpl; rewrite <-Hlv; by apply boost_levels| |done].
  intros t i. unfold spec_boost. simpl. rewrite foldr_insert_lookup.
  case_decide; [intros [= <-]; lia|]. apply Hrg.
Qed.

Lemma op_simulates o s A :
  abs_rel s A -> op_pre o A -> exists s', exec_op o s = Some s' /\ abs_rel s' (spec_op o A).
Proof.
  intros (Hr & Hlv & Hrg & Htk) Hp.
  assert (Hin : forall t, is_Some (aq_level A !! t) ->
    exists a, heap s !! t = Some a /\ aq_level A !! t = Some (t_mlfq_level a)).
  { intros t [i Hi]. rewrite <-Hlv, lookup_fmap in Hi.
    destruct (heap s !! t) as [a|] eqn:Ha; [|done]. exists a. by erewrite levels_rel. }
  destruct o as [t i|t|t| |]; simpl in *.
  - destruct Hp as (Hi & Hu & (a & Ha & _)%Hin).
    destruct (enqueue_rep _ _ _ _ _ Hr Ha Hu Hi) as (s' & c & He & Hr' & _ & _ & Hb & Ht).
    exists s'. split; [done|]. split_and!; simpl; [done| | |congruence].
    + simpl. rewrite (same_body_levels _ _ Hb), fmap_insert, Hlv. done.
    + intros t' i'. simpl. rewrite lookup_insert. case_decide; [intros [= <-]; done|apply Hrg].
  - apply Hin in Hp as (a & Ha & _).
    destruct (dequeue_rep _ _ _ _ Hr Ha) as (s' & He & Hr' & Hb & Ht).
    exists s'. split; [done|]. split_and!; simpl; [done| |done|congruence].
    simpl. by rewrite (same_body_levels _ _ Hb).
  - apply Hin in Hp as (a & Ha & Hl). rewrite Hl. simpl.
    assert (Hai : 0 <= t_mlfq_level a < 4) by by eapply Hrg.
    destruct (decay_rep _ _ _ _ Hr Ha Hai) as (s' & c & a1 & He & Hr' & _ & _ & Ht' & Hb & Ht).
    exists s'. split; [done|]. split_and!; simpl; [done| | |congruence].
    + simpl. rewrite <-Hlv. apply map_eq. intros x. rewrite lookup_fmap, lookup_insert.
      case_decide as Hx; [subst; by rewrite Ht'|]. rewrite lookup_fmap.
      specialize (Hb x ltac:(done)). destruct (heap s !! x), (heap s' !! x); try done.
      simpl. f_equal. by apply body_level, (inj Some).
    + intros t' i'. simpl. rewrite lookup_insert. case_decide; [|apply Hrg]. intros [= <-].
      unfold decay_level. destruct (Z.leb_spec 3 (t_mlfq_level a)); lia.
  - destruct (boost_rep _ _ Hr) as (s' & He & _). exists s'. split; [done|].
    by eapply boost_simulates.
  - unfold mlfq_tick. rewrite Htk.
    assert (Ha : abs_rel (Mlfq (heap s) (mlfq_queues s) (mlfq_bitmap s) (u64 (aq_ticks A + 1)))
      (AQ (aq_lists A) (aq_level A) (u64 (aq_ticks A + 1)))) by (split_and!; [by destruct Hr|done..]).
    destruct (MLFQ_BOOST_INTERVAL <=? u64 (aq_ticks A + 1)); [|eauto].
    destruct (boost_rep _ _ (proj1 Ha)) as (s' & He & _). exists s'. split; [done|].
    by eapply boost_simulates.
Qed.

Lemma ops_simulate os s A :
  abs_rel s A -> ops_pre os A ->
  exists s', exec_ops os s = Some s' /\ abs_rel s' (foldl (flip spec_op) A os).
Proof.
  revert s A. induction os as [|o os IH]; intros s A Ha Hp; [unfold exec_ops; simpl; eauto|].
  destruct Hp as [Hp Hps]. destruct (op_simulates o s A Ha Hp) as (s1 & He & Ha1).
  destruct (IH s1 _ Ha1 Hps) as (s' & He' & Ha'). exists s'. split; [|done].
  unfold exec_ops in *. simpl. by rewrite He.
Qed.

(** No operation touches the frozen part of any task. *)
Lemma op_frozen o s A s' x :
  abs_rel s A -> op_pre o A -> exec_op o s = Some s' ->
  frozen <$> heap s' !! x = frozen <$> heap s !! x.
Proof.
  intros (Hr & Hlv & Hrg & Htk) Hp He.
  assert (Hin : forall t, is_Some (aq_level A !! t) -> exists a, heap s !! t = Some a).
  { intros t [i Hi]. rewrite <-Hlv, lookup_fmap in Hi. destruct (heap s !! t); naive_solver. }
  assert (Hfx : fixed <$> heap s' !! x = fixed <$> heap s !! x ->
                frozen <$> heap s' !! x = frozen <$> heap s !! x).
  { destruct (heap s !! x) as [a|], (heap s' !! x) as [b|]; try done. intros E%(inj Some). simpl.
    unfold frozen. by rewrite E. }
  destruct o as [t i|t|t| |]; simpl in *.
  - destruct Hp as (Hi & Hu & (a & Ha)%Hin).
    destruct (enqueue_rep _ _ _ _ _ Hr Ha Hu Hi) as (s1 & c & He' & _ & _ & _ & Hb & _). simplify_eq.
    rewrite (body_proj frozen _ _ _ (fun _ => eq_refl) (Hb x)), lookup_insert.
    case_decide; subst; [|done]. by rewrite Ha.
  - apply Hin in Hp as (a & Ha).
    destruct (dequeue_rep _ _ _ _ Hr Ha) as (s1 & He' & _ & Hb & _). simplify_eq.
    by apply (body_proj frozen).
  - apply Hin in Hp as (a & Ha). assert (Hai : 0 <= t_mlfq_level a < 4) by (eapply Hrg, levels_rel; done).
    destruct (decay_rep _ _ _ _ Hr Ha Hai) as (s1 & c & a1 & He' & _ & _ & Hb1 & Ht' & Hb & _).
    assert (s1 = s') as -> by congruence.
    destruct (decide (x = t)) as [->|Hx]; [|apply (body_proj frozen); [done|by apply Hb]].
    rewrite Ht', Ha. simpl. f_equal. change (frozen (set_next None a1) = frozen (set_next None a)).
    by rewrite Hb1.
  - destruct (boost_rep _ _ Hr) as (s1 & He' & _ & _ & _ & Hf). simplify_eq. apply Hfx, Hf.
  - destruct (tick_rep _ _ Hr) as (s1 & He' & _ & _ & _ & Hf). simplify_eq. apply Hfx, Hf.
Qed.

(** A change of fields the queues do not look at. *)
Lemma alter_abs f t s A :
  (forall a, t_next (f a) = t_next a) -> (forall a, t_mlfq_level (f a) = t_mlfq_level a) ->
  abs_rel s A -> abs_rel (with_heap (alter f t (heap s)) s) A.
Proof.
  intros Hn Hl ([H1 H2 H3 H4 H5] & Hlv & Hrg & Htk). split_and!; [|simpl|done|done].
  - split; simpl; [done| |done|done|].
    + intros i Hi. destruct (H2 i Hi) as (q & Hq & [S1 S2 S3 S4 S5]). exists q. split; [done|].
      split; [|done..|].
      * eapply lseg_frame; [|exact S1]. intros x _. rewrite lookup_alter.
        case_decide; [|done]. subst. destruct (heap s !! x); [|done]. simpl. by rewrite Hn.
      * intros x Hx. destruct (S5 x Hx) as (a & Ha & Hla). rewrite lookup_alter.
        case_decide; [|eauto]. subst. rewrite Ha. simpl. eexists. split; [done|]. by rewrite Hl.
    + replace (size (alter f t (heap s))) with (size (heap s)); [done|].
      rewrite <-!size_dom. by rewrite dom_alter_L.
  - rewrite <-Hlv. apply map_eq. intros x. rewrite !lookup_fmap, lookup_alter.
    case_decide; [|done]. subst. destruct (heap s !! x); [|done]. simpl. by rewrite Hl.
Qed.

(** The level of a queued task, read from the abstract queue. *)
Lemma abs_level s A i t :
  abs_rel s A -> 0 <= i < 4 -> t ∈ aq_lists A i -> aq_level A !! t = Some i.
Proof.
  intros (Hr & Hlv & _) Hi Ht. destruct (mr_queue _ _ Hr i Hi) as (q & _ & Hq).
  destruct (qo_level _ _ _ _ Hq t Ht) as (a & Ha & <-). by erewrite levels_rel.
Qed.

(** All queued tasks, highest priority first. *)
Definition queued (A : aq) : list nat :=
  aq_lists A 0 ++ aq_lists A 1 ++ aq_lists A 2 ++ aq_lists A 3.

Lemma elem_of_queued A t : t ∈ queued A <-> exists i, 0 <= i < 4 /\ t ∈ aq_lists A i.
Proof.
  unfold queued. rewrite !elem_of_app. split.
  - intros [?|[?|[?|?]]]; [exists 0|exists 1|exists 2|exists 3]; (split; [lia|done]).
  - intros (i & Hi & Ht). assert (i = 0 \/ i = 1 \/ i = 2 \/ i = 3) as [-> |[-> |[-> | ->]]] by lia; eauto.
Qed.

Lemma queued_boost A t : t ∈ queued (spec_boost A) <-> t ∈ queued A.
Proof.
  unfold queued, spec_boost, boost_spec. simpl.
  rewrite !elem_of_app. set_solver.
Qed.
Lemma queued_decay A t x :
  x ∈ queued (spec_op (OpDecay t) A) <->
  x = t /\ 0 <= decay_level (default 0 (aq_level A !! t)) < 4 \/ x ∈ queued A /\ x <> t.
Proof.
  rewrite !elem_of_queued. simpl. set (j := decay_level _). split.
  - intros (i & Hi & Hx). unfold upd in Hx. case_decide; subst.
    + rewrite elem_of_app, elem_of_rm, list_elem_of_singleton in Hx. naive_solver.
    + unfold rm_all in Hx. rewrite elem_of_rm in Hx. naive_solver.
  - intros [[-> Hj]|[(i & Hi & Hx) Hn]].
    + exists j. split; [done|]. rewrite upd_eq. set_solver.
    + exists i. split; [done|]. unfold upd, rm_all. case_decide; subst;
        rewrite ?elem_of_app, !elem_of_rm; naive_solver.
Qed.
Lemma queued_dequeue A t x : x ∈ queued (spec_op (OpDequeue t) A) <-> x ∈ queued A /\ x <> t.
Proof.
  rewrite !elem_of_queued. simpl. unfold rm_all. setoid_rewrite elem_of_rm. naive_solver.
Qed.

(** The picked task has the lowest level number of all queued tasks. *)
Lemma pick_min s A n :
  abs_rel s A -> pick_spec (aq_lists A) = Some n ->
  exists i, 0 <= i < 4 /\ n ∈ aq_lists A i /\ (forall t j, 0 <= j < 4 -> t ∈ aq_lists A j -> i <= j).
Proof.
  intros Ha. unfold pick_spec. set (L := aq_lists A).
  assert (Hgo : forall i, 0 <= i < 4 -> (forall k, 0 <= k < i -> L k = []) -> head (L i) = Some n ->
    exists i, 0 <= i < 4 /\ n ∈ L i /\ (forall t j, 0 <= j < 4 -> t ∈ L j -> i <= j)).
  { intros i Hi Hlow Hh. exists i. split_and!; [lia|lia|apply head_Some_elem_of; done|].
    intros t j Hj Ht. destruct (decide (i <= j)); [done|]. rewrite (Hlow j) in Ht by lia. set_solver. }
  destruct (L 0) as [|x0 l0] eqn:E0; [|intros; apply (Hgo 0); [lia|lia|by rewrite E0]].
  assert (Hk0 : forall k, 0 <= k < 1 -> L k = []) by (intros k ?; by replace k with 0 by lia).
  destruct (L 1) as [|x1 l1] eqn:E1; [|intros; apply (Hgo 1); [lia|done|by rewrite E1]].
  assert (Hk1 : forall k, 0 <= k < 2 -> L k = []).
  { intros k ?. destruct (decide (k = 1)) as [->|]; [done|apply Hk0; lia]. }
  destruct (L 2) as [|x2 l2] eqn:E2; [|intros; apply (Hgo 2); [lia|done|by rewrite E2]].
  assert (Hk2 : forall k, 0 <= k < 3 -> L k = []).
  { intros k ?. destruct (decide (k = 2)) as [->|]; [done|apply Hk1; lia]. }
  intros. apply (Hgo 3); [lia|done|done].
Qed.

(** ** Properties *)

(** The abstract queue right after [mlfq_init]. *)
Definition aq_init (s : mlfq) : aq := AQ (fun _ => []) (t_mlfq_level <$> heap s) 0.

Definition levels_ok (s : mlfq) : Prop :=
  map_Forall (fun _ a => 0 <= t_mlfq_level a < 4) (heap s).

Lemma init_abs s :
  Z.of_nat (size (heap s)) < 2 ^ 32 -> levels_ok s -> abs_rel (mlfq_init s) (aq_init s).
Proof.
  intros Hs Hl. split_and!; [by apply init_rep|done| |done].
  intros t i. unfold aq_init. simpl. rewrite lookup_fmap.
  destruct (heap s !! t) as [a|] eqn:Ha; [|done]. intros [= <-]. by apply (Hl t).
Qed.

(** C2: any sequence of enqueue, dequeue, decay, boost and tick calls that follows the
    header's rule (enqueue only tasks that are in no queue, at a valid level) runs
    from [mlfq_init] without a NULL dereference, an index out of bounds or an
    endless walk, and the four pointer-linked queues, the counters, the bitmap and
    the boost clock always spell the abstract queue: append at the tail, removal,
    demotion by one level, concatenation of all levels at level 0. *)
Theorem mlfq_trace_refines (s : mlfq) (os : list mlfq_op)
  (Hs : Z.of_nat (size (heap s)) < 2 ^ 32) (Hl : levels_ok s) (Hp : ops_pre os (aq_init s)) :
  exists s', exec_ops os (mlfq_init s) = Some s' /\
    abs_rel s' (foldl (flip spec_op) (aq_init s) os).
Proof. apply ops_simulate; [by apply init_abs|done]. Qed.

#[global] Instance unqueued_dec L t : Decision (unqueued L t).
Proof.
  refine (cast_if (decide (t ∉ L 0 ++ L 1 ++ L 2 ++ L 3))).
  - intros i Hi Ht. rewrite !not_elem_of_app in n.
    assert (i = 0 \/ i = 1 \/ i = 2 \/ i = 3) as [-> |[-> |[-> | ->]]] by lia; tauto.
  - intros Hu. apply n. rewrite !not_elem_of_app. split_and!; apply Hu; lia.
Defined.
#[global] Instance op_pre_dec o A : Decision (op_pre o A).
Proof. destruct o; simpl; apply _. Defined.
#[global] Instance ops_pre_dec os A : Decision (ops_pre os A).
Proof. revert A. induction os as [|o os IH]; intros A; simpl; apply _. Defined.

Definition demo_heap : mlfq := Mlfq {[1%nat := task0; 2%nat := task0; 3%nat := task0]} [] 0 0.
Definition demo_ops : list mlfq_op :=
  [OpEnqueue 1 0; OpEnqueue 2 3; OpDecay 1; OpEnqueue 3 2; OpDequeue 2; OpBoost; OpTick].

Lemma demo_levels : levels_ok demo_heap.
Proof. apply (bool_decide_eq_true_1 _). vm_compute. reflexivity. Qed.

Lemma mlfq_trace_refines_witness :
  exists s', exec_ops demo_ops (mlfq_init demo_heap) = Some s' /\
    abs_rel s' (foldl (flip spec_op) (aq_init demo_heap) demo_ops).
Proof.
  apply (mlfq_trace_refines demo_heap demo_ops).
  - vm_compute. reflexivity.
  - apply demo_levels.
  - apply (bool_decide_eq_true_1 _). vm_compute. reflexivity.
Defined.

(** The O(1) selection is right: [mlfq_pick_highest] (lowest set bit of the bitmap,
    head of that queue) returns the oldest task of the highest-priority non-empty
    queue, and NULL exactly when every queue is empty. *)
Theorem mlfq_pick_highest_first (s : mlfq) (A : aq) (H : abs_rel s A) :
  mlfq_pick_highest s = Some (pick_spec (aq_lists A)) /\
  (pick_spec (aq_lists A) = None <-> queued A = []) /\
  (forall n, pick_spec (aq_lists A) = Some n ->
     forall t i k, t ∈ queued A -> aq_level A !! n = Some i -> aq_level A !! t = Some k -> i <= k).
Proof.
  split_and!; [apply pick_rep, H| |].
  - unfold pick_spec, queued. by destruct (_ ++ _).
  - intros n Hn t i k (j & Hj & Ht)%elem_of_queued Hi Hk.
    destruct (pick_min _ _ _ H Hn) as (i' & Hi' & Hn' & Hmin).
    rewrite (abs_level _ _ _ _ H Hi' Hn') in Hi. rewrite (abs_level _ _ _ _ H Hj Ht) in Hk.
    simplify_eq. by eapply Hmin.
Qed.

Lemma mlfq_pick_highest_first_witness :
  exists s', exec_ops demo_ops (mlfq_init demo_heap) = Some s' /\
    mlfq_pick_highest s' = Some (Some 1%nat).
Proof.
  destruct (ops_simulate demo_ops (mlfq_init demo_heap) (aq_init demo_heap)) as (s' & He & Ha).
  - apply init_abs; [vm_compute; reflexivity|apply demo_levels].
  - apply (bool_decide_eq_true_1 _). vm_compute. reflexivity.
  - exists s'. split; [done|]. rewrite (proj1 (mlfq_pick_highest_first s' _ Ha)). reflexivity.
Defined.
