(* ===== verification/Scheduler.v ===== *)
(** * The preemptive scheduler

    src/kernel/scheduler.c: the current task, the idle task, the ready count and
    the timer tick that drives decay, selection and the context switch.  The
    switch itself ([context_switch], assembly) ends the tick with the outcome
    [Switch prev next]; what [scheduler_tick] does when control comes back is
    [scheduler_resume].  The machine registers a switch touches (TSS.RSP0, the
    per-CPU kernel stack pointer, the active address space, the FPU image and the
    FXSAVE areas) are fields of the state. *)

From stdpp Require Import base numbers gmap list.
From stdpp Require Import options.
From S2P Require Import Prelude LinkedList Task Mlfq.

(** The globals of scheduler.c, [g_current_task] of task.c, and the registers. *)
Record sched := Sched {
  mq : mlfq;
  g_current : option nat;
  g_idle_task : option nat;
  g_ready_count : Z;
  g_sched_initialized : bool;
  g_current_task : option nat;
  tss_rsp0 : Z;
  cpu_kernel_rsp : Z;
  active_space : option nat;
  fpu : Z;
  fpu_areas : gmap nat Z
}.

Definition set_mq (q : mlfq) (s : sched) : sched :=
  Sched q (g_current s) (g_idle_task s) (g_ready_count s) (g_sched_initialized s)
    (g_current_task s) (tss_rsp0 s) (cpu_kernel_rsp s) (active_space s) (fpu s) (fpu_areas s).
Definition set_ready (n : Z) (s : sched) : sched :=
  Sched (mq s) (g_current s) (g_idle_task s) n (g_sched_initialized s)
    (g_current_task s) (tss_rsp0 s) (cpu_kernel_rsp s) (active_space s) (fpu s) (fpu_areas s).
Definition alter_task (f : task -> task) (t : nat) (q : mlfq) : mlfq :=
  with_heap (alter f t (heap q)) q.

Inductive tick_outcome :=
| Stay                              (* scheduler_tick returned on the same task *)
| Switch (prev next : nat).         (* context_switch(prev, next) was reached *)

(** [scheduler_init].  [idle] is what [task_create_idle] returned, its PCB already in
    the heap; a NULL one makes the kernel halt ([None]). *)
Definition scheduler_init (idle : option nat) (s : sched) : option sched :=
  let q0 := mlfq_init (mq s) in
  match idle with
  | None => None
  | Some i =>
    q1 ← mlfq_enqueue (Some i) 3 q0;
    _ ← heap q1 !! i;
    Some (Sched (alter_task (set_state TASK_STATE_RUNNING) i q1) (Some i) (Some i) 0 true
            (Some i) (tss_rsp0 s) (cpu_kernel_rsp s) (active_space s) (fpu s) (fpu_areas s))
  end.

Definition scheduler_add_task (task : option nat) (s : sched) : option sched :=
  match task with
  | None => Some s
  | Some _ =>
    q ← mlfq_enqueue task 0 (mq s);
    Some (set_ready (u64 (g_ready_count s + 1)) (set_mq q s))
  end.

Definition scheduler_remove_task (task : option nat) (s : sched) : option sched :=
  match task with
  | None => Some s
  | Some t =>
    q ← mlfq_dequeue task (mq s);
    let s1 := set_mq (alter_task (set_state TASK_STATE_ZOMBIE) t q) s in
    Some (if bool_decide (task = g_idle_task s) then s1
          else set_ready (u64 (g_ready_count s - 1)) s1)
  end.

Definition scheduler_wake_task (task : option nat) (s : sched) : option sched :=
  match task with
  | None => Some s
  | Some t =>
    a ← heap (mq s) !! t;
    if negb (bool_decide (t_state a = TASK_STATE_BLOCKED)) then Some s else
    q ← mlfq_enqueue task 0 (alter_task (set_state TASK_STATE_READY) t (mq s));
    Some (set_ready (u64 (g_ready_count s + 1)) (set_mq q s))
  end.

Definition scheduler_unqueue_task (task : option nat) (s : sched) : option sched :=
  match task with
  | None => Some s
  | Some t =>
    a ← heap (mq s) !! t;
    if negb (bool_decide (t_state a = TASK_STATE_RUNNING)) &&
       negb (bool_decide (t_state a = TASK_STATE_READY)) then Some s else
    q ← mlfq_dequeue task (mq s);
    let s1 := set_mq q s in
    Some (if bool_decide (task = g_idle_task s) then s1
          else set_ready (u64 (g_ready_count s - 1)) s1)
  end.

Definition scheduler_get_current (s : sched) : option nat := g_current s.
Definition scheduler_get_task_count (s : sched) : Z := g_ready_count s.

(** The part of the tick after [next] was chosen and differs from [prev]:
    make it current and switch stacks, FPU state and address space. *)
Definition tick_switch (prev next : nat) (q : mlfq) (s : sched) : option (tick_outcome * sched) :=
  q1 ← mlfq_dequeue (Some next) q;
  p ← heap q1 !! prev;
  n ← heap q1 !! next;
  let areas := match t_fpu_state p with
               | Some b => <[b := fpu s]> (fpu_areas s)
               | None => fpu_areas s
               end in
  fpu' ← match t_fpu_state n with
         | Some b => areas !! b
         | None => Some (fpu s)
         end;
  Some (Switch prev next,
    Sched (alter_task (set_state TASK_STATE_RUNNING) next q1) (Some next) (g_idle_task s)
      (g_ready_count s) (g_sched_initialized s) (Some next)
      (u64 (t_kernel_stack_base n + t_kernel_stack_size n)) (t_kernel_rsp n)
      (if bool_decide (t_address_space n = t_address_space p) then active_space s
       else t_address_space n)
      fpu' areas).

Definition scheduler_tick (s : sched) : option (tick_outcome * sched) :=
  match g_current s with
  | None => Some (Stay, s)
  | Some prev =>
    if negb (g_sched_initialized s) then Some (Stay, s) else
    q1 ← mlfq_tick (mq s);
    a ← heap q1 !! prev;
    let left := if 0 <? t_remaining_ticks a then t_remaining_ticks a - 1
                else t_remaining_ticks a in
    let q2 := alter_task (set_remaining_ticks left) prev q1 in
    if 0 <? left then Some (Stay, set_mq q2 s) else
    q3 ← (if bool_decide (t_state a = TASK_STATE_RUNNING) then mlfq_decay (Some prev) q2
          else Some q2);
    top ← mlfq_pick_highest q3;
    next ← match top with Some n => Some n | None => g_idle_task s end;
    if bool_decide (next = prev) then
      Some (Stay, set_mq (alter_task (set_state TASK_STATE_RUNNING) prev q3) s)
    else tick_switch prev next q3 s
  end.

(** Control is back on [prev] after a [context_switch]. *)
Definition scheduler_resume (prev : nat) (s : sched) : sched :=
  Sched (mq s) (Some prev) (g_idle_task s) (g_ready_count s) (g_sched_initialized s)
    (Some prev) (tss_rsp0 s) (cpu_kernel_rsp s) (active_space s) (fpu s) (fpu_areas s).

(** ** Invariant *)

(** The two heaps agree on everything the scheduler never writes. *)
Definition froz (h h' : gmap nat task) : Prop := forall x, frozen <$> h' !! x = frozen <$> h !! x.

Record sched_inv (s : sched) (A : aq) : Prop := {
  si_abs : abs_rel (mq s) A;
  si_init : g_sched_initialized s = true;
  si_current : exists c, g_current s = Some c /\ is_Some (heap (mq s) !! c);
  si_same : g_current_task s = g_current s;
  si_idle : exists i, g_idle_task s = Some i /\ is_Some (heap (mq s) !! i);
  si_fpu : forall t a b, heap (mq s) !! t = Some a -> t_fpu_state a = Some b ->
           is_Some (fpu_areas s !! b)
}.

(** Tasks that can run: queued or on the CPU. *)
Definition runnable (s : sched) (A : aq) (t : nat) : Prop :=
  t ∈ queued A \/ g_current s = Some t.

Definition state_of (t : nat) (s : sched) : option task_state := t_state <$> heap (mq s) !! t.

(** ** Lemmas *)

Lemma froz_refl h : froz h h.
Proof. done. Qed.
Lemma froz_trans h1 h2 h3 : froz h1 h2 -> froz h2 h3 -> froz h1 h3.
Proof. intros H1 H2 x. by rewrite H2, H1. Qed.
Lemma froz_alter f t h : (forall a, frozen (f a) = frozen a) -> froz h (alter f t h).
Proof.
  intros Hf x. rewrite lookup_alter. case_decide; [|done]. subst. destruct (h !! x); [|done].
  simpl. by rewrite Hf.
Qed.
Lemma froz_is_Some h h' x : froz h h' -> is_Some (h !! x) <-> is_Some (h' !! x).
Proof.
  intros Hf. specialize (Hf x). destruct (h !! x), (h' !! x); try done; split; intros []; done.
Qed.
Lemma froz_fpu h h' x a' :
  froz h h' -> h' !! x = Some a' -> exists a, h !! x = Some a /\ t_fpu_state a = t_fpu_state a'.
Proof.
  intros Hf Ha. specialize (Hf x). rewrite Ha in Hf. destruct (h !! x) as [a|]; [|done].
  apply (inj Some), (f_equal t_fpu_state) in Hf. exists a. split; [done|]. symmetry. exact Hf.
Qed.

Lemma inv_step s s' A A' c :
  sched_inv s A -> abs_rel (mq s') A' -> froz (heap (mq s)) (heap (mq s')) ->
  g_sched_initialized s' = true -> g_current s' = Some c -> is_Some (heap (mq s) !! c) ->
  g_current_task s' = Some c -> g_idle_task s' = g_idle_task s ->
  (forall b, is_Some (fpu_areas s !! b) -> is_Some (fpu_areas s' !! b)) -> sched_inv s' A'.
Proof.
  intros [H1 H2 H3 H4 (i & Hi & Hih) H6] Ha Hf Hin Hc Hcs Hct Hid Hfp. split; [done|done| |congruence| |].
  - exists c. split; [done|]. by rewrite <-froz_is_Some.
  - exists i. split; [congruence|]. by rewrite <-froz_is_Some.
  - intros t a' b Ht Hb. destruct (froz_fpu _ _ _ _ Hf Ht) as (a & Hta & Hfa).
    apply Hfp. eapply H6; [done|congruence].
Qed.

Lemma abs_pre q A t : abs_rel q A -> is_Some (heap q !! t) -> is_Some (aq_level A !! t).
Proof. intros (_ & <- & _) [a Ha]. rewrite lookup_fmap, Ha. eauto. Qed.

Lemma tick_abs q A :
  abs_rel q A -> exists q', mlfq_tick q = Some q' /\ abs_rel q' (spec_op OpTick A) /\
    froz (heap q) (heap q') /\ (forall x, t_state <$> heap q' !! x = t_state <$> heap q !! x).
Proof.
  intros Ha. destruct (op_simulates OpTick q A Ha I) as (q' & He & Ha').
  exists q'. split_and!; [done|done| |].
  - intros x. by eapply (op_frozen OpTick).
  - destruct (tick_rep _ _ (proj1 Ha)) as (q2 & He2 & _ & _ & _ & Hf).
    assert (q2 = q') as -> by (simpl in He; congruence). intros x. specialize (Hf x).
    destruct (heap q !! x) as [a|], (heap q' !! x) as [b|]; try done.
    apply (inj Some), (f_equal t_state) in Hf. simpl. f_equal. exact Hf.
Qed.

Lemma queued_tick A t : t ∈ queued (spec_op OpTick A) <-> t ∈ queued A.
Proof.
  simpl. destruct (MLFQ_BOOST_INTERVAL <=? u64 (aq_ticks A + 1)); [|done]. by rewrite queued_boost.
Qed.

(** The switch half of the tick. *)
Lemma tick_switch_ok s A q A' p n :
  sched_inv s A -> abs_rel q A' -> froz (heap (mq s)) (heap q) -> g_current s = Some p ->
  is_Some (heap (mq s) !! n) -> n <> p ->
  exists s', tick_switch p n q s = Some (Switch p n, s') /\
    sched_inv s' (spec_op (OpDequeue n) A') /\ g_current s' = Some n /\
    state_of n s' = Some TASK_STATE_RUNNING /\ t_mlfq_level <$> heap (mq s') = aq_level A'.
Proof.
  intros Hinv Ha Hf Hp Hn Hne.
  assert (Hnq : is_Some (heap q !! n)) by (by apply (froz_is_Some _ _ _ Hf)).
  destruct (op_simulates (OpDequeue n) q A' Ha (abs_pre _ _ _ Ha Hnq)) as (q1 & He & Ha1).
  assert (Hf1 : froz (heap q) (heap q1)).
  { intros x. eapply (op_frozen (OpDequeue n)); [exact Ha|by eapply abs_pre|exact He]. }
  assert (Hf2 : froz (heap (mq s)) (heap q1)) by by eapply froz_trans.
  destruct (si_current _ _ Hinv) as (c & Hc & Hcs). rewrite Hp in Hc. injection Hc as <-.
  apply (froz_is_Some _ _ _ Hf2) in Hcs as [pa Hpa].
  assert (is_Some (heap q1 !! n)) as [na Hna] by (by apply (froz_is_Some _ _ _ Hf2)).
  simpl in He. unfold tick_switch. rewrite He. simpl. rewrite Hpa. simpl. rewrite Hna. simpl.
  set (areas := match t_fpu_state pa with Some b => _ | None => _ end).
  assert (Har : forall b, is_Some (fpu_areas s !! b) -> is_Some (areas !! b)).
  { intros b Hb. unfold areas. destruct (t_fpu_state pa); [|done]. rewrite lookup_insert.
    case_decide; eauto. }
  assert (exists f', match t_fpu_state na with Some b => areas !! b | None => Some (fpu s) end = Some f')
    as [f' ->].
  { destruct (t_fpu_state na) as [b|] eqn:Hb; [|eauto].
    destruct (froz_fpu _ _ _ _ Hf2 Hna) as (na0 & Hna0 & Hfe).
    destruct (Har b) as [f' ?]; [|eauto]. eapply (si_fpu _ _ Hinv); [exact Hna0|congruence]. }
  simpl. eexists. split; [done|]. split_and!; [|done| |].
  - eapply (inv_step s _ A _ n); simpl; [done| | |apply Hinv|done|done|done|done|done].
    + by apply alter_abs.
    + eapply froz_trans; [exact Hf2|]. by apply froz_alter.
  - unfold state_of. simpl. by rewrite lookup_alter_eq, Hna.
  - simpl. apply (alter_abs (set_state TASK_STATE_RUNNING) n) in Ha1; [|done|done].
    destruct Ha1 as (_ & Hl & _). exact Hl.
Qed.

(** ** The tick *)

(** What one tick does to the abstract scheduler. *)
Record tick_post (s s' : sched) (A A' : aq) (o : tick_outcome) : Prop := {
  tp_inv : sched_inv s' A';
  tp_stay : o = Stay -> g_current s' = g_current s;
  tp_switch : forall p n, o = Switch p n ->
    g_current s = Some p /\ g_current s' = Some n /\ p <> n /\
    state_of n s' = Some TASK_STATE_RUNNING /\
    (forall t i k, t ∈ queued A' -> aq_level A' !! n = Some i -> aq_level A' !! t = Some k -> i <= k);
  tp_kept : forall c, g_current s = Some c -> state_of c s = Some TASK_STATE_RUNNING ->
    forall t, runnable s A t <-> runnable s' A' t
}.

(** The picked task has the best level of all, and is in the heap. *)
Lemma pick_abs q A n :
  abs_rel q A -> pick_spec (aq_lists A) = Some n ->
  is_Some (heap q !! n) /\ n ∈ queued A /\
  (forall t i k, t ∈ queued A -> aq_level A !! n = Some i -> aq_level A !! t = Some k -> i <= k).
Proof.
  intros Ha Hp. destruct (pick_min _ _ _ Ha Hp) as (i & Hi & Hn & Hmin). split_and!.
  - pose proof (abs_level _ _ _ _ Ha Hi Hn) as Hl. destruct Ha as (_ & Hlv & _).
    rewrite <-Hlv, lookup_fmap in Hl. destruct (heap q !! n); [eauto|done].
  - apply elem_of_queued. eauto.
  - intros t i' k (j & Hj & Ht)%elem_of_queued Hi' Hk.
    rewrite (abs_level _ _ _ _ Ha Hi Hn) in Hi'. rewrite (abs_level _ _ _ _ Ha Hj Ht) in Hk.
    simplify_eq. by eapply Hmin.
Qed.

Lemma pick_none A : pick_spec (aq_lists A) = None -> queued A = [].
Proof. unfold pick_spec, queued. destruct (_ ++ _); done. Qed.

(** After the quantum expired: [q3] is the queue with [c] decayed (or left out). *)
Lemma tick_expired s A q3 A3 c top :
  sched_inv s A -> g_current s = Some c -> abs_rel q3 A3 -> froz (heap (mq s)) (heap q3) ->
  top = pick_spec (aq_lists A3) ->
  (state_of c s = Some TASK_STATE_RUNNING ->
     c ∈ queued A3 /\ forall t, t ∈ queued A3 <-> t = c \/ t ∈ queued A) ->
  exists o s' A', (next ← match top with Some n => Some n | None => g_idle_task s end;
    if bool_decide (next = c)
    then Some (Stay, set_mq (alter_task (set_state TASK_STATE_RUNNING) c q3) s)
    else tick_switch c next q3 s) = Some (o, s') /\ tick_post s s' A A' o.
Proof.
  intros Hinv Hc Ha Hf -> Hk. destruct (si_current _ _ Hinv) as (c' & Hc' & Hcs).
  assert (c' = c) as -> by congruence.
  assert (Hstay : tick_post s (set_mq (alter_task (set_state TASK_STATE_RUNNING) c q3) s) A A3 Stay).
  { split; [|done|done|].
    - eapply (inv_step s _ A _ c); simpl; [done|by apply alter_abs| |apply Hinv|done|done| |done|done].
      + eapply froz_trans; [exact Hf|]. by apply froz_alter.
      + by rewrite (si_same _ _ Hinv).
    - intros c0 Hc0 Hrun t. assert (c0 = c) as -> by congruence. unfold runnable. simpl.
      destruct (Hk Hrun) as [Hin Hq]. rewrite Hc, Hq. naive_solver. }
  assert (Hsw : forall n, n <> c -> is_Some (heap (mq s) !! n) ->
    (forall t i k, t ∈ queued A3 -> aq_level A3 !! n = Some i -> aq_level A3 !! t = Some k -> i <= k) ->
    (state_of c s = Some TASK_STATE_RUNNING -> n ∈ queued A3) ->
    exists o s' A', tick_switch c n q3 s = Some (o, s') /\ tick_post s s' A A' o).
  { intros n Hn Hns Hmin Hin.
    destruct (tick_switch_ok s A q3 A3 c n) as (s' & He & Hi' & Hcu & Hst & _); [done..|].
    exists (Switch c n), s', (spec_op (OpDequeue n) A3). split; [done|]. split; [done|done| |].
    - intros ? ? [= <- <-]. split_and!; [done|done|done|done|].
      intros t i k Ht. apply queued_dequeue in Ht as [Ht _]. by apply Hmin.
    - intros c0 Hc0 Hrun t. assert (c0 = c) as -> by congruence. unfold runnable.
      rewrite queued_dequeue, Hcu. destruct (Hk Hrun) as [Hcq Hq].
      destruct (decide (t = n)) as [->|]; [pose proof (Hin Hrun) as Hnq; apply Hq in Hnq|rewrite Hq];
        naive_solver. }
  destruct (pick_spec (aq_lists A3)) as [n|] eqn:Hpk; simpl.
  - destruct (pick_abs _ _ _ Ha Hpk) as (Hns & Hnq & Hmin).
    case_bool_decide; [eauto|]. apply Hsw; [done| |done|done].
    by apply (froz_is_Some _ _ _ Hf).
  - destruct (si_idle _ _ Hinv) as (i & Hi & His). rewrite Hi. simpl.
    pose proof (pick_none _ Hpk) as Hnil. case_bool_decide; [eauto|].
    apply Hsw; [done|done| |].
    + intros t ? ? Ht. rewrite Hnil in Ht. set_solver.
    + intros Hrun. destruct (Hk Hrun) as [Hcq _]. rewrite Hnil in Hcq. set_solver.
Qed.

Lemma tick_ok s A :
  sched_inv s A -> exists o s' A', scheduler_tick s = Some (o, s') /\ tick_post s s' A A' o.
Proof.
  intros Hinv. destruct (si_current _ _ Hinv) as (c & Hc & Hcs).
  destruct (tick_abs _ _ (si_abs _ _ Hinv)) as (q1 & Hq1 & Ha1 & Hf1 & Hst1).
  assert (is_Some (heap q1 !! c)) as [a Hac] by (by apply (froz_is_Some _ _ _ Hf1)).
  unfold scheduler_tick. rewrite Hc, (si_init _ _ Hinv). simpl. rewrite Hq1. simpl. rewrite Hac. simpl.
  set (left := if 0 <? t_remaining_ticks a then _ else _).
  set (q2 := alter_task (set_remaining_ticks left) c q1).
  assert (Ha2 : abs_rel q2 (spec_op OpTick A)) by by apply alter_abs.
  assert (Hf2 : froz (heap (mq s)) (heap q2)).
  { eapply froz_trans; [exact Hf1|]. by apply froz_alter. }
  destruct (0 <? left).
  { exists Stay, (set_mq q2 s), (spec_op OpTick A). split; [done|]. split; [|done|done|].
    - eapply (inv_step s _ A _ c); simpl; [done|done|done|apply Hinv|done|done| |done|done].
      by rewrite (si_same _ _ Hinv).
    - intros c0 Hc0 _ t. unfold runnable. by rewrite queued_tick. }
  assert (Hst : t_state a = TASK_STATE_RUNNING <-> state_of c s = Some TASK_STATE_RUNNING).
  { unfold state_of. rewrite <-Hst1, Hac. simpl. split; congruence. }
  case_bool_decide as Hrun.
  - assert (Hpre : is_Some (aq_level (spec_op OpTick A) !! c)).
    { eapply abs_pre; [exact Ha2|]. by apply (froz_is_Some _ _ _ Hf2). }
    destruct (op_simulates (OpDecay c) q2 _ Ha2 Hpre) as (q3 & Hq3 & Ha3). simpl in Hq3.
    rewrite Hq3. simpl. rewrite (pick_rep _ _ (proj1 Ha3)). simpl.
    eapply tick_expired; [done|done|exact Ha3| |done|].
    + eapply froz_trans; [exact Hf2|]. intros x. eapply (op_frozen (OpDecay c)); [exact Ha2|exact Hpre|exact Hq3].
    + intros _. destruct Hpre as [i Hi]. pose proof (proj1 (proj2 (proj2 Ha2)) _ _ Hi) as Hri.
      assert (Hj : 0 <= decay_level (default 0 (aq_level (spec_op OpTick A) !! c)) < 4).
      { rewrite Hi. simpl. unfold decay_level. destruct (Z.leb_spec 3 i); lia. }
      split; [apply queued_decay; by left|]. intros t. rewrite queued_decay, queued_tick.
      destruct (decide (t = c)); naive_solver.
  - simpl. rewrite (pick_rep _ _ (proj1 Ha2)). simpl.
    eapply tick_expired; [done|done|exact Ha2|done|done|]. intros E. by apply Hst in E.
Qed.

(** ** The other entry points *)

Lemma init_ok i s A0 :
  is_Some (heap (mq s) !! i) -> abs_rel (mlfq_init (mq s)) A0 -> aq_lists A0 = (fun _ => []) ->
  (forall t a b, heap (mq s) !! t = Some a -> t_fpu_state a = Some b -> is_Some (fpu_areas s !! b)) ->
  exists s', scheduler_init (Some i) s = Some s' /\ sched_inv s' (spec_op (OpEnqueue i 3) A0) /\
    g_current s' = Some i /\ g_idle_task s' = Some i /\
    state_of i s' = Some TASK_STATE_RUNNING /\ g_ready_count s' = 0 /\ froz (heap (mq s)) (heap (mq s')).
Proof.
  intros His Ha HL Hfp.
  assert (Hpre : op_pre (OpEnqueue i 3) A0).
  { split_and!; [lia|lia|intros j _; rewrite HL; set_solver|]. by eapply (abs_pre _ _ _ Ha). }
  destruct (op_simulates _ _ _ Ha Hpre) as (q1 & He & Ha1).
  assert (Hf : froz (heap (mq s)) (heap q1)) by (intros x; by eapply (op_frozen _ _ _ _ x Ha Hpre)).
  assert (is_Some (heap q1 !! i)) as [a Hia] by (by apply (froz_is_Some _ _ _ Hf)).
  simpl in He. unfold scheduler_init. rewrite He. simpl. rewrite Hia. simpl.
  eexists. split; [done|]. split_and!; [|done|done| |done|by eapply froz_trans, froz_alter].
  - split; simpl; [by apply alter_abs|done| |done| |].
    + exists i. split; [done|]. rewrite lookup_alter_eq, Hia. eauto.
    + exists i. split; [done|]. rewrite lookup_alter_eq, Hia. eauto.
    + intros t a' b Ht Hb.
      destruct (froz_fpu (heap (mq s)) (alter (set_state TASK_STATE_RUNNING) i (heap q1)) t a')
        as (a0 & Ha0 & Hfa); [|done|].
      * eapply froz_trans; [exact Hf|]. by apply froz_alter.
      * eapply Hfp; [exact Ha0|congruence].
  - unfold state_of. simpl. by rewrite lookup_alter_eq, Hia.
Qed.

(** An operation of the queue followed by changes to one task that the queue does
    not look at, and a new ready count. *)
Lemma inv_queue_op s A o q f t n :
  sched_inv s A -> op_pre o A -> exec_op o (mq s) = Some q ->
  (forall a, t_next (f a) = t_next a) -> (forall a, t_mlfq_level (f a) = t_mlfq_level a) ->
  (forall a, frozen (f a) = frozen a) ->
  sched_inv (set_ready n (set_mq (alter_task f t q) s)) (spec_op o A).
Proof.
  intros Hinv Hp He H1 H2 H3. destruct (si_current _ _ Hinv) as (c & Hc & Hcs).
  destruct (op_simulates _ _ _ (si_abs _ _ Hinv) Hp) as (q' & He' & Ha').
  assert (q' = q) as -> by congruence.
  eapply (inv_step s _ A _ c); simpl; [done|by apply alter_abs| |apply Hinv|done|done| |done|done].
  - eapply froz_trans; [|by apply froz_alter]. intros x. eapply (op_frozen o); [apply Hinv|exact Hp|exact He].
  - by rewrite (si_same _ _ Hinv).
Qed.

Lemma set_ready_same s q : set_mq q s = set_ready (g_ready_count s) (set_mq q s).
Proof. done. Qed.
Lemma alter_task_id q t : alter_task id t q = q.
Proof.
  destruct q as [h qs bm tk]. unfold alter_task, with_heap. simpl. f_equal.
  apply map_eq. intros x. rewrite lookup_alter. case_decide; [|done]. subst. apply option_fmap_id.
Qed.

Lemma add_ok s A t :
  sched_inv s A -> is_Some (heap (mq s) !! t) -> t ∉ queued A ->
  exists s', scheduler_add_task (Some t) s = Some s' /\ sched_inv s' (spec_op (OpEnqueue t 0) A) /\
    g_ready_count s' = u64 (g_ready_count s + 1).
Proof.
  intros Hinv Ht Hq. assert (Hp : op_pre (OpEnqueue t 0) A).
  { split_and!; [lia|lia| |by eapply abs_pre, Ht; apply Hinv].
    intros i Hi Hin. apply Hq, elem_of_queued. eauto. }
  destruct (op_simulates _ _ _ (si_abs _ _ Hinv) Hp) as (q & He & _).
  pose proof (inv_queue_op s A _ q id t (u64 (g_ready_count s + 1)) Hinv Hp He) as Hi.
  rewrite alter_task_id in Hi. simpl in He. unfold scheduler_add_task. rewrite He. simpl.
  eexists. split; [done|]. split; [by apply Hi|done].
Qed.

Lemma unqueue_ok s A t a :
  sched_inv s A -> heap (mq s) !! t = Some a ->
  (t_state a = TASK_STATE_RUNNING \/ t_state a = TASK_STATE_READY) ->
  exists s', scheduler_unqueue_task (Some t) s = Some s' /\ sched_inv s' (spec_op (OpDequeue t) A).
Proof.
  intros Hinv Ht Hst. assert (Hp : op_pre (OpDequeue t) A).
  { simpl. eapply abs_pre; [apply Hinv|eauto]. }
  destruct (op_simulates _ _ _ (si_abs _ _ Hinv) Hp) as (q & He & _).
  pose proof (fun n => inv_queue_op s A _ q id t n Hinv Hp He) as Hi. rewrite alter_task_id in Hi.
  simpl in He. unfold scheduler_unqueue_task. rewrite Ht. simpl.
  replace (_ && _) with false by (destruct Hst as [-> | ->]; done).
  rewrite He. simpl. eexists. split; [done|]. case_bool_decide; [rewrite set_ready_same|]; by apply Hi.
Qed.

Lemma remove_ok s A t :
  sched_inv s A -> is_Some (heap (mq s) !! t) ->
  exists s', scheduler_remove_task (Some t) s = Some s' /\ sched_inv s' (spec_op (OpDequeue t) A) /\
    state_of t s' = Some TASK_STATE_ZOMBIE.
Proof.
  intros Hinv Ht. assert (Hp : op_pre (OpDequeue t) A).
  { simpl. eapply abs_pre; [apply Hinv|eauto]. }
  destruct (op_simulates _ _ _ (si_abs _ _ Hinv) Hp) as (q & He & Ha).
  pose proof (fun n => inv_queue_op s A _ q (set_state TASK_STATE_ZOMBIE) t n Hinv Hp He) as Hi.
  assert (is_Some (heap q !! t)) as [a' Ha'].
  { apply (froz_is_Some (heap (mq s))); [|done]. intros x. eapply (op_frozen _ _ _ _ _ (si_abs _ _ Hinv) Hp He). }
  simpl in He. unfold scheduler_remove_task. rewrite He. simpl. eexists. split; [done|].
  unfold state_of. case_bool_decide; [rewrite set_ready_same|]; (split; [by apply Hi|]);
    simpl; by rewrite lookup_alter_eq, Ha'.
Qed.

Lemma wake_ok s A t a :
  sched_inv s A -> heap (mq s) !! t = Some a -> t_state a = TASK_STATE_BLOCKED -> t ∉ queued A ->
  exists s', scheduler_wake_task (Some t) s = Some s' /\ sched_inv s' (spec_op (OpEnqueue t 0) A).
Proof.
  intros Hinv Ht Hst Hq. unfold scheduler_wake_task. rewrite Ht. simpl. rewrite Hst. simpl.
  set (s1 := set_mq (alter_task (set_state TASK_STATE_READY) t (mq s)) s).
  destruct (si_current _ _ Hinv) as (c & Hc & Hcs).
  assert (Hinv1 : sched_inv s1 A).
  { eapply (inv_step s _ A _ c); simpl; [done|apply alter_abs; [done|done|apply Hinv]| |apply Hinv|done|done| |done|done].
    - by apply froz_alter.
    - by rewrite (si_same _ _ Hinv). }
  assert (Hts : is_Some (heap (mq s1) !! t)).
  { simpl. rewrite lookup_alter_eq, Ht. eauto. }
  destruct (add_ok s1 A t Hinv1 Hts Hq) as (s' & He & Hi & _). unfold scheduler_add_task in He.
  simpl in He. destruct (mlfq_enqueue _ _ _) as [q|]; [|done]. simpl in *. simplify_eq.
  eexists. split; [done|]. exact Hi.
Qed.

(** ** Reachability *)

Definition not_queued (t : nat) (s : sched) : Prop := forall A, abs_rel (mq s) A -> t ∉ queued A.

(** The events of a running system, each with what its callers guarantee. *)
Inductive sstep (s : sched) : sched -> Prop :=
| step_tick o s' : scheduler_tick s = Some (o, s') -> sstep s s'
| step_add t s' : is_Some (heap (mq s) !! t) -> not_queued t s ->
    scheduler_add_task (Some t) s = Some s' -> sstep s s'
| step_wake t s' : is_Some (heap (mq s) !! t) -> not_queued t s ->
    scheduler_wake_task (Some t) s = Some s' -> sstep s s'
| step_unqueue t s' : is_Some (heap (mq s) !! t) ->
    scheduler_unqueue_task (Some t) s = Some s' -> sstep s s'
| step_remove t s' : is_Some (heap (mq s) !! t) ->
    scheduler_remove_task (Some t) s = Some s' -> sstep s s'.

Lemma sstep_inv s s' : (exists A, sched_inv s A) -> sstep s s' -> exists A, sched_inv s' A.
Proof.
  intros [A Hinv] Hs. destruct Hs as [o s' He|t s' Ht Hq He|t s' [a Ht] Hq He|t s' [a Ht] He|t s' Ht He].
  - destruct (tick_ok s A Hinv) as (o' & s2 & A' & He' & [Hi _ _ _]). simplify_eq. eauto.
  - destruct (add_ok s A t Hinv Ht (Hq _ (si_abs _ _ Hinv))) as (s2 & He' & Hi & _). simplify_eq. eauto.
  - destruct (decide (t_state a = TASK_STATE_BLOCKED)) as [Hb|Hb].
    + destruct (wake_ok s A t a Hinv Ht Hb (Hq _ (si_abs _ _ Hinv))) as (s2 & He' & Hi). simplify_eq. eauto.
    + unfold scheduler_wake_task in He. rewrite Ht in He. simpl in He.
      rewrite bool_decide_eq_false_2 in He by done. simpl in He. simplify_eq. eauto.
  - destruct (decide (t_state a = TASK_STATE_RUNNING \/ t_state a = TASK_STATE_READY)) as [Hb|Hb].
    + destruct (unqueue_ok s A t a Hinv Ht Hb) as (s2 & He' & Hi). simplify_eq. eauto.
    + unfold scheduler_unqueue_task in He. rewrite Ht in He. simpl in He.
      rewrite !bool_decide_eq_false_2 in He by naive_solver. simpl in He. simplify_eq. eauto.
  - destruct (remove_ok s A t Hinv Ht) as (s2 & He' & Hi & _). simplify_eq. eauto.
Qed.

Lemma reachable_inv s s' : rtc sstep s s' -> (exists A, sched_inv s A) -> exists A, sched_inv s' A.
Proof. induction 1; intros Hi; [done|]. eauto using sstep_inv. Qed.

(** ** Properties *)

(** C1: a timer tick never faults; it keeps the scheduler's invariant; when it switches,
    the task it leaves was current, the new current task is marked RUNNING and no
    task still queued has a better level; and when the interrupted task was running,
    no runnable task is lost or invented: the queued tasks together with the current
    one are the same set before and after. *)
Theorem scheduler_tick_correct (s : sched) (A : aq) (H : sched_inv s A) :
  exists o s' A', scheduler_tick s = Some (o, s') /\ tick_post s s' A A' o.
Proof. by apply tick_ok. Qed.

(** A machine with an idle task (0) and one program (1). *)
Definition demo_boot : sched :=
  Sched (Mlfq {[0%nat := task0; 1%nat := task0]} [] 0 0) None None 0 false None 0 0 None 0 ∅.

Lemma demo_boot_abs : abs_rel (mlfq_init (mq demo_boot)) (aq_init (mq demo_boot)).
Proof.
  apply init_abs; [vm_compute; reflexivity|]. apply (bool_decide_eq_true_1 _). vm_compute. reflexivity.
Qed.

Lemma demo_boot_init :
  exists s, scheduler_init (Some 0%nat) demo_boot = Some s /\
    sched_inv s (spec_op (OpEnqueue 0 3) (aq_init (mq demo_boot))).
Proof.
  destruct (init_ok 0 demo_boot (aq_init (mq demo_boot))) as (s & He & Hi & _).
  - eexists. reflexivity.
  - apply demo_boot_abs.
  - reflexivity.
  - intros t a b Ht Hb. exfalso. unfold demo_boot in Ht. simpl in Ht.
    rewrite lookup_insert in Ht. case_decide; [by simplify_eq|].
    rewrite lookup_singleton in Ht. case_decide; by simplify_eq.
  - eauto.
Qed.

Lemma scheduler_tick_correct_witness :
  exists s o s' A', scheduler_init (Some 0%nat) demo_boot = Some s /\
    scheduler_tick s = Some (o, s') /\
    tick_post s s' (spec_op (OpEnqueue 0 3) (aq_init (mq demo_boot))) A' o.
Proof.
  destruct demo_boot_init as (s & He & Hi).
  destruct (scheduler_tick_correct s _ Hi) as (o & s' & A' & Ht & Hp).
  exists s, o, s', A'. done.
Defined.

(** C3: in every state reachable from a successful [scheduler_init] by ticks and by add,
    wake, unqueue and remove calls (adding and waking only tasks that are not queued),
    the invariant holds and the next tick is defined. *)
Theorem scheduler_reachable_safe (s0 s : sched) (A0 : aq)
  (H0 : sched_inv s0 A0) (Hr : rtc sstep s0 s) :
  exists A o s', sched_inv s A /\ scheduler_tick s = Some (o, s') /\
    g_current_task s' = g_current s'.
Proof.
  destruct (reachable_inv _ _ Hr ltac:(eauto)) as [A Hi].
  destruct (tick_ok s A Hi) as (o & s' & A' & Ht & Hp). exists A, o, s'.
  split_and!; [done|done|]. apply (si_same _ _ (tp_inv _ _ _ _ _ Hp)).
Qed.

Lemma scheduler_reachable_safe_witness :
  exists s, scheduler_init (Some 0%nat) demo_boot = Some s /\
    exists A o s', sched_inv s A /\ scheduler_tick s = Some (o, s') /\
      g_current_task s' = g_current s'.
Proof.
  destruct demo_boot_init as (s & He & Hi). exists s. split; [done|].
  apply (scheduler_reachable_safe s s _ Hi). apply rtc_refl.
Defined.

Definition run_ticks (n : nat) (s : sched) : option sched :=
  Nat.iter n (fun o => s ← o; snd <$> scheduler_tick s) (Some s).

(** Boot, add the program, run [n] timer ticks. *)
Definition boot_and_run (n : nat) : option sched :=
  s0 ← scheduler_init (Some 0%nat) demo_boot;
  s1 ← scheduler_add_task (Some 1%nat) s0;
  run_ticks n s1.

(** The header of scheduler.c says that the idle task "only runs when no other tasks
    are ready".  It does not hold: from boot, with one program added, the program uses
    up its quanta at levels 0, 1 and 2, decays behind the idle task in the level-3
    queue, and the 30th tick switches to the idle task while the program is READY and
    at the head of the ready queue. *)
Theorem idle_runs_while_task_ready :
  (fun s => (g_current s, g_idle_task s, state_of 1 s, mlfq_pick_highest (mq s)))
    <$> boot_and_run 30 =
  Some (Some 0%nat, Some 0%nat, Some TASK_STATE_READY, Some (Some 1%nat)).
Proof. vm_compute. reflexivity. Qed.
