(* ===== verification/Pmm.v ===== *)
(** * Physical frame allocator (src/kernel/pmm.c, pmm.h)

    One bit per 4 KiB frame, 1 = used, in [PMM_BITMAP_WORDS] words of 64 bits.
    The state is the file's static variables; the spinlock and the serial log are
    left out (each critical section is one step).  Addresses are 64-bit [Z].
    [pmm_init] reads the boot loader's Multiboot2 structure as the list of bytes
    that starts at the pointer it is given; the addresses of the kernel image and
    of the bitmap, which the linker fixes, are arguments. *)

From stdpp Require Import base numbers gmap list options.
From S2P Require Import Prelude.

(** ** Data *)

Definition PAGE_SIZE : Z := 4096.
Definition PAGE_SHIFT : Z := 12.
Definition PMM_MAX_FRAMES : Z := Z.shiftl 1 20.
Definition PMM_BITS_PER_WORD : Z := 64.
Definition PMM_BITMAP_WORDS : Z := PMM_MAX_FRAMES / PMM_BITS_PER_WORD.
Definition UINT64_MAX : Z := 2 ^ 64 - 1.

Inductive pmm_status :=
  PMM_OK | PMM_ERR_OOM | PMM_ERR_INVALID | PMM_ERR_ALREADY_FREE | PMM_ERR_NOT_INIT.

Record pmm := Pmm {
  g_bitmap : list Z;
  g_total_frames : Z;
  g_free_frames : Z;
  g_reserved_frames : Z;
  g_initialized : bool
}.

Record pmm_stats := PmmStats {
  total_frames : Z; free_frames : Z; used_frames : Z; reserved_frames : Z
}.

Definition set_bitmap b p :=
  Pmm b (g_total_frames p) (g_free_frames p) (g_reserved_frames p) (g_initialized p).
Definition set_total t p :=
  Pmm (g_bitmap p) t (g_free_frames p) (g_reserved_frames p) (g_initialized p).
Definition set_freec f p :=
  Pmm (g_bitmap p) (g_total_frames p) f (g_reserved_frames p) (g_initialized p).
Definition set_reserved r p :=
  Pmm (g_bitmap p) (g_total_frames p) (g_free_frames p) r (g_initialized p).
Definition set_initialized i p :=
  Pmm (g_bitmap p) (g_total_frames p) (g_free_frames p) (g_reserved_frames p) i.

(** ** Bitmap operations *)

Definition word_idx (n : Z) : Z := n / PMM_BITS_PER_WORD.
Definition bit_mask (n : Z) : Z := Z.shiftl 1 (n mod PMM_BITS_PER_WORD).
(** [~w] on a 64-bit word. *)
Definition not64 (w : Z) : Z := Z.lxor w UINT64_MAX.

Definition is_used (n : Z) : M pmm bool :=
  s <~ mget ;; w <~ mlift (zget (g_bitmap s) (word_idx n)) ;;
  return (negb (Z.land w (bit_mask n) =? 0)).

Definition set_used (n : Z) : M pmm unit :=
  s <~ mget ;; w <~ mlift (zget (g_bitmap s) (word_idx n)) ;;
  b <~ mlift (zset (g_bitmap s) (word_idx n) (Z.lor w (bit_mask n))) ;;
  mput (set_bitmap b s).

Definition set_free (n : Z) : M pmm unit :=
  s <~ mget ;; w <~ mlift (zget (g_bitmap s) (word_idx n)) ;;
  b <~ mlift (zset (g_bitmap s) (word_idx n) (Z.land w (not64 (bit_mask n)))) ;;
  mput (set_bitmap b s).

Definition addr_to_frame (addr : Z) : Z := Z.shiftr addr PAGE_SHIFT.
Definition frame_to_addr (frame : Z) : Z := u64 (Z.shiftl frame PAGE_SHIFT).

(** [g_free_frames++] and its kin, on 64-bit counters. *)
Definition incr_free : M pmm unit := mmodify (fun s => set_freec (u64 (g_free_frames s + 1)) s).
Definition decr_free : M pmm unit := mmodify (fun s => set_freec (u64 (g_free_frames s - 1)) s).
Definition incr_reserved : M pmm unit :=
  mmodify (fun s => set_reserved (u64 (g_reserved_frames s + 1)) s).

(** [base + length], clamped when the sum wraps. *)
Definition range_end (base_addr length : Z) : Z :=
  let end_addr := u64 (base_addr + length) in
  if end_addr <? base_addr then UINT64_MAX else end_addr.

Definition mark_range_free (base_addr length : Z) : M pmm unit :=
  if length =? 0 then return tt else
  let end_addr := range_end base_addr length in
  let first := Z.shiftr (u64 (base_addr + PAGE_SIZE - 1)) PAGE_SHIFT in
  s <~ mget ;;
  let end_ := Z.min (Z.shiftr end_addr PAGE_SHIFT) (g_total_frames s) in
  if end_ <=? first then return tt else
  for_range first end_ (fun f =>
    u <~ is_used f ;; mwhen u (set_free f ;;; incr_free)).

Definition mark_range_used (base_addr length : Z) : M pmm unit :=
  if length =? 0 then return tt else
  let end_addr := range_end base_addr length in
  let first := Z.shiftr base_addr PAGE_SHIFT in
  s <~ mget ;;
  let end_ := Z.min (Z.shiftr (u64 (end_addr + PAGE_SIZE - 1)) PAGE_SHIFT) (g_total_frames s) in
  if end_ <=? first then return tt else
  for_range first end_ (fun f =>
    u <~ is_used f ;; mwhen (negb u) (set_used f ;;; decr_free ;;; incr_reserved)).

(** ** Initialisation from the Multiboot2 memory map *)

Definition MB2_TAG_TYPE_MMAP : Z := 6.
Definition MB2_MMAP_AVAILABLE : Z := 1.
Definition mb2_align8 (v : Z) : Z := Z.land (u64 (v + 7)) (not64 7).

(** The tag loop: the offset of the last memory-map tag before the end tag.
    Every tag is at least one 8-byte slot long, so [mb2_size] iterations suffice;
    a tag of size 0 keeps the code looping and the model faults. *)
Fixpoint tag_walk (fuel : nat) (info : list Z) (mb2_size offset : Z) (mmap_tag : option Z)
  : option (option Z) :=
  match fuel with
  | O => None
  | S fuel' =>
    if offset + 8 <=? mb2_size then
      type ← get32 offset info;
      if type =? 0 then Some mmap_tag else
      let mmap_tag' := if type =? MB2_TAG_TYPE_MMAP then Some offset else mmap_tag in
      size ← get32 (offset + 4) info;
      tag_walk fuel' info mb2_size (offset + mb2_align8 size) mmap_tag'
    else Some mmap_tag
  end.

(** The entry loop: frees every available region and returns [highest_usable]. *)
Fixpoint entry_walk (fuel : nat) (info : list Z) (entry_size entries_end entry_addr highest_usable : Z)
  : M pmm Z :=
  match fuel with
  | O => mfault
  | S fuel' =>
    if entry_addr + entry_size <=? entries_end then
      base_addr <~ mlift (get64 entry_addr info) ;;
      length <~ mlift (get64 (entry_addr + 8) info) ;;
      type <~ mlift (get32 (entry_addr + 16) info) ;;
      h <~ (if type =? MB2_MMAP_AVAILABLE then
              mark_range_free base_addr length ;;;
              return (Z.max (u64 (base_addr + length)) highest_usable)
            else return highest_usable) ;;
      entry_walk fuel' info entry_size entries_end (entry_addr + entry_size) h
    else return highest_usable
  end.

(** Step 2 of [pmm_init]: the memory map, or the fallback region [1 MiB, 4 MiB). *)
Definition parse_mmap (info : list Z) : M pmm unit :=
  mb2_size <~ mlift (get32 0 info) ;;
  mmap_tag <~ mlift (tag_walk (S (Z.to_nat mb2_size)) info mb2_size 8 None) ;;
  match mmap_tag with
  | None =>
    mark_range_free 0x100000 (3 * 1024 * 1024) ;;;
    mmodify (set_total (Z.shiftr (0x100000 + 3 * 1024 * 1024) PAGE_SHIFT))
  | Some tag =>
    size <~ mlift (get32 (tag + 4) info) ;;
    entry_size <~ mlift (get32 (tag + 8) info) ;;
    highest_usable <~ entry_walk (S (Z.to_nat size)) info entry_size (tag + size) (tag + 16) 0 ;;
    let top_frame := Z.shiftr (u64 (highest_usable + PAGE_SIZE - 1)) PAGE_SHIFT in
    mmodify (set_total (Z.min top_frame PMM_MAX_FRAMES))
  end.

(** Where the linker put the kernel image and the bitmap (physical addresses). *)
Record layout := Layout { ks : Z; ke : Z; bmap_start : Z }.

Definition pmm_init (ly : layout) (mb2_info_phys : Z) (info : list Z) : M pmm unit :=
  mmodify (fun s => Pmm (replicate (Z.to_nat PMM_BITMAP_WORDS) UINT64_MAX)
                        PMM_MAX_FRAMES 0 0 (g_initialized s)) ;;;
  if mb2_info_phys =? 0 then mmodify (set_initialized true) else
  parse_mmap info ;;;
  u <~ is_used 0 ;;
  mwhen (negb u) (set_used 0 ;;; decr_free ;;; incr_reserved) ;;;
  mark_range_used (ks ly) (u64 (ke ly - ks ly)) ;;;
  mark_range_used (bmap_start ly) (PMM_BITMAP_WORDS * 8) ;;;
  mmodify (set_initialized true).

(** ** Allocation and release *)

(** The free bits of word [w] that [pmm_alloc_frame] may take. *)
Definition candidate_bits (s : pmm) (n_words w word : Z) : Z :=
  let free_bits := not64 word in
  let free_bits := if w =? 0 then Z.land free_bits (not64 1) else free_bits in
  if w =? n_words - 1 then
    let valid_bits := g_total_frames s mod PMM_BITS_PER_WORD in
    if negb (valid_bits =? 0) then Z.land free_bits (Z.shiftl 1 valid_bits - 1) else free_bits
  else free_bits.

(** The word loop of [pmm_alloc_frame], from word [w] with [n] words to go. *)
Fixpoint alloc_scan (n : nat) (n_words w : Z) : M pmm Z :=
  match n with
  | O => return 0
  | S n' =>
    s <~ mget ;; word <~ mlift (zget (g_bitmap s) w) ;;
    if word =? UINT64_MAX then alloc_scan n' n_words (w + 1) else
    let free_bits := candidate_bits s n_words w word in
    if free_bits =? 0 then alloc_scan n' n_words (w + 1) else
    let frame := w * PMM_BITS_PER_WORD + ctz free_bits in
    if g_total_frames s <=? frame then return 0 else
    set_used frame ;;; decr_free ;;; return (frame_to_addr frame)
  end.

Definition pmm_alloc_frame : M pmm Z :=
  s <~ mget ;;
  if negb (g_initialized s) then return 0 else
  let n_words := u64 (g_total_frames s + PMM_BITS_PER_WORD - 1) / PMM_BITS_PER_WORD in
  let n_words := if n_words =? 0 then 1 else n_words in
  alloc_scan (Z.to_nat n_words) n_words 0.

(** The sliding window of [pmm_alloc_frames], [n] frames to go. *)
Fixpoint run_scan (n : nat) (count f run_start run_len : Z) : M pmm Z :=
  match n with
  | O => return 0
  | S n' =>
    u <~ is_used f ;;
    if negb u then
      let run_start := if run_len =? 0 then f else run_start in
      let run_len := run_len + 1 in
      if run_len =? count then
        for_range run_start (run_start + count) (fun i => set_used i ;;; decr_free) ;;;
        return (frame_to_addr run_start)
      else run_scan n' count (f + 1) run_start run_len
    else run_scan n' count (f + 1) run_start 0
  end.

Definition pmm_alloc_frames (count : Z) : M pmm Z :=
  s <~ mget ;;
  if negb (g_initialized s) || (count =? 0) then return 0 else
  if count =? 1 then pmm_alloc_frame else
  if g_free_frames s <? count then return 0 else
  run_scan (Z.to_nat (g_total_frames s - 1)) count 1 0 0.

Definition misaligned (addr : Z) : bool := negb (Z.land addr (PAGE_SIZE - 1) =? 0).

Definition pmm_free_frame (addr : Z) : M pmm pmm_status :=
  s <~ mget ;;
  if negb (g_initialized s) then return PMM_ERR_NOT_INIT else
  if misaligned addr then return PMM_ERR_INVALID else
  let frame := addr_to_frame addr in
  if (frame =? 0) || (g_total_frames s <=? frame) then return PMM_ERR_INVALID else
  u <~ is_used frame ;;
  if negb u then return PMM_ERR_ALREADY_FREE else
  set_free frame ;;; incr_free ;;; return PMM_OK.

Definition pmm_mark_used (addr : Z) : M pmm unit :=
  s <~ mget ;;
  if misaligned addr then return tt else
  let frame := addr_to_frame addr in
  if g_total_frames s <=? frame then return tt else
  u <~ is_used frame ;; mwhen (negb u) (set_used frame ;;; decr_free).

Definition pmm_mark_free (addr : Z) : M pmm unit :=
  s <~ mget ;;
  if misaligned addr then return tt else
  let frame := addr_to_frame addr in
  if frame =? 0 then return tt else
  if g_total_frames s <=? frame then return tt else
  u <~ is_used frame ;; mwhen u (set_free frame ;;; incr_free).

Definition pmm_is_free (addr : Z) : M pmm Z :=
  s <~ mget ;;
  if misaligned addr then return (-1) else
  let frame := addr_to_frame addr in
  if g_total_frames s <=? frame then return (-1) else
  u <~ is_used frame ;; return (if u : bool then 0 else 1).

Definition pmm_get_stats : M pmm pmm_stats :=
  s <~ mget ;;
  return (PmmStats (g_total_frames s) (g_free_frames s)
            (u64 (g_total_frames s - g_free_frames s)) (g_reserved_frames s)).

(** * The bitmap as a set of frames *)

(** Frame [f] is marked used. *)
Definition used (bm : list Z) (f : Z) : bool :=
  match zget bm (word_idx f) with Some w => Z.testbit w (f mod 64) | None => true end.

(** [bm] with the bit of [f] set to [v]. *)
Definition mark (v : bool) (f : Z) (bm : list Z) : list Z :=
  match zget bm (word_idx f) with
  | Some w =>
    <[Z.to_nat (word_idx f) :=
        if v then Z.lor w (bit_mask f) else Z.land w (not64 (bit_mask f))]> bm
  | None => bm
  end.

Definition bm_wf (bm : list Z) : Prop :=
  Z.of_nat (length bm) = PMM_BITMAP_WORDS /\ Forall (in_w 64) bm.
Definition frame_ok (f : Z) : Prop := 0 <= f < PMM_MAX_FRAMES.

Definition count_free (bm : list Z) (n : Z) : Z :=
  Z.of_nat (length (filter (fun f => used bm f = false) (seqZ 0 n))).

Lemma PMM_MAX_FRAMES_val : PMM_MAX_FRAMES = 2 ^ 20.
Proof. reflexivity. Qed.
Lemma PMM_BITMAP_WORDS_val : PMM_BITMAP_WORDS = 16384.
Proof. reflexivity. Qed.

Lemma word_idx_range f : frame_ok f -> 0 <= word_idx f < PMM_BITMAP_WORDS.
Proof.
  unfold frame_ok, word_idx, PMM_BITS_PER_WORD. rewrite PMM_MAX_FRAMES_val, PMM_BITMAP_WORDS_val.
  intros. split; [apply Z.div_pos; lia|]. apply Z.div_lt_upper_bound; lia.
Qed.

Lemma bm_word bm f : bm_wf bm -> frame_ok f ->
  exists w, zget bm (word_idx f) = Some w /\ in_w 64 w.
Proof.
  intros [Hl Hw] Hf. pose proof (word_idx_range f Hf).
  destruct (zget_is_Some bm (word_idx f)) as [w Hg]; [lia|]. exists w. split; [done|].
  apply zget_Some in Hg as [_ Hg]. by eapply Forall_lookup_1 in Hg.
Qed.

Lemma mod64 f : 0 <= f mod 64 < 64.
Proof. apply Z.mod_pos_bound. lia. Qed.

Lemma bit_mask_bit f i : Z.testbit (bit_mask f) i = bool_decide (i = f mod 64).
Proof. unfold bit_mask, PMM_BITS_PER_WORD. apply pow2_testbit, mod64. Qed.
Lemma bit_mask_w f : in_w 64 (bit_mask f).
Proof. unfold bit_mask. apply in_w_shiftl1, mod64. Qed.

Lemma not64_bit w i : 0 <= i < 64 -> Z.testbit (not64 w) i = negb (Z.testbit w i).
Proof.
  intros. unfold not64. rewrite Z.lxor_spec.
  replace (Z.testbit UINT64_MAX i) with true; [by destruct (Z.testbit w i)|].
  change UINT64_MAX with (Z.ones 64). rewrite Z.ones_spec_low; [done|lia].
Qed.
Lemma not64_w w : in_w 64 w -> in_w 64 (not64 w).
Proof.
  intros Hw. apply in_w_bits; [lia| |].
  - unfold not64. rewrite Z.lxor_nonneg. unfold in_w, UINT64_MAX in *. lia.
  - intros i Hi. unfold not64.
    rewrite Z.lxor_spec, (testbit_high 64 w), (testbit_high 64 UINT64_MAX);
      unfold in_w, UINT64_MAX; done || lia.
Qed.

(** The C test [(w & mask) != 0] reads the bit. *)
Lemma land_mask_bit w f :
  0 <= w -> negb (Z.land w (bit_mask f) =? 0) = Z.testbit w (f mod 64).
Proof.
  intros Hw. unfold bit_mask, PMM_BITS_PER_WORD. pose proof (mod64 f).
  destruct (Z.eqb_spec (Z.land w (Z.shiftl 1 (f mod 64))) 0) as [E|E]; simpl.
  - assert (Z.testbit (Z.land w (Z.shiftl 1 (f mod 64))) (f mod 64) = false) as Hb
      by (rewrite E; apply Z.testbit_0_l).
    rewrite Z.land_spec, pow2_testbit, bool_decide_true, andb_true_r in Hb by lia. done.
  - destruct (Z.testbit w (f mod 64)) eqn:Hb; [done|]. contradict E.
    apply Z.bits_inj'. intros i Hi. rewrite Z.land_spec, pow2_testbit, Z.testbit_0_l by lia.
    case_bool_decide; subst; [by rewrite Hb|apply andb_false_r].
Qed.

Lemma mark_wf v f bm : bm_wf bm -> bm_wf (mark v f bm).
Proof.
  intros [Hl Hw]. unfold mark. destruct (zget bm (word_idx f)) as [w|] eqn:Hg; [|done].
  split; [by rewrite length_insert|]. apply zget_Some in Hg as [_ Hg].
  eapply Forall_lookup_1 in Hw as Hww; [|done].
  apply Forall_insert; [done|]. destruct v.
  - apply in_w_lor; [lia|done|apply bit_mask_w].
  - apply in_w_land_l; [lia|done].
Qed.

Lemma used_mark v f bm g : bm_wf bm -> frame_ok f -> frame_ok g ->
  used (mark v f bm) g = if decide (f = g) then v else used bm g.
Proof.
  intros Hbm Hf Hg. destruct (bm_word bm f Hbm Hf) as (w&Hw&Hww).
  pose proof (word_idx_range f Hf). unfold used, mark. rewrite Hw.
  destruct Hbm as [Hl _]. rewrite zget_insert by lia. pose proof (mod64 f). pose proof (mod64 g).
  destruct (decide (word_idx f = word_idx g)) as [E|E].
  2:{ destruct (decide (f = g)) as [->|]; [done|]. done. }
  assert (f mod 64 = g mod 64 -> f = g) as Hinj.
  { unfold word_idx, PMM_BITS_PER_WORD in E. pose proof (Z.div_mod f 64). pose proof (Z.div_mod g 64).
    lia. }
  rewrite <- E, Hw. destruct v.
  - rewrite Z.lor_spec, bit_mask_bit. destruct (decide (f = g)) as [->|Hn].
    + rewrite bool_decide_true by done. apply orb_true_r.
    + rewrite bool_decide_false by (intros ?; apply Hn; auto). apply orb_false_r.
  - rewrite Z.land_spec, not64_bit, bit_mask_bit by done. destruct (decide (f = g)) as [->|Hn].
    + rewrite bool_decide_true by done. apply andb_false_r.
    + rewrite bool_decide_false by (intros ?; apply Hn; auto). apply andb_true_r.
Qed.

(** Two well-formed bitmaps with the same frames used are equal. *)
Lemma used_ext bm bm' : bm_wf bm -> bm_wf bm' ->
  (forall f, frame_ok f -> used bm f = used bm' f) -> bm = bm'.
Proof.
  intros [Hl Hw] [Hl' Hw'] H. apply list_eq_same_length with (length bm); [lia|done|].
  intros i x y Hi Hx Hy. apply (bits_eq 64); [lia| | |].
  { by eapply Forall_lookup_1 in Hx. } { by eapply Forall_lookup_1 in Hy. }
  intros b Hb. rewrite PMM_BITMAP_WORDS_val in *. specialize (H (64 * Z.of_nat i + b)).
  unfold used, word_idx, PMM_BITS_PER_WORD in H.
  rewrite (Z.mul_comm 64), Z.div_add_l, (Z.div_small b), Z.add_0_r in H by lia.
  rewrite (Z.add_comm _ b), Z_mod_plus_full, Z.mod_small in H by lia.
  rewrite !zget_nat, Hx, Hy in H.
  apply H. unfold frame_ok. rewrite PMM_MAX_FRAMES_val. lia.
Qed.

Lemma mark_mark v w f bm : bm_wf bm -> frame_ok f -> used bm f = v ->
  mark v f (mark w f bm) = bm.
Proof.
  intros Hbm Hf Hu. apply used_ext; [by repeat apply mark_wf|done|]. intros g Hg.
  rewrite !used_mark by (done || by apply mark_wf). repeat case_decide; by subst.
Qed.

(** ** Primitive operations on the bitmap *)

Lemma is_used_run s f : bm_wf (g_bitmap s) -> frame_ok f ->
  is_used f s = Some (used (g_bitmap s) f, s).
Proof.
  intros Hbm Hf. destruct (bm_word _ f Hbm Hf) as (w&Hw&[Hw0 _]).
  unfold is_used, mbind_, mget, mlift, used. rewrite Hw, land_mask_bit; done.
Qed.
Lemma set_used_run s f : bm_wf (g_bitmap s) -> frame_ok f ->
  set_used f s = Some (tt, set_bitmap (mark true f (g_bitmap s)) s).
Proof.
  intros Hbm Hf. destruct (bm_word _ f Hbm Hf) as (w&Hw&_).
  unfold set_used, mbind_, mget, mlift, mput, mark. rewrite Hw.
  pose proof (word_idx_range f Hf). destruct Hbm as [Hl _]. rewrite zset_Some by lia. done.
Qed.
Lemma set_free_run s f : bm_wf (g_bitmap s) -> frame_ok f ->
  set_free f s = Some (tt, set_bitmap (mark false f (g_bitmap s)) s).
Proof.
  intros Hbm Hf. destruct (bm_word _ f Hbm Hf) as (w&Hw&_).
  unfold set_free, mbind_, mget, mlift, mput, mark. rewrite Hw.
  pose proof (word_idx_range f Hf). destruct Hbm as [Hl _]. rewrite zset_Some by lia. done.
Qed.

(** ** Counting free frames *)

Lemma count_free_mark bm f n :
  bm_wf bm -> n <= PMM_MAX_FRAMES -> 0 <= f < n -> used bm f = false ->
  count_free (mark true f bm) n = count_free bm n - 1.
Proof.
  intros Hbm Hn Hf Hu. assert (frame_ok f) by (unfold frame_ok; lia).
  unfold count_free. rewrite (filter_length_flip (fun g => used bm g = false)
    (fun g => used (mark true f bm) g = false) _ f); [lia|apply NoDup_seqZ|by apply elem_of_seqZ|done| |].
  - rewrite used_mark, decide_True by done. done.
  - intros g Hg Hne. apply elem_of_seqZ in Hg.
    rewrite used_mark, decide_False by (done || unfold frame_ok; lia). done.
Qed.
Lemma count_free_unmark bm f n :
  bm_wf bm -> n <= PMM_MAX_FRAMES -> 0 <= f < n -> used bm f = true ->
  count_free (mark false f bm) n = count_free bm n + 1.
Proof.
  intros Hbm Hn Hf Hu. assert (frame_ok f) by (unfold frame_ok; lia).
  assert (used (mark false f bm) f = false) by (rewrite used_mark, decide_True; done).
  pose proof (count_free_mark (mark false f bm) f n ltac:(by apply mark_wf) Hn Hf) as Hc.
  rewrite mark_mark in Hc by done. specialize (Hc ltac:(done)). lia.
Qed.
Lemma count_free_bounds bm n : 0 <= n -> 0 <= count_free bm n <= n.
Proof.
  intros. unfold count_free. pose proof (length_filter (fun f => used bm f = false) (seqZ 0 n)).
  rewrite length_seqZ in *. lia.
Qed.

(** A run of [c] free frames needs [c] free frames. *)
Lemma count_free_run bm n a c :
  0 <= a -> 0 <= c -> a + c <= n -> (forall i, a <= i < a + c -> used bm i = false) ->
  c <= count_free bm n.
Proof.
  intros Ha Hc Hn H. unfold count_free.
  assert (seqZ a c ⊆+ filter (fun f => used bm f = false) (seqZ 0 n)) as Hs%submseteq_length.
  { apply NoDup_submseteq; [apply NoDup_seqZ|]. intros i Hi%elem_of_seqZ.
    apply list_elem_of_filter. split; [apply H; lia|]. apply elem_of_seqZ. lia. }
  rewrite length_seqZ in Hs. lia.
Qed.

(** * The allocator invariant *)

Record pmm_inv (s : pmm) : Prop := PmmInv {
  pi_wf : bm_wf (g_bitmap s);
  pi_total : 0 <= g_total_frames s <= PMM_MAX_FRAMES;
  pi_free : g_free_frames s = count_free (g_bitmap s) (g_total_frames s);
  pi_zero : used (g_bitmap s) 0 = true;
  pi_top : forall f, g_total_frames s <= f < PMM_MAX_FRAMES -> used (g_bitmap s) f = true
}.

(** [claims a c s s']: [s'] is [s] with the [c] frames from [a] on taken. *)
Record claims (a c : Z) (s s' : pmm) : Prop := Claims {
  cl_used : forall g, frame_ok g ->
    used (g_bitmap s') g = bool_decide (a <= g < a + c) || used (g_bitmap s) g;
  cl_free : g_free_frames s' = g_free_frames s - c;
  cl_total : g_total_frames s' = g_total_frames s;
  cl_reserved : g_reserved_frames s' = g_reserved_frames s;
  cl_init : g_initialized s' = g_initialized s
}.

Definition take_frame (f : Z) (s : pmm) : pmm :=
  set_freec (g_free_frames s - 1) (set_bitmap (mark true f (g_bitmap s)) s).
Definition give_frame (f : Z) (s : pmm) : pmm :=
  set_freec (g_free_frames s + 1) (set_bitmap (mark false f (g_bitmap s)) s).

Lemma pmm_inv_free_range s : pmm_inv s -> 0 <= g_free_frames s <= PMM_MAX_FRAMES.
Proof.
  intros [? Ht Hf _ _]. rewrite Hf. pose proof (count_free_bounds (g_bitmap s) (g_total_frames s)). lia.
Qed.

Lemma take_frame_run s f : pmm_inv s -> 0 <= f < g_total_frames s -> used (g_bitmap s) f = false ->
  (set_used f ;;; decr_free) s = Some (tt, take_frame f s).
Proof.
  intros Hinv Hf Hu. pose proof (pmm_inv_free_range s Hinv). destruct Hinv as [Hwf Ht Hc _ _].
  unfold mbind_. rewrite set_used_run by (done || unfold frame_ok; lia).
  unfold decr_free, mmodify, take_frame. simpl. do 2 f_equal. unfold set_freec; simpl.
  unwrap. rewrite PMM_MAX_FRAMES_val in *.
  assert (1 <= g_free_frames s).
  { rewrite Hc. apply (count_free_run _ _ f); [lia..|]. intros i Hi. by replace i with f by lia. }
  rewrite wrap_small by (unfold in_w; lia). done.
Qed.
Lemma give_frame_run s f : pmm_inv s -> 0 < f < g_total_frames s -> used (g_bitmap s) f = true ->
  (set_free f ;;; incr_free) s = Some (tt, give_frame f s).
Proof.
  intros Hinv Hf Hu. pose proof (pmm_inv_free_range s Hinv). destruct Hinv as [Hwf Ht Hc _ _].
  unfold mbind_. rewrite set_free_run by (done || unfold frame_ok; lia).
  unfold incr_free, mmodify, give_frame. simpl. do 2 f_equal. unfold set_freec; simpl.
  unwrap. rewrite PMM_MAX_FRAMES_val in *. rewrite wrap_small by (unfold in_w; lia). done.
Qed.

Lemma take_frame_inv s f : pmm_inv s -> 0 <= f < g_total_frames s -> used (g_bitmap s) f = false ->
  pmm_inv (take_frame f s).
Proof.
  intros [Hwf Ht Hc H0 Htop] Hf Hu. assert (frame_ok f) by (unfold frame_ok; lia).
  split; simpl; [by apply mark_wf|done| | |].
  - rewrite count_free_mark; [by rewrite Hc|done|lia|done|done].
  - rewrite used_mark; [by case_decide|done|done|]. unfold frame_ok. rewrite PMM_MAX_FRAMES_val. lia.
  - intros g Hg. rewrite used_mark; [|done|done|unfold frame_ok; lia]. case_decide; auto.
Qed.
Lemma give_frame_inv s f : pmm_inv s -> 0 < f < g_total_frames s -> used (g_bitmap s) f = true ->
  pmm_inv (give_frame f s).
Proof.
  intros [Hwf Ht Hc H0 Htop] Hf Hu. assert (frame_ok f) by (unfold frame_ok; lia).
  split; simpl; [by apply mark_wf|done| | |].
  - rewrite count_free_unmark; [by rewrite Hc|done|lia|lia|done].
  - rewrite used_mark; [|done|done|unfold frame_ok; rewrite PMM_MAX_FRAMES_val; lia].
    rewrite decide_False by lia. done.
  - intros g Hg. rewrite used_mark; [|done|done|unfold frame_ok; lia].
    rewrite decide_False by lia. auto.
Qed.
Lemma take_frame_claims s f : pmm_inv s -> 0 <= f < g_total_frames s -> claims f 1 s (take_frame f s).
Proof.
  intros [Hwf Ht _ _ _] Hf. assert (frame_ok f) by (unfold frame_ok; lia).
  split; [|done..]. intros g Hg. simpl. rewrite used_mark by done.
  case_decide; subst; [rewrite bool_decide_true by lia; done|].
  rewrite bool_decide_false by lia. done.
Qed.
Lemma claims_refl a s : claims a 0 s s.
Proof.
  split; [|lia|done..]. intros g Hg. rewrite bool_decide_false by lia. done.
Qed.
Lemma claims_snoc a c s s' : pmm_inv s' -> 0 <= c -> claims a c s s' ->
  0 <= a + c < g_total_frames s' -> claims a (c + 1) s (take_frame (a + c) s').
Proof.
  intros Hinv Hc [Hu Hf Ht Hr Hi] Hr'. destruct (take_frame_claims s' (a + c) Hinv Hr') as [Hu' Hf' Ht' Hr'' Hi'].
  split; [|lia|congruence..]. intros g Hg. rewrite Hu', Hu by done. rewrite orb_assoc. f_equal.
  repeat case_bool_decide; try done; lia.
Qed.

(** * First-fit allocation *)

(** [c] free frames from [a] on. *)
Definition run_at (s : pmm) (c a : Z) : Prop :=
  forall i, a <= i < a + c -> used (g_bitmap s) i = false.
(** [a] starts a run of [c] free frames of the managed memory, frame 0 excluded. *)
Definition fits (s : pmm) (c a : Z) : Prop :=
  1 <= a /\ a + c <= g_total_frames s /\ run_at s c a.

(** What an allocation of [c] frames may return: the first fit, or 0 if nothing fits. *)
Definition alloc_post (c : Z) (s : pmm) (r : Z) (s' : pmm) : Prop :=
  (r = 0 /\ s' = s /\ forall a, ~ fits s c a) \/
  (exists a, r = a * PAGE_SIZE /\ fits s c a /\ (forall b, fits s c b -> a <= b) /\ claims a c s s').

Lemma frame_to_addr_val f : frame_ok f -> frame_to_addr f = f * PAGE_SIZE.
Proof.
  unfold frame_ok. rewrite PMM_MAX_FRAMES_val. intros. unfold frame_to_addr, PAGE_SHIFT, PAGE_SIZE. unwrap.
  rewrite Z.shiftl_mul_pow2 by lia. rewrite wrap_small by (unfold in_w; lia). done.
Qed.

(** The number of words [pmm_alloc_frame] scans. *)
Definition words_of (total : Z) : Z :=
  if (total + 63) / 64 =? 0 then 1 else (total + 63) / 64.

Lemma words_of_spec total : 0 <= total <= PMM_MAX_FRAMES ->
  1 <= words_of total <= PMM_BITMAP_WORDS /\ total <= 64 * words_of total /\
  64 * (words_of total - 1) <= total /\ (total <> 0 -> 64 * (words_of total - 1) < total).
Proof.
  rewrite PMM_MAX_FRAMES_val, PMM_BITMAP_WORDS_val. intros H. unfold words_of.
  pose proof (Z.div_mod (total + 63) 64 ltac:(lia)). pose proof (mod64 (total + 63)).
  destruct (Z.eqb_spec ((total + 63) / 64) 0); lia.
Qed.

Lemma used_word s w word i : zget (g_bitmap s) w = Some word -> 0 <= i < 64 ->
  used (g_bitmap s) (64 * w + i) = Z.testbit word i.
Proof.
  intros Hw Hi. unfold used, word_idx, PMM_BITS_PER_WORD.
  rewrite (Z.mul_comm 64), Z.div_add_l, (Z.div_small i), Z.add_0_r by lia.
  rewrite (Z.add_comm _ i), Z_mod_plus_full, Z.mod_small by lia. by rewrite Hw.
Qed.

Lemma low_mask_bit v i : 0 <= v -> 0 <= i -> Z.testbit (Z.shiftl 1 v - 1) i = bool_decide (i < v).
Proof.
  intros. rewrite Z.shiftl_1_l. replace (2 ^ v - 1) with (Z.ones v) by (rewrite Z.ones_equiv; lia).
  case_bool_decide; [apply Z.ones_spec_low|apply Z.ones_spec_high]; lia.
Qed.

Lemma candidate_bits_w s n_words w word : in_w 64 word -> in_w 64 (candidate_bits s n_words w word).
Proof.
  intros Hw. unfold candidate_bits. apply not64_w in Hw.
  assert (forall y, in_w 64 (Z.land (not64 word) y)) by (intros; apply in_w_land_l; [lia|done]).
  repeat case_match; try done; auto; by apply in_w_land_l.
Qed.

(** A candidate bit is exactly a free frame of the managed memory other than frame 0. *)
Lemma candidate_bits_spec s w word i :
  pmm_inv s -> zget (g_bitmap s) w = Some word -> 0 <= i < 64 -> 0 <= w < words_of (g_total_frames s) ->
  Z.testbit (candidate_bits s (words_of (g_total_frames s)) w word) i = true <->
  fits s 1 (64 * w + i).
Proof.
  intros Hinv Hw Hi Hwr. pose proof (used_word s w word i Hw Hi) as Hu.
  destruct Hinv as [Hwf Ht _ _ Htop]. destruct (words_of_spec _ Ht) as (Hn1&Hn2&Hn3&Hn4).
  rewrite PMM_BITMAP_WORDS_val in *. rewrite PMM_MAX_FRAMES_val in *.
  assert (Hfit : fits s 1 (64 * w + i) <->
    Z.testbit word i = false /\ 64 * w + i <> 0 /\ 64 * w + i < g_total_frames s).
  { unfold fits, run_at. split.
    - intros (?&?&Hr). rewrite <- Hu, Hr by lia. repeat split; lia.
    - intros (?&?&?). repeat split; [lia..|]. intros j Hj. replace j with (64 * w + i) by lia. congruence. }
  assert (Hlast : w < words_of (g_total_frames s) - 1 -> 64 * w + i < g_total_frames s) by lia.
  assert (Hzero : g_total_frames s = 0 -> Z.testbit word i = true).
  { intros. rewrite <- Hu. apply Htop. lia. }
  assert (Hone : Z.testbit 1 i = false <-> i <> 0).
  { change 1 with (Z.shiftl 1 0). rewrite pow2_testbit by lia. apply bool_decide_eq_false. }
  rewrite Hfit. unfold candidate_bits, PMM_BITS_PER_WORD.
  pose proof (Z.div_mod (g_total_frames s) 64 ltac:(lia)). pose proof (mod64 (g_total_frames s)).
  destruct (Z.eqb_spec w (words_of (g_total_frames s) - 1)), (Z.eqb_spec w 0),
    (Z.eqb_spec (g_total_frames s mod 64) 0); simpl;
    rewrite ?Z.land_spec, ?low_mask_bit, ?(not64_bit word) by lia;
    rewrite ?(not64_bit 1), ?andb_true_iff, ?negb_true_iff, ?bool_decide_eq_true by lia;
    rewrite ?Hone;
    (destruct (decide (g_total_frames s = 0)); [rewrite (Hzero ltac:(done)); split; [naive_solver|naive_solver]|]);
    try (assert (words_of (g_total_frames s) = g_total_frames s / 64 + 1) by lia);
    try (assert (words_of (g_total_frames s) = g_total_frames s / 64) by lia);
    split; intros; destruct_and?; repeat split; done || lia.
Qed.

(** The scan of word [w]: no candidate, or the lowest one is the first fit. *)
Section word.
Context (s : pmm) (w word : Z) (Hinv : pmm_inv s) (Hword : zget (g_bitmap s) w = Some word)
  (Hw : 0 <= w < words_of (g_total_frames s)) (Hlow : forall a, fits s 1 a -> 64 * w <= a).
Let fb := candidate_bits s (words_of (g_total_frames s)) w word.

Lemma word_w : in_w 64 word.
Proof using All.
  apply zget_Some in Hword as [_ Hg]. destruct (pi_wf s Hinv) as [_ Hw'].
  by eapply Forall_lookup_1 in Hg.
Qed.
Lemma word_bit a : fits s 1 a -> a < 64 * (w + 1) -> Z.testbit fb (a - 64 * w) = true.
Proof using All.
  intros Ha Hlt. pose proof (Hlow a Ha). apply (candidate_bits_spec s w word); [done..|lia|done|].
  by replace (64 * w + (a - 64 * w)) with a by lia.
Qed.
Lemma word_skip : fb = 0 -> forall a, fits s 1 a -> 64 * (w + 1) <= a.
Proof using All.
  intros E a Ha. destruct (decide (64 * (w + 1) <= a)); [done|].
  pose proof (word_bit a Ha ltac:(lia)) as Hb. by rewrite E, Z.testbit_0_l in Hb.
Qed.
Lemma word_full : word = UINT64_MAX -> fb = 0.
Proof using All.
  intros E. apply (bits_eq 64); [lia|apply candidate_bits_w, word_w|unfold in_w; lia|].
  intros i Hi. rewrite Z.testbit_0_l. destruct (Z.testbit fb i) eqn:Hb; [|done].
  apply candidate_bits_spec in Hb as (_&_&Hr); [|done..]. specialize (Hr (64 * w + i) ltac:(lia)).
  rewrite (used_word s w word), E in Hr by done.
  change UINT64_MAX with (Z.ones 64) in Hr. rewrite Z.ones_spec_low in Hr by lia. done.
Qed.
Lemma word_hit : fb <> 0 ->
  fits s 1 (64 * w + ctz fb) /\ (forall b, fits s 1 b -> 64 * w + ctz fb <= b).
Proof using All.
  intros E. pose proof (candidate_bits_w s (words_of (g_total_frames s)) w word word_w) as Hfb.
  fold fb in Hfb. assert (0 < fb) by (unfold in_w in Hfb; lia).
  pose proof (ctz_lt 64 fb Hfb ltac:(done)). pose proof (ctz_nonneg fb). split.
  - apply (candidate_bits_spec s w word); [done..|lia|done|]. by apply ctz_set.
  - intros b Hb. destruct (decide (64 * w + ctz fb <= b)); [done|]. pose proof (Hlow b Hb).
    pose proof (word_bit b Hb ltac:(lia)) as Hbit. rewrite ctz_low in Hbit by lia. done.
Qed.
End word.

(** Taking a single first fit. *)
Lemma take_first_fit s f : pmm_inv s -> fits s 1 f -> (forall b, fits s 1 b -> f <= b) ->
  exists s', (set_used f ;;; decr_free ;;; return (frame_to_addr f)) s = Some (f * PAGE_SIZE, s') /\
    alloc_post 1 s (f * PAGE_SIZE) s' /\ pmm_inv s'.
Proof.
  intros Hinv Hfit Hmin. destruct Hfit as (Hf1&Hf2&Hrun) eqn:E. clear E.
  pose proof (pi_total s Hinv).
  pose proof (take_frame_run s f Hinv ltac:(lia) (Hrun f ltac:(lia))) as Hrf.
  apply mbind_inv in Hrf as ([]&s1&Hs1&Hs2).
  mstep Hs1. mstep Hs2. unfold mret. rewrite frame_to_addr_val by (unfold frame_ok; lia).
  eexists. split; [done|]. split; [|apply take_frame_inv; auto with lia].
  right. exists f. repeat split; try done; [lia..|]; apply take_frame_claims; auto with lia.
Qed.

(** The word scan finds the first free frame not below word [w]. *)
Lemma alloc_scan_spec s n w :
  pmm_inv s -> 0 <= w -> w + Z.of_nat n = words_of (g_total_frames s) ->
  (forall a, fits s 1 a -> 64 * w <= a) ->
  exists r s', alloc_scan n (words_of (g_total_frames s)) w s = Some (r, s') /\
    alloc_post 1 s r s' /\ pmm_inv s'.
Proof.
  intros Hinv. destruct (words_of_spec _ (pi_total s Hinv)) as (Hn1&Hn2&_).
  revert w. induction n as [|n IH]; intros w Hw Hn Hlow.
  { exists 0, s. split; [done|]. split; [|done]. left. repeat split; [done..|].
    intros a Ha. pose proof (Hlow a Ha). destruct Ha as (?&?&_). lia. }
  destruct (zget_is_Some (g_bitmap s) w) as [word Hword].
  { destruct (pi_wf s Hinv) as [-> _]. lia. }
  assert (Hw' : 0 <= w < words_of (g_total_frames s)) by lia.
  cbn [alloc_scan]. unfold mbind_ at 1 2, mget, mlift. rewrite Hword.
  destruct (Z.eqb_spec word UINT64_MAX) as [E|_].
  { apply IH; [lia..|]. by eapply word_skip, word_full. }
  destruct (Z.eqb_spec (candidate_bits s (words_of (g_total_frames s)) w word) 0) as [E|E].
  { apply IH; [lia..|]. by eapply word_skip. }
  replace (w * PMM_BITS_PER_WORD) with (64 * w) by (unfold PMM_BITS_PER_WORD; lia).
  destruct (word_hit s w word Hinv Hword Hw' Hlow E) as [Hfit Hmin].
  destruct (take_first_fit s _ Hinv Hfit Hmin) as (s'&Hrun&Hpost&Hinv').
  rewrite (proj2 (Z.leb_gt _ _)) by (destruct Hfit; lia). eauto.
Qed.

Lemma alloc_frame_spec s : pmm_inv s -> g_initialized s = true ->
  exists r s', pmm_alloc_frame s = Some (r, s') /\ alloc_post 1 s r s' /\ pmm_inv s'.
Proof.
  intros Hinv Hi. pose proof (pi_total s Hinv). rewrite PMM_MAX_FRAMES_val in *.
  unfold pmm_alloc_frame, mbind_, mget. rewrite Hi. cbn [negb].
  replace (u64 (g_total_frames s + PMM_BITS_PER_WORD - 1) / PMM_BITS_PER_WORD)
    with ((g_total_frames s + 63) / 64)
    by (unfold PMM_BITS_PER_WORD; unwrap; rewrite wrap_small by (unfold in_w; lia); f_equal; lia).
  fold (words_of (g_total_frames s)).
  destruct (words_of_spec (g_total_frames s)) as (?&_); [rewrite PMM_MAX_FRAMES_val; lia|].
  apply alloc_scan_spec; [done|lia..|]. intros a [? _]. lia.
Qed.

(** Marking a run frame by frame. *)
Lemma take_run_spec s a c : pmm_inv s -> 0 <= c -> fits s c a ->
  exists s', for_range a (a + c) (fun i => set_used i ;;; decr_free) s = Some (tt, s') /\
    claims a c s s' /\ pmm_inv s'.
Proof.
  intros Hinv Hc (Ha&Hac&Hrun). pose proof (pi_total s Hinv).
  destruct (for_range_inv (fun i t => pmm_inv t /\ claims a (i - a) s t) a (a + c)
    (fun i => set_used i ;;; decr_free) s) as (s'&Hr&Hi'&Hcl); [lia| | |].
  - split; [done|]. rewrite Z.sub_diag. apply claims_refl.
  - intros i t Hi (Ht&Hcl). destruct Hcl as [Hu ? Htot ? ?] eqn:E. clear E.
    assert (used (g_bitmap t) i = false).
    { rewrite Hu by (unfold frame_ok; lia). rewrite bool_decide_false, Hrun by lia. done. }
    exists (take_frame i t). rewrite take_frame_run by (done || lia).
    split; [done|]. split; [apply take_frame_inv; auto with lia|].
    replace (i + 1 - a) with (i - a + 1) by lia.
    pose proof (claims_snoc a (i - a) s t Ht ltac:(lia) Hcl) as Hs.
    replace (a + (i - a)) with i in Hs by lia. apply Hs. lia.
  - exists s'. replace (a + c - a) with c in Hcl by lia. done.
Qed.

(** The window scan: [f - run_len .. f) is free and nothing fits before it. *)
Lemma run_scan_spec s c n f rs rl :
  pmm_inv s -> 2 <= c -> f + Z.of_nat n = Z.max 1 (g_total_frames s) ->
  0 <= rl < c -> 1 <= f - rl -> (rl <> 0 -> rs = f - rl) ->
  run_at s rl (f - rl) -> (forall a, fits s c a -> f - rl <= a) ->
  exists r s', run_scan n c f rs rl s = Some (r, s') /\ alloc_post c s r s' /\ pmm_inv s'.
Proof.
  intros Hinv Hc. pose proof (pi_total s Hinv).
  revert f rs rl. induction n as [|n IH]; intros f rs rl Hn Hrl Hf Hrs Hrun Hlow.
  { exists 0, s. split; [done|]. split; [|done]. left. repeat split; [done..|].
    intros a Ha. pose proof (Hlow a Ha). destruct Ha as (?&?&_). lia. }
  cbn [run_scan]. unfold mbind_ at 1. rewrite is_used_run by (apply Hinv || unfold frame_ok; lia).
  destruct (used (g_bitmap s) f) eqn:Hu; cbn [negb].
  { apply IH; try lia. { intros i Hi. lia. }
    intros a Ha. pose proof (Hlow a Ha). destruct (decide (f < a)); [lia|].
    destruct Ha as (?&?&Hr). rewrite Hr in Hu by lia. done. }
  assert (E : (if rl =? 0 then f else rs) = f - rl).
  { destruct (Z.eqb_spec rl 0); [lia|]. by apply Hrs. }
  cbv zeta. rewrite E. assert (Hrun' : run_at s (rl + 1) (f - rl)).
  { intros i Hi. destruct (decide (i = f)) as [->|]; [done|]. apply Hrun. lia. }
  destruct (Z.eqb_spec (rl + 1) c) as [Ec|Ec].
  - rewrite Ec in Hrun'. assert (fits s c (f - rl)) as Hfit by (repeat split; [lia..|done]).
    destruct (take_run_spec s (f - rl) c Hinv ltac:(lia) Hfit) as (s'&Hr&Hcl&Hi').
    mstep Hr. unfold mret. rewrite frame_to_addr_val by (unfold frame_ok; lia).
    do 2 eexists. split; [done|]. split; [|done]. right. exists (f - rl). auto.
  - apply IH; try lia.
    + by replace (f + 1 - (rl + 1)) with (f - rl) by lia.
    + intros a Ha. pose proof (Hlow a Ha). lia.
Qed.

Lemma alloc_frames_spec s c : pmm_inv s -> g_initialized s = true -> 1 <= c ->
  exists r s', pmm_alloc_frames c s = Some (r, s') /\ alloc_post c s r s' /\ pmm_inv s'.
Proof.
  intros Hinv Hi Hc. unfold pmm_alloc_frames. unfold mbind_ at 1. unfold mget. rewrite Hi. simpl orb.
  rewrite (proj2 (Z.eqb_neq c 0)) by lia.
  destruct (Z.eqb_spec c 1) as [->|]; [by apply alloc_frame_spec|].
  destruct (Z.ltb_spec (g_free_frames s) c).
  - exists 0, s. split; [done|]. split; [|done]. left. repeat split; [done..|].
    intros a (?&?&Hr). rewrite (pi_free s Hinv) in *.
    enough (c <= count_free (g_bitmap s) (g_total_frames s)) by lia.
    apply (count_free_run _ _ a); done || lia.
  - apply run_scan_spec; try done; try lia.
    + intros i ?. lia.
    + intros a [? _]. lia.
Qed.

(** * Release and the per-frame operations *)

Lemma misaligned_val addr : misaligned addr = negb (addr mod PAGE_SIZE =? 0).
Proof.
  unfold misaligned. change (PAGE_SIZE - 1) with (Z.ones 12). rewrite Z.land_ones by lia. done.
Qed.
Lemma addr_to_frame_val addr : addr_to_frame addr = addr / PAGE_SIZE.
Proof. unfold addr_to_frame, PAGE_SHIFT. rewrite Z.shiftr_div_pow2 by lia. done. Qed.
Lemma misaligned_frame f : misaligned (f * PAGE_SIZE) = false.
Proof. rewrite misaligned_val, Z_mod_mult. done. Qed.
Lemma addr_frame f : addr_to_frame (f * PAGE_SIZE) = f.
Proof. rewrite addr_to_frame_val. apply Z_div_mult. done. Qed.

(** The frame an address names to [pmm_free_frame]: aligned, in range, not frame 0. *)
Definition frame_of (s : pmm) (addr : Z) : option Z :=
  if (addr mod PAGE_SIZE =? 0) && (0 <? addr / PAGE_SIZE) && (addr / PAGE_SIZE <? g_total_frames s)
  then Some (addr / PAGE_SIZE) else None.

Lemma free_frame_spec s addr : pmm_inv s -> g_initialized s = true -> 0 <= addr ->
  pmm_free_frame addr s = Some
    match frame_of s addr with
    | None => (PMM_ERR_INVALID, s)
    | Some f => if used (g_bitmap s) f then (PMM_OK, give_frame f s) else (PMM_ERR_ALREADY_FREE, s)
    end.
Proof.
  intros Hinv Hi Ha. pose proof (pi_total s Hinv).
  unfold pmm_free_frame. unfold mbind_ at 1. unfold mget. rewrite Hi, misaligned_val, addr_to_frame_val.
  unfold frame_of. pose proof (Z.div_pos addr PAGE_SIZE Ha ltac:(done)).
  destruct (addr mod PAGE_SIZE =? 0); [|done]. cbn [negb andb].
  destruct (Z.eqb_spec (addr / PAGE_SIZE) 0), (Z.ltb_spec 0 (addr / PAGE_SIZE)); try lia; [done|].
  destruct (Z.leb_spec (g_total_frames s) (addr / PAGE_SIZE)),
    (Z.ltb_spec (addr / PAGE_SIZE) (g_total_frames s)); try lia; [done|].
  cbn [orb andb]. unfold mbind_ at 1. rewrite is_used_run by (apply Hinv || unfold frame_ok; lia).
  destruct (used _ _) eqn:Hu; [|done]. cbn [negb].
  pose proof (give_frame_run s _ Hinv ltac:(done) Hu) as Hr.
  apply mbind_inv in Hr as ([]&s1&Hs1&Hs2). mstep Hs1. mstep Hs2. done.
Qed.

Lemma give_take s f : pmm_inv s -> frame_ok f -> used (g_bitmap s) f = false ->
  give_frame f (take_frame f s) = s.
Proof.
  intros Hinv Hf Hu. unfold give_frame, take_frame. destruct s as [bm t fr r i]; simpl in *.
  unfold set_freec, set_bitmap; simpl. rewrite mark_mark by (apply Hinv || done). f_equal. lia.
Qed.

Lemma mark_used_spec s f : pmm_inv s -> 0 <= f < g_total_frames s ->
  exists s', pmm_mark_used (f * PAGE_SIZE) s = Some (tt, s') /\ pmm_inv s' /\
    s' = if used (g_bitmap s) f then s else take_frame f s.
Proof.
  intros Hinv Hf. pose proof (pi_total s Hinv). unfold pmm_mark_used. unfold mbind_ at 1. unfold mget.
  rewrite misaligned_frame, addr_frame, (proj2 (Z.leb_gt _ _)) by lia.
  unfold mbind_ at 1. rewrite is_used_run by (apply Hinv || unfold frame_ok; lia).
  destruct (used _ _) eqn:Hu; cbn [mwhen negb]; [eauto|].
  rewrite take_frame_run by done. eauto using take_frame_inv.
Qed.
Lemma mark_free_spec s f : pmm_inv s -> 0 < f < g_total_frames s ->
  exists s', pmm_mark_free (f * PAGE_SIZE) s = Some (tt, s') /\ pmm_inv s' /\
    s' = if used (g_bitmap s) f then give_frame f s else s.
Proof.
  intros Hinv Hf. pose proof (pi_total s Hinv). unfold pmm_mark_free. unfold mbind_ at 1. unfold mget.
  rewrite misaligned_frame, addr_frame, (proj2 (Z.leb_gt _ _)) by lia.
  rewrite (proj2 (Z.eqb_neq _ _)) by lia.
  unfold mbind_ at 1. rewrite is_used_run by (apply Hinv || unfold frame_ok; lia).
  destruct (used _ _) eqn:Hu; cbn [mwhen negb]; [|eauto].
  rewrite give_frame_run by done. eauto using give_frame_inv.
Qed.
Lemma is_free_spec s f : pmm_inv s -> 0 <= f < g_total_frames s ->
  pmm_is_free (f * PAGE_SIZE) s = Some (if used (g_bitmap s) f then 0 else 1, s).
Proof.
  intros Hinv Hf. pose proof (pi_total s Hinv). unfold pmm_is_free. unfold mbind_ at 1. unfold mget.
  rewrite misaligned_frame, addr_frame, (proj2 (Z.leb_gt _ _)) by lia.
  unfold mbind_. rewrite is_used_run by (apply Hinv || unfold frame_ok; lia). done.
Qed.

(** ** Clients

    [held] is the set of frames clients have been given and not returned.  A
    client asks for [c] frames, or returns a frame it holds. *)

Definition frames (a c : Z) : gset Z := list_to_set (seqZ a c).

Inductive client_step : pmm * gset Z -> pmm * gset Z -> Prop :=
| client_alloc s held c r s' :
    1 <= c -> pmm_alloc_frames c s = Some (r, s') -> r <> 0 ->
    client_step (s, held) (s', held ∪ frames (r / PAGE_SIZE) c)
| client_oom s held c s' :
    1 <= c -> pmm_alloc_frames c s = Some (0, s') -> client_step (s, held) (s', held)
| client_free s held f st s' :
    f ∈ held -> pmm_free_frame (f * PAGE_SIZE) s = Some (st, s') ->
    client_step (s, held) (s', held ∖ {[f]}).

(** Held frames are managed, used, and not frame 0. *)
Definition client_inv (c : pmm * gset Z) : Prop :=
  pmm_inv c.1 /\ g_initialized c.1 = true /\
  forall f, f ∈ c.2 -> 0 < f < g_total_frames c.1 /\ used (g_bitmap c.1) f = true.

Lemma elem_of_frames f a c : f ∈ frames a c <-> a <= f < a + c.
Proof. unfold frames. rewrite elem_of_list_to_set, elem_of_seqZ. done. Qed.

Lemma frame_of_held s f : 0 < f < g_total_frames s -> frame_of s (f * PAGE_SIZE) = Some f.
Proof.
  intros. unfold frame_of. rewrite Z_mod_mult, Z_div_mult by done. simpl.
  rewrite !(proj2 (Z.ltb_lt _ _)) by lia. done.
Qed.

Lemma client_step_inv x y : client_step x y -> client_inv x -> client_inv y.
Proof.
  destruct 1 as [s held c r s' Hc Hrun Hr|s held c s' Hc Hrun|s held f st s' Hf Hrun];
    intros (Hinv&Hi&Hh); simpl in *.
  1,2: destruct (alloc_frames_spec s c Hinv Hi Hc) as (r0&s0&Hrun0&Hpost&Hinv');
    rewrite Hrun in Hrun0; injection Hrun0 as <- <-.
  - destruct Hpost as [(?&_)|(a&->&Hfit&_&Hcl)]; [done|]. destruct Hcl as [Hu _ Ht _ Hi'].
    pose proof (pi_total s Hinv). destruct Hfit as (?&?&_).
    split; [done|]. split; [simpl; congruence|]. simpl. rewrite Z_div_mult, Ht by done.
    intros f [Hf|Hf%elem_of_frames]%elem_of_union.
    + destruct (Hh f Hf) as [? Hfu]. split; [done|]. rewrite Hu, Hfu by (unfold frame_ok; lia).
      apply orb_true_r.
    + split; [lia|]. rewrite Hu by (unfold frame_ok; lia). rewrite bool_decide_true by lia. done.
  - destruct Hpost as [(_&->&_)|(a&E&(?&_)&_)]; [done|]. unfold PAGE_SIZE in E. lia.
  - destruct (Hh f Hf) as [Hfr Hfu]. pose proof (pi_total s Hinv).
    rewrite free_frame_spec, frame_of_held, Hfu in Hrun by (done || unfold PAGE_SIZE; lia).
    apply (inj Some) in Hrun. cbv beta iota in Hrun.
    assert (s' = give_frame f s) as -> by congruence.
    split; [by apply give_frame_inv|]. split; [done|]. simpl. intros g [Hg Hgf]%elem_of_difference.
    destruct (Hh g Hg) as [? Hgu]. split; [done|]. simpl.
    rewrite used_mark by (apply Hinv || unfold frame_ok; lia).
    rewrite decide_False by set_solver. done.
Qed.

Lemma client_reach_inv x y : rtc client_step x y -> client_inv x -> client_inv y.
Proof. induction 1; eauto using client_step_inv. Qed.

(** * Initialisation *)

(** While the map is parsed: the counter counts the clear bits of the whole bitmap. *)
Record boot_inv (s : pmm) : Prop := BootInv {
  bi_wf : bm_wf (g_bitmap s);
  bi_total : 0 <= g_total_frames s <= PMM_MAX_FRAMES;
  bi_free : g_free_frames s = count_free (g_bitmap s) PMM_MAX_FRAMES
}.

(** The frames of [s'] are those of [s] except that [a, b) is marked [v]. *)
Definition remarks (v : bool) (a b : Z) (s s' : pmm) : Prop :=
  (forall g, frame_ok g ->
    used (g_bitmap s') g = if bool_decide (a <= g < b) then v else used (g_bitmap s) g) /\
  g_total_frames s' = g_total_frames s /\ g_initialized s' = g_initialized s.

Lemma boot_free_range s : boot_inv s -> 0 <= g_free_frames s <= PMM_MAX_FRAMES.
Proof. intros [_ _ ->]. apply count_free_bounds. rewrite PMM_MAX_FRAMES_val. lia. Qed.

Lemma remarks_nop v a b s : b <= a -> remarks v a b s s.
Proof. intros. split; [|done]. intros g _. rewrite bool_decide_false by lia. done. Qed.
Lemma remarks_snoc v a b s s' s'' : a <= b ->
  remarks v a b s s' -> remarks v b (b + 1) s' s'' -> remarks v a (b + 1) s s''.
Proof.
  intros Hab (Hu&?&?) (Hu'&?&?). split; [|split; congruence].
  intros g Hg. rewrite Hu', Hu by done. repeat case_bool_decide; done || lia.
Qed.

(** One iteration of the freeing loop, and one of the reserving loop. *)
Lemma free_step s f : boot_inv s -> frame_ok f ->
  exists s', (u <~ is_used f ;; mwhen u (set_free f ;;; incr_free)) s = Some (tt, s') /\
    boot_inv s' /\ remarks false f (f + 1) s s'.
Proof.
  intros Hb Hf. pose proof (boot_free_range s Hb) as Hr. destruct Hb as [Hwf Ht Hc].
  unfold mbind_ at 1. rewrite is_used_run by done. destruct (used (g_bitmap s) f) eqn:Hu; cbn [mwhen].
  2:{ exists s. split; [done|]. split; [done|]. split; [|done]. intros g Hg.
      case_bool_decide; [|done]. by replace g with f by lia. }
  unfold mbind_. rewrite set_free_run by done. eexists. split; [reflexivity|].
  rewrite PMM_MAX_FRAMES_val in Hr. unfold frame_ok in Hf. split.
  - split; simpl; [by apply mark_wf|done|].
    rewrite count_free_unmark by (done || lia). unwrap. rewrite wrap_small by (unfold in_w; lia). lia.
  - split; [|done]. intros g Hg. simpl. rewrite used_mark by (done || unfold frame_ok; lia).
    repeat case_bool_decide; repeat case_decide; done || lia.
Qed.
Lemma reserve_step s f : boot_inv s -> frame_ok f ->
  exists s', (u <~ is_used f ;; mwhen (negb u) (set_used f ;;; decr_free ;;; incr_reserved)) s = Some (tt, s') /\
    boot_inv s' /\ remarks true f (f + 1) s s'.
Proof.
  intros Hb Hf. pose proof (boot_free_range s Hb) as Hr. destruct Hb as [Hwf Ht Hc].
  unfold mbind_ at 1. rewrite is_used_run by done. destruct (used (g_bitmap s) f) eqn:Hu; cbn [mwhen negb].
  { exists s. split; [done|]. split; [done|]. split; [|done]. intros g Hg.
    case_bool_decide; [|done]. by replace g with f by lia. }
  unfold mbind_. rewrite set_used_run by done. eexists. split; [reflexivity|].
  pose proof (count_free_mark (g_bitmap s) f _ Hwf (Z.le_refl _) Hf Hu) as Hcm.
  pose proof (count_free_bounds (mark true f (g_bitmap s)) PMM_MAX_FRAMES ltac:(unfold frame_ok in Hf; lia)).
  rewrite PMM_MAX_FRAMES_val in Hr. unfold frame_ok in Hf. split.
  - split; simpl; [by apply mark_wf|done|].
    unwrap. rewrite wrap_small by (unfold in_w; lia). lia.
  - split; [|done]. intros g Hg. simpl. rewrite used_mark by (done || unfold frame_ok; lia).
    repeat case_bool_decide; repeat case_decide; done || lia.
Qed.

(** The loops over a range of frames. *)
Lemma remark_loop v s a b body :
  (forall s f, boot_inv s -> frame_ok f -> exists s', body f s = Some (tt, s') /\
     boot_inv s' /\ remarks v f (f + 1) s s') ->
  boot_inv s -> 0 <= a <= b -> b <= PMM_MAX_FRAMES ->
  exists s', for_range a b body s = Some (tt, s') /\ boot_inv s' /\ remarks v a b s s'.
Proof.
  intros Hbody Hb Ha Hm.
  destruct (for_range_inv (fun i t => boot_inv t /\ remarks v a i s t) a b body s)
    as (s'&Hr&?&?); [lia| | |eauto].
  - split; [done|]. apply remarks_nop. lia.
  - intros i t Hi (Ht&Hre). destruct (Hbody t i Ht) as (t'&Hrun&Ht'&Hre'); [unfold frame_ok; lia|].
    exists t'. split; [done|]. split; [done|]. eapply remarks_snoc; [lia|done..].
Qed.

(** First frame of a range when only whole frames count, and one past its last. *)
Definition frame_up (a : Z) : Z := (a + PAGE_SIZE - 1) / PAGE_SIZE.
Definition frame_down (a : Z) : Z := a / PAGE_SIZE.

Lemma shiftr_page a : Z.shiftr a PAGE_SHIFT = a / PAGE_SIZE.
Proof. unfold PAGE_SHIFT. rewrite Z.shiftr_div_pow2 by lia. done. Qed.
Lemma range_end_small base len : 0 <= base -> 0 <= len -> base + len < 2 ^ 64 -> range_end base len = base + len.
Proof.
  intros. unfold range_end. unwrap. rewrite wrap_small by (unfold in_w; lia).
  rewrite (proj2 (Z.ltb_ge _ _)) by lia. done.
Qed.

Lemma mark_range_free_spec s base len : boot_inv s -> 0 <= base -> 0 <= len -> base + len <= 2 ^ 64 - PAGE_SIZE ->
  exists s', mark_range_free base len s = Some (tt, s') /\ boot_inv s' /\
    remarks false (frame_up base) (Z.min (frame_down (base + len)) (g_total_frames s)) s s'.
Proof.
  intros Hb H0 H1 H2. unfold mark_range_free, frame_up, frame_down. pose proof (bi_total s Hb).
  destruct (Z.eqb_spec len 0) as [->|].
  { exists s. split; [done|]. split; [done|]. apply remarks_nop. rewrite Z.add_0_r.
    assert (base / PAGE_SIZE <= (base + PAGE_SIZE - 1) / PAGE_SIZE)
      by (apply Z.div_le_mono; unfold PAGE_SIZE; lia). lia. }
  unfold mbind_ at 1. unfold mget. rewrite range_end_small by (unfold PAGE_SIZE in *; lia).
  rewrite !shiftr_page. unwrap. rewrite wrap_small by (unfold in_w, PAGE_SIZE in *; lia).
  pose proof (Z.div_pos (base + PAGE_SIZE - 1) PAGE_SIZE ltac:(unfold PAGE_SIZE; lia) ltac:(done)).
  destruct (Z.leb_spec (Z.min ((base + len) / PAGE_SIZE) (g_total_frames s)) ((base + PAGE_SIZE - 1) / PAGE_SIZE)).
  - exists s. split; [done|]. split; [done|]. by apply remarks_nop.
  - apply remark_loop; [intros; by apply free_step|done|lia..].
Qed.
Lemma mark_range_used_spec s base len : boot_inv s -> 0 <= base -> 0 < len -> base + len <= 2 ^ 64 - PAGE_SIZE ->
  exists s', mark_range_used base len s = Some (tt, s') /\ boot_inv s' /\
    remarks true (frame_down base) (Z.min (frame_up (base + len)) (g_total_frames s)) s s'.
Proof.
  intros Hb H0 H1 H2. unfold mark_range_used, frame_up, frame_down. pose proof (bi_total s Hb).
  destruct (Z.eqb_spec len 0) as [->|]; [lia|].
  unfold mbind_ at 1. unfold mget. rewrite range_end_small by (unfold PAGE_SIZE in *; lia).
  rewrite !shiftr_page. unwrap. rewrite wrap_small by (unfold in_w, PAGE_SIZE in *; lia).
  pose proof (Z.div_pos base PAGE_SIZE ltac:(lia) ltac:(done)).
  destruct (Z.leb_spec (Z.min ((base + len + PAGE_SIZE - 1) / PAGE_SIZE) (g_total_frames s)) (base / PAGE_SIZE)).
  - exists s. split; [done|]. split; [done|]. by apply remarks_nop.
  - apply remark_loop; [intros; by apply reserve_step|done|lia..].
Qed.

(** ** Multiboot2 information as the boot loader lays it out *)

Record region := Region { r_base : Z; r_len : Z; r_type : Z }.
Inductive mb2_tag := Mmap (rs : list region) | Other (type : Z) (payload : list Z).

Definition enc_region (r : region) : list Z :=
  le_enc 8 (r_base r) ++ le_enc 8 (r_len r) ++ le_enc 4 (r_type r) ++ le_enc 4 0.
Definition tag_size (t : mb2_tag) : Z :=
  match t with
  | Mmap rs => 16 + 24 * Z.of_nat (length rs)
  | Other _ p => 8 + Z.of_nat (length p)
  end.
(** Bytes of a tag in its 8-byte slots. *)
Definition tag_span (t : mb2_tag) : Z := 8 * ((tag_size t + 7) / 8).
Definition enc_body (t : mb2_tag) : list Z :=
  match t with
  | Mmap rs => le_enc 4 MB2_TAG_TYPE_MMAP ++ le_enc 4 (tag_size t) ++ le_enc 4 24 ++ le_enc 4 0 ++
               concat (enc_region <$> rs)
  | Other ty p => le_enc 4 ty ++ le_enc 4 (tag_size t) ++ p
  end.
Definition enc_tag (t : mb2_tag) : list Z :=
  enc_body t ++ replicate (Z.to_nat (tag_span t - tag_size t)) 0.
Definition end_tag : list Z := le_enc 4 0 ++ le_enc 4 8.
Definition enc_info (ts : list mb2_tag) : list Z :=
  let body := concat (enc_tag <$> ts) ++ end_tag in
  le_enc 4 (8 + Z.of_nat (length body)) ++ le_enc 4 0 ++ body.

Definition region_ok (r : region) : Prop :=
  0 <= r_base r /\ 0 <= r_len r /\ r_base r + r_len r <= 2 ^ 64 - PAGE_SIZE /\ in_w 32 (r_type r).
Definition tag_ok (t : mb2_tag) : Prop :=
  tag_size t < 2 ^ 32 /\
  match t with
  | Mmap rs => Forall region_ok rs
  | Other ty _ => 0 < ty < 2 ^ 32 /\ ty <> MB2_TAG_TYPE_MMAP
  end.
Definition info_ok (ts : list mb2_tag) : Prop :=
  Forall tag_ok ts /\ Z.of_nat (length (enc_info ts)) < 2 ^ 32.

(** The code keeps the last memory-map tag. *)
Fixpoint last_mmap (acc : option (list region)) (ts : list mb2_tag) : option (list region) :=
  match ts with
  | [] => acc
  | Mmap rs :: ts' => last_mmap (Some rs) ts'
  | Other _ _ :: ts' => last_mmap acc ts'
  end.
(** The fallback of [pmm_init] is a map with the one region [1 MiB, 4 MiB). *)
Definition regions_of (ts : list mb2_tag) : list region :=
  match last_mmap None ts with Some rs => rs | None => [Region 0x100000 0x300000 MB2_MMAP_AVAILABLE] end.

Lemma mb2_align8_val v : 0 <= v < 2 ^ 63 -> mb2_align8 v = 8 * ((v + 7) / 8).
Proof.
  intros Hv. unfold mb2_align8. unwrap. rewrite wrap_small by (unfold in_w; lia).
  transitivity (Z.ldiff (v + 7) (Z.ones 3)).
  - apply Z.bits_inj'. intros i Hi. rewrite Z.land_spec, Z.ldiff_spec.
    destruct (decide (i < 64)); [by rewrite not64_bit by lia|].
    rewrite (testbit_high 64 (v + 7)) by (unfold in_w; lia). done.
  - rewrite Z.ldiff_ones_r, Z.shiftl_mul_pow2, Z.shiftr_div_pow2 by lia. change (2 ^ 3) with 8. lia.
Qed.

Lemma enc_region_length r : length (enc_region r) = 24%nat.
Proof. unfold enc_region. rewrite !length_app, !le_enc_length. done. Qed.
Lemma enc_regions_length rs : length (concat (enc_region <$> rs)) = (24 * length rs)%nat.
Proof.
  induction rs as [|r rs IH]; [done|]. rewrite fmap_cons. cbn [concat length]. rewrite length_app, IH, enc_region_length. lia.
Qed.
Lemma tag_size_pos t : 8 <= tag_size t.
Proof. destruct t; simpl; lia. Qed.
Lemma tag_span_bounds t : tag_size t <= tag_span t /\ 8 <= tag_span t.
Proof.
  unfold tag_span. pose proof (tag_size_pos t).
  pose proof (Z.div_mod (tag_size t + 7) 8 ltac:(lia)).
  pose proof (Z.mod_pos_bound (tag_size t + 7) 8 ltac:(lia)). lia.
Qed.
Lemma enc_body_length t : Z.of_nat (length (enc_body t)) = tag_size t.
Proof.
  destruct t as [rs|ty p]; simpl; rewrite ?enc_regions_length; lia.
Qed.
Lemma enc_tag_length t : Z.of_nat (length (enc_tag t)) = tag_span t.
Proof.
  unfold enc_tag. rewrite length_app, length_replicate. pose proof (enc_body_length t).
  pose proof (tag_span_bounds t). lia.
Qed.
Definition tag_type (t : mb2_tag) : Z := match t with Mmap _ => MB2_TAG_TYPE_MMAP | Other ty _ => ty end.
Lemma enc_tag_head t : exists rest, enc_tag t = le_enc 4 (tag_type t) ++ le_enc 4 (tag_size t) ++ rest.
Proof. destruct t; unfold enc_tag, enc_body; rewrite <- !app_assoc; eauto. Qed.

(** [off] is where the memory-map tag with the entries [rs] starts. *)
Definition mmap_at (info : list Z) (off : Z) (rs : list region) : Prop :=
  exists p q, info = p ++ enc_tag (Mmap rs) ++ q /\ Z.of_nat (length p) = off.
Definition acc_at (info : list Z) (off : option Z) (acc : option (list region)) : Prop :=
  match acc with None => off = None | Some rs => exists o, off = Some o /\ mmap_at info o rs end.

Lemma get32_at off p q v : Z.of_nat (length p) = off -> in_w 32 v -> get32 off (p ++ le_enc 4 v ++ q) = Some v.
Proof. intros. apply (get_le_at 4); [done|lia|done]. Qed.
Lemma get64_at off p q v : Z.of_nat (length p) = off -> in_w 64 v -> get64 off (p ++ le_enc 8 v ++ q) = Some v.
Proof. intros. apply (get_le_at 8); [done|lia|done]. Qed.

Lemma tag_walk_spec ts : Forall tag_ok ts -> forall fuel info p q acc off size,
  info = p ++ concat (enc_tag <$> ts) ++ end_tag ++ q ->
  size = Z.of_nat (length (p ++ concat (enc_tag <$> ts) ++ end_tag)) ->
  (length ts < fuel)%nat -> acc_at info off acc ->
  exists r, tag_walk fuel info size (Z.of_nat (length p)) off = Some r /\ acc_at info r (last_mmap acc ts).
Proof.
  induction 1 as [|t ts [Hsz Hok] Hts IH]; intros [|fuel] info p q acc off size Hinf Hsize Hfuel Hacc;
    simpl in Hfuel; [lia| |lia|].
  - exists off. split; [|done]. cbn [tag_walk]. rewrite Hsize, !length_app.
    rewrite (proj2 (Z.leb_le _ _)) by (simpl; lia). rewrite Hinf. unfold end_tag.
    change (concat (enc_tag <$> [])) with (@nil Z). rewrite app_nil_l, <- app_assoc.
    rewrite (get32_at (Z.of_nat (length p)) p); [reflexivity|done|unfold in_w; lia].
  - pose proof (tag_size_pos t). destruct (enc_tag_head t) as [rest Hhead].
    assert (Hi : info = p ++ le_enc 4 (tag_type t) ++ le_enc 4 (tag_size t) ++ (rest ++ concat (enc_tag <$> ts) ++ end_tag ++ q)).
    { rewrite Hinf, fmap_cons. cbn [concat]. rewrite Hhead, <- !app_assoc. done. }
    assert (Hty : 0 < tag_type t < 2 ^ 32) by (destruct t; simpl; [unfold MB2_TAG_TYPE_MMAP; lia|apply Hok]).
    pose proof (tag_span_bounds t). pose proof (enc_tag_length t).
    cbn [tag_walk]. rewrite Hsize, fmap_cons, !length_app. cbn [concat]. rewrite !length_app.
    rewrite (proj2 (Z.leb_le _ _)) by lia.
    assert (get32 (Z.of_nat (length p)) info = Some (tag_type t)) as ->
      by (rewrite Hi; apply get32_at; done || unfold in_w; lia).
    assert (get32 (Z.of_nat (length p) + 4) info = Some (tag_size t)) as ->
      by (rewrite Hi, app_assoc; apply get32_at; rewrite ?length_app, ?le_enc_length; unfold in_w; lia).
    cbn [mbind option_bind]. rewrite (proj2 (Z.eqb_neq (tag_type t) 0)) by lia. rewrite mb2_align8_val by lia. fold (tag_span t).
    assert (Hinfo : info = (p ++ enc_tag t) ++ concat (enc_tag <$> ts) ++ end_tag ++ q).
    { rewrite Hinf, fmap_cons. cbn [concat]. rewrite <- !app_assoc. done. }
    replace (Z.of_nat (length p) + tag_span t) with (Z.of_nat (length (p ++ enc_tag t))) by (rewrite length_app; lia).
    specialize (IH fuel info (p ++ enc_tag t) q).
    assert (Hm : last_mmap acc (t :: ts) = last_mmap (match t with Mmap rs => Some rs | _ => acc end) ts)
      by (by destruct t).
    rewrite Hm. apply IH; [done|rewrite !length_app; lia|lia|].
    destruct t as [rs|ty pl]; simpl tag_type.
    + simpl. eexists. split; [done|]. exists p, (concat (enc_tag <$> ts) ++ end_tag ++ q). split; [|done].
      rewrite Hinfo, <- !app_assoc. done.
    + rewrite (proj2 (Z.eqb_neq ty _)) by apply Hok. done.
Qed.

(** Frame [g] lies wholly inside the available region [r]. *)
Definition covers (g : Z) (r : region) : Prop :=
  r_type r = MB2_MMAP_AVAILABLE /\ r_base r <= g * PAGE_SIZE /\ (g + 1) * PAGE_SIZE <= r_base r + r_len r.
#[global] Instance covers_dec g r : Decision (covers g r).
Proof. unfold covers. apply _. Defined.
(** End of the highest available region. *)
Definition highest (h : Z) (rs : list region) : Z :=
  foldl (fun h r => if r_type r =? MB2_MMAP_AVAILABLE then Z.max (r_base r + r_len r) h else h) h rs.

Lemma frame_up_le a g : frame_up a <= g <-> a <= g * PAGE_SIZE.
Proof.
  unfold frame_up. pose proof (Z.div_mod (a + PAGE_SIZE - 1) PAGE_SIZE ltac:(done)).
  pose proof (Z.mod_pos_bound (a + PAGE_SIZE - 1) PAGE_SIZE ltac:(done)). unfold PAGE_SIZE in *. lia.
Qed.
Lemma frame_down_gt a g : g < frame_down a <-> (g + 1) * PAGE_SIZE <= a.
Proof.
  unfold frame_down. pose proof (Z.div_mod a PAGE_SIZE ltac:(done)).
  pose proof (Z.mod_pos_bound a PAGE_SIZE ltac:(done)). unfold PAGE_SIZE in *. lia.
Qed.

(** The frames that parsing the regions [rs] frees. *)
Definition frees (rs : list region) (s s' : pmm) : Prop :=
  (forall g, frame_ok g -> used (g_bitmap s') g =
     if decide (Exists (covers g) rs) then false else used (g_bitmap s) g) /\
  g_total_frames s' = g_total_frames s /\ g_initialized s' = g_initialized s.

Lemma frees_cons r rs s s' s'' :
  (forall g, frame_ok g -> used (g_bitmap s') g =
     if decide (covers g r) then false else used (g_bitmap s) g) ->
  g_total_frames s' = g_total_frames s -> g_initialized s' = g_initialized s ->
  frees rs s' s'' -> frees (r :: rs) s s''.
Proof.
  intros Hu Ht Hi (Hu'&?&?). split; [|split; congruence]. intros g Hg. rewrite Hu', Hu by done.
  repeat case_decide; try done; exfalso;
    match goal with H : ~ Exists _ (_ :: _) |- _ => apply H | H : Exists _ (_ :: _) |- _ => inversion H; subst end;
    try done; by constructor.
Qed.

Lemma region_free_spec s r : boot_inv s -> region_ok r -> r_type r = MB2_MMAP_AVAILABLE ->
  g_total_frames s = PMM_MAX_FRAMES ->
  exists s', mark_range_free (r_base r) (r_len r) s = Some (tt, s') /\ boot_inv s' /\
    (forall g, frame_ok g -> used (g_bitmap s') g =
       if decide (covers g r) then false else used (g_bitmap s) g) /\
    g_total_frames s' = PMM_MAX_FRAMES /\ g_initialized s' = g_initialized s.
Proof.
  intros Hb (H0&H1&H2&_) Hav Ht. destruct (mark_range_free_spec s (r_base r) (r_len r)) as (s'&Hr&Hb'&Hre&Ht'&Hi');
    [done..|]. exists s'. split; [done|]. split; [done|]. split; [|split; congruence].
  intros g Hg. rewrite Hre by done. unfold frame_ok in Hg.
  pose proof (frame_up_le (r_base r) g). pose proof (frame_down_gt (r_base r + r_len r) g).
  unfold covers. case_bool_decide; case_decide; try done; exfalso; naive_solver lia.
Qed.

Lemma entry_walk_spec rs : Forall region_ok rs -> forall fuel info p q h s,
  info = p ++ concat (enc_region <$> rs) ++ q -> (length rs < fuel)%nat -> 0 <= h < 2 ^ 64 ->
  boot_inv s -> g_total_frames s = PMM_MAX_FRAMES ->
  exists s', entry_walk fuel info 24 (Z.of_nat (length p) + 24 * Z.of_nat (length rs)) (Z.of_nat (length p)) h s
      = Some (highest h rs, s') /\ boot_inv s' /\ frees rs s s'.
Proof.
  induction 1 as [|r rs Hr Hrs IH]; intros [|fuel] info p q h s Hinf Hfuel Hh Hb Ht; simpl in Hfuel; [lia| |lia|].
  - exists s. split; [|split; [done|]]; [|split; [intros; rewrite decide_False by (by intros ?%Exists_nil); done|done]].
    cbn [entry_walk]. rewrite (proj2 (Z.leb_gt _ _)) by (simpl; lia). done.
  - assert (Hi : info = p ++ le_enc 8 (r_base r) ++ le_enc 8 (r_len r) ++ le_enc 4 (r_type r) ++
                        le_enc 4 0 ++ concat (enc_region <$> rs) ++ q).
    { rewrite Hinf, fmap_cons. cbn [concat]. unfold enc_region at 1. rewrite <- !app_assoc. done. }
    destruct Hr as (H0&H1&H2&Hty) eqn:E; clear E. unfold PAGE_SIZE in H2.
    assert (G1 : get64 (Z.of_nat (length p)) info = Some (r_base r))
      by (rewrite Hi; apply get64_at; done || unfold in_w; lia).
    assert (G2 : get64 (Z.of_nat (length p) + 8) info = Some (r_len r))
      by (rewrite Hi, app_assoc; apply get64_at; rewrite ?length_app, ?le_enc_length; unfold in_w; lia).
    assert (G3 : get32 (Z.of_nat (length p) + 16) info = Some (r_type r))
      by (rewrite Hi, 2!app_assoc; apply get32_at; rewrite ?length_app, ?le_enc_length; done || lia).
    cbn [entry_walk length]. rewrite (proj2 (Z.leb_le _ _)) by lia.
    unfold mbind_ at 1 2 3, mlift. rewrite G1, G2, G3.
    specialize (IH fuel info (p ++ enc_region r) q).
    rewrite length_app, enc_region_length, (Nat2Z.inj_add _ 24) in IH. change (Z.of_nat 24) with 24 in IH.
    replace (Z.of_nat (length p) + 24 * Z.of_nat (S (length rs)))
      with (Z.of_nat (length p) + 24 + 24 * Z.of_nat (length rs)) by lia.
    assert (Hinf' : info = (p ++ enc_region r) ++ concat (enc_region <$> rs) ++ q)
      by (rewrite Hinf, fmap_cons; cbn [concat]; rewrite <- !app_assoc; done).
    unfold highest. cbn [foldl]. fold (highest (if r_type r =? MB2_MMAP_AVAILABLE then Z.max (r_base r + r_len r) h else h) rs).
    destruct (Z.eqb_spec (r_type r) MB2_MMAP_AVAILABLE) as [Eav|Eav].
    + destruct (region_free_spec s r) as (s1&Hrun&Hb1&Hu1&Ht1&Hi1); [done..|].
      unfold mbind_ at 1 2. rewrite Hrun. unfold mret at 1. unwrap. rewrite wrap_small by (unfold in_w; lia).
      destruct (IH (Z.max (r_base r + r_len r) h) s1) as (s'&Hw&Hb'&Hfr); [done|lia|lia|done|done|].
      exists s'. split; [done|]. split; [done|]. eapply frees_cons; [done|congruence|done|done].
    + unfold mbind_ at 1, mret at 1. destruct (IH h s) as (s'&Hw&Hb'&Hfr); [done|lia|lia|done|done|].
      exists s'. split; [done|]. split; [done|]. eapply frees_cons; [|done..].
      intros g Hg. rewrite decide_False; [done|]. by intros [? _].
Qed.

Lemma highest_ge rs : Forall region_ok rs -> forall h, 0 <= h <= 2 ^ 64 - PAGE_SIZE ->
  h <= highest h rs <= 2 ^ 64 - PAGE_SIZE.
Proof.
  induction 1 as [|r rs Hr Hrs IH]; intros h Hh; [simpl; lia|].
  unfold highest. cbn [foldl]. destruct Hr as (?&?&?&_).
  specialize (IH (if r_type r =? MB2_MMAP_AVAILABLE then Z.max (r_base r + r_len r) h else h)).
  unfold highest in IH. destruct (r_type r =? MB2_MMAP_AVAILABLE); lia.
Qed.
Lemma highest_covers rs g : Forall region_ok rs -> Exists (covers g) rs -> forall h, 0 <= h <= 2 ^ 64 - PAGE_SIZE ->
  (g + 1) * PAGE_SIZE <= highest h rs.
Proof.
  induction 1 as [|r rs Hr Hrs IH]; intros [Hc|Hc]%Exists_cons || intros Hc%Exists_nil; try done;
    intros h Hh; unfold highest; cbn [foldl].
  - destruct Hc as (Hty&_&Hc), Hr as (?&?&?&_). rewrite Hty, Z.eqb_refl.
    pose proof (highest_ge rs Hrs (Z.max (r_base r + r_len r) h)) as Hg. unfold highest in Hg. lia.
  - destruct Hr as (?&?&?&_). apply IH; [done|]. case_match; lia.
Qed.

Lemma region_ok_fallback : Forall region_ok [Region 0x100000 0x300000 MB2_MMAP_AVAILABLE].
Proof. repeat constructor; simpl; unfold MB2_MMAP_AVAILABLE, PAGE_SIZE; lia. Qed.

Lemma last_mmap_ok ts acc rs : Forall tag_ok ts -> (forall rs, acc = Some rs -> tag_ok (Mmap rs)) ->
  last_mmap acc ts = Some rs -> tag_ok (Mmap rs).
Proof.
  intros Hts. revert acc. induction Hts as [|[rs'|ty p] ts Ht Hts IH]; intros acc Hacc Hl; simpl in Hl; [auto| |].
  - eapply IH; [|done]. intros ? [= <-]. done.
  - by eapply IH.
Qed.
Lemma regions_of_ok ts : Forall tag_ok ts -> Forall region_ok (regions_of ts).
Proof.
  intros Hts. unfold regions_of. destruct (last_mmap None ts) eqn:E; [|apply region_ok_fallback].
  eapply last_mmap_ok in E as [_ ?]; done.
Qed.

Lemma length_tags_le ts : (length ts <= length (concat (enc_tag <$> ts)))%nat.
Proof.
  induction ts as [|t ts IH]; [done|]. rewrite fmap_cons. cbn [concat length]. rewrite length_app.
  pose proof (enc_tag_length t). pose proof (tag_span_bounds t). lia.
Qed.

(** Fields of a memory-map tag. *)
Lemma mmap_fields info off rs : mmap_at info off rs -> tag_ok (Mmap rs) ->
  get32 (off + 4) info = Some (tag_size (Mmap rs)) /\ get32 (off + 8) info = Some 24 /\
  exists p q, info = p ++ concat (enc_region <$> rs) ++ q /\ Z.of_nat (length p) = off + 16.
Proof.
  intros (p&q&->&Hp) [Hsz _]. pose proof (tag_size_pos (Mmap rs)). unfold enc_tag, enc_body. rewrite <- !app_assoc. repeat split.
  - rewrite app_assoc. apply get32_at; [rewrite length_app, le_enc_length; lia|unfold in_w; lia].
  - rewrite 2!app_assoc. apply get32_at; [rewrite !length_app, !le_enc_length; lia|unfold in_w; lia].
  - rewrite 4!app_assoc. eexists _, _. split; [done|]. rewrite !length_app, !le_enc_length. lia.
Qed.

Lemma parse_mmap_spec s ts : info_ok ts -> boot_inv s -> g_total_frames s = PMM_MAX_FRAMES ->
  exists s1 s', parse_mmap (enc_info ts) s = Some (tt, s') /\ boot_inv s1 /\ frees (regions_of ts) s s1 /\
    s' = set_total (Z.min (frame_up (highest 0 (regions_of ts))) PMM_MAX_FRAMES) s1.
Proof.
  intros [Hts Hlen] Hb Ht. pose proof (regions_of_ok ts Hts) as Hrok.
  unfold parse_mmap. set (info := enc_info ts) in *.
  set (p := le_enc 4 (Z.of_nat (length info)) ++ le_enc 4 0).
  assert (Hinfo : info = p ++ concat (enc_tag <$> ts) ++ end_tag ++ []).
  { unfold info, p, enc_info. rewrite app_nil_r, <- app_assoc. do 2 f_equal.
    unfold info, enc_info. rewrite !length_app, !le_enc_length. lia. }
  assert (G0 : get32 0 info = Some (Z.of_nat (length info))).
  { rewrite Hinfo at 1. unfold p. rewrite <- app_assoc. apply (get32_at 0 []); [done|unfold in_w; lia]. }
  unfold mbind_ at 1, mlift at 1. rewrite G0.
  destruct (tag_walk_spec ts Hts (S (Z.to_nat (Z.of_nat (length info)))) info p [] None None
    (Z.of_nat (length info))) as (r&Hw&Hacc).
  { done. } { rewrite Hinfo at 1. by rewrite app_nil_r. }
  { rewrite Nat2Z.id, Hinfo, !length_app. pose proof (length_tags_le ts). lia. } { done. }
  change (Z.of_nat (length p)) with 8 in Hw. unfold mbind_ at 1, mlift at 1. rewrite Hw.
  unfold regions_of in *. destruct (last_mmap None ts) as [rs|] eqn:Hl; simpl in Hacc.
  - destruct Hacc as (off&->&Hat).
    pose proof (last_mmap_ok ts None rs Hts ltac:(done) Hl) as Htok.
    destruct (mmap_fields info off rs Hat Htok) as (G1&G2&p'&q'&Hi&Hp').
    unfold mbind_ at 1 2, mlift. rewrite G1, G2.
    destruct (entry_walk_spec rs Hrok (S (Z.to_nat (tag_size (Mmap rs)))) info p' q' 0 s)
      as (s1&Hrun&Hb1&Hfr); [done|cbn [tag_size]; lia|lia|done|done|].
    replace (off + tag_size (Mmap rs)) with (Z.of_nat (length p') + 24 * Z.of_nat (length rs)) by (cbn [tag_size]; lia).
    rewrite <- Hp'. mstep Hrun. pose proof (highest_ge rs Hrok 0 ltac:(done)).
    exists s1. eexists. split; [reflexivity|]. split; [done|]. split; [done|].
    rewrite shiftr_page. unwrap. rewrite wrap_small by (unfold in_w, PAGE_SIZE in *; lia). done.
  - subst r. destruct (region_free_spec s (Region 0x100000 0x300000 MB2_MMAP_AVAILABLE)) as (s1&Hrun&Hb1&Hu1&Ht1&Hi1);
      [done|by inversion Hrok|done|done|].
    mstep Hrun. exists s1. eexists. split; [reflexivity|]. split; [done|]. split; [|done].
    eapply frees_cons; [done|congruence|done|]. split; [|done].
    intros g _. rewrite decide_False by (by intros ?%Exists_nil). done.
Qed.

(** The counters agree once no frame beyond the managed memory is free. *)
Lemma count_free_top bm n m : 0 <= n <= m -> (forall f, n <= f < m -> used bm f = true) ->
  count_free bm m = count_free bm n.
Proof.
  intros Hn Htop. unfold count_free. replace m with (n + (m - n)) by lia.
  rewrite seqZ_app, filter_app, length_app by lia.
  rewrite (filter_none _ (seqZ (0 + n) _)); [simpl; lia|].
  intros f Hf%elem_of_seqZ. rewrite Htop by lia. done.
Qed.

Lemma boot_to_inv s : boot_inv s -> used (g_bitmap s) 0 = true ->
  (forall f, g_total_frames s <= f < PMM_MAX_FRAMES -> used (g_bitmap s) f = true) -> pmm_inv s.
Proof.
  intros [Hwf Ht Hf] H0 Htop. split; try done. rewrite Hf. by apply count_free_top.
Qed.

Lemma all_used_used n f : used (replicate n UINT64_MAX) f = true.
Proof.
  unfold used. destruct (zget _ _) as [w|] eqn:E; [|done].
  apply zget_Some in E as [_ [-> _]%lookup_replicate].
  change UINT64_MAX with (Z.ones 64). pose proof (mod64 f). rewrite Z.ones_spec_low by lia. done.
Qed.
Lemma boot_start i : boot_inv (Pmm (replicate (Z.to_nat PMM_BITMAP_WORDS) UINT64_MAX) PMM_MAX_FRAMES 0 0 i).
Proof.
  split; cbn [g_bitmap g_total_frames g_free_frames].
  - split; [rewrite length_replicate; rewrite PMM_BITMAP_WORDS_val; lia|].
    apply Forall_replicate. unfold in_w, UINT64_MAX. lia.
  - rewrite PMM_MAX_FRAMES_val. lia.
  - unfold count_free. rewrite filter_none; [done|]. intros f _. by rewrite all_used_used.
Qed.

Definition layout_ok (ly : layout) : Prop :=
  0 <= ks ly < ke ly /\ ke ly <= 2 ^ 64 - PAGE_SIZE /\
  0 <= bmap_start ly /\ bmap_start ly + PMM_BITMAP_WORDS * 8 <= 2 ^ 64 - PAGE_SIZE.

(** The frames that touch the byte range [a, b). *)
Definition touches (a b g : Z) : Prop := frame_down a <= g < frame_up b.
#[global] Instance touches_dec a b g : Decision (touches a b g).
Proof. unfold touches. apply _. Defined.

(** Free after [pmm_init]: inside an available region and not reserved. *)
Definition boot_free (ly : layout) (rs : list region) (g : Z) : Prop :=
  Exists (covers g) rs /\ g <> 0 /\ ~ touches (ks ly) (ke ly) g /\
  ~ touches (bmap_start ly) (bmap_start ly + PMM_BITMAP_WORDS * 8) g.

(** Steps 3 to 5: frame 0, the kernel image and the bitmap are reserved again. *)
Lemma reserve_spec ly s : layout_ok ly -> boot_inv s ->
  exists s', (u <~ is_used 0 ;;
     mwhen (negb u) (set_used 0 ;;; decr_free ;;; incr_reserved) ;;;
     mark_range_used (ks ly) (u64 (ke ly - ks ly)) ;;;
     mark_range_used (bmap_start ly) (PMM_BITMAP_WORDS * 8) ;;;
     mmodify (set_initialized true)) s = Some (tt, s') /\ boot_inv s' /\
    g_total_frames s' = g_total_frames s /\ g_initialized s' = true /\
    forall g, frame_ok g -> g < g_total_frames s \/ used (g_bitmap s) g = true ->
      used (g_bitmap s') g = false <-> used (g_bitmap s) g = false /\ g <> 0 /\
      ~ touches (ks ly) (ke ly) g /\ ~ touches (bmap_start ly) (bmap_start ly + PMM_BITMAP_WORDS * 8) g.
Proof.
  intros (Hk&Hke&Hb&Hbe) Hs. rewrite PMM_BITMAP_WORDS_val in *.
  destruct (reserve_step s 0 Hs) as (s1&Hr1&Hs1&Hu1&Ht1&_).
  { unfold frame_ok. rewrite PMM_MAX_FRAMES_val. lia. }
  apply mbind_inv in Hr1 as (u&s0&Hr0&Hr1). mstep Hr0. mstep Hr1.
  assert (u64 (ke ly - ks ly) = ke ly - ks ly) as ->
    by (unwrap; apply wrap_small; unfold in_w, PAGE_SIZE in *; lia).
  destruct (mark_range_used_spec s1 (ks ly) (ke ly - ks ly) Hs1) as (s2&Hr2&Hs2&Hu2&Ht2&_); [lia..|].
  mstep Hr2. replace (ks ly + (ke ly - ks ly)) with (ke ly) in Hu2 by lia.
  destruct (mark_range_used_spec s2 (bmap_start ly) (16384 * 8) Hs2) as (s3&Hr3&Hs3&Hu3&Ht3&_); [lia..|].
  mstep Hr3. eexists. split; [reflexivity|]. split; [by destruct Hs3|]. split; [simpl; congruence|].
  split; [done|]. intros g Hg Hlt. cbn [g_bitmap set_initialized]. rewrite Hu3, Hu2, Hu1 by done.
  rewrite Ht2, Ht1. unfold touches. clear -Hg Hlt. unfold frame_ok in Hg.
  repeat case_bool_decide; try (split; [done|]); try (intros (Hu&?&?&?)); try lia;
    destruct Hlt as [?|Hlt]; try lia; try (rewrite Hlt in *); try naive_solver lia.
Qed.

Lemma init_spec ly phys ts s : info_ok ts -> layout_ok ly -> phys <> 0 ->
  exists s', pmm_init ly phys (enc_info ts) s = Some (tt, s') /\ pmm_inv s' /\ g_initialized s' = true /\
    g_total_frames s' = Z.min (frame_up (highest 0 (regions_of ts))) PMM_MAX_FRAMES /\
    forall g, frame_ok g -> used (g_bitmap s') g = false <-> boot_free ly (regions_of ts) g.
Proof.
  intros Hts Hly Hp. unfold pmm_init. unfold mbind_ at 1, mmodify at 1.
  rewrite (proj2 (Z.eqb_neq phys 0)) by done.
  set (s0 := Pmm (replicate _ _) _ _ _ _). pose proof (boot_start (g_initialized s)) as Hs0.
  change (Pmm (replicate _ _) _ _ _ _) with s0 in Hs0.
  destruct (parse_mmap_spec s0 ts Hts Hs0 eq_refl) as (s1&s2&Hr&Hs1&(Hu1&Ht1&_)&Hs2). mstep Hr.
  pose proof (regions_of_ok ts (proj1 Hts)) as Hrok. set (rs := regions_of ts) in *.
  pose proof (highest_ge rs Hrok 0 ltac:(done)) as Hh.
  assert (Hpos : 0 <= frame_up (highest 0 rs)) by (apply Z.div_pos; unfold PAGE_SIZE in *; lia).
  assert (Hb2 : boot_inv s2).
  { subst s2. destruct Hs1 as [Hwf _ Hf]. split; [done| |done]. simpl.
    rewrite PMM_MAX_FRAMES_val. lia. }
  assert (Hu2 : forall g, frame_ok g -> used (g_bitmap s2) g = negb (bool_decide (Exists (covers g) rs))).
  { intros g Hg. subst s2. simpl. rewrite Hu1 by done. unfold s0; cbn [g_bitmap]. rewrite all_used_used.
    case_decide; case_bool_decide; done. }
  assert (Htop : forall g, frame_ok g -> g < g_total_frames s2 \/ used (g_bitmap s2) g = true).
  { intros g Hg. rewrite Hu2 by done. case_bool_decide as Hex; [left|by right].
    pose proof (highest_covers rs g Hrok Hex 0 ltac:(done)) as Hc. unfold frame_ok in Hg. subst s2. simpl.
    pose proof (frame_up_le (highest 0 rs) g). unfold PAGE_SIZE in *. lia. }
  destruct (reserve_spec ly s2 Hly Hb2) as (s'&Hrun&Hb'&Ht'&Hi'&Hu').
  exists s'. split; [exact Hrun|]. assert (Hiff : forall g, frame_ok g ->
    used (g_bitmap s') g = false <-> boot_free ly rs g).
  { intros g Hg. rewrite (Hu' g Hg (Htop g Hg)), Hu2 by done. unfold boot_free.
    rewrite negb_false_iff, bool_decide_eq_true. done. }
  split; [|split; [done|split; [by rewrite Ht'; subst s2|done]]].
  apply boot_to_inv; [done| |].
  - apply not_false_is_true. rewrite Hiff; [intros (_&?&_); done|].
    unfold frame_ok. rewrite PMM_MAX_FRAMES_val. lia.
  - intros f Hf. assert (frame_ok f) as Hfok by (pose proof (bi_total s' Hb'); unfold frame_ok; lia).
    apply not_false_is_true. rewrite (Hu' f Hfok (Htop f Hfok)). intros (Hf2&_).
    destruct (Htop f Hfok) as [?|E]; [lia|congruence].
Qed.

(** * Properties *)

(** C5: [pmm_init] on any well-formed Multiboot2 structure (tags in any order, the
    memory map possibly absent) terminates without a fault and establishes the
    invariant; afterwards a frame is free exactly when it lies wholly inside an
    available region and is neither frame 0 nor touched by the kernel image or the
    bitmap. *)
Theorem pmm_init_exact ly phys ts s :
  info_ok ts -> layout_ok ly -> phys <> 0 ->
  exists s', pmm_init ly phys (enc_info ts) s = Some (tt, s') /\ pmm_inv s' /\
    g_total_frames s' = Z.min (frame_up (highest 0 (regions_of ts))) PMM_MAX_FRAMES /\
    forall g, frame_ok g -> used (g_bitmap s') g = false <-> boot_free ly (regions_of ts) g.
Proof.
  intros H1 H2 H3. destruct (init_spec ly phys ts s H1 H2 H3) as (s'&?&?&_&?&?). eauto.
Qed.

(** An allocation of [count] frames returns the lowest run of [count] free frames
    above frame 0, marks exactly those frames, and fails (0, state unchanged) only
    when no such run exists; the invariant is kept. *)
Theorem pmm_alloc_frames_first_fit s count :
  pmm_inv s -> g_initialized s = true -> 1 <= count ->
  exists r s', pmm_alloc_frames count s = Some (r, s') /\ alloc_post count s r s' /\ pmm_inv s'.
Proof. apply alloc_frames_spec. Qed.

(** C4: however clients allocate runs and return frames they hold, an allocation
    never hands out a frame that is held, frame 0, or a frame beyond memory. *)
Theorem pmm_exclusive_ownership s0 s held count r s' :
  pmm_inv s0 -> g_initialized s0 = true -> rtc client_step (s0, ∅) (s, held) ->
  1 <= count -> pmm_alloc_frames count s = Some (r, s') -> r <> 0 ->
  frames (r / PAGE_SIZE) count ## held /\ r mod PAGE_SIZE = 0 /\
  forall f, f ∈ frames (r / PAGE_SIZE) count -> 0 < f < g_total_frames s.
Proof.
  intros H0 Hi Hr Hc Hrun Hr0.
  destruct (client_reach_inv _ _ Hr) as (Hinv&Hinit&Hheld); [split; [done|split; [done|set_solver]]|].
  destruct (alloc_frames_spec s count Hinv Hinit Hc) as (r1&s1&E&Hpost&_).
  rewrite Hrun in E. injection E as <- <-.
  destruct Hpost as [(?&_)|(a&->&(?&?&Hfree)&_&_)]; [done|].
  rewrite Z_div_mult, Z_mod_mult by done. split; [|split; [done|]].
  - intros f Hf%elem_of_frames Hh. destruct (Hheld f Hh) as [_ Hu]. simpl in Hu.
    rewrite Hfree in Hu; [done|lia].
  - intros f Hf%elem_of_frames. lia.
Qed.

(** [pmm_free_frame] tells every case apart: a misaligned address, frame 0 or a
    frame beyond memory is PMM_ERR_INVALID, a free frame PMM_ERR_ALREADY_FREE, both
    without effect; otherwise it frees the frame, and it undoes an allocation of one
    frame exactly. *)
Theorem pmm_free_frame_cases s addr :
  pmm_inv s -> g_initialized s = true -> 0 <= addr ->
  pmm_free_frame addr s = Some
    match frame_of s addr with
    | None => (PMM_ERR_INVALID, s)
    | Some f => if used (g_bitmap s) f then (PMM_OK, give_frame f s) else (PMM_ERR_ALREADY_FREE, s)
    end /\
  forall r s1, pmm_alloc_frame s = Some (r, s1) -> r <> 0 -> pmm_free_frame r s1 = Some (PMM_OK, s).
Proof.
  intros Hinv Hi Ha. split; [by apply free_frame_spec|]. intros r s1 Hrun Hr.
  destruct (alloc_frame_spec s Hinv Hi) as (r'&s'&E&Hpost&Hinv').
  rewrite Hrun in E. injection E as <- <-. pose proof (pi_total s Hinv).
  destruct Hpost as [(?&_)|(f&->&(?&?&Hrn)&_&Hcl)]; [done|]. destruct Hcl as [Hu Hf Ht Hre Hin].
  assert (s1 = take_frame f s) as ->.
  { pose proof (pi_wf s1 Hinv'). pose proof (mark_wf true f _ (pi_wf s Hinv)).
    assert (g_bitmap s1 = mark true f (g_bitmap s)) as Hbm.
    { apply used_ext; [done..|]. intros g Hg. rewrite Hu, used_mark by (apply Hinv || done || unfold frame_ok; lia).
      case_bool_decide; case_decide; done || lia. }
    destruct s1 as [b1 t1 f1 r1 i1], s; simpl in *. unfold take_frame, set_freec, set_bitmap; simpl. congruence. }
  rewrite free_frame_spec by (done || unfold PAGE_SIZE; lia). rewrite frame_of_held by (simpl; lia).
  cbn [take_frame set_freec set_bitmap g_bitmap]. rewrite used_mark, decide_True by (apply Hinv || done || unfold frame_ok; lia).
  rewrite give_take; [done|done|unfold frame_ok; lia|]. apply Hrn. lia.
Qed.

(** The overflow guard of the reserving loop defeats itself: for a range whose end
    wraps, the end is clamped to UINT64_MAX, rounding it up wraps to frame 0, and
    nothing is reserved, whatever the state. *)
Theorem mark_range_used_wrap_noop s base len :
  0 <= base < 2 ^ 64 -> 0 < len < 2 ^ 64 -> 2 ^ 64 <= base + len ->
  mark_range_used base len s = Some (tt, s).
Proof.
  intros Hb Hl Hw. unfold mark_range_used. rewrite (proj2 (Z.eqb_neq len 0)) by lia.
  assert (range_end base len = UINT64_MAX) as ->.
  { unfold range_end. unwrap. unfold wrap.
    replace (base + len) with (base + len - 2 ^ 64 + 1 * 2 ^ 64) by lia.
    rewrite Z_mod_plus_full, Z.mod_small by lia. rewrite (proj2 (Z.ltb_lt _ _)) by lia. done. }
  unfold mbind_, mget. change (u64 (UINT64_MAX + PAGE_SIZE - 1)) with (PAGE_SIZE - 2).
  change (Z.shiftr (PAGE_SIZE - 2) PAGE_SHIFT) with 0. rewrite !shiftr_page.
  pose proof (Z.div_pos base PAGE_SIZE ltac:(lia) ltac:(done)).
  rewrite (proj2 (Z.leb_le _ _)) by lia. done.
Qed.

(** ** Witnesses *)

(** Eight frames, 0 and 3 used. *)
Definition small_pmm : pmm :=
  Pmm (UINT64_MAX - 0xF6 :: replicate 16383 UINT64_MAX) 8 6 0 true.

(** A memory of at most 64 frames: the first bitmap word decides. *)
Lemma word_pmm_inv w n k : in_w 64 w -> 0 <= n <= 64 -> Z.testbit w 0 = true -> (forall i, n <= i < 64 -> Z.testbit w i = true) ->
  k = count_free (w :: replicate 16383 UINT64_MAX) n -> pmm_inv (Pmm (w :: replicate 16383 UINT64_MAX) n k 0 true).
Proof.
  intros Hw Hn H0 Hi ->. split; cbn [g_bitmap g_total_frames g_free_frames].
  - split; [done|]. constructor; [done|]. by apply Forall_replicate.
  - rewrite PMM_MAX_FRAMES_val. lia.
  - done.
  - done.
  - intros f Hf. unfold used, word_idx, PMM_BITS_PER_WORD, zget. pose proof (mod64 f).
    assert (0 <= f / 64) by (apply Z.div_pos; lia). rewrite (proj2 (Z.leb_le _ _)) by lia.
    destruct (Z.to_nat (f / 64)) as [|j] eqn:En; cbn [lookup list_lookup].
    + assert (f / 64 = 0) by lia. pose proof (Z.div_mod f 64). apply Hi. lia.
    + destruct (replicate 16383 UINT64_MAX !! j) as [x|] eqn:E; [|done].
      apply lookup_replicate in E as [-> _]. change UINT64_MAX with (Z.ones 64). rewrite Z.ones_spec_low by lia. done.
Qed.
Lemma small_pmm_inv : pmm_inv small_pmm.
Proof.
  apply word_pmm_inv; [done|lia|done| |by vm_compute]. intros i Hi.
  assert (Forall (fun f => Z.testbit (UINT64_MAX - 0xF6) f = true) (seqZ 8 56)) as Hall by (apply (bool_decide_eq_true_1 _); by vm_compute).
  rewrite Forall_forall in Hall. apply Hall, elem_of_seqZ. lia.
Qed.

Definition small_map : list mb2_tag :=
  [Other 1 [104; 105; 0]; Mmap [Region 0x800 0x9800 1; Region 0xa000 0x1000 2; Region 0xb000 0x2000 1]].
Definition small_layout : layout := Layout 0x3000 0x5800 0x100000.

Lemma pmm_init_exact_witness :
  exists s', pmm_init small_layout 1 (enc_info small_map) small_pmm = Some (tt, s') /\ pmm_inv s' /\
    g_total_frames s' = 13 /\
    forall g, frame_ok g -> used (g_bitmap s') g = false <-> boot_free small_layout (regions_of small_map) g.
Proof.
  apply (pmm_init_exact small_layout 1 small_map small_pmm).
  - split; [|vm_compute; done]. repeat constructor; vm_compute; done.
  - repeat split; vm_compute; done.
  - done.
Defined.

Lemma pmm_alloc_frames_first_fit_witness :
  exists r s', pmm_alloc_frames 3 small_pmm = Some (r, s') /\ alloc_post 3 small_pmm r s' /\ pmm_inv s'.
Proof. apply (pmm_alloc_frames_first_fit small_pmm 3); [apply small_pmm_inv|reflexivity|lia]. Defined.

(** The state after allocating two frames from [small_pmm] (frames 1 and 2). *)
Definition small_pmm2 : pmm :=
  Pmm (UINT64_MAX - 0xF0 :: replicate 16383 UINT64_MAX) 8 4 0 true.

Lemma pmm_exclusive_ownership_witness :
  frames 4 3 ## ∅ ∪ frames 1 2 /\ 0x4000 mod PAGE_SIZE = 0 /\
  forall f, f ∈ frames 4 3 -> 0 < f < 8.
Proof.
  apply (pmm_exclusive_ownership small_pmm small_pmm2 (∅ ∪ frames (0x1000 / PAGE_SIZE) 2) 3 0x4000
           (Pmm (UINT64_MAX - 0x80 :: replicate 16383 UINT64_MAX) 8 1 0 true)).
  - apply small_pmm_inv.
  - reflexivity.
  - apply rtc_once. apply (client_alloc small_pmm ∅ 2 0x1000 small_pmm2); [lia|vm_compute; reflexivity|lia].
  - lia.
  - vm_compute. reflexivity.
  - lia.
Defined.

Lemma pmm_free_frame_cases_witness :
  pmm_free_frame 0x3000 small_pmm = Some (PMM_OK, give_frame 3 small_pmm) /\
  forall r s1, pmm_alloc_frame small_pmm = Some (r, s1) -> r <> 0 ->
    pmm_free_frame r s1 = Some (PMM_OK, small_pmm).
Proof. apply (pmm_free_frame_cases small_pmm 0x3000); [apply small_pmm_inv|reflexivity|lia]. Defined.

Lemma mark_range_used_wrap_noop_witness :
  mark_range_used 0x3000 (2 ^ 64 - 0x1000) small_pmm = Some (tt, small_pmm).
Proof. apply (mark_range_used_wrap_noop small_pmm 0x3000 (2 ^ 64 - 0x1000)); lia. Defined.
