(* ===== verification/Buddy.v ===== *)
(** * Buddy layer for contiguous frames (src/kernel/pmm_buddy.c, pmm_buddy.h)

    Free blocks of 2^k frames, k < [PMM_BUDDY_MAX_ORDER], on one list per order, on
    top of the bitmap allocator of Pmm.v.  A list of [buddy_node_t] is the list of
    its addresses, head first; the static pool of nodes is the number of nodes left
    in it, since a node carries nothing but its address.  [kernel_panic] does not
    return: it is a fault, like an index outside [g_free_lists].  The lock and the
    serial log are left out. *)

From stdpp Require Import base numbers gmap list options.
From S2P Require Import Prelude Pmm.

(** ** Data *)

Definition PMM_BUDDY_MAX_ORDER : Z := 11.
Definition PMM_BUDDY_MAX_PAGES : Z := Z.shiftl 1 PMM_BUDDY_MAX_ORDER.
Definition BUDDY_NODE_POOL_MAX : Z := 16384.

Record buddy := Buddy {
  g_pool_free : Z;                   (** nodes left in the pool *)
  g_free_lists : list (list Z);
  bd_total_frames : Z;               (** this file's own [g_total_frames] *)
  g_buddy_initialized : bool;
  bd_pmm : pmm                       (** the bitmap allocator underneath *)
}.

Definition set_pool n b :=
  Buddy n (g_free_lists b) (bd_total_frames b) (g_buddy_initialized b) (bd_pmm b).
Definition set_lists l b :=
  Buddy (g_pool_free b) l (bd_total_frames b) (g_buddy_initialized b) (bd_pmm b).
Definition set_bd_total t b :=
  Buddy (g_pool_free b) (g_free_lists b) t (g_buddy_initialized b) (bd_pmm b).
Definition set_buddy_initialized i b :=
  Buddy (g_pool_free b) (g_free_lists b) (bd_total_frames b) i (bd_pmm b).
Definition set_pmm p b :=
  Buddy (g_pool_free b) (g_free_lists b) (bd_total_frames b) (g_buddy_initialized b) p.

(** A call into pmm.c. *)
Definition on_pmm {A} (m : M pmm A) : M buddy A :=
  fun b => match m (bd_pmm b) with Some (a, p) => Some (a, set_pmm p b) | None => None end.

(** ** Node pool and lists *)

Definition pool_init : M buddy unit := mmodify (set_pool BUDDY_NODE_POOL_MAX).
(** Whether a node was available. *)
Definition pool_alloc : M buddy bool :=
  b <~ mget ;;
  if g_pool_free b =? 0 then return false else mput (set_pool (g_pool_free b - 1) b) ;;; return true.
Definition pool_free : M buddy unit := mmodify (fun b => set_pool (g_pool_free b + 1) b).

(** The loop of [order_for_pages], at most [n] more orders. *)
Fixpoint order_loop (n : nat) (pages order block : Z) : Z :=
  match n with
  | O => order
  | S n' => if block <? pages then order_loop n' pages (order + 1) (Z.shiftl block 1) else order
  end.
Definition order_for_pages (pages : Z) : Z :=
  if pages <=? 1 then 0 else order_loop (Z.to_nat (PMM_BUDDY_MAX_ORDER - 1)) pages 0 1.

Definition push (order addr : Z) : M buddy unit :=
  got <~ pool_alloc ;;
  if negb got then mfault else
  b <~ mget ;; l <~ mlift (zget (g_free_lists b) order) ;;
  ls <~ mlift (zset (g_free_lists b) order (addr :: l)) ;; mput (set_lists ls b).

(** Removal of the first node with address [addr]. *)
Fixpoint remove_addr (addr : Z) (l : list Z) : option (list Z) :=
  match l with
  | [] => None
  | a :: l' => if a =? addr then Some l' else l'' ← remove_addr addr l'; Some (a :: l'')
  end.

Definition buddy_remove (order addr : Z) : M buddy bool :=
  b <~ mget ;; l <~ mlift (zget (g_free_lists b) order) ;;
  match remove_addr addr l with
  | Some l' =>
    ls <~ mlift (zset (g_free_lists b) order l') ;; mput (set_lists ls b) ;;; pool_free ;;; return true
  | None => return false
  end.

Definition pop (order : Z) : M buddy Z :=
  b <~ mget ;; l <~ mlift (zget (g_free_lists b) order) ;;
  match l with
  | [] => return 0
  | addr :: l' =>
    ls <~ mlift (zset (g_free_lists b) order l') ;; mput (set_lists ls b) ;;; pool_free ;;; return addr
  end.

Definition buddy_addr (addr order : Z) : Z := Z.lxor addr (u64 (Z.shiftl PAGE_SIZE order)).

(** ** Seeding the lists from the bitmap *)

(** [page_idx & ((1ULL << order) - 1)] *)
Definition off_boundary (page_idx order : Z) : bool :=
  negb (Z.land page_idx (Z.shiftl 1 order - 1) =? 0).

(** [while (order > 0 && misaligned) order--] *)
Fixpoint lower_aligned (n : nat) (page_idx order : Z) : Z :=
  match n with
  | O => order
  | S n' => if (0 <? order) && off_boundary page_idx order
            then lower_aligned n' page_idx (order - 1) else order
  end.
(** [while (block_pages > remaining && order > 0) order--] *)
Fixpoint lower_fit (n : nat) (remaining order : Z) : Z :=
  match n with
  | O => order
  | S n' => if (remaining <? Z.shiftl 1 order) && (0 <? order)
            then lower_fit n' remaining (order - 1) else order
  end.

(** Order of the next block of a run inside the loop over the bitmap ... *)
Definition seed_order (addr remaining : Z) : Z :=
  let order := order_for_pages (u32 remaining) in
  let page_idx := Z.shiftr addr PAGE_SHIFT in
  let order :=
    if off_boundary page_idx order then
      let order := u32 (order - 1) in
      let order := if PMM_BUDDY_MAX_ORDER <=? order then PMM_BUDDY_MAX_ORDER - 1 else order in
      if off_boundary page_idx order then lower_aligned (Z.to_nat order) page_idx order else order
    else order in
  if remaining <? Z.shiftl 1 order then lower_fit (Z.to_nat order) remaining order else order.
(** ... and of the run that reaches the end of memory. *)
Definition tail_order (addr remaining : Z) : Z :=
  let order := order_for_pages (u32 remaining) in
  let order := lower_aligned (Z.to_nat order) (Z.shiftr addr PAGE_SHIFT) order in
  lower_fit (Z.to_nat order) remaining order.

(** The loop that cuts a run into blocks; every block takes at least one frame, so
    [remaining] iterations suffice. *)
Fixpoint seed_run (next_order : Z -> Z -> Z) (n : nat) (addr remaining : Z) : M buddy unit :=
  match n with
  | O => if 0 <? remaining then mfault else return tt
  | S n' =>
    if 0 <? remaining then
      let order := next_order addr remaining in
      let block_pages := Z.shiftl 1 order in
      if (block_pages <=? remaining) && (block_pages <=? PMM_BUDDY_MAX_PAGES) then
        push order addr ;;;
        seed_run next_order n' (u64 (addr + block_pages * PAGE_SIZE)) (remaining - block_pages)
      else return tt
    else return tt
  end.

(** The loop over the frames, [n] to go; returns the run that is still open. *)
Fixpoint seed_scan (n : nat) (f run_start run_len : Z) : M buddy (Z * Z) :=
  match n with
  | O => return (run_start, run_len)
  | S n' =>
    st <~ on_pmm (pmm_is_free (u64 (Z.shiftl f PAGE_SHIFT))) ;;
    if st =? 1 then
      seed_scan n' (f + 1) (if run_len =? 0 then f else run_start) (run_len + 1)
    else
      mwhen (0 <? run_len)
        (seed_run seed_order (Z.to_nat run_len) (u64 (Z.shiftl run_start PAGE_SHIFT)) run_len) ;;;
      seed_scan n' (f + 1) run_start (if 0 <? run_len then 0 else run_len)
  end.

Definition pmm_buddy_init : M buddy unit :=
  pool_init ;;;
  mmodify (set_lists (replicate (Z.to_nat PMM_BUDDY_MAX_ORDER) [])) ;;;
  stats <~ on_pmm pmm_get_stats ;;
  mmodify (set_bd_total (total_frames stats)) ;;;
  ' (run_start, run_len) <~ seed_scan (Z.to_nat (total_frames stats)) 0 0 0 ;;
  mwhen (0 <? run_len)
    (seed_run tail_order (Z.to_nat run_len) (u64 (Z.shiftl run_start PAGE_SHIFT)) run_len) ;;;
  mmodify (set_buddy_initialized true).

(** ** Allocation and release *)

(** [for (o = alloc_order; o > order; o--) push(o - 1, buddy_addr(addr, o - 1))] *)
Fixpoint split_down (n : nat) (addr order o : Z) : M buddy unit :=
  match n with
  | O => return tt
  | S n' => push (o - 1) (buddy_addr addr (o - 1)) ;;; split_down n' addr order (o - 1)
  end.

(** The search from [alloc_order] on; [Some addr] when a block was taken. *)
Fixpoint find_block (n : nat) (order alloc_order : Z) : M buddy (option Z) :=
  match n with
  | O => return None
  | S n' =>
    addr <~ pop alloc_order ;;
    if negb (addr =? 0) then
      split_down (Z.to_nat (alloc_order - order)) addr order alloc_order ;;; return (Some addr)
    else find_block n' order (alloc_order + 1)
  end.

Definition pmm_buddy_alloc_pages (count : Z) : M buddy Z :=
  b <~ mget ;;
  if negb (g_buddy_initialized b) || (count =? 0) then return 0 else
  if count =? 1 then on_pmm pmm_alloc_frame else
  if PMM_BUDDY_MAX_PAGES <? count then return 0 else
  let order := order_for_pages count in
  found <~ find_block (Z.to_nat (PMM_BUDDY_MAX_ORDER - order)) order order ;;
  match found with
  | Some addr =>
    for_range 0 (Z.shiftl 1 order) (fun i => on_pmm (pmm_mark_used (u64 (addr + i * PAGE_SIZE)))) ;;;
    return addr
  | None => on_pmm (pmm_alloc_frames count)
  end.

(** The coalescing loop: the block that is finally pushed. *)
Fixpoint coalesce (n : nat) (cur_addr cur_order : Z) : M buddy (Z * Z) :=
  match n with
  | O => return (cur_addr, cur_order)
  | S n' =>
    let b := buddy_addr cur_addr cur_order in
    found <~ buddy_remove cur_order b ;;
    if negb found then return (cur_addr, cur_order) else
    coalesce n' (if cur_addr <? b then cur_addr else b) (cur_order + 1)
  end.

Definition pmm_buddy_free_pages (addr count : Z) : M buddy unit :=
  b <~ mget ;;
  if negb (g_buddy_initialized b) || (count =? 0) || (addr =? 0) then return tt else
  if count =? 1 then on_pmm (pmm_free_frame addr) ;;; return tt else
  let order := order_for_pages count in
  ' (cur_addr, cur_order) <~ coalesce (Z.to_nat (PMM_BUDDY_MAX_ORDER - order)) addr order ;;
  push cur_order cur_addr ;;;
  for_range 0 (Z.shiftl 1 cur_order)
    (fun i => on_pmm (pmm_mark_free (u64 (cur_addr + i * PAGE_SIZE)))).

(** [pmm_buddy_verify]: 1 once initialised; the count of free pages is only logged. *)
Definition pmm_buddy_verify : M buddy Z :=
  b <~ mget ;; if negb (g_buddy_initialized b) then return 0 else return 1.
Definition verify_total_free (b : buddy) : Z :=
  foldr Z.add 0 (imap (fun o l => Z.shiftl 1 (Z.of_nat o) * Z.of_nat (length l)) (g_free_lists b)).

(** * The frames on the free lists *)

(** Frames of the block of order [o] at address [a]. *)
Definition block_frames (o a : Z) : list Z := seqZ (a / PAGE_SIZE) (2 ^ o).
Definition level (o : Z) (l : list Z) : list Z := concat (block_frames o <$> l).
(** All frames on the lists [ls] of the orders [o], [o + 1], ... *)
Fixpoint cover_from (o : Z) (ls : list (list Z)) : list Z :=
  match ls with [] => [] | l :: ls' => level o l ++ cover_from (o + 1) ls' end.
Definition cover (b : buddy) : list Z := cover_from 0 (g_free_lists b).
Definition nodes (ls : list (list Z)) : Z := Z.of_nat (length (concat ls)).

(** A block of order [o] starts at a multiple of its size. *)
Definition aligned (o a : Z) : Prop := exists k, a = k * 2 ^ o * PAGE_SIZE.

Record lists_ok (b : buddy) : Prop := ListsOk {
  lo_len : length (g_free_lists b) = Z.to_nat PMM_BUDDY_MAX_ORDER;
  lo_aligned : forall o l, zget (g_free_lists b) o = Some l -> Forall (aligned o) l;
  lo_nodup : NoDup (cover b);
  lo_pool : g_pool_free b + nodes (g_free_lists b) = BUDDY_NODE_POOL_MAX;
  lo_range : forall f, f ∈ cover b -> 0 < f < bd_total_frames b
}.

(** A block of order [o] at [a] is on its list. *)
Definition free_block (b : buddy) (o a : Z) : Prop := exists l, zget (g_free_lists b) o = Some l /\ a ∈ l.
(** No free block below the largest order has a free buddy. *)
Definition coalesced (b : buddy) : Prop :=
  forall o a, o < PMM_BUDDY_MAX_ORDER - 1 -> free_block b o a -> ~ free_block b o (buddy_addr a o).
(** Between [b] and [b'] the block of order [o] at [a] has gone, with the free buddies it met, into one block that has no
    free buddy; every other block of [b'] was there before. *)
Definition merged_in (o a : Z) (b b' : buddy) : Prop :=
  exists o' a', o <= o' < PMM_BUDDY_MAX_ORDER /\ aligned o' a' /\ block_frames o a ⊆ block_frames o' a' /\
    free_block b' o' a' /\ ~ free_block b' o' (buddy_addr a' o') /\
    (forall o1 x, free_block b' o1 x -> (o1 = o' /\ x = a') \/ free_block b o1 x).

(** The lists describe free frames of the bitmap. *)
Record buddy_inv (b : buddy) : Prop := BuddyInv {
  bi_lists : lists_ok b;
  bi_pmm : pmm_inv (bd_pmm b);
  bi_init : g_buddy_initialized b = true;
  bi_pinit : g_initialized (bd_pmm b) = true;
  bi_tot : bd_total_frames b = g_total_frames (bd_pmm b);
  bi_sync : forall f, f ∈ cover b -> used (g_bitmap (bd_pmm b)) f = false
}.

Lemma cover_lookup k ls o l : ls !! o = Some l ->
  cover_from k ls ≡ₚ level (k + Z.of_nat o) l ++ cover_from k (<[o := []]> ls).
Proof.
  revert k o. induction ls as [|l0 ls IH]; intros k [|o] Hl; simplify_eq/=.
  - rewrite Z.add_0_r. done.
  - rewrite (IH (k + 1) o Hl). replace (k + Z.of_nat (S o)) with (k + 1 + Z.of_nat o) by lia.
    rewrite !app_assoc, (Permutation_app_comm (level k l0)). done.
Qed.
Lemma nodes_lookup ls o (l : list Z) : ls !! o = Some l ->
  nodes ls = Z.of_nat (length l) + nodes (<[o := []]> ls).
Proof.
  unfold nodes. revert o. induction ls as [|l0 ls IH]; intros [|o] Hl; simplify_eq/=.
  - rewrite length_app. lia.
  - specialize (IH o Hl). rewrite !length_app. lia.
Qed.

(** Replacing one list. *)
Lemma cover_set ls o l l' : ls !! o = Some l ->
  level (Z.of_nat o) l ++ cover_from 0 (<[o := l']> ls) ≡ₚ level (Z.of_nat o) l' ++ cover_from 0 ls.
Proof.
  intros Hl. pose proof (lookup_lt_Some _ _ _ Hl).
  rewrite (cover_lookup 0 ls o l Hl), (cover_lookup 0 (<[o:=l']> ls) o l') by (by apply list_lookup_insert_eq).
  rewrite list_insert_insert_eq. rewrite !app_assoc, (Permutation_app_comm (level _ l)). done.
Qed.
Lemma nodes_set ls o (l l' : list Z) : ls !! o = Some l ->
  nodes (<[o := l']> ls) = nodes ls + Z.of_nat (length l') - Z.of_nat (length l).
Proof.
  intros Hl. pose proof (lookup_lt_Some _ _ _ Hl).
  rewrite (nodes_lookup ls o l Hl), (nodes_lookup (<[o:=l']> ls) o l') by (by apply list_lookup_insert_eq).
  rewrite list_insert_insert_eq. lia.
Qed.
Lemma level_cons o a l : level o (a :: l) = block_frames o a ++ level o l.
Proof. done. Qed.
Lemma level_perm o l l' : l ≡ₚ l' -> level o l ≡ₚ level o l'.
Proof. intros H. unfold level. by rewrite H. Qed.

(** Adding a block: [ls'] has the blocks of [ls] and the block at [a]. *)
Definition adds (o a : Z) (b b' : buddy) : Prop :=
  cover b' ≡ₚ block_frames o a ++ cover b /\
  length (g_free_lists b') = length (g_free_lists b) /\
  g_pool_free b' + nodes (g_free_lists b') = g_pool_free b + nodes (g_free_lists b) /\
  g_pool_free b' = g_pool_free b - 1 /\
  bd_total_frames b' = bd_total_frames b /\ g_buddy_initialized b' = g_buddy_initialized b /\
  bd_pmm b' = bd_pmm b.

Lemma zget_zset_lists (ls : list (list Z)) o l : zget ls o = Some l ->
  0 <= o /\ ls !! Z.to_nat o = Some l /\ forall l', zset ls o l' = Some (<[Z.to_nat o := l']> ls).
Proof.
  intros Hg. pose proof (zget_range _ _ _ Hg). apply zget_Some in Hg as [? Hl].
  split; [done|]. split; [done|]. intros l'. by apply zset_Some.
Qed.

Lemma aligned_set (ls : list (list Z)) o l' :
  0 <= o < Z.of_nat (length ls) -> Forall (aligned o) l' ->
  (forall o l, zget ls o = Some l -> Forall (aligned o) l) ->
  forall o' l, zget (<[Z.to_nat o := l']> ls) o' = Some l -> Forall (aligned o') l.
Proof.
  intros Ho Hl' H o' l. rewrite zget_insert by done. case_decide; subst; [by intros [= <-]|auto].
Qed.

Lemma push_run b o a : lists_ok b -> 0 < g_pool_free b -> 0 <= o < PMM_BUDDY_MAX_ORDER -> aligned o a ->
  (forall f, f ∈ block_frames o a -> 0 < f < bd_total_frames b /\ f ∉ cover b) ->
  exists b', push o a b = Some (tt, b') /\ lists_ok b' /\ adds o a b b'.
Proof.
  intros [Hlen Hal Hnd Hpool Hrg] Hp Ho Ha Hfr.
  destruct (zget_is_Some (g_free_lists b) o) as [l Hl]; [rewrite Hlen; unfold PMM_BUDDY_MAX_ORDER in *; lia|].
  pose proof (zget_range _ _ _ Hl). destruct (zget_zset_lists _ _ _ Hl) as (_&Hlk&Hset).
  unfold push, pool_alloc, mbind_, mget, mlift, mput, mret. rewrite (proj2 (Z.eqb_neq _ _)) by lia.
  cbn [negb g_free_lists set_pool]. rewrite Hl, Hset. eexists. split; [reflexivity|].
  pose proof (cover_set (g_free_lists b) (Z.to_nat o) l (a :: l) Hlk) as Hc.
  rewrite Z2Nat.id, level_cons in Hc by lia.
  rewrite (Permutation_app_comm (block_frames _ _)), <- app_assoc in Hc. apply Permutation_app_inv_l in Hc.
  pose proof (nodes_set (g_free_lists b) (Z.to_nat o) l (a :: l) Hlk) as Hn. cbn [length] in Hn.
  assert (Hadds : adds o a b (set_lists (<[Z.to_nat o:=a :: l]> (g_free_lists b)) (set_pool (g_pool_free b - 1) b))).
  { unfold adds, cover. cbn [set_lists set_pool g_free_lists g_pool_free bd_total_frames g_buddy_initialized bd_pmm].
    rewrite Hc, length_insert. repeat split; lia || done. }
  split; [|done]. destruct Hadds as (Hcov&Hl'&Hpn&_&Ht&_). split.
  - congruence.
  - cbn [set_lists g_free_lists]. apply aligned_set; [done| |done]. constructor; [done|]. by apply (Hal o).
  - rewrite Hcov. apply NoDup_app. split; [apply NoDup_seqZ|]. split; [|done]. intros f Hf. by apply Hfr.
  - lia.
  - intros f. rewrite Hcov, elem_of_app, Ht. intros [Hf|Hf]; [by apply Hfr|auto].
Qed.

(** Removing the block at [a] from the list of order [o]. *)
Lemma take_block b o l l' a : lists_ok b -> zget (g_free_lists b) o = Some l -> l ≡ₚ a :: l' ->
  let b' := set_pool (g_pool_free b + 1) (set_lists (<[Z.to_nat o := l']> (g_free_lists b)) b) in
  aligned o a /\ lists_ok b' /\ adds o a b' b.
Proof.
  intros [Hlen Hal Hnd Hpool Hrg] Hl Hperm b'.
  pose proof (zget_range _ _ _ Hl). destruct (zget_zset_lists _ _ _ Hl) as (_&Hlk&_).
  pose proof (cover_set (g_free_lists b) (Z.to_nat o) l l' Hlk) as Hc.
  rewrite Z2Nat.id, (level_perm o _ _ Hperm), level_cons in Hc by lia.
  rewrite (Permutation_app_comm (block_frames _ _)), <- app_assoc in Hc. apply Permutation_app_inv_l in Hc.
  pose proof (nodes_set (g_free_lists b) (Z.to_nat o) l l' Hlk) as Hn.
  pose proof (Permutation_length Hperm) as Hpl. cbn [length] in Hpl.
  pose proof (Hal o l Hl) as Hall. rewrite Hperm in Hall. inversion Hall as [|? ? Ha Hall']; subst.
  assert (Hadds : adds o a b' b).
  { unfold adds, cover, b'. cbn [set_lists set_pool g_free_lists g_pool_free bd_total_frames g_buddy_initialized bd_pmm].
    rewrite <- Hc, length_insert. repeat split; lia || done. }
  split; [done|]. split; [|done]. destruct Hadds as (Hcov&Hl'&Hpn&_&Ht&_). split.
  - congruence.
  - cbn [b' set_lists set_pool g_free_lists]. by apply aligned_set.
  - rewrite Hcov in Hnd. apply NoDup_app in Hnd as (_&_&?). done.
  - lia.
  - intros f Hf. rewrite <- Ht. apply Hrg. rewrite Hcov. apply elem_of_app. by right.
Qed.

(** ** Buddies *)

Lemma lxor_even k n : 0 <= n -> Z.lxor (k * 2 ^ (n + 1)) (2 ^ n) = k * 2 ^ (n + 1) + 2 ^ n.
Proof.
  intros Hn. symmetry. apply Z.add_nocarry_lxor. apply Z.bits_inj'. intros i Hi.
  rewrite Z.land_spec, Z.testbit_0_l, Z.pow2_bits_eqb by done.
  destruct (Z.eqb_spec n i) as [->|]; [|apply andb_false_r].
  rewrite Z.mul_pow2_bits by lia. rewrite Z.testbit_neg_r by lia. done.
Qed.
Lemma lxor_odd k n : 0 <= n -> Z.lxor (k * 2 ^ (n + 1) + 2 ^ n) (2 ^ n) = k * 2 ^ (n + 1).
Proof.
  intros Hn. rewrite <- lxor_even by done. by rewrite Z.lxor_assoc, Z.lxor_nilpotent, Z.lxor_0_r.
Qed.
Lemma page_shift_order o : 0 <= o <= 11 -> u64 (Z.shiftl PAGE_SIZE o) = 2 ^ (o + 12).
Proof.
  intros. rewrite Z.shiftl_mul_pow2, Z.pow_add_r by lia. unwrap. change PAGE_SIZE with (2 ^ 12).
  rewrite <- !Z.pow_add_r by lia. rewrite wrap_small, Z.add_comm; [done|].
  split; [lia|]. apply Z.pow_lt_mono_r; lia.
Qed.

Lemma aligned_bytes o a : 0 <= o -> aligned o a <-> exists k, a = k * 2 ^ (o + 12).
Proof. intros. unfold aligned, PAGE_SIZE. rewrite Z.pow_add_r by lia. split; intros [k ->]; exists k; lia. Qed.

(** The buddy of the lower half is the upper half, and conversely. *)
Lemma buddy_of o a : 0 <= o <= 11 -> aligned o a ->
  (aligned (o + 1) a /\ buddy_addr a o = a + 2 ^ (o + 12)) \/
  (aligned (o + 1) (buddy_addr a o) /\ a = buddy_addr a o + 2 ^ (o + 12)).
Proof.
  intros Ho [k ->]%aligned_bytes; [|lia]. unfold buddy_addr. rewrite page_shift_order by lia.
  rewrite !aligned_bytes by lia. replace (o + 1 + 12) with (o + 12 + 1) by lia.
  pose proof (Z.pow_succ_r 2 (o + 12) ltac:(lia)) as E. rewrite <- Z.add_1_r in E.
  destruct (Z.Even_or_Odd k) as [[j ->]|[j ->]]; [left|right].
  - replace (2 * j * 2 ^ (o + 12)) with (j * 2 ^ (o + 12 + 1)) by lia.
    rewrite lxor_even by lia. eauto.
  - replace ((2 * j + 1) * 2 ^ (o + 12)) with (j * 2 ^ (o + 12 + 1) + 2 ^ (o + 12)) by lia.
    rewrite lxor_odd by lia. eauto.
Qed.

Lemma aligned_lower o a : 0 <= o -> aligned (o + 1) a -> aligned o a /\ aligned o (a + 2 ^ (o + 12)).
Proof.
  intros Ho [k ->]%aligned_bytes; [|lia]. rewrite !aligned_bytes by lia.
  replace (o + 1 + 12) with (Z.succ (o + 12)) by lia. rewrite Z.pow_succ_r by lia.
  split; [exists (2 * k)|exists (2 * k + 1)]; lia.
Qed.
Lemma div_page_add a o : 0 <= o -> (a + 2 ^ (o + 12)) / PAGE_SIZE = a / PAGE_SIZE + 2 ^ o.
Proof. intros. rewrite Z.pow_add_r by lia. change (2 ^ 12) with PAGE_SIZE. by rewrite Z.div_add. Qed.

(** A block is its two halves. *)
Lemma block_halves o a : 0 <= o ->
  block_frames (o + 1) a = block_frames o a ++ block_frames o (a + 2 ^ (o + 12)).
Proof.
  intros. unfold block_frames. rewrite div_page_add by done.
  replace (2 ^ (o + 1)) with (2 ^ o + 2 ^ o) by (rewrite Z.add_1_r, Z.pow_succ_r by done; lia).
  apply seqZ_app; lia.
Qed.
Lemma block_first o a : 0 <= o -> a / PAGE_SIZE ∈ block_frames o a.
Proof. intros. apply elem_of_seqZ. lia. Qed.
Lemma aligned_addr o a : aligned o a -> a = a / PAGE_SIZE * PAGE_SIZE.
Proof. intros [k ->]. by rewrite Z_div_mult. Qed.

(** ** Taking a block off a list *)

Lemma pop_empty b o : zget (g_free_lists b) o = Some [] -> pop o b = Some (0, b).
Proof. intros Hl. unfold pop, mbind_, mget, mlift. by rewrite Hl. Qed.

Lemma pop_run b o a l : lists_ok b -> zget (g_free_lists b) o = Some (a :: l) ->
  exists b', pop o b = Some (a, b') /\ lists_ok b' /\ aligned o a /\ adds o a b' b.
Proof.
  intros Hb Hl. destruct (zget_zset_lists _ _ _ Hl) as (_&_&Hset).
  destruct (take_block b o (a :: l) l a Hb Hl) as (?&?&?); [done|].
  eexists. split; [|eauto]. unfold pop, mbind_, mget, mlift, mput, pool_free, mmodify, mret.
  rewrite Hl, Hset. done.
Qed.

Lemma remove_addr_perm a l l' : remove_addr a l = Some l' -> l ≡ₚ a :: l'.
Proof.
  revert l'. induction l as [|x l IH]; intros l' H; simpl in H; [done|].
  destruct (Z.eqb_spec x a); simplify_eq; [done|].
  destruct (remove_addr a l) as [l''|] eqn:E; simplify_eq/=. rewrite (IH l'') by done. constructor.
Qed.
Lemma remove_addr_none a l : remove_addr a l = None -> a ∉ l.
Proof.
  induction l as [|x l IH]; simpl; [set_solver|]. destruct (Z.eqb_spec x a); [done|].
  destruct (remove_addr a l); [done|]. set_solver.
Qed.

Lemma buddy_remove_run b o a : lists_ok b -> 0 <= o < PMM_BUDDY_MAX_ORDER ->
  buddy_remove o a b = Some (false, b) \/
  exists b', buddy_remove o a b = Some (true, b') /\ lists_ok b' /\ aligned o a /\ adds o a b' b.
Proof.
  intros Hb Ho. destruct (zget_is_Some (g_free_lists b) o) as [l Hl].
  { rewrite (lo_len b Hb). unfold PMM_BUDDY_MAX_ORDER in *. lia. }
  destruct (zget_zset_lists _ _ _ Hl) as (_&_&Hset).
  unfold buddy_remove, mbind_, mget, mlift, mput, pool_free, mmodify, mret. rewrite Hl.
  destruct (remove_addr a l) as [l'|] eqn:E; [right|by left]. rewrite Hset.
  destruct (take_block b o l l' a Hb Hl (remove_addr_perm _ _ _ E)) as (?&?&?).
  eexists. split; [reflexivity|]. done.
Qed.

(** ** Splitting *)

(** Giving back the upper halves of a block of order [o] until order [order] is left. *)
Lemma split_down_run n b a order o :
  lists_ok b -> 0 <= order -> o = order + Z.of_nat n -> o < PMM_BUDDY_MAX_ORDER ->
  Z.of_nat n <= g_pool_free b -> aligned o a ->
  (forall f, f ∈ block_frames o a -> 0 < f < bd_total_frames b /\ f ∉ cover b) ->
  exists b', split_down n a order o b = Some (tt, b') /\ lists_ok b' /\ aligned order a /\
    block_frames o a ++ cover b ≡ₚ block_frames order a ++ cover b' /\
    bd_total_frames b' = bd_total_frames b /\ g_buddy_initialized b' = g_buddy_initialized b /\
    bd_pmm b' = bd_pmm b.
Proof.
  revert b o. induction n as [|n IH]; intros b o Hb Hor Ho Hmax Hp Ha Hfr; cbn [split_down].
  { exists b. replace o with order in * by lia. done. }
  set (o' := o - 1). assert (Eo : o = o' + 1) by lia. rewrite Eo in Ha, Hfr.
  destruct (aligned_lower o' a ltac:(lia) Ha) as [Hal Hah].
  assert (buddy_addr a o' = a + 2 ^ (o' + 12)) as Hbud.
  { destruct (buddy_of o' a) as [[_ ?]|[[k Hk] Hk']]; [unfold PMM_BUDDY_MAX_ORDER in *; lia|done|done|].
    exfalso. rewrite Hk in Hk'. apply aligned_bytes in Ha as [j Hj]; [|lia]. rewrite Hk' in Hj.
    unfold PAGE_SIZE in Hj. change 4096 with (2 ^ 12) in Hj.
    rewrite <- Z.mul_assoc, <- Z.pow_add_r in Hj by lia.
    replace (o' + 1 + 12) with (Z.succ (o' + 12)) in Hj by lia. rewrite Z.pow_succ_r in Hj by lia.
    assert (2 ^ (o' + 12) * (2 * k + 1) = 2 ^ (o' + 12) * (2 * j)) as E%Z.mul_reg_l by lia; lia. }
  rewrite Hbud. rewrite block_halves in Hfr by lia.
  destruct (push_run b o' (a + 2 ^ (o' + 12)) Hb) as (b1&Hr1&Hb1&Hadd); [lia|unfold PMM_BUDDY_MAX_ORDER in *; lia|done| |].
  { intros f Hf. apply Hfr, elem_of_app. by right. }
  mstep Hr1. destruct Hadd as (Hc1&_&_&Hp1&Ht1&Hi1&Hm1).
  pose proof (NoDup_seqZ (a / PAGE_SIZE) (2 ^ (o' + 1))) as Hnd.
  change (NoDup (block_frames (o' + 1) a)) in Hnd. rewrite block_halves in Hnd by lia.
  apply NoDup_app in Hnd as (_&Hdis&_).
  destruct (IH b1 o') as (b'&Hr'&Hb'&Halo&Hc'&?&?&?); [done|done|lia|lia|lia|done| |].
  { intros f Hf. rewrite Ht1, Hc1. split; [apply Hfr, elem_of_app; by left|].
    rewrite elem_of_app. intros [?|?]; [by apply (Hdis f)|]. apply (Hfr f); [apply elem_of_app; by left|done]. }
  exists b'. split; [done|]. split; [done|]. split; [done|].
  rewrite <- Hc', Hc1, Eo, block_halves, <- app_assoc by lia. repeat split; congruence || done.
Qed.

(** ** Orders *)

Lemma order_loop_spec n pages o :
  0 <= o -> pages <= 2 ^ (o + Z.of_nat n) ->
  let r := order_loop n pages o (2 ^ o) in
  o <= r <= o + Z.of_nat n /\ pages <= 2 ^ r /\ (o < r -> 2 ^ (r - 1) < pages).
Proof.
  revert o. induction n as [|n IH]; intros o Ho Hp; cbn [order_loop]; cbv zeta.
  { rewrite Z.add_0_r in Hp. repeat split; lia. }
  destruct (Z.ltb_spec (2 ^ o) pages) as [Hlt|]; [|repeat split; lia].
  replace (Z.shiftl (2 ^ o) 1) with (2 ^ (o + 1)) by (rewrite Z.shiftl_mul_pow2, Z.pow_add_r by lia; lia).
  destruct (IH (o + 1)) as (?&?&Hlow); [lia|by replace (o + 1 + Z.of_nat n) with (o + Z.of_nat (S n)) by lia|].
  split; [lia|]. split; [done|]. intros _.
  set (r := order_loop n pages (o + 1) (2 ^ (o + 1))) in *.
  destruct (decide (r = o + 1)) as [->|]; [by replace (o + 1 - 1) with o by lia|]. apply Hlow. lia.
Qed.

(** The order of a request is the least one whose blocks are large enough. *)
Lemma order_for_pages_spec n : 1 <= n <= 1024 ->
  let r := order_for_pages n in 0 <= r <= 10 /\ n <= 2 ^ r /\ (0 < r -> 2 ^ (r - 1) < n).
Proof.
  intros Hn. unfold order_for_pages. destruct (Z.leb_spec n 1) as [?|?]; cbv zeta.
  { replace n with 1 by lia. repeat split; lia. }
  pose proof (order_loop_spec 10 n 0 ltac:(lia) ltac:(simpl; lia)) as Hr. cbv zeta in Hr.
  change (Z.to_nat (PMM_BUDDY_MAX_ORDER - 1)) with 10%nat. change (2 ^ 0) with 1 in Hr.
  set (r := order_loop 10 n 0 1) in *. destruct Hr as (?&?&?). split; [lia|]. split; [done|]. auto.
Qed.

(** ** Allocation *)

(** Some list of order [order] or more has a block. *)
Definition has_block (b : buddy) (order : Z) : Prop :=
  exists o a l, order <= o /\ zget (g_free_lists b) o = Some (a :: l).

Lemma adds_disjoint o a b b' : lists_ok b' -> adds o a b b' ->
  forall f, f ∈ block_frames o a -> 0 < f < bd_total_frames b /\ f ∉ cover b.
Proof.
  intros Hb' (Hc&_&_&_&Ht&_) f Hf. split.
  - rewrite <- Ht. apply (lo_range b' Hb'). rewrite Hc. apply elem_of_app. by left.
  - pose proof (lo_nodup b' Hb') as Hnd. rewrite Hc in Hnd. apply NoDup_app in Hnd as (_&Hd&_). auto.
Qed.

Lemma find_block_run n b order o :
  lists_ok b -> 0 <= order <= o -> o + Z.of_nat n = PMM_BUDDY_MAX_ORDER -> 10 <= g_pool_free b ->
  has_block b o ->
  exists a b', find_block n order o b = Some (Some a, b') /\ lists_ok b' /\ aligned order a /\
    cover b ≡ₚ block_frames order a ++ cover b' /\
    bd_total_frames b' = bd_total_frames b /\ g_buddy_initialized b' = g_buddy_initialized b /\
    bd_pmm b' = bd_pmm b.
Proof.
  intros Hb. revert o. induction n as [|n IH]; intros o Ho Hn Hpool (o2&a2&l2&Ho2&Hl2).
  { pose proof (zget_range _ _ _ Hl2) as Hr. rewrite (lo_len b Hb) in Hr. unfold PMM_BUDDY_MAX_ORDER in *. lia. }
  destruct (zget_is_Some (g_free_lists b) o) as [l Hl].
  { rewrite (lo_len b Hb). unfold PMM_BUDDY_MAX_ORDER in *. lia. }
  cbn [find_block]. destruct l as [|a l].
  { mstep (pop_empty b o Hl). rewrite Z.eqb_refl. cbn [negb]. apply IH; [lia|lia|done|].
    exists o2, a2, l2. split; [|done]. destruct (decide (o = o2)); [congruence|lia]. }
  destruct (pop_run b o a l Hb Hl) as (b1&Hr1&Hb1&Ha&Hadd). mstep Hr1.
  pose proof (adds_disjoint _ _ _ _ Hb Hadd) as Hd.
  assert (a <> 0) as Ha0.
  { intros ->. destruct (Hd (0 / PAGE_SIZE)) as [? _]; [apply block_first; lia|].
    rewrite Z.div_0_l in * by done. lia. }
  rewrite (proj2 (Z.eqb_neq a 0)) by done. cbn [negb].
  destruct Hadd as (Hc&_&_&Hp&Ht&Hi&Hm).
  destruct (split_down_run (Z.to_nat (o - order)) b1 a order o) as (b'&Hr'&Hb'&Hal&Hc'&?&?&?);
    [done|lia|lia|unfold PMM_BUDDY_MAX_ORDER in *; lia|unfold PMM_BUDDY_MAX_ORDER in *; lia|done|done|].
  mstep Hr'. exists a, b'. split; [done|]. split; [done|]. split; [done|].
  rewrite Hc, Hc'. repeat split; congruence || done.
Qed.

(** Marking the frames of the block in the bitmap. *)
Lemma mark_block_run b a c :
  pmm_inv (bd_pmm b) -> 0 <= c -> fits (bd_pmm b) c a ->
  exists p', for_range 0 c (fun i => on_pmm (pmm_mark_used (u64 (a * PAGE_SIZE + i * PAGE_SIZE)))) b =
      Some (tt, set_pmm p' b) /\ claims a c (bd_pmm b) p' /\ pmm_inv p'.
Proof.
  intros Hinv Hc (Ha&Hac&Hrun). pose proof (pi_total _ Hinv) as Ht. rewrite PMM_MAX_FRAMES_val in Ht.
  destruct (for_range_inv (fun i b' => exists p', b' = set_pmm p' b /\ pmm_inv p' /\ claims a i (bd_pmm b) p')
    0 c (fun i => on_pmm (pmm_mark_used (u64 (a * PAGE_SIZE + i * PAGE_SIZE)))) b) as (b'&Hr&p'&->&?&?);
    [done| | |eauto].
  - exists (bd_pmm b). split; [by destruct b|]. split; [done|]. apply claims_refl.
  - intros i b' Hi (p'&->&Hp'&Hcl). destruct Hcl as [Hu ? Htot ? ?] eqn:E. clear E.
    replace (u64 (a * PAGE_SIZE + i * PAGE_SIZE)) with ((a + i) * PAGE_SIZE)
      by (unwrap; rewrite wrap_small; unfold in_w, PAGE_SIZE; lia).
    destruct (mark_used_spec p' (a + i) Hp') as (p2&Hr&Hp2&->); [lia|].
    unfold on_pmm. cbn [bd_pmm set_pmm]. rewrite Hr. eexists. split; [reflexivity|].
    eexists. split; [reflexivity|]. split; [done|].
    rewrite Hu, bool_decide_false, Hrun by (unfold frame_ok; rewrite ?PMM_MAX_FRAMES_val; lia).
    apply claims_snoc; auto with lia.
Qed.

Lemma alloc_block_run b count : buddy_inv b -> 2 <= count <= 1024 -> 10 <= g_pool_free b ->
  has_block b (order_for_pages count) ->
  exists a b', pmm_buddy_alloc_pages count b = Some (a, b') /\ aligned (order_for_pages count) a /\
    cover b ≡ₚ block_frames (order_for_pages count) a ++ cover b' /\
    claims (a / PAGE_SIZE) (2 ^ order_for_pages count) (bd_pmm b) (bd_pmm b') /\ buddy_inv b'.
Proof.
  intros [Hb Hp Hi Hpi Ht Hs] Hc Hpool Hhas.
  destruct (order_for_pages_spec count) as (Ho&Hco&_); [lia|]. set (o := order_for_pages count) in *.
  unfold pmm_buddy_alloc_pages. unfold mbind_ at 1. unfold mget. rewrite Hi. cbn [negb orb].
  rewrite !(proj2 (Z.eqb_neq _ _)), (proj2 (Z.ltb_ge PMM_BUDDY_MAX_PAGES _))
    by (change PMM_BUDDY_MAX_PAGES with 2048; lia). fold o.
  destruct (find_block_run (Z.to_nat (PMM_BUDDY_MAX_ORDER - o)) b o o Hb) as (a&b1&Hr&Hb1&Ha&Hcov&Ht1&Hi1&Hm1);
    [lia|unfold PMM_BUDDY_MAX_ORDER; lia|done|done|].
  mstep Hr. rewrite Z.shiftl_1_l.
  assert (Hfits : fits (bd_pmm b1) (2 ^ o) (a / PAGE_SIZE)).
  { assert (forall f, f ∈ block_frames o a -> 0 < f < g_total_frames (bd_pmm b) /\ used (g_bitmap (bd_pmm b)) f = false) as Hf.
    { intros f Hf. rewrite <- Ht. split; [apply (lo_range b Hb)|apply Hs]; rewrite Hcov; apply elem_of_app; by left. }
    rewrite Hm1. unfold fits, run_at. pose proof (Z.pow_pos_nonneg 2 o).
    destruct (Hf (a / PAGE_SIZE)) as [? _]; [apply elem_of_seqZ; lia|].
    destruct (Hf (a / PAGE_SIZE + 2 ^ o - 1)) as [? _]; [apply elem_of_seqZ; lia|].
    split; [lia|]. split; [lia|]. intros i Hi'. apply Hf, elem_of_seqZ. lia. }
  destruct (mark_block_run b1 (a / PAGE_SIZE) (2 ^ o)) as (p'&Hr2&Hcl&Hp'); [by rewrite Hm1|lia|done|].
  rewrite <- (aligned_addr o a Ha) in Hr2. mstep Hr2. rewrite Hm1 in Hcl.
  eexists a, _. split; [reflexivity|]. split; [done|]. split; [done|]. split; [done|].
  destruct Hcl as [Hu _ Htp _ Hip]. pose proof (pi_total _ Hp).
  split; cbn [bd_pmm set_pmm g_buddy_initialized bd_total_frames]; try congruence.
  - by destruct Hb1.
  - intros f Hf. change (f ∈ cover b1) in Hf. pose proof (lo_nodup b Hb) as Hnd. rewrite Hcov in Hnd.
    apply NoDup_app in Hnd as (_&Hd&_). pose proof (lo_range b1 Hb1 f Hf).
    rewrite Hu by (unfold frame_ok; lia). rewrite bool_decide_false, Hs; [done| |].
    + rewrite Hcov. apply elem_of_app. by right.
    + intros ?. apply (Hd f); [apply elem_of_seqZ; lia|done].
Qed.

(** ** Release *)

(** Merging block [a] with its buddy [bd]. *)
Lemma buddy_addr_involutive o a : buddy_addr (buddy_addr a o) o = a.
Proof. unfold buddy_addr. by rewrite Z.lxor_assoc, Z.lxor_nilpotent, Z.lxor_0_r. Qed.
Lemma buddy_addr_ne o a : 0 <= o <= 11 -> buddy_addr a o <> a.
Proof.
  intros Ho E. unfold buddy_addr in E. rewrite page_shift_order in E by done. apply (f_equal (Z.lxor a)) in E.
  rewrite <- Z.lxor_assoc, Z.lxor_nilpotent, Z.lxor_0_l in E. pose proof (Z.pow_pos_nonneg 2 (o + 12)). lia.
Qed.
Lemma free_block_set b ls o l (l' : list Z) : zget ls o = Some l -> g_free_lists b = <[Z.to_nat o := l']> ls -> forall o1 x,
  free_block b o1 x <-> if decide (o1 = o) then x ∈ l' else exists l1, zget ls o1 = Some l1 /\ x ∈ l1.
Proof.
  intros Hl E o1 x. unfold free_block. rewrite E. pose proof (zget_range _ _ _ Hl). rewrite zget_insert by done.
  repeat case_decide; subst; naive_solver.
Qed.
Lemma push_blocks o a b b' : push o a b = Some (tt, b') -> forall o1 x, free_block b' o1 x <-> (o1 = o /\ x = a) \/ free_block b o1 x.
Proof.
  unfold push, pool_alloc, mbind_, mget, mlift, mput, mret, mfault. intros H o1 x. destruct (g_pool_free b =? 0); [done|]. cbn [negb g_free_lists set_pool] in H.
  destruct (zget (g_free_lists b) o) as [l|] eqn:Hl; [|done]. destruct (zget_zset_lists _ _ _ Hl) as (_&_&Hset). rewrite Hset in H. injection H as <-.
  rewrite (free_block_set _ (g_free_lists b) o l (a :: l)) by done. unfold free_block. case_decide; subst; set_solver.
Qed.
Lemma remove_blocks o a b f b' : buddy_remove o a b = Some (f, b') -> (forall o1 x, free_block b' o1 x -> free_block b o1 x) /\ (f = false -> ~ free_block b' o a).
Proof.
  unfold buddy_remove, pool_free, mmodify, mbind_, mget, mlift, mput, mret. intros H. destruct (zget (g_free_lists b) o) as [l|] eqn:Hl; [|done].
  destruct (remove_addr a l) as [l'|] eqn:E.
  - destruct (zget_zset_lists _ _ _ Hl) as (_&_&Hset). rewrite Hset in H. injection H as <- <-. split; [|done]. intros o1 x.
    rewrite (free_block_set _ (g_free_lists b) o l l') by done. unfold free_block. case_decide; [|done]. subst o1. intros Hx. exists l. split; [done|].
    rewrite (remove_addr_perm _ _ _ E). by right.
  - injection H as <- <-. split; [done|]. intros _ (l1&Hl1&Ha). rewrite Hl in Hl1. injection Hl1 as <-. by apply (remove_addr_none _ _ E).
Qed.
Lemma coalesce_blocks n : forall b a o a' o' b', coalesce n a o b = Some ((a', o'), b') ->
  (forall o1 x, free_block b' o1 x -> free_block b o1 x) /\ (o' < o + Z.of_nat n -> ~ free_block b' o' (buddy_addr a' o')).
Proof.
  induction n as [|n IH]; intros b a o a' o' b' H; cbn [coalesce] in H.
  { injection H as <- <- <-. split; [done|lia]. }
  apply mbind_inv in H as (found&b1&Hr&H). destruct (remove_blocks _ _ _ _ _ Hr) as [Hsub Hno]. destruct found; cbn [negb] in H.
  - destruct (IH _ _ _ _ _ _ H) as [Hsub' Hno']. split; [auto|]. intros Hlt. apply Hno'. lia.
  - injection H as <- <- <-. auto.
Qed.
(** A merge keeps the lists coalesced. *)
Lemma merged_coalesced o a b b' : merged_in o a b b' -> 0 <= o -> coalesced b -> coalesced b'.
Proof.
  intros (o'&a'&Ho'&_&_&Hin&Hno&Hold) Ho Hc o1 x Ho1 Hx Hy.
  destruct (Hold _ _ Hx) as [[-> ->]|Hx']; [done|]. destruct (Hold _ _ Hy) as [[-> E]|Hy']; [|by apply (Hc o1 x)].
  apply Hno. by rewrite <- E, buddy_addr_involutive.
Qed.

Lemma merge_halves o a : 0 <= o <= 11 -> aligned o a ->
  let bd := buddy_addr a o in let m := if a <? bd then a else bd in
  aligned (o + 1) m /\ block_frames (o + 1) m ≡ₚ block_frames o a ++ block_frames o bd.
Proof.
  intros Ho Ha bd m. subst m. pose proof (Z.pow_pos_nonneg 2 (o + 12)).
  destruct (buddy_of o a Ho Ha) as [[Hal Hbd]|[Hal Hbd]]; fold bd in Hal, Hbd.
  - rewrite (proj2 (Z.ltb_lt _ _)), block_halves, Hbd by lia. done.
  - rewrite (proj2 (Z.ltb_ge _ _)), block_halves by lia. rewrite <- Hbd.
    split; [done|]. apply Permutation_app_comm.
Qed.

Lemma coalesce_run n b a o :
  lists_ok b -> 0 <= o -> o + Z.of_nat n = PMM_BUDDY_MAX_ORDER -> aligned o a ->
  (forall f, f ∈ block_frames o a -> 0 < f < bd_total_frames b /\ f ∉ cover b) ->
  exists a' o' b', coalesce n a o b = Some ((a', o'), b') /\ lists_ok b' /\ aligned o' a' /\
    o <= o' <= PMM_BUDDY_MAX_ORDER /\
    block_frames o a ++ cover b ≡ₚ block_frames o' a' ++ cover b' /\
    block_frames o a ⊆ block_frames o' a' /\ g_pool_free b <= g_pool_free b' /\
    bd_total_frames b' = bd_total_frames b /\ g_buddy_initialized b' = g_buddy_initialized b /\
    bd_pmm b' = bd_pmm b.
Proof.
  revert b a o. induction n as [|n IH]; intros b a o Hb Ho Hn Ha Hfr; cbn [coalesce].
  { exists a, o, b. split; [done|]. split; [done|]. split; [done|]. split; [lia|].
    split; [done|]. split; [done|]. split; [lia|done]. }
  destruct (buddy_remove_run b o (buddy_addr a o) Hb) as [Hr|(b1&Hr&Hb1&Hbal&Hadd)]; [lia|mstep Hr..].
  { exists a, o, b. split; [done|]. split; [done|]. split; [done|]. split; [lia|].
    split; [done|]. split; [done|]. split; [lia|done]. }
  cbn [negb]. destruct (merge_halves o a) as [Hal Hblk]; [unfold PMM_BUDDY_MAX_ORDER in *; lia|done|].
  pose proof (adds_disjoint _ _ _ _ Hb Hadd) as Hd. destruct Hadd as (Hc1&_&_&Hp1&Ht1&Hi1&Hm1).
  set (m := if a <? buddy_addr a o then a else buddy_addr a o) in *.
  destruct (IH b1 m (o + 1)) as (a'&o'&b'&Hr'&Hb'&Ha'&Ho'&Hc'&Hsub&Hp'&?&?&?); [done|lia|lia|done| |].
  { intros f. rewrite Hblk, elem_of_app. intros [Hf|Hf]; [|by apply Hd].
    destruct (Hfr f Hf) as [? Hnin]. rewrite <- Ht1. split; [done|]. contradict Hnin. rewrite Hc1.
    apply elem_of_app. by right. }
  exists a', o', b'. split; [done|]. split; [done|]. split; [done|]. split; [lia|].
  split; [by rewrite <- Hc', Hblk, Hc1, <- app_assoc|].
  split; [|split; [lia|repeat split; congruence]].
  intros f Hf. apply Hsub. rewrite Hblk. apply elem_of_app. by left.
Qed.

(** [p'] is [p] with the frames [a, a + c) free. *)
Definition released (a c : Z) (p p' : pmm) : Prop :=
  (forall g, frame_ok g ->
     used (g_bitmap p') g = if bool_decide (a <= g < a + c) then false else used (g_bitmap p) g) /\
  g_total_frames p' = g_total_frames p /\ g_initialized p' = g_initialized p.

Lemma unmark_block_run b a c :
  pmm_inv (bd_pmm b) -> 0 <= c -> 1 <= a -> a + c <= g_total_frames (bd_pmm b) ->
  exists p', for_range 0 c (fun i => on_pmm (pmm_mark_free (u64 (a * PAGE_SIZE + i * PAGE_SIZE)))) b =
      Some (tt, set_pmm p' b) /\ released a c (bd_pmm b) p' /\ pmm_inv p'.
Proof.
  intros Hinv Hc Ha Hac. pose proof (pi_total _ Hinv) as Ht. rewrite PMM_MAX_FRAMES_val in Ht.
  destruct (for_range_inv (fun i b' => exists p', b' = set_pmm p' b /\ pmm_inv p' /\ released a i (bd_pmm b) p')
    0 c (fun i => on_pmm (pmm_mark_free (u64 (a * PAGE_SIZE + i * PAGE_SIZE)))) b) as (b'&Hr&p'&->&?&?);
    [done| | |eauto].
  - exists (bd_pmm b). split; [by destruct b|]. split; [done|]. split; [|done].
    intros g _. rewrite bool_decide_false by lia. done.
  - intros i b' Hi (p'&->&Hp'&Hu&Htot&Hin).
    replace (u64 (a * PAGE_SIZE + i * PAGE_SIZE)) with ((a + i) * PAGE_SIZE)
      by (unwrap; rewrite wrap_small; unfold in_w, PAGE_SIZE; lia).
    destruct (mark_free_spec p' (a + i) Hp') as (p2&Hr&Hp2&E); [lia|].
    unfold on_pmm. cbn [bd_pmm set_pmm]. rewrite Hr. eexists. split; [reflexivity|].
    eexists. split; [reflexivity|]. split; [done|]. subst p2.
    assert (frame_ok (a + i)) by (unfold frame_ok; rewrite PMM_MAX_FRAMES_val; lia).
    destruct (used (g_bitmap p') (a + i)) eqn:Eu; (split; [|done]); intros g Hg; simpl.
    + rewrite used_mark, Hu by (apply Hp' || done). repeat case_bool_decide; case_decide; done || lia.
    + rewrite Hu by done. repeat case_bool_decide; try done; try lia.
      replace g with (a + i) by lia. rewrite Hu in Eu by done. rewrite bool_decide_false in Eu by lia. done.
Qed.

(** A pair of free order-10 buddies: merging them has no list to go to. *)
Definition merges_too_far (b : buddy) (freed : list Z) : Prop :=
  exists a, aligned PMM_BUDDY_MAX_ORDER a /\ block_frames PMM_BUDDY_MAX_ORDER a ⊆ freed ++ cover b.

Lemma push_too_far b a : lists_ok b -> push PMM_BUDDY_MAX_ORDER a b = None.
Proof.
  intros Hb. unfold push, pool_alloc, mbind_, mget, mlift, mput, mret, mfault.
  destruct (g_pool_free b =? 0); [done|]. cbn [negb g_free_lists set_pool].
  destruct (zget (g_free_lists b) PMM_BUDDY_MAX_ORDER) eqn:E; [|done].
  apply zget_range in E. rewrite (lo_len b Hb) in E. unfold PMM_BUDDY_MAX_ORDER in E. lia.
Qed.

Lemma bool_decide_block o a g :
  bool_decide (a / PAGE_SIZE <= g < a / PAGE_SIZE + 2 ^ o) = bool_decide (g ∈ block_frames o a).
Proof. apply bool_decide_ext. symmetry. apply elem_of_seqZ. Qed.

(** The last part of [pmm_buddy_free_pages], after the merge into the block [a'] of
    order [o'] that holds the returned frames [fr]. *)
Lemma free_finish b b1 fr a' o' :
  buddy_inv b -> lists_ok b1 -> aligned o' a' -> 0 <= o' < PMM_BUDDY_MAX_ORDER -> 0 < g_pool_free b1 ->
  NoDup (fr ++ cover b) -> (forall f, f ∈ fr -> 0 < f < bd_total_frames b) ->
  fr ++ cover b ≡ₚ block_frames o' a' ++ cover b1 -> fr ⊆ block_frames o' a' ->
  bd_total_frames b1 = bd_total_frames b -> g_buddy_initialized b1 = g_buddy_initialized b -> bd_pmm b1 = bd_pmm b ->
  exists b', (push o' a' ;;; for_range 0 (Z.shiftl 1 o')
      (fun i => on_pmm (pmm_mark_free (u64 (a' + i * PAGE_SIZE))))) b1 = Some (tt, b') /\
    cover b' ≡ₚ fr ++ cover b /\ buddy_inv b' /\
    (forall g, frame_ok g -> used (g_bitmap (bd_pmm b')) g =
       if bool_decide (g ∈ fr) then false else used (g_bitmap (bd_pmm b)) g) /\
    g_total_frames (bd_pmm b') = g_total_frames (bd_pmm b) /\ g_initialized (bd_pmm b') = g_initialized (bd_pmm b) /\
    (forall o1 x, free_block b' o1 x <-> (o1 = o' /\ x = a') \/ free_block b1 o1 x).
Proof.
  intros [Hb Hp Hi Hpi Ht Hs] Hb1 Ha' Ho' Hpool Hnd Hfr Hcov Hsub Ht1 Hi1 Hm1.
  rewrite Hcov in Hnd. apply NoDup_app in Hnd as (_&Hd&_).
  assert (Hrng : forall f, f ∈ block_frames o' a' ++ cover b1 -> 0 < f < bd_total_frames b).
  { intros f. rewrite <- Hcov, elem_of_app. intros [Hf|Hf]; [by apply Hfr|by apply (lo_range b Hb)]. }
  destruct (push_run b1 o' a' Hb1) as (b2&Hr2&Hb2&Hc2&_&_&_&Ht2&Hi2&Hm2); [done|done|done| |].
  { intros f Hf. rewrite Ht1. split; [apply Hrng, elem_of_app; by left|auto]. }
  mstep Hr2. rewrite Z.shiftl_1_l. pose proof (Z.pow_pos_nonneg 2 o' ltac:(lia) ltac:(lia)).
  assert (0 < a' / PAGE_SIZE < bd_total_frames b) by (apply Hrng, elem_of_app; left; apply block_first; lia).
  assert (0 < a' / PAGE_SIZE + 2 ^ o' - 1 < bd_total_frames b) by (apply Hrng, elem_of_app; left; apply elem_of_seqZ; lia).
  assert (Hm : bd_pmm b2 = bd_pmm b) by congruence.
  destruct (unmark_block_run b2 (a' / PAGE_SIZE) (2 ^ o')) as (p'&Hr3&(Hu&Htp&Hip)&Hp');
    [by rewrite Hm|lia|lia|rewrite Hm; lia|].
  rewrite <- (aligned_addr o' a' Ha') in Hr3. rewrite Hr3. eexists. split; [reflexivity|].
  assert (Hc' : cover (set_pmm p' b2) ≡ₚ fr ++ cover b) by (rewrite Hcov; exact Hc2).
  pose proof (pi_total _ Hp). rewrite Hm in *.
  assert (Hused : forall g, frame_ok g -> used (g_bitmap p') g =
       if bool_decide (g ∈ fr) then false else used (g_bitmap (bd_pmm b)) g).
  { intros g Hg. rewrite Hu, bool_decide_block by done.
    case_bool_decide as Hin1; case_bool_decide as Hin2; try done; [|exfalso; auto].
    assert (g ∈ fr ++ cover b) as [?|Hin]%elem_of_app by (rewrite Hcov; apply elem_of_app; by left); [done|].
    symmetry. by apply Hs. }
  split; [done|]. split; [|do 3 (split; [done|]); exact (push_blocks _ _ _ _ Hr2)]. split; cbn [bd_pmm set_pmm g_buddy_initialized bd_total_frames]; try congruence.
  - by destruct Hb2.
  - intros f Hf. rewrite Hc' in Hf. rewrite Hused.
    + case_bool_decide; [done|]. apply elem_of_app in Hf as [Hf|Hf]; [done|by apply Hs].
    + unfold frame_ok. assert (0 < f < bd_total_frames b); [|lia]. apply Hrng. by rewrite <- Hcov.
Qed.

Lemma free_block_run b a count : buddy_inv b -> 2 <= count <= 1024 -> 1 <= g_pool_free b ->
  aligned (order_for_pages count) a ->
  (forall f, f ∈ block_frames (order_for_pages count) a -> 0 < f < bd_total_frames b /\ f ∉ cover b) ->
  (exists b', pmm_buddy_free_pages a count b = Some (tt, b') /\
    cover b' ≡ₚ block_frames (order_for_pages count) a ++ cover b /\
    released (a / PAGE_SIZE) (2 ^ order_for_pages count) (bd_pmm b) (bd_pmm b') /\ buddy_inv b' /\
    merged_in (order_for_pages count) a b b' /\ (coalesced b -> coalesced b')) \/
  (pmm_buddy_free_pages a count b = None /\
    merges_too_far b (block_frames (order_for_pages count) a)).
Proof.
  intros Hinv Hc Hpool Ha Hfr. pose proof (bi_lists b Hinv) as Hb. pose proof (bi_init b Hinv) as Hi.
  destruct (order_for_pages_spec count) as (Ho&_&_); [lia|]. set (o := order_for_pages count) in *.
  assert (a <> 0) as Ha0.
  { intros ->. destruct (Hfr (0 / PAGE_SIZE)) as [? _]; [apply block_first; lia|].
    rewrite Z.div_0_l in * by done. lia. }
  assert (Heq : pmm_buddy_free_pages a count b =
    (' (cur_addr, cur_order) <~ coalesce (Z.to_nat (PMM_BUDDY_MAX_ORDER - o)) a o ;;
     push cur_order cur_addr ;;; for_range 0 (Z.shiftl 1 cur_order)
       (fun i => on_pmm (pmm_mark_free (u64 (cur_addr + i * PAGE_SIZE))))) b).
  { unfold pmm_buddy_free_pages. unfold mbind_ at 1. unfold mget. rewrite Hi.
    rewrite !(proj2 (Z.eqb_neq _ _)) by lia. done. }
  rewrite Heq. clear Heq.
  destruct (coalesce_run (Z.to_nat (PMM_BUDDY_MAX_ORDER - o)) b a o Hb)
    as (a'&o'&b1&Hr&Hb1&Ha'&Ho'&Hcov&Hsub&Hp1&Ht1&Hi1&Hm1); [lia|unfold PMM_BUDDY_MAX_ORDER in *; lia|done|done|].
  mstep Hr. cbv beta iota. destruct (decide (o' = PMM_BUDDY_MAX_ORDER)) as [->|Hne]; [right|left].
  { split.
    - unfold mbind_ at 1. by rewrite push_too_far.
    - exists a'. split; [done|]. intros f Hf. rewrite Hcov. apply elem_of_app. by left. }
  destruct (free_finish b b1 (block_frames o a) a' o') as (b'&Hr'&Hc'&Hinv'&Hu&Htp&Hip&Hblk); try done; try lia.
  - apply NoDup_app. split; [apply NoDup_seqZ|]. split; [|apply (lo_nodup b Hb)]. intros f Hf. by apply Hfr.
  - intros f Hf. by apply Hfr.
  - assert (merged_in o a b b') as Hmerge.
    { destruct (coalesce_blocks _ _ _ _ _ _ _ Hr) as [Hold Hno]. exists o', a'. split; [lia|]. split; [done|]. split; [done|].
      split; [apply Hblk; by left|]. split; [|intros o1 x [?|?]%Hblk; auto]. rewrite Hblk. intros [[_ E]|Hbd].
      - revert E. apply buddy_addr_ne. unfold PMM_BUDDY_MAX_ORDER in *. lia.
      - revert Hbd. apply Hno. unfold PMM_BUDDY_MAX_ORDER in *. lia. }
    exists b'. split; [done|]. split; [done|]. split; [|split; [done|split; [done|apply (merged_coalesced o a); [done|lia]]]]. split; [|done].
    intros g Hg. by rewrite Hu, bool_decide_block.
Qed.

(** * Seeding *)

Lemma off_boundary_spec k o : 0 <= o -> off_boundary k o = false <-> (2 ^ o | k).
Proof.
  intros Ho. unfold off_boundary. rewrite Z.shiftl_1_l.
  replace (2 ^ o - 1) with (Z.ones o) by (rewrite Z.ones_equiv; lia). rewrite Z.land_ones by done.
  rewrite negb_false_iff, Z.eqb_eq. apply Z.mod_divide. lia.
Qed.
Lemma off_boundary_0 k : off_boundary k 0 = false.
Proof. apply off_boundary_spec; [done|]. apply Z.divide_1_l. Qed.

Lemma lower_aligned_spec n k o : o = Z.of_nat n ->
  0 <= lower_aligned n k o <= o /\ (2 ^ lower_aligned n k o | k).
Proof.
  revert o. induction n as [|n IH]; intros o ->; cbn [lower_aligned].
  { split; [lia|]. apply Z.divide_1_l. }
  destruct (Z.ltb_spec 0 (Z.of_nat (S n))); [cbn [andb]|lia].
  destruct (off_boundary k (Z.of_nat (S n))) eqn:E.
  - destruct (IH (Z.of_nat (S n) - 1)); [lia|]. split; [lia|done].
  - split; [lia|]. apply off_boundary_spec; [lia|done].
Qed.
Lemma lower_fit_spec n r k o : o = Z.of_nat n -> 1 <= r -> (2 ^ o | k) ->
  0 <= lower_fit n r o <= o /\ (2 ^ lower_fit n r o | k) /\ 2 ^ lower_fit n r o <= r.
Proof.
  revert o. induction n as [|n IH]; intros o -> Hr Hk; cbn [lower_fit].
  { split; [lia|]. split; [done|]. simpl. lia. }
  rewrite Z.shiftl_1_l. destruct (Z.ltb_spec r (2 ^ Z.of_nat (S n))); cbn [andb]; [|repeat split; done || lia].
  rewrite (proj2 (Z.ltb_lt 0 _)) by lia.
  destruct (IH (Z.of_nat (S n) - 1)) as (?&?&?); [lia|done| |repeat split; done || lia].
  etrans; [|exact Hk]. exists 2. rewrite <- Z.pow_succ_r by lia. f_equal. lia.
Qed.

(** What the next block of a run must satisfy. *)
Definition next_ok (k r o : Z) : Prop := 0 <= o <= 10 /\ (2 ^ o | k) /\ 2 ^ o <= r.

Lemma order_loop_range n pages o bl : o <= order_loop n pages o bl <= o + Z.of_nat n.
Proof.
  revert o bl. induction n as [|n IH]; intros o bl; cbn [order_loop]; [lia|].
  case_match; [|lia]. specialize (IH (o + 1) (Z.shiftl bl 1)). lia.
Qed.
Lemma order_for_pages_range pages : 0 <= order_for_pages pages <= 10.
Proof.
  unfold order_for_pages. case_match; [lia|].
  pose proof (order_loop_range (Z.to_nat (PMM_BUDDY_MAX_ORDER - 1)) pages 0 1). change (Z.of_nat _) with 10 in *. lia.
Qed.

Lemma tail_order_ok k r : 1 <= r -> next_ok k r (tail_order (k * PAGE_SIZE) r).
Proof.
  intros Hr. unfold tail_order. rewrite shiftr_page, Z_div_mult by done.
  pose proof (order_for_pages_range (u32 r)).
  destruct (lower_aligned_spec (Z.to_nat (order_for_pages (u32 r))) k (order_for_pages (u32 r))) as [? Hk]; [lia|].
  set (o := lower_aligned _ _ _) in *.
  destruct (lower_fit_spec (Z.to_nat o) r k o) as (?&?&?); [lia|done|done|]. repeat split; done || lia.
Qed.
Lemma seed_order_ok k r : 1 <= r -> next_ok k r (seed_order (k * PAGE_SIZE) r).
Proof.
  intros Hr. unfold seed_order. rewrite shiftr_page, Z_div_mult by done.
  pose proof (order_for_pages_range (u32 r)). set (o := order_for_pages (u32 r)) in *.
  assert (Hal : forall o', 0 <= o' <= 10 /\ (2 ^ o' | k) ->
    next_ok k r (if r <? Z.shiftl 1 o' then lower_fit (Z.to_nat o') r o' else o')).
  { intros o' [Ho' Hk]. rewrite Z.shiftl_1_l. destruct (Z.ltb_spec r (2 ^ o')); [|done].
    destruct (lower_fit_spec (Z.to_nat o') r k o') as (?&?&?); [lia|done|done|]. repeat split; done || lia. }
  apply Hal. clear Hal. destruct (off_boundary k o) eqn:E; [|split; [done|apply off_boundary_spec; [lia|done]]].
  assert (0 < o) by (destruct (decide (o = 0)) as [E0|]; [rewrite E0, off_boundary_0 in E; done|lia]).
  assert (u32 (o - 1) = o - 1) as -> by (unwrap; apply wrap_small; unfold in_w; lia).
  rewrite (proj2 (Z.leb_gt _ _)) by (unfold PMM_BUDDY_MAX_ORDER; lia).
  destruct (off_boundary k (o - 1)) eqn:E1; [|split; [lia|apply off_boundary_spec; [lia|done]]].
  destruct (lower_aligned_spec (Z.to_nat (o - 1)) k (o - 1)); [lia|]. split; [lia|done].
Qed.

(** Cutting a run of frames into blocks. *)
Lemma seed_run_spec next n b k r :
  (forall k r, 1 <= r -> next_ok k r (next (k * PAGE_SIZE) r)) ->
  lists_ok b -> 0 <= r <= Z.of_nat n -> 1 <= k -> k + r <= PMM_MAX_FRAMES ->
  Z.of_nat (length (cover b)) + r <= BUDDY_NODE_POOL_MAX ->
  BUDDY_NODE_POOL_MAX <= g_pool_free b + Z.of_nat (length (cover b)) ->
  (forall f, k <= f < k + r -> f < bd_total_frames b /\ f ∉ cover b) ->
  exists b', seed_run next n (k * PAGE_SIZE) r b = Some (tt, b') /\ lists_ok b' /\
    cover b' ≡ₚ seqZ k r ++ cover b /\
    BUDDY_NODE_POOL_MAX <= g_pool_free b' + Z.of_nat (length (cover b')) /\
    bd_total_frames b' = bd_total_frames b /\ bd_pmm b' = bd_pmm b.
Proof.
  intros Hnext. rewrite PMM_MAX_FRAMES_val. revert b k r. induction n as [|n IH]; intros b k r Hb Hr Hk Hmax Hroom Hpool Hfr.
  { exists b. replace r with 0 by lia. done. }
  cbn [seed_run]. destruct (Z.ltb_spec 0 r); [|exists b; replace r with 0 by lia; done].
  destruct (Hnext k r) as (Ho&Hdiv&Hle); [lia|]. set (o := next (k * PAGE_SIZE) r) in *.
  pose proof (Z.pow_pos_nonneg 2 o ltac:(lia) ltac:(lia)).
  assert (2 ^ o <= 2 ^ 10) by (apply Z.pow_le_mono_r; lia).
  rewrite !Z.shiftl_1_l, !(proj2 (Z.leb_le _ _)) by (change PMM_BUDDY_MAX_PAGES with 2048; lia). cbn [andb].
  assert (Hbf : block_frames o (k * PAGE_SIZE) = seqZ k (2 ^ o)) by (unfold block_frames; by rewrite Z_div_mult).
  destruct (push_run b o (k * PAGE_SIZE) Hb) as (b1&Hr1&Hb1&Hc1&_&_&Hp1&Ht1&Hi1&Hm1).
  { lia. } { unfold PMM_BUDDY_MAX_ORDER. lia. } { destruct Hdiv as [j Hj]. exists j. by rewrite <- Hj. }
  { intros f. rewrite Hbf, elem_of_seqZ. intros Hf. destruct (Hfr f); [lia|]. split; [lia|done]. }
  mstep Hr1. rewrite Hbf in Hc1. pose proof (Permutation_length Hc1) as Hl1.
  rewrite length_app, length_seqZ in Hl1.
  replace (u64 (k * PAGE_SIZE + 2 ^ o * PAGE_SIZE)) with ((k + 2 ^ o) * PAGE_SIZE)
    by (unwrap; rewrite wrap_small; unfold in_w, PAGE_SIZE; lia).
  destruct (IH b1 (k + 2 ^ o) (r - 2 ^ o)) as (b'&Hr'&Hb'&Hc'&Hp'&Ht'&Hm'); [done|lia|lia|lia|lia|lia| |].
  { intros f Hf. destruct (Hfr f) as [? Hn]; [lia|]. rewrite Ht1, Hc1, elem_of_app, elem_of_seqZ. split; [done|].
    intros [?|?]; [lia|done]. }
  exists b'. split; [done|]. split; [done|]. split; [|split; [done|split; congruence]].
  rewrite Hc', Hc1, app_assoc, (Permutation_app_comm (seqZ (k + 2 ^ o) _)), <- (seqZ_app k) by lia.
  by replace (2 ^ o + (r - 2 ^ o)) with r by lia.
Qed.

(** Free frames below [n]. *)
Definition free_list (p : pmm) (n : Z) : list Z :=
  filter (fun f => used (g_bitmap p) f = false) (seqZ 0 n).

Lemma free_list_snoc p f : 0 <= f ->
  free_list p (f + 1) = free_list p f ++ (if used (g_bitmap p) f then [] else [f]).
Proof.
  intros. unfold free_list. rewrite seqZ_app, filter_app by lia. f_equal.
  rewrite seqZ_1, Z.add_0_l, filter_cons. destruct (used _ _); done.
Qed.
Lemma free_list_nodup p n : NoDup (free_list p n).
Proof. apply NoDup_filter, NoDup_seqZ. Qed.
Lemma free_list_mono p f n : 0 <= f <= n -> (length (free_list p f) <= length (free_list p n))%nat.
Proof.
  intros. unfold free_list. replace n with (f + (n - f)) by lia. rewrite seqZ_app, filter_app, length_app by lia. lia.
Qed.

(** The state of the scan at frame [f]: blocks on the lists and the open run of
    [rl] frames together are the free frames seen so far. *)
Record scan_inv (p : pmm) (f rs rl : Z) (b : buddy) : Prop := ScanInv {
  si_lists : lists_ok b;
  si_pmm : bd_pmm b = p;
  si_total : bd_total_frames b = g_total_frames p;
  si_run : 0 <= rl <= f /\ (rl <> 0 -> rs = f - rl /\ 1 <= rs);
  si_cover : seqZ (f - rl) rl ++ cover b ≡ₚ free_list p f;
  si_pool : BUDDY_NODE_POOL_MAX <= g_pool_free b + Z.of_nat (length (cover b))
}.

(** Closing the open run, with either of the two copies of the cutting loop. *)
Lemma close_run p f rs rl b next :
  (forall k r, 1 <= r -> next_ok k r (next (k * PAGE_SIZE) r)) ->
  pmm_inv p -> g_free_frames p <= BUDDY_NODE_POOL_MAX -> f <= g_total_frames p -> scan_inv p f rs rl b ->
  exists b', mwhen (0 <? rl) (seed_run next (Z.to_nat rl) (u64 (Z.shiftl rs PAGE_SHIFT)) rl) b = Some (tt, b') /\
    scan_inv p f rs 0 b'.
Proof.
  intros Hnext Hp Hfree Hf [Hb Hbp Ht [Hrl Hrs] Hc Hpool].
  destruct (Z.ltb_spec 0 rl) as [Hpos|]; cbn [mwhen].
  2:{ exists b. split; [done|]. assert (rl = 0) as -> by lia. by split. }
  destruct Hrs as [Ers Hrs1]; [lia|]. pose proof (pi_total p Hp) as Htot.
  replace (u64 (Z.shiftl rs PAGE_SHIFT)) with (rs * PAGE_SIZE).
  2:{ rewrite <- (frame_to_addr_val rs); [done|]. unfold frame_ok. lia. }
  pose proof (Permutation_length Hc) as Hlen. rewrite length_app, length_seqZ in Hlen.
  pose proof (free_list_mono p f (g_total_frames p) ltac:(lia)) as Hmono.
  pose proof (pi_free p Hp) as Hcount. unfold count_free in Hcount. fold (free_list p (g_total_frames p)) in Hcount.
  pose proof (free_list_nodup p f) as Hnd. rewrite <- Hc in Hnd. apply NoDup_app in Hnd as (_&Hd&_).
  destruct (seed_run_spec next (Z.to_nat rl) b rs rl Hnext Hb) as (b'&Hr&Hb'&Hc'&Hp'&Ht'&Hm'); [lia|lia|lia|lia|done| |].
  { intros g Hg. split; [lia|]. apply Hd, elem_of_seqZ. lia. }
  exists b'. split; [done|]. split; try done; try congruence; [split; lia|].
  rewrite Hc', <- Hc, Ers. done.
Qed.

Lemma seed_scan_spec p n f rs rl b :
  pmm_inv p -> g_free_frames p <= BUDDY_NODE_POOL_MAX -> 0 <= f -> f + Z.of_nat n = g_total_frames p ->
  scan_inv p f rs rl b ->
  exists rs' rl' b', seed_scan n f rs rl b = Some ((rs', rl'), b') /\ scan_inv p (g_total_frames p) rs' rl' b'.
Proof.
  intros Hp Hfree. revert f rs rl b. induction n as [|n IH]; intros f rs rl b Hf Hn Hs.
  { exists rs, rl, b. replace f with (g_total_frames p) in Hs by lia. done. }
  cbn [seed_scan]. pose proof (pi_total p Hp) as Htot. pose proof (si_pmm _ _ _ _ _ Hs) as Ebp.
  replace (u64 (Z.shiftl f PAGE_SHIFT)) with (f * PAGE_SIZE).
  2:{ rewrite <- (frame_to_addr_val f); [done|]. unfold frame_ok. lia. }
  assert (Hq : on_pmm (pmm_is_free (f * PAGE_SIZE)) b = Some (if used (g_bitmap p) f then 0 else 1, b)).
  { unfold on_pmm. rewrite Ebp, is_free_spec by (done || lia). subst p. by destruct b. }
  mstep Hq. pose proof (free_list_snoc p f Hf) as Hsn. destruct (used (g_bitmap p) f) eqn:Hu; cbn [Z.eqb].
  - destruct (close_run p f rs rl b seed_order seed_order_ok Hp Hfree ltac:(lia) Hs) as (b'&Hr&Hs').
    mstep Hr. replace (if 0 <? rl then 0 else rl) with 0.
    2:{ destruct (Z.ltb_spec 0 rl); [done|]. pose proof (si_run _ _ _ _ _ Hs). lia. }
    apply IH; [lia|lia|]. destruct Hs' as [? ? ? _ Hc ?]. split; try done; [split; lia|].
    rewrite Hsn, app_nil_r. done.
  - destruct Hs as [Hb _ Ht [Hrl Hrs] Hc Hpool]. apply IH; [lia|lia|]. split; try done.
    + assert (f <> 0) by (intros ->; rewrite (pi_zero p Hp) in Hu; done).
      split; [lia|]. intros _. destruct (Z.eqb_spec rl 0); [lia|]. destruct Hrs; [done|]. lia.
    + rewrite Hsn, <- Hc. replace (f + 1 - (rl + 1)) with (f - rl) by lia.
      rewrite seqZ_app by lia. replace (f - rl + rl) with f by lia.
      rewrite seqZ_1, <- !app_assoc.
      apply Permutation_app_head, Permutation_app_comm.
Qed.

Lemma empty_lists_ok b t : lists_ok (set_bd_total t (set_lists (replicate (Z.to_nat PMM_BUDDY_MAX_ORDER) []) (set_pool BUDDY_NODE_POOL_MAX b))).
Proof.
  split; [done| | | |]; cbn [set_bd_total set_lists set_pool g_free_lists].
  - intros o l Hl. apply zget_Some in Hl as [_ [-> _]%lookup_replicate]. constructor.
  - constructor.
  - done.
  - intros f Hf. change (f ∈ []) in Hf. set_solver.
Qed.

Lemma buddy_init_spec b : pmm_inv (bd_pmm b) -> g_initialized (bd_pmm b) = true ->
  g_free_frames (bd_pmm b) <= BUDDY_NODE_POOL_MAX ->
  exists b', pmm_buddy_init b = Some (tt, b') /\ buddy_inv b' /\ bd_pmm b' = bd_pmm b /\
    cover b' ≡ₚ free_list (bd_pmm b) (g_total_frames (bd_pmm b)).
Proof.
  intros Hp Hi Hfree. set (p := bd_pmm b) in *. pose proof (pi_total p Hp).
  unfold pmm_buddy_init. unfold mbind_ at 1 2 3 4, pool_init, mmodify at 1 2 3.
  unfold on_pmm, pmm_get_stats. unfold mbind_ at 1, mget, mret. cbn [total_frames set_lists set_pool bd_pmm].
  set (b1 := set_bd_total _ _).
  assert (Hb1 : scan_inv p 0 0 0 b1).
  { split; try done. destruct (empty_lists_ok b (g_total_frames p)). by split. }
  destruct (seed_scan_spec p (Z.to_nat (g_total_frames p)) 0 0 0 b1) as (rs&rl&b2&Hr2&Hs2); [done|done|lia|lia|done|].
  mstep Hr2. cbv beta iota.
  destruct (close_run p (g_total_frames p) rs rl b2 tail_order tail_order_ok) as (b3&Hr3&Hs3); [done|done|lia|done|].
  mstep Hr3. eexists. split; [reflexivity|]. destruct Hs3 as [Hb3 Hp3 Ht3 _ Hc3 _].
  split; [|split; [done|exact Hc3]]. split; cbn [set_buddy_initialized bd_pmm bd_total_frames]; try congruence.
  - by destruct Hb3.
  - done.
  - intros f Hf. change (f ∈ cover b3) in Hf. change (cover b3) with (seqZ (g_total_frames p - 0) 0 ++ cover b3) in Hf.
    rewrite Hc3 in Hf. apply list_elem_of_filter in Hf as [? _]. by rewrite Hp3.
Qed.

(** * Properties *)

(** When the bitmap has at most as many free frames as the node pool has nodes,
    seeding the lists terminates without exhausting the pool, leaves the bitmap
    alone, and puts every free frame on exactly one list, in blocks aligned to their
    size. *)
Theorem pmm_buddy_init_covers b :
  pmm_inv (bd_pmm b) -> g_initialized (bd_pmm b) = true ->
  g_free_frames (bd_pmm b) <= BUDDY_NODE_POOL_MAX ->
  exists b', pmm_buddy_init b = Some (tt, b') /\ buddy_inv b' /\ bd_pmm b' = bd_pmm b /\
    cover b' ≡ₚ free_list (bd_pmm b) (g_total_frames (bd_pmm b)).
Proof. apply buddy_init_spec. Qed.

(** C6: with the lists and the bitmap in agreement, a request for 2 to 1024 frames that
    some list can serve returns a block of the least sufficient power of two, aligned
    to its size; exactly its frames leave the lists and become used in the bitmap,
    and the agreement is kept. *)
Theorem pmm_buddy_alloc_exact b count :
  buddy_inv b -> 2 <= count <= 1024 -> 10 <= g_pool_free b -> has_block b (order_for_pages count) ->
  exists a b', pmm_buddy_alloc_pages count b = Some (a, b') /\ aligned (order_for_pages count) a /\
    count <= 2 ^ order_for_pages count < 2 * count /\
    cover b ≡ₚ block_frames (order_for_pages count) a ++ cover b' /\
    claims (a / PAGE_SIZE) (2 ^ order_for_pages count) (bd_pmm b) (bd_pmm b') /\ buddy_inv b'.
Proof.
  intros Hinv Hc Hp Hh. destruct (alloc_block_run b count Hinv Hc Hp Hh) as (a&b'&?&?&?&?&?).
  destruct (order_for_pages_spec count) as (?&?&Hlow); [lia|]. exists a, b'.
  split; [done|]. split; [done|]. split; [|done]. set (r := order_for_pages count) in *.
  destruct (decide (r = 0)) as [E|]; [rewrite E in *; lia|]. specialize (Hlow ltac:(lia)).
  replace r with (Z.succ (r - 1)) at 2 by lia. rewrite Z.pow_succ_r by lia. lia.
Qed.

(** C7: returning a block that is not on the lists puts exactly its frames back on the lists and frees them in the bitmap.
    The block is merged: its frames end up in one block at least as large that has no free buddy, every other block on the
    lists was there before, and if no free block had a free buddy before, none has after.  The only other outcome is the
    out-of-bounds push of a merged block of order PMM_BUDDY_MAX_ORDER, when the returned frames complete a free aligned run
    of 2048 frames. *)
Theorem pmm_buddy_free_exact b a count :
  buddy_inv b -> 2 <= count <= 1024 -> 1 <= g_pool_free b -> aligned (order_for_pages count) a ->
  (forall f, f ∈ block_frames (order_for_pages count) a -> 0 < f < bd_total_frames b /\ f ∉ cover b) ->
  (exists b', pmm_buddy_free_pages a count b = Some (tt, b') /\
    cover b' ≡ₚ block_frames (order_for_pages count) a ++ cover b /\
    released (a / PAGE_SIZE) (2 ^ order_for_pages count) (bd_pmm b) (bd_pmm b') /\ buddy_inv b' /\
    merged_in (order_for_pages count) a b b' /\ (coalesced b -> coalesced b')) \/
  (pmm_buddy_free_pages a count b = None /\
    merges_too_far b (block_frames (order_for_pages count) a)).
Proof. apply free_block_run. Qed.

(** ** Witnesses and counterexamples *)

Definition boot_buddy (p : pmm) : buddy := Buddy 0 [] 0 false p.

(** [small_pmm] with its free frames on the lists. *)
Definition small_buddy : buddy :=
  Buddy 16381 [[8192; 4096]; []; [16384]; []; []; []; []; []; []; []; []] 8 true small_pmm.

Lemma pmm_buddy_init_covers_witness :
  exists b', pmm_buddy_init (boot_buddy small_pmm) = Some (tt, b') /\ buddy_inv b' /\ bd_pmm b' = small_pmm /\
    cover b' ≡ₚ free_list small_pmm 8.
Proof.
  apply (pmm_buddy_init_covers (boot_buddy small_pmm)); [apply small_pmm_inv|reflexivity|vm_compute; done].
Defined.

Lemma small_buddy_inv : buddy_inv small_buddy.
Proof.
  destruct (buddy_init_spec (boot_buddy small_pmm) small_pmm_inv eq_refl ltac:(vm_compute; done)) as (b'&Hr&Hb'&_).
  assert (pmm_buddy_init (boot_buddy small_pmm) = Some (tt, small_buddy)) as E by (vm_compute; reflexivity).
  rewrite E in Hr. injection Hr as <-. done.
Qed.

Lemma pmm_buddy_alloc_exact_witness :
  exists a b', pmm_buddy_alloc_pages 2 small_buddy = Some (a, b') /\ aligned (order_for_pages 2) a /\
    2 <= 2 ^ order_for_pages 2 < 4 /\
    cover small_buddy ≡ₚ block_frames (order_for_pages 2) a ++ cover b' /\
    claims (a / PAGE_SIZE) (2 ^ order_for_pages 2) small_pmm (bd_pmm b') /\ buddy_inv b'.
Proof.
  apply (pmm_buddy_alloc_exact small_buddy 2); [apply small_buddy_inv|lia|vm_compute; done|].
  exists 2, 16384, []. split; [vm_compute; done|reflexivity].
Defined.

(** [small_buddy] after an allocation of two frames. *)
Definition small_buddy2 : buddy :=
  Buddy 16381 [[8192; 4096]; [24576]; []; []; []; []; []; []; []; []; []] 8 true
    (Pmm (UINT64_MAX - 0xC6 :: replicate 16383 UINT64_MAX) 8 4 0 true).

Lemma small_buddy2_inv : buddy_inv small_buddy2.
Proof.
  destruct (alloc_block_run small_buddy 2 small_buddy_inv ltac:(lia) ltac:(vm_compute; done)) as (a&b'&Hr&_&_&_&Hb').
  { exists 2, 16384, []. split; [vm_compute; done|reflexivity]. }
  assert (pmm_buddy_alloc_pages 2 small_buddy = Some (16384, small_buddy2)) as E by (vm_compute; reflexivity).
  rewrite E in Hr. injection Hr as <- <-. done.
Qed.

Lemma pmm_buddy_free_exact_witness :
  (exists b', pmm_buddy_free_pages 16384 2 small_buddy2 = Some (tt, b') /\
    cover b' ≡ₚ block_frames (order_for_pages 2) 16384 ++ cover small_buddy2 /\
    released 4 2 (bd_pmm small_buddy2) (bd_pmm b') /\ buddy_inv b' /\
    merged_in (order_for_pages 2) 16384 small_buddy2 b' /\ (coalesced small_buddy2 -> coalesced b')) \/
  (pmm_buddy_free_pages 16384 2 small_buddy2 = None /\
    merges_too_far small_buddy2 (block_frames (order_for_pages 2) 16384)).
Proof.
  apply (pmm_buddy_free_exact small_buddy2 16384 2); [apply small_buddy2_inv|lia|vm_compute; done| |].
  - exists 2. reflexivity.
  - change (block_frames (order_for_pages 2) 16384) with [4; 5].
    change (cover small_buddy2) with [2; 1; 6; 7]. intros f Hf. cbn [bd_total_frames small_buddy2].
    set_unfold. lia.
Defined.

(** Single frames come straight from the bitmap and stay on the buddy lists, so a
    later request for two frames is given memory that is already in use: with frames 4
    to 7 free, the first call returns frame 4 and the second returns frames 4 and 5. *)
Theorem buddy_single_frame_overlap :
  let p := Pmm (UINT64_MAX - 0xF0 :: replicate 16383 UINT64_MAX) 8 4 0 true in
  fst <$> (pmm_buddy_init ;;; x <~ pmm_buddy_alloc_pages 1 ;;
           y <~ pmm_buddy_alloc_pages 2 ;; return (x, y)) (boot_buddy p) = Some (0x4000, 0x4000).
Proof. vm_compute. reflexivity. Qed.

(** Requests for 1025 to 2048 frames pass the size check but are served from order
    10: in any state of agreement with a free block of order 10, the block that is
    returned has only 1024 frames marked used. *)
Theorem buddy_large_request_short count : 1024 < count <= PMM_BUDDY_MAX_PAGES ->
  forall b, pmm_buddy_alloc_pages count b =
    if negb (g_buddy_initialized b) then Some (0, b) else
    (found <~ find_block 1 10 10 ;;
     match found with
     | Some addr =>
       for_range 0 1024 (fun i => on_pmm (pmm_mark_used (u64 (addr + i * PAGE_SIZE)))) ;;; return addr
     | None => on_pmm (pmm_alloc_frames count)
     end) b.
Proof.
  change PMM_BUDDY_MAX_PAGES with 2048. intros Hc b.
  assert (Hord : forall n o, 0 <= o -> o + Z.of_nat n = 10 -> order_loop n count o (2 ^ o) = 10).
  { induction n as [|n IH]; intros o Ho Hn; cbn [order_loop]; [lia|].
    assert (2 ^ o <= 2 ^ 10) by (apply Z.pow_le_mono_r; lia). rewrite (proj2 (Z.ltb_lt _ _)) by lia.
    replace (Z.shiftl (2 ^ o) 1) with (2 ^ (o + 1)) by (rewrite Z.shiftl_mul_pow2, Z.pow_add_r by lia; lia).
    apply IH; lia. }
  assert (order_for_pages count = 10) as E.
  { unfold order_for_pages. rewrite (proj2 (Z.leb_gt _ _)) by lia. apply (Hord 10%nat 0); lia. }
  unfold pmm_buddy_alloc_pages. unfold mbind_ at 1. unfold mget.
  rewrite !(proj2 (Z.eqb_neq count _)), E by lia. rewrite orb_false_r. destruct (negb _); [done|].
  change PMM_BUDDY_MAX_PAGES with 2048. rewrite (proj2 (Z.ltb_ge _ _)) by lia. done.
Qed.

Lemma buddy_large_request_short_witness :
  pmm_buddy_alloc_pages 1500 small_buddy =
    (found <~ find_block 1 10 10 ;;
     match found with
     | Some addr =>
       for_range 0 1024 (fun i => on_pmm (pmm_mark_used (u64 (addr + i * PAGE_SIZE)))) ;;; return addr
     | None => on_pmm (pmm_alloc_frames 1500)
     end) small_buddy.
Proof. apply (buddy_large_request_short 1500 ltac:(change PMM_BUDDY_MAX_PAGES with 2048; lia) small_buddy). Defined.
