(* ===== verification/BlockDev.v ===== *)
(** * Block devices (src/fs/block_dev.c, block_dev.h)

    A table of [BLOCK_DEV_MAX] devices, each with the function pointers of its
    driver, and sector I/O by calling them.  The drivers are outside this file: a
    driver is a pair of functions on a world [W] (the hardware), kept in the table as
    the C code keeps the pointers.  [BlockIO] is what the table promises to the
    buffer cache, [BlockIOLaws] the behaviour the cache's theorems rely on, and the
    instances at the end discharge it for a table with one working disk. *)

From stdpp Require Import base numbers gmap list options.
From S2P Require Import Prelude.

(** ** Data *)

Definition BLOCK_DEV_MAX : Z := 16.
Definition BLOCK_DEV_SECTOR_SIZE : Z := 512.

Inductive block_status :=
  BLOCK_OK | BLOCK_ERR_NOT_FOUND | BLOCK_ERR_NULL_DEV | BLOCK_ERR_IO | BLOCK_ERR_INVALID
| BLOCK_ERR_NULL_BUF | BLOCK_ERR_TOO_MANY.
#[global] Instance block_status_eq_dec : EqDecision block_status.
Proof. solve_decision. Defined.

(** A driver's [read_sector] fills the caller's buffer with the bytes it returns;
    [write_sector] is given the sector's bytes. *)
Definition block_read_fn (W : Type) := Z -> Z -> W -> block_status * list Z * W.
Definition block_write_fn (W : Type) := Z -> Z -> list Z -> W -> block_status * W.

Record block_device (W : Type) := BlockDevice {
  read_sector : option (block_read_fn W);
  write_sector : option (block_write_fn W);
  sector_size : Z;
  total_sectors : Z;
  present : bool
}.
Arguments BlockDevice {W} _ _ _ _ _.
Arguments read_sector {W} _.
Arguments write_sector {W} _.
Arguments sector_size {W} _.
Arguments total_sectors {W} _.
Arguments present {W} _.

(** The device table and the hardware behind it. *)
Record devtab (W : Type) := Devtab { g_devices : list (block_device W); world : W }.
Arguments Devtab {W} _ _.
Arguments g_devices {W} _.
Arguments world {W} _.

Section BlockDev.
Context {W : Type}.

Definition null_device : block_device W := BlockDevice None None 0 0 false.

(** ** Registration *)

Definition block_dev_init : M (devtab W) unit :=
  mmodify (fun t => Devtab (replicate (Z.to_nat BLOCK_DEV_MAX) null_device) (world t)).

(** First slot that is not in use. *)
Fixpoint free_slot (l : list (block_device W)) (i : Z) : option Z :=
  match l with
  | [] => None
  | d :: l' => if negb (present d) then Some i else free_slot l' (i + 1)
  end.

(** [None] for [dev] or [dev_id] is a NULL pointer; the result carries the ID. *)
Definition block_dev_register (dev : option (block_device W)) (dev_id : option unit)
  : M (devtab W) (block_status * option Z) :=
  match dev, dev_id with
  | None, _ => return (BLOCK_ERR_NULL_DEV, None)
  | Some _, None => return (BLOCK_ERR_NULL_BUF, None)
  | Some d, Some _ =>
    match read_sector d, write_sector d with
    | Some _, Some _ =>
      t <~ mget ;;
      match free_slot (g_devices t) 0 with
      | Some i =>
        l <~ mlift (zset (g_devices t) i
               (BlockDevice (read_sector d) (write_sector d) (sector_size d) (total_sectors d) true)) ;;
        mput (Devtab l (world t)) ;;; return (BLOCK_OK, Some i)
      | None => return (BLOCK_ERR_TOO_MANY, None)
      end
    | _, _ => return (BLOCK_ERR_NULL_DEV, None)
    end
  end.

(** The slot of a registered device. *)
Definition lookup_dev (t : devtab W) (dev_id : Z) : option (block_device W) :=
  if BLOCK_DEV_MAX <=? dev_id then None else
  d ← zget (g_devices t) dev_id; if present d then Some d else None.

Definition block_dev_unregister (dev_id : Z) : M (devtab W) block_status :=
  t <~ mget ;;
  match lookup_dev t dev_id with
  | None => return BLOCK_ERR_NOT_FOUND
  | Some _ =>
    l <~ mlift (zset (g_devices t) dev_id null_device) ;;
    mput (Devtab l (world t)) ;;; return BLOCK_OK
  end.

Definition block_dev_get (dev_id : Z) : M (devtab W) (option (block_device W)) :=
  mgets (fun t => lookup_dev t dev_id).

(** ** Sector I/O *)

Definition sector_sz (d : block_device W) : Z :=
  if sector_size d =? 0 then BLOCK_DEV_SECTOR_SIZE else sector_size d.

(** Sectors [s, s + n) of the request; [buf] is the whole buffer. *)
Fixpoint read_loop (n : nat) (rd : block_read_fn W) (dev_id lba s sz : Z) (buf : list Z)
  : M (devtab W) (block_status * list Z) :=
  match n with
  | O => return (BLOCK_OK, buf)
  | S n' =>
    t <~ mget ;;
    let '(st, bytes, w) := rd dev_id (u32 (lba + s)) (world t) in
    mput (Devtab (g_devices t) w) ;;;
    buf' <~ mlift (splice (s * sz) bytes buf) ;;
    if decide (st = BLOCK_OK) then read_loop n' rd dev_id lba (s + 1) sz buf'
    else return (st, buf')
  end.

Definition block_dev_read (dev_id lba count : Z) (buf : option (list Z))
  : M (devtab W) (block_status * option (list Z)) :=
  t <~ mget ;;
  match lookup_dev t dev_id, buf with
  | None, _ => return (BLOCK_ERR_NOT_FOUND, buf)
  | Some _, None => return (BLOCK_ERR_NULL_BUF, buf)
  | Some d, Some b =>
    if count =? 0 then return (BLOCK_ERR_INVALID, buf) else
    match read_sector d with
    | None => return (BLOCK_ERR_NULL_DEV, buf)
    | Some rd =>
      ' (st, b') <~ read_loop (Z.to_nat count) rd dev_id lba 0 (sector_sz d) b ;;
      return (st, Some b')
    end
  end.

Fixpoint write_loop (n : nat) (wr : block_write_fn W) (dev_id lba s sz : Z) (buf : list Z)
  : M (devtab W) block_status :=
  match n with
  | O => return BLOCK_OK
  | S n' =>
    t <~ mget ;; bytes <~ mlift (slice (s * sz) sz buf) ;;
    let '(st, w) := wr dev_id (u32 (lba + s)) bytes (world t) in
    mput (Devtab (g_devices t) w) ;;;
    if decide (st = BLOCK_OK) then write_loop n' wr dev_id lba (s + 1) sz buf else return st
  end.

Definition block_dev_write (dev_id lba count : Z) (buf : option (list Z)) : M (devtab W) block_status :=
  t <~ mget ;;
  match lookup_dev t dev_id, buf with
  | None, _ => return BLOCK_ERR_NOT_FOUND
  | Some _, None => return BLOCK_ERR_NULL_BUF
  | Some d, Some b =>
    if count =? 0 then return BLOCK_ERR_INVALID else
    match write_sector d with
    | None => return BLOCK_ERR_NULL_DEV
    | Some wr => write_loop (Z.to_nat count) wr dev_id lba 0 (sector_sz d) b
    end
  end.

(** ** Geometry *)

Definition block_dev_sector_size (dev_id : Z) : M (devtab W) Z :=
  mgets (fun t => match lookup_dev t dev_id with Some d => sector_sz d | None => 0 end).
Definition block_dev_total_sectors (dev_id : Z) : M (devtab W) Z :=
  mgets (fun t => match lookup_dev t dev_id with Some d => total_sectors d | None => 0 end).

End BlockDev.

(** ** The interface to the buffer cache *)

(** One-sector transfers, as the cache issues them. *)
Class BlockIO (D : Type) := {
  bio_read : Z -> Z -> list Z -> M D (block_status * list Z);
  bio_write : Z -> Z -> list Z -> M D block_status
}.

#[global] Instance devtab_io {W} : BlockIO (devtab W) := {
  bio_read dev_id lba buf :=
    ' (st, b) <~ block_dev_read dev_id lba 1 (Some buf) ;;
    match b with Some b' => return (st, b') | None => mfault end;
  bio_write dev_id lba buf := block_dev_write dev_id lba 1 (Some buf)
}.

(** A sector address and the effect of a store to it. *)
Notation disk := (Z -> Z -> list Z).
Definition dupd (f : disk) (d l : Z) (v : list Z) : disk :=
  fun d' l' => if decide (d' = d /\ l' = l) then v else f d' l'.

(** Equality of sector contents: coarser than equality of functions. *)
Definition deq (f g : disk) : Prop := forall d l, f d l = g d l.
Infix "=d" := deq (at level 70).
#[global] Instance deq_equiv : Equivalence deq.
Proof.
  split; [by intros f d l|by intros f g H d l; symmetry; apply H|].
  intros f g h H1 H2 d l. etrans; [apply H1|apply H2].
Qed.
#[global] Instance dupd_proper : Proper (deq ==> eq ==> eq ==> eq ==> deq) dupd.
Proof. intros f g Hfg d ? <- l ? <- v ? <- d' l'. unfold dupd. case_decide; [done|apply Hfg]. Qed.
Lemma dupd_eq f d l v : dupd f d l v d l = v.
Proof. unfold dupd. by rewrite decide_True. Qed.
Lemma dupd_ne f d l v d' l' : d <> d' \/ l <> l' -> dupd f d l v d' l' = f d' l'.
Proof. intros. unfold dupd. rewrite decide_False; [done|naive_solver]. Qed.
Lemma dupd_same f d l : dupd f d l (f d l) =d f.
Proof. intros d' l'. unfold dupd. case_decide; naive_solver. Qed.

(** [bio_good d l]: a sector the device can transfer.  There a read returns the
    stored bytes and a write stores them; elsewhere both fail and store nothing. *)
Class BlockIOLaws (D : Type) `{!BlockIO D} := {
  bio_ok : D -> Prop;
  bio_disk : D -> disk;
  bio_good : Z -> Z -> bool;
  bio_size : forall t d l, bio_ok t -> bio_good d l = true -> length (bio_disk t d l) = 512%nat;
  bio_read_good : forall t d l buf, bio_ok t -> bio_good d l = true -> length buf = 512%nat ->
    exists t', bio_read d l buf t = Some ((BLOCK_OK, bio_disk t d l), t') /\ bio_ok t' /\
      bio_disk t' =d bio_disk t;
  bio_read_bad : forall t d l buf, bio_ok t -> in_w 32 l -> bio_good d l = false -> length buf = 512%nat ->
    exists st buf' t', bio_read d l buf t = Some ((st, buf'), t') /\ st <> BLOCK_OK /\
      length buf' = 512%nat /\ bio_ok t' /\ bio_disk t' =d bio_disk t;
  bio_write_good : forall t d l buf, bio_ok t -> bio_good d l = true -> length buf = 512%nat ->
    exists t', bio_write d l buf t = Some (BLOCK_OK, t') /\ bio_ok t' /\
      bio_disk t' =d dupd (bio_disk t) d l buf
}.

(** ** A table with one working disk *)

(** What a driver documents: sectors below [drv_sectors] are stored and returned
    whole; others are refused. *)
Class Driver {W : Type} (rd : block_read_fn W) (wr : block_write_fn W) := {
  drv_ok : W -> Prop;
  drv_disk : W -> Z -> list Z;
  drv_sectors : Z;
  drv_max : drv_sectors <= 2 ^ 32;
  drv_size : forall w l, drv_ok w -> 0 <= l < drv_sectors -> length (drv_disk w l) = 512%nat;
  drv_read : forall dev w l, drv_ok w -> 0 <= l < drv_sectors ->
    exists w', rd dev l w = (BLOCK_OK, drv_disk w l, w') /\ drv_ok w' /\ forall l', drv_disk w' l' = drv_disk w l';
  drv_read_bad : forall dev w l, drv_ok w -> ~ 0 <= l < drv_sectors ->
    exists st bytes w', rd dev l w = (st, bytes, w') /\ st <> BLOCK_OK /\ length bytes = 512%nat /\
      drv_ok w' /\ forall l', drv_disk w' l' = drv_disk w l';
  drv_write : forall dev w l v, drv_ok w -> 0 <= l < drv_sectors -> length v = 512%nat ->
    exists w', wr dev l v w = (BLOCK_OK, w') /\ drv_ok w' /\
      forall l', drv_disk w' l' = if decide (l' = l) then v else drv_disk w l'
}.

Section OneDisk.
Context {W : Type} (rd : block_read_fn W) (wr : block_write_fn W) `{!Driver rd wr} (dev : Z).

Definition disk_device : block_device W :=
  BlockDevice (Some rd) (Some wr) BLOCK_DEV_SECTOR_SIZE drv_sectors true.

(** [dev] is the disk and the only device. *)
Record one_disk (t : devtab W) : Prop := OneDisk {
  od_dev : lookup_dev t dev = Some disk_device;
  od_only : forall d, d <> dev -> lookup_dev t d = None;
  od_world : drv_ok (world t)
}.

Lemma lookup_dev_world (t : devtab W) w d : lookup_dev (Devtab (g_devices t) w) d = lookup_dev t d.
Proof. done. Qed.
Lemma one_disk_world t w : one_disk t -> drv_ok w -> one_disk (Devtab (g_devices t) w).
Proof. intros [? ? _] ?. by split. Qed.

(** Sectors [s, s + n) are read into their place of the buffer. *)
Lemma read_loop_spec n t lba s buf p q :
  one_disk t -> 0 <= lba -> 0 <= s -> lba + s + Z.of_nat n <= drv_sectors ->
  buf = p ++ q -> Z.of_nat (length p) = s * 512 -> length q = (n * 512)%nat ->
  exists t', read_loop n rd dev lba s 512 buf t =
      Some ((BLOCK_OK, p ++ concat (drv_disk (world t) <$> seqZ (lba + s) (Z.of_nat n))), t') /\
    one_disk t' /\ forall l, drv_disk (world t') l = drv_disk (world t) l.
Proof using All.
  revert t s buf p q. induction n as [|n IH]; intros t s buf p q Ht Hl Hs Hle -> Hp Hq; pose proof drv_max as Hmax; cbn [read_loop].
  { exists t. rewrite (nil_length_inv q) by lia. done. }
  pose proof (od_world t Ht) as Hw. unfold mbind_ at 1, mget.
  assert (u32 (lba + s) = lba + s) as -> by (unwrap; apply wrap_small; unfold in_w; lia).
  destruct (drv_read dev (world t) (lba + s) Hw) as (w'&Hr&Hw'&Heq); [lia|]. rewrite Hr.
  pose proof (drv_size (world t) (lba + s) Hw ltac:(lia)) as Hsz.
  unfold mbind_ at 1 2, mput, mlift. set (v := drv_disk (world t) (lba + s)) in *.
  rewrite splice_Some by (rewrite ?length_app, ?Hsz; lia). rewrite decide_True by done.
  rewrite take_app_length' by lia. rewrite drop_app_ge by lia.
  replace (Z.to_nat (s * 512) + length v - length p)%nat with 512%nat by lia. rewrite app_assoc.
  destruct (IH (Devtab (g_devices t) w') (s + 1) ((p ++ v) ++ drop 512 q) (p ++ v) (drop 512 q))
    as (t'&Hrun&Ht'&Heq'); try done; try lia.
  { by apply one_disk_world. } { rewrite length_app. lia. } { rewrite length_drop. lia. }
  exists t'. split; [|split; [done|intros l; rewrite Heq'; apply Heq]]. rewrite Hrun. do 3 f_equal.
  rewrite (seqZ_cons (lba + s)) by lia. rewrite fmap_cons. cbn [concat]. fold v. rewrite <- app_assoc. do 2 f_equal.
  replace (Z.pred (Z.of_nat (S n))) with (Z.of_nat n) by lia. replace (Z.succ (lba + s)) with (lba + (s + 1)) by lia.
  f_equal. apply list_fmap_ext. intros i l _. apply Heq.
Qed.

(** Sector [k] of a buffer. *)
Definition sector (k : Z) (buf : list Z) : list Z := take 512 (drop (Z.to_nat (k * 512)) buf).

Lemma write_loop_spec n t lba s buf :
  one_disk t -> 0 <= lba -> 0 <= s -> lba + s + Z.of_nat n <= drv_sectors ->
  Z.of_nat (length buf) = (s + Z.of_nat n) * 512 ->
  exists t', write_loop n wr dev lba s 512 buf t = Some (BLOCK_OK, t') /\ one_disk t' /\
    forall l, drv_disk (world t') l =
      if decide (lba + s <= l < lba + s + Z.of_nat n) then sector (l - lba) buf else drv_disk (world t) l.
Proof using All.
  revert t s. induction n as [|n IH]; intros t s Ht Hl Hs Hle Hlen; pose proof drv_max as Hmax; cbn [write_loop].
  { exists t. split; [done|]. split; [done|]. intros l. rewrite decide_False by lia. done. }
  pose proof (od_world t Ht) as Hw. unfold mbind_ at 1 2, mget, mlift. rewrite slice_Some by lia.
  assert (u32 (lba + s) = lba + s) as -> by (unwrap; apply wrap_small; unfold in_w; lia).
  change (take (Z.to_nat 512) (drop (Z.to_nat (s * 512)) buf)) with (sector s buf).
  destruct (drv_write dev (world t) (lba + s) (sector s buf) Hw) as (w'&Hr&Hw'&Heq); [lia| |].
  { unfold sector. rewrite length_take, length_drop. lia. }
  rewrite Hr. unfold mbind_ at 1, mput. rewrite decide_True by done.
  destruct (IH (Devtab (g_devices t) w') (s + 1)) as (t'&Hrun&Ht'&Heq'); try done; try lia; [by apply one_disk_world|].
  exists t'. split; [done|]. split; [done|]. intros l. rewrite Heq'. cbn [world]. rewrite Heq.
  destruct (decide (l = lba + s)) as [->|]; repeat case_decide; try lia; try done. by replace (lba + s - lba) with s by lia.
Qed.

Lemma block_dev_read_run t lba count buf :
  one_disk t -> 0 <= lba -> 1 <= count -> lba + count <= drv_sectors ->
  Z.of_nat (length buf) = count * 512 ->
  exists t', block_dev_read dev lba count (Some buf) t =
      Some ((BLOCK_OK, Some (concat (drv_disk (world t) <$> seqZ lba count))), t') /\
    one_disk t' /\ forall l, drv_disk (world t') l = drv_disk (world t) l.
Proof using All.
  intros Ht Hl Hc Hle Hlen.
  unfold block_dev_read. unfold mbind_ at 1, mget. rewrite (od_dev t Ht).
  rewrite (proj2 (Z.eqb_neq count 0)) by lia. cbn [read_sector disk_device].
  change (sector_sz disk_device) with 512.
  destruct (read_loop_spec (Z.to_nat count) t lba 0 buf [] buf) as (t'&Hr&Ht'&Heq); try done; try lia.
  mstep Hr. exists t'. rewrite Z.add_0_r, Z2Nat.id by lia. done.
Qed.
Lemma block_dev_write_run t lba count buf :
  one_disk t -> 0 <= lba -> 1 <= count -> lba + count <= drv_sectors ->
  Z.of_nat (length buf) = count * 512 ->
  exists t', block_dev_write dev lba count (Some buf) t = Some (BLOCK_OK, t') /\ one_disk t' /\
    forall l, drv_disk (world t') l =
      if decide (lba <= l < lba + count) then sector (l - lba) buf else drv_disk (world t) l.
Proof using All.
  intros Ht Hl Hc Hle Hlen.
  unfold block_dev_write. unfold mbind_ at 1, mget. rewrite (od_dev t Ht).
  rewrite (proj2 (Z.eqb_neq count 0)) by lia. cbn [write_sector disk_device].
  change (sector_sz disk_device) with 512.
  destruct (write_loop_spec (Z.to_nat count) t lba 0 buf) as (t'&Hr&Ht'&Heq); try done; try lia.
  exists t'. split; [done|]. split; [done|]. intros l. rewrite Heq, Z.add_0_r, Z2Nat.id by lia. done.
Qed.

(** A buffer is its sectors in order. *)
Lemma sectors_concat n k buf : 0 <= k -> Z.of_nat (length buf) = (k + Z.of_nat n) * 512 ->
  concat ((fun l => sector l buf) <$> seqZ k (Z.of_nat n)) = drop (Z.to_nat (k * 512)) buf.
Proof.
  revert k. induction n as [|n IH]; intros k Hk Hlen.
  { rewrite drop_ge by lia. done. }
  rewrite (seqZ_cons k) by lia. rewrite fmap_cons. cbn [concat].
  replace (Z.pred (Z.of_nat (S n))) with (Z.of_nat n) by lia. rewrite IH by lia.
  unfold sector. replace (Z.to_nat (Z.succ k * 512)) with (Z.to_nat (k * 512) + 512)%nat by lia.
  rewrite <- drop_drop. apply take_drop.
Qed.

Definition disk_good (d l : Z) : bool := (d =? dev) && (0 <=? l) && (l <? drv_sectors).
Lemma disk_good_true d l : disk_good d l = true -> d = dev /\ 0 <= l < drv_sectors.
Proof. unfold disk_good. rewrite !andb_true_iff, Z.eqb_eq, Z.leb_le, Z.ltb_lt. tauto. Qed.
Lemma disk_good_false d l : in_w 32 l -> disk_good d l = false -> d <> dev \/ (d = dev /\ ~ 0 <= l < drv_sectors).
Proof.
  unfold disk_good, in_w. intros Hl.
  destruct (Z.eqb_spec d dev), (Z.leb_spec 0 l), (Z.ltb_spec l drv_sectors); simpl; lia.
Qed.

#[global] Program Instance one_disk_laws : BlockIOLaws (devtab W) := {
  bio_ok := one_disk;
  bio_disk t d l := if decide (d = dev) then drv_disk (world t) l else [];
  bio_good := disk_good
}.
Next Obligation.
  intros t d l Ht [-> Hl]%disk_good_true. rewrite decide_True by done. by apply drv_size, Hl; apply Ht.
Qed.
Next Obligation.
  intros t d l buf Ht [-> Hl]%disk_good_true Hb. rewrite decide_True by done.
  destruct (block_dev_read_run t l 1 buf) as (t'&Hr&Ht'&Heq); [done|lia..|].
  exists t'. split.
  - unfold bio_read, devtab_io. mstep Hr. cbv beta iota. rewrite seqZ_1. simpl. by rewrite app_nil_r.
  - split; [done|]. intros d' l'. by rewrite Heq.
Qed.
Next Obligation.
  intros t d l buf Ht Hl Hbad Hb. unfold bio_read, devtab_io, block_dev_read.
  destruct (disk_good_false d l Hl Hbad) as [Hd|[-> Hr]].
  { unfold mbind_, mget. rewrite (od_only t Ht d Hd). eexists _, _, _. split; [reflexivity|]. by rewrite Hb. }
  unfold mbind_ at 1 2, mget. rewrite (od_dev t Ht). cbn [Z.eqb read_sector disk_device].
  change (sector_sz disk_device) with 512. change (Z.to_nat 1) with 1%nat. cbn [read_loop].
  unfold mbind_, mget, mput, mlift, mret. rewrite Z.add_0_r.
  assert (u32 l = l) as -> by (unwrap; by apply wrap_small).
  destruct (drv_read_bad dev (world t) l (od_world t Ht) Hr) as (st&bytes&w'&E&Hst&Hlen&Hw'&Heq).
  rewrite E, splice_Some by lia. rewrite decide_False by done. eexists _, _, _. split; [reflexivity|].
  split; [done|]. split; [rewrite !length_app, length_take, length_drop; lia|].
  split; [by apply one_disk_world|]. intros d' l'. by rewrite Heq.
Qed.
Next Obligation.
  intros t d l buf Ht [-> Hl]%disk_good_true Hb.
  destruct (block_dev_write_run t l 1 buf) as (t'&Hr&Ht'&Heq); [done|lia..|].
  exists t'. split; [exact Hr|]. split; [done|]. intros d' l'. unfold dupd.
  repeat case_decide; destruct_and?; subst; try done; rewrite Heq; case_decide; try lia; try done.
  { unfold sector. rewrite Z.sub_diag. simpl drop. apply take_ge. lia. }
Qed.
End OneDisk.

(** A disk in memory, for the witnesses: [n] sectors, those never written are zero. *)
Definition ram_read (n : Z) : block_read_fn (gmap Z (list Z)) := fun _ l w =>
  if decide (0 <= l < n) then (BLOCK_OK, default (replicate 512 0) (w !! l), w)
  else (BLOCK_ERR_INVALID, replicate 512 0, w).
Definition ram_write (n : Z) : block_write_fn (gmap Z (list Z)) := fun _ l v w =>
  if decide (0 <= l < n) then (BLOCK_OK, <[l := v]> w) else (BLOCK_ERR_INVALID, w).

#[global] Program Instance ram_driver : Driver (ram_read 4096) (ram_write 4096) := {
  drv_ok w := map_Forall (fun _ v => length v = 512%nat) w;
  drv_disk w l := default (replicate 512 0) (w !! l);
  drv_sectors := 4096
}.
Next Obligation. done. Qed.
Next Obligation.
  intros w l Hw _. cbv beta in *. destruct (w !! l) as [v|] eqn:E; [exact (map_Forall_lookup_1 _ _ _ _ Hw E)|done].
Qed.
Next Obligation. intros dev w l Hw Hl. unfold ram_read. rewrite decide_True by done. eauto. Qed.
Next Obligation.
  intros dev w l Hw Hl. unfold ram_read. rewrite decide_False by done. eexists _, _, _. by split.
Qed.
Next Obligation.
  intros dev w l v Hw Hl Hv. unfold ram_write. rewrite decide_True by done.
  eexists. split; [done|]. split; [by apply map_Forall_insert_2|].
  intros l'. case_decide; subst; [by rewrite lookup_insert_eq|by rewrite lookup_insert_ne].
Qed.

Lemma free_slot_spec {W} (l : list (block_device W)) k :
  match free_slot l k with
  | None => forall j e, l !! j = Some e -> present e = true
  | Some i => exists e, k <= i < k + Z.of_nat (length l) /\ l !! Z.to_nat (i - k) = Some e /\ present e = false /\
      forall j e', Z.of_nat j < i - k -> l !! j = Some e' -> present e' = true
  end.
Proof.
  revert k. induction l as [|e l IH]; intros k; simpl; [set_solver|]. destruct (present e) eqn:Ep; simpl.
  - specialize (IH (k + 1)). destruct (free_slot l (k + 1)) as [i|].
    + destruct IH as (e'&Hi&Hl&Hp&Hall). exists e'. split; [lia|]. split.
      { replace (Z.to_nat (i - k)) with (S (Z.to_nat (i - (k + 1)))) by lia. done. }
      split; [done|]. intros [|j] e2 Hj Hl2; simplify_eq/=; [done|]. eapply Hall; [|done]. lia.
    + intros [|j] e2 Hl2; simplify_eq/=; eauto.
  - exists e. rewrite Z.sub_diag. split; [lia|]. split; [done|]. split; [done|]. intros; lia.
Qed.

(** The slot under an ID in range. *)
Lemma lookup_dev_slot {W} (t : devtab W) j :
  length (g_devices t) = Z.to_nat BLOCK_DEV_MAX -> 0 <= j < BLOCK_DEV_MAX ->
  exists e, g_devices t !! Z.to_nat j = Some e /\ lookup_dev t j = if present e then Some e else None.
Proof.
  intros Hlen Hj. destruct (lookup_lt_is_Some_2 (g_devices t) (Z.to_nat j)) as [e He]; [lia|].
  exists e. split; [done|]. unfold lookup_dev, zget.
  rewrite (proj2 (Z.leb_gt _ _)), (proj2 (Z.leb_le 0 _)) by lia. by rewrite He.
Qed.

(** * Properties *)

(** Over a working disk, a transfer of any number of sectors is faithful: a write
    of [count] sectors followed by a read of the same sectors succeeds and returns
    the buffer, and no other sector changes. *)
Theorem block_dev_write_read {W} (rd : block_read_fn W) wr `{!Driver rd wr} dev t lba count buf buf0 :
  one_disk rd wr dev t -> 0 <= lba -> 1 <= count -> lba + count <= drv_sectors ->
  Z.of_nat (length buf) = count * 512 -> length buf0 = length buf ->
  exists t1 t2, block_dev_write dev lba count (Some buf) t = Some (BLOCK_OK, t1) /\
    block_dev_read dev lba count (Some buf0) t1 = Some ((BLOCK_OK, Some buf), t2) /\
    forall l, ~ lba <= l < lba + count -> drv_disk (world t2) l = drv_disk (world t) l.
Proof.
  intros Ht Hl Hc Hle Hlen Hlen0.
  destruct (block_dev_write_run rd wr dev t lba count buf) as (t1&Hw&Ht1&Heq1); [done..|].
  destruct (block_dev_read_run rd wr dev t1 lba count buf0) as (t2&Hr&Ht2&Heq2); [done..|lia|].
  exists t1, t2. split; [done|]. split.
  - rewrite Hr. do 4 f_equal. transitivity (drop (Z.to_nat (0 * 512)) buf); [|done].
    rewrite <- (sectors_concat (Z.to_nat count) 0) by lia. rewrite Z2Nat.id by lia. f_equal.
    apply list_eq. intros i. rewrite !list_lookup_fmap. destruct (decide (Z.of_nat i < count)).
    + rewrite !lookup_seqZ_lt by lia. simpl. rewrite Heq1, decide_True by lia. do 2 f_equal. lia.
    + rewrite !lookup_seqZ_ge by lia. done.
  - intros l Hn. by rewrite Heq2, Heq1, decide_False.
Qed.

(** Registration takes the first slot that is not in use, is refused only when the
    table is full, and afterwards the device is found under the returned ID with all
    other devices as they were; unregistering it empties that slot alone. *)
Theorem block_dev_register_lookup {W} (t : devtab W) d rdf wrf :
  length (g_devices t) = Z.to_nat BLOCK_DEV_MAX -> read_sector d = Some rdf -> write_sector d = Some wrf ->
  (block_dev_register (Some d) (Some tt) t = Some ((BLOCK_ERR_TOO_MANY, None), t) /\
     forall i, 0 <= i < BLOCK_DEV_MAX -> is_Some (lookup_dev t i)) \/
  exists i t1 t2, block_dev_register (Some d) (Some tt) t = Some ((BLOCK_OK, Some i), t1) /\
    lookup_dev t i = None /\ (forall j, 0 <= j < i -> is_Some (lookup_dev t j)) /\
    read_sector <$> lookup_dev t1 i = Some (Some rdf) /\
    (forall j, j <> i -> lookup_dev t1 j = lookup_dev t j) /\
    block_dev_unregister i t1 = Some (BLOCK_OK, t2) /\ forall j, lookup_dev t2 j = lookup_dev t j.
Proof.
  intros Hlen Hrd Hwr.
  pose proof (free_slot_spec (g_devices t) 0) as Hslot.
  pose proof (fun j => lookup_dev_slot t j Hlen) as Hin.
  unfold block_dev_register. rewrite Hrd, Hwr. unfold mbind_, mget.
  destruct (free_slot (g_devices t) 0) as [i|]; [right|left].
  2:{ split; [done|]. intros j Hj. destruct (Hin j Hj) as (e&He&->). rewrite (Hslot _ _ He). eauto. }
  destruct Hslot as (e&Hi&He&Hp&Hall). rewrite Z.sub_0_r in *. rewrite Hlen in Hi.
  change (Z.of_nat (Z.to_nat BLOCK_DEV_MAX)) with BLOCK_DEV_MAX in Hi.
  unfold mlift, mput, mret. rewrite zset_Some by (rewrite Hlen; done).
  set (d' := BlockDevice _ _ _ _ true). set (t1 := Devtab (<[Z.to_nat i:=d']> (g_devices t)) (world t)).
  assert (Hl1 : forall j, lookup_dev t1 j = if decide (j = i) then Some d' else lookup_dev t j).
  { intros j. unfold lookup_dev, t1. cbn [g_devices]. case_match; [case_decide; [lia|done]|].
    rewrite zget_insert by (rewrite Hlen; done). case_decide; case_decide; subst; done. }
  exists i, t1, (Devtab (<[Z.to_nat i:=null_device]> (g_devices t)) (world t)).
  destruct (Hin i Hi) as (e0&He0&Hli). rewrite He in He0. injection He0 as <-. rewrite Hp in Hli.
  split; [done|]. split; [done|]. split.
  { intros j Hj. destruct (Hin j) as (e1&He1&->); [lia|]. rewrite (Hall (Z.to_nat j) e1) by (done || lia). eauto. }
  split; [rewrite Hl1, decide_True by done; simpl; congruence|].
  split; [intros j Hj; by rewrite Hl1, decide_False|]. split.
  { unfold block_dev_unregister, mbind_, mget, mlift, mput, mret. rewrite Hl1, decide_True by done.
    cbn [t1 g_devices world]. rewrite zset_Some by (rewrite length_insert, Hlen; done). by rewrite list_insert_insert_eq. }
  intros j. unfold lookup_dev at 1. cbn [g_devices]. destruct (decide (j = i)) as [->|Hj].
  - case_match; [congruence|]. rewrite zget_insert_eq by (rewrite Hlen; done). simpl. congruence.
  - unfold lookup_dev. case_match; [done|]. rewrite zget_insert_ne by lia. done.
Qed.

(** ** Witnesses *)

Definition ram_table : devtab (gmap Z (list Z)) :=
  Devtab (disk_device (ram_read 4096) (ram_write 4096) :: replicate 15 null_device) ∅.

Lemma ram_table_ok : one_disk (ram_read 4096) (ram_write 4096) 0 ram_table.
Proof.
  split; [done| |by apply map_Forall_empty]. intros d Hd. unfold lookup_dev. case_match; [done|].
  destruct (zget _ d) as [e|] eqn:E; [|done]. apply zget_Some in E as [H0 E]. simpl.
  destruct (Z.to_nat d) as [|k] eqn:Ek; [lia|]. cbn [ram_table g_devices lookup list_lookup] in E.
  apply (lookup_replicate 15) in E as [-> _]. done.
Qed.

Lemma block_dev_write_read_witness :
  exists t1 t2, block_dev_write 0 7 2 (Some (replicate 1024 42)) ram_table = Some (BLOCK_OK, t1) /\
    block_dev_read 0 7 2 (Some (replicate 1024 0)) t1 = Some ((BLOCK_OK, Some (replicate 1024 42)), t2) /\
    forall l, ~ 7 <= l < 9 -> drv_disk (world t2) l = drv_disk (world ram_table) l.
Proof.
  apply (block_dev_write_read (ram_read 4096) (ram_write 4096) 0 ram_table 7 2 (replicate 1024 42) (replicate 1024 0)).
  - apply ram_table_ok.
  - lia.
  - lia.
  - vm_compute. done.
  - reflexivity.
  - reflexivity.
Defined.

Lemma block_dev_register_lookup_witness :
  (block_dev_register (Some (disk_device (ram_read 4096) (ram_write 4096))) (Some tt) ram_table =
     Some ((BLOCK_ERR_TOO_MANY, None), ram_table) /\
     forall i, 0 <= i < BLOCK_DEV_MAX -> is_Some (lookup_dev ram_table i)) \/
  exists i t1 t2,
    block_dev_register (Some (disk_device (ram_read 4096) (ram_write 4096))) (Some tt) ram_table =
      Some ((BLOCK_OK, Some i), t1) /\
    lookup_dev ram_table i = None /\ (forall j, 0 <= j < i -> is_Some (lookup_dev ram_table j)) /\
    read_sector <$> lookup_dev t1 i = Some (Some (ram_read 4096)) /\
    (forall j, j <> i -> lookup_dev t1 j = lookup_dev ram_table j) /\
    block_dev_unregister i t1 = Some (BLOCK_OK, t2) /\ forall j, lookup_dev t2 j = lookup_dev ram_table j.
Proof.
  apply (block_dev_register_lookup ram_table (disk_device (ram_read 4096) (ram_write 4096))
           (ram_read 4096) (ram_write 4096)); reflexivity.
Defined.
