(* ===== verification/Bcache.v ===== *)
(** * Buffer cache (src/fs/bcache.c, bcache.h)

    128 one-sector buffers, found through 16 hash chains and recycled in LRU order.
    The static array [g_pool] is the heap [gmap nat buf]; a [buf_t *] is the buffer's
    index, and the LRU and hash links are pointer fields of the buffers, as in the
    code.  The block layer underneath is any [BlockIO]; BlockDev.v provides it.  The
    model is sequential: the lock that the code drops around I/O is left out. *)

From stdpp Require Import base numbers gmap list options.
From S2P Require Import Prelude LinkedList BlockDev.

(** ** Data *)

Definition BCACHE_NBUFS : Z := 128.
Definition BCACHE_SECTOR_SIZE : Z := 512.
Definition BCACHE_HASH_SIZE : Z := 16.
Definition BCACHE_FLAG_VALID : Z := Z.shiftl 1 0.
Definition BCACHE_FLAG_DIRTY : Z := Z.shiftl 1 1.

Inductive bcache_status := BCACHE_OK | BCACHE_ERR_NOT_FOUND | BCACHE_ERR_IO | BCACHE_ERR_INVALID.

Record buf := Buf {
  data : list Z;
  dev_id : Z;
  block_num : Z;
  flags : Z;
  ref_count : Z;
  lru_prev : option nat;
  lru_next : option nat;
  hash_next : option nat
}.

Record bcache_stats := BcacheStats {
  total_buffers : Z; free_buffers : Z; valid_buffers : Z; dirty_buffers : Z;
  hash_hits : Z; hash_misses : Z; flushes : Z; evictions : Z
}.

(** The file's static variables, and the block layer it calls. *)
Record bcache (D : Type) := Bcache {
  g_pool : gmap nat buf;
  g_hash : list (option nat);
  g_lru_head : option nat;
  g_lru_tail : option nat;
  g_stats : bcache_stats;
  g_dev : D
}.
Arguments Bcache {D} _ _ _ _ _ _.
Arguments g_pool {D} _.
Arguments g_hash {D} _.
Arguments g_lru_head {D} _.
Arguments g_lru_tail {D} _.
Arguments g_stats {D} _.
Arguments g_dev {D} _.

(** Field updates of a buffer. *)
Definition set_data v b := Buf v (dev_id b) (block_num b) (flags b) (ref_count b) (lru_prev b) (lru_next b) (hash_next b).
Definition set_key d l b := Buf (data b) d l (flags b) (ref_count b) (lru_prev b) (lru_next b) (hash_next b).
Definition set_flags f b := Buf (data b) (dev_id b) (block_num b) f (ref_count b) (lru_prev b) (lru_next b) (hash_next b).
Definition set_ref r b := Buf (data b) (dev_id b) (block_num b) (flags b) r (lru_prev b) (lru_next b) (hash_next b).
Definition set_lru_prev p b := Buf (data b) (dev_id b) (block_num b) (flags b) (ref_count b) p (lru_next b) (hash_next b).
Definition set_lru_next p b := Buf (data b) (dev_id b) (block_num b) (flags b) (ref_count b) (lru_prev b) p (hash_next b).
Definition set_hash_next p b := Buf (data b) (dev_id b) (block_num b) (flags b) (ref_count b) (lru_prev b) (lru_next b) p.

Program Definition link_lru_next : link buf := Link lru_next set_lru_next _.
Next Obligation. done. Qed.
Program Definition link_lru_prev : link buf := Link lru_prev set_lru_prev _.
Next Obligation. done. Qed.
Program Definition link_hash : link buf := Link hash_next set_hash_next _.
Next Obligation. done. Qed.

(** Field updates of the statistics; the counters are 32-bit. *)
Definition st_valid f s := BcacheStats (total_buffers s) (free_buffers s) (u32 (f (valid_buffers s))) (dirty_buffers s) (hash_hits s) (hash_misses s) (flushes s) (evictions s).
Definition st_dirty f s := BcacheStats (total_buffers s) (free_buffers s) (valid_buffers s) (u32 (f (dirty_buffers s))) (hash_hits s) (hash_misses s) (flushes s) (evictions s).
Definition st_hits f s := BcacheStats (total_buffers s) (free_buffers s) (valid_buffers s) (dirty_buffers s) (u32 (f (hash_hits s))) (hash_misses s) (flushes s) (evictions s).
Definition st_misses f s := BcacheStats (total_buffers s) (free_buffers s) (valid_buffers s) (dirty_buffers s) (hash_hits s) (u32 (f (hash_misses s))) (flushes s) (evictions s).
Definition st_flushes f s := BcacheStats (total_buffers s) (free_buffers s) (valid_buffers s) (dirty_buffers s) (hash_hits s) (hash_misses s) (u32 (f (flushes s))) (evictions s).
Definition st_evictions f s := BcacheStats (total_buffers s) (free_buffers s) (valid_buffers s) (dirty_buffers s) (hash_hits s) (hash_misses s) (flushes s) (u32 (f (evictions s))).

Section Bcache.
Context {D : Type} `{!BlockIO D}.
Notation B := (bcache D).
Implicit Types s : B.

Definition set_pool h (s : B) : B := Bcache h (g_hash s) (g_lru_head s) (g_lru_tail s) (g_stats s) (g_dev s).
Definition set_hash t (s : B) : B := Bcache (g_pool s) t (g_lru_head s) (g_lru_tail s) (g_stats s) (g_dev s).
Definition set_lru_head p (s : B) : B := Bcache (g_pool s) (g_hash s) p (g_lru_tail s) (g_stats s) (g_dev s).
Definition set_lru_tail p (s : B) : B := Bcache (g_pool s) (g_hash s) (g_lru_head s) p (g_stats s) (g_dev s).
Definition set_stats st (s : B) : B := Bcache (g_pool s) (g_hash s) (g_lru_head s) (g_lru_tail s) st (g_dev s).
Definition set_dev d (s : B) : B := Bcache (g_pool s) (g_hash s) (g_lru_head s) (g_lru_tail s) (g_stats s) d.

(** [*p] and [p->field = ...]; an address outside the pool is a fault. *)
Definition rd (x : nat) : M B buf := s <~ mget ;; mlift (g_pool s !! x).
Definition wr (x : nat) (f : buf -> buf) : M B unit :=
  _ <~ rd x ;; mmodify (fun s => set_pool (alter f x (g_pool s)) s).
Definition count (f : bcache_stats -> bcache_stats) : M B unit :=
  mmodify (fun s => set_stats (f (g_stats s)) s).
(** A call into the block layer. *)
Definition on_dev {A} (m : M D A) : M B A :=
  fun s => match m (g_dev s) with Some (a, d) => Some (a, set_dev d s) | None => None end.

(** [flags & mask] as a condition *)
Definition has (mask : Z) (b : buf) : bool := negb (Z.land (flags b) mask =? 0).

(** ** Hash function and lists *)

Definition bcache_hash (dev block : Z) : Z :=
  let key := Z.lor (Z.shiftl dev 32) block in
  Z.land (Z.shiftr (u64 (key * 2654435761)) 48) (BCACHE_HASH_SIZE - 1).

Definition lru_remove (x : nat) : M B unit :=
  b <~ rd x ;;
  match lru_prev b with
  | Some p => wr p (set_lru_next (lru_next b))
  | None => mmodify (set_lru_head (lru_next b))
  end ;;;
  b <~ rd x ;;
  match lru_next b with
  | Some n => wr n (set_lru_prev (lru_prev b))
  | None => mmodify (set_lru_tail (lru_prev b))
  end ;;;
  wr x (set_lru_prev None) ;;; wr x (set_lru_next None).

Definition lru_push_front (x : nat) : M B unit :=
  wr x (set_lru_prev None) ;;;
  s <~ mget ;; wr x (set_lru_next (g_lru_head s)) ;;;
  match g_lru_head s with
  | Some h => wr h (set_lru_prev (Some x))
  | None => mmodify (set_lru_tail (Some x))
  end ;;;
  mmodify (set_lru_head (Some x)).

Definition lru_touch (x : nat) : M B unit := lru_remove x ;;; lru_push_front x.

(** A list of distinct buffers has at most [BCACHE_NBUFS] nodes. *)
Definition list_fuel : nat := S (Z.to_nat BCACHE_NBUFS).

Definition key_is (dev block : Z) (_ : nat) (b : buf) : bool :=
  (dev_id b =? dev) && (block_num b =? block).

Definition hash_find (dev block : Z) : M B (option nat) :=
  s <~ mget ;; p <~ mlift (zget (g_hash s) (bcache_hash dev block)) ;;
  mlift (walk_find link_hash list_fuel (key_is dev block) (g_pool s) p).

Definition hash_insert (x : nat) : M B unit :=
  b <~ rd x ;; let bucket := bcache_hash (dev_id b) (block_num b) in
  s <~ mget ;; p <~ mlift (zget (g_hash s) bucket) ;;
  wr x (set_hash_next p) ;;;
  s <~ mget ;; t <~ mlift (zset (g_hash s) bucket (Some x)) ;; mput (set_hash t s).

Definition hash_remove (x : nat) : M B unit :=
  b <~ rd x ;; let bucket := bcache_hash (dev_id b) (block_num b) in
  s <~ mget ;; p <~ mlift (zget (g_hash s) bucket) ;;
  ' (found, p', h) <~ mlift (unlink link_hash list_fuel (fun y _ => bool_decide (y = x)) (g_pool s) None p) ;;
  t <~ mlift (zset (g_hash s) bucket p') ;; mput (set_pool h (set_hash t s)) ;;;
  match found with Some _ => wr x (set_hash_next None) | None => return tt end.

(** ** Initialisation *)

Definition zero_buf : buf := Buf (replicate 512 0) 0 0 0 0 None None None.
Definition stats0 : bcache_stats := BcacheStats BCACHE_NBUFS 0 0 0 0 0 0 0.

(** Buffers are pushed from the last one down. *)
Definition bcache_init : M B unit :=
  mmodify (fun s => Bcache (list_to_map ((fun i => (i, zero_buf)) <$> seq 0 (Z.to_nat BCACHE_NBUFS)))
                           (replicate (Z.to_nat BCACHE_HASH_SIZE) None) None None (g_stats s) (g_dev s)) ;;;
  for_range 0 BCACHE_NBUFS (fun k =>
    let i := Z.to_nat (BCACHE_NBUFS - 1 - k) in
    wr i (fun b => Buf (data b) 0 0 0 0 None None None) ;;; lru_push_front i) ;;;
  mmodify (set_stats stats0).

(** ** Public operations *)

Definition find_evictable : M B (option nat) :=
  s <~ mget ;;
  mlift (walk_find link_lru_prev list_fuel (fun _ b => ref_count b =? 0) (g_pool s) (g_lru_tail s)).

(** Steps 3 to 6 of [bcache_get]: recycle buffer [x] for the sector. *)
Definition recycle (x : nat) (dev block : Z) : M B (option nat) :=
  b <~ rd x ;;
  mwhen (has BCACHE_FLAG_VALID b && has BCACHE_FLAG_DIRTY b)
    (on_dev (bio_write (dev_id b) (block_num b) (data b)) ;;; count (st_flushes (Z.add 1))) ;;;
  b <~ rd x ;;
  mwhen (has BCACHE_FLAG_VALID b) (hash_remove x ;;; count (st_evictions (Z.add 1))) ;;;
  wr x (fun b => set_ref 1 (set_flags 0 (set_key dev block b))) ;;;
  hash_insert x ;;; lru_touch x ;;;
  b <~ rd x ;;
  ' (st, bytes) <~ on_dev (bio_read dev block (data b)) ;;
  wr x (set_data bytes) ;;;
  if decide (st = BLOCK_OK) then
    wr x (fun b => set_flags (Z.lor (flags b) BCACHE_FLAG_VALID) b) ;;;
    count (st_valid (Z.add 1)) ;;; return (Some x)
  else
    wr x (fun b => set_ref 0 (set_flags 0 b)) ;;; hash_remove x ;;; lru_touch x ;;; return None.

Definition bcache_get (dev block : Z) : M B (option nat) :=
  found <~ hash_find dev block ;;
  match found with
  | Some x =>
    count (st_hits (Z.add 1)) ;;;
    wr x (fun b => set_ref (u32 (ref_count b + 1)) b) ;;; lru_touch x ;;; return (Some x)
  | None =>
    count (st_misses (Z.add 1)) ;;;
    victim <~ find_evictable ;;
    match victim with None => return None | Some x => recycle x dev block end
  end.

(** [flags & ~DIRTY] on a byte *)
Definition clear_dirty (b : buf) : buf := set_flags (Z.land (flags b) (Z.lxor BCACHE_FLAG_DIRTY 255)) b.

Definition bcache_put (p : option nat) : M B unit :=
  match p with
  | None => return tt
  | Some x =>
    b <~ rd x ;;
    mwhen (0 <? ref_count b) (wr x (set_ref (ref_count b - 1))) ;;;
    b <~ rd x ;;
    if (ref_count b =? 0) && has BCACHE_FLAG_VALID b && has BCACHE_FLAG_DIRTY b then
      st <~ on_dev (bio_write (dev_id b) (block_num b) (data b)) ;;
      if decide (st = BLOCK_OK) then wr x clear_dirty ;;; count (st_flushes (Z.add 1)) else return tt
    else return tt
  end.

Definition bcache_dirty (p : option nat) : M B unit :=
  match p with
  | None => return tt
  | Some x =>
    wr x (fun b => set_flags (Z.lor (flags b) BCACHE_FLAG_DIRTY) b) ;;; count (st_dirty (Z.add 1))
  end.

(** The flush loop from buffer [i], [n] buffers to go; [sel] is the loop's extra
    condition (the device for [bcache_flush_dev]). *)
Fixpoint flush_loop (n : nat) (sel : buf -> bool) (i : nat) : M B bcache_status :=
  match n with
  | O => count (st_dirty (fun _ => 0)) ;;; return BCACHE_OK
  | S n' =>
    b <~ rd i ;;
    if sel b && has BCACHE_FLAG_VALID b && has BCACHE_FLAG_DIRTY b then
      st <~ on_dev (bio_write (dev_id b) (block_num b) (data b)) ;;
      if decide (st = BLOCK_OK) then
        wr i clear_dirty ;;; count (st_flushes (Z.add 1)) ;;; flush_loop n' sel (S i)
      else return BCACHE_ERR_IO
    else flush_loop n' sel (S i)
  end.
Definition bcache_flush_dev (dev : Z) : M B bcache_status :=
  flush_loop (Z.to_nat BCACHE_NBUFS) (fun b => dev_id b =? dev) 0.
Definition bcache_flush_all : M B bcache_status :=
  flush_loop (Z.to_nat BCACHE_NBUFS) (fun _ => true) 0.

Definition bcache_invalidate_dev (dev : Z) : M B unit :=
  for_range 0 BCACHE_NBUFS (fun i =>
    let x := Z.to_nat i in b <~ rd x ;;
    mwhen ((dev_id b =? dev) && (ref_count b =? 0))
      (hash_remove x ;;; wr x (fun b => set_key (dev_id b) 0 (set_flags 0 b)) ;;; lru_touch x)).

Definition bcache_invalidate_all : M B unit :=
  mmodify (set_hash (replicate (Z.to_nat BCACHE_HASH_SIZE) None)) ;;;
  for_range 0 BCACHE_NBUFS (fun i =>
    let x := Z.to_nat i in
    wr x (fun b => set_hash_next None (set_key 0 0 (set_flags 0 b))) ;;; lru_touch x).

(** Buffers that satisfy a condition, as the statistics count them. *)
Definition count_bufs (P : buf -> bool) (s : B) : Z :=
  Z.of_nat (length (filter (fun i => P <$> g_pool s !! i = Some true)
                           (seq 0 (Z.to_nat BCACHE_NBUFS)))).
Definition bcache_get_stats : M B bcache_stats :=
  s <~ mget ;;
  let st := g_stats s in
  let st' := BcacheStats (total_buffers st)
    (count_bufs (fun b => (ref_count b =? 0) && negb (has BCACHE_FLAG_VALID b)) s)
    (count_bufs (has BCACHE_FLAG_VALID) s) (count_bufs (has BCACHE_FLAG_DIRTY) s)
    (hash_hits st) (hash_misses st) (flushes st) (evictions st) in
  mput (set_stats st' s) ;;; return st'.
Definition bcache_reset_stats : M B unit := mmodify (set_stats stats0).

(** ** How the file systems use a buffer *)

(** Copy a sector out: get, read the bytes, put. *)
Definition sector_read (dev block : Z) : M B (option (list Z)) :=
  p <~ bcache_get dev block ;;
  match p with
  | None => return None
  | Some x => b <~ rd x ;; bcache_put (Some x) ;;; return (Some (data b))
  end.
(** Store a sector: get, copy the bytes in, mark dirty, put. *)
Definition sector_write (dev block : Z) (v : list Z) : M B bool :=
  p <~ bcache_get dev block ;;
  match p with
  | None => return false
  | Some x => wr x (set_data v) ;;; bcache_dirty (Some x) ;;; bcache_put (Some x) ;;; return true
  end.
End Bcache.

(** * Heap steps *)

Section Proofs.
Context {D : Type} `{!BlockIO D}.
Notation B := (bcache D).
Implicit Types (s : B) (x : nat) (h : gmap nat buf).

(** A buffer without its LRU links. *)
Definition core (b : buf) : buf := set_lru_prev None (set_lru_next None b).

Lemma rd_run s x b : g_pool s !! x = Some b -> rd x s = Some (b, s).
Proof. intros H. unfold rd, mbind_, mget, mlift. by rewrite H. Qed.
Lemma wr_run s x b f : g_pool s !! x = Some b -> wr x f s = Some (tt, set_pool (alter f x (g_pool s)) s).
Proof. intros H. unfold wr. by mstep (rd_run s x b H). Qed.

Lemma fmap_alter_same {C} (g : buf -> C) (f : buf -> buf) x h :
  (forall b, g (f b) = g b) -> g <$> alter f x h = g <$> h.
Proof.
  intros Hf. apply map_eq. intros y. rewrite !lookup_fmap. destruct (decide (x = y)) as [->|].
  - rewrite lookup_alter_eq. destruct (h !! y); simpl; [by rewrite Hf|done].
  - by rewrite lookup_alter_ne.
Qed.
Lemma lookup_alter_Some (f : buf -> buf) x h b : h !! x = Some b -> alter f x h !! x = Some (f b).
Proof. intros H. by rewrite lookup_alter_eq, H. Qed.
Lemma alter_is_Some (f : buf -> buf) x y h b : h !! y = Some b -> exists b', alter f x h !! y = Some b'.
Proof. intros H. destruct (decide (x = y)) as [->|]; [rewrite lookup_alter_eq|rewrite lookup_alter_ne by done]; rewrite H; simpl; eauto. Qed.

(** ** The LRU list *)

Record lru_ok (s : B) (L : list nat) : Prop := LruOk {
  lru_nodup : NoDup L;
  lru_dseg : dseg link_lru_next link_lru_prev (g_pool s) None L None;
  lru_hd : g_lru_head s = head L;
  lru_tl : g_lru_tail s = last L
}.
(** [s'] differs from [s] only in the LRU list. *)
Record lru_same (s s' : B) : Prop := LruSame {
  ls_pool : core <$> g_pool s' = core <$> g_pool s;
  ls_hash : g_hash s' = g_hash s;
  ls_stats : g_stats s' = g_stats s;
  ls_dev : g_dev s' = g_dev s
}.

Lemma lru_same_refl s : lru_same s s.
Proof. done. Qed.
Lemma lru_same_trans s1 s2 s3 : lru_same s1 s2 -> lru_same s2 s3 -> lru_same s1 s3.
Proof. intros [] []. split; congruence. Qed.

Lemma core_bypass h p n : core <$> bypass link_lru_next link_lru_prev h p n = core <$> h.
Proof. unfold bypass. destruct p, n; rewrite ?fmap_alter_same; done. Qed.

Lemma lookup_core h h' x b : core <$> h' = core <$> h -> h !! x = Some b ->
  exists b', h' !! x = Some b' /\ core b' = core b.
Proof.
  intros E Hb. assert (core <$> h' !! x = core <$> h !! x) as Ex by (rewrite <- !lookup_fmap; by rewrite E).
  rewrite Hb in Ex. destruct (h' !! x) as [b'|]; [|done]. exists b'. split; [done|]. simpl in Ex. congruence.
Qed.

Lemma NoDup_app_mid {A} (l1 l2 : list A) (x : A) : NoDup (l1 ++ x :: l2) ->
  NoDup (l1 ++ l2) /\ x ∉ l1 ++ l2.
Proof.
  intros Hnd. rewrite <- Permutation_middle in Hnd. apply NoDup_cons in Hnd. tauto.
Qed.
Lemma head_app_mid {A} (l1 l2 : list A) (x : A) :
  head (l1 ++ l2) = match last l1 with Some _ => head (l1 ++ x :: l2) | None => head l2 end.
Proof. destruct (last l1) eqn:E; [|apply last_None in E; by subst]. by destruct l1. Qed.
Lemma last_app_mid {A} (l1 l2 : list A) (x : A) :
  last (l1 ++ l2) = match head l2 with Some _ => last (l1 ++ x :: l2) | None => last l1 end.
Proof.
  destruct l2 as [|y l2]; simpl; [by rewrite app_nil_r|].
  rewrite !last_app, (last_cons_cons x y l2). destruct (last (y :: l2)) eqn:E; [done|]. by apply last_None in E.
Qed.

Lemma lru_remove_run s l1 x l2 : lru_ok s (l1 ++ x :: l2) ->
  exists s', lru_remove x s = Some (tt, s') /\ lru_ok s' (l1 ++ l2) /\ lru_same s s'.
Proof.
  intros [Hnd Hd Hh Ht]. pose proof (NoDup_app_mid _ _ _ Hnd) as [Hnd' Hx].
  destruct (dseg_in _ _ _ _ _ _ x Hd) as [b Hb]; [set_solver|].
  destruct (dseg_links _ _ _ _ _ _ _ Hd Hb) as [Hp Hn]. cbn [lget link_lru_prev link_lru_next] in Hp, Hn.
  assert (Hlast : forall y, last l1 = Some y -> y <> x /\ exists c, g_pool s !! y = Some c).
  { intros y [l1' ->]%last_Some. split; [set_solver|].
    destruct (dseg_in _ _ _ _ _ _ y Hd) as [c Hc]; [set_solver|eauto]. }
  assert (Hhead : forall y, head l2 = Some y -> y <> x /\ exists c, g_pool s !! y = Some c).
  { intros y Hy. destruct l2 as [|y' l2]; simplify_eq/=. split; [set_solver|].
    destruct (dseg_in _ _ _ _ _ _ y Hd) as [c Hc]; [set_solver|eauto]. }
  set (h' := bypass link_lru_next link_lru_prev (g_pool s) (last l1) (head l2)).
  assert (Hh' : h' !! x = Some b).
  { unfold h', bypass. destruct (last l1) as [y|] eqn:E1, (head l2) as [z|] eqn:E2;
      rewrite ?lookup_alter_ne; try done; naive_solver. }
  exists (Bcache (alter (set_lru_next None) x (alter (set_lru_prev None) x h')) (g_hash s)
            (head (l1 ++ l2)) (last (l1 ++ l2)) (g_stats s) (g_dev s)). split; [|split].
  - unfold lru_remove. mstep (rd_run s x b Hb). rewrite Hp, Hn.
    set (s1 := Bcache (match last l1 with Some y => alter (set_lru_next (head l2)) y (g_pool s) | None => g_pool s end)
      (g_hash s) (head (l1 ++ l2)) (g_lru_tail s) (g_stats s) (g_dev s)).
    assert (E1 : (match last l1 with Some p => wr p (set_lru_next (head l2)) | None => mmodify (set_lru_head (head l2)) end) s
      = Some (tt, s1)).
    { unfold s1. rewrite (head_app_mid l1 l2 x), <- Hh. destruct (last l1) as [y|] eqn:E.
      - destruct (Hlast y) as (_&c&Hc); [done|]. rewrite (wr_run _ _ _ _ Hc). done.
      - done. }
    mstep E1. assert (Hb1 : g_pool s1 !! x = Some b).
    { unfold s1. cbn [g_pool]. destruct (last l1) as [y|] eqn:E; [|done]. rewrite lookup_alter_ne; [done|]. naive_solver. }
    mstep (rd_run s1 x b Hb1). rewrite Hp, Hn.
    set (s2 := Bcache h' (g_hash s) (head (l1 ++ l2)) (last (l1 ++ l2)) (g_stats s) (g_dev s)).
    assert (E2 : (match head l2 with Some n => wr n (set_lru_prev (last l1)) | None => mmodify (set_lru_tail (last l1)) end) s1
      = Some (tt, s2)).
    { unfold s2, h', bypass. rewrite (last_app_mid l1 l2 x), <- Ht. destruct (head l2) as [z|] eqn:E.
      - destruct (Hhead z) as (_&c&Hc); [done|].
        assert (exists c', g_pool s1 !! z = Some c') as [c' Hc'].
        { unfold s1. cbn [g_pool]. destruct (last l1); [by eapply alter_is_Some|eauto]. }
        rewrite (wr_run _ _ _ _ Hc'). done.
      - done. }
    mstep E2. mstep (wr_run s2 x b (set_lru_prev None) Hh').
    erewrite wr_run; [reflexivity|]. cbn [g_pool set_pool]. by apply lookup_alter_Some.
  - split; [done| |done|done]. cbn [g_pool]. do 2 (apply dseg_alter_ne; [done|]). 
    by apply (dseg_bypass link_lru_next link_lru_prev (fun _ _ => eq_refl) (fun _ _ => eq_refl) _ l1 x l2).
  - split; try done. cbn [g_pool]. rewrite !fmap_alter_same by done. apply core_bypass.
Qed.

Lemma lru_push_front_run s L x b : lru_ok s L -> x ∉ L -> g_pool s !! x = Some b ->
  exists s', lru_push_front x s = Some (tt, s') /\ lru_ok s' (x :: L) /\ lru_same s s'.
Proof.
  intros [Hnd Hd Hh Ht] Hx Hb. unfold lru_push_front.
  mstep (wr_run s x b (set_lru_prev None) Hb). unfold mbind_ at 1, mget. cbn [g_lru_head set_pool].
  set (s1 := set_pool _ s). assert (Hb1 : g_pool s1 !! x = Some (set_lru_prev None b)) by (by apply lookup_alter_Some).
  mstep (wr_run s1 x _ (set_lru_next (g_lru_head s)) Hb1). rewrite Hh.
  set (h2 := alter (set_lru_next (head L)) x (g_pool s1)).
  assert (Hd2 : dseg link_lru_next link_lru_prev h2 None L None) by (by do 2 (apply dseg_alter_ne; [done|])).
  assert (Hb2 : h2 !! x = Some (set_lru_next (head L) (set_lru_prev None b))) by (by apply lookup_alter_Some).
  destruct L as [|y L]; cbn [head].
  - eexists. split; [reflexivity|]. split.
    + split; [apply NoDup_singleton| |done|done]. cbn [dseg]. split; [|done]. eexists. split; [exact Hb2|done].
    + split; try done. cbn [g_pool set_lru_head set_lru_tail set_pool]. unfold h2, s1. cbn [g_pool set_pool]. by rewrite !fmap_alter_same.
  - destruct (dseg_in _ _ _ _ _ _ y Hd2) as [c Hc]; [set_solver|].
    assert (x <> y) by set_solver.
    erewrite mbind_Some; [|apply (wr_run _ y c); exact Hc].
    eexists. split; [reflexivity|]. split.
    + split; [by apply NoDup_cons| |done|].
      * cbn [g_pool set_lru_head set_lru_tail set_pool]. split.
        -- eexists. rewrite lookup_alter_ne by done. split; [exact Hb2|]. done.
        -- eapply (dseg_set_head _ link_lru_prev); [done| |exact Hd2]. by apply NoDup_cons in Hnd as [].
      * transitivity (last (y :: L)); [exact Ht|]. by rewrite last_cons_cons.
    + split; try done. cbn [g_pool set_lru_head set_lru_tail set_pool]. unfold h2, s1. cbn [g_pool set_pool]. by rewrite !fmap_alter_same.
Qed.

Lemma lru_touch_run s l1 x l2 : lru_ok s (l1 ++ x :: l2) ->
  exists s', lru_touch x s = Some (tt, s') /\ lru_ok s' (x :: l1 ++ l2) /\ lru_same s s'.
Proof.
  intros Hok. destruct (lru_remove_run s l1 x l2 Hok) as (s1&Hr1&Hok1&Hs1).
  destruct (dseg_in _ _ _ _ _ _ x (lru_dseg _ _ Hok)) as [b Hb]; [set_solver|].
  destruct (lookup_core _ _ x b (ls_pool _ _ Hs1) Hb) as (b1&Hb1&_).
  pose proof (NoDup_app_mid _ _ _ (lru_nodup _ _ Hok)) as [_ Hx].
  destruct (lru_push_front_run s1 (l1 ++ l2) x b1 Hok1 Hx Hb1) as (s2&Hr2&Hok2&Hs2).
  exists s2. unfold lru_touch. mstep Hr1. split; [done|]. split; [done|]. by eapply lru_same_trans.
Qed.

(** ** The hash chains *)

Definition bucket (b : buf) : Z := bcache_hash (dev_id b) (block_num b).
(** What the chains depend on. *)
Definition hkey (b : buf) : Z * Z * option nat := (dev_id b, block_num b, hash_next b).
Definition same_key (b c : buf) : Prop := dev_id b = dev_id c /\ block_num b = block_num c.

(** The pool is the array of [BCACHE_NBUFS] buffers. *)
Definition pool_ok h : Prop := dom h = set_seq 0 (Z.to_nat BCACHE_NBUFS).

(** [C i] is the chain of bucket [i]; a key is on the chains at most once. *)
Record hash_ok h (t : list (option nat)) (C : Z -> list nat) : Prop := HashOk {
  ho_len : length t = Z.to_nat BCACHE_HASH_SIZE;
  ho_chain : forall i, 0 <= i < BCACHE_HASH_SIZE ->
    exists p, zget t i = Some p /\ lseg link_hash h p (C i) None;
  ho_nodup : forall i, NoDup (C i);
  ho_bucket : forall i x b, x ∈ C i -> h !! x = Some b -> bucket b = i;
  ho_uniq : forall x y b c, h !! x = Some b -> h !! y = Some c ->
    x ∈ C (bucket b) -> y ∈ C (bucket c) -> same_key b c -> x = y
}.

Definition fupd (C : Z -> list nat) (i : Z) (l : list nat) : Z -> list nat :=
  fun j => if decide (j = i) then l else C j.

Lemma bucket_range b : 0 <= bucket b < BCACHE_HASH_SIZE.
Proof.
  unfold bucket, bcache_hash, BCACHE_HASH_SIZE. change (16 - 1) with (Z.ones 4). rewrite Z.land_ones by lia.
  apply Z.mod_pos_bound. lia.
Qed.

Lemma lookup_hkey h h' x b : hkey <$> h' = hkey <$> h -> h' !! x = Some b ->
  exists c, h !! x = Some c /\ hkey b = hkey c.
Proof.
  intros E Hb. assert (hkey <$> h' !! x = hkey <$> h !! x) as Ex by (rewrite <- !lookup_fmap; by rewrite E).
  rewrite Hb in Ex. destruct (h !! x) as [c|]; [|done]. exists c. split; [done|]. simpl in Ex. congruence.
Qed.
Lemma hkey_bucket b c : hkey b = hkey c -> bucket b = bucket c.
Proof. unfold hkey, bucket. intros [= -> -> _]. done. Qed.

Lemma hash_ok_frame h h' t C : hkey <$> h' = hkey <$> h -> hash_ok h t C -> hash_ok h' t C.
Proof.
  intros E [Hlen Hch Hnd Hb Hu]. split; [done| |done| |].
  - intros i Hi. destruct (Hch i Hi) as (p&Hp&Hl). exists p. split; [done|]. eapply lseg_frame; [|exact Hl].
    intros x Hx. destruct (lseg_in _ _ _ _ _ x Hl Hx) as [c Hc].
    assert (hkey <$> h' !! x = hkey <$> h !! x) as Ex by (rewrite <- !lookup_fmap; by rewrite E).
    rewrite Hc in Ex |- *. destruct (h' !! x) as [b|]; [|done]. injection Ex as _ _ Ex. simpl. by rewrite Ex.
  - intros i x b Hx (c&Hc&Ek)%(lookup_hkey _ _ _ _ E). rewrite (hkey_bucket _ _ Ek). eauto.
  - intros x y b c (b'&Hb'&Ekb)%(lookup_hkey _ _ _ _ E) (c'&Hc'&Ekc)%(lookup_hkey _ _ _ _ E).
    rewrite (hkey_bucket _ _ Ekb), (hkey_bucket _ _ Ekc). intros Hx Hy Hs. eapply Hu; try done.
    unfold same_key, hkey in *. simplify_eq. destruct Hs. split; congruence.
Qed.

Lemma chain_length h t C i : pool_ok h -> hash_ok h t C -> 0 <= i < BCACHE_HASH_SIZE ->
  (length (C i) < list_fuel)%nat.
Proof.
  intros Hp Hok Hi. destruct (ho_chain _ _ _ Hok i Hi) as (p&_&Hl).
  assert (C i ⊆+ seq 0 (Z.to_nat BCACHE_NBUFS)) as Hsub%submseteq_length.
  { apply NoDup_submseteq; [apply (ho_nodup _ _ _ Hok)|]. intros x Hx.
    destruct (lseg_in _ _ _ _ _ x Hl Hx) as [b Hb].
    assert (x ∈ dom h) as Hd by (apply elem_of_dom; eauto). rewrite Hp in Hd. apply elem_of_set_seq in Hd.
    apply elem_of_seq. lia. }
  rewrite length_seq in Hsub. unfold list_fuel. lia.
Qed.

(** Lookup finds the chained buffer with the key, if there is one. *)
Lemma hash_find_run s C d l : pool_ok (g_pool s) -> hash_ok (g_pool s) (g_hash s) C ->
  (hash_find d l s = Some (None, s) /\
     forall x b, g_pool s !! x = Some b -> x ∈ C (bucket b) -> ~ (dev_id b = d /\ block_num b = l)) \/
  exists x b, hash_find d l s = Some (Some x, s) /\ g_pool s !! x = Some b /\ x ∈ C (bucket b) /\
    dev_id b = d /\ block_num b = l.
Proof.
  intros Hp Hok. set (i := bcache_hash d l).
  assert (Hi : 0 <= i < BCACHE_HASH_SIZE) by (apply (bucket_range (Buf [] d l 0 0 None None None))).
  destruct (ho_chain _ _ _ Hok i Hi) as (p&Hpi&Hl). pose proof (chain_length _ _ _ _ Hp Hok Hi) as Hlen.
  unfold hash_find, mbind_, mget, mlift. fold i. rewrite Hpi.
  destruct (decide (Exists (fun x => key_is d l x <$> g_pool s !! x = Some true) (C i))) as [Hex|Hne].
  - right. apply Exists_exists in Hex as (x&Hx&Hkx). destruct (g_pool s !! x) as [b|] eqn:Hb; [|done].
    apply (inj Some) in Hkx. unfold key_is in Hkx. rewrite andb_true_iff, !Z.eqb_eq in Hkx. destruct Hkx as [Hd Hln].
    apply list_elem_of_split in Hx as (l1&l2&E).
    assert (Hxi : bucket b = i) by (unfold bucket; by rewrite Hd, Hln).
    exists x, b. split; [|split; [done|split; [rewrite Hxi, E; set_solver|done]]].
    rewrite (walk_find_some link_hash _ _ _ _ l1 x l2 b); [done|by rewrite <- E| |done| |].
    + intros y c Hy Hc. destruct (key_is d l y c) eqn:Ek; [|done].
      unfold key_is in Ek. rewrite andb_true_iff, !Z.eqb_eq in Ek. destruct Ek as [Hd' Hl'].
      assert (y = x).
      { eapply (ho_uniq _ _ _ Hok); [done|done| | |].
        - unfold bucket. rewrite Hd', Hl'. fold i. rewrite E. set_solver.
        - rewrite Hxi, E. set_solver.
        - split; congruence. }
      subst y. pose proof (ho_nodup _ _ _ Hok i) as Hnd. rewrite E in Hnd. apply NoDup_app in Hnd as (_&Hdis&_).
      exfalso. eapply Hdis; [done|left].
    + unfold key_is. by rewrite Hd, Hln, !Z.eqb_refl.
    + rewrite E, length_app in Hlen. lia.
  - left. rewrite (walk_find_none link_hash _ _ _ _ (C i)); [split; [done|]|done| |done].
    + intros x b Hb Hx [Hd Hln]. apply Hne, Exists_exists. exists x. split.
      { unfold bucket in Hx. by rewrite Hd, Hln in Hx. }
      rewrite Hb. simpl. unfold key_is. by rewrite Hd, Hln, !Z.eqb_refl.
    + intros y c Hy Hc. destruct (key_is d l y c) eqn:Ek; [|done]. exfalso. apply Hne, Exists_exists.
      exists y. split; [done|]. rewrite Hc. simpl. by rewrite Ek.
Qed.

(** [s'] differs from [s] only in the hash chains. *)
Definition nohash (b : buf) : buf := set_hash_next None b.
Record hash_same (s s' : B) : Prop := HashSame {
  hs_pool : nohash <$> g_pool s' = nohash <$> g_pool s;
  hs_hd : g_lru_head s' = g_lru_head s;
  hs_tl : g_lru_tail s' = g_lru_tail s;
  hs_stats : g_stats s' = g_stats s;
  hs_dev : g_dev s' = g_dev s
}.

(** The chain of one bucket is replaced; [x] is the only buffer that joins or leaves. *)
Lemma hash_ok_set h h' t C i p l x :
  hash_ok h t C -> 0 <= i < BCACHE_HASH_SIZE ->
  lseg link_hash h' p l None -> NoDup l ->
  (forall y, y ∈ l -> y ∈ C i \/ (y = x /\ forall b, h !! x = Some b -> bucket b = i)) ->
  (forall j, j <> i -> 0 <= j < BCACHE_HASH_SIZE -> forall y, y ∈ C j -> hash_next <$> h' !! y = hash_next <$> h !! y) ->
  (forall y b', h' !! y = Some b' -> exists b, h !! y = Some b /\ same_key b b') ->
  (x ∈ l -> forall y b c, h !! x = Some b -> h !! y = Some c -> y ∈ C (bucket c) -> same_key b c -> x = y) ->
  hash_ok h' (<[Z.to_nat i := p]> t) (fupd C i l).
Proof.
  intros [Hlen Hch Hnd Hb Hu] Hi Hl Hndl Hsub Hfr Hk Hnew.
  assert (Hbk : forall b b', same_key b b' -> bucket b = bucket b') by (intros b b' [E1 E2]; unfold bucket; congruence).
  assert (Hlz : 0 <= i < Z.of_nat (length t)) by (rewrite Hlen; unfold BCACHE_HASH_SIZE in *; lia).
  split.
  - by rewrite length_insert.
  - intros j Hj. unfold fupd. rewrite zget_insert by done. destruct (decide (i = j)) as [->|Hne].
    + rewrite decide_True by done. eauto.
    + rewrite decide_False by done. destruct (Hch j Hj) as (q&Hq&Hlq). exists q. split; [done|].
      eapply lseg_frame; [|exact Hlq]. intros y Hy. by apply (Hfr j).
  - intros j. unfold fupd. case_decide; auto.
  - intros j y b' Hy Hb'. destruct (Hk y b' Hb') as (b&Hyb&Hs). rewrite <- (Hbk _ _ Hs). unfold fupd in Hy.
    case_decide; subst; [|eauto]. destruct (Hsub y Hy) as [?|[-> Hx]]; eauto.
  - assert (Hin : forall y b', h' !! y = Some b' -> y ∈ fupd C i l (bucket b') ->
      exists b, h !! y = Some b /\ same_key b b' /\ (y ∈ C (bucket b) \/ (y = x /\ x ∈ l))).
    { intros y b' Hb' Hy. destruct (Hk y b' Hb') as (b&Hyb&Hs). exists b. split; [done|]. split; [done|].
      rewrite <- (Hbk _ _ Hs) in Hy. unfold fupd in Hy. case_decide as E; [|by left].
      destruct (Hsub y Hy) as [?|[-> ?]]; [left; congruence|by right]. }
    intros y z b' c' Hb' Hc' Hy Hz Hs.
    destruct (Hin _ _ Hb' Hy) as (b&Hyb&Hsb&Hcy), (Hin _ _ Hc' Hz) as (c&Hzc&Hsc&Hcz).
    assert (Hbc : same_key b c) by (unfold same_key in *; destruct Hsb, Hsc, Hs; split; congruence).
    assert (Hcb : same_key c b) by (by destruct Hbc).
    destruct Hcy as [Hcy|[-> Hxl]], Hcz as [Hcz|[-> Hxl']]; [by eapply Hu| |by eapply Hnew|done].
    symmetry. by eapply Hnew.
Qed.

Lemma same_key_alter_hash h x p : forall y b', alter (set_hash_next p) x h !! y = Some b' ->
  exists b, h !! y = Some b /\ same_key b b'.
Proof.
  intros y b'. destruct (decide (x = y)) as [->|]; [rewrite lookup_alter_eq|rewrite lookup_alter_ne by done].
  - destruct (h !! y) as [b|]; [|done]. intros [= <-]. by exists b.
  - intros Hb. by exists b'.
Qed.

Lemma hash_insert_run s C x b : hash_ok (g_pool s) (g_hash s) C -> g_pool s !! x = Some b ->
  (forall i, x ∉ C i) ->
  (forall y c, g_pool s !! y = Some c -> y ∈ C (bucket c) -> ~ same_key b c) ->
  exists s', hash_insert x s = Some (tt, s') /\ hash_same s s' /\
    hash_ok (g_pool s') (g_hash s') (fupd C (bucket b) (x :: C (bucket b))).
Proof.
  intros Hok Hb Hx Hnew. pose proof (bucket_range b) as Hi. destruct (ho_chain _ _ _ Hok _ Hi) as (p&Hp&Hl).
  unfold hash_insert. mstep (rd_run s x b Hb). fold (bucket b).
  unfold mbind_ at 1 2, mget, mlift. rewrite Hp. mstep (wr_run s x b (set_hash_next p) Hb).
  unfold mbind_, mput. cbn [g_hash set_pool].
  rewrite zset_Some by (rewrite (ho_len _ _ _ Hok); unfold BCACHE_HASH_SIZE in *; lia).
  eexists. split; [reflexivity|]. cbn [g_pool g_hash set_pool set_hash]. split.
  - split; try done. cbn [g_pool set_pool set_hash]. by rewrite fmap_alter_same.
  - eapply (hash_ok_set _ _ _ _ _ _ _ x); [done|done| | | | | |].
    + split; [done|]. eexists. split; [by apply lookup_alter_Some|]. cbn [lget link_hash hash_next set_hash_next].
      eapply lseg_frame; [|exact Hl]. intros y Hy. rewrite lookup_alter_ne; [done|]. intros ->. by eapply Hx.
    + constructor; [apply Hx|apply (ho_nodup _ _ _ Hok)].
    + intros y [->|?]%elem_of_cons; [|by left]. right. split; [done|]. intros b' Hb'. congruence.
    + intros j Hj _ y Hy. rewrite lookup_alter_ne; [done|]. intros ->. by eapply Hx.
    + apply same_key_alter_hash.
    + intros _ y b1 c Hb1 Hc Hy Hs. rewrite Hb in Hb1. injection Hb1 as <-. exfalso. by eapply Hnew.
Qed.

Lemma hash_remove_run s C x b : pool_ok (g_pool s) -> hash_ok (g_pool s) (g_hash s) C -> g_pool s !! x = Some b ->
  x ∈ C (bucket b) ->
  exists s' l, hash_remove x s = Some (tt, s') /\ hash_same s s' /\
    hash_ok (g_pool s') (g_hash s') (fupd C (bucket b) l) /\ C (bucket b) ≡ₚ x :: l.
Proof.
  intros Hpool Hok Hb Hx. pose proof (bucket_range b) as Hi. destruct (ho_chain _ _ _ Hok _ Hi) as (p&Hp&Hl).
  pose proof (chain_length _ _ _ _ Hpool Hok Hi) as Hlen. pose proof (ho_nodup _ _ _ Hok (bucket b)) as Hnd.
  apply list_elem_of_split in Hx as (l1&l2&E). rewrite E in Hl, Hnd, Hlen.
  pose proof (NoDup_app_mid _ _ _ Hnd) as [Hnd' Hnin].
  unfold hash_remove. mstep (rd_run s x b Hb). fold (bucket b). unfold mbind_ at 1 2, mget, mlift at 1. rewrite Hp.
  unfold mbind_ at 1. unfold mlift at 1.
  rewrite (unlink_spec link_hash _ _ _ _ l1 x l2 b); [|done| |done|by rewrite bool_decide_true|rewrite length_app in Hlen; lia].
  2:{ intros y c Hy _. rewrite bool_decide_false; [done|]. intros ->. set_solver. }
  set (h1 := match last l1 with Some y => alter (lset link_hash (lget link_hash b)) y (g_pool s) | None => g_pool s end).
  set (p1 := match last l1 with Some y => p | None => lget link_hash b end).
  replace (match last l1 with Some y => (Some x, p, alter (lset link_hash (lget link_hash b)) y (g_pool s))
    | None => (Some x, lget link_hash b, g_pool s) end) with (Some x, p1, h1) by (unfold p1, h1; by destruct (last l1)).
  assert (Hl1 : lseg link_hash h1 p1 (l1 ++ l2) None).
  { pose proof (lseg_remove link_hash _ _ _ _ _ b Hl Hnd Hb) as Hrem. unfold h1, p1. by destruct (last l1). }
  assert (Hb1 : h1 !! x = Some b).
  { unfold h1. destruct (last l1) as [y|] eqn:Ey; [|done]. apply last_Some in Ey as [l1' ->].
    rewrite lookup_alter_ne; [done|]. intros ->. set_solver. }
  cbv beta iota. unfold mlift. unfold mbind_ at 1.
  rewrite zset_Some by (rewrite (ho_len _ _ _ Hok); unfold BCACHE_HASH_SIZE in *; lia).
  unfold mbind_ at 1, mput. erewrite wr_run by exact Hb1.
  eexists _, (l1 ++ l2). split; [reflexivity|]. cbn [g_pool g_hash set_pool set_hash].
  split; [|split; [|by rewrite E, <- Permutation_middle]].
  - split; try done. cbn [g_pool set_pool set_hash]. rewrite fmap_alter_same by done. unfold h1.
    destruct (last l1); [by rewrite fmap_alter_same|done].
  - eapply (hash_ok_set (g_pool s) _ _ _ _ _ _ x); [done|done| |done| | | |].
    + eapply lseg_frame; [|exact Hl1]. intros y Hy. rewrite lookup_alter_ne; [done|]. by intros ->.
    + intros y Hy. left. rewrite E. set_solver.
    + intros j Hj Hjr y Hy. assert (Hyi : y ∉ C (bucket b)).
      { intros Hy'. destruct (ho_chain _ _ _ Hok j Hjr) as (q&_&Hq). destruct (lseg_in _ _ _ _ _ y Hq Hy) as [c Hc].
        rewrite <- (ho_bucket _ _ _ Hok _ _ _ Hy Hc) in Hj. apply Hj. by apply (ho_bucket _ _ _ Hok _ y). }
      rewrite lookup_alter_ne by (intros ->; apply Hyi; rewrite E; set_solver). unfold h1.
      destruct (last l1) as [z|] eqn:Ez; [|done]. apply last_Some in Ez as [l1' ->].
      rewrite lookup_alter_ne; [done|]. intros ->. apply Hyi. rewrite E. set_solver.
    + intros y b' (b1&Hy&Hs)%same_key_alter_hash. unfold h1 in Hy.
      destruct (last l1) as [z|]; [|eauto]. apply same_key_alter_hash in Hy as (b2&?&Hs2). exists b2. split; [done|].
      destruct Hs, Hs2. split; congruence.
    + set_solver.
Qed.

Lemma hash_remove_none s C x b : pool_ok (g_pool s) -> hash_ok (g_pool s) (g_hash s) C -> g_pool s !! x = Some b ->
  x ∉ C (bucket b) -> hash_remove x s = Some (tt, s).
Proof.
  intros Hpool Hok Hb Hx. pose proof (bucket_range b) as Hi. destruct (ho_chain _ _ _ Hok _ Hi) as (p&Hp&Hl).
  pose proof (chain_length _ _ _ _ Hpool Hok Hi) as Hlen.
  unfold hash_remove. mstep (rd_run s x b Hb). fold (bucket b). unfold mbind_, mget, mlift, mput. rewrite Hp.
  rewrite (unlink_none link_hash _ _ _ _ (C (bucket b))); [|done| |done].
  2:{ intros y c Hy _. rewrite bool_decide_false; [done|]. by intros ->. }
  rewrite zset_Some by (rewrite (ho_len _ _ _ Hok); unfold BCACHE_HASH_SIZE in *; lia).
  rewrite list_insert_id; [by destruct s|]. apply zget_Some in Hp. tauto.
Qed.
End Proofs.

(** * The cache invariant *)

Section Coherence.
Context {D : Type} `{!BlockIO D} `{!BlockIOLaws D}.
Notation B := (bcache D).
Implicit Types (s : B) (x : nat) (h : gmap nat buf).

Notation valid := (has BCACHE_FLAG_VALID).
Notation dirty := (has BCACHE_FLAG_DIRTY).

(** One buffer: a valid one caches a sector the device has, a clean one agrees with
    the device, a dirty one is held. *)
Record buf_ok (dk : disk) (b : buf) : Prop := BufOk {
  bo_flags : flags b = 0 \/ flags b = 1 \/ flags b = 3;
  bo_size : length (data b) = 512%nat;
  bo_ref : 0 <= ref_count b < 2 ^ 32;
  bo_good : valid b = true -> bio_good (dev_id b) (block_num b) = true;
  bo_clean : valid b = true -> dirty b = false -> data b = dk (dev_id b) (block_num b);
  bo_pinned : dirty b = true -> 0 < ref_count b
}.

Record bc_inv (s : B) (L : list nat) (C : Z -> list nat) : Prop := BcInv {
  bc_pool : pool_ok (g_pool s);
  bc_lru : lru_ok s L;
  bc_all : L ≡ₚ seq 0 (Z.to_nat BCACHE_NBUFS);
  bc_hash : hash_ok (g_pool s) (g_hash s) C;
  bc_chained : forall x b, g_pool s !! x = Some b -> valid b = true <-> x ∈ C (bucket b);
  bc_bufs : forall x b, g_pool s !! x = Some b -> buf_ok (bio_disk (g_dev s)) b;
  bc_dev : bio_ok (g_dev s)
}.
Definition Inv (s : B) : Prop := exists L C, bc_inv s L C.

(** The contents of the sectors as a reader of the cache sees them. *)
Definition view (s : B) : disk := fun d l =>
  match filter (fun x => (fun b => valid b && key_is d l x b) <$> g_pool s !! x = Some true)
               (seq 0 (Z.to_nat BCACHE_NBUFS)) with
  | x :: _ => default [] (data <$> g_pool s !! x)
  | [] => bio_disk (g_dev s) d l
  end.

(** What holders see of a buffer besides its contents. *)
Definition rf (b : buf) : Z * bool := (ref_count b, dirty b).

Lemma pool_lookup s x : pool_ok (g_pool s) -> is_Some (g_pool s !! x) <-> (x < Z.to_nat BCACHE_NBUFS)%nat.
Proof. intros Hp. rewrite <- elem_of_dom, Hp, elem_of_set_seq. split; [intros [_ ?]|intros ?; split]; done || apply Nat.le_0_l. Qed.

Lemma key_is_spec d l x b : key_is d l x b = true <-> dev_id b = d /\ block_num b = l.
Proof. unfold key_is. by rewrite andb_true_iff, !Z.eqb_eq. Qed.

Lemma view_hit s L C x b d l : bc_inv s L C -> g_pool s !! x = Some b -> valid b = true ->
  dev_id b = d -> block_num b = l -> view s d l = data b.
Proof.
  intros Hi Hb Hv Hd Hl. unfold view.
  destruct (filter _ _) as [|y ys] eqn:E.
  - exfalso. apply (filter_nil_not_elem_of _ _ x E).
    + rewrite Hb. simpl. rewrite Hv. simpl. f_equal. by apply key_is_spec.
    + apply elem_of_seq. split; [lia|]. apply (pool_lookup s x (bc_pool _ _ _ Hi)). eauto.
  - assert (y ∈ y :: ys) as Hy by left. rewrite <- E in Hy. apply list_elem_of_filter in Hy as [Hy _].
    destruct (g_pool s !! y) as [c|] eqn:Hc; [|done]. apply (inj Some) in Hy.
    apply andb_true_iff in Hy as [Hvc [Hdc Hlc]%key_is_spec].
    assert (x = y); [|subst y; simpl; congruence]. eapply (ho_uniq _ _ _ (bc_hash _ _ _ Hi)); [done|done| | |split; congruence].
    + by apply (bc_chained _ _ _ Hi).
    + by apply (bc_chained _ _ _ Hi).
Qed.
Lemma view_miss s d l :
  (forall x b, g_pool s !! x = Some b -> valid b = true -> ~ (dev_id b = d /\ block_num b = l)) ->
  view s d l = bio_disk (g_dev s) d l.
Proof.
  intros Hn. unfold view. rewrite filter_none; [done|]. intros x _ Hx.
  destruct (g_pool s !! x) as [b|] eqn:Hb; [|done]. apply (inj Some) in Hx.
  apply andb_true_iff in Hx as [Hv Hk%key_is_spec]. by eapply Hn.
Qed.

(** In a state with no dirty buffer the view is the device. *)
Lemma view_clean s L C : bc_inv s L C -> (forall x b, g_pool s !! x = Some b -> dirty b = false) ->
  view s =d bio_disk (g_dev s).
Proof.
  intros Hi Hcl d l. unfold view. destruct (filter _ _) as [|y ys] eqn:E; [done|].
  assert (y ∈ y :: ys) as Hy by left. rewrite <- E in Hy. apply list_elem_of_filter in Hy as [Hy _].
  destruct (g_pool s !! y) as [c|] eqn:Hc; [|done]. apply (inj Some) in Hy.
  apply andb_true_iff in Hy as [Hvc [<- <-]%key_is_spec]. simpl.
  apply (bo_clean _ _ (bc_bufs _ _ _ Hi y c Hc)); eauto.
Qed.

(** A description of the view: valid buffers first, the device for the rest. *)
Lemma view_char s (f : disk) : pool_ok (g_pool s) ->
  (forall x b, g_pool s !! x = Some b -> valid b = true -> f (dev_id b) (block_num b) = data b) ->
  (forall d l, (forall x b, g_pool s !! x = Some b -> valid b = true -> ~ (dev_id b = d /\ block_num b = l)) ->
     f d l = bio_disk (g_dev s) d l) ->
  view s =d f.
Proof.
  intros Hp Hv Hm d l. unfold view. destruct (filter _ _) as [|y ys] eqn:E.
  - symmetry. apply Hm. intros x b Hb Hvb Hk. apply (filter_nil_not_elem_of _ _ x E).
    + rewrite Hb. simpl. rewrite Hvb. simpl. f_equal. by apply key_is_spec.
    + apply elem_of_seq. split; [lia|]. apply (pool_lookup s x Hp). eauto.
  - assert (y ∈ y :: ys) as Hy by left. rewrite <- E in Hy. apply list_elem_of_filter in Hy as [Hy _].
    destruct (g_pool s !! y) as [c|] eqn:Hc; [|done]. apply (inj Some) in Hy.
    apply andb_true_iff in Hy as [Hvc [<- <-]%key_is_spec]. simpl. symmetry. by apply (Hv y).
Qed.

(** ** Steps of the operations

    [bc_except x]: the invariant while buffer [x] is being worked on. *)
Record bc_except (x : nat) (s : B) (L : list nat) (C : Z -> list nat) : Prop := BcExcept {
  be_pool : pool_ok (g_pool s);
  be_lru : lru_ok s L;
  be_all : L ≡ₚ seq 0 (Z.to_nat BCACHE_NBUFS);
  be_hash : hash_ok (g_pool s) (g_hash s) C;
  be_chained : forall y b, y <> x -> g_pool s !! y = Some b -> valid b = true <-> y ∈ C (bucket b);
  be_bufs : forall y b, y <> x -> g_pool s !! y = Some b -> buf_ok (bio_disk (g_dev s)) b;
  be_dev : bio_ok (g_dev s)
}.
Lemma inv_except x s L C : bc_inv s L C -> bc_except x s L C.
Proof. intros []. split; eauto. Qed.
Lemma except_inv x s L C b : bc_except x s L C -> g_pool s !! x = Some b ->
  (valid b = true <-> x ∈ C (bucket b)) -> buf_ok (bio_disk (g_dev s)) b -> bc_inv s L C.
Proof.
  intros [] Hb Hc Ho. split; try done; intros y c Hy; (destruct (decide (y = x)) as [->|]; [|eauto]);
    by assert (c = b) as -> by congruence.
Qed.
Lemma except_stats x s L C st : bc_except x s L C -> bc_except x (set_stats st s) L C.
Proof. intros [? [] ? ? ? ? ?]. by split; [| |..]. Qed.

Lemma core_fields b c : core b = core c ->
  data b = data c /\ dev_id b = dev_id c /\ block_num b = block_num c /\ flags b = flags c /\
  ref_count b = ref_count c /\ hash_next b = hash_next c.
Proof. destruct b, c. unfold core, set_lru_prev, set_lru_next. simpl. intros E. injection E as -> -> -> -> -> ->. done. Qed.
Lemma nohash_fields b c : nohash b = nohash c ->
  data b = data c /\ dev_id b = dev_id c /\ block_num b = block_num c /\ flags b = flags c /\
  ref_count b = ref_count c /\ lru_prev b = lru_prev c /\ lru_next b = lru_next c.
Proof. destruct b, c. unfold nohash, set_hash_next. simpl. intros E. injection E as -> -> -> -> -> -> ->. done. Qed.

Lemma lookup_fmap_eq {C} (g : buf -> C) h h' y : g <$> h' = g <$> h -> g <$> h' !! y = g <$> h !! y.
Proof. intros E. rewrite <- !lookup_fmap. by rewrite E. Qed.
Lemma lookup_fmap_Some {C} (g : buf -> C) h h' y b' : g <$> h' = g <$> h -> h' !! y = Some b' ->
  exists b, h !! y = Some b /\ g b = g b'.
Proof.
  intros E Hb. pose proof (lookup_fmap_eq g h h' y E) as Ey. rewrite Hb in Ey.
  destruct (h !! y) as [b|]; [|done]. exists b. split; [done|]. simpl in Ey. congruence.
Qed.
Lemma dom_fmap_eq {C} (g : buf -> C) h h' : g <$> h' = g <$> h -> pool_ok h -> pool_ok h'.
Proof. unfold pool_ok. intros E <-. rewrite <- (dom_fmap_L g h), <- (dom_fmap_L g h'), E. done. Qed.

(** Two buffers that agree on the fields the invariant reads. *)
Definition twin (b c : buf) : Prop :=
  data b = data c /\ dev_id b = dev_id c /\ block_num b = block_num c /\ flags b = flags c /\ ref_count b = ref_count c.
#[local] Instance twin_sym : Symmetric twin.
Proof. intros b c (?&?&?&?&?). by repeat split. Qed.
Lemma twin_has b c m : twin b c -> has m b = has m c.
Proof. intros (_&_&_&E&_). unfold has. by rewrite E. Qed.
Lemma twin_bucket b c : twin b c -> bucket b = bucket c.
Proof. intros (_&E1&E2&_). unfold bucket. by rewrite E1, E2. Qed.
Lemma twin_ok dk b c : twin b c -> buf_ok dk b -> buf_ok dk c.
Proof.
  intros Ht []. pose proof (twin_has _ _ BCACHE_FLAG_VALID Ht) as Ev. pose proof (twin_has _ _ BCACHE_FLAG_DIRTY Ht) as Ed.
  destruct Ht as (E1&E2&E3&E4&E5). split; rewrite <- ?Ev, <- ?Ed, <- ?E1, <- ?E2, <- ?E3, <- ?E4, <- ?E5; auto.
Qed.
Lemma core_twin b c : core b = core c -> twin b c.
Proof. intros (?&?&?&?&?&?)%core_fields. by repeat split. Qed.
Lemma nohash_twin b c : nohash b = nohash c -> twin b c.
Proof. intros (?&?&?&?&?&?&?)%nohash_fields. by repeat split. Qed.

(** LRU moves and chain surgery on [x] keep the rest. *)
Lemma except_touch x s L C : bc_except x s L C -> x ∈ L ->
  exists s' L', lru_touch x s = Some (tt, s') /\ bc_except x s' L' C /\ x ∈ L' /\ lru_same s s'.
Proof.
  intros [Hp Hl Ha Hh Hc Hb Hd] Hx. apply list_elem_of_split in Hx as (l1&l2&->).
  destruct (lru_touch_run s l1 x l2 Hl) as (s'&Hr&Hl'&Hs). exists s', (x :: l1 ++ l2). split; [done|].
  split; [|split; [left|done]]. destruct Hs as [Ep Eh Es Ed]. split.
  - by eapply dom_fmap_eq.
  - done.
  - by rewrite <- Ha, Permutation_middle.
  - rewrite Eh. eapply hash_ok_frame; [|exact Hh]. apply map_eq. intros y. rewrite !lookup_fmap.
    pose proof (lookup_fmap_eq core _ _ y Ep) as Ey. destruct (g_pool s' !! y), (g_pool s !! y); try done.
    simpl in Ey. apply (inj Some) in Ey. apply core_fields in Ey as (_&F1&F2&_&_&F3). simpl. unfold hkey.
    by rewrite F1, F2, F3.
  - intros y b' Hy Hb'. destruct (lookup_fmap_Some core _ _ y b' Ep Hb') as (b&Hyb&Et%core_twin).
    rewrite <- (twin_has _ _ _ Et), <- (twin_bucket _ _ Et). auto.
  - intros y b' Hy Hb'. destruct (lookup_fmap_Some core _ _ y b' Ep Hb') as (b&Hyb&Et%core_twin).
    rewrite Ed. eapply twin_ok; eauto.
  - by rewrite Ed.
Qed.

Lemma lru_ok_frame s s' L : g_lru_head s' = g_lru_head s -> g_lru_tail s' = g_lru_tail s ->
  (forall y, (fun b => (lru_prev b, lru_next b)) <$> g_pool s' !! y = (fun b => (lru_prev b, lru_next b)) <$> g_pool s !! y) ->
  lru_ok s L -> lru_ok s' L.
Proof.
  intros Eh Et Ef [Hn Hd H1 H2]. split; [done| |congruence|congruence].
  eapply dseg_frame; [|exact Hd]. intros y _. apply Ef.
Qed.

(** A field update of [x] that keeps the links. *)
Lemma except_wr x s L C f b : bc_except x s L C -> g_pool s !! x = Some b ->
  (forall b, lru_prev (f b) = lru_prev b /\ lru_next (f b) = lru_next b /\ hash_next (f b) = hash_next b) ->
  (same_key b (f b) \/ forall i, x ∉ C i) ->
  bc_except x (set_pool (alter f x (g_pool s)) s) L C.
Proof.
  intros [Hp Hl Ha Hh Hc Hb Hd] Hx Hf Hk. split; cbn [g_pool g_hash g_dev set_pool]; try done.
  - unfold pool_ok in *. by rewrite dom_alter_L.
  - eapply lru_ok_frame; [..|exact Hl]; try done. intros y. cbn [g_pool set_pool].
    rewrite <- !lookup_fmap, fmap_alter_same; [done|]. intros b0. destruct (Hf b0) as (->&->&_). done.
  - destruct Hk as [[Hk1 Hk2]|Hk].
    + eapply hash_ok_frame; [|exact Hh]. apply map_eq. intros y. rewrite !lookup_fmap.
      destruct (decide (x = y)) as [<-|]; [|by rewrite lookup_alter_ne]. rewrite lookup_alter_eq, Hx. simpl.
      unfold hkey. destruct (Hf b) as (_&_&->). by rewrite Hk1, Hk2.
    + destruct Hh as [Hlen Hch Hnd Hbk Hu]. split; try done.
      * intros i Hi. destruct (Hch i Hi) as (p&Hpi&Hs). exists p. split; [done|].
        eapply lseg_frame; [|exact Hs]. intros y Hy. rewrite lookup_alter_ne; [done|]. intros ->. by eapply Hk.
      * intros i y c Hy. rewrite lookup_alter_ne by (intros ->; by eapply Hk). eauto.
      * intros y z c e Hyc Hze Hy Hz. rewrite lookup_alter_ne in Hyc by (intros ->; by eapply Hk).
        rewrite lookup_alter_ne in Hze by (intros ->; by eapply Hk). eauto.
  - intros y c Hy. rewrite lookup_alter_ne by done. eauto.
  - intros y c Hy. rewrite lookup_alter_ne by done. eauto.
Qed.

Lemma fupd_perm_other C i l x j y : C i ≡ₚ x :: l -> y <> x -> y ∈ fupd C i l j <-> y ∈ C j.
Proof. intros E Hy. unfold fupd. case_decide; subst; [|done]. rewrite E. set_solver. Qed.

Lemma except_hash x s s' L C C' : bc_except x s L C -> hash_same s s' -> hash_ok (g_pool s') (g_hash s') C' ->
  (forall y j, y <> x -> y ∈ C' j <-> y ∈ C j) -> bc_except x s' L C'.
Proof.
  intros [Hp Hl Ha Hh Hc Hb Hd] [Ep E1 E2 E3 E4] Hh' HC. split; try done.
  - by eapply dom_fmap_eq.
  - eapply lru_ok_frame; [done|done| |exact Hl]. intros y.
    pose proof (lookup_fmap_eq nohash _ _ y Ep) as Ey. destruct (g_pool s' !! y), (g_pool s !! y); try done.
    simpl in Ey. apply (inj Some) in Ey. apply nohash_fields in Ey as (_&_&_&_&_&F1&F2). simpl. by rewrite F1, F2.
  - intros y b' Hy Hb'. destruct (lookup_fmap_Some nohash _ _ y b' Ep Hb') as (b&Hyb&Et%nohash_twin).
    rewrite <- (twin_has _ _ _ Et), <- (twin_bucket _ _ Et), HC by done. auto.
  - intros y b' Hy Hb'. destruct (lookup_fmap_Some nohash _ _ y b' Ep Hb') as (b&Hyb&Et%nohash_twin).
    rewrite E4. eapply twin_ok; eauto.
  - by rewrite E4.
Qed.

(** ** bcache_get *)

Lemma find_evictable_run s L C : bc_inv s L C ->
  (find_evictable s = Some (None, s) /\ forall x b, g_pool s !! x = Some b -> ref_count b <> 0) \/
  exists x b, find_evictable s = Some (Some x, s) /\ g_pool s !! x = Some b /\ ref_count b = 0 /\ x ∈ L.
Proof.
  intros [Hp Hl Ha _ _ _ _]. unfold find_evictable, mbind_, mget, mlift. rewrite (lru_tl _ _ Hl).
  pose proof (dseg_rev _ _ _ _ _ _ (lru_dseg _ _ Hl)) as Hr.
  replace (opt_or (last L) None) with (last L) in Hr by (by destruct (last L)).
  assert (Hlen : (length (reverse L) < list_fuel)%nat) by (rewrite length_reverse, Ha, length_seq; unfold list_fuel; lia).
  destruct (walk_find_total _ _ (fun _ b => ref_count b =? 0) _ _ _ Hr Hlen) as [[-> Hn]|(x&b&->&Hx&Hb&Hz)]; [left|right].
  - split; [done|]. intros x b Hb. apply Z.eqb_neq, (Hn x b); [|done].
    rewrite elem_of_reverse, Ha, elem_of_seq. split; [lia|]. apply (pool_lookup s x Hp). eauto.
  - exists x, b. split; [done|]. split; [done|]. split; [by apply Z.eqb_eq|]. by apply elem_of_reverse.
Qed.

(** [x] is the buffer handed out, [y <> x] as before for their holders. *)
Definition held (x : nat) (s s' : B) : Prop :=
  (forall y, y <> x -> rf <$> g_pool s' !! y = rf <$> g_pool s !! y) /\
  exists b b', g_pool s !! x = Some b /\ g_pool s' !! x = Some b' /\
    ref_count b' = ref_count b + 1 /\ dirty b' = dirty b.

Definition get_post (d l : Z) (s : B) (r : option nat) (s' : B) : Prop :=
  Inv s' /\ view s' =d view s /\ bio_disk (g_dev s') =d bio_disk (g_dev s) /\
  match r with
  | Some x => held x s s' /\ exists b, g_pool s' !! x = Some b /\ valid b = true /\
      dev_id b = d /\ block_num b = l /\ data b = view s d l
  | None => (forall y, rf <$> g_pool s' !! y = rf <$> g_pool s !! y) /\
      (bio_good d l = false \/ forall x b, g_pool s !! x = Some b -> ref_count b <> 0)
  end.

(** The fields of a buffer that are not links. *)
Definition tw (b : buf) := (data b, dev_id b, block_num b, flags b, ref_count b).
Lemma tw_core h h' y : core <$> h' = core <$> h -> tw <$> h' !! y = tw <$> h !! y.
Proof.
  intros E%(lookup_fmap_eq core _ _ y). destruct (h' !! y), (h !! y); try done. simpl in *. apply (inj Some) in E.
  apply core_fields in E as (E1&E2&E3&E4&E5&_). unfold tw. congruence.
Qed.
Lemma tw_nohash h h' y : nohash <$> h' = nohash <$> h -> tw <$> h' !! y = tw <$> h !! y.
Proof.
  intros E%(lookup_fmap_eq nohash _ _ y). destruct (h' !! y), (h !! y); try done. simpl in *. apply (inj Some) in E.
  apply nohash_fields in E as (E1&E2&E3&E4&E5&_). unfold tw. congruence.
Qed.
Lemma tw_rf (o o' : option buf) : tw <$> o' = tw <$> o -> rf <$> o' = rf <$> o.
Proof. destruct o, o'; try done. simpl. unfold rf, has. intros [= E1 E2 E3 E4 E5]. by rewrite E4, E5. Qed.
Lemma tw_view (o o' : option buf) : tw <$> o' = tw <$> o ->
  (fun b => (valid b, dev_id b, block_num b, data b)) <$> o' = (fun b => (valid b, dev_id b, block_num b, data b)) <$> o.
Proof. destruct o, o'; try done. simpl. unfold has. intros [= E1 E2 E3 E4 E5]. by rewrite E1, E2, E3, E4. Qed.

Lemma has_flags m b f : has m (set_flags f b) = negb (Z.land f m =? 0).
Proof. done. Qed.

Lemma in_L s L C x b : bc_inv s L C -> g_pool s !! x = Some b -> x ∈ L.
Proof.
  intros Hi Hb. rewrite (bc_all _ _ _ Hi), elem_of_seq. split; [lia|].
  apply (pool_lookup s x (bc_pool _ _ _ Hi)). eauto.
Qed.

(** The view of a state whose buffers are those of [s] up to references. *)
Lemma view_same s s' : pool_ok (g_pool s) -> pool_ok (g_pool s') -> bio_disk (g_dev s') =d bio_disk (g_dev s) ->
  (forall y, (fun b => (valid b, dev_id b, block_num b, data b)) <$> g_pool s' !! y =
             (fun b => (valid b, dev_id b, block_num b, data b)) <$> g_pool s !! y) ->
  view s' =d view s.
Proof.
  intros Hp Hp' Hd Hy d l. unfold view.
  assert (E : filter (fun x => (fun b => valid b && key_is d l x b) <$> g_pool s' !! x = Some true) (seq 0 (Z.to_nat BCACHE_NBUFS)) =
    filter (fun x => (fun b => valid b && key_is d l x b) <$> g_pool s !! x = Some true) (seq 0 (Z.to_nat BCACHE_NBUFS))).
  { apply filter_iff_in. intros x _. specialize (Hy x). destruct (g_pool s' !! x), (g_pool s !! x); try done.
    simpl in *. injection Hy as E1 E2 E3 _. unfold key_is. by rewrite E1, E2, E3. }
  rewrite E. clear E. destruct (filter _ _) as [|x xs]; [apply Hd|].
  specialize (Hy x). destruct (g_pool s' !! x), (g_pool s !! x); try done. simpl in *. congruence.
Qed.

Lemma get_hit_run s L C x b : bc_inv s L C -> g_pool s !! x = Some b -> valid b = true -> ref_count b + 1 < 2 ^ 32 ->
  exists s', (count (st_hits (Z.add 1)) ;;; wr x (fun b => set_ref (u32 (ref_count b + 1)) b) ;;;
      lru_touch x ;;; return (Some x)) s = Some (Some x, s') /\
    get_post (dev_id b) (block_num b) s (Some x) s'.
Proof.
  intros Hi Hb Hv Href. unfold mbind_ at 1, count, mmodify.
  set (s0 := set_stats _ s). assert (Hb0 : g_pool s0 !! x = Some b) by done.
  pose proof (bc_bufs _ _ _ Hi x b Hb) as Hok. pose proof (bo_ref _ _ Hok).
  pose proof (except_stats x s L C (st_hits (Z.add 1) (g_stats s)) (inv_except x s L C Hi)) as He0. fold s0 in He0.
  set (f := fun b => set_ref (u32 (ref_count b + 1)) b).
  pose proof (except_wr x s0 L C f b He0 Hb0 ltac:(done) ltac:(by left)) as He1.
  mstep (wr_run s0 x b f Hb0). set (s1 := set_pool _ s0) in *.
  destruct (except_touch x s1 L C He1 (in_L s L C x b Hi Hb)) as (s2&L2&Hr2&He2&_&Hs2). mstep Hr2.
  exists s2. split; [done|]. assert (Hb1 : g_pool s1 !! x = Some (f b)) by (by apply lookup_alter_Some).
  destruct (lookup_core _ _ x (f b) (ls_pool _ _ Hs2) Hb1) as (b2&Hb2&Ht%core_twin).
  assert (Ed : g_dev s2 = g_dev s) by (rewrite (ls_dev _ _ Hs2); done).
  assert (Eref : ref_count (f b) = ref_count b + 1) by (simpl; unwrap; apply wrap_small; unfold in_w; lia).
  assert (Hi2 : bc_inv s2 L2 C).
  { eapply except_inv; [done|exact Hb2| |].
    - rewrite (twin_has _ _ _ Ht), (twin_bucket _ _ Ht). apply (bc_chained _ _ _ Hi x b Hb).
    - eapply twin_ok; [symmetry|]. { exact Ht. } rewrite Ed. destruct Hok as [? ? ? ? ? Hpin].
      split; try done; rewrite ?Eref; [lia|]. intros Hd. specialize (Hpin Hd). lia. }
  assert (Htw : forall y, y <> x -> tw <$> g_pool s2 !! y = tw <$> g_pool s !! y).
  { intros y Hy. rewrite (tw_core _ _ _ (ls_pool _ _ Hs2)). cbn [s1 g_pool set_pool]. by rewrite lookup_alter_ne. }
  destruct Ht as (T1&T2&T3&T4&T5). split; [by exists L2, C|]. split; [|split; [by rewrite Ed|split; [split|]]].
  - apply view_same; [apply Hi|apply Hi2|by rewrite Ed|]. intros y. destruct (decide (y = x)) as [->|Hy].
    + rewrite Hb2, Hb. simpl. unfold has. by rewrite T1, T2, T3, T4.
    + apply tw_view, Htw, Hy.
  - intros y Hy. apply tw_rf, Htw, Hy.
  - exists b, b2. split; [done|]. split; [done|]. split; [by rewrite T5|]. unfold has. by rewrite T4.
  - exists b2. split; [done|]. split; [unfold has; by rewrite T4|]. split; [done|]. split; [done|].
    rewrite (view_hit s L C x b) by done. by rewrite T1.
Qed.

Lemma buf_ok_ext dk dk' b : dk =d dk' -> buf_ok dk b -> buf_ok dk' b.
Proof. intros E []. split; try done. intros. rewrite <- E. auto. Qed.
Lemma except_dev x s L C t : bc_except x s L C -> bio_ok t -> bio_disk t =d bio_disk (g_dev s) ->
  bc_except x (set_dev t s) L C.
Proof.
  intros [? Hl ? ? ? Hb ?] Ht Hd. split; try done; [by destruct Hl|].
  intros y b Hy Hyb. cbn [g_dev set_dev]. eapply buf_ok_ext; [symmetry; exact Hd|]. by apply (Hb y).
Qed.

(** Step 4: the victim leaves its old chain. *)
Lemma victim_unlink s L C x b : bc_inv s L C -> g_pool s !! x = Some b ->
  exists s1 C1 b1, mwhen (valid b) (hash_remove x ;;; count (st_evictions (Z.add 1))) s = Some (tt, s1) /\
    bc_except x s1 L C1 /\ (forall i, x ∉ C1 i) /\ (forall y j, y <> x -> y ∈ C1 j <-> y ∈ C j) /\
    g_pool s1 !! x = Some b1 /\ (forall y, tw <$> g_pool s1 !! y = tw <$> g_pool s !! y) /\ g_dev s1 = g_dev s.
Proof.
  intros Hi Hb. pose proof (bc_hash _ _ _ Hi) as Hh.
  assert (Hother : forall i, x ∈ C i -> i = bucket b) by (intros i Hx; by rewrite (ho_bucket _ _ _ Hh i x b Hx Hb)).
  destruct (valid b) eqn:Hv; cbn [mwhen].
  2:{ exists s, C, b. split; [done|]. split; [by apply inv_except|]. split; [|done].
      intros i Hx. rewrite (Hother i Hx) in Hx. apply (bc_chained _ _ _ Hi x b Hb) in Hx. congruence. }
  destruct (hash_remove_run s C x b (bc_pool _ _ _ Hi) Hh Hb) as (s1&l&Hr&Hs&Hh1&El); [by apply (bc_chained _ _ _ Hi x b Hb)|].
  mstep Hr. destruct (lookup_fmap_Some nohash (g_pool s1) (g_pool s) x b) as (b1&Hb1&_); [symmetry; apply Hs|done|].
  exists (set_stats (st_evictions (Z.add 1) (g_stats s1)) s1), (fupd C (bucket b) l), b1. split; [done|].
  split; [apply except_stats; eapply except_hash; [by apply inv_except|done|done|]; intros; by apply (fupd_perm_other C _ l x)|].
  split; [|split; [intros; by apply (fupd_perm_other C _ l x)|split; [done|split; [|by apply Hs]]]].
  - intros i. unfold fupd. case_decide; [|by intros ->%Hother].
    pose proof (ho_nodup _ _ _ Hh (bucket b)) as Hnd. rewrite El in Hnd. by apply NoDup_cons in Hnd as [].
  - intros y. apply tw_nohash, Hs.
Qed.

(** Step 5: the victim joins the chain of its new key. *)
Lemma victim_link s s1 L C C1 x b1 d l : bc_inv s L C -> bc_except x s1 L C1 -> (forall i, x ∉ C1 i) ->
  (forall y j, y <> x -> y ∈ C1 j <-> y ∈ C j) -> g_pool s1 !! x = Some b1 ->
  (forall y, tw <$> g_pool s1 !! y = tw <$> g_pool s !! y) ->
  (forall y c, g_pool s !! y = Some c -> valid c = true -> ~ (dev_id c = d /\ block_num c = l)) ->
  exists s4 L4 C4 b4, (wr x (fun b => set_ref 1 (set_flags 0 (set_key d l b))) ;;; hash_insert x ;;; lru_touch x) s1 = Some (tt, s4) /\
    bc_except x s4 L4 C4 /\ x ∈ L4 /\ g_pool s4 !! x = Some b4 /\ x ∈ C4 (bucket b4) /\
    tw b4 = (data b1, d, l, 0, 1) /\ (forall y, y <> x -> tw <$> g_pool s4 !! y = tw <$> g_pool s !! y) /\ g_dev s4 = g_dev s1.
Proof.
  intros Hi He Hx HC Hb1 Htw Hno. set (f := fun b => set_ref 1 (set_flags 0 (set_key d l b))).
  pose proof (except_wr x s1 L C1 f b1 He Hb1 ltac:(done) ltac:(by right)) as He2.
  mstep (wr_run s1 x b1 f Hb1). set (s2 := set_pool _ s1) in *.
  assert (Hb2 : g_pool s2 !! x = Some (f b1)) by (by apply lookup_alter_Some).
  destruct (hash_insert_run s2 C1 x (f b1) (be_hash _ _ _ _ He2) Hb2 Hx) as (s3&Hr3&Hs3&Hh3).
  { intros y c Hc Hy [E1 E2]. destruct (decide (y = x)) as [->|Hyx]; [by eapply Hx|].
    cbn [s2 g_pool set_pool] in Hc. rewrite lookup_alter_ne in Hc by done.
    pose proof (Htw y) as Ey. rewrite Hc in Ey. destruct (g_pool s !! y) as [c0|] eqn:Hc0; [|done].
    simpl in Ey. injection Ey as F1 F2 F3 F4 F5.
    apply (Hno y c0 Hc0); [|rewrite <- F2, <- F3; done].
    apply (bc_chained _ _ _ Hi y c0 Hc0), (HC y); [done|]. unfold bucket in *. by rewrite <- F2, <- F3. }
  mstep Hr3. set (C3 := fupd C1 (bucket (f b1)) (x :: C1 (bucket (f b1)))) in *.
  assert (He3 : bc_except x s3 L C3).
  { eapply except_hash; [exact He2|done|done|]. intros y j Hy. unfold C3, fupd. case_decide; subst; [set_solver|done]. }
  destruct (lookup_fmap_Some nohash (g_pool s3) (g_pool s2) x (f b1)) as (b3&Hb3&E3%nohash_twin);
    [symmetry; apply Hs3|done|].
  assert (HxL : x ∈ L).
  { rewrite (be_all _ _ _ _ He), elem_of_seq. split; [lia|]. apply (pool_lookup s1 x (be_pool _ _ _ _ He)). eauto. }
  destruct (except_touch x s3 L C3 He3 HxL) as (s4&L4&Hr4&He4&HxL4&Hs4). rewrite Hr4.
  destruct (lookup_core _ _ x b3 (ls_pool _ _ Hs4) Hb3) as (b4&Hb4&E4%core_twin).
  exists s4, L4, C3, b4. split; [done|]. split; [done|]. split; [done|]. split; [done|].
  split; [|split; [|split]].
  - rewrite (twin_bucket _ _ E4), (twin_bucket _ _ E3). unfold C3, fupd. rewrite decide_True by done. left.
  - destruct E3 as (A1&A2&A3&A4&A5), E4 as (B1&B2&B3&B4&B5). unfold tw.
    rewrite B1, B2, B3, B4, B5, A1, A2, A3, A4, A5. done.
  - intros y Hy. rewrite (tw_core _ _ _ (ls_pool _ _ Hs4)), (tw_nohash _ _ _ (hs_pool _ _ Hs3)).
    cbn [s2 g_pool set_pool]. by rewrite lookup_alter_ne.
  - rewrite (ls_dev _ _ Hs4), (hs_dev _ _ Hs3). done.
Qed.

(** The view when [x] stops being a valid buffer, or becomes one for its sector. *)
Lemma view_recycled s s' L C x : bc_inv s L C -> pool_ok (g_pool s') ->
  bio_disk (g_dev s') =d bio_disk (g_dev s) ->
  (forall y, y <> x -> tw <$> g_pool s' !! y = tw <$> g_pool s !! y) ->
  (forall b, g_pool s !! x = Some b -> dirty b = false) ->
  (forall b', g_pool s' !! x = Some b' -> valid b' = true ->
     data b' = bio_disk (g_dev s) (dev_id b') (block_num b') /\
     forall y c, g_pool s !! y = Some c -> valid c = true -> ~ (dev_id c = dev_id b' /\ block_num c = block_num b')) ->
  view s' =d view s.
Proof.
  intros Hi Hp Hd Htw Hcl Hx. apply view_char; [done| |].
  - intros y b' Hb' Hv'. destruct (decide (y = x)) as [->|Hy].
    + destruct (Hx b' Hb' Hv') as [E Hno]. rewrite view_miss; [done|]. exact Hno.
    + specialize (Htw y Hy). rewrite Hb' in Htw. destruct (g_pool s !! y) as [b|] eqn:Hb; [|done].
      simpl in Htw. injection Htw as E1 E2 E3 E4 E5. rewrite E2, E3, E1. apply (view_hit s L C y b); try done.
      unfold has. rewrite <- E4. exact Hv'.
  - intros d l Hno. rewrite Hd. destruct (decide ((fun b => valid b && key_is d l x b) <$> g_pool s !! x = Some true)) as [Hx1|Hnx].
    + destruct (g_pool s !! x) as [b|] eqn:Hb; [|done]. apply (inj Some) in Hx1.
      apply andb_true_iff in Hx1 as [Hv [E1 E2]%key_is_spec]. rewrite (view_hit s L C x b) by done. pose proof (bo_clean _ _ (bc_bufs _ _ _ Hi x b Hb) Hv (Hcl b eq_refl)). congruence.
    + apply view_miss. intros y b Hb Hv Hk. destruct (decide (y = x)) as [->|Hy].
      { apply Hnx. rewrite Hb. simpl. rewrite Hv. simpl. f_equal. by apply key_is_spec. }
      specialize (Htw y Hy). rewrite Hb in Htw. destruct (g_pool s' !! y) as [b'|] eqn:Hb'; [|done].
      simpl in Htw. injection Htw as E1 E2 E3 E4 E5. apply (Hno y b' Hb'); [unfold has; rewrite E4; exact Hv|].
      by rewrite E2, E3.
Qed.

Lemma on_dev_run {A} (m : M D A) s a t : m (g_dev s) = Some (a, t) -> on_dev m s = Some (a, set_dev t s).
Proof. intros E. unfold on_dev. by rewrite E. Qed.

(** Step 6, the sector was read: [x] becomes valid. *)
Lemma load_good s4 L C x b4 d l v t :
  bc_except x s4 L C -> g_pool s4 !! x = Some b4 -> x ∈ C (bucket b4) -> tw b4 = (data b4, d, l, 0, 1) ->
  bio_good d l = true -> length v = 512%nat -> v = bio_disk (g_dev s4) d l -> bio_ok t -> bio_disk t =d bio_disk (g_dev s4) ->
  exists s' b', (wr x (set_data v) ;;; wr x (fun b => set_flags (Z.lor (flags b) BCACHE_FLAG_VALID) b) ;;;
      count (st_valid (Z.add 1)) ;;; return (Some x)) (set_dev t s4) = Some (Some x, s') /\
    bc_inv s' L C /\ g_pool s' !! x = Some b' /\ tw b' = (v, d, l, 1, 1) /\ g_dev s' = t /\
    forall y, y <> x -> tw <$> g_pool s' !! y = tw <$> g_pool s4 !! y.
Proof.
  intros He Hb Hx T Hg Hlen Hv Ht Hdk. injection T as F2 F3 F4 F5.
  pose proof (except_dev x s4 L C t He Ht Hdk) as He1. set (s5 := set_dev t s4) in *.
  mstep (wr_run s5 x b4 (set_data v) Hb).
  pose proof (except_wr x s5 L C (set_data v) b4 He1 Hb ltac:(done) ltac:(by left)) as He2. set (s6 := set_pool _ s5) in *.
  assert (Hb6 : g_pool s6 !! x = Some (set_data v b4)) by (by apply lookup_alter_Some).
  set (f := fun b => set_flags (Z.lor (flags b) BCACHE_FLAG_VALID) b).
  mstep (wr_run s6 x _ f Hb6).
  pose proof (except_wr x s6 L C f _ He2 Hb6 ltac:(done) ltac:(by left)) as He3. set (s7 := set_pool _ s6) in *.
  assert (Hb7 : g_pool s7 !! x = Some (f (set_data v b4))) by (by apply lookup_alter_Some).
  set (b' := f (set_data v b4)) in *.
  assert (T' : tw b' = (v, d, l, 1, 1)) by (unfold tw, b', f; simpl; by rewrite F2, F3, F4, F5).
  assert (G1 : data b' = v) by done. assert (G2 : dev_id b' = d) by done. assert (G3 : block_num b' = l) by done.
  assert (G4 : flags b' = 1) by (unfold b', f; simpl; by rewrite F4). assert (G5 : ref_count b' = 1) by done.
  eexists _, b'. split; [reflexivity|]. split; [|split; [done|split; [done|split; [done|]]]].
  - eapply except_inv; [by apply except_stats, He3|exact Hb7| |].
    + unfold has. rewrite G4. split; [intros _|done]. unfold bucket. rewrite G2, G3. unfold bucket in Hx. by rewrite F2, F3 in Hx.
    + split; unfold has; rewrite ?G1, ?G2, ?G3, ?G4, ?G5; try done; [by right; left|]. intros _ _. rewrite Hv. symmetry. apply Hdk.
  - intros y Hy. cbn [s7 s6 s5 g_pool set_pool set_stats set_dev]. by rewrite !lookup_alter_ne.
Qed.

(** Step 6, the read failed: [x] leaves the chain again. *)
Lemma load_bad s4 L C x b4 v t :
  bc_except x s4 L C -> x ∈ L -> g_pool s4 !! x = Some b4 -> x ∈ C (bucket b4) ->
  length v = 512%nat -> bio_ok t -> bio_disk t =d bio_disk (g_dev s4) ->
  exists s' L' C' b', (wr x (set_data v) ;;; wr x (fun b => set_ref 0 (set_flags 0 b)) ;;; hash_remove x ;;;
      lru_touch x ;;; return (@None nat)) (set_dev t s4) = Some (None, s') /\
    bc_inv s' L' C' /\ g_pool s' !! x = Some b' /\ flags b' = 0 /\ ref_count b' = 0 /\ g_dev s' = t /\
    forall y, y <> x -> tw <$> g_pool s' !! y = tw <$> g_pool s4 !! y.
Proof.
  intros He HxL Hb Hx Hlen Ht Hdk.
  pose proof (except_dev x s4 L C t He Ht Hdk) as He1. set (s5 := set_dev t s4) in *.
  mstep (wr_run s5 x b4 (set_data v) Hb).
  pose proof (except_wr x s5 L C (set_data v) b4 He1 Hb ltac:(done) ltac:(by left)) as He2. set (s6 := set_pool _ s5) in *.
  assert (Hb6 : g_pool s6 !! x = Some (set_data v b4)) by (by apply lookup_alter_Some).
  set (f := fun b => set_ref 0 (set_flags 0 b)). mstep (wr_run s6 x _ f Hb6).
  pose proof (except_wr x s6 L C f _ He2 Hb6 ltac:(done) ltac:(by left)) as He3. set (s7 := set_pool _ s6) in *.
  assert (Hb7 : g_pool s7 !! x = Some (f (set_data v b4))) by (by apply lookup_alter_Some).
  destruct (hash_remove_run s7 C x _ (be_pool _ _ _ _ He3) (be_hash _ _ _ _ He3) Hb7 Hx) as (s8&lc&Hr8&Hs8&Hh8&El).
  mstep Hr8. set (C8 := fupd C (bucket (f (set_data v b4))) lc) in *.
  assert (He8 : bc_except x s8 L C8) by (eapply except_hash; [exact He3|done|done|]; intros; by apply (fupd_perm_other C _ lc x)).
  destruct (lookup_fmap_Some nohash (g_pool s8) (g_pool s7) x (f (set_data v b4))) as (b8&Hb8&E8%nohash_twin); [symmetry; apply Hs8|done|].
  destruct (except_touch x s8 L C8 He8 HxL) as (s9&L9&Hr9&He9&_&Hs9). mstep Hr9.
  destruct (lookup_core _ _ x b8 (ls_pool _ _ Hs9) Hb8) as (b9&Hb9&E9%core_twin).
  exists s9, L9, C8, b9. split; [done|]. destruct E8 as (A1&A2&A3&A4&A5), E9 as (B1&B2&B3&B4&B5). simpl in A1, A4, A5.
  assert (Hbk : bucket b9 = bucket (f (set_data v b4))) by (unfold bucket; congruence).
  split; [|split; [done|split; [congruence|split; [congruence|split]]]].
  - eapply except_inv; [done|exact Hb9| |].
    + unfold has. rewrite B4, A4. rewrite Hbk. unfold C8, fupd. rewrite decide_True by done. split; [done|].
      intros Hin. pose proof (ho_nodup _ _ _ (be_hash _ _ _ _ He3) (bucket (f (set_data v b4)))) as Hnd. rewrite El in Hnd.
      by apply NoDup_cons in Hnd as [].
    + assert (flags b9 = 0) as Hf by congruence. split; unfold has; rewrite ?Hf, ?B5, ?A5; try done; [by left|congruence].
  - rewrite (ls_dev _ _ Hs9), (hs_dev _ _ Hs8). done.
  - intros y Hy. rewrite (tw_core _ _ _ (ls_pool _ _ Hs9)), (tw_nohash _ _ _ (hs_pool _ _ Hs8)).
    cbn [s7 s6 s5 g_pool set_pool set_dev]. by rewrite !lookup_alter_ne.
Qed.
Lemma recycle_run s L C x b d l : bc_inv s L C -> g_pool s !! x = Some b -> ref_count b = 0 -> in_w 32 l ->
  (forall y c, g_pool s !! y = Some c -> valid c = true -> ~ (dev_id c = d /\ block_num c = l)) ->
  exists r s', recycle x d l s = Some (r, s') /\ get_post d l s r s' /\ (bio_good d l = true -> r = Some x).
Proof.
  intros Hi Hb Href Hl Hno. pose proof (bc_bufs _ _ _ Hi x b Hb) as Hok.
  assert (Hcl : dirty b = false).
  { destruct (dirty b) eqn:E; [|done]. pose proof (bo_pinned _ _ Hok E). lia. }
  unfold recycle. mstep (rd_run s x b Hb). rewrite Hcl, andb_false_r. cbn [mwhen].
  unfold mbind_ at 1, mret at 1. mstep (rd_run s x b Hb).
  destruct (victim_unlink s L C x b Hi Hb) as (s1&C1&b1&Hr1&He1&Hx1&HC1&Hb1&Htw1&Ed1). mstep Hr1.
  destruct (victim_link s s1 L C C1 x b1 d l Hi He1 Hx1 HC1 Hb1 Htw1 Hno)
    as (s4&L4&C4&b4&Hr4&He4&HxL4&Hb4&Hx4&T4&Htw4&Ed4).
  apply mbind_inv in Hr4 as ([]&t1&Hw&Hr4). mstep Hw. apply mbind_inv in Hr4 as ([]&t2&Hw2&Hr4). mstep Hw2. mstep Hr4.
  mstep (rd_run s4 x b4 Hb4). injection T4 as F1 F2 F3 F4 F5.
  assert (Hlen : length (data b4) = 512%nat).
  { rewrite F1. pose proof (Htw1 x) as E. rewrite Hb1, Hb in E. simpl in E. injection E as -> _ _ _ _. apply Hok. }
  assert (T4' : tw b4 = (data b4, d, l, 0, 1)) by (unfold tw; congruence).
  pose proof (be_dev _ _ _ _ He4) as Hdev. rewrite Ed1 in Ed4.
  destruct (bio_good d l) eqn:Hg.
  - destruct (bio_read_good (g_dev s4) d l (data b4) Hdev Hg Hlen) as (t&Hrd&Ht&Hdk).
    mstep (on_dev_run _ s4 _ t Hrd). cbv beta iota. rewrite decide_True by done.
    destruct (load_good s4 L4 C4 x b4 d l (bio_disk (g_dev s4) d l) t) as (s'&b'&Hr'&Hi'&Hb'&T'&Ed'&Htw'); try done; [by apply bio_size|].
    rewrite Hr'. injection T' as G1 G2 G3 G4 G5. exists (Some x), s'. split; [done|]. split; [|done].
    assert (Hdk' : bio_disk (g_dev s') =d bio_disk (g_dev s)) by (rewrite Ed', <- Ed4; exact Hdk).
    split; [by exists L4, C4|]. split; [|split; [done|split; [split|]]].
    + apply (view_recycled s s' L C x Hi (bc_pool _ _ _ Hi') Hdk'); [intros y Hy; by rewrite Htw', Htw4| |].
      * intros c Hc. congruence.
      * intros c Hc _. assert (c = b') as -> by congruence. rewrite G1, G2, G3, Ed4. split; [done|exact Hno].
    + intros y Hy. apply tw_rf. by rewrite Htw', Htw4.
    + exists b, b'. split; [done|]. split; [done|]. split; [lia|]. rewrite Hcl. unfold has. by rewrite G4.
    + exists b'. split; [done|]. unfold has. rewrite G4. split; [done|]. split; [done|]. split; [done|].
      rewrite view_miss by exact Hno. by rewrite G1, Ed4.
  - destruct (bio_read_bad (g_dev s4) d l (data b4) Hdev Hl Hg Hlen) as (st&v&t&Hrd&Hst&Hlv&Ht&Hdk).
    mstep (on_dev_run _ s4 _ t Hrd). cbv beta iota. rewrite decide_False by done.
    destruct (load_bad s4 L4 C4 x b4 v t He4 HxL4 Hb4 Hx4 Hlv Ht Hdk) as (s'&L'&C'&b'&Hr'&Hi'&Hb'&G4&G5&Ed'&Htw').
    rewrite Hr'. exists None, s'. split; [done|]. split; [|done].
    assert (Hdk' : bio_disk (g_dev s') =d bio_disk (g_dev s)) by (rewrite Ed', <- Ed4; exact Hdk).
    split; [by exists L', C'|]. split; [|split; [done|split; [|by left]]].
    + apply (view_recycled s s' L C x Hi (bc_pool _ _ _ Hi') Hdk'); [intros y Hy; by rewrite Htw', Htw4| |].
      * intros c Hc. congruence.
      * intros c Hc Hv. assert (c = b') as -> by congruence. unfold has in Hv. by rewrite G4 in Hv.
    + intros y. destruct (decide (y = x)) as [->|Hy]; [|apply tw_rf; by rewrite Htw', Htw4].
      rewrite Hb', Hb. simpl. unfold rf. rewrite Href, G5, Hcl. unfold has. by rewrite G4.
Qed.

Lemma get_run s d l : Inv s -> in_w 32 l -> (forall x b, g_pool s !! x = Some b -> ref_count b + 1 < 2 ^ 32) ->
  exists r s', bcache_get d l s = Some (r, s') /\ get_post d l s r s' /\
    (bio_good d l = true -> (exists x b, g_pool s !! x = Some b /\ ref_count b = 0) -> is_Some r).
Proof.
  intros (L&C&Hi) Hl Href. unfold bcache_get.
  destruct (hash_find_run s C d l (bc_pool _ _ _ Hi) (bc_hash _ _ _ Hi)) as [[Hf Hno]|(x&b&Hf&Hb&Hx&<-&<-)]; mstep Hf.
  - set (s0 := set_stats (st_misses (Z.add 1) (g_stats s)) s).
    assert (Hi0 : bc_inv s0 L C) by (destruct Hi as [? [] ? ? ? ? ?]; split; done).
    assert (Hc0 : count (st_misses (Z.add 1)) s = Some (tt, s0)) by done. mstep Hc0.
    destruct (find_evictable_run s0 L C Hi0) as [[Hv Hall]|(x&b&Hv&Hb&Hz&HxL)]; mstep Hv.
    + exists None, s0. split; [done|]. split; [|intros _ (x&b&Hb&Hz); by eapply Hall in Hb].
      split; [by exists L, C|]. split; [done|]. split; [done|]. split; [done|by right].
    + destruct (recycle_run s0 L C x b d l Hi0 Hb Hz Hl) as (r&s'&Hr&Hpost&Hgood).
      { intros y c Hc Hvc Hk. apply (Hno y c Hc); [|done]. by apply (bc_chained _ _ _ Hi y c Hc). }
      exists r, s'. split; [done|]. split; [exact Hpost|]. intros Hg _. rewrite (Hgood Hg). eauto.
  - destruct (get_hit_run s L C x b Hi Hb) as (s'&Hr&Hpost).
    { by apply (bc_chained _ _ _ Hi x b Hb). } { eauto. }
    exists (Some x), s'. split; [exact Hr|]. split; [done|eauto].
Qed.

(** ** Storing and releasing *)

Lemma flags_of b dk : buf_ok dk b -> (valid b = true <-> flags b <> 0) /\ (dirty b = true <-> flags b = 3).
Proof. intros [[E|[E|E]] _ _ _ _ _]; unfold has; rewrite E; cbn; split; split; done || lia. Qed.

(** Storing into a held buffer and marking it dirty changes the view at its sector. *)
Lemma store_run s L C x b v : bc_inv s L C -> g_pool s !! x = Some b -> valid b = true -> 0 < ref_count b ->
  length v = 512%nat ->
  exists s' b', (wr x (set_data v) ;;; bcache_dirty (Some x)) s = Some (tt, s') /\ bc_inv s' L C /\
    g_pool s' !! x = Some b' /\ tw b' = (v, dev_id b, block_num b, 3, ref_count b) /\
    (forall y, y <> x -> tw <$> g_pool s' !! y = tw <$> g_pool s !! y) /\ g_dev s' = g_dev s /\
    view s' =d dupd (view s) (dev_id b) (block_num b) v.
Proof.
  intros Hi Hb Hv Hr Hlen. pose proof (bc_bufs _ _ _ Hi x b Hb) as Hok.
  assert (Hf : Z.lor (flags b) BCACHE_FLAG_DIRTY = 3).
  { destruct (bo_flags _ _ Hok) as [E|[E|E]]; unfold has in Hv; rewrite E in *; done. }
  mstep (wr_run s x b (set_data v) Hb). unfold bcache_dirty.
  pose proof (except_wr x s L C (set_data v) b (inv_except x s L C Hi) Hb ltac:(done) ltac:(by left)) as He1.
  set (s1 := set_pool _ s) in *.
  assert (Hb1 : g_pool s1 !! x = Some (set_data v b)) by (by apply lookup_alter_Some).
  set (f := fun b => set_flags (Z.lor (flags b) BCACHE_FLAG_DIRTY) b). mstep (wr_run s1 x _ f Hb1).
  pose proof (except_wr x s1 L C f _ He1 Hb1 ltac:(done) ltac:(by left)) as He2. set (s2 := set_pool _ s1) in *.
  set (b' := f (set_data v b)). assert (Hb2 : g_pool s2 !! x = Some b') by (by apply lookup_alter_Some).
  assert (G4 : flags b' = 3) by exact Hf.
  assert (Htw : forall y, y <> x -> tw <$> g_pool s2 !! y = tw <$> g_pool s !! y).
  { intros y Hy. cbn [s2 s1 g_pool set_pool]. by rewrite !lookup_alter_ne. }
  set (s' := set_stats (st_dirty (Z.add 1) (g_stats s2)) s2).
  assert (Hi' : bc_inv s' L C).
  { eapply except_inv; [by apply except_stats, He2|exact Hb2| |].
    - unfold has. rewrite G4. split; [intros _|done]. apply (bc_chained _ _ _ Hi x b Hb). done.
    - destruct Hok. split; unfold has; rewrite ?G4; try done; [by right; right|]. intros _. by apply bo_good0. }
  exists s', b'. split; [done|]. split; [done|]. split; [done|].
  split; [unfold tw; by rewrite G4|]. split; [done|]. split; [done|].
  apply view_char; [apply Hi'| |].
  - intros y c Hc Hvc. destruct (decide (y = x)) as [->|Hy].
    + change (g_pool s2 !! x = Some c) in Hc. assert (c = b') as -> by congruence. apply dupd_eq.
    + change (g_pool s2 !! y = Some c) in Hc. pose proof (Htw y Hy) as E. rewrite Hc in E.
      destruct (g_pool s !! y) as [c0|] eqn:Hc0; [|done]. simpl in E. injection E as E1 E2 E3 E4 E5.
      assert (Hv0 : valid c0 = true) by (unfold has in *; by rewrite <- E4).
      rewrite dupd_ne; [rewrite E1, E2, E3; by apply (view_hit s L C y c0)|]. rewrite E2, E3.
      destruct (decide (dev_id b = dev_id c0)) as [K1|]; [|by left].
      destruct (decide (block_num b = block_num c0)) as [K2|]; [|by right]. exfalso. apply Hy.
      eapply (ho_uniq _ _ _ (bc_hash _ _ _ Hi)); [exact Hc0|exact Hb| | |by split].
      * by apply (bc_chained _ _ _ Hi). * by apply (bc_chained _ _ _ Hi).
  - intros d l Hno. rewrite dupd_ne.
    + rewrite view_miss; [done|]. intros y c Hc Hvc Hk. destruct (decide (y = x)) as [->|Hy].
      * apply (Hno x b' Hb2); [unfold has; by rewrite G4|]. assert (c = b) as -> by congruence. done.
      * pose proof (Htw y Hy) as E. rewrite Hc in E. destruct (g_pool s2 !! y) as [c'|] eqn:Hc'; [|done].
        simpl in E. injection E as E1 E2 E3 E4 E5. apply (Hno y c' Hc'); [unfold has in *; by rewrite E4|]. by rewrite E2, E3.
    + destruct (decide (dev_id b = d)) as [K1|]; [|by left]. destruct (decide (block_num b = l)) as [K2|]; [|by right].
      exfalso. apply (Hno x b' Hb2); [unfold has; by rewrite G4|done].
Qed.

(** Releasing a clean buffer. *)
Lemma put_clean_run s L C x b : bc_inv s L C -> g_pool s !! x = Some b -> dirty b = false -> 0 < ref_count b ->
  exists s' b', bcache_put (Some x) s = Some (tt, s') /\ bc_inv s' L C /\ g_pool s' !! x = Some b' /\
    tw b' = (data b, dev_id b, block_num b, flags b, ref_count b - 1) /\
    (forall y, y <> x -> tw <$> g_pool s' !! y = tw <$> g_pool s !! y) /\ g_dev s' = g_dev s /\ view s' =d view s.
Proof.
  intros Hi Hb Hd Hr. pose proof (bc_bufs _ _ _ Hi x b Hb) as Hok. unfold bcache_put. mstep (rd_run s x b Hb).
  rewrite (proj2 (Z.ltb_lt 0 _)) by done. cbn [mwhen]. mstep (wr_run s x b (set_ref (ref_count b - 1)) Hb).
  pose proof (except_wr x s L C (set_ref (ref_count b - 1)) b (inv_except x s L C Hi) Hb ltac:(done) ltac:(by left)) as He1.
  set (s1 := set_pool _ s) in *. set (b' := set_ref (ref_count b - 1) b).
  assert (Hb1 : g_pool s1 !! x = Some b') by (by apply lookup_alter_Some). mstep (rd_run s1 x b' Hb1).
  change (dirty b') with (dirty b). rewrite Hd, andb_false_r.
  assert (Hi1 : bc_inv s1 L C).
  { eapply except_inv; [done|exact Hb1|apply (bc_chained _ _ _ Hi x b Hb)|].
    destruct Hok as [? ? [? ?] ? ? ?]. split; try done; cbn [ref_count set_ref b']; [lia|].
    intros Hd'. change (dirty b = true) in Hd'. congruence. }
  exists s1, b'. split; [done|]. split; [done|]. split; [done|]. split; [done|].
  assert (Htw : forall y, y <> x -> tw <$> g_pool s1 !! y = tw <$> g_pool s !! y).
  { intros y Hy. cbn [s1 g_pool set_pool]. by rewrite lookup_alter_ne. }
  split; [done|]. split; [done|]. apply view_same; [apply Hi|apply Hi1|done|]. intros y.
  destruct (decide (y = x)) as [->|Hy]; [by rewrite Hb1, Hb|]. apply tw_view, Htw, Hy.
Qed.

(** Two valid buffers cache different sectors. *)
Lemma valid_apart s L C x y b c : bc_inv s L C -> g_pool s !! x = Some b -> g_pool s !! y = Some c ->
  valid b = true -> valid c = true -> y <> x -> dev_id b <> dev_id c \/ block_num b <> block_num c.
Proof.
  intros Hi Hb Hc Hv Hvc Hy. destruct (decide (dev_id b = dev_id c)); [|by left].
  destruct (decide (block_num b = block_num c)); [|by right]. exfalso. apply Hy.
  eapply (ho_uniq _ _ _ (bc_hash _ _ _ Hi)); [exact Hc|exact Hb| | |by split]; by apply (bc_chained _ _ _ Hi).
Qed.
Lemma tw_Some (o : option buf) c : tw <$> o = Some (tw c) -> exists c0, o = Some c0 /\ twin c0 c.
Proof. destruct o as [c0|]; [|done]. simpl. intros [= E1 E2 E3 E4 E5]. exists c0. by repeat split. Qed.

(** [s'] has the buffers of [s] except [x], which is valid for the same sector in both. *)
Lemma view_kept s s' L C x b b' : bc_inv s L C -> pool_ok (g_pool s') ->
  g_pool s !! x = Some b -> g_pool s' !! x = Some b' -> valid b = true -> valid b' = true ->
  dev_id b' = dev_id b -> block_num b' = block_num b -> data b' = data b ->
  (forall y, y <> x -> tw <$> g_pool s' !! y = tw <$> g_pool s !! y) ->
  bio_disk (g_dev s') =d dupd (bio_disk (g_dev s)) (dev_id b) (block_num b) (data b) -> view s' =d view s.
Proof.
  intros Hi Hp Hb Hb' Hv Hv' K1 K2 K3 Htw Hdk. apply view_char; [done| |].
  - intros y c Hc Hvc. destruct (decide (y = x)) as [->|Hy].
    + assert (c = b') as -> by congruence. rewrite K3. by apply (view_hit s L C x b).
    + pose proof (Htw y Hy) as E. rewrite Hc in E. symmetry in E. apply tw_Some in E as (c0&Hc0&Ht).
      assert (Hv0 : valid c0 = true) by (by rewrite (twin_has _ _ _ Ht)). destruct Ht as (<-&<-&<-&_&_).
      by apply (view_hit s L C y c0).
  - intros d l Hno. rewrite Hdk, dupd_ne.
    + apply view_miss. intros y c Hc Hvc Hk. destruct (decide (y = x)) as [->|Hy].
      * apply (Hno x b' Hb'); [done|]. assert (c = b) as -> by congruence. by rewrite K1, K2.
      * pose proof (Htw y Hy) as E. rewrite Hc in E. apply tw_Some in E as (c'&Hc'&Ht).
        apply (Hno y c' Hc'); [by rewrite (twin_has _ _ _ Ht)|]. by destruct Ht as (_&->&->&_&_).
    + destruct (decide (dev_id b = d)) as [E1|]; [|by left]. destruct (decide (block_num b = l)) as [E2|]; [|by right].
      exfalso. apply (Hno x b' Hb'); [done|]. by rewrite K1, K2.
Qed.

(** Writing buffer [x] back and clearing its dirty flag.  [s] is the state before the
    operation, [s1] the one it is called in, with only the references of [x] changed. *)
Lemma writeback_run s s1 L C x b b1 : bc_inv s L C -> g_pool s !! x = Some b -> dirty b = true ->
  bc_except x s1 L C -> g_pool s1 !! x = Some b1 -> tw b1 = (data b, dev_id b, block_num b, 3, ref_count b1) ->
  0 <= ref_count b1 < 2 ^ 32 -> (forall y, y <> x -> tw <$> g_pool s1 !! y = tw <$> g_pool s !! y) -> g_dev s1 = g_dev s ->
  exists t s' b', bio_write (dev_id b1) (block_num b1) (data b1) (g_dev s1) = Some (BLOCK_OK, t) /\
    (wr x clear_dirty ;;; count (st_flushes (Z.add 1))) (set_dev t s1) = Some (tt, s') /\ bc_inv s' L C /\
    g_pool s' !! x = Some b' /\ tw b' = (data b, dev_id b, block_num b, 1, ref_count b1) /\
    (forall y, y <> x -> tw <$> g_pool s' !! y = tw <$> g_pool s !! y) /\
    bio_disk (g_dev s') =d dupd (bio_disk (g_dev s)) (dev_id b) (block_num b) (data b) /\ view s' =d view s.
Proof.
  intros Hi Hb Hd He1 Hb1 T1 Hr Htw1 Ed. injection T1 as A1 A2 A3 A4. pose proof (bc_bufs _ _ _ Hi x b Hb) as Hok.
  assert (Hf : flags b = 3) by (by apply (flags_of b _ Hok)). assert (Hv : valid b = true) by (unfold has; by rewrite Hf).
  destruct (bio_write_good (g_dev s1) (dev_id b1) (block_num b1) (data b1)) as (t&Hw&Ht&Hdk).
  { apply He1. } { rewrite A2, A3. by apply Hok. } { rewrite A1. apply Hok. }
  rewrite A1, A2, A3, Ed in Hdk. set (s2 := set_dev t s1).
  assert (Hb2 : g_pool s2 !! x = Some b1) by done. pose proof (wr_run s2 x b1 clear_dirty Hb2) as Hw2.
  set (s3 := set_pool _ s2) in Hw2. set (b' := clear_dirty b1). assert (Hb3 : g_pool s3 !! x = Some b') by (by apply lookup_alter_Some).
  assert (T' : tw b' = (data b, dev_id b, block_num b, 1, ref_count b1)).
  { unfold tw, b', clear_dirty. cbn [flags set_flags data dev_id block_num ref_count]. by rewrite A1, A2, A3, A4. }
  pose proof T' as T2. injection T2 as _ _ _ G4. fold b' in G4. change (flags b' = 1) in G4.
  assert (He2 : bc_except x s2 L C).
  { destruct He1 as [? Hl ? ? ? Hbufs ?]. split; try done; [by destruct Hl|]. intros y c Hy Hc.
    pose proof (Hbufs y c Hy Hc) as Hco. destruct Hco as [? ? ? ? Hcl ?]. split; try done. intros Hvc Hdc.
    cbn [s2 g_dev set_dev]. rewrite Hdk, dupd_ne; [rewrite <- Ed; by apply Hcl|].
    pose proof (Htw1 y Hy) as E. change (g_pool s1 !! y = Some c) in Hc. rewrite Hc in E. symmetry in E.
    apply tw_Some in E as (c0&Hc0&Htc). rewrite <- (twin_has _ _ _ Htc) in Hvc. destruct Htc as (_&<-&<-&_&_).
    by apply (valid_apart s L C x y b c0). }
  pose proof (except_wr x s2 L C clear_dirty b1 He2 Hb2 ltac:(done) ltac:(by left)) as He3. fold s3 in He3.
  set (s' := set_stats (st_flushes (Z.add 1) (g_stats s3)) s3).
  assert (Htw : forall y, y <> x -> tw <$> g_pool s' !! y = tw <$> g_pool s !! y).
  { intros y Hy. cbn [s' s3 s2 g_pool set_pool set_dev set_stats]. rewrite lookup_alter_ne by done. by apply Htw1. }
  assert (Hv' : valid b' = true) by (unfold has; by rewrite G4).
  injection T' as B1 B2 B3 _. change (data b' = data b) in B1. change (dev_id b' = dev_id b) in B2. change (block_num b' = block_num b) in B3.
  assert (Hi' : bc_inv s' L C).
  { eapply except_inv; [by apply except_stats, He3|exact Hb3| |].
    - split; [intros _|done]. unfold bucket. rewrite B2, B3. by apply (bc_chained _ _ _ Hi x b Hb).
    - destruct Hok as [_ Hsz _ Hg _ _]. split; rewrite ?B1, ?B2, ?B3; try done; unfold has; rewrite ?G4; [by right; left|by intros _; apply Hg| |done].
      intros _ _. cbn [s' s3 s2 g_dev set_stats set_pool set_dev]. rewrite Hdk. symmetry. apply dupd_eq. }
  exists t, s', b'. split; [done|]. split; [by mstep Hw2|]. split; [done|]. split; [done|].
  split; [unfold tw; rewrite B1, B2, B3, G4; done|]. split; [done|]. split; [done|].
  by apply (view_kept s s' L C x b b' Hi (bc_pool _ _ _ Hi')).
Qed.

(** Releasing the last reference to a dirty buffer writes it through. *)
Lemma put_dirty_run s L C x b : bc_inv s L C -> g_pool s !! x = Some b -> dirty b = true -> ref_count b = 1 ->
  exists s' b', bcache_put (Some x) s = Some (tt, s') /\ bc_inv s' L C /\ g_pool s' !! x = Some b' /\
    tw b' = (data b, dev_id b, block_num b, 1, 0) /\
    (forall y, y <> x -> tw <$> g_pool s' !! y = tw <$> g_pool s !! y) /\
    bio_disk (g_dev s') =d dupd (bio_disk (g_dev s)) (dev_id b) (block_num b) (data b) /\ view s' =d view s.
Proof.
  intros Hi Hb Hd Hr. pose proof (bc_bufs _ _ _ Hi x b Hb) as Hok.
  assert (Hf : flags b = 3) by (by apply (flags_of b _ Hok)). assert (Hv : valid b = true) by (unfold has; by rewrite Hf).
  unfold bcache_put. mstep (rd_run s x b Hb).
  rewrite Hr. cbn [Z.ltb Z.compare mwhen]. mstep (wr_run s x b (set_ref (1 - 1)) Hb).
  pose proof (except_wr x s L C (set_ref (1 - 1)) b (inv_except x s L C Hi) Hb ltac:(done) ltac:(by left)) as He1.
  set (s1 := set_pool _ s) in *. set (b1 := set_ref (1 - 1) b).
  assert (Hb1 : g_pool s1 !! x = Some b1) by (by apply lookup_alter_Some). mstep (rd_run s1 x b1 Hb1).
  change (dirty b1) with (dirty b). change (valid b1) with (valid b). rewrite Hd, Hv.
  change (ref_count b1 =? 0) with true. cbn [andb].
  destruct (writeback_run s s1 L C x b b1) as (t&s'&b'&Hw&Hr'&Hi'&Hb'&T'&?&?&?); try done.
  { unfold tw. cbn [b1 flags set_ref data dev_id block_num]. by rewrite Hf. }
  { intros y Hy. cbn [s1 g_pool set_pool]. by rewrite lookup_alter_ne. }
  mstep (on_dev_run _ s1 _ t Hw). rewrite decide_True by done. rewrite Hr'. exists s', b'. done.
Qed.

(** ** Flushing *)

Lemma flush_loop_run (sel : buf -> bool) n i s L C :
  (forall b c, dev_id b = dev_id c -> sel b = sel c) -> bc_inv s L C -> (i + n = Z.to_nat BCACHE_NBUFS)%nat ->
  (forall y b, (y < i)%nat -> g_pool s !! y = Some b -> sel b = true -> dirty b = false) ->
  exists s', flush_loop n sel i s = Some (BCACHE_OK, s') /\ bc_inv s' L C /\ view s' =d view s /\
    (forall y b, g_pool s' !! y = Some b -> sel b = true -> dirty b = false) /\
    (forall y, ref_count <$> g_pool s' !! y = ref_count <$> g_pool s !! y).
Proof.
  intros Hsel. revert i s. induction n as [|n IH]; intros i s Hi Hn Hdone; cbn [flush_loop].
  { exists (set_stats (st_dirty (fun _ => 0) (g_stats s)) s). split; [done|].
    split; [destruct Hi as [? [] ? ? ? ? ?]; by split|]. split; [done|]. split; [|done].
    intros y b Hb. apply (Hdone y b); [|done]. rewrite Nat.add_0_r in Hn. rewrite Hn. apply (pool_lookup s y (bc_pool _ _ _ Hi)). eauto. }
  destruct (proj2 (pool_lookup s i (bc_pool _ _ _ Hi))) as [b Hb]; [lia|]. mstep (rd_run s i b Hb).
  destruct (sel b && valid b && dirty b) eqn:E.
  2:{ apply IH; [done|lia|]. intros y c Hy Hc Hs. destruct (decide (y = i)) as [->|]; [|apply (Hdone y); auto; lia].
      assert (c = b) as -> by congruence. rewrite Hs in E. simpl in E.
      destruct (dirty b) eqn:Hd; [|done]. pose proof (flags_of b _ (bc_bufs _ _ _ Hi i b Hb)) as [Hv Hd3].
      apply Hd3 in Hd as Hf. assert (valid b = true) as Hvb by (apply Hv; lia). by rewrite Hvb in E. }
  apply andb_true_iff in E as [[Hs Hv]%andb_true_iff Hd]. pose proof (bc_bufs _ _ _ Hi i b Hb) as Hok.
  assert (Hf : flags b = 3) by (by apply (flags_of b _ Hok)).
  destruct (writeback_run s s L C i b b Hi Hb Hd (inv_except i s L C Hi) Hb) as (t&s1&b'&Hw&Hr1&Hi1&Hb1&T1&Htw1&_&Hv1); try done.
  { unfold tw. by rewrite Hf. } { apply Hok. }
  mstep (on_dev_run _ s _ t Hw). rewrite decide_True by done. apply mbind_inv in Hr1 as ([]&s2&Hr1&Hr2).
  mstep Hr1. mstep Hr2. injection T1 as B1 B2 B3 B4 B5.
  destruct (IH (S i) s1 Hi1) as (s'&Hr&Hi'&Hv'&Hcl&Href); [lia| |].
  - intros y c Hy Hc Hsc. destruct (decide (y = i)) as [->|].
    + assert (c = b') as -> by congruence. unfold has. by rewrite B4.
    + pose proof (Htw1 y ltac:(done)) as E. rewrite Hc in E. symmetry in E. apply tw_Some in E as (c0&Hc0&Ht).
      rewrite <- (twin_has _ _ _ Ht). apply (Hdone y c0); [lia|done|]. rewrite <- Hsc. apply Hsel. apply Ht.
  - exists s'. split; [done|]. split; [done|]. split; [by rewrite Hv', Hv1|]. split; [done|].
    intros y. rewrite Href. destruct (decide (y = i)) as [->|Hy]; [rewrite Hb1, Hb; simpl; by rewrite B5|].
    pose proof (Htw1 y Hy) as E. destruct (g_pool s1 !! y), (g_pool s !! y); try done. simpl in *. unfold tw in E. congruence.
Qed.

(** ** Whole-sector access with no buffer held *)

Definition quiet (s : B) : Prop := Inv s /\ forall x b, g_pool s !! x = Some b -> ref_count b = 0.

Lemma quiet_clean s : quiet s -> forall x b, g_pool s !! x = Some b -> dirty b = false.
Proof.
  intros [(L&C&Hi) Hq] x b Hb. destruct (dirty b) eqn:E; [|done].
  pose proof (bo_pinned _ _ (bc_bufs _ _ _ Hi x b Hb) E). rewrite (Hq x b Hb) in *. lia.
Qed.
Lemma quiet_view s : quiet s -> view s =d bio_disk (g_dev s).
Proof. intros Hq. destruct (proj1 Hq) as (L&C&Hi). eapply view_clean; [exact Hi|]. by apply quiet_clean. Qed.
Lemma quiet_some s : quiet s -> exists x b, g_pool s !! x = Some b /\ ref_count b = 0.
Proof.
  intros [(L&C&Hi) Hq]. destruct (proj2 (pool_lookup s 0 (bc_pool _ _ _ Hi))) as [b Hb]; [unfold BCACHE_NBUFS; lia|]. eauto.
Qed.

(** After a get from a quiet state, exactly the returned buffer is held, once. *)
Lemma quiet_get s d l : quiet s -> in_w 32 l ->
  (bio_good d l = false /\ exists s', bcache_get d l s = Some (None, s') /\ quiet s' /\ bio_disk (g_dev s') =d bio_disk (g_dev s)) \/
  (bio_good d l = true /\ exists x s' L C b, bcache_get d l s = Some (Some x, s') /\ bc_inv s' L C /\
     view s' =d bio_disk (g_dev s) /\ bio_disk (g_dev s') =d bio_disk (g_dev s) /\
     g_pool s' !! x = Some b /\ valid b = true /\ dirty b = false /\ dev_id b = d /\ block_num b = l /\
     data b = bio_disk (g_dev s) d l /\ ref_count b = 1 /\
     forall y c, y <> x -> g_pool s' !! y = Some c -> ref_count c = 0).
Proof.
  intros Hq Hl. destruct (get_run s d l (proj1 Hq) Hl) as (r&s'&Hr&(Hi'&Hv'&Hd'&Hpost)&Hsome).
  { intros x b Hb. rewrite (proj2 Hq x b Hb). lia. }
  pose proof (quiet_view s Hq) as Hvw.
  destruct r as [x|].
  - right. destruct Hpost as [[Hoth (b0&b1&Hb0&Hb1&Hr1&Hd1)] (b&Hb&Hv&Kd&Kl&Kdat)].
    assert (b1 = b) as -> by congruence. destruct Hi' as (L&C&Hi').
    split; [pose proof (bo_good _ _ (bc_bufs _ _ _ Hi' x b Hb) Hv) as Hg; by rewrite Kd, Kl in Hg|].
    exists x, s', L, C, b. split; [done|]. split; [done|]. split; [by rewrite Hv'|]. split; [done|]. split; [done|].
    split; [done|]. split; [rewrite Hd1; by apply (quiet_clean s Hq x b0)|]. split; [done|]. split; [done|].
    split; [rewrite Kdat; apply Hvw|]. split; [rewrite Hr1, (proj2 Hq x b0 Hb0); done|].
    intros y c Hy Hc. specialize (Hoth y Hy). rewrite Hc in Hoth. destruct (g_pool s !! y) as [c0|] eqn:Hc0; [|done].
    simpl in Hoth. unfold rf in Hoth. injection Hoth as E _. rewrite E. by apply (proj2 Hq y c0).
  - left. destruct Hpost as [Hrf [Hg|Hall]]; [split; [done|]|].
    + exists s'. split; [done|]. split; [|done]. split; [done|]. intros y c Hc. specialize (Hrf y). rewrite Hc in Hrf.
      destruct (g_pool s !! y) as [c0|] eqn:Hc0; [|done]. simpl in Hrf. unfold rf in Hrf. injection Hrf as E _.
      rewrite E. by apply (proj2 Hq y c0).
    + exfalso. destruct (quiet_some s Hq) as (x&b&Hb&Hz). by apply (Hall x b Hb).
Qed.

Lemma quiet_after s s' L C x b' : bc_inv s' L C -> g_pool s' !! x = Some b' -> ref_count b' = 0 ->
  (forall y c, y <> x -> g_pool s !! y = Some c -> ref_count c = 0) ->
  (forall y, y <> x -> tw <$> g_pool s' !! y = tw <$> g_pool s !! y) -> quiet s'.
Proof.
  intros Hi Hb' Hz Hoth Htw. split; [by exists L, C|]. intros y c Hc. destruct (decide (y = x)) as [->|Hy]; [congruence|].
  pose proof (Htw y Hy) as E. rewrite Hc in E. symmetry in E. apply tw_Some in E as (c0&Hc0&(_&_&_&_&<-)). eauto.
Qed.

Lemma sector_read_run s d l : quiet s -> in_w 32 l ->
  exists s', sector_read d l s = Some (if bio_good d l then Some (bio_disk (g_dev s) d l) else None, s') /\
    quiet s' /\ bio_disk (g_dev s') =d bio_disk (g_dev s).
Proof.
  intros Hq Hl. unfold sector_read.
  destruct (quiet_get s d l Hq Hl) as [[-> (s1&Hr&Hq1&Hd1)]|[-> (x&s1&L&C&b&Hr&Hi1&Hv1&Hd1&Hb&Hvb&Hdb&_&_&Hdat&Href&Hoth)]];
    mstep Hr; [by exists s1|].
  mstep (rd_run s1 x b Hb). destruct (put_clean_run s1 L C x b Hi1 Hb Hdb) as (s2&b2&Hr2&Hi2&Hb2&T2&Htw2&Ed2&_); [lia|].
  mstep Hr2. exists s2. rewrite Hdat. split; [done|]. split; [|by rewrite Ed2].
  injection T2 as _ _ _ _ E5. eapply (quiet_after s1); [exact Hi2|exact Hb2|lia|exact Hoth|done].
Qed.

Lemma sector_write_run s d l v : quiet s -> in_w 32 l -> length v = 512%nat ->
  exists s', sector_write d l v s = Some (bio_good d l, s') /\ quiet s' /\
    bio_disk (g_dev s') =d if bio_good d l then dupd (bio_disk (g_dev s)) d l v else bio_disk (g_dev s).
Proof.
  intros Hq Hl Hlen. unfold sector_write.
  destruct (quiet_get s d l Hq Hl) as [[-> (s1&Hr&Hq1&Hd1)]|[-> (x&s1&L&C&b&Hr&Hi1&Hv1&Hd1&Hb&Hvb&Hdb&Kd&Kl&Hdat&Href&Hoth)]];
    mstep Hr; [by exists s1|].
  destruct (store_run s1 L C x b v Hi1 Hb Hvb) as (s2&b2&Hr2&Hi2&Hb2&T2&Htw2&Ed2&_); [lia|done|].
  apply mbind_inv in Hr2 as ([]&s2'&Hw&Hr2). mstep Hw. mstep Hr2. injection T2 as A1 A2 A3 A4 A5.
  destruct (put_dirty_run s2 L C x b2 Hi2 Hb2) as (s3&b3&Hr3&Hi3&Hb3&T3&Htw3&Hdk3&_); [unfold has; by rewrite A4|lia|].
  mstep Hr3. injection T3 as _ _ _ _ B5. exists s3. split; [done|]. split.
  - eapply (quiet_after s1); [exact Hi3|exact Hb3|done|exact Hoth|]. intros y Hy. by rewrite Htw3, Htw2.
  - rewrite Hdk3, Ed2, A1, A2, A3, Kd, Kl. by rewrite Hd1.
Qed.

Lemma quiet_flush s d : quiet s -> exists s', bcache_flush_dev d s = Some (BCACHE_OK, s') /\ quiet s' /\
  bio_disk (g_dev s') =d bio_disk (g_dev s).
Proof.
  intros Hq. destruct (proj1 Hq) as (L&C&Hi).
  destruct (flush_loop_run (fun b => dev_id b =? d) (Z.to_nat BCACHE_NBUFS) 0 s L C) as (s'&Hr&Hi'&Hv'&_&Href); [by intros ? ? ->|done|done|lia|].
  exists s'. split; [exact Hr|]. assert (Hq' : quiet s').
  { split; [by exists L, C|]. intros y c Hc. specialize (Href y). rewrite Hc in Href.
    destruct (g_pool s !! y) as [c0|] eqn:Hc0; [|done]. simpl in Href. injection Href as ->. by apply (proj2 Hq y c0). }
  split; [done|]. by rewrite <- (quiet_view s' Hq'), Hv', (quiet_view s Hq).
Qed.

(** ** Initialisation *)

(** After [k] pushes: the last [k] buffers are on the list, all buffers are blank. *)
Record init_inv (t : D) (k : nat) (s : B) : Prop := InitInv {
  ii_pool : pool_ok (g_pool s);
  ii_lru : lru_ok s (seq (Z.to_nat BCACHE_NBUFS - k) k);
  ii_hash : g_hash s = replicate (Z.to_nat BCACHE_HASH_SIZE) None;
  ii_bufs : forall y b, g_pool s !! y = Some b -> tw b = tw zero_buf;
  ii_dev : g_dev s = t
}.

Lemma init_step t k s : init_inv t k s -> (k < Z.to_nat BCACHE_NBUFS)%nat ->
  let i := (Z.to_nat BCACHE_NBUFS - S k)%nat in
  exists s', (wr i (fun b => Buf (data b) 0 0 0 0 None None None) ;;; lru_push_front i) s = Some (tt, s') /\ init_inv t (S k) s'.
Proof.
  intros [Hp Hl Hh Hb Hd] Hk i. destruct (proj2 (pool_lookup s i Hp)) as [b Hbi]; [unfold i; lia|].
  set (f := fun b => Buf (data b) 0 0 0 0 None None None). mstep (wr_run s i b f Hbi). set (s1 := set_pool _ s).
  assert (Hi : i ∉ seq (Z.to_nat BCACHE_NBUFS - k) k) by (rewrite elem_of_seq; unfold i; lia).
  assert (Hl1 : lru_ok s1 (seq (Z.to_nat BCACHE_NBUFS - k) k)).
  { destruct Hl as [? Hs ? ?]. split; try done. by apply dseg_alter_ne. }
  assert (Hb1 : g_pool s1 !! i = Some (f b)) by (by apply lookup_alter_Some).
  destruct (lru_push_front_run s1 _ i (f b) Hl1 Hi Hb1) as (s2&Hr&Hl2&[Ep Eh _ Ed]). exists s2. split; [done|]. split.
  - eapply (dom_fmap_eq core); [exact Ep|]. unfold pool_ok in *. cbn [s1 g_pool set_pool]. by rewrite dom_alter_L.
  - replace (seq (Z.to_nat BCACHE_NBUFS - S k) (S k)) with (i :: seq (Z.to_nat BCACHE_NBUFS - k) k); [done|].
    unfold i. cbn [seq]. f_equal. f_equal. lia.
  - by rewrite Eh.
  - intros y c Hc. pose proof (tw_core _ _ y Ep) as E. rewrite Hc in E. cbn [s1 g_pool set_pool] in E.
    destruct (decide (i = y)) as [<-|]; [rewrite lookup_alter_eq, Hbi in E|rewrite lookup_alter_ne in E by done].
    + simpl in E. apply (inj Some) in E. rewrite E. unfold tw. simpl. pose proof (Hb i b Hbi) as E0.
      unfold tw in E0. injection E0 as -> _ _ _ _. done.
    + destruct (g_pool s !! y) as [c0|] eqn:Hc0; [|done]. simpl in E. apply (inj Some) in E. rewrite E. by apply (Hb y).
  - by rewrite Ed.
Qed.

Lemma init_run s : bio_ok (g_dev s) -> exists s', bcache_init s = Some (tt, s') /\ quiet s' /\ g_dev s' = g_dev s.
Proof.
  intros Hok. unfold bcache_init. unfold mbind_ at 1, mmodify at 1. set (s0 := Bcache _ _ _ _ _ _).
  assert (H0 : init_inv (g_dev s) 0 s0).
  { split; try done.
    - split; [constructor|done|done|done].
    - intros y b Hb. cbn [s0 g_pool] in Hb. apply elem_of_list_to_map_2 in Hb.
      apply list_elem_of_fmap in Hb as (z&E&_). injection E as _ ->. done. }
  destruct (for_range_inv (fun k t => init_inv (g_dev s) (Z.to_nat k) t) 0 BCACHE_NBUFS (fun k =>
    let i := Z.to_nat (BCACHE_NBUFS - 1 - k) in
    wr i (fun b => Buf (data b) 0 0 0 0 None None None) ;;; lru_push_front i) s0) as (s1&Hr&H1); [done|done| |].
  { intros k t Hk Ht. destruct (init_step _ _ _ Ht) as (t'&Hr&Ht'); [lia|].
    replace (Z.to_nat (BCACHE_NBUFS - 1 - k)) with (Z.to_nat BCACHE_NBUFS - S (Z.to_nat k))%nat by lia.
    replace (Z.to_nat (k + 1)) with (S (Z.to_nat k)) by lia. eauto. }
  mstep Hr. clear Hr H0 s0. destruct H1 as [Hp Hl Hh Hb Hd]. eexists. split; [reflexivity|]. split; [|done]. split.
  - exists (seq 0 (Z.to_nat BCACHE_NBUFS)), (fun _ => []). split; cbn [g_pool g_hash g_dev set_stats].
    + exact Hp.
    + rewrite Nat.sub_diag in Hl. destruct Hl as [H1 H2 H3 H4]. split; [exact H1|exact H2|exact H3|exact H4].
    + reflexivity.
    + rewrite Hh. split; [done| |constructor|by intros ? ? ? ?%elem_of_nil|by intros ? ? ? ? _ _ ?%elem_of_nil]. intros i Hi. exists None. split; [|done].
      apply zget_Some. split; [lia|]. apply lookup_replicate. split; [done|]. unfold BCACHE_HASH_SIZE in *. lia.
    + intros x b Hx. pose proof (Hb x b Hx) as E. unfold tw in E. injection E as _ _ _ E4 _. unfold has. rewrite E4. split; [done|by intros ?%elem_of_nil].
    + intros x b Hx. pose proof (Hb x b Hx) as E. unfold tw in E. injection E as E1 E2 E3 E4 E5.
      split; unfold has; rewrite ?E1, ?E2, ?E3, ?E4, ?E5; try done. by left.
    + by rewrite Hd.
  - intros x b Hx. pose proof (Hb x b Hx) as E. unfold tw in E. by injection E.
Qed.
End Coherence.

(** ** The interface to the file systems *)

(** Whole sectors, as ext2 reads and writes them. *)
Class SectorStore (S : Type) := {
  ss_read : Z -> Z -> M S (option (list Z));
  ss_write : Z -> Z -> list Z -> M S bool;
  ss_flush : Z -> M S unit
}.
(** An array of sectors: those that are [good] can be read and written. *)
Class SectorStoreLaws (S : Type) `{!SectorStore S} := {
  ss_ok : S -> Prop;
  ss_disk : S -> disk;
  ss_good : Z -> Z -> bool;
  ss_size : forall s d l, ss_ok s -> ss_good d l = true -> length (ss_disk s d l) = 512%nat;
  ss_read_law : forall s d l, ss_ok s -> in_w 32 l ->
    exists s', ss_read d l s = Some (if ss_good d l then Some (ss_disk s d l) else None, s') /\
      ss_ok s' /\ ss_disk s' =d ss_disk s;
  ss_write_law : forall s d l v, ss_ok s -> in_w 32 l -> length v = 512%nat ->
    exists s', ss_write d l v s = Some (ss_good d l, s') /\ ss_ok s' /\
      ss_disk s' =d if ss_good d l then dupd (ss_disk s) d l v else ss_disk s;
  ss_flush_law : forall s d, ss_ok s ->
    exists s', ss_flush d s = Some (tt, s') /\ ss_ok s' /\ ss_disk s' =d ss_disk s
}.

#[global] Instance bcache_store {D} `{!BlockIO D} : SectorStore (bcache D) := {
  ss_read := sector_read;
  ss_write := sector_write;
  ss_flush d := bcache_flush_dev d ;;; return tt
}.
#[global] Program Instance bcache_store_laws {D} `{!BlockIO D} `{!BlockIOLaws D} : SectorStoreLaws (bcache D) := {
  ss_ok := quiet;
  ss_disk s := bio_disk (g_dev s);
  ss_good := bio_good
}.
Next Obligation. intros D ? ? s d l [(L&C&Hi) _] Hg. apply bio_size; [apply Hi|done]. Qed.
Next Obligation. intros. by apply sector_read_run. Qed.
Next Obligation. intros. by apply sector_write_run. Qed.
Next Obligation.
  intros D ? ? s d Hq. destruct (quiet_flush s d Hq) as (s'&Hr&Hq'&Hd). exists s'. split; [|done].
  unfold ss_flush, bcache_store. by mstep Hr.
Qed.

(** ** Traces *)

Inductive sop := SRead (d l : Z) | SWrite (d l : Z) (v : list Z) | SFlush (d : Z).
Inductive sres := RData (v : option (list Z)) | RAck (ok : bool) | RDone.

Definition sop_ok (o : sop) : Prop :=
  match o with SRead _ l => in_w 32 l | SWrite _ l v => in_w 32 l /\ length v = 512%nat | SFlush _ => True end.

Section Trace.
Context {S : Type} `{!SectorStore S} `{!SectorStoreLaws S}.

Definition run_sop (o : sop) : M S sres :=
  match o with
  | SRead d l => v <~ ss_read d l ;; return (RData v)
  | SWrite d l v => a <~ ss_write d l v ;; return (RAck a)
  | SFlush d => ss_flush d ;;; return RDone
  end.
Fixpoint run_sops (os : list sop) : M S (list sres) :=
  match os with
  | [] => return []
  | o :: os' => r <~ run_sop o ;; rs <~ run_sops os' ;; return (r :: rs)
  end.

(** The same operations on an array of sectors. *)
Definition spec_sop (o : sop) (f : disk) : sres * disk :=
  match o with
  | SRead d l => (RData (if ss_good d l then Some (f d l) else None), f)
  | SWrite d l v => (RAck (ss_good d l), if ss_good d l then dupd f d l v else f)
  | SFlush _ => (RDone, f)
  end.
Fixpoint spec_sops (os : list sop) (f : disk) : list sres * disk :=
  match os with
  | [] => ([], f)
  | o :: os' => let '(r, f1) := spec_sop o f in let '(rs, f2) := spec_sops os' f1 in (r :: rs, f2)
  end.

Lemma run_sop_spec o s f : ss_ok s -> ss_disk s =d f -> sop_ok o ->
  exists s', run_sop o s = Some ((spec_sop o f).1, s') /\ ss_ok s' /\ ss_disk s' =d (spec_sop o f).2.
Proof.
  intros Hs Hf Ho. destruct o as [d l|d l v|d]; cbn [run_sop spec_sop fst snd].
  - destruct (ss_read_law s d l Hs Ho) as (s'&Hr&Hs'&Hd). mstep Hr. exists s'. split; [|split; [done|by rewrite Hd]].
    unfold mret. destruct (ss_good d l); [by rewrite Hf|done].
  - destruct Ho as [Hl Hv]. destruct (ss_write_law s d l v Hs Hl Hv) as (s'&Hr&Hs'&Hd). mstep Hr. exists s'.
    split; [done|]. split; [done|]. rewrite Hd. destruct (ss_good d l); by rewrite Hf.
  - destruct (ss_flush_law s d Hs) as (s'&Hr&Hs'&Hd). mstep Hr. exists s'. split; [done|]. split; [done|by rewrite Hd].
Qed.

Lemma run_sops_spec os s f : ss_ok s -> ss_disk s =d f -> Forall sop_ok os ->
  exists s', run_sops os s = Some ((spec_sops os f).1, s') /\ ss_ok s' /\ ss_disk s' =d (spec_sops os f).2.
Proof.
  intros Hs Hf Hos. revert s f Hs Hf. induction Hos as [|o os Ho Hos IH]; intros s f Hs Hf; cbn [run_sops spec_sops].
  { by exists s. }
  destruct (run_sop_spec o s f Hs Hf Ho) as (s1&Hr&Hs1&Hd1). mstep Hr. destruct (spec_sop o f) as [r f1].
  destruct (IH s1 f1 Hs1 Hd1) as (s2&Hr2&Hs2&Hd2). mstep Hr2. destruct (spec_sops os f1) as [rs f2]. by exists s2.
Qed.
End Trace.

(** * Properties *)

(** C8: the cache is transparent.  After [bcache_init], any sequence of sector reads,
    sector writes and flushes through the cache gives exactly the answers of an array
    of sectors, and the device itself holds the final array: lookups, LRU recycling
    and write-through lose nothing. *)
Theorem bcache_trace_refines {D} `{!BlockIO D} `{!BlockIOLaws D} (s : bcache D) ops :
  bio_ok (g_dev s) -> Forall sop_ok ops ->
  exists s', (bcache_init ;;; run_sops ops) s = Some ((spec_sops ops (bio_disk (g_dev s))).1, s') /\
    quiet s' /\ bio_disk (g_dev s') =d (spec_sops ops (bio_disk (g_dev s))).2.
Proof.
  intros Hok Hops. destruct (init_run s Hok) as (s1&Hr&Hq&Ed). mstep Hr. clear Hr.
  assert (Hq1 : ss_ok s1) by exact Hq.
  destruct (run_sops_spec ops s1 (bio_disk (g_dev s)) Hq1) as (s2&Hr2&Hq2&Hd2); [simpl; by rewrite Ed|done|].
  rewrite Hr2. exists s2. split; [reflexivity|exact (conj Hq2 Hd2)].
Qed.

(** [bcache_get] is coherent also while other buffers are held and dirty: the buffer
    it returns is valid, carries the requested sector and its current contents, is held
    once more, and no other holder's buffer, no sector's contents and no device sector
    changes; it fails only for a sector the device cannot read or when every buffer is
    held. *)
Theorem bcache_get_coherent {D} `{!BlockIO D} `{!BlockIOLaws D} (s : bcache D) d l :
  Inv s -> in_w 32 l -> (forall x b, g_pool s !! x = Some b -> ref_count b + 1 < 2 ^ 32) ->
  exists r s', bcache_get d l s = Some (r, s') /\ get_post d l s r s'.
Proof.
  intros H1 H2 H3. destruct (get_run s d l H1 H2 H3) as (r&s'&?&?&_). eauto.
Qed.

(** [bcache_flush_all] returns BCACHE_OK, leaves no dirty buffer, changes nothing a
    reader sees, and makes the device agree with what readers see. *)
Theorem bcache_flush_all_syncs {D} `{!BlockIO D} `{!BlockIOLaws D} (s : bcache D) :
  Inv s ->
  exists s', bcache_flush_all s = Some (BCACHE_OK, s') /\ Inv s' /\ view s' =d view s /\
    bio_disk (g_dev s') =d view s /\
    forall x b, g_pool s' !! x = Some b -> has BCACHE_FLAG_DIRTY b = false.
Proof.
  intros (L&C&Hi).
  destruct (flush_loop_run (fun _ => true) (Z.to_nat BCACHE_NBUFS) 0 s L C) as (s'&Hr&Hi'&Hv&Hcl&_); [done|done|done|lia|].
  exists s'. split; [exact Hr|]. split; [by exists L, C|]. split; [done|].
  assert (Hcl' : forall x b, g_pool s' !! x = Some b -> has BCACHE_FLAG_DIRTY b = false) by eauto.
  split; [|done]. rewrite <- (view_clean s' L C Hi' Hcl'). done.
Qed.

(** ** Witnesses *)

Notation ram := (gmap Z (list Z)).
#[local] Existing Instance one_disk_laws.
Definition ram_laws : BlockIOLaws (devtab ram) := one_disk_laws (ram_read 4096) (ram_write 4096) 0.
Definition ram_boot : bcache (devtab ram) := Bcache ∅ [] None None stats0 ram_table.

Definition ops0 : list sop :=
  [SWrite 0 5 (replicate 512 7); SRead 0 5; SRead 0 9; SWrite 0 5 (replicate 512 8); SFlush 0; SRead 0 5; SRead 0 5000].

Lemma bcache_trace_refines_witness :
  exists s', (bcache_init ;;; run_sops ops0) ram_boot =
      Some ((@spec_sops _ _ (@bcache_store_laws _ _ ram_laws) ops0 (@bio_disk _ _ ram_laws ram_table)).1, s') /\
    @quiet _ _ ram_laws s' /\
    @bio_disk _ _ ram_laws (g_dev s') =d
      (@spec_sops _ _ (@bcache_store_laws _ _ ram_laws) ops0 (@bio_disk _ _ ram_laws ram_table)).2.
Proof.
  apply (@bcache_trace_refines _ _ ram_laws ram_boot ops0).
  - apply ram_table_ok.
  - repeat constructor; vm_compute; done.
Defined.

Lemma ram_boot_inv : exists s', bcache_init ram_boot = Some (tt, s') /\ @quiet _ _ ram_laws s'.
Proof. destruct (@init_run _ _ ram_laws ram_boot ram_table_ok) as (s'&?&?&_). eauto. Qed.

(** The cache right after [bcache_init]. *)
Definition ram_cache : bcache (devtab ram) := match bcache_init ram_boot with Some (_, s) => s | None => ram_boot end.
Lemma ram_cache_quiet : @quiet _ _ ram_laws ram_cache.
Proof. unfold ram_cache. destruct ram_boot_inv as (s'&->&Hq). exact Hq. Qed.

Lemma bcache_get_coherent_witness :
  exists r s', bcache_get 0 3 ram_cache = Some (r, s') /\ @get_post _ _ ram_laws 0 3 ram_cache r s'.
Proof.
  apply (@bcache_get_coherent _ _ ram_laws ram_cache 0 3).
  - apply ram_cache_quiet.
  - split; [lia|vm_compute; done].
  - intros x b Hb. rewrite (proj2 ram_cache_quiet x b Hb). vm_compute. done.
Defined.

Lemma bcache_flush_all_syncs_witness :
  exists s', bcache_flush_all ram_cache = Some (BCACHE_OK, s') /\ @Inv _ _ ram_laws s' /\
    @view _ _ ram_laws s' =d @view _ _ ram_laws ram_cache /\
    @bio_disk _ _ ram_laws (g_dev s') =d @view _ _ ram_laws ram_cache /\
    forall x b, g_pool s' !! x = Some b -> has BCACHE_FLAG_DIRTY b = false.
Proof. apply (@bcache_flush_all_syncs _ _ ram_laws ram_cache). apply ram_cache_quiet. Defined.

(** The buffers are recycled from the end of the pool: on an empty cache the first
    sector read goes to buffer 127, not to buffer 0, and a buffer whose read failed
    becomes the most recently used one, so it is recycled last. *)
Theorem bcache_recycle_order :
  fst <$> (bcache_init ;;; find_evictable) ram_boot = Some (Some 127%nat) /\
  fst <$> (bcache_init ;;; bcache_get 0 5000 ;;; s <~ mget ;; v <~ find_evictable ;; return (g_lru_head s, v)) ram_boot =
    Some (Some 127%nat, Some 126%nat).
Proof. split; vm_compute; reflexivity. Qed.
