(* ===== verification/Ext2Data.v ===== *)
(** * Data of the ext2 file system (src/fs/ext2.h, bitmap helpers of ext2.c)

    Status codes, the superblock and the group descriptors (kept as the raw bytes the
    code keeps, read and written at the offsets of ext2.h), inodes as a record with
    their 128-byte little-endian codec, directory entries, allocation bitmaps, and the
    in-memory state [g_fs].  The files Ext2, Ext2File and Ext2Dir model the operations. *)

From stdpp Require Import base numbers gmap list options.
From S2P Require Import Prelude.

(** ** Constants *)

Definition EXT2_SUPER_MAGIC : Z := 0xEF53.
Definition EXT2_ROOT_INO : Z := 2.
Definition EXT2_INODE_SIZE : Z := 128.
Definition EXT2_N_DIRECT : Z := 12.
Definition EXT2_MAX_PATH : Z := 256.
Definition EXT2_FT_REG_FILE : Z := 1.
Definition EXT2_FT_DIR : Z := 2.
Definition EXT2_S_IFDIR : Z := 0x4000.
Definition EXT2_S_IFREG : Z := 0x8000.
Definition EXT2_S_ISDIR (m : Z) : bool := Z.land m 0xF000 =? EXT2_S_IFDIR.
Definition O_RDONLY : Z := 0.
Definition O_CREAT : Z := 0x0100.

Inductive ext2_status :=
  EXT2_OK | EXT2_ERR_NOT_MOUNTED | EXT2_ERR_BAD_MAGIC | EXT2_ERR_BAD_SB | EXT2_ERR_IO
| EXT2_ERR_NO_MEM | EXT2_ERR_NOT_FOUND | EXT2_ERR_NO_SPACE | EXT2_ERR_INVALID.
#[global] Instance ext2_status_eq_dec : EqDecision ext2_status.
Proof. solve_decision. Defined.

(** ** Superblock: 1024 bytes, fields at the offsets of [ext2_superblock_t] *)

(** A field of a structure that is known to be long enough. *)
Definition fld (n off : Z) (b : list Z) : Z := default 0 (get_le n off b).

Definition s_blocks_count (sb : list Z) : Z := fld 4 4 sb.
Definition s_free_blocks_count (sb : list Z) : Z := fld 4 12 sb.
Definition s_free_inodes_count (sb : list Z) : Z := fld 4 16 sb.
Definition s_first_data_block (sb : list Z) : Z := fld 4 20 sb.
Definition s_log_block_size (sb : list Z) : Z := fld 4 24 sb.
Definition s_blocks_per_group (sb : list Z) : Z := fld 4 32 sb.
Definition s_inodes_per_group (sb : list Z) : Z := fld 4 40 sb.
Definition s_magic (sb : list Z) : Z := fld 2 56 sb.
Definition s_inode_size (sb : list Z) : Z := fld 2 88 sb.

(** ** Group descriptors: field offsets inside the 32 bytes of [ext2_group_desc_t] *)

Definition GD_SIZE : Z := 32.
Definition bg_block_bitmap : Z := 0.
Definition bg_inode_bitmap : Z := 4.
Definition bg_inode_table : Z := 8.
Definition bg_free_blocks_count : Z := 12.
Definition bg_free_inodes_count : Z := 14.
Definition bg_used_dirs_count : Z := 16.

(** [g_fs.gd[group].field]; [None] when [gd] is NULL or the entry is outside it. *)
Definition gd32 (gd : option (list Z)) (group field : Z) : option Z :=
  g ← gd; get32 (GD_SIZE * group + field) g.
Definition gd16 (gd : option (list Z)) (group field : Z) : option Z :=
  g ← gd; get16 (GD_SIZE * group + field) g.
Definition gd_put16 (gd : option (list Z)) (group field v : Z) : option (list Z) :=
  g ← gd; put16 (GD_SIZE * group + field) (u16 v) g.

(** ** Inodes *)

Record ext2_inode := Inode {
  i_mode : Z; i_uid : Z; i_size : Z; i_atime : Z; i_ctime : Z; i_mtime : Z; i_dtime : Z;
  i_gid : Z; i_links_count : Z; i_blocks : Z; i_flags : Z; i_osd1 : Z;
  i_block : list Z;
  i_generation : Z; i_file_acl : Z; i_size_high : Z; i_fsize : Z; i_osd2 : list Z
}.

(** The layout of [ext2_inode_t]: width of each field, in bytes. *)
Definition inode_widths : list nat :=
  ([2; 2; 4; 4; 4; 4; 4; 2; 2; 4; 4; 4] ++ replicate 15 4 ++ [4; 4; 4; 4] ++ replicate 3 4)%nat.
Definition inode_fields (i : ext2_inode) : list Z :=
  [i_mode i; i_uid i; i_size i; i_atime i; i_ctime i; i_mtime i; i_dtime i; i_gid i;
   i_links_count i; i_blocks i; i_flags i; i_osd1 i] ++ i_block i ++
  [i_generation i; i_file_acl i; i_size_high i; i_fsize i] ++ i_osd2 i.
Definition inode_of_fields (l : list Z) : option ext2_inode :=
  match l with
  | [m; u; sz; at_; ct; mt; dt; g; lc; bl; fl; o1; b0; b1; b2; b3; b4; b5; b6; b7; b8; b9; b10;
     b11; b12; b13; b14; ge; fa; sh; fs; x0; x1; x2] =>
    Some (Inode m u sz at_ ct mt dt g lc bl fl o1
            [b0; b1; b2; b3; b4; b5; b6; b7; b8; b9; b10; b11; b12; b13; b14] ge fa sh fs [x0; x1; x2])
  | _ => None
  end.

(** Packed structures: the fields one after the other. *)
Fixpoint enc_fields (ws : list nat) (vs : list Z) : list Z :=
  match ws, vs with w :: ws', v :: vs' => le_enc w v ++ enc_fields ws' vs' | _, _ => [] end.
Fixpoint dec_fields (ws : list nat) (b : list Z) : list Z :=
  match ws with [] => [] | w :: ws' => le_dec (take w b) :: dec_fields ws' (drop w b) end.

Definition inode_enc (i : ext2_inode) : list Z := enc_fields inode_widths (inode_fields i).
Definition inode_dec (b : list Z) : option ext2_inode := inode_of_fields (dec_fields inode_widths b).

(** Every field a value of its type. *)
Definition fields_ok (ws : list nat) (vs : list Z) : Prop :=
  Forall2 (fun w v => 0 <= v < 256 ^ Z.of_nat w) ws vs.
Definition inode_ok (i : ext2_inode) : Prop :=
  length (i_block i) = 15%nat /\ length (i_osd2 i) = 3%nat /\ fields_ok inode_widths (inode_fields i).

Definition zero_inode : ext2_inode :=
  Inode 0 0 0 0 0 0 0 0 0 0 0 0 (replicate 15 0) 0 0 0 0 (replicate 3 0).

(** Assignments to a field. *)
Definition set_i_size (i : ext2_inode) (v : Z) : ext2_inode :=
  Inode (i_mode i) (i_uid i) v (i_atime i) (i_ctime i) (i_mtime i) (i_dtime i) (i_gid i) (i_links_count i)
    (i_blocks i) (i_flags i) (i_osd1 i) (i_block i) (i_generation i) (i_file_acl i) (i_size_high i) (i_fsize i) (i_osd2 i).
Definition set_i_links_count (i : ext2_inode) (v : Z) : ext2_inode :=
  Inode (i_mode i) (i_uid i) (i_size i) (i_atime i) (i_ctime i) (i_mtime i) (i_dtime i) (i_gid i) v
    (i_blocks i) (i_flags i) (i_osd1 i) (i_block i) (i_generation i) (i_file_acl i) (i_size_high i) (i_fsize i) (i_osd2 i).
Definition set_i_blocks (i : ext2_inode) (v : Z) : ext2_inode :=
  Inode (i_mode i) (i_uid i) (i_size i) (i_atime i) (i_ctime i) (i_mtime i) (i_dtime i) (i_gid i) (i_links_count i)
    v (i_flags i) (i_osd1 i) (i_block i) (i_generation i) (i_file_acl i) (i_size_high i) (i_fsize i) (i_osd2 i).
Definition set_i_mode (i : ext2_inode) (v : Z) : ext2_inode :=
  Inode v (i_uid i) (i_size i) (i_atime i) (i_ctime i) (i_mtime i) (i_dtime i) (i_gid i) (i_links_count i)
    (i_blocks i) (i_flags i) (i_osd1 i) (i_block i) (i_generation i) (i_file_acl i) (i_size_high i) (i_fsize i) (i_osd2 i).
Definition set_i_block_list (i : ext2_inode) (l : list Z) : ext2_inode :=
  Inode (i_mode i) (i_uid i) (i_size i) (i_atime i) (i_ctime i) (i_mtime i) (i_dtime i) (i_gid i) (i_links_count i)
    (i_blocks i) (i_flags i) (i_osd1 i) l (i_generation i) (i_file_acl i) (i_size_high i) (i_fsize i) (i_osd2 i).
(** [inode->i_block[k] = v] *)
Definition set_i_block (i : ext2_inode) (k v : Z) : option ext2_inode :=
  set_i_block_list i <$> zset (i_block i) k v.

(** ** Directory entries *)

Record ext2_dirent := Dirent { de_inode : Z; de_rec_len : Z; de_name_len : Z; de_file_type : Z }.

(** The fixed part of the entry at [off] of a block buffer. *)
Definition dirent_at (buf : list Z) (off : Z) : option ext2_dirent :=
  i ← get32 off buf; r ← get16 (off + 4) buf; n ← get8 (off + 6) buf; t ← get8 (off + 7) buf;
  Some (Dirent i r n t).
(** Stores the fields of an entry and its name. *)
Definition dirent_put (off : Z) (d : ext2_dirent) (name : list Z) (buf : list Z) : option (list Z) :=
  b1 ← put32 off (de_inode d) buf; b2 ← put16 (off + 4) (u16 (de_rec_len d)) b1;
  b3 ← put8 (off + 6) (u8 (de_name_len d)) b2; b4 ← put8 (off + 7) (u8 (de_file_type d)) b3;
  splice (off + 8) name b4.

(** ** Allocation bitmaps *)

Definition bitmap_set (bitmap : list Z) (bit : Z) : option (list Z) :=
  v ← zget bitmap (bit / 8); zset bitmap (bit / 8) (u8 (Z.lor v (Z.shiftl 1 (bit mod 8)))).
Definition bitmap_clear (bitmap : list Z) (bit : Z) : option (list Z) :=
  v ← zget bitmap (bit / 8); zset bitmap (bit / 8) (u8 (Z.land v (Z.lnot (Z.shiftl 1 (bit mod 8))))).
Definition bitmap_test (bitmap : list Z) (bit : Z) : option bool :=
  v ← zget bitmap (bit / 8); Some (negb (Z.land (Z.shiftr v (bit mod 8)) 1 =? 0)).

(** [for (b = b0; b < b0 + n; b++) if (!(v & (1U << b))) return b;] *)
Fixpoint zero_bit (n : nat) (v b : Z) : option Z :=
  match n with
  | O => None
  | S n' => if Z.land v (Z.shiftl 1 b) =? 0 then Some b else zero_bit n' v (b + 1)
  end.
(** The scan of the full bytes from index [i]: [None] is a fault. *)
Fixpoint scan_bytes (n : nat) (bitmap : list Z) (i : Z) : option (option Z) :=
  match n with
  | O => Some None
  | S n' =>
    v ← zget bitmap i;
    if negb (v =? 0xFF) then
      match zero_bit 8 v 0 with
      | Some b => Some (Some (i32 (u32 (i * 8 + b))))
      | None => scan_bytes n' bitmap (i + 1)
      end
    else scan_bytes n' bitmap (i + 1)
  end.
Definition bitmap_find_free (bitmap : list Z) (total_bits : Z) : option Z :=
  let full_bytes := total_bits / 8 in
  let remaining := total_bits mod 8 in
  r ← scan_bytes (Z.to_nat full_bytes) bitmap 0;
  match r with
  | Some bit => Some bit
  | None =>
    if remaining =? 0 then Some (-1) else
    v ← zget bitmap full_bytes;
    match zero_bit (Z.to_nat remaining) v 0 with
    | Some b => Some (i32 (u32 (full_bytes * 8 + b)))
    | None => Some (-1)
    end
  end.

(** ** The mounted file system *)

Record ext2_fs := Fs {
  mounted : bool; dev_id : Z; sb : list Z; gd : option (list Z); block_size : Z; num_groups : Z;
  inodes_per_group : Z; blocks_per_group : Z; descs_per_group : Z; desc_blocks : Z
}.

Definition zero_fs : ext2_fs := Fs false 0 (replicate 1024 0) None 0 0 0 0 0 0.

Definition set_gd (f : ext2_fs) (g : option (list Z)) : ext2_fs :=
  Fs (mounted f) (dev_id f) (sb f) g (block_size f) (num_groups f) (inodes_per_group f)
    (blocks_per_group f) (descs_per_group f) (desc_blocks f).
Definition set_sb (f : ext2_fs) (b : list Z) : ext2_fs :=
  Fs (mounted f) (dev_id f) b (gd f) (block_size f) (num_groups f) (inodes_per_group f)
    (blocks_per_group f) (descs_per_group f) (desc_blocks f).
Definition set_mounted (f : ext2_fs) (m : bool) : ext2_fs :=
  Fs m (dev_id f) (sb f) (gd f) (block_size f) (num_groups f) (inodes_per_group f)
    (blocks_per_group f) (descs_per_group f) (desc_blocks f).
Definition set_dev_id (f : ext2_fs) (d : Z) : ext2_fs :=
  Fs (mounted f) d (sb f) (gd f) (block_size f) (num_groups f) (inodes_per_group f)
    (blocks_per_group f) (descs_per_group f) (desc_blocks f).

Record ext2_stat_t := Stat {
  st_ino : Z; st_size : Z; st_mode : Z; st_links : Z; st_blocks : Z; st_uid : Z; st_gid : Z;
  st_atime : Z; st_mtime : Z; st_ctime : Z
}.

(** * Lemmas *)

(** ** Packed structures *)

Lemma enc_fields_length ws vs : length ws = length vs -> length (enc_fields ws vs) = sum_list ws.
Proof.
  revert vs; induction ws as [|w ws IH]; intros [|v vs] Hl; simpl in *; try done.
  rewrite length_app, le_enc_length, IH by lia. done.
Qed.
Lemma enc_fields_bytes ws vs : Forall byte_ok (enc_fields ws vs).
Proof.
  revert vs; induction ws as [|w ws IH]; intros [|v vs]; simpl; try constructor.
  apply Forall_app. split; [apply le_enc_bytes|apply IH].
Qed.
Lemma dec_fields_length ws b : length (dec_fields ws b) = length ws.
Proof. revert b; induction ws; intros; simpl; auto. Qed.
Lemma dec_enc_fields ws vs : fields_ok ws vs -> dec_fields ws (enc_fields ws vs) = vs.
Proof.
  induction 1 as [|w v ws vs Hv Hf IH]; [done|]. cbn [enc_fields dec_fields].
  rewrite take_app_le, drop_app_ge, take_ge by (rewrite le_enc_length; lia).
  rewrite le_dec_enc by done. rewrite le_enc_length, Nat.sub_diag, drop_0, IH. done.
Qed.
Lemma enc_dec_fields ws b :
  length b = sum_list ws -> Forall byte_ok b -> enc_fields ws (dec_fields ws b) = b.
Proof.
  revert b; induction ws as [|w ws IH]; intros b Hl Hb; simpl in *.
  - by destruct b.
  - rewrite IH; [|rewrite length_drop; lia|by apply Forall_drop].
    rewrite <-(take_drop w b) at 3. f_equal.
    rewrite <-(le_enc_dec (take w b)) at 2 by by apply Forall_take. f_equal. rewrite length_take. lia.
Qed.
Lemma dec_fields_ok ws b :
  length b = sum_list ws -> Forall byte_ok b -> fields_ok ws (dec_fields ws b).
Proof.
  revert b; induction ws as [|w ws IH]; intros b Hl Hb; simpl in *; constructor.
  - pose proof (le_dec_bound (take w b) ltac:(by apply Forall_take)) as Hd.
    rewrite length_take in Hd. by replace (w `min` length b)%nat with w in Hd by lia.
  - apply IH; [rewrite length_drop; lia|by apply Forall_drop].
Qed.

(** ** Inodes: the codec is a bijection between inodes and 128 bytes *)

Lemma inode_fields_length i : inode_ok i -> length (inode_fields i) = 34%nat.
Proof. intros (H1&H2&_). unfold inode_fields. simpl. rewrite length_app. simpl. lia. Qed.
Lemma inode_of_fields_of i :
  length (i_block i) = 15%nat -> length (i_osd2 i) = 3%nat -> inode_of_fields (inode_fields i) = Some i.
Proof.
  destruct i as [? ? ? ? ? ? ? ? ? ? ? ? bl ? ? ? ? o2]; cbn [i_block i_osd2]. intros H1 H2.
  do 15 (destruct bl as [|? bl]; [done|]). destruct bl; [|done].
  do 3 (destruct o2 as [|? o2]; [done|]). by destruct o2.
Qed.
Lemma inode_enc_length i : inode_ok i -> length (inode_enc i) = 128%nat.
Proof.
  intros Hi. unfold inode_enc. rewrite enc_fields_length; [done|]. by rewrite inode_fields_length.
Qed.
Lemma inode_dec_enc i : inode_ok i -> inode_dec (inode_enc i) = Some i.
Proof.
  intros (H1&H2&H3). unfold inode_dec, inode_enc. rewrite dec_enc_fields by done. by apply inode_of_fields_of.
Qed.
Lemma inode_of_fields_total l : length l = 34%nat ->
  exists i, inode_of_fields l = Some i /\ inode_fields i = l /\ length (i_block i) = 15%nat /\ length (i_osd2 i) = 3%nat.
Proof.
  intros Hl. do 34 (destruct l as [|? l]; [done|]). destruct l; [|done]. eexists. split; [reflexivity|]. done.
Qed.
Lemma inode_dec_total b : length b = 128%nat -> Forall byte_ok b ->
  exists i, inode_dec b = Some i /\ inode_ok i /\ inode_enc i = b.
Proof.
  intros Hl Hb. destruct (inode_of_fields_total (dec_fields inode_widths b)) as (i&Hi&Hf&H1&H2).
  { by rewrite dec_fields_length. }
  exists i. split; [done|]. unfold inode_enc. rewrite Hf. split; [|by apply enc_dec_fields].
  split_and!; [done..|]. rewrite Hf. by apply dec_fields_ok.
Qed.
Lemma inode_enc_bytes i : Forall byte_ok (inode_enc i).
Proof. apply enc_fields_bytes. Qed.

(** ** Bitmaps: bit [i] of a byte array *)

Definition bit_used (bm : list Z) (i : Z) : bool := Z.testbit (default 0 (zget bm (i / 8))) (i mod 8).

Lemma land_bit v b : 0 <= b -> (Z.land v (Z.shiftl 1 b) =? 0) = negb (Z.testbit v b).
Proof.
  intros Hb. destruct (Z.testbit v b) eqn:E; simpl.
  - apply Z.eqb_neq. intros H0. assert (Z.testbit (Z.land v (Z.shiftl 1 b)) b = true) as Ht.
    { rewrite Z.land_spec, E, pow2_testbit by done. by rewrite bool_decide_eq_true_2. }
    rewrite H0, Z.testbit_0_l in Ht. done.
  - apply Z.eqb_eq, Z.bits_inj'. intros i Hi. rewrite Z.land_spec, pow2_testbit, Z.testbit_0_l by done.
    case_bool_decide as Ei; [subst; rewrite E; done|]. apply andb_false_r.
Qed.

Lemma zero_bit_spec n v b : 0 <= b ->
  match zero_bit n v b with
  | Some r => b <= r < b + Z.of_nat n /\ Z.testbit v r = false /\ forall j, b <= j < r -> Z.testbit v j = true
  | None => forall j, b <= j < b + Z.of_nat n -> Z.testbit v j = true
  end.
Proof.
  revert b; induction n as [|n IH]; intros b Hb; cbn [zero_bit]; [lia|]. rewrite land_bit by done.
  destruct (Z.testbit v b) eqn:E; cbn [negb]; [|split_and!; [lia..|done|lia]].
  specialize (IH (b + 1) ltac:(lia)). destruct (zero_bit n v (b + 1)) as [r|].
  - destruct IH as (?&?&Hj). split_and!; [lia..|done|]. intros j Hjr. destruct (decide (j = b)) as [->|]; [done|]. apply Hj. lia.
  - intros j Hjr. destruct (decide (j = b)) as [->|]; [done|]. apply IH. lia.
Qed.

Lemma bit_used_at bm i b v : zget bm i = Some v -> 0 <= b < 8 -> bit_used bm (8 * i + b) = Z.testbit v b.
Proof.
  intros Hv Hb. unfold bit_used. rewrite (Z.mul_comm 8), Z.div_add_l, (Z.div_small b) by lia.
  rewrite Z.add_0_r, Hv, Z.add_comm, Z_mod_plus_full, Z.mod_small by lia. done.
Qed.
Lemma bit_split j : j = 8 * (j / 8) + j mod 8 /\ 0 <= j mod 8 < 8.
Proof. pose proof (Z.div_mod j 8). pose proof (Z.mod_pos_bound j 8). lia. Qed.

(** [first_free bm lo n r]: [r] is the first clear bit in [lo, n), or -1. *)
Definition first_free (bm : list Z) (lo n r : Z) : Prop :=
  (r = -1 /\ forall j, lo <= j < n -> bit_used bm j = true) \/
  (lo <= r < n /\ bit_used bm r = false /\ forall j, lo <= j < r -> bit_used bm j = true).

Lemma first_free_byte bm i v k n : zget bm i = Some v -> 0 <= Z.of_nat k <= 8 ->
  match zero_bit k v 0 with
  | Some b => first_free bm (8 * i) n (8 * i + b) \/ n <= 8 * i + b
  | None => forall j, 8 * i <= j < 8 * i + Z.of_nat k -> bit_used bm j = true
  end.
Proof.
  intros Hv Hk. pose proof (zero_bit_spec k v 0 ltac:(lia)) as Hz. destruct (zero_bit k v 0) as [b|].
  - destruct Hz as (Hb&Hf&Hall). destruct (decide (8 * i + b < n)); [left; right|right; lia].
    split; [lia|]. split; [by rewrite (bit_used_at _ _ _ v) by (done || lia)|].
    intros j Hj. replace j with (8 * i + (j - 8 * i)) by lia. rewrite (bit_used_at _ _ _ v) by (done || lia). apply Hall. lia.
  - intros j Hj. replace j with (8 * i + (j - 8 * i)) by lia. rewrite (bit_used_at _ _ _ v) by (done || lia). apply Hz. lia.
Qed.

Lemma byte_full b : 0 <= b < 8 -> Z.testbit 255 b = true.
Proof. intros Hb. change 255 with (Z.ones 8). rewrite Z.testbit_ones_nonneg by lia. apply Z.ltb_lt. lia. Qed.

Lemma scan_bytes_spec n bm i :
  0 <= i -> i + Z.of_nat n <= Z.of_nat (length bm) -> Z.of_nat (length bm) < 2 ^ 28 -> Forall byte_ok bm ->
  match scan_bytes n bm i with
  | Some (Some r) => first_free bm (8 * i) (8 * (i + Z.of_nat n)) r /\ 0 <= r
  | Some None => forall j, 8 * i <= j < 8 * (i + Z.of_nat n) -> bit_used bm j = true
  | None => False
  end.
Proof.
  revert i; induction n as [|n IH]; intros i Hi Hn Hl Hb; cbn [scan_bytes]; [lia|].
  destruct (zget_is_Some bm i) as [v Hv]; [lia|]. rewrite Hv. cbn [mbind option_bind].
  specialize (IH (i + 1) ltac:(lia) ltac:(lia) Hl Hb).
  assert ((forall j, 8 * i <= j < 8 * i + 8 -> bit_used bm j = true) ->
    match scan_bytes n bm (i + 1) with
    | Some (Some r) => first_free bm (8 * i) (8 * (i + Z.of_nat (S n))) r /\ 0 <= r
    | Some None => forall j, 8 * i <= j < 8 * (i + Z.of_nat (S n)) -> bit_used bm j = true
    | None => False
    end) as Hnext.
  { intros H8. destruct (scan_bytes n bm (i + 1)) as [[r|]|]; [| |done].
    - destruct IH as [[[-> ?]|(?&?&Hj)] Hr]; [lia|]. split; [|done]. right. split; [lia|]. split; [done|].
      intros j Hjr. destruct (decide (j < 8 * i + 8)); [apply H8; lia|apply Hj; lia].
    - intros j Hjr. destruct (decide (j < 8 * i + 8)); [apply H8; lia|apply IH; lia]. }
  destruct (Z.eqb_spec v 255) as [E|E]; cbn [negb].
  - apply Hnext. intros j Hj. replace j with (8 * i + (j - 8 * i)) by lia.
    rewrite (bit_used_at _ _ _ v) by (done || lia). subst v. apply byte_full. lia.
  - pose proof (first_free_byte bm i v 8 (8 * (i + Z.of_nat (S n))) Hv ltac:(lia)) as Hff.
    pose proof (zero_bit_spec 8 v 0 ltac:(lia)) as Hz. destruct (zero_bit 8 v 0) as [b|].
    + rewrite small_i32 by lia. rewrite (Z.mul_comm i 8). destruct Hff as [?|?]; [split; [done|lia]|lia].
    + apply Hnext. intros j Hj. apply Hff. lia.
Qed.

(** The search finds the first clear bit of the [n] bits, and -1 exactly when all are set. *)
Lemma bitmap_find_free_run bm n :
  0 <= n <= 8 * Z.of_nat (length bm) -> Z.of_nat (length bm) < 2 ^ 28 -> Forall byte_ok bm ->
  exists r, bitmap_find_free bm n = Some r /\ first_free bm 0 n r.
Proof.
  intros Hn Hl Hb. unfold bitmap_find_free. cbv zeta.
  assert (0 <= n / 8) by (apply Z.div_pos; lia). pose proof (bit_split n) as [Hs Hm].
  pose proof (scan_bytes_spec (Z.to_nat (n / 8)) bm 0 ltac:(lia) ltac:(lia) Hl Hb) as Hscan.
  rewrite Z2Nat.id in Hscan by done. destruct (scan_bytes _ bm 0) as [[r|]|]; [| |done]; cbn [mbind option_bind].
  - destruct Hscan as [[[-> ?]|(?&?&?)] ?]; [lia|]. exists r. split; [done|]. right. split; [lia|]. split; [done|]. intros; auto with lia.
  - destruct (Z.eqb_spec (n mod 8) 0) as [E|E].
    + exists (-1). split; [done|]. left. split; [done|]. intros j Hj. apply Hscan. lia.
    + destruct (zget_is_Some bm (n / 8)) as [v Hv]; [lia|]. rewrite Hv. cbn [mbind option_bind].
      pose proof (first_free_byte bm (n / 8) v (Z.to_nat (n mod 8)) n Hv ltac:(lia)) as Hff.
      pose proof (zero_bit_spec (Z.to_nat (n mod 8)) v 0 ltac:(lia)) as Hz. destruct (zero_bit _ v 0) as [b|].
      * rewrite small_i32 by lia. rewrite (Z.mul_comm _ 8). eexists. split; [done|].
        destruct Hff as [[[? ?]|(?&?&Hj)]|?]; [lia| |lia]. right. split; [lia|]. split; [done|].
        intros j Hjr. destruct (decide (j < 8 * (n / 8))); [apply Hscan; lia|apply Hj; lia].
      * exists (-1). split; [done|]. left. split; [done|]. intros j Hj.
        destruct (decide (j < 8 * (n / 8))); [apply Hscan; lia|apply Hff; lia].
Qed.

Lemma bitmap_ext bm bm' : length bm = length bm' -> Forall byte_ok bm -> Forall byte_ok bm' ->
  (forall j, 0 <= j < 8 * Z.of_nat (length bm) -> bit_used bm j = bit_used bm' j) -> bm = bm'.
Proof.
  intros Hl Hb Hb' Hj. apply list_eq. intros k. destruct (bm !! k) as [v|] eqn:E.
  - destruct (lookup_lt_is_Some_2 bm' k) as [v' E']; [rewrite <-Hl; by eapply lookup_lt_Some|].
    pose proof (Forall_lookup_1 _ _ _ _ Hb E) as Hv. pose proof (Forall_lookup_1 _ _ _ _ Hb' E') as Hv'.
    rewrite E'. f_equal. apply (bits_eq 8); [lia|exact Hv|exact Hv'|].
    intros b Hbb. pose proof (lookup_lt_Some _ _ _ E). specialize (Hj (8 * Z.of_nat k + b) ltac:(lia)).
    rewrite (bit_used_at bm _ _ v), (bit_used_at bm' _ _ v') in Hj by (rewrite ?zget_nat; done || lia). done.
  - symmetry. apply lookup_ge_None. rewrite <-Hl. by apply lookup_ge_None.
Qed.

(** Replacing the byte that holds bit [i] by one that differs in that bit only. *)
Lemma bit_replace bm i v w x :
  zget bm (i / 8) = Some v -> 0 <= i -> Forall byte_ok bm -> byte_ok w ->
  (forall b, 0 <= b < 8 -> Z.testbit w b = if decide (b = i mod 8) then x else Z.testbit v b) ->
  exists bm', zset bm (i / 8) w = Some bm' /\ length bm' = length bm /\ Forall byte_ok bm' /\
    forall j, 0 <= j -> bit_used bm' j = if decide (j = i) then x else bit_used bm j.
Proof.
  intros Hv Hi Hb Hw Hx. pose proof (zget_range _ _ _ Hv) as Hr. rewrite zset_Some by done. eexists.
  split; [done|]. split; [apply length_insert|]. split; [by apply Forall_insert|]. intros j Hj.
  pose proof (bit_split j) as [Ej Hm]. pose proof (bit_split i) as [Ei _].
  unfold bit_used. rewrite zget_insert by done. case_decide as Eq.
  - cbn [from_option id]. rewrite Hx by done. rewrite <-Eq, Hv. cbn [from_option id].
    destruct (decide (j = i)) as [->|]; [by rewrite decide_True|]. rewrite decide_False; [done|lia].
  - rewrite decide_False by congruence. done.
Qed.

Lemma testbit_u8 v b : 0 <= b < 8 -> Z.testbit (u8 v) b = Z.testbit v b.
Proof. intros. unfold u8, wrap. apply Z.mod_pow2_bits_low. lia. Qed.
Lemma u8_byte v : byte_ok (u8 v).
Proof. apply (wrap_range 8). lia. Qed.

Lemma bitmap_set_run bm i : 0 <= i < 8 * Z.of_nat (length bm) -> Forall byte_ok bm ->
  exists bm', bitmap_set bm i = Some bm' /\ length bm' = length bm /\ Forall byte_ok bm' /\
    forall j, 0 <= j -> bit_used bm' j = if decide (j = i) then true else bit_used bm j.
Proof.
  intros Hi Hb. pose proof (bit_split i). destruct (zget_is_Some bm (i / 8)) as [v Hv].
  { split; [apply Z.div_pos; lia|apply Z.div_lt_upper_bound; lia]. }
  unfold bitmap_set. rewrite Hv. cbn [mbind option_bind]. apply (bit_replace bm i v); [done|lia|done|apply u8_byte|].
  intros b Hbb. rewrite testbit_u8, Z.lor_spec, pow2_testbit by lia. case_decide as E.
  - rewrite bool_decide_eq_true_2 by done. apply orb_true_r.
  - rewrite bool_decide_eq_false_2 by done. apply orb_false_r.
Qed.
Lemma bitmap_clear_run bm i : 0 <= i < 8 * Z.of_nat (length bm) -> Forall byte_ok bm ->
  exists bm', bitmap_clear bm i = Some bm' /\ length bm' = length bm /\ Forall byte_ok bm' /\
    forall j, 0 <= j -> bit_used bm' j = if decide (j = i) then false else bit_used bm j.
Proof.
  intros Hi Hb. pose proof (bit_split i). destruct (zget_is_Some bm (i / 8)) as [v Hv].
  { split; [apply Z.div_pos; lia|apply Z.div_lt_upper_bound; lia]. }
  unfold bitmap_clear. rewrite Hv. cbn [mbind option_bind]. apply (bit_replace bm i v); [done|lia|done|apply u8_byte|].
  intros b Hbb. rewrite testbit_u8, Z.land_spec, Z.lnot_spec, pow2_testbit by lia. case_decide as E.
  - rewrite bool_decide_eq_true_2 by done. apply andb_false_r.
  - rewrite bool_decide_eq_false_2 by done. apply andb_true_r.
Qed.
Lemma bitmap_test_run bm i : 0 <= i < 8 * Z.of_nat (length bm) -> bitmap_test bm i = Some (bit_used bm i).
Proof.
  intros Hi. pose proof (bit_split i). destruct (zget_is_Some bm (i / 8)) as [v Hv].
  { split; [apply Z.div_pos; lia|apply Z.div_lt_upper_bound; lia]. }
  unfold bitmap_test, bit_used. rewrite Hv. cbn [mbind option_bind from_option id]. f_equal.
  change 1 with (Z.shiftl 1 0). rewrite land_bit by lia. rewrite negb_involutive, Z.shiftr_spec by lia. f_equal.
Qed.

(** Setting a clear bit and clearing it again restores the bitmap. *)
Lemma bitmap_set_clear bm i bm' : 0 <= i < 8 * Z.of_nat (length bm) -> Forall byte_ok bm ->
  bit_used bm i = false -> bitmap_set bm i = Some bm' -> bitmap_clear bm' i = Some bm.
Proof.
  intros Hi Hb Hf Hs. destruct (bitmap_set_run bm i Hi Hb) as (x&Hx&Hl&Hbx&Hj). rewrite Hs in Hx. injection Hx as <-.
  destruct (bitmap_clear_run bm' i ltac:(lia) Hbx) as (y&Hy&Hly&Hby&Hjy). rewrite Hy. f_equal.
  apply bitmap_ext; [lia|done|done|]. intros j Hjr. rewrite Hjy, Hj by lia. by case_decide; subst.
Qed.

(** *** Field ranges *)
Lemma inode_field i k w v : inode_ok i -> inode_widths !! k = Some w -> inode_fields i !! k = Some v ->
  0 <= v < 256 ^ Z.of_nat w.
Proof. intros (_&_&Hf) Hw Hv. exact (Forall2_lookup_lr _ _ _ _ _ _ Hf Hw Hv). Qed.
Lemma i_size_range i : inode_ok i -> in_w 32 (i_size i).
Proof. intros Hi. exact (inode_field i 2 4 (i_size i) Hi eq_refl eq_refl). Qed.

(** *** Updates keep inodes well formed *)
Lemma fields_replicate n k vs : fields_ok (replicate n k) vs <-> length vs = n /\ Forall (fun v => 0 <= v < 256 ^ Z.of_nat k) vs.
Proof.
  unfold fields_ok. split.
  - intros Hf. split; [by rewrite <-(Forall2_length _ _ _ Hf), length_replicate|].
    revert n Hf; induction vs as [|v vs IH]; intros [|n] Hf; inversion_clear Hf; constructor; [done|by eapply IH].
  - intros [<- Hf]. induction Hf; simpl; by constructor.
Qed.
Lemma inode_ok_parts i : inode_ok i <->
  fields_ok [2; 2; 4; 4; 4; 4; 4; 2; 2; 4; 4; 4]%nat [i_mode i; i_uid i; i_size i; i_atime i; i_ctime i; i_mtime i; i_dtime i; i_gid i;
     i_links_count i; i_blocks i; i_flags i; i_osd1 i] /\
  length (i_block i) = 15%nat /\ Forall (in_w 32) (i_block i) /\
  fields_ok [4; 4; 4; 4]%nat [i_generation i; i_file_acl i; i_size_high i; i_fsize i] /\
  length (i_osd2 i) = 3%nat /\ Forall (in_w 32) (i_osd2 i).
Proof.
  unfold inode_ok, inode_widths, inode_fields. split.
  - intros (H1&H2&Hf). unfold fields_ok in Hf. apply Forall2_app_inv in Hf as [Ha Hf]; [|done].
    apply Forall2_app_inv in Hf as [Hb Hf]; [|by rewrite length_replicate]. apply Forall2_app_inv in Hf as [Hc Hd]; [|done].
    apply fields_replicate in Hb as [_ Hb], Hd as [_ Hd]. done.
  - intros (Ha&Hl&Hb&Hc&Hl2&Hd). split_and!; [done..|]. unfold fields_ok.
    apply Forall2_app; [exact Ha|]. apply Forall2_app; [by apply fields_replicate|]. apply Forall2_app; [exact Hc|by apply fields_replicate].
Qed.
Lemma set_i_block_ok i k v i' : inode_ok i -> in_w 32 v -> set_i_block i k v = Some i' -> inode_ok i'.
Proof.
  rewrite !inode_ok_parts. intros (?&Hl&Hb&?) Hv. unfold set_i_block.
  destruct (zset (i_block i) k v) as [l|] eqn:E; [|done]. intros [= <-]. apply zset_inv in E as [_ ->].
  split_and!; try tauto; cbn [set_i_block_list i_block]; [by rewrite length_insert|by apply Forall_insert].
Qed.
Lemma set_i_blocks_ok i v : inode_ok i -> in_w 32 v -> inode_ok (set_i_blocks i v).
Proof.
  rewrite !inode_ok_parts. intros (Ha&?) Hv. split; [|tauto].
  unfold fields_ok in *. decompose_Forall_hyps. repeat (constructor; [done|]). constructor.
Qed.
