(* ===== verification/Ext2.v ===== *)
(** * ext2: block I/O, mounting, inodes, allocation and block maps (src/fs/ext2.c)

    The file system runs on any [SectorStore] (the buffer cache of Bcache.v is one).
    The state is the store and the singleton [g_fs].  A stack buffer that the code
    leaves uninitialised has the contents [junk]: every theorem holds whatever they are.
    Out-parameters are results, and are valid pointers; a data pointer that the code
    tests against NULL is an [option].  Log output is left out. *)

From stdpp Require Import base numbers gmap list options.
From S2P Require Import Prelude BlockDev Bcache Ext2Data.

(** What an uninitialised [uint8_t buf[1024]] or [uint32_t buf[256]] holds. *)
Class Stack := { junk : list Z; junk_len : length junk = 1024%nat }.

Record estate (S : Type) := Estate { store : S; g_fs : ext2_fs }.
Arguments Estate {S} _ _.
Arguments store {S} _.
Arguments g_fs {S} _.

Section Ext2.
Context {S : Type} `{!SectorStore S} `{!Stack}.
Local Notation E := (M (estate S)).

Definition on_store {A} (m : M S A) : E A := fun s =>
  match m (store s) with Some (a, x) => Some (a, Estate x (g_fs s)) | None => None end.
Definition get_fs : E ext2_fs := mgets g_fs.
Definition put_fs (f : ext2_fs) : E unit := fun s => Some (tt, Estate (store s) f).

(** A C division: faults on a zero divisor. *)
Definition cdiv (a b : Z) : E Z := if b =? 0 then mfault else return (a / b).
Definition cmod (a b : Z) : E Z := if b =? 0 then mfault else return (a mod b).

Definition ext2_init : E unit := put_fs zero_fs.

(** ** Block I/O *)

(** The two sector reads of [ext2_read_block_raw] and [ext2_read_block]. *)
Definition read_sectors (dev block_num : Z) (dst : list Z) : E (ext2_status * list Z) :=
  let sector_base := u32 (block_num * 2) in
  b_lo <~ on_store (ss_read dev sector_base) ;;
  match b_lo with
  | None => return (EXT2_ERR_IO, dst)
  | Some lo =>
    dst1 <~ mlift (splice 0 lo dst) ;;
    b_hi <~ on_store (ss_read dev (u32 (sector_base + 1))) ;;
    match b_hi with
    | None => return (EXT2_ERR_IO, dst1)
    | Some hi => dst2 <~ mlift (splice 512 hi dst1) ;; return (EXT2_OK, dst2)
    end
  end.

Definition ext2_read_block_raw (dev block_num : Z) (buf : option (list Z)) : E (ext2_status * list Z) :=
  match buf with
  | None => return (EXT2_ERR_INVALID, [])
  | Some dst => read_sectors dev block_num dst
  end.

Definition ext2_read_block (block_num : Z) (buf : option (list Z)) : E (ext2_status * list Z) :=
  f <~ get_fs ;;
  if negb (mounted f) then return (EXT2_ERR_NOT_MOUNTED, default [] buf) else
  match buf with
  | None => return (EXT2_ERR_INVALID, [])
  | Some dst => read_sectors (dev_id f) block_num dst
  end.

Definition ext2_write_block (block_num : Z) (buf : option (list Z)) : E ext2_status :=
  f <~ get_fs ;;
  if negb (mounted f) then return EXT2_ERR_NOT_MOUNTED else
  match buf with
  | None => return EXT2_ERR_INVALID
  | Some src =>
    let sector_base := u32 (block_num * 2) in
    lo <~ mlift (slice 0 512 src) ;;
    ok <~ on_store (ss_write (dev_id f) sector_base lo) ;;
    if negb ok then return EXT2_ERR_IO else
    hi <~ mlift (slice 512 512 src) ;;
    ok <~ on_store (ss_write (dev_id f) (u32 (sector_base + 1)) hi) ;;
    if negb ok then return EXT2_ERR_IO else return EXT2_OK
  end.

(** [uint8_t buf[1024]; ext2_read_block(n, buf)] *)
Definition fetch (block_num : Z) : E (ext2_status * list Z) := ext2_read_block block_num (Some junk).

(** [memset(buf, 0, block_size)] on a fresh 1024-byte stack buffer. *)
Definition zero_buf (bs : Z) : E (list Z) := mlift (splice 0 (replicate (Z.to_nat bs) 0) junk).

(** ** Mount *)

(** The validation of the superblock, with the default inode size filled in. *)
Definition check_sb (tmp_sb : list Z) : ext2_status * list Z :=
  if negb (s_magic tmp_sb =? EXT2_SUPER_MAGIC) then (EXT2_ERR_BAD_MAGIC, tmp_sb) else
  if 2 <? s_log_block_size tmp_sb then (EXT2_ERR_BAD_SB, tmp_sb) else
  let tmp_sb := if s_inode_size tmp_sb =? 0 then default tmp_sb (put16 88 EXT2_INODE_SIZE tmp_sb) else tmp_sb in
  if (s_inode_size tmp_sb <? 128) || (4096 <? s_inode_size tmp_sb) then (EXT2_ERR_BAD_SB, tmp_sb)
  else (EXT2_OK, tmp_sb).

(** The geometry stored in [g_fs]; a fault on a zero divisor. *)
Definition geometry (f : ext2_fs) (b : list Z) : option ext2_fs :=
  let bs := u32 (Z.shiftl 1024 (s_log_block_size b)) in
  let bpg := s_blocks_per_group b in
  if bpg =? 0 then None else
  let ng := u32 (s_blocks_count b + bpg - 1) / bpg in
  let dpg := bs / 32 in
  Some (Fs (mounted f) (dev_id f) b (gd f) bs ng (s_inodes_per_group b) bpg dpg
          (u32 (ng + dpg - 1) / dpg)).

(** The descriptor-reading loop, from block [b]; the buffer is [g_fs.gd]. *)
Fixpoint read_descs (n : nat) (dev b gd_bytes : Z) : E ext2_status :=
  match n with
  | O => return EXT2_OK
  | Datatypes.S n' =>
    f <~ get_fs ;;
    let offset := u32 (b * block_size f) in
    let remaining := u32 (gd_bytes - offset) in
    let chunk := if remaining <? block_size f then remaining else block_size f in
    ' (st, tmp_block) <~ ext2_read_block_raw dev (u32 (2 + b)) (Some junk) ;;
    if decide (st <> EXT2_OK) then put_fs (set_gd f None) ;;; return st else
    c <~ mlift (slice 0 chunk tmp_block) ;;
    g <~ mlift (g ← gd f; splice offset c g) ;;
    put_fs (set_gd f (Some g)) ;;;
    read_descs n' dev (b + 1) gd_bytes
  end.

(** [kmalloc n] is what the heap returns for [n] bytes: [None] is NULL. *)
Definition ext2_mount (kmalloc : Z -> option (list Z)) (dev : Z) : E ext2_status :=
  f <~ get_fs ;;
  if mounted f then return EXT2_ERR_INVALID else
  put_fs (set_dev_id f dev) ;;;
  ' (st, tmp_sb) <~ ext2_read_block_raw dev 1 (Some junk) ;;
  if decide (st <> EXT2_OK) then return st else
  let '(st, tmp_sb) := check_sb tmp_sb in
  if decide (st <> EXT2_OK) then return st else
  f <~ mlift (geometry (set_dev_id f dev) tmp_sb) ;;
  let gd_bytes := u32 (desc_blocks f * block_size f) in
  put_fs (set_gd f (kmalloc gd_bytes)) ;;;
  match kmalloc gd_bytes with
  | None => return EXT2_ERR_NO_MEM
  | Some _ =>
    st <~ read_descs (Z.to_nat (desc_blocks f)) dev 0 gd_bytes ;;
    if decide (st <> EXT2_OK) then return st else
    f <~ get_fs ;; put_fs (set_mounted f true) ;;; return EXT2_OK
  end.

Definition ext2_unmount : E unit :=
  f <~ get_fs ;;
  if negb (mounted f) then return tt else
  on_store (ss_flush (dev_id f)) ;;;
  put_fs (set_mounted (set_gd f None) false).

Definition ext2_get_fs : E (option ext2_fs) := f <~ get_fs ;; return (if mounted f then Some f else None).
Definition ext2_is_mounted : E bool := f <~ get_fs ;; return (mounted f).

(** ** Inodes *)

(** [(table_block, block_off, byte_off)], or an error. *)
Definition ext2_inode_location (ino : Z) : E (ext2_status + Z * Z * Z) :=
  f <~ get_fs ;;
  if ino =? 0 then return (inl EXT2_ERR_INVALID) else
  group <~ cdiv (u32 (ino - 1)) (inodes_per_group f) ;;
  if num_groups f <=? group then return (inl EXT2_ERR_INVALID) else
  index <~ cmod (u32 (ino - 1)) (inodes_per_group f) ;;
  let byte_offset := u32 (index * s_inode_size (sb f)) in
  table_block <~ mlift (gd32 (gd f) group bg_inode_table) ;;
  block_off <~ cdiv byte_offset (block_size f) ;;
  byte_off <~ cmod byte_offset (block_size f) ;;
  return (inr (table_block, block_off, byte_off)).

Definition ext2_read_inode (ino : Z) : E (ext2_status + ext2_inode) :=
  f <~ get_fs ;;
  if negb (mounted f) then return (inl EXT2_ERR_NOT_MOUNTED) else
  loc <~ ext2_inode_location ino ;;
  match loc with
  | inl st => return (inl st)
  | inr (table_block, block_off, byte_off) =>
    ' (st, buf) <~ fetch (u32 (table_block + block_off)) ;;
    if decide (st <> EXT2_OK) then return (inl st) else
    i <~ mlift (b ← slice byte_off EXT2_INODE_SIZE buf; inode_dec b) ;; return (inr i)
  end.

Definition ext2_write_inode (ino : Z) (inode : ext2_inode) : E ext2_status :=
  f <~ get_fs ;;
  if negb (mounted f) then return EXT2_ERR_NOT_MOUNTED else
  loc <~ ext2_inode_location ino ;;
  match loc with
  | inl st => return st
  | inr (table_block, block_off, byte_off) =>
    ' (st, buf) <~ fetch (u32 (table_block + block_off)) ;;
    if decide (st <> EXT2_OK) then return st else
    buf' <~ mlift (splice byte_off (inode_enc inode) buf) ;;
    ext2_write_block (u32 (table_block + block_off)) (Some buf')
  end.

(** ** Allocation *)

Definition ext2_update_counts (group delta_blocks delta_inodes : Z) : E ext2_status :=
  f <~ get_fs ;;
  fb <~ mlift (gd16 (gd f) group bg_free_blocks_count) ;;
  g1 <~ mlift (gd_put16 (gd f) group bg_free_blocks_count (fb + delta_blocks)) ;;
  fi <~ mlift (gd16 (Some g1) group bg_free_inodes_count) ;;
  g2 <~ mlift (gd_put16 (Some g1) group bg_free_inodes_count (fi + delta_inodes)) ;;
  put_fs (set_gd f (Some g2)) ;;;
  st <~ ext2_write_block 2 (Some g2) ;;
  if decide (st <> EXT2_OK) then return st else
  f <~ get_fs ;;
  sb1 <~ mlift (put32 12 (u32 (i32 (s_free_blocks_count (sb f)) + delta_blocks)) (sb f)) ;;
  sb2 <~ mlift (put32 16 (u32 (i32 (s_free_inodes_count sb1) + delta_inodes)) sb1) ;;
  put_fs (set_sb f sb2) ;;;
  ext2_write_block 1 (Some sb2).

(** The common loop of [ext2_alloc_block] and [ext2_alloc_inode] from group [g]: the
    bitmap is at [field] of the descriptor and has [per_group] bits. *)
Fixpoint alloc_groups (n : nat) (g field per_group db di base : Z) : E Z :=
  match n with
  | O => return (-1)
  | Datatypes.S n' =>
    f <~ get_fs ;;
    bitmap_block <~ mlift (gd32 (gd f) g field) ;;
    ' (st, buf) <~ fetch bitmap_block ;;
    if decide (st <> EXT2_OK) then return (-1) else
    bit <~ mlift (bitmap_find_free buf per_group) ;;
    if bit <? 0 then alloc_groups n' (g + 1) field per_group db di base else
    buf' <~ mlift (bitmap_set buf (u32 bit)) ;;
    st <~ ext2_write_block bitmap_block (Some buf') ;;
    if decide (st <> EXT2_OK) then return (-1) else
    st <~ ext2_update_counts g db di ;;
    if decide (st <> EXT2_OK) then return (-1) else
    return (i32 (u32 (g * per_group + u32 bit + base)))
  end.

Definition ext2_alloc_block : E Z :=
  f <~ get_fs ;;
  if negb (mounted f) then return (-1) else
  alloc_groups (Z.to_nat (num_groups f)) 0 bg_block_bitmap (blocks_per_group f) (-1) 0 0.

Definition ext2_alloc_inode : E Z :=
  f <~ get_fs ;;
  if negb (mounted f) then return (-1) else
  alloc_groups (Z.to_nat (num_groups f)) 0 bg_inode_bitmap (inodes_per_group f) 0 (-1) 1.

(** The common end of [ext2_free_block] and [ext2_free_inode]. *)
Definition free_bit (group bit field db di : Z) : E ext2_status :=
  f <~ get_fs ;;
  bitmap_block <~ mlift (gd32 (gd f) group field) ;;
  ' (st, buf) <~ fetch bitmap_block ;;
  if decide (st <> EXT2_OK) then return st else
  used <~ mlift (bitmap_test buf bit) ;;
  if negb used then return EXT2_ERR_INVALID else
  buf' <~ mlift (bitmap_clear buf bit) ;;
  st <~ ext2_write_block bitmap_block (Some buf') ;;
  if decide (st <> EXT2_OK) then return st else
  ext2_update_counts group db di.

Definition ext2_free_block (block_num : Z) : E ext2_status :=
  f <~ get_fs ;;
  if negb (mounted f) then return EXT2_ERR_NOT_MOUNTED else
  group <~ cdiv block_num (blocks_per_group f) ;;
  bit <~ cmod block_num (blocks_per_group f) ;;
  if num_groups f <=? group then return EXT2_ERR_INVALID else
  free_bit group bit bg_block_bitmap 1 0.

Definition ext2_free_inode (ino : Z) : E ext2_status :=
  f <~ get_fs ;;
  if negb (mounted f) then return EXT2_ERR_NOT_MOUNTED else
  if ino =? 0 then return EXT2_ERR_INVALID else
  group <~ cdiv (u32 (ino - 1)) (inodes_per_group f) ;;
  bit <~ cmod (u32 (ino - 1)) (inodes_per_group f) ;;
  if num_groups f <=? group then return EXT2_ERR_INVALID else
  free_bit group bit bg_inode_bitmap 0 1.

(** ** Block maps *)

Definition EXT2_PTRS_PER_BLOCK (f : ext2_fs) : Z := block_size f / 4.

(** [buf[i]] of a [uint32_t buf[256]]. *)
Definition ptr_at (buf : list Z) (i : Z) : E Z := mlift (get32 (4 * i) buf).
Definition ptr_put (buf : list Z) (i v : Z) : E (list Z) := mlift (put32 (4 * i) v buf).

(** One level of indirection: the pointer at [idx] of block [blk], 0 when [blk] is 0
    or cannot be read. *)
Definition follow (blk : Z) (idx : E Z) : E Z :=
  if blk =? 0 then return 0 else
  ' (st, buf) <~ fetch blk ;;
  if decide (st <> EXT2_OK) then return 0 else i <~ idx ;; ptr_at buf i.

Definition ext2_inode_get_block (inode : ext2_inode) (logical : Z) : E Z :=
  f <~ get_fs ;;
  let ptrs := EXT2_PTRS_PER_BLOCK f in
  if logical <? EXT2_N_DIRECT then mlift (zget (i_block inode) logical) else
  let logical := u32 (logical - EXT2_N_DIRECT) in
  if logical <? ptrs then b12 <~ mlift (zget (i_block inode) 12) ;; follow b12 (return logical) else
  let logical := u32 (logical - ptrs) in
  if logical <? u32 (ptrs * ptrs) then
    b13 <~ mlift (zget (i_block inode) 13) ;;
    l1 <~ follow b13 (cdiv logical ptrs) ;; follow l1 (cmod logical ptrs)
  else
    let logical := u32 (logical - u32 (ptrs * ptrs)) in
    b14 <~ mlift (zget (i_block inode) 14) ;;
    l2 <~ follow b14 (cdiv logical (u32 (ptrs * ptrs))) ;;
    let rem := cmod logical (u32 (ptrs * ptrs)) in
    l1 <~ follow l2 (r <~ rem ;; cdiv r ptrs) ;; follow l1 (r <~ rem ;; cmod r ptrs).

(** [inode->i_blocks += block_size / 512] *)
Definition add_blocks (inode : ext2_inode) (bs : Z) : ext2_inode :=
  set_i_blocks inode (u32 (i_blocks inode + bs / 512)).

(** Allocates and zeroes an indirect block; [None]: no space. *)
Definition new_indirect : E (option Z) :=
  f <~ get_fs ;;
  iblk <~ ext2_alloc_block ;;
  if iblk <? 0 then return None else
  z <~ zero_buf (block_size f) ;;
  ext2_write_block (u32 iblk) (Some z) ;;; return (Some (u32 iblk)).

(** The root pointer [i_block[slot]], allocated when it is 0. *)
Definition ensure_root (inode : ext2_inode) (slot : Z) : E (option ext2_inode) :=
  f <~ get_fs ;;
  b <~ mlift (zget (i_block inode) slot) ;;
  if b =? 0 then
    r <~ new_indirect ;;
    match r with
    | None => return None
    | Some iblk =>
      inode' <~ mlift (set_i_block inode slot iblk) ;; return (Some (add_blocks inode' (block_size f)))
    end
  else return (Some inode).

(** Entry [idx] of the indirect block [blk], allocated and stored when it is 0. *)
Definition ensure_entry (inode : ext2_inode) (blk idx : Z) : E (option (ext2_inode * Z)) :=
  f <~ get_fs ;;
  ' (_, tab) <~ fetch blk ;;
  e <~ ptr_at tab idx ;;
  if e =? 0 then
    r <~ new_indirect ;;
    match r with
    | None => return None
    | Some iblk =>
      tab' <~ ptr_put tab idx iblk ;;
      ext2_write_block blk (Some tab') ;;; return (Some (add_blocks inode (block_size f), iblk))
    end
  else return (Some (inode, e)).

(** [ext2_read_block(blk, ind); ind[idx] = phys; ext2_write_block(blk, ind)] *)
Definition store_ptr (blk idx phys : Z) : E unit :=
  ' (_, ind) <~ fetch blk ;;
  ind' <~ ptr_put ind idx phys ;;
  ext2_write_block blk (Some ind') ;;; return tt.

(** The pointer tree of [logical] is extended down to the block [phys]; [None]: no
    space for an indirect block. *)
Definition link_block (inode : ext2_inode) (logical phys : Z) : E (option ext2_inode * ext2_inode) :=
  f <~ get_fs ;;
  let ptrs := EXT2_PTRS_PER_BLOCK f in
  if logical <? EXT2_N_DIRECT then
    inode' <~ mlift (set_i_block inode logical phys) ;; return (Some inode', inode')
  else if logical <? u32 (EXT2_N_DIRECT + ptrs) then
    let idx := u32 (logical - EXT2_N_DIRECT) in
    r <~ ensure_root inode 12 ;;
    match r with
    | None => return (None, inode)
    | Some inode1 =>
      b12 <~ mlift (zget (i_block inode1) 12) ;; store_ptr b12 idx phys ;;; return (Some inode1, inode1)
    end
  else if logical <? u32 (EXT2_N_DIRECT + ptrs + ptrs * ptrs) then
    let rem := u32 (logical - EXT2_N_DIRECT - ptrs) in
    idx1 <~ cdiv rem ptrs ;; idx0 <~ cmod rem ptrs ;;
    r <~ ensure_root inode 13 ;;
    match r with
    | None => return (None, inode)
    | Some inode1 =>
      b13 <~ mlift (zget (i_block inode1) 13) ;;
      r1 <~ ensure_entry inode1 b13 idx1 ;;
      match r1 with
      | None => return (None, inode1)
      | Some (inode2, l0) => store_ptr l0 idx0 phys ;;; return (Some inode2, inode2)
      end
    end
  else
    let rem := u32 (logical - EXT2_N_DIRECT - ptrs - ptrs * ptrs) in
    idx2 <~ cdiv rem (u32 (ptrs * ptrs)) ;; r1 <~ cmod rem (u32 (ptrs * ptrs)) ;;
    idx1 <~ cdiv r1 ptrs ;; idx0 <~ cmod r1 ptrs ;;
    r <~ ensure_root inode 14 ;;
    match r with
    | None => return (None, inode)
    | Some inode1 =>
      b14 <~ mlift (zget (i_block inode1) 14) ;;
      r1 <~ ensure_entry inode1 b14 idx2 ;;
      match r1 with
      | None => return (None, inode1)
      | Some (inode2, l1) =>
        r2 <~ ensure_entry inode2 l1 idx1 ;;
        match r2 with
        | None => return (None, inode2)
        | Some (inode3, l0) => store_ptr l0 idx0 phys ;;; return (Some inode3, inode3)
        end
      end
    end.

(** The caller's inode is an in/out parameter: its final value is returned with the
    status on every path. *)
Definition ext2_inode_alloc_block (ino : Z) (inode : ext2_inode) (logical : Z) : E (ext2_status * ext2_inode) :=
  f <~ get_fs ;;
  new_block <~ ext2_alloc_block ;;
  if new_block <? 0 then return (EXT2_ERR_NO_SPACE, inode) else
  let phys := u32 new_block in
  ' (r, last) <~ link_block inode logical phys ;;
  match r with
  | None => ext2_free_block phys ;;; return (EXT2_ERR_NO_SPACE, last)
  | Some inode1 =>
    let inode2 := add_blocks inode1 (block_size f) in
    st <~ ext2_write_inode ino inode2 ;; return (st, inode2)
  end.

End Ext2.
