(* ===== verification/Ext2File.v ===== *)
(** * ext2: file data (src/fs/ext2.c)

    Reading and writing the bytes of a file, truncation, release of its blocks, file
    status and the per-descriptor operations. *)

From stdpp Require Import base numbers gmap list options.
From S2P Require Import Prelude BlockDev Bcache Ext2Data Ext2.

Section Ext2File.
Context {S : Type} `{!SectorStore S} `{!Stack}.
Local Notation E := (M (estate S)).

(** ** Read *)

Definition ext2_min64 (a b : Z) : Z := if a <? b then a else b.

(** The [while (count > 0)] loop; [dst] is the caller's buffer, [total_read] the bytes
    already in it.  Every round copies at least one byte. *)
Fixpoint read_file_loop (n : nat) (inode : ext2_inode) (dst : list Z) (offset count total_read : Z)
  : E (Z * list Z) :=
  if count <=? 0 then return (total_read, dst) else
  match n with
  | O => mfault
  | Datatypes.S n' =>
    f <~ get_fs ;;
    q <~ cdiv offset (block_size f) ;; let logical := u32 q in
    block_off <~ cmod offset (block_size f) ;;
    let to_read := u32 (ext2_min64 count (block_size f - block_off)) in
    phys <~ ext2_inode_get_block inode logical ;;
    if phys =? 0 then
      dst' <~ mlift (splice total_read (replicate (Z.to_nat to_read) 0) dst) ;;
      read_file_loop n' inode dst' (u64 (offset + to_read)) (count - to_read) (total_read + to_read)
    else
      ' (st, blk_buf) <~ fetch phys ;;
      if decide (st <> EXT2_OK) then return (total_read, dst) else
      c <~ mlift (slice block_off to_read blk_buf) ;;
      dst' <~ mlift (splice total_read c dst) ;;
      read_file_loop n' inode dst' (u64 (offset + to_read)) (count - to_read) (total_read + to_read)
  end.

(** Returns the [int64_t] result and the contents of [buf]. *)
Definition ext2_read_file (ino : Z) (buf : option (list Z)) (offset count : Z) : E (Z * list Z) :=
  f <~ get_fs ;;
  if negb (mounted f) then return (-1, default [] buf) else
  if bool_decide (buf = None) && (0 <? count) then return (-1, []) else
  r <~ ext2_read_inode ino ;;
  match r with
  | inl _ => return (-1, default [] buf)
  | inr inode =>
    let file_size := i_size inode in
    if file_size <=? offset then return (0, default [] buf) else
    let count := ext2_min64 count (file_size - offset) in
    if count =? 0 then return (0, default [] buf) else
    read_file_loop (Z.to_nat count) inode (default [] buf) offset count 0
  end.

(** ** Write *)

(** Maps [logical], allocating a block when it is unmapped; 0 on failure. *)
Definition map_block (ino : Z) (inode : ext2_inode) (logical : Z) : E (Z * ext2_inode) :=
  phys <~ ext2_inode_get_block inode logical ;;
  if phys =? 0 then
    ' (st, inode1) <~ ext2_inode_alloc_block ino inode logical ;;
    if decide (st <> EXT2_OK) then return (0, inode1) else
    r <~ ext2_read_inode ino ;;
    match r with
    | inl _ => return (0, inode1)
    | inr inode2 => phys <~ ext2_inode_get_block inode2 logical ;; return (phys, inode2)
    end
  else return (phys, inode).

(** The [while (count > 0)] loop.  [inl n]: an early [return n]; [inr]: the loop ended. *)
Fixpoint write_file_loop (n : nat) (ino : Z) (inode : ext2_inode) (src : list Z) (pos count total_written : Z)
  : E (Z + ext2_inode * Z * Z) :=
  if count <=? 0 then return (inr (inode, pos, total_written)) else
  match n with
  | O => mfault
  | Datatypes.S n' =>
    f <~ get_fs ;;
    q <~ cdiv pos (block_size f) ;; let logical := u32 q in
    block_off <~ cmod pos (block_size f) ;;
    let to_write := u32 (ext2_min64 count (block_size f - block_off)) in
    ' (phys, inode) <~ map_block ino inode logical ;;
    if phys =? 0 then return (inl total_written) else
    ' (st, blk_buf) <~ (if (0 <? block_off) || (to_write <? block_size f) then fetch phys
                        else return (EXT2_OK, junk)) ;;
    if decide (st <> EXT2_OK) then return (inl total_written) else
    c <~ mlift (slice total_written to_write src) ;;
    blk_buf' <~ mlift (splice block_off c blk_buf) ;;
    st <~ ext2_write_block phys (Some blk_buf') ;;
    if decide (st <> EXT2_OK) then return (inl total_written) else
    write_file_loop n' ino inode src (u64 (pos + to_write)) (count - to_write) (total_written + to_write)
  end.

Definition ext2_write_file (ino : Z) (buf : option (list Z)) (offset count : Z) : E Z :=
  f <~ get_fs ;;
  if negb (mounted f) then return (-1) else
  if bool_decide (buf = None) && (0 <? count) then return (-1) else
  r <~ ext2_read_inode ino ;;
  match r with
  | inl _ => return (-1)
  | inr inode =>
    r <~ write_file_loop (Z.to_nat count) ino inode (default [] buf) offset count 0 ;;
    match r with
    | inl n => return n
    | inr (inode, pos, total_written) =>
      (if i_size inode <? pos then ext2_write_inode ino (set_i_size inode (u32 pos)) ;;; return tt
       else return tt) ;;;
      return total_written
    end
  end.

(** ** Status *)

Definition ext2_stat (ino : Z) : E (ext2_status * option ext2_stat_t) :=
  f <~ get_fs ;;
  if negb (mounted f) then return (EXT2_ERR_INVALID, None) else
  r <~ ext2_read_inode ino ;;
  match r with
  | inl _ => return (EXT2_ERR_NOT_FOUND, None)
  | inr i => return (EXT2_OK, Some (Stat ino (i_size i) (i_mode i) (i_links_count i) (i_blocks i)
                                     (i_uid i) (i_gid i) (i_atime i) (i_mtime i) (i_ctime i)))
  end.

(** ** Releasing blocks *)

(** Frees the tree of [level] levels of indirection below [blk], then [blk]. *)
Fixpoint free_tree (level : nat) (blk : Z) : E unit :=
  match level with
  | O => ext2_free_block blk ;;; return tt
  | Datatypes.S l =>
    f <~ get_fs ;;
    ' (st, tab) <~ fetch blk ;;
    mwhen (bool_decide (st = EXT2_OK))
      (for_range 0 (EXT2_PTRS_PER_BLOCK f) (fun i =>
         e <~ ptr_at tab i ;; if e =? 0 then return tt else free_tree l e)) ;;;
    ext2_free_block blk ;;; return tt
  end.

(** [if (i_block[slot] != 0) { free it; i_block[slot] = 0; }] *)
Definition free_slot_tree (inode : ext2_inode) (slot : Z) (level : nat) : E ext2_inode :=
  b <~ mlift (zget (i_block inode) slot) ;;
  if b =? 0 then return inode else free_tree level b ;;; mlift (set_i_block inode slot 0).

Fixpoint free_direct (n : nat) (i : Z) (inode : ext2_inode) : E ext2_inode :=
  match n with
  | O => return inode
  | Datatypes.S n' => inode' <~ free_slot_tree inode i 0 ;; free_direct n' (i + 1) inode'
  end.

Definition ext2_free_all_blocks (inode : ext2_inode) : E (ext2_status * ext2_inode) :=
  i1 <~ free_direct (Z.to_nat EXT2_N_DIRECT) 0 inode ;;
  i2 <~ free_slot_tree i1 12 1 ;;
  i3 <~ free_slot_tree i2 13 2 ;;
  i4 <~ free_slot_tree i3 14 3 ;;
  return (EXT2_OK, set_i_blocks i4 0).

(** ** Truncation *)

(** [for (b = new_blocks; b < old_blocks; b++)] *)
Fixpoint truncate_loop (n : nat) (b : Z) (inode : ext2_inode) : E ext2_inode :=
  match n with
  | O => return inode
  | Datatypes.S n' =>
    phys <~ ext2_inode_get_block inode b ;;
    if phys =? 0 then truncate_loop n' (b + 1) inode else
    ext2_free_block phys ;;;
    inode' <~ mlift (set_i_block inode (if b <? EXT2_N_DIRECT then b else EXT2_N_DIRECT) 0) ;;
    truncate_loop n' (b + 1) inode'
  end.

(** Zeroes the tail of the last partial block. *)
Definition zero_tail (inode : ext2_inode) (new_size new_blocks bs : Z) : E unit :=
  if (0 <? new_size) && negb (new_size mod bs =? 0) then
    last_phys <~ ext2_inode_get_block inode (u32 (new_blocks - 1)) ;;
    if last_phys =? 0 then return tt else
    ' (st, blk_buf) <~ fetch last_phys ;;
    if decide (st <> EXT2_OK) then return tt else
    let tail := new_size mod bs in
    b <~ mlift (splice tail (replicate (Z.to_nat (bs - tail)) 0) blk_buf) ;;
    ext2_write_block last_phys (Some b) ;;; return tt
  else return tt.

Definition ext2_truncate (ino new_size : Z) : E ext2_status :=
  f <~ get_fs ;;
  if negb (mounted f) then return EXT2_ERR_NOT_MOUNTED else
  r <~ ext2_read_inode ino ;;
  match r with
  | inl _ => return EXT2_ERR_NOT_FOUND
  | inr inode =>
    let old_size := i_size inode in
    if old_size <=? new_size then ext2_write_inode ino (set_i_size inode (u32 new_size)) else
    let bs := block_size f in
    old_blocks <~ cdiv (u32 (old_size + bs - 1)) bs ;;
    new_blocks <~ (if new_size =? 0 then return 0 else q <~ cdiv (u64 (new_size + bs - 1)) bs ;; return (u32 q)) ;;
    inode1 <~ truncate_loop (Z.to_nat (old_blocks - new_blocks)) new_blocks inode ;;
    zero_tail inode1 new_size new_blocks bs ;;;
    ext2_write_inode ino (set_i_size inode1 (u32 new_size))
  end.

(** ** File descriptors *)

Record ext2_file_t := EFile { f_ino : Z; f_offset : Z; f_flags : Z }.
Definition advance (file : ext2_file_t) (n : Z) : ext2_file_t :=
  if 0 <? n then EFile (f_ino file) (u64 (f_offset file + n)) (f_flags file) else file.

(** [None] for [data]: a NULL private pointer.  Results: return value, buffer, [*data]. *)
Definition ext2_fd_read (buf : option (list Z)) (count : Z) (data : option ext2_file_t)
  : E (Z * list Z * option ext2_file_t) :=
  match data with
  | None => return (-1, default [] buf, None)
  | Some file =>
    ' (n, b) <~ ext2_read_file (f_ino file) buf (f_offset file) count ;;
    return (n, b, Some (advance file n))
  end.
Definition ext2_fd_write (buf : option (list Z)) (count : Z) (data : option ext2_file_t)
  : E (Z * option ext2_file_t) :=
  match data with
  | None => return (-1, None)
  | Some file =>
    if f_flags file =? O_RDONLY then return (-1, Some file) else
    n <~ ext2_write_file (f_ino file) buf (f_offset file) count ;;
    return (n, Some (advance file n))
  end.

End Ext2File.
