(* ===== verification/Ext2Dir.v ===== *)
(** * ext2: directories, paths and the VFS adapter (src/fs/ext2.c)

    Lookup, insertion and removal of directory entries, mkdir, unlink, rmdir, rename,
    getdents, path resolution, and the path-based operations the VFS calls. A C string
    is the list of its bytes before the terminating 0. *)

From stdpp Require Import base numbers gmap list options.
From S2P Require Import Prelude BlockDev Bcache Ext2Data Ext2 Ext2File.

Section Ext2Dir.
Context {S : Type} `{!SectorStore S} `{!Stack}.
Local Notation E := (M (estate S)).

(** ** Scanning a directory block *)

Definition rec_len_at (buf : list Z) (off : Z) : option Z := get16 (off + 4) buf.

(** The loop test and the sanity check of every scan: the [rec_len] of the entry at
    [off], or [None] where the scan stops. *)
Definition entry_here (bs : Z) (buf : list Z) (off : Z) : option (option Z) :=
  if negb (off <? bs) then Some None else
  r ← rec_len_at buf off;
  if (r =? 0) || (bs - off <? r) then Some None else Some (Some r).

(** The condition on the entry at [off] in lookup and removal. *)
Definition entry_matches (buf : list Z) (off : Z) (name : list Z) : option bool :=
  let nlen := u32 (Z.of_nat (length name)) in
  ino ← get32 off buf;
  if ino =? 0 then Some false else
  nl ← get8 (off + 6) buf;
  if negb (nl =? u8 nlen) then Some false else
  b ← slice (off + 8) nlen buf; Some (bool_decide (b = name)).

(** Offset of the first matching entry. Every round moves [off] by at least 1. *)
Fixpoint find_entry (n : nat) (bs : Z) (buf : list Z) (off : Z) (name : list Z) : option (option Z) :=
  match n with
  | O => None
  | Datatypes.S n' =>
    h ← entry_here bs buf off;
    match h with
    | None => Some None
    | Some r =>
      m ← entry_matches buf off name;
      if (m : bool) then Some (Some off) else find_entry n' bs buf (off + r) name
    end
  end.
(** Offset of the last entry. *)
Fixpoint last_entry (n : nat) (bs : Z) (buf : list Z) (off : Z) (prev : option Z) : option (option Z) :=
  match n with
  | O => None
  | Datatypes.S n' =>
    h ← entry_here bs buf off;
    match h with None => Some prev | Some r => last_entry n' bs buf (off + r) (Some off) end
  end.
(** Number of entries in use. *)
Fixpoint count_entries (n : nat) (bs : Z) (buf : list Z) (off acc : Z) : option Z :=
  match n with
  | O => None
  | Datatypes.S n' =>
    h ← entry_here bs buf off;
    match h with
    | None => Some acc
    | Some r => ino ← get32 off buf; count_entries n' bs buf (off + r) (if ino =? 0 then acc else u32 (acc + 1))
    end
  end.
Definition scan_fuel (bs : Z) : nat := Datatypes.S (Z.to_nat bs).

(** Block [b] of the directory: [None] where the loops [continue]. *)
Definition dir_block (dinode : ext2_inode) (b : Z) : E (option (Z * list Z)) :=
  phys <~ ext2_inode_get_block dinode b ;;
  if phys =? 0 then return None else
  ' (st, block_buf) <~ fetch phys ;;
  if decide (st <> EXT2_OK) then return None else return (Some (phys, block_buf)).

Definition dir_nblocks (dinode : ext2_inode) (bs : Z) : E Z := cdiv (u32 (i_size dinode + bs - 1)) bs.
Definition mode_has_dir (i : ext2_inode) : bool := negb (Z.land (i_mode i) EXT2_S_IFDIR =? 0).

(** The scan over the blocks from [b]: block number, contents and offset of the entry. *)
Fixpoint find_in_blocks (n : nat) (dinode : ext2_inode) (b : Z) (name : list Z) : E (option (Z * list Z * Z)) :=
  match n with
  | O => return None
  | Datatypes.S n' =>
    f <~ get_fs ;;
    r <~ dir_block dinode b ;;
    match r with
    | None => find_in_blocks n' dinode (b + 1) name
    | Some (phys, buf) =>
      o <~ mlift (find_entry (scan_fuel (block_size f)) (block_size f) buf 0 name) ;;
      match o with
      | Some off => return (Some (phys, buf, off))
      | None => find_in_blocks n' dinode (b + 1) name
      end
    end
  end.

Definition ext2_dir_lookup (dir_ino : Z) (name : option (list Z)) : E Z :=
  f <~ get_fs ;;
  match name with
  | None => return 0
  | Some name =>
    if negb (mounted f) then return 0 else
    r <~ ext2_read_inode dir_ino ;;
    match r with
    | inl _ => return 0
    | inr dinode =>
      if negb (mode_has_dir dinode) then return 0 else
      nblocks <~ dir_nblocks dinode (block_size f) ;;
      e <~ find_in_blocks (Z.to_nat nblocks) dinode 0 name ;;
      match e with
      | None => return 0
      | Some (_, buf, off) => mlift (get32 off buf)
      end
    end
  end.

(** ** Insertion *)

Definition entry_needed (nlen : Z) : Z :=
  let needed := Z.land (u32 (8 + nlen + 3)) (Z.lnot 3) in if needed <? 12 then 12 else needed.

(** Pass 1 from block [b]: the status when the entry was added to an existing block. *)
Fixpoint add_in_blocks (n : nat) (dinode : ext2_inode) (b : Z) (name : list Z) (child_ino file_type : Z)
  : E (option ext2_status) :=
  match n with
  | O => return None
  | Datatypes.S n' =>
    f <~ get_fs ;;
    let bs := block_size f in
    r <~ dir_block dinode b ;;
    match r with
    | None => add_in_blocks n' dinode (b + 1) name child_ino file_type
    | Some (phys, buf) =>
      prev <~ mlift (last_entry (scan_fuel bs) bs buf 0 None) ;;
      match prev with
      | None => add_in_blocks n' dinode (b + 1) name child_ino file_type
      | Some p =>
        rl <~ mlift (rec_len_at buf p) ;;
        let end_of_prev := p + rl in
        let slack := u32 (bs - end_of_prev) in
        let nlen := u32 (Z.of_nat (length name)) in
        if entry_needed nlen <=? slack then
          buf1 <~ mlift (put16 (p + 4) (u16 (end_of_prev - p)) buf) ;;
          buf2 <~ mlift (dirent_put end_of_prev (Dirent child_ino (bs - end_of_prev) nlen file_type) name buf1) ;;
          st <~ ext2_write_block phys (Some buf2) ;; return (Some st)
        else add_in_blocks n' dinode (b + 1) name child_ino file_type
      end
    end
  end.

(** Pass 2: a new block that the entry fills. *)
Definition add_new_block (dir_ino : Z) (dinode : ext2_inode) (logical : Z) (name : list Z) (child_ino file_type : Z)
  : E ext2_status :=
  f <~ get_fs ;;
  let bs := block_size f in
  ' (st, dinode) <~ ext2_inode_alloc_block dir_ino dinode logical ;;
  if decide (st <> EXT2_OK) then return st else
  let dinode := set_i_size dinode (u32 ((logical + 1) * bs)) in
  ext2_write_inode dir_ino dinode ;;;
  new_phys <~ ext2_inode_get_block dinode logical ;;
  if new_phys =? 0 then return EXT2_ERR_IO else
  new_block <~ zero_buf bs ;;
  new_block <~ mlift (dirent_put 0 (Dirent child_ino bs (u32 (Z.of_nat (length name))) file_type) name new_block) ;;
  ext2_write_block new_phys (Some new_block).

Definition ext2_dir_add_entry (dir_ino : Z) (name : option (list Z)) (child_ino file_type : Z) : E ext2_status :=
  f <~ get_fs ;;
  match name with
  | None => return EXT2_ERR_INVALID
  | Some name =>
    if negb (mounted f) then return EXT2_ERR_INVALID else
    r <~ ext2_read_inode dir_ino ;;
    match r with
    | inl _ => return EXT2_ERR_NOT_FOUND
    | inr dinode =>
      if negb (mode_has_dir dinode) then return EXT2_ERR_INVALID else
      nblocks <~ dir_nblocks dinode (block_size f) ;;
      r <~ add_in_blocks (Z.to_nat nblocks) dinode 0 name child_ino file_type ;;
      match r with
      | Some st => return st
      | None => add_new_block dir_ino dinode nblocks name child_ino file_type
      end
    end
  end.

(** ** Removal *)

Definition ext2_dir_remove_entry (dir_ino : Z) (name : option (list Z)) : E ext2_status :=
  f <~ get_fs ;;
  match name with
  | None => return EXT2_ERR_INVALID
  | Some name =>
    if negb (mounted f) then return EXT2_ERR_INVALID else
    r <~ ext2_read_inode dir_ino ;;
    match r with
    | inl _ => return EXT2_ERR_NOT_FOUND
    | inr dinode =>
      if negb (mode_has_dir dinode) then return EXT2_ERR_INVALID else
      nblocks <~ dir_nblocks dinode (block_size f) ;;
      e <~ find_in_blocks (Z.to_nat nblocks) dinode 0 name ;;
      match e with
      | None => return EXT2_ERR_NOT_FOUND
      | Some (phys, buf, off) => buf' <~ mlift (put32 off 0 buf) ;; ext2_write_block phys (Some buf')
      end
    end
  end.

(** ** Creating directories *)

Definition DOT : list Z := [46].
Definition DOTDOT : list Z := [46; 46].

(** The first block of a directory: "." and "..". *)
Definition dot_block (self parent bs : Z) : E (list Z) :=
  z <~ zero_buf bs ;;
  b1 <~ mlift (dirent_put 0 (Dirent self 12 1 EXT2_FT_DIR) DOT z) ;;
  mlift (dirent_put 12 (Dirent parent (bs - 12) 2 EXT2_FT_DIR) DOTDOT b1).

(** [g_fs.gd[group].bg_used_dirs_count += d], written back to block 2. *)
Definition bump_used_dirs (group d : Z) : E ext2_status :=
  f <~ get_fs ;;
  u <~ mlift (gd16 (gd f) group bg_used_dirs_count) ;;
  g <~ mlift (gd_put16 (gd f) group bg_used_dirs_count (u + d)) ;;
  put_fs (set_gd f (Some g)) ;;;
  ext2_write_block 2 (Some g).

Definition ext2_init_root_dir : E ext2_status :=
  f <~ get_fs ;;
  if negb (mounted f) then return EXT2_ERR_NOT_MOUNTED else
  group <~ cdiv (EXT2_ROOT_INO - 1) (inodes_per_group f) ;;
  root_data_block <~ ext2_alloc_block ;;
  if root_data_block <? 0 then return EXT2_ERR_NO_SPACE else
  let root := set_i_size (set_i_blocks (set_i_links_count (set_i_mode zero_inode (Z.lor EXT2_S_IFDIR 0x1ED)) 2)
                (block_size f / 512)) (block_size f) in
  root <~ mlift (set_i_block root 0 (u32 root_data_block)) ;;
  st <~ ext2_write_inode EXT2_ROOT_INO root ;;
  if decide (st <> EXT2_OK) then return st else
  dir_buf <~ dot_block 2 2 (block_size f) ;;
  st <~ ext2_write_block (u32 root_data_block) (Some dir_buf) ;;
  if decide (st <> EXT2_OK) then return st else
  bump_used_dirs group 1.

Definition ext2_mkdir (parent_ino : Z) (name : option (list Z)) : E Z :=
  f <~ get_fs ;;
  match name with
  | None => return 0
  | Some name =>
    if negb (mounted f) then return 0 else
    new_ino <~ ext2_alloc_inode ;;
    if new_ino <? 0 then return 0 else
    let ino := u32 new_ino in
    let inode := set_i_links_count (set_i_mode zero_inode (Z.lor EXT2_S_IFDIR 0x1ED)) 2 in
    st <~ ext2_write_inode ino inode ;;
    if decide (st <> EXT2_OK) then return 0 else
    ' (st, inode) <~ ext2_inode_alloc_block ino inode 0 ;;
    if decide (st <> EXT2_OK) then return 0 else
    let inode := set_i_size inode (block_size f) in
    ext2_write_inode ino inode ;;;
    phys <~ ext2_inode_get_block inode 0 ;;
    if phys =? 0 then return 0 else
    block_buf <~ dot_block ino parent_ino (block_size f) ;;
    st <~ ext2_write_block phys (Some block_buf) ;;
    if decide (st <> EXT2_OK) then return 0 else
    st <~ ext2_dir_add_entry parent_ino (Some name) ino EXT2_FT_DIR ;;
    if decide (st <> EXT2_OK) then return 0 else
    r <~ ext2_read_inode parent_ino ;;
    match r with
    | inl _ => return ino
    | inr pinode =>
      ext2_write_inode parent_ino (set_i_links_count pinode (u16 (i_links_count pinode + 1))) ;;;
      group <~ cdiv (u32 (ino - 1)) (inodes_per_group f) ;;
      bump_used_dirs group 1 ;;; return ino
    end
  end.

(** ** Unlink, rmdir, rename *)

Definition ext2_unlink (parent_ino : Z) (name : option (list Z)) : E ext2_status :=
  f <~ get_fs ;;
  if negb (mounted f) || bool_decide (name = None) then return EXT2_ERR_INVALID else
  child_ino <~ ext2_dir_lookup parent_ino name ;;
  if child_ino =? 0 then return EXT2_ERR_NOT_FOUND else
  r <~ ext2_read_inode child_ino ;;
  match r with
  | inl _ => return EXT2_ERR_NOT_FOUND
  | inr child =>
    if EXT2_S_ISDIR (i_mode child) then return EXT2_ERR_INVALID else
    st <~ ext2_dir_remove_entry parent_ino name ;;
    if decide (st <> EXT2_OK) then return st else
    let child := set_i_links_count child (u16 (i_links_count child - 1)) in
    if i_links_count child =? 0 then
      ext2_free_all_blocks child ;;; ext2_free_inode child_ino ;;; return EXT2_OK
    else ext2_write_inode child_ino child ;;; return EXT2_OK
  end.

(** The entry count over the blocks from [b]. *)
Fixpoint count_blocks (n : nat) (child : ext2_inode) (b entry_count : Z) : E Z :=
  match n with
  | O => return entry_count
  | Datatypes.S n' =>
    f <~ get_fs ;;
    r <~ dir_block child b ;;
    match r with
    | None => count_blocks n' child (b + 1) entry_count
    | Some (_, buf) =>
      c <~ mlift (count_entries (scan_fuel (block_size f)) (block_size f) buf 0 entry_count) ;;
      count_blocks n' child (b + 1) c
    end
  end.

Definition ext2_rmdir (parent_ino : Z) (name : option (list Z)) : E ext2_status :=
  f <~ get_fs ;;
  if negb (mounted f) || bool_decide (name = None) then return EXT2_ERR_INVALID else
  child_ino <~ ext2_dir_lookup parent_ino name ;;
  if child_ino =? 0 then return EXT2_ERR_NOT_FOUND else
  r <~ ext2_read_inode child_ino ;;
  match r with
  | inl _ => return EXT2_ERR_NOT_FOUND
  | inr child =>
    if negb (EXT2_S_ISDIR (i_mode child)) then return EXT2_ERR_INVALID else
    nblocks <~ dir_nblocks child (block_size f) ;;
    entry_count <~ count_blocks (Z.to_nat nblocks) child 0 0 ;;
    if 2 <? entry_count then return EXT2_ERR_INVALID else
    st <~ ext2_dir_remove_entry parent_ino name ;;
    if decide (st <> EXT2_OK) then return st else
    r <~ ext2_read_inode parent_ino ;;
    match r with
    | inl _ => return tt
    | inr parent => ext2_write_inode parent_ino (set_i_links_count parent (u16 (i_links_count parent - 1))) ;;; return tt
    end ;;;
    group <~ cdiv (u32 (child_ino - 1)) (inodes_per_group f) ;;
    f1 <~ get_fs ;;
    u <~ mlift (gd16 (gd f1) group bg_used_dirs_count) ;;
    (if 0 <? u then bump_used_dirs group (-1) ;;; return tt else return tt) ;;;
    ext2_free_all_blocks child ;;; ext2_free_inode child_ino ;;; return EXT2_OK
  end.

Definition ext2_rename (old_dir : Z) (old_name : option (list Z)) (new_dir : Z) (new_name : option (list Z))
  : E ext2_status :=
  f <~ get_fs ;;
  if negb (mounted f) || bool_decide (old_name = None) || bool_decide (new_name = None)
  then return EXT2_ERR_INVALID else
  child_ino <~ ext2_dir_lookup old_dir old_name ;;
  if child_ino =? 0 then return EXT2_ERR_NOT_FOUND else
  st <~ ext2_dir_remove_entry old_dir old_name ;;
  if decide (st <> EXT2_OK) then return st else
  r <~ ext2_read_inode child_ino ;;
  let ft := match r with
            | inr child => if EXT2_S_ISDIR (i_mode child) then EXT2_FT_DIR else EXT2_FT_REG_FILE
            | inl _ => EXT2_FT_REG_FILE
            end in
  st <~ ext2_dir_add_entry new_dir new_name child_ino ft ;;
  if decide (st <> EXT2_OK) then return st else return EXT2_OK.

(** ** getdents *)

(** One record of the output: [ext2_dirent64_t] and the name with its terminator. *)
Definition dirent64_put (pos d_ino d_off reclen d_type : Z) (name buf : list Z) : option (list Z) :=
  b1 ← put64 pos d_ino buf; b2 ← put64 (pos + 8) d_off b1; b3 ← put16 (pos + 16) reclen b2;
  b4 ← put8 (pos + 18) d_type b3; b5 ← splice (pos + 19) name b4;
  put8 (pos + 19 + Z.of_nat (length name)) 0 b5.
Definition dirent64_len (name_len : Z) : Z := u16 (Z.land (u16 (19 + name_len) + 7) (Z.lnot 7)).

(** One block: [(true, ..)] is the [goto done]. *)
Fixpoint getdents_block (n : nat) (bs : Z) (blk : list Z) (off block_bytes count : Z) (buf : list Z) (buf_pos skip : Z)
  : option (bool * (list Z * Z * Z)) :=
  match n with
  | O => None
  | Datatypes.S n' =>
    h ← entry_here bs blk off;
    match h with
    | None => Some (false, (buf, buf_pos, skip))
    | Some r =>
      ino ← get32 off blk;
      if ino =? 0 then getdents_block n' bs blk (off + r) block_bytes count buf buf_pos skip else
      if 0 <? skip then getdents_block n' bs blk (off + r) block_bytes count buf buf_pos (skip - 1) else
      name_len ← get8 (off + 6) blk;
      let reclen := dirent64_len name_len in
      if count <? u32 (buf_pos + reclen) then Some (true, (buf, buf_pos, skip)) else
      ft ← get8 (off + 7) blk;
      name ← slice (off + 8) name_len blk;
      buf' ← dirent64_put buf_pos ino (u64 (block_bytes + off + r)) reclen ft name buf;
      getdents_block n' bs blk (off + r) block_bytes count buf' (u32 (buf_pos + reclen)) skip
    end
  end.

Fixpoint getdents_blocks (n : nat) (dinode : ext2_inode) (b count : Z) (buf : list Z) (buf_pos skip : Z)
  : E (list Z * Z) :=
  match n with
  | O => return (buf, buf_pos)
  | Datatypes.S n' =>
    if negb (buf_pos <? count) then return (buf, buf_pos) else
    f <~ get_fs ;;
    r <~ dir_block dinode b ;;
    match r with
    | None => getdents_blocks n' dinode (b + 1) count buf buf_pos skip
    | Some (_, blk) =>
      ' (fin, (buf1, pos1, skip1)) <~ mlift (getdents_block (scan_fuel (block_size f)) (block_size f) blk 0
                                         (u32 (b * block_size f)) count buf buf_pos skip) ;;
      if (fin : bool) then return (buf1, pos1) else getdents_blocks n' dinode (b + 1) count buf1 pos1 skip1
    end
  end.

(** Results: return value, [*cookie] and the buffer. *)
Definition ext2_getdents (dir_ino : Z) (cookie : option Z) (buf : option (list Z)) (count : Z)
  : E (Z * option Z * option (list Z)) :=
  f <~ get_fs ;;
  match cookie, buf with
  | Some c, Some out =>
    if negb (mounted f) || (count =? 0) then return (-1, cookie, buf) else
    r <~ ext2_read_inode dir_ino ;;
    match r with
    | inl _ => return (-1, cookie, buf)
    | inr dinode =>
      if negb (EXT2_S_ISDIR (i_mode dinode)) then return (-1, cookie, buf) else
      nblocks <~ dir_nblocks dinode (block_size f) ;;
      ' (out1, buf_pos) <~ getdents_blocks (Z.to_nat nblocks) dinode 0 count out 0 c ;;
      return (i32 buf_pos, Some (u64 (c + buf_pos)), Some out1)
    end
  | _, _ => return (-1, cookie, buf)
  end.

(** ** Paths *)

Definition SLASH : Z := 47.

(** A string that is stored with its terminator in a buffer of [EXT2_MAX_PATH] bytes. *)
Definition store_str (l : list Z) : option (list Z) :=
  if Z.of_nat (length l) <? EXT2_MAX_PATH then Some l else None.

(** Position of the last '/' at or after [i], else [last]. *)
Fixpoint last_slash (path : list Z) (i last : Z) : Z :=
  match path with [] => last | c :: p => last_slash p (i + 1) (if c =? SLASH then i else last) end.

(** [(parent, name)]. *)
Definition ext2_split_path (path : option (list Z)) : option (list Z * list Z) :=
  match path with
  | None => Some ([], [])
  | Some path =>
    let ls := last_slash path 0 (-1) in
    if ls <? 0 then name ← store_str path; Some ([SLASH], name)
    else if ls =? 0 then name ← store_str (drop 1 path); Some ([SLASH], name)
    else
      parent ← store_str (take (Z.to_nat ls) path);
      name ← store_str (drop (Z.to_nat (ls + 1)) path); Some (parent, name)
  end.

Fixpoint skip_slashes (path : list Z) : list Z :=
  match path with c :: p => if c =? SLASH then skip_slashes p else path | [] => [] end.
(** The component at the front, of at most [n] characters. *)
Fixpoint component (n : nat) (path : list Z) : list Z :=
  match n, path with
  | Datatypes.S n', c :: p => if c =? SLASH then [] else c :: component n' p
  | _, _ => []
  end.
Definition skip_one (path : list Z) : list Z :=
  match path with c :: p => if c =? SLASH then p else path | [] => [] end.

(** The component loop.  Every round consumes at least one character. *)
Fixpoint resolve_loop (n : nat) (current : Z) (path : list Z) : E Z :=
  match path, n with
  | [], _ => return current
  | _, O => mfault
  | _ :: p, Datatypes.S n' =>
    let comp := component (Z.to_nat (EXT2_MAX_PATH - 1)) path in
    match comp with
    | [] => resolve_loop n' current p
    | _ =>
      found <~ ext2_dir_lookup current (Some comp) ;;
      if found =? 0 then return 0 else
      resolve_loop n' found (skip_one (drop (length comp) path))
    end
  end.

Definition ext2_resolve_path (path : option (list Z)) : E Z :=
  f <~ get_fs ;;
  match path with
  | None => return 0
  | Some path =>
    if negb (mounted f) then return 0 else
    let path := skip_slashes path in
    match path with [] => return EXT2_ROOT_INO | _ => resolve_loop (length path) EXT2_ROOT_INO path end
  end.

(** ** VFS adapter *)

(** The absolute path built in a buffer of [EXT2_MAX_PATH] bytes. *)
Definition full_path (rel_path : list Z) : list Z :=
  match rel_path with
  | c :: _ => if c =? SLASH then take (Z.to_nat (EXT2_MAX_PATH - 1)) rel_path
              else SLASH :: take (Z.to_nat (EXT2_MAX_PATH - 2)) rel_path
  | [] => [SLASH]
  end.

(** The creation branch of open: the new inode, or [None] for [return -1]. *)
Definition vfs_create (full : list Z) : E (option Z) :=
  ' (parent, name) <~ mlift (ext2_split_path (Some full)) ;;
  match name with
  | [] => return None
  | _ =>
    parent_ino <~ ext2_resolve_path (Some parent) ;;
    if parent_ino =? 0 then return None else
    new_ino <~ ext2_alloc_inode ;;
    if new_ino <? 0 then return None else
    let inode := set_i_links_count (set_i_mode zero_inode (Z.lor EXT2_S_IFREG 0x1A4)) 1 in
    ext2_write_inode (u32 new_ino) inode ;;;
    st <~ ext2_dir_add_entry parent_ino (Some name) (u32 new_ino) EXT2_FT_REG_FILE ;;
    if decide (st <> EXT2_OK) then return None else return (Some (u32 new_ino))
  end.

(** [mem]: whether the heap has room for the descriptor.  [None]: -1. *)
Definition ext2_vfs_open (mem : bool) (rel_path : list Z) (flags : Z) : E (option ext2_file_t) :=
  let full := full_path rel_path in
  ino <~ ext2_resolve_path (Some full) ;;
  ino <~ (if (ino =? 0) && negb (Z.land flags O_CREAT =? 0)
          then r <~ vfs_create full ;; return (default 0 r) else return ino) ;;
  if ino =? 0 then return None else
  if mem then return (Some (EFile ino 0 flags)) else return None.

Definition ext2_vfs_stat (rel_path : list Z) : E (Z * option ext2_stat_t) :=
  ino <~ ext2_resolve_path (Some (full_path rel_path)) ;;
  if ino =? 0 then return (-1, None) else
  ' (st, out) <~ ext2_stat ino ;; return (if decide (st = EXT2_OK) then 0 else -1, out).

(** The common shape of unlink, rmdir and mkdir: [op] on the parent and the name. *)
Definition at_parent (rel_path : list Z) (op : Z -> list Z -> E Z) : E Z :=
  ' (parent, name) <~ mlift (ext2_split_path (Some (full_path rel_path))) ;;
  match name with
  | [] => return (-1)
  | _ =>
    parent_ino <~ ext2_resolve_path (Some parent) ;;
    if parent_ino =? 0 then return (-1) else op parent_ino name
  end.
Definition status_ret (m : E ext2_status) : E Z :=
  st <~ m ;; return (if decide (st = EXT2_OK) then 0 else -1).

Definition ext2_vfs_unlink (rel_path : list Z) : E Z :=
  at_parent rel_path (fun p name => status_ret (ext2_unlink p (Some name))).
Definition ext2_vfs_rmdir (rel_path : list Z) : E Z :=
  at_parent rel_path (fun p name => status_ret (ext2_rmdir p (Some name))).
Definition ext2_vfs_mkdir (rel_path : list Z) (mode : Z) : E Z :=
  at_parent rel_path (fun p name => r <~ ext2_mkdir p (Some name) ;; return (if r =? 0 then -1 else 0)).

Definition ext2_vfs_rename (old_rel new_rel : list Z) : E Z :=
  ' (old_parent, old_name) <~ mlift (ext2_split_path (Some (full_path old_rel))) ;;
  ' (new_parent, new_name) <~ mlift (ext2_split_path (Some (full_path new_rel))) ;;
  if bool_decide (old_name = []) || bool_decide (new_name = []) then return (-1) else
  old_parent_ino <~ ext2_resolve_path (Some old_parent) ;;
  new_parent_ino <~ ext2_resolve_path (Some new_parent) ;;
  if (old_parent_ino =? 0) || (new_parent_ino =? 0) then return (-1) else
  status_ret (ext2_rename old_parent_ino (Some old_name) new_parent_ino (Some new_name)).

Definition ext2_vfs_getdents (rel_path : list Z) (cookie : option Z) (buf : option (list Z)) (count : Z)
  : E (Z * option Z * option (list Z)) :=
  ino <~ ext2_resolve_path (Some (full_path rel_path)) ;;
  if ino =? 0 then return (-1, cookie, buf) else ext2_getdents ino cookie buf count.

End Ext2Dir.
