(* ===== verification/Ext2Sim.v ===== *)
(** * The file system on the buffer cache is the file system on an array of sectors

    [arr] is the simplest sector store: a finite map of 512-byte sectors.  Every ext2
    operation, run on any lawful [SectorStore] (the buffer cache over a disk is one,
    see Bcache.v), returns the same result and faults in the same cases as on [arr]:
    caching, eviction and write-back are invisible to the file system.  The theorems of
    the files that follow are then stated on [arr]. *)

From stdpp Require Import base numbers gmap list options.
From S2P Require Import Prelude BlockDev Bcache Ext2Data Ext2 Ext2File Ext2Dir.

(** ** The array store *)

Record arr := Arr { cells : gmap (Z * Z) (list Z); agood : Z -> Z -> bool }.
Definition cell (a : arr) (d l : Z) : list Z := default (replicate 512 0) (cells a !! (d, l)).

#[global] Instance arr_store : SectorStore arr := {
  ss_read d l := fun a => Some (if agood a d l then Some (cell a d l) else None, a);
  ss_write d l v := fun a =>
    Some (agood a d l, if agood a d l then Arr (<[(d, l) := v]> (cells a)) (agood a) else a);
  ss_flush d := fun a => Some (tt, a)
}.

(** ** Requests *)

Inductive ext2_req :=
| RInit | RMount (kmalloc : Z -> option (list Z)) (dev : Z) | RUnmount | RInitRoot
| RReadBlock (n : Z) (buf : option (list Z)) | RWriteBlock (n : Z) (buf : option (list Z))
| RReadInode (ino : Z) | RWriteInode (ino : Z) (i : ext2_inode)
| RAllocBlock | RFreeBlock (n : Z) | RAllocInode | RFreeInode (ino : Z)
| RGetBlock (i : ext2_inode) (l : Z) | RMapBlock (ino : Z) (i : ext2_inode) (l : Z)
| RReadFile (ino : Z) (buf : option (list Z)) (off cnt : Z)
| RWriteFile (ino : Z) (buf : option (list Z)) (off cnt : Z)
| RTruncate (ino sz : Z) | RFreeAll (i : ext2_inode)
| RLookup (ino : Z) (name : option (list Z)) | RAdd (ino : Z) (name : option (list Z)) (c t : Z)
| RRemove (ino : Z) (name : option (list Z)) | RMkdir (ino : Z) (name : option (list Z))
| RUnlink (ino : Z) (name : option (list Z)) | RRmdir (ino : Z) (name : option (list Z))
| RRename (o : Z) (on : option (list Z)) (n : Z) (nn : option (list Z))
| RGetdents (ino : Z) (c : option Z) (buf : option (list Z)) (cnt : Z) | RResolve (p : option (list Z))
| RFdRead (buf : option (list Z)) (cnt : Z) (d : option ext2_file_t)
| RFdWrite (buf : option (list Z)) (cnt : Z) (d : option ext2_file_t)
| RVOpen (mem : bool) (p : list Z) (fl : Z) | RVStat (p : list Z) | RVUnlink (p : list Z)
| RVRmdir (p : list Z) | RVMkdir (p : list Z) (m : Z) | RVRename (o n : list Z)
| RVGetdents (p : list Z) (c : option Z) (buf : option (list Z)) (cnt : Z).

Inductive ext2_res :=
| VUnit | VStatus (st : ext2_status) | VInt (z : Z) | VBlock (x : ext2_status * list Z)
| VInode (x : ext2_status + ext2_inode) | VMapped (x : ext2_status * ext2_inode) | VBytes (x : Z * list Z)
| VDents (x : Z * option Z * option (list Z)) | VRead (x : Z * list Z * option ext2_file_t)
| VWrite (x : Z * option ext2_file_t) | VFile (x : option ext2_file_t) | VStat (x : Z * option ext2_stat_t).

Section Run.
Context {S : Type} `{!SectorStore S} `{!Stack}.
Definition mfmap {A} (g : A -> ext2_res) (m : M (estate S) A) : M (estate S) ext2_res := a <~ m ;; return (g a).

Definition run_req (r : ext2_req) : M (estate S) ext2_res :=
  match r with
  | RInit => mfmap (fun _ => VUnit) ext2_init
  | RMount k d => mfmap VStatus (ext2_mount k d)
  | RUnmount => mfmap (fun _ => VUnit) ext2_unmount
  | RInitRoot => mfmap VStatus ext2_init_root_dir
  | RReadBlock n b => mfmap VBlock (ext2_read_block n b)
  | RWriteBlock n b => mfmap VStatus (ext2_write_block n b)
  | RReadInode i => mfmap VInode (ext2_read_inode i)
  | RWriteInode n i => mfmap VStatus (ext2_write_inode n i)
  | RAllocBlock => mfmap VInt ext2_alloc_block
  | RFreeBlock n => mfmap VStatus (ext2_free_block n)
  | RAllocInode => mfmap VInt ext2_alloc_inode
  | RFreeInode n => mfmap VStatus (ext2_free_inode n)
  | RGetBlock i l => mfmap VInt (ext2_inode_get_block i l)
  | RMapBlock n i l => mfmap VMapped (ext2_inode_alloc_block n i l)
  | RReadFile n b o c => mfmap VBytes (ext2_read_file n b o c)
  | RWriteFile n b o c => mfmap VInt (ext2_write_file n b o c)
  | RTruncate n z => mfmap VStatus (ext2_truncate n z)
  | RFreeAll i => mfmap VMapped (ext2_free_all_blocks i)
  | RLookup n x => mfmap VInt (ext2_dir_lookup n x)
  | RAdd n x c t => mfmap VStatus (ext2_dir_add_entry n x c t)
  | RRemove n x => mfmap VStatus (ext2_dir_remove_entry n x)
  | RMkdir n x => mfmap VInt (ext2_mkdir n x)
  | RUnlink n x => mfmap VStatus (ext2_unlink n x)
  | RRmdir n x => mfmap VStatus (ext2_rmdir n x)
  | RRename o x n y => mfmap VStatus (ext2_rename o x n y)
  | RGetdents n c b z => mfmap VDents (ext2_getdents n c b z)
  | RResolve p => mfmap VInt (ext2_resolve_path p)
  | RFdRead b z d => mfmap VRead (ext2_fd_read b z d)
  | RFdWrite b z d => mfmap VWrite (ext2_fd_write b z d)
  | RVOpen m p fl => mfmap VFile (ext2_vfs_open m p fl)
  | RVStat p => mfmap VStat (ext2_vfs_stat p)
  | RVUnlink p => mfmap VInt (ext2_vfs_unlink p)
  | RVRmdir p => mfmap VInt (ext2_vfs_rmdir p)
  | RVMkdir p m => mfmap VInt (ext2_vfs_mkdir p m)
  | RVRename o n => mfmap VInt (ext2_vfs_rename o n)
  | RVGetdents p c b z => mfmap VDents (ext2_vfs_getdents p c b z)
  end.

Fixpoint run_reqs (rs : list ext2_req) : M (estate S) (list ext2_res) :=
  match rs with [] => return [] | r :: rs' => v <~ run_req r ;; vs <~ run_reqs rs' ;; return (v :: vs) end.
End Run.

(** ** Simulation *)

Section Sim.
Context {S : Type} `{!SectorStore S} `{!SectorStoreLaws S} `{!Stack}.

(** The store holds the array's sectors (those that can be accessed), and the file
    system's own variables are the same. *)
Definition srel (s : estate S) (t : estate arr) : Prop :=
  ss_ok (store s) /\ g_fs s = g_fs t /\ (forall d l, agood (store t) d l = ss_good d l) /\
  (forall d l, ss_good d l = true -> ss_disk (store s) d l = cell (store t) d l).

(** Same fault, or same result and related states. *)
Definition sim {A} (m1 : M (estate S) A) (m2 : M (estate arr) A) : Prop :=
  forall s t, srel s t ->
    match m2 t with
    | Some (a, t') => exists s', m1 s = Some (a, s') /\ srel s' t'
    | None => m1 s = None
    end.

Lemma sim_bind {A B} (m1 : M (estate S) A) m2 (k1 : A -> M (estate S) B) k2 :
  sim m1 m2 -> (forall a, sim (k1 a) (k2 a)) -> sim (mbind_ m1 k1) (mbind_ m2 k2).
Proof.
  intros Hm Hk s t Hr. unfold mbind_. specialize (Hm s t Hr). destruct (m2 t) as [[a t']|]; [|by rewrite Hm].
  destruct Hm as (s'&->&Hr'). by apply Hk.
Qed.
Lemma sim_ret {A} (a : A) : sim (mret a) (mret a).
Proof. intros s t Hr. simpl. eauto. Qed.
Lemma sim_mlift {A} (o : option A) : sim (mlift o) (mlift o).
Proof. intros s t Hr. unfold mlift. destruct o; eauto. Qed.
Lemma sim_fault {A} : sim (@mfault _ A) mfault.
Proof. done. Qed.
Lemma sim_get_fs : sim get_fs get_fs.
Proof. intros s t Hr. unfold get_fs, mgets. pose proof Hr as (_&He&_). rewrite He. eauto. Qed.
Lemma sim_put_fs f : sim (put_fs f) (put_fs f).
Proof. intros s t (?&?&?&?). unfold put_fs. eexists. split; [done|]. split_and!; simpl; done. Qed.
Lemma sim_cdiv a b : sim (cdiv a b) (cdiv a b).
Proof. unfold cdiv. destruct (b =? 0); [apply sim_fault|apply sim_ret]. Qed.
Lemma sim_cmod a b : sim (cmod a b) (cmod a b).
Proof. unfold cmod. destruct (b =? 0); [apply sim_fault|apply sim_ret]. Qed.

Lemma sim_ss_read d l : in_w 32 l -> sim (on_store (ss_read d l)) (on_store (ss_read d l)).
Proof.
  intros Hl s t (Hok&Hf&Hg&Hd). unfold on_store; simpl. rewrite Hg.
  destruct (ss_read_law (store s) d l Hok Hl) as (s'&->&Hok'&Hq). eexists. split.
  - f_equal. f_equal. destruct (ss_good d l) eqn:E; [|done]. by rewrite Hd.
  - split_and!; simpl; [done..|]. intros d' l' Hgl. rewrite <-Hd by done. apply Hq.
Qed.
Lemma sim_ss_write d l v : in_w 32 l -> length v = 512%nat ->
  sim (on_store (ss_write d l v)) (on_store (ss_write d l v)).
Proof.
  intros Hl Hv s t (Hok&Hf&Hg&Hd). unfold on_store; simpl. rewrite Hg.
  destruct (ss_write_law (store s) d l v Hok Hl Hv) as (s'&->&Hok'&Hq). eexists. split; [done|].
  split_and!; simpl; [done..| |].
  - intros d' l'. destruct (ss_good d l); apply Hg.
  - intros d' l' Hgl. rewrite (Hq d' l'). destruct (ss_good d l) eqn:E; [|by apply Hd].
    unfold dupd, cell; simpl. case_decide as He.
    + destruct He as [-> ->]. by rewrite lookup_insert_eq.
    + rewrite lookup_insert_ne by (intros [=]; subst; tauto). by apply Hd.
Qed.
Lemma sim_ss_flush d : sim (on_store (ss_flush d)) (on_store (ss_flush d)).
Proof.
  intros s t (Hok&Hf&Hg&Hd). unfold on_store; simpl.
  destruct (ss_flush_law (store s) d Hok) as (s'&->&Hok'&Hq). eexists. split; [done|].
  split_and!; simpl; [done..|]. intros d' l' Hgl. rewrite (Hq d' l'). by apply Hd.
Qed.

End Sim.

Create HintDb sim.
#[export] Hint Resolve sim_ret sim_mlift sim_fault sim_get_fs sim_put_fs sim_cdiv sim_cmod sim_ss_flush : sim.

(** Walks through a program: binds, branches on equal data, then the library. *)
Ltac sim_step :=
  match goal with
  | |- sim (mbind_ _ _) (mbind_ _ _) => apply sim_bind; [|intros ?]
  | |- sim (match ?x with _ => _ end) (match ?x with _ => _ end) => destruct x
  | |- sim (let '(_, _) := ?x in _) _ => destruct x
  | |- _ => solve [auto with sim]
  end.
Ltac sim_go := repeat (cbv zeta; sim_step).

Section SimOps.
Context {S : Type} `{!SectorStore S} `{!SectorStoreLaws S} `{!Stack}.

Lemma u32_in x : in_w 32 (u32 x).
Proof. by apply wrap_range. Qed.

Lemma sim_read_sectors d n b : sim (read_sectors d n b) (read_sectors d n b).
Proof. unfold read_sectors. cbv zeta. repeat (sim_step || apply sim_ss_read, u32_in). Qed.
Hint Resolve sim_read_sectors : sim.
Lemma sim_read_block_raw d n b : sim (ext2_read_block_raw d n b) (ext2_read_block_raw d n b).
Proof. unfold ext2_read_block_raw. sim_go. Qed.
Lemma sim_read_block n b : sim (ext2_read_block n b) (ext2_read_block n b).
Proof. unfold ext2_read_block. sim_go. Qed.

Lemma sim_bind_slice {B} o n l (k1 : list Z -> M (estate S) B) k2 :
  (forall v, Z.of_nat (length v) = n -> sim (k1 v) (k2 v)) ->
  sim (mbind_ (mlift (slice o n l)) k1) (mbind_ (mlift (slice o n l)) k2).
Proof.
  intros Hk s t Hr. unfold mbind_, mlift. destruct (slice o n l) as [v|] eqn:E; [|done].
  apply Hk; [|done]. by apply slice_length in E.
Qed.
Lemma sim_write_block n b : sim (ext2_write_block n b) (ext2_write_block n b).
Proof.
  unfold ext2_write_block. apply sim_bind; [sim_go|intros f]. destruct (negb _); [sim_go|].
  destruct b as [src|]; [|sim_go]. cbv zeta. apply sim_bind_slice. intros lo Hlo.
  apply sim_bind; [apply sim_ss_write; [apply u32_in|lia]|intros ok]. destruct (negb ok); [sim_go|].
  apply sim_bind_slice. intros hi Hhi.
  apply sim_bind; [apply sim_ss_write; [apply u32_in|lia]|intros ok']. sim_go.
Qed.
Hint Resolve sim_read_block_raw sim_read_block sim_write_block : sim.
Lemma sim_fetch n : sim (fetch n) (fetch n).
Proof. apply sim_read_block. Qed.
Lemma sim_zero_buf n : sim (zero_buf n) (zero_buf n).
Proof. apply sim_mlift. Qed.
Hint Resolve sim_fetch sim_zero_buf : sim.

Lemma sim_read_descs n d b g : sim (read_descs n d b g) (read_descs n d b g).
Proof. revert b; induction n as [|n IH]; intros b; simpl; sim_go. Qed.
Hint Resolve sim_read_descs : sim.
Lemma sim_mount k d : sim (ext2_mount k d) (ext2_mount k d).
Proof. unfold ext2_mount. sim_go. Qed.
Lemma sim_unmount : sim ext2_unmount ext2_unmount.
Proof. unfold ext2_unmount. sim_go. Qed.
Lemma sim_location n : sim (ext2_inode_location n) (ext2_inode_location n).
Proof. unfold ext2_inode_location. sim_go. Qed.
Hint Resolve sim_location : sim.
Lemma sim_read_inode n : sim (ext2_read_inode n) (ext2_read_inode n).
Proof. unfold ext2_read_inode. sim_go. Qed.
Lemma sim_write_inode n i : sim (ext2_write_inode n i) (ext2_write_inode n i).
Proof. unfold ext2_write_inode. sim_go. Qed.
Lemma sim_update_counts g a b : sim (ext2_update_counts g a b) (ext2_update_counts g a b).
Proof. unfold ext2_update_counts. sim_go. Qed.
Hint Resolve sim_read_inode sim_write_inode sim_update_counts : sim.
Lemma sim_alloc_groups n g f p a b c : sim (alloc_groups n g f p a b c) (alloc_groups n g f p a b c).
Proof. revert g; induction n as [|n IH]; intros g; simpl; sim_go. Qed.
Hint Resolve sim_alloc_groups : sim.
Lemma sim_alloc_block : sim ext2_alloc_block ext2_alloc_block.
Proof. unfold ext2_alloc_block. sim_go. Qed.
Lemma sim_alloc_inode : sim ext2_alloc_inode ext2_alloc_inode.
Proof. unfold ext2_alloc_inode. sim_go. Qed.
Lemma sim_free_bit a b c d e : sim (free_bit a b c d e) (free_bit a b c d e).
Proof. unfold free_bit. sim_go. Qed.
Hint Resolve sim_alloc_block sim_alloc_inode sim_free_bit : sim.
Lemma sim_free_block n : sim (ext2_free_block n) (ext2_free_block n).
Proof. unfold ext2_free_block. sim_go. Qed.
Lemma sim_free_inode n : sim (ext2_free_inode n) (ext2_free_inode n).
Proof. unfold ext2_free_inode. sim_go. Qed.
Hint Resolve sim_free_block sim_free_inode : sim.

Lemma sim_ptr_at b i : sim (ptr_at b i) (ptr_at b i).
Proof. apply sim_mlift. Qed.
Lemma sim_ptr_put b i v : sim (ptr_put b i v) (ptr_put b i v).
Proof. apply sim_mlift. Qed.
Hint Resolve sim_ptr_at sim_ptr_put : sim.
Lemma sim_follow b i1 i2 : sim i1 i2 -> sim (follow b i1) (follow b i2).
Proof. intros. unfold follow. sim_go. Qed.
Lemma sim_get_block i l : sim (ext2_inode_get_block i l) (ext2_inode_get_block i l).
Proof. unfold ext2_inode_get_block. repeat (cbv zeta; sim_step || apply sim_follow). Qed.
Hint Resolve sim_get_block : sim.
Lemma sim_new_indirect : sim new_indirect new_indirect.
Proof. unfold new_indirect. sim_go. Qed.
Hint Resolve sim_new_indirect : sim.
Lemma sim_ensure_root i s : sim (ensure_root i s) (ensure_root i s).
Proof. unfold ensure_root. sim_go. Qed.
Lemma sim_ensure_entry i b x : sim (ensure_entry i b x) (ensure_entry i b x).
Proof. unfold ensure_entry. sim_go. Qed.
Lemma sim_store_ptr b x p : sim (store_ptr b x p) (store_ptr b x p).
Proof. unfold store_ptr. sim_go. Qed.
Hint Resolve sim_ensure_root sim_ensure_entry sim_store_ptr : sim.
Lemma sim_link_block i l p : sim (link_block i l p) (link_block i l p).
Proof. unfold link_block. sim_go. Qed.
Hint Resolve sim_link_block : sim.
Lemma sim_inode_alloc_block n i l : sim (ext2_inode_alloc_block n i l) (ext2_inode_alloc_block n i l).
Proof. unfold ext2_inode_alloc_block. sim_go. Qed.
Hint Resolve sim_inode_alloc_block : sim.

Lemma sim_read_loop n i d o c t : sim (read_file_loop n i d o c t) (read_file_loop n i d o c t).
Proof. revert d o c t; induction n as [|n IH]; intros; simpl; sim_go. Qed.
Hint Resolve sim_read_loop : sim.
Lemma sim_read_file n b o c : sim (ext2_read_file n b o c) (ext2_read_file n b o c).
Proof. unfold ext2_read_file. sim_go. Qed.
Lemma sim_map_block n i l : sim (map_block n i l) (map_block n i l).
Proof. unfold map_block. sim_go. Qed.
Hint Resolve sim_map_block sim_read_file : sim.
Lemma sim_write_loop n x i s p c t : sim (write_file_loop n x i s p c t) (write_file_loop n x i s p c t).
Proof. revert i p c t; induction n as [|n IH]; intros; simpl; sim_go. Qed.
Hint Resolve sim_write_loop : sim.
Lemma sim_write_file n b o c : sim (ext2_write_file n b o c) (ext2_write_file n b o c).
Proof. unfold ext2_write_file. sim_go. Qed.
Lemma sim_stat n : sim (ext2_stat n) (ext2_stat n).
Proof. unfold ext2_stat. sim_go. Qed.
Hint Resolve sim_write_file sim_stat : sim.

Lemma sim_for_range a b (f1 : Z -> M (estate S) unit) f2 :
  (forall i, sim (f1 i) (f2 i)) -> sim (for_range a b f1) (for_range a b f2).
Proof.
  intros Hf. unfold for_range. generalize (Z.to_nat (b - a)). intros n. revert a.
  induction n as [|n IH]; intros a; simpl; sim_go; auto.
Qed.
Lemma sim_free_tree n b : sim (free_tree n b) (free_tree n b).
Proof.
  revert b; induction n as [|n IH]; intros b; simpl; [sim_go|]. unfold mwhen.
  repeat (sim_step || (apply sim_for_range; intros ?)).
Qed.
Hint Resolve sim_free_tree : sim.
Lemma sim_free_slot_tree i s l : sim (free_slot_tree i s l) (free_slot_tree i s l).
Proof. unfold free_slot_tree. sim_go. Qed.
Hint Resolve sim_free_slot_tree : sim.
Lemma sim_free_direct n i x : sim (free_direct n i x) (free_direct n i x).
Proof. revert i x; induction n as [|n IH]; intros; simpl; sim_go. Qed.
Hint Resolve sim_free_direct : sim.
Lemma sim_free_all i : sim (ext2_free_all_blocks i) (ext2_free_all_blocks i).
Proof. unfold ext2_free_all_blocks. sim_go. Qed.
Lemma sim_truncate_loop n b i : sim (truncate_loop n b i) (truncate_loop n b i).
Proof. revert b i; induction n as [|n IH]; intros; simpl; sim_go. Qed.
Lemma sim_zero_tail i a b c : sim (zero_tail i a b c) (zero_tail i a b c).
Proof. unfold zero_tail. sim_go. Qed.
Hint Resolve sim_free_all sim_truncate_loop sim_zero_tail : sim.
Lemma sim_truncate n z : sim (ext2_truncate n z) (ext2_truncate n z).
Proof. unfold ext2_truncate. sim_go. Qed.
Lemma sim_fd_read b c d : sim (ext2_fd_read b c d) (ext2_fd_read b c d).
Proof. unfold ext2_fd_read. sim_go. Qed.
Lemma sim_fd_write b c d : sim (ext2_fd_write b c d) (ext2_fd_write b c d).
Proof. unfold ext2_fd_write. sim_go. Qed.
Hint Resolve sim_truncate sim_fd_read sim_fd_write : sim.

Lemma sim_dir_block i b : sim (dir_block i b) (dir_block i b).
Proof. unfold dir_block. sim_go. Qed.
Lemma sim_dir_nblocks i b : sim (dir_nblocks i b) (dir_nblocks i b).
Proof. unfold dir_nblocks. sim_go. Qed.
Hint Resolve sim_dir_block sim_dir_nblocks : sim.
Lemma sim_find_in_blocks n i b x : sim (find_in_blocks n i b x) (find_in_blocks n i b x).
Proof. revert b; induction n as [|n IH]; intros; simpl; sim_go. Qed.
Hint Resolve sim_find_in_blocks : sim.
Lemma sim_dir_lookup n x : sim (ext2_dir_lookup n x) (ext2_dir_lookup n x).
Proof. unfold ext2_dir_lookup. sim_go. Qed.
Lemma sim_add_in_blocks n i b x c t : sim (add_in_blocks n i b x c t) (add_in_blocks n i b x c t).
Proof. revert b; induction n as [|n IH]; intros; simpl; sim_go. Qed.
Lemma sim_add_new_block d i l x c t : sim (add_new_block d i l x c t) (add_new_block d i l x c t).
Proof. unfold add_new_block. sim_go. Qed.
Hint Resolve sim_dir_lookup sim_add_in_blocks sim_add_new_block : sim.
Lemma sim_add_entry d x c t : sim (ext2_dir_add_entry d x c t) (ext2_dir_add_entry d x c t).
Proof. unfold ext2_dir_add_entry. sim_go. Qed.
Lemma sim_remove_entry d x : sim (ext2_dir_remove_entry d x) (ext2_dir_remove_entry d x).
Proof. unfold ext2_dir_remove_entry. sim_go. Qed.
Lemma sim_dot_block a b c : sim (dot_block a b c) (dot_block a b c).
Proof. unfold dot_block. sim_go. Qed.
Lemma sim_bump g d : sim (bump_used_dirs g d) (bump_used_dirs g d).
Proof. unfold bump_used_dirs. sim_go. Qed.
Hint Resolve sim_add_entry sim_remove_entry sim_dot_block sim_bump : sim.
Lemma sim_init_root : sim ext2_init_root_dir ext2_init_root_dir.
Proof. unfold ext2_init_root_dir. sim_go. Qed.
Lemma sim_mkdir p x : sim (ext2_mkdir p x) (ext2_mkdir p x).
Proof. unfold ext2_mkdir. sim_go. Qed.
Lemma sim_unlink p x : sim (ext2_unlink p x) (ext2_unlink p x).
Proof. unfold ext2_unlink. sim_go. Qed.
Lemma sim_count_blocks n i b c : sim (count_blocks n i b c) (count_blocks n i b c).
Proof. revert b c; induction n as [|n IH]; intros; simpl; sim_go. Qed.
Hint Resolve sim_count_blocks : sim.
Lemma sim_rmdir p x : sim (ext2_rmdir p x) (ext2_rmdir p x).
Proof. unfold ext2_rmdir. sim_go. Qed.
Lemma sim_rename o x n y : sim (ext2_rename o x n y) (ext2_rename o x n y).
Proof. unfold ext2_rename. sim_go. Qed.
Lemma sim_getdents_blocks n i b c x p k : sim (getdents_blocks n i b c x p k) (getdents_blocks n i b c x p k).
Proof. revert b x p k; induction n as [|n IH]; intros; simpl; sim_go. Qed.
Hint Resolve sim_mkdir sim_unlink sim_rmdir sim_rename sim_getdents_blocks : sim.
Lemma sim_getdents n c b z : sim (ext2_getdents n c b z) (ext2_getdents n c b z).
Proof. unfold ext2_getdents. sim_go. Qed.
Lemma sim_resolve_loop n c p : sim (resolve_loop n c p) (resolve_loop n c p).
Proof. revert c p; induction n as [|n IH]; intros c [|x p]; simpl; sim_go. Qed.
Hint Resolve sim_getdents sim_resolve_loop : sim.
Lemma sim_resolve p : sim (ext2_resolve_path p) (ext2_resolve_path p).
Proof. unfold ext2_resolve_path. sim_go. Qed.
Hint Resolve sim_resolve : sim.
Lemma sim_vfs_create p : sim (vfs_create p) (vfs_create p).
Proof. unfold vfs_create. sim_go. Qed.
Hint Resolve sim_vfs_create : sim.
Lemma sim_status_ret m1 m2 : sim m1 m2 -> sim (status_ret m1) (status_ret m2).
Proof. intros. unfold status_ret. sim_go. Qed.
Lemma sim_at_parent p o1 o2 : (forall x y, sim (o1 x y) (o2 x y)) -> sim (at_parent p o1) (at_parent p o2).
Proof. intros. unfold at_parent. sim_go. Qed.
Hint Resolve sim_mount sim_unmount sim_init_root sim_status_ret : sim.

Lemma sim_run_req r : sim (run_req r) (run_req r).
Proof.
  destruct r; cbn [run_req]; unfold mfmap; apply sim_bind; try (intros; apply sim_ret); try solve [auto with sim].
  - apply sim_put_fs.
  - unfold ext2_vfs_open. sim_go.
  - unfold ext2_vfs_stat. sim_go.
  - apply sim_at_parent. auto with sim.
  - apply sim_at_parent. auto with sim.
  - apply sim_at_parent. intros. sim_go.
  - unfold ext2_vfs_rename. sim_go.
  - unfold ext2_vfs_getdents. sim_go.
Qed.
Lemma sim_run_reqs rs : sim (run_reqs rs) (run_reqs rs).
Proof. induction rs as [|r rs IH]; simpl; sim_go. apply sim_run_req. Qed.
End SimOps.

(** After [bcache_init] on a working block layer, every sequence of file system
    calls (mounting, block, inode, file, directory and path operations) on the buffer
    cache gives exactly the results it gives on a plain array of sectors with the
    disk's contents, faults in exactly the same cases, and leaves the same [g_fs] and
    the same sectors. *)
Theorem ext2_on_cache_refines {D} `{!BlockIO D} `{!BlockIOLaws D} `{!Stack}
    (c : bcache D) (a : arr) (f : ext2_fs) (rs : list ext2_req) :
  bio_ok (g_dev c) -> (forall d l, agood a d l = bio_good d l) ->
  (forall d l, bio_good d l = true -> bio_disk (g_dev c) d l = cell a d l) ->
  exists c0, bcache_init c = Some (tt, c0) /\
    match run_reqs rs (Estate a f) with
    | Some (vs, t) => exists s, run_reqs rs (Estate c0 f) = Some (vs, s) /\ srel s t
    | None => run_reqs rs (Estate c0 f) = None
    end.
Proof.
  intros Hok Hg Hd. destruct (init_run c Hok) as (c0&Hc&Hq&He). exists c0. split; [exact Hc|].
  apply sim_run_reqs. split_and!; [exact Hq|reflexivity|exact Hg|].
  cbn [store ss_disk bcache_store_laws]. rewrite He. exact Hd.
Qed.

Definition junk0 : Stack := {| junk := replicate 1024 0xCC; junk_len := eq_refl |}.

(** The RAM disk of Bcache.v as an array. *)
Definition ram_arr : arr := Arr ∅ (@bio_good _ _ ram_laws).
Definition reqs0 : list ext2_req := [RInit; RMount (fun n => Some (replicate (Z.to_nat n) 0)) 0; RUnmount].

Lemma ext2_on_cache_refines_witness :
  exists c0, bcache_init ram_boot = Some (tt, c0) /\
    match @run_reqs _ _ junk0 reqs0 (Estate ram_arr zero_fs) with
    | Some (vs, t) => exists s, @run_reqs _ _ junk0 reqs0 (Estate c0 zero_fs) = Some (vs, s) /\
        @srel _ _ (@bcache_store_laws _ _ ram_laws) s t
    | None => @run_reqs _ _ junk0 reqs0 (Estate c0 zero_fs) = None
    end.
Proof.
  apply (@ext2_on_cache_refines _ _ ram_laws junk0 ram_boot ram_arr zero_fs reqs0).
  - exact ram_table_ok.
  - reflexivity.
  - intros d l Hg. apply (disk_good_true (ram_read 4096) (ram_write 4096) 0) in Hg as [-> _]. reflexivity.
Defined.
