(* ===== verification/Ext2Spec.v ===== *)
(** * ext2: correctness of block I/O, inodes and allocation

    The operations of Ext2.v on an array of sectors (see Ext2Sim.v): the disk is an
    array of 1024-byte blocks [blk t n].  Reads leave the state alone, so every
    operation has an exact functional description. *)

From stdpp Require Import base numbers gmap list options.
From S2P Require Import Prelude BlockDev Bcache Ext2Data Ext2 Ext2File Ext2Dir Ext2Sim.

Notation T := (estate arr).

(** ** Blocks *)

Definition blk (t : T) (n : Z) : list Z :=
  cell (store t) (dev_id (g_fs t)) (2 * n) ++ cell (store t) (dev_id (g_fs t)) (2 * n + 1).
Definition good_blk (a : arr) (d n : Z) : bool := agood a d (2 * n) && agood a d (2 * n + 1).
(** Block [n] can be read and written, and its sectors have their own numbers. *)
Definition blk_ok (t : T) (n : Z) : Prop :=
  in_w 31 n /\ good_blk (store t) (dev_id (g_fs t)) n = true.
Definition arr_wf (a : arr) : Prop :=
  forall k v, cells a !! k = Some v -> length v = 512%nat /\ Forall byte_ok v.
Definition put_blk (t : T) (n : Z) (v : list Z) : T :=
  Estate (Arr (<[(dev_id (g_fs t), 2 * n + 1) := drop 512 v]>
              (<[(dev_id (g_fs t), 2 * n) := take 512 v]> (cells (store t)))) (agood (store t))) (g_fs t).
(** The state with other file system variables. *)
Definition with_fs (t : T) (f : ext2_fs) : T := Estate (store t) f.
Definition live (t : T) : Prop := arr_wf (store t) /\ mounted (g_fs t) = true.

Lemma cell_wf a d l : arr_wf a -> length (cell a d l) = 512%nat /\ Forall byte_ok (cell a d l).
Proof.
  intros Hw. unfold cell. destruct (cells a !! (d, l)) as [v|] eqn:E; cbn [from_option id]; [by apply (Hw (d, l))|].
  split; [apply length_replicate|]. apply Forall_replicate. unfold byte_ok. lia.
Qed.
Lemma blk_wf t n : arr_wf (store t) -> length (blk t n) = 1024%nat /\ Forall byte_ok (blk t n).
Proof.
  intros Hw. unfold blk. destruct (cell_wf (store t) (dev_id (g_fs t)) (2 * n) Hw),
    (cell_wf (store t) (dev_id (g_fs t)) (2 * n + 1) Hw). split; [rewrite length_app; lia|by apply Forall_app].
Qed.
Lemma blk_length t n : live t -> length (blk t n) = 1024%nat.
Proof. intros [? _]. by apply blk_wf. Qed.
Lemma blk_bytes t n : live t -> Forall byte_ok (blk t n).
Proof. intros [? _]. by apply blk_wf. Qed.

Lemma blk_put t n v m : length v = 1024%nat ->
  blk (put_blk t n v) m = if decide (m = n) then v else blk t m.
Proof.
  intros Hv. unfold blk, put_blk, cell; cbn [store g_fs cells].
  case_decide as E; [subst m|].
  - rewrite lookup_insert_ne, lookup_insert_eq, lookup_insert_eq by (intros [=]; lia). cbn [from_option id]. apply take_drop.
  - by rewrite !lookup_insert_ne by (intros [=]; lia).
Qed.
Lemma blk_with_fs t f n : dev_id f = dev_id (g_fs t) -> blk (with_fs t f) n = blk t n.
Proof. unfold blk. cbn [store g_fs with_fs]. by intros ->. Qed.
Lemma put_blk_wf t n v :
  arr_wf (store t) -> length v = 1024%nat -> Forall byte_ok v -> arr_wf (store (put_blk t n v)).
Proof.
  intros Hw Hl Hb k w. cbn [put_blk store cells]. rewrite !lookup_insert_Some.
  intros [[_ <-]|[_ [[_ <-]|[_ ?]]]]; [| |by apply (Hw k)].
  - split; [rewrite length_drop; lia|by apply Forall_drop].
  - split; [rewrite length_take; lia|by apply Forall_take].
Qed.
Lemma put_blk_live t n v : live t -> length v = 1024%nat -> Forall byte_ok v -> live (put_blk t n v).
Proof. intros [? ?] ? ?. split; [by apply put_blk_wf|done]. Qed.
Lemma put_blk_ok t n v m : blk_ok (put_blk t n v) m <-> blk_ok t m.
Proof. done. Qed.
Lemma with_fs_live t f : live t -> mounted f = true -> live (with_fs t f).
Proof. intros [? _] ?. done. Qed.
Lemma with_fs_ok t f n : dev_id f = dev_id (g_fs t) -> blk_ok (with_fs t f) n <-> blk_ok t n.
Proof. unfold blk_ok. cbn [store g_fs with_fs]. by intros ->. Qed.

Lemma splice_full (a b c : list Z) : length a = 512%nat -> length b = 512%nat -> length c = 1024%nat ->
  (d ← splice 0 a c; splice 512 b d) = Some (a ++ b).
Proof.
  intros Ha Hb Hc. rewrite splice_Some by lia. cbn [mbind option_bind].
  rewrite splice_Some by (rewrite ?length_app, ?length_drop; simpl; lia). f_equal.
  replace (Z.to_nat 512) with (length a) by lia. simpl.
  rewrite take_app_length, Hb. f_equal.
  rewrite drop_app_ge by lia. rewrite drop_drop, drop_ge by lia. by rewrite app_nil_r.
Qed.

Section BlockIO.
Context `{!Stack}.

Lemma u32_2n n : in_w 31 n -> u32 (n * 2) = 2 * n /\ u32 (u32 (n * 2) + 1) = 2 * n + 1.
Proof.
  intros [? ?]. assert (u32 (n * 2) = 2 * n) as E by (unfold u32; rewrite wrap_small; [lia|unfold in_w; lia]).
  split; [done|]. rewrite E. unfold u32. rewrite wrap_small; [done|unfold in_w; lia].
Qed.

Lemma read_block_run t n b : live t -> blk_ok t n -> length b = 1024%nat ->
  ext2_read_block n (Some b) t = Some ((EXT2_OK, blk t n), t).
Proof.
  intros [Hw Hm] [Hn Hg] Hb. apply andb_true_iff in Hg as [H1 H2].
  unfold ext2_read_block, get_fs, mgets, mbind_. rewrite Hm. cbn [negb].
  unfold read_sectors, on_store, mbind_, mlift. destruct (u32_2n n Hn) as [E1 E2].
  rewrite E2. rewrite E1. cbn [ss_read arr_store store]. rewrite H1.
  destruct (cell_wf (store t) (dev_id (g_fs t)) (2 * n) Hw) as [L1 _].
  destruct (cell_wf (store t) (dev_id (g_fs t)) (2 * n + 1) Hw) as [L2 _].
  pose proof (splice_full _ _ b L1 L2 Hb) as Hs. destruct (splice 0 _ b) as [d|]; [|done].
  cbn [mbind option_bind] in Hs. cbn [store g_fs]. rewrite H2, Hs. by destruct t.
Qed.
Lemma fetch_run t n : live t -> blk_ok t n -> fetch n t = Some ((EXT2_OK, blk t n), t).
Proof. intros. apply read_block_run; [done..|apply junk_len]. Qed.

Lemma write_block_run t n v : live t -> blk_ok t n -> (1024 <= length v)%nat ->
  ext2_write_block n (Some v) t = Some (EXT2_OK, put_blk t n (take 1024 v)).
Proof.
  intros [Hw Hm] [Hn Hg] Hv. apply andb_true_iff in Hg as [H1 H2].
  unfold ext2_write_block, get_fs, mgets, mbind_. rewrite Hm. cbn [negb].
  unfold on_store, mlift. destruct (u32_2n n Hn) as [E1 E2].
  rewrite !slice_Some by lia. rewrite E2. rewrite E1. cbn [ss_write arr_store store].
  rewrite H1. cbn [negb store agood]. rewrite H2. cbn [negb mret]. f_equal. f_equal.
  unfold put_blk. cbn [cells agood g_fs store]. change (Z.to_nat 512) with 512%nat.
  rewrite take_take, skipn_firstn_comm. done.
Qed.
Lemma write_blk_run t n v : live t -> blk_ok t n -> length v = 1024%nat ->
  ext2_write_block n (Some v) t = Some (EXT2_OK, put_blk t n v).
Proof. intros. rewrite write_block_run by (done || lia). by rewrite take_ge by lia. Qed.

(** The calls that do not reach the disk. *)
Lemma write_block_unmounted t n v : mounted (g_fs t) = false ->
  ext2_write_block n v t = Some (EXT2_ERR_NOT_MOUNTED, t).
Proof. intros Hm. unfold ext2_write_block, mbind_, get_fs, mgets. by rewrite Hm. Qed.

(** A read of a block with an inaccessible sector fails and changes nothing. *)
Lemma fetch_bad t n : live t -> in_w 31 n -> good_blk (store t) (dev_id (g_fs t)) n = false ->
  exists b, fetch n t = Some ((EXT2_ERR_IO, b), t).
Proof.
  intros [Hw Hm] Hn Hg. unfold fetch, ext2_read_block, get_fs, mgets, mbind_. rewrite Hm. cbn [negb].
  unfold read_sectors, on_store, mbind_, mlift. destruct (u32_2n n Hn) as [E1 E2].
  rewrite E2. rewrite E1. cbn [ss_read arr_store store]. unfold good_blk in Hg. destruct t as [a f]; cbn [store g_fs] in *.
  destruct (agood a (dev_id f) (2 * n)); [|eexists; reflexivity].
  rewrite splice_Some; [|lia|destruct (cell_wf a (dev_id f) (2 * n) Hw) as [-> _]; rewrite junk_len; lia].
  cbn [andb] in Hg. cbn [store g_fs]. rewrite Hg. eexists. reflexivity.
Qed.

(** Ext2 blocks below 2^31: a block that was written is read back exactly, every
    other block is unchanged, and a block one of whose sectors fails is reported as
    EXT2_ERR_IO without any change. *)
Theorem ext2_block_roundtrip (t : T) (n : Z) (v : list Z) (m : Z) :
  live t -> blk_ok t n -> length v = 1024%nat -> Forall byte_ok v -> in_w 31 m ->
  exists t', ext2_write_block n (Some v) t = Some (EXT2_OK, t') /\ live t' /\
    (good_blk (store t) (dev_id (g_fs t)) m = true ->
       fetch m t' = Some ((EXT2_OK, if decide (m = n) then v else blk t m), t')) /\
    (good_blk (store t) (dev_id (g_fs t)) m = false -> exists b, fetch m t' = Some ((EXT2_ERR_IO, b), t')).
Proof.
  intros Ht Hn Hl Hb Hm. exists (put_blk t n v). split; [by apply write_blk_run|].
  assert (live (put_blk t n v)) by by apply put_blk_live. split; [done|]. split; intros Hg.
  - rewrite fetch_run, blk_put by done. done.
  - by apply fetch_bad.
Qed.
End BlockIO.

(** A RAM disk of 64 good blocks on device 0. *)
Definition good64 (d l : Z) : bool := (d =? 0) && (0 <=? l) && (l <? 128).
Definition fs0 : ext2_fs := Fs true 0 (replicate 1024 0) (Some (replicate 1024 0)) 1024 1 32 64 32 1.
Definition disk0 : T := Estate (Arr ∅ good64) fs0.
Lemma disk0_live : live disk0.
Proof. split; [|done]. intros k v. cbn. rewrite lookup_empty. done. Qed.

Lemma ext2_block_roundtrip_witness :
  exists t', @ext2_write_block _ _ 5 (Some (replicate 1024 7)) disk0 = Some (EXT2_OK, t') /\ live t' /\
    (good_blk (store disk0) 0 70 = true ->
       @fetch _ _ junk0 70 t' = Some ((EXT2_OK, blk disk0 70), t')) /\
    (good_blk (store disk0) 0 70 = false -> exists b, @fetch _ _ junk0 70 t' = Some ((EXT2_ERR_IO, b), t')).
Proof.
  apply (@ext2_block_roundtrip junk0 disk0 5 (replicate 1024 7) 70).
  - exact disk0_live.
  - split; [unfold in_w; lia|reflexivity].
  - reflexivity.
  - apply Forall_replicate. unfold byte_ok. lia.
  - unfold in_w; lia.
Defined.

(** ** Stepping through a run *)

Lemma get_fs_run (t : T) : get_fs t = Some (g_fs t, t).
Proof. done. Qed.
Lemma put_fs_run (t : T) f : put_fs f t = Some (tt, with_fs t f).
Proof. done. Qed.
Lemma mlift_run {X A} (o : option A) (a : A) (s : X) : o = Some a -> mlift o s = Some (a, s).
Proof. by intros ->. Qed.

(** Reading [g_fs], assigning it, and a step that is defined by [H]. *)
Ltac fs_step := rewrite (mbind_Some _ _ _ _ _ (get_fs_run _)).
Ltac put_step := rewrite (mbind_Some _ _ _ _ _ (put_fs_run _ _)).
Ltac lift_step H := rewrite (mbind_Some _ _ _ _ _ (mlift_run _ _ _ H)).

(** ** Geometry *)

Definition isz (f : ext2_fs) : Z := s_inode_size (sb f).
Definition table_of (f : ext2_fs) (g : Z) : Z := default 0 (gd32 (gd f) g bg_inode_table).
Definition ino_group (f : ext2_fs) (ino : Z) : Z := (ino - 1) / inodes_per_group f.
Definition ino_index (f : ext2_fs) (ino : Z) : Z := (ino - 1) mod inodes_per_group f.
(** Block and offset of an inode. *)
Definition inode_block (f : ext2_fs) (ino : Z) : Z :=
  table_of f (ino_group f ino) + ino_index f ino * isz f / 1024.
Definition inode_off (f : ext2_fs) (ino : Z) : Z := ino_index f ino * isz f mod 1024.
Definition ino_ok (f : ext2_fs) (ino : Z) : Prop := in_w 32 ino /\ 0 < ino /\ ino_group f ino < num_groups f.
(** Blocks of an inode table. *)
Definition table_len (f : ext2_fs) : Z := (inodes_per_group f * isz f + 1023) / 1024.

(** The geometry the code is written for: 1024-byte blocks, inodes that do not cross a
    block, group descriptors in memory for all groups, one block of them on disk. *)
Record geo (f : ext2_fs) : Prop := {
  geo_bs : block_size f = 1024;
  geo_isz : 128 <= isz f /\ (isz f | 1024);
  geo_ipg : 0 < inodes_per_group f;
  geo_fit : inodes_per_group f * isz f < 2 ^ 32;
  geo_gd : exists g, gd f = Some g /\ Forall byte_ok g /\ GD_SIZE * num_groups f <= Z.of_nat (length g) /\
             1024 <= Z.of_nat (length g);
  geo_sb : length (sb f) = 1024%nat /\ Forall byte_ok (sb f)
}.
Definition tables_disjoint (f : ext2_fs) : Prop :=
  forall g g', 0 <= g < num_groups f -> 0 <= g' < num_groups f -> g <> g' ->
    table_of f g + table_len f <= table_of f g' \/ table_of f g' + table_len f <= table_of f g.

Lemma gd32_Some f g k : geo f -> 0 <= g < num_groups f -> 0 <= k <= 28 ->
  exists v, gd32 (gd f) g k = Some v /\ in_w 32 v.
Proof.
  intros Hf Hg Hk. destruct (geo_gd f Hf) as (l&->&Hb&Hl&_). unfold gd32, get32, get_le, GD_SIZE in *. simpl.
  rewrite slice_Some by lia. simpl. eexists. split; [done|].
  set (b := take _ _). assert (Forall byte_ok b) as Hb' by by apply Forall_take, Forall_drop.
  pose proof (le_dec_bound b Hb') as Hd. unfold in_w. subst b.
  rewrite length_take, length_drop in Hd. by replace (Z.to_nat 4 `min` (length l - Z.to_nat (32 * g + k)))%nat
    with 4%nat in Hd by lia.
Qed.

Lemma inode_off_range f ino : geo f -> 0 <= inode_off f ino /\ inode_off f ino + 128 <= 1024.
Proof.
  intros Hf. destruct (geo_isz f Hf) as [Hi [q Hq]]. unfold inode_off.
  set (k := ino_index f ino). assert (0 <= k) by (apply Z.mod_pos_bound, geo_ipg; done).
  pose proof (Z.mod_pos_bound (k * isz f) 1024 ltac:(lia)). split; [lia|].
  assert (k * isz f mod 1024 = k mod q * isz f) as ->.
  { rewrite Hq. rewrite Zmult_mod_distr_r. done. }
  assert (0 < q) by nia. pose proof (Z.mod_pos_bound k q ltac:(lia)). nia.
Qed.

Section Inodes.
Context `{!Stack}.

Lemma location_run (t : T) ino : geo (g_fs t) -> ino_ok (g_fs t) ino ->
  ext2_inode_location ino t =
    Some (inr (table_of (g_fs t) (ino_group (g_fs t) ino), ino_index (g_fs t) ino * isz (g_fs t) / 1024,
               inode_off (g_fs t) ino), t).
Proof.
  intros Hf (Hw&Hp&Hg). set (f := g_fs t) in *. pose proof (geo_ipg f Hf) as Hipg.
  assert (0 <= ino_index f ino < inodes_per_group f) as Hidx by (apply Z.mod_pos_bound; lia).
  destruct (geo_isz f Hf) as [Hi _]. pose proof (geo_fit f Hf) as Hfit.
  unfold ext2_inode_location, get_fs, mgets, mbind_, cdiv, cmod, mret, mlift. fold f.
  rewrite (proj2 (Z.eqb_neq ino 0)) by lia. unfold u32. rewrite (wrap_small 32 (ino - 1)) by (unfold in_w in *; lia).
  rewrite (proj2 (Z.eqb_neq (inodes_per_group f) 0)) by lia. fold (ino_group f ino) (ino_index f ino).
  rewrite (proj2 (Z.leb_gt _ _)) by lia. fold (isz f).
  rewrite (wrap_small 32) by (unfold in_w; nia).
  assert (0 <= ino_group f ino) by (apply Z.div_pos; lia).
  destruct (gd32_Some f (ino_group f ino) bg_inode_table Hf) as (v&Hv&_); [lia|unfold bg_inode_table; lia|].
  unfold table_of. rewrite Hv, (geo_bs f Hf). done.
Qed.

(** The inode stored at [ino]. *)
Definition inode_at (t : T) (ino : Z) : ext2_inode :=
  default zero_inode (b ← slice (inode_off (g_fs t) ino) 128 (blk t (inode_block (g_fs t) ino)); inode_dec b).
Definition ino_readable (t : T) (ino : Z) : Prop :=
  ino_ok (g_fs t) ino /\ blk_ok t (inode_block (g_fs t) ino).

Lemma inode_at_spec (t : T) ino : live t -> geo (g_fs t) ->
  exists b, slice (inode_off (g_fs t) ino) 128 (blk t (inode_block (g_fs t) ino)) = Some b /\
    inode_dec b = Some (inode_at t ino) /\ inode_ok (inode_at t ino) /\ inode_enc (inode_at t ino) = b.
Proof.
  intros Ht Hf. pose proof (inode_off_range (g_fs t) ino Hf) as Ho. unfold inode_at.
  rewrite slice_Some by (rewrite ?blk_length by done; lia). cbn [mbind option_bind].
  set (b := take _ _). destruct (inode_dec_total b) as (i&Hi&Hok&He).
  - subst b. rewrite length_take, length_drop, blk_length by done. lia.
  - by apply Forall_take, Forall_drop, blk_bytes.
  - exists b. rewrite Hi. done.
Qed.
Lemma inode_at_ok (t : T) ino : live t -> geo (g_fs t) -> inode_ok (inode_at t ino).
Proof. intros Ht Hf. by destruct (inode_at_spec t ino Ht Hf) as (b&?&?&?&?). Qed.

Lemma inode_block_u32 f ino b : in_w 31 (inode_block f ino) ->
  b = u32 (table_of f (ino_group f ino) + ino_index f ino * isz f / 1024) -> b = inode_block f ino.
Proof. intros Hw ->. fold (inode_block f ino). unfold u32. apply wrap_small. unfold in_w in *. lia. Qed.

Lemma read_inode_run (t : T) ino : live t -> geo (g_fs t) -> ino_readable t ino ->
  ext2_read_inode ino t = Some (inr (inode_at t ino), t).
Proof.
  intros Ht Hf [Hi Hb]. unfold ext2_read_inode, get_fs, mgets. unfold mbind_ at 1. rewrite (proj2 Ht). cbn [negb].
  mstep (location_run t ino Hf Hi). cbv beta iota.
  erewrite (inode_block_u32 _ ino (u32 _)); [|apply Hb|reflexivity].
  mstep (fetch_run t _ Ht Hb). cbv beta iota. rewrite decide_False by tauto.
  destruct (inode_at_spec t ino Ht Hf) as (b&Hs&Hd&_). unfold EXT2_INODE_SIZE, mbind_, mlift. rewrite Hs.
  cbn [mbind option_bind]. rewrite Hd. done.
Qed.

(** The inode table block with the inode replaced. *)
Definition put_inode (t : T) (ino : Z) (i : ext2_inode) : T :=
  put_blk t (inode_block (g_fs t) ino)
    (default [] (splice (inode_off (g_fs t) ino) (inode_enc i) (blk t (inode_block (g_fs t) ino)))).

Lemma put_inode_splice (t : T) ino i : live t -> geo (g_fs t) -> inode_ok i ->
  exists b, splice (inode_off (g_fs t) ino) (inode_enc i) (blk t (inode_block (g_fs t) ino)) = Some b /\
    length b = 1024%nat /\ Forall byte_ok b.
Proof.
  intros Ht Hf Hi. pose proof (inode_off_range (g_fs t) ino Hf) as Ho.
  destruct (splice _ (inode_enc i) _) as [b|] eqn:E.
  - exists b. split; [done|]. split; [rewrite (splice_length _ _ _ _ E); by apply blk_length|].
    eapply splice_bytes; [exact E|apply inode_enc_bytes|by apply blk_bytes].
  - rewrite splice_Some in E; [done|lia|]. rewrite inode_enc_length, blk_length by done. lia.
Qed.
Lemma write_inode_run (t : T) ino i : live t -> geo (g_fs t) -> ino_readable t ino -> inode_ok i ->
  ext2_write_inode ino i t = Some (EXT2_OK, put_inode t ino i) /\ live (put_inode t ino i).
Proof.
  intros Ht Hf [Hi Hb] Hok. destruct (put_inode_splice t ino i Ht Hf Hok) as (b&Hs&Hl&Hbb).
  unfold put_inode. rewrite Hs. cbn [from_option id]. split; [|by apply put_blk_live].
  unfold ext2_write_inode, get_fs, mgets. unfold mbind_ at 1. rewrite (proj2 Ht). cbn [negb].
  mstep (location_run t ino Hf Hi). cbv beta iota.
  erewrite (inode_block_u32 _ ino (u32 _)); [|apply Hb|reflexivity].
  mstep (fetch_run t _ Ht Hb). cbv beta iota. rewrite decide_False by tauto.
  unfold mbind_, mlift. rewrite Hs. by apply write_blk_run.
Qed.

Definition inode_apart (f : ext2_fs) (ino ino' : Z) : Prop :=
  inode_block f ino <> inode_block f ino' \/ inode_off f ino + 128 <= inode_off f ino' \/
  inode_off f ino' + 128 <= inode_off f ino.

Lemma inode_at_put (t : T) ino i ino' : live t -> geo (g_fs t) -> inode_ok i ->
  ino' = ino \/ inode_apart (g_fs t) ino ino' ->
  inode_at (put_inode t ino i) ino' = if decide (ino' = ino) then i else inode_at t ino'.
Proof.
  intros Ht Hf Hok Ha. destruct (put_inode_splice t ino i Ht Hf Hok) as (b&Hs&Hl&_).
  unfold inode_at, put_inode. cbn [put_blk g_fs]. rewrite Hs. cbn [from_option id]. fold (put_blk t (inode_block (g_fs t) ino) b).
  rewrite blk_put by done. pose proof (inode_enc_length i Hok) as Hel.
  destruct (decide (ino' = ino)) as [->|E].
  - rewrite decide_True by done. pose proof (slice_splice_eq _ _ _ _ Hs) as He. rewrite Hel in He.
    change (Z.of_nat 128) with 128 in He. rewrite He. cbn [mbind option_bind]. by rewrite inode_dec_enc.
  - case_decide as Eb; [|done]. rewrite (slice_splice_ne _ _ _ _ _ _ Hs); [by rewrite Eb|].
    rewrite Hel. destruct Ha as [?|[?|[?|?]]]; [done|congruence|lia..].
Qed.
Lemma blk_put_inode (t : T) ino i n : live t -> geo (g_fs t) -> inode_ok i -> n <> inode_block (g_fs t) ino ->
  blk (put_inode t ino i) n = blk t n.
Proof.
  intros Ht Hf Hok Hn. destruct (put_inode_splice t ino i Ht Hf Hok) as (b&Hs&Hl&_).
  unfold put_inode. rewrite Hs. cbn [from_option id]. rewrite blk_put by done. by rewrite decide_False.
Qed.
End Inodes.

(** Two inodes never share bytes of the inode tables. *)
Lemma inode_block_in_table f ino : geo f -> 0 < ino ->
  table_of f (ino_group f ino) <= inode_block f ino < table_of f (ino_group f ino) + table_len f.
Proof.
  intros Hf Hp. destruct (geo_isz f Hf) as [Hi _]. pose proof (geo_ipg f Hf) as Hipg.
  unfold inode_block, table_len. assert (0 <= ino_index f ino < inodes_per_group f) as Hk by (apply Z.mod_pos_bound; lia).
  split; [|].
  - assert (0 <= ino_index f ino * isz f / 1024) by (apply Z.div_pos; nia). lia.
  - assert (ino_index f ino * isz f / 1024 < (inodes_per_group f * isz f + 1023) / 1024); [|lia].
    apply Z.div_lt_upper_bound; [lia|].
    pose proof (Z.div_mod (inodes_per_group f * isz f + 1023) 1024).
    pose proof (Z.mod_pos_bound (inodes_per_group f * isz f + 1023) 1024). nia.
Qed.
Lemma inode_apart_lt f ino ino' : geo f -> ino_group f ino = ino_group f ino' ->
  ino_index f ino < ino_index f ino' -> inode_apart f ino ino'.
Proof.
  intros Hf Hg Hk. destruct (geo_isz f Hf) as [Hi _]. unfold inode_apart, inode_block, inode_off. rewrite Hg.
  set (a := ino_index f ino * isz f). set (b := ino_index f ino' * isz f).
  assert (a + 128 <= b) by nia. destruct (decide (a / 1024 = b / 1024)) as [E|]; [|left; lia].
  right; left. pose proof (Z.div_mod a 1024). pose proof (Z.div_mod b 1024). lia.
Qed.
Lemma inode_apart_ne f ino ino' : geo f -> tables_disjoint f -> ino_ok f ino -> ino_ok f ino' ->
  ino <> ino' -> inode_apart f ino ino'.
Proof.
  intros Hf Hd (_&Hp&Hg) (_&Hp'&Hg') Hne. pose proof (geo_ipg f Hf) as Hipg.
  destruct (decide (ino_group f ino = ino_group f ino')) as [E|Eg].
  - assert (ino_index f ino <> ino_index f ino') as Hk.
    { intros Ek. apply Hne. unfold ino_group, ino_index in *.
      pose proof (Z.div_mod (ino - 1) (inodes_per_group f)).
      pose proof (Z.div_mod (ino' - 1) (inodes_per_group f)). lia. }
    destruct (decide (ino_index f ino < ino_index f ino')); [by apply inode_apart_lt|].
    destruct (inode_apart_lt f ino' ino) as [?|[?|?]]; [done|done|lia|..]; unfold inode_apart; auto with lia.
  - left. assert (0 <= ino_group f ino) by (apply Z.div_pos; lia). assert (0 <= ino_group f ino') by (apply Z.div_pos; lia).
    pose proof (inode_block_in_table f ino Hf Hp). pose proof (inode_block_in_table f ino' Hf Hp').
    destruct (Hd (ino_group f ino) (ino_group f ino')); lia.
Qed.

(** An inode that is written is read back field for field; every other inode of the
    file system and every block outside its table block is unchanged. *)
Theorem ext2_inode_roundtrip `{!Stack} (t : T) (ino ino' : Z) (i : ext2_inode) :
  live t -> geo (g_fs t) -> tables_disjoint (g_fs t) -> ino_readable t ino -> ino_readable t ino' -> inode_ok i ->
  exists t', ext2_write_inode ino i t = Some (EXT2_OK, t') /\ live t' /\ g_fs t' = g_fs t /\
    ext2_read_inode ino' t' = Some (inr (if decide (ino' = ino) then i else inode_at t ino'), t') /\
    ext2_read_inode ino' t = Some (inr (inode_at t ino'), t) /\
    forall n, n <> inode_block (g_fs t) ino -> blk t' n = blk t n.
Proof.
  intros Ht Hf Hd Hi Hi' Hok. destruct (write_inode_run t ino i Ht Hf Hi Hok) as [Hr Hl].
  exists (put_inode t ino i). split_and!; [done..| | |].
  - rewrite read_inode_run by done. rewrite inode_at_put; [done..|].
    destruct (decide (ino' = ino)) as [->|]; [by left|right]. apply inode_apart_ne; [done|done|apply Hi|apply Hi'|done].
  - by apply read_inode_run.
  - intros n Hn. by apply blk_put_inode.
Qed.

(** A 64-block image with the layout of ext2.h: bitmaps in blocks 3 and 4, the inode
    table in blocks 5 to 8. *)
Definition gd1 : list Z := enc_fields [4; 4; 4; 2; 2; 2]%nat [3; 4; 5; 51; 24; 1] ++ replicate 1006 0.
Definition sb1 : list Z :=
  enc_fields [4; 4; 4; 4; 4; 4; 4; 4; 4; 4; 4; 4; 4; 2; 2; 2]%nat [32; 64; 0; 51; 24; 1; 0; 0; 64; 64; 32; 0; 0; 0; 0; 0xEF53] ++
  replicate 30 0 ++ le_enc 2 128 ++ replicate 934 0.
Definition fs1 : ext2_fs := Fs true 0 sb1 (Some gd1) 1024 1 32 64 32 1.
Definition disk1 : T := Estate (Arr ∅ good64) fs1.
Lemma disk1_live : live disk1.
Proof. split; [|done]. intros k v. cbn. rewrite lookup_empty. done. Qed.
Lemma fs1_geo : geo fs1.
Proof.
  split; [done| |done|done| |].
  - split; [by vm_compute|]. exists 8. reflexivity.
  - exists gd1. split; [done|]. split; [|split; by vm_compute].
    apply Forall_app. split; [apply enc_fields_bytes|]. apply Forall_replicate. unfold byte_ok. lia.
  - split; [by vm_compute|]. unfold fs1, sb1; cbn [sb]. assert (forall n, Forall byte_ok (replicate n 0)) as Hz.
    { intros. apply Forall_replicate. unfold byte_ok. lia. }
    apply Forall_app_2; [apply enc_fields_bytes|]. apply Forall_app_2; [apply Hz|].
    apply Forall_app_2; [apply le_enc_bytes|apply Hz].
Qed.
Lemma fs1_disjoint : tables_disjoint fs1.
Proof. intros g g' Hg Hg'. cbn in Hg, Hg'. lia. Qed.
Lemma disk1_readable ino : 0 < ino < 33 -> ino_readable disk1 ino.
Proof.
  intros Hi. split; [split; [unfold in_w; lia|split; [lia|]]|].
  - unfold ino_group. change (inodes_per_group (g_fs disk1)) with 32. change (num_groups (g_fs disk1)) with 1.
    apply Z.div_lt_upper_bound; lia.
  - assert (5 <= inode_block fs1 ino < 9) as Hb.
    { pose proof (inode_block_in_table fs1 ino fs1_geo ltac:(lia)) as Hb. unfold ino_group in Hb.
      change (inodes_per_group fs1) with 32 in Hb. rewrite (Z.div_small (ino - 1)) in Hb by lia. by vm_compute (table_of fs1 0) in Hb. }
    unfold blk_ok, good_blk, disk1, good64. cbn [store g_fs agood]. change (dev_id fs1) with 0. unfold in_w.
    rewrite !(proj2 (Z.leb_le _ _)), !(proj2 (Z.ltb_lt _ _)) by lia. split; [lia|done].
Qed.
Definition inode1 : ext2_inode := set_i_size (set_i_mode zero_inode 0x81A4) 77.
Lemma inode1_ok : inode_ok inode1.
Proof. split_and!; [done..|]. repeat constructor; done. Qed.
Lemma ext2_inode_roundtrip_witness :
  exists t', @ext2_write_inode _ _ junk0 12 inode1 disk1 = Some (EXT2_OK, t') /\ live t' /\ g_fs t' = g_fs disk1 /\
    @ext2_read_inode _ _ junk0 13 t' = Some (inr (inode_at disk1 13), t') /\
    @ext2_read_inode _ _ junk0 13 disk1 = Some (inr (inode_at disk1 13), disk1) /\
    forall n, n <> inode_block (g_fs disk1) 12 -> blk t' n = blk disk1 n.
Proof.
  apply (@ext2_inode_roundtrip junk0 disk1 12 13 inode1).
  - exact disk1_live.
  - exact fs1_geo.
  - exact fs1_disjoint.
  - apply disk1_readable. lia.
  - apply disk1_readable. lia.
  - exact inode1_ok.
Defined.
