(* ===== verification/Ext2Alloc.v ===== *)
(** * ext2: correctness of the block and inode allocators

    Exact descriptions of [ext2_update_counts], of the group scan behind
    [ext2_alloc_block] and [ext2_alloc_inode], and of [ext2_free_block] and
    [ext2_free_inode], on an array of sectors. *)

From stdpp Require Import base numbers gmap list options.
From S2P Require Import Prelude BlockDev Bcache Ext2Data Ext2 Ext2File Ext2Dir Ext2Sim Ext2Spec.

(** ** Free counts *)

Definition gd_add (g : list Z) (grp field d : Z) : list Z :=
  default g (put16 (GD_SIZE * grp + field) (u16 (fld 2 (GD_SIZE * grp + field) g + d)) g).
Definition counts_gd (g : list Z) (grp db di : Z) : list Z :=
  gd_add (gd_add g grp bg_free_blocks_count db) grp bg_free_inodes_count di.
Definition sb_add (b : list Z) (off d : Z) : list Z := default b (put32 off (u32 (fld 4 off b + d)) b).
Definition counts_sb (b : list Z) (db di : Z) : list Z := sb_add (sb_add b 12 db) 16 di.
Definition gd_bytes (f : ext2_fs) : list Z := default [] (gd f).
(** [g_fs] after the counts of group [grp] changed by [db] blocks and [di] inodes. *)
Definition counts_fs (f : ext2_fs) (grp db di : Z) : ext2_fs :=
  set_sb (set_gd f (Some (counts_gd (gd_bytes f) grp db di))) (counts_sb (sb f) db di).

Lemma fld_Some n off l : 0 <= off -> 0 <= n -> off + n <= Z.of_nat (length l) -> get_le n off l = Some (fld n off l).
Proof. intros. unfold fld. destruct (get_le_Some n off l) as [v ->]; done. Qed.

Lemma gd_add_put g grp field d : 0 <= grp -> 0 <= field -> GD_SIZE * grp + field + 2 <= Z.of_nat (length g) ->
  put16 (GD_SIZE * grp + field) (u16 (fld 2 (GD_SIZE * grp + field) g + d)) g = Some (gd_add g grp field d).
Proof.
  intros. unfold gd_add, put16. unfold GD_SIZE in *.
  destruct (put_le_Some 2 (32 * grp + field) (u16 (fld 2 (32 * grp + field) g + d)) g) as [l' E]; [lia..|].
  by rewrite E.
Qed.
Lemma gd_add_length g grp field d : length (gd_add g grp field d) = length g.
Proof. unfold gd_add, put16. destruct (put_le _ _ _ _) as [l|] eqn:E; simpl; [by eapply put_le_length|done]. Qed.
Lemma gd_add_bytes g grp field d : Forall byte_ok g -> Forall byte_ok (gd_add g grp field d).
Proof. intros. unfold gd_add, put16. destruct (put_le _ _ _ _) as [l|] eqn:E; simpl; [by eapply put_le_bytes|done]. Qed.
(** Fields elsewhere keep their value. *)
Lemma gd_add_ne g grp field d n o : o + n <= GD_SIZE * grp + field \/ GD_SIZE * grp + field + 2 <= o ->
  get_le n o (gd_add g grp field d) = get_le n o g.
Proof.
  intros Ho. unfold gd_add, put16. destruct (put_le _ _ _ _) as [l|] eqn:E; simpl; [|done].
  eapply get_put_le_ne; [done|lia|lia].
Qed.
Lemma gd_add_eq g grp field d : 0 <= grp -> 0 <= field -> GD_SIZE * grp + field + 2 <= Z.of_nat (length g) ->
  fld 2 (GD_SIZE * grp + field) (gd_add g grp field d) = u16 (fld 2 (GD_SIZE * grp + field) g + d).
Proof.
  intros H1 H2 H3. pose proof (gd_add_put g grp field d H1 H2 H3) as E. unfold fld at 1.
  rewrite (get_put_le_eq _ _ _ _ _ E); [done|lia|]. pose proof (wrap_range 16 (fld 2 (GD_SIZE * grp + field) g + d)) as Hr.
  unfold u16, in_w in *. change (256 ^ 2) with (2 ^ 16). lia.
Qed.
(** Adding [d] and then [-d] restores the array. *)
Lemma gd_add_undo g grp field d : 0 <= grp -> 0 <= field -> GD_SIZE * grp + field + 2 <= Z.of_nat (length g) ->
  Forall byte_ok g -> gd_add (gd_add g grp field d) grp field (- d) = g.
Proof.
  intros H1 H2 H3 Hb. pose proof (gd_add_put g grp field d H1 H2 H3) as E.
  unfold gd_add at 1. rewrite gd_add_eq by done. unfold put16 in *. rewrite (put_put_le _ _ _ _ _ _ E).
  pose proof (fld_Some 2 (GD_SIZE * grp + field) g ltac:(unfold GD_SIZE in *; lia) ltac:(lia) ltac:(lia)) as Eg.
  pose proof (get_le_bound _ _ _ _ Hb Eg) as Hv. change (256 ^ 2) with (2 ^ 16) in Hv.
  unfold u16. rewrite wrap_add_wrap_l by lia.
  replace (_ + d + - d) with (fld 2 (GD_SIZE * grp + field) g) by lia.
  rewrite wrap_small by exact Hv. by rewrite (put_get_le 2 _ _ _ Hb ltac:(lia) Eg).
Qed.
Lemma gd_add_0 g grp field : 0 <= grp -> 0 <= field -> GD_SIZE * grp + field + 2 <= Z.of_nat (length g) ->
  Forall byte_ok g -> gd_add g grp field 0 = g.
Proof.
  intros H1 H2 H3 Hb.
  pose proof (fld_Some 2 (GD_SIZE * grp + field) g ltac:(unfold GD_SIZE in *; lia) ltac:(lia) ltac:(lia)) as Eg.
  pose proof (get_le_bound _ _ _ _ Hb Eg) as Hv. change (256 ^ 2) with (2 ^ 16) in Hv. unfold gd_add, put16, u16.
  rewrite Z.add_0_r, wrap_small by exact Hv. by rewrite (put_get_le 2 _ _ _ Hb ltac:(lia) Eg).
Qed.

Lemma sb_add_put b off d : 0 <= off -> off + 4 <= Z.of_nat (length b) ->
  put32 off (u32 (fld 4 off b + d)) b = Some (sb_add b off d).
Proof. intros. unfold sb_add, put32. destruct (put_le_Some 4 off (u32 (fld 4 off b + d)) b) as [l' E]; [lia..|]. by rewrite E. Qed.
Lemma sb_add_length b off d : length (sb_add b off d) = length b.
Proof. unfold sb_add, put32. destruct (put_le _ _ _ _) as [l|] eqn:E; simpl; [by eapply put_le_length|done]. Qed.
Lemma sb_add_bytes b off d : Forall byte_ok b -> Forall byte_ok (sb_add b off d).
Proof. intros. unfold sb_add, put32. destruct (put_le _ _ _ _) as [l|] eqn:E; simpl; [by eapply put_le_bytes|done]. Qed.
Lemma sb_add_ne b off d n o : o + n <= off \/ off + 4 <= o -> fld n o (sb_add b off d) = fld n o b.
Proof.
  intros Ho. unfold fld, sb_add, put32. destruct (put_le _ _ _ _) as [l|] eqn:E; simpl; [|done].
  f_equal. eapply get_put_le_ne; [done|lia|lia].
Qed.
Lemma sb_add_undo b off d : 0 <= off -> off + 4 <= Z.of_nat (length b) -> Forall byte_ok b ->
  sb_add (sb_add b off d) off (- d) = b.
Proof.
  intros H1 H2 Hb. pose proof (sb_add_put b off d H1 H2) as E. pose proof (fld_Some 4 off b H1 ltac:(lia) H2) as Eg.
  pose proof (get_le_bound _ _ _ _ Hb Eg) as Hv. change (256 ^ 4) with (2 ^ 32) in Hv.
  unfold sb_add at 1. unfold fld at 1. unfold put32 in *.
  assert (get_le 4 off (sb_add b off d) = Some (u32 (fld 4 off b + d))) as ->.
  { eapply get_put_le_eq; [exact E|lia|]. pose proof (wrap_range 32 (fld 4 off b + d)) as Hr.
    unfold u32, in_w in *. change (256 ^ 4) with (2 ^ 32). lia. }
  cbn [from_option id]. rewrite (put_put_le _ _ _ _ _ _ E). unfold u32. rewrite wrap_add_wrap_l by lia.
  replace (_ + d + - d) with (fld 4 off b) by lia. rewrite wrap_small by exact Hv.
  by rewrite (put_get_le 4 _ _ _ Hb ltac:(lia) Eg).
Qed.
Lemma sb_add_0 b off : 0 <= off -> off + 4 <= Z.of_nat (length b) -> Forall byte_ok b -> sb_add b off 0 = b.
Proof.
  intros H1 H2 Hb. pose proof (fld_Some 4 off b H1 ltac:(lia) H2) as Eg.
  pose proof (get_le_bound _ _ _ _ Hb Eg) as Hv. change (256 ^ 4) with (2 ^ 32) in Hv. unfold sb_add, put32, u32.
  rewrite Z.add_0_r, wrap_small by exact Hv. by rewrite (put_get_le 4 _ _ _ Hb ltac:(lia) Eg).
Qed.

(** The variables and the descriptor fields that locate things on the disk. *)
Record same_layout (f f' : ext2_fs) : Prop := {
  sl_mounted : mounted f' = mounted f;
  sl_dev : dev_id f' = dev_id f;
  sl_bs : block_size f' = block_size f;
  sl_groups : num_groups f' = num_groups f;
  sl_ipg : inodes_per_group f' = inodes_per_group f;
  sl_bpg : blocks_per_group f' = blocks_per_group f;
  sl_isz : isz f' = isz f;
  sl_gd : forall g k, 0 <= g -> k = bg_block_bitmap \/ k = bg_inode_bitmap \/ k = bg_inode_table ->
            gd32 (gd f') g k = gd32 (gd f) g k
}.
#[global] Instance same_layout_preorder : PreOrder same_layout.
Proof.
  split; [by intros f; split|]. intros f g h [] []. split; try congruence.
  intros g' k Hg Hk. by rewrite sl_gd1, sl_gd0.
Qed.

Lemma counts_gd_bytes g grp db di : Forall byte_ok g -> Forall byte_ok (counts_gd g grp db di).
Proof. intros. by apply gd_add_bytes, gd_add_bytes. Qed.
Lemma counts_gd_length g grp db di : length (counts_gd g grp db di) = length g.
Proof. unfold counts_gd. by rewrite !gd_add_length. Qed.

Lemma counts_layout f grp db di : geo f -> 0 <= grp < num_groups f -> same_layout f (counts_fs f grp db di).
Proof.
  intros Hf Hg. destruct (geo_gd f Hf) as (g&Eg&_). split; try done.
  - unfold isz, counts_fs, counts_sb, s_inode_size. cbn [sb set_sb]. by rewrite !sb_add_ne by lia.
  - intros g' k Hg' Hk. unfold counts_fs, counts_gd, gd_bytes, gd32, get32. cbn [gd set_sb set_gd]. rewrite Eg.
    cbn [from_option id mbind option_bind]. unfold bg_block_bitmap, bg_inode_bitmap, bg_inode_table, bg_free_blocks_count, bg_free_inodes_count in *.
    rewrite !gd_add_ne; [done|unfold GD_SIZE; lia..].
Qed.
Lemma counts_geo f grp db di : geo f -> 0 <= grp < num_groups f -> geo (counts_fs f grp db di).
Proof.
  intros Hf Hg. pose proof (counts_layout f grp db di Hf Hg) as Hl. destruct Hf as [H1 H2 H3 H4 (g&Eg&Hb&Hl1&Hl2) [H5 H6]].
  split; rewrite ?(sl_bs _ _ Hl), ?(sl_isz _ _ Hl), ?(sl_ipg _ _ Hl), ?(sl_groups _ _ Hl); try done.
  - unfold counts_fs, gd_bytes. cbn [gd set_sb set_gd]. rewrite Eg. cbn [from_option id]. eexists. split; [done|].
    split; [by apply counts_gd_bytes|]. by rewrite counts_gd_length.
  - unfold counts_fs, counts_sb. cbn [sb set_sb]. rewrite !sb_add_length. split; [done|]. by apply sb_add_bytes, sb_add_bytes.
Qed.
(** An allocation followed by the matching release. *)
Lemma counts_undo f grp db di : geo f -> 0 <= grp < num_groups f -> db = 0 \/ di = 0 ->
  counts_fs (counts_fs f grp db di) grp (- db) (- di) = f.
Proof.
  intros Hf Hg Hd. destruct (geo_gd f Hf) as (g&Eg&Hb&Hl&_), (geo_sb f Hf) as [Hs Hsb].
  assert (forall k, 0 <= k <= 14 -> GD_SIZE * grp + k + 2 <= Z.of_nat (length g)) as Hk by (unfold GD_SIZE in *; lia).
  unfold counts_fs, gd_bytes. cbn [gd sb set_sb set_gd]. rewrite Eg. cbn [from_option id].
  assert (counts_gd (counts_gd g grp db di) grp (- db) (- di) = g) as ->.
  { unfold counts_gd, bg_free_blocks_count, bg_free_inodes_count.
    destruct Hd as [-> | ->]; change (- 0) with 0; rewrite !(gd_add_0 _ grp) by (rewrite ?gd_add_length; auto using gd_add_bytes with lia);
      apply gd_add_undo; auto with lia. }
  assert (counts_sb (counts_sb (sb f) db di) (- db) (- di) = sb f) as ->.
  { unfold counts_sb. destruct Hd as [-> | ->]; change (- 0) with 0; rewrite !sb_add_0 by (rewrite ?sb_add_length; auto using sb_add_bytes with lia);
      apply sb_add_undo; auto with lia. }
  destruct f; cbn in Eg |- *. by rewrite Eg.
Qed.

Section Alloc.
Context `{!Stack}.

(** The state after [ext2_update_counts]: both copies are written, descriptors first. *)
Definition counts_state (t : T) (grp db di : Z) : T :=
  let f := counts_fs (g_fs t) grp db di in
  let t1 := with_fs t (set_gd (g_fs t) (gd f)) in
  put_blk (with_fs (put_blk t1 2 (take 1024 (gd_bytes f))) f) 1 (sb f).

Lemma counts_blocks f grp db di : geo f ->
  let f' := counts_fs f grp db di in
  length (take 1024 (gd_bytes f')) = 1024%nat /\ Forall byte_ok (take 1024 (gd_bytes f')) /\
  length (sb f') = 1024%nat /\ Forall byte_ok (sb f').
Proof.
  intros Hf f'. destruct (geo_gd _ Hf) as (g&Eg&Hb&Hl&Hl2), (geo_sb _ Hf) as [Hs Hsb].
  unfold f', counts_fs, counts_sb, gd_bytes. cbn [gd sb set_sb set_gd]. rewrite Eg. cbn [from_option id].
  rewrite length_take, counts_gd_length, !sb_add_length. split_and!; [lia| |done|].
  - by apply Forall_take, counts_gd_bytes.
  - by apply sb_add_bytes, sb_add_bytes.
Qed.
Lemma counts_live (t : T) grp db di : live t -> geo (g_fs t) ->
  live (with_fs t (set_gd (g_fs t) (gd (counts_fs (g_fs t) grp db di)))) /\ live (counts_state t grp db di).
Proof.
  intros Ht Hf. destruct (counts_blocks _ grp db di Hf) as (?&?&?&?). split; [apply with_fs_live; [done|apply Ht]|].
  unfold counts_state. apply put_blk_live; [|done..]. apply with_fs_live; [|apply Ht].
  apply put_blk_live; [|done..]. apply with_fs_live; [done|apply Ht].
Qed.

Lemma update_counts_eq (t : T) grp db di :
  live t -> geo (g_fs t) -> 0 <= grp < num_groups (g_fs t) -> blk_ok t 1 -> blk_ok t 2 ->
  ext2_update_counts grp db di t = Some (EXT2_OK, counts_state t grp db di).
Proof.
  intros Ht Hf Hg H1 H2. destruct (geo_gd _ Hf) as (g&Eg&Hb&Hl&Hl2), (geo_sb _ Hf) as [Hs Hsb].
  assert (forall k, 0 <= k <= 14 -> GD_SIZE * grp + k + 2 <= Z.of_nat (length g)) as Hk by (unfold GD_SIZE in *; lia).
  assert (forall x k, 0 <= k <= 14 -> length x = length g -> get16 (GD_SIZE * grp + k) x = Some (fld 2 (GD_SIZE * grp + k) x)) as Hget.
  { intros x k ? Hx. apply fld_Some; [unfold GD_SIZE; lia|lia|rewrite Hx; auto]. }
  destruct (counts_live t grp db di Ht Hf) as [Ht1 _]. destruct (counts_blocks _ grp db di Hf) as (?&?&?&?).
  unfold ext2_update_counts, gd16, gd_put16. fs_step. rewrite Eg. cbn [mbind option_bind].
  unfold bg_free_blocks_count, bg_free_inodes_count in *.
  lift_step (Hget g 12 ltac:(lia) eq_refl).
  lift_step (gd_add_put g grp 12 db ltac:(lia) ltac:(lia) ltac:(auto with lia)).
  lift_step (Hget _ 14 ltac:(lia) (gd_add_length g grp 12 db)).
  lift_step (gd_add_put (gd_add g grp 12 db) grp 14 di ltac:(lia) ltac:(lia) ltac:(rewrite gd_add_length; auto with lia)).
  put_step. assert (gd (counts_fs (g_fs t) grp db di) = Some (gd_add (gd_add g grp 12 db) grp 14 di)) as Ec.
  { unfold counts_fs, gd_bytes. cbn [gd set_sb set_gd]. by rewrite Eg. }
  rewrite Ec in Ht1. set (g2 := gd_add (gd_add g grp 12 db) grp 14 di) in *.
  rewrite (mbind_Some _ _ _ _ _ (write_block_run _ 2 g2 Ht1 H2 ltac:(unfold g2; rewrite !gd_add_length; lia))).
  rewrite decide_False by tauto. fs_step. cbn [g_fs put_blk with_fs sb set_gd]. rewrite u32_i32.
  unfold s_free_blocks_count, s_free_inodes_count. lift_step (sb_add_put (sb (g_fs t)) 12 db ltac:(lia) ltac:(lia)).
  rewrite u32_i32. lift_step (sb_add_put (sb_add (sb (g_fs t)) 12 db) 16 di ltac:(lia) ltac:(rewrite sb_add_length; lia)).
  put_step. unfold counts_state, gd_bytes. rewrite Ec. cbn [from_option id].
  assert (set_sb (set_gd (g_fs t) (Some g2)) (sb_add (sb_add (sb (g_fs t)) 12 db) 16 di) = counts_fs (g_fs t) grp db di) as ->.
  { unfold counts_fs, gd_bytes. by rewrite Eg. }
  apply write_blk_run; [|done|done]. apply with_fs_live; [|apply Ht]. apply put_blk_live; [done|..].
  - unfold g2. rewrite length_take, !gd_add_length. lia.
  - by apply Forall_take, gd_add_bytes, gd_add_bytes.
Qed.

Lemma update_counts_run (t : T) grp db di :
  live t -> geo (g_fs t) -> 0 <= grp < num_groups (g_fs t) -> blk_ok t 1 -> blk_ok t 2 ->
  exists t', ext2_update_counts grp db di t = Some (EXT2_OK, t') /\ live t' /\
    g_fs t' = counts_fs (g_fs t) grp db di /\ (forall n, blk_ok t' n <-> blk_ok t n) /\
    forall n, blk t' n = if decide (n = 1) then sb (g_fs t') else
                         if decide (n = 2) then take 1024 (gd_bytes (g_fs t')) else blk t n.
Proof.
  intros Ht Hf Hg H1 H2. destruct (counts_blocks _ grp db di Hf) as (?&?&?&?). exists (counts_state t grp db di).
  split; [by apply update_counts_eq|]. split; [by apply counts_live|]. split; [done|]. split; [done|].
  intros n. unfold counts_state. rewrite blk_put by done. case_decide; [done|].
  rewrite blk_with_fs, blk_put by done. case_decide; [done|]. by rewrite blk_with_fs.
Qed.

(** ** Bitmaps on disk *)

Definition bm_of (f : ext2_fs) (field g : Z) : Z := default 0 (gd32 (gd f) g field).
(** Resource [i] (a block number, or an inode number minus 1) is in use. *)
Definition used (t : T) (field per i : Z) : bool := bit_used (blk t (bm_of (g_fs t) field (i / per))) (i mod per).

(** The bitmaps of [per] bits at [field] are readable blocks, one per group, that are
    not the superblock and not the descriptor block. *)
Record bm_geo (t : T) (field per : Z) : Prop := {
  bm_field : field = bg_block_bitmap \/ field = bg_inode_bitmap;
  bm_per : 0 < per <= 8192;
  bm_total : num_groups (g_fs t) * per < 2 ^ 31 - 1;
  bm_ok : forall g, 0 <= g < num_groups (g_fs t) -> blk_ok t (bm_of (g_fs t) field g);
  bm_meta : forall g, 0 <= g < num_groups (g_fs t) -> bm_of (g_fs t) field g <> 1 /\ bm_of (g_fs t) field g <> 2;
  bm_inj : forall g g', 0 <= g < num_groups (g_fs t) -> 0 <= g' < num_groups (g_fs t) ->
             bm_of (g_fs t) field g = bm_of (g_fs t) field g' -> g = g';
  bm_sb : blk_ok t 1 /\ blk_ok t 2
}.

(** [t'] is [t] with resource [i] marked [x], the counts of its group changed, and both
    copies of the counts written. *)
Record flipped (t : T) (field per i : Z) (x : bool) (db di : Z) (t' : T) : Prop := {
  fl_live : live t';
  fl_fs : g_fs t' = counts_fs (g_fs t) (i / per) db di;
  fl_ok : forall n, blk_ok t' n <-> blk_ok t n;
  fl_bits : forall j, 0 <= j -> bit_used (blk t' (bm_of (g_fs t) field (i / per))) j =
              if decide (j = i mod per) then x else bit_used (blk t (bm_of (g_fs t) field (i / per))) j;
  fl_frame : forall n, n <> 1 -> n <> 2 -> n <> bm_of (g_fs t) field (i / per) -> blk t' n = blk t n;
  fl_meta : blk t' 1 = sb (g_fs t') /\ blk t' 2 = take 1024 (gd_bytes (g_fs t'))
}.

Lemma bm_of_Some (t : T) field per g : geo (g_fs t) -> bm_geo t field per -> 0 <= g < num_groups (g_fs t) ->
  gd32 (gd (g_fs t)) g field = Some (bm_of (g_fs t) field g).
Proof.
  intros Hf Hb Hg. unfold bm_of. destruct (gd32_Some (g_fs t) g field Hf Hg) as (v&->&_); [|done].
  destruct (bm_field _ _ _ Hb) as [E|E]; subst field; unfold bg_block_bitmap, bg_inode_bitmap; lia.
Qed.

Lemma idx_split per g b : 0 <= b < per -> (g * per + b) / per = g /\ (g * per + b) mod per = b.
Proof.
  intros. split; [rewrite Z.div_add_l, Z.div_small; lia|]. rewrite Z.add_comm, Z_mod_plus_full. by apply Z.mod_small.
Qed.

(** Writing the changed bitmap and the counts. *)
Lemma flip_run (t : T) field per g b x db di bm' :
  live t -> geo (g_fs t) -> bm_geo t field per -> 0 <= g < num_groups (g_fs t) -> 0 <= b < per ->
  length bm' = 1024%nat -> Forall byte_ok bm' ->
  (forall j, 0 <= j -> bit_used bm' j = if decide (j = b) then x else bit_used (blk t (bm_of (g_fs t) field g)) j) ->
  exists t1 t', ext2_write_block (bm_of (g_fs t) field g) (Some bm') t = Some (EXT2_OK, t1) /\
    ext2_update_counts g db di t1 = Some (EXT2_OK, t') /\ flipped t field per (g * per + b) x db di t'.
Proof.
  intros Ht Hf Hb Hg Hbit Hl Hby Hj. pose proof (bm_ok _ _ _ Hb g Hg) as Hok. destruct (bm_meta _ _ _ Hb g Hg) as [Hn1 Hn2].
  set (t1 := put_blk t (bm_of (g_fs t) field g) bm'). assert (live t1) as Ht1 by by apply put_blk_live.
  destruct (update_counts_run t1 g db di Ht1 Hf Hg) as (t'&Hr&Ht'&Hfs&Hok'&Hblk); [apply (bm_sb _ _ _ Hb)..|].
  exists t1, t'. split; [by apply write_blk_run|]. split; [done|].
  destruct (idx_split per g b Hbit) as [E1 E2].
  split; rewrite ?E1, ?E2; [done|done|done| | |].
  - intros j Hj0. rewrite Hblk, !decide_False by done. unfold t1. rewrite blk_put, decide_True by done. by apply Hj.
  - intros n H1 H2 H3. rewrite Hblk, !decide_False by done. unfold t1. by rewrite blk_put, decide_False.
  - split; rewrite Hblk; [by rewrite decide_True|]. rewrite decide_False, decide_True by done. done.
Qed.

Lemma alloc_groups_run (t : T) field per db di base n g :
  live t -> geo (g_fs t) -> bm_geo t field per -> 0 <= g -> g + Z.of_nat n = num_groups (g_fs t) -> 0 <= base <= 1 ->
  (alloc_groups n g field per db di base t = Some (-1, t) /\
     forall i, g * per <= i < num_groups (g_fs t) * per -> used t field per i = true) \/
  exists i t', alloc_groups n g field per db di base t = Some (i + base, t') /\
    g * per <= i < num_groups (g_fs t) * per /\ used t field per i = false /\
    (forall j, g * per <= j < i -> used t field per j = true) /\ flipped t field per i true db di t'.
Proof.
  intros Ht Hf Hb. revert g. induction n as [|n IH]; intros g Hg Hn Hbase.
  { left. split; [done|]. intros i Hi. replace g with (num_groups (g_fs t)) in Hi by lia. lia. }
  assert (0 <= g < num_groups (g_fs t)) as Hgr by lia. destruct (bm_per _ _ _ Hb) as [Hp1 Hp2].
  cbn [alloc_groups]. fs_step. lift_step (bm_of_Some t field per g Hf Hb Hgr).
  rewrite (mbind_Some _ _ _ _ _ (fetch_run t _ Ht (bm_ok _ _ _ Hb g Hgr))). cbv beta iota. rewrite decide_False by tauto.
  set (bm := blk t (bm_of (g_fs t) field g)).
  assert (length bm = 1024%nat) as Hbl by by apply blk_length. assert (Forall byte_ok bm) as Hbb by by apply blk_bytes.
  assert (forall b, 0 <= b < per -> used t field per (g * per + b) = bit_used bm b) as Hu.
  { intros b Hbr. unfold used. destruct (idx_split per g b Hbr) as [-> ->]. done. }
  destruct (bitmap_find_free_run bm per ltac:(lia) ltac:(lia) Hbb) as (r&Hr&Hff). lift_step Hr.
  destruct Hff as [[-> Hall]|(Hr1&Hfree&Hlow)].
  - rewrite (proj2 (Z.ltb_lt (-1) 0)) by lia.
    assert (forall i, g * per <= i < (g + 1) * per -> used t field per i = true) as Hfull.
    { intros i Hi. replace i with (g * per + (i - g * per)) by lia. rewrite Hu by lia. apply Hall. lia. }
    destruct (IH (g + 1) ltac:(lia) ltac:(lia) Hbase) as [[He Hf']|(i&t'&He&Hi&Hui&Hlow&Hfl)].
    + left. split; [done|]. intros i Hi. destruct (decide (i < (g + 1) * per)); [apply Hfull; lia|apply Hf'; lia].
    + right. exists i, t'. split_and!; [done|lia|lia|done| |done].
      intros j Hj. destruct (decide (j < (g + 1) * per)); [apply Hfull; lia|apply Hlow; lia].
  - right. rewrite (proj2 (Z.ltb_ge r 0)) by lia. unfold u32 at 1. rewrite (wrap_small 32) by (unfold in_w; lia).
    destruct (bitmap_set_run bm r ltac:(lia) Hbb) as (bm'&Hs&Hl'&Hb'&Hbits). lift_step Hs.
    destruct (flip_run t field per g r true db di bm' Ht Hf Hb Hgr Hr1 ltac:(lia) Hb' Hbits) as (t1&t'&Hw&Hc&Hfl).
    mstep Hw. rewrite decide_False by tauto. mstep Hc. rewrite decide_False by tauto.
    exists (g * per + r), t'. pose proof (bm_total _ _ _ Hb) as Htot. split_and!.
    + unfold u32 at 2. rewrite (wrap_small 32 r) by (unfold in_w; lia). rewrite small_i32 by nia. done.
    + lia.
    + nia.
    + rewrite Hu by lia. done.
    + intros j Hj. replace j with (g * per + (j - g * per)) by lia. rewrite Hu by lia. apply Hlow. lia.
    + done.
Qed.

Lemma idx_range per i n : 0 < per -> 0 <= i < n * per -> 0 <= i / per < n /\ 0 <= i mod per < per /\ i = i / per * per + i mod per.
Proof.
  intros Hp Hi. pose proof (Z.div_mod i per). pose proof (Z.mod_pos_bound i per Hp).
  split_and!; [apply Z.div_pos; lia|apply Z.div_lt_upper_bound; lia|lia..].
Qed.

Lemma free_bit_run (t : T) field per db di i :
  live t -> geo (g_fs t) -> bm_geo t field per -> 0 <= i < num_groups (g_fs t) * per ->
  if used t field per i
  then exists t', free_bit (i / per) (i mod per) field db di t = Some (EXT2_OK, t') /\ flipped t field per i false db di t'
  else free_bit (i / per) (i mod per) field db di t = Some (EXT2_ERR_INVALID, t).
Proof.
  intros Ht Hf Hb Hi. destruct (bm_per _ _ _ Hb) as [Hp1 Hp2]. destruct (idx_range per i _ Hp1 Hi) as (Hg&Hbit&Ei).
  unfold free_bit. fs_step. lift_step (bm_of_Some t field per _ Hf Hb Hg).
  rewrite (mbind_Some _ _ _ _ _ (fetch_run t _ Ht (bm_ok _ _ _ Hb _ Hg))). cbv beta iota. rewrite decide_False by tauto.
  unfold used. set (bm := blk t _).
  assert (length bm = 1024%nat) as Hbl by by apply blk_length. assert (Forall byte_ok bm) as Hbb by by apply blk_bytes.
  lift_step (bitmap_test_run bm (i mod per) ltac:(lia)). destruct (bit_used bm (i mod per)); cbn [negb]; [|done].
  destruct (bitmap_clear_run bm (i mod per) ltac:(lia) Hbb) as (bm'&Hs&Hl'&Hb'&Hbits). lift_step Hs.
  destruct (flip_run t field per (i / per) (i mod per) false db di bm' Ht Hf Hb Hg Hbit ltac:(lia) Hb' Hbits) as (t1&t'&Hw&Hc&Hfl).
  rewrite <-Ei in Hfl. mstep Hw. rewrite decide_False by tauto. exists t'. done.
Qed.

(** *** What a change of one bit preserves *)

Lemma flipped_layout t field per i x db di t' : geo (g_fs t) -> bm_geo t field per ->
  0 <= i < num_groups (g_fs t) * per -> flipped t field per i x db di t' -> same_layout (g_fs t) (g_fs t').
Proof.
  intros Hf Hb Hi Hfl. rewrite (fl_fs _ _ _ _ _ _ _ _ Hfl). apply counts_layout; [done|].
  apply (idx_range per i); [apply (bm_per _ _ _ Hb)|done].
Qed.
Lemma flipped_geo t field per i x db di t' : geo (g_fs t) -> bm_geo t field per ->
  0 <= i < num_groups (g_fs t) * per -> flipped t field per i x db di t' -> geo (g_fs t').
Proof.
  intros Hf Hb Hi Hfl. rewrite (fl_fs _ _ _ _ _ _ _ _ Hfl). apply counts_geo; [done|].
  apply (idx_range per i); [apply (bm_per _ _ _ Hb)|done].
Qed.
Lemma layout_bm_of f f' field g : same_layout f f' -> field = bg_block_bitmap \/ field = bg_inode_bitmap ->
  0 <= g -> bm_of f' field g = bm_of f field g.
Proof. intros Hl Hk Hg. unfold bm_of. by rewrite (sl_gd _ _ Hl) by tauto. Qed.
Lemma layout_bm_geo (t t' : T) field per : same_layout (g_fs t) (g_fs t') -> (forall n, blk_ok t' n <-> blk_ok t n) ->
  bm_geo t field per -> bm_geo t' field per.
Proof.
  intros Hl Hok [H1 H2 H3 H4 H5 H6 [H7 H8]]. pose proof (sl_groups _ _ Hl) as En.
  assert (forall g, 0 <= g -> bm_of (g_fs t') field g = bm_of (g_fs t) field g) as Eb by (intros; by apply layout_bm_of).
  split; rewrite ?En; try done.
  - intros g Hg. rewrite Eb, Hok by lia. auto.
  - intros g Hg. rewrite Eb by lia. auto.
  - intros g g' Hg Hg'. rewrite !Eb by lia. auto.
  - by rewrite !Hok.
Qed.
Lemma flipped_used t field per i x db di t' j : geo (g_fs t) -> bm_geo t field per ->
  0 <= i < num_groups (g_fs t) * per -> 0 <= j < num_groups (g_fs t) * per -> flipped t field per i x db di t' ->
  used t' field per j = if decide (j = i) then x else used t field per j.
Proof.
  intros Hf Hb Hi Hj Hfl. pose proof (flipped_layout _ _ _ _ _ _ _ _ Hf Hb Hi Hfl) as Hl.
  destruct (bm_per _ _ _ Hb) as [Hp _]. destruct (idx_range per i _ Hp Hi) as (Hgi&Hbi&Ei), (idx_range per j _ Hp Hj) as (Hgj&Hbj&Ej).
  unfold used. rewrite (layout_bm_of _ _ _ _ Hl (bm_field _ _ _ Hb)) by lia.
  destruct (decide (j / per = i / per)) as [Eg|Eg].
  - rewrite Eg, (fl_bits _ _ _ _ _ _ _ _ Hfl) by lia. destruct (decide (j = i)) as [->|]; [by rewrite decide_True|].
    rewrite decide_False; [done|]. intros Em. rewrite Eg, Em in Ej. lia.
  - rewrite decide_False by congruence. destruct (bm_meta _ _ _ Hb (j / per) Hgj) as [? ?].
    rewrite (fl_frame _ _ _ _ _ _ _ _ Hfl); [done..|]. intros E. apply Eg. eapply bm_inj; eauto.
Qed.
(** Marking a free resource and releasing it restores everything but the copies of the
    counts in blocks 1 and 2, which then hold [g_fs] again. *)
Lemma flipped_undo t field per i db di t1 t2 : live t -> geo (g_fs t) -> bm_geo t field per ->
  0 <= i < num_groups (g_fs t) * per -> used t field per i = false -> db = 0 \/ di = 0 ->
  flipped t field per i true db di t1 -> flipped t1 field per i false (- db) (- di) t2 ->
  g_fs t2 = g_fs t /\ forall n, n <> 1 -> n <> 2 -> blk t2 n = blk t n.
Proof.
  intros Ht Hf Hb Hi Hu Hd H1 H2. destruct (bm_per _ _ _ Hb) as [Hp Hp2]. destruct (idx_range per i _ Hp Hi) as (Hg&Hbit&_).
  split; [rewrite (fl_fs _ _ _ _ _ _ _ _ H2), (fl_fs _ _ _ _ _ _ _ _ H1); by apply counts_undo|].
  pose proof (flipped_layout _ _ _ _ _ _ _ _ Hf Hb Hi H1) as Hl.
  assert (bm_of (g_fs t1) field (i / per) = bm_of (g_fs t) field (i / per)) as Eb by (apply layout_bm_of; [done|apply Hb|lia]).
  intros n Hn1 Hn2. destruct (decide (n = bm_of (g_fs t) field (i / per))) as [->|Hn].
  - pose proof (fl_live _ _ _ _ _ _ _ _ H2) as Ht2.
    apply bitmap_ext; [by rewrite !blk_length|by apply blk_bytes|by apply blk_bytes|]. intros j Hj.
    pose proof (fl_bits _ _ _ _ _ _ _ _ H2 j ltac:(lia)) as B2. rewrite Eb in B2. rewrite B2.
    rewrite (fl_bits _ _ _ _ _ _ _ _ H1) by lia. case_decide as E; [|done]. rewrite E. symmetry. exact Hu.
  - rewrite (fl_frame _ _ _ _ _ _ _ _ H2), (fl_frame _ _ _ _ _ _ _ _ H1); rewrite ?Eb; done.
Qed.

(** ** The four entry points *)

Definition block_geo (t : T) : Prop := bm_geo t bg_block_bitmap (blocks_per_group (g_fs t)).
Definition inode_geo (t : T) : Prop := bm_geo t bg_inode_bitmap (inodes_per_group (g_fs t)).
Definition block_used (t : T) (n : Z) : bool := used t bg_block_bitmap (blocks_per_group (g_fs t)) n.
Definition inode_used (t : T) (ino : Z) : bool := used t bg_inode_bitmap (inodes_per_group (g_fs t)) (ino - 1).
Definition nblocks (t : T) : Z := num_groups (g_fs t) * blocks_per_group (g_fs t).
Definition ninodes (t : T) : Z := num_groups (g_fs t) * inodes_per_group (g_fs t).
(** The state after the use of block [n] (inode [ino]) changed to [x]. *)
Definition block_flip (t : T) (n : Z) (x : bool) (t' : T) : Prop :=
  flipped t bg_block_bitmap (blocks_per_group (g_fs t)) n x (if x then -1 else 1) 0 t'.
Definition inode_flip (t : T) (ino : Z) (x : bool) (t' : T) : Prop :=
  flipped t bg_inode_bitmap (inodes_per_group (g_fs t)) (ino - 1) x 0 (if x then -1 else 1) t'.

Lemma num_groups_nat (t : T) : 0 <= num_groups (g_fs t) -> 0 + Z.of_nat (Z.to_nat (num_groups (g_fs t))) = num_groups (g_fs t).
Proof. lia. Qed.

Lemma e2_alloc_block_run t : live t -> geo (g_fs t) -> block_geo t -> 0 <= num_groups (g_fs t) ->
  (ext2_alloc_block t = Some (-1, t) /\ forall n, 0 <= n < nblocks t -> block_used t n = true) \/
  exists n t', ext2_alloc_block t = Some (n, t') /\ 0 <= n < nblocks t /\ block_used t n = false /\
    (forall m, 0 <= m < n -> block_used t m = true) /\ block_flip t n true t'.
Proof.
  intros Ht Hf Hb Hn. unfold ext2_alloc_block. fs_step. rewrite (proj2 Ht). cbn [negb].
  destruct (alloc_groups_run t _ _ (-1) 0 0 (Z.to_nat (num_groups (g_fs t))) 0 Ht Hf Hb) as [[Hr Hu]|(i&t'&Hr&Hi&Hu&Hl&Hfl)]; [lia|lia|lia|left|right].
  - split; [exact Hr|]. intros n Hnn. apply Hu. unfold nblocks in Hnn. lia.
  - exists i, t'. rewrite Z.add_0_r in Hr. split_and!; [exact Hr|lia|unfold nblocks; lia|exact Hu| |exact Hfl].
    intros m Hm. apply Hl. lia.
Qed.
Lemma e2_alloc_inode_run t : live t -> geo (g_fs t) -> inode_geo t -> 0 <= num_groups (g_fs t) ->
  (ext2_alloc_inode t = Some (-1, t) /\ forall ino, 0 < ino <= ninodes t -> inode_used t ino = true) \/
  exists ino t', ext2_alloc_inode t = Some (ino, t') /\ 0 < ino <= ninodes t /\ inode_used t ino = false /\
    (forall m, 0 < m < ino -> inode_used t m = true) /\ inode_flip t ino true t'.
Proof.
  intros Ht Hf Hb Hn. unfold ext2_alloc_inode. fs_step. rewrite (proj2 Ht). cbn [negb].
  destruct (alloc_groups_run t _ _ 0 (-1) 1 (Z.to_nat (num_groups (g_fs t))) 0 Ht Hf Hb) as [[Hr Hu]|(i&t'&Hr&Hi&Hu&Hl&Hfl)]; [lia|lia|lia|left|right].
  - split; [exact Hr|]. intros n Hnn. apply Hu. unfold ninodes in Hnn. lia.
  - exists (i + 1), t'. unfold inode_used, inode_flip. rewrite Z.add_simpl_r.
    split_and!; [exact Hr|lia|unfold ninodes; lia|exact Hu| |exact Hfl]. intros m Hm. apply Hl. lia.
Qed.
Lemma e2_free_block_run t n : live t -> geo (g_fs t) -> block_geo t -> in_w 32 n ->
  if bool_decide (n < nblocks t) && block_used t n
  then exists t', ext2_free_block n t = Some (EXT2_OK, t') /\ block_flip t n false t'
  else ext2_free_block n t = Some (EXT2_ERR_INVALID, t).
Proof.
  intros Ht Hf Hb [Hn _]. destruct (bm_per _ _ _ Hb) as [Hp _]. set (per := blocks_per_group (g_fs t)) in *.
  assert (ext2_free_block n t = if num_groups (g_fs t) <=? n / per then Some (EXT2_ERR_INVALID, t)
            else free_bit (n / per) (n mod per) bg_block_bitmap 1 0 t) as ->.
  { unfold ext2_free_block. fs_step. rewrite (proj2 Ht). cbn [negb]. unfold cdiv, cmod. fold per.
    rewrite (proj2 (Z.eqb_neq per 0)) by lia. unfold mbind_, mret. by destruct (_ <=? _). }
  case_bool_decide as Hlt; cbn [andb]; unfold nblocks in Hlt; fold per in Hlt.
  - destruct (idx_range per n (num_groups (g_fs t)) Hp ltac:(lia)) as (Hg&_). rewrite (proj2 (Z.leb_gt _ _)) by lia.
    apply (free_bit_run t bg_block_bitmap per 1 0 n); [done..|lia].
  - rewrite (proj2 (Z.leb_le _ _)); [done|]. apply Z.div_le_lower_bound; lia.
Qed.
Lemma e2_free_inode_run t ino : live t -> geo (g_fs t) -> inode_geo t -> in_w 32 ino ->
  if bool_decide (0 < ino <= ninodes t) && inode_used t ino
  then exists t', ext2_free_inode ino t = Some (EXT2_OK, t') /\ inode_flip t ino false t'
  else ext2_free_inode ino t = Some (EXT2_ERR_INVALID, t).
Proof.
  intros Ht Hf Hb [Hn Hw]. destruct (bm_per _ _ _ Hb) as [Hp _]. set (per := inodes_per_group (g_fs t)) in *.
  assert (0 < ino -> ext2_free_inode ino t = if num_groups (g_fs t) <=? (ino - 1) / per then Some (EXT2_ERR_INVALID, t)
            else free_bit ((ino - 1) / per) ((ino - 1) mod per) bg_inode_bitmap 0 1 t) as He.
  { intros H0. unfold ext2_free_inode. fs_step. rewrite (proj2 Ht). cbn [negb]. rewrite (proj2 (Z.eqb_neq ino 0)) by lia.
    unfold cdiv, cmod, u32. rewrite wrap_small by (unfold in_w; lia). fold per.
    rewrite (proj2 (Z.eqb_neq per 0)) by lia. unfold mbind_, mret. by destruct (_ <=? _). }
  case_bool_decide as Hlt; cbn [andb]; unfold ninodes in Hlt; fold per in Hlt.
  - rewrite He by lia. destruct (idx_range per (ino - 1) (num_groups (g_fs t)) Hp ltac:(lia)) as (Hg&_). rewrite (proj2 (Z.leb_gt _ _)) by lia.
    apply (free_bit_run t bg_inode_bitmap per 0 1 (ino - 1)); [done..|lia].
  - destruct (decide (ino = 0)) as [->|]; [unfold ext2_free_inode; fs_step; by rewrite (proj2 Ht)|].
    rewrite He by lia. rewrite (proj2 (Z.leb_le _ _)); [done|]. apply Z.div_le_lower_bound; lia.
Qed.
End Alloc.

(** [ext2_alloc_block] returns the lowest-numbered free block of the file system
    and marks exactly it as used (its bit, the two free counts and their copies in
    blocks 1 and 2); it returns -1, changing nothing, exactly when no block is free.
    [ext2_alloc_inode] does the same with the lowest free inode number, from 1. *)
Theorem ext2_alloc_first_fit `{!Stack} (t : T) :
  live t -> geo (g_fs t) -> block_geo t -> inode_geo t -> 0 <= num_groups (g_fs t) ->
  ((ext2_alloc_block t = Some (-1, t) /\ forall n, 0 <= n < nblocks t -> block_used t n = true) \/
   exists n t', ext2_alloc_block t = Some (n, t') /\ 0 <= n < nblocks t /\ block_used t n = false /\
     (forall m, 0 <= m < n -> block_used t m = true) /\ block_flip t n true t' /\
     forall m, 0 <= m < nblocks t -> block_used t' m = bool_decide (m = n) || block_used t m) /\
  ((ext2_alloc_inode t = Some (-1, t) /\ forall ino, 0 < ino <= ninodes t -> inode_used t ino = true) \/
   exists ino t', ext2_alloc_inode t = Some (ino, t') /\ 0 < ino <= ninodes t /\ inode_used t ino = false /\
     (forall m, 0 < m < ino -> inode_used t m = true) /\ inode_flip t ino true t' /\
     forall m, 0 < m <= ninodes t -> inode_used t' m = bool_decide (m = ino) || inode_used t m).
Proof.
  intros Ht Hf Hb Hi Hn. split.
  - destruct (e2_alloc_block_run t Ht Hf Hb Hn) as [?|(n&t'&?&Hr&?&?&Hfl)]; [by left|right]. exists n, t'. split_and!; [done|lia..|done|done|done|].
    intros m Hm. unfold block_used. rewrite (sl_bpg _ _ (flipped_layout _ _ _ _ _ _ _ _ Hf Hb Hr Hfl)).
    rewrite (flipped_used _ _ _ _ _ _ _ _ m Hf Hb Hr Hm Hfl). by repeat case_decide || case_bool_decide.
  - destruct (e2_alloc_inode_run t Ht Hf Hi Hn) as [?|(n&t'&?&Hr&?&?&Hfl)]; [by left|right]. exists n, t'. split_and!; [done|lia..|done|done|done|].
    unfold ninodes in Hr. intros m Hm. unfold ninodes in Hm. unfold inode_used.
    assert (0 <= n - 1 < num_groups (g_fs t) * inodes_per_group (g_fs t)) as Hr' by lia.
    rewrite (sl_ipg _ _ (flipped_layout _ _ _ _ _ _ _ _ Hf Hi Hr' Hfl)).
    rewrite (flipped_used _ _ _ _ _ _ _ _ (m - 1) Hf Hi Hr' ltac:(lia) Hfl).
    repeat case_decide || case_bool_decide; done || lia.
Qed.

(** A block that was just allocated is refused by no later check: freeing it
    succeeds, restores [g_fs] and every block except the copies of the counts in blocks
    1 and 2, which again hold [g_fs]'s counts; freeing it a second time is
    EXT2_ERR_INVALID and changes nothing. *)
Theorem ext2_alloc_free_roundtrip `{!Stack} (t t1 : T) (n : Z) :
  live t -> geo (g_fs t) -> block_geo t -> 0 <= num_groups (g_fs t) ->
  ext2_alloc_block t = Some (n, t1) -> 0 <= n ->
  exists t2, ext2_free_block n t1 = Some (EXT2_OK, t2) /\ g_fs t2 = g_fs t /\
    (forall m, m <> 1 -> m <> 2 -> blk t2 m = blk t m) /\
    blk t2 1 = sb (g_fs t) /\ blk t2 2 = take 1024 (gd_bytes (g_fs t)) /\
    ext2_free_block n t2 = Some (EXT2_ERR_INVALID, t2).
Proof.
  intros Ht Hf Hb Hn Ha H0. destruct (e2_alloc_block_run t Ht Hf Hb Hn) as [[Hr _]|(m&t'&Hr&Hm&Hu&_&H1)];
    rewrite Hr in Ha; injection Ha as <- <-; [lia|]. unfold block_flip in H1. unfold nblocks in Hm.
  pose proof (flipped_layout _ _ _ _ _ _ _ _ Hf Hb Hm H1) as Hl. pose proof (flipped_geo _ _ _ _ _ _ _ _ Hf Hb Hm H1) as Hf1.
  pose proof (layout_bm_geo _ _ _ _ Hl (fl_ok _ _ _ _ _ _ _ _ H1) Hb) as Hb1. rewrite <-(sl_bpg _ _ Hl) in Hb1.
  pose proof (bm_total _ _ _ Hb) as Htot. assert (in_w 32 m) as Hw by (unfold in_w; nia).
  pose proof (e2_free_block_run t' m (fl_live _ _ _ _ _ _ _ _ H1) Hf1 Hb1 Hw) as Hr2.
  rewrite bool_decide_eq_true_2 in Hr2 by (unfold nblocks; rewrite (sl_groups _ _ Hl), (sl_bpg _ _ Hl); lia).
  unfold block_used in Hr2. rewrite (sl_bpg _ _ Hl), (flipped_used _ _ _ _ _ _ _ _ m Hf Hb Hm Hm H1), decide_True in Hr2 by done.
  destruct Hr2 as (t2&Hr2&H2). unfold block_flip in H2. rewrite (sl_bpg _ _ Hl) in H2.
  destruct (flipped_undo t _ _ m (-1) 0 t' t2 Ht Hf Hb Hm Hu ltac:(by right) H1 H2) as [Hfs Hblk].
  destruct (fl_meta _ _ _ _ _ _ _ _ H2) as [M1 M2]. exists t2. rewrite <-Hfs. split_and!; [done..|].
  assert (bm_geo t2 bg_block_bitmap (blocks_per_group (g_fs t2))) as Hb2.
  { rewrite Hfs. apply (layout_bm_geo t t2); [|intros k; rewrite (fl_ok _ _ _ _ _ _ _ _ H2), (fl_ok _ _ _ _ _ _ _ _ H1); done|exact Hb].
    by rewrite Hfs. }
  pose proof (e2_free_block_run t2 m (fl_live _ _ _ _ _ _ _ _ H2) ltac:(by rewrite Hfs) Hb2 Hw) as Hr3.
  assert (block_used t2 m = false) as Hu2.
  { unfold block_used. rewrite Hfs. rewrite (flipped_used t' _ _ m false 1 0 t2 m Hf1); [by rewrite decide_True| | | |exact H2].
    - by rewrite <-(sl_bpg _ _ Hl).
    - by rewrite (sl_groups _ _ Hl).
    - by rewrite (sl_groups _ _ Hl). }
  rewrite Hu2, andb_false_r in Hr3. done.
Qed.

(** The image of the tests: blocks 0 to 12 and inodes 1 to 8 in use. *)
Definition arr2 : arr :=
  Arr {[ (0, 6) := [255; 31] ++ replicate 510 0; (0, 8) := [255] ++ replicate 511 0 ]} good64.
Definition disk2 : T := Estate arr2 fs1.
Lemma disk2_live : live disk2.
Proof.
  split; [|done]. assert (forall n, Forall byte_ok (replicate n 0)) as Hz.
  { intros. apply Forall_replicate. unfold byte_ok. lia. }
  intros k v. cbn [disk2 arr2 store cells]. rewrite lookup_insert_Some, lookup_singleton_Some.
  intros [[_ <-]|[_ [_ <-]]]; (split; [reflexivity|]); (apply Forall_app_2; [|apply Hz]);
    repeat constructor; done.
Qed.
Lemma fs1_bm field b : b = 3 \/ b = 4 -> field = bg_block_bitmap \/ field = bg_inode_bitmap ->
  bm_of fs1 field 0 = b -> forall per, 0 < per <= 64 -> bm_geo disk2 field per.
Proof.
  intros Hb Hk He per Hp. assert (forall n, 0 <= n < 64 -> blk_ok disk2 n) as Hok.
  { intros n Hn. unfold blk_ok, good_blk, disk2, arr2, good64. cbn [store g_fs agood]. change (dev_id fs1) with 0. unfold in_w.
    rewrite !(proj2 (Z.leb_le _ _)), !(proj2 (Z.ltb_lt _ _)) by lia. split; [lia|done]. }
  assert (forall g, 0 <= g < num_groups (g_fs disk2) -> g = 0) as Hg by (intros g Hg; cbn in Hg; lia).
  split; [done|lia|cbn; lia| | | |].
  - intros g ->%Hg. cbn [disk2 g_fs]. rewrite He. apply Hok. lia.
  - intros g ->%Hg. cbn [disk2 g_fs]. rewrite He. lia.
  - intros g g' ->%Hg ->%Hg. done.
  - split; apply Hok; lia.
Qed.
Lemma disk2_block_geo : block_geo disk2.
Proof. apply (fs1_bm _ 3); [by left|by left|reflexivity|by cbn]. Qed.
Lemma disk2_inode_geo : inode_geo disk2.
Proof. apply (fs1_bm _ 4); [by right|by right|reflexivity|by cbn]. Qed.

Lemma ext2_alloc_first_fit_witness : exists n t',
  @ext2_alloc_block _ _ junk0 disk2 = Some (n, t') /\ n = 13 /\ block_used disk2 n = false /\
  forall m, 0 <= m < nblocks disk2 -> block_used t' m = bool_decide (m = n) || block_used disk2 m.
Proof.
  destruct (@ext2_alloc_first_fit junk0 disk2 disk2_live fs1_geo disk2_block_geo disk2_inode_geo ltac:(cbn; lia))
    as [[[_ Hu]|(n&t'&Hr&Hn&Hu&Hl&_&Hm)] _].
  - specialize (Hu 13 ltac:(by vm_compute)). vm_compute in Hu. done.
  - exists n, t'. split_and!; [done| |done|done]. destruct (decide (n < 13)).
    + assert (forall k, 0 <= k < 13 -> block_used disk2 k = true) as H13.
      { intros k Hk. replace k with (Z.of_nat (Z.to_nat k)) by lia. generalize (Z.to_nat k), (Z2Nat.inj_lt k 13 ltac:(lia) ltac:(lia)).
        intros j [Hj _]. specialize (Hj ltac:(lia)). do 13 (destruct j as [|j]; [reflexivity|]). vm_compute in Hj. lia. }
      rewrite H13 in Hu by lia. done.
    + destruct (decide (n = 13)); [done|]. specialize (Hl 13 ltac:(lia)). vm_compute in Hl. done.
Defined.

Definition disk3 : T := match @ext2_alloc_block _ _ junk0 disk2 with Some (_, t) => t | None => disk2 end.
Lemma ext2_alloc_free_roundtrip_witness :
  exists t2, @ext2_free_block _ _ junk0 13 disk3 = Some (EXT2_OK, t2) /\ g_fs t2 = g_fs disk2 /\
    (forall m, m <> 1 -> m <> 2 -> blk t2 m = blk disk2 m) /\
    blk t2 1 = sb (g_fs disk2) /\ blk t2 2 = take 1024 (gd_bytes (g_fs disk2)) /\
    @ext2_free_block _ _ junk0 13 t2 = Some (EXT2_ERR_INVALID, t2).
Proof.
  apply (@ext2_alloc_free_roundtrip junk0 disk2 disk3 13 disk2_live fs1_geo disk2_block_geo).
  - cbn; lia.
  - vm_compute. reflexivity.
  - lia.
Defined.
