(* ===== verification/Ext2FileSpec.v ===== *)
(** * ext2: correctness of block maps and of file reads and writes

    A file is the array of bytes [file_byte t i o] that its block map describes, with
    zeros in the holes.  [ext2_read_file] returns exactly a part of that array and
    [ext2_write_file] replaces exactly a part of it. *)

From stdpp Require Import base numbers gmap list options.
From S2P Require Import Prelude BlockDev Bcache Ext2Data Ext2 Ext2File Ext2Dir Ext2Sim Ext2Spec Ext2Alloc.

(** ** Block maps *)

(** Logical blocks that the pointer tree of an inode can address. *)
Definition MAX_LOGICAL : Z := 12 + 256 + 256 * 256 + 256 * 256 * 256.

Section Map.
Context `{!Stack}.

(** On an array of sectors a block read always ends, and leaves the state alone. *)
Lemma read_sectors_total (t : T) d n b : arr_wf (store t) -> length b = 1024%nat ->
  exists st b', read_sectors d n b t = Some ((st, b'), t) /\ length b' = 1024%nat.
Proof.
  intros Hw Hb. unfold read_sectors, on_store, mbind_, mlift. cbn [ss_read arr_store].
  destruct (cell_wf (store t) d (u32 (n * 2)) Hw) as [L1 _].
  destruct (cell_wf (store t) d (u32 (u32 (n * 2) + 1)) Hw) as [L2 _]. destruct t as [a f]; cbn [store g_fs] in *.
  destruct (agood a d (u32 (n * 2))); [|eauto]. pose proof (splice_full _ _ b L1 L2 Hb) as Hs.
  destruct (splice 0 _ b) as [x|] eqn:E1; [|done]. cbn [mbind option_bind store g_fs] in *.
  destruct (agood a d (u32 (u32 (n * 2) + 1))).
  - rewrite Hs. eexists _, _. split; [done|]. rewrite length_app. lia.
  - eexists _, _. split; [done|]. by rewrite (splice_length _ _ _ _ E1).
Qed.
Lemma fetch_total (t : T) n : live t -> exists st b, fetch n t = Some ((st, b), t) /\ length b = 1024%nat.
Proof.
  intros [Hw Hm]. unfold fetch, ext2_read_block. fs_step. rewrite Hm. cbn [negb].
  apply read_sectors_total; [done|apply junk_len].
Qed.

Lemma follow_total (t : T) b (idx : M T Z) i : live t -> idx t = Some (i, t) -> 0 <= i < 256 ->
  exists p, follow b idx t = Some (p, t).
Proof.
  intros Ht Hi Hr. unfold follow. destruct (b =? 0); [by eexists|].
  destruct (fetch_total t b Ht) as (st&buf&Hf&Hl). mstep Hf. cbv beta iota. case_decide; [by eexists|].
  mstep Hi. unfold ptr_at, get32. destruct (get_le_Some 4 (4 * i) buf) as [v Hv]; [lia..|].
  exists v. unfold mlift. by rewrite Hv.
Qed.
(** An index outside the table reads past the 1024-byte buffer. *)
Lemma follow_fault (t : T) b (idx : M T Z) i : live t -> blk_ok t b -> b <> 0 -> idx t = Some (i, t) -> 256 <= i ->
  follow b idx t = None.
Proof.
  intros Ht Hb Hn Hi Hr. unfold follow. rewrite (proj2 (Z.eqb_neq b 0)) by done.
  rewrite (mbind_Some _ _ _ _ _ (fetch_run t b Ht Hb)). cbv beta iota. rewrite decide_False by tauto.
  mstep Hi. unfold ptr_at, get32, get_le, slice, mlift. rewrite blk_length by done.
  rewrite (proj2 (Z.leb_gt (4 * i + 4) _)) by lia. by rewrite andb_false_r.
Qed.

Lemma cdiv_run (t : T) a b : b <> 0 -> cdiv a b t = Some (a / b, t).
Proof. intros. unfold cdiv. by rewrite (proj2 (Z.eqb_neq b 0)). Qed.
Lemma cmod_run (t : T) a b : b <> 0 -> cmod a b t = Some (a mod b, t).
Proof. intros. unfold cmod. by rewrite (proj2 (Z.eqb_neq b 0)). Qed.
Lemma cmod_bind (t : T) {B} a b (k : Z -> M T B) : b <> 0 -> (r <~ cmod a b ;; k r) t = k (a mod b) t.
Proof. intros. by rewrite (mbind_Some _ _ _ _ _ (cmod_run t a b ltac:(done))). Qed.

Lemma i_block_at i k : length (i_block i) = 15%nat -> 0 <= k < 15 -> exists p, zget (i_block i) k = Some p.
Proof. intros Hl Hk. apply zget_is_Some. lia. Qed.

(** The three indirect cases, with the index arithmetic done. *)
Lemma get_block_eq (t : T) i l : geo (g_fs t) -> length (i_block i) = 15%nat -> in_w 32 l ->
  exists b12 b13 b14, zget (i_block i) 12 = Some b12 /\ zget (i_block i) 13 = Some b13 /\ zget (i_block i) 14 = Some b14 /\
  ext2_inode_get_block i l t =
    (if l <? 12 then mlift (zget (i_block i) l)
     else if l - 12 <? 256 then follow b12 (return (l - 12))
     else if l - 268 <? 65536 then l1 <~ follow b13 (cdiv (l - 268) 256) ;; follow l1 (cmod (l - 268) 256)
     else l2 <~ follow b14 (cdiv (l - 65804) 65536) ;;
          l1 <~ follow l2 (r <~ cmod (l - 65804) 65536 ;; cdiv r 256) ;;
          follow l1 (r <~ cmod (l - 65804) 65536 ;; cmod r 256)) t.
Proof.
  intros Hf Hl [H0 Hw]. destruct (i_block_at i 12 Hl ltac:(lia)) as [b12 E12].
  destruct (i_block_at i 13 Hl ltac:(lia)) as [b13 E13]. destruct (i_block_at i 14 Hl ltac:(lia)) as [b14 E14].
  exists b12, b13, b14. do 3 (split; [done|]). unfold ext2_inode_get_block. fs_step.
  unfold EXT2_PTRS_PER_BLOCK. rewrite (geo_bs _ Hf). change (1024 / 4) with 256. unfold EXT2_N_DIRECT.
  destruct (Z.ltb_spec l 12); [done|]. unfold u32 at 1 2.
  rewrite (wrap_small 32 (l - 12)) by (unfold in_w; lia). destruct (Z.ltb_spec (l - 12) 256); [by lift_step E12|].
  unfold u32. change (wrap 32 (256 * 256)) with 65536. rewrite (wrap_small 32 (l - 12)) by (unfold in_w; lia).
  rewrite (wrap_small 32 (l - 12 - 256)) by (unfold in_w; lia).
  replace (l - 12 - 256) with (l - 268) by lia. destruct (Z.ltb_spec (l - 268) 65536); [by lift_step E13|].
  rewrite (wrap_small 32 (l - 268 - 65536)) by (unfold in_w; lia). replace (l - 268 - 65536) with (l - 65804) by lia.
  by lift_step E14.
Qed.

Lemma get_block_total (t : T) i l : live t -> geo (g_fs t) -> inode_ok i -> 0 <= l < MAX_LOGICAL ->
  exists p, ext2_inode_get_block i l t = Some (p, t).
Proof.
  intros Ht Hf (Hl&_&_) Hr. unfold MAX_LOGICAL in Hr.
  destruct (get_block_eq t i l Hf Hl ltac:(unfold in_w; lia)) as (b12&b13&b14&E12&E13&E14&->).
  destruct (Z.ltb_spec l 12).
  { destruct (i_block_at i l Hl ltac:(lia)) as [p Hp]. exists p. by apply mlift_run. }
  destruct (Z.ltb_spec (l - 12) 256); [apply (follow_total t _ _ (l - 12)); [done|done|lia]|].
  destruct (Z.ltb_spec (l - 268) 65536).
  - destruct (follow_total t b13 _ _ Ht (cdiv_run t (l - 268) 256 ltac:(lia))) as [l1 F1].
    { split; [apply Z.div_pos; lia|apply Z.div_lt_upper_bound; lia]. }
    mstep F1. eapply follow_total; [done|by apply cmod_run|]. apply Z.mod_pos_bound. lia.
  - destruct (follow_total t b14 _ _ Ht (cdiv_run t (l - 65804) 65536 ltac:(lia))) as [l2 F2].
    { split; [apply Z.div_pos; lia|apply Z.div_lt_upper_bound; lia]. }
    mstep F2. pose proof (Z.mod_pos_bound (l - 65804) 65536 ltac:(lia)) as Hm. set (r := (l - 65804) mod 65536) in *.
    destruct (follow_total t l2 (x <~ cmod (l - 65804) 65536 ;; cdiv x 256) (r / 256) Ht) as [l1 F1].
    { rewrite cmod_bind by lia. by apply cdiv_run. }
    { split; [apply Z.div_pos; lia|apply Z.div_lt_upper_bound; lia]. }
    mstep F1. apply (follow_total t _ _ (r mod 256) Ht); [|apply Z.mod_pos_bound; lia].
    rewrite cmod_bind by lia. by apply cmod_run.
Qed.

(** [ext2_inode_get_block] is defined and changes nothing for every logical block
    that a tree of 256-entry tables can address, 12 + 256 + 256^2 + 256^3 of them.
    Beyond that the code does not check the index: with a triple-indirect block present
    it reads past the end of its 1024-byte stack table (a fault of the model). *)
Theorem ext2_get_block_bounds (t : T) (i : ext2_inode) (l b14 : Z) :
  live t -> geo (g_fs t) -> inode_ok i -> in_w 32 l ->
  zget (i_block i) 14 = Some b14 -> b14 <> 0 -> blk_ok t b14 ->
  if decide (l < MAX_LOGICAL) then exists p, ext2_inode_get_block i l t = Some (p, t)
  else ext2_inode_get_block i l t = None.
Proof.
  intros Ht Hf Hi Hw Hb Hn Hok. case_decide as Hl; [apply get_block_total; [done..|unfold in_w in Hw; lia]|].
  unfold MAX_LOGICAL in Hl. destruct (get_block_eq t i l Hf (proj1 Hi) Hw) as (b12&b13&b&_&_&E14&->).
  rewrite Hb in E14. injection E14 as <-. rewrite !(proj2 (Z.ltb_ge _ _)) by lia. unfold mbind_ at 1.
  rewrite (follow_fault t b14 _ ((l - 65804) / 65536)); [done..|by apply cdiv_run|]. apply Z.div_le_lower_bound; lia.
Qed.
End Map.

(** ** The contents of a file *)

Section FileData.
Context `{!Stack}.

(** The block that holds logical block [l], 0 for a hole. *)
Definition bmap (t : T) (i : ext2_inode) (l : Z) : Z :=
  match ext2_inode_get_block i l t with Some (p, _) => p | None => 0 end.
Definition file_byte (t : T) (i : ext2_inode) (o : Z) : Z :=
  let p := bmap t i (o / 1024) in if p =? 0 then 0 else default 0 (zget (blk t p) (o mod 1024)).
Definition file_data (t : T) (i : ext2_inode) (off n : Z) : list Z := (fun k => file_byte t i (off + k)) <$> seqZ 0 n.
(** Every block mapped in bytes [a, b) of the file can be read and written. *)
Definition mapped_ok (t : T) (i : ext2_inode) (a b : Z) : Prop :=
  forall l, a / 1024 <= l -> l * 1024 < b -> bmap t i l <> 0 -> blk_ok t (bmap t i l).

Lemma bmap_run t i l : live t -> geo (g_fs t) -> inode_ok i -> 0 <= l < MAX_LOGICAL ->
  ext2_inode_get_block i l t = Some (bmap t i l, t).
Proof. intros. unfold bmap. by destruct (get_block_total t i l) as [p ->]. Qed.

Lemma file_data_length t i off n : 0 <= n -> Z.of_nat (length (file_data t i off n)) = n.
Proof. intros. unfold file_data. rewrite length_fmap, length_seqZ. lia. Qed.
Lemma file_data_app t i off a b : 0 <= a -> 0 <= b ->
  file_data t i off (a + b) = file_data t i off a ++ file_data t i (off + a) b.
Proof.
  intros. unfold file_data. rewrite seqZ_app, fmap_app by lia. f_equal.
  replace (0 + a) with (a + 0) by lia. rewrite <-(fmap_add_seqZ a 0), <-list_fmap_compose. apply list_fmap_ext. intros k x _. simpl. f_equal. lia.
Qed.

Lemma file_data_lookup t i off n k : 0 <= Z.of_nat k < n ->
  file_data t i off n !! k = Some (file_byte t i (off + Z.of_nat k)).
Proof. intros Hk. unfold file_data. rewrite list_lookup_fmap, lookup_seqZ_lt by lia. done. Qed.

(** A part of the file inside one block. *)
Lemma chunk_div off k : 0 <= off -> 0 <= k -> off mod 1024 + k < 1024 ->
  (off + k) / 1024 = off / 1024 /\ (off + k) mod 1024 = off mod 1024 + k.
Proof.
  intros. pose proof (Z.div_mod off 1024). pose proof (Z.mod_pos_bound off 1024).
  apply (Z.div_mod_unique 1024 _ _ _ _); [left; apply Z.mod_pos_bound; lia|left; lia|].
  pose proof (Z.div_mod (off + k) 1024). lia.
Qed.
Lemma chunk_hole t i off n : 0 <= off -> 0 <= n -> off mod 1024 + n <= 1024 -> bmap t i (off / 1024) = 0 ->
  file_data t i off n = replicate (Z.to_nat n) 0.
Proof.
  intros H0 Hn Hc Hb. apply list_eq_same_length with (Z.to_nat n); rewrite ?length_replicate; [done| |].
  - pose proof (file_data_length t i off n Hn). lia.
  - intros k x y Hk. rewrite file_data_lookup by lia. rewrite lookup_replicate_2 by lia. intros [= <-] [= <-].
    unfold file_byte. destruct (chunk_div off (Z.of_nat k)) as [-> _]; [lia..|]. by rewrite Hb.
Qed.
Lemma chunk_block t i off n : live t -> 0 <= off -> 0 <= n -> off mod 1024 + n <= 1024 -> bmap t i (off / 1024) <> 0 ->
  slice (off mod 1024) n (blk t (bmap t i (off / 1024))) = Some (file_data t i off n).
Proof.
  intros Ht H0 Hn Hc Hb. pose proof (Z.mod_pos_bound off 1024). set (b := blk t _).
  assert (length b = 1024%nat) as Hbl by by apply blk_length. rewrite slice_Some by lia. f_equal.
  pose proof (file_data_length t i off n Hn).
  apply list_eq_same_length with (Z.to_nat n); [lia|rewrite length_take, length_drop; lia|].
  intros k x y Hk. rewrite file_data_lookup, lookup_take_lt, lookup_drop by lia. intros Hx [= <-].
  unfold file_byte. destruct (chunk_div off (Z.of_nat k)) as [-> ->]; [lia..|].
  rewrite (proj2 (Z.eqb_neq _ 0)) by done. fold b. replace (off mod 1024 + Z.of_nat k) with (Z.of_nat (Z.to_nat (off mod 1024) + k)) by lia.
  rewrite zget_nat, Hx. done.
Qed.

(** ** Reading *)

Lemma div_lt_logical o : 0 <= o < 2 ^ 32 -> 0 <= o / 1024 < MAX_LOGICAL /\ u32 (o / 1024) = o / 1024.
Proof.
  intros. assert (0 <= o / 1024 < 2 ^ 22) by (split; [apply Z.div_pos; lia|apply Z.div_lt_upper_bound; lia]).
  unfold MAX_LOGICAL, u32. split; [lia|]. apply wrap_small. unfold in_w. lia.
Qed.

(** The size of one round: to the end of the block or of the request. *)
Lemma chunk_size cnt bo : 0 < cnt -> 0 <= bo < 1024 ->
  exists k, u32 (ext2_min64 cnt (1024 - bo)) = k /\ 0 < k <= cnt /\ bo + k <= 1024.
Proof.
  intros. unfold ext2_min64. destruct (Z.ltb_spec cnt (1024 - bo)); unfold u32; rewrite wrap_small by (unfold in_w; lia);
    eexists; (split; [done|lia]).
Qed.
Lemma splice_nil tot dst : 0 <= tot <= Z.of_nat (length dst) -> splice tot [] dst = Some dst.
Proof. intros. apply (splice_slice tot 0). by rewrite slice_Some by lia. Qed.

Lemma read_loop_run t i n dst off cnt tot :
  live t -> geo (g_fs t) -> inode_ok i -> 0 <= off -> 0 <= cnt -> off + cnt < 2 ^ 32 -> 0 <= tot ->
  tot + cnt <= Z.of_nat (length dst) -> cnt <= Z.of_nat n -> mapped_ok t i off (off + cnt) ->
  exists dst', read_file_loop n i dst off cnt tot t = Some ((tot + cnt, dst'), t) /\
    splice tot (file_data t i off cnt) dst = Some dst'.
Proof.
  intros Ht Hf Hi. revert dst off cnt tot. induction n as [|n IH]; intros dst off cnt tot Ho Hc Hlim Htot Hlen Hn Hm.
  { replace cnt with 0 by lia. exists dst. rewrite Z.add_0_r. split; [done|]. apply splice_nil. lia. }
  destruct (decide (cnt = 0)) as [->|Hc0].
  { exists dst. rewrite Z.add_0_r. split; [done|]. apply splice_nil. lia. }
  cbn [read_file_loop]. rewrite (proj2 (Z.leb_gt cnt 0)) by lia. fs_step. rewrite (geo_bs _ Hf).
  rewrite (mbind_Some _ _ _ _ _ (cdiv_run t off 1024 ltac:(lia))). cbv zeta.
  destruct (div_lt_logical off ltac:(lia)) as [Hl Eu]. rewrite Eu.
  rewrite (mbind_Some _ _ _ _ _ (cmod_run t off 1024 ltac:(lia))).
  pose proof (Z.mod_pos_bound off 1024 ltac:(lia)) as Hbo.
  destruct (chunk_size cnt (off mod 1024)) as (k&->&Hk&Hkb); [lia..|].
  rewrite (mbind_Some _ _ _ _ _ (bmap_run t i _ Ht Hf Hi Hl)).
  assert (u64 (off + k) = off + k) as -> by (unfold u64; rewrite wrap_small; [done|unfold in_w; lia]).
  assert (mapped_ok t i (off + k) (off + k + (cnt - k))) as Hm'.
  { intros l Hl1 Hl2. apply Hm; [|lia]. etrans; [|exact Hl1]. apply Z.div_le_mono; lia. }
  assert (Z.of_nat (length (file_data t i off k)) = k) as Hfk by (apply file_data_length; lia).
  assert (exists d1, splice tot (file_data t i off k) dst = Some d1 /\
     (if bmap t i (off / 1024) =? 0 then splice tot (replicate (Z.to_nat k) 0) dst = Some d1 else True)) as (d1&Hd1&Hz).
  { rewrite splice_Some by lia. eexists. split; [done|]. destruct (Z.eqb_spec (bmap t i (off / 1024)) 0) as [E|]; [|done].
    rewrite <-(chunk_hole t i off k) by (done || lia). rewrite splice_Some by lia. done. }
  destruct (IH d1 (off + k) (cnt - k) (tot + k)) as (d2&Hr&Hs); [lia..| |lia|done|].
  { rewrite (splice_length _ _ _ _ Hd1). lia. }
  exists d2. split; [|].
  - destruct (Z.eqb_spec (bmap t i (off / 1024)) 0) as [E|E].
    + lift_step Hz. rewrite Hr. do 2 f_equal. f_equal. lia.
    + rewrite (mbind_Some _ _ _ _ _ (fetch_run t _ Ht (Hm (off / 1024) ltac:(lia) ltac:(pose proof (Z.div_mod off 1024); lia) E))).
      cbv beta iota. rewrite decide_False by tauto. lift_step (chunk_block t i off k Ht Ho ltac:(lia) Hkb E). lift_step Hd1.
      rewrite Hr. do 2 f_equal. f_equal. lia.
  - rewrite <-Hs. replace (tot + k) with (tot + Z.of_nat (length (file_data t i off k))) by lia.
    rewrite (splice_app _ _ _ _ _ Hd1) by (rewrite Hfk, file_data_length by lia; lia).
    replace cnt with (k + (cnt - k)) at 1 by lia. rewrite file_data_app by lia. done.
Qed.

Lemma read_file_eq (t : T) (ino off cnt n : Z) (buf : list Z) :
  live t -> geo (g_fs t) -> ino_readable t ino -> 0 <= off -> 0 <= cnt ->
  n = Z.max 0 (Z.min cnt (i_size (inode_at t ino) - off)) -> n <= Z.of_nat (length buf) ->
  mapped_ok t (inode_at t ino) off (off + n) ->
  ext2_read_file ino (Some buf) off cnt t =
    Some ((n, file_data t (inode_at t ino) off n ++ drop (Z.to_nat n) buf), t).
Proof.
  intros Ht Hf Hi Ho Hc -> Hn Hm. set (i := inode_at t ino) in *.
  assert (inode_ok i) as Hok by by apply inode_at_ok. pose proof (i_size_range i Hok) as [Hs0 Hs1].
  unfold ext2_read_file. fs_step. rewrite (proj2 Ht). cbn [negb]. rewrite bool_decide_eq_false_2 by done. cbn [andb].
  rewrite (mbind_Some _ _ _ _ _ (read_inode_run t ino Ht Hf Hi)). fold i. cbn [from_option id].
  destruct (Z.leb_spec (i_size i) off); [by rewrite Z.max_l by lia|]. cbv zeta.
  assert (ext2_min64 cnt (i_size i - off) = Z.max 0 (Z.min cnt (i_size i - off))) as ->.
  { unfold ext2_min64. destruct (Z.ltb_spec cnt (i_size i - off)); lia. }
  set (n := Z.max 0 (Z.min cnt (i_size i - off))) in *.
  destruct (Z.eqb_spec n 0) as [E|E]; [by rewrite E|].
  destruct (read_loop_run t i (Z.to_nat n) buf off n 0) as (d&->&Hs); [done|done|done|lia..|done|].
  pose proof (file_data_length t i off n ltac:(lia)) as Hl. apply splice_inv in Hs as (_&_&->).
  rewrite Z.add_0_l. replace (Z.to_nat 0 + length (file_data t i off n))%nat with (Z.to_nat n) by lia. done.
Qed.

(** [ext2_read_file] returns the number of bytes between the offset and the end of
    the file, at most [count]; it puts exactly those bytes of the file (zeros for the
    holes) at the start of the buffer, leaves the rest of the buffer and the whole file
    system unchanged, and always ends. *)
Theorem ext2_read_file_exact (t : T) (ino off cnt n : Z) (buf : list Z) :
  live t -> geo (g_fs t) -> ino_readable t ino -> 0 <= off -> 0 <= cnt ->
  n = Z.max 0 (Z.min cnt (i_size (inode_at t ino) - off)) -> n <= Z.of_nat (length buf) ->
  mapped_ok t (inode_at t ino) off (off + n) ->
  ext2_read_file ino (Some buf) off cnt t =
    Some ((n, file_data t (inode_at t ino) off n ++ drop (Z.to_nat n) buf), t).
Proof. apply read_file_eq. Qed.
End FileData.

(** ** The pointer tree *)

Section Tree.
Context `{!Stack}.

(** [t'] agrees with [t] on block [q] (or [q] is the null pointer). *)
Definition keeps (t t' : T) (q : Z) : Prop := q = 0 \/ (blk_ok t q /\ blk_ok t' q /\ blk t' q = blk t q).

(** Entry [idx] of table [b]. *)
Definition fval (t : T) (b idx : Z) : Z := match follow b (mret idx) t with Some (p, _) => p | None => 0 end.

Lemma follow_run t b (m : M T Z) idx : live t -> m t = Some (idx, t) -> 0 <= idx < 256 ->
  follow b m t = Some (fval t b idx, t).
Proof.
  intros Ht Hm Hi. unfold fval. destruct (follow_total t b (mret idx) idx Ht eq_refl Hi) as [p Hp]. rewrite Hp.
  rewrite <-Hp. unfold follow. destruct (b =? 0); [done|].
  destruct (fetch_total t b Ht) as (st&buf&Hf&_). rewrite !(mbind_Some _ _ _ _ _ Hf). cbv beta iota. case_decide; [done|].
  rewrite !(mbind_Some _ _ _ _ _ Hm). done.
Qed.
Lemma fval_frame t t' b idx : live t -> live t' -> keeps t t' b -> fval t' b idx = fval t b idx.
Proof.
  intros Ht Ht' Hk. unfold fval, follow. destruct Hk as [->|(H1&H2&H3)]; [done|]. destruct (b =? 0); [done|].
  rewrite (mbind_Some _ _ _ _ _ (fetch_run t b Ht H1)), (mbind_Some _ _ _ _ _ (fetch_run t' b Ht' H2)), H3.
  cbv beta iota. rewrite !decide_False by tauto. unfold mbind_, mret, ptr_at, mlift. by destruct (get32 _ _).
Qed.

(** The table blocks read to resolve logical block [l]. *)
Definition iptr (i : ext2_inode) (k : Z) : Z := default 0 (zget (i_block i) k).
Definition path (t : T) (i : ext2_inode) (l : Z) : list Z :=
  if l <? 12 then [] else
  if l <? 268 then [iptr i 12] else
  if l <? 65804 then [iptr i 13; fval t (iptr i 13) ((l - 268) / 256)] else
  let l2 := fval t (iptr i 14) ((l - 65804) / 65536) in
  [iptr i 14; l2; fval t l2 ((l - 65804) mod 65536 / 256)].

(** Resolution as a function. *)
Lemma bmap_eq t i l : live t -> geo (g_fs t) -> inode_ok i -> 0 <= l < MAX_LOGICAL ->
  bmap t i l =
    if l <? 12 then iptr i l else
    if l <? 268 then fval t (iptr i 12) (l - 12) else
    if l <? 65804 then fval t (fval t (iptr i 13) ((l - 268) / 256)) ((l - 268) mod 256) else
    fval t (fval t (fval t (iptr i 14) ((l - 65804) / 65536)) ((l - 65804) mod 65536 / 256)) ((l - 65804) mod 65536 mod 256).
Proof.
  intros Ht Hf (Hl&_&_) Hr. unfold bmap, MAX_LOGICAL in *.
  destruct (get_block_eq t i l Hf Hl ltac:(unfold in_w; lia)) as (b12&b13&b14&E12&E13&E14&->).
  unfold iptr. rewrite E12, E13, E14. cbn [from_option id]. destruct (Z.ltb_spec l 12).
  { destruct (i_block_at i l Hl ltac:(lia)) as [p Hp]. unfold mlift. by rewrite Hp. }
  replace (l - 12 <? 256) with (l <? 268) by (destruct (Z.ltb_spec l 268), (Z.ltb_spec (l - 12) 256); lia || done).
  destruct (Z.ltb_spec l 268); [by rewrite (follow_run t b12 _ (l - 12)) by (done || lia)|].
  replace (l - 268 <? 65536) with (l <? 65804) by (destruct (Z.ltb_spec l 65804), (Z.ltb_spec (l - 268) 65536); lia || done).
  destruct (Z.ltb_spec l 65804).
  - rewrite (mbind_Some _ _ _ _ _ (follow_run t b13 _ _ Ht (cdiv_run t (l - 268) 256 ltac:(lia))
      ltac:(split; [apply Z.div_pos; lia|apply Z.div_lt_upper_bound; lia]))).
    by rewrite (follow_run t _ _ _ Ht (cmod_run t (l - 268) 256 ltac:(lia)) ltac:(apply Z.mod_pos_bound; lia)).
  - rewrite (mbind_Some _ _ _ _ _ (follow_run t b14 _ _ Ht (cdiv_run t (l - 65804) 65536 ltac:(lia))
      ltac:(split; [apply Z.div_pos; lia|apply Z.div_lt_upper_bound; lia]))).
    pose proof (Z.mod_pos_bound (l - 65804) 65536 ltac:(lia)). set (r := (l - 65804) mod 65536) in *.
    assert (forall b (k : Z -> M T Z) v, k r t = Some (v, t) -> 0 <= v < 256 ->
              follow b (x <~ cmod (l - 65804) 65536 ;; k x) t = Some (fval t b v, t)) as Hfr.
    { intros b k v Hk Hv. apply follow_run; [done| |done]. rewrite cmod_bind by lia. done. }
    erewrite mbind_Some; [|apply (Hfr _ (fun x => cdiv x 256) (r / 256)); [by apply cdiv_run|]].
    2: { split; [apply Z.div_pos; lia|apply Z.div_lt_upper_bound; lia]. }
    rewrite (Hfr _ (fun x => cmod x 256) (r mod 256)); [done|by apply cmod_run|apply Z.mod_pos_bound; lia].
Qed.

(** Changes to other blocks do not change the map. *)
Lemma path_frame t t' i l : live t -> live t' -> Forall (keeps t t') (path t i l) -> path t' i l = path t i l.
Proof.
  intros Ht Ht'. unfold path. destruct (l <? 12); [done|]. destruct (l <? 268); [done|].
  destruct (l <? 65804); intros Hk; decompose_Forall_hyps; [by rewrite (fval_frame t t')|].
  cbv zeta. rewrite (fval_frame t t' (iptr i 14)), (fval_frame t t') by done. done.
Qed.
Lemma bmap_frame t t' i l : live t -> live t' -> geo (g_fs t) -> geo (g_fs t') -> inode_ok i -> 0 <= l < MAX_LOGICAL ->
  Forall (keeps t t') (path t i l) -> bmap t' i l = bmap t i l.
Proof.
  intros Ht Ht' Hf Hf' Hi Hl. rewrite !bmap_eq by done. unfold path.
  destruct (l <? 12); [done|]. destruct (l <? 268); [|destruct (l <? 65804)]; intros Hk; decompose_Forall_hyps.
  - by apply fval_frame.
  - rewrite (fval_frame t t' (iptr i 13)) by done. by apply fval_frame.
  - rewrite (fval_frame t t' (iptr i 14)) by done. rewrite (fval_frame t t' (fval t (iptr i 14) _)) by done. by apply fval_frame.
Qed.
End Tree.

(** ** Writing over mapped blocks *)

Section Write.
Context `{!Stack}.

Definition touched (a b l : Z) : Prop := a / 1024 <= l /\ l * 1024 < b.

(** Bytes [a, b) of the file are in blocks of their own: mapped, writable, not shared
    with another part of the file, with a pointer table or with the block [ib] of the
    inode, and the tables are readable. *)
Record wmap (t : T) (ib : Z) (i : ext2_inode) (a b : Z) : Prop := {
  wm_data : forall l, touched a b l -> bmap t i l <> 0 /\ blk_ok t (bmap t i l);
  wm_ib : forall l, 0 <= l < MAX_LOGICAL -> bmap t i l <> ib;
  wm_inj : forall l l', touched a b l -> 0 <= l' < MAX_LOGICAL -> bmap t i l' = bmap t i l -> l' = l;
  wm_path : forall l', 0 <= l' < MAX_LOGICAL ->
    Forall (fun q => (q = 0 \/ blk_ok t q) /\ q <> ib /\ forall l, touched a b l -> q <> bmap t i l) (path t i l')
}.

Lemma touched_bound a b l : 0 <= a -> b <= 2 ^ 32 -> touched a b l -> 0 <= l < MAX_LOGICAL.
Proof.
  intros Ha Hb [H1 H2]. assert (0 <= a / 1024) by (apply Z.div_pos; lia). unfold MAX_LOGICAL. lia.
Qed.

(** Writing one touched block keeps the map. *)
Lemma put_keeps t ib i a b l v l' : length v = 1024%nat -> wmap t ib i a b -> touched a b l -> 0 <= l' < MAX_LOGICAL ->
  Forall (keeps t (put_blk t (bmap t i l) v)) (path t i l').
Proof.
  intros Hv Hw Hl Hl'. eapply Forall_impl; [exact (wm_path _ _ _ _ _ Hw l' Hl')|]. intros q ([->|Hq]&_&Hne); [by left|right].
  split; [done|]. split; [done|]. rewrite blk_put by done. rewrite decide_False; [done|]. by apply Hne.
Qed.
Lemma put_wmap t ib i a b l v a' : live t -> geo (g_fs t) -> inode_ok i -> length v = 1024%nat -> Forall byte_ok v ->
  0 <= a <= a' -> b <= 2 ^ 32 -> wmap t ib i a b -> touched a b l ->
  let t' := put_blk t (bmap t i l) v in
  live t' /\ wmap t' ib i a' b /\ forall l', 0 <= l' < MAX_LOGICAL -> bmap t' i l' = bmap t i l' /\ path t' i l' = path t i l'.
Proof.
  intros Ht Hf Hi Hv Hb Ha Hb32 Hw Hl t'. assert (live t') as Ht' by by apply put_blk_live. split; [done|].
  assert (forall l', 0 <= l' < MAX_LOGICAL -> bmap t' i l' = bmap t i l' /\ path t' i l' = path t i l') as Hsame.
  { intros l' Hl'. pose proof (put_keeps t ib i a b l v l' Hv Hw Hl Hl'). split; [by apply bmap_frame|by apply path_frame]. }
  split; [|done]. assert (forall m, touched a' b m -> touched a b m) as Hsub.
  { intros m [H1 H2]. split; [|done]. etrans; [|exact H1]. apply Z.div_le_mono; lia. }
  assert (forall m, touched a b m -> 0 <= m < MAX_LOGICAL) as Hbd by (intros m; apply touched_bound; lia).
  split.
  - intros m Hm%Hsub. rewrite (proj1 (Hsame m (Hbd m Hm))). by apply (wm_data _ _ _ _ _ Hw).
  - intros m Hm. rewrite (proj1 (Hsame m Hm)). by apply (wm_ib _ _ _ _ _ Hw).
  - intros m m' Hm%Hsub Hm'. rewrite (proj1 (Hsame m (Hbd m Hm))), (proj1 (Hsame m' Hm')). by apply (wm_inj _ _ _ _ _ Hw).
  - intros m' Hm'. rewrite (proj2 (Hsame m' Hm')). eapply Forall_impl; [exact (wm_path _ _ _ _ _ Hw m' Hm')|].
    intros q (Hq&Hqi&Hqn). split_and!; [done|done|]. intros m Hm%Hsub. rewrite (proj1 (Hsame m (Hbd m Hm))). by apply Hqn.
Qed.

(** The bytes of the file after one round. *)
Lemma put_byte t ib i a b k v c o : live t -> geo (g_fs t) -> inode_ok i -> 0 <= a -> b <= 2 ^ 32 -> wmap t ib i a b ->
  0 < k -> a + k <= b -> a mod 1024 + k <= 1024 -> Z.of_nat (length c) = k -> Forall byte_ok c ->
  splice (a mod 1024) c (blk t (bmap t i (a / 1024))) = Some v -> 0 <= o < MAX_LOGICAL * 1024 ->
  file_byte (put_blk t (bmap t i (a / 1024)) v) i o =
    if decide (a <= o < a + k) then default 0 (zget c (o - a)) else file_byte t i o.
Proof.
  intros Ht Hf Hi Ha Hb Hw Hk Hkb Hkm Hc Hcb Hs Ho. pose proof (Z.mod_pos_bound a 1024 ltac:(lia)) as Hm.
  pose proof (Z.div_mod a 1024 ltac:(lia)) as Ea. pose proof (Z.div_mod o 1024 ltac:(lia)) as Eo.
  pose proof (Z.mod_pos_bound o 1024 ltac:(lia)) as Hmo.
  assert (touched a b (a / 1024)) as Htch by (split; lia).
  assert (length v = 1024%nat) as Hv by (rewrite (splice_length _ _ _ _ Hs); by apply blk_length).
  assert (Forall byte_ok v) as Hvb by (eapply splice_bytes; [done|done|by apply blk_bytes]).
  destruct (put_wmap t ib i a b _ v a Ht Hf Hi Hv Hvb ltac:(lia) Hb Hw Htch) as (Ht'&_&Hsame).
  assert (0 <= o / 1024 < MAX_LOGICAL) as Hlo by (split; [apply Z.div_pos; lia|apply Z.div_lt_upper_bound; lia]).
  unfold file_byte. rewrite (proj1 (Hsame _ Hlo)). rewrite blk_put by done.
  destruct (decide (bmap t i (o / 1024) = bmap t i (a / 1024))) as [E|E].
  - apply (wm_inj _ _ _ _ _ Hw _ _ Htch Hlo) in E. rewrite E.
    rewrite (proj2 (Z.eqb_neq _ 0)) by apply (wm_data _ _ _ _ _ Hw _ Htch).
    pose proof (blk_length t (bmap t i (a / 1024)) Ht) as Hbl. apply splice_inv in Hs as (_&_&->).
    unfold zget. rewrite (proj2 (Z.leb_le 0 (o mod 1024))) by lia. case_decide as Hr.
    + rewrite (proj2 (Z.leb_le 0 (o - a))) by lia. rewrite lookup_app_r by (rewrite length_take; lia).
      rewrite lookup_app_l by (rewrite length_take; lia). rewrite length_take. do 2 f_equal. lia.
    + f_equal. destruct (decide (o < a)).
      * rewrite lookup_app_l by (rewrite length_take; lia). apply lookup_take_lt. lia.
      * rewrite lookup_app_r by (rewrite length_take; lia). rewrite length_take.
        rewrite lookup_app_r by lia. rewrite lookup_drop. f_equal. lia.
  - rewrite decide_False; [done|]. intros Hr. apply E. f_equal. lia.
Qed.

(** One round of the loop on a mapped block. *)
Lemma write_round t ib ino i src pos cnt tot n :
  live t -> geo (g_fs t) -> inode_ok i -> 0 <= pos -> 0 < cnt -> pos + cnt < 2 ^ 32 -> 0 <= tot ->
  tot + cnt <= Z.of_nat (length src) -> wmap t ib i pos (pos + cnt) ->
  exists k c v, 0 < k <= cnt /\ pos mod 1024 + k <= 1024 /\ slice tot k src = Some c /\
    splice (pos mod 1024) c (blk t (bmap t i (pos / 1024))) = Some v /\
    write_file_loop (S n) ino i src pos cnt tot t =
      write_file_loop n ino i src (pos + k) (cnt - k) (tot + k) (put_blk t (bmap t i (pos / 1024)) v).
Proof.
  intros Ht Hf Hi Hp Hc Hlim Htot Hlen Hw. pose proof (Z.mod_pos_bound pos 1024 ltac:(lia)) as Hbo.
  destruct (chunk_size cnt (pos mod 1024)) as (k&Ek&Hk&Hkb); [lia..|].
  set (c := take (Z.to_nat k) (drop (Z.to_nat tot) src)).
  assert (slice tot k src = Some c) as Hsl by (by rewrite slice_Some by lia).
  pose proof (slice_length _ _ _ _ Hsl) as Hcl. pose proof (blk_length t (bmap t i (pos / 1024)) Ht) as Hbl.
  destruct (splice (pos mod 1024) c (blk t (bmap t i (pos / 1024)))) as [v|] eqn:Hs; [|rewrite splice_Some in Hs by lia; done].
  exists k, c, v. split_and!; [lia..|done|done|]. destruct (wm_data _ _ _ _ _ Hw (pos / 1024)) as (Hn0&Hbok).
  { split; [lia|]. pose proof (Z.div_mod pos 1024). lia. }
  cbn [write_file_loop]. rewrite (proj2 (Z.leb_gt cnt 0)) by lia. fs_step. rewrite (geo_bs _ Hf).
  rewrite (mbind_Some _ _ _ _ _ (cdiv_run t pos 1024 ltac:(lia))). cbv zeta.
  destruct (div_lt_logical pos ltac:(lia)) as [Hl Eu]. rewrite Eu.
  rewrite (mbind_Some _ _ _ _ _ (cmod_run t pos 1024 ltac:(lia))), Ek.
  assert (map_block ino i (pos / 1024) t = Some ((bmap t i (pos / 1024), i), t)) as Hmb.
  { unfold map_block. rewrite (mbind_Some _ _ _ _ _ (bmap_run t i _ Ht Hf Hi Hl)). by rewrite (proj2 (Z.eqb_neq _ 0)). }
  mstep Hmb. cbv beta iota. rewrite (proj2 (Z.eqb_neq _ 0)) by done.
  assert (exists b, (if (0 <? pos mod 1024) || (k <? 1024) then fetch (bmap t i (pos / 1024)) else return (EXT2_OK, junk)) t =
            Some ((EXT2_OK, b), t) /\ splice (pos mod 1024) c b = Some v) as (b&Hrb&Hsb).
  { destruct (_ || _) eqn:E; [exists (blk t (bmap t i (pos / 1024))); split; [by apply fetch_run|done]|]. exists junk. split; [done|].
    apply orb_false_iff in E as [E1%Z.ltb_ge E2%Z.ltb_ge]. pose proof junk_len. replace (pos mod 1024) with 0 in * by lia.
    rewrite splice_Some in Hs |- * by lia. rewrite <-Hs, !drop_ge by lia. done. }
  mstep Hrb. cbv beta iota. rewrite decide_False by tauto. lift_step Hsl. lift_step Hsb.
  assert (length v = 1024%nat) by (rewrite (splice_length _ _ _ _ Hs); done).
  rewrite (mbind_Some _ _ _ _ _ (write_blk_run t _ v Ht Hbok ltac:(done))). rewrite decide_False by tauto.
  unfold u64. rewrite wrap_small by (unfold in_w; lia). done.
Qed.

(** The state after bytes [pos, pos + cnt) were replaced by [src] from [tot]. *)
Record wrote (t : T) (i : ext2_inode) (src : list Z) (pos cnt tot : Z) (t' : T) : Prop := {
  wr_live : live t';
  wr_fs : g_fs t' = g_fs t;
  wr_ok : forall n, blk_ok t' n <-> blk_ok t n;
  wr_map : forall l, 0 <= l < MAX_LOGICAL -> bmap t' i l = bmap t i l /\ path t' i l = path t i l;
  wr_data : forall o, 0 <= o < MAX_LOGICAL * 1024 -> file_byte t' i o =
    if decide (pos <= o < pos + cnt) then default 0 (zget src (tot + (o - pos))) else file_byte t i o;
  wr_frame : forall n, (forall l, touched pos (pos + cnt) l -> n <> bmap t i l) -> blk t' n = blk t n
}.

Lemma slice_zget tot k src c j : slice tot k src = Some c -> 0 <= j < k -> zget c j = zget src (tot + j).
Proof.
  intros (?&?&?&->)%slice_inv Hj. unfold zget. rewrite !(proj2 (Z.leb_le _ _)) by lia.
  rewrite lookup_take_lt, lookup_drop by lia. f_equal. lia.
Qed.

Lemma write_loop_run n ib ino i src : inode_ok i -> Forall byte_ok src -> forall t pos cnt tot,
  live t -> geo (g_fs t) -> 0 <= pos -> 0 <= cnt -> pos + cnt < 2 ^ 32 -> 0 <= tot ->
  tot + cnt <= Z.of_nat (length src) -> cnt <= Z.of_nat n -> wmap t ib i pos (pos + cnt) ->
  exists t', write_file_loop n ino i src pos cnt tot t = Some (inr (i, pos + cnt, tot + cnt), t') /\ wrote t i src pos cnt tot t'.
Proof.
  intros Hi Hsrc. induction n as [|n IH]; intros t pos cnt tot Ht Hf Hp Hc Hlim Htot Hlen Hn Hw;
    (destruct (decide (cnt = 0)) as [->|Hc0];
     [exists t; rewrite !Z.add_0_r; split; [done|]; split; [done..| |done]; intros o _; by rewrite decide_False by lia|]); [lia|].
  destruct (write_round t ib ino i src pos cnt tot n Ht Hf Hi Hp ltac:(lia) Hlim Htot Hlen Hw) as (k&c&v&Hk&Hkb&Hsl&Hs&->).
  pose proof (slice_length _ _ _ _ Hsl) as Hcl. pose proof (Z.mod_pos_bound pos 1024 ltac:(lia)).
  assert (Forall byte_ok c) as Hcb by (apply slice_inv in Hsl as (_&_&_&->); by apply Forall_take, Forall_drop).
  assert (length v = 1024%nat) as Hv by (rewrite (splice_length _ _ _ _ Hs); by apply blk_length).
  assert (Forall byte_ok v) as Hvb by (eapply splice_bytes; [done|done|by apply blk_bytes]).
  assert (touched pos (pos + cnt) (pos / 1024)) as Htch by (split; [lia|pose proof (Z.div_mod pos 1024); lia]).
  destruct (put_wmap t ib i pos (pos + cnt) _ v (pos + k) Ht Hf Hi Hv Hvb ltac:(lia) ltac:(lia) Hw Htch) as (Ht1&Hw1&Hsame).
  set (t1 := put_blk t (bmap t i (pos / 1024)) v) in *. replace (pos + cnt) with (pos + k + (cnt - k)) in Hw1 by lia.
  destruct (IH t1 (pos + k) (cnt - k) (tot + k)) as (t'&Hr&[]); [done|done|lia..|done|].
  exists t'. replace (pos + k + (cnt - k)) with (pos + cnt) in * by lia. replace (tot + k + (cnt - k)) with (tot + cnt) in Hr by lia.
  split; [done|]. split; [done..| | |].
  - intros l Hl. destruct (Hsame l Hl) as [<- <-]. auto.
  - intros o Ho. rewrite wr_data0 by done. unfold t1.
    rewrite (put_byte t ib i pos (pos + cnt) k v c o) by (done || lia).
    destruct (decide (pos + k <= o < pos + cnt)); [rewrite decide_True by lia; do 2 f_equal; lia|].
    destruct (decide (pos <= o < pos + k)); [rewrite decide_True by lia|by rewrite decide_False by lia].
    rewrite (slice_zget _ _ _ _ _ Hsl) by lia. done.
  - intros m Hm. rewrite wr_frame0.
    + unfold t1. rewrite blk_put, decide_False by (done || by apply Hm). done.
    + intros l [Hl1 Hl2]. assert (touched pos (pos + cnt) l) as Hl.
      { split; [|done]. etrans; [|exact Hl1]. apply Z.div_le_mono; lia. }
      rewrite (proj1 (Hsame l (touched_bound pos (pos + cnt) l Hp ltac:(lia) Hl))). by apply Hm.
Qed.

(** Writing the inode back does not touch the file. *)
Lemma put_inode_byte t i ino i' a b o : live t -> geo (g_fs t) -> inode_ok i -> inode_ok i' -> i_block i' = i_block i ->
  wmap t (inode_block (g_fs t) ino) i a b -> 0 <= o < MAX_LOGICAL * 1024 ->
  file_byte (put_inode t ino i') i' o = file_byte t i o /\
  (bmap t i (o / 1024) <> 0 -> bmap (put_inode t ino i') i' (o / 1024) = bmap t i (o / 1024)).
Proof.
  intros Ht Hf Hi Hi' Heq Hw Ho. set (t' := put_inode t ino i').
  assert (0 <= o / 1024 < MAX_LOGICAL) as Hl by (split; [apply Z.div_pos; lia|apply Z.div_lt_upper_bound; lia]).
  assert (live t') as Ht'.
  { destruct (put_inode_splice t ino i' Ht Hf Hi') as (x&Hx&?&?). unfold t', put_inode. rewrite Hx. by apply put_blk_live. }
  assert (bmap t' i' (o / 1024) = bmap t i (o / 1024)) as Hb.
  { transitivity (bmap t' i (o / 1024)); [rewrite !bmap_eq by done; unfold iptr; by rewrite Heq|].
    apply bmap_frame; [done..|]. eapply Forall_impl; [exact (wm_path _ _ _ _ _ Hw _ Hl)|].
    intros q ([->|Hq]&Hqi&_); [by left|right]. split; [done|]. split; [done|]. by apply blk_put_inode. }
  split; [|done]. unfold file_byte. rewrite Hb. destruct (_ =? 0); [done|].
  unfold t'. by rewrite blk_put_inode by (done || by apply (wm_ib _ _ _ _ _ Hw)).
Qed.

Lemma wrote_wmap t ib i src a b cnt tot t' : 0 <= a -> b <= 2 ^ 32 ->
  wrote t i src a cnt tot t' -> wmap t ib i a b -> wmap t' ib i a b.
Proof.
  intros Ha Hb [_ _ Hok Hmap _ _] [W1 W2 W3 W4].
  assert (forall l, touched a b l -> 0 <= l < MAX_LOGICAL) as Htb by (intros l; apply touched_bound; lia). split.
  - intros l Hl. rewrite (proj1 (Hmap l (Htb l Hl))), Hok. by apply W1.
  - intros l Hl. rewrite (proj1 (Hmap l Hl)). by apply W2.
  - intros l l' Hl Hl'. rewrite (proj1 (Hmap l (Htb l Hl))), (proj1 (Hmap l' Hl')). by apply W3.
  - intros l' Hl'. rewrite (proj2 (Hmap l' Hl')). eapply Forall_impl; [exact (W4 l' Hl')|]. intros q (Hq&?&Hn).
    split_and!; [by rewrite Hok|done|]. intros l Hl. rewrite (proj1 (Hmap l (Htb l Hl))). by apply Hn.
Qed.

Lemma set_i_size_id i : set_i_size i (i_size i) = i.
Proof. by destruct i. Qed.
Lemma set_i_size_ok i v : inode_ok i -> in_w 32 v -> inode_ok (set_i_size i v).
Proof.
  intros (H1&H2&H3) Hv. split_and!; [done..|]. unfold fields_ok, inode_fields in *. cbn [set_i_size i_mode i_uid i_size i_atime i_ctime
    i_mtime i_dtime i_gid i_links_count i_blocks i_flags i_osd1 i_block i_generation i_file_acl i_size_high i_fsize i_osd2] in *.
  inversion H3 as [|? ? ? ? Ha H3a]; subst. inversion H3a as [|? ? ? ? Hb H3b]; subst. inversion H3b as [|? ? ? ? _ H3c]; subst.
  do 3 (constructor; [done|]). exact H3c.
Qed.

Lemma write_file_run t ino off src :
  let i := inode_at t ino in let cnt := Z.of_nat (length src) in
  live t -> geo (g_fs t) -> ino_readable t ino -> 0 <= off -> off + cnt < 2 ^ 32 -> Forall byte_ok src ->
  wmap t (inode_block (g_fs t) ino) i off (off + cnt) ->
  exists t', ext2_write_file ino (Some src) off cnt t = Some (cnt, t') /\ live t' /\ g_fs t' = g_fs t /\
    (forall n, blk_ok t' n <-> blk_ok t n) /\
    inode_at t' ino = set_i_size i (Z.max (i_size i) (off + cnt)) /\
    (forall o, 0 <= o < MAX_LOGICAL * 1024 -> file_byte t' (inode_at t' ino) o =
       if decide (off <= o < off + cnt) then default 0 (zget src (o - off)) else file_byte t i o) /\
    (forall l, touched off (off + cnt) l -> bmap t' (inode_at t' ino) l = bmap t i l).
Proof.
  intros i cnt Ht Hf Hr Ho Hlim Hsrc Hw. assert (inode_ok i) as Hi by by apply inode_at_ok.
  pose proof (i_size_range i Hi) as [Hs0 Hs1].
  destruct (write_loop_run (Z.to_nat cnt) _ ino i src Hi Hsrc t off cnt 0 Ht Hf Ho ltac:(lia) Hlim ltac:(lia) ltac:(lia) ltac:(lia) Hw)
    as (t1&Hrun&Hwr1). pose proof Hwr1 as [Ht1 Hfs1 Hok1 Hmap1 Hdata1 Hfr1].
  assert (inode_at t1 ino = i) as Hi1.
  { unfold inode_at. rewrite Hfs1, Hfr1; [done|]. intros l Hl.
    apply not_eq_sym, (wm_ib _ _ _ _ _ Hw). eapply touched_bound; [exact Ho| |exact Hl]. lia. }
  assert (geo (g_fs t1)) as Hf1 by by rewrite Hfs1.
  assert (forall o, 0 <= o < MAX_LOGICAL * 1024 -> file_byte t1 i o =
    if decide (off <= o < off + cnt) then default 0 (zget src (o - off)) else file_byte t i o) as Hdata by (intros; by apply Hdata1).
  assert (ext2_write_file ino (Some src) off cnt t =
    (if i_size i <? off + cnt then ext2_write_inode ino (set_i_size i (u32 (off + cnt))) ;;; return cnt else return cnt) t1) as ->.
  { unfold ext2_write_file. fs_step. rewrite (proj2 Ht). cbn [negb]. rewrite bool_decide_eq_false_2 by done. cbn [andb].
    rewrite (mbind_Some _ _ _ _ _ (read_inode_run t ino Ht Hf Hr)). cbn [from_option id]. fold i. mstep Hrun. cbv beta iota.
    destruct (_ <? _); [|done]. unfold mbind_, mret. by destruct (ext2_write_inode _ _ t1) as [[? ?]|]. }
  assert (forall l, touched off (off + cnt) l -> 0 <= l < MAX_LOGICAL) as Htb by (intros l; apply touched_bound; lia).
  destruct (Z.ltb_spec (i_size i) (off + cnt)).
  - unfold u32. rewrite wrap_small by (unfold in_w; lia). set (i' := set_i_size i (off + cnt)).
    assert (inode_ok i') as Hi' by (apply set_i_size_ok; [done|unfold in_w; lia]).
    assert (ino_readable t1 ino) as Hr1 by (destruct Hr; split; rewrite Hfs1; [done|by apply Hok1]).
    destruct (write_inode_run t1 ino i' Ht1 Hf1 Hr1 Hi') as [Hwr Ht2]. mstep Hwr. exists (put_inode t1 ino i').
    assert (inode_at (put_inode t1 ino i') ino = i') as Ei by (rewrite inode_at_put by (done || by left); by rewrite decide_True).
    rewrite Ei, Z.max_r by lia.
    assert (wmap t1 (inode_block (g_fs t1) ino) i off (off + cnt)) as Hw1.
    { rewrite Hfs1. apply (wrote_wmap t _ i src off (off + cnt) cnt 0 t1); [done|lia|done|done]. }
    pose proof (fun o => put_inode_byte t1 i ino i' off (off + cnt) o Ht1 Hf1 Hi Hi' eq_refl Hw1) as Hpb.
    split_and!; [done|done|done|by apply Hok1|done| |].
    + intros o Hoo. rewrite (proj1 (Hpb o Hoo)). by apply Hdata.
    + intros l Hl. pose proof (Htb l Hl). replace l with (l * 1024 / 1024) at 1 by (apply Z.div_mul; lia).
      rewrite (proj2 (Hpb (l * 1024) ltac:(lia))); rewrite Z.div_mul, (proj1 (Hmap1 l (Htb l Hl))) by lia; [done|]. by apply (wm_data _ _ _ _ _ Hw).
  - exists t1. rewrite Hi1, Z.max_l, set_i_size_id by lia. split_and!; [done..|]. intros l Hl. apply Hmap1. auto.
Qed.
End Write.

(** C9: writing [src] over mapped blocks of a file returns its length and makes the
    file's bytes from the offset on be [src], keeps every other byte of the file, grows
    the size to the end of the write when that is larger, keeps every other field of the
    inode and [g_fs], and a read of the same range then returns [src]. *)
Theorem ext2_write_read_roundtrip `{!Stack} (t : T) (ino off : Z) (src buf : list Z) :
  live t -> geo (g_fs t) -> ino_readable t ino -> 0 <= off -> off + Z.of_nat (length src) < 2 ^ 32 ->
  Forall byte_ok src -> length buf = length src ->
  wmap t (inode_block (g_fs t) ino) (inode_at t ino) off (off + Z.of_nat (length src)) ->
  exists t', ext2_write_file ino (Some src) off (Z.of_nat (length src)) t = Some (Z.of_nat (length src), t') /\
    live t' /\ g_fs t' = g_fs t /\
    inode_at t' ino = set_i_size (inode_at t ino) (Z.max (i_size (inode_at t ino)) (off + Z.of_nat (length src))) /\
    (forall o, 0 <= o < MAX_LOGICAL * 1024 -> file_byte t' (inode_at t' ino) o =
       if decide (off <= o < off + Z.of_nat (length src)) then default 0 (zget src (o - off))
       else file_byte t (inode_at t ino) o) /\
    ext2_read_file ino (Some buf) off (Z.of_nat (length src)) t' = Some ((Z.of_nat (length src), src), t').
Proof.
  intros Ht Hf Hr Ho Hlim Hsrc Hbuf Hw.
  destruct (write_file_run t ino off src Ht Hf Hr Ho Hlim Hsrc Hw) as (t'&Hrun&Ht'&Hfs&Hok&Hi&Hd&Hm).
  exists t'. split_and!; [done..|]. set (cnt := Z.of_nat (length src)) in *. set (i' := inode_at t' ino) in *.
  assert (i_size i' = Z.max (i_size (inode_at t ino)) (off + cnt)) as Hsz by by rewrite Hi.
  assert (file_data t' i' off cnt = src) as Hdata.
  { pose proof (file_data_length t' i' off cnt ltac:(lia)).
    apply list_eq_same_length with (length src); [done|lia|]. intros k x y Hk. rewrite file_data_lookup by lia.
    intros [= <-] Hy. rewrite Hd, decide_True by (unfold MAX_LOGICAL; lia).
    replace (off + Z.of_nat k - off) with (Z.of_nat k) by lia. by rewrite zget_nat, Hy. }
  rewrite (read_file_eq t' ino off cnt cnt buf); [|done|by rewrite Hfs| |done|lia|fold i'; lia|lia|].
  - fold i'. rewrite Hdata. replace (Z.to_nat cnt) with (length buf) by lia. by rewrite drop_all, app_nil_r.
  - destruct Hr as [Hr1 Hr2]. split; rewrite Hfs; [done|by apply Hok].
  - intros l Hl1 Hl2 _. assert (touched off (off + cnt) l) as Hl by by split.
    fold i'. rewrite (Hm l Hl), Hok. by apply (wm_data _ _ _ _ _ Hw).
Qed.

(** ** Files with direct blocks only *)

Definition direct_only (i : ext2_inode) : Prop := iptr i 12 = 0 /\ iptr i 13 = 0 /\ iptr i 14 = 0.
Lemma direct_bmap `{!Stack} (t : T) i l : live t -> geo (g_fs t) -> inode_ok i -> direct_only i -> 0 <= l < MAX_LOGICAL ->
  bmap t i l = (if l <? 12 then iptr i l else 0) /\ Forall (fun q => q = 0) (path t i l).
Proof.
  intros Ht Hf Hi (E12&E13&E14) Hl. rewrite bmap_eq by done. unfold path. rewrite E12, E13, E14. cbv zeta.
  change (fval t 0) with (fun _ : Z => 0). cbv beta.
  destruct (l <? 12), (l <? 268), (l <? 65804); (split; [done|]); repeat constructor.
Qed.

Definition inode2 : ext2_inode :=
  set_i_block_list (set_i_size (set_i_mode zero_inode 0x81A4) 2000) ([20; 21] ++ replicate 13 0).
Lemma inode2_ok : inode_ok inode2.
Proof. split_and!; [done..|]. repeat constructor; done. Qed.
(** The image of the tests with a file of 2000 bytes as inode 12. *)
Definition disk4 : T := put_inode disk2 12 inode2.
Lemma disk2_readable ino : 0 < ino < 33 -> ino_readable disk2 ino.
Proof. apply disk1_readable. Qed.
Lemma disk4_live : live disk4.
Proof. apply (@write_inode_run junk0); [exact disk2_live|exact fs1_geo|apply disk2_readable; lia|exact inode2_ok]. Qed.
Lemma disk4_inode : inode_at disk4 12 = inode2.
Proof.
  unfold disk4. rewrite inode_at_put; [done|exact disk2_live|exact fs1_geo|exact inode2_ok|by left].
Qed.
Lemma disk4_ok n : 0 <= n < 64 -> blk_ok disk4 n.
Proof.
  intros Hn. unfold blk_ok, good_blk, in_w. change (agood (store disk4)) with good64. change (dev_id (g_fs disk4)) with 0.
  unfold good64. rewrite !(proj2 (Z.leb_le _ _)), !(proj2 (Z.ltb_lt _ _)) by lia. split; [lia|done].
Qed.
Lemma disk4_direct l : 0 <= l < MAX_LOGICAL ->
  @bmap junk0 disk4 inode2 l = (if l <? 12 then iptr inode2 l else 0) /\ Forall (fun q => q = 0) (@path junk0 disk4 inode2 l).
Proof. intros. apply direct_bmap; [exact disk4_live|exact fs1_geo|exact inode2_ok|done|done]. Qed.
Lemma inode2_ptr l : 0 <= l < 12 -> iptr inode2 l = if decide (l = 0) then 20 else if decide (l = 1) then 21 else 0.
Proof.
  intros Hl. replace l with (Z.of_nat (Z.to_nat l)) by lia. assert (Z.to_nat l < 12)%nat as Hk by lia.
  revert Hk. generalize (Z.to_nat l). intros k Hk. do 12 (destruct k as [|k]; [reflexivity|]). lia.
Qed.
Lemma disk4_bmap l : 0 <= l < MAX_LOGICAL ->
  @bmap junk0 disk4 inode2 l = if decide (l = 0) then 20 else if decide (l = 1) then 21 else 0.
Proof.
  intros Hl. rewrite (proj1 (disk4_direct l Hl)). destruct (Z.ltb_spec l 12); [apply inode2_ptr; lia|].
  by rewrite !decide_False by lia.
Qed.
Lemma disk4_wmap : @wmap junk0 disk4 (inode_block (g_fs disk4) 12) inode2 1000 1100.
Proof.
  assert (inode_block (g_fs disk4) 12 = 6) as -> by reflexivity.
  assert (forall l, touched 1000 1100 l -> l = 0 \/ l = 1) as Ht.
  { intros l [H1 H2]. change (1000 / 1024) with 0 in H1. lia. }
  split.
  - intros l [-> | ->]%Ht; rewrite disk4_bmap by (unfold MAX_LOGICAL; lia); (split; [done|]); apply disk4_ok; by vm_compute.
  - intros l Hl. rewrite disk4_bmap by done. repeat case_decide; lia.
  - intros l l' Hl%Ht Hl'. rewrite !disk4_bmap by (done || unfold MAX_LOGICAL; lia). destruct Hl as [-> | ->]; repeat case_decide; done || lia.
  - intros l' Hl'. eapply Forall_impl; [exact (proj2 (disk4_direct l' Hl'))|]. intros q ->. split; [by left|]. split; [done|].
    intros l [-> | ->]%Ht; rewrite disk4_bmap by (unfold MAX_LOGICAL; lia); by vm_compute.
Qed.

Lemma ext2_write_read_roundtrip_witness :
  let src := replicate 100 7 in
  exists t', @ext2_write_file _ _ junk0 12 (Some src) 1000 (Z.of_nat (length src)) disk4 = Some (Z.of_nat (length src), t') /\
    live t' /\ g_fs t' = g_fs disk4 /\
    inode_at t' 12 = set_i_size (inode_at disk4 12) (Z.max (i_size (inode_at disk4 12)) (1000 + Z.of_nat (length src))) /\
    (forall o, 0 <= o < MAX_LOGICAL * 1024 -> @file_byte junk0 t' (inode_at t' 12) o =
       if decide (1000 <= o < 1000 + Z.of_nat (length src)) then default 0 (zget src (o - 1000))
       else @file_byte junk0 disk4 (inode_at disk4 12) o) /\
    @ext2_read_file _ _ junk0 12 (Some (replicate 100 0)) 1000 (Z.of_nat (length src)) t' = Some ((Z.of_nat (length src), src), t').
Proof.
  apply (@ext2_write_read_roundtrip junk0 disk4 12 1000 (replicate 100 7) (replicate 100 0)).
  - exact disk4_live.
  - exact fs1_geo.
  - apply disk1_readable. lia.
  - lia.
  - by vm_compute.
  - apply Forall_replicate. unfold byte_ok. lia.
  - reflexivity.
  - rewrite disk4_inode. exact disk4_wmap.
Defined.

Lemma ext2_read_file_exact_witness :
  @ext2_read_file _ _ junk0 12 (Some (replicate 1100 9)) 1000 1100 disk4 =
    Some ((1000, @file_data junk0 disk4 (inode_at disk4 12) 1000 1000 ++ drop (Z.to_nat 1000) (replicate 1100 9)), disk4).
Proof.
  apply (@ext2_read_file_exact junk0 disk4 12 1000 1100 1000 (replicate 1100 9)).
  - exact disk4_live.
  - exact fs1_geo.
  - apply disk1_readable. lia.
  - lia.
  - lia.
  - rewrite disk4_inode. reflexivity.
  - by vm_compute.
  - rewrite disk4_inode. intros l H1 H2. change (1000 / 1024) with 0 in H1. assert (l = 0 \/ l = 1) as [-> | ->] by lia;
      rewrite disk4_bmap by (unfold MAX_LOGICAL; lia); intros _; apply disk4_ok; by vm_compute.
Defined.

Definition inode3 : ext2_inode := set_i_block_list inode2 (replicate 14 0 ++ [30]).
Lemma inode3_ok : inode_ok inode3.
Proof. split_and!; [done..|]. repeat constructor; done. Qed.
Lemma ext2_get_block_bounds_witness :
  (exists p, @ext2_inode_get_block _ _ junk0 inode3 (MAX_LOGICAL - 1) disk4 = Some (p, disk4)) /\
  @ext2_inode_get_block _ _ junk0 inode3 MAX_LOGICAL disk4 = None.
Proof.
  split.
  - pose proof (@ext2_get_block_bounds junk0 disk4 inode3 (MAX_LOGICAL - 1) 30 disk4_live fs1_geo inode3_ok
      ltac:(by vm_compute) eq_refl ltac:(done) (disk4_ok 30 ltac:(lia))) as H. rewrite decide_True in H by lia. exact H.
  - pose proof (@ext2_get_block_bounds junk0 disk4 inode3 MAX_LOGICAL 30 disk4_live fs1_geo inode3_ok
      ltac:(by vm_compute) eq_refl ltac:(done) (disk4_ok 30 ltac:(lia))) as H. rewrite decide_False in H by lia. exact H.
Defined.
