(* ===== verification/Ext2DirSpec.v ===== *)
(** * ext2: correctness of directories and paths

    A directory block is the concatenation of its entries' encodings ([dir_blk]).  The
    byte-level scans of Ext2Dir.v are shown to be the search in the list of entries;
    removal and insertion to be updates of that list; path resolution to be the fold of
    lookups over the components of the path. *)

From stdpp Require Import base numbers gmap list options.
From S2P Require Import Prelude BlockDev Bcache Ext2Data Ext2 Ext2File Ext2Dir Ext2Sim Ext2Spec Ext2Alloc Ext2FileSpec.

(** ** Entries *)

Record dent := Dent { d_ino : Z; d_type : Z; d_name : list Z; d_pad : list Z }.
Definition dent_len (d : dent) : Z := 8 + Z.of_nat (length (d_name d)) + Z.of_nat (length (d_pad d)).
Definition enc_dent (d : dent) : list Z :=
  le_enc 4 (d_ino d) ++ le_enc 2 (dent_len d) ++ le_enc 1 (Z.of_nat (length (d_name d))) ++ le_enc 1 (d_type d) ++
  d_name d ++ d_pad d.
Definition dent_ok (d : dent) : Prop :=
  in_w 32 (d_ino d) /\ in_w 8 (d_type d) /\ Z.of_nat (length (d_name d)) < 256 /\ dent_len d <= 1024 /\
  Forall byte_ok (d_name d) /\ Forall byte_ok (d_pad d).
Definition enc_dents (es : list dent) : list Z := es ≫= enc_dent.
(** The block [b] holds exactly the entries [es]. *)
Definition dir_blk (es : list dent) (b : list Z) : Prop :=
  b = enc_dents es /\ length b = 1024%nat /\ Forall dent_ok es.

(** The entry is in use and has this name. *)
Definition is_entry (name : list Z) (d : dent) : bool := negb (d_ino d =? 0) && bool_decide (d_name d = name).
(** The inode of the first entry with the name, 0 if there is none. *)
Definition dir_find (name : list Z) (es : list dent) : Z :=
  match list_find (fun d => is_entry name d) es with Some (_, d) => d_ino d | None => 0 end.

Lemma enc_dent_length d : Z.of_nat (length (enc_dent d)) = dent_len d.
Proof. unfold enc_dent, dent_len. rewrite !length_app, !le_enc_length. lia. Qed.
Lemma dent_len_pos d : 8 <= dent_len d.
Proof. unfold dent_len. lia. Qed.

(** The fields of an entry in the middle of a block. *)
Lemma dent_fields d pre suf : dent_ok d ->
  let buf := pre ++ enc_dent d ++ suf in let off := Z.of_nat (length pre) in
  get32 off buf = Some (d_ino d) /\ get16 (off + 4) buf = Some (dent_len d) /\
  get8 (off + 6) buf = Some (Z.of_nat (length (d_name d))) /\ get8 (off + 7) buf = Some (d_type d) /\
  slice (off + 8) (Z.of_nat (length (d_name d))) buf = Some (d_name d).
Proof.
  intros (Hi&Ht&Hn&Hl&_&_) buf off. pose proof (dent_len_pos d). unfold buf, off, enc_dent.
  set (A := le_enc 4 (d_ino d)). set (B := le_enc 2 (dent_len d)). set (C := le_enc 1 (Z.of_nat (length (d_name d)))).
  set (D := le_enc 1 (d_type d)). set (N := d_name d). set (P := d_pad d).
  assert (length A = 4%nat /\ length B = 2%nat /\ length C = 1%nat /\ length D = 1%nat) as (LA&LB&LC&LD) by (unfold A, B, C, D; by rewrite !le_enc_length).
  unfold in_w in *. split_and!.
  - rewrite <-!app_assoc. apply (get_le_at 4); [done|lia|change (256 ^ 4) with (2 ^ 32); lia].
  - replace (pre ++ _ ++ suf) with ((pre ++ A) ++ B ++ (C ++ D ++ N ++ P ++ suf)) by (by rewrite <-!app_assoc).
    apply (get_le_at 2); [rewrite length_app; lia|lia|change (256 ^ 2) with 65536; lia].
  - replace (pre ++ _ ++ suf) with ((pre ++ A ++ B) ++ C ++ (D ++ N ++ P ++ suf)) by (by rewrite <-!app_assoc).
    apply (get_le_at 1); [rewrite !length_app; lia|lia|change (256 ^ 1) with 256; unfold N; lia].
  - replace (pre ++ _ ++ suf) with ((pre ++ A ++ B ++ C) ++ D ++ (N ++ P ++ suf)) by (by rewrite <-!app_assoc).
    apply (get_le_at 1); [rewrite !length_app; lia|lia|change (256 ^ 1) with 256; lia].
  - replace (pre ++ _ ++ suf) with ((pre ++ A ++ B ++ C ++ D) ++ N ++ (P ++ suf)) by (by rewrite <-!app_assoc).
    apply slice_app_at; [rewrite !length_app; lia|done].
Qed.

Section Scan.
(** Scanning position: after the entries [pre], before the entry [d]. *)
Lemma entry_here_dent d pre suf : dent_ok d -> length (pre ++ enc_dent d ++ suf) = 1024%nat ->
  entry_here 1024 (pre ++ enc_dent d ++ suf) (Z.of_nat (length pre)) = Some (Some (dent_len d)).
Proof.
  intros Hd Hl. destruct (dent_fields d pre suf Hd) as (_&Hr&_). pose proof (dent_len_pos d). pose proof (enc_dent_length d).
  rewrite !length_app in Hl. unfold entry_here, rec_len_at. rewrite (proj2 (Z.ltb_lt _ _)) by lia. cbn [negb]. rewrite Hr.
  cbn [mbind option_bind]. rewrite (proj2 (Z.eqb_neq _ _)), (proj2 (Z.ltb_ge _ _)) by lia. done.
Qed.
Lemma entry_here_end pre : length pre = 1024%nat -> entry_here 1024 pre (Z.of_nat (length pre)) = Some None.
Proof. intros ->. done. Qed.
Lemma entry_matches_dent d pre suf name : dent_ok d -> Z.of_nat (length name) < 256 ->
  entry_matches (pre ++ enc_dent d ++ suf) (Z.of_nat (length pre)) name = Some (is_entry name d).
Proof.
  intros Hd Hn. destruct (dent_fields d pre suf Hd) as (Hi&_&Hl&_&Hs). unfold entry_matches, is_entry.
  rewrite Hi. cbn [mbind option_bind]. destruct (d_ino d =? 0); [done|]. rewrite Hl. cbn [mbind option_bind negb andb].
  unfold u32, u8. rewrite (wrap_small 32), (wrap_small 8) by (unfold in_w; lia).
  destruct (Z.eqb_spec (Z.of_nat (length (d_name d))) (Z.of_nat (length name))) as [E|E]; cbn [negb].
  - rewrite <-E, Hs. cbn [mbind option_bind]. done.
  - rewrite bool_decide_eq_false_2 by congruence. done.
Qed.

Definition offset (pre : list dent) : Z := Z.of_nat (length (enc_dents pre)).
Lemma offset_snoc pre d : offset (pre ++ [d]) = offset pre + dent_len d.
Proof.
  unfold offset, enc_dents. rewrite bind_app, length_app. cbn [mbind list_bind]. rewrite app_nil_r. pose proof (enc_dent_length d). lia.
Qed.

Lemma find_entry_dents name es : Z.of_nat (length name) < 256 -> Forall dent_ok es -> forall n pre,
  Forall dent_ok pre -> length (enc_dents (pre ++ es)) = 1024%nat -> (length es < n)%nat ->
  find_entry n 1024 (enc_dents (pre ++ es)) (offset pre) name =
    Some ((fun kd => offset (pre ++ take kd.1 es)) <$> list_find (fun d => is_entry name d) es).
Proof.
  intros Hn. induction es as [|d es IH]; intros Hes n pre Hpre Hl Hf; (destruct n as [|n]; [simpl in Hf; lia|]).
  - rewrite app_nil_r in *. cbn [find_entry]. by rewrite entry_here_end.
  - inversion_clear Hes as [|? ? Hd Hes']. cbn [find_entry].
    assert (enc_dents (pre ++ d :: es) = enc_dents pre ++ enc_dent d ++ enc_dents es) as E by (unfold enc_dents; by rewrite bind_app).
    rewrite E in *. unfold offset at 1 2. rewrite entry_here_dent by done. cbn [mbind option_bind].
    rewrite entry_matches_dent by done. cbn [mbind option_bind list_find].
    destruct (is_entry name d) eqn:Em.
    + rewrite decide_True by done. simpl. by rewrite app_nil_r.
    + rewrite decide_False by (intros []). fold (offset pre). rewrite <-offset_snoc.
      replace (pre ++ d :: es) with ((pre ++ [d]) ++ es) in E by (by rewrite <-app_assoc). rewrite <-E.
      rewrite IH; [|done|by apply Forall_app_2; [|constructor]|by rewrite E|simpl in Hf; lia].
      f_equal. destruct (list_find _ es) as [[k x]|]; simpl; [|done]. by rewrite <-app_assoc.
Qed.
End Scan.

Lemma splice_at off p x y q : Z.of_nat (length p) = off -> length x = length y -> splice off y (p ++ x ++ q) = Some (p ++ y ++ q).
Proof.
  intros <- Hxy. rewrite splice_Some by (rewrite ?length_app; lia). rewrite Nat2Z.id, take_app_length. do 3 f_equal.
  rewrite <-Hxy, app_assoc, <-length_app, drop_app_length. done.
Qed.

Lemma splice_at0 x y q : length x = length y -> splice 0 y (x ++ q) = Some (y ++ q).
Proof. exact (splice_at 0 [] x y q eq_refl). Qed.

(** ** Directories *)

Section Dir.
Context `{!Stack}.

(** The directory with inode [i] has the blocks of entries [ess]. *)
Record dir_rep (t : T) (i : ext2_inode) (ess : list (list dent)) : Prop := {
  dr_mode : mode_has_dir i = true;
  dr_size : i_size i = 1024 * Z.of_nat (length ess);
  dr_max : Z.of_nat (length ess) < 2 ^ 21;
  dr_blk : forall b es, ess !! b = Some es ->
    bmap t i (Z.of_nat b) <> 0 /\ blk_ok t (bmap t i (Z.of_nat b)) /\ dir_blk es (blk t (bmap t i (Z.of_nat b)))
}.

(** Block and index of the first entry with the name. *)
Fixpoint dir_pos (name : list Z) (ess : list (list dent)) : option (nat * nat) :=
  match ess with
  | [] => None
  | es :: ess' =>
    match list_find (fun d => is_entry name d) es with
    | Some (k, _) => Some (0%nat, k)
    | None => (fun bk => (S bk.1, bk.2)) <$> dir_pos name ess'
    end
  end.
Lemma dir_pos_Some name ess b k : dir_pos name ess = Some (b, k) ->
  exists es d, ess !! b = Some es /\ es !! k = Some d /\ is_entry name d = true /\ dir_find name (concat ess) = d_ino d.
Proof.
  revert b; induction ess as [|es ess IH]; intros b; simpl; [done|]. destruct (list_find _ es) as [[k' d]|] eqn:E.
  - intros [= <- <-]. pose proof E as (Hd&Hp&_)%list_find_Some. exists es, d. split_and!; [done..|by apply Is_true_true|].
    unfold dir_find. by rewrite (list_find_app_l _ _ _ _ _ E).
  - destruct (dir_pos name ess) as [[b' k']|] eqn:Ep; [|done]. intros [= <- <-]. destruct (IH b' eq_refl) as (es'&d&?&?&?&Hf).
    exists es', d. split_and!; [done..|]. rewrite <-Hf. unfold dir_find. rewrite list_find_app_r by done.
    destruct (list_find _ (concat ess)) as [[? ?]|]; done.
Qed.
Lemma dir_pos_None name ess : dir_pos name ess = None -> dir_find name (concat ess) = 0.
Proof.
  induction ess as [|es ess IH]; simpl; [done|]. destruct (list_find _ es) as [[? ?]|] eqn:E; [done|].
  destruct (dir_pos name ess) eqn:Ep; [done|]. intros _. specialize (IH eq_refl). unfold dir_find in *.
  rewrite list_find_app_r by done. by destruct (list_find _ (concat ess)) as [[? ?]|].
Qed.

Lemma dents_count es b : dir_blk es b -> (length es < scan_fuel 1024)%nat.
Proof.
  intros (->&Hl&Hes). assert (8 * length es <= length (enc_dents es))%nat; [|unfold scan_fuel; lia]. clear Hl.
  induction Hes as [|d es Hd Hes IH]; [simpl; lia|]. unfold enc_dents in *. cbn [mbind list_bind length].
  rewrite length_app. pose proof (enc_dent_length d). pose proof (dent_len_pos d). lia.
Qed.
Lemma find_entry_run name es b : Z.of_nat (length name) < 256 -> dir_blk es b ->
  find_entry (scan_fuel 1024) 1024 b 0 name = Some ((fun kd => offset (take kd.1 es)) <$> list_find (fun d => is_entry name d) es).
Proof.
  intros Hn Hb. pose proof (dents_count _ _ Hb). destruct Hb as (->&Hl&Hes).
  apply (find_entry_dents name es Hn Hes (scan_fuel 1024) []); done.
Qed.
Lemma dents_split es k d : es !! k = Some d -> enc_dents es = enc_dents (take k es) ++ enc_dent d ++ enc_dents (drop (S k) es).
Proof. intros Hk. rewrite <-(take_drop_middle es k d Hk) at 1. unfold enc_dents. by rewrite bind_app. Qed.

Lemma dir_block_run t i ess b es : live t -> geo (g_fs t) -> inode_ok i -> dir_rep t i ess -> ess !! b = Some es ->
  dir_block i (Z.of_nat b) t = Some (Some (bmap t i (Z.of_nat b), blk t (bmap t i (Z.of_nat b))), t).
Proof.
  intros Ht Hf Hi Hd Hb. destruct (dr_blk _ _ _ Hd b es Hb) as (Hn&Hok&_). pose proof (dr_max _ _ _ Hd). apply lookup_lt_Some in Hb.
  unfold dir_block. rewrite (mbind_Some _ _ _ _ _ (bmap_run t i (Z.of_nat b) Ht Hf Hi ltac:(unfold MAX_LOGICAL; lia))).
  rewrite (proj2 (Z.eqb_neq _ 0)) by done. rewrite (mbind_Some _ _ _ _ _ (fetch_run t _ Ht Hok)). cbv beta iota.
  by rewrite decide_False by tauto.
Qed.
(** The result of the search of the blocks as a position. *)
Definition pos_result (t : T) (i : ext2_inode) (ess : list (list dent)) (bk : nat * nat) : Z * list Z * Z :=
  let p := bmap t i (Z.of_nat bk.1) in (p, blk t p, offset (take bk.2 (default [] (ess !! bk.1)))).
Lemma find_in_blocks_run t i name ess : live t -> geo (g_fs t) -> inode_ok i -> dir_rep t i ess -> Z.of_nat (length name) < 256 ->
  find_in_blocks (length ess) i 0 name t = Some (pos_result t i ess <$> dir_pos name ess, t).
Proof.
  intros Ht Hf Hi Hd Hn.
  assert (forall rest pre, ess = pre ++ rest -> find_in_blocks (length rest) i (Z.of_nat (length pre)) name t =
    Some ((fun bk => pos_result t i ess (length pre + bk.1, bk.2)%nat) <$> dir_pos name rest, t)) as Hgen.
  { induction rest as [|es rest IH]; intros pre E; [done|]. cbn [length find_in_blocks dir_pos]. fs_step.
    assert (ess !! length pre = Some es) as Hb by (rewrite E; by apply list_lookup_middle).
    rewrite (mbind_Some _ _ _ _ _ (dir_block_run t i ess _ es Ht Hf Hi Hd Hb)). rewrite (geo_bs _ Hf).
    destruct (dr_blk _ _ _ Hd _ _ Hb) as (_&_&Hblk). lift_step (find_entry_run name es _ Hn Hblk).
    destruct (list_find _ es) as [[k d]|]; cbn [fmap option_fmap option_map fst].
    - unfold pos_result. cbn [fst snd]. rewrite Nat.add_0_r, Hb. done.
    - replace (Z.of_nat (length pre) + 1) with (Z.of_nat (length (pre ++ [es]))) by (rewrite length_app; simpl; lia).
      rewrite IH by (by rewrite <-app_assoc). f_equal. f_equal. destruct (dir_pos name rest) as [[b k]|]; cbn; [|done].
      rewrite length_app. simpl. do 2 f_equal. f_equal. lia. }
  exact (Hgen ess [] eq_refl).
Qed.
Lemma dir_nblocks_run t i ess : dir_rep t i ess -> dir_nblocks i 1024 t = Some (Z.of_nat (length ess), t).
Proof.
  intros Hd. pose proof (dr_max _ _ _ Hd). unfold dir_nblocks. rewrite (dr_size _ _ _ Hd). unfold u32. rewrite wrap_small by (unfold in_w; lia).
  rewrite cdiv_run by lia. f_equal. f_equal. rewrite Z.mul_comm, <-Z.add_sub_assoc, Z.div_add_l by lia. change ((1024 - 1) / 1024) with 0. lia.
Qed.

Lemma dir_lookup_run t dir name ess : live t -> geo (g_fs t) -> ino_readable t dir -> dir_rep t (inode_at t dir) ess ->
  Z.of_nat (length name) < 256 -> ext2_dir_lookup dir (Some name) t = Some (dir_find name (concat ess), t).
Proof.
  intros Ht Hf Hr Hd Hn. pose proof (inode_at_ok t dir Ht Hf) as Hi. unfold ext2_dir_lookup. fs_step. rewrite (proj2 Ht). cbn [negb].
  rewrite (mbind_Some _ _ _ _ _ (read_inode_run t dir Ht Hf Hr)). rewrite (dr_mode _ _ _ Hd). cbn [negb]. rewrite (geo_bs _ Hf).
  rewrite (mbind_Some _ _ _ _ _ (dir_nblocks_run t _ ess Hd)), Nat2Z.id.
  rewrite (mbind_Some _ _ _ _ _ (find_in_blocks_run t _ name ess Ht Hf Hi Hd Hn)).
  destruct (dir_pos name ess) as [[b k]|] eqn:Ep; cbn [fmap option_fmap option_map]; [|by rewrite dir_pos_None].
  destruct (dir_pos_Some _ _ _ _ Ep) as (es&d&Hb&Hk&_&->). unfold pos_result. cbn [fst snd]. rewrite Hb. cbn [from_option id].
  destruct (dr_blk _ _ _ Hd _ _ Hb) as (_&_&(Hblk&_&Hes)). rewrite Hblk, (dents_split es k d Hk).
  apply mlift_run. apply dent_fields. by eapply Forall_lookup_1.
Qed.
End Dir.

(** ** Paths *)

(** The pieces between slashes, and the components: those that are not empty. *)
Fixpoint pieces (p : list Z) : list (list Z) :=
  match p with
  | [] => [[]]
  | c :: p' => if c =? SLASH then [] :: pieces p' else
               match pieces p' with h :: r => (c :: h) :: r | [] => [[c]] end
  end.
Definition comps (p : list Z) : list (list Z) := filter (fun c => c <> []) (pieces p).
Definition no_slash (p : list Z) : Prop := Forall (fun c => c <> SLASH) p.

Lemma pieces_cons p : exists h r, pieces p = h :: r.
Proof.
  induction p as [|c p (h&r&E)]; simpl; [eauto|]. destruct (c =? SLASH); [eauto|]. rewrite E. eauto.
Qed.
Lemma pieces_app_slash a b : pieces (a ++ SLASH :: b) = pieces a ++ pieces b.
Proof.
  induction a as [|c a IH]; [done|]. cbn [app pieces]. rewrite IH. destruct (c =? SLASH); [done|].
  destruct (pieces_cons a) as (h&r&->). done.
Qed.
Lemma pieces_no_slash a : no_slash a -> pieces a = [a].
Proof.
  induction 1 as [|c a Hc Ha IH]; [done|]. cbn [pieces]. rewrite (proj2 (Z.eqb_neq c SLASH)) by done. by rewrite IH.
Qed.
Lemma comps_app_slash a b : comps (a ++ SLASH :: b) = comps a ++ comps b.
Proof. unfold comps. by rewrite pieces_app_slash, filter_app. Qed.
Lemma comps_slash p : comps (SLASH :: p) = comps p.
Proof. exact (comps_app_slash [] p). Qed.
Lemma comps_no_slash a : no_slash a -> a <> [] -> comps a = [a].
Proof. intros Ha Hn. unfold comps. rewrite pieces_no_slash by done. by rewrite filter_cons_True. Qed.
Lemma comps_skip_slashes p : comps (skip_slashes p) = comps p.
Proof.
  induction p as [|c p IH]; [done|]. cbn [skip_slashes]. destruct (Z.eqb_spec c SLASH) as [->|]; [|done].
  by rewrite IH, comps_slash.
Qed.
(** A component of more than 255 characters is taken in pieces of 255. *)
Fixpoint cut_pieces (k : nat) (l : list Z) : list (list Z) :=
  match k, l with Datatypes.S k', _ :: _ => take 255 l :: cut_pieces k' (drop 255 l) | _, _ => [] end.
Definition cut (l : list Z) : list (list Z) := cut_pieces (length l) l.
Definition short_comps (p : list Z) : list (list Z) := mjoin (cut <$> comps p).
Lemma cut_pieces_ext k k' l : (length l <= k)%nat -> (length l <= k')%nat -> cut_pieces k l = cut_pieces k' l.
Proof.
  revert k' l. induction k as [|k IH]; intros [|k'] [|c l] Hk Hk'; try done; try (simpl in *; lia).
  cbn [cut_pieces]. f_equal. apply IH; rewrite length_drop; simpl in *; lia.
Qed.
Lemma cut_cons l : l <> [] -> cut l = take 255 l :: cut (drop 255 l).
Proof.
  intros Hl. unfold cut. destruct l as [|c l]; [done|]. cbn [length cut_pieces]. f_equal.
  apply cut_pieces_ext; rewrite length_drop; simpl; lia.
Qed.
Lemma cut_short l : l <> [] -> (length l <= 255)%nat -> cut l = [l].
Proof. intros Hl Hn. rewrite cut_cons, take_ge, drop_ge by done. done. Qed.
Lemma short_comps_short p : Forall (fun c => (length c <= 255)%nat) (comps p) -> short_comps p = comps p.
Proof.
  unfold short_comps. intros H. assert (Forall (fun c => c <> []) (comps p)) as Hne by (unfold comps; apply Forall_forall; intros c Hc; by apply list_elem_of_filter in Hc as [? _]).
  revert H Hne. generalize (comps p) as cs. intros cs. induction 1 as [|c cs Hc Hcs IH]; intros Hne; [done|]. inversion Hne; subst. cbn. rewrite cut_short by done. cbn. f_equal. by apply IH.
Qed.
(** The front of a path up to its first slash. *)
Lemma front_split p : exists f rest, p = f ++ rest /\ no_slash f /\ (rest = [] \/ exists r, rest = SLASH :: r).
Proof.
  induction p as [|c p (f&rest&->&Hf&Hr)]; [exists [], []; split; [done|]; split; [constructor|by left]|].
  destruct (Z.eqb_spec c SLASH) as [->|Hc]; [exists [], (SLASH :: f ++ rest); split; [done|]; split; [constructor|right; eauto]|].
  exists (c :: f), rest. split; [done|]. split; [by constructor|done].
Qed.
Lemma component_front n f rest : no_slash f -> (rest = [] \/ exists r, rest = SLASH :: r) -> component n (f ++ rest) = take n f.
Proof.
  intros Hf Hr. revert n. induction Hf as [|c f Hc Hf IH]; intros [|n]; try done; cbn [app component take].
  - destruct Hr as [-> | (r&->)]; done.
  - rewrite (proj2 (Z.eqb_neq c SLASH)) by done. by rewrite IH.
Qed.
Lemma comps_front f rest : no_slash f -> f <> [] -> (rest = [] \/ exists r, rest = SLASH :: r) -> comps (f ++ rest) = f :: comps (skip_one rest).
Proof.
  intros Hf Hn [-> | (r&->)]; [rewrite app_nil_r; by apply comps_no_slash|].
  rewrite comps_app_slash, comps_no_slash by done. done.
Qed.

Section Paths.
Context {S : Type} `{!SectorStore S} `{!Stack}.

(** Walking down the directories, component by component. *)
Fixpoint walk (current : Z) (cs : list (list Z)) : M (estate S) Z :=
  match cs with
  | [] => return current
  | c :: cs' => found <~ ext2_dir_lookup current (Some c) ;; if found =? 0 then return 0 else walk found cs'
  end.

Lemma resolve_loop_walk n cur p s : (length p <= n)%nat -> resolve_loop n cur p s = walk cur (short_comps p) s.
Proof.
  revert cur p s; induction n as [|n IH]; intros cur [|c0 p0] s Hn; try done; [simpl in Hn; lia|].
  cbn [resolve_loop]. change (Z.to_nat (EXT2_MAX_PATH - 1)) with 255%nat.
  destruct (front_split (c0 :: p0)) as (f&rest&E&Hf&Hr). rewrite E. rewrite component_front by done. destruct f as [|c f].
  - cbn [app] in *. destruct Hr as [-> | (r&->)]; [done|]. injection E as -> ->. unfold short_comps. rewrite comps_slash. apply IH. simpl in *; lia.
  - assert (take 255 (c :: f) = c :: take 254 f) as Et by done. rewrite Et. rewrite <-Et. unfold short_comps. rewrite comps_front by done. cbn [fmap list_fmap mjoin list_join].
    rewrite cut_cons by done. cbn [app walk]. change (c :: f ++ rest) with ((c :: f) ++ rest). unfold mbind_. destruct (ext2_dir_lookup cur (Some (take 255 (c :: f))) s) as [[found s']|]; [|done].
    destruct (found =? 0); [done|]. apply (f_equal length) in E. rewrite length_app in E. destruct (decide (length (c :: f) <= 255)%nat) as [Hle|Hgt].
    + rewrite (take_ge (c :: f)), (drop_ge (c :: f)) by done. rewrite drop_app_length. change (cut []) with (@nil (list Z)). rewrite app_nil_l.
      apply IH. destruct Hr as [-> | (r&->)]; simpl in *; lia.
    + assert (length (take 255 (c :: f)) = 255%nat) as -> by (rewrite length_take; lia). rewrite drop_app_le by lia.
      assert (drop 255 (c :: f) <> []) as Hne by (intros E0; apply (f_equal length) in E0; rewrite length_drop in E0; simpl in *; lia).
      assert (no_slash (drop 255 (c :: f))) as Hns by by apply Forall_drop.
      assert (skip_one (drop 255 (c :: f) ++ rest) = drop 255 (c :: f) ++ rest) as ->.
      { destruct (drop 255 (c :: f)) as [|d g]; [done|]. inversion Hns; subst. cbn. by rewrite (proj2 (Z.eqb_neq d SLASH)) by done. }
      rewrite IH by (rewrite length_app, length_drop; simpl in *; lia). unfold short_comps. by rewrite comps_front.
Qed.

(** C10: resolving a path of any length is looking up its components one by one from the root directory, a component of
    more than 255 characters in pieces of 255; repeated, leading and trailing slashes do not matter, and the loop always
    ends.  When no component is longer than 255 characters, the components are those between the slashes. *)
Theorem ext2_resolve_path_walk (p : list Z) (s : estate S) :
  ext2_resolve_path (Some p) s = (if mounted (g_fs s) then walk EXT2_ROOT_INO (short_comps p) s else Some (0, s)) /\
  (Forall (fun c => (length c <= 255)%nat) (comps p) -> short_comps p = comps p).
Proof.
  split; [|apply short_comps_short]. unfold ext2_resolve_path, mbind_, get_fs, mgets. destruct (mounted (g_fs s)); cbn [negb]; [|done].
  unfold short_comps. rewrite <-comps_skip_slashes. destruct (skip_slashes p) as [|c q]; [done|]. by apply resolve_loop_walk.
Qed.
End Paths.

(** The position of the last slash. *)
Lemma last_slash_spec p i l :
  (no_slash p /\ last_slash p i l = l) \/
  exists a b, p = a ++ SLASH :: b /\ no_slash b /\ last_slash p i l = i + Z.of_nat (length a).
Proof.
  revert i l; induction p as [|c p IH]; intros i l; [left; split; [constructor|done]|]. cbn [last_slash].
  destruct (IH (i + 1) (if c =? SLASH then i else l)) as [[Hn ->]|(a&b&->&Hb&->)].
  - destruct (Z.eqb_spec c SLASH) as [->|Hc].
    + right. exists [], p. split_and!; [done..|]. simpl. lia.
    + left. split; [by constructor|done].
  - right. exists (c :: a), b. split_and!; [done..|]. simpl length. lia.
Qed.

(** [ext2_split_path] never overruns its buffers on paths of at most 255 characters:
    the name is the part after the last slash, and the components of the path are those
    of the parent followed by the name, so a path is resolved by resolving the parent
    and looking up the name. *)
Theorem ext2_split_path_recompose (p : list Z) : (length p < 256)%nat ->
  exists parent name, ext2_split_path (Some p) = Some (parent, name) /\ no_slash name /\
    (length parent < 256)%nat /\ (length name < 256)%nat /\
    comps p = comps parent ++ (if bool_decide (name = []) then [] else [name]) /\
    (p = name \/ exists pre, p = pre ++ SLASH :: name).
Proof.
  intros Hp. unfold ext2_split_path, store_str, EXT2_MAX_PATH.
  assert (forall x, no_slash x -> comps x = if bool_decide (x = []) then [] else [x]) as Hc.
  { intros x Hx. case_bool_decide as E; [by subst|]. by apply comps_no_slash. }
  destruct (last_slash_spec p 0 (-1)) as [[Hn ->]|(a&b&->&Hb&->)]; cbv zeta.
  - rewrite (proj2 (Z.ltb_lt (-1) 0)), (proj2 (Z.ltb_lt _ _)) by lia. exists [SLASH], p. split_and!; [done|done|simpl; lia|done| |by left].
    change (comps [SLASH]) with (@nil (list Z)). by apply Hc.
  - rewrite length_app in Hp. simpl length in Hp. rewrite (proj2 (Z.ltb_ge _ _)) by lia. rewrite Z.add_0_l.
    destruct (Z.eqb_spec (Z.of_nat (length a)) 0) as [E|E].
    + destruct a; [|simpl in E; lia]. cbn [app]. change (drop 1 (SLASH :: b)) with b. rewrite (proj2 (Z.ltb_lt _ _)) by lia.
      exists [SLASH], b. split_and!; [done|done|simpl; lia|lia| |right; by exists []].
      rewrite comps_slash. change (comps [SLASH]) with (@nil (list Z)). by apply Hc.
    + rewrite Nat2Z.id, take_app_length. replace (Z.to_nat (Z.of_nat (length a) + 1)) with (length (a ++ [SLASH])) by (rewrite length_app; simpl; lia).
      replace (a ++ SLASH :: b) with ((a ++ [SLASH]) ++ b) by (by rewrite <-app_assoc). rewrite drop_app_length.
      rewrite !(proj2 (Z.ltb_lt _ _)) by lia. exists a, b. split_and!; [done|done|lia|lia| |right; exists a; by rewrite <-app_assoc].
      rewrite <-app_assoc. cbn [app]. rewrite comps_app_slash. by rewrite <-Hc.
Qed.

Definition path0 : list Z := [47; 97; 47; 47; 98; 47].  (* "/a//b/" *)
Lemma ext2_resolve_path_walk_witness :
  @ext2_resolve_path _ _ junk0 (Some path0) disk4 = @walk _ _ junk0 EXT2_ROOT_INO (comps path0) disk4 /\ comps path0 = [[97]; [98]].
Proof.
  split; [|reflexivity]. destruct (@ext2_resolve_path_walk _ _ junk0 path0 disk4) as [E Hs]. rewrite E. rewrite Hs; [reflexivity|].
  change (comps path0) with [[97]; [98]]. repeat constructor.
Defined.
Lemma ext2_split_path_recompose_witness :
  exists parent name, ext2_split_path (Some path0) = Some (parent, name) /\ no_slash name /\
    (length parent < 256)%nat /\ (length name < 256)%nat /\
    comps path0 = comps parent ++ (if bool_decide (name = []) then [] else [name]) /\
    (path0 = name \/ exists pre, path0 = pre ++ SLASH :: name).
Proof. apply (ext2_split_path_recompose path0). simpl. lia. Defined.

(** ** Removal *)

Definition clear_dent (d : dent) : dent := Dent 0 (d_type d) (d_name d) (d_pad d).
(** The entries after the first one with the name was marked unused. *)
Definition dir_clear (name : list Z) (ess : list (list dent)) : list (list dent) :=
  match dir_pos name ess with Some (b, k) => alter (alter clear_dent k) b ess | None => ess end.

Lemma clear_dent_ok d : dent_ok d -> dent_ok (clear_dent d).
Proof. intros (_&?). split; [unfold in_w; simpl; lia|done]. Qed.
Lemma put_clear d pre suf : put32 (Z.of_nat (length pre)) 0 (pre ++ enc_dent d ++ suf) = Some (pre ++ enc_dent (clear_dent d) ++ suf).
Proof.
  unfold put32, put_le, enc_dent. rewrite <-!(app_assoc (le_enc 4 _)). apply splice_at; [done|]. by rewrite !le_enc_length.
Qed.
Lemma enc_alter_clear es k d : es !! k = Some d ->
  enc_dents (alter clear_dent k es) = enc_dents (take k es) ++ enc_dent (clear_dent d) ++ enc_dents (drop (S k) es).
Proof.
  intros Hk. pose proof (lookup_lt_Some _ _ _ Hk).
  rewrite (dents_split (alter clear_dent k es) k (clear_dent d)) by (by rewrite list_lookup_alter_eq, Hk).
  rewrite take_alter, drop_alter, !decide_False by lia. done.
Qed.

Definition dfind (name : list Z) (es : list dent) : option Z :=
  (fun kd => d_ino kd.2) <$> list_find (fun d => is_entry name d) es.
Lemma dir_find_dfind name es : dir_find name es = default 0 (dfind name es).
Proof. unfold dir_find, dfind. by destruct (list_find _ es) as [[? ?]|]. Qed.
Lemma dfind_app name a b : dfind name (a ++ b) = match dfind name a with Some x => Some x | None => dfind name b end.
Proof.
  unfold dfind. destruct (list_find _ a) as [[k d]|] eqn:E; cbn [fmap option_fmap option_map].
  - by rewrite (list_find_app_l _ _ _ _ _ E).
  - rewrite list_find_app_r by done. by destruct (list_find _ b) as [[? ?]|].
Qed.
Lemma dfind_cons name d b : dfind name (d :: b) = if is_entry name d then Some (d_ino d) else dfind name b.
Proof.
  unfold dfind. cbn [list_find]. destruct (is_entry name d); [by rewrite decide_True|]. rewrite decide_False by (intros []).
  by destruct (list_find _ b) as [[? ?]|].
Qed.
Lemma dfind_clear name es k d : es !! k = Some d -> is_entry name d = false -> dfind name (alter clear_dent k es) = dfind name es.
Proof.
  revert k; induction es as [|x es IH]; intros [|k] Hk Hd; simplify_eq/=; [by rewrite !dfind_cons, Hd|].
  change (alter clear_dent (S k) (x :: es)) with (x :: alter clear_dent k es). rewrite !dfind_cons. destruct (is_entry name x); [done|]. by apply IH.
Qed.
(** Other names are not affected; the entry itself is gone. *)
Lemma dir_find_clear_ne name name' ess : name <> name' -> dir_find name' (concat (dir_clear name ess)) = dir_find name' (concat ess).
Proof.
  intros Hne. unfold dir_clear. destruct (dir_pos name ess) as [[b k]|] eqn:Ep; [|done].
  destruct (dir_pos_Some _ _ _ _ Ep) as (es&d&Hb&Hk&Hd&_). apply andb_true_iff in Hd as [_ Hd%bool_decide_eq_true].
  assert (is_entry name' d = false) as Hd'. { unfold is_entry. rewrite bool_decide_eq_false_2 by congruence. apply andb_false_r. }
  rewrite !dir_find_dfind. f_equal. clear Ep Hd. revert b Hb. induction ess as [|x ess IH]; intros [|b] Hb; simplify_eq/=.
  - by rewrite !dfind_app, (dfind_clear _ _ _ d).
  - rewrite !dfind_app. destruct (dfind name' x); [done|]. by apply IH.
Qed.
(** The names of the entries in use. *)
Definition names (ess : list (list dent)) : list (list Z) := d_name <$> filter (fun d => d_ino d <> 0) (concat ess).
Lemma dfind_absent name es : name ∉ d_name <$> filter (fun d => d_ino d <> 0) es -> dfind name es = None.
Proof.
  induction es as [|d es IH]; [done|]. rewrite dfind_cons. unfold is_entry. intros Hn.
  destruct (Z.eqb_spec (d_ino d) 0) as [E|E]; cbn [negb andb].
  - apply IH. by rewrite filter_cons_False in Hn by tauto.
  - rewrite filter_cons_True in Hn by done. rewrite fmap_cons in Hn. apply not_elem_of_cons in Hn as [Hn1 Hn2].
    rewrite bool_decide_eq_false_2 by congruence. by apply IH.
Qed.

Section Remove.
Context `{!Stack}.

Lemma dir_rep_put t ib i ess b k d es : live t -> geo (g_fs t) -> inode_ok i -> dir_rep t i ess ->
  wmap t ib i 0 (1024 * Z.of_nat (length ess)) -> ess !! b = Some es -> es !! k = Some d ->
  let v := enc_dents (alter clear_dent k es) in let t' := put_blk t (bmap t i (Z.of_nat b)) v in
  length v = 1024%nat /\ live t' /\ dir_rep t' i (alter (alter clear_dent k) b ess) /\
  wmap t' ib i 0 (1024 * Z.of_nat (length ess)).
Proof.
  intros Ht Hf Hi Hd Hw Hb Hk v t'. destruct (dr_blk _ _ _ Hd b es Hb) as (Hn&Hok&(Eb&Hl&Hes)).
  pose proof (dr_max _ _ _ Hd) as Hmax. pose proof (lookup_lt_Some _ _ _ Hb) as Hlt.
  assert (Forall dent_ok (alter clear_dent k es)) as Hes'.
  { apply Forall_alter; [done|]. intros x _ Hx. by apply clear_dent_ok. }
  assert (length v = 1024%nat) as Hv.
  { unfold v. rewrite (enc_alter_clear es k d Hk). rewrite Eb, (dents_split es k d Hk) in Hl. rewrite !length_app in *.
    pose proof (enc_dent_length d). pose proof (enc_dent_length (clear_dent d)).
    assert (dent_len (clear_dent d) = dent_len d) by done. lia. }
  assert (Forall byte_ok v) as Hvb.
  { unfold v. pose proof (blk_bytes t (bmap t i (Z.of_nat b)) Ht) as Hbb. rewrite Eb in Hbb.
    rewrite (enc_alter_clear es k d Hk). rewrite (dents_split es k d Hk) in Hbb.
    eapply put_le_bytes; [exact (put_clear d _ _)|exact Hbb]. }
  assert (touched 0 (1024 * Z.of_nat (length ess)) (Z.of_nat b)) as Htch by (split; [apply Zle_0_nat|lia]).
  destruct (put_wmap t ib i 0 (1024 * Z.of_nat (length ess)) (Z.of_nat b) v 0 Ht Hf Hi Hv Hvb ltac:(lia) ltac:(lia) Hw Htch) as (Ht'&Hw'&Hsame).
  split_and!; [done|done| |done]. split; [apply Hd|by rewrite length_alter; apply Hd|by rewrite length_alter|].
  intros b' es' Hb'. assert (b' < length ess)%nat as Hlt' by (apply lookup_lt_Some in Hb'; by rewrite length_alter in Hb').
  pose proof (proj1 (Hsame (Z.of_nat b') ltac:(unfold MAX_LOGICAL; lia))) as Hsm. fold t' in Hsm. rewrite Hsm. unfold t'. rewrite blk_put by done.
  destruct (decide (b' = b)) as [->|Hne].
  - rewrite list_lookup_alter_eq, Hb in Hb'. injection Hb' as <-. rewrite decide_True by done. done.
  - rewrite list_lookup_alter_ne in Hb' by done. rewrite decide_False; [by apply (dr_blk _ _ _ Hd)|].
    intros E. apply (wm_inj _ _ _ _ _ Hw _ _ Htch) in E; [lia|unfold MAX_LOGICAL; lia].
Qed.

Lemma dir_remove_run t dir name ess : live t -> geo (g_fs t) -> ino_readable t dir -> dir_rep t (inode_at t dir) ess ->
  wmap t (inode_block (g_fs t) dir) (inode_at t dir) 0 (1024 * Z.of_nat (length ess)) -> Z.of_nat (length name) < 256 ->
  exists t', ext2_dir_remove_entry dir (Some name) t =
      Some (if decide (dir_pos name ess = None) then EXT2_ERR_NOT_FOUND else EXT2_OK, t') /\
    live t' /\ g_fs t' = g_fs t /\ (forall n, blk_ok t' n <-> blk_ok t n) /\ inode_at t' dir = inode_at t dir /\
    dir_rep t' (inode_at t dir) (dir_clear name ess).
Proof.
  intros Ht Hf Hr Hd Hw Hn. pose proof (inode_at_ok t dir Ht Hf) as Hi. set (i := inode_at t dir) in *.
  assert (ext2_dir_remove_entry dir (Some name) t = match pos_result t i ess <$> dir_pos name ess with
    | None => Some (EXT2_ERR_NOT_FOUND, t)
    | Some (phys, buf, off) => (buf' <~ mlift (put32 off 0 buf) ;; ext2_write_block phys (Some buf')) t end) as ->.
  { unfold ext2_dir_remove_entry. fs_step. rewrite (proj2 Ht). cbn [negb].
    rewrite (mbind_Some _ _ _ _ _ (read_inode_run t dir Ht Hf Hr)). fold i. rewrite (dr_mode _ _ _ Hd). cbn [negb]. rewrite (geo_bs _ Hf).
    rewrite (mbind_Some _ _ _ _ _ (dir_nblocks_run t _ ess Hd)), Nat2Z.id.
    rewrite (mbind_Some _ _ _ _ _ (find_in_blocks_run t _ name ess Ht Hf Hi Hd Hn)). by destruct (pos_result t i ess <$> _) as [[[? ?] ?]|]. }
  unfold dir_clear. destruct (dir_pos name ess) as [[b k]|] eqn:Ep; cbn [fmap option_fmap option_map]; [|by exists t].
  destruct (dir_pos_Some _ _ _ _ Ep) as (es&d&Hb&Hk&_&_). destruct (dr_blk _ _ _ Hd b es Hb) as (Hn0&Hok&(Eb&Hl&Hes)).
  destruct (dir_rep_put t _ i ess b k d es Ht Hf Hi Hd Hw Hb Hk) as (Hv&Ht'&Hd'&_).
  unfold pos_result. cbn [fst snd]. rewrite Hb. cbn [from_option id]. unfold offset.
  assert (put32 (Z.of_nat (length (enc_dents (take k es)))) 0 (blk t (bmap t i (Z.of_nat b))) = Some (enc_dents (alter clear_dent k es))) as Hp.
  { rewrite Eb, (dents_split es k d Hk), put_clear. by rewrite (enc_alter_clear es k d Hk). }
  lift_step Hp. rewrite write_blk_run by done. eexists. split; [by rewrite decide_False|]. split_and!; [done..| |done].
  unfold inode_at at 1. cbn [g_fs put_blk]. fold (put_blk t (bmap t i (Z.of_nat b)) (enc_dents (alter clear_dent k es))).
  rewrite blk_put, decide_False; [done| |done]. apply not_eq_sym, (wm_ib _ _ _ _ _ Hw).
  pose proof (dr_max _ _ _ Hd). apply lookup_lt_Some in Hb. unfold MAX_LOGICAL. lia.
Qed.
End Remove.

Lemma concat_alter {A} (f : A -> A) (ess : list (list A)) b k es d : ess !! b = Some es -> es !! k = Some d ->
  exists l1 l2, concat ess = l1 ++ d :: l2 /\ concat (alter (alter f k) b ess) = l1 ++ f d :: l2.
Proof.
  revert b; induction ess as [|x ess IH]; intros [|b] Hb Hk; simplify_eq/=.
  - exists (take k es), (drop (S k) es ++ concat ess). pose proof (lookup_lt_Some _ _ _ Hk). split.
    + by rewrite <-(take_drop_middle es k d Hk) at 1; rewrite <-app_assoc.
    + rewrite <-(take_drop_middle (alter f k es) k (f d)) by (by rewrite list_lookup_alter_eq, Hk).
      by rewrite take_alter, drop_alter, !decide_False, <-app_assoc by lia.
  - destruct (IH b Hb Hk) as (l1&l2&->&->). exists (x ++ l1), l2. by rewrite <-!app_assoc.
Qed.
Lemma dir_find_clear_eq name ess : NoDup (names ess) -> dir_find name (concat (dir_clear name ess)) = 0.
Proof.
  intros Hnd. unfold dir_clear. destruct (dir_pos name ess) as [[b k]|] eqn:Ep; [|by apply dir_pos_None].
  destruct (dir_pos_Some _ _ _ _ Ep) as (es&d&Hb&Hk&Hd&_). apply andb_true_iff in Hd as [Hd0%negb_true_iff%Z.eqb_neq Hd%bool_decide_eq_true].
  destruct (concat_alter clear_dent ess b k es d Hb Hk) as (l1&l2&E1&E2). unfold names in Hnd. rewrite E1, filter_app, fmap_app in Hnd.
  rewrite filter_cons_True, fmap_cons, Hd in Hnd by done. apply NoDup_app in Hnd as (_&H1&[H2 _]%NoDup_cons).
  rewrite E2, dir_find_dfind, dfind_app, dfind_cons, !dfind_absent; [done|done|]. intros Hin. apply (H1 _ Hin). by left.
Qed.

Section DirTheorems.
Context `{!Stack}.

(** On a directory whose blocks are filled by entries, [ext2_dir_lookup] returns the
    inode number of the first entry in use that has exactly the name, over all blocks in
    order, and 0 when there is none; it changes nothing and always ends. *)
Theorem ext2_dir_lookup_first (t : T) (dir : Z) (name : list Z) (ess : list (list dent)) :
  live t -> geo (g_fs t) -> ino_readable t dir -> dir_rep t (inode_at t dir) ess -> Z.of_nat (length name) < 256 ->
  ext2_dir_lookup dir (Some name) t = Some (dir_find name (concat ess), t).
Proof. apply dir_lookup_run. Qed.

(** Removing a name from a directory whose names are distinct makes the name, and no
    other name, disappear from lookups; a name that is not there is reported as
    EXT2_ERR_NOT_FOUND. *)
Theorem ext2_dir_remove_lookup (t : T) (dir : Z) (name name' : list Z) (ess : list (list dent)) :
  live t -> geo (g_fs t) -> ino_readable t dir -> dir_rep t (inode_at t dir) ess ->
  wmap t (inode_block (g_fs t) dir) (inode_at t dir) 0 (1024 * Z.of_nat (length ess)) -> NoDup (names ess) ->
  Z.of_nat (length name) < 256 -> Z.of_nat (length name') < 256 ->
  exists t', ext2_dir_remove_entry dir (Some name) t =
      Some (if decide (dir_pos name ess = None) then EXT2_ERR_NOT_FOUND else EXT2_OK, t') /\ live t' /\ g_fs t' = g_fs t /\
    ext2_dir_lookup dir (Some name') t' = Some (if decide (name' = name) then 0 else dir_find name' (concat ess), t').
Proof.
  intros Ht Hf Hr Hd Hw Hnd Hn Hn'. destruct (dir_remove_run t dir name ess Ht Hf Hr Hd Hw Hn) as (t'&Hrun&Ht'&Hfs&Hok&Hi&Hd').
  exists t'. split_and!; [done..|]. rewrite <-Hi in Hd'. rewrite (dir_lookup_run t' dir name' (dir_clear name ess)); [|done|by rewrite Hfs| |done|done].
  - destruct (decide (name' = name)) as [->|E]; [by rewrite dir_find_clear_eq|]. by rewrite dir_find_clear_ne.
  - destruct Hr as [Hr1 Hr2]. split; rewrite Hfs; [done|by apply Hok].
Qed.
End DirTheorems.

(** ** Insertion *)

Lemma last_entry_dents es : Forall dent_ok es -> forall n pre prev, Forall dent_ok pre ->
  length (enc_dents (pre ++ es)) = 1024%nat -> (length es < n)%nat ->
  exists r, last_entry n 1024 (enc_dents (pre ++ es)) (offset pre) prev = Some r /\ (es = [] -> r = prev) /\
    (es <> [] -> exists p rl, r = Some p /\ rec_len_at (enc_dents (pre ++ es)) p = Some rl /\ p + rl = 1024).
Proof.
  induction 1 as [|d es Hd Hes IH]; intros n pre prev Hpre Hl Hf; (destruct n as [|n]; [simpl in Hf; lia|]).
  - rewrite app_nil_r in *. exists prev. cbn [last_entry]. by rewrite entry_here_end.
  - assert (enc_dents (pre ++ d :: es) = enc_dents pre ++ enc_dent d ++ enc_dents es) as E by (unfold enc_dents; by rewrite bind_app).
    cbn [last_entry]. rewrite E in Hl |- *. unfold offset. rewrite entry_here_dent by done. cbn [mbind option_bind].
    fold (offset pre). rewrite <-offset_snoc.
    replace (pre ++ d :: es) with ((pre ++ [d]) ++ es) in E by (by rewrite <-app_assoc). rewrite <-E in Hl |- *.
    destruct (IH n (pre ++ [d]) (Some (offset pre))) as (r&Hr&H1&H2); [by apply Forall_app_2; [|constructor]|done|simpl in Hf; lia|].
    exists r. split; [done|]. split; [done|]. intros _. destruct es as [|d' es]; [|by apply H2].
    exists (offset pre), (dent_len d). split; [by apply H1|]. rewrite app_nil_r in Hl. split.
    + rewrite E. unfold rec_len_at, offset. by apply dent_fields.
    + rewrite <-offset_snoc. unfold offset. lia.
Qed.
Lemma last_entry_full es b : dir_blk es b ->
  exists p rl, last_entry (scan_fuel 1024) 1024 b 0 None = Some (Some p) /\ rec_len_at b p = Some rl /\ p + rl = 1024.
Proof.
  intros Hb. pose proof (dents_count _ _ Hb). destruct Hb as (->&Hl&Hes).
  destruct (last_entry_dents es Hes (scan_fuel 1024) [] None) as (r&Hr&_&Hp); [constructor|done|done|].
  destruct Hp as (p&rl&->&?&?); [intros ->; done|]. by exists p, rl.
Qed.

Section Add.
Context `{!Stack}.

Lemma entry_needed_pos n : 12 <= entry_needed n.
Proof. unfold entry_needed. cbv zeta. destruct (Z.ltb_spec (Z.land (u32 (8 + n + 3)) (Z.lnot 3)) 12); lia. Qed.

Lemma add_in_blocks_run t i name c ty ess : live t -> geo (g_fs t) -> inode_ok i -> dir_rep t i ess ->
  add_in_blocks (length ess) i 0 name c ty t = Some (None, t).
Proof.
  intros Ht Hf Hi Hd.
  assert (forall rest pre, ess = pre ++ rest -> add_in_blocks (length rest) i (Z.of_nat (length pre)) name c ty t = Some (None, t)) as Hgen.
  { induction rest as [|es rest IH]; intros pre E; [done|]. cbn [length add_in_blocks]. fs_step.
    assert (ess !! length pre = Some es) as Hb by (rewrite E; by apply list_lookup_middle).
    rewrite (mbind_Some _ _ _ _ _ (dir_block_run t i ess _ es Ht Hf Hi Hd Hb)). rewrite (geo_bs _ Hf). cbv zeta.
    destruct (dr_blk _ _ _ Hd _ _ Hb) as (_&_&Hblk). destruct (last_entry_full _ _ Hblk) as (p&rl&Hl&Hrl&Hend).
    lift_step Hl. lift_step Hrl. rewrite Hend. change (u32 (1024 - 1024)) with 0.
    rewrite (proj2 (Z.leb_gt _ _)) by (pose proof (entry_needed_pos (u32 (Z.of_nat (length name)))); lia).
    replace (Z.of_nat (length pre) + 1) with (Z.of_nat (length (pre ++ [es]))) by (rewrite length_app; simpl; lia).
    apply IH. by rewrite <-app_assoc. }
  exact (Hgen ess [] eq_refl).
Qed.
Lemma dir_add_eq t dir name c ty ess : live t -> geo (g_fs t) -> ino_readable t dir -> dir_rep t (inode_at t dir) ess ->
  ext2_dir_add_entry dir (Some name) c ty t = add_new_block dir (inode_at t dir) (Z.of_nat (length ess)) name c ty t.
Proof.
  intros Ht Hf Hr Hd. pose proof (inode_at_ok t dir Ht Hf) as Hi. unfold ext2_dir_add_entry. fs_step. rewrite (proj2 Ht). cbn [negb].
  rewrite (mbind_Some _ _ _ _ _ (read_inode_run t dir Ht Hf Hr)). rewrite (dr_mode _ _ _ Hd). cbn [negb]. rewrite (geo_bs _ Hf).
  rewrite (mbind_Some _ _ _ _ _ (dir_nblocks_run t _ ess Hd)), Nat2Z.id.
  by rewrite (mbind_Some _ _ _ _ _ (add_in_blocks_run t _ name c ty ess Ht Hf Hi Hd)).
Qed.

(** The search for room in the existing blocks of a directory never finds any: the
    last entry of a block always extends to the end of the block, and the code takes
    the room behind it, not the room in it.  Every insertion therefore needs a new
    block: on a full file system it fails with EXT2_ERR_NO_SPACE and changes nothing,
    whatever room (or removed entries) the directory's blocks have. *)
Theorem ext2_dir_add_needs_block (t : T) (dir : Z) (name : list Z) (c ty : Z) (ess : list (list dent)) :
  live t -> geo (g_fs t) -> ino_readable t dir -> dir_rep t (inode_at t dir) ess ->
  block_geo t -> 0 <= num_groups (g_fs t) -> (forall n, 0 <= n < nblocks t -> block_used t n = true) ->
  ext2_dir_add_entry dir (Some name) c ty t = Some (EXT2_ERR_NO_SPACE, t).
Proof.
  intros Ht Hf Hr Hd Hb Hn Hfull. rewrite (dir_add_eq t dir name c ty ess) by done. unfold add_new_block. fs_step. cbv zeta.
  destruct (e2_alloc_block_run t Ht Hf Hb Hn) as [[Ha _]|(n&t'&_&Hr'&Hu&_)]; [|rewrite Hfull in Hu by lia; done].
  unfold ext2_inode_alloc_block. unfold mbind_ at 1. fs_step. mstep Ha. done.
Qed.
End Add.

(** ** Layout is what locates inodes *)

Lemma dirent_put_bytes off d name b b' : dirent_put off d name b = Some b' -> Forall byte_ok b -> Forall byte_ok name -> Forall byte_ok b'.
Proof.
  unfold dirent_put, put32, put16, put8. intros H Hb Hn. repeat (destruct (put_le _ _ _ _) eqn:? in H; cbn [mbind option_bind] in H; [|done]).
  eapply splice_bytes; [exact H|done|]. repeat (eapply put_le_bytes; [eassumption|]). done.
Qed.

Lemma layout_inode f f' ino : same_layout f f' -> geo f -> 0 < ino ->
  inode_block f' ino = inode_block f ino /\ inode_off f' ino = inode_off f ino /\ (ino_ok f' ino <-> ino_ok f ino).
Proof.
  intros Hl Hf Hi. assert (0 <= ino_group f ino) by (apply Z.div_pos; [lia|apply geo_ipg; done]).
  unfold inode_block, inode_off, ino_ok, table_of, ino_group, ino_index in *.
  rewrite (sl_ipg _ _ Hl), (sl_isz _ _ Hl), (sl_groups _ _ Hl), (sl_gd _ _ Hl) by tauto. done.
Qed.

Section AddNew.
Context `{!Stack}.

(** Block [m] is marked as used, so it is never handed out. *)
Definition reserved (t : T) (m : Z) : Prop := 0 <= m < nblocks t /\ block_used t m = true.

(** Allocation of a direct block for logical block [l] of inode [ino]. *)
Record linked (t : T) (ino : Z) (i : ext2_inode) (l : Z) (n : Z) (i2 : ext2_inode) (t2 : T) : Prop := {
  lk_free : 0 <= n < nblocks t /\ block_used t n = false;
  lk_live : live t2;
  lk_geo : geo (g_fs t2);
  lk_layout : same_layout (g_fs t) (g_fs t2);
  lk_ok : forall m, blk_ok t2 m <-> blk_ok t m;
  lk_inode : inode_at t2 ino = i2 /\ inode_ok i2;
  lk_block : i_block i2 = <[Z.to_nat l := n]> (i_block i);
  lk_mode : i_mode i2 = i_mode i;
  lk_frame : forall m, m <> 1 -> m <> 2 ->
               (forall g, 0 <= g < num_groups (g_fs t) -> m <> bm_of (g_fs t) bg_block_bitmap g) ->
               m <> inode_block (g_fs t) ino -> blk t2 m = blk t m
}.

Lemma alloc_direct_run t ino i l :
  live t -> geo (g_fs t) -> block_geo t -> 0 <= num_groups (g_fs t) -> ino_readable t ino -> inode_ok i -> 0 <= l < 12 ->
  (exists m, 0 <= m < nblocks t /\ block_used t m = false) ->
  exists n i2 t2, ext2_inode_alloc_block ino i l t = Some ((EXT2_OK, i2), t2) /\ linked t ino i l n i2 t2.
Proof.
  intros Ht Hf Hb Hn Hr Hi Hl (m&Hm&Hum).
  destruct (e2_alloc_block_run t Ht Hf Hb Hn) as [[_ Hfull]|(n&t1&Ha&Hnr&Hu&_&Hfl)]; [rewrite Hfull in Hum by lia; done|].
  pose proof (bm_total _ _ _ Hb) as Htot. unfold block_flip in Hfl. unfold nblocks in Hnr.
  assert (in_w 32 n) as Hw by (unfold in_w; nia).
  pose proof (flipped_layout _ _ _ _ _ _ _ _ Hf Hb Hnr Hfl) as Hlay. pose proof (flipped_geo _ _ _ _ _ _ _ _ Hf Hb Hnr Hfl) as Hf1.
  pose proof (fl_live _ _ _ _ _ _ _ _ Hfl) as Ht1. destruct Hr as [Hr1 Hr2].
  destruct (layout_inode _ _ ino Hlay Hf ltac:(apply Hr1)) as (Eib&_&Eok).
  assert (ino_readable t1 ino) as Hr' by (split; [by apply Eok|rewrite Eib; by apply (fl_ok _ _ _ _ _ _ _ _ Hfl)]).
  destruct (set_i_block i l n) as [i1|] eqn:E1.
  2: { unfold set_i_block in E1. rewrite zset_Some in E1 by (destruct Hi as (->&_); lia). done. }
  assert (inode_ok i1) as Hi1 by (eapply set_i_block_ok; [exact Hi|exact Hw|exact E1]).
  set (i2 := add_blocks i1 1024). assert (inode_ok i2) as Hi2 by (apply set_i_blocks_ok; [done|apply u32_in]).
  destruct (write_inode_run t1 ino i2 Ht1 Hf1 Hr' Hi2) as [Hwr Ht2].
  exists n, i2, (put_inode t1 ino i2). split.
  - unfold ext2_inode_alloc_block. fs_step. mstep Ha. rewrite (proj2 (Z.ltb_ge n 0)) by lia. unfold u32. rewrite wrap_small by done.
    unfold link_block. unfold mbind_ at 1. fs_step. unfold EXT2_N_DIRECT. rewrite (proj2 (Z.ltb_lt l 12)) by lia.
    lift_step E1. cbv beta iota zeta. unfold mret at 1. rewrite (geo_bs _ Hf). fold i2. mstep Hwr. done.
  - unfold set_i_block in E1. destruct (zset (i_block i) l n) as [bl|] eqn:Ez; [|done]. injection E1 as <-. apply zset_inv in Ez as [_ ->].
    split; [done|done|done|done|by intros; apply (fl_ok _ _ _ _ _ _ _ _ Hfl)| |done|done|].
    + split; [|done]. rewrite inode_at_put by (done || by left). by rewrite decide_True.
    + intros k H1 H2 H3 H4. rewrite blk_put_inode by (done || by rewrite Eib). apply (fl_frame _ _ _ _ _ _ _ _ Hfl); [done..|].
      apply H3. by apply (idx_range _ n _ (proj1 (bm_per _ _ _ Hb))).
Qed.

(** The new block: one entry that fills it. *)
Definition new_dent (name : list Z) (c ty : Z) : dent := Dent c ty name (replicate (1016 - length name) 0).
Lemma new_dent_blk name c ty : in_w 32 c -> in_w 8 ty -> Z.of_nat (length name) < 256 -> Forall byte_ok name ->
  dir_blk [new_dent name c ty] (enc_dent (new_dent name c ty)) /\
  dirent_put 0 (Dirent c 1024 (u32 (Z.of_nat (length name))) ty) name (replicate 1024 0) = Some (enc_dent (new_dent name c ty)).
Proof.
  intros Hc Hty Hn Hb. pose proof (enc_dent_length (new_dent name c ty)) as Hl.
  assert (dent_len (new_dent name c ty) = 1024) as Hd by (unfold dent_len; cbn [new_dent d_name d_pad]; rewrite length_replicate; lia).
  split.
  - split; [unfold enc_dents; cbn [mbind list_bind]; by rewrite app_nil_r|]. split; [lia|]. constructor; [|constructor].
    split_and!; try done; [lia|]. cbn [new_dent d_pad]. apply Forall_replicate. unfold byte_ok. lia.
  - unfold enc_dent. rewrite Hd. cbn [new_dent d_ino d_type d_name d_pad].
    replace (replicate 1024 0) with (replicate 4 0 ++ replicate 2 0 ++ replicate 1 0 ++ replicate 1 0 ++ replicate (length name) 0 ++ replicate (1016 - length name) 0)
      by (rewrite <-!replicate_add; f_equal; lia).
    unfold dirent_put, put32, put16, put8, put_le. cbn [de_inode de_rec_len de_name_len de_file_type].
    unfold u32, u8, u16. rewrite (wrap_small 32), !(wrap_small 8), (wrap_small 16) by (unfold in_w in *; lia).
    rewrite splice_at0 by (rewrite ?le_enc_length; done). cbn [mbind option_bind].
    set (A := le_enc (Z.to_nat 4) c). assert (length A = 4%nat) by apply le_enc_length.
    rewrite (splice_at (0 + 4) A) by (rewrite ?le_enc_length, ?length_replicate; done || lia). cbn [mbind option_bind].
    set (B := le_enc (Z.to_nat 2) 1024). assert (length B = 2%nat) by apply le_enc_length. rewrite (app_assoc A).
    rewrite (splice_at (0 + 6) (A ++ B)) by (rewrite ?length_app, ?le_enc_length, ?length_replicate; done || lia). cbn [mbind option_bind].
    set (C := le_enc (Z.to_nat 1) (Z.of_nat (length name))). assert (length C = 1%nat) by apply le_enc_length. rewrite (app_assoc (A ++ B)).
    rewrite (splice_at (0 + 7) ((A ++ B) ++ C)) by (rewrite ?length_app, ?le_enc_length, ?length_replicate; done || lia). cbn [mbind option_bind].
    set (D := le_enc (Z.to_nat 1) ty). assert (length D = 1%nat) by apply le_enc_length. rewrite (app_assoc ((A ++ B) ++ C)).
    rewrite (splice_at (0 + 8) (((A ++ B) ++ C) ++ D)) by (rewrite ?length_app, ?length_replicate; done || lia). by rewrite <-!app_assoc.
Qed.
Lemma zero_buf_run (t : T) : zero_buf 1024 t = Some (replicate 1024 0, t).
Proof.
  unfold zero_buf. apply mlift_run. pose proof junk_len as Hj. rewrite <-(app_nil_r junk).
  rewrite splice_at0; [by rewrite app_nil_r|]. rewrite length_replicate. lia.
Qed.

(** The blocks that insertion relies on are marked as used and are apart. *)
Record dir_safe (t : T) (dir : Z) (n : nat) : Prop := {
  ds_ok : forall m, 0 <= m < nblocks t -> blk_ok t m;
  ds_zero : reserved t 0;
  ds_inode : reserved t (inode_block (g_fs t) dir);
  ds_data : forall b, (b < n)%nat -> let m := bmap t (inode_at t dir) (Z.of_nat b) in
    reserved t m /\ m <> 1 /\ m <> 2 /\ m <> inode_block (g_fs t) dir /\
    forall g, 0 <= g < num_groups (g_fs t) -> m <> bm_of (g_fs t) bg_block_bitmap g
}.

Lemma bmap_direct_eq t i l : live t -> geo (g_fs t) -> inode_ok i -> 0 <= l < 12 -> bmap t i l = iptr i l.
Proof. intros Ht Hf Hi Hl. rewrite bmap_eq by (done || unfold MAX_LOGICAL; lia). by rewrite (proj2 (Z.ltb_lt l 12)) by lia. Qed.

Lemma add_new_block_run t dir name c ty ess :
  live t -> geo (g_fs t) -> block_geo t -> 0 <= num_groups (g_fs t) -> ino_readable t dir -> dir_rep t (inode_at t dir) ess ->
  dir_safe t dir (length ess) -> (length ess < 12)%nat -> (exists m, 0 <= m < nblocks t /\ block_used t m = false) ->
  in_w 32 c -> in_w 8 ty -> Z.of_nat (length name) < 256 -> Forall byte_ok name ->
  exists t', add_new_block dir (inode_at t dir) (Z.of_nat (length ess)) name c ty t = Some (EXT2_OK, t') /\ live t' /\
    geo (g_fs t') /\ ino_readable t' dir /\ dir_rep t' (inode_at t' dir) (ess ++ [[new_dent name c ty]]).
Proof.
  intros Ht Hf Hb Hn Hr Hd Hs Hlen Hfree Hc Hty Hnm Hnb. set (i := inode_at t dir) in *. assert (inode_ok i) as Hi by by apply inode_at_ok.
  set (l := Z.of_nat (length ess)). destruct (alloc_direct_run t dir i l Ht Hf Hb Hn Hr Hi ltac:(unfold l; lia) Hfree) as (n&i2&t2&Ha&Hlk).
  destruct Hlk as [[Hnr Hnu] Ht2 Hf2 Hlay Hok2 [Hi2 Hi2ok] Hbl Hmode Hfr].
  assert (forall m, reserved t m -> m <> n) as Hres by (intros m [_ Hm] ->; congruence).
  destruct (layout_inode _ _ dir Hlay Hf ltac:(apply Hr)) as (Eib&_&Eok). destruct Hr as [Hr1 Hr2].
  assert (ino_readable t2 dir) as Hr2' by (split; [by apply Eok|rewrite Eib; by apply Hok2]).
  set (i3 := set_i_size i2 (u32 ((l + 1) * 1024))). assert (inode_ok i3) as Hi3 by (apply set_i_size_ok; [done|apply u32_in]).
  destruct (write_inode_run t2 dir i3 Ht2 Hf2 Hr2' Hi3) as [Hwr Ht3]. set (t3 := put_inode t2 dir i3) in *.
  destruct Hi as (Hbl15&_). assert (forall k, 0 <= k < 12 -> iptr i3 k = if decide (k = l) then n else iptr i k) as Hptr.
  { intros k Hk. unfold iptr. change (i_block i3) with (i_block i2). rewrite Hbl, zget_insert by (rewrite Hbl15; unfold l; lia).
    destruct (decide (k = l)) as [->|]; [by rewrite decide_True|]. by rewrite decide_False by congruence. }
  destruct (new_dent_blk name c ty Hc Hty Hnm Hnb) as [Hnew Hput]. set (v := enc_dent (new_dent name c ty)) in *.
  assert (length v = 1024%nat) as Hv by apply Hnew. assert (blk_ok t3 n) as Hokn by (apply Hok2, (ds_ok _ _ _ Hs); done).
  assert (Forall byte_ok v) as Hvb by (eapply (dirent_put_bytes 0); [exact Hput|apply Forall_replicate; unfold byte_ok; lia|done]).
  exists (put_blk t3 n v). assert (live (put_blk t3 n v)) as Ht4 by by apply put_blk_live.
  assert (inode_at (put_blk t3 n v) dir = i3) as Hi4.
  { transitivity (inode_at t3 dir); [|unfold t3; rewrite inode_at_put by (done || by left); by rewrite decide_True].
    unfold inode_at at 1. cbn [g_fs put_blk]. fold (put_blk t3 n v). rewrite blk_put, decide_False; [done| |done].
    change (g_fs t3) with (g_fs t2). rewrite Eib. apply Hres, (ds_inode _ _ _ Hs). }
  split_and!; [|done|done|done|].
  - unfold add_new_block. fs_step. cbv zeta. mstep Ha. cbv beta iota. rewrite decide_False by tauto. rewrite (geo_bs _ Hf). fold i3. mstep Hwr.
    rewrite (mbind_Some _ _ _ _ _ (bmap_run t3 i3 l Ht3 Hf2 Hi3 ltac:(unfold l, MAX_LOGICAL; lia))).
    rewrite bmap_direct_eq, Hptr, decide_True by (done || unfold l; lia). rewrite (proj2 (Z.eqb_neq n 0)) by (apply not_eq_sym, Hres, (ds_zero _ _ _ Hs)).
    rewrite (mbind_Some _ _ _ _ _ (zero_buf_run t3)). lift_step Hput. by apply write_blk_run.
  - rewrite Hi4. pose proof (dr_max _ _ _ Hd) as Hmax. split.
    + unfold mode_has_dir. cbn [i3 set_i_size i_mode]. rewrite Hmode. apply (dr_mode _ _ _ Hd).
    + cbn [i3 set_i_size i_size]. unfold u32. rewrite wrap_small by (unfold in_w, l; lia). rewrite length_app. simpl. unfold l. lia.
    + rewrite length_app. simpl. lia.
    + intros b es Hbe. assert (b < 12)%nat as Hb12 by (apply lookup_lt_Some in Hbe; rewrite length_app in Hbe; simpl in Hbe; lia).
      rewrite bmap_direct_eq, Hptr by (done || lia). destruct (decide (Z.of_nat b = l)) as [E|E].
      * replace b with (length ess) in Hbe by (unfold l in E; lia). rewrite list_lookup_middle in Hbe by done. injection Hbe as <-.
        rewrite blk_put, decide_True by done. split; [apply not_eq_sym, Hres, (ds_zero _ _ _ Hs)|]. done.
      * assert (b < length ess)%nat as Hbl' by (apply lookup_lt_Some in Hbe; rewrite length_app in Hbe; simpl in Hbe; unfold l in E; lia).
        rewrite lookup_app_l in Hbe by done. destruct (dr_blk _ _ _ Hd b es Hbe) as (D1&D2&D3). destruct (ds_data _ _ _ Hs b Hbl') as (S1&S2&S3&S4&S5).
        fold i in S1, S2, S3, S4, S5. rewrite <-(bmap_direct_eq t i) by (done || by apply inode_at_ok || lia).
        rewrite blk_put, decide_False by (done || by apply Hres). split; [done|]. split; [by apply Hok2|].
        unfold t3. rewrite blk_put_inode by (done || by rewrite Eib). by rewrite Hfr.
Qed.
End AddNew.

(** C11: on a sound directory of fewer than 12 blocks in a file system with a free block,
    adding an entry succeeds; afterwards a lookup of any name finds what it found
    before, or the new inode when it found nothing and asks for the new name. *)
Theorem ext2_dir_add_lookup `{!Stack} (t : T) (dir : Z) (name name' : list Z) (c ty : Z) (ess : list (list dent)) :
  live t -> geo (g_fs t) -> block_geo t -> 0 <= num_groups (g_fs t) -> ino_readable t dir -> dir_rep t (inode_at t dir) ess ->
  dir_safe t dir (length ess) -> (length ess < 12)%nat -> (exists m, 0 <= m < nblocks t /\ block_used t m = false) ->
  in_w 32 c -> c <> 0 -> in_w 8 ty -> Z.of_nat (length name) < 256 -> Forall byte_ok name -> Z.of_nat (length name') < 256 ->
  exists t', ext2_dir_add_entry dir (Some name) c ty t = Some (EXT2_OK, t') /\ live t' /\
    ext2_dir_lookup dir (Some name') t' =
      Some (match dfind name' (concat ess) with Some x => x | None => if decide (name' = name) then c else 0 end, t').
Proof.
  intros Ht Hf Hb Hn Hr Hd Hs Hlen Hfree Hc Hc0 Hty Hnm Hnb Hnm'.
  destruct (add_new_block_run t dir name c ty ess Ht Hf Hb Hn Hr Hd Hs Hlen Hfree Hc Hty Hnm Hnb) as (t'&Ha&Ht'&Hf'&Hr'&Hd').
  exists t'. rewrite (dir_add_eq t dir name c ty ess) by done. split_and!; [done..|].
  rewrite (dir_lookup_run t' dir name' _ Ht' Hf' Hr' Hd' Hnm'). f_equal. f_equal.
  rewrite dir_find_dfind, concat_app, dfind_app. destruct (dfind name' (concat ess)); [done|]. cbn [concat app]. rewrite dfind_cons.
  unfold is_entry. cbn [new_dent d_ino d_name]. rewrite (proj2 (Z.eqb_neq c 0)) by done. cbn [negb andb].
  destruct (decide (name' = name)) as [->|]; [by rewrite bool_decide_eq_true_2|]. by rewrite bool_decide_eq_false_2 by congruence.
Qed.

(** ** An image with a root directory *)

Lemma direct_wmap `{!Stack} (t : T) ib i a b : live t -> geo (g_fs t) -> inode_ok i -> direct_only i -> ib <> 0 ->
  (forall l, touched a b l -> 0 <= l < 12 /\ iptr i l <> 0 /\ blk_ok t (iptr i l)) ->
  (forall l, 0 <= l < 12 -> iptr i l <> ib) ->
  (forall l l', touched a b l -> 0 <= l' < 12 -> iptr i l' = iptr i l -> l' = l) -> wmap t ib i a b.
Proof.
  intros Ht Hf Hi Hd Hib Hdata Hni Hinj.
  assert (forall l, 0 <= l < MAX_LOGICAL -> bmap t i l = if l <? 12 then iptr i l else 0) as Hb by (intros; by apply direct_bmap).
  assert (forall l, touched a b l -> bmap t i l = iptr i l) as Hbt.
  { intros l Hl. destruct (Hdata l Hl) as [Hr _]. rewrite Hb by (unfold MAX_LOGICAL; lia). by rewrite (proj2 (Z.ltb_lt l 12)) by lia. }
  split.
  - intros l Hl. rewrite Hbt by done. apply (Hdata l Hl).
  - intros l Hl. rewrite Hb by done. destruct (Z.ltb_spec l 12); [apply Hni; lia|by apply not_eq_sym].
  - intros l l' Hl Hl'. rewrite (Hbt l Hl), (Hb l' Hl'). destruct (Hdata l Hl) as (_&Hn0&_).
    destruct (Z.ltb_spec l' 12); [apply Hinj; [done|lia]|]. congruence.
  - intros l' Hl'. eapply Forall_impl; [exact (proj2 (direct_bmap t i l' Ht Hf Hi Hd Hl'))|]. intros q ->. split; [by left|]. split; [by apply not_eq_sym|].
    intros l Hl. rewrite Hbt by done. apply not_eq_sym, (Hdata l Hl).
Qed.

Definition dots : list dent := [Dent 2 2 [46] [0; 0; 0]; Dent 2 2 [46; 46] (replicate 1002 0)].
Definition root_inode : ext2_inode :=
  set_i_block_list (set_i_size (set_i_links_count (set_i_mode zero_inode 0x41ED) 2) 1024) (13 :: replicate 14 0).
Lemma root_inode_ok : inode_ok root_inode.
Proof. split_and!; [done..|]. repeat constructor; done. Qed.
Section RootImage.
(** [bits]: the first sector of the block bitmap. *)
Context (bits : list Z) (Hbits : length bits = 512%nat /\ Forall byte_ok bits).
Definition arr5 : arr := Arr {[ (0, 6) := bits; (0, 8) := [255] ++ replicate 511 0 ]} good64.
Definition disk5a : T := put_inode (Estate arr5 fs1) 2 root_inode.
Definition disk5 : T := put_blk disk5a 13 (enc_dents dots).
Lemma arr5_live : live (Estate arr5 fs1).
Proof using Hbits.
  split; [|done]. assert (forall n, Forall byte_ok (replicate n 0)) as Hz.
  { intros. apply Forall_replicate. unfold byte_ok. lia. }
  intros k v. cbn [arr5 store cells]. rewrite lookup_insert_Some, lookup_singleton_Some.
  intros [[_ <-]|[_ [_ <-]]]; [done|]. split; [reflexivity|]. apply Forall_app_2; [|apply Hz]. repeat constructor; done.
Qed.
Lemma disk5_ok n : 0 <= n < 64 -> blk_ok disk5 n.
Proof. exact (disk4_ok n). Qed.
Lemma dots_blk : dir_blk dots (enc_dents dots).
Proof.
  split; [done|]. split; [by vm_compute|]. repeat constructor; try done.
Qed.
Lemma disk5a_live : live disk5a.
Proof using Hbits. apply (@write_inode_run junk0); [exact arr5_live|exact fs1_geo|apply disk1_readable; lia|exact root_inode_ok]. Qed.
Lemma disk5_live : live disk5.
Proof using Hbits.
  apply put_blk_live; [exact disk5a_live|apply dots_blk|]. unfold dots, enc_dents. cbn [mbind list_bind].
  unfold enc_dent. repeat apply Forall_app_2; try apply le_enc_bytes; try (repeat constructor; done).
Qed.
Lemma disk5_inode : inode_at disk5 2 = root_inode.
Proof using Hbits.
  transitivity (inode_at disk5a 2); [|unfold disk5a; rewrite inode_at_put; [done|exact arr5_live|exact fs1_geo|exact root_inode_ok|by left]].
  unfold inode_at at 1. change (g_fs disk5) with (g_fs disk5a). unfold disk5. rewrite blk_put, decide_False; [done|by vm_compute|apply dots_blk].
Qed.
Lemma disk5_bmap l : 0 <= l < 12 -> @bmap junk0 disk5 root_inode l = if decide (l = 0) then 13 else 0.
Proof using Hbits.
  intros Hl. rewrite bmap_direct_eq; [|exact disk5_live|exact fs1_geo|exact root_inode_ok|done].
  replace l with (Z.of_nat (Z.to_nat l)) by lia. assert (Z.to_nat l < 12)%nat as Hk by lia.
  revert Hk. generalize (Z.to_nat l). intros k Hk. do 12 (destruct k as [|k]; [reflexivity|]). lia.
Qed.
Lemma disk5_rep : @dir_rep junk0 disk5 (inode_at disk5 2) [dots].
Proof using Hbits.
  rewrite disk5_inode. split; [done|done|by vm_compute|]. intros b es Hb. assert (b = 0%nat /\ es = dots) as [-> ->].
  { destruct b as [|[|b]]; simplify_eq/=. done. }
  assert (bmap disk5 root_inode (Z.of_nat 0) = 13) as -> by by rewrite disk5_bmap by lia.
  split; [done|]. split; [apply disk5_ok; by vm_compute|]. unfold disk5. rewrite blk_put, decide_True by (done || apply dots_blk). apply dots_blk.
Qed.
Lemma disk5_wmap : @wmap junk0 disk5 (inode_block (g_fs disk5) 2) (inode_at disk5 2) 0 (1024 * Z.of_nat (length [dots])).
Proof using Hbits.
  rewrite disk5_inode. change (inode_block (g_fs disk5) 2) with 5.
  assert (forall l, 0 <= l < 12 -> iptr root_inode l = if decide (l = 0) then 13 else 0) as Hp.
  { intros l Hl. rewrite <-disk5_bmap by done. symmetry. apply bmap_direct_eq; [exact disk5_live|exact fs1_geo|exact root_inode_ok|done]. }
  assert (forall l, touched 0 (1024 * Z.of_nat (length [dots])) l -> l = 0) as Ht.
  { intros l [H1 H2]. change (0 / 1024) with 0 in H1. change (1024 * Z.of_nat (length [dots])) with 1024 in H2. lia. }
  apply direct_wmap; [exact disk5_live|exact fs1_geo|exact root_inode_ok|done|done| | |].
  - intros l ->%Ht. split; [lia|]. split; [done|]. apply disk5_ok. by vm_compute.
  - intros l Hl. rewrite Hp by done. case_decide; done.
  - intros l l' ->%Ht Hl'. rewrite !Hp by (done || lia). repeat case_decide; done.
Qed.
Lemma disk5_block_geo : block_geo disk5.
Proof. destruct disk2_block_geo as [H1 H2 H3 H4 H5 H6 H7]. split; [exact H1|exact H2|exact H3|exact H4|exact H5|exact H6|exact H7]. Qed.
End RootImage.

(** Blocks 0 to 13 in use, and the full device. *)
Definition bits13 : list Z := [255; 63] ++ replicate 510 0.
Definition bits_full : list Z := replicate 8 255 ++ replicate 504 0.
Lemma bits13_ok : length bits13 = 512%nat /\ Forall byte_ok bits13.
Proof. split; [done|]. apply (bool_decide_eq_true_1 (Forall byte_ok bits13)). by vm_compute. Qed.
Lemma bits_full_ok : length bits_full = 512%nat /\ Forall byte_ok bits_full.
Proof. split; [done|]. apply (bool_decide_eq_true_1 (Forall byte_ok bits_full)). by vm_compute. Qed.
(** A decidable property of the first [n] integers, checked by evaluation. *)
Lemma all_below (P : Z -> Prop) `{HP : !forall n, Decision (P n)} (n : Z) : forallb (fun k => bool_decide (P k)) (seqZ 0 n) = true -> forall k, 0 <= k < n -> P k.
Proof.
  intros Ha k Hk. rewrite forallb_forall in Ha. specialize (Ha k). apply (bool_decide_eq_true_1 (P k)), Ha. apply list_elem_of_In, elem_of_seqZ. lia.
Qed.
Lemma disk5_safe : @dir_safe junk0 (disk5 bits13) 2 (length [dots]).
Proof.
  split.
  - intros m Hm. apply disk5_ok. by vm_compute (nblocks _) in Hm.
  - by vm_compute.
  - by vm_compute.
  - intros b Hb. assert (b = 0)%nat as -> by (cbn in Hb; lia). rewrite disk5_inode by exact bits13_ok. cbv zeta.
    rewrite disk5_bmap by (exact bits13_ok || lia). rewrite decide_True by done.
    split; [by vm_compute|]. split_and!; [done..|]. intros g Hg. assert (g = 0) as -> by (cbn in Hg; lia). by vm_compute.
Qed.
Lemma ext2_dir_lookup_first_witness :
  @ext2_dir_lookup _ _ junk0 2 (Some [46; 46]) (disk5 bits13) = Some (dir_find [46; 46] (concat [dots]), (disk5 bits13)) /\
  dir_find [46; 46] (concat [dots]) = 2.
Proof.
  split; [|reflexivity]. apply (@ext2_dir_lookup_first junk0 (disk5 bits13) 2 [46; 46] [dots]).
  - exact (disk5_live bits13 bits13_ok).
  - exact fs1_geo.
  - apply disk1_readable. lia.
  - exact (disk5_rep bits13 bits13_ok).
  - by vm_compute.
Defined.
Lemma ext2_dir_remove_lookup_witness :
  exists t', @ext2_dir_remove_entry _ _ junk0 2 (Some [46; 46]) (disk5 bits13) = Some (EXT2_OK, t') /\ live t' /\ g_fs t' = g_fs (disk5 bits13) /\
    @ext2_dir_lookup _ _ junk0 2 (Some [46]) t' = Some (2, t').
Proof.
  apply (@ext2_dir_remove_lookup junk0 (disk5 bits13) 2 [46; 46] [46] [dots]).
  - exact (disk5_live bits13 bits13_ok).
  - exact fs1_geo.
  - apply disk1_readable. lia.
  - exact (disk5_rep bits13 bits13_ok).
  - exact (disk5_wmap bits13 bits13_ok).
  - apply (bool_decide_eq_true_1 (NoDup (names [dots]))). vm_compute. reflexivity.
  - by vm_compute.
  - by vm_compute.
Defined.
Lemma ext2_dir_add_needs_block_witness :
  @ext2_dir_add_entry _ _ junk0 2 (Some [97]) 12 1 (disk5 bits_full) = Some (EXT2_ERR_NO_SPACE, disk5 bits_full).
Proof.
  apply (@ext2_dir_add_needs_block junk0 (disk5 bits_full) 2 [97] 12 1 [dots]).
  - exact (disk5_live bits_full bits_full_ok).
  - exact fs1_geo.
  - apply disk1_readable. lia.
  - exact (disk5_rep bits_full bits_full_ok).
  - exact (disk5_block_geo bits_full).
  - by vm_compute.
  - apply (all_below (fun n => block_used (disk5 bits_full) n = true)). by vm_compute.
Defined.
Lemma ext2_dir_add_lookup_witness :
  exists t', @ext2_dir_add_entry _ _ junk0 2 (Some [97]) 12 1 (disk5 bits13) = Some (EXT2_OK, t') /\ live t' /\
    @ext2_dir_lookup _ _ junk0 2 (Some [97]) t' = Some (12, t').
Proof.
  apply (@ext2_dir_add_lookup junk0 (disk5 bits13) 2 [97] [97] 12 1 [dots]).
  - exact (disk5_live bits13 bits13_ok).
  - exact fs1_geo.
  - exact (disk5_block_geo bits13).
  - by vm_compute.
  - apply disk1_readable. lia.
  - exact (disk5_rep bits13 bits13_ok).
  - exact disk5_safe.
  - apply (bool_decide_eq_true_1 _). by vm_compute.
  - exists 14. by vm_compute.
  - by vm_compute.
  - done.
  - by vm_compute.
  - by vm_compute.
  - repeat constructor; done.
  - by vm_compute.
Defined.
