(* ===== verification/PageTable.v ===== *)
(** * x86-64 page tables (src/kernel/page_table.c, page_table.h)

    Physical memory is the map [ram] from the base of a 4 KiB frame to its 512
    64-bit words; a frame outside it is not memory, and touching it is a fault.  A
    table pointer is the kernel-virtual address of the table, as in the code: the
    higher-half window shows physical address [p] at [p + HIGHER_HALF_OFFSET], so an
    access goes through [pt_virt_to_phys].  A [uint64_t *] to an entry is the pair
    of its table and its index.  Frames come from the bitmap allocator of Pmm.v.
    The TLB (INVLPG, the CR3 reload of [pt_flush_tlb]) and the serial log are left
    out. *)

From stdpp Require Import base numbers gmap list options.
From S2P Require Import Prelude Pmm.

(** ** Entries *)

Definition PTE_PRESENT : Z := Z.shiftl 1 0.
Definition PTE_WRITABLE : Z := Z.shiftl 1 1.
Definition PTE_USER : Z := Z.shiftl 1 2.
Definition PTE_PS : Z := Z.shiftl 1 7.
Definition PTE_COW : Z := Z.shiftl 1 9.
Definition PTE_DEMAND : Z := Z.shiftl 1 10.
Definition PTE_NX : Z := Z.shiftl 1 63.
Definition PTE_ADDR_MASK : Z := 0x000FFFFFFFFFF000.
Definition PT_ENTRIES : Z := 512.
Definition HEAP_BASE : Z := 0xFFFFFFFFC0000000.
Definition HEAP_SIZE : Z := 16 * 1024 * 1024.
Definition HEAP_END : Z := HEAP_BASE + HEAP_SIZE.
Definition HEAP_PAGE_COUNT : Z := HEAP_SIZE / PAGE_SIZE.
Definition HIGHER_HALF_OFFSET : Z := 0xFFFFFFFF80000000.

(** [pte & flag] as a condition. *)
Definition has (pte flag : Z) : bool := negb (Z.land pte flag =? 0).
Definition pte_present (pte : Z) : bool := has pte PTE_PRESENT.
Definition pte_huge (pte : Z) : bool := has pte PTE_PS.
Definition pte_addr (pte : Z) : Z := Z.land pte PTE_ADDR_MASK.
Definition pte_flags (pte : Z) : Z := Z.land pte (not64 PTE_ADDR_MASK).
Definition pte_make (phys_addr flags : Z) : Z := Z.lor (Z.land phys_addr PTE_ADDR_MASK) flags.

Definition PML4_INDEX (va : Z) : Z := Z.land (Z.shiftr va 39) 0x1FF.
Definition PDPT_INDEX (va : Z) : Z := Z.land (Z.shiftr va 30) 0x1FF.
Definition PD_INDEX (va : Z) : Z := Z.land (Z.shiftr va 21) 0x1FF.
Definition PT_INDEX (va : Z) : Z := Z.land (Z.shiftr va 12) 0x1FF.

Definition va_is_kernel (va : Z) : bool := Z.land va 0xFFFF000000000000 =? 0xFFFF000000000000.
Definition va_is_user (va : Z) : bool := Z.land va 0xFFFF000000000000 =? 0.
Definition va_is_canonical (va : Z) : bool := (va <? 0x0000800000000000) || (0xFFFF800000000000 <=? va).
Definition is_page_aligned (addr : Z) : bool := Z.land addr (PAGE_SIZE - 1) =? 0.

(** ** Memory *)

Record mm := Mm {
  mm_pmm : pmm;                 (** the frame allocator *)
  ram : gmap Z (list Z);        (** frame base -> words *)
  cr3 : Z
}.

Definition on_pmm {A} (m : M pmm A) : M mm A :=
  fun s => match m (mm_pmm s) with Some (a, p) => Some (a, Mm p (ram s) (cr3 s)) | None => None end.
Definition set_ram (r : gmap Z (list Z)) (s : mm) : mm := Mm (mm_pmm s) r (cr3 s).

Definition pt_phys_to_virt (phys : Z) : Z := u64 (phys + HIGHER_HALF_OFFSET).
Definition pt_virt_to_phys (virt : Z) : Z := u64 (virt - HIGHER_HALF_OFFSET).

(** [table[i]] and [table[i] = v] *)
Definition tab_get (table i : Z) : M mm Z :=
  s <~ mget ;; ws <~ mlift (ram s !! pt_virt_to_phys table) ;; mlift (zget ws i).
Definition tab_set (table i v : Z) : M mm unit :=
  s <~ mget ;; ws <~ mlift (ram s !! pt_virt_to_phys table) ;;
  ws' <~ mlift (zset ws i v) ;; mput (set_ram (<[pt_virt_to_phys table := ws']> (ram s)) s).
(** [memset(page, 0, PAGE_SIZE)] *)
Definition page_zero (page : Z) : M mm unit :=
  s <~ mget ;; _ <~ mlift (ram s !! pt_virt_to_phys page) ;;
  mput (set_ram (<[pt_virt_to_phys page := replicate (Z.to_nat PT_ENTRIES) 0]> (ram s)) s).
(** [memcpy(dst, src, PAGE_SIZE)] *)
Definition page_copy (dst src : Z) : M mm unit :=
  s <~ mget ;; ws <~ mlift (ram s !! pt_virt_to_phys src) ;; _ <~ mlift (ram s !! pt_virt_to_phys dst) ;;
  mput (set_ram (<[pt_virt_to_phys dst := ws]> (ram s)) s).

(** ** Single entries *)

Definition bad_index (table index : Z) : bool := (table =? 0) || (index <? 0) || (PT_ENTRIES <=? index).
Definition pt_get_entry (table index : Z) : M mm Z :=
  if bad_index table index then return 0 else tab_get table index.
Definition pt_set_entry (table index value : Z) : M mm unit :=
  if bad_index table index then return tt else tab_set table index value.
Definition pt_clear_entry (table index : Z) : M mm unit :=
  if bad_index table index then return tt else tab_set table index 0.

(** The loop of [pt_table_empty] from entry [i]. *)
Fixpoint empty_scan (n : nat) (table i : Z) : M mm bool :=
  match n with
  | O => return true
  | S n' => e <~ tab_get table i ;; if pte_present e then return false else empty_scan n' table (i + 1)
  end.
Definition pt_table_empty (table : Z) : M mm bool :=
  if table =? 0 then return true else empty_scan (Z.to_nat PT_ENTRIES) table 0.

(** ** Walk *)

Definition pt_get_or_create_entry (table index : Z) (create : bool) (flags : Z) : M mm Z :=
  entry <~ pt_get_entry table index ;;
  if pte_present entry then return entry else
  if negb create then return 0 else
  new_phys <~ on_pmm pmm_alloc_frame ;;
  if new_phys =? 0 then return 0 else
  page_zero (pt_phys_to_virt new_phys) ;;;
  let new_entry := pte_make new_phys flags in
  pt_set_entry table index new_entry ;;; return new_entry.

(** [None] is NULL. *)
Definition pt_walk_to_leaf (pml4 vaddr : Z) (create : bool) (flags : Z) : M mm (option (Z * Z)) :=
  if pml4 =? 0 then return None else
  pml4e <~ pt_get_or_create_entry pml4 (PML4_INDEX vaddr) create flags ;;
  if negb (pte_present pml4e) then return None else
  if pte_huge pml4e then return None else
  let pdpt := pt_phys_to_virt (pte_addr pml4e) in
  pdpe <~ pt_get_or_create_entry pdpt (PDPT_INDEX vaddr) create flags ;;
  if negb (pte_present pdpe) then return None else
  if pte_huge pdpe then return (Some (pdpt, PDPT_INDEX vaddr)) else
  let pd := pt_phys_to_virt (pte_addr pdpe) in
  pde <~ pt_get_or_create_entry pd (PD_INDEX vaddr) create flags ;;
  if negb (pte_present pde) then return None else
  if pte_huge pde then return (Some (pd, PD_INDEX vaddr)) else
  return (Some (pt_phys_to_virt (pte_addr pde), PT_INDEX vaddr)).

(** ** Release of tables *)

(** [level] of the C function is at most 3; the recursion is on it. *)
Fixpoint pt_free_recursive (level : nat) (table : Z) : M mm unit :=
  match level with
  | O => return tt
  | S level' =>
    if table =? 0 then return tt else
    for_range 0 PT_ENTRIES (fun i =>
      entry <~ tab_get table i ;;
      if negb (pte_present entry) then return tt else
      if pte_huge entry then return tt else
      let sub_phys := pte_addr entry in
      pt_free_recursive level' (pt_phys_to_virt sub_phys) ;;;
      on_pmm (pmm_free_frame sub_phys) ;;; tab_set table i 0)
  end.

Definition pt_cleanup_empty_tables (pml4 vaddr : Z) : M mm unit :=
  if pml4 =? 0 then return tt else
  let pml4_idx := PML4_INDEX vaddr in
  pml4e <~ tab_get pml4 pml4_idx ;;
  if negb (pte_present pml4e) then return tt else
  if pte_huge pml4e then return tt else
  let pdpt := pt_phys_to_virt (pte_addr pml4e) in
  let pdpt_idx := PDPT_INDEX vaddr in
  pdpe <~ tab_get pdpt pdpt_idx ;;
  if negb (pte_present pdpe) then return tt else
  if pte_huge pdpe then return tt else
  let pd := pt_phys_to_virt (pte_addr pdpe) in
  let pd_idx := PD_INDEX vaddr in
  pde <~ tab_get pd pd_idx ;;
  if negb (pte_present pde) then return tt else
  if pte_huge pde then return tt else
  let pt := pt_phys_to_virt (pte_addr pde) in
  e <~ pt_table_empty pt ;;
  if negb e then return tt else
  on_pmm (pmm_free_frame (pte_addr pde)) ;;;
  tab_set pd pd_idx 0 ;;;
  e <~ pt_table_empty pd ;;
  if negb e then return tt else
  on_pmm (pmm_free_frame (pte_addr pdpe)) ;;;
  tab_set pdpt pdpt_idx 0 ;;;
  e <~ pt_table_empty pdpt ;;
  if negb e then return tt else
  if 256 <=? pml4_idx then return tt else
  on_pmm (pmm_free_frame (pte_addr pml4e)) ;;;
  tab_set pml4 pml4_idx 0.

Definition pt_read_cr3 : M mm Z := mgets cr3.
Definition pt_write_cr3 (v : Z) : M mm unit := mmodify (fun s => Mm (mm_pmm s) (ram s) v).

Record address_space := ASpace { pml4 : Z; pml4_phys : Z; is_kernel : bool }.
