(* ===== verification/Vmm.v ===== *)
(** * Virtual memory manager (src/kernel/vmm.c, vmm.h)

    Every operation of vmm.c on the page tables of PageTable.v.  An
    [address_space_t *] argument is [None] for NULL; the operations that write the
    structure return its new value.  Logging ([format_flags], VMM_LOG) and TLB
    invalidation are left out. *)

From stdpp Require Import base numbers gmap list options.
From S2P Require Import Prelude Pmm PageTable.

Inductive vmm_status :=
  VMM_OK | VMM_ERR_NOT_INIT | VMM_ERR_INVALID | VMM_ERR_NOT_MAPPED | VMM_ERR_ALREADY_MAP | VMM_ERR_NO_MEM
| VMM_ERR_PERM | VMM_ERR_HUGE_PAGE.
#[global] Instance vmm_status_eq : EqDecision vmm_status.
Proof. solve_decision. Defined.

Definition PT_DEFAULT_FLAGS : Z := Z.lor PTE_PRESENT PTE_WRITABLE.

Record vmm := Vmm {
  g_kernel_aspace : address_space;
  g_vmm_initialized : bool;
  v_mm : mm
}.
Definition on_mm {A} (m : M mm A) : M vmm A :=
  fun s => match m (v_mm s) with
           | Some (a, x) => Some (a, Vmm (g_kernel_aspace s) (g_vmm_initialized s) x) | None => None end.

Definition validate_vaddr (vaddr : Z) : vmm_status :=
  if negb (is_page_aligned vaddr) then VMM_ERR_INVALID else
  if negb (va_is_canonical vaddr) then VMM_ERR_INVALID else
  if vaddr =? 0 then VMM_ERR_INVALID else VMM_OK.
Definition validate_paddr (paddr : Z) : vmm_status :=
  if negb (is_page_aligned paddr) then VMM_ERR_INVALID else
  if paddr =? 0 then VMM_ERR_INVALID else VMM_OK.
Definition validate_aspace (as_ : option address_space) : vmm_status :=
  match as_ with None => VMM_ERR_INVALID | Some a => if pml4 a =? 0 then VMM_ERR_INVALID else VMM_OK end.

Definition vmm_init : M vmm unit :=
  cr3_phys <~ on_mm pt_read_cr3 ;;
  mmodify (fun s => Vmm (ASpace (pt_phys_to_virt cr3_phys) cr3_phys true) true (v_mm s)).

Definition vmm_get_kernel_address_space : M vmm (option address_space) :=
  s <~ mget ;; return (if g_vmm_initialized s then Some (g_kernel_aspace s) else None).
Definition vmm_is_initialized : M vmm bool := mgets g_vmm_initialized.

(** ** Address spaces *)

(** [out <> NULL]; the value is what [*out] becomes, when it is written. *)
Definition vmm_create_address_space : M vmm (vmm_status * option address_space) :=
  s <~ mget ;;
  if negb (g_vmm_initialized s) then return (VMM_ERR_NOT_INIT, None) else
  new_phys <~ on_mm (on_pmm pmm_alloc_frame) ;;
  if new_phys =? 0 then return (VMM_ERR_NO_MEM, None) else
  let new_pml4 := pt_phys_to_virt new_phys in
  on_mm (page_zero new_pml4 ;;;
    for_range 256 PT_ENTRIES (fun i => e <~ tab_get (pml4 (g_kernel_aspace s)) i ;; tab_set new_pml4 i e)) ;;;
  return (VMM_OK, Some (ASpace new_pml4 new_phys false)).

(** The loops of [vmm_destroy_address_space], innermost first. *)
Definition destroy_pt (pt : Z) : M mm unit :=
  for_range 0 PT_ENTRIES (fun m =>
    pte <~ tab_get pt m ;;
    if negb (pte_present pte) then return tt else on_pmm (pmm_free_frame (pte_addr pte)) ;;; return tt).
Definition destroy_pd (pd : Z) : M mm unit :=
  for_range 0 PT_ENTRIES (fun k =>
    pde <~ tab_get pd k ;;
    if negb (pte_present pde) then return tt else
    if pte_huge pde then on_pmm (pmm_free_frame (pte_addr pde)) ;;; return tt else
    destroy_pt (pt_phys_to_virt (pte_addr pde)) ;;; on_pmm (pmm_free_frame (pte_addr pde)) ;;; return tt).
Definition destroy_pdpt (pdpt : Z) : M mm unit :=
  for_range 0 PT_ENTRIES (fun j =>
    pdpe <~ tab_get pdpt j ;;
    if negb (pte_present pdpe) then return tt else
    if pte_huge pdpe then on_pmm (pmm_free_frame (pte_addr pdpe)) ;;; return tt else
    destroy_pd (pt_phys_to_virt (pte_addr pdpe)) ;;; on_pmm (pmm_free_frame (pte_addr pdpe)) ;;; return tt).
(** [kpml4]: the PML4 of the kernel address space. *)
Definition destroy_pml4 (upml4 kpml4 : Z) : M mm unit :=
  for_range 0 256 (fun i =>
    entry <~ tab_get upml4 i ;;
    if negb (pte_present entry) then return tt else
    shared <~ (if kpml4 =? 0 then return false else k <~ tab_get kpml4 i ;; return (entry =? k)) ;;
    if shared : bool then return tt else
    destroy_pdpt (pt_phys_to_virt (pte_addr entry)) ;;;
    on_pmm (pmm_free_frame (pte_addr entry)) ;;; tab_set upml4 i 0).

Definition vmm_destroy_address_space (as_ : option address_space) : M vmm (vmm_status * option address_space) :=
  s <~ mget ;;
  if negb (g_vmm_initialized s) then return (VMM_ERR_NOT_INIT, as_) else
  match as_ with
  | None => return (VMM_ERR_INVALID, as_)
  | Some a =>
    if pml4 a =? 0 then return (VMM_ERR_INVALID, as_) else
    if is_kernel a then return (VMM_ERR_INVALID, as_) else
    on_mm (destroy_pml4 (pml4 a) (pml4 (g_kernel_aspace s)) ;;; on_pmm (pmm_free_frame (pml4_phys a))) ;;;
    return (VMM_OK, Some (ASpace 0 0 (is_kernel a)))
  end.

(** ** Mapping *)

(** The common head of the mapping operations: checks, then [k] on the structure. *)
Definition checked {A} (as_ : option address_space) (checks : list vmm_status) (err : vmm_status -> A)
    (k : address_space -> M vmm A) : M vmm A :=
  s <~ mget ;;
  if negb (g_vmm_initialized s) then return (err VMM_ERR_NOT_INIT) else
  match as_ with
  | None => return (err VMM_ERR_INVALID)
  | Some a =>
    match List.find (fun st => negb (bool_decide (st = VMM_OK))) (validate_aspace as_ :: checks) with
    | Some st => return (err st)
    | None => k a
    end
  end.

Definition inter_flags (flags : Z) : Z := Z.lor PT_DEFAULT_FLAGS (Z.land flags PTE_USER).

Definition vmm_map_page (as_ : option address_space) (vaddr paddr flags : Z) : M vmm vmm_status :=
  checked as_ [validate_vaddr vaddr; validate_paddr paddr] id (fun a =>
    let leaf_flags := Z.lor flags PTE_PRESENT in
    p <~ on_mm (pt_walk_to_leaf (pml4 a) vaddr true (inter_flags flags)) ;;
    match p with
    | None => return VMM_ERR_NO_MEM
    | Some (t, i) =>
      pte <~ on_mm (tab_get t i) ;;
      if pte_present pte then return VMM_ERR_ALREADY_MAP else
      on_mm (tab_set t i (pte_make paddr leaf_flags)) ;;; return VMM_OK
    end).

(** The entry that replaces a present one. *)
Definition merged_pte (pte leaf_flags : Z) : Z :=
  let merged_flags := Z.lor pte leaf_flags in
  let merged_flags := if has leaf_flags PTE_NX then merged_flags else Z.land merged_flags (not64 PTE_NX) in
  Z.lor (Z.land pte PTE_ADDR_MASK) merged_flags.

Definition vmm_map_page_merge (as_ : option address_space) (vaddr paddr flags : Z) : M vmm vmm_status :=
  checked as_ [validate_vaddr vaddr; validate_paddr paddr] id (fun a =>
    let leaf_flags := Z.lor flags PTE_PRESENT in
    p <~ on_mm (pt_walk_to_leaf (pml4 a) vaddr true (inter_flags flags)) ;;
    match p with
    | None => return VMM_ERR_NO_MEM
    | Some (t, i) =>
      pte <~ on_mm (tab_get t i) ;;
      if pte_present pte then
        let merged := merged_pte pte leaf_flags in
        (if merged =? pte then return tt else on_mm (tab_set t i merged)) ;;; return VMM_OK
      else on_mm (tab_set t i (pte_make paddr leaf_flags)) ;;; return VMM_OK
    end).

Definition vmm_unmap_page (as_ : option address_space) (vaddr : Z) : M vmm vmm_status :=
  checked as_ [validate_vaddr vaddr] id (fun a =>
    p <~ on_mm (pt_walk_to_leaf (pml4 a) vaddr false 0) ;;
    match p with
    | None => return VMM_ERR_NOT_MAPPED
    | Some (t, i) =>
      pte <~ on_mm (tab_get t i) ;;
      if negb (has pte (Z.lor PTE_PRESENT PTE_DEMAND)) then return VMM_ERR_NOT_MAPPED else
      on_mm (tab_set t i 0 ;;; pt_cleanup_empty_tables (pml4 a) vaddr) ;;; return VMM_OK
    end).

(** The loop of [vmm_unmap_range]; [n] bounds the number of pages left. *)
Fixpoint unmap_loop (n : nat) (as_ : option address_space) (va vaddr_end : Z) : M vmm unit :=
  if va <? vaddr_end then
    match n with
    | O => mfault
    | S n' =>
      vmm_unmap_page as_ va ;;;
      if u64 (va + PAGE_SIZE) <? va then return tt else unmap_loop n' as_ (u64 (va + PAGE_SIZE)) vaddr_end
    end
  else return tt.
Definition vmm_unmap_range (as_ : option address_space) (vaddr_start vaddr_end : Z) : M vmm vmm_status :=
  checked as_ [] id (fun a =>
    if vaddr_end <=? vaddr_start then return VMM_ERR_INVALID else
    if negb (is_page_aligned vaddr_start) || negb (is_page_aligned vaddr_end) then return VMM_ERR_INVALID else
    unmap_loop (Z.to_nat ((vaddr_end - vaddr_start) / PAGE_SIZE)) as_ vaddr_start vaddr_end ;;; return VMM_OK).

Definition vmm_translate (as_ : option address_space) (vaddr : Z) : M vmm Z :=
  s <~ mget ;;
  if negb (g_vmm_initialized s) then return 0 else
  match as_ with
  | None => return 0
  | Some a =>
    if pml4 a =? 0 then return 0 else on_mm (
    let offset := Z.land vaddr 0xFFF in
    pml4e <~ pt_get_entry (pml4 a) (PML4_INDEX vaddr) ;;
    if negb (pte_present pml4e) then return 0 else
    pdpe <~ tab_get (pt_phys_to_virt (pte_addr pml4e)) (PDPT_INDEX vaddr) ;;
    if negb (pte_present pdpe) then return 0 else
    if pte_huge pdpe then return (u64 (Z.land pdpe 0x000FFFFFC0000000 + Z.land vaddr 0x3FFFFFFF)) else
    pde <~ tab_get (pt_phys_to_virt (pte_addr pdpe)) (PD_INDEX vaddr) ;;
    if negb (pte_present pde) then return 0 else
    if pte_huge pde then return (u64 (Z.land pde 0x000FFFFFFFE00000 + Z.land vaddr 0x1FFFFF)) else
    pte <~ tab_get (pt_phys_to_virt (pte_addr pde)) (PT_INDEX vaddr) ;;
    if negb (pte_present pte) then return 0 else return (u64 (pte_addr pte + offset)))
  end.

Definition vmm_switch_address_space (as_ : option address_space) : M vmm unit :=
  match as_ with
  | None => return tt
  | Some a => if pml4_phys a =? 0 then return tt else on_mm (pt_write_cr3 (pml4_phys a))
  end.

Definition vmm_unmap_and_free (as_ : option address_space) (vaddr : Z) : M vmm vmm_status :=
  checked as_ [validate_vaddr vaddr] id (fun a =>
    p <~ on_mm (pt_walk_to_leaf (pml4 a) vaddr false 0) ;;
    match p with
    | None => return VMM_ERR_NOT_MAPPED
    | Some (t, i) =>
      old <~ on_mm (tab_get t i) ;;
      if has old PTE_DEMAND then
        on_mm (tab_set t i 0 ;;; pt_cleanup_empty_tables (pml4 a) vaddr) ;;; return VMM_OK else
      if negb (pte_present old) then return VMM_ERR_NOT_MAPPED else
      on_mm (tab_set t i 0 ;;; on_pmm (pmm_free_frame (pte_addr old)) ;;;
             pt_cleanup_empty_tables (pml4 a) vaddr) ;;; return VMM_OK
    end).

Definition vmm_map_demand_page (as_ : option address_space) (vaddr flags : Z) : M vmm vmm_status :=
  checked as_ [validate_vaddr vaddr] id (fun a =>
    p <~ on_mm (pt_walk_to_leaf (pml4 a) vaddr true (inter_flags flags)) ;;
    match p with
    | None => return VMM_ERR_NO_MEM
    | Some (t, i) =>
      pte <~ on_mm (tab_get t i) ;;
      if has pte (Z.lor PTE_PRESENT PTE_DEMAND) then return VMM_ERR_ALREADY_MAP else
      let demand_flags := Z.lor (Z.land flags (not64 PTE_ADDR_MASK)) PTE_DEMAND in
      on_mm (tab_set t i (Z.land demand_flags (not64 PTE_PRESENT))) ;;; return VMM_OK
    end).

(** ** Clone *)

(** One leaf: the entries the source and the clone get. *)
Definition clone_leaf (src_leaf : Z) : Z * Z :=
  if has src_leaf PTE_DEMAND && negb (pte_present src_leaf) then (src_leaf, src_leaf) else
  if negb (pte_present src_leaf) then (src_leaf, 0) else
  let leaf_flags := pte_flags src_leaf in
  if has leaf_flags PTE_WRITABLE && negb (has leaf_flags PTE_COW) then
    let cow := pte_make (pte_addr src_leaf) (Z.lor (Z.land leaf_flags (not64 PTE_WRITABLE)) PTE_COW) in (cow, cow)
  else (src_leaf, src_leaf).
Definition clone_pt (src_pt dst_pt : Z) : M mm unit :=
  for_range 0 PT_ENTRIES (fun m =>
    src_leaf <~ tab_get src_pt m ;;
    let '(s', d') := clone_leaf src_leaf in
    (if s' =? src_leaf then return tt else tab_set src_pt m s') ;;; tab_set dst_pt m d').

(** Counted loop with an early exit: [false] as soon as an iteration returns [false]. *)
Fixpoint while_ok {S} (n : nat) (i : Z) (body : Z -> M S bool) : M S bool :=
  match n with
  | O => return true
  | Datatypes.S n' => ok <~ body i ;; if ok : bool then while_ok n' (i + 1) body else return false
  end.

(** The PD loop; on failure the tables hanging off [dst_pd] are released. *)
Definition clone_pd (src_pd dst_pd : Z) : M mm bool :=
  while_ok (Z.to_nat PT_ENTRIES) 0 (fun k =>
    src_pde <~ tab_get src_pd k ;;
    if negb (pte_present src_pde) then tab_set dst_pd k 0 ;;; return true else
    if pte_huge src_pde then tab_set dst_pd k src_pde ;;; return true else
    new_pt_phys <~ on_pmm pmm_alloc_frame ;;
    if new_pt_phys =? 0 then pt_free_recursive 1 dst_pd ;;; return false else
    clone_pt (pt_phys_to_virt (pte_addr src_pde)) (pt_phys_to_virt new_pt_phys) ;;;
    tab_set dst_pd k (pte_make new_pt_phys (pte_flags src_pde)) ;;; return true).
Definition clone_pdpt (src_pdpt dst_pdpt : Z) : M mm bool :=
  while_ok (Z.to_nat PT_ENTRIES) 0 (fun j =>
    src_pdpe <~ tab_get src_pdpt j ;;
    if negb (pte_present src_pdpe) then tab_set dst_pdpt j 0 ;;; return true else
    if pte_huge src_pdpe then tab_set dst_pdpt j src_pdpe ;;; return true else
    new_pd_phys <~ on_pmm pmm_alloc_frame ;;
    if new_pd_phys =? 0 then pt_free_recursive 2 dst_pdpt ;;; return false else
    page_zero (pt_phys_to_virt new_pd_phys) ;;;
    ok <~ clone_pd (pt_phys_to_virt (pte_addr src_pdpe)) (pt_phys_to_virt new_pd_phys) ;;
    if negb ok then
      on_pmm (pmm_free_frame new_pd_phys) ;;; tab_set dst_pdpt j 0 ;;;
      pt_free_recursive 2 dst_pdpt ;;; return false
    else tab_set dst_pdpt j (pte_make new_pd_phys (pte_flags src_pdpe)) ;;; return true).

(** Releases the entries [0, i) of the clone's PML4. *)
Definition clone_undo (dst_pml4 i : Z) : M mm unit :=
  for_range 0 i (fun c =>
    e <~ tab_get dst_pml4 c ;;
    if negb (pte_present e) then return tt else
    pt_free_recursive 2 (pt_phys_to_virt (pte_addr e)) ;;;
    on_pmm (pmm_free_frame (pte_addr e)) ;;; tab_set dst_pml4 c 0).
Definition clone_pml4 (src_pml4 dst_pml4 : Z) : M mm bool :=
  while_ok 256 0 (fun i =>
    src_entry <~ tab_get src_pml4 i ;;
    if negb (pte_present src_entry) then return true else
    new_pdpt_phys <~ on_pmm pmm_alloc_frame ;;
    if new_pdpt_phys =? 0 then clone_undo dst_pml4 i ;;; return false else
    let dst_pdpt := pt_phys_to_virt new_pdpt_phys in
    page_zero dst_pdpt ;;;
    ok <~ clone_pdpt (pt_phys_to_virt (pte_addr src_entry)) dst_pdpt ;;
    if negb ok then on_pmm (pmm_free_frame new_pdpt_phys) ;;; clone_undo dst_pml4 i ;;; return false
    else tab_set dst_pml4 i (pte_make new_pdpt_phys (pte_flags src_entry)) ;;; return true).

Definition vmm_clone_address_space (src dst : option address_space) : M vmm vmm_status :=
  s <~ mget ;;
  if negb (g_vmm_initialized s) then return VMM_ERR_NOT_INIT else
  match src, dst with
  | Some a, Some b =>
    if (pml4 a =? 0) || (pml4 b =? 0) then return VMM_ERR_INVALID else
    ok <~ on_mm (clone_pml4 (pml4 a) (pml4 b)) ;;
    return (if ok : bool then VMM_OK else VMM_ERR_NO_MEM)
  | _, _ => return VMM_ERR_INVALID
  end.
