(* ===== verification/VmmSpec.v ===== *)
(** * Address spaces as maps (the theorems on PageTable.v and Vmm.v)

    The tables reachable from the roots of all address spaces form trees: [lvl] gives
    each table frame its level (3 for a PML4 down to 0 for a page table), the part of
    the page number that leads to it and its owner: the root of the address space for
    the user half, the PDPT for the kernel half, which the address spaces share.  Against that invariant an
    address space is a map from pages to present entries, [pview]; the operations
    of vmm.c are updates of it. *)

From stdpp Require Import base numbers gmap list options.
From S2P Require Import Prelude Pmm PageTable Vmm.

(** ** Indices *)

Definition ix (l : nat) (va : Z) : Z := (va / 2 ^ (12 + 9 * Z.of_nat l)) mod 512.
Definition vpn (va : Z) : Z := (va / 4096) mod 2 ^ 36.
(** The part of the page number that selects a table of level [l]. *)
Definition pre (l : nat) (va : Z) : Z := vpn va / 512 ^ (Z.of_nat l + 1).

Lemma land_1ff x : Z.land x 0x1FF = x mod 512.
Proof. change 0x1FF with (Z.ones 9). by rewrite Z.land_ones. Qed.
Lemma index_ix va :
  PML4_INDEX va = ix 3 va /\ PDPT_INDEX va = ix 2 va /\ PD_INDEX va = ix 1 va /\ PT_INDEX va = ix 0 va.
Proof.
  unfold PML4_INDEX, PDPT_INDEX, PD_INDEX, PT_INDEX, ix. rewrite !land_1ff, !Z.shiftr_div_pow2 by lia. done.
Qed.
Lemma ix_range l va : 0 <= ix l va < 512.
Proof. apply Z.mod_pos_bound. lia. Qed.
Lemma pre_3 va : pre 3 va = 0.
Proof. apply Z.div_small. unfold vpn. change (512 ^ (Z.of_nat 3 + 1)) with (2 ^ 36). apply Z.mod_pos_bound. lia. Qed.
Lemma mod_digit v k c : 0 < k -> 0 < c -> v mod (k * 512 * c) / k mod 512 = v / k mod 512.
Proof.
  intros Hk Hc. rewrite (Z.div_mod v (k * 512 * c)) at 2 by lia.
  replace (k * 512 * c * (v / (k * 512 * c)) + v mod (k * 512 * c))
    with (v mod (k * 512 * c) + (c * (v / (k * 512 * c)) * 512) * k) by lia.
  by rewrite Z.div_add, Z_mod_plus_full by lia.
Qed.
Lemma pre_ix l va : (l < 3)%nat -> pre (S l) va * 512 + ix (S l) va = pre l va.
Proof.
  intros Hl. unfold pre, ix, vpn. assert (forall k c, 0 < k -> 0 < c -> k * 512 * c = 2 ^ 36 ->
    (va / 4096) mod 2 ^ 36 / (k * 512) * 512 + va / (4096 * k) mod 512 = (va / 4096) mod 2 ^ 36 / k) as H.
  { intros k c Hk Hc <-. rewrite <-!Z.div_div by lia. rewrite <-(mod_digit _ k c) by done.
    pose proof (Z.div_mod ((va / 4096) mod (k * 512 * c) / k) 512). lia. }
  destruct l as [|[|[|l]]]; [| | |lia].
  - exact (H (2 ^ 9) (2 ^ 18) eq_refl eq_refl eq_refl).
  - exact (H (2 ^ 18) (2 ^ 9) eq_refl eq_refl eq_refl).
  - exact (H (2 ^ 27) 1 eq_refl eq_refl eq_refl).
Qed.
Lemma vpn_ix va : pre 0 va * 512 + ix 0 va = vpn va.
Proof.
  unfold pre, ix, vpn. change (512 ^ (Z.of_nat 0 + 1)) with 512. change (2 ^ (12 + 9 * Z.of_nat 0)) with 4096.
  rewrite <-(Z.div_1_r (va / 4096 mod 2 ^ 36)) at 2. rewrite <-(Z.div_1_r (va / 4096)) at 2.
  rewrite <-(mod_digit _ 1 (2 ^ 27)) by done. change (1 * 512 * 2 ^ 27) with (2 ^ 36). rewrite Z.div_1_r.
  pose proof (Z.div_mod ((va / 4096) mod 2 ^ 36) 512). lia.
Qed.

(** ** The map an address space stands for *)

(** Entry [i] of the table at physical address [t]. *)
Definition ent (m : mm) (t i : Z) : option Z := ws ← ram m !! t; zget ws i.

(** The slot that decides the translation of [va], from table [t] of level [l]: its
    level, table and index; [None] when a table on the way is missing. *)
Fixpoint find (l : nat) (m : mm) (t va : Z) : option (nat * Z * Z) :=
  match l with
  | O => Some (O, t, ix 0 va)
  | S l' =>
    e ← ent m t (ix l va);
    if negb (pte_present e) then None else
    if pte_huge e then (if (l =? 3)%nat then None else Some (l, t, ix l va)) else
    find l' m (pte_addr e) va
  end.
(** The present entry of that slot, with its level. *)
Definition view_of (q : Z -> bool) (l : nat) (m : mm) (t va : Z) : option (nat * Z) :=
  ' (l', t', i) ← find l m t va; e ← ent m t' i; if q e then Some (l', e) else None.
Definition view : nat -> mm -> Z -> Z -> option (nat * Z) := view_of pte_present.
Definition pview (m : mm) (root va : Z) : option (nat * Z) := view 3 m root va.

(** The owner of the table [c] below entry [i] of a table of level [l] owned by [o]. *)
Definition own (l : nat) (i o c : Z) : Z := if (l =? 3)%nat && (256 <=? i) then c else o.

(** The invariant: [R] are the (physical) roots. *)
Record spaces (m : mm) (R : gset Z) (lvl : gmap Z (nat * Z * Z)) : Prop := {
  sp_pmm : pmm_inv (mm_pmm m);
  sp_init : g_initialized (mm_pmm m) = true;
  sp_window : g_total_frames (mm_pmm m) <= 2 ^ 19;
  sp_ram : forall f, 0 <= f < g_total_frames (mm_pmm m) ->
    exists ws, ram m !! (f * PAGE_SIZE) = Some ws /\ length ws = 512%nat;
  sp_used : forall t x, lvl !! t = Some x ->
    exists f, t = f * PAGE_SIZE /\ 0 < f < g_total_frames (mm_pmm m) /\ used (g_bitmap (mm_pmm m)) f = true;
  sp_root : forall r, r ∈ R -> lvl !! r = Some (3%nat, 0, r);
  sp_top : forall t p o, lvl !! t = Some (3%nat, p, o) -> p = 0 /\ o = t /\
    forall i e, ent m t i = Some e -> pte_present e = true -> pte_huge e = false;
  sp_child : forall t l p o i e, lvl !! t = Some (S l, p, o) -> ent m t i = Some e -> pte_present e = true ->
    pte_huge e = false -> lvl !! pte_addr e = Some (l, p * 512 + i, own (S l) i o (pte_addr e));
  sp_inj : forall t t' x, lvl !! t = Some x -> lvl !! t' = Some x -> t = t';
  sp_link : forall t l p o, lvl !! t = Some (l, p, o) -> (l < 3)%nat -> exists tp pp op i e,
    lvl !! tp = Some (S l, pp, op) /\ ent m tp i = Some e /\ pte_present e = true /\ pte_huge e = false /\ pte_addr e = t
}.

Section Spaces.
Context (m : mm) (R : gset Z) (lvl : gmap Z (nat * Z * Z)) (Hsp : spaces m R lvl).

Lemma table_ram t x : lvl !! t = Some x -> 0 < t < 2 ^ 31 /\ exists ws, ram m !! t = Some ws /\ length ws = 512%nat.
Proof using Hsp.
  intros Ht. destruct (sp_used _ _ _ Hsp t x Ht) as (f&->&Hf&_). pose proof (sp_window _ _ _ Hsp).
  split; [unfold PAGE_SIZE; lia|]. apply (sp_ram _ _ _ Hsp). lia.
Qed.
Lemma table_ent t x i : lvl !! t = Some x -> 0 <= i < 512 -> exists e, ent m t i = Some e.
Proof using Hsp.
  intros Ht Hi. destruct (table_ram t x Ht) as (_&ws&Hw&Hl). unfold ent. rewrite Hw. simpl. apply zget_is_Some. lia.
Qed.
Lemma ent_range t x i e : lvl !! t = Some x -> ent m t i = Some e -> 0 <= i < 512.
Proof using Hsp.
  intros Ht He. destruct (table_ram t x Ht) as (_&ws&Hw&Hl). unfold ent in He. rewrite Hw in He. simpl in He.
  apply zget_range in He. lia.
Qed.

(** Where a search can end. *)
Lemma find_slot l t va o l' t' i : (l <= 3)%nat -> lvl !! t = Some (l, pre l va, o) -> find l m t va = Some (l', t', i) ->
  (l' <= l)%nat /\ i = ix l' va /\
  exists o', lvl !! t' = Some (l', pre l' va, o') /\ (o' = o \/ (exists q x, lvl !! o' = Some (2%nat, q, x)) /\ 256 <= ix 3 va).
Proof using Hsp.
  revert t o. induction l as [|l IH]; intros t o Hl Ht; simpl.
  - intros [= <- <- <-]. split; [lia|]. split; [done|]. exists o. by split; [|left].
  - destruct (ent m t (ix (S l) va)) as [e|] eqn:He; [|done]. simpl.
    destruct (pte_present e) eqn:Hp; [|done]. destruct (pte_huge e) eqn:Hh; cbn [negb].
    + destruct (l =? 2)%nat eqn:E; [done|]. intros [= <- <- <-]. split; [lia|]. split; [done|]. exists o. by split; [|left].
    + intros Hf. pose proof (sp_child _ _ _ Hsp _ _ _ _ _ _ Ht He Hp Hh) as Hc.
      rewrite pre_ix in Hc by lia. destruct (IH _ _ ltac:(lia) Hc Hf) as (H1&H2&o'&H3&H4).
      split; [lia|]. split; [done|]. exists o'. split; [done|]. unfold own in H4, Hc.
      destruct ((S l =? 3)%nat && (256 <=? ix (S l) va)) eqn:E; [|done].
      apply andb_true_iff in E as [[= ->]%Nat.eqb_eq E2%Z.leb_le]. right. split; [|done]. destruct H4 as [->|[? _]]; eauto.
Qed.
Lemma find_root r va l t i : r ∈ R -> find 3 m r va = Some (l, t, i) ->
  i = ix l va /\ (l <= 3)%nat /\
  exists o, lvl !! t = Some (l, pre l va, o) /\ (o = r \/ (exists q x, lvl !! o = Some (2%nat, q, x)) /\ 256 <= ix 3 va).
Proof using Hsp.
  intros Hr Hf. pose proof (sp_root _ _ _ Hsp r Hr) as Hl. rewrite <-(pre_3 va) in Hl.
  destruct (find_slot 3 r va r l t i ltac:(lia) Hl Hf) as (?&?&o&?&Ho). split_and!; [done..|]. exists o. naive_solver.
Qed.

(** Two searches that end in the same slot are for the same stretch of addresses. *)
Lemma find_inj r r' va va' l l' t i : r ∈ R -> r' ∈ R -> find 3 m r va = Some (l, t, i) -> find 3 m r' va' = Some (l', t, i) ->
  l = l' /\ pre l va * 512 + ix l va = pre l va' * 512 + ix l va' /\ (ix 3 va < 256 -> r = r').
Proof using Hsp.
  intros Hr Hr' Hf Hf'. destruct (find_root r va l t i Hr Hf) as (->&Hl&o&Ho&Hor).
  destruct (find_root r' va' l' t _ Hr' Hf') as (Hi&_&o'&Ho'&Hor'). rewrite Ho in Ho'. injection Ho' as <- Hp <-.
  split; [done|]. split; [lia|]. intros Hu.
  destruct Hor as [->|[_ ?]]; [|lia]. destruct Hor' as [->|[(q&x&Hq) _]]; [done|].
  by rewrite (sp_root _ _ _ Hsp r Hr) in Hq.
Qed.
End Spaces.

(** ** Writing one entry *)

Definition put (m : mm) (t i v : Z) : mm := set_ram (alter (fun ws => <[Z.to_nat i := v]> ws) t (ram m)) m.

Lemma ent_put m t i v t' i' : is_Some (ent m t i) ->
  ent (put m t i v) t' i' = if decide (t' = t /\ i' = i) then Some v else ent m t' i'.
Proof.
  intros [e He]. unfold ent in *. destruct (ram m !! t) as [ws|] eqn:Hw; [|done]. simpl in He.
  pose proof (zget_range _ _ _ He) as Hi. cbn [put set_ram ram]. destruct (decide (t' = t)) as [->|Hne].
  - rewrite lookup_alter_eq, Hw. simpl. rewrite zget_insert by done.
    destruct (decide (i = i')) as [->|]; [by rewrite decide_True|by rewrite decide_False by naive_solver].
  - rewrite lookup_alter_ne by done. rewrite decide_False by naive_solver. done.
Qed.

(** The present entry after a write to a leaf slot: a page-table entry, or a huge page
    that is cleared. *)
Lemma view_put_leaf m R lvl t i l0 p0 o0 e0 v : spaces m R lvl -> lvl !! t = Some (l0, p0, o0) -> ent m t i = Some e0 ->
  (l0 = 0%nat \/ (pte_present e0 = true /\ pte_huge e0 = true /\ pte_present v = false)) ->
  forall l t0 va o, (l <= 3)%nat -> lvl !! t0 = Some (l, pre l va, o) ->
  view l (put m t i v) t0 va =
    if decide (find l m t0 va = Some (l0, t, i)) then (if pte_present v then Some (l0, v) else None) else view l m t0 va.
Proof.
  intros Hsp Ht He Hleaf. assert (is_Some (ent m t i)) as Hs by by rewrite He. unfold view, view_of.
  induction l as [|l IH]; intros t0 va o Hl Ht0; simpl find.
  - simpl. rewrite ent_put by done. destruct (decide (t0 = t /\ ix 0 va = i)) as [[-> <-]|Hne].
    + rewrite Ht0 in Ht. injection Ht as <- _ _. by rewrite decide_True.
    + rewrite decide_False by naive_solver. done.
  - rewrite ent_put by done. destruct (decide (t0 = t /\ ix (S l) va = i)) as [[-> <-]|Hne].
    + rewrite Ht0 in Ht. injection Ht as <- <- <-. rewrite He. destruct Hleaf as [?|(Hp&Hh&Hv)]; [done|]. simpl.
      rewrite Hp, Hh, Hv. simpl. destruct (l =? 2)%nat eqn:E2; [|by rewrite decide_True].
      apply Nat.eqb_eq in E2 as ->. destruct (sp_top _ _ _ Hsp _ _ _ Ht0) as (_&_&Htop). by rewrite (Htop _ _ He Hp) in Hh.
    + destruct (ent m t0 (ix (S l) va)) as [e|] eqn:He'; [|by rewrite decide_False]. simpl.
      destruct (pte_present e) eqn:Hp; [|by rewrite decide_False]. destruct (pte_huge e) eqn:Hh; cbn [negb].
      * destruct (l =? 2)%nat; [by rewrite decide_False|]. simpl. rewrite ent_put by done. rewrite decide_False by done.
        rewrite decide_False by naive_solver. done.
      * pose proof (sp_child _ _ _ Hsp _ _ _ _ _ _ Ht0 He' Hp Hh) as Hc. rewrite pre_ix in Hc by lia.
        apply (IH _ _ _ ltac:(lia) Hc).
Qed.

(** A new empty table below a slot that is not present changes no mapping. *)
Lemma view_install q m m' R lvl t i l0 p0 o0 e0 n : q 0 = false -> spaces m R lvl -> lvl !! t = Some (S l0, p0, o0) ->
  ent m t i = Some e0 -> pte_present e0 = false -> lvl !! n = None ->
  (forall e, ent m' t i = Some e -> pte_huge e = false /\ pte_addr e = n) ->
  (forall i e, ent m' n i = Some e -> e = 0) ->
  (forall t' x j, lvl !! t' = Some x -> ~ (t' = t /\ j = i) -> ent m' t' j = ent m t' j) ->
  forall l t1 va o, (l <= 3)%nat -> lvl !! t1 = Some (l, pre l va, o) -> view_of q l m' t1 va = view_of q l m t1 va.
Proof.
  intros Hq Hsp Ht He Hp Hn Hnew Hzero Hother. unfold view_of.
  induction l as [|l IH]; intros t1 va o Hl Ht1; simpl find.
  - simpl. rewrite (Hother t1 _ _ Ht1); [done|]. intros [-> _]. rewrite Ht1 in Ht. done.
  - destruct (decide (t1 = t /\ ix (S l) va = i)) as [[-> <-]|Hne].
    + rewrite He. cbn [mbind option_bind]. rewrite Hp. cbn [negb].
      destruct (ent m' t (ix (S l) va)) as [e|] eqn:E; [|done]. destruct (Hnew e eq_refl) as [Hh Ha]. simpl.
      destruct (pte_present e) eqn:Hpe; [|done]. rewrite Hh, Ha. simpl.
      destruct l as [|l]; simpl.
      * destruct (ent m' n (ix 0 va)) as [e'|] eqn:E'; [|done]. rewrite (Hzero _ _ E'). simpl. by rewrite Hq.
      * destruct (ent m' n (ix (S l) va)) as [e'|] eqn:E'; [|done]. by rewrite (Hzero _ _ E').
    + rewrite (Hother t1 _ _ Ht1 Hne). destruct (ent m t1 (ix (S l) va)) as [e|] eqn:He'; [|done]. simpl.
      destruct (pte_present e) eqn:Hpe; [|done]. destruct (pte_huge e) eqn:Hh; cbn [negb].
      * destruct (l =? 2)%nat; [done|]. simpl. by rewrite (Hother t1 _ _ Ht1 Hne).
      * pose proof (sp_child _ _ _ Hsp _ _ _ _ _ _ Ht1 He' Hpe Hh) as Hc. rewrite pre_ix in Hc by lia.
        apply (IH _ _ _ ltac:(lia) Hc).
Qed.

(** Removing a table without present entries changes no mapping. *)
Lemma view_prune m R lvl t i l0 p0 o0 e0 : spaces m R lvl -> lvl !! t = Some (S l0, p0, o0) ->
  ent m t i = Some e0 -> pte_present e0 = true -> pte_huge e0 = false ->
  (forall j e, ent m (pte_addr e0) j = Some e -> pte_present e = false) ->
  forall l t1 va o, (l <= 3)%nat -> lvl !! t1 = Some (l, pre l va, o) -> view l (put m t i 0) t1 va = view l m t1 va.
Proof.
  intros Hsp Ht He Hp Hh Hempty. assert (is_Some (ent m t i)) as Hs by by rewrite He. unfold view, view_of.
  induction l as [|l IH]; intros t1 va o Hl Ht1; simpl find.
  - simpl. rewrite ent_put by done. rewrite decide_False; [done|]. intros [-> _]. rewrite Ht1 in Ht. done.
  - rewrite ent_put by done. destruct (decide (t1 = t /\ ix (S l) va = i)) as [[-> <-]|Hne].
    + rewrite He. cbn [mbind option_bind]. rewrite Hp, Hh. cbn [negb].
      replace (pte_present 0) with false by done. cbn [negb mbind option_bind].
      destruct l as [|l]; simpl; (destruct (ent m (pte_addr e0) _) as [e'|] eqn:E'; [|done]); simpl; by rewrite (Hempty _ _ E').
    + destruct (ent m t1 (ix (S l) va)) as [e|] eqn:He'; [|done]. simpl.
      destruct (pte_present e) eqn:Hpe; [|done]. destruct (pte_huge e) eqn:Hh'; cbn [negb].
      * destruct (l =? 2)%nat; [done|]. simpl. rewrite ent_put by done. by rewrite decide_False by naive_solver.
      * pose proof (sp_child _ _ _ Hsp _ _ _ _ _ _ Ht1 He' Hpe Hh') as Hc. rewrite pre_ix in Hc by lia.
        apply (IH _ _ _ ltac:(lia) Hc).
Qed.

(** ** The invariant under writes *)

Lemma ram_put m t i v x ws : ram m !! x = Some ws -> exists ws', ram (put m t i v) !! x = Some ws' /\ length ws' = length ws.
Proof.
  intros Hw. cbn [put set_ram ram]. destruct (decide (x = t)) as [->|].
  - rewrite lookup_alter_eq, Hw. eexists. split; [done|]. apply length_insert.
  - rewrite lookup_alter_ne by done. eauto.
Qed.

Lemma spaces_put_leaf m R lvl t i l0 p0 o0 e0 v : spaces m R lvl -> lvl !! t = Some (l0, p0, o0) -> ent m t i = Some e0 ->
  (l0 = 0%nat \/ (pte_present e0 = true -> pte_huge e0 = true) /\ pte_present v = false) -> spaces (put m t i v) R lvl.
Proof.
  intros Hsp Ht He Hleaf. assert (is_Some (ent m t i)) as Hs by by rewrite He.
  destruct Hsp as [H1 H2 H3 H4 H5 H6 H7 H8 H9 H10]. split; [done..| |done|done| | |done|].
  - intros f Hf. destruct (H4 f Hf) as (ws&Hw&Hl). destruct (ram_put m t i v _ _ Hw) as (ws'&?&?). exists ws'. split; [done|congruence].
  - intros t' p o Ht'. destruct (H7 t' p o Ht') as (?&?&Htop). split_and!; [done..|]. intros i' e. rewrite ent_put by done.
    case_decide as E; [|apply Htop]. intros [= <-] Hp. destruct E as [-> ->]. destruct Hleaf as [|[_ ?]]; [|congruence]. rewrite Ht in Ht'. simplify_eq.
  - intros t' l p o i' e Ht'. rewrite ent_put by done. case_decide as E; [|by apply H8]. intros [= <-] Hp.
    destruct E as [-> ->]. destruct Hleaf as [|[_ ?]]; [|congruence]. rewrite Ht in Ht'. simplify_eq.
  - intros t' l p o Hx Hl. destruct (H10 _ _ _ _ Hx Hl) as (tp&pp&op&j&e&L1&L2&L3&L4&L5). exists tp, pp, op, j, e.
    split_and!; try done. rewrite ent_put by done. rewrite decide_False; [done|]. intros [-> ->].
    rewrite He in L2. injection L2 as ->. destruct Hleaf as [->|[Hhg _]]; [|rewrite Hhg in L4 by done; done]. rewrite Ht in L1. done.
Qed.

Lemma used_alloc m R lvl a p' : spaces m R lvl -> fits (mm_pmm m) 1 a -> claims a 1 (mm_pmm m) p' ->
  lvl !! (a * PAGE_SIZE) = None /\
  forall f, 0 < f < g_total_frames (mm_pmm m) -> used (g_bitmap p') f = bool_decide (f = a) || used (g_bitmap (mm_pmm m)) f.
Proof.
  intros Hsp (Ha&Hat&Hrun) Hcl. split.
  - destruct (lvl !! (a * PAGE_SIZE)) as [x|] eqn:E; [|done]. destruct (sp_used _ _ _ Hsp _ _ E) as (f&Hf&Hr&Hu).
    assert (f = a) as -> by (unfold PAGE_SIZE in Hf; lia). by rewrite Hrun in Hu by lia.
  - intros f Hf. rewrite (cl_used _ _ _ _ Hcl); [|pose proof (pi_total _ (sp_pmm _ _ _ Hsp)); unfold frame_ok; lia].
    f_equal. apply bool_decide_ext. lia.
Qed.

(** [m] after frame [a] was allocated, zeroed and linked at entry [i] of [t]. *)
Definition install (m : mm) (p' : pmm) (a t i v : Z) : mm :=
  put (Mm p' (<[a * PAGE_SIZE := replicate (Z.to_nat PT_ENTRIES) 0]> (ram m)) (cr3 m)) t i v.

Lemma ent_zeroed m p' n t j : ent (Mm p' (<[n := replicate (Z.to_nat PT_ENTRIES) 0]> (ram m)) (cr3 m)) t j =
  if decide (t = n) then (if (0 <=? j) && (j <? 512) then Some 0 else None) else ent m t j.
Proof.
  unfold ent. cbn [ram]. destruct (decide (t = n)) as [->|].
  - rewrite lookup_insert_eq. cbn [mbind option_bind]. unfold zget. destruct (Z.leb_spec 0 j); [|done]. cbn [andb].
    assert (Z.of_nat (Z.to_nat PT_ENTRIES) = 512) by done. generalize dependent (Z.to_nat PT_ENTRIES). intros k Hk.
    destruct (Z.ltb_spec j 512); [apply lookup_replicate_2; lia|apply lookup_replicate_None; lia].
  - by rewrite lookup_insert_ne.
Qed.

Lemma spaces_install m R lvl a p' t i l0 p0 o0 e0 v :
  spaces m R lvl -> lvl !! t = Some (S l0, p0, o0) -> ent m t i = Some e0 -> pte_present e0 = false ->
  fits (mm_pmm m) 1 a -> claims a 1 (mm_pmm m) p' -> pmm_inv p' ->
  pte_present v = true -> pte_huge v = false -> pte_addr v = a * PAGE_SIZE -> (l0 < 3)%nat ->
  let m' := install m p' a t i v in
  spaces m' R (<[a * PAGE_SIZE := (l0, p0 * 512 + i, own (S l0) i o0 (a * PAGE_SIZE))]> lvl) /\
  (forall q, q 0 = false -> forall r va, r ∈ R -> view_of q 3 m' r va = view_of q 3 m r va) /\
  (forall t' x j e, lvl !! t' = Some x -> ent m t' j = Some e -> pte_present e = true -> ent m' t' j = Some e) /\
  ent m' t i = Some v.
Proof.
  intros Hsp Ht He Hp Hfit Hcl Hinv Hpv Hh Ha Hl0 m'. destruct (used_alloc m R lvl a p' Hsp Hfit Hcl) as [Hn Hu].
  set (n := a * PAGE_SIZE) in *. set (m1 := Mm p' (<[n := replicate (Z.to_nat PT_ENTRIES) 0]> (ram m)) (cr3 m)).
  assert (t <> n) as Htn by congruence. assert (is_Some (ent m1 t i)) as Hs by (unfold m1; rewrite ent_zeroed, decide_False by done; by rewrite He).
  assert (forall t' j, ent m' t' j = if decide (t' = t /\ j = i) then Some v else if decide (t' = n)
    then (if (0 <=? j) && (j <? 512) then Some 0 else None) else ent m t' j) as Hent.
  { intros t' j. unfold m'. unfold install. fold n. fold m1. rewrite ent_put by done. unfold m1. by rewrite ent_zeroed. }
  assert (forall t' x j, lvl !! t' = Some x -> ~ (t' = t /\ j = i) -> ent m' t' j = ent m t' j) as Hother.
  { intros t' x j Hx Hne. rewrite Hent, decide_False by done. rewrite decide_False by congruence. done. }
  assert (forall j e, ent m' n j = Some e -> e = 0) as Hzero.
  { intros j e. rewrite Hent, decide_False by naive_solver. rewrite decide_True by done. destruct (_ && _); naive_solver. }
  split_and!.
  - pose proof Hsp as [H1 H2 H3 H4 H5 H6 H7 H8 H9 H10]. pose proof (cl_total _ _ _ _ Hcl) as Htot.
    assert (mm_pmm m' = p') as Ep by done. split; rewrite ?Ep; [done|by rewrite (cl_init _ _ _ _ Hcl)|by rewrite Htot| | | | | | |].
    + rewrite Htot. intros f Hf. destruct (H4 f Hf) as (ws&Hw&Hl). unfold m', install. fold n m1.
      assert (exists ws, ram m1 !! (f * PAGE_SIZE) = Some ws /\ length ws = 512%nat) as (ws1&Hw1&Hl1).
      { cbn [m1 ram]. destruct (decide (f * PAGE_SIZE = n)) as [->|]; [rewrite lookup_insert_eq; eexists; split; [done|by rewrite length_replicate]|].
        rewrite lookup_insert_ne by done. eauto. }
      destruct (ram_put m1 t i v _ _ Hw1) as (ws'&?&?). exists ws'. split; [done|congruence].
    + rewrite Htot. intros t' x. destruct (decide (t' = n)) as [->|].
      * rewrite lookup_insert_eq. intros _. exists a. destruct Hfit as (?&?&_). split; [done|]. split; [lia|].
        rewrite Hu by lia. by rewrite bool_decide_eq_true_2.
      * rewrite lookup_insert_ne by done. intros Hx. destruct (H5 _ _ Hx) as (f&->&Hf&Huf). exists f. split_and!; [done|lia..|].
        rewrite Hu by lia. by rewrite Huf, orb_true_r.
    + intros r Hr. rewrite lookup_insert_ne; [by apply H6|]. intros <-. by rewrite (H6 _ Hr) in Hn.
    + intros t' p o. destruct (decide (t' = n)) as [->|]; [rewrite lookup_insert_eq; intros [= -> _ _]; lia|].
      rewrite lookup_insert_ne by done. intros Ht'. destruct (H7 _ _ _ Ht') as (?&?&Htop). split_and!; [done..|]. intros j e.
      destruct (decide (t' = t /\ j = i)) as [[-> ->]|Hne]; [rewrite Hent, decide_True by done; by intros [= <-]|].
      rewrite (Hother t' _ j Ht' Hne). apply Htop.
    + intros t' l p o j e. destruct (decide (t' = n)) as [->|]; [rewrite lookup_insert_eq; intros _ E; by rewrite (Hzero _ _ E)|].
      rewrite lookup_insert_ne by done. intros Ht'. destruct (decide (t' = t /\ j = i)) as [[-> ->]|Hne].
      * rewrite Hent, decide_True by done. intros [= <-] _ _. rewrite Ha, lookup_insert_eq. rewrite Ht in Ht'. by simplify_eq.
      * rewrite (Hother t' _ j Ht' Hne). intros E1 E2 E3. pose proof (H8 _ _ _ _ _ _ Ht' E1 E2 E3) as Hc.
        rewrite lookup_insert_ne by congruence. done.
    + assert (forall t' x, lvl !! t' = Some x -> x <> (l0, p0 * 512 + i, own (S l0) i o0 n)) as Hfresh.
      { intros t' x Hx ->. destruct (H10 _ _ _ _ Hx Hl0) as (tp&pp&op&j&e&L1&L2&L3&L4&<-).
        rewrite (H8 _ _ _ _ _ _ L1 L2 L3 L4) in Hx. injection Hx as Hpj Hown.
        pose proof (ent_range m R lvl Hsp tp _ j e L1 L2). pose proof (ent_range m R lvl Hsp t _ i e0 Ht He).
        assert (pp = p0 /\ j = i) as [-> ->] by lia. unfold own in Hown. destruct (_ && _).
        - pose proof (H8 _ _ _ _ _ _ L1 L2 L3 L4). congruence.
        - subst op. assert (tp = t) as -> by eauto. congruence. }
      intros t1 t2 x. rewrite !lookup_insert_Some. naive_solver.
    + intros t' l p o. destruct (decide (t' = n)) as [->|].
      * rewrite lookup_insert_eq. intros [= <- _ _] _. exists t, p0, o0, i, v. rewrite lookup_insert_ne by done.
        split_and!; [done| |done..]. by rewrite Hent, decide_True.
      * rewrite lookup_insert_ne by done. intros Hx Hl. destruct (H10 _ _ _ _ Hx Hl) as (tp&pp&op&j&e&L1&L2&L3&L4&L5).
        exists tp, pp, op, j, e. rewrite lookup_insert_ne by congruence. split_and!; try done.
        rewrite (Hother tp _ j L1); [done|]. intros [-> ->]. congruence.
  - intros q Hq r va Hr. eapply (view_install q m m' R lvl t i l0 p0 o0 e0 n); [done..| | | | |].
    + intros e. rewrite Hent, decide_True by done. by intros [= <-].
    + exact Hzero.
    + exact Hother.
    + lia.
    + rewrite pre_3. by apply (sp_root _ _ _ Hsp).
  - intros t' x j e Hx E Hpe. rewrite (Hother t' x j Hx); [done|]. intros [-> ->]. congruence.
  - by rewrite Hent, decide_True.
Qed.

(** [m] after the table at [c] was released. *)
Definition release (m : mm) (c : Z) : mm := Mm (give_frame (c / PAGE_SIZE) (mm_pmm m)) (ram m) (cr3 m).

Lemma spaces_prune m R lvl t i l0 p0 o0 e0 : spaces m R lvl -> lvl !! t = Some (S l0, p0, o0) ->
  ent m t i = Some e0 -> pte_present e0 = true -> pte_huge e0 = false -> ((l0 < 2)%nat \/ l0 = 2%nat /\ i < 256) ->
  (forall j e, ent m (pte_addr e0) j = Some e -> pte_present e = false) ->
  let c := pte_addr e0 in let m' := put (release m c) t i 0 in
  pmm_free_frame c (mm_pmm m) = Some (PMM_OK, mm_pmm m') /\ spaces m' R (delete c lvl) /\
  (forall r va, r ∈ R -> pview m' r va = pview m r va).
Proof.
  intros Hsp Ht He Hp Hh Hl0 Hempty c m'. pose proof (sp_child _ _ _ Hsp _ _ _ _ _ _ Ht He Hp Hh) as Hc. fold c in Hc.
  assert (forall o c, own (S l0) i o c = o) as Ho.
  { intros. unfold own. destruct Hl0 as [Hl|[-> Hi]]; [rewrite (proj2 (Nat.eqb_neq _ _)) by lia; done|]. by rewrite (proj2 (Z.leb_gt _ _)), andb_false_r by lia. }
  rewrite Ho in Hc. destruct (sp_used _ _ _ Hsp _ _ Hc) as (f&Hcf&Hf&Hu).
  assert (c / PAGE_SIZE = f) as Hdiv by (rewrite Hcf; apply Z_div_mult; done).
  pose proof Hsp as [H1 H2 H3 H4 H5 H6 H7 H8 H9 H10]. pose proof (pi_total _ H1) as Htot.
  assert (mm_pmm m' = give_frame f (mm_pmm m)) as Ep by (cbn [m' put set_ram release mm_pmm]; by rewrite Hdiv).
  assert (is_Some (ent m t i)) as Hs by by rewrite He.
  assert (forall t' j, ent m' t' j = if decide (t' = t /\ j = i) then Some 0 else ent m t' j) as Hent by (intros; by apply (ent_put (release m c))).
  split_and!.
  - rewrite (free_frame_spec _ _ H1 H2) by (rewrite Hcf; unfold PAGE_SIZE; lia). unfold frame_of.
    rewrite Hdiv, Hcf, Z_mod_mult. cbn [Z.eqb andb]. rewrite !(proj2 (Z.ltb_lt _ _)) by lia. cbn [andb]. rewrite Hu, Ep. done.
  - assert (forall g, 0 < g < g_total_frames (mm_pmm m) -> used (g_bitmap (give_frame f (mm_pmm m))) g =
      if decide (f = g) then false else used (g_bitmap (mm_pmm m)) g) as Hug.
    { intros g Hg. cbn [give_frame g_bitmap set_freec set_bitmap]. apply used_mark; [apply H1|unfold frame_ok; lia..]. }
    split; rewrite ?Ep; [by apply give_frame_inv|done|done| | | | | | |].
    + intros g Hg. destruct (H4 g Hg) as (ws&Hw&Hl). destruct (ram_put (release m c) t i 0 _ _ Hw) as (ws'&?&?). exists ws'. split; [done|congruence].
    + intros t' x [Hne Hx]%lookup_delete_Some. destruct (H5 _ _ Hx) as (g&->&Hg&Hgu). exists g. split_and!; [done|apply Hg..|].
      rewrite Hug by done. rewrite decide_False; [done|]. intros <-. by rewrite Hcf in Hne.
    + intros r Hr. apply lookup_delete_Some. split; [|by apply H6]. intros <-. rewrite (H6 _ Hr) in Hc. injection Hc as <- _ _. lia.
    + intros t' p o [Hne Hx]%lookup_delete_Some. destruct (H7 _ _ _ Hx) as (?&?&Htop). split_and!; [done..|]. intros j e.
      rewrite Hent. case_decide; [by intros [= <-]|apply Htop].
    + intros t' l p o j e [Hne Hx]%lookup_delete_Some. rewrite Hent. case_decide as Hd; [by intros [= <-]|]. intros E1 E2 E3.
      pose proof (H8 _ _ _ _ _ _ Hx E1 E2 E3) as Hcc. apply lookup_delete_Some. split; [|done]. intros Heq. rewrite <-Heq in Hcc.
      rewrite Hc in Hcc. injection Hcc as <- Hpp Hoo. apply Hd.
      pose proof (ent_range m R lvl Hsp t' _ j e Hx E1). pose proof (ent_range m R lvl Hsp t _ i e0 Ht He).
      assert (p = p0 /\ j = i) as [-> ->] by lia. split; [|done].
      rewrite Ho in Hoo. subst o. by eapply H9.
    + intros t1 t2 x [_ ?]%lookup_delete_Some [_ ?]%lookup_delete_Some. by eapply H9.
    + intros t' l p o [Hne Hx]%lookup_delete_Some Hl. destruct (H10 _ _ _ _ Hx Hl) as (tp&pp&op&j&e&L1&L2&L3&L4&L5).
      exists tp, pp, op, j, e. rewrite Hent, lookup_delete_Some. split_and!; try done.
      * intros <-. by rewrite (Hempty _ _ L2) in L3.
      * rewrite decide_False; [done|]. intros [-> ->]. rewrite He in L2. injection L2 as <-. by apply Hne.
  - intros r va Hr. apply (view_prune m R lvl t i l0 p0 o0 e0 Hsp Ht He Hp Hh Hempty 3 r va r); [lia|].
    rewrite pre_3. by apply (sp_root _ _ _ Hsp).
Qed.

(** ** Entries *)

Lemma addr_mask_page f : 0 <= f < 2 ^ 40 -> Z.land (f * PAGE_SIZE) PTE_ADDR_MASK = f * PAGE_SIZE.
Proof.
  intros Hf. change PTE_ADDR_MASK with (Z.shiftl (Z.ones 40) 12). change PAGE_SIZE with (2 ^ 12).
  rewrite <-Z.shiftl_mul_pow2, <-Z.shiftl_land, Z.land_ones, Z.mod_small by lia. done.
Qed.
Lemma pte_make_addr f fl : 0 <= f < 2 ^ 40 -> Z.land fl PTE_ADDR_MASK = 0 -> pte_addr (pte_make (f * PAGE_SIZE) fl) = f * PAGE_SIZE.
Proof.
  intros Hf Hfl. unfold pte_addr, pte_make. rewrite addr_mask_page by done.
  rewrite Z.land_lor_distr_l, Hfl, addr_mask_page, Z.lor_0_r by done. done.
Qed.
Lemma pte_make_has a fl flag : Z.land PTE_ADDR_MASK flag = 0 -> has (pte_make a fl) flag = has fl flag.
Proof.
  intros Hm. unfold has, pte_make. by rewrite Z.land_lor_distr_l, <-Z.land_assoc, Hm, Z.land_0_r, Z.lor_0_l.
Qed.
Lemma inter_flags_cases flags : inter_flags flags = 3 \/ inter_flags flags = 7.
Proof.
  unfold inter_flags. assert (Z.land flags PTE_USER = 0 \/ Z.land flags PTE_USER = 4) as [-> | ->]; [|by left|by right].
  destruct (Z.testbit flags 2) eqn:E; [right|left]; apply Z.bits_inj'; intros n Hn; rewrite Z.land_spec.
  - change 4 with PTE_USER. unfold PTE_USER. rewrite pow2_testbit by done. case_bool_decide; [subst; by rewrite E|by rewrite andb_false_r].
  - unfold PTE_USER. rewrite pow2_testbit, Z.bits_0 by done. case_bool_decide; [subst; by rewrite E|by rewrite andb_false_r].
Qed.

(** ** Runs of the primitives *)

Definition virt (t : Z) : Z := pt_phys_to_virt t.
Lemma virt_phys t : in_w 64 t -> pt_virt_to_phys (virt t) = t.
Proof.
  intros Ht. unfold pt_virt_to_phys, virt, pt_phys_to_virt, u64. unfold wrap at 1 2. rewrite Zminus_mod_idemp_l.
  replace (t + HIGHER_HALF_OFFSET - HIGHER_HALF_OFFSET) with t by lia. by apply Z.mod_small.
Qed.
Lemma virt_nonzero t : 0 <= t < 2 ^ 31 -> virt t <> 0.
Proof.
  intros Ht. unfold virt, pt_phys_to_virt, u64, HIGHER_HALF_OFFSET. rewrite wrap_small by (unfold in_w; lia). lia.
Qed.

Lemma tab_set_at m t i v ws : 0 <= t < 2 ^ 31 -> ram m !! t = Some ws -> length ws = 512%nat -> 0 <= i < 512 ->
  tab_set (virt t) i v m = Some (tt, put m t i v).
Proof.
  intros Hr Hw Hl Hi. unfold tab_set, mbind_, mget, mlift, mput. rewrite virt_phys by (unfold in_w; lia).
  rewrite Hw, zset_Some by lia. do 2 f_equal. unfold put, set_ram. f_equal. apply map_eq. intros k.
  destruct (decide (k = t)) as [->|]; [by rewrite lookup_insert_eq, lookup_alter_eq, Hw|by rewrite lookup_insert_ne, lookup_alter_ne].
Qed.
Lemma page_zero_at m t ws : 0 <= t < 2 ^ 31 -> ram m !! t = Some ws ->
  page_zero (virt t) m = Some (tt, set_ram (<[t := replicate (Z.to_nat PT_ENTRIES) 0]> (ram m)) m).
Proof.
  intros Hr Hw. unfold page_zero, mbind_, mget, mlift, mput. rewrite virt_phys by (unfold in_w; lia). by rewrite Hw.
Qed.

Section Runs.
Context (m : mm) (R : gset Z) (lvl : gmap Z (nat * Z * Z)) (Hsp : spaces m R lvl).

Lemma tab_get_run t x i : lvl !! t = Some x -> 0 <= i < 512 -> exists e, ent m t i = Some e /\ tab_get (virt t) i m = Some (e, m).
Proof using Hsp.
  intros Ht Hi. destruct (table_ram m R lvl Hsp t x Ht) as (Hr&ws&Hw&Hl).
  destruct (zget_is_Some ws i) as [e He]; [lia|]. exists e. unfold ent, tab_get, mbind_, mget, mlift.
  rewrite virt_phys by (unfold in_w; lia). rewrite Hw. cbn [mbind option_bind]. by rewrite He.
Qed.
Lemma tab_set_run t x i v : lvl !! t = Some x -> 0 <= i < 512 -> tab_set (virt t) i v m = Some (tt, put m t i v).
Proof using Hsp.
  intros Ht Hi. destruct (table_ram m R lvl Hsp t x Ht) as (Hr&ws&Hw&Hl). apply (tab_set_at _ _ _ _ ws); [lia|done..].
Qed.
Lemma not_bad t x i : lvl !! t = Some x -> 0 <= i < 512 -> bad_index (virt t) i = false.
Proof using Hsp.
  intros Ht Hi. destruct (table_ram m R lvl Hsp t x Ht) as (Hr&_). unfold bad_index, PT_ENTRIES.
  rewrite (proj2 (Z.eqb_neq _ _)) by (apply virt_nonzero; lia). by rewrite (proj2 (Z.ltb_ge _ _)), (proj2 (Z.leb_gt _ _)) by lia.
Qed.
Lemma empty_scan_run t x n i : lvl !! t = Some x -> 0 <= i -> i + Z.of_nat n = 512 -> exists b, empty_scan n (virt t) i m = Some (b, m) /\
  (b = true -> forall j e, i <= j -> ent m t j = Some e -> pte_present e = false).
Proof using Hsp.
  intros Ht. revert i. induction n as [|n IH]; intros i Hi Hn; simpl.
  - exists true. split; [done|]. intros _ j e Hj He. pose proof (ent_range m R lvl Hsp t x j e Ht He). lia.
  - destruct (tab_get_run t x i Ht ltac:(lia)) as (e&He&Hr). mstep Hr. destruct (pte_present e) eqn:Hp; [by exists false|].
    destruct (IH (i + 1) ltac:(lia) ltac:(lia)) as (b&Hb&Hall). exists b. split; [done|]. intros Hbt j e' Hj He'.
    destruct (decide (j = i)) as [->|]; [congruence|]. apply (Hall Hbt j e'); [lia|done].
Qed.
Lemma table_empty_run t x : lvl !! t = Some x -> exists b, pt_table_empty (virt t) m = Some (b, m) /\
  (b = true -> forall j e, ent m t j = Some e -> pte_present e = false).
Proof using Hsp.
  intros Ht. destruct (table_ram m R lvl Hsp t x Ht) as (Hr&_). unfold pt_table_empty.
  rewrite (proj2 (Z.eqb_neq _ _)) by (apply virt_nonzero; lia).
  destruct (empty_scan_run t x (Z.to_nat PT_ENTRIES) 0 Ht ltac:(done) ltac:(done)) as (b&Hb&Hall). exists b. split; [done|].
  intros Hbt j e He. pose proof (ent_range m R lvl Hsp t x j e Ht He). apply (Hall Hbt j e); [lia|done].
Qed.
End Runs.

(** No frame is left. *)
Definition no_frame (m : mm) : Prop := forall a, ~ fits (mm_pmm m) 1 a.
Definition same_views (m m' : mm) (R : gset Z) : Prop := forall r va, r ∈ R -> pview m' r va = pview m r va.
(** The same for the entries selected by any test that an empty entry fails. *)
Definition same_entries (m m' : mm) (R : gset Z) : Prop :=
  forall q, q 0 = false -> forall r va, r ∈ R -> view_of q 3 m' r va = view_of q 3 m r va.
Lemma same_entries_views m m' R : same_entries m m' R -> same_views m m' R.
Proof. intros H r va Hr. by apply (H pte_present). Qed.
Lemma same_entries_trans m1 m2 m3 R : same_entries m1 m2 R -> same_entries m2 m3 R -> same_entries m1 m3 R.
Proof. intros H1 H2 q Hq r va Hr. by rewrite (H2 q Hq r va Hr), (H1 q Hq r va Hr). Qed.
(** [m'] keeps the present entries of the tables of [m]. *)
Definition keeps (lvl : gmap Z (nat * Z * Z)) (m m' : mm) : Prop :=
  forall t x j e, lvl !! t = Some x -> ent m t j = Some e -> pte_present e = true -> ent m' t j = Some e.

(** A frame in use that holds no table. *)
Definition data_frame (m : mm) (lvl : gmap Z (nat * Z * Z)) (f : Z) : Prop :=
  lvl !! f = None /\ exists k, f = k * PAGE_SIZE /\ 0 < k < g_total_frames (mm_pmm m) /\ used (g_bitmap (mm_pmm m)) k = true.
(** Such frames stay in use and keep their contents. *)
Definition keeps_data (lvl lvl' : gmap Z (nat * Z * Z)) (m m' : mm) : Prop :=
  forall f, data_frame m lvl f -> data_frame m' lvl' f /\ ram m' !! f = ram m !! f.
Lemma keeps_data_refl lvl m : keeps_data lvl lvl m m.
Proof. by intros f Hf. Qed.
Lemma keeps_data_trans lvl1 lvl2 lvl3 m1 m2 m3 : keeps_data lvl1 lvl2 m1 m2 -> keeps_data lvl2 lvl3 m2 m3 -> keeps_data lvl1 lvl3 m1 m3.
Proof. intros H1 H2 f Hf. destruct (H1 f Hf) as [Hf2 E1], (H2 f (proj1 (H1 f Hf))) as [Hf3 E2]. split; [done|congruence]. Qed.
Lemma data_alloc m R lvl a p' f : spaces m R lvl -> fits (mm_pmm m) 1 a -> claims a 1 (mm_pmm m) p' -> data_frame m lvl f ->
  f <> a * PAGE_SIZE /\ data_frame (Mm p' (ram m) (cr3 m)) lvl f.
Proof.
  intros Hsp Hfit Hcl (Hn&k&->&Hk&Hu). destruct (used_alloc m R lvl a p' Hsp Hfit Hcl) as [_ Hua]. destruct Hfit as (Ha1&Ha2&Hfree).
  split; [intros E; assert (k = a) as -> by (unfold PAGE_SIZE in E; lia); rewrite Hfree in Hu by lia; done|].
  split; [done|]. exists k. split; [done|]. cbn [mm_pmm]. rewrite (cl_total _ _ _ _ Hcl). split; [done|]. rewrite Hua by done. rewrite Hu. apply orb_true_r.
Qed.
Lemma data_put m lvl t i v x : lvl !! t = Some x -> keeps_data lvl lvl m (put m t i v).
Proof. intros Ht f Hf. split; [done|]. cbn [put set_ram ram]. rewrite lookup_alter_ne; [done|]. intros <-. destruct Hf as [Hn _]. congruence. Qed.
Lemma data_install m R lvl a p' t i v x y : spaces m R lvl -> lvl !! t = Some x -> fits (mm_pmm m) 1 a -> claims a 1 (mm_pmm m) p' ->
  keeps_data lvl (<[a * PAGE_SIZE := y]> lvl) m (install m p' a t i v).
Proof.
  intros Hsp Ht Hfit Hcl f Hf. destruct (data_alloc m R lvl a p' f Hsp Hfit Hcl Hf) as [Hne [Hn Hk]]. split.
  - split; [by rewrite lookup_insert_ne by congruence|exact Hk].
  - unfold install. cbn [put set_ram ram]. rewrite lookup_alter_ne; [by rewrite lookup_insert_ne by congruence|]. intros <-. destruct Hf; congruence.
Qed.

(** One step of a walk. *)
Lemma goc_run m R lvl l t o va create flags : spaces m R lvl -> lvl !! t = Some (S l, pre (S l) va, o) -> (l < 3)%nat ->
  (create = true -> flags = 3 \/ flags = 7) ->
  exists r m' lvl', pt_get_or_create_entry (virt t) (ix (S l) va) create flags m = Some (r, m') /\
    spaces m' R lvl' /\ lvl ⊆ lvl' /\ same_entries m m' R /\ keeps lvl m m' /\ keeps_data lvl lvl' m m' /\ (create = false -> m' = m /\ lvl' = lvl) /\
    if pte_present r then ent m' t (ix (S l) va) = Some r /\ (pte_huge r = false -> exists o', lvl' !! pte_addr r = Some (l, pre l va, o'))
    else m' = m /\ find (S l) m t va = None /\ (create = true -> no_frame m).
Proof.
  intros Hsp Ht Hl Hfl. pose proof (ix_range (S l) va) as Hix. unfold pt_get_or_create_entry.
  destruct (tab_get_run m R lvl Hsp t _ (ix (S l) va) Ht Hix) as (e&He&Hr).
  unfold pt_get_entry. rewrite (not_bad m R lvl Hsp t _ _ Ht Hix). mstep Hr.
  destruct (pte_present e) eqn:Hp.
  { exists e, m, lvl. rewrite Hp. split_and!; [done|done|done|by intros ?|by intros ?|apply keeps_data_refl|done|done|]. intros Hh.
    pose proof (sp_child _ _ _ Hsp _ _ _ _ _ _ Ht He Hp Hh) as Hc. rewrite pre_ix in Hc by done. eauto. }
  assert (find (S l) m t va = None) as Hnone by (simpl; rewrite He; simpl; by rewrite Hp).
  destruct create; cbn [negb]; [|exists 0, m, lvl; split_and!; [done|done|done|by intros ?|by intros ?|apply keeps_data_refl|done..]].
  destruct (alloc_frame_spec (mm_pmm m) (sp_pmm _ _ _ Hsp) (sp_init _ _ _ Hsp)) as (r&p'&Ha&Hpost&Hinv).
  assert (on_pmm pmm_alloc_frame m = Some (r, Mm p' (ram m) (cr3 m))) as Ha' by (unfold on_pmm; by rewrite Ha).
  mstep Ha'. destruct Hpost as [(->&->&Hno)|(a&->&Hfit&_&Hcl)].
  { exists 0, m, lvl. split_and!; [by destruct m|done|done|by intros ?|by intros ?|apply keeps_data_refl|done..]. }
  pose proof (sp_window _ _ _ Hsp) as Hwin. destruct Hfit as (Ha1&Ha2&Hfree) eqn:Ef. clear Ef.
  rewrite (proj2 (Z.eqb_neq _ _)) by (unfold PAGE_SIZE; lia).
  set (v := pte_make (a * PAGE_SIZE) flags).
  assert (pte_addr v = a * PAGE_SIZE) as Hva by (apply pte_make_addr; [lia|]; destruct (Hfl eq_refl) as [-> | ->]; done).
  assert (pte_present v = true /\ pte_huge v = false) as [Hvp Hvh].
  { unfold v, pte_present, pte_huge. rewrite !pte_make_has by done. destruct (Hfl eq_refl) as [-> | ->]; done. }
  destruct (spaces_install m R lvl a p' t (ix (S l) va) l _ o e v Hsp Ht He Hp ltac:(done) Hcl Hinv Hvp Hvh Hva Hl)
    as (Hsp'&Hviews&Hkeep&Hent).
  destruct (used_alloc m R lvl a p' Hsp ltac:(done) Hcl) as [Hn _].
  exists v, (install m p' a t (ix (S l) va) v), (<[a * PAGE_SIZE := (l, pre (S l) va * 512 + ix (S l) va, own (S l) (ix (S l) va) o (a * PAGE_SIZE))]> lvl).
  split_and!; [|done|by apply insert_subseteq|done|done|by eapply data_install|done|rewrite Hvp; split; [done|]; intros _; rewrite Hva, lookup_insert_eq, pre_ix by done; eauto].
  destruct (sp_ram _ _ _ Hsp a ltac:(lia)) as (ws&Hw&_). destruct (table_ram m R lvl Hsp t _ Ht) as (Hrg&wt&Hwt&Hlt).
  pose proof (page_zero_at (Mm p' (ram m) (cr3 m)) (a * PAGE_SIZE) ws ltac:(unfold PAGE_SIZE; lia) Hw) as Hz. mstep Hz.
  unfold pt_set_entry. rewrite (not_bad m R lvl Hsp t _ _ Ht Hix).
  erewrite mbind_Some; [done|]. apply (tab_set_at _ _ _ _ wt); [lia| |done..]. cbn [ram set_ram]. by rewrite lookup_insert_ne by congruence.
Qed.

Lemma find_S l m t va e : ent m t (ix (S l) va) = Some e -> pte_present e = true ->
  find (S l) m t va = if pte_huge e then (if (S l =? 3)%nat then None else Some (S l, t, ix (S l) va)) else find l m (pte_addr e) va.
Proof. intros He Hp. cbn [find]. rewrite He. cbn [mbind option_bind]. by rewrite Hp. Qed.
Lemma pview_None m r va : find 3 m r va = None -> pview m r va = None.
Proof. intros H. unfold pview, view, view_of. by rewrite H. Qed.
Lemma same_views_trans m1 m2 m3 R : same_views m1 m2 R -> same_views m2 m3 R -> same_views m1 m3 R.
Proof. intros H1 H2 r va Hr. by rewrite (H2 r va Hr), (H1 r va Hr). Qed.

Lemma walk_run m R lvl r va create flags : spaces m R lvl -> r ∈ R -> (create = true -> flags = 3 \/ flags = 7) ->
  exists res m' lvl', pt_walk_to_leaf (virt r) va create flags m = Some (res, m') /\ spaces m' R lvl' /\ same_entries m m' R /\
    keeps_data lvl lvl' m m' /\ (create = false -> m' = m /\ lvl' = lvl) /\
    match res with
    | None => pview m r va = None /\ (create = true -> no_frame m')
    | Some (tv, i) => exists l t, tv = virt t /\ find 3 m' r va = Some (l, t, i)
    end.
Proof.
  intros Hsp Hr Hfl. destruct (index_ix va) as (E3&E2&E1&E0). unfold pt_walk_to_leaf. rewrite E3, E2, E1, E0.
  pose proof (sp_root _ _ _ Hsp r Hr) as Ht. destruct (table_ram m R lvl Hsp r _ Ht) as (Hrg&_).
  rewrite (proj2 (Z.eqb_neq (virt r) 0)) by (apply virt_nonzero; lia). rewrite <-(pre_3 va) in Ht.
  (* level 3 *)
  destruct (goc_run m R lvl 2 r r va create flags Hsp Ht ltac:(lia) Hfl) as (e4&m1&lvl1&Hg1&Hsp1&Hsub1&Hv1&Hk1&Hd1&Hc1&Hr1). mstep Hg1.
  destruct (pte_present e4) eqn:Hp4; cbn [negb].
  2: { destruct Hr1 as (->&Hf&Hno). exists None, m, lvl. split_and!; try done. by apply pview_None. }
  destruct Hr1 as [He4 Hch1]. pose proof (sp_root _ _ _ Hsp1 r Hr) as Ht1. destruct (sp_top _ _ _ Hsp1 _ _ _ Ht1) as (_&_&Htop).
  rewrite (Htop _ _ He4 Hp4). destruct (Hch1 (Htop _ _ He4 Hp4)) as (o2&Ht2).
  assert (forall m', ent m' r (ix 3 va) = Some e4 -> find 3 m' r va = find 2 m' (pte_addr e4) va) as F3
    by (intros m' E; by rewrite (find_S 2 m' r va e4 E Hp4), (Htop _ _ He4 Hp4)).
  (* level 2 *)
  destruct (goc_run m1 R lvl1 1 (pte_addr e4) o2 va create flags Hsp1 Ht2 ltac:(lia) Hfl) as (e3&m2&lvl2&Hg2&Hsp2&Hsub2&Hv2&Hk2&Hd2&Hc2&Hr2). mstep Hg2.
  destruct (pte_present e3) eqn:Hp3; cbn [negb].
  2: { destruct Hr2 as (->&Hf&Hno). exists None, m1, lvl1. split_and!; try done.
       rewrite <-(same_entries_views _ _ _ Hv1 r va Hr). apply pview_None. by rewrite (F3 m1 He4). }
  destruct Hr2 as [He3 Hch2]. pose proof (Hk2 _ _ _ _ Ht1 He4 Hp4) as He4'.
  pose proof (same_entries_trans _ _ _ _ Hv1 Hv2) as Hv12. pose proof (keeps_data_trans _ _ _ _ _ _ Hd1 Hd2) as Hd12.
  destruct (pte_huge e3) eqn:Hh3.
  { exists (Some (virt (pte_addr e4), ix 2 va)), m2, lvl2. split_and!; try done; [naive_solver|].
    exists 2%nat, (pte_addr e4). split; [done|]. by rewrite (F3 m2 He4'), (find_S 1 m2 _ va e3 He3 Hp3), Hh3. }
  destruct (Hch2 eq_refl) as (o1&Ht3).
  assert (forall m', ent m' (pte_addr e4) (ix 2 va) = Some e3 -> find 2 m' (pte_addr e4) va = find 1 m' (pte_addr e3) va) as F2
    by (intros m' E; by rewrite (find_S 1 m' _ va e3 E Hp3), Hh3).
  (* level 1 *)
  destruct (goc_run m2 R lvl2 0 (pte_addr e3) o1 va create flags Hsp2 Ht3 ltac:(lia) Hfl) as (e2&m3&lvl3&Hg3&Hsp3&Hsub3&Hv3&Hk3&Hd3&Hc3&Hr3). mstep Hg3.
  destruct (pte_present e2) eqn:Hp2; cbn [negb].
  2: { destruct Hr3 as (->&Hf&Hno). exists None, m2, lvl2. split_and!; try done; [naive_solver|].
       rewrite <-(same_entries_views _ _ _ Hv12 r va Hr). apply pview_None. by rewrite (F3 m2 He4'), (F2 m2 He3). }
  destruct Hr3 as [He2 Hch3]. pose proof (same_entries_trans _ _ _ _ Hv12 Hv3) as Hv123. pose proof (keeps_data_trans _ _ _ _ _ _ Hd12 Hd3) as Hd123.
  assert (find 3 m3 r va = find 1 m3 (pte_addr e3) va) as F.
  { rewrite F3, F2; [done| |].
    - eapply Hk3; [|done..]. eapply lookup_weaken; [exact Ht2|done].
    - eapply Hk3; [|done..]. eapply lookup_weaken; [exact Ht1|done]. }
  destruct (pte_huge e2) eqn:Hh2.
  - exists (Some (virt (pte_addr e3), ix 1 va)), m3, lvl3. split_and!; try done; [naive_solver|].
    exists 1%nat, (pte_addr e3). split; [done|]. by rewrite F, (find_S 0 m3 _ va e2 He2 Hp2), Hh2.
  - exists (Some (virt (pte_addr e2), ix 0 va)), m3, lvl3. split_and!; try done; [naive_solver|].
    exists 0%nat, (pte_addr e2). split; [done|]. by rewrite F, (find_S 0 m3 _ va e2 He2 Hp2), Hh2.
Qed.

(** ** Stretches of addresses *)

(** The number of the stretch of 2^(12+9l) bytes that holds [va]. *)
Definition span (l : nat) (va : Z) : Z := vpn va / 512 ^ Z.of_nat l.

Lemma ix_vpn l va : (l <= 3)%nat -> ix l va = span l va mod 512.
Proof.
  intros Hl. unfold ix, span, vpn. assert (forall k c, 0 < k -> 0 < c -> k * 512 * c = 2 ^ 36 ->
    va / (4096 * k) mod 512 = va / 4096 mod 2 ^ 36 / k mod 512) as H.
  { intros k c Hk Hc <-. rewrite mod_digit by done. by rewrite Z.div_div by lia. }
  destruct l as [|[|[|[|l]]]]; [| | | |lia].
  - exact (H 1 (2 ^ 27) eq_refl eq_refl eq_refl).
  - exact (H (2 ^ 9) (2 ^ 18) eq_refl eq_refl eq_refl).
  - exact (H (2 ^ 18) (2 ^ 9) eq_refl eq_refl eq_refl).
  - exact (H (2 ^ 27) 1 eq_refl eq_refl eq_refl).
Qed.
Lemma span_S l k va : span (l + k) va = span l va / 512 ^ Z.of_nat k.
Proof. unfold span. rewrite Nat2Z.inj_add, Z.pow_add_r, Z.div_div by lia. done. Qed.
Lemma slot_span l va : (l <= 3)%nat -> pre l va * 512 + ix l va = span l va.
Proof.
  intros Hl. rewrite ix_vpn by done. replace (pre l va) with (span l va / 512).
  - pose proof (Z.div_mod (span l va) 512). lia.
  - unfold pre, span. rewrite Z.pow_add_r, Z.div_div by lia. done.
Qed.
Lemma ix_span l k va va' : (l <= k <= 3)%nat -> span l va = span l va' -> ix k va = ix k va'.
Proof.
  intros Hk E. rewrite !ix_vpn by lia. replace k with (l + (k - l))%nat by lia. by rewrite !span_S, E.
Qed.
Lemma find_span l m t va va' l0 t0 i : (l <= 3)%nat -> find l m t va = Some (l0, t0, i) -> span l0 va = span l0 va' ->
  find l m t va' = Some (l0, t0, i).
Proof.
  revert t. induction l as [|l IH]; intros t Hl; simpl.
  - intros [= <- <- <-] E. by rewrite (ix_span 0 0 va va').
  - intros Hf E. destruct (ent m t (ix (S l) va)) as [e|] eqn:He; [|done]. simpl in Hf.
    destruct (pte_present e) eqn:Hp; [|done].
    assert (l0 <= S l)%nat as Hl0.
    { revert Hf. destruct (pte_huge e); cbn [negb]; [destruct (l =? 2)%nat; [done|]; intros [= <- _ _]; done|].
      clear. revert e. induction l as [|l IH]; intros e; simpl; [intros [= <- _ _]; lia|].
      destruct (ent m (pte_addr e) (ix (S l) va)) as [e'|]; [|done]. simpl. destruct (pte_present e'); [|done].
      destruct (pte_huge e'); cbn [negb]; [destruct (l =? 2)%nat; [done|]; intros [= <- _ _]; lia|].
      intros H. specialize (IH _ H). lia. }
    rewrite (ix_span l0 (S l) va' va), He by (done || lia). simpl. rewrite Hp.
    destruct (pte_huge e); cbn [negb] in *; [done|]. apply IH; [lia|done..].
Qed.

(** ** Translation *)

Definition tr_of (va : Z) (x : option (nat * Z)) : Z :=
  match x with
  | Some (0%nat, e) => u64 (pte_addr e + Z.land va 0xFFF)
  | Some (1%nat, e) => u64 (Z.land e 0x000FFFFFFFE00000 + Z.land va 0x1FFFFF)
  | Some (2%nat, e) => u64 (Z.land e 0x000FFFFFC0000000 + Z.land va 0x3FFFFFFF)
  | _ => 0
  end.

(** The running system: [a] is the address space with root [r]. *)
Record vm_ok (s : vmm) (R : gset Z) (lvl : gmap Z (nat * Z * Z)) : Prop := {
  vo_init : g_vmm_initialized s = true;
  vo_spaces : spaces (v_mm s) R lvl
}.
Definition at_root (a : address_space) (r : Z) (R : gset Z) : Prop := pml4 a = virt r /\ pml4_phys a = r /\ r ∈ R.

Lemma root_nonzero s R lvl a r : vm_ok s R lvl -> at_root a r R -> (pml4 a =? 0) = false.
Proof.
  intros [_ Hsp] (->&_&Hr). destruct (table_ram _ _ _ Hsp r _ (sp_root _ _ _ Hsp r Hr)) as (Hrg&_).
  apply Z.eqb_neq, virt_nonzero. lia.
Qed.

Lemma translate_run s R lvl a r va : vm_ok s R lvl -> at_root a r R ->
  vmm_translate (Some a) va s = Some (tr_of va (pview (v_mm s) r va), s).
Proof.
  intros Hok Ha. pose proof (root_nonzero s R lvl a r Hok Ha) as H0. destruct Hok as [Hi Hsp], Ha as (Hp&_&Hr).
  unfold vmm_translate. unfold mbind_ at 1. unfold mget. rewrite Hi, H0. cbn [negb]. unfold on_mm.
  destruct (index_ix va) as (E3&E2&E1&E0). rewrite E3, E2, E1, E0, Hp. destruct s as [k ini m]. cbn [v_mm g_kernel_aspace g_vmm_initialized] in *.
  assert (forall l, 0 <= ix l va < 512) as Hix by (intros; apply ix_range). unfold pview, view, view_of.
  pose proof (sp_root _ _ _ Hsp r Hr) as Ht. rewrite <-(pre_3 va) in Ht.
  destruct (tab_get_run m R lvl Hsp r _ (ix 3 va) Ht (Hix 3%nat)) as (e4&He4&Hg4).
  unfold pt_get_entry. rewrite (not_bad m R lvl Hsp r _ _ Ht (Hix 3%nat)). mstep Hg4.
  destruct (pte_present e4) eqn:Hp4; cbn [negb]; [|simpl; rewrite He4; simpl; by rewrite Hp4].
  destruct (sp_top _ _ _ Hsp _ _ _ (sp_root _ _ _ Hsp r Hr)) as (_&_&Htop). pose proof (Htop _ _ He4 Hp4) as Hh4.
  rewrite (find_S 2 m r va e4 He4 Hp4), Hh4. pose proof (sp_child _ _ _ Hsp _ _ _ _ _ _ Ht He4 Hp4 Hh4) as Ht2.
  rewrite pre_ix in Ht2 by lia. destruct (tab_get_run m R lvl Hsp _ _ (ix 2 va) Ht2 (Hix 2%nat)) as (e3&He3&Hg3).
  fold (virt (pte_addr e4)). mstep Hg3.
  destruct (pte_present e3) eqn:Hp3; cbn [negb]; [|simpl; rewrite He3; simpl; by rewrite Hp3].
  rewrite (find_S 1 m _ va e3 He3 Hp3). destruct (pte_huge e3) eqn:Hh3; [simpl; rewrite He3; simpl; by rewrite Hp3|].
  pose proof (sp_child _ _ _ Hsp _ _ _ _ _ _ Ht2 He3 Hp3 Hh3) as Ht1.
  rewrite pre_ix in Ht1 by lia. destruct (tab_get_run m R lvl Hsp _ _ (ix 1 va) Ht1 (Hix 1%nat)) as (e2&He2&Hg2).
  fold (virt (pte_addr e3)). mstep Hg2.
  destruct (pte_present e2) eqn:Hp2; cbn [negb]; [|simpl; rewrite He2; simpl; by rewrite Hp2].
  rewrite (find_S 0 m _ va e2 He2 Hp2). destruct (pte_huge e2) eqn:Hh2; [simpl; rewrite He2; simpl; by rewrite Hp2|].
  pose proof (sp_child _ _ _ Hsp _ _ _ _ _ _ Ht1 He2 Hp2 Hh2) as Ht0.
  destruct (tab_get_run m R lvl Hsp _ _ (ix 0 va) Ht0 (Hix 0%nat)) as (e1&He1&Hg1).
  fold (virt (pte_addr e2)). mstep Hg1. simpl. rewrite He1. simpl. by destruct (pte_present e1).
Qed.

(** ** Writing a leaf *)

Lemma find_huge l m t va l0 t0 i : find l m t va = Some (S l0, t0, i) ->
  exists e, ent m t0 i = Some e /\ pte_present e = true /\ pte_huge e = true.
Proof.
  revert t. induction l as [|l IH]; intros t; simpl; [done|].
  destruct (ent m t (ix (S l) va)) as [e|] eqn:He; [|done]. simpl. destruct (pte_present e) eqn:Hp; [|done].
  destruct (pte_huge e) eqn:Hh; cbn [negb]; [|apply IH]. destruct (l =? 2)%nat; [done|]. intros [= _ <- <-]. eauto.
Qed.

(** What the address spaces see of [x] being put in the slot of [va] in space [r]. *)
Definition updates (m m' : mm) (R : gset Z) (r va : Z) (l : nat) (x : option (nat * Z)) : Prop :=
  forall r' va', r' ∈ R -> ix 3 va < 256 \/ r' = r ->
  pview m' r' va' = if decide (r' = r /\ span l va' = span l va) then x else pview m r' va'.

Lemma leaf_write m R lvl r va l t i v : spaces m R lvl -> r ∈ R -> find 3 m r va = Some (l, t, i) ->
  l = 0%nat \/ pte_present v = false ->
  (exists e, ent m t i = Some e /\ tab_get (virt t) i m = Some (e, m) /\
     pview m r va = if pte_present e then Some (l, e) else None) /\
  tab_set (virt t) i v m = Some (tt, put m t i v) /\ spaces (put m t i v) R lvl /\
  updates m (put m t i v) R r va l (if pte_present v then Some (l, v) else None).
Proof.
  intros Hsp Hr Hf Hv. destruct (find_root m R lvl Hsp r va l t i Hr Hf) as (Hi&Hl&o&Ho&_). pose proof (ix_range l va) as Hix.
  destruct (tab_get_run m R lvl Hsp t _ i Ho ltac:(lia)) as (e&He&Hg).
  assert (l = 0%nat \/ pte_present e = true /\ pte_huge e = true /\ pte_present v = false) as Hleaf.
  { destruct l as [|l]; [by left|]. destruct (find_huge 3 m r va l t i Hf) as (e'&He'&?&?). rewrite He in He'. simplify_eq. naive_solver. }
  split_and!.
  - exists e. split_and!; [done..|]. unfold pview, view, view_of. rewrite Hf. simpl. by rewrite He.
  - apply (tab_set_run m R lvl Hsp t _ i v Ho). lia.
  - apply (spaces_put_leaf m R lvl t i l _ o e v Hsp Ho He). naive_solver.
  - intros r' va' Hr' Huser. pose proof (sp_root _ _ _ Hsp r' Hr') as Ht. rewrite <-(pre_3 va') in Ht.
    unfold pview. rewrite (view_put_leaf m R lvl t i l _ o e v Hsp Ho He Hleaf 3 r' va' r' ltac:(lia) Ht).
    destruct (decide (find 3 m r' va' = Some (l, t, i))) as [Hf'|Hf'].
    + destruct (find_inj m R lvl Hsp r r' va va' l l t i Hr Hr' Hf Hf') as (_&Hs&Heq). rewrite !slot_span in Hs by done.
      rewrite decide_True; [done|]. naive_solver.
    + rewrite decide_False; [done|]. intros [-> Hs]. apply Hf'. by apply (find_span 3 m r va va').
Qed.

(** ** Mapping *)

Lemma checked_run {A} s R lvl a r checks (err : vmm_status -> A) k : vm_ok s R lvl -> at_root a r R -> Forall (fun st => st = VMM_OK) checks ->
  checked (Some a) checks err k s = k a s.
Proof.
  intros Hok Ha Hc. pose proof (root_nonzero s R lvl a r Hok Ha) as H0. destruct Hok as [Hi _]. unfold checked.
  unfold mbind_ at 1. unfold mget. rewrite Hi. cbn [negb List.find]. unfold validate_aspace. rewrite H0. cbn [bool_decide negb].
  assert (List.find (fun st => negb (bool_decide (st = VMM_OK))) checks = None) as ->; [|done].
  induction Hc as [|x l Hx Hl IH]; [done|]. cbn [List.find]. by rewrite Hx.
Qed.
Lemma on_mm_run {A} (c : M mm A) s x m' : c (v_mm s) = Some (x, m') ->
  on_mm c s = Some (x, Vmm (g_kernel_aspace s) (g_vmm_initialized s) m').
Proof. intros H. unfold on_mm. by rewrite H. Qed.
Definition with_mm (s : vmm) (m : mm) : vmm := Vmm (g_kernel_aspace s) (g_vmm_initialized s) m.

(** The walk and the read of the leaf, as the mapping operations begin. *)
Lemma map_walk_data s R lvl a r va flags : vm_ok s R lvl -> at_root a r R ->
  exists p m' lvl', on_mm (pt_walk_to_leaf (pml4 a) va true (inter_flags flags)) s = Some (p, with_mm s m') /\
    spaces m' R lvl' /\ same_views (v_mm s) m' R /\ same_entries (v_mm s) m' R /\ keeps_data lvl lvl' (v_mm s) m' /\
    match p with
    | None => pview (v_mm s) r va = None /\ no_frame m'
    | Some (tv, i) => exists l t, tv = virt t /\ find 3 m' r va = Some (l, t, i)
    end.
Proof.
  intros [Hi Hsp] (Hp&_&Hr). destruct (walk_run (v_mm s) R lvl r va true (inter_flags flags) Hsp Hr (fun _ => inter_flags_cases flags))
    as (res&m'&lvl'&Hw&Hsp'&Hv&Hd&_&Hres). pose proof (same_entries_views _ _ _ Hv). exists res, m', lvl'. rewrite Hp. split; [by apply on_mm_run|]. split_and!; [done..|].
  destruct res as [[tv i]|]; naive_solver.
Qed.
Lemma map_walk s R lvl a r va flags : vm_ok s R lvl -> at_root a r R ->
  exists p m' lvl', on_mm (pt_walk_to_leaf (pml4 a) va true (inter_flags flags)) s = Some (p, with_mm s m') /\
    spaces m' R lvl' /\ same_views (v_mm s) m' R /\ same_entries (v_mm s) m' R /\
    match p with
    | None => pview (v_mm s) r va = None /\ no_frame m'
    | Some (tv, i) => exists l t, tv = virt t /\ find 3 m' r va = Some (l, t, i)
    end.
Proof. intros Hok Ha. destruct (map_walk_data s R lvl a r va flags Hok Ha) as (p&m'&lvl'&H1&H2&H3&H4&_&H5). by exists p, m', lvl'. Qed.

Lemma paddr_page pa : validate_paddr pa = VMM_OK -> exists f, pa = f * PAGE_SIZE /\ pa <> 0.
Proof.
  unfold validate_paddr, is_page_aligned. change (PAGE_SIZE - 1) with (Z.ones 12). rewrite Z.land_ones by lia.
  destruct (Z.eqb_spec (pa mod 2 ^ 12) 0) as [E|]; [|done]. cbn [negb]. destruct (Z.eqb_spec pa 0); [done|].
  intros _. exists (pa / PAGE_SIZE). split; [|done]. pose proof (Z.div_mod pa PAGE_SIZE ltac:(done)).
  change (2 ^ 12) with PAGE_SIZE in E. lia.
Qed.

Definition leaf_pte (pa flags : Z) : Z := pte_make pa (Z.lor flags PTE_PRESENT).
Lemma leaf_pte_present pa flags : pte_present (leaf_pte pa flags) = true.
Proof.
  unfold pte_present, leaf_pte. rewrite pte_make_has by done. unfold has. rewrite Z.land_lor_distr_l.
  change (Z.land PTE_PRESENT PTE_PRESENT) with 1. destruct (Z.eqb_spec (Z.lor (Z.land flags PTE_PRESENT) 1) 0) as [E|]; [|done].
  apply Z.lor_eq_0_iff in E as [_ ?]. done.
Qed.

Lemma map_page_run s R lvl a r va pa flags : vm_ok s R lvl -> at_root a r R ->
  validate_vaddr va = VMM_OK -> validate_paddr pa = VMM_OK ->
  exists st s' lvl', vmm_map_page (Some a) va pa flags s = Some (st, s') /\ vm_ok s' R lvl' /\
    match st with
    | VMM_OK => pview (v_mm s) r va = None /\ updates (v_mm s) (v_mm s') R r va 0 (Some (0%nat, leaf_pte pa flags))
    | VMM_ERR_ALREADY_MAP => pview (v_mm s) r va <> None /\ same_views (v_mm s) (v_mm s') R
    | VMM_ERR_NO_MEM => pview (v_mm s) r va = None /\ same_views (v_mm s) (v_mm s') R /\ no_frame (v_mm s')
    | _ => False
    end.
Proof.
  intros Hok Ha Hva Hpa. unfold vmm_map_page. rewrite (checked_run s R lvl a r) by (done || by repeat constructor).
  destruct (map_walk s R lvl a r va flags Hok Ha) as (p&m'&lvl'&Hw&Hsp'&Hv&_&Hp). mstep Hw.
  destruct Hok as [Hi Hsp], Ha as (_&_&Hr). destruct p as [[tv i]|].
  2: { exists VMM_ERR_NO_MEM, (with_mm s m'), lvl'. by split_and!; [|split|apply Hp| |apply Hp]. }
  destruct Hp as (l&t&->&Hf). destruct l as [|l].
  - destruct (leaf_write m' R lvl' r va 0 t i (leaf_pte pa flags) Hsp' Hr Hf ltac:(by left)) as ((e&He&Hg&Hpv)&Hset&Hsp2&Hup).
    rewrite (mbind_Some _ _ _ _ _ (on_mm_run _ (with_mm s m') _ _ Hg)). rewrite (Hv r va Hr) in Hpv. destruct (pte_present e) eqn:Hpe.
    + exists VMM_ERR_ALREADY_MAP, (with_mm s m'), lvl'. split_and!; [by destruct s|by split|by rewrite Hpv|done].
    + rewrite (mbind_Some _ _ _ _ _ (on_mm_run _ (with_mm s m') _ _ Hset)). exists VMM_OK, (with_mm s (put m' t i (leaf_pte pa flags))), lvl'.
      split_and!; [done|by split|done|]. intros r' va' Hr' Hu. cbn [v_mm with_mm]. rewrite (Hup r' va' Hr' Hu), leaf_pte_present, (Hv r' va' Hr'). done.
  - destruct (leaf_write m' R lvl' r va (S l) t i 0 Hsp' Hr Hf ltac:(by right)) as ((e&He&Hg&Hpv)&_).
    destruct (find_huge 3 m' r va l t i Hf) as (e'&He'&Hpe&_). rewrite He in He'. injection He' as <-. rewrite Hpe, (Hv r va Hr) in Hpv.
    rewrite (mbind_Some _ _ _ _ _ (on_mm_run _ (with_mm s m') _ _ Hg)), Hpe.
    exists VMM_ERR_ALREADY_MAP, (with_mm s m'), lvl'. split_and!; [by destruct s|by split|by rewrite Hpv|done].
Qed.

(** ** Unmapping *)

Lemma prune_run m R lvl t i l0 p0 o0 e0 : spaces m R lvl -> lvl !! t = Some (S l0, p0, o0) ->
  ent m t i = Some e0 -> pte_present e0 = true -> pte_huge e0 = false -> ((l0 < 2)%nat \/ l0 = 2%nat /\ i < 256) ->
  (forall j e, ent m (pte_addr e0) j = Some e -> pte_present e = false) ->
  exists m' lvl', (forall B (k : M mm B), (on_pmm (pmm_free_frame (pte_addr e0)) ;;; tab_set (virt t) i 0 ;;; k) m = k m') /\
    spaces m' R lvl' /\ same_views m m' R /\
    (forall t' l p o, lvl !! t' = Some (l, p, o) -> (l0 < l)%nat -> lvl' !! t' = Some (l, p, o)) /\
    (forall t' j, ~ (t' = t /\ j = i) -> ent m' t' j = ent m t' j).
Proof.
  intros Hsp Ht He Hp Hh Hl0 Hempty. pose proof (spaces_prune m R lvl t i l0 p0 o0 e0 Hsp Ht He Hp Hh Hl0 Hempty) as Hpr.
  cbv zeta in Hpr. set (c := pte_addr e0) in *. destruct Hpr as (Hfree&Hsp'&Hv).
  pose proof (sp_child _ _ _ Hsp _ _ _ _ _ _ Ht He Hp Hh) as Hc. fold c in Hc.
  exists (put (release m c) t i 0), (delete c lvl). split_and!; [|done|done| |].
  - intros B k. assert (on_pmm (pmm_free_frame c) m = Some (PMM_OK, release m c)) as H1 by (unfold on_pmm; by rewrite Hfree).
    mstep H1. destruct (table_ram m R lvl Hsp t _ Ht) as (Hr&ws&Hw&Hl).
    pose proof (tab_set_at (release m c) t i 0 ws ltac:(lia) Hw Hl (ent_range m R lvl Hsp t _ i e0 Ht He)) as H2. mstep H2. done.
  - intros t' l p o Hx Hl. apply lookup_delete_Some. split; [|done]. intros <-. rewrite Hc in Hx. injection Hx as -> _ _. lia.
  - intros t' j Hne. rewrite (ent_put (release m c)); [by rewrite decide_False|]. change (is_Some (ent m t i)). by rewrite He.
Qed.

Lemma cleanup_run m R lvl r va : spaces m R lvl -> r ∈ R ->
  exists m' lvl', pt_cleanup_empty_tables (virt r) va m = Some (tt, m') /\ spaces m' R lvl' /\ same_views m m' R.
Proof.
  intros Hsp Hr. assert (same_views m m R) as Hrefl by by intros ?.
  assert (exists m' lvl', Some (tt, m) = Some (tt, m') /\ spaces m' R lvl' /\ same_views m m' R) as Hstop by eauto 6.
  destruct (index_ix va) as (E3&E2&E1&E0). unfold pt_cleanup_empty_tables. cbv zeta. rewrite E3, E2, E1.
  assert (forall l, 0 <= ix l va < 512) as Hix by (intros; apply ix_range).
  pose proof (sp_root _ _ _ Hsp r Hr) as Ht. destruct (table_ram m R lvl Hsp r _ Ht) as (Hrg&_).
  rewrite (proj2 (Z.eqb_neq (virt r) 0)) by (apply virt_nonzero; lia). rewrite <-(pre_3 va) in Ht.
  (* down to the page table *)
  destruct (tab_get_run m R lvl Hsp r _ (ix 3 va) Ht (Hix 3%nat)) as (e4&He4&Hg4). mstep Hg4.
  destruct (pte_present e4) eqn:Hp4; cbn [negb]; [|done]. destruct (pte_huge e4) eqn:Hh4; [done|].
  pose proof (sp_child _ _ _ Hsp _ _ _ _ _ _ Ht He4 Hp4 Hh4) as Ht2. rewrite pre_ix in Ht2 by lia. fold (virt (pte_addr e4)).
  destruct (tab_get_run m R lvl Hsp _ _ (ix 2 va) Ht2 (Hix 2%nat)) as (e3&He3&Hg3). mstep Hg3.
  destruct (pte_present e3) eqn:Hp3; cbn [negb]; [|done]. destruct (pte_huge e3) eqn:Hh3; [done|].
  pose proof (sp_child _ _ _ Hsp _ _ _ _ _ _ Ht2 He3 Hp3 Hh3) as Ht1. rewrite pre_ix in Ht1 by lia. fold (virt (pte_addr e3)).
  destruct (tab_get_run m R lvl Hsp _ _ (ix 1 va) Ht1 (Hix 1%nat)) as (e2&He2&Hg2). mstep Hg2.
  destruct (pte_present e2) eqn:Hp2; cbn [negb]; [|done]. destruct (pte_huge e2) eqn:Hh2; [done|].
  pose proof (sp_child _ _ _ Hsp _ _ _ _ _ _ Ht1 He2 Hp2 Hh2) as Ht0. fold (virt (pte_addr e2)).
  (* and back up *)
  destruct (table_empty_run m R lvl Hsp _ _ Ht0) as (b0&Hb0&Hempty0). mstep Hb0. destruct b0; cbn [negb]; [|done].
  destruct (prune_run m R lvl _ _ 0 _ _ e2 Hsp Ht1 He2 Hp2 Hh2 ltac:(lia) (Hempty0 eq_refl)) as (m1&lvl1&Hpr1&Hsp1&Hv1&Hup1&Hent1).
  rewrite Hpr1. pose proof (Hup1 _ _ _ _ Ht1 ltac:(lia)) as Ht1'. pose proof (Hup1 _ _ _ _ Ht2 ltac:(lia)) as Ht2'.
  destruct (table_empty_run m1 R lvl1 Hsp1 _ _ Ht1') as (b1&Hb1&Hempty1). mstep Hb1. destruct b1; cbn [negb]; [|by exists m1, lvl1].
  assert (pte_addr e4 <> pte_addr e3) as N43 by congruence.
  assert (ent m1 (pte_addr e4) (ix 2 va) = Some e3) as He3' by (rewrite Hent1; [done|naive_solver]).
  destruct (prune_run m1 R lvl1 _ _ 1 _ _ e3 Hsp1 Ht2' He3' Hp3 Hh3 ltac:(lia) (Hempty1 eq_refl)) as (m2&lvl2&Hpr2&Hsp2&Hv2&Hup2&Hent2).
  rewrite Hpr2. pose proof (Hup2 _ _ _ _ Ht2' ltac:(lia)) as Ht2''. pose proof (same_views_trans _ _ _ _ Hv1 Hv2) as Hv12.
  destruct (table_empty_run m2 R lvl2 Hsp2 _ _ Ht2'') as (b2&Hb2&Hempty2). mstep Hb2. destruct b2; cbn [negb]; [|by exists m2, lvl2].
  destruct (Z.leb_spec 256 (ix 3 va)); [by exists m2, lvl2|].
  assert (ent m2 r (ix 3 va) = Some e4) as He4' by (rewrite Hent2, Hent1; [done|intros [-> _]; congruence..]).
  pose proof (sp_root _ _ _ Hsp2 r Hr) as Ht3''.
  destruct (prune_run m2 R lvl2 _ _ 2 _ _ e4 Hsp2 Ht3'' He4' Hp4 Hh4 ltac:(right; by split) (Hempty2 eq_refl)) as (m3&lvl3&Hpr3&Hsp3&Hv3&_).
  exists m3, lvl3. split_and!; [|done|by eapply same_views_trans].
  pose proof (Hpr3 _ (mret tt)) as E. change (mret tt m3) with (Some (tt, m3)) in E. rewrite <-E.
  unfold mbind_. destruct (on_pmm _ m2) as [[st x]|]; [|done]. by destruct (tab_set _ _ _ x) as [[[] y]|].
Qed.

Lemma unmap_page_run s R lvl a r va : vm_ok s R lvl -> at_root a r R -> validate_vaddr va = VMM_OK ->
  exists st s' lvl', vmm_unmap_page (Some a) va s = Some (st, s') /\ vm_ok s' R lvl' /\
    match st with
    | VMM_OK => exists l, updates (v_mm s) (v_mm s') R r va l None /\
        match pview (v_mm s) r va with Some (l', _) => l = l' | None => l = 0%nat end
    | VMM_ERR_NOT_MAPPED => pview (v_mm s) r va = None /\ s' = s
    | _ => False
    end.
Proof.
  intros Hok Ha Hva. unfold vmm_unmap_page. rewrite (checked_run s R lvl a r) by (done || by repeat constructor).
  destruct Hok as [Hi Hsp], Ha as (Hpm&_&Hr). rewrite Hpm.
  destruct (walk_run (v_mm s) R lvl r va false 0 Hsp Hr ltac:(done)) as (res&m'&lvl'&Hw&_&_&_&Hm&Hres).
  destruct (Hm eq_refl) as [-> ->]. clear Hm. assert (with_mm s (v_mm s) = s) as Hs by by destruct s.
  rewrite (mbind_Some _ _ _ _ _ (on_mm_run _ s _ _ Hw)). fold (with_mm s (v_mm s)). rewrite Hs.
  destruct res as [[tv i]|]; [|exists VMM_ERR_NOT_MAPPED, s, lvl; split_and!; [done|by split|apply Hres|done]].
  destruct Hres as (l&t&->&Hf).
  destruct (leaf_write (v_mm s) R lvl r va l t i 0 Hsp Hr Hf ltac:(by right)) as ((e&He&Hg&Hpv)&Hset&Hsp2&Hup).
  rewrite (mbind_Some _ _ _ _ _ (on_mm_run _ s _ _ Hg)). fold (with_mm s (v_mm s)). rewrite Hs.
  assert (pte_present e = true -> has e (Z.lor PTE_PRESENT PTE_DEMAND) = true) as Hhas.
  { unfold pte_present, has. rewrite Z.land_lor_distr_r. intros E. apply negb_true_iff, Z.eqb_neq in E. apply negb_true_iff, Z.eqb_neq.
    intros [? _]%Z.lor_eq_0_iff. done. }
  destruct (has e _) eqn:Eh; cbn [negb].
  2: { exists VMM_ERR_NOT_MAPPED, s, lvl. split_and!; [done|by split| |done]. rewrite Hpv. destruct (pte_present e); [|done]. by discriminate Hhas. }
  destruct (cleanup_run (put (v_mm s) t i 0) R lvl r va Hsp2 Hr) as (m3&lvl3&Hcl&Hsp3&Hv3).
  assert ((tab_set (virt t) i 0 ;;; pt_cleanup_empty_tables (virt r) va) (v_mm s) = Some (tt, m3)) as Hrun by (mstep Hset; done).
  rewrite (mbind_Some _ _ _ _ _ (on_mm_run _ s _ _ Hrun)). exists VMM_OK, (with_mm s m3), lvl3. split_and!; [done|by split|].
  exists l. split.
  - intros r' va' Hr' Hu. cbn [v_mm with_mm]. rewrite (Hv3 r' va' Hr'). by apply Hup.
  - rewrite Hpv. destruct (pte_present e) eqn:Hpe; [done|]. destruct l as [|l]; [done|].
    destruct (find_huge 3 _ r va l t i Hf) as (e'&He'&?&_). congruence.
Qed.

(** ** What translation shows *)

(** The physical address [vmm_translate] computes. *)
Definition xlate (s : vmm) (a : address_space) (va : Z) : option Z := fst <$> vmm_translate (Some a) va s.
Lemma xlate_run s R lvl a r va : vm_ok s R lvl -> at_root a r R -> xlate s a va = Some (tr_of va (pview (v_mm s) r va)).
Proof. intros Hok Ha. unfold xlate. by rewrite (translate_run s R lvl a r va Hok Ha). Qed.

(** Addresses whose translation must not change when the page of [va] of space [r]
    does: other pages of [r], and every page of the other spaces when [va] is in the
    user half. *)
Definition apart (l : nat) (r va r' va' : Z) : Prop := (r' = r /\ span l va' <> span l va) \/ (r' <> r /\ ix 3 va < 256).

Lemma updates_apart m m' R r va l x r' va' : updates m m' R r va l x -> r' ∈ R -> apart l r va r' va' -> pview m' r' va' = pview m r' va'.
Proof. intros Hup Hr' Hap. rewrite Hup by (unfold apart in Hap; naive_solver). rewrite decide_False by (unfold apart in Hap; naive_solver). done. Qed.

Lemma tr_leaf pa flags va : validate_paddr pa = VMM_OK -> 0 <= pa < 2 ^ 52 -> Z.land flags PTE_ADDR_MASK = 0 ->
  tr_of va (Some (0%nat, leaf_pte pa flags)) = pa + va mod 4096.
Proof.
  intros Hv Hpa Hfl. destruct (paddr_page pa Hv) as (f&->&_). cbn [tr_of]. unfold leaf_pte. unfold PAGE_SIZE in Hpa.
  rewrite pte_make_addr; [|lia|by rewrite Z.land_lor_distr_l, Hfl].
  change 0xFFF with (Z.ones 12). rewrite Z.land_ones by lia. unfold u64. rewrite wrap_small; [done|].
  pose proof (Z.mod_pos_bound va (2 ^ 12)). unfold in_w, PAGE_SIZE. lia.
Qed.

(** C12: [vmm_map_page] with valid arguments always returns; it maps the page exactly when
    nothing was mapped there and the tables it needs could be allocated.  Then every
    address of the page translates to the same offset of the frame; on every
    outcome every other page of the address space, and (for a user page) every page
    of every other address space, translates as before. *)
Theorem vmm_map_page_exact s R lvl a r va pa flags : vm_ok s R lvl -> at_root a r R ->
  validate_vaddr va = VMM_OK -> validate_paddr pa = VMM_OK -> 0 <= pa < 2 ^ 52 -> Z.land flags PTE_ADDR_MASK = 0 ->
  exists st s' lvl', vmm_map_page (Some a) va pa flags s = Some (st, s') /\ vm_ok s' R lvl' /\
    (st = VMM_OK /\ pview (v_mm s) r va = None \/ st = VMM_ERR_ALREADY_MAP /\ pview (v_mm s) r va <> None \/
     st = VMM_ERR_NO_MEM /\ no_frame (v_mm s')) /\
    (st = VMM_OK -> forall va', vpn va' = vpn va -> xlate s' a va' = Some (pa + va' mod 4096)) /\
    (forall b r' va', at_root b r' R -> apart 0 r va r' va' -> xlate s' b va' = xlate s b va') /\
    (st <> VMM_OK -> forall b r' va', at_root b r' R -> xlate s' b va' = xlate s b va').
Proof.
  intros Hok Ha Hva Hpa Hrg Hfl. destruct (map_page_run s R lvl a r va pa flags Hok Ha Hva Hpa) as (st&s'&lvl'&Hrun&Hok'&Hst).
  exists st, s', lvl'. split; [done|]. split; [done|].
  assert (st = VMM_OK \/ same_views (v_mm s) (v_mm s') R) as Hcase by (destruct st; naive_solver).
  assert (forall b r' va', at_root b r' R -> pview (v_mm s') r' va' = pview (v_mm s) r' va' -> xlate s' b va' = xlate s b va') as Hsame.
  { intros b r' va' Hb E. by rewrite (xlate_run s' R lvl' b r' va' Hok' Hb), (xlate_run s R lvl b r' va' Hok Hb), E. }
  split_and!.
  - destruct st; naive_solver.
  - intros -> va' Hv. destruct Hst as [_ Hup]. rewrite (xlate_run s' R lvl' a r va' Hok' Ha). destruct Ha as (_&_&Hr).
    rewrite (Hup r va' Hr) by (by right). unfold span. rewrite Hv, decide_True by done. f_equal. by apply tr_leaf.
  - intros b r' va' Hb Hap. apply (Hsame b r' va' Hb). destruct Hb as (_&_&Hr'). destruct Hcase as [->|Hs]; [|by apply Hs].
    destruct Hst as [_ Hup]. by apply (updates_apart _ _ R r va 0 _ r' va' Hup).
  - intros Hne b r' va' Hb. apply (Hsame b r' va' Hb). destruct Hb as (_&_&Hr'). destruct Hcase as [|Hs]; [done|by apply Hs].
Qed.

(** [vmm_unmap_page] with a valid address always returns: it reports that nothing is
    there, without effect, or removes the mapping (of the 4 KiB, 2 MiB or 1 GiB
    stretch of level [l] that holds the address).  The stretch no longer translates,
    and the tables that are released on the way take no other translation of this or
    (for a user page) any other address space with them. *)
Theorem vmm_unmap_page_exact s R lvl a r va : vm_ok s R lvl -> at_root a r R -> validate_vaddr va = VMM_OK ->
  exists st s' lvl', vmm_unmap_page (Some a) va s = Some (st, s') /\ vm_ok s' R lvl' /\
    (st = VMM_ERR_NOT_MAPPED /\ pview (v_mm s) r va = None /\ s' = s \/
     exists l, st = VMM_OK /\ match pview (v_mm s) r va with Some (l', _) => l = l' | None => l = 0%nat end /\
       (forall va', span l va' = span l va -> xlate s' a va' = Some 0) /\
       (forall b r' va', at_root b r' R -> apart l r va r' va' -> xlate s' b va' = xlate s b va')).
Proof.
  intros Hok Ha Hva. destruct (unmap_page_run s R lvl a r va Hok Ha Hva) as (st&s'&lvl'&Hrun&Hok'&Hst).
  exists st, s', lvl'. split; [done|]. split; [done|]. destruct st; try done; [|by left]. right. destruct Hst as (l&Hup&Hl).
  exists l. split_and!; [done..| |].
  - intros va' Hv. rewrite (xlate_run s' R lvl' a r va' Hok' Ha). destruct Ha as (_&_&Hr).
    rewrite (Hup r va' Hr) by (by right). by rewrite decide_True.
  - intros b r' va' Hb Hap. rewrite (xlate_run s' R lvl' b r' va' Hok' Hb), (xlate_run s R lvl b r' va' Hok Hb). destruct Hb as (_&_&Hr').
    by rewrite (updates_apart _ _ R r va l _ r' va' Hup Hr' Hap).
Qed.

(** ** New address spaces *)

(** The loop that copies the kernel half. *)
Lemma copy_kernel_run m R lvl k n wn : spaces m R lvl -> k ∈ R -> lvl !! n = None -> 0 <= n < 2 ^ 31 ->
  ram m !! n = Some wn -> length wn = 512%nat ->
  exists m', for_range 256 PT_ENTRIES (fun i => e <~ tab_get (virt k) i ;; tab_set (virt n) i e) m = Some (tt, m') /\
    mm_pmm m' = mm_pmm m /\ (exists w', ram m' !! n = Some w' /\ length w' = 512%nat) /\
    (forall t, t <> n -> ram m' !! t = ram m !! t) /\
    forall j, ent m' n j = if (256 <=? j) && (j <? 512) then ent m k j else ent m n j.
Proof.
  intros Hsp Hk Hn Hrg Hw Hl. pose proof (sp_root _ _ _ Hsp k Hk) as Ht. assert (k <> n) as Hkn by congruence.
  destruct (for_range_inv (fun i m' => mm_pmm m' = mm_pmm m /\ (exists w', ram m' !! n = Some w' /\ length w' = 512%nat) /\
    (forall t, t <> n -> ram m' !! t = ram m !! t) /\
    forall j, ent m' n j = if (256 <=? j) && (j <? i) then ent m k j else ent m n j) 256 PT_ENTRIES
    (fun i => e <~ tab_get (virt k) i ;; tab_set (virt n) i e) m) as (m'&Hr&Hm'); [done| | |by exists m'].
  - split_and!; [done|eauto|done|]. intros j. destruct (Z.leb_spec 256 j), (Z.ltb_spec j 256); (lia || done).
  - intros i m' Hi (Hp&(w'&Hw'&Hl')&Hram&Hent). change PT_ENTRIES with 512 in Hi.
    destruct (tab_get_run m R lvl Hsp k _ i Ht ltac:(lia)) as (e&He&Hg).
    assert (tab_get (virt k) i m' = Some (e, m')) as Hg'.
    { revert Hg. unfold tab_get, mbind_, mget, mlift. destruct (table_ram m R lvl Hsp k _ Ht) as (?&_).
      rewrite virt_phys by (unfold in_w; lia). rewrite (Hram k Hkn). destruct (ram m !! k) as [ws|]; [|done]. by destruct (zget ws i); naive_solver. }
    exists (put m' n i e). mstep Hg'. split; [apply (tab_set_at m' n i e w'); [lia|done|done|lia]|].
    assert (is_Some (ent m' n i)) as Hs by (unfold ent; rewrite Hw'; apply zget_is_Some; lia). split_and!; [done| | |].
    + destruct (ram_put m' n i e n w' Hw') as (w2&?&?). exists w2. split; [done|congruence].
    + intros t Hne. cbn [put set_ram ram]. rewrite lookup_alter_ne by done. by apply Hram.
    + intros j. rewrite ent_put by done. destruct (decide (n = n /\ j = i)) as [[_ ->]|Hne].
      * by rewrite (proj2 (Z.leb_le _ _)), (proj2 (Z.ltb_lt _ _)) by lia.
      * rewrite Hent. destruct (Z.leb_spec 256 j), (Z.ltb_spec j i), (Z.ltb_spec j (i + 1)); cbn [andb]; try done; exfalso; naive_solver lia.
Qed.

(** A view depends only on the tables it goes through. *)
Lemma view_ram m m' R lvl : spaces m R lvl -> (forall t x j, lvl !! t = Some x -> ent m' t j = ent m t j) ->
  forall l t va o, (l <= 3)%nat -> lvl !! t = Some (l, pre l va, o) -> view l m' t va = view l m t va.
Proof.
  intros Hsp Hent. unfold view, view_of. induction l as [|l IH]; intros t va o Hl Ht; simpl; [by rewrite (Hent t _ _ Ht)|].
  rewrite (Hent t _ _ Ht). destruct (ent m t (ix (S l) va)) as [e|] eqn:He; [|done]. simpl.
  destruct (pte_present e) eqn:Hp; [|done]. destruct (pte_huge e) eqn:Hh; cbn [negb].
  - destruct (l =? 2)%nat; [done|]. simpl. by rewrite (Hent t _ _ Ht).
  - pose proof (sp_child _ _ _ Hsp _ _ _ _ _ _ Ht He Hp Hh) as Hc. rewrite pre_ix in Hc by lia. apply (IH _ _ _ ltac:(lia) Hc).
Qed.

(** [n] becomes a root that shares the kernel half of [k]. *)
Lemma spaces_root m m' R lvl k n a : spaces m R lvl -> k ∈ R -> lvl !! n = None ->
  pmm_inv (mm_pmm m') -> claims a 1 (mm_pmm m) (mm_pmm m') -> fits (mm_pmm m) 1 a -> n = a * PAGE_SIZE ->
  (forall t, t <> n -> ram m' !! t = ram m !! t) -> (exists w', ram m' !! n = Some w' /\ length w' = 512%nat) ->
  (forall j e, ent m' n j = Some e -> e = 0 \/ 256 <= j /\ ent m k j = Some e) ->
  spaces m' ({[n]} ∪ R) (<[n := (3%nat, 0, n)]> lvl).
Proof.
  intros Hsp Hk Hn Hinv Hcl Hfit -> Hram Hwn Hent. destruct (used_alloc m R lvl a (mm_pmm m') Hsp Hfit Hcl) as [_ Hu].
  set (n := a * PAGE_SIZE) in *. pose proof (sp_root _ _ _ Hsp k Hk) as Htk. destruct Hfit as (Ha1&Ha2&_).
  pose proof Hsp as [H1 H2 H3 H4 H5 H6 H7 H8 H9 H10]. pose proof (cl_total _ _ _ _ Hcl) as Htot.
  assert (forall t j, t <> n -> ent m' t j = ent m t j) as Hold by (intros t j Hne; unfold ent; by rewrite Hram).
  split; rewrite ?Htot; [done|by rewrite (cl_init _ _ _ _ Hcl)|done| | | | | | |].
  - intros f Hf. destruct (decide (f * PAGE_SIZE = n)) as [->|]; [done|]. rewrite Hram by done. by apply H4.
  - intros t x [[<- _]|[Hne Hx]]%lookup_insert_Some.
    + exists a. split; [done|]. split; [lia|]. rewrite Hu by lia. by rewrite bool_decide_eq_true_2.
    + destruct (H5 _ _ Hx) as (f&->&Hf&Huf). exists f. split_and!; [done|lia..|]. rewrite Hu by lia. by rewrite Huf, orb_true_r.
  - intros r [->%elem_of_singleton|Hr]%elem_of_union; [by rewrite lookup_insert_eq|].
    rewrite lookup_insert_ne; [by apply H6|]. intros <-. by rewrite (H6 _ Hr) in Hn.
  - intros t p o [[<- [= <- <-]]|[Hne Hx]]%lookup_insert_Some.
    + split_and!; [done..|]. intros i e [->|[_ E]]%Hent Hp; [done|]. by apply (proj2 (proj2 (H7 _ _ _ Htk)) i e).
    + destruct (H7 _ _ _ Hx) as (?&?&Htop). split_and!; [done..|]. intros i e. rewrite Hold by done. apply Htop.
  - intros t l p o j e [[<- [= <- <- <-]]|[Hne Hx]]%lookup_insert_Some.
    + intros [->|[Hj E]]%Hent Hp Hh; [done|]. pose proof (H8 _ _ _ _ _ _ Htk E Hp Hh) as Hc.
      rewrite lookup_insert_ne by congruence. rewrite Hc. unfold own. by rewrite (proj2 (Z.leb_le _ _)) by lia.
    + rewrite Hold by done. intros E Hp Hh. pose proof (H8 _ _ _ _ _ _ Hx E Hp Hh). by rewrite lookup_insert_ne by congruence.
  - assert (forall t, lvl !! t = Some (3%nat, 0, n) -> False) as Hno.
    { intros t Hx. destruct (H7 _ _ _ Hx) as (_&<-&_). congruence. }
    intros t t' x. rewrite !lookup_insert_Some. naive_solver.
  - intros t l p o [[<- [= <- _ _]]|[Hne Hx]]%lookup_insert_Some Hl; [lia|].
    destruct (H10 _ _ _ _ Hx Hl) as (tp&pp&op&i&e&L1&L2&L3&L4&L5). exists tp, pp, op, i, e.
    assert (n <> tp) by congruence. rewrite lookup_insert_ne, Hold by done. done.
Qed.

Lemma view_S l m t va e : ent m t (ix (S l) va) = Some e -> pte_huge e = false ->
  view (S l) m t va = if pte_present e then view l m (pte_addr e) va else None.
Proof. intros He Hh. unfold view, view_of. simpl find. rewrite He. simpl. destruct (pte_present e); [|done]. by rewrite Hh. Qed.

(** Taking a free frame and filling it disturbs no table. *)
Lemma spaces_fresh m R lvl a p' ws : spaces m R lvl -> fits (mm_pmm m) 1 a -> claims a 1 (mm_pmm m) p' -> pmm_inv p' -> length ws = 512%nat ->
  let m' := Mm p' (<[a * PAGE_SIZE := ws]> (ram m)) (cr3 m) in
  spaces m' R lvl /\ same_views m m' R /\ forall t x j, lvl !! t = Some x -> ent m' t j = ent m t j.
Proof.
  intros Hsp Hfit Hcl Hinv Hl m'. destruct (used_alloc m R lvl a p' Hsp Hfit Hcl) as [Hn Hu]. set (n := a * PAGE_SIZE) in *.
  assert (forall t x j, lvl !! t = Some x -> ent m' t j = ent m t j) as He.
  { intros t x j Hx. unfold ent, m'. cbn [ram]. by rewrite lookup_insert_ne by congruence. }
  split_and!; [|intros r va Hr; apply (view_ram m m' R lvl Hsp He 3 r va r); [lia|rewrite pre_3; by apply (sp_root _ _ _ Hsp)]|done].
  destruct Hsp as [H1 H2 H3 H4 H5 H6 H7 H8 H9 H10]. pose proof (cl_total _ _ _ _ Hcl) as Htot.
  split; cbn [m' mm_pmm ram]; rewrite ?Htot; [done|by rewrite (cl_init _ _ _ _ Hcl)|done| | |done| | |done|].
  - intros f Hf. destruct (decide (f * PAGE_SIZE = n)) as [->|]; [rewrite lookup_insert_eq; eauto|].
    rewrite lookup_insert_ne by done. by apply H4.
  - intros t x Hx. destruct (H5 _ _ Hx) as (f&->&Hf&Huf). exists f. split_and!; [done|lia..|]. rewrite Hu by lia. by rewrite Huf, orb_true_r.
  - intros t p o Hx. destruct (H7 _ _ _ Hx) as (?&?&Htop). split_and!; [done..|]. intros i e. rewrite (He t _ i Hx). apply Htop.
  - intros t l p o i e Hx. rewrite (He t _ i Hx). by apply H8.
  - intros t l p o Hx Hl'. destruct (H10 _ _ _ _ Hx Hl') as (tp&pp&op&i&e&L1&L2&L3). exists tp, pp, op, i, e. by rewrite (He tp _ i L1).
Qed.

(** What a root sees whose kernel half is that of [k] and whose user half is empty. *)
Lemma pview_shared m m' R lvl k n va : spaces m R lvl -> k ∈ R -> (forall t x j, lvl !! t = Some x -> ent m' t j = ent m t j) ->
  (forall j, 0 <= j < 512 -> ent m' n j = if 256 <=? j then ent m k j else Some 0) ->
  pview m' n va = if ix 3 va <? 256 then None else pview m k va.
Proof.
  intros Hsp Hk Hent Hn. pose proof (ix_range 3 va) as Hix. pose proof (sp_root _ _ _ Hsp _ Hk) as Htk. unfold pview.
  pose proof (Hn _ Hix) as He3. destruct (Z.ltb_spec (ix 3 va) 256).
  - rewrite (proj2 (Z.leb_gt _ _)) in He3 by lia. by rewrite (view_S 2 m' n va 0 He3).
  - rewrite (proj2 (Z.leb_le _ _)) in He3 by lia. destruct (table_ent m R lvl Hsp k _ _ Htk Hix) as (e&E). rewrite E in He3.
    destruct (pte_present e) eqn:Hpe; [|unfold view, view_of; simpl; rewrite He3, E; simpl; by rewrite Hpe].
    pose proof (proj2 (proj2 (sp_top _ _ _ Hsp _ _ _ Htk)) _ _ E Hpe) as Hh.
    rewrite (view_S 2 m' n va e He3 Hh), (view_S 2 m k va e E Hh), Hpe.
    rewrite <-(pre_3 va) in Htk. pose proof (sp_child _ _ _ Hsp _ _ _ _ _ _ Htk E Hpe Hh) as Hc. rewrite pre_ix in Hc by lia.
    apply (view_ram m m' R lvl Hsp Hent 2 _ va _ ltac:(lia) Hc).
Qed.

(** The memory after [vmm_create_address_space] took frame [a]. *)
Lemma create_mem m R lvl k a p' : spaces m R lvl -> k ∈ R -> fits (mm_pmm m) 1 a -> claims a 1 (mm_pmm m) p' -> pmm_inv p' ->
  let n := a * PAGE_SIZE in
  exists m', (page_zero (virt n) ;;; for_range 256 PT_ENTRIES (fun i => e <~ tab_get (virt k) i ;; tab_set (virt n) i e))
      (Mm p' (ram m) (cr3 m)) = Some (tt, m') /\
    n ∉ R /\ spaces m' ({[n]} ∪ R) (<[n := (3%nat, 0, n)]> lvl) /\ same_views m m' R /\
    forall va, pview m' n va = if ix 3 va <? 256 then None else pview m k va.
Proof.
  intros Hsp Hk Hfit Hcl Hinv n. pose proof Hfit as (Ha1&Ha2&_). pose proof (sp_window _ _ _ Hsp) as Hwin.
  destruct (used_alloc m R lvl a p' Hsp Hfit Hcl) as [Hn _]. fold n in Hn.
  assert (0 <= n < 2 ^ 31) as Hnr by (unfold n, PAGE_SIZE; lia). destruct (sp_ram _ _ _ Hsp a ltac:(lia)) as (ws&Hws&_).
  pose proof (page_zero_at (Mm p' (ram m) (cr3 m)) n ws Hnr Hws) as Hz. set (m2 := set_ram _ _) in Hz.
  destruct (spaces_fresh m R lvl a p' (replicate (Z.to_nat PT_ENTRIES) 0) Hsp Hfit Hcl Hinv (length_replicate _ _)) as (Hsp2&_&Hent2).
  change (Mm p' _ (cr3 m)) with m2 in Hsp2, Hent2.
  assert (ram m2 !! n = Some (replicate (Z.to_nat PT_ENTRIES) 0)) as Hw2 by (unfold m2; cbn [set_ram ram]; apply lookup_insert_eq).
  destruct (copy_kernel_run m2 R lvl k n _ Hsp2 Hk Hn Hnr Hw2 (length_replicate _ _)) as (m3&Hcp&Hp3&Hw3&Hram3&Hent3).
  assert (forall j, ent m2 n j = if (0 <=? j) && (j <? 512) then Some 0 else None) as Hzero.
  { intros j. change m2 with (Mm p' (<[n:=replicate (Z.to_nat PT_ENTRIES) 0]> (ram m)) (cr3 m)). by rewrite ent_zeroed, decide_True. }
  assert (forall t x j, lvl !! t = Some x -> ent m3 t j = ent m t j) as Hent.
  { intros t x j Hx. rewrite <-(Hent2 t x j Hx). unfold ent. by rewrite Hram3 by congruence. }
  pose proof (sp_root _ _ _ Hsp k Hk) as Htk. exists m3. split; [by mstep Hz|]. split_and!.
  - intros Hin. by rewrite (sp_root _ _ _ Hsp _ Hin) in Hn.
  - apply (spaces_root m m3 R lvl k n a); try done; [by rewrite Hp3..| |].
    + intros t Hne. rewrite Hram3 by done. unfold m2. cbn [set_ram ram]. by rewrite lookup_insert_ne.
    + intros j e. rewrite Hent3, Hzero, (Hent2 k _ j Htk).
      destruct (Z.leb_spec 256 j), (Z.ltb_spec j 512); cbn [andb]; [by right|..]; destruct (0 <=? j); naive_solver.
  - intros r va Hr. apply (view_ram m m3 R lvl Hsp Hent 3 r va r); [lia|]. rewrite pre_3. by apply (sp_root _ _ _ Hsp).
  - intros va. apply (pview_shared m m3 R lvl k n va Hsp Hk Hent). intros j Hj. rewrite Hent3, Hzero, (Hent2 k _ j Htk).
    by rewrite (proj2 (Z.ltb_lt j 512)), (proj2 (Z.leb_le 0 j)), andb_true_r by lia.
Qed.

Lemma create_run s R lvl k : vm_ok s R lvl -> at_root (g_kernel_aspace s) k R ->
  exists st o s', vmm_create_address_space s = Some ((st, o), s') /\
    (st = VMM_ERR_NO_MEM /\ o = None /\ s' = s /\ no_frame (v_mm s) \/
     exists n lvl', st = VMM_OK /\ o = Some (ASpace (virt n) n false) /\ n ∉ R /\ vm_ok s' ({[n]} ∪ R) lvl' /\
       g_kernel_aspace s' = g_kernel_aspace s /\ same_views (v_mm s) (v_mm s') R /\
       forall va, pview (v_mm s') n va = if ix 3 va <? 256 then None else pview (v_mm s) k va).
Proof.
  intros [Hi Hsp] (Hkp&_&Hk). unfold vmm_create_address_space. unfold mbind_ at 1. unfold mget. rewrite Hi. cbn [negb].
  destruct (alloc_frame_spec _ (sp_pmm _ _ _ Hsp) (sp_init _ _ _ Hsp)) as (r&p'&Ha&Hpost&Hinv). set (m := v_mm s) in *.
  set (m1 := Mm p' (ram m) (cr3 m)). assert (on_mm (on_pmm pmm_alloc_frame) s = Some (r, with_mm s m1)) as Ha'.
  { apply on_mm_run. fold m. unfold on_pmm. by rewrite Ha. }
  mstep Ha'. destruct Hpost as [(->&->&Hno)|(a&->&Hfit&_&Hcl)].
  { exists VMM_ERR_NO_MEM, None, s. split; [|by left]. cbn [Z.eqb]. unfold mret, with_mm, m1, m. by destruct s as [? ? []]. }
  pose proof Hfit as (Ha1&_&_). rewrite (proj2 (Z.eqb_neq _ _)) by (unfold PAGE_SIZE; lia). cbv zeta.
  destruct (create_mem m R lvl k a p' Hsp Hk Hfit Hcl Hinv) as (m3&Hrun&Hn&Hsp3&Hv&Hnew). set (n := a * PAGE_SIZE) in *.
  rewrite Hkp. change (pt_phys_to_virt n) with (virt n). rewrite (mbind_Some _ _ _ _ _ (on_mm_run _ (with_mm s m1) _ _ Hrun)).
  exists VMM_OK, (Some (ASpace (virt n) n false)), (with_mm s m3). split; [done|]. right. exists n, (<[n := (3%nat, 0, n)]> lvl).
  split_and!; done || by split.
Qed.

(** A new address space translates the kernel half as the kernel address space does
    and nothing else; no existing translation changes.  The only other outcome is
    that no frame is left, without effect. *)
Theorem vmm_create_address_space_shares s R lvl k : vm_ok s R lvl -> at_root (g_kernel_aspace s) k R ->
  exists st o s', vmm_create_address_space s = Some ((st, o), s') /\
    (st = VMM_ERR_NO_MEM /\ o = None /\ s' = s /\ no_frame (v_mm s) \/
     exists a n lvl', st = VMM_OK /\ o = Some a /\ is_kernel a = false /\ n ∉ R /\ at_root a n ({[n]} ∪ R) /\ vm_ok s' ({[n]} ∪ R) lvl' /\
       (forall va, xlate s' a va = if PML4_INDEX va <? 256 then Some 0 else xlate s (g_kernel_aspace s) va) /\
       (forall b r va, at_root b r R -> xlate s' b va = xlate s b va)).
Proof.
  intros Hok Hk. destruct (create_run s R lvl k Hok Hk) as (st&o&s'&Hrun&Hst). exists st, o, s'. split; [done|].
  destruct Hst as [?|(n&lvl'&->&->&Hn&Hok'&_&Hv&Hnew)]; [by left|]. right. exists (ASpace (virt n) n false), n, lvl'.
  assert (at_root (ASpace (virt n) n false) n ({[n]} ∪ R)) as Ha by (split_and!; [done..|set_solver]).
  split_and!; try done.
  - intros va. rewrite (xlate_run s' _ lvl' _ n va Hok' Ha), Hnew. destruct (index_ix va) as (->&_).
    destruct (ix 3 va <? 256); [done|]. by rewrite (xlate_run s R lvl _ k va Hok Hk).
  - intros b r va Hb. pose proof Hb as (Hb1&Hb2&Hr). assert (at_root b r ({[n]} ∪ R)) as Hb' by (split_and!; [done..|set_solver]).
    by rewrite (xlate_run s' _ lvl' b r va Hok' Hb'), (xlate_run s R lvl b r va Hok Hb), (Hv r va Hr).
Qed.

Lemma find_ix l m t va va' : (forall k, (k <= l)%nat -> ix k va = ix k va') -> find l m t va = find l m t va'.
Proof.
  revert t. induction l as [|l IH]; intros t Hix; simpl; [by rewrite Hix|]. rewrite (Hix (S l)) by lia.
  destruct (ent m t (ix (S l) va')) as [e|]; [|done]. simpl. destruct (pte_present e); [|done]. destruct (pte_huge e); [done|].
  apply IH. intros k Hk. apply Hix. lia.
Qed.
Lemma pview_page m r va va' : span 0 va = span 0 va' -> pview m r va = pview m r va'.
Proof. intros E. unfold pview, view, view_of. rewrite (find_ix 3 m r va va'); [done|]. intros k Hk. apply (ix_span 0); [lia|done]. Qed.

(** Mapping a page and unmapping it again succeeds and gives back every translation:
    of the address space itself and, for a user page, of all the others. *)
Theorem vmm_map_unmap_roundtrip s R lvl a r va pa flags s1 : vm_ok s R lvl -> at_root a r R ->
  validate_vaddr va = VMM_OK -> validate_paddr pa = VMM_OK -> vmm_map_page (Some a) va pa flags s = Some (VMM_OK, s1) ->
  exists s2 lvl', vmm_unmap_page (Some a) va s1 = Some (VMM_OK, s2) /\ vm_ok s2 R lvl' /\
    forall b r' va', at_root b r' R -> r' = r \/ PML4_INDEX va < 256 -> xlate s2 b va' = xlate s b va'.
Proof.
  intros Hok Ha Hva Hpa Hmap. destruct (map_page_run s R lvl a r va pa flags Hok Ha Hva Hpa) as (st&s1'&lvl1&Hrun&Hok1&Hst).
  rewrite Hmap in Hrun. injection Hrun as <- <-. destruct Hst as [Hnone Hup1]. pose proof Ha as (_&_&Hr).
  destruct (unmap_page_run s1 R lvl1 a r va Hok1 Ha Hva) as (st&s2&lvl2&Hrun2&Hok2&Hst2).
  assert (pview (v_mm s1) r va = Some (0%nat, leaf_pte pa flags)) as Hv1 by (rewrite (Hup1 r va Hr) by (by right); by rewrite decide_True).
  rewrite Hv1 in Hst2. destruct st; try done; [|by destruct Hst2]. destruct Hst2 as (l&Hup2&->). exists s2, lvl2. split_and!; [done..|].
  destruct (index_ix va) as (->&_). intros b r' va' Hb Hu. rewrite (xlate_run s2 R lvl2 b r' va' Hok2 Hb), (xlate_run s R lvl b r' va' Hok Hb).
  destruct Hb as (_&_&Hr'). rewrite Hup2, Hup1 by (done || tauto). destruct (decide _) as [[-> Hs]|]; [|done].
  by rewrite (pview_page (v_mm s) r va' va Hs), Hnone.
Qed.

Lemma has_bit x n : 0 <= n -> has x (Z.shiftl 1 n) = Z.testbit x n.
Proof.
  intros Hn. unfold has. destruct (Z.eqb_spec (Z.land x (Z.shiftl 1 n)) 0) as [E|E]; cbn [negb]; symmetry.
  - apply (f_equal (fun z => Z.testbit z n)) in E. rewrite Z.land_spec, pow2_testbit, bool_decide_eq_true_2, andb_true_r in E by done.
    by rewrite Z.bits_0 in E.
  - apply not_false_iff_true. intros F. apply E. apply Z.bits_inj'. intros k Hk. rewrite Z.land_spec, Z.bits_0, pow2_testbit by done.
    case_bool_decide; [subst; by rewrite F|by rewrite andb_false_r].
Qed.
Lemma merged_nx e flags : has flags PTE_NX = true ->
  has (merged_pte e (Z.lor flags PTE_PRESENT)) PTE_NX = true /\ pte_present (merged_pte e (Z.lor flags PTE_PRESENT)) = true.
Proof.
  unfold merged_pte, pte_present, PTE_NX, PTE_PRESENT. rewrite !has_bit by done. cbv zeta. intros Hn.
  rewrite (Z.lor_spec flags _ 63), Hn. cbn [orb]. rewrite !Z.lor_spec, Hn. by rewrite !orb_true_r.
Qed.

(** [vmm_map_page_merge] on a page that is already mapped as executable, with flags
    that have the no-execute bit, makes the page non-executable: the bit is dropped
    only when the new flags allow execution, not when the old entry does. *)
Theorem vmm_merge_loses_exec s R lvl a r va pa flags e : vm_ok s R lvl -> at_root a r R ->
  validate_vaddr va = VMM_OK -> validate_paddr pa = VMM_OK -> pview (v_mm s) r va = Some (0%nat, e) ->
  has e PTE_NX = false -> has flags PTE_NX = true ->
  exists s' e', vmm_map_page_merge (Some a) va pa flags s = Some (VMM_OK, s') /\
    pview (v_mm s') r va = Some (0%nat, e') /\ has e' PTE_NX = true.
Proof.
  intros Hok Ha Hva Hpa Hpv Hex Hnx. unfold vmm_map_page_merge. rewrite (checked_run s R lvl a r) by (done || by repeat constructor).
  destruct (map_walk s R lvl a r va flags Hok Ha) as (p&m'&lvl'&Hw&Hsp'&Hv&_&Hp). mstep Hw. pose proof Ha as (_&_&Hr).
  destruct p as [[tv i]|]; [|destruct Hp; congruence]. destruct Hp as (l&t&->&Hf).
  set (v := merged_pte e (Z.lor flags PTE_PRESENT)).
  destruct (merged_nx e flags Hnx) as [Hvnx Hvp]. fold v in Hvnx, Hvp.
  assert (l = 0%nat /\ exists e0, ent m' t i = Some e0 /\ e0 = e /\ pte_present e0 = true) as (->&e0&He0&->&Hpe).
  { pose proof (Hv r va Hr) as E. rewrite Hpv in E. unfold pview, view, view_of in E. rewrite Hf in E. simpl in E.
    destruct (ent m' t i) as [e0|]; [|done]. simpl in E. destruct (pte_present e0) eqn:E2; [|done]. injection E as -> ->. eauto 6. }
  destruct (leaf_write m' R lvl' r va 0 t i v Hsp' Hr Hf ltac:(by left)) as ((e1&He1&Hg&_)&Hset&_&Hup).
  rewrite He0 in He1. injection He1 as <-. rewrite (mbind_Some _ _ _ _ _ (on_mm_run _ (with_mm s m') _ _ Hg)), Hpe. cbv zeta. fold v.
  rewrite (proj2 (Z.eqb_neq v e)) by (intros E; congruence).
  assert ((if false then mret tt else on_mm (tab_set (virt t) i v)) (with_mm s m') = Some (tt, with_mm s (put m' t i v))) as Hrun by exact (on_mm_run _ (with_mm s m') _ _ Hset).
  exists (with_mm s (put m' t i v)), v. split; [|split; [|done]].
  - change (with_mm (with_mm s m') m') with (with_mm s m'). by mstep Hrun.
  - cbn [v_mm with_mm]. rewrite (Hup r va Hr) by (by right). by rewrite decide_True, Hvp.
Qed.

(** ** A machine of 32 frames: frame 3 is the kernel's PML4, 1, 2 and 4 to 31 are free *)

Definition pmm32 : pmm := Pmm (UINT64_MAX - 0xFFFFFFF6 :: replicate 16383 UINT64_MAX) 32 30 0 true.
Definition ram32 : gmap Z (list Z) := list_to_map ((fun f => (f * PAGE_SIZE, replicate 512 0)) <$> seqZ 0 32).
Definition kspace : address_space := ASpace (virt 0x3000) 0x3000 true.
Definition vm32 : vmm := Vmm kspace true (Mm pmm32 ram32 0x3000).
Definition R32 : gset Z := {[0x3000]}.
Definition lvl32 : gmap Z (nat * Z * Z) := {[0x3000 := (3%nat, 0, 0x3000)]}.

Lemma pmm32_inv : pmm_inv pmm32.
Proof.
  apply word_pmm_inv; [done|lia|done| |by vm_compute]. intros i Hi.
  assert (Forall (fun f => Z.testbit (UINT64_MAX - 0xFFFFFFF6) f = true) (seqZ 32 32)) as Hall by (apply (bool_decide_eq_true_1 _); by vm_compute).
  rewrite Forall_forall in Hall. apply Hall, elem_of_seqZ. lia.
Qed.
Lemma ram32_at f : 0 <= f < 32 -> ram32 !! (f * PAGE_SIZE) = Some (replicate 512 0).
Proof.
  intros Hf. unfold ram32. apply elem_of_list_to_map_1.
  - rewrite <-list_fmap_compose. apply NoDup_fmap_2_strong; [|apply NoDup_seqZ]. cbn [compose fst]. unfold PAGE_SIZE. lia.
  - apply list_elem_of_fmap. exists f. split; [done|]. apply elem_of_seqZ. lia.
Qed.
Lemma ent32 i e : ent (Mm pmm32 ram32 0x3000) 0x3000 i = Some e -> e = 0.
Proof.
  assert (ram32 !! 0x3000 = Some (replicate 512 0)) as E by exact (ram32_at 3 ltac:(lia)).
  unfold ent. cbn [ram]. rewrite E. cbn [mbind option_bind]. intros [_ [-> _]%lookup_replicate]%zget_Some. done.
Qed.
Lemma lvl32_Some t x : lvl32 !! t = Some x -> t = 0x3000 /\ x = (3%nat, 0, 0x3000).
Proof. unfold lvl32. rewrite lookup_singleton_Some. by intros [<- <-]. Qed.
Lemma vm32_ok : vm_ok vm32 R32 lvl32.
Proof.
  split; [done|]. split; cbn [v_mm vm32 mm_pmm ram].
  - exact pmm32_inv.
  - done.
  - done.
  - intros f Hf. exists (replicate 512 0). split; [by apply ram32_at|done].
  - intros t x [-> _]%lvl32_Some. exists 3. by vm_compute.
  - intros r ->%elem_of_singleton. done.
  - intros t p o [-> [= -> ->]]%lvl32_Some. split_and!; [done..|]. by intros i e ->%ent32.
  - intros t l p o i e [-> [= -> -> ->]]%lvl32_Some. by intros ->%ent32.
  - intros t t' x [-> _]%lvl32_Some [-> _]%lvl32_Some. done.
  - intros t l p o [-> [= -> -> ->]]%lvl32_Some. lia.
Qed.
Lemma kspace_root : at_root kspace 0x3000 R32.
Proof. split_and!; [done..|]. by apply elem_of_singleton. Qed.

Lemma Some_pair_inj {A B} (a a' : A) (b b' : B) : Some (a, b) = Some (a', b') -> a = a' /\ b = b'.
Proof. by intros [= -> ->]. Qed.
Lemma vmm_map_page_exact_witness : exists s', vmm_map_page (Some kspace) 0x400000 0x5000 6 vm32 = Some (VMM_OK, s') /\
  xlate s' kspace 0x400123 = Some 0x5123 /\ xlate s' kspace 0x401000 = Some 0.
Proof.
  destruct (vmm_map_page_exact vm32 R32 lvl32 kspace 0x3000 0x400000 0x5000 6 vm32_ok kspace_root eq_refl eq_refl ltac:(lia) eq_refl)
    as (st&s'&lvl'&Hrun&_&_&Hin&Hout&_).
  assert (st = VMM_OK) as ->.
  { assert (fst <$> vmm_map_page (Some kspace) 0x400000 0x5000 6 vm32 = Some VMM_OK) as E by by vm_compute.
    rewrite Hrun in E. by injection E. }
  exists s'. split_and!; [done|by rewrite (Hin eq_refl 0x400123) by by vm_compute|].
  rewrite (Hout kspace 0x3000 0x401000 kspace_root); [by vm_compute|]. left. split; [reflexivity|]. apply (bool_decide_eq_true_1 _). by vm_compute.
Defined.
Definition vm32m : vmm := match vmm_map_page (Some kspace) 0x400000 0x5000 6 vm32 with Some (_, s) => s | None => vm32 end.
Lemma vm32m_run : vmm_map_page (Some kspace) 0x400000 0x5000 6 vm32 = Some (VMM_OK, vm32m).
Proof.
  assert (fst <$> vmm_map_page (Some kspace) 0x400000 0x5000 6 vm32 = Some VMM_OK) as E by by vm_compute.
  unfold vm32m. destruct (vmm_map_page _ _ _ _ vm32) as [[st s]|]; [|done]. by injection E as ->.
Qed.
Lemma vm32m_ok : exists lvl, vm_ok vm32m R32 lvl.
Proof.
  destruct (map_page_run vm32 R32 lvl32 kspace 0x3000 0x400000 0x5000 6 vm32_ok kspace_root eq_refl eq_refl) as (st&s'&lvl'&Hrun&Hok&_).
  rewrite vm32m_run in Hrun. apply Some_pair_inj in Hrun as [_ <-]. eauto.
Qed.
Lemma vmm_map_unmap_roundtrip_witness : exists s2, vmm_unmap_page (Some kspace) 0x400000 vm32m = Some (VMM_OK, s2) /\
  xlate s2 kspace 0x400123 = Some 0.
Proof.
  destruct (vmm_map_unmap_roundtrip vm32 R32 lvl32 kspace 0x3000 0x400000 0x5000 6 vm32m vm32_ok kspace_root eq_refl eq_refl vm32m_run)
    as (s2&lvl2&Hrun&_&Hx).
  exists s2. split; [done|]. rewrite (Hx kspace 0x3000 0x400123 kspace_root ltac:(by left)). by vm_compute.
Defined.
Lemma vmm_unmap_page_exact_witness : exists s2, vmm_unmap_page (Some kspace) 0x400000 vm32m = Some (VMM_OK, s2) /\
  xlate vm32m kspace 0x400123 = Some 0x5123 /\ xlate s2 kspace 0x400123 = Some 0.
Proof.
  destruct vm32m_ok as (lvl&Hok).
  destruct (vmm_unmap_page_exact vm32m R32 lvl kspace 0x3000 0x400000 Hok kspace_root eq_refl) as (st&s2&lvl2&Hrun&_&Hst).
  destruct Hst as [(_&E&_)|(l&->&Hl&Hin&_)]; [by vm_compute in E|]. exists s2. split_and!; [done|by vm_compute|].
  assert (pview (v_mm vm32m) 0x3000 0x400000 = Some (0%nat, leaf_pte 0x5000 6)) as E by by vm_compute.
  rewrite E in Hl. subst l. apply Hin. by vm_compute.
Defined.
Lemma vmm_create_address_space_shares_witness : exists a s', vmm_create_address_space vm32m = Some ((VMM_OK, Some a), s') /\
  xlate s' a 0x400123 = Some 0 /\ xlate s' kspace 0x400123 = Some 0x5123.
Proof.
  destruct vm32m_ok as (lvl&Hok).
  destruct (vmm_create_address_space_shares vm32m R32 lvl 0x3000 Hok kspace_root) as (st&o&s'&Hrun&Hst).
  assert (fst <$> (fst <$> vmm_create_address_space vm32m) = Some VMM_OK) as E by by vm_compute. rewrite Hrun in E. injection E as ->.
  destruct Hst as [Hst|Hst].
  { destruct Hst as [Hbad Hst]. discriminate Hbad. }
  destruct Hst as (a&n&lvl'&Hst). destruct Hst as (E1&E2&E3&E4&E5&E6&Hnew&Hold). subst o. exists a, s'. split_and!; [done|by rewrite Hnew|].
  rewrite (Hold kspace 0x3000 0x400123 kspace_root). by vm_compute.
Defined.
Lemma vmm_merge_loses_exec_witness : exists s' e', vmm_map_page_merge (Some kspace) 0x400000 0x5000 (PTE_NX + 6) vm32m = Some (VMM_OK, s') /\
  pview (v_mm s') 0x3000 0x400000 = Some (0%nat, e') /\ has e' PTE_NX = true.
Proof.
  destruct vm32m_ok as (lvl&Hok).
  apply (vmm_merge_loses_exec vm32m R32 lvl kspace 0x3000 0x400000 0x5000 (PTE_NX + 6) (leaf_pte 0x5000 6) Hok kspace_root);
    by vm_compute.
Defined.

(** ** Cloned spaces share frames *)

(** A parent maps one fresh frame at [va]; a clone of it is made and destroyed, and a
    frame is allocated. *)
Definition fork_exit (va : Z) : M vmm (vmm_status * vmm_status * option address_space * Z) :=
  ' (_, parent) <~ vmm_create_address_space ;;
  frame <~ on_mm (on_pmm pmm_alloc_frame) ;;
  vmm_map_page parent va frame (Z.lor PTE_WRITABLE PTE_USER) ;;;
  ' (_, child) <~ vmm_create_address_space ;;
  st1 <~ vmm_clone_address_space parent child ;;
  ' (st2, _) <~ vmm_destroy_address_space child ;;
  next <~ on_mm (on_pmm pmm_alloc_frame) ;;
  return (st1, st2, parent, next).

(** Frames shared by a clone are not counted.  After a parent with one page is cloned
    and the clone is destroyed, both successfully, the parent's page still translates
    to its frame, but the frame is free: the next allocation returns it. *)
Theorem vmm_clone_destroy_frees_shared :
  exists parent frame s', fork_exit 0x400000 vm32 = Some ((VMM_OK, VMM_OK, Some parent, frame), s') /\
    frame <> 0 /\ xlate s' parent 0x400000 = Some frame.
Proof.
  assert (match fork_exit 0x400000 vm32 with
          | Some ((VMM_OK, VMM_OK, Some parent, frame), s') => negb (frame =? 0) && bool_decide (xlate s' parent 0x400000 = Some frame)
          | _ => false end = true) as E by by vm_compute.
  destruct (fork_exit 0x400000 vm32) as [[[[[[] []] [parent|]] frame] s']|]; try done.
  apply andb_true_iff in E as [E1 E2%bool_decide_eq_true_1]. exists parent, frame, s'. split_and!; [done| |done].
  by apply negb_true_iff, Z.eqb_neq in E1.
Qed.

(** A present page and a demand-paged one of the same page table; the first is
    unmapped. *)
Definition demand_lost (va va' : Z) : M vmm (vmm_status * vmm_status * vmm_status * vmm_status) :=
  st1 <~ vmm_map_page (Some kspace) va 0x5000 PTE_WRITABLE ;;
  st2 <~ vmm_map_demand_page (Some kspace) va' PTE_WRITABLE ;;
  st3 <~ vmm_unmap_page (Some kspace) va ;;
  st4 <~ vmm_unmap_page (Some kspace) va' ;;
  return (st1, st2, st3, st4).

(** Unmapping the last present page of a page table drops the demand-paged pages of
    the same table: [pt_table_empty] looks only at the present bit, so the table is
    released although it still holds a demand entry, which is gone afterwards. *)
Theorem vmm_unmap_drops_demand : exists s',
  demand_lost 0x400000 0x401000 vm32 = Some ((VMM_OK, VMM_OK, VMM_OK, VMM_ERR_NOT_MAPPED), s').
Proof.
  assert (fst <$> demand_lost 0x400000 0x401000 vm32 = Some (VMM_OK, VMM_OK, VMM_OK, VMM_ERR_NOT_MAPPED)) as E by by vm_compute.
  destruct (demand_lost _ _ vm32) as [[x s']|]; [|done]. injection E as ->. eauto.
Qed.
