(* ===== verification/PageFault.v ===== *)
(** * Page-fault handler (src/kernel/main.c, handler_pf)

    The handler that resolves demand-paged and copy-on-write faults, on the page
    tables of PageTable.v.  [kernel_panic] does not return: it is the result [Panic].
    The serial diagnostics (they only read the tables) and TLB invalidation are left
    out.

    [handler_pf_exact] states what the handler does on every fault, against the
    decision table [fault_action]: which faults are resolved, what the page is mapped
    to afterwards, and that no other translation and no other frame changes. *)

From stdpp Require Import base numbers gmap list options.
From S2P Require Import Prelude Task Pmm PageTable Vmm VmmSpec.

(** ** The handler *)

Definition PF_MAX_DEPTH : Z := 3.

(** The recursion counter, [task_get_current()] and the memory. *)
Record faults := Faults { g_pf_depth : Z; pf_task : option task; pf_mm : mm }.

Inductive pf_result := Resolved | Panic.

(** How an attempt ends: the fault is resolved, [goto fault_halt], or the next
    attempt is made. *)
Inductive attempt := Done | Halt | Next.

(** The walk both attempts make; [AtPte pt i] is [&pt[i]]. *)
Inductive walk_end := NotThere | HugePage | AtPte (pt i : Z).
Definition pf_walk (va : Z) : M mm walk_end :=
  cr3_val <~ pt_read_cr3 ;;
  let pml4 := pt_phys_to_virt cr3_val in
  pml4e <~ tab_get pml4 (PML4_INDEX va) ;;
  if negb (pte_present pml4e) then return NotThere else
  let pdpt := pt_phys_to_virt (pte_addr pml4e) in
  pdpe <~ tab_get pdpt (PDPT_INDEX va) ;;
  if negb (pte_present pdpe) then return NotThere else
  if pte_huge pdpe then return HugePage else
  let pd := pt_phys_to_virt (pte_addr pdpe) in
  pde <~ tab_get pd (PD_INDEX va) ;;
  if negb (pte_present pde) then return NotThere else
  if pte_huge pde then return HugePage else
  return (AtPte (pt_phys_to_virt (pte_addr pde)) (PT_INDEX va)).

(** Where demand pages may be: [valid_demand]. *)
Definition valid_demand (cur : option task) (cr2_page : Z) : bool :=
  if va_is_kernel cr2_page then true else
  match cur with
  | None => false
  | Some t =>
    let stack_end := u64 (t_user_stack_base t + t_user_stack_size t) in
    if (t_user_stack_base t <=? cr2_page) && (cr2_page <? stack_end) then true else
    negb (t_user_heap_start t =? 0) && (t_user_heap_start t <=? cr2_page) && (cr2_page <? t_user_heap_brk t)
  end.

Definition demand_flags (old_pte : Z) : Z :=
  Z.lor (Z.land old_pte (not64 (Z.lor PTE_DEMAND PTE_ADDR_MASK))) PTE_PRESENT.
Definition try_demand (cr2_page : Z) : M mm attempt :=
  w <~ pf_walk cr2_page ;;
  match w with
  | NotThere => return Next
  | HugePage => return Halt
  | AtPte pt i =>
    old_pte <~ tab_get pt i ;;
    if negb (has old_pte PTE_DEMAND) then return Next else
    new_frame <~ on_pmm pmm_alloc_frame ;;
    if new_frame =? 0 then return Halt else
    page_zero (pt_phys_to_virt new_frame) ;;;
    tab_set pt i (pte_make new_frame (demand_flags old_pte)) ;;; return Done
  end.

Definition cow_flags (old_pte : Z) : Z :=
  Z.land (Z.lor (pte_flags old_pte) PTE_WRITABLE) (not64 PTE_COW).
Definition try_cow (cr2_page : Z) : M mm attempt :=
  w <~ pf_walk cr2_page ;;
  match w with
  | NotThere | HugePage => return Next
  | AtPte pt i =>
    old_pte <~ tab_get pt i ;;
    if negb (has old_pte PTE_COW) then return Next else
    new_frame <~ on_pmm pmm_alloc_frame ;;
    if new_frame =? 0 then return Halt else
    page_copy (pt_phys_to_virt new_frame) (pt_phys_to_virt (pte_addr old_pte)) ;;;
    tab_set pt i (pte_make new_frame (cow_flags old_pte)) ;;; return Done
  end.

Definition on_fault_mm {A} (c : M mm A) : M faults A :=
  fun s => match c (pf_mm s) with Some (a, m) => Some (a, Faults (g_pf_depth s) (pf_task s) m) | None => None end.
Definition add_depth (d : Z) : M faults unit :=
  mmodify (fun s => Faults (g_pf_depth s + d) (pf_task s) (pf_mm s)).

Definition handler_pf (error_code cr2 : Z) : M faults pf_result :=
  add_depth 1 ;;;
  s <~ mget ;;
  if PF_MAX_DEPTH <? g_pf_depth s then return Panic else
  let cr2_page := Z.land cr2 (not64 0xFFF) in
  a <~ (if negb (Z.testbit error_code 0) && (va_is_kernel cr2_page || va_is_user cr2_page) && valid_demand (pf_task s) cr2_page
        then on_fault_mm (try_demand cr2_page) else return Next) ;;
  b <~ (match a with
        | Next => if Z.testbit error_code 1 && va_is_user cr2_page then on_fault_mm (try_cow cr2_page) else return Next
        | _ => return a
        end) ;;
  add_depth (-1) ;;;
  return (match b with Done => Resolved | _ => Panic end).

(** ** What a fault calls for *)

(** The entry that maps [va]: its level and contents, present or not. *)
Definition slot (m : mm) (r va : Z) : option (nat * Z) :=
  ' (l, t, i) ← find 3 m r va; e ← ent m t i; Some (l, e).

Inductive action := AZero (e : Z) | ACopy (e : Z) | AFail.
Definition fault_action (cur : option task) (error_code page : Z) (sl : option (nat * Z)) : action :=
  match sl with
  | Some (O, e) =>
    if negb (Z.testbit error_code 0) && (va_is_kernel page || va_is_user page) && valid_demand cur page && has e PTE_DEMAND
    then AZero e else
    if Z.testbit error_code 1 && va_is_user page && has e PTE_COW then ACopy e else AFail
  | _ => AFail
  end.

(** The page at [va] of space [r] moves to frame [f], which was free and now holds [ws];
    its entry becomes [v].  Tables apart, no other frame changes. *)
Record remapped (m m' : mm) (R : gset Z) (lvl : gmap Z (nat * Z * Z)) (r va v f : Z) (ws : list Z) : Prop := {
  rm_free : fits (mm_pmm m) 1 f;
  rm_claims : claims f 1 (mm_pmm m) (mm_pmm m');
  rm_ram : ram m' !! (f * PAGE_SIZE) = Some ws;
  rm_view : updates m m' R r va 0 (if pte_present v then Some (0%nat, v) else None);
  rm_addr : pte_addr v = f * PAGE_SIZE;
  rm_frame : forall g, g <> f * PAGE_SIZE -> lvl !! g = None -> ram m' !! g = ram m !! g
}.

(** ** Runs *)

Lemma find_ram m m' R lvl : spaces m R lvl -> (forall t x j, lvl !! t = Some x -> ent m' t j = ent m t j) ->
  forall l t va o, (l <= 3)%nat -> lvl !! t = Some (l, pre l va, o) -> find l m' t va = find l m t va.
Proof.
  intros Hsp Hent. induction l as [|l IH]; intros t va o Hl Ht; simpl; [done|].
  rewrite (Hent t _ _ Ht). destruct (ent m t (ix (S l) va)) as [e|] eqn:He; [|done]. simpl.
  destruct (pte_present e) eqn:Hp; [|done]. destruct (pte_huge e) eqn:Hh; cbn [negb]; [done|].
  pose proof (sp_child _ _ _ Hsp _ _ _ _ _ _ Ht He Hp Hh) as Hc. rewrite pre_ix in Hc by lia. apply (IH _ _ _ ltac:(lia) Hc).
Qed.

Definition walk_result (x : option (nat * Z * Z)) : walk_end :=
  match x with None => NotThere | Some (O, t, i) => AtPte (virt t) i | Some (S _, _, _) => HugePage end.
(** One level of a walk from the table known to [Ht]: reads the entry for [va] at level
    [k], follows it when it is present (otherwise the goal must be trivial); the second
    form goes on to the table below. *)
Ltac walk_read m R lvl Hsp Ht k va e Hp :=
  let He := fresh "He" in let Hg := fresh "Hg" in
  destruct (tab_get_run m R lvl Hsp _ _ (ix k va) Ht (ix_range k va)) as (e&He&Hg); mstep Hg;
  cbn [find]; rewrite ?He; cbn [mbind option_bind]; rewrite ?He; cbn [mbind option_bind];
  destruct (pte_present e) eqn:Hp; cbn [negb]; [|done].
Ltac walk_next Hsp Ht e Hp Hh :=
  let Ht' := fresh "Ht" in
  match goal with H : ent _ _ _ = Some e |- _ =>
    pose proof (sp_child _ _ _ Hsp _ _ _ _ _ _ Ht H Hp Hh) as Ht'; rewrite pre_ix in Ht' by lia; fold (virt (pte_addr e));
    clear Ht; rename Ht' into Ht
  end.
Lemma top_not_huge m R lvl r i e : spaces m R lvl -> r ∈ R -> ent m r i = Some e -> pte_present e = true -> pte_huge e = false.
Proof. intros Hsp Hr He Hp. destruct (sp_top _ _ _ Hsp _ _ _ (sp_root _ _ _ Hsp _ Hr)) as (_&_&Htop). eauto. Qed.

Lemma pf_walk_run m R lvl va : spaces m R lvl -> cr3 m ∈ R -> pf_walk va m = Some (walk_result (find 3 m (cr3 m) va), m).
Proof.
  intros Hsp Hr. destruct (index_ix va) as (E3&E2&E1&E0). unfold pf_walk. rewrite E3, E2, E1, E0.
  pose proof (sp_root _ _ _ Hsp _ Hr) as Ht. rewrite <-(pre_3 va) in Ht.
  unfold mbind_ at 1. unfold pt_read_cr3, mgets. fold (virt (cr3 m)).
  walk_read m R lvl Hsp Ht 3%nat va e3 Hp3. pose proof (top_not_huge m R lvl _ _ _ Hsp Hr ltac:(eassumption) Hp3) as Hh3. rewrite Hh3.
  walk_next Hsp Ht e3 Hp3 Hh3. walk_read m R lvl Hsp Ht 2%nat va e2 Hp2. destruct (pte_huge e2) eqn:Hh2; [done|].
  walk_next Hsp Ht e2 Hp2 Hh2. walk_read m R lvl Hsp Ht 1%nat va e1 Hp1. by destruct (pte_huge e1).
Qed.

(** Both attempts end with: take a frame, fill it, point the entry at it. *)
Lemma remap_run m R lvl r va t i f p' ws v : spaces m R lvl -> r ∈ R -> find 3 m r va = Some (0%nat, t, i) ->
  fits (mm_pmm m) 1 f -> claims f 1 (mm_pmm m) p' -> pmm_inv p' -> length ws = 512%nat -> pte_addr v = f * PAGE_SIZE ->
  let m2 := Mm p' (<[f * PAGE_SIZE := ws]> (ram m)) (cr3 m) in
  tab_set (virt t) i v m2 = Some (tt, put m2 t i v) /\ spaces (put m2 t i v) R lvl /\ remapped m (put m2 t i v) R lvl r va v f ws.
Proof.
  intros Hsp Hr Hf Hfit Hcl Hinv Hl Hv m2. destruct (spaces_fresh m R lvl f p' ws Hsp Hfit Hcl Hinv Hl) as (Hsp2&Hview&Hent).
  fold m2 in Hsp2, Hview, Hent. destruct (find_root m R lvl Hsp r va 0 t i Hr Hf) as (_&_&o&Ho&_).
  assert (find 3 m2 r va = Some (0%nat, t, i)) as Hf2.
  { rewrite <-Hf. apply (find_ram m m2 R lvl Hsp Hent 3 r va r); [lia|]. rewrite pre_3. by apply (sp_root _ _ _ Hsp). }
  destruct (leaf_write m2 R lvl r va 0 t i v Hsp2 Hr Hf2 ltac:(by left)) as (_&Hset&Hsp3&Hup).
  destruct (used_alloc m R lvl f p' Hsp Hfit Hcl) as [Hn _].
  split_and!; [done..|]. split; try done.
  - cbn [put ram set_ram m2]. by rewrite lookup_alter_ne, lookup_insert_eq by congruence.
  - intros r' va' Hr' Hx. by rewrite (Hup r' va' Hr' Hx), (Hview r' va' Hr').
  - intros g Hg Hlg. cbn [put ram set_ram m2]. by rewrite lookup_alter_ne, lookup_insert_ne by congruence.
Qed.

Lemma has_lor x y f : has (Z.lor x y) f = has x f || has y f.
Proof.
  unfold has. rewrite Z.land_lor_distr_l. destruct (Z.eqb_spec (Z.land x f) 0) as [->|H1], (Z.eqb_spec (Z.land y f) 0) as [->|H2]; cbn [negb orb]; [done| | |];
  apply negb_true_iff, Z.eqb_neq; intros [? ?]%Z.lor_eq_0_iff; congruence.
Qed.
Lemma has_land x n f : has (Z.land x n) f = has x (Z.land n f).
Proof. unfold has. by rewrite Z.land_assoc. Qed.
Lemma has_0 x : has x 0 = false.
Proof. unfold has. by rewrite Z.land_0_r. Qed.

Lemma demand_flags_spec e : Z.land (demand_flags e) PTE_ADDR_MASK = 0 /\ has (demand_flags e) PTE_PRESENT = true /\
  has (demand_flags e) PTE_DEMAND = false.
Proof.
  unfold demand_flags. split_and!.
  - by rewrite Z.land_lor_distr_l, <-Z.land_assoc, Z.land_0_r.
  - rewrite has_lor. by apply orb_true_r.
  - rewrite has_lor, has_land. change (Z.land (not64 _) PTE_DEMAND) with 0. by rewrite has_0.
Qed.
Lemma cow_flags_spec e : Z.land (cow_flags e) PTE_ADDR_MASK = 0 /\ has (cow_flags e) PTE_WRITABLE = true /\
  has (cow_flags e) PTE_COW = false /\ has (cow_flags e) PTE_PRESENT = pte_present e.
Proof.
  unfold cow_flags, pte_flags, pte_present. split_and!.
  - rewrite <-Z.land_assoc. change (Z.land (not64 PTE_COW) PTE_ADDR_MASK) with PTE_ADDR_MASK.
    by rewrite Z.land_lor_distr_l, <-Z.land_assoc, Z.land_0_r.
  - rewrite has_land. change (Z.land (not64 PTE_COW) PTE_WRITABLE) with PTE_WRITABLE. rewrite has_lor. by apply orb_true_r.
  - rewrite has_land. change (Z.land (not64 PTE_COW) PTE_COW) with 0. apply has_0.
  - rewrite has_land. change (Z.land (not64 PTE_COW) PTE_PRESENT) with PTE_PRESENT. rewrite has_lor, has_land.
    change (Z.land (not64 PTE_ADDR_MASK) PTE_PRESENT) with PTE_PRESENT. by rewrite orb_false_r.
Qed.

Lemma alloc_run m R lvl : spaces m R lvl ->
  (on_pmm pmm_alloc_frame m = Some (0, m) /\ no_frame m) \/
  exists f p', on_pmm pmm_alloc_frame m = Some (f * PAGE_SIZE, Mm p' (ram m) (cr3 m)) /\ (f * PAGE_SIZE =? 0) = false /\
    0 <= f * PAGE_SIZE < 2 ^ 31 /\ fits (mm_pmm m) 1 f /\ claims f 1 (mm_pmm m) p' /\ pmm_inv p'.
Proof.
  intros Hsp. destruct (alloc_frame_spec (mm_pmm m) (sp_pmm _ _ _ Hsp) (sp_init _ _ _ Hsp)) as (x&p'&Ha&Hpost&Hinv).
  unfold on_pmm. rewrite Ha. destruct Hpost as [(->&->&Hno)|(a&->&Hfit&_&Hcl)]; [left; by destruct m|].
  pose proof Hfit as (?&?&_). pose proof (sp_window _ _ _ Hsp). right. exists a, p'. split_and!; try done; try (unfold PAGE_SIZE; lia).
Qed.

(** What an attempt makes of the memory when it applies. *)
Definition attempt_post (m : mm) R lvl va v ws (a : attempt) (m' : mm) : Prop :=
  a = Halt /\ no_frame m /\ m' = m \/
  a = Done /\ exists f, spaces m' R lvl /\ remapped m m' R lvl (cr3 m) va (pte_make (f * PAGE_SIZE) v) f ws.

Lemma try_demand_run m R lvl va : spaces m R lvl -> cr3 m ∈ R ->
  match slot m (cr3 m) va with
  | Some (O, e) => if has e PTE_DEMAND
      then exists a m', try_demand va m = Some (a, m') /\ attempt_post m R lvl va (demand_flags e) (replicate 512 0) a m'
      else try_demand va m = Some (Next, m)
  | Some _ => try_demand va m = Some (Halt, m)
  | None => try_demand va m = Some (Next, m)
  end.
Proof.
  intros Hsp Hr. unfold slot, try_demand. pose proof (pf_walk_run m R lvl va Hsp Hr) as Hw. mstep Hw.
  destruct (find 3 m (cr3 m) va) as [[[l t] i]|] eqn:Hf; [|done]. cbn [mbind option_bind].
  destruct (find_root m R lvl Hsp _ va l t i Hr Hf) as (->&_&o&Ho&_).
  destruct (tab_get_run m R lvl Hsp t _ (ix l va) Ho (ix_range l va)) as (e&He&Hg). rewrite He. cbn [mbind option_bind walk_result].
  destruct l as [|l]; [|done]. mstep Hg. destruct (has e PTE_DEMAND); cbn [negb]; [|done].
  destruct (alloc_run m R lvl Hsp) as [[Ha Hno]|(f&p'&Ha&Hz&Hrg&Hfit&Hcl&Hinv)]; mstep Ha.
  { exists Halt, m. split; [done|]. by left. }
  rewrite Hz. destruct (sp_ram _ _ _ Hsp f) as (ws&Hws&_); [destruct Hfit; lia|].
  pose proof (page_zero_at (Mm p' (ram m) (cr3 m)) _ ws Hrg Hws) as Hpz. unfold virt in Hpz. mstep Hpz.
  destruct (demand_flags_spec e) as [Hmask _]. pose proof (sp_window _ _ _ Hsp).
  destruct (remap_run m R lvl (cr3 m) va t (ix 0 va) f p' (replicate (Z.to_nat PT_ENTRIES) 0) (pte_make (f * PAGE_SIZE) (demand_flags e))
    Hsp Hr Hf Hfit Hcl Hinv eq_refl (pte_make_addr f _ ltac:(destruct Hfit; lia) Hmask)) as (Hset&Hsp'&Hrm).
  unfold set_ram. cbn [mm_pmm ram cr3]. mstep Hset. eexists Done, _. split; [done|]. right. eauto.
Qed.

Lemma page_copy_at m d s wd ws : 0 <= d < 2 ^ 31 -> 0 <= s < 2 ^ 31 -> ram m !! d = Some wd -> ram m !! s = Some ws ->
  page_copy (virt d) (virt s) m = Some (tt, set_ram (<[d := ws]> (ram m)) m).
Proof.
  intros Hd Hs Hwd Hws. unfold page_copy, mbind_, mget, mlift, mput. rewrite !virt_phys by (unfold in_w; lia). by rewrite Hws, Hwd.
Qed.
Lemma try_cow_run m R lvl va : spaces m R lvl -> cr3 m ∈ R ->
  match slot m (cr3 m) va with
  | Some (O, e) => if has e PTE_COW
      then forall f, pte_addr e = f * PAGE_SIZE -> 0 <= f < g_total_frames (mm_pmm m) ->
        exists a m' ws, ram m !! pte_addr e = Some ws /\ try_cow va m = Some (a, m') /\ attempt_post m R lvl va (cow_flags e) ws a m'
      else try_cow va m = Some (Next, m)
  | _ => try_cow va m = Some (Next, m)
  end.
Proof.
  intros Hsp Hr. unfold slot, try_cow. pose proof (pf_walk_run m R lvl va Hsp Hr) as Hw. mstep Hw.
  destruct (find 3 m (cr3 m) va) as [[[l t] i]|] eqn:Hf; [|done]. cbn [mbind option_bind].
  destruct (find_root m R lvl Hsp _ va l t i Hr Hf) as (->&_&o&Ho&_).
  destruct (tab_get_run m R lvl Hsp t _ (ix l va) Ho (ix_range l va)) as (e&He&Hg). rewrite He. cbn [mbind option_bind walk_result].
  destruct l as [|l]; [|done]. mstep Hg. destruct (has e PTE_COW); cbn [negb]; [|done]. intros g Hg1 Hg2.
  destruct (sp_ram _ _ _ Hsp g Hg2) as (wg&Hwg&Hlg). rewrite Hg1.
  destruct (alloc_run m R lvl Hsp) as [[Ha Hno]|(f&p'&Ha&Hz&Hrg&Hfit&Hcl&Hinv)]; mstep Ha.
  { exists Halt, m, wg. split_and!; [done..|]. by left. }
  rewrite Hz. destruct (sp_ram _ _ _ Hsp f) as (ws&Hws&_); [destruct Hfit; lia|]. pose proof (sp_window _ _ _ Hsp).
  pose proof (page_copy_at (Mm p' (ram m) (cr3 m)) _ (g * PAGE_SIZE) ws wg Hrg ltac:(unfold PAGE_SIZE; lia) Hws Hwg) as Hpc.
  unfold virt in Hpc. mstep Hpc. destruct (cow_flags_spec e) as [Hmask _].
  destruct (remap_run m R lvl (cr3 m) va t (ix 0 va) f p' wg (pte_make (f * PAGE_SIZE) (cow_flags e))
    Hsp Hr Hf Hfit Hcl Hinv Hlg (pte_make_addr f _ ltac:(destruct Hfit; lia) Hmask)) as (Hset&Hsp'&Hrm).
  unfold set_ram. cbn [mm_pmm ram cr3]. mstep Hset. eexists Done, _, wg. split_and!; [done..|]. right. eauto.
Qed.

(** ** The handler on every fault *)

Definition page_of (va : Z) : Z := Z.land va (not64 0xFFF).

(** How the handler ends when a fault calls for a new frame. *)
Definition fault_post (s : faults) R lvl va v ws (res : pf_result) (m' : mm) : Prop :=
  res = Panic /\ no_frame (pf_mm s) /\ m' = pf_mm s \/
  res = Resolved /\ exists f, remapped (pf_mm s) m' R lvl (cr3 (pf_mm s)) va (pte_make (f * PAGE_SIZE) v) f ws.

Lemma attempt_fault s R lvl va v ws a m' : spaces (pf_mm s) R lvl -> attempt_post (pf_mm s) R lvl va v ws a m' ->
  a <> Next /\ spaces m' R lvl /\ fault_post s R lvl va v ws (match a with Done => Resolved | _ => Panic end) m'.
Proof.
  intros Hsp [(->&Hno&->)|(->&f&Hsp'&Hrm)]; (split_and!; [done..|]); [left|right]; eauto.
Qed.

Definition demand_ok (cur : option task) (err page : Z) : bool :=
  negb (Z.testbit err 0) && (va_is_kernel page || va_is_user page) && valid_demand cur page.

Lemma handler_run s err cr2 a m1 b m2 : 0 <= g_pf_depth s < PF_MAX_DEPTH ->
  (if demand_ok (pf_task s) err (page_of cr2) then try_demand (page_of cr2) (pf_mm s) else Some (Next, pf_mm s)) = Some (a, m1) ->
  match a with
  | Next => (if Z.testbit err 1 && va_is_user (page_of cr2) then try_cow (page_of cr2) m1 else Some (Next, m1)) = Some (b, m2)
  | _ => b = a /\ m2 = m1
  end ->
  handler_pf err cr2 s = Some (match b with Done => Resolved | _ => Panic end, Faults (g_pf_depth s) (pf_task s) m2).
Proof.
  intros Hd H1 H2. unfold handler_pf. fold (page_of cr2). unfold mbind_ at 1. unfold add_depth at 1. unfold mmodify.
  unfold mbind_ at 1. unfold mget at 1. cbn [g_pf_depth pf_task pf_mm]. rewrite (proj2 (Z.ltb_ge _ _)) by lia.
  fold (demand_ok (pf_task s) err (page_of cr2)).
  assert (forall m, (add_depth (-1) ;;; return (match b with Done => Resolved | _ => Panic end)) (Faults (g_pf_depth s + 1) (pf_task s) m) =
    Some (match b with Done => Resolved | _ => Panic end, Faults (g_pf_depth s) (pf_task s) m)) as Hend.
  { intros m. unfold mbind_, add_depth, mmodify, mret. cbn [g_pf_depth pf_task pf_mm]. do 3 f_equal. lia. }
  set (s1 := Faults (g_pf_depth s + 1) (pf_task s) (pf_mm s)).
  assert ((if demand_ok (pf_task s) err (page_of cr2) then on_fault_mm (try_demand (page_of cr2)) else return Next) s1 =
    Some (a, Faults (g_pf_depth s + 1) (pf_task s) m1)) as Ha.
  { destruct (demand_ok _ _ _); [unfold on_fault_mm; cbn [pf_mm s1]; by rewrite H1|by injection H1 as <- <-]. }
  mstep Ha. destruct a; [destruct H2 as [-> ->]; apply Hend..|].
  assert ((if Z.testbit err 1 && va_is_user (page_of cr2) then on_fault_mm (try_cow (page_of cr2)) else return Next)
    (Faults (g_pf_depth s + 1) (pf_task s) m1) = Some (b, Faults (g_pf_depth s + 1) (pf_task s) m2)) as Hb.
  { destruct (_ && _); [unfold on_fault_mm; cbn [pf_mm]; by rewrite H2|by injection H2 as <- <-]. }
  mstep Hb. apply Hend.
Qed.

(** C13: what the page-fault handler does on every fault, below the recursion limit, in a
    machine with any number of address spaces.  It never faults itself, restores its
    depth counter and keeps the page-table trees; and as the current space's entry
    for the page and the error code call for ([fault_action]),
    - a demand-paged page is mapped to a frame that was free and is now zero, with its
      flags kept, present and no longer marked as demand-paged;
    - a copy-on-write page is mapped to a frame that was free and now holds a copy of
      the old one, writable and no longer marked as copy-on-write;
    in both cases no other translation and no other frame changes, and the kernel
    panics only when no frame is free;
    - any other fault is a panic that changes nothing. *)
Theorem handler_pf_exact s R lvl err cr2 : spaces (pf_mm s) R lvl -> cr3 (pf_mm s) ∈ R -> 0 <= g_pf_depth s < PF_MAX_DEPTH ->
  (forall l e, slot (pf_mm s) (cr3 (pf_mm s)) (page_of cr2) = Some (l, e) -> has e PTE_COW = true ->
     exists f, pte_addr e = f * PAGE_SIZE /\ 0 <= f < g_total_frames (mm_pmm (pf_mm s))) ->
  exists res m', handler_pf err cr2 s = Some (res, Faults (g_pf_depth s) (pf_task s) m') /\ spaces m' R lvl /\
  match fault_action (pf_task s) err (page_of cr2) (slot (pf_mm s) (cr3 (pf_mm s)) (page_of cr2)) with
  | AZero e => exists v, fault_post s R lvl (page_of cr2) v (replicate 512 0) res m' /\
      v = demand_flags e /\ has v PTE_PRESENT = true /\ has v PTE_DEMAND = false
  | ACopy e => exists v ws, ram (pf_mm s) !! pte_addr e = Some ws /\ fault_post s R lvl (page_of cr2) v ws res m' /\
      v = cow_flags e /\ has v PTE_WRITABLE = true /\ has v PTE_COW = false /\ has v PTE_PRESENT = pte_present e
  | AFail => res = Panic /\ m' = pf_mm s
  end.
Proof.
  intros Hsp Hr Hd Hcow. set (page := page_of cr2) in *.
  pose proof (try_demand_run _ R lvl page Hsp Hr) as Htd. pose proof (try_cow_run _ R lvl page Hsp Hr) as Htc.
  pose proof (fun a m1 b m2 => handler_run s err cr2 a m1 b m2 Hd) as Hrun. fold page in Hrun.
  assert (forall b, handler_pf err cr2 s = Some (match b with Done => Resolved | _ => Panic end, Faults (g_pf_depth s) (pf_task s) (pf_mm s)) -> b <> Done ->
    exists res m', handler_pf err cr2 s = Some (res, Faults (g_pf_depth s) (pf_task s) m') /\ spaces m' R lvl /\ res = Panic /\ m' = pf_mm s) as Hfail
    by (intros [] E ?; [done|eauto 6..]).
  destruct (slot (pf_mm s) (cr3 (pf_mm s)) page) as [[[|l] e]|] eqn:Hs; cbn [fault_action]; fold (demand_ok (pf_task s) err page).
  - specialize (Hcow _ _ eq_refl). destruct (demand_ok (pf_task s) err page) eqn:Hok; [destruct (has e PTE_DEMAND) eqn:He|]; cbn [andb].
    { destruct Htd as (a&m1&Ha&Hpost). destruct (attempt_fault s R lvl _ _ _ _ _ Hsp Hpost) as (Hn&Hsp'&Hfp).
      exists (match a with Done => Resolved | _ => Panic end), m1. rewrite (Hrun a m1 a m1 Ha) by (by destruct a). split_and!; [done..|]. destruct (demand_flags_spec e) as (_&?&?). eauto 6. }
    all: rewrite ?Hok in Hrun; destruct (Z.testbit err 1 && va_is_user page) eqn:Hw; [destruct (has e PTE_COW) eqn:Hc|]; cbn [andb];
      try (apply (Hfail Next); [apply (Hrun Next (pf_mm s) Next); done|done]).
    all: destruct (Hcow eq_refl) as (f&Hf1&Hf2); destruct (Htc f Hf1 Hf2) as (b&m2&ws&Hws&Hb&Hpost);
      destruct (attempt_fault s R lvl _ _ _ _ _ Hsp Hpost) as (Hn&Hsp'&Hfp); destruct (cow_flags_spec e) as (_&?&?&?);
      exists (match b with Done => Resolved | _ => Panic end), m2; rewrite (Hrun Next (pf_mm s) b m2) by done; split_and!; [done..|]; eauto 10.
  - destruct (demand_ok (pf_task s) err page) eqn:Hok.
    + apply (Hfail Halt); [by apply (Hrun Halt (pf_mm s) Halt)|done].
    + apply (Hfail Next); [apply (Hrun Next (pf_mm s) Next); [done|by destruct (_ && _)]|done].
  - apply (Hfail Next); [apply (Hrun Next (pf_mm s) Next); by destruct (demand_ok _ _ _), (_ && _)|done].
Qed.
