(* ===== verification/UserMem.v ===== *)
(** * User memory: pointer validation, brk, mmap and munmap (src/kernel/syscall.c)

    The system calls that work on the address space of the current task, and the
    checks every system call makes on user pointers.  The arguments are the register
    values of the system-call frame; the state holds [task_get_current()], the
    address-space structures behind the tasks' pointers and the memory manager. *)

From stdpp Require Import base numbers gmap list options.
From S2P Require Import Prelude Task Pmm PageTable Vmm.

Record usermem := UserMem { um_cur : option task; um_as : gmap nat address_space; um_vmm : vmm }.

Definition on_vmm {A} (c : M vmm A) : M usermem A :=
  fun s => match c (um_vmm s) with Some (a, v) => Some (a, UserMem (um_cur s) (um_as s) v) | None => None end.
Definition set_cur (t : task) : M usermem unit := mmodify (fun s => UserMem (Some t) (um_as s) (um_vmm s)).

(** [t->address_space], followed. *)
Definition aspace_of (t : task) : M usermem (option address_space) :=
  match t_address_space t with
  | None => return None
  | Some p => s <~ mget ;; a <~ mlift (um_as s !! p) ;; return (Some a)
  end.

(** ** Validation *)

Definition get_pte_flags (vaddr : Z) : M usermem Z :=
  s <~ mget ;;
  match um_cur s with
  | None => return 0
  | Some cur =>
    as_ <~ aspace_of cur ;;
    match as_ with
    | None => return 0
    | Some a => on_vmm (on_mm (
      pml4e <~ tab_get (pml4 a) (PML4_INDEX vaddr) ;;
      if negb (pte_present pml4e) then return 0 else
      pdpe <~ tab_get (pt_phys_to_virt (pte_addr pml4e)) (PDPT_INDEX vaddr) ;;
      if negb (pte_present pdpe) then return 0 else
      if pte_huge pdpe then return pdpe else
      pde <~ tab_get (pt_phys_to_virt (pte_addr pdpe)) (PD_INDEX vaddr) ;;
      if negb (pte_present pde) then return 0 else
      if pte_huge pde then return pde else
      tab_get (pt_phys_to_virt (pte_addr pde)) (PT_INDEX vaddr)))
    end
  end.

Definition user_page (pte : Z) : bool := pte_present pte && has pte PTE_USER.

(** The page loop of [validate_user_pointer]; [n] bounds the number of pages. *)
Fixpoint check_pages (n : nat) (addr end_ : Z) : M usermem Z :=
  if addr <? end_ then
    match n with
    | O => mfault
    | S n' =>
      pte <~ get_pte_flags addr ;;
      if negb (user_page pte) then return 0 else check_pages n' (u64 (addr + PAGE_SIZE)) end_
    end
  else return 1.
Definition validate_user_pointer (ptr size : Z) : M usermem Z :=
  if ptr <? 0x1000 then return 0 else
  if size =? 0 then return 0 else
  if u64 (ptr + size) <? ptr then return 0 else
  let end_ := u64 (ptr + size) in
  if 0x00007FFFFFFFFFFF <? end_ then return 0 else
  let addr := Z.land ptr (not64 (PAGE_SIZE - 1)) in
  check_pages (Z.to_nat ((end_ - addr) / PAGE_SIZE + 1)) addr end_.

(** A byte read by the CPU through the active page tables. *)
Definition mmu_byte (va : Z) : M usermem Z :=
  s <~ mget ;;
  let root := cr3 (v_mm (um_vmm s)) in
  pa <~ on_vmm (vmm_translate (Some (ASpace (pt_phys_to_virt root) root false)) va) ;;
  if pa =? 0 then mfault else
  ws <~ mlift (ram (v_mm (um_vmm s)) !! (pa - pa mod PAGE_SIZE)) ;;
  w <~ mlift (zget ws (pa mod PAGE_SIZE / 8)) ;;
  return (Z.shiftr w (8 * (pa mod 8)) mod 256).

Fixpoint string_loop (n : nat) (addr i : Z) : M usermem Z :=
  match n with
  | O => return (-1)
  | S n' =>
    let page := Z.land (u64 (addr + i)) (not64 (PAGE_SIZE - 1)) in
    ok <~ (if (i =? 0) || negb (page =? Z.land (u64 (addr + i - 1)) (not64 (PAGE_SIZE - 1)))
           then pte <~ get_pte_flags page ;; return (user_page pte) else return true) ;;
    if negb ok then return (-1) else
    c <~ mmu_byte (u64 (addr + i)) ;;
    if c =? 0 then return i else string_loop n' addr (i + 1)
  end.
Definition validate_user_string (str max_len : Z) : M usermem Z :=
  if str <? 0x1000 then return (-1) else string_loop (Z.to_nat max_len) str 0.

(** ** brk, mmap, munmap *)

(** [~(PAGE_SIZE - 1)] for the 32-bit constant [PAGE_SIZE = 4096U], extended to 64 bits
    by the [&] it is used in. *)
Definition PAGE_MASK32 : Z := Z.lxor (PAGE_SIZE - 1) (2 ^ 32 - 1).
Definition page_up (x : Z) : Z := Z.land (u64 (x + PAGE_SIZE - 1)) PAGE_MASK32.

(** The mapping loop of [sys_brk] and [sys_mmap]: [false] when a page fails. *)
Fixpoint demand_loop (n : nat) (as_ : option address_space) (va end_ flags : Z) : M usermem bool :=
  if va <? end_ then
    match n with
    | O => mfault
    | S n' =>
      st <~ on_vmm (vmm_map_demand_page as_ va flags) ;;
      if negb (bool_decide (st = VMM_OK)) && negb (bool_decide (st = VMM_ERR_ALREADY_MAP)) then return false
      else demand_loop n' as_ (u64 (va + PAGE_SIZE)) end_ flags
    end
  else return true.

(** The unmapping loop of [sys_brk], run for [n] iterations: [false] when it has not
    ended by then. *)
Fixpoint shrink_loop (n : nat) (as_ : option address_space) (va end_ : Z) : M usermem bool :=
  if end_ <=? va then
    match n with
    | O => return false
    | S n' => on_vmm (vmm_unmap_and_free as_ va) ;;; shrink_loop n' as_ (u64 (va - PAGE_SIZE)) end_
    end
  else return true.

(** [None]: not returned after [fuel] iterations of the unmapping loop. *)
Definition sys_brk (fuel : nat) (new_brk : Z) : M usermem (option Z) :=
  s <~ mget ;;
  match um_cur s with
  | None => return (Some (-1))
  | Some cur =>
    if new_brk =? 0 then return (Some (t_user_heap_brk cur)) else
    if 0x800000000000 <=? new_brk then return (Some (-1)) else
    if t_user_heap_start cur =? 0 then
      set_cur (set_user_heap (Z.land new_brk PAGE_MASK32) new_brk cur) ;;; return (Some new_brk) else
    if new_brk <? t_user_heap_start cur then return (Some (-1)) else
    let old_brk := t_user_heap_brk cur in
    let new_brk_page := page_up new_brk in
    let old_brk_page := page_up old_brk in
    as_ <~ aspace_of cur ;;
    ok <~ (if old_brk_page <? new_brk_page then
             r <~ demand_loop (Z.to_nat ((new_brk_page - old_brk_page) / PAGE_SIZE)) as_ old_brk_page new_brk_page
                    (Z.lor PTE_WRITABLE PTE_USER) ;;
             return (Some r)
           else if new_brk_page <? old_brk_page then
             r <~ shrink_loop fuel as_ (u64 (old_brk_page - PAGE_SIZE)) new_brk_page ;;
             return (if r : bool then Some true else None)
           else return (Some true)) ;;
    match ok with
    | None => return None
    | Some false => return (Some (-1))
    | Some true => set_cur (set_user_heap (t_user_heap_start cur) new_brk cur) ;;; return (Some new_brk)
    end
  end.

Definition ELF_MAX_LOAD_SIZE : Z := 256 * 1024 * 1024.

Definition mmap_flags (prot : Z) : Z :=
  let f := PTE_USER in
  let f := if Z.testbit prot 0 then Z.lor f PTE_PRESENT else f in
  let f := if Z.testbit prot 1 then Z.lor f PTE_WRITABLE else f in
  if negb (Z.testbit prot 2) then Z.lor f PTE_NX else f.

Definition sys_mmap (addr length prot : Z) : M usermem Z :=
  s <~ mget ;;
  match um_cur s with
  | None => return (-1)
  | Some cur =>
    if (length =? 0) || (ELF_MAX_LOAD_SIZE <? length) then return (-1) else
    let pages := u64 (length + PAGE_SIZE - 1) / PAGE_SIZE in
    let total := u64 (pages * PAGE_SIZE) in
    let mmap_base := page_up (u64 (t_user_heap_brk cur + 16 * 1024 * 1024)) in
    let mmap_base := if negb (addr =? 0) && (t_user_heap_start cur <=? addr) then Z.land addr PAGE_MASK32 else mmap_base in
    as_ <~ aspace_of cur ;;
    ok <~ demand_loop (Z.to_nat pages) as_ mmap_base (u64 (mmap_base + total)) (mmap_flags prot) ;;
    return (if ok : bool then mmap_base else -1)
  end.

Fixpoint munmap_loop (n : nat) (as_ : option address_space) (va end_ : Z) : M usermem unit :=
  if va <? end_ then
    match n with
    | O => mfault
    | S n' => on_vmm (vmm_unmap_page as_ va) ;;; munmap_loop n' as_ (u64 (va + PAGE_SIZE)) end_
    end
  else return tt.
Definition sys_munmap (addr length : Z) : M usermem Z :=
  s <~ mget ;;
  match um_cur s with
  | None => return (-1)
  | Some cur =>
    if (addr =? 0) || (length =? 0) then return (-1) else
    let addr := Z.land addr PAGE_MASK32 in
    let pages := u64 (length + PAGE_SIZE - 1) / PAGE_SIZE in
    let total := u64 (pages * PAGE_SIZE) in
    as_ <~ aspace_of cur ;;
    munmap_loop (Z.to_nat pages) as_ addr (u64 (addr + total)) ;;; return 0
  end.
