(* ===== verification/UserMemSpec.v ===== *)
(** * Properties of the user-memory system calls (the theorems on UserMem.v)

    Pointer validation accepts a range exactly when every byte of it is mapped for the
    user; growing the heap reserves exactly the new pages, and the page-fault handler
    later backs each of them with a zeroed frame; some breaks make the call loop for
    ever; what mmap reserves is never backed. *)

From stdpp Require Import base numbers gmap list options.
From S2P Require Import Prelude Task Pmm PageTable Vmm VmmSpec PageFault UserMem.

(** [lia] with division and remainder. *)
Ltac dlia := unfold PAGE_SIZE in *; Z.div_mod_to_equations; lia.

(** The current task [t] has the address space [a] with root [r]. *)
Record um_ok (s : usermem) (R : gset Z) (lvl : gmap Z (nat * Z * Z)) (t : task) (a : address_space) (r : Z) : Prop := {
  uo_cur : um_cur s = Some t;
  uo_as : exists p, t_address_space t = Some p /\ um_as s !! p = Some a;
  uo_vm : vm_ok (um_vmm s) R lvl;
  uo_root : at_root a r R
}.
Notation um_mem s := (v_mm (um_vmm s)).

Lemma on_vmm_run {A} (c : M vmm A) s x v : c (um_vmm s) = Some (x, v) -> on_vmm c s = Some (x, UserMem (um_cur s) (um_as s) v).
Proof. intros E. unfold on_vmm. by rewrite E. Qed.
Lemma aspace_run s R lvl t a r : um_ok s R lvl t a r -> aspace_of t s = Some (Some a, s).
Proof.
  intros [_ (p&Hp&Ha) _ _]. unfold aspace_of. rewrite Hp. unfold mbind_, mget, mlift. by rewrite Ha.
Qed.

(** ** Entries selected by a test *)

Lemma view_of_slot q m r va l e : view_of q 3 m r va = Some (l, e) <-> slot m r va = Some (l, e) /\ q e = true.
Proof.
  unfold view_of, slot. destruct (find 3 m r va) as [[[l' t] i]|]; cbn [mbind option_bind]; [|split; [intros E; discriminate E|intros [E _]; discriminate E]].
  destruct (ent m t i) as [e'|]; cbn [mbind option_bind]; [|split; [intros E; discriminate E|intros [E _]; discriminate E]].
  destruct (q e') eqn:E; (split; [intros H|intros [H Hq]]; first [discriminate H|injection H as <- <-; first [done|congruence]]).
Qed.
Lemma pview_slot m r va l e : pview m r va = Some (l, e) <-> slot m r va = Some (l, e) /\ pte_present e = true.
Proof. apply view_of_slot. Qed.

(** ** Validation *)

Lemma get_pte_flags_run s R lvl t a r va : um_ok s R lvl t a r ->
  get_pte_flags va s = Some (match slot (um_mem s) r va with Some (_, e) => e | None => 0 end, s).
Proof.
  intros Hok. unfold get_pte_flags. unfold mbind_ at 1. unfold mget at 1. rewrite (uo_cur _ _ _ _ _ _ Hok).
  pose proof (aspace_run _ _ _ _ _ _ Hok) as Ha. mstep Ha. destruct Hok as [_ _ [_ Hsp] (Hp&_&Hr)].
  set (x := match slot _ _ _ with Some _ => _ | None => _ end). set (c := mbind_ _ _).
  assert (c (v_mm (um_vmm s)) = Some (x, v_mm (um_vmm s))) as Hc.
  2: { apply on_mm_run in Hc. apply on_vmm_run in Hc. rewrite Hc. by destruct s as [? ? []]. }
  unfold c, x. rewrite Hp. clear c x.
  destruct (index_ix va) as (E3&E2&E1&E0). rewrite E3, E2, E1, E0. unfold slot. set (m := v_mm (um_vmm s)) in *.
  pose proof (sp_root _ _ _ Hsp _ Hr) as Ht. rewrite <-(pre_3 va) in Ht.
  walk_read m R lvl Hsp Ht 3%nat va e3 Hp3. pose proof (top_not_huge m R lvl _ _ _ Hsp Hr ltac:(eassumption) Hp3) as Hh3. rewrite Hh3.
  walk_next Hsp Ht e3 Hp3 Hh3. walk_read m R lvl Hsp Ht 2%nat va e2 Hp2.
  destruct (pte_huge e2) eqn:Hh2; cbn [Nat.eqb mbind option_bind]; [by simplify_option_eq|].
  walk_next Hsp Ht e2 Hp2 Hh2. walk_read m R lvl Hsp Ht 1%nat va e1 Hp1.
  destruct (pte_huge e1) eqn:Hh1; cbn [Nat.eqb mbind option_bind]; [by simplify_option_eq|]. walk_next Hsp Ht e1 Hp1 Hh1.
  destruct (tab_get_run m R lvl Hsp _ _ (ix 0 va) Ht (ix_range 0 va)) as (e0&Hx&Hrd). by rewrite Hrd, Hx.
Qed.

Definition user_at (m : mm) (r va : Z) : Prop := exists l e, pview m r va = Some (l, e) /\ has e PTE_USER = true.

Lemma user_page_slot m r va : user_page (match slot m r va with Some (_, e) => e | None => 0 end) = true <-> user_at m r va.
Proof.
  unfold user_at, user_page. setoid_rewrite pview_slot. destruct (slot m r va) as [[l e]|].
  - rewrite andb_true_iff. split; [intros [? ?]; exists l, e; done|intros (?&?&([= <- <-]&?)&?); done].
  - split; [done|intros (?&?&(?&_)&_); done].
Qed.
Lemma user_at_page m r va va' : va / PAGE_SIZE = va' / PAGE_SIZE -> user_at m r va <-> user_at m r va'.
Proof.
  intros E. unfold user_at. rewrite (pview_page m r va va'); [done|]. unfold span, vpn. by rewrite <-(f_equal (fun z => z mod _) E).
Qed.

Lemma check_pages_run s R lvl t a r end_ : um_ok s R lvl t a r -> end_ < 2 ^ 63 -> forall n addr,
  0 <= addr -> addr mod PAGE_SIZE = 0 -> end_ <= addr + Z.of_nat n * PAGE_SIZE ->
  exists b, check_pages n addr end_ s = Some (Z.b2z b, s) /\ (b = true <-> forall va, addr <= va < end_ -> user_at (um_mem s) r va).
Proof.
  intros Hok Hend. assert (PAGE_SIZE = 4096) as HP by done. induction n as [|n IH]; intros addr H0 Hal Hn; simpl; destruct (Z.ltb_spec addr end_).
  1: lia. 1, 3: exists true; split; [done|]; split; [intros _ va ?; lia|done].
  pose proof (get_pte_flags_run s R lvl t a r addr Hok) as Hg. mstep Hg.
  destruct (user_page _) eqn:Hu; cbn [negb].
  - apply user_page_slot in Hu. replace (u64 (addr + PAGE_SIZE)) with (addr + PAGE_SIZE) by (unwrap; rewrite wrap_small by (unfold in_w; lia); done).
    destruct (IH (addr + PAGE_SIZE) ltac:(lia)) as (b&Hb&Hiff); [dlia|dlia|]. exists b. split; [done|]. rewrite Hiff. split.
    + intros Hall va Hva. destruct (decide (va < addr + PAGE_SIZE)); [|apply Hall; lia].
      apply (user_at_page _ _ addr); [dlia|done].
    + intros Hall va Hva. apply Hall. lia.
  - exists false. split; [done|]. split; [done|]. intros Hall. specialize (Hall addr ltac:(lia)).
    apply user_page_slot in Hall. congruence.
Qed.

Lemma clear_low w x : 12 <= w -> in_w w x -> Z.land x (Z.lxor (PAGE_SIZE - 1) (Z.ones w)) = x - x mod PAGE_SIZE.
Proof. intros. by apply (clear_low_bits w 12); [lia|]. Qed.
Lemma page_down x : 0 <= x -> x < 2 ^ 64 -> Z.land x (not64 (PAGE_SIZE - 1)) = x - x mod PAGE_SIZE.
Proof. intros. apply (clear_low 64); [lia|unfold in_w; lia]. Qed.

(** C15: [validate_user_pointer] always returns, and accepts a range exactly when it is
    not empty, lies between 0x1000 and the end of the user half, and every byte of it
    is mapped, present and accessible to the user, in the current address space; it
    changes nothing. *)
Theorem validate_user_pointer_exact s R lvl t a r ptr size : um_ok s R lvl t a r -> 0 <= ptr < 2 ^ 64 -> 0 <= size < 2 ^ 64 ->
  exists b, validate_user_pointer ptr size s = Some (Z.b2z b, s) /\
  (b = true <-> 0x1000 <= ptr /\ 0 < size /\ ptr + size <= 0x00007FFFFFFFFFFF /\
     forall va, ptr <= va < ptr + size -> user_at (um_mem s) r va).
Proof.
  intros Hok Hp Hs. unfold validate_user_pointer. assert (forall P : Prop, (P -> False) -> exists b, (return 0) s = Some (Z.b2z b, s) /\ (b = true <-> P)) as Hno
    by (intros P HP; exists false; split; [done|]; split; [done|by intros ?%HP]).
  destruct (Z.ltb_spec ptr 0x1000); [apply Hno; lia|]. destruct (Z.eqb_spec size 0); [apply Hno; lia|].
  destruct (decide (ptr + size < 2 ^ 64)) as [Hw|Hw].
  2: { destruct (Z.ltb_spec (u64 (ptr + size)) ptr) as [_|Hge]; [apply Hno; lia|]. exfalso. revert Hge. unwrap. unfold wrap.
       rewrite (Z.mod_eq _ (2 ^ 64)) by lia. assert ((ptr + size) / 2 ^ 64 = 1) as -> by (symmetry; apply (Z.div_unique _ _ _ (ptr + size - 2 ^ 64)); lia). lia. }
  replace (u64 (ptr + size)) with (ptr + size) by (unwrap; rewrite wrap_small by (unfold in_w; lia); done).
  rewrite (proj2 (Z.ltb_ge (ptr + size) ptr)) by lia. destruct (Z.ltb_spec 0x00007FFFFFFFFFFF (ptr + size)); [apply Hno; lia|].
  rewrite page_down by lia. assert (PAGE_SIZE = 4096) as HP by done.
  destruct (check_pages_run s R lvl t a r (ptr + size) Hok ltac:(lia) (Z.to_nat ((ptr + size - (ptr - ptr mod PAGE_SIZE)) / PAGE_SIZE + 1)) (ptr - ptr mod PAGE_SIZE))
    as (b&Hb&Hiff); [dlia..|]. exists b. split; [done|]. rewrite Hiff. split.
  - intros Hall. split_and!; [lia..|]. intros va Hva. apply Hall. dlia.
  - intros (_&_&_&Hall) va Hva. destruct (decide (ptr <= va)); [apply Hall; lia|].
    apply (user_at_page _ _ ptr); [dlia|]. apply Hall. lia.
Qed.

(** ** Reserved pages: present or demand-paged entries *)

Definition held (e : Z) : bool := has e (Z.lor PTE_PRESENT PTE_DEMAND).
Definition rview (m : mm) (r va : Z) : option (nat * Z) := view_of held 3 m r va.
(** The entry of a page that is reserved but has no frame. *)
Definition lazy_pte (flags : Z) : Z := Z.land (Z.lor (Z.land flags (not64 PTE_ADDR_MASK)) PTE_DEMAND) (not64 PTE_PRESENT).

Lemma lazy_facts flags : pte_present (lazy_pte flags) = false /\ held (lazy_pte flags) = true /\ has (lazy_pte flags) PTE_DEMAND = true.
Proof.
  unfold lazy_pte, held, pte_present. rewrite !has_land. change (Z.land (not64 PTE_PRESENT) PTE_PRESENT) with 0.
  change (Z.land (not64 PTE_PRESENT) PTE_DEMAND) with PTE_DEMAND. change (Z.land (not64 PTE_PRESENT) (Z.lor PTE_PRESENT PTE_DEMAND)) with PTE_DEMAND.
  rewrite has_0, !has_lor. change (has PTE_DEMAND PTE_DEMAND) with true. by rewrite orb_true_r.
Qed.

Lemma held_present e : held e = false -> pte_present e = false.
Proof.
  unfold held, pte_present, has. rewrite Z.land_lor_distr_r. intros [E _]%negb_false_iff%Z.eqb_eq%Z.lor_eq_0_iff. by rewrite E.
Qed.

(** Writing a last-level entry leaves every search where it was. *)
Lemma find_put m R lvl t i v p o : spaces m R lvl -> lvl !! t = Some (0%nat, p, o) -> is_Some (ent m t i) ->
  forall l t0 va o0, (l <= 3)%nat -> lvl !! t0 = Some (l, pre l va, o0) -> find l (put m t i v) t0 va = find l m t0 va.
Proof.
  intros Hsp Ht Hs. induction l as [|l IH]; intros t0 va o0 Hl Ht0; simpl; [done|].
  rewrite ent_put, decide_False by (done || intros [-> _]; rewrite Ht in Ht0; done).
  destruct (ent m t0 (ix (S l) va)) as [e|] eqn:He; [|done]. cbn [mbind option_bind].
  destruct (pte_present e) eqn:Hp; [|done]. destruct (pte_huge e) eqn:Hh; cbn [negb]; [done|].
  pose proof (sp_child _ _ _ Hsp _ _ _ _ _ _ Ht0 He Hp Hh) as Hc. rewrite pre_ix in Hc by lia. apply (IH _ _ _ ltac:(lia) Hc).
Qed.
Lemma entry_write q m R lvl r va t i v : spaces m R lvl -> r ∈ R -> find 3 m r va = Some (0%nat, t, i) ->
  forall r' va', r' ∈ R -> ix 3 va < 256 -> view_of q 3 (put m t i v) r' va' =
    if decide (r' = r /\ span 0 va' = span 0 va) then (if q v then Some (0%nat, v) else None) else view_of q 3 m r' va'.
Proof.
  intros Hsp Hr Hf r' va' Hr' Hu. destruct (find_root m R lvl Hsp r va 0 t i Hr Hf) as (->&_&o&Ho&_).
  destruct (table_ent m R lvl Hsp t _ _ Ho (ix_range 0 va)) as (e&He). assert (is_Some (ent m t (ix 0 va))) as Hs by eauto.
  pose proof (sp_root _ _ _ Hsp r' Hr') as Ht. rewrite <-(pre_3 va') in Ht. unfold view_of.
  rewrite (find_put m R lvl t _ v _ o Hsp Ho Hs 3 r' va' r' ltac:(lia) Ht).
  destruct (decide (r' = r /\ span 0 va' = span 0 va)) as [[-> E]|Hne].
  - rewrite (find_span 3 m r va va' 0 t (ix 0 va)) by done. cbn [mbind option_bind]. rewrite ent_put, decide_True by done. done.
  - destruct (find 3 m r' va') as [[[l' t'] i']|] eqn:Hf'; [|done]. cbn [mbind option_bind]. rewrite ent_put by done.
    rewrite decide_False; [done|]. intros [-> ->]. apply Hne.
    destruct (find_inj m R lvl Hsp r r' va va' 0 l' t _ Hr Hr' Hf Hf') as (_&E&Eq). rewrite !slot_span in E by lia. naive_solver.
Qed.
Lemma user_ix va : 0 <= va < 2 ^ 47 -> ix 3 va < 256.
Proof. intros H. unfold ix. change (12 + 9 * Z.of_nat 3) with 39. rewrite Z.mod_small; Z.div_mod_to_equations; lia. Qed.

Definition same_reserved (m m' : mm) (R : gset Z) : Prop := forall r va, r ∈ R -> rview m' r va = rview m r va.

Lemma demand_run s R lvl a r va flags : vm_ok s R lvl -> at_root a r R -> validate_vaddr va = VMM_OK -> 0 <= va < 2 ^ 47 ->
  exists st s' lvl', vmm_map_demand_page (Some a) va flags s = Some (st, s') /\ vm_ok s' R lvl' /\ same_views (v_mm s) (v_mm s') R /\
  match st with
  | VMM_OK => rview (v_mm s) r va = None /\ forall r' va', r' ∈ R -> rview (v_mm s') r' va' =
      if decide (r' = r /\ span 0 va' = span 0 va) then Some (0%nat, lazy_pte flags) else rview (v_mm s) r' va'
  | VMM_ERR_ALREADY_MAP => rview (v_mm s) r va <> None /\ same_reserved (v_mm s) (v_mm s') R
  | VMM_ERR_NO_MEM => no_frame (v_mm s') /\ same_reserved (v_mm s) (v_mm s') R
  | _ => False
  end.
Proof.
  intros Hok Ha Hva Hu. unfold vmm_map_demand_page. rewrite (checked_run s R lvl a r) by (done || by repeat constructor).
  destruct (map_walk s R lvl a r va flags Hok Ha) as (p&m'&lvl'&Hw&Hsp'&Hv&Hq&Hp). mstep Hw. pose proof Ha as (_&_&Hr).
  assert (same_reserved (v_mm s) m' R) as Hres by (intros r' va' Hr'; by apply (Hq held)).
  assert (vm_ok (with_mm s m') R lvl') as Hok' by (split; [apply Hok|done]).
  destruct p as [[tv i]|]; [|destruct Hp; exists VMM_ERR_NO_MEM, (with_mm s m'), lvl'; done]. destruct Hp as (l&t&->&Hf).
  destruct (find_root m' R lvl' Hsp' r va l t i Hr Hf) as (->&_&o&Ho&_).
  destruct (tab_get_run m' R lvl' Hsp' t _ _ Ho (ix_range l va)) as (e&He&Hg).
  assert (rview m' r va = if held e then Some (l, e) else None) as Erv by (unfold rview, view_of; rewrite Hf; cbn [mbind option_bind]; by rewrite He).
  rewrite (mbind_Some _ _ _ _ _ (on_mm_run _ (with_mm s m') _ _ Hg)). fold (held e).
  destruct (held e) eqn:Hh.
  { exists VMM_ERR_ALREADY_MAP, (with_mm s m'), lvl'. split_and!; [done..| |done]. rewrite <-(Hres r va Hr), Erv. done. }
  assert (l = 0%nat) as ->.
  { destruct l as [|l]; [done|]. destruct (find_huge 3 m' r va l t _ Hf) as (e'&He'&Hpe&_). rewrite He in He'. injection He' as <-.
    by rewrite (held_present e Hh) in Hpe. }
  destruct (lazy_facts flags) as (Hl1&Hl2&_).
  destruct (leaf_write m' R lvl' r va 0 t _ (lazy_pte flags) Hsp' Hr Hf ltac:(by left)) as (_&Hset&Hsp2&Hup).
  assert (on_mm (tab_set (virt t) (ix 0 va) (lazy_pte flags)) (with_mm s m') = Some (tt, with_mm s (put m' t (ix 0 va) (lazy_pte flags)))) as Hrun
    by exact (on_mm_run _ (with_mm s m') _ _ Hset).
  exists VMM_OK, (with_mm s (put m' t (ix 0 va) (lazy_pte flags))), lvl'. split_and!.
  - cbv zeta. fold (lazy_pte flags). change (with_mm (with_mm s m') m') with (with_mm s m'). by mstep Hrun.
  - split; [apply Hok|done].
  - intros r' va' Hr'. cbn [v_mm with_mm]. rewrite (Hup r' va' Hr' ltac:(left; by apply user_ix)), Hl1. rewrite <-(Hv r' va' Hr').
    destruct (decide _) as [[-> E]|]; [|done]. rewrite (pview_page m' r va' va E). unfold pview, view, view_of. rewrite Hf. cbn [mbind option_bind].
    rewrite He. cbn [mbind option_bind]. by rewrite (held_present e Hh).
  - by rewrite <-(Hres r va Hr), Erv.
  - intros r' va' Hr'. cbn [v_mm with_mm]. unfold rview. rewrite (entry_write held m' R lvl' r va t _ _ Hsp' Hr Hf r' va' Hr' (user_ix va Hu)), Hl2.
    destruct (decide _); [done|]. apply (Hres r' va' Hr').
Qed.

(** ** Growing the heap *)

Lemma vaddr_ok va : va mod PAGE_SIZE = 0 -> 0 < va < 2 ^ 47 -> validate_vaddr va = VMM_OK.
Proof.
  intros Hal Hr. unfold validate_vaddr, is_page_aligned, va_is_canonical. change (PAGE_SIZE - 1) with (Z.ones 12).
  rewrite Z.land_ones by lia. change (2 ^ 12) with PAGE_SIZE. rewrite Hal. cbn [Z.eqb negb].
  rewrite (proj2 (Z.ltb_lt va _)) by lia. cbn [orb negb]. by rewrite (proj2 (Z.eqb_neq va 0)) by lia.
Qed.
Lemma span0 va : 0 <= va < 2 ^ 48 -> span 0 va = va / PAGE_SIZE.
Proof. intros H. unfold span, vpn. change (512 ^ Z.of_nat 0) with 1. rewrite Z.div_1_r. change 4096 with PAGE_SIZE. apply Z.mod_small. dlia. Qed.

(** The reserved pages after the pages [lo, hi) of space [r] were asked for. *)
Definition reserve (m m' : mm) (R : gset Z) (r lo hi flags : Z) : Prop := forall r' va', r' ∈ R ->
  rview m' r' va' = match rview m r' va' with
                    | Some x => Some x
                    | None => if decide (r' = r /\ lo <= span 0 va' < hi) then Some (0%nat, lazy_pte flags) else None
                    end.

Lemma reserve_pages_step m m1 m2 R r va hi flags : span 0 va < hi -> reserve m m1 R r (span 0 va) (span 0 va + 1) flags ->
  reserve m1 m2 R r (span 0 va + 1) hi flags -> reserve m m2 R r (span 0 va) hi flags.
Proof.
  intros Hlt H1 H2 r' va' Hr'. rewrite (H2 r' va' Hr'), (H1 r' va' Hr'). destruct (rview m r' va'); [done|].
  destruct (decide (r' = r /\ span 0 va <= span 0 va' < span 0 va + 1)) as [[-> E]|Hne].
  - rewrite decide_True by (split; [done|lia]). done.
  - apply decide_ext. lia.
Qed.

Lemma demand_loop_run R a r flags end_ : at_root a r R -> end_ < 2 ^ 47 -> forall n s lvl va, vm_ok (um_vmm s) R lvl ->
  va mod PAGE_SIZE = 0 -> 0 < va -> end_ = va + Z.of_nat n * PAGE_SIZE ->
  exists b v' lvl', demand_loop n (Some a) va end_ flags s = Some (b, UserMem (um_cur s) (um_as s) v') /\ vm_ok v' R lvl' /\
    same_views (um_mem s) (v_mm v') R /\
    if b : bool then reserve (um_mem s) (v_mm v') R r (va / PAGE_SIZE) (end_ / PAGE_SIZE) flags else no_frame (v_mm v').
Proof.
  intros Ha Hend. induction n as [|n IH]; intros s lvl va Hok Hal Hpos En; cbn [demand_loop].
  { rewrite (proj2 (Z.ltb_ge va end_)) by lia. exists true, (um_vmm s), lvl. split_and!; [by destruct s|done..|].
    intros r' va' _. destruct (rview _ _ _); [done|]. rewrite decide_False; [done|]. replace end_ with va by lia. lia. }
  rewrite (proj2 (Z.ltb_lt va end_)) by dlia.
  destruct (demand_run (um_vmm s) R lvl a r va flags Hok Ha (vaddr_ok va Hal ltac:(dlia)) ltac:(dlia)) as (st&v1&lvl1&Hrun&Hok1&Hv1&Hst).
  apply on_vmm_run in Hrun. mstep Hrun. set (s1 := UserMem (um_cur s) (um_as s) v1).
  replace (u64 (va + PAGE_SIZE)) with (va + PAGE_SIZE) by (unwrap; rewrite wrap_small by (unfold in_w; dlia); done).
  destruct (IH s1 lvl1 (va + PAGE_SIZE) Hok1 ltac:(dlia) ltac:(dlia) ltac:(lia)) as (b&v2&lvl2&Hloop&Hok2&Hv2&Hb).
  assert (span 0 va = va / PAGE_SIZE) as Esp by (apply span0; dlia).
  assert (reserve (um_mem s) (v_mm v1) R r (span 0 va) (span 0 va + 1) flags -> exists b v' lvl',
    demand_loop n (Some a) (va + PAGE_SIZE) end_ flags s1 = Some (b, UserMem (um_cur s) (um_as s) v') /\ vm_ok v' R lvl' /\ same_views (um_mem s) (v_mm v') R /\
    if b : bool then reserve (um_mem s) (v_mm v') R r (va / PAGE_SIZE) (end_ / PAGE_SIZE) flags else no_frame (v_mm v')) as Hgo.
  { intros H1. exists b, v2, lvl2. split_and!; [done..|by apply (same_views_trans _ (v_mm v1))|]. destruct b; [|done]. rewrite <-Esp.
    apply (reserve_pages_step _ (v_mm v1)); [dlia|done|]. replace (span 0 va + 1) with ((va + PAGE_SIZE) / PAGE_SIZE) by dlia. done. }
  destruct st; try done; cbn.
  - destruct Hst as [Hnone Hup]. apply Hgo. intros r' va' Hr'. rewrite (Hup r' va' Hr').
    destruct (decide (r' = r /\ span 0 va' = span 0 va)) as [[-> E]|Hne].
    + replace (rview (um_mem s) r va') with (@None (nat * Z)); [by rewrite decide_True by (split; [done|lia])|].
      unfold rview, view_of in *. by rewrite (find_ix 3 _ r va' va) by (intros k Hk; apply (ix_span 0); [lia|done]).
    + destruct (rview (um_mem s) r' va'); [done|]. case_decide as Hd; [|done]. destruct Hne. destruct Hd. split; [done|lia].
  - destruct Hst as [Hres Hsame]. apply Hgo. intros r' va' Hr'. rewrite (Hsame r' va' Hr').
    destruct (rview (um_mem s) r' va') eqn:E; [done|]. case_decide as Hd; [|done]. destruct Hd as [-> Es], Hres.
    assert (span 0 va = span 0 va') as E' by lia. unfold rview, view_of in *.
    by rewrite (find_ix 3 _ r va va') by (intros k Hk; apply (ix_span 0); [lia|done]).
  - destruct Hst as [Hno _]. exists false, v1, lvl1. by split_and!.
Qed.

Definition HEAP_FLAGS : Z := Z.lor PTE_WRITABLE PTE_USER.

Lemma page_up_val x : 0 <= x -> x + PAGE_SIZE - 1 < 2 ^ 32 -> page_up x = (x + PAGE_SIZE - 1) / PAGE_SIZE * PAGE_SIZE.
Proof.
  intros H0 H1. unfold page_up, PAGE_MASK32. unwrap. rewrite wrap_small by (unfold in_w; dlia).
  change (2 ^ 32 - 1) with (Z.ones 32). rewrite (clear_low 32) by (try unfold in_w; dlia). dlia.
Qed.
Lemma page_of_val va : 0 <= va < 2 ^ 64 -> page_of va = va - va mod PAGE_SIZE.
Proof. intros H. unfold page_of. change 0xFFF with (PAGE_SIZE - 1). apply page_down; lia. Qed.
Lemma half_bits va : 0 <= va < 2 ^ 47 -> Z.land va 0xFFFF000000000000 = 0.
Proof.
  intros H. apply Z.bits_inj'. intros n Hn. rewrite Z.land_spec, Z.bits_0. destruct (decide (n < 48)).
  - apply andb_false_iff. right. change 0xFFFF000000000000 with (Z.shiftl 0xFFFF 48). by rewrite Z.shiftl_spec_low by lia.
  - apply andb_false_iff. left. apply (testbit_high 47); [unfold in_w; lia|lia].
Qed.
Lemma user_half va : 0 <= va < 2 ^ 47 -> va_is_user va = true /\ va_is_kernel va = false.
Proof. intros H. unfold va_is_user, va_is_kernel. by rewrite half_bits by done. Qed.

(** A fault on a reserved page without a frame. *)
Lemma touch_run s R lvl err cr2 fl : spaces (pf_mm s) R lvl -> cr3 (pf_mm s) ∈ R -> 0 <= g_pf_depth s < PF_MAX_DEPTH ->
  0 <= page_of cr2 < 2 ^ 47 -> Z.testbit err 0 = false -> rview (pf_mm s) (cr3 (pf_mm s)) (page_of cr2) = Some (0%nat, lazy_pte fl) ->
  has (lazy_pte fl) PTE_COW = false ->
  if valid_demand (pf_task s) (page_of cr2)
  then exists res m', handler_pf err cr2 s = Some (res, Faults (g_pf_depth s) (pf_task s) m') /\ spaces m' R lvl /\
         fault_post s R lvl (page_of cr2) (demand_flags (lazy_pte fl)) (replicate 512 0) res m'
  else handler_pf err cr2 s = Some (Panic, s).
Proof.
  intros Hsp Hr Hd Hpg Herr Hrv Hcow. apply view_of_slot in Hrv as [Hs _]. destruct (user_half _ Hpg) as [Hu Hk].
  destruct (lazy_facts fl) as (_&_&Hdm). pose proof (try_demand_run _ R lvl (page_of cr2) Hsp Hr) as Htd. rewrite Hs, Hdm in Htd.
  assert (demand_ok (pf_task s) err (page_of cr2) = valid_demand (pf_task s) (page_of cr2)) as Hok by (unfold demand_ok; by rewrite Herr, Hu, orb_true_r).
  destruct (valid_demand _ _) eqn:Hv.
  - destruct Htd as (a&m'&Ha&Hpost). destruct (attempt_fault s R lvl _ _ _ _ _ Hsp Hpost) as (Hn&Hsp'&Hfp).
    exists (match a with Done => Resolved | _ => Panic end), m'. rewrite (handler_run s err cr2 a m' a m' Hd) by (rewrite ?Hok; by destruct a). done.
  - pose proof (try_cow_run _ R lvl (page_of cr2) Hsp Hr) as Htc. rewrite Hs, Hcow in Htc.
    rewrite (handler_run s err cr2 Next (pf_mm s) Next (pf_mm s) Hd); [by destruct s|by rewrite Hok|by destruct (_ && _)].
Qed.

Lemma brk_grow_run fuel s R lvl t a r new_brk : um_ok s R lvl t a r ->
  let old := page_up (t_user_heap_brk t) in let new := page_up new_brk in
  0 < t_user_heap_start t <= t_user_heap_brk t -> new_brk + PAGE_SIZE - 1 < 2 ^ 32 -> old < new -> t_user_heap_brk t < new_brk ->
  exists b v' lvl', vm_ok v' R lvl' /\ same_views (um_mem s) (v_mm v') R /\
    if b : bool
    then sys_brk fuel new_brk s = Some (Some new_brk, UserMem (Some (set_user_heap (t_user_heap_start t) new_brk t)) (um_as s) v') /\
      reserve (um_mem s) (v_mm v') R r (old / PAGE_SIZE) (new / PAGE_SIZE) HEAP_FLAGS
    else sys_brk fuel new_brk s = Some (Some (-1), UserMem (Some t) (um_as s) v') /\ no_frame (v_mm v').
Proof.
  intros Hok old new Hst Hlim Hgrow Hnew. assert (0 <= t_user_heap_brk t) as H0 by lia.
  assert (old = (t_user_heap_brk t + PAGE_SIZE - 1) / PAGE_SIZE * PAGE_SIZE) as Eo by (apply page_up_val; lia).
  assert (new = (new_brk + PAGE_SIZE - 1) / PAGE_SIZE * PAGE_SIZE) as En by (apply page_up_val; lia).
  assert (exists k, new = old + k * PAGE_SIZE /\ 0 <= k) as (k&Ek&Hk) by (exists (new / PAGE_SIZE - old / PAGE_SIZE); dlia).
  destruct (demand_loop_run R a r HEAP_FLAGS new (uo_root _ _ _ _ _ _ Hok) ltac:(dlia) (Z.to_nat ((new - old) / PAGE_SIZE)) s lvl old (uo_vm _ _ _ _ _ _ Hok)
    ltac:(dlia) ltac:(dlia)) as (b&v'&lvl'&Hloop&Hok'&Hv&Hb).
  { rewrite Z2Nat.id by dlia. replace ((new - old) / PAGE_SIZE) with k by dlia. lia. }
  rewrite (uo_cur _ _ _ _ _ _ Hok) in Hloop.
  assert (sys_brk fuel new_brk s = if b : bool then Some (Some new_brk, UserMem (Some (set_user_heap (t_user_heap_start t) new_brk t)) (um_as s) v')
    else Some (Some (-1), UserMem (Some t) (um_as s) v')) as Hrun.
  { unfold sys_brk. unfold mbind_ at 1. unfold mget at 1. rewrite (uo_cur _ _ _ _ _ _ Hok).
    rewrite (proj2 (Z.eqb_neq new_brk 0)), (proj2 (Z.leb_gt 0x800000000000 new_brk)), (proj2 (Z.eqb_neq (t_user_heap_start t) 0)), (proj2 (Z.ltb_ge new_brk (t_user_heap_start t))) by dlia.
    cbv zeta. fold old new. pose proof (aspace_run _ _ _ _ _ _ Hok) as Has. mstep Has. rewrite (proj2 (Z.ltb_lt old new)) by done. fold HEAP_FLAGS.
    assert ((r0 <~ demand_loop (Z.to_nat ((new - old) / PAGE_SIZE)) (Some a) old new HEAP_FLAGS;; return (Some r0)) s =
      Some (Some b, UserMem (Some t) (um_as s) v')) as Hin by (by mstep Hloop).
    mstep Hin. by destruct b. }
  exists b, v', lvl'. split_and!; [done..|]. by destruct b.
Qed.

(** C14: growing a heap that has been started.  When the heap has a start at or below
    the break and the break moves up by at least a page boundary, to below 4 GiB,
    [sys_brk] returns, changes no translation of any address space, and either fails
    with the break unchanged because no frame is left for page tables, or sets the
    break and reserves exactly those pages between the two breaks, both rounded up,
    that were not reserved already.  An access to one of these pages below the break,
    made next, is resolved by the page-fault handler: the page gets a frame that was
    free, filled with zeros, writable and accessible to the user, and nothing else
    changes; or the machine is out of frames.  The page of the heap's start is not
    among them: no call reserves it ([sys_brk_first_reserves_nothing]). *)
Theorem sys_brk_grow_backed fuel s R lvl t a r new_brk : um_ok s R lvl t a r ->
  let old := page_up (t_user_heap_brk t) in let new := page_up new_brk in
  0 < t_user_heap_start t <= t_user_heap_brk t -> t_user_heap_brk t < new_brk -> new_brk + PAGE_SIZE - 1 < 2 ^ 32 -> old < new ->
  exists v' lvl', vm_ok v' R lvl' /\ same_views (um_mem s) (v_mm v') R /\
  (sys_brk fuel new_brk s = Some (Some (-1), UserMem (Some t) (um_as s) v') /\ no_frame (v_mm v') \/
   let t' := set_user_heap (t_user_heap_start t) new_brk t in
   sys_brk fuel new_brk s = Some (Some new_brk, UserMem (Some t') (um_as s) v') /\
   reserve (um_mem s) (v_mm v') R r (old / PAGE_SIZE) (new / PAGE_SIZE) HEAP_FLAGS /\
   forall err cr2 d, old <= cr2 < new_brk -> rview (um_mem s) r (page_of cr2) = None -> cr3 (v_mm v') = r ->
     Z.testbit err 0 = false -> 0 <= d < PF_MAX_DEPTH ->
     let f := Faults d (Some t') (v_mm v') in
     exists res m' e, handler_pf err cr2 f = Some (res, Faults d (Some t') m') /\
       fault_post f R lvl' (page_of cr2) e (replicate 512 0) res m' /\
       has e PTE_PRESENT = true /\ has e PTE_WRITABLE = true /\ has e PTE_USER = true).
Proof.
  intros Hok old new Hst Hlt Hlim Hgrow.
  destruct (brk_grow_run fuel s R lvl t a r new_brk Hok Hst Hlim Hgrow Hlt) as (b&v'&lvl'&Hok'&Hv&Hb). exists v', lvl'. split_and!; [done..|].
  destruct b; [right|by left]. destruct Hb as [Hrun Hres]. split_and!; [done..|]. intros err cr2 d Hc Hnone Hcr3 Herr Hd f.
  assert (old = (t_user_heap_brk t + PAGE_SIZE - 1) / PAGE_SIZE * PAGE_SIZE) as Eo by (apply page_up_val; lia).
  assert (new = (new_brk + PAGE_SIZE - 1) / PAGE_SIZE * PAGE_SIZE) as En by (apply page_up_val; lia).
  assert (page_of cr2 = cr2 - cr2 mod PAGE_SIZE) as Epg by (apply page_of_val; dlia).
  assert (0 <= page_of cr2 < 2 ^ 47) as Hpg by (rewrite Epg; dlia). destruct (uo_root _ _ _ _ _ _ Hok) as (_&_&Hr).
  pose proof (touch_run f R lvl' err cr2 HEAP_FLAGS (vo_spaces _ _ _ Hok') ltac:(cbn; by rewrite Hcr3) Hd Hpg Herr) as Ht.
  cbn [pf_mm f pf_task] in Ht. rewrite Hcr3 in Ht. rewrite (Hres r (page_of cr2) Hr), Hnone, decide_True in Ht.
  2: { split; [done|]. rewrite span0 by lia. rewrite Epg. dlia. }
  replace (valid_demand _ (page_of cr2)) with true in Ht.
  2: { symmetry. unfold valid_demand. destruct (user_half _ Hpg) as [_ ->]. destruct (_ && _); [done|].
       cbn [t_user_heap_start t_user_heap_brk set_user_heap]. rewrite (proj2 (Z.eqb_neq _ 0)), (proj2 (Z.leb_le _ _)), (proj2 (Z.ltb_lt _ _)) by (rewrite ?Epg; dlia). done. }
  destruct (Ht eq_refl eq_refl) as (res&m'&Hh&_&Hfp). exists res, m', (demand_flags (lazy_pte HEAP_FLAGS)). split_and!; [done..|].
  all: by vm_compute.
Qed.

(** The call that starts the heap reserves no page: the part of the first page below the break is never backed, since growth starts at the
    break rounded up. *)
Lemma sys_brk_first_reserves_nothing fuel s t new_brk : um_cur s = Some t -> t_user_heap_start t = 0 -> 0 < new_brk < 2 ^ 47 ->
  sys_brk fuel new_brk s = Some (Some new_brk, UserMem (Some (set_user_heap (Z.land new_brk PAGE_MASK32) new_brk t)) (um_as s) (um_vmm s)).
Proof.
  intros Hc H0 Hb. unfold sys_brk. unfold mbind_ at 1. unfold mget at 1. rewrite Hc, H0.
  rewrite (proj2 (Z.eqb_neq new_brk 0)), (proj2 (Z.leb_gt 0x800000000000 new_brk)) by lia. reflexivity.
Qed.

(** ** Breaks at a multiple of 4 GiB *)

Lemma page_up_zero x : 0 <= x < 2 ^ 63 -> (x + PAGE_SIZE - 1) mod 2 ^ 32 < PAGE_SIZE -> page_up x = 0.
Proof.
  intros H0 H1. unfold page_up, PAGE_MASK32. unwrap. rewrite wrap_small by (unfold in_w; dlia). set (y := x + PAGE_SIZE - 1) in *.
  change (2 ^ 32 - 1) with (Z.ones 32). set (mk := Z.lxor _ _).
  replace (Z.land y mk) with (Z.land (y mod 2 ^ 32) mk).
  - unfold mk. rewrite (clear_low 32); [|lia|unfold in_w; pose proof (Z.mod_pos_bound y (2 ^ 32)); lia]. pose proof (Z.mod_pos_bound y (2 ^ 32)). rewrite (Z.mod_small (y mod 2 ^ 32) PAGE_SIZE); lia.
  - rewrite <-Z.land_ones, <-Z.land_assoc by lia. f_equal.
Qed.
Lemma shrink_loop_zero as_ n : forall va s x s', 0 <= va -> shrink_loop n as_ va 0 s = Some (x, s') -> x = false.
Proof.
  induction n as [|n IH]; intros va s x s' Hva; cbn [shrink_loop]; rewrite (proj2 (Z.leb_le 0 va)) by done; [by intros [= <- <-]|].
  intros H. minv H. eapply IH; [|exact H]. unwrap. unfold wrap. apply Z.mod_pos_bound. lia.
Qed.

(** [sys_brk] does not return for a break whose page, rounded up with the 32-bit
    mask, is 0 (a multiple of 4 GiB, for one): however many iterations are allowed, the
    unmapping loop [va >= 0] has not ended. *)
Theorem sys_brk_diverges s t new_brk : um_cur s = Some t -> 0 < t_user_heap_start t <= new_brk -> new_brk < 2 ^ 47 ->
  (new_brk + PAGE_SIZE - 1) mod 2 ^ 32 < PAGE_SIZE -> 0 < t_user_heap_brk t -> t_user_heap_brk t + PAGE_SIZE - 1 < 2 ^ 32 ->
  forall fuel x s', sys_brk fuel new_brk s <> Some (Some x, s').
Proof.
  intros Hc Hst Hlim Hz Hb1 Hb2 fuel x s' H. unfold sys_brk in H. unfold mbind_ at 1 in H. unfold mget at 1 in H. rewrite Hc in H.
  rewrite (proj2 (Z.eqb_neq new_brk 0)), (proj2 (Z.leb_gt 0x800000000000 new_brk)), (proj2 (Z.eqb_neq (t_user_heap_start t) 0)), (proj2 (Z.ltb_ge new_brk (t_user_heap_start t))) in H by lia.
  cbv zeta in H. rewrite (page_up_zero new_brk) in H by (done || lia). rewrite (page_up_val (t_user_heap_brk t)) in H by lia.
  rewrite (proj2 (Z.ltb_ge _ 0)), (proj2 (Z.ltb_lt 0 _)) in H by dlia. minv H. minv H. minv Hm0.
  assert (a1 = false) as -> by (eapply shrink_loop_zero; [|exact Hm1]; unwrap; apply Z.mod_pos_bound; lia).
  injection Hm0 as <- <-. done.
Qed.

(** ** mmap *)

Lemma mmap_no_cow prot : has (lazy_pte (mmap_flags prot)) PTE_COW = false.
Proof. unfold mmap_flags. destruct (Z.testbit prot 0), (Z.testbit prot 1), (Z.testbit prot 2); by vm_compute. Qed.

(** What [sys_mmap] reserves is never backed.  With no hint the call returns a base
    past the heap, changes no translation and reserves exactly the pages asked for (or
    returns -1 when no frame is left for page tables); but the pages are outside the
    regions the page-fault handler accepts, so the first access to any of them is a
    kernel panic. *)
Theorem sys_mmap_unbacked s R lvl t a r length prot : um_ok s R lvl t a r -> 0 <= t_user_heap_brk t -> 0 < length <= ELF_MAX_LOAD_SIZE ->
  t_user_heap_brk t + 16 * 1024 * 1024 + length + 2 * PAGE_SIZE < 2 ^ 32 -> 2 ^ 32 <= t_user_stack_base t ->
  let base := page_up (t_user_heap_brk t + 16 * 1024 * 1024) in
  exists res v' lvl', sys_mmap 0 length prot s = Some (res, UserMem (Some t) (um_as s) v') /\ vm_ok v' R lvl' /\ same_views (um_mem s) (v_mm v') R /\
  (res = -1 /\ no_frame (v_mm v') \/
   res = base /\ t_user_heap_brk t < base /\
   reserve (um_mem s) (v_mm v') R r (base / PAGE_SIZE) ((base + length + PAGE_SIZE - 1) / PAGE_SIZE) (mmap_flags prot) /\
   forall err cr2 d, base <= cr2 < base + length -> rview (um_mem s) r (page_of cr2) = None -> cr3 (v_mm v') = r ->
     Z.testbit err 0 = false -> 0 <= d < PF_MAX_DEPTH ->
     handler_pf err cr2 (Faults d (Some t) (v_mm v')) = Some (Panic, Faults d (Some t) (v_mm v'))).
Proof.
  intros Hok Hb Hlen Hlim Hstk base. assert (base = (t_user_heap_brk t + 16 * 1024 * 1024 + PAGE_SIZE - 1) / PAGE_SIZE * PAGE_SIZE) as Eb by (apply page_up_val; dlia).
  set (pages := (length + PAGE_SIZE - 1) / PAGE_SIZE). unfold ELF_MAX_LOAD_SIZE in Hlen. pose proof (uo_root _ _ _ _ _ _ Hok) as Hroot.
  destruct (demand_loop_run R a r (mmap_flags prot) (base + pages * PAGE_SIZE) Hroot ltac:(unfold pages; dlia) (Z.to_nat pages) s lvl base (uo_vm _ _ _ _ _ _ Hok)
    ltac:(dlia) ltac:(dlia) ltac:(rewrite Z2Nat.id by (unfold pages; dlia); done)) as (b&v'&lvl'&Hloop&Hok'&Hv&Hres).
  rewrite (uo_cur _ _ _ _ _ _ Hok) in Hloop. exists (if b : bool then base else -1), v', lvl'. split_and!; [|done..|].
  - unfold sys_mmap. unfold mbind_ at 1. unfold mget at 1. rewrite (uo_cur _ _ _ _ _ _ Hok).
    rewrite (proj2 (Z.eqb_neq length 0)), (proj2 (Z.ltb_ge ELF_MAX_LOAD_SIZE length)) by (unfold ELF_MAX_LOAD_SIZE; lia).
    cbv zeta. cbn [orb andb negb Z.eqb]. pose proof (aspace_run _ _ _ _ _ _ Hok) as Has. mstep Has.
    replace (u64 (length + PAGE_SIZE - 1)) with (length + PAGE_SIZE - 1) by (unwrap; rewrite wrap_small by (unfold in_w; dlia); done). fold pages.
    replace (u64 (pages * PAGE_SIZE)) with (pages * PAGE_SIZE) by (unwrap; rewrite wrap_small by (unfold in_w, pages; dlia); done).
    replace (u64 (t_user_heap_brk t + 16 * 1024 * 1024)) with (t_user_heap_brk t + 16 * 1024 * 1024) by (unwrap; rewrite wrap_small by (unfold in_w; dlia); done).
    fold base. replace (u64 (base + pages * PAGE_SIZE)) with (base + pages * PAGE_SIZE) by (unwrap; rewrite wrap_small by (unfold in_w, pages; dlia); done).
    by mstep Hloop.
  - destruct b; [right|by left]. replace ((base + pages * PAGE_SIZE) / PAGE_SIZE) with ((base + length + PAGE_SIZE - 1) / PAGE_SIZE) in Hres by (unfold pages; dlia).
    split_and!; [done|dlia|done|]. intros err cr2 d Hc Hnone Hcr3 Herr Hd.
    assert (page_of cr2 = cr2 - cr2 mod PAGE_SIZE) as Epg by (apply page_of_val; dlia).
    assert (0 <= page_of cr2 < 2 ^ 32) as Hpg by (rewrite Epg; dlia). destruct Hroot as (_&_&Hr).
    pose proof (touch_run (Faults d (Some t) (v_mm v')) R lvl' err cr2 (mmap_flags prot) (vo_spaces _ _ _ Hok') ltac:(cbn; by rewrite Hcr3) Hd ltac:(lia) Herr) as Ht.
    cbn [pf_mm pf_task] in Ht. rewrite Hcr3, (Hres r (page_of cr2) Hr), Hnone, decide_True in Ht.
    2: { split; [done|]. rewrite span0 by lia. rewrite Epg. dlia. }
    replace (valid_demand _ (page_of cr2)) with false in Ht; [by apply Ht, mmap_no_cow|]. symmetry. unfold valid_demand.
    destruct (user_half (page_of cr2) ltac:(lia)) as [_ ->]. rewrite (proj2 (Z.leb_gt (t_user_stack_base t) _)) by lia. cbn [andb].
    rewrite (proj2 (Z.ltb_ge (page_of cr2) (t_user_heap_brk t))) by (rewrite Epg; dlia). by rewrite andb_false_r.
Qed.

(** ** A task with a heap, on the machine of 32 frames *)

Definition t32 : task :=
  Task 0 1 TASK_STATE_RUNNING 0 5 5 0 0 None None None (Some 0%nat) 0 0 0x4000000000 0x10000 0x500000 0x500000 None None None false
    (replicate 64 file0) (replicate 16 mmap0) 0 [] false.
Definition um32 : usermem := UserMem (Some t32) {[0%nat := kspace]} vm32.
Lemma um32_ok : um_ok um32 R32 lvl32 t32 kspace 0x3000.
Proof. split; [done|by exists 0%nat|exact vm32_ok|exact kspace_root]. Qed.

(** The state after one page was reserved at 0x500000. *)
Definition vm32d : vmm := match vmm_map_demand_page (Some kspace) 0x500000 HEAP_FLAGS vm32 with Some (_, s) => s | None => vm32 end.
Lemma vm32d_ok : exists lvl, vm_ok vm32d R32 lvl.
Proof.
  destruct (demand_run vm32 R32 lvl32 kspace 0x3000 0x500000 HEAP_FLAGS vm32_ok kspace_root eq_refl ltac:(lia)) as (st&s'&lvl'&Hrun&Hok&_).
  exists lvl'. unfold vm32d. rewrite Hrun. exact Hok.
Qed.
#[local] Opaque vm32d.
Definition t32d : task := set_user_heap 0x500000 0x501000 t32.
Definition f32 : faults := Faults 0 (Some t32d) (v_mm vm32d).
Lemma f32_slot : slot (pf_mm f32) (cr3 (pf_mm f32)) 0x500000 = Some (0%nat, lazy_pte HEAP_FLAGS).
Proof. by vm_compute. Qed.
Lemma fst_run {A B} (x : option (A * B)) a b c : fst <$> x = Some a -> x = Some (b, c) -> b = a.
Proof. intros E ->. by injection E. Qed.
Lemma f32_resolved : fst <$> handler_pf 6 0x500123 f32 = Some Resolved.
Proof. by vm_compute. Qed.

Lemma handler_pf_exact_witness : exists m' f, handler_pf 6 0x500123 f32 = Some (Resolved, Faults 0 (Some t32d) m') /\
  ram m' !! (f * PAGE_SIZE) = Some (replicate 512 0) /\ pview m' 0x3000 0x500000 = Some (0%nat, pte_make (f * PAGE_SIZE) (demand_flags (lazy_pte HEAP_FLAGS))).
Proof.
  destruct vm32d_ok as (lvl&[_ Hsp]).
  assert (cr3 (pf_mm f32) = 0x3000) as Ec by by vm_compute. assert (page_of 0x500123 = 0x500000) as Ep by by vm_compute.
  assert (cr3 (pf_mm f32) ∈ R32) as Hin by (rewrite Ec; by apply elem_of_singleton).
  destruct (handler_pf_exact f32 R32 lvl 6 0x500123 Hsp Hin (conj (Z.le_refl 0) eq_refl)) as (res&m'&Hrun&_&Hact).
  { intros l e Hs Hc. rewrite Ep, f32_slot in Hs. injection Hs as <- <-. by vm_compute in Hc. }
  rewrite Ep, f32_slot in Hact. change (fault_action _ _ _ _) with (AZero (lazy_pte HEAP_FLAGS)) in Hact. destruct Hact as (v&Hpost&->&_).
  pose proof (fst_run _ _ _ _ f32_resolved Hrun) as ->. destruct Hpost as [Hp|Hp].
  { destruct Hp as [Hp _]. discriminate Hp. }
  destruct Hp as [_ Hp]. destruct Hp as (f&Hrm). exists m', f. split; [exact Hrun|]. split; [exact (rm_ram _ _ _ _ _ _ _ _ _ Hrm)|]. rewrite Ec in Hrm. rewrite Ec in Hin.
  pose proof (rm_view _ _ _ _ _ _ _ _ _ Hrm 0x3000 0x500000 Hin (or_intror eq_refl)) as Hview.
  rewrite decide_True in Hview by (split; reflexivity).
  rewrite Hview. unfold pte_present.
  rewrite pte_make_has by reflexivity.
  reflexivity.
Defined.

#[local] Opaque vm32m.
Lemma um32m_ok : exists lvl, um_ok (UserMem (Some t32) {[0%nat := kspace]} vm32m) R32 lvl t32 kspace 0x3000.
Proof. destruct vm32m_ok as (lvl&Hok). exists lvl. split; [done|by exists 0%nat|exact Hok|exact kspace_root]. Qed.
Lemma validate_user_pointer_exact_witness :
  validate_user_pointer 0x400010 0x100 (UserMem (Some t32) {[0%nat := kspace]} vm32m) = Some (1, UserMem (Some t32) {[0%nat := kspace]} vm32m).
Proof.
  destruct um32m_ok as (lvl&Hok).
  destruct (validate_user_pointer_exact _ R32 lvl t32 kspace 0x3000 0x400010 0x100 Hok ltac:(lia) ltac:(lia)) as (b&Hb&Hiff).
  rewrite Hb. replace b with true; [reflexivity|]. symmetry. apply Hiff. split; [lia|]. split; [lia|]. split; [lia|]. intros va Hva.
  assert (va / PAGE_SIZE = 0x400000 / PAGE_SIZE) as E by (clear -Hva; dlia). apply (user_at_page _ _ _ _ E). exists 0%nat, (leaf_pte 0x5000 6). split; by vm_compute.
Defined.
Lemma sys_brk_grow_backed_witness : exists v', sys_brk 0 0x502000 um32 = Some (Some 0x502000, UserMem (Some (set_user_heap 0x500000 0x502000 t32)) (um_as um32) v').
Proof.
  destruct (sys_brk_grow_backed 0 um32 R32 lvl32 t32 kspace 0x3000 0x502000 um32_ok ltac:(by vm_compute) ltac:(by vm_compute) ltac:(by vm_compute) ltac:(by vm_compute))
    as (v'&lvl'&Hok&_&Hcase). exists v'.
  assert (fst <$> sys_brk 0 0x502000 um32 = Some (Some 0x502000)) as E by by vm_compute.
  destruct Hcase as [Hc|Hc]; destruct Hc as [Hrun Hc]; [|exact Hrun]. pose proof (fst_run _ _ _ _ E Hrun) as F. discriminate F.
Defined.
Lemma sys_brk_diverges_witness : t_user_heap_brk t32 = 0x500000 /\ ~ exists x s', sys_brk 1000 (2 ^ 32) um32 = Some (Some x, s').
Proof.
  split; [reflexivity|]. intros (x&s'&H). revert H. apply (sys_brk_diverges um32 t32 (2 ^ 32)); by vm_compute.
Defined.
Lemma sys_mmap_unbacked_witness : exists v', sys_mmap 0 5000 3 um32 = Some (0x1500000, UserMem (Some t32) (um_as um32) v').
Proof.
  destruct (sys_mmap_unbacked um32 R32 lvl32 t32 kspace 0x3000 5000 3 um32_ok ltac:(by vm_compute) ltac:(by vm_compute) ltac:(by vm_compute) ltac:(by vm_compute))
    as (res&v'&lvl'&Hrun&_). exists v'. assert (fst <$> sys_mmap 0 5000 3 um32 = Some 0x1500000) as E by by vm_compute.
  pose proof (fst_run _ _ _ _ E Hrun) as ->. exact Hrun.
Defined.
