(* ===== verification/Kheap.v ===== *)
(** * Kernel heap (src/kernel/kheap.c, kheap.h)

    The buddy allocator over the 4096 pages of the kernel heap: per-page tags, one
    free list per level and the node pool.  A list of [free_node_t] is the list of its
    page indices, head first; the pool is the number of nodes left in it, since a
    node carries nothing but its index.  Page indices stay below 2^13, so their 32-bit
    arithmetic does not wrap.  The lock and the serial log are left out. *)

From stdpp Require Import base numbers gmap list options.
From S2P Require Import Prelude Pmm PageTable Vmm.

(** ** Data *)

Definition BUDDY_MAX_LEVEL : Z := 11.
Definition BUDDY_NUM_LEVELS : Z := BUDDY_MAX_LEVEL + 1.
Definition PAGE_ALLOCATED : Z := 0xFF.
Definition PAGE_INTERIOR : Z := 0xFE.
Definition FREE_NODE_POOL_SIZE : Z := 8192.

Record kheap := Kheap {
  kh_pool : Z;                     (** nodes left in the pool *)
  g_free_list : list (list Z);
  g_block_level : list Z;
  g_alloc_level : list Z;
  g_allocated_pages : Z;
  g_total_allocs : Z;
  g_active_allocs : Z;
  kh_initialized : bool
}.

Definition set_kh_pool n s := Kheap n (g_free_list s) (g_block_level s) (g_alloc_level s) (g_allocated_pages s) (g_total_allocs s) (g_active_allocs s) (kh_initialized s).
Definition set_free_list l s := Kheap (kh_pool s) l (g_block_level s) (g_alloc_level s) (g_allocated_pages s) (g_total_allocs s) (g_active_allocs s) (kh_initialized s).
Definition set_tags bl al s := Kheap (kh_pool s) (g_free_list s) bl al (g_allocated_pages s) (g_total_allocs s) (g_active_allocs s) (kh_initialized s).
Definition set_counts p t a s := Kheap (kh_pool s) (g_free_list s) (g_block_level s) (g_alloc_level s) p t a (kh_initialized s).

(** ** Pool, pages, lists *)

Definition kh_pool_init : M kheap unit := mmodify (set_kh_pool FREE_NODE_POOL_SIZE).

Definition vaddr_to_page (vaddr : Z) : Z := u32 (Z.shiftr (u64 (vaddr - HEAP_BASE)) 12).
Definition page_to_vaddr (page : Z) : Z := u64 (HEAP_BASE + Z.shiftl page 12).

Definition fl_push (level page_idx : Z) : M kheap bool :=
  s <~ mget ;;
  if kh_pool s =? 0 then return false else
  l <~ mlift (zget (g_free_list s) level) ;;
  ls <~ mlift (zset (g_free_list s) level (page_idx :: l)) ;;
  mput (set_free_list ls (set_kh_pool (kh_pool s - 1) s)) ;;; return true.

(** The list without its first node for [page_idx]. *)
Fixpoint drop_node (page_idx : Z) (l : list Z) : option (list Z) :=
  match l with
  | [] => None
  | p :: l' => if p =? page_idx then Some l' else l'' ← drop_node page_idx l'; Some (p :: l'')
  end.
Definition fl_remove (level page_idx : Z) : M kheap bool :=
  s <~ mget ;;
  l <~ mlift (zget (g_free_list s) level) ;;
  match drop_node page_idx l with
  | None => return false
  | Some l' =>
    ls <~ mlift (zset (g_free_list s) level l') ;;
    mput (set_free_list ls (set_kh_pool (kh_pool s + 1) s)) ;;; return true
  end.

Definition fl_pop (level : Z) : M kheap Z :=
  s <~ mget ;;
  l <~ mlift (zget (g_free_list s) level) ;;
  match l with
  | [] => return HEAP_PAGE_COUNT
  | pg :: l' =>
    ls <~ mlift (zset (g_free_list s) level l') ;;
    mput (set_free_list ls (set_kh_pool (kh_pool s + 1) s)) ;;; return pg
  end.
Definition fl_has (level : Z) : M kheap bool :=
  s <~ mget ;; l <~ mlift (zget (g_free_list s) level) ;; return (negb (bool_decide (l = []))).

(** ** Tags *)

Definition tag (page bl al : Z) : M kheap unit :=
  s <~ mget ;;
  bls <~ mlift (zset (g_block_level s) page bl) ;;
  als <~ mlift (zset (g_alloc_level s) page al) ;; mput (set_tags bls als s).
Definition mark_block_free (start level : Z) : M kheap unit :=
  let count := Z.shiftl 1 level in
  tag start (u8 level) 0 ;;;
  for_range 1 count (fun i => tag (start + i) PAGE_INTERIOR 0).
Definition mark_block_allocated (start level : Z) : M kheap unit :=
  let count := Z.shiftl 1 level in
  let encoded := u8 (level + 1) in
  for_range 0 count (fun i => tag (start + i) PAGE_ALLOCATED encoded).

(** ** Split and coalesce *)

Definition kh_buddy_of (page_idx level : Z) : Z := Z.lxor page_idx (Z.shiftl 1 level).

Fixpoint min_level_loop (n : nat) (pages level block_size : Z) : Z :=
  match n with
  | O => level
  | S n' => if block_size <? pages then min_level_loop n' pages (level + 1) (Z.shiftl block_size 1) else level
  end.
(** The loop ends at [BUDDY_MAX_LEVEL] at the latest. *)
Definition min_level_for_pages (pages : Z) : Z :=
  let pages := if pages =? 0 then 1 else pages in
  min_level_loop (Z.to_nat BUDDY_MAX_LEVEL) pages 0 1.

(** [n] levels down from [lvl]. *)
Fixpoint buddy_split (n : nat) (cur_start lvl : Z) : M kheap unit :=
  match n with
  | O => return tt
  | S n' =>
    let child_level := lvl - 1 in
    let right := cur_start + Z.shiftl 1 child_level in
    mark_block_free right child_level ;;;
    fl_push child_level right ;;;
    s <~ mget ;;
    bls <~ mlift (zset (g_block_level s) cur_start (u8 child_level)) ;;
    mput (set_tags bls (g_alloc_level s) s) ;;;
    buddy_split n' cur_start child_level
  end.

Fixpoint buddy_coalesce (n : nat) (start level : Z) : M kheap unit :=
  match n with
  | O => return tt
  | S n' =>
    let buddy := kh_buddy_of start level in
    if HEAP_PAGE_COUNT <=? buddy then return tt else
    s <~ mget ;;
    t <~ mlift (zget (g_block_level s) buddy) ;;
    if negb (t =? u8 level) then return tt else
    fl_remove level start ;;;
    fl_remove level buddy ;;;
    let merged := if buddy <? start then buddy else start in
    mark_block_free merged (level + 1) ;;;
    fl_push (level + 1) merged ;;;
    buddy_coalesce n' merged (level + 1)
  end.

(** ** The public operations *)

(** The heap's entries in the kernel page tables. *)
Fixpoint setup_loop (n : nat) (root va : Z) : M mm unit :=
  match n with
  | O => return tt
  | S n' =>
    p <~ pt_walk_to_leaf root va true (Z.lor PTE_PRESENT PTE_WRITABLE) ;;
    match p with
    | None => return tt
    | Some (t, i) => tab_set t i (Z.lor PTE_DEMAND PTE_WRITABLE) ;;; setup_loop n' root (va + PAGE_SIZE)
    end
  end.
Definition kheap_setup_demand_ptes : M vmm unit :=
  kspace <~ vmm_get_kernel_address_space ;;
  match kspace with
  | None => return tt
  | Some k => on_mm (setup_loop (Z.to_nat HEAP_PAGE_COUNT) (pml4 k) HEAP_BASE)
  end.

(** [kheap_init] from [pool_init] on. *)
Definition kheap_reset : M kheap unit :=
  kh_pool_init ;;;
  mmodify (set_free_list (replicate (Z.to_nat BUDDY_NUM_LEVELS) [])) ;;;
  mmodify (set_tags (replicate (Z.to_nat HEAP_PAGE_COUNT) PAGE_ALLOCATED) (replicate (Z.to_nat HEAP_PAGE_COUNT) 0)) ;;;
  let half := Z.shiftl 1 BUDDY_MAX_LEVEL in
  mark_block_free 0 BUDDY_MAX_LEVEL ;;;
  fl_push BUDDY_MAX_LEVEL 0 ;;;
  mark_block_free half BUDDY_MAX_LEVEL ;;;
  fl_push BUDDY_MAX_LEVEL half ;;;
  mmodify (set_counts 0 0 0) ;;;
  mmodify (fun s => Kheap (kh_pool s) (g_free_list s) (g_block_level s) (g_alloc_level s) (g_allocated_pages s)
                      (g_total_allocs s) (g_active_allocs s) true).
(** The allocator and the memory manager side by side. *)
Definition on_heap {A} (c : M kheap A) : M (kheap * vmm) A :=
  fun p => match c p.1 with Some (a, h) => Some (a, (h, p.2)) | None => None end.
Definition on_kvmm {A} (c : M vmm A) : M (kheap * vmm) A :=
  fun p => match c p.2 with Some (a, v) => Some (a, (p.1, v)) | None => None end.
Definition kheap_init : M (kheap * vmm) unit :=
  on_kvmm kheap_setup_demand_ptes ;;; on_heap kheap_reset.

(** The first level from [level] on with a free block, [n] levels at most. *)
Fixpoint find_level (n : nat) (level : Z) : M kheap Z :=
  match n with
  | O => return level
  | S n' => h <~ fl_has level ;; if h : bool then return level else find_level n' (level + 1)
  end.

Definition kmalloc (size : Z) : M kheap Z :=
  s <~ mget ;;
  if negb (kh_initialized s) then return 0 else
  let pages := u64 (size + PAGE_SIZE - 1) / PAGE_SIZE in
  let pages := if pages =? 0 then 1 else pages in
  let need_level := min_level_for_pages pages in
  alloc_level <~ find_level (Z.to_nat (BUDDY_NUM_LEVELS - need_level)) need_level ;;
  if BUDDY_MAX_LEVEL <? alloc_level then return 0 else
  pg <~ fl_pop alloc_level ;;
  if HEAP_PAGE_COUNT <=? pg then return 0 else
  (if need_level <? alloc_level then buddy_split (Z.to_nat (alloc_level - need_level)) pg alloc_level else return tt) ;;;
  mark_block_allocated pg need_level ;;;
  let block_pages := Z.shiftl 1 need_level in
  mmodify (fun s => set_counts (u64 (g_allocated_pages s + block_pages)) (u64 (g_total_allocs s + 1)) (u64 (g_active_allocs s + 1)) s) ;;;
  return (page_to_vaddr pg).

Definition kfree (ptr : Z) : M kheap unit :=
  s <~ mget ;;
  if negb (kh_initialized s) then return tt else
  if ptr =? 0 then return tt else
  if (ptr <? HEAP_BASE) || (HEAP_END <=? ptr) then return tt else
  if negb (is_page_aligned ptr) then return tt else
  let pg := vaddr_to_page ptr in
  bl <~ mlift (zget (g_block_level s) pg) ;;
  al <~ mlift (zget (g_alloc_level s) pg) ;;
  if negb (bl =? PAGE_ALLOCATED) || (al =? 0) then return tt else
  let level := al - 1 in
  let head := Z.land pg (Z.lxor (Z.shiftl 1 level - 1) (2 ^ 32 - 1)) in
  let block_pages := Z.shiftl 1 level in
  mark_block_free head level ;;;
  fl_push level head ;;;
  buddy_coalesce (Z.to_nat (BUDDY_MAX_LEVEL - level)) head level ;;;
  mmodify (fun s => set_counts (u64 (g_allocated_pages s - block_pages)) (g_total_allocs s) (u64 (g_active_allocs s - 1)) s).

(** [total, allocated, free pages, total and active allocations] *)
Definition kheap_get_stats (s : kheap) : Z * Z * Z * Z * Z :=
  (HEAP_PAGE_COUNT, g_allocated_pages s, u64 (HEAP_PAGE_COUNT - g_allocated_pages s), g_total_allocs s, g_active_allocs s).

(** ** kheap_verify_integrity *)

(** The interior tags of one block, [n] pages from [q] on. *)
Fixpoint verify_interior (n : nat) (bls : list Z) (q : Z) : option bool :=
  match n with
  | O => Some true
  | S n' =>
    if HEAP_PAGE_COUNT <=? q then Some true else
    t ← zget bls q; ok ← verify_interior n' bls (q + 1); Some ((t =? PAGE_INTERIOR) && ok)
  end.
(** One free list; the result is [ok], the visited array and the pages counted. *)
Fixpoint verify_list (lvl : Z) (bls : list Z) (l : list Z) (ok : bool) (visited : list Z) (count : Z)
  : option (bool * list Z * Z) :=
  match l with
  | [] => Some (ok, visited, count)
  | pg :: l' =>
    if HEAP_PAGE_COUNT <=? pg then verify_list lvl bls l' false visited count else
    t ← zget bls pg; v ← zget visited pg; visited' ← zset visited pg 1;
    interior ← verify_interior (Z.to_nat (Z.shiftl 1 lvl - 1)) bls (pg + 1);
    verify_list lvl bls l' (ok && (t =? u8 lvl) && (v =? 0) && interior) visited' (u64 (count + Z.shiftl 1 lvl))
  end.
Fixpoint verify_lists (lvl : Z) (bls : list Z) (ls : list (list Z)) (ok : bool) (visited : list Z) (count : Z)
  : option (bool * Z) :=
  match ls with
  | [] => Some (ok, count)
  | l :: ls' => ' (ok', visited', count') ← verify_list lvl bls l ok visited count; verify_lists (lvl + 1) bls ls' ok' visited' count'
  end.
Definition kheap_verify_integrity (s : kheap) : option Z :=
  if negb (kh_initialized s) then Some 0 else
  ' (ok, free_pages) ← verify_lists 0 (g_block_level s) (g_free_list s) true (replicate (Z.to_nat HEAP_PAGE_COUNT) 0) 0;
  Some (if ok && (free_pages =? u64 (HEAP_PAGE_COUNT - g_allocated_pages s)) then 1 else 0).
