(* ===== verification/KheapSpec.v ===== *)
(** * The kernel heap hands out disjoint blocks (the theorems on Kheap.v)

    The invariant: the tags and lists cut the 4096 pages into aligned blocks, each free
    (on the list of its level) or in use.  [hinv s d] is the invariant with one block
    [d] taken out, neither free nor in use, which is how the operations work: take a
    block out, change its tags, put it (or a part of it, or it and its buddy) back. *)

From stdpp Require Import base numbers gmap list options.
From S2P Require Import Prelude Pmm PageTable Vmm Buddy Kheap.

(** ** Blocks *)

Definition inb (p k q : Z) : Prop := p <= q < p + 2 ^ k.
#[global] Instance inb_dec p k q : Decision (inb p k q).
Proof. unfold inb. apply _. Defined.

Lemma pow2_level k : 0 <= k <= 11 -> 1 <= 2 ^ k <= 2048 /\ (2 ^ k | 4096).
Proof.
  intros H. assert (k = 0 \/ k = 1 \/ k = 2 \/ k = 3 \/ k = 4 \/ k = 5 \/ k = 6 \/ k = 7 \/ k = 8 \/ k = 9 \/ k = 10 \/ k = 11) as Hk by lia.
  destruct_or! Hk; subst k; (split; [lia|]); [exists 4096|exists 2048|exists 1024|exists 512|exists 256|exists 128|exists 64|exists 32|exists 16|exists 8|exists 4|exists 2]; done.
Qed.
(** Aligned blocks that meet are nested. *)
Lemma blocks_nest p k p' k' q : 0 <= k <= k' -> (2 ^ k | p) -> (2 ^ k' | p') -> inb p k q -> inb p' k' q ->
  p' <= p /\ p + 2 ^ k <= p' + 2 ^ k'.
Proof.
  unfold inb. intros Hk [a ->] [b ->] H1 H2. replace k' with ((k' - k) + k) in * by lia. rewrite Z.pow_add_r in * by lia.
  assert (0 < 2 ^ k) by (apply Z.pow_pos_nonneg; lia). set (w := 2 ^ k) in *. set (x := 2 ^ (k' - k)) in *.
  rewrite Z.mul_assoc in *. assert (b * x < a + 1) by (apply (Z.mul_lt_mono_pos_r w); lia). assert (a < b * x + x) by (apply (Z.mul_lt_mono_pos_r w); lia).
  pose proof (Z.mul_le_mono_nonneg_r (b * x) a w). pose proof (Z.mul_le_mono_nonneg_r (a + 1) (b * x + x) w). lia.
Qed.
Lemma blocks_eq p p' k q : 0 <= k -> (2 ^ k | p) -> (2 ^ k | p') -> inb p k q -> inb p' k q -> p = p'.
Proof.
  intros Hk H1 H2 H3 H4. pose proof (blocks_nest p k p' k q ltac:(lia) H1 H2 H3 H4). pose proof (blocks_nest p' k p k q ltac:(lia) H2 H1 H4 H3). lia.
Qed.
(** A block and its buddy are the halves of a block of the next level. *)
Lemma buddy_cases p k : 0 <= k -> (2 ^ k | p) ->
  ((2 ^ (k + 1) | p) /\ Z.lxor p (2 ^ k) = p + 2 ^ k) \/ ((2 ^ (k + 1) | Z.lxor p (2 ^ k)) /\ p = Z.lxor p (2 ^ k) + 2 ^ k).
Proof.
  intros Hk [a ->]. pose proof (Z.pow_succ_r 2 k Hk) as E. rewrite <-Z.add_1_r in E. destruct (Z.Even_or_Odd a) as [[j ->]|[j ->]]; [left|right].
  - replace (2 * j * 2 ^ k) with (j * 2 ^ (k + 1)) by lia. rewrite lxor_even by done. split; [by exists j|done].
  - replace ((2 * j + 1) * 2 ^ k) with (j * 2 ^ (k + 1) + 2 ^ k) by lia. rewrite lxor_odd by done. split; [by exists j|done].
Qed.
Lemma heap_pages : HEAP_PAGE_COUNT = 4096.
Proof. reflexivity. Qed.
Lemma shl1 k : 0 <= k -> Z.shiftl 1 k = 2 ^ k.
Proof. intros. rewrite Z.shiftl_mul_pow2 by done. lia. Qed.

(** ** The invariant *)

Notation bl s q := (zget (g_block_level s) q).
Notation al s q := (zget (g_alloc_level s) q).
Notation fl s k := (zget (g_free_list s) k).

Record bfree (s : kheap) (p k : Z) : Prop := {
  bf_al : (2 ^ k | p); bf_rg : 0 <= p /\ p + 2 ^ k <= 4096;
  bf_head : bl s p = Some k;
  bf_int : forall q, p < q < p + 2 ^ k -> bl s q = Some PAGE_INTERIOR;
  bf_zero : forall q, inb p k q -> al s q = Some 0
}.
Record bused (s : kheap) (p k : Z) : Prop := {
  bu_al : (2 ^ k | p); bu_rg : 0 <= p /\ p + 2 ^ k <= 4096;
  bu_tag : forall q, inb p k q -> bl s q = Some PAGE_ALLOCATED /\ al s q = Some (k + 1)
}.

(** [q] is outside the block taken out. *)
Definition off (d : option (Z * Z)) (q : Z) : Prop := match d with None => True | Some (p, k) => ~ inb p k q end.
#[global] Instance off_dec d q : Decision (off d q).
Proof. destruct d as [[p k]|]; simpl; apply _. Defined.

Record hinv (s : kheap) (d : option (Z * Z)) : Prop := {
  hi_bl : length (g_block_level s) = Z.to_nat 4096;
  hi_all : length (g_alloc_level s) = Z.to_nat 4096;
  hi_lists : length (g_free_list s) = 12%nat;
  hi_free : forall k l p, fl s k = Some l -> p ∈ l -> bfree s p k /\ forall q, inb p k q -> off d q;
  hi_nodup : NoDup (concat (g_free_list s));
  hi_cover : forall q, 0 <= q < 4096 -> off d q ->
    (exists k l p, fl s k = Some l /\ p ∈ l /\ inb p k q) \/
    (exists k p, 0 <= k <= 11 /\ bused s p k /\ inb p k q /\ forall q', inb p k q' -> off d q');
  hi_pool : kh_pool s + Z.of_nat (length (concat (g_free_list s))) = FREE_NODE_POOL_SIZE
}.

(** Pages in use, outside [d]. *)
Definition uset (s : kheap) (d : option (Z * Z)) (q : Z) : Prop := bl s q = Some PAGE_ALLOCATED /\ off d q.

Lemma fl_level s d k l : hinv s d -> fl s k = Some l -> 0 <= k <= 11.
Proof. intros H Hl. apply zget_range in Hl. rewrite (hi_lists _ _ H) in Hl. lia. Qed.
Lemma fl_some s d k : hinv s d -> 0 <= k <= 11 -> exists l, fl s k = Some l.
Proof. intros H Hk. apply zget_is_Some. rewrite (hi_lists _ _ H). lia. Qed.
Lemma elem_concat s k l p : fl s k = Some l -> p ∈ l -> p ∈ concat (g_free_list s).
Proof. intros [_ Hl]%zget_Some Hp. apply list_elem_of_In, in_concat. exists l. rewrite <-!list_elem_of_In. split; [by eapply list_elem_of_lookup_2|done]. Qed.
Lemma concat_elem s d p : hinv s d -> p ∈ concat (g_free_list s) -> exists k l, fl s k = Some l /\ p ∈ l.
Proof.
  intros H (l&Hl&Hp)%list_elem_of_In%in_concat. apply list_elem_of_In in Hl, Hp. apply list_elem_of_lookup in Hl as [i Hi].
  exists (Z.of_nat i), l. by rewrite zget_nat.
Qed.

(** Free blocks that meet are the same. *)
Lemma free_meet s d k l p k' l' p' q : hinv s d -> fl s k = Some l -> p ∈ l -> fl s k' = Some l' -> p' ∈ l' ->
  inb p k q -> inb p' k' q -> p = p' /\ k = k'.
Proof.
  intros H. revert k l p k' l' p' q. assert (forall k l p k' l' p' q, k <= k' -> fl s k = Some l -> p ∈ l -> fl s k' = Some l' -> p' ∈ l' ->
    inb p k q -> inb p' k' q -> p = p' /\ k = k') as Hle.
  { intros k l p k' l' p' q Hk Hl Hp Hl' Hp' H1 H2. pose proof (fl_level _ _ _ _ H Hl). destruct (hi_free _ _ H _ _ _ Hl Hp) as [B _].
    destruct (hi_free _ _ H _ _ _ Hl' Hp') as [B' _]. pose proof (blocks_nest p k p' k' q ltac:(lia) (bf_al _ _ _ B) (bf_al _ _ _ B') H1 H2).
    destruct (pow2_level k ltac:(lia)) as [? _]. pose proof (bf_head _ _ _ B) as E. destruct (decide (p = p')) as [->|].
    - rewrite (bf_head _ _ _ B') in E. split; [done|congruence].
    - rewrite (bf_int _ _ _ B' p) in E by lia. unfold PAGE_INTERIOR in E. injection E as ?. lia. }
  intros k l p k' l' p' q Hl Hp Hl' Hp' H1 H2. destruct (decide (k <= k')); [by eapply Hle|].
  destruct (Hle k' l' p' k l p q) as [-> ->]; [lia|done..].
Qed.

(** ** Changing one list, or the tags of one block *)

(** List [k] becomes [l']; its nodes go to or come from the pool. *)
Definition relist (s : kheap) (k : Z) (l l' : list Z) : kheap :=
  set_free_list (<[Z.to_nat k := l']> (g_free_list s)) (set_kh_pool (kh_pool s + Z.of_nat (length l) - Z.of_nat (length l')) s).
(** [s'] is [s] up to the tags of the block. *)
Record retag (s s' : kheap) (p k : Z) : Prop := {
  rt_len : length (g_block_level s') = length (g_block_level s) /\ length (g_alloc_level s') = length (g_alloc_level s);
  rt_rest : exists b a, s' = set_tags b a s;
  rt_off : forall q, ~ inb p k q -> bl s' q = bl s q /\ al s' q = al s q
}.

Lemma concat_upd {A} (ls : list (list A)) i l l' : ls !! i = Some l ->
  exists r, concat ls ≡ₚ l ++ r /\ concat (<[i := l']> ls) ≡ₚ l' ++ r.
Proof.
  intros Hi. exists (concat (take i ls) ++ concat (drop (S i) ls)). split.
  - rewrite <-(take_drop_middle ls i l Hi) at 1. rewrite concat_app. simpl. rewrite !(assoc_L (++)). f_equiv. by rewrite (comm (++) l).
  - rewrite insert_take_drop by (by eapply lookup_lt_Some). rewrite concat_app. simpl. rewrite !(assoc_L (++)). f_equiv. by rewrite (comm (++) l').
Qed.
Lemma relist_fl s k l l' k' : fl s k = Some l -> fl (relist s k l l') k' = if decide (k' = k) then Some l' else fl s k'.
Proof.
  intros Hl. pose proof (zget_range _ _ _ Hl). cbn [relist set_free_list g_free_list]. rewrite zget_insert by done.
  destruct (decide (k = k')), (decide (k' = k)); congruence.
Qed.
Lemma relist_pool s d k l l' : hinv s d -> fl s k = Some l ->
  kh_pool (relist s k l l') + Z.of_nat (length (concat (g_free_list (relist s k l l')))) = FREE_NODE_POOL_SIZE.
Proof.
  intros H [_ Hl]%zget_Some. destruct (concat_upd _ _ _ l' Hl) as (r&E1&E2). cbn [relist set_free_list set_kh_pool kh_pool g_free_list].
  rewrite E2. pose proof (hi_pool _ _ H) as Hp. rewrite E1 in Hp. rewrite length_app in *. lia.
Qed.
Lemma bfree_retag s s' p k p' k' : retag s s' p k -> (forall q, inb p' k' q -> ~ inb p k q) -> 0 <= k' -> bfree s p' k' -> bfree s' p' k'.
Proof.
  intros Hr Hd Hk [H1 H2 H3 H4 H5]. assert (0 < 2 ^ k') by (apply Z.pow_pos_nonneg; lia). split; [done..| | |].
  - rewrite (proj1 (rt_off _ _ _ _ Hr p' ltac:(apply Hd; unfold inb; lia))). done.
  - intros q Hq. rewrite (proj1 (rt_off _ _ _ _ Hr q ltac:(apply Hd; unfold inb; lia))). by apply H4.
  - intros q Hq. rewrite (proj2 (rt_off _ _ _ _ Hr q ltac:(by apply Hd))). by apply H5.
Qed.
Lemma bused_retag s s' p k p' k' : retag s s' p k -> (forall q, inb p' k' q -> ~ inb p k q) -> bused s p' k' -> bused s' p' k'.
Proof.
  intros Hr Hd [H1 H2 H3]. split; [done..|]. intros q Hq. destruct (rt_off _ _ _ _ Hr q (Hd q Hq)) as [-> ->]. by apply H3.
Qed.
Lemma retag_lists s s' p k : retag s s' p k -> g_free_list s' = g_free_list s /\ kh_pool s' = kh_pool s.
Proof. intros [_ (b&a&->) _]. done. Qed.

(** Tags inside the block taken out do not matter. *)
Lemma hinv_retag s s' d p k : hinv s d -> retag s s' p k -> (forall q, inb p k q -> ~ off d q) -> hinv s' d.
Proof.
  intros H Hr Hd. destruct (retag_lists _ _ _ _ Hr) as [El Ep], (rt_len _ _ _ _ Hr) as [L1 L2].
  split; rewrite ?El, ?Ep, ?L1, ?L2; [apply H|apply H|apply H| |apply H| |apply H].
  - intros k' l p' Hl Hp. destruct (hi_free _ _ H _ _ _ Hl Hp) as [B Ho]. split; [|done].
    apply (bfree_retag s s' p k _ _ Hr); [|pose proof (fl_level _ _ _ _ H Hl); lia|exact B]. intros q Hq Hq'. by apply (Hd q Hq'), Ho.
  - intros q Hq Ho. destruct (hi_cover _ _ H q Hq Ho) as [?|(k'&p'&Hk&B&Hin&Hoff)]; [by left|]. right. exists k', p'. split; [done|]. split; [|done].
    apply (bused_retag s s' p k _ _ Hr); [|exact B]. intros q' Hq' Hb. by apply (Hd q' Hb), Hoff.
Qed.

(** Putting a block, or a part of it, back as a free block. *)
Lemma hinv_attach s d d' p k l : hinv s d -> 0 <= k <= 11 -> fl s k = Some l -> bfree s p k ->
  (forall q, inb p k q -> ~ off d q) -> (forall q, off d' q <-> off d q \/ inb p k q) -> hinv (relist s k l (p :: l)) d'.
Proof.
  intros H Hk Hl Hb Hin Hd. destruct (pow2_level k Hk) as [Hw _].
  assert (p ∉ concat (g_free_list s)) as Hnew.
  { intros (k'&l'&Hl'&Hp')%(concat_elem _ _ _ H). destruct (hi_free _ _ H _ _ _ Hl' Hp') as [B Ho]. pose proof (fl_level _ _ _ _ H Hl') as Hk'.
    destruct (pow2_level k' Hk') as [? _]. apply (Hin p); [unfold inb; lia|]. apply Ho. unfold inb. lia. }
  assert (forall k1 l1 p1, fl (relist s k l (p :: l)) k1 = Some l1 -> p1 ∈ l1 -> (k1 = k /\ p1 = p) \/ exists l2, fl s k1 = Some l2 /\ p1 ∈ l2) as Hmem.
  { intros k1 l1 p1. rewrite relist_fl by done. destruct (decide (k1 = k)) as [->|]; [|eauto]. intros [= <-] [->|?]%elem_of_cons; eauto. }
  split.
  - apply H.
  - apply H.
  - cbn [relist set_free_list g_free_list]. rewrite length_insert. apply H.
  - intros k1 l1 p1 Hl1 Hp1. destruct (Hmem _ _ _ Hl1 Hp1) as [[-> ->]|(l2&Hl2&Hp2)].
    + split; [destruct Hb; by split|]. intros q Hq. apply Hd. by right.
    + destruct (hi_free _ _ H _ _ _ Hl2 Hp2) as [B Ho]. split; [destruct B; by split|]. intros q Hq. apply Hd. left. by apply Ho.
  - cbn [relist set_free_list g_free_list]. pose proof Hl as [_ Hl']%zget_Some. destruct (concat_upd _ _ _ (p :: l) Hl') as (r&E1&E2).
    rewrite E2. simpl. apply NoDup_cons. rewrite <-E1. split; [done|apply H].
  - intros q Hq Ho. assert (forall k1 l1 p1, fl s k1 = Some l1 -> p1 ∈ l1 -> exists l2, fl (relist s k l (p :: l)) k1 = Some l2 /\ p1 ∈ l2) as Hkeep.
    { intros k1 l1 p1 Hl1 Hp1. rewrite relist_fl by done. destruct (decide (k1 = k)) as [->|]; [|eauto]. rewrite Hl in Hl1. injection Hl1 as <-. eexists. split; [done|by right]. }
    apply Hd in Ho as [Ho|Hq']; [|left; exists k, (p :: l), p; rewrite relist_fl, decide_True by done; split_and!; [done|by left|done]].
    destruct (hi_cover _ _ H q Hq Ho) as [(k1&l1&p1&Hl1&Hp1&Hi1)|(k1&p1&Hk1&[B1 B2 B3]&Hi1&Ho1)].
    + left. destruct (Hkeep _ _ _ Hl1 Hp1) as (l2&?&?). eauto 6.
    + right. exists k1, p1. split; [done|]. split; [by split|]. split; [done|]. intros q' Hq'. apply Hd. left. by apply Ho1.
  - by eapply relist_pool.
Qed.

(** Taking a free block out. *)
Lemma hinv_detach s d d' p k l l' : hinv s d -> fl s k = Some l -> l ≡ₚ p :: l' ->
  (forall q, off d' q <-> off d q /\ ~ inb p k q) -> hinv (relist s k l l') d'.
Proof.
  intros H Hl Hperm Hd. assert (p ∈ l) as Hp by (rewrite Hperm; by left). destruct (hi_free _ _ H _ _ _ Hl Hp) as [Bp _].
  pose proof Hl as [_ Hl']%zget_Some. destruct (concat_upd _ _ _ l' Hl') as (r&E1&E2).
  pose proof (hi_nodup _ _ H) as Hnd. rewrite E1, Hperm in Hnd. simpl in Hnd. apply NoDup_cons in Hnd as [Hpn Hnd].
  assert (forall k1 l1 p1, fl (relist s k l l') k1 = Some l1 -> p1 ∈ l1 -> p1 <> p /\ exists l2, fl s k1 = Some l2 /\ p1 ∈ l2) as Hmem.
  { intros k1 l1 p1 Hl1 Hp1. split.
    - intros ->. apply Hpn. rewrite <-E2. apply (elem_concat (relist s k l l') k1 l1); done.
    - rewrite relist_fl in Hl1 by done. destruct (decide (k1 = k)) as [->|]; [|eauto]. injection Hl1 as <-. exists l. split; [done|]. rewrite Hperm. by right. }
  split.
  - apply H.
  - apply H.
  - cbn [relist set_free_list g_free_list]. rewrite length_insert. apply H.
  - intros k1 l1 p1 Hl1 Hp1. destruct (Hmem _ _ _ Hl1 Hp1) as [Hne (l2&Hl2&Hp2)]. destruct (hi_free _ _ H _ _ _ Hl2 Hp2) as [B Ho].
    split; [destruct B; by split|]. intros q Hq. apply Hd. split; [by apply Ho|]. intros Hq'.
    by destruct (free_meet _ _ _ _ _ _ _ _ _ H Hl2 Hp2 Hl Hp Hq Hq').
  - cbn [relist set_free_list g_free_list]. by rewrite E2.
  - intros q Hq [Ho Hnq]%Hd. destruct (hi_cover _ _ H q Hq Ho) as [(k1&l1&p1&Hl1&Hp1&Hi1)|(k1&p1&Hk1&[B1 B2 B3]&Hi1&Ho1)].
    + left. exists k1. rewrite relist_fl by done. destruct (decide (k1 = k)) as [->|]; [|by exists l1, p1]. exists l', p1.
      rewrite Hl in Hl1. injection Hl1 as <-. rewrite Hperm in Hp1. apply elem_of_cons in Hp1 as [->|Hp1]; [done|done].
    + right. exists k1, p1. split; [done|]. split; [by split|]. split; [done|]. intros q' Hq'. apply Hd. split; [by apply Ho1|]. intros Hb.
      pose proof (proj2 (B3 q' Hq')) as E. rewrite (bf_zero _ _ _ Bp q' Hb) in E. injection E as ?. lia.
  - by eapply relist_pool.
Qed.

(** The block taken out becomes a block in use ... *)
Lemma hinv_use s p k : hinv s (Some (p, k)) -> 0 <= k <= 11 -> bused s p k -> hinv s None.
Proof.
  intros H Hk B. split; try apply H.
  - intros k1 l1 p1 Hl1 Hp1. by destruct (hi_free _ _ H _ _ _ Hl1 Hp1).
  - intros q Hq _. destruct (decide (inb p k q)); [right; by exists k, p|].
    destruct (hi_cover _ _ H q Hq) as [?|(k1&p1&?&?&?&_)]; [done|by left|right]. by exists k1, p1.
Qed.
(** ... and conversely. *)
Lemma hinv_unuse s p k : hinv s None -> 0 <= k <= 11 -> bused s p k -> hinv s (Some (p, k)).
Proof.
  intros H Hk B. split; try apply H.
  - intros k1 l1 p1 Hl1 Hp1. destruct (hi_free _ _ H _ _ _ Hl1 Hp1) as [B1 _]. split; [done|]. intros q Hq Hb.
    pose proof (bf_zero _ _ _ B1 q Hq) as E. rewrite (proj2 (bu_tag _ _ _ B q Hb)) in E. injection E as ?. lia.
  - intros q Hq Ho. destruct (hi_cover _ _ H q Hq I) as [?|(k1&p1&Hk1&B1&Hi1&_)]; [by left|right]. exists k1, p1. split; [done|]. split; [done|]. split; [done|].
    intros q' Hq' Hb. pose proof (proj2 (bu_tag _ _ _ B1 q' Hq')) as E. rewrite (proj2 (bu_tag _ _ _ B q' Hb)) in E. injection E as E.
    assert (k1 = k) as -> by lia. assert (p1 = p) as -> by (apply (blocks_eq p1 p k q'); [lia|apply B1|apply B|done..]). done.
Qed.

(** ** Tagging a block *)

Lemma tag_run s q b a : length (g_block_level s) = Z.to_nat 4096 -> length (g_alloc_level s) = Z.to_nat 4096 -> 0 <= q < 4096 ->
  tag q b a s = Some (tt, set_tags (<[Z.to_nat q := b]> (g_block_level s)) (<[Z.to_nat q := a]> (g_alloc_level s)) s).
Proof. intros H1 H2 Hq. unfold tag, mbind_, mget, mlift, mput. rewrite !zset_Some by lia. done. Qed.

(** The tags of [s'] are [(b, a)] on the first [i] pages from [p] on, and those of [s] elsewhere. *)
Definition tagged (s s' : kheap) (p i b a : Z) : Prop := exists bs als, s' = set_tags bs als s /\
  length bs = Z.to_nat 4096 /\ length als = Z.to_nat 4096 /\
  forall q, zget bs q = (if decide (p <= q < p + i) then Some b else bl s q) /\ zget als q = (if decide (p <= q < p + i) then Some a else al s q).

Lemma tag_loop s p n b a : length (g_block_level s) = Z.to_nat 4096 -> length (g_alloc_level s) = Z.to_nat 4096 ->
  0 <= p -> 0 <= n -> p + n <= 4096 -> exists s', for_range 0 n (fun i => tag (p + i) b a) s = Some (tt, s') /\ tagged s s' p n b a.
Proof.
  intros L1 L2 Hp Hn Hpn. apply (for_range_inv (fun i s' => tagged s s' p i b a)); [lia| |].
  - exists (g_block_level s), (g_alloc_level s). split_and!; [by destruct s|done..|]. intros q. by rewrite !decide_False by lia.
  - intros i s1 Hi (bs&als&->&Lb&La&Hq). rewrite tag_run by (done || lia). eexists. split; [done|]. eexists _, _. split; [done|].
    cbn [g_block_level g_alloc_level set_tags]. rewrite !length_insert. split_and!; [done..|]. intros q. rewrite !zget_insert by lia.
    destruct (Hq q) as [-> ->]. destruct (decide (p + i = q)) as [<-|]; [rewrite !decide_True by lia; done|].
    destruct (decide (p <= q < p + i)), (decide (p <= q < p + (i + 1))); done || lia.
Qed.
Lemma tagged_retag s s' p k b a : tagged s s' p (2 ^ k) b a -> length (g_block_level s) = Z.to_nat 4096 -> length (g_alloc_level s) = Z.to_nat 4096 ->
  retag s s' p k.
Proof.
  intros (bs&als&->&Lb&La&Hq) L1 L2. split; [by rewrite L1, L2|eauto|]. intros q Hn. cbn [g_block_level g_alloc_level set_tags].
  destruct (Hq q) as [-> ->]. by rewrite !decide_False by done.
Qed.

Lemma for_n_shift {S} n i (body : Z -> M S unit) : for_n n (i + 1) body = for_n n i (fun j => body (j + 1)).
Proof. revert i. induction n as [|n IH]; intros i; [done|]. cbn [for_n]. by rewrite IH. Qed.
Lemma for_n_ext {S} n i (f g : Z -> M S unit) s : (forall j, f j = g j) -> for_n n i f s = for_n n i g s.
Proof.
  intros H. revert i s. induction n as [|n IH]; intros i s; [done|]. cbn [for_n]. unfold mbind_. rewrite H. destruct (g i s) as [[[] s']|]; [apply IH|done].
Qed.

Lemma mark_free_run s p k : length (g_block_level s) = Z.to_nat 4096 -> length (g_alloc_level s) = Z.to_nat 4096 ->
  0 <= k <= 11 -> (2 ^ k | p) -> 0 <= p /\ p + 2 ^ k <= 4096 -> exists s', mark_block_free p k s = Some (tt, s') /\ retag s s' p k /\ bfree s' p k.
Proof.
  intros L1 L2 Hk Hal Hrg. destruct (pow2_level k Hk) as [Hw _]. unfold mark_block_free. rewrite shl1 by lia.
  replace (u8 k) with k by (unwrap; rewrite wrap_small by (unfold in_w; lia); done).
  pose proof (tag_run s p k 0 L1 L2 ltac:(lia)) as Ht. mstep Ht. set (s1 := set_tags _ _ s).
  assert (for_range 1 (2 ^ k) (fun i => tag (p + i) PAGE_INTERIOR 0) s1 = for_range 0 (2 ^ k - 1) (fun i => tag ((p + 1) + i) PAGE_INTERIOR 0) s1) as ->.
  { unfold for_range. rewrite (for_n_shift _ 0). replace (2 ^ k - 1 - 0) with (2 ^ k - 1) by lia. apply for_n_ext. intros j. by replace (p + (j + 1)) with (p + 1 + j) by lia. }
  destruct (tag_loop s1 (p + 1) (2 ^ k - 1) PAGE_INTERIOR 0) as (s'&Hr&(bs&als&->&Lb&La&Hq)); [cbn [s1 set_tags g_block_level g_alloc_level]; rewrite ?length_insert; lia..|].
  exists (set_tags bs als s1). split; [done|]. cbn [s1 set_tags g_block_level g_alloc_level] in Hq.
  assert (forall q, zget bs q = (if decide (p + 1 <= q < p + 1 + (2 ^ k - 1)) then Some PAGE_INTERIOR else if decide (p = q) then Some k else bl s q) /\
    zget als q = (if decide (inb p k q) then Some 0 else al s q)) as Hq'.
  { intros q. destruct (Hq q) as [-> ->]. rewrite !zget_insert by lia. split; [done|]. unfold inb.
    destruct (decide (p + 1 <= q < p + 1 + (2 ^ k - 1))), (decide (p = q)), (decide (p <= q < p + 2 ^ k)); done || lia. }
  split; split; cbn [set_tags g_block_level g_alloc_level s1].
  - by rewrite L1, L2.
  - by eexists _, _.
  - intros q Hn. destruct (Hq' q) as [-> ->]. unfold inb in *. by rewrite !decide_False by lia.
  - done.
  - done.
  - rewrite (proj1 (Hq' p)), decide_False, decide_True by lia. done.
  - intros q Hin. rewrite (proj1 (Hq' q)), decide_True by lia. done.
  - intros q Hin. by rewrite (proj2 (Hq' q)), decide_True by done.
Qed.
Lemma mark_alloc_run s p k : length (g_block_level s) = Z.to_nat 4096 -> length (g_alloc_level s) = Z.to_nat 4096 ->
  0 <= k <= 11 -> (2 ^ k | p) -> 0 <= p /\ p + 2 ^ k <= 4096 -> exists s', mark_block_allocated p k s = Some (tt, s') /\ retag s s' p k /\ bused s' p k.
Proof.
  intros L1 L2 Hk Hal Hrg. destruct (pow2_level k Hk) as [Hw _]. unfold mark_block_allocated. rewrite shl1 by lia.
  replace (u8 (k + 1)) with (k + 1) by (unwrap; rewrite wrap_small by (unfold in_w; lia); done).
  destruct (tag_loop s p (2 ^ k) PAGE_ALLOCATED (k + 1)) as (s'&Hr&Ht); [done|done|lia..|]. exists s'. split; [done|].
  split; [by eapply tagged_retag|]. destruct Ht as (bs&als&->&_&_&Hq). split; [done..|]. intros q Hin. cbn [set_tags g_block_level g_alloc_level].
  destruct (Hq q) as [-> ->]. by rewrite !decide_True by done.
Qed.

(** ** List operations under the invariant *)

Lemma free_pages_bound s d : hinv s d -> Z.of_nat (length (concat (g_free_list s))) <= 4096.
Proof.
  intros H. assert (concat (g_free_list s) ⊆+ seqZ 0 4096) as Hs.
  { apply NoDup_submseteq; [apply H|]. intros p (k&l&Hl&Hp)%(concat_elem _ _ _ H). apply elem_of_seqZ.
    pose proof (bf_rg _ _ _ (proj1 (hi_free _ _ H _ _ _ Hl Hp))). destruct (pow2_level k (fl_level _ _ _ _ H Hl)) as [? _]. lia. }
  apply submseteq_length in Hs. rewrite length_seqZ in Hs. lia.
Qed.
Lemma relist_eq s k l l' n : Z.of_nat (length l) - Z.of_nat (length l') = n ->
  set_free_list (<[Z.to_nat k := l']> (g_free_list s)) (set_kh_pool (kh_pool s + n) s) = relist s k l l'.
Proof. intros <-. unfold relist, set_free_list, set_kh_pool. cbn. f_equal. lia. Qed.
Lemma fl_push_run s d k p l : hinv s d -> fl s k = Some l -> fl_push k p s = Some (true, relist s k l (p :: l)).
Proof.
  intros H Hl. pose proof (free_pages_bound _ _ H). pose proof (hi_pool _ _ H) as Hp. unfold FREE_NODE_POOL_SIZE in Hp.
  unfold fl_push, mbind_, mget, mlift, mput. rewrite (proj2 (Z.eqb_neq _ _)) by lia. rewrite Hl. pose proof (zget_range _ _ _ Hl).
  rewrite zset_Some by done. by rewrite <-(relist_eq s k l (p :: l) (-1)) by (simpl; lia).
Qed.
Lemma drop_node_elem p l : p ∈ l -> exists l', drop_node p l = Some l' /\ l ≡ₚ p :: l'.
Proof.
  induction l as [|x l IH]; [by intros ?%elem_of_nil|]. intros Hp. simpl. destruct (Z.eqb_spec x p) as [->|]; [by exists l|].
  apply elem_of_cons in Hp as [->|Hp]; [done|]. destruct (IH Hp) as (l'&->&E). exists (x :: l'). split; [done|]. rewrite E. constructor.
Qed.
Lemma fl_remove_run s k p l : fl s k = Some l -> p ∈ l -> exists l', fl_remove k p s = Some (true, relist s k l l') /\ l ≡ₚ p :: l'.
Proof.
  intros Hl Hp. destruct (drop_node_elem p l Hp) as (l'&E&Hperm). exists l'. split; [|done].
  unfold fl_remove, mbind_, mget, mlift, mput. rewrite Hl, E, zset_Some by (by eapply zget_range). by rewrite <-(relist_eq s k l l' 1) by (rewrite Hperm; simpl; lia).
Qed.
Lemma fl_pop_run s k p l : fl s k = Some (p :: l) -> fl_pop k s = Some (p, relist s k (p :: l) l).
Proof.
  intros Hl. unfold fl_pop, mbind_, mget, mlift, mput. rewrite Hl, zset_Some by (by eapply zget_range). by rewrite <-(relist_eq s k (p :: l) l 1) by (simpl; lia).
Qed.

(** The owner tags and the counters are kept. *)
Record quiet (s s' : kheap) : Prop := {
  qt_al : forall q, al s' q = al s q;
  qt_cnt : g_allocated_pages s' = g_allocated_pages s /\ g_total_allocs s' = g_total_allocs s /\
    g_active_allocs s' = g_active_allocs s /\ kh_initialized s' = kh_initialized s
}.
#[global] Instance quiet_preorder : PreOrder quiet.
Proof.
  split; [by intros s; split|]. intros s1 s2 s3 [A1 (?&?&?&?)] [A2 (?&?&?&?)]. split; [intros q; by rewrite A2, A1|]. split_and!; congruence.
Qed.
Lemma relist_quiet s k l l' : quiet s (relist s k l l').
Proof. by split. Qed.
(** Marking pages that are free already as a free block. *)
Lemma retag_quiet s s' p k : retag s s' p k -> bfree s' p k -> (forall q, inb p k q -> al s q = Some 0) -> quiet s s'.
Proof.
  intros Hr Hb H0. split; [|destruct (rt_rest _ _ _ _ Hr) as (b&a&->); done]. intros q. destruct (decide (inb p k q)) as [Hi|Hi].
  - by rewrite (bf_zero _ _ _ Hb q Hi), H0.
  - apply (rt_off _ _ _ _ Hr q Hi).
Qed.

(** ** No two buddies are both free *)

Definition coal_but (s : kheap) (P : Z -> Z -> Prop) : Prop := forall k l p, 0 <= k < 11 -> fl s k = Some l -> p ∈ l ->
  Z.lxor p (2 ^ k) ∈ l -> P k p.
Definition coal (s : kheap) : Prop := coal_but s (fun _ _ => False).

Lemma coal_retag s s' p k P : retag s s' p k -> coal_but s P -> coal_but s' P.
Proof. intros Hr H k' l p' Hk Hl. rewrite (proj1 (retag_lists _ _ _ _ Hr)) in Hl. by apply H. Qed.
Lemma coal_pop s k l p l' P : fl s k = Some l -> l ≡ₚ p :: l' -> coal_but s P -> coal_but (relist s k l l') P.
Proof.
  intros Hl Hperm H k' l1 p' Hk Hl1 Hp Hb. rewrite relist_fl in Hl1 by done. destruct (decide (k' = k)) as [->|]; [|by eapply H].
  injection Hl1 as <-. apply (H k l); [done..| |]; rewrite Hperm; by right.
Qed.
(** A push can only make the new block a buddy of a free one. *)
Lemma coal_push s k l p P : 0 <= k -> fl s k = Some l -> coal_but s P ->
  coal_but (relist s k l (p :: l)) (fun k' p' => P k' p' \/ (k' = k /\ (p' = p \/ p' = Z.lxor p (2 ^ k)))).
Proof.
  intros Hk0 Hl H k' l1 p' Hk Hl1 Hp Hb. rewrite relist_fl in Hl1 by done. destruct (decide (k' = k)) as [->|]; [|left; by eapply H].
  injection Hl1 as <-. apply elem_of_cons in Hp as [->|Hp]; [by right; auto|]. apply elem_of_cons in Hb as [Hb|Hb]; [|left; by eapply H].
  right. split; [done|]. right. rewrite <-Hb, Z.lxor_assoc, Z.lxor_nilpotent, Z.lxor_0_r. done.
Qed.

(** ** Splitting *)

Lemma head_retag s p k v : 0 <= k -> 0 <= p < Z.of_nat (length (g_block_level s)) ->
  retag s (set_tags (<[Z.to_nat p := v]> (g_block_level s)) (g_alloc_level s) s) p k.
Proof.
  intros Hk Hp. assert (0 < 2 ^ k) by (apply Z.pow_pos_nonneg; lia). split; [by cbn; rewrite length_insert|by eexists _, _|].
  intros q Hq. cbn [set_tags g_block_level g_alloc_level]. rewrite zget_insert by done. rewrite decide_False; [done|]. intros ->. apply Hq. unfold inb. lia.
Qed.
Lemma half_block p k : 0 <= k < 11 -> (2 ^ (k + 1) | p) -> 0 <= p /\ p + 2 ^ (k + 1) <= 4096 ->
  2 ^ (k + 1) = 2 * 2 ^ k /\ (2 ^ k | p) /\ (2 ^ k | p + 2 ^ k) /\ Z.lxor (p + 2 ^ k) (2 ^ k) = p /\ 1 <= 2 ^ k <= 1024.
Proof.
  intros Hk Hal Hrg. pose proof (Z.pow_succ_r 2 k ltac:(lia)) as E. rewrite <-Z.add_1_r in E. destruct Hal as [a ->].
  destruct (pow2_level (k + 1) ltac:(lia)) as [? _]. split; [done|]. split; [exists (2 * a); lia|]. split; [exists (2 * a + 1); lia|].
  split; [apply lxor_odd; lia|lia].
Qed.
(** A free block's buddy that is taken out is on no list. *)
Lemma coal_out s p k : hinv s (Some (p, k)) -> 0 <= k -> coal_but s (fun k' p' => False \/ (k' = k /\ (p' = Z.lxor p (2 ^ k) \/ p' = p))) -> coal s.
Proof.
  intros H Hk Hc k' l p' Hk' Hl Hp Hb. assert (p ∉ l \/ k' <> k) as Hn.
  { destruct (decide (k' = k)) as [->|]; [left|by right]. intros Hin. destruct (hi_free _ _ H _ _ _ Hl Hin) as [_ Ho]. simpl in Ho.
    assert (0 < 2 ^ k) by (apply Z.pow_pos_nonneg; lia). apply (Ho p); unfold inb; lia. }
  destruct (Hc k' l p' Hk' Hl Hp Hb) as [?|[-> [-> | ->]]]; [done| |naive_solver].
  rewrite Z.lxor_assoc, Z.lxor_nilpotent, Z.lxor_0_r in Hb. naive_solver.
Qed.

Lemma split_step s p k : 0 <= k < 11 -> hinv s (Some (p, k + 1)) -> (2 ^ (k + 1) | p) -> 0 <= p /\ p + 2 ^ (k + 1) <= 4096 -> coal s ->
  (forall q, inb p (k + 1) q -> al s q = Some 0) ->
  exists s1 s2 v, mark_block_free (p + 2 ^ k) k s = Some (tt, s1) /\ fl_push k (p + 2 ^ k) s1 = Some (true, s2) /\
  zset (g_block_level s2) p (u8 k) = Some v /\ hinv (set_tags v (g_alloc_level s2) s2) (Some (p, k)) /\
  coal (set_tags v (g_alloc_level s2) s2) /\ quiet s (set_tags v (g_alloc_level s2) s2).
Proof.
  intros Hk H Hal Hrg Hc H0. destruct (half_block p k Hk Hal Hrg) as (E&A1&A2&X&W). unfold inb in H0.
  destruct (mark_free_run s (p + 2 ^ k) k) as (s1&Hm&Hr&Hb); [apply H|apply H|lia|done|lia|].
  pose proof (hinv_retag _ _ _ _ _ H Hr ltac:(simpl; unfold inb; intros; lia)) as H1. destruct (fl_some _ _ k H1 ltac:(lia)) as [l Hl].
  pose proof (fl_push_run _ _ k (p + 2 ^ k) l H1 Hl) as Hp. set (s2 := relist s1 k l (p + 2 ^ k :: l)) in *.
  assert (hinv s2 (Some (p, k))) as H2.
  { apply (hinv_attach s1 (Some (p, k + 1))); [done|lia|done..| |]; simpl; unfold inb; intros q; lia. }
  exists s1, s2, (<[Z.to_nat p := u8 k]> (g_block_level s2)). split; [done|]. split; [done|]. split; [apply zset_Some; rewrite (hi_bl _ _ H2); lia|].
  pose proof (head_retag s2 p k (u8 k) ltac:(lia) ltac:(rewrite (hi_bl _ _ H2); lia)) as Hr2. split; [|split].
  - apply (hinv_retag _ _ _ _ _ H2 Hr2). simpl. intros q Hq Hn. done.
  - apply (coal_retag _ _ _ _ _ Hr2), (coal_out _ _ _ H2); [lia|]. pose proof (coal_push s1 k l (p + 2 ^ k) _ ltac:(lia) Hl (coal_retag _ _ _ _ _ Hr Hc)) as Hc2.
    rewrite X in Hc2. replace (Z.lxor p (2 ^ k)) with (p + 2 ^ k); [done|]. rewrite <-X at 2. by rewrite Z.lxor_assoc, Z.lxor_nilpotent, Z.lxor_0_r.
  - transitivity s1; [|by split]. apply (retag_quiet _ _ _ _ Hr Hb). intros q Hq. apply H0. unfold inb in Hq. lia.
Qed.
Lemma split_run n k : forall s p, 0 <= k -> k + Z.of_nat n <= 11 -> hinv s (Some (p, k + Z.of_nat n)) -> (2 ^ (k + Z.of_nat n) | p) ->
  0 <= p /\ p + 2 ^ (k + Z.of_nat n) <= 4096 -> coal s -> (forall q, inb p (k + Z.of_nat n) q -> al s q = Some 0) ->
  exists s', buddy_split n p (k + Z.of_nat n) s = Some (tt, s') /\ hinv s' (Some (p, k)) /\ coal s' /\ quiet s s'.
Proof.
  induction n as [|n IH]; intros s p Hk Hn H Hal Hrg Hc H0.
  - rewrite Nat2Z.inj_0, Z.add_0_r in *. exists s. done.
  - replace (k + Z.of_nat (S n)) with (k + Z.of_nat n + 1) in * by lia. set (c := k + Z.of_nat n) in *. cbn [buddy_split].
    replace (c + 1 - 1) with c by lia. rewrite shl1 by lia.
    destruct (half_block p c ltac:(lia) Hal Hrg) as (E&A1&_&_&W).
    destruct (split_step s p c ltac:(lia) H Hal Hrg Hc H0) as (s1&s2&v&Hm&Hp&Hv&H2&Hc2&Hq). mstep Hm. mstep Hp.
    unfold mbind_ at 1, mget. unfold mbind_ at 1, mlift. rewrite Hv. unfold mbind_, mput.
    destruct (IH _ p Hk ltac:(lia) H2 A1 ltac:(lia) Hc2) as (s'&Hs&H'&Hc'&Hq').
    { intros q Hi. rewrite (qt_al _ _ Hq). apply H0. unfold inb in *. lia. }
    exists s'. split; [exact Hs|]. split; [done|]. split; [done|]. by etransitivity.
Qed.

(** ** Coalescing *)

(** A page tagged with a level heads a free block of that level. *)
Lemma head_free s k q l : hinv s None -> 0 <= k <= 11 -> 0 <= q < 4096 -> bl s q = Some k -> fl s k = Some l -> q ∈ l.
Proof.
  intros H Hk Hq Hb Hl. destruct (hi_cover _ _ H q Hq I) as [(k1&l1&p1&Hl1&Hp1&Hi)|(k1&p1&Hk1&B&Hi&_)].
  - destruct (hi_free _ _ H _ _ _ Hl1 Hp1) as [B _]. destruct (decide (p1 = q)) as [->|].
    + rewrite (bf_head _ _ _ B) in Hb. injection Hb as ->. congruence.
    + unfold inb in Hi. rewrite (bf_int _ _ _ B q) in Hb by lia. unfold PAGE_INTERIOR in Hb. injection Hb as <-. lia.
  - rewrite (proj1 (bu_tag _ _ _ B q Hi)) in Hb. unfold PAGE_ALLOCATED in Hb. injection Hb as <-. lia.
Qed.

(** A block and its buddy [b]; the pair is the block [Z.min p b] of the next level. *)
Lemma buddy_pair p k : 0 <= k < 11 -> (2 ^ k | p) -> 0 <= p /\ p + 2 ^ k <= 4096 -> let b := Z.lxor p (2 ^ k) in
  (2 ^ (k + 1) | Z.min p b) /\ 0 <= Z.min p b /\ Z.min p b + 2 ^ (k + 1) <= 4096 /\ 0 <= b < 4096 /\ p <> b /\
  forall q, inb (Z.min p b) (k + 1) q <-> inb p k q \/ inb b k q.
Proof.
  intros Hk Hal Hrg b. pose proof (Z.pow_succ_r 2 k ltac:(lia)) as E. rewrite <-Z.add_1_r in E. destruct (pow2_level k ltac:(lia)) as [W _].
  destruct (pow2_level (k + 1) ltac:(lia)) as [_ [c Hc]].
  assert (forall x, (2 ^ (k + 1) | x) -> 0 <= x < 4096 -> x + 2 ^ (k + 1) <= 4096) as Hfit.
  { intros x [a ->] Hx. rewrite Hc in Hx |- *. assert (a < c) by (apply (Z.mul_lt_mono_pos_r (2 ^ (k + 1))); lia).
    pose proof (Z.mul_le_mono_nonneg_r (a + 1) c (2 ^ (k + 1))). lia. }
  destruct (buddy_cases p k ltac:(lia) Hal) as [[A B]|[A B]]; fold b in A, B; [replace (Z.min p b) with p by lia|replace (Z.min p b) with b by lia].
  - pose proof (Hfit p A ltac:(lia)). split_and!; [done|lia..|]. unfold inb. lia.
  - assert (0 <= b) as Hb0 by (unfold b; apply Z.lxor_nonneg; lia). pose proof (Hfit b A ltac:(lia)). split_and!; [done|lia..|]. unfold inb. lia.
Qed.

(** The merge of two free buddies. *)
Lemma merge_step s p k l b : 0 <= k < 11 -> hinv s None -> fl s k = Some l -> p ∈ l -> b = Z.lxor p (2 ^ k) -> b ∈ l ->
  coal_but s (fun k' p' => k' = k /\ (p' = p \/ p' = b)) ->
  exists s1 s2 s3 s4, fl_remove k p s = Some (true, s1) /\ fl_remove k b s1 = Some (true, s2) /\
  mark_block_free (Z.min p b) (k + 1) s2 = Some (tt, s3) /\ fl_push (k + 1) (Z.min p b) s3 = Some (true, s4) /\
  hinv s4 None /\ quiet s s4 /\ (exists l', fl s4 (k + 1) = Some l' /\ Z.min p b ∈ l') /\
  coal_but s4 (fun k' p' => k' = k + 1 /\ (p' = Z.min p b \/ p' = Z.lxor (Z.min p b) (2 ^ (k + 1)))).
Proof.
  intros Hk H Hl Hp Hbe Hb Hc. destruct (hi_free _ _ H _ _ _ Hl Hp) as [Bp _], (hi_free _ _ H _ _ _ Hl Hb) as [Bb _].
  destruct (buddy_pair p k Hk (bf_al _ _ _ Bp) (bf_rg _ _ _ Bp)) as (A&R1&R2&Rb&Hne&Hin). rewrite <-Hbe in A, R1, R2, Rb, Hne, Hin. set (m := Z.min p b) in *.
  destruct (fl_remove_run s k p l Hl Hp) as (l1&E1&P1). set (s1 := relist s k l l1) in *.
  assert (hinv s1 (Some (p, k))) as H1 by (eapply hinv_detach; [done..|]; simpl; naive_solver).
  assert (fl s1 k = Some l1) as Hl1 by (unfold s1; rewrite relist_fl, decide_True by done; done).
  assert (b ∈ l1) as Hb1 by (rewrite P1 in Hb; apply elem_of_cons in Hb as [->|]; done).
  destruct (fl_remove_run s1 k b l1 Hl1 Hb1) as (l2&E2&P2). set (s2 := relist s1 k l1 l2) in *.
  assert (hinv s2 (Some (m, k + 1))) as H2 by (eapply (hinv_detach s1 (Some (p, k))); [done..|]; simpl; intros q; rewrite Hin; tauto).
  destruct (mark_free_run s2 m (k + 1)) as (s3&E3&Hr&B3); [apply H2|apply H2|lia|done|lia|].
  pose proof (hinv_retag _ _ _ _ _ H2 Hr ltac:(simpl; tauto)) as H3. destruct (fl_some _ _ (k + 1) H3 ltac:(lia)) as [l3 Hl3].
  exists s1, s2, s3, (relist s3 (k + 1) l3 (m :: l3)). split; [done|]. split; [done|]. split; [done|]. split; [by eapply fl_push_run|]. split_and!.
  - apply (hinv_attach s3 (Some (m, k + 1))); [done|lia|done..|simpl; tauto|]. simpl. intros q. destruct (decide (inb m (k + 1) q)); tauto.
  - transitivity s2; [transitivity s1; apply relist_quiet|]. transitivity s3; [|apply relist_quiet]. apply (retag_quiet _ _ _ _ Hr B3).
    intros q [Hq|Hq]%Hin; [by apply (bf_zero _ _ _ Bp)|by apply (bf_zero _ _ _ Bb)].
  - exists (m :: l3). rewrite relist_fl, decide_True by done. split; [done|by left].
  - assert (coal s3) as Hc3.
    { apply (coal_retag _ _ _ _ _ Hr). pose proof (coal_pop s1 k l1 b l2 _ Hl1 P2 (coal_pop s k l p l1 _ Hl P1 Hc)) as Hc2. intros k' l' p' Hk' Hl' Hp' Hb'.
      destruct (Hc2 k' l' p' Hk' Hl' Hp' Hb') as [-> Hor]. unfold s2 in Hl'. rewrite relist_fl, decide_True in Hl' by done. injection Hl' as <-.
      pose proof (hi_nodup _ _ H2) as Hnd. assert (NoDup l) as Hndl.
      { pose proof Hl as [_ Hl'']%zget_Some. destruct (concat_upd _ _ _ l Hl'') as (r&Er&_). pose proof (hi_nodup _ _ H) as Hn0. rewrite Er in Hn0. by apply NoDup_app in Hn0 as [? _]. }
      rewrite P1, P2 in Hndl. apply NoDup_cons in Hndl as [N1 N2]. apply NoDup_cons in N2 as [N2 _].
      destruct Hor as [-> | ->]; [apply N1; by right|by apply N2]. }
    pose proof (coal_push s3 (k + 1) l3 m _ ltac:(lia) Hl3 Hc3) as Hc4. intros k' l' p' Hk' Hl' Hp' Hb'. by destruct (Hc4 k' l' p' Hk' Hl' Hp' Hb').
Qed.

Lemma buddy_coalesce_run n : forall s p k l, 0 <= k -> k + Z.of_nat n = 11 -> hinv s None -> fl s k = Some l -> p ∈ l ->
  coal_but s (fun k' p' => k' = k /\ (p' = p \/ p' = Z.lxor p (2 ^ k))) ->
  exists s', buddy_coalesce n p k s = Some (tt, s') /\ hinv s' None /\ coal s' /\ quiet s s'.
Proof.
  induction n as [|n IH]; intros s p k l Hk Hn H Hl Hp Hc.
  - exists s. split; [done|]. split; [done|]. split; [|done]. intros k' l' p' Hk' Hl' Hp' Hb'. destruct (Hc k' l' p' Hk' Hl' Hp' Hb') as [-> _]. lia.
  - cbn [buddy_coalesce]. unfold kh_buddy_of. rewrite shl1 by done. set (b := Z.lxor p (2 ^ k)) in *.
    destruct (hi_free _ _ H _ _ _ Hl Hp) as [Bp _]. destruct (buddy_pair p k ltac:(lia) (bf_al _ _ _ Bp) (bf_rg _ _ _ Bp)) as (A&R1&R2&Rb&Hne&Hin). fold b in A, R1, R2, Rb, Hne, Hin.
    rewrite heap_pages, (proj2 (Z.leb_gt 4096 b)) by lia.
    destruct (zget_is_Some (g_block_level s) b) as [t Ht]; [rewrite (hi_bl _ _ H); lia|]. unfold mbind_ at 1, mget. unfold mbind_ at 1, mlift. rewrite Ht. cbn beta iota.
    replace (u8 k) with k by (unwrap; rewrite wrap_small by (unfold in_w; lia); done). destruct (Z.eqb_spec t k) as [->|Htk]; cbn [negb].
    + pose proof (head_free s k b l H ltac:(lia) Rb Ht Hl) as Hb.
      destruct (merge_step s p k l b ltac:(lia) H Hl Hp eq_refl Hb Hc) as (s1&s2&s3&s4&E1&E2&E3&E4&H4&Hq&(l'&Hl'&Hm)&Hc4).
      mstep E1. mstep E2. replace (if b <? p then b else p) with (Z.min p b) by (destruct (Z.ltb_spec b p); lia). mstep E3. mstep E4.
      destruct (IH s4 _ (k + 1) l' ltac:(lia) ltac:(lia) H4 Hl' Hm Hc4) as (s'&E&H'&Hc'&Hq'). exists s'. split; [exact E|]. split; [done|]. split; [done|by etransitivity].
    + exists s. split; [done|]. split; [done|]. split; [|done]. intros k' l' p' Hk' Hl' Hp' Hb'. destruct (Hc k' l' p' Hk' Hl' Hp' Hb') as [-> Hor].
      rewrite Hl in Hl'. injection Hl' as <-. assert (b ∈ l) as Hbl by (destruct Hor as [-> | ->]; done).
      rewrite (bf_head _ _ _ (proj1 (hi_free _ _ H _ _ _ Hl Hbl))) in Ht. congruence.
Qed.

(** ** The heap between two calls *)

Definition used_in (l : list Z) : Z := Z.of_nat (length (filter (fun a => a <> 0) l)).
Record kinv (s : kheap) : Prop := {
  ki_h : hinv s None;
  ki_coal : coal s;
  ki_init : kh_initialized s = true;
  ki_count : g_allocated_pages s = used_in (g_alloc_level s)
}.

Lemma used_in_bound l : 0 <= used_in l <= Z.of_nat (length l).
Proof. unfold used_in. pose proof (length_filter (fun a => a <> 0) l). lia. Qed.
Lemma used_in_app l l' : used_in (l ++ l') = used_in l + used_in l'.
Proof. unfold used_in. rewrite filter_app, length_app. lia. Qed.
Lemma used_in_all (P : Prop) `{D : !Decision P} l : (forall a, a ∈ l -> (a <> 0 <-> P)) -> used_in l = if decide P then Z.of_nat (length l) else 0.
Proof.
  intros H. unfold used_in. induction l as [|a l IH]; [by case_decide|]. rewrite filter_cons. pose proof (H a ltac:(by left)).
  specialize (IH (fun a' Ha' => H a' (list_elem_of_further _ _ _ Ha'))). destruct (decide (a <> 0)), (decide P); cbn [length]; lia || tauto.
Qed.
(** One aligned run of pages changes hands. *)
Lemma used_in_block l l' p w : length l = Z.to_nat 4096 -> length l' = Z.to_nat 4096 -> 0 <= p -> 0 <= w -> p + w <= 4096 ->
  (forall q, ~ (p <= q < p + w) -> zget l' q = zget l q) -> (forall q, p <= q < p + w -> zget l q = Some 0) ->
  (forall q, p <= q < p + w -> exists a, zget l' q = Some a /\ a <> 0) -> used_in l' = used_in l + w.
Proof.
  intros L L' Hp Hw Hpw Ho H0 H1. assert (forall m : list Z, used_in m = used_in (take (Z.to_nat p) m) + used_in (take (Z.to_nat w) (drop (Z.to_nat p) m)) + used_in (drop (Z.to_nat w) (drop (Z.to_nat p) m))) as Hsplit.
  { intros m. rewrite <-(take_drop (Z.to_nat p) m) at 1. rewrite <-(take_drop (Z.to_nat w) (drop (Z.to_nat p) m)) at 1. rewrite !used_in_app. lia. }
  rewrite (Hsplit l), (Hsplit l'). assert (take (Z.to_nat p) l' = take (Z.to_nat p) l) as ->.
  { apply list_eq. intros i. destruct (decide (i < Z.to_nat p)%nat); [|by rewrite !lookup_take_ge by lia]. rewrite !lookup_take_lt by done. rewrite <-!zget_nat. apply Ho. lia. }
  assert (drop (Z.to_nat w) (drop (Z.to_nat p) l') = drop (Z.to_nat w) (drop (Z.to_nat p) l)) as ->.
  { apply list_eq. intros i. rewrite !lookup_drop. rewrite <-!zget_nat. apply Ho. lia. }
  assert (forall (m : list Z) a, length m = Z.to_nat 4096 -> a ∈ take (Z.to_nat w) (drop (Z.to_nat p) m) -> exists q, p <= q < p + w /\ zget m q = Some a) as Hel.
  { intros m a Lm (i&Hi)%list_elem_of_lookup. apply lookup_take_Some in Hi as [Hi Hlt]. rewrite lookup_drop in Hi. exists (Z.of_nat (Z.to_nat p + i)). rewrite zget_nat. split; [lia|done]. }
  rewrite (used_in_all False (take _ (drop _ l))), decide_False by (tauto || apply _ || (intros a (q&Hq&Ha)%Hel; [rewrite H0 in Ha by done; injection Ha as <-; tauto|done])).
  rewrite (used_in_all True (take _ (drop _ l'))), decide_True by (tauto || apply _ || (intros a (q&Hq&Ha)%Hel; [destruct (H1 q Hq) as (?&Ha'&?); rewrite Ha' in Ha; injection Ha as <-; tauto|done])).
  rewrite length_take, length_drop. lia.
Qed.

(** The level of a request. *)
Lemma min_level_loop_run n : forall pages lv, 0 <= lv -> exists r, min_level_loop n pages lv (2 ^ lv) = r /\ lv <= r <= lv + Z.of_nat n /\
  (r < lv + Z.of_nat n -> pages <= 2 ^ r) /\ (lv < r -> 2 ^ (r - 1) < pages).
Proof.
  induction n as [|n IH]; intros pages lv Hlv; cbn [min_level_loop]; [exists lv; lia|]. destruct (Z.ltb_spec (2 ^ lv) pages) as [Hlt|Hge]; [|exists lv; lia].
  rewrite Z.shiftl_mul_pow2, Z.pow_1_r, Z.mul_comm, <-Z.pow_succ_r, <-Z.add_1_r by lia.
  destruct (IH pages (lv + 1) ltac:(lia)) as (r&E&R&A&B). exists r. rewrite E. split_and!; [done|lia..|]. intros _.
  destruct (decide (r = lv + 1)) as [->|]; [by replace (lv + 1 - 1) with lv by lia|apply B; lia].
Qed.
Lemma min_level_run pages : 1 <= pages -> let r := min_level_for_pages pages in
  0 <= r <= 11 /\ (pages <= 2048 -> pages <= 2 ^ r) /\ (0 < r -> 2 ^ (r - 1) < pages).
Proof.
  intros Hp. unfold min_level_for_pages. rewrite (proj2 (Z.eqb_neq pages 0)) by lia. destruct (min_level_loop_run (Z.to_nat BUDDY_MAX_LEVEL) pages 0 ltac:(lia)) as (r&E&R&A&B).
  change (2 ^ 0) with 1 in E. rewrite E. change (Z.of_nat (Z.to_nat BUDDY_MAX_LEVEL)) with 11 in *. simpl. split; [lia|]. split; [|exact B].
  intros. destruct (decide (r = 11)) as [->|]; [lia|apply A; lia].
Qed.
Lemma find_level_run s d n : forall lv, hinv s d -> 0 <= lv -> lv + Z.of_nat n = 12 -> exists r, find_level n lv s = Some (r, s) /\ lv <= r <= 12 /\
  (forall j, lv <= j < r -> fl s j = Some []) /\ (r <= 11 -> exists p l, fl s r = Some (p :: l)).
Proof.
  induction n as [|n IH]; intros lv H Hlv Hn; cbn [find_level]; [exists lv; split_and!; [done|lia..| |]; intros; lia|].
  destruct (fl_some s d lv H ltac:(lia)) as [l Hl]. unfold fl_has, mbind_, mget, mlift. rewrite Hl. cbn beta iota. destruct l as [|p l].
  - rewrite bool_decide_true by done. cbn [negb]. destruct (IH (lv + 1) H ltac:(lia) ltac:(lia)) as (r&E&R&A&B). exists r. split; [exact E|]. split; [lia|].
    split; [|exact B]. intros j Hj. destruct (decide (j = lv)) as [->|]; [done|apply A; lia].
  - rewrite bool_decide_false by done. cbn [negb]. exists lv. split; [done|]. split; [lia|]. split; [intros; lia|eauto].
Qed.

(** The pages of the block are all free. *)
Definition group_free (s : kheap) (p k : Z) : Prop := (2 ^ k | p) /\ 0 <= p /\ p + 2 ^ k <= 4096 /\ forall q, inb p k q -> al s q = Some 0.
Definition request_level (size : Z) : Z :=
  let pages := u64 (size + PAGE_SIZE - 1) / PAGE_SIZE in min_level_for_pages (if pages =? 0 then 1 else pages).

Lemma request_level_bound size : 0 <= request_level size <= 11.
Proof.
  unfold request_level. apply min_level_run. destruct (Z.eqb_spec (u64 (size + PAGE_SIZE - 1) / PAGE_SIZE) 0); [lia|].
  pose proof (Z.div_pos (u64 (size + PAGE_SIZE - 1)) PAGE_SIZE ltac:(apply wrap_range; lia) ltac:(done)). lia.
Qed.
Lemma request_level_run size : 0 <= size -> let k := request_level size in
  0 <= k <= 11 /\ (size <= 2 ^ 23 -> size <= PAGE_SIZE * 2 ^ k) /\ (0 < k -> PAGE_SIZE * 2 ^ (k - 1) < size).
Proof.
  intros H0 k. unfold k, request_level. change PAGE_SIZE with 4096. set (pg := u64 (size + 4096 - 1) / 4096).
  pose proof (wrap_range 64 (size + 4096 - 1) ltac:(lia)) as Hu. fold u64 in Hu. unfold in_w in Hu.
  assert (0 <= pg /\ pg * 4096 <= u64 (size + 4096 - 1)) as [P0 P1] by (unfold pg; split; [apply Z.div_pos; unwrap; lia|pose proof (Z.mul_div_le (u64 (size + 4096 - 1)) 4096); lia]).
  assert (u64 (size + 4096 - 1) <= size + 4095) as U by (unwrap; unfold wrap; pose proof (Z.mod_le (size + 4096 - 1) (2 ^ 64)); lia).
  destruct (min_level_run (if pg =? 0 then 1 else pg)) as (R&A&B); [destruct (Z.eqb_spec pg 0); lia|]. split; [exact R|]. split.
  - intros Hs. assert (u64 (size + 4096 - 1) = size + 4095) as E by (unwrap; rewrite wrap_small; [lia|unfold in_w; lia]).
    assert (size <= pg * 4096 /\ pg <= 2048) as [? ?] by (unfold pg; rewrite E; split; [pose proof (Z.mod_pos_bound (size + 4095) 4096); pose proof (Z.div_mod (size + 4095) 4096); lia|apply Z.lt_succ_r, Z.div_lt_upper_bound; lia]).
    destruct (Z.eqb_spec pg 0); lia.
  - intros Hk. specialize (B Hk). assert (1 <= 2 ^ (min_level_for_pages (if pg =? 0 then 1 else pg) - 1)) by (apply (Z.pow_le_mono_r 2 0); lia).
    destruct (Z.eqb_spec pg 0); lia.
Qed.

(** In a coalesced heap a free group lies in a free block of its level or more. *)
Lemma free_group s p k : kinv s -> 0 <= k <= 11 -> group_free s p k -> exists j l p0, k <= j /\ fl s j = Some l /\ p0 ∈ l /\ inb p0 j p.
Proof.
  intros [H Hc _ _]. revert p k. assert (forall m p k, (Z.to_nat k < m)%nat -> 0 <= k <= 11 -> group_free s p k -> exists j l p0, k <= j /\ fl s j = Some l /\ p0 ∈ l /\ inb p0 j p) as Hind;
    [|intros p k; by apply (Hind (S (Z.to_nat k))); lia].
  induction m as [|m IH]; intros p k Hm Hk (A&P0&P1&Z0); [lia|]. destruct (pow2_level k Hk) as [W _].
  assert (forall q, inb p k q -> exists j l p0, fl s j = Some l /\ p0 ∈ l /\ inb p0 j q) as Hfree.
  { intros q Hq. destruct (hi_cover _ _ H q ltac:(unfold inb in *; lia) I) as [?|(k1&p1&Hk1&B&Hi&_)]; [done|].
    pose proof (proj2 (bu_tag _ _ _ B q Hi)) as E. rewrite (Z0 q Hq) in E. injection E as ?. lia. }
  destruct (Hfree p ltac:(unfold inb; lia)) as (j&l&p0&Hl&Hp0&Hi). pose proof (fl_level _ _ _ _ H Hl) as Hj.
  destruct (decide (k <= j)) as [|Hlt]; [by exists j, l, p0|exfalso].
  destruct (hi_free _ _ H _ _ _ Hl Hp0) as [B0 _]. pose proof (blocks_nest p0 j p k p ltac:(lia) (bf_al _ _ _ B0) A Hi ltac:(unfold inb; lia)) as N.
  assert (p0 = p) as -> by (unfold inb in Hi; lia).
  assert (2 ^ (j + 1) | p) as A1 by (apply (Z.divide_trans _ (2 ^ k)); [exists (2 ^ (k - (j + 1))); rewrite <-Z.pow_add_r by lia; f_equal; lia|done]).
  pose proof (Z.pow_le_mono_r 2 (j + 1) k ltac:(lia) ltac:(lia)) as Hjk.
  destruct (half_block p j ltac:(lia) A1 ltac:(lia)) as (E&A2&A3&X&W2).
  destruct (IH (p + 2 ^ j) j) as (j1&l1&p1&Hj1&Hl1&Hp1&Hi1); [lia|lia| |].
  { split; [done|]. split; [lia|]. split; [lia|]. intros q Hq. apply Z0. unfold inb in *. lia. }
  destruct (hi_free _ _ H _ _ _ Hl1 Hp1) as [B1 _]. destruct (decide (j1 = j)) as [->|].
  - rewrite Hl in Hl1. injection Hl1 as <-. assert (p1 = p + 2 ^ j) as -> by (apply (blocks_eq _ _ j (p + 2 ^ j)); [lia|apply B1|done..|unfold inb; lia]).
    apply (Hc j l (p + 2 ^ j)); [lia|done..|]. by rewrite X.
  - pose proof (blocks_nest p (j + 1) p1 j1 (p + 2 ^ j) ltac:(lia) A1 (bf_al _ _ _ B1) ltac:(unfold inb; lia) Hi1) as N1.
    destruct (free_meet _ _ _ _ _ _ _ _ p H Hl Hp0 Hl1 Hp1) as [_ ?]; [unfold inb; lia..|]. lia.
Qed.

(** The counters do not matter to the blocks. *)
Lemma hinv_ext s s' d : kh_pool s' = kh_pool s -> g_free_list s' = g_free_list s -> g_block_level s' = g_block_level s ->
  g_alloc_level s' = g_alloc_level s -> hinv s d -> hinv s' d.
Proof.
  intros E1 E2 E3 E4 H. split; rewrite ?E1, ?E2, ?E3, ?E4; try apply H.
  - intros k l p Hl Hp. destruct (hi_free _ _ H _ _ _ Hl Hp) as [[] Ho]. split; [|done]. split; rewrite ?E3, ?E4; done.
  - intros q Hq Ho. destruct (hi_cover _ _ H q Hq Ho) as [?|(k&p&Hk&[]&Hi&Hoff)]; [by left|right]. exists k, p. split; [done|]. split; [|done]. split; rewrite ?E3, ?E4; done.
Qed.

(** ** kmalloc *)

(** The block [(p, k)] changes hands: its owner tag becomes [a], the others stay. *)
Definition hands (s s' : kheap) (p k a : Z) : Prop := forall q, al s' q = if decide (inb p k q) then Some a else al s q.

(** Taking a block of level [k] off the lists. *)
Lemma take_off_lists s k r p l : kinv s -> 0 <= k <= r -> fl s r = Some (p :: l) ->
  exists s1, (fl_pop r s = Some (p, relist s r (p :: l) l)) /\ p < 4096 /\ group_free s p k /\
  (if k <? r then buddy_split (Z.to_nat (r - k)) p r else return tt) (relist s r (p :: l) l) = Some (tt, s1) /\
  hinv s1 (Some (p, k)) /\ coal s1 /\ quiet s s1.
Proof.
  intros [H Hc _ _] Hk Hl. pose proof (fl_level _ _ _ _ H Hl) as Hr. destruct (hi_free _ _ H _ _ p Hl ltac:(by left)) as [B _].
  pose proof (hinv_detach s None (Some (p, r)) p r (p :: l) l H Hl ltac:(reflexivity) ltac:(simpl; tauto)) as H1.
  pose proof (coal_pop s r (p :: l) p l _ Hl ltac:(reflexivity) Hc) as Hc1. destruct (pow2_level r Hr) as [W _]. pose proof (bf_rg _ _ _ B) as Hrg.
  destruct (split_run (Z.to_nat (r - k)) k (relist s r (p :: l) l) p) as (s1&E&H2&Hc2&Q); rewrite ?Z2Nat.id by lia; replace (k + (r - k)) with r by lia; [lia|lia|done|apply B|done|done|apply B|].
  rewrite Z2Nat.id in E by lia. replace (k + (r - k)) with r in E by lia. exists s1. split; [by apply fl_pop_run|]. split; [lia|]. split; [|split; [|split; [done|split; [done|etransitivity; [apply relist_quiet|exact Q]]]]].
  - pose proof (Z.pow_le_mono_r 2 k r ltac:(lia) ltac:(lia)). split; [|split; [lia|split; [lia|]]].
    + apply (Z.divide_trans _ (2 ^ r)); [exists (2 ^ (r - k)); rewrite <-Z.pow_add_r by lia; f_equal; lia|apply B].
    + intros q Hq. apply (bf_zero _ _ _ B). unfold inb in *. lia.
  - destruct (Z.ltb_spec k r); [exact E|]. replace (r - k) with 0 in E by lia. exact E.
Qed.
(** Handing a block taken out to the caller. *)
Lemma give_block s p k : hinv s (Some (p, k)) -> coal s -> 0 <= k <= 11 -> (2 ^ k | p) -> 0 <= p /\ p + 2 ^ k <= 4096 ->
  exists s', mark_block_allocated p k s = Some (tt, s') /\ hinv s' None /\ coal s' /\ hands s s' p k (k + 1) /\
  g_allocated_pages s' = g_allocated_pages s /\ kh_initialized s' = kh_initialized s.
Proof.
  intros H Hc Hk A R. destruct (mark_alloc_run s p k (hi_bl _ _ H) (hi_all _ _ H) Hk A R) as (s'&E&Hr&B). exists s'. split; [done|].
  split; [apply (hinv_use s' p k); [|done..]; apply (hinv_retag _ _ _ _ _ H Hr); simpl; tauto|]. split; [by eapply coal_retag|]. split.
  - intros q. case_decide as Hi; [apply (bu_tag _ _ _ B q Hi)|apply (rt_off _ _ _ _ Hr q Hi)].
  - destruct (rt_rest _ _ _ _ Hr) as (?&?&->). done.
Qed.

Lemma kmalloc_run s size : kinv s -> exists r s', kmalloc size s = Some (r, s') /\ kinv s' /\ let k := request_level size in
  ((r = 0 /\ s' = s /\ forall p, ~ group_free s p k) \/
   (exists p, r = HEAP_BASE + PAGE_SIZE * p /\ group_free s p k /\ hands s s' p k (k + 1))).
Proof.
  intros Hs. pose proof Hs as [H Hc Hi Hn]. unfold kmalloc. unfold mbind_ at 1, mget. rewrite Hi. cbn [negb]. fold (request_level size). set (k := request_level size).
  pose proof (request_level_bound size) as Hk. fold k in Hk.
  destruct (find_level_run s None (Z.to_nat (BUDDY_NUM_LEVELS - k)) k H ltac:(lia)) as (r&E&R&Hempty&Hr); [change BUDDY_NUM_LEVELS with 12; lia|]. mstep E. change BUDDY_MAX_LEVEL with 11.
  destruct (Z.ltb_spec 11 r) as [Hr12|Hr11].
  - exists 0, s. split; [done|]. split; [done|]. left. split; [done|]. split; [done|]. intros p G. destruct (free_group s p k Hs Hk G) as (j&l&p0&Hj&Hl&Hp&_).
    pose proof (fl_level _ _ _ _ H Hl). rewrite Hempty in Hl by lia. injection Hl as <-. by apply elem_of_nil in Hp.
  - destruct (Hr Hr11) as (p&l&Hl). destruct (take_off_lists s k r p l Hs ltac:(lia) Hl) as (s1&Ep&Hp&G&Es&H1&Hc1&Q). mstep Ep. rewrite heap_pages, (proj2 (Z.leb_gt 4096 p)) by lia. mstep Es.
    destruct G as (A&P0&P1&Z0). destruct (give_block s1 p k H1 Hc1 Hk A ltac:(lia)) as (s2&Em&H2&Hc2&Hh&Ea&Ei). mstep Em.
    destruct (pow2_level k Hk) as [W _]. pose proof (qt_cnt _ _ Q) as (C1&_&_&C4).
    assert (hands s s2 p k (k + 1)) as Hh' by (intros q; rewrite (Hh q); case_decide; [done|apply Q]).
    assert (used_in (g_alloc_level s2) = used_in (g_alloc_level s) + 2 ^ k) as Hu.
    { apply (used_in_block _ _ p); [apply H|apply H2|lia..| | |]; [intros q Hq; by rewrite (Hh' q), decide_False|done|]. intros q Hq. exists (k + 1). rewrite (Hh' q), decide_True by done. split; [done|lia]. }
    pose proof (used_in_bound (g_alloc_level s2)) as Hub. pose proof (used_in_bound (g_alloc_level s)). rewrite (hi_all _ _ H2) in Hub.
    eexists _, _. split; [reflexivity|]. rewrite shl1 by lia. split; [|right].
    + split; [by eapply hinv_ext; [..|exact H2]|exact Hc2|cbn; congruence|]. cbn [set_counts g_allocated_pages g_alloc_level]. unwrap. rewrite Ea, C1, Hn, Hu. apply wrap_small. unfold in_w. lia.
    + exists p. split; [|by split]. unfold page_to_vaddr. rewrite Z.shiftl_mul_pow2 by lia. change HEAP_BASE with 0xFFFFFFFFC0000000. change PAGE_SIZE with 4096. unwrap. rewrite wrap_small; [lia|unfold in_w; lia].
Qed.

(** ** kfree *)

Lemma head_mask q k : 0 <= q < 2 ^ 32 -> 0 <= k <= 32 -> Z.land q (Z.lxor (Z.shiftl 1 k - 1) (2 ^ 32 - 1)) = q / 2 ^ k * 2 ^ k.
Proof.
  intros Hq Hk. rewrite shl1 by lia. replace (2 ^ k - 1) with (Z.ones k) by (rewrite Z.ones_equiv; lia). change (2 ^ 32 - 1) with (Z.ones 32).
  rewrite <-Z.shiftr_div_pow2, <-Z.shiftl_mul_pow2, <-Z.ldiff_ones_r by lia. apply Z.bits_inj'. intros i Hi. rewrite Z.land_spec, Z.lxor_spec, Z.ldiff_spec, !Z.testbit_ones by lia.
  destruct (decide (i < 32)).
  - rewrite (proj2 (Z.leb_le 0 i)), (proj2 (Z.ltb_lt i 32)) by lia. destruct (i <? k); by rewrite ?andb_true_r, ?andb_false_r.
  - by rewrite (testbit_high 32 q i) by (done || lia).
Qed.
(** The block in use a page belongs to. *)
Lemma used_block s q k : hinv s None -> 0 <= q < 4096 -> 0 <= k -> al s q = Some (k + 1) ->
  k <= 11 /\ bused s (q / 2 ^ k * 2 ^ k) k /\ inb (q / 2 ^ k * 2 ^ k) k q.
Proof.
  intros H Hq Hk Ha. destruct (hi_cover _ _ H q Hq I) as [(k1&l&p&Hl&Hp&Hi)|(k1&p&Hk1&B&Hi&_)].
  - rewrite (bf_zero _ _ _ (proj1 (hi_free _ _ H _ _ _ Hl Hp)) q Hi) in Ha. injection Ha as ?. lia.
  - rewrite (proj2 (bu_tag _ _ _ B q Hi)) in Ha. injection Ha as ?. assert (k1 = k) as -> by lia. destruct (pow2_level k Hk1) as [W _].
    assert (p = q / 2 ^ k * 2 ^ k) as <-; [|split; [lia|done]]. destruct (bu_al _ _ _ B) as [a ->]. unfold inb in Hi. f_equal.
    apply (Z.div_unique_pos _ _ _ (q - a * 2 ^ k)); lia.
Qed.

(** Putting a block in use back on the lists. *)
Lemma return_block s p k : kinv s -> 0 <= k <= 11 -> bused s p k -> exists s2 s3 s', hinv s' None /\ coal s' /\ hands s s' p k 0 /\
  g_allocated_pages s' = g_allocated_pages s /\ kh_initialized s' = true /\
  mark_block_free p k s = Some (tt, s2) /\ fl_push k p s2 = Some (true, s3) /\ buddy_coalesce (Z.to_nat (BUDDY_MAX_LEVEL - k)) p k s3 = Some (tt, s').
Proof.
  intros [H Hc Hi _] Hk B. pose proof (hinv_unuse s p k H Hk B) as H1.
  destruct (mark_free_run s p k (hi_bl _ _ H) (hi_all _ _ H) Hk (bu_al _ _ _ B) (bu_rg _ _ _ B)) as (s2&E2&Hr&B2).
  pose proof (hinv_retag _ _ _ _ _ H1 Hr ltac:(simpl; tauto)) as H2. destruct (fl_some _ _ k H2 Hk) as [l Hl]. pose proof (fl_push_run _ _ k p l H2 Hl) as E3.
  assert (hinv (relist s2 k l (p :: l)) None) as H3.
  { apply (hinv_attach s2 (Some (p, k))); [done|lia|done..|simpl; tauto|]. simpl. intros q. destruct (decide (inb p k q)); tauto. }
  destruct (buddy_coalesce_run (Z.to_nat (BUDDY_MAX_LEVEL - k)) (relist s2 k l (p :: l)) p k (p :: l)) as (s'&E4&H4&Hc4&[Qa (Q1&_&_&Q4)]); [lia|change BUDDY_MAX_LEVEL with 11; lia|done|by rewrite relist_fl, decide_True|by left| |].
  { pose proof (coal_push s2 k l p _ ltac:(lia) Hl (coal_retag _ _ _ _ _ Hr Hc)) as Hc3. intros k' l' p' Hk' Hl' Hp' Hb'. by destruct (Hc3 k' l' p' Hk' Hl' Hp' Hb'). }
  exists s2, (relist s2 k l (p :: l)), s'. split; [done|]. split; [done|]. split; [|split; [|split]].
  - intros q. rewrite (Qa q). cbn [relist set_free_list set_kh_pool g_alloc_level]. case_decide as Hq; [by apply (bf_zero _ _ _ B2)|apply (rt_off _ _ _ _ Hr q Hq)].
  - rewrite Q1. destruct (rt_rest _ _ _ _ Hr) as (?&?&->). done.
  - rewrite Q4. destruct (rt_rest _ _ _ _ Hr) as (?&?&->). done.
  - done.
Qed.

(** [ptr] is the address of heap page [q]. *)
Lemma kfree_page s q k : kinv s -> 0 <= q < 4096 -> 0 <= k -> al s q = Some (k + 1) ->
  exists s', kfree (HEAP_BASE + PAGE_SIZE * q) s = Some (tt, s') /\ kinv s' /\ hands s s' (q / 2 ^ k * 2 ^ k) k 0.
Proof.
  intros Hs Hq Hk Ha. pose proof Hs as [H Hc Hi Hn]. destruct (used_block s q k H Hq Hk Ha) as (Hk11&B&Hin). destruct (pow2_level k ltac:(lia)) as [W _].
  unfold kfree. unfold mbind_ at 1, mget. rewrite Hi. cbn [negb]. assert (vaddr_to_page (HEAP_BASE + PAGE_SIZE * q) = q) as Hv.
  { unfold vaddr_to_page. rewrite Z.shiftr_div_pow2 by lia. replace (HEAP_BASE + PAGE_SIZE * q - HEAP_BASE) with (q * 4096) by (change PAGE_SIZE with 4096; lia).
    unwrap. rewrite (wrap_small 64) by (unfold in_w; lia). change (2 ^ 12) with 4096. rewrite Z.div_mul by lia. apply wrap_small. unfold in_w. lia. }
  rewrite Hv. assert (is_page_aligned (HEAP_BASE + PAGE_SIZE * q) = true) as ->.
  { unfold is_page_aligned. change (PAGE_SIZE - 1) with (Z.ones 12). rewrite Z.land_ones by lia. change HEAP_BASE with (0xFFFFFFFFC0000 * 2 ^ 12).
    change PAGE_SIZE with (2 ^ 12). rewrite (Z.mul_comm (2 ^ 12)), <-Z.mul_add_distr_r, Z.mod_mul by lia. done. }
  change HEAP_BASE with 0xFFFFFFFFC0000000. change HEAP_END with (0xFFFFFFFFC0000000 + 4096 * 4096). change PAGE_SIZE with 4096.
  rewrite (proj2 (Z.eqb_neq _ 0)), (proj2 (Z.ltb_ge _ _)), (proj2 (Z.leb_gt _ _)) by lia. cbn [orb negb].
  destruct (bu_tag _ _ _ B q Hin) as [Hb _]. unfold mbind_ at 1, mlift. rewrite Hb. unfold mbind_ at 1. rewrite Ha. cbn beta iota.
  rewrite Z.eqb_refl, (proj2 (Z.eqb_neq (k + 1) 0)) by lia. cbn [negb orb]. replace (k + 1 - 1) with k by lia. rewrite head_mask by lia.
  destruct (return_block s _ k Hs ltac:(lia) B) as (s2&s3&s'&H'&Hc'&Hh&Ea&Ei&E1&E2&E3). mstep E1. mstep E2. mstep E3.
  eexists. split; [reflexivity|]. rewrite shl1 by lia. split; [|exact Hh]. split; [by eapply hinv_ext; [..|exact H']|exact Hc'|exact Ei|].
  cbn [set_counts g_allocated_pages g_alloc_level]. assert (used_in (g_alloc_level s) = used_in (g_alloc_level s') + 2 ^ k) as Hu.
  { apply (used_in_block _ _ (q / 2 ^ k * 2 ^ k)); [apply H'|apply H|pose proof (bu_rg _ _ _ B); lia..| | |].
    - intros q' Hq'. by rewrite (Hh q'), decide_False.
    - intros q' Hq'. by rewrite (Hh q'), decide_True.
    - intros q' Hq'. exists (k + 1). split; [apply (bu_tag _ _ _ B q' Hq')|lia]. }
  pose proof (used_in_bound (g_alloc_level s')). pose proof (used_in_bound (g_alloc_level s)) as Hub. rewrite (hi_all _ _ H) in Hub.
  unwrap. rewrite Ea, Hn, Hu. replace (used_in (g_alloc_level s') + 2 ^ k - 2 ^ k) with (used_in (g_alloc_level s')) by lia. apply wrap_small. unfold in_w. lia.
Qed.
(** Every other pointer is ignored. *)
Lemma kfree_other s ptr : kinv s -> 0 <= ptr < 2 ^ 64 ->
  (forall q a, 0 <= q < 4096 -> ptr = HEAP_BASE + PAGE_SIZE * q -> al s q = Some a -> a = 0) -> kfree ptr s = Some (tt, s).
Proof.
  intros [H Hc Hi Hn] Hr Ho. unfold kfree. unfold mbind_ at 1, mget. rewrite Hi. cbn [negb]. destruct (ptr =? 0); [done|].
  change HEAP_END with (HEAP_BASE + 4096 * 4096). destruct (Z.ltb_spec ptr HEAP_BASE); [done|]. destruct (Z.leb_spec (HEAP_BASE + 4096 * 4096) ptr); [done|]. cbn [orb].
  destruct (is_page_aligned ptr) eqn:Hal; [|done]. cbn [negb]. apply Z.eqb_eq in Hal. change (PAGE_SIZE - 1) with (Z.ones 12) in Hal. rewrite Z.land_ones in Hal by lia. change (2 ^ 12) with 4096 in Hal.
  assert (exists q, 0 <= q < 4096 /\ ptr = HEAP_BASE + 4096 * q /\ vaddr_to_page ptr = q) as (q&Hq&Hp&Hv).
  { exists (ptr / 4096 - HEAP_BASE / 4096). pose proof (Z.div_mod ptr 4096). change (HEAP_BASE / 4096) with 0xFFFFFFFFC0000. change HEAP_BASE with 0xFFFFFFFFC0000000 in *.
    split; [lia|]. split; [lia|]. unfold vaddr_to_page. change HEAP_BASE with 0xFFFFFFFFC0000000. unwrap. rewrite (wrap_small 64) by (unfold in_w; lia). rewrite Z.shiftr_div_pow2 by lia. change (2 ^ 12) with 4096.
    replace (ptr - 0xFFFFFFFFC0000000) with ((ptr / 4096 - 0xFFFFFFFFC0000) * 4096) by lia. rewrite Z.div_mul by lia. apply wrap_small. unfold in_w. lia. }
  rewrite Hv. destruct (zget_is_Some (g_block_level s) q) as [b Hb]; [rewrite (hi_bl _ _ H); lia|]. destruct (zget_is_Some (g_alloc_level s) q) as [a Ha]; [rewrite (hi_all _ _ H); lia|].
  unfold mbind_ at 1, mlift. rewrite Hb. unfold mbind_ at 1. rewrite Ha. rewrite (Ho q a Hq Hp Ha), Z.eqb_refl, orb_true_r. done.
Qed.

Lemma kfree_run s ptr : kinv s -> 0 <= ptr < 2 ^ 64 -> exists s', kfree ptr s = Some (tt, s') /\ kinv s' /\
  ((exists q k, 0 <= q < 4096 /\ 0 <= k <= 11 /\ ptr = HEAP_BASE + PAGE_SIZE * q /\ al s q = Some (k + 1) /\ hands s s' (q / 2 ^ k * 2 ^ k) k 0) \/
   (s' = s /\ forall q a, 0 <= q < 4096 -> ptr = HEAP_BASE + PAGE_SIZE * q -> al s q = Some a -> a = 0)).
Proof.
  intros Hs Hp. destruct (decide (0 <= ptr - HEAP_BASE < 4096 * 4096 /\ (ptr - HEAP_BASE) mod 4096 = 0)) as [(Hi&E)|Hno].
  2:{ exists s. assert (forall q a, 0 <= q < 4096 -> ptr = HEAP_BASE + PAGE_SIZE * q -> al s q = Some a -> a = 0) as Ho
        by (intros q a Hq -> _; destruct Hno; replace (HEAP_BASE + PAGE_SIZE * q - HEAP_BASE) with (q * 4096) by (change PAGE_SIZE with 4096; lia); split; [lia|by apply Z.mod_mul]).
      split; [by apply kfree_other|]. split; [done|by right]. }
  assert (exists q, 0 <= q < 4096 /\ ptr = HEAP_BASE + PAGE_SIZE * q) as (q&Hq&E').
  { exists ((ptr - HEAP_BASE) / 4096). pose proof (Z.div_mod (ptr - HEAP_BASE) 4096). change PAGE_SIZE with 4096. lia. }
  destruct (zget_is_Some (g_alloc_level s) q) as [a Ha]; [rewrite (hi_all _ _ (ki_h _ Hs)); lia|].
  destruct (decide (a = 0)) as [->|Hne].
  - exists s. assert (forall q' a', 0 <= q' < 4096 -> ptr = HEAP_BASE + PAGE_SIZE * q' -> al s q' = Some a' -> a' = 0) as Ho
      by (intros q' a' _ Eq' Ha'; assert (q' = q) as -> by (change PAGE_SIZE with 4096 in *; lia); congruence).
    split; [by apply kfree_other|]. split; [done|by right].
  - destruct (hi_cover _ _ (ki_h _ Hs) q Hq I) as [(k&l&p&Hl&Hpl&Hin)|(k&p&Hk&B&Hin&_)].
    { rewrite (bf_zero _ _ _ (proj1 (hi_free _ _ (ki_h _ Hs) _ _ _ Hl Hpl)) q Hin) in Ha. congruence. }
    destruct (kfree_page s q k Hs Hq ltac:(lia) (proj2 (bu_tag _ _ _ B q Hin))) as (s'&Ef&Hs'&Hh). exists s'. rewrite E'. split; [done|]. split; [done|]. left.
    exists q, k. split_and!; [lia..|done|apply (bu_tag _ _ _ B q Hin)|done].
Qed.

(** ** kheap_verify_integrity *)

Lemma verify_interior_ok s p k n q : bfree s p k -> 0 <= k -> p < q -> q + Z.of_nat n <= p + 2 ^ k -> verify_interior n (g_block_level s) q = Some true.
Proof.
  intros B Hk. revert q. induction n as [|n IH]; intros q Hq Hn; [done|]. cbn [verify_interior]. pose proof (bf_rg _ _ _ B).
  rewrite heap_pages, (proj2 (Z.leb_gt 4096 q)) by lia. rewrite (bf_int _ _ _ B q) by lia. cbn [mbind option_bind]. rewrite IH by lia. cbn [mbind option_bind]. by rewrite Z.eqb_refl.
Qed.
Lemma verify_list_ok s k l0 l vis c : hinv s None -> fl s k = Some l0 -> l ⊆ l0 -> NoDup l -> length vis = Z.to_nat 4096 ->
  (forall p, p ∈ l -> zget vis p = Some 0) -> 0 <= c -> c + 2 ^ k * Z.of_nat (length l) < 2 ^ 64 ->
  exists vis', verify_list k (g_block_level s) l true vis c = Some (true, vis', c + 2 ^ k * Z.of_nat (length l)) /\ length vis' = Z.to_nat 4096 /\
  forall q, q ∉ l -> zget vis' q = zget vis q.
Proof.
  intros H Hl. pose proof (fl_level _ _ _ _ H Hl) as Hk. destruct (pow2_level k Hk) as [W _]. revert vis c. induction l as [|p l IH]; intros vis c Hsub Hnd Lv Hv Hc Hlt.
  - exists vis. cbn [verify_list length]. change (Z.of_nat 0) with 0. by rewrite Z.mul_0_r, Z.add_0_r.
  - cbn [verify_list]. destruct (hi_free _ _ H _ _ p Hl ltac:(apply Hsub; by left)) as [B _]. pose proof (bf_rg _ _ _ B). cbn [length] in Hlt. rewrite Nat2Z.inj_succ in Hlt.
    rewrite heap_pages, (proj2 (Z.leb_gt 4096 p)) by lia. rewrite (bf_head _ _ _ B). cbn [mbind option_bind]. rewrite (Hv p) by (by left). cbn [mbind option_bind].
    rewrite zset_Some by lia. cbn [mbind option_bind]. rewrite shl1 by lia. rewrite (verify_interior_ok s p k) by (done || lia). cbn [mbind option_bind].
    replace (u8 k) with k by (unwrap; rewrite wrap_small by (unfold in_w; lia); done). rewrite Z.eqb_refl. cbn [andb Z.eqb].
    replace (u64 (c + 2 ^ k)) with (c + 2 ^ k) by (unwrap; rewrite wrap_small by (unfold in_w; lia); done). apply NoDup_cons in Hnd as [Hp Hnd].
    destruct (IH (<[Z.to_nat p := 1]> vis) (c + 2 ^ k)) as (vis'&E&L'&Hrest); [set_solver|done|by rewrite length_insert| |lia|lia|].
    { intros q Hq. rewrite zget_insert by lia. rewrite decide_False by (intros ->; done). apply Hv. by right. }
    exists vis'. rewrite E. split; [f_equal; f_equal; cbn [length]; lia|]. split; [done|]. intros q Hq. rewrite Hrest by set_solver. rewrite zget_insert by lia. apply decide_False. set_solver.
Qed.

(** The free blocks as pairs of level and first page, and the pages they hold. *)
Fixpoint blocks_from (lvl : Z) (ls : list (list Z)) : list (Z * Z) :=
  match ls with [] => [] | l :: ls' => ((fun p => (lvl, p)) <$> l) ++ blocks_from (lvl + 1) ls' end.
Definition pages_of (b : list (Z * Z)) : list Z := b ≫= fun x => seqZ x.2 (2 ^ x.1).

Lemma blocks_snd lvl ls : (blocks_from lvl ls).*2 = concat ls.
Proof.
  revert lvl. induction ls as [|l ls IH]; intros lvl; [done|]. cbn [blocks_from concat]. rewrite fmap_app, IH. f_equal. rewrite <-list_fmap_compose. apply list_fmap_id.
Qed.
Lemma blocks_elem lvl ls k p : (k, p) ∈ blocks_from lvl ls <-> exists l, lvl <= k /\ zget ls (k - lvl) = Some l /\ p ∈ l.
Proof.
  revert lvl. induction ls as [|l ls IH]; intros lvl; cbn [blocks_from].
  - split; [by intros ?%elem_of_nil|]. intros (l&?&Hl%zget_range&?). simpl in Hl. lia.
  - rewrite elem_of_app, list_elem_of_fmap, IH. split.
    + intros [(x&[= -> ->]&Hx)|(l'&Hk&Hl'&Hp)]; [exists l; rewrite Z.sub_diag; split; [lia|done]|].
      exists l'. split; [lia|]. split; [|done]. replace (k - lvl) with (k - (lvl + 1) + 1) by lia. pose proof (zget_range _ _ _ Hl'). rewrite <-Hl'. unfold zget.
      rewrite (proj2 (Z.leb_le 0 _)), (proj2 (Z.leb_le 0 _)) by lia. replace (Z.to_nat (k - (lvl + 1) + 1)) with (S (Z.to_nat (k - (lvl + 1)))) by lia. done.
    + intros (l'&Hk&Hl'&Hp). destruct (decide (k = lvl)) as [->|]; [left; rewrite Z.sub_diag in Hl'; injection Hl' as <-; by exists p|right].
      exists l'. split; [lia|]. split; [|done]. rewrite <-Hl'. unfold zget. rewrite (proj2 (Z.leb_le 0 _)), (proj2 (Z.leb_le 0 _)) by lia.
      replace (Z.to_nat (k - lvl)) with (S (Z.to_nat (k - (lvl + 1)))) by lia. done.
Qed.
Lemma filter_ext_in {A} (P Q : A -> Prop) `{!forall x, Decision (P x), !forall x, Decision (Q x)} (l : list A) :
  (forall x, x ∈ l -> (P x <-> Q x)) -> filter P l = filter Q l.
Proof.
  induction l as [|x l IH]; intros HPQ; [done|]. rewrite !filter_cons, IH by (intros; apply HPQ; by right). pose proof (HPQ x ltac:(by left)).
  destruct (decide (P x)), (decide (Q x)); done || tauto.
Qed.
Lemma zero_count l : Z.of_nat (length (filter (fun q => zget l q = Some 0) (seqZ 0 (Z.of_nat (length l))))) + used_in l = Z.of_nat (length l).
Proof.
  induction l as [|a l IH] using rev_ind; [done|]. rewrite length_app, used_in_app, Nat2Z.inj_add. change (Z.of_nat (length [a])) with 1. rewrite seqZ_app, filter_app, length_app by lia.
  change (seqZ (0 + Z.of_nat (length l)) 1) with [0 + Z.of_nat (length l)]. rewrite Z.add_0_l.
  assert (filter (fun q => zget (l ++ [a]) q = Some 0) (seqZ 0 (Z.of_nat (length l))) = filter (fun q => zget l q = Some 0) (seqZ 0 (Z.of_nat (length l)))) as ->.
  { apply filter_ext_in. intros q Hq%elem_of_seqZ. unfold zget. rewrite (proj2 (Z.leb_le 0 _)) by lia. rewrite lookup_app_l by lia. done. }
  unfold used_in at 2. rewrite !filter_cons, !filter_nil, zget_nat, lookup_app_r, Nat.sub_diag by lia. cbn [lookup list_lookup]. destruct (decide (a <> 0)), (decide (Some a = Some 0)) as [[= ?]|]; cbn [length]; lia || naive_solver.
Qed.
Lemma free_pages_count s : hinv s None -> Z.of_nat (length (pages_of (blocks_from 0 (g_free_list s)))) = 4096 - used_in (g_alloc_level s).
Proof.
  intros H. assert (forall k p, (k, p) ∈ blocks_from 0 (g_free_list s) <-> exists l, fl s k = Some l /\ p ∈ l) as Hb.
  { intros k p. rewrite blocks_elem, Z.sub_0_r. split; [intros (l&_&?); by exists l|]. intros (l&Hl&Hp). exists l. pose proof (zget_range _ _ _ Hl). split; [lia|done]. }
  pose proof (zero_count (g_alloc_level s)) as Hz. rewrite (hi_all _ _ H) in Hz. rewrite Z2Nat.id in Hz by lia.
  enough (pages_of (blocks_from 0 (g_free_list s)) ≡ₚ filter (fun q => al s q = Some 0) (seqZ 0 4096)) as -> by lia. apply NoDup_Permutation.
  - apply NoDup_bind.
    + intros [k p] [k' p'] q Hp%Hb Hp'%Hb Hq%elem_of_seqZ Hq'%elem_of_seqZ. destruct Hp as (l&?&?), Hp' as (l'&?&?). destruct (free_meet s None k l p k' l' p' q) as [-> ->]; done.
    + intros x _. apply NoDup_seqZ.
    + apply (NoDup_fmap_1 snd). rewrite blocks_snd. apply H.
  - apply NoDup_filter, NoDup_seqZ.
  - intros q. rewrite list_elem_of_filter, elem_of_seqZ. unfold pages_of. rewrite list_elem_of_bind. split.
    + intros ([k p]&Hq%elem_of_seqZ&(l&Hl&Hp)%Hb). destruct (hi_free _ _ H _ _ _ Hl Hp) as [B _]. pose proof (bf_rg _ _ _ B). simpl in Hq. split; [by apply (bf_zero _ _ _ B)|lia].
    + intros [Ha Hq]. destruct (hi_cover _ _ H q ltac:(lia) I) as [(k&l&p&Hl&Hp&Hi)|(k&p&Hk&B&Hi&_)].
      * exists (k, p). rewrite Hb. split; [by apply elem_of_seqZ|by exists l].
      * rewrite (proj2 (bu_tag _ _ _ B q Hi)) in Ha. injection Ha as ?. lia.
Qed.

Lemma verify_lists_ok s ls : forall lvl vis c, hinv s None -> 0 <= lvl -> (forall i l, zget ls i = Some l -> fl s (lvl + i) = Some l) -> NoDup (concat ls) ->
  length vis = Z.to_nat 4096 -> (forall p, p ∈ concat ls -> zget vis p = Some 0) -> 0 <= c -> c + Z.of_nat (length (pages_of (blocks_from lvl ls))) < 2 ^ 64 ->
  verify_lists lvl (g_block_level s) ls true vis c = Some (true, c + Z.of_nat (length (pages_of (blocks_from lvl ls)))).
Proof.
  induction ls as [|l ls IH]; intros lvl vis c H Hlv Hls Hnd Lv Hv Hc Hlt; [cbn; do 2 f_equal; lia|].
  cbn [verify_lists blocks_from concat] in *. pose proof (Hls 0 l eq_refl) as Hl. rewrite Z.add_0_r in Hl. destruct (pow2_level lvl (fl_level _ _ _ _ H Hl)) as [W _].
  assert (forall b, length (pages_of (((fun p => (lvl, p)) <$> l) ++ b)) = (Z.to_nat (2 ^ lvl) * length l + length (pages_of b))%nat) as Hlen.
  { intros b. unfold pages_of. rewrite bind_app, length_app. f_equal. clear. induction l as [|p l IH]; [simpl; lia|]. cbn [fmap list_fmap mbind list_bind length]. rewrite length_app, length_seqZ, IH. simpl. lia. }
  rewrite Hlen in Hlt |- *. apply NoDup_app in Hnd as (N1&N2&N3).
  destruct (verify_list_ok s lvl l l vis c H Hl ltac:(done) N1 Lv ltac:(intros; apply Hv; set_solver) Hc) as (vis'&E&L'&Hrest); [lia|]. rewrite E. cbn [mbind option_bind].
  rewrite IH; [f_equal; f_equal; lia|done|lia| |done|done| |lia|lia].
  - intros i l' Hi. replace (lvl + 1 + i) with (lvl + (i + 1)) by lia. apply Hls. pose proof (zget_range _ _ _ Hi). rewrite <-Hi. unfold zget.
    rewrite (proj2 (Z.leb_le 0 _)), (proj2 (Z.leb_le 0 _)) by lia. replace (Z.to_nat (i + 1)) with (S (Z.to_nat i)) by lia. done.
  - intros p Hp. rewrite Hrest; [apply Hv; set_solver|]. intros ?. by apply (N2 p).
Qed.
Lemma verify_run s : kinv s -> kheap_verify_integrity s = Some 1.
Proof.
  intros [H Hc Hi Hn]. unfold kheap_verify_integrity. rewrite Hi. cbn [negb]. pose proof (free_pages_count s H) as Hf.
  pose proof (used_in_bound (g_alloc_level s)) as Hu. rewrite (hi_all _ _ H) in Hu.
  rewrite (verify_lists_ok s (g_free_list s)); [|done|done|intros i l; by rewrite Z.add_0_l|apply H|by rewrite length_replicate| |lia|lia].
  - cbn [mbind option_bind andb]. rewrite Hf, Hn, heap_pages. unwrap. rewrite (wrap_small 64) by (unfold in_w; lia). rewrite Z.add_0_l, Z.eqb_refl. done.
  - intros p (k&l&Hl&Hp)%(concat_elem _ _ _ H). destruct (hi_free _ _ H _ _ _ Hl Hp) as [B _]. pose proof (bf_rg _ _ _ B). destruct (pow2_level k (fl_level _ _ _ _ H Hl)) as [W _].
    rewrite heap_pages. apply zget_Some. split; [lia|]. apply lookup_replicate. lia.
Qed.

(** ** Initialisation *)

(** The last push of a maximal block. *)
Lemma coal_push_max s l p : fl s 11 = Some l -> coal s -> coal (relist s 11 l (p :: l)).
Proof. intros Hl Hc k l' p' Hk Hl' Hp Hb. destruct (coal_push s 11 l p _ ltac:(lia) Hl Hc k l' p' Hk Hl' Hp Hb) as [?|[-> _]]; [done|lia]. Qed.
(** A maximal block of pages that are free already goes on its list. *)
Lemma free_max s d d' p : hinv s d -> coal s -> (2 ^ 11 | p) -> 0 <= p /\ p + 2 ^ 11 <= 4096 -> (forall q, 0 <= q < 4096 -> al s q = Some 0) ->
  (forall q, inb p 11 q -> ~ off d q) -> (forall q, off d' q <-> off d q \/ inb p 11 q) ->
  exists s1 s2, mark_block_free p 11 s = Some (tt, s1) /\ fl_push 11 p s1 = Some (true, s2) /\ hinv s2 d' /\ coal s2 /\ quiet s s2.
Proof.
  intros H Hc A R Hz Hin Hd. destruct (mark_free_run s p 11 (hi_bl _ _ H) (hi_all _ _ H) ltac:(lia) A R) as (s1&E1&Hr&B).
  pose proof (hinv_retag _ _ _ _ _ H Hr Hin) as H1. destruct (fl_some _ _ 11 H1 ltac:(lia)) as [l Hl].
  exists s1, (relist s1 11 l (p :: l)). split; [done|]. split; [by eapply fl_push_run|]. split; [by apply (hinv_attach s1 d)|].
  split; [apply coal_push_max; [done|by eapply coal_retag]|]. transitivity s1; [|apply relist_quiet]. apply (retag_quiet _ _ _ _ Hr B).
  intros q Hq. apply Hz. unfold inb in Hq. lia.
Qed.
Lemma kheap_reset_run s : exists s', kheap_reset s = Some (tt, s') /\ kinv s' /\ forall q, 0 <= q < 4096 -> al s' q = Some 0.
Proof.
  unfold kheap_reset, kh_pool_init, mmodify. unfold mbind_ at 1. unfold mbind_ at 1. unfold mbind_ at 1. set (s0 := set_tags _ _ _). change BUDDY_MAX_LEVEL with 11. change (Z.shiftl 1 11) with 2048.
  assert (forall k l, fl s0 k = Some l -> l = []) as Hnil by (intros k l [_ Hl]%zget_Some; by apply lookup_replicate_1 in Hl as [-> _]).
  assert (forall q, 0 <= q < 4096 -> al s0 q = Some 0) as Hz by (intros q Hq; apply zget_Some; split; [lia|]; apply lookup_replicate; rewrite heap_pages; lia).
  assert (coal s0) as Hc by (intros k l p Hk Hl Hp; rewrite (Hnil k l Hl) in Hp; by apply elem_of_nil in Hp).
  assert (hinv s0 (Some (0, 12))) as H0.
  { split; [done|done|done| |constructor| |done]; [intros k l p Hl Hp; rewrite (Hnil k l Hl) in Hp; by apply elem_of_nil in Hp|].
    intros q Hq Ho. destruct Ho. unfold inb. change (2 ^ 12) with 4096. lia. }
  clearbody s0. destruct (free_max s0 (Some (0, 12)) (Some (2048, 11)) 0 H0 Hc) as (s1&s2&E1&E2&H2&Hc2&Q2); [by exists 0|lia|done|simpl; unfold inb; lia..|]. mstep E1. mstep E2.
  assert (forall q, 0 <= q < 4096 -> al s2 q = Some 0) as Hz2 by (intros q Hq; by rewrite (qt_al _ _ Q2), Hz).
  destruct (free_max s2 (Some (2048, 11)) None 2048 H2 Hc2) as (s3&s4&E3&E4&H4&Hc4&Q4); [by exists 1|lia|done|simpl; unfold inb; lia..|]. mstep E3. mstep E4.
  assert (forall q, 0 <= q < 4096 -> al s4 q = Some 0) as Hz4 by (intros q Hq; by rewrite (qt_al _ _ Q4), Hz2).
  eexists. split; [reflexivity|]. split; [|exact Hz4]. split; [eapply hinv_ext; [..|exact H4]; done|exact Hc4|done|].
  cbn [set_counts g_allocated_pages g_alloc_level]. symmetry. rewrite (used_in_all False), decide_False; [done|tauto|].
  intros a (i&Hi)%list_elem_of_lookup. pose proof (lookup_lt_Some _ _ _ Hi) as Hlt. rewrite (hi_all _ _ H4) in Hlt. rewrite <-zget_nat, Hz4 in Hi by lia. injection Hi as <-. tauto.
Qed.

(** ** What the heap promises *)

(** [kmalloc] never faults on a sound heap and leaves it sound.  Let [k] be the level of the request: the least
    one whose blocks hold [size] bytes, up to 8 MiB.  Either the result is NULL, nothing changed, and no aligned run
    of [2^k] pages is free; or it is the address of an aligned run of [2^k] pages that were all free, exactly
    those pages now carry the tag of a level-[k] block in use, and the owner of every other page is as before. *)
Theorem kmalloc_exact s size : kinv s -> 0 <= size < 2 ^ 64 -> exists r s', kmalloc size s = Some (r, s') /\ kinv s' /\
  let k := request_level size in 0 <= k <= 11 /\ (size <= 2 ^ 23 -> size <= PAGE_SIZE * 2 ^ k) /\ (0 < k -> PAGE_SIZE * 2 ^ (k - 1) < size) /\
  ((r = 0 /\ s' = s /\ forall p, ~ group_free s p k) \/
   (exists p, r = HEAP_BASE + PAGE_SIZE * p /\ group_free s p k /\ hands s s' p k (k + 1))).
Proof.
  intros Hs Hz. destruct (kmalloc_run s size Hs) as (r&s'&E&Hs'&Hr). destruct (request_level_run size ltac:(lia)) as (R&A&B). exists r, s'. done.
Qed.

(** [kfree] never faults on a sound heap and leaves it sound and coalesced.  A pointer to any page of a block in
    use (its first or a later one) frees exactly the pages of that block; every other pointer (NULL, outside the heap,
    not page-aligned, or to a free page, so also a second free) changes nothing. *)
Theorem kfree_exact s ptr : kinv s -> 0 <= ptr < 2 ^ 64 -> exists s', kfree ptr s = Some (tt, s') /\ kinv s' /\
  ((exists q k, 0 <= q < 4096 /\ 0 <= k <= 11 /\ ptr = HEAP_BASE + PAGE_SIZE * q /\ al s q = Some (k + 1) /\ hands s s' (q / 2 ^ k * 2 ^ k) k 0) \/
   (s' = s /\ forall q a, 0 <= q < 4096 -> ptr = HEAP_BASE + PAGE_SIZE * q -> al s q = Some a -> a = 0)).
Proof. apply kfree_run. Qed.

(** What [kmalloc] returns, [kfree] takes back: after the pair every page has the owner it had before. *)
Theorem kmalloc_kfree_roundtrip s size r s' : kinv s -> kmalloc size s = Some (r, s') -> r <> 0 ->
  exists s'', kfree r s' = Some (tt, s'') /\ kinv s'' /\ forall q, al s'' q = al s q.
Proof.
  intros Hs E Hr. destruct (kmalloc_run s size Hs) as (r1&s1&E1&Hs1&Hcase). rewrite E in E1. injection E1 as <- <-.
  destruct Hcase as [(->&_)|(p&->&(A&P0&P1&Z0)&Hh)]; [done|]. set (k := request_level size) in *.
  pose proof (request_level_bound size) as Hk. fold k in Hk. destruct (pow2_level k Hk) as [W _].
  destruct (kfree_page s' p k Hs1 ltac:(lia) ltac:(lia)) as (s''&Ef&Hs2&Hh2); [rewrite (Hh p), decide_True by (unfold inb; lia); done|].
  exists s''. split; [done|]. split; [done|]. intros q. rewrite (Hh2 q), (Hh q). destruct A as [a ->]. rewrite Z.div_mul by lia.
  case_decide as Hq; [by rewrite (Z0 q Hq)|done].
Qed.

(** ** Any sequence of calls *)

Inductive kcall := Malloc (size : Z) | Free (ptr : Z).
Definition krun (c : kcall) : M kheap unit := match c with Malloc size => kmalloc size ;;; return tt | Free ptr => kfree (u64 ptr) end.
Fixpoint kruns (cs : list kcall) : M kheap unit := match cs with [] => return tt | c :: cs' => krun c ;;; kruns cs' end.

Lemma kruns_run cs : forall s, kinv s -> exists s', kruns cs s = Some (tt, s') /\ kinv s'.
Proof.
  induction cs as [|c cs IH]; intros s Hs; [by exists s|]. cbn [kruns]. assert (exists s', krun c s = Some (tt, s') /\ kinv s') as (s'&E&Hs').
  { destruct c as [size|ptr]; cbn [krun].
    - destruct (kmalloc_run s size Hs) as (r&s'&E&Hs'&_). exists s'. mstep E. done.
    - destruct (kfree_run s (u64 ptr) Hs) as (s'&E&Hs'&_); [apply wrap_range; lia|]. by exists s'. }
  mstep E. by apply IH.
Qed.

(** C16: after initialisation no sequence of [kmalloc] and [kfree] calls, with any sizes and pointers, faults; the heap
    stays sound and coalesced, its page count is the number of pages in use, and [kheap_verify_integrity] reports 1. *)
Theorem kheap_calls_sound s cs : exists s0 s', kheap_reset s = Some (tt, s0) /\ kruns cs s0 = Some (tt, s') /\
  kinv s' /\ g_allocated_pages s' = used_in (g_alloc_level s') /\ kheap_verify_integrity s' = Some 1.
Proof.
  destruct (kheap_reset_run s) as (s0&E0&H0&_). destruct (kruns_run cs s0 H0) as (s'&E&H'). exists s0, s'.
  split; [done|]. split; [done|]. split; [done|]. split; [apply H'|by apply verify_run].
Qed.

(** A request above 8 MiB is served with an 8 MiB block, and one within a page of 2^64 with a single page. *)
Theorem kmalloc_oversized_short s p : kinv s -> group_free s p 11 -> forall size, 2 ^ 23 < size <= 2 ^ 64 - 4096 ->
  request_level size = 11 /\ request_level (2 ^ 64 - 1) = 0 /\ exists p' s', kmalloc size s = Some (HEAP_BASE + PAGE_SIZE * p', s') /\ hands s s' p' 11 12.
Proof.
  intros Hs G size Hz. assert (request_level size = 11) as Hk.
  { destruct (request_level_run size ltac:(lia)) as (R&_&_). unfold request_level in *. change PAGE_SIZE with 4096 in *. unwrap. rewrite (wrap_small 64) in * by (unfold in_w; lia).
    assert (2048 < (size + 4096 - 1) / 4096) as Hq by (apply Z.le_succ_l, Z.div_le_lower_bound; lia). revert R. rewrite (proj2 (Z.eqb_neq _ 0)) by lia. intros R.
    destruct (min_level_loop_run (Z.to_nat BUDDY_MAX_LEVEL) ((size + 4096 - 1) / 4096) 0 ltac:(lia)) as (r&E&R'&A&_). unfold min_level_for_pages in *. rewrite (proj2 (Z.eqb_neq _ 0)) in * by lia.
    change (2 ^ 0) with 1 in E. rewrite E in *. change (Z.of_nat (Z.to_nat BUDDY_MAX_LEVEL)) with 11 in *. destruct (decide (r = 11)); [done|].
    pose proof (Z.pow_le_mono_r 2 r 11 ltac:(lia) ltac:(lia)). lia. }
  split; [done|]. split; [reflexivity|]. destruct (kmalloc_run s size Hs) as (r&s'&E&_&Hcase). rewrite Hk in Hcase.
  destruct Hcase as [(_&_&Hno)|(p'&->&_&Hh)]; [by destruct (Hno p)|by exists p', s'].
Qed.

(** ** A concrete heap *)

Definition kh_any : kheap := Kheap 0 [] [] [] 0 0 0 false.
Definition state_after {S A} (c : M S A) (s : S) : S := match c s with Some (_, s') => s' | None => s end.
Definition kh0 : kheap := state_after kheap_reset kh_any.
Lemma kh0_kinv : kinv kh0 /\ forall q, 0 <= q < 4096 -> al kh0 q = Some 0.
Proof. destruct (kheap_reset_run kh_any) as (s'&E&H). unfold kh0, state_after. rewrite E. exact H. Qed.

Lemma kmalloc_exact_witness : exists r s', kmalloc 8192 kh0 = Some (r, s') /\ kinv s' /\ request_level 8192 = 1.
Proof.
  destruct (kmalloc_exact kh0 8192 (proj1 kh0_kinv) ltac:(lia)) as (r&s'&E&Hs&_). exists r, s'. split; [exact E|]. split; [exact Hs|]. reflexivity.
Defined.
Lemma kfree_exact_witness : exists s', kfree (HEAP_BASE + 4096) kh0 = Some (tt, s') /\ kinv s'.
Proof.
  destruct (kfree_exact kh0 (HEAP_BASE + 4096) (proj1 kh0_kinv) ltac:(split; [discriminate|reflexivity])) as (s'&E&Hs&_). exists s'. split; [exact E|exact Hs].
Defined.
Lemma kmalloc_kfree_roundtrip_witness : exists s', kmalloc 4096 kh0 = Some (HEAP_BASE + 2048 * 4096, s') /\
  exists s'', kfree (HEAP_BASE + 2048 * 4096) s' = Some (tt, s'') /\ kinv s''.
Proof.
  assert (exists s', kmalloc 4096 kh0 = Some (HEAP_BASE + 2048 * 4096, s')) as [s' E].
  { eexists. vm_compute. reflexivity. }
  exists s'. split; [exact E|]. destruct (kmalloc_kfree_roundtrip kh0 4096 _ s' (proj1 kh0_kinv) E ltac:(discriminate)) as (s''&Ef&Hs&_).
  exists s''. split; [exact Ef|exact Hs].
Defined.
