(* ===== verification/LibcString.v ===== *)
(** * The C library: memory and strings (src/libc/common/string.c)

    The functions on a byte memory, address by address: [gmap Z Z] holds the bytes of
    the objects that exist, and any other access is a fault.  A pointer is its address,
    NULL is 0, a [char] is its byte.  A loop that runs to the end of a string takes at
    most one step for each byte that exists; [fuelled] gives it that bound.  [strdup]
    (it calls malloc) and the table of [strerror] are left out. *)

From stdpp Require Import base numbers gmap list options.
From S2P Require Import Prelude.

Notation mem := (gmap Z Z).

Definition ld (p : Z) : M mem Z := m <~ mget ;; mlift (m !! p).
Definition st (p v : Z) : M mem unit :=
  m <~ mget ;; match m !! p with None => mfault | Some _ => mput (<[p := u8 v]> m) end.

Definition fuelled {A} (f : nat -> M mem A) : M mem A := fun m => f (S (size m)) m.

(** ** Memory *)

Fixpoint copy_up (n : nat) (d s : Z) : M mem unit :=
  match n with O => return tt | S n' => c <~ ld s ;; st d c ;;; copy_up n' (d + 1) (s + 1) end.
(** [while ( n-- ) *--d = *--s]. *)
Fixpoint copy_down (n : nat) (d s : Z) : M mem unit :=
  match n with O => return tt | S n' => c <~ ld (s - 1) ;; st (d - 1) c ;;; copy_down n' (d - 1) (s - 1) end.

Definition memcpy (dest src n : Z) : M mem Z := copy_up (Z.to_nat n) dest src ;;; return dest.
Definition memmove (dest src n : Z) : M mem Z :=
  (if dest <? src then copy_up (Z.to_nat n) dest src
   else if src <? dest then copy_down (Z.to_nat n) (dest + n) (src + n)
   else return tt) ;;; return dest.

Fixpoint set_loop (n : nat) (p c : Z) : M mem unit :=
  match n with O => return tt | S n' => st p c ;;; set_loop n' (p + 1) c end.
Definition memset (s c n : Z) : M mem Z := set_loop (Z.to_nat n) s c ;;; return s.

Fixpoint memcmp_loop (n : nat) (a b : Z) : M mem Z :=
  match n with
  | O => return 0
  | S n' => x <~ ld a ;; y <~ ld b ;; if negb (x =? y) then return (x - y) else memcmp_loop n' (a + 1) (b + 1)
  end.
Definition memcmp (s1 s2 n : Z) : M mem Z := memcmp_loop (Z.to_nat n) s1 s2.

Fixpoint memchr_loop (n : nat) (p c : Z) : M mem Z :=
  match n with
  | O => return 0
  | S n' => x <~ ld p ;; if x =? u8 c then return p else memchr_loop n' (p + 1) c
  end.
Definition memchr (s c n : Z) : M mem Z := memchr_loop (Z.to_nat n) s c.

(** ** Length and copies *)

Fixpoint strlen_loop (k : nat) (s len : Z) : M mem Z :=
  match k with
  | O => mfault
  | S k' => c <~ ld s ;; if c =? 0 then return len else strlen_loop k' (s + 1) (len + 1)
  end.
Definition strlen (s : Z) : M mem Z := fuelled (fun k => strlen_loop k s 0).

Fixpoint strnlen_loop (k : nat) (s maxlen len : Z) : M mem Z :=
  if maxlen <=? len then return len else
  match k with
  | O => mfault
  | S k' => c <~ ld (s + len) ;; if c =? 0 then return len else strnlen_loop k' s maxlen (len + 1)
  end.
Definition strnlen (s maxlen : Z) : M mem Z := fuelled (fun k => strnlen_loop k s maxlen 0).

(** [while ( *d++ = *src++ )]. *)
Fixpoint strcpy_loop (k : nat) (d src : Z) : M mem unit :=
  match k with
  | O => mfault
  | S k' => c <~ ld src ;; st d c ;;; if c =? 0 then return tt else strcpy_loop k' (d + 1) (src + 1)
  end.
Definition strcpy (dest src : Z) : M mem Z := fuelled (fun k => strcpy_loop k dest src) ;;; return dest.

(** The copy loop of [strncpy]: where [d] and [n] are when it ends. *)
Fixpoint strncpy_loop (n : nat) (d src : Z) : M mem (Z * nat) :=
  match n with
  | O => return (d, O)
  | S n' => c <~ ld src ;; st d c ;;; if c =? 0 then return (d + 1, n) else strncpy_loop n' (d + 1) (src + 1)
  end.
Definition strncpy (dest src n : Z) : M mem Z :=
  ' (d, rest) <~ strncpy_loop (Z.to_nat n) dest src ;; set_loop rest d 0 ;;; return dest.

(** [while ( *d ) d++]. *)
Fixpoint end_loop (k : nat) (d : Z) : M mem Z :=
  match k with O => mfault | S k' => c <~ ld d ;; if c =? 0 then return d else end_loop k' (d + 1) end.
Definition strcat (dest src : Z) : M mem Z :=
  d <~ fuelled (fun k => end_loop k dest) ;; fuelled (fun k => strcpy_loop k d src) ;;; return dest.

Fixpoint strncat_loop (k : nat) (d src n : Z) : M mem Z :=
  if n =? 0 then return d else
  match k with
  | O => mfault
  | S k' => c <~ ld src ;; if c =? 0 then return d else st d c ;;; strncat_loop k' (d + 1) (src + 1) (n - 1)
  end.
Definition strncat (dest src n : Z) : M mem Z :=
  d <~ fuelled (fun k => end_loop k dest) ;; d <~ fuelled (fun k => strncat_loop k d src n) ;; st d 0 ;;; return dest.

(** ** Comparison *)

Fixpoint strcmp_loop (k : nat) (s1 s2 : Z) : M mem Z :=
  match k with
  | O => mfault
  | S k' =>
    a <~ ld s1 ;; b <~ ld s2 ;;
    if negb (a =? 0) && (a =? b) then strcmp_loop k' (s1 + 1) (s2 + 1) else return (a - b)
  end.
Definition strcmp (s1 s2 : Z) : M mem Z := fuelled (fun k => strcmp_loop k s1 s2).

Fixpoint strncmp_loop (k : nat) (s1 s2 n : Z) : M mem Z :=
  if n =? 0 then return 0 else
  match k with
  | O => mfault
  | S k' =>
    a <~ ld s1 ;;
    if a =? 0 then b <~ ld s2 ;; return (a - b) else
    b <~ ld s2 ;;
    if a =? b then strncmp_loop k' (s1 + 1) (s2 + 1) (n - 1) else return (a - b)
  end.
Definition strncmp (s1 s2 n : Z) : M mem Z := fuelled (fun k => strncmp_loop k s1 s2 n).

Definition fold_case (c : Z) : Z := if (65 <=? c) && (c <=? 90) then c + 32 else c.

Fixpoint strcasecmp_loop (k : nat) (s1 s2 : Z) : M mem Z :=
  match k with
  | O => mfault
  | S k' =>
    a <~ ld s1 ;; b <~ ld s2 ;;
    let c1 := fold_case a in let c2 := fold_case b in
    if negb (c1 =? c2) || (c1 =? 0) then return (c1 - c2) else strcasecmp_loop k' (s1 + 1) (s2 + 1)
  end.
Definition strcasecmp (s1 s2 : Z) : M mem Z := fuelled (fun k => strcasecmp_loop k s1 s2).

Fixpoint strncasecmp_loop (k : nat) (s1 s2 n : Z) : M mem Z :=
  if n =? 0 then return 0 else
  match k with
  | O => mfault
  | S k' =>
    a <~ ld s1 ;; b <~ ld s2 ;;
    let c1 := fold_case a in let c2 := fold_case b in
    if negb (c1 =? c2) || (c1 =? 0) then return (c1 - c2) else strncasecmp_loop k' (s1 + 1) (s2 + 1) (n - 1)
  end.
Definition strncasecmp (s1 s2 n : Z) : M mem Z := fuelled (fun k => strncasecmp_loop k s1 s2 n).

(** ** Search *)

Fixpoint strchr_loop (k : nat) (s c : Z) : M mem Z :=
  match k with
  | O => mfault
  | S k' =>
    x <~ ld s ;;
    if x =? 0 then return (if c =? 0 then s else 0) else
    if x =? u8 c then return s else strchr_loop k' (s + 1) c
  end.
Definition strchr (s c : Z) : M mem Z := fuelled (fun k => strchr_loop k s c).

Fixpoint strrchr_loop (k : nat) (s c last : Z) : M mem Z :=
  match k with
  | O => mfault
  | S k' =>
    x <~ ld s ;;
    if x =? 0 then return (if c =? 0 then s else last) else
    strrchr_loop k' (s + 1) c (if x =? u8 c then s else last)
  end.
Definition strrchr (s c : Z) : M mem Z := fuelled (fun k => strrchr_loop k s c 0).

(** Does the needle at [n] match at [h]? *)
Fixpoint match_loop (k : nat) (h n : Z) : M mem bool :=
  match k with
  | O => mfault
  | S k' =>
    a <~ ld h ;;
    if a =? 0 then b <~ ld n ;; return (b =? 0) else
    b <~ ld n ;;
    if b =? 0 then return true else
    if a =? b then match_loop k' (h + 1) (n + 1) else return false
  end.
Fixpoint strstr_loop (k : nat) (haystack needle : Z) : M mem Z :=
  match k with
  | O => mfault
  | S k' =>
    c <~ ld haystack ;;
    if c =? 0 then return 0 else
    found <~ fuelled (fun k => match_loop k haystack needle) ;;
    if found : bool then return haystack else strstr_loop k' (haystack + 1) needle
  end.
Definition strstr (haystack needle : Z) : M mem Z :=
  c <~ ld needle ;; if c =? 0 then return haystack else fuelled (fun k => strstr_loop k haystack needle).

(** Is the byte [x] in the string at [a]? *)
Fixpoint in_set_loop (k : nat) (x a : Z) : M mem bool :=
  match k with
  | O => mfault
  | S k' => c <~ ld a ;; if c =? 0 then return false else if x =? c then return true else in_set_loop k' x (a + 1)
  end.
Definition in_set (x a : Z) : M mem bool := fuelled (fun k => in_set_loop k x a).

Fixpoint strpbrk_loop (k : nat) (s accept : Z) : M mem Z :=
  match k with
  | O => mfault
  | S k' =>
    c <~ ld s ;; if c =? 0 then return 0 else
    b <~ in_set c accept ;; if b : bool then return s else strpbrk_loop k' (s + 1) accept
  end.
Definition strpbrk (s accept : Z) : M mem Z := fuelled (fun k => strpbrk_loop k s accept).

(** [strspn] (stop at a byte outside the set) and [strcspn] (inside it). *)
Fixpoint span_loop (k : nat) (stop_at : bool) (s set count : Z) : M mem Z :=
  match k with
  | O => mfault
  | S k' =>
    c <~ ld s ;; if c =? 0 then return count else
    b <~ in_set c set ;; if Bool.eqb b stop_at then return count else span_loop k' stop_at (s + 1) set (count + 1)
  end.
Definition strspn (s accept : Z) : M mem Z := fuelled (fun k => span_loop k false s accept 0).
Definition strcspn (s reject : Z) : M mem Z := fuelled (fun k => span_loop k true s reject 0).

(** ** strtok, with its static [saveptr] *)

Definition on_mem {A} (c : M mem A) : M (mem * Z) A :=
  fun p => match c p.1 with Some (a, m) => Some (a, (m, p.2)) | None => None end.

(** Leading delimiters: where the first other byte is. *)
Fixpoint skip_delims (k : nat) (p delim : Z) : M mem Z :=
  match k with
  | O => mfault
  | S k' => c <~ ld p ;; if c =? 0 then return p else b <~ in_set c delim ;; if b : bool then skip_delims k' (p + 1) delim else return p
  end.
(** The end of the token: the new [saveptr]; the delimiter becomes a 0. *)
Fixpoint token_end (k : nat) (p delim : Z) : M mem Z :=
  match k with
  | O => mfault
  | S k' =>
    c <~ ld p ;; if c =? 0 then return p else
    b <~ in_set c delim ;; if b : bool then st p 0 ;;; return (p + 1) else token_end k' (p + 1) delim
  end.
Definition strtok (str delim : Z) : M (mem * Z) Z :=
  mwhen (negb (str =? 0)) (mmodify (fun p => (p.1, str))) ;;;
  saveptr <~ mgets snd ;;
  if saveptr =? 0 then return 0 else
  c <~ on_mem (ld saveptr) ;; if c =? 0 then return 0 else
  token <~ on_mem (fuelled (fun k => skip_delims k saveptr delim)) ;;
  mmodify (fun p => (p.1, token)) ;;;
  c <~ on_mem (ld token) ;; if c =? 0 then return 0 else
  saveptr <~ on_mem (fuelled (fun k => token_end k token delim)) ;;
  mmodify (fun p => (p.1, saveptr)) ;;; return token.
