(* ===== verification/LibcStringSpec.v ===== *)
(** * The C library: what the memory and string functions compute

    [bytes_at m p l]: the bytes [l] lie at [p]; [cstr m p s]: so does the string [s] with
    its terminating 0.  Each loop of LibcString.v is shown to be a function of the lists,
    and to end, whenever its arguments are strings. *)

From stdpp Require Import base numbers gmap list options.
From S2P Require Import Prelude LibcString.

Fixpoint bytes_at (m : mem) (p : Z) (l : list Z) : Prop :=
  match l with [] => True | c :: l' => m !! p = Some c /\ bytes_at m (p + 1) l' end.
Definition nz (s : list Z) : Prop := Forall (fun c => 0 < c < 256) s.
Definition cstr (m : mem) (p : Z) (s : list Z) : Prop := bytes_at m p (s ++ [0]) /\ nz s.
(** Every byte is one. *)
Definition mem_ok (m : mem) : Prop := map_Forall (fun _ v => byte_ok v) m.
(** The [n] addresses from [p] on exist. *)
Definition mapped (m : mem) (p n : Z) : Prop := forall a, p <= a < p + n -> is_Some (m !! a).

(** ** Strings in memory *)

Lemma bytes_at_app m p l l' : bytes_at m p (l ++ l') <-> bytes_at m p l /\ bytes_at m (p + Z.of_nat (length l)) l'.
Proof.
  revert p. induction l as [|c l IH]; intros p; simpl; [rewrite Z.add_0_r; tauto|]. rewrite IH.
  replace (p + 1 + Z.of_nat (length l)) with (p + Z.of_nat (S (length l))) by lia. tauto.
Qed.
Lemma bytes_at_get m p l a : bytes_at m p l -> p <= a < p + Z.of_nat (length l) -> m !! a = zget l (a - p).
Proof.
  revert p. induction l as [|c l IH]; intros p; simpl; [lia|]. intros [Hc Hl] Ha. destruct (decide (a = p)) as [->|]; [by rewrite Z.sub_diag|].
  rewrite (IH (p + 1)) by (done || lia). unfold zget. rewrite !(proj2 (Z.leb_le 0 _)) by lia. replace (Z.to_nat (a - p)) with (S (Z.to_nat (a - (p + 1)))) by lia. done.
Qed.
Lemma bytes_at_mapped m p l : bytes_at m p l -> mapped m p (Z.of_nat (length l)).
Proof. intros H a Ha. rewrite (bytes_at_get _ _ _ _ H Ha). apply zget_is_Some. lia. Qed.
Lemma bytes_at_ext m m' p l : bytes_at m p l -> (forall a, p <= a < p + Z.of_nat (length l) -> m' !! a = m !! a) -> bytes_at m' p l.
Proof.
  revert p. induction l as [|c l IH]; intros p; simpl; [done|]. intros [Hc Hl] He. split; [rewrite He by lia; done|].
  apply IH; [done|]. intros a Ha. apply He. lia.
Qed.
Lemma bytes_at_intro m p l : (forall i c, zget l i = Some c -> m !! (p + i) = Some c) -> bytes_at m p l.
Proof.
  revert p. induction l as [|c l IH]; intros p H; simpl; [done|]. split; [rewrite <-(Z.add_0_r p); by apply H|].
  apply IH. intros i c' Hi. rewrite <-Z.add_assoc. apply H. pose proof (zget_range _ _ _ Hi). rewrite <-Hi. unfold zget.
  rewrite !(proj2 (Z.leb_le 0 _)) by lia. replace (Z.to_nat (1 + i)) with (S (Z.to_nat i)) by lia. done.
Qed.

(** The fuel is enough. *)
Lemma mapped_size m p n : mapped m p n -> n <= Z.of_nat (size m).
Proof.
  intros H. destruct (decide (n <= 0)); [lia|]. assert ((list_to_set (seqZ p n) : gset Z) ⊆ dom m) as Hs.
  { intros a Ha. apply elem_of_list_to_set, elem_of_seqZ in Ha. apply elem_of_dom, H. lia. }
  apply subseteq_size in Hs. rewrite size_dom, size_list_to_set, length_seqZ in Hs by apply NoDup_seqZ. lia.
Qed.
Lemma cstr_size m p s : cstr m p s -> (length s < size m)%nat.
Proof. intros [H _]. apply bytes_at_mapped, mapped_size in H. rewrite length_app in H. simpl in H. lia. Qed.
Lemma cstr_cons m p c s : cstr m p (c :: s) <-> m !! p = Some c /\ 0 < c < 256 /\ cstr m (p + 1) s.
Proof. unfold cstr, nz. rewrite Forall_cons. simpl. tauto. Qed.
Lemma cstr_nil m p : cstr m p [] <-> m !! p = Some 0.
Proof. unfold cstr, nz. simpl. rewrite Forall_nil. tauto. Qed.
Lemma cstr_app m p s s' : cstr m p (s ++ s') -> cstr m (p + Z.of_nat (length s)) s'.
Proof.
  revert p. induction s as [|c s IH]; intros p; simpl; [by rewrite Z.add_0_r|]. intros (_&_&H)%cstr_cons. apply IH in H.
  by replace (p + Z.of_nat (S (length s))) with (p + 1 + Z.of_nat (length s)) by lia.
Qed.

Lemma ld_run m p c : m !! p = Some c -> ld p m = Some (c, m).
Proof. intros H. unfold ld, mbind_, mget, mlift. by rewrite H. Qed.
Lemma st_run m p v c : m !! p = Some c -> st p v m = Some (tt, <[p := u8 v]> m).
Proof. intros H. unfold st, mbind_, mget. by rewrite H. Qed.
Lemma st_none m p v : m !! p = None -> st p v m = None.
Proof. intros H. unfold st, mbind_, mget. by rewrite H. Qed.
Lemma u8_id c : byte_ok c -> u8 c = c.
Proof. intros. unwrap. by apply wrap_small. Qed.

(** Reads the byte a string has at [p]. *)
Ltac rd H := rewrite (mbind_Some _ _ _ _ _ (ld_run _ _ _ H)).
(** The head of a string: [cs] for a byte, [cz] for the end. *)
Ltac cs H := let a := fresh "Ha" in let b := fresh "Hb" in apply cstr_cons in H as (a&b&H); rd a; rewrite ?(proj2 (Z.eqb_neq _ 0)) by lia.
Ltac cz H := apply cstr_nil in H; rd H; cbn [Z.eqb].

(** ** memcpy, memmove, memset *)

(** The bytes [p .. p + n) of [m'] come from [q .. q + n) of [m]; the others stay. *)
Definition moved (m m' : mem) (p q n : Z) : Prop := forall a, m' !! a = if decide (p <= a < p + n) then m !! (q + (a - p)) else m !! a.

Lemma mapped_insert m p n a v c : mapped m p n -> m !! a = Some c -> mapped (<[a := v]> m) p n.
Proof. intros H Ha b Hb. destruct (decide (a = b)) as [->|]; [rewrite lookup_insert_eq; eauto|rewrite lookup_insert_ne by done; by apply H]. Qed.
Lemma mem_ok_insert m a v : mem_ok m -> byte_ok v -> mem_ok (<[a := v]> m).
Proof. intros H Hv. by apply map_Forall_insert_2. Qed.
Lemma copy_up_run n : forall m d s, mem_ok m -> mapped m d (Z.of_nat n) -> mapped m s (Z.of_nat n) -> d <= s \/ s + Z.of_nat n <= d ->
  exists m', copy_up n d s m = Some (tt, m') /\ moved m m' d s (Z.of_nat n).
Proof.
  induction n as [|n IH]; intros m d s Hok Hd Hs Ho.
  - exists m. split; [done|]. intros a. by rewrite decide_False by lia.
  - destruct (Hs s ltac:(lia)) as [c Hc], (Hd d ltac:(lia)) as [x Hx]. cbn [copy_up]. rd Hc. mstep (st_run m d c x Hx).
    pose proof (Hok _ _ Hc) as Hb. rewrite u8_id by done. destruct (IH (<[d := c]> m) (d + 1) (s + 1)) as (m'&E&Hm).
    + by apply mem_ok_insert.
    + eapply mapped_insert; [|done]. intros a Ha. apply Hd. lia.
    + eapply mapped_insert; [|done]. intros a Ha. apply Hs. lia.
    + lia.
    + exists m'. split; [done|]. intros a. rewrite (Hm a). destruct (decide (a = d)) as [->|].
      * rewrite decide_False, decide_True, lookup_insert_eq by lia. by replace (s + (d - d)) with s by lia.
      * case_decide; [rewrite decide_True, lookup_insert_ne by lia; f_equal; lia|rewrite decide_False, lookup_insert_ne by lia; done].
Qed.
Lemma copy_down_run n : forall m d s, mem_ok m -> mapped m (d - Z.of_nat n) (Z.of_nat n) -> mapped m (s - Z.of_nat n) (Z.of_nat n) -> s <= d ->
  exists m', copy_down n d s m = Some (tt, m') /\ moved m m' (d - Z.of_nat n) (s - Z.of_nat n) (Z.of_nat n).
Proof.
  induction n as [|n IH]; intros m d s Hok Hd Hs Ho.
  - exists m. split; [done|]. intros a. by rewrite decide_False by lia.
  - destruct (Hs (s - 1) ltac:(lia)) as [c Hc], (Hd (d - 1) ltac:(lia)) as [x Hx]. cbn [copy_down]. rd Hc. mstep (st_run m (d - 1) c x Hx).
    pose proof (Hok _ _ Hc) as Hb. rewrite u8_id by done. destruct (IH (<[d - 1 := c]> m) (d - 1) (s - 1)) as (m'&E&Hm).
    + by apply mem_ok_insert.
    + eapply mapped_insert; [|done]. intros a Ha. apply Hd. lia.
    + eapply mapped_insert; [|done]. intros a Ha. apply Hs. lia.
    + lia.
    + exists m'. split; [done|]. intros a. rewrite (Hm a). destruct (decide (a = d - 1)) as [->|].
      * rewrite decide_False, decide_True, lookup_insert_eq by lia. rewrite <-Hc. f_equal. lia.
      * case_decide; [rewrite decide_True, lookup_insert_ne by lia; f_equal; lia|rewrite decide_False, lookup_insert_ne by lia; done].
Qed.

(** [memmove] copies correctly however the areas overlap: afterwards the destination holds the bytes the source
    held before, every other byte of memory is unchanged, and the result is the destination. *)
Theorem memmove_exact m dest src n : mem_ok m -> 0 <= n -> mapped m dest n -> mapped m src n ->
  exists m', memmove dest src n m = Some (dest, m') /\ moved m m' dest src n.
Proof.
  intros Hok Hn Hd Hs. unfold memmove. rewrite <-(Z2Nat.id n Hn) in Hd, Hs. destruct (Z.ltb_spec dest src) as [Hlt|Hge].
  - destruct (copy_up_run (Z.to_nat n) m dest src Hok Hd Hs ltac:(lia)) as (m'&E&Hm). rewrite Z2Nat.id in Hm by done. exists m'. by mstep E.
  - destruct (Z.ltb_spec src dest) as [Hgt|].
    + destruct (copy_down_run (Z.to_nat n) m (dest + n) (src + n)) as (m'&E&Hm); rewrite ?Z2Nat.id, ?Z.add_simpl_r by done;
        rewrite ?Z2Nat.id in Hd, Hs by done; [done..|lia|]. rewrite Z2Nat.id, !Z.add_simpl_r in Hm by done. exists m'. by mstep E.
    + exists m. split; [done|]. intros a. assert (src = dest) as -> by lia. case_decide; [f_equal; lia|done].
Qed.

Lemma set_loop_run n : forall m p c, mapped m p (Z.of_nat n) -> exists m', set_loop n p c m = Some (tt, m') /\
  forall a, m' !! a = if decide (p <= a < p + Z.of_nat n) then Some (u8 c) else m !! a.
Proof.
  induction n as [|n IH]; intros m p c Hp.
  - exists m. split; [done|]. intros a. by rewrite decide_False by lia.
  - destruct (Hp p ltac:(lia)) as [x Hx]. cbn [set_loop]. mstep (st_run m p c x Hx). destruct (IH (<[p := u8 c]> m) (p + 1) c) as (m'&E&Hm).
    { eapply mapped_insert; [|done]. intros a Ha. apply Hp. lia. }
    exists m'. split; [done|]. intros a. rewrite (Hm a). destruct (decide (a = p)) as [->|].
    + rewrite decide_False, decide_True, lookup_insert_eq by lia. done.
    + case_decide; [rewrite decide_True by lia; done|rewrite decide_False, lookup_insert_ne by lia; done].
Qed.

(** ** Length, copies *)

Lemma strlen_loop_run s : forall k m p len, (length s < k)%nat -> cstr m p s -> strlen_loop k p len m = Some (len + Z.of_nat (length s), m).
Proof.
  induction s as [|c s IH]; intros [|k] m p len Hk H; simpl in Hk; try lia; cbn [strlen_loop].
  - cz H. by rewrite Z.add_0_r.
  - cs H. rewrite IH by (done || lia). do 2 f_equal. simpl. lia.
Qed.
Lemma strlen_run m p s : cstr m p s -> strlen p m = Some (Z.of_nat (length s), m).
Proof. intros H. unfold strlen, fuelled. rewrite (strlen_loop_run s) by (done || (apply cstr_size in H; lia)). done. Qed.

(** The copy of a string: it lies at [d] afterwards, and nothing else has changed. *)
Definition copied (m m' : mem) (d : Z) (l : list Z) : Prop :=
  bytes_at m' d l /\ forall a, ~ (d <= a < d + Z.of_nat (length l)) -> m' !! a = m !! a.

Lemma copied_cons m m' d c l : byte_ok c -> copied (<[d := u8 c]> m) m' (d + 1) l -> copied m m' d (c :: l).
Proof.
  intros Hc [Hb Ho]. rewrite u8_id in Ho by done. split.
  - simpl. split; [rewrite Ho by lia; apply lookup_insert_eq|done].
  - intros a Ha. simpl in Ha. rewrite Ho, lookup_insert_ne by lia. done.
Qed.
(** The source is read before the destination reaches it. *)
Definition apart (d n s m : Z) : Prop := d + n <= s \/ s + m <= d.
Lemma strcpy_loop_run s : forall k m d p, (length s < k)%nat -> cstr m p s -> mapped m d (Z.of_nat (length s) + 1) ->
  apart d (Z.of_nat (length s) + 1) p (Z.of_nat (length s) + 1) -> exists m', strcpy_loop k d p m = Some (tt, m') /\ copied m m' d (s ++ [0]).
Proof.
  induction s as [|c s IH]; intros [|k] m d p Hk H Hd Ha; simpl in Hk, Hd, Ha; try lia; cbn [strcpy_loop]; destruct (Hd d ltac:(lia)) as [x Hx].
  - cz H. mstep (st_run m d 0 x Hx). eexists. split; [done|]. apply copied_cons; [by unfold byte_ok; lia|]. by split.
  - apply cstr_cons in H as (Hc&Hb&H). rd Hc. mstep (st_run m d c x Hx). rewrite (proj2 (Z.eqb_neq c 0)) by lia. unfold apart in Ha.
    destruct (IH k (<[d := u8 c]> m) (d + 1) (p + 1)) as (m'&E&Hm); [lia| | |unfold apart; lia|].
    + split; [|apply H]. eapply bytes_at_ext; [apply H|]. intros a Ha'. rewrite length_app in Ha'. simpl in Ha'. apply lookup_insert_ne. lia.
    + eapply mapped_insert; [|done]. intros a Ha'. apply Hd. lia.
    + exists m'. split; [done|]. apply copied_cons; [unfold byte_ok; lia|done].
Qed.

(** [strncpy] on a string shorter than [n] writes [n + 1] bytes: the string, its 0 and one 0 for each of the [n] minus
    length bytes left, since the terminating 0 is not counted.  The byte behind an [n]-byte buffer is overwritten, or
    the call faults when there is none. *)
Lemma strncpy_loop_run s : forall n m d p, (length s < n)%nat -> cstr m p s -> mapped m d (Z.of_nat (length s) + 1) ->
  apart d (Z.of_nat (length s) + 1) p (Z.of_nat (length s) + 1) ->
  exists m', strncpy_loop n d p m = Some ((d + Z.of_nat (length s) + 1, (n - length s)%nat), m') /\ copied m m' d (s ++ [0]).
Proof.
  induction s as [|c s IH]; intros [|n] m d p Hk H Hd Ha; simpl in Hk, Hd, Ha; try lia; cbn [strncpy_loop]; destruct (Hd d ltac:(lia)) as [x Hx].
  - cz H. mstep (st_run m d 0 x Hx). eexists. split; [simpl; by rewrite Z.add_0_r|]. apply copied_cons; [by unfold byte_ok; lia|]. by split.
  - apply cstr_cons in H as (Hc&Hb&H). rd Hc. mstep (st_run m d c x Hx). rewrite (proj2 (Z.eqb_neq c 0)) by lia. unfold apart in Ha.
    destruct (IH n (<[d := u8 c]> m) (d + 1) (p + 1)) as (m'&E&Hm); [lia| | |unfold apart; lia|].
    + split; [|apply H]. eapply bytes_at_ext; [apply H|]. intros a Ha'. rewrite length_app in Ha'. simpl in Ha'. apply lookup_insert_ne. lia.
    + eapply mapped_insert; [|done]. intros a Ha'. apply Hd. lia.
    + exists m'. rewrite E. split; [do 3 f_equal; simpl; lia|]. apply copied_cons; [unfold byte_ok; lia|done].
Qed.
Theorem strncpy_overflows m dest p n s : cstr m p s -> Z.of_nat (length s) < n -> mapped m dest n -> apart dest (n + 1) p (Z.of_nat (length s) + 1) ->
  match m !! (dest + n) with
  | None => strncpy dest p n m = None
  | Some _ => exists m', strncpy dest p n m = Some (dest, m') /\ bytes_at m' dest (s ++ [0]) /\ m' !! (dest + n) = Some 0
  end.
Proof.
  intros H Hlt Hd Ha. unfold strncpy. unfold apart in Ha. set (k := Z.of_nat (length s)) in *.
  destruct (strncpy_loop_run s (Z.to_nat n) m dest p ltac:(lia) H) as (m1&E&[Hb Ho]); [intros a Ha'; apply Hd; lia|unfold apart; lia|].
  fold k in E. mstep E. cbn beta iota. rewrite length_app in Ho. simpl in Ho.
  assert (m1 !! (dest + n) = m !! (dest + n)) as Hn by (apply Ho; lia). destruct (m !! (dest + n)) as [y|] eqn:Hy.
  - destruct (set_loop_run (Z.to_nat n - length s) m1 (dest + k + 1) 0) as (m'&E'&Hm).
    { intros a Ha'. destruct (decide (a = dest + n)) as [->|]; [rewrite Hn; eauto|]. rewrite Ho by lia. apply Hd. lia. }
    exists m'. mstep E'. split; [done|]. split.
    + eapply bytes_at_ext; [exact Hb|]. intros a Ha'. rewrite length_app in Ha'. simpl in Ha'. rewrite Hm, decide_False by lia. done.
    + rewrite Hm, decide_True by lia. done.
  - assert (forall j m p', m !! (p' + Z.of_nat j) = None -> set_loop (S j) p' 0 m = None) as Hf.
    { clear. induction j as [|j IH]; intros m p' Hp; cbn [set_loop].
      - rewrite Z.add_0_r in Hp. unfold mbind_. by rewrite st_none.
      - destruct (m !! p') as [x|] eqn:Hx; [|unfold mbind_; by rewrite st_none]. mstep (st_run m p' 0 x Hx). apply IH.
        rewrite lookup_insert_ne by lia. rewrite <-Hp. f_equal. lia. }
    unfold mbind_ at 1. replace (Z.to_nat n - length s)%nat with (S (Z.to_nat n - length s - 1)) by lia. rewrite Hf; [done|].
    rewrite <-Hn. f_equal. lia.
Qed.

(** ** Comparison *)

(** The difference of the first bytes that differ; the end of a string counts as 0. *)
Fixpoint str_diff (f : Z -> Z) (s1 s2 : list Z) : Z :=
  match s1, s2 with
  | [], [] => 0
  | [], b :: _ => - f b
  | a :: _, [] => f a
  | a :: s1', b :: s2' => if f a =? f b then str_diff f s1' s2' else f a - f b
  end.
(** Lexicographic order of bytes. *)
Definition str_lt (s1 s2 : list Z) : Prop := exists u, (exists b t, s1 = u /\ s2 = u ++ b :: t) \/
  (exists a b t1 t2, s1 = u ++ a :: t1 /\ s2 = u ++ b :: t2 /\ a < b).

Lemma str_lt_cons a s1 s2 : str_lt (a :: s1) (a :: s2) <-> str_lt s1 s2.
Proof.
  split.
  - intros ([|x u]&[(b&t&E1&E2)|(x1&b&t1&t2&E1&E2&Hl)]); simplify_eq/=; try lia; exists u; naive_solver.
  - intros (u&[(b&t&->&->)|(x1&b&t1&t2&->&->&Hl)]); exists (a :: u); [left; by exists b, t|right; by exists x1, b, t1, t2].
Qed.
Lemma str_diff_spec s1 : forall s2, nz s1 -> nz s2 ->
  (str_diff id s1 s2 = 0 <-> s1 = s2) /\ (str_diff id s1 s2 < 0 <-> str_lt s1 s2) /\ (0 < str_diff id s1 s2 <-> str_lt s2 s1).
Proof.
  assert (forall a u x t, ~ str_lt (a :: u) [] /\ str_lt [] (x :: t)) as Hnil.
  { intros a u x t. split; [|by exists []; left; exists x, t]. intros ([|y v]&[(?&?&?&?)|(?&?&?&?&?&?&?)]); simplify_eq/=. }
  assert (~ str_lt [] []) as Hnn by (intros ([|y v]&[(?&?&?&?)|(?&?&?&?&?&?&?)]); simplify_eq/=).
  induction s1 as [|a s1 IH]; intros [|b s2] H1 H2; cbn [str_diff id].
  - split_and!; [done|split; [lia|done]..].
  - apply Forall_cons in H2 as [Hb _]. destruct (Hnil b s2 b s2). split_and!; split; (done || lia).
  - apply Forall_cons in H1 as [Ha _]. destruct (Hnil a s1 a s1). split_and!; split; (done || lia).
  - apply Forall_cons in H1 as [Ha H1], H2 as [Hb H2]. unfold id. destruct (Z.eqb_spec a b) as [->|Hne].
    + destruct (IH s2 H1 H2) as (E&L&G). rewrite !str_lt_cons, <-L, <-G. split_and!; [|done..]. rewrite E. split; congruence.
    + assert (forall x y s t, x <> y -> (str_lt (x :: s) (y :: t) <-> x < y)) as Hh.
      { clear. intros x y s t Hne. split; [|by intros; exists []; right; exists x, y, s, t].
        intros ([|z u]&[(b&v&E1&E2)|(x1&b&t1&t2&E1&E2&Hl)]); simplify_eq/=; lia || done. }
      rewrite !Hh by done. split_and!; [split; [lia|congruence]|lia..].
Qed.

Lemma strcmp_loop_run s1 : forall s2 k m p q, (length s1 < k)%nat -> cstr m p s1 -> cstr m q s2 -> strcmp_loop k p q m = Some (str_diff id s1 s2, m).
Proof.
  induction s1 as [|a s1 IH]; intros [|b s2] [|k] m p q Hk H1 H2; simpl in Hk; try lia; cbn [strcmp_loop str_diff id].
  - cz H1. cz H2. done.
  - cz H1. apply cstr_cons in H2 as (Hb&?&_). rd Hb. done.
  - apply cstr_cons in H1 as (Ha&?&_). rd Ha. cz H2. rewrite (proj2 (Z.eqb_neq a 0)) by lia. cbn. by rewrite Z.sub_0_r.
  - apply cstr_cons in H1 as (Ha&?&H1). apply cstr_cons in H2 as (Hb&?&H2). rd Ha. rd Hb. rewrite (proj2 (Z.eqb_neq a 0)) by lia. cbn [negb andb].
    unfold id. destruct (Z.eqb_spec a b); [by apply IH; [lia|..]|done].
Qed.

(** [strcmp] ends on any two strings and its result has the sign of their lexicographic order by unsigned bytes:
    0 exactly for equal strings, negative exactly when the first comes before the second. *)
Theorem strcmp_order m p q s1 s2 : cstr m p s1 -> cstr m q s2 -> exists r, strcmp p q m = Some (r, m) /\
  (r = 0 <-> s1 = s2) /\ (r < 0 <-> str_lt s1 s2) /\ (0 < r <-> str_lt s2 s1).
Proof.
  intros H1 H2. exists (str_diff id s1 s2). split; [|by apply str_diff_spec; [apply H1|apply H2]].
  unfold strcmp, fuelled. apply strcmp_loop_run; [apply cstr_size in H1; lia|done..].
Qed.

(** ** Search *)

Definition prefixb (n h : list Z) : bool := bool_decide (take (length n) h = n).

Lemma match_loop_run n : forall h k m p q, (length n < k)%nat -> cstr m p h -> cstr m q n -> match_loop k p q m = Some (prefixb n h, m).
Proof.
  induction n as [|b n IH]; intros [|a h] [|k] m p q Hk H1 H2; simpl in Hk; try lia; cbn [match_loop].
  - cz H1. cz H2. done.
  - apply cstr_cons in H1 as (Ha&?&_). rd Ha. rewrite (proj2 (Z.eqb_neq a 0)) by lia. cz H2. done.
  - cz H1. apply cstr_cons in H2 as (Hb&?&_). rd Hb. rewrite (proj2 (Z.eqb_neq b 0)) by lia. done.
  - apply cstr_cons in H1 as (Ha&?&H1). apply cstr_cons in H2 as (Hb&?&H2). rd Ha. rewrite (proj2 (Z.eqb_neq a 0)) by lia. rd Hb.
    rewrite (proj2 (Z.eqb_neq b 0)) by lia. unfold prefixb. cbn [length take]. destruct (Z.eqb_spec a b) as [->|Hne].
    + rewrite (IH h) by (done || lia). unfold prefixb. do 2 f_equal. apply bool_decide_ext. split; congruence.
    + rewrite bool_decide_false by congruence. done.
Qed.

(** The offset of the first occurrence. *)
Fixpoint find_sub (n h : list Z) : option nat :=
  match h with [] => None | _ :: h' => if prefixb n h then Some 0%nat else S <$> find_sub n h' end.

Lemma prefixb_spec n h : prefixb n h = true <-> exists v, h = n ++ v.
Proof.
  unfold prefixb. rewrite bool_decide_eq_true. split.
  - intros E. exists (drop (length n) h). by rewrite <-E at 1; rewrite take_drop.
  - intros [v ->]. by rewrite take_app_length.
Qed.
Lemma find_sub_spec n h : n <> [] -> match find_sub n h with
  | None => forall u v, h <> u ++ n ++ v
  | Some i => (exists u v, h = u ++ n ++ v /\ length u = i) /\ forall u v, h = u ++ n ++ v -> (i <= length u)%nat
  end.
Proof.
  intros Hn. induction h as [|c h IH]; cbn [find_sub].
  - intros u v E. symmetry in E. apply app_eq_nil in E as [_ E]. apply app_eq_nil in E as [E _]. done.
  - destruct (prefixb n (c :: h)) eqn:Hp.
    + apply prefixb_spec in Hp as [v Hv]. split; [by exists [], v|lia].
    + assert (forall u v, c :: h = u ++ n ++ v -> exists u', u = c :: u' /\ h = u' ++ n ++ v) as Hu.
      { intros [|x u] v E; [|simplify_eq/=; eauto]. simpl in E. assert (prefixb n (c :: h) = true) by (apply prefixb_spec; eauto). congruence. }
      destruct (find_sub n h) as [i|]; simpl.
      * destruct IH as [(u&v&->&<-) Hmin]. split; [by exists (c :: u), v|]. intros u' v' (u''&->&E)%Hu. apply Hmin in E. simpl. lia.
      * intros u v (u'&->&E)%Hu. by apply IH in E.
Qed.
Lemma strstr_loop_run n h : forall k m p q, n <> [] -> (length h < k)%nat -> cstr m p h -> cstr m q n ->
  strstr_loop k p q m = Some (match find_sub n h with Some i => p + Z.of_nat i | None => 0 end, m).
Proof.
  induction h as [|a h IH]; intros [|k] m p q Hn Hk H1 H2; simpl in Hk; try lia; cbn [strstr_loop find_sub].
  - cz H1. done.
  - assert (fuelled (fun k => match_loop k p q) m = Some (prefixb n (a :: h), m)) as Hm.
    { unfold fuelled. apply match_loop_run; [apply cstr_size in H2; lia|done..]. }
    apply cstr_cons in H1 as (Ha&?&H1). rd Ha. rewrite (proj2 (Z.eqb_neq a 0)) by lia. mstep Hm. destruct (prefixb n (a :: h)); [by rewrite Z.add_0_r|].
    rewrite IH by (done || lia). destruct (find_sub n h); simpl; [do 2 f_equal; lia|done].
Qed.

(** [strstr] ends on any two strings and returns the address of the first occurrence of the needle in the
    haystack, NULL when there is none, and the haystack itself for an empty needle. *)
Theorem strstr_first m p q h n : cstr m p h -> cstr m q n -> exists r, strstr p q m = Some (r, m) /\
  ((r = 0 /\ forall u v, h <> u ++ n ++ v) \/
   (exists u v, h = u ++ n ++ v /\ r = p + Z.of_nat (length u) /\ forall u' v', h = u' ++ n ++ v' -> (length u <= length u')%nat)).
Proof.
  intros H1 H2. unfold strstr. destruct n as [|b n].
  - cz H2. exists p. split; [done|]. right. exists [], h. split; [done|]. split; [simpl; lia|]. simpl. lia.
  - pose proof (find_sub_spec (b :: n) h ltac:(done)) as Hf. pose proof H2 as (Hb&?&_)%cstr_cons. rd Hb. rewrite (proj2 (Z.eqb_neq b 0)) by lia.
    unfold fuelled. rewrite (strstr_loop_run (b :: n) h) by (done || (apply cstr_size in H1; lia)). eexists. split; [done|].
    destruct (find_sub (b :: n) h) as [i|]; [right|left; by split]. destruct Hf as [(u&v&E&<-) Hmin]. by exists u, v.
Qed.

(** ** strtok *)

Definition delim (ds : list Z) (c : Z) : bool := bool_decide (c ∈ ds).

Lemma in_set_run ds : forall x a m, cstr m a ds -> in_set x a m = Some (delim ds x, m).
Proof.
  assert (forall ds k x a m, (length ds < k)%nat -> cstr m a ds -> in_set_loop k x a m = Some (delim ds x, m)) as Hl.
  { clear ds. induction ds as [|c ds IH]; intros [|k] x a m Hk H; simpl in Hk; try lia; cbn [in_set_loop].
    - cz H. done.
    - apply cstr_cons in H as (Hc&?&H). rd Hc. rewrite (proj2 (Z.eqb_neq c 0)) by lia. unfold delim. destruct (Z.eqb_spec x c) as [->|Hne].
      + by rewrite bool_decide_true by (by left).
      + rewrite IH by (done || lia). unfold delim. do 2 f_equal. apply bool_decide_ext. rewrite elem_of_cons. naive_solver. }
  intros x a m H. unfold in_set, fuelled. apply Hl; [apply cstr_size in H; lia|done].
Qed.

(** The reference: cut at every delimiter and drop the empty pieces; [cur] is the piece read so far. *)
Fixpoint split_tokens (ds s cur : list Z) : list (list Z) :=
  match s with
  | [] => if decide (cur = []) then [] else [cur]
  | c :: s' =>
    if delim ds c then (if decide (cur = []) then [] else [cur]) ++ split_tokens ds s' [] else split_tokens ds s' (cur ++ [c])
  end.
Definition tokens (ds s : list Z) : list (list Z) := split_tokens ds s [].

(** A string is delimiters, a token, and the rest behind one delimiter (or nothing). *)
Fixpoint span (P : Z -> bool) (s : list Z) : list Z * list Z :=
  match s with [] => ([], []) | c :: s' => if P c then let '(a, b) := span P s' in (c :: a, b) else ([], s) end.

Lemma span_app P s a b : span P s = (a, b) -> s = a ++ b /\ Forall (fun c => P c = true) a /\ match b with [] => True | c :: _ => P c = false end.
Proof.
  revert a b. induction s as [|c s IH]; intros a b; simpl; [by intros [= <- <-]|]. destruct (P c) eqn:Hp; [|by intros [= <- <-]].
  destruct (span P s) as [a' b'] eqn:E. intros [= <- <-]. destruct (IH _ _ eq_refl) as (->&?&?). split; [done|]. split; [by constructor|done].
Qed.
Lemma tokens_lead ds a s : Forall (fun c => delim ds c = true) a -> tokens ds (a ++ s) = tokens ds s.
Proof. induction 1 as [|c a Hc _ IH]; [done|]. unfold tokens in *. simpl. rewrite Hc. exact IH. Qed.
Lemma split_tokens_tok ds t : forall cur s, Forall (fun c => delim ds c = false) t -> cur ++ t <> [] ->
  split_tokens ds (t ++ s) cur = match s with [] => [cur ++ t] | c :: s' => if delim ds c then (cur ++ t) :: tokens ds s' else split_tokens ds s (cur ++ t) end.
Proof.
  induction t as [|c t IH]; intros cur s Ht Hne.
  - rewrite app_nil_r in *. destruct s as [|c s]; simpl; [by rewrite decide_False|]. destruct (delim ds c); [by rewrite decide_False|done].
  - apply Forall_cons in Ht as [Hc Ht]. simpl. rewrite Hc, IH by (done || (intros E; by apply app_eq_nil in E as [_ ?]) || (rewrite <-app_assoc; done)). by rewrite <-app_assoc.
Qed.

Lemma skip_delims_run ds dl s : forall k m p, (length s < k)%nat -> cstr m p s -> cstr m dl ds ->
  skip_delims k p dl m = Some (p + Z.of_nat (length (span (delim ds) s).1), m).
Proof.
  induction s as [|c s IH]; intros [|k] m p Hk H Hd; simpl in Hk; try lia; cbn [skip_delims span].
  - cz H. by rewrite Z.add_0_r.
  - apply cstr_cons in H as (Hc&?&H). rd Hc. rewrite (proj2 (Z.eqb_neq c 0)) by lia. mstep (in_set_run ds c dl m Hd).
    destruct (delim ds c); [|by rewrite Z.add_0_r]. rewrite IH by (done || lia). destruct (span (delim ds) s). do 2 f_equal. simpl. lia.
Qed.
Lemma token_end_run ds dl s : forall k m p, (length s < k)%nat -> cstr m p s -> cstr m dl ds ->
  let '(t, r) := span (fun c => negb (delim ds c)) s in
  token_end k p dl m = Some (match r with [] => (p + Z.of_nat (length t), m) | _ :: _ => (p + Z.of_nat (length t) + 1, <[p + Z.of_nat (length t) := 0]> m) end).
Proof.
  induction s as [|c s IH]; intros [|k] m p Hk H Hd; simpl in Hk; try lia; cbn [token_end span].
  - cz H. by rewrite Z.add_0_r.
  - apply cstr_cons in H as (Hc&?&H). rd Hc. rewrite (proj2 (Z.eqb_neq c 0)) by lia. mstep (in_set_run ds c dl m Hd).
    destruct (delim ds c); cbn [negb]; [mstep (st_run m p 0 c Hc); by rewrite Z.add_0_r|].
    specialize (IH k m (p + 1) ltac:(lia) H Hd). destruct (span (fun c => negb (delim ds c)) s) as [t [|x r]]; rewrite IH; cbn [length];
      by replace (p + 1 + Z.of_nat (length t)) with (p + Z.of_nat (S (length t))) by lia.
Qed.

Lemma on_mem_run {A} (c : M mem A) m v m1 x : c m = Some (v, m1) -> on_mem c (m, x) = Some (v, (m1, x)).
Proof. intros E. unfold on_mem. cbn [fst snd]. by rewrite E. Qed.
#[local] Arguments on_mem_run {A c m v m1} x _.
(** One call on the string [s] at [p]. *)
Lemma strtok_step m sp str p dl ds s : cstr m p s -> cstr m dl ds -> 0 < p -> (str = p \/ (str = 0 /\ sp = p)) ->
  let '(a, b) := span (delim ds) s in let q := p + Z.of_nat (length a) in let '(t, r) := span (fun c => negb (delim ds c)) b in
  strtok str dl (m, sp) = Some match b, r with
  | [], _ => (0, (m, q))
  | _, [] => (q, (m, q + Z.of_nat (length t)))
  | _, _ => (q, (<[q + Z.of_nat (length t) := 0]> m, q + Z.of_nat (length t) + 1))
  end.
Proof.
  intros H Hd Hp Hs. destruct (span (delim ds) s) as [a b] eqn:Ea. destruct (span_app _ _ _ _ Ea) as (->&_&_). cbn zeta. set (q := p + Z.of_nat (length a)).
  destruct (span (fun c => negb (delim ds c)) b) as [t r] eqn:Et. pose proof (cstr_app _ _ _ _ H) as Hb. fold q in Hb.
  assert (mwhen (negb (str =? 0)) (mmodify (fun p => (p.1, str))) (m, sp) = Some (tt, (m, p))) as E0.
  { destruct Hs as [-> | [-> ->]]; [by rewrite (proj2 (Z.eqb_neq p 0)) by lia|done]. }
  unfold strtok. mstep E0. unfold mbind_ at 1, mgets. cbn [snd]. rewrite (proj2 (Z.eqb_neq p 0)) by lia.
  assert (fuelled (fun k => skip_delims k p dl) m = Some (q, m)) as Hskip.
  { unfold fuelled. rewrite (skip_delims_run ds dl (a ++ b)) by (done || (apply cstr_size in H; lia)). by rewrite Ea. }
  destruct (a ++ b) as [|c ab] eqn:Eab.
  { apply app_eq_nil in Eab as [-> ->]. apply cstr_nil in H. mstep (on_mem_run p (ld_run _ _ _ H)). unfold q. simpl. by rewrite Z.add_0_r. }
  apply cstr_cons in H as (Hc&Hcr&_). mstep (on_mem_run p (ld_run _ _ _ Hc)). rewrite (proj2 (Z.eqb_neq c 0)) by lia. mstep (on_mem_run p Hskip).
  unfold mbind_ at 1, mmodify. cbn [fst]. destruct b as [|x b].
  { apply cstr_nil in Hb. mstep (on_mem_run q (ld_run _ _ _ Hb)). done. }
  pose proof Hb as (Hx&Hxr&_)%cstr_cons. mstep (on_mem_run q (ld_run _ _ _ Hx)). rewrite (proj2 (Z.eqb_neq x 0)) by lia.
  pose proof (token_end_run ds dl (x :: b) (S (size m)) m q ltac:(apply cstr_size in Hb; lia) Hb Hd) as Htok. rewrite Et in Htok.
  destruct r as [|y r]; mstep (on_mem_run q (Htok : fuelled (fun k => token_end k q dl) m = _)); done.
Qed.

(** [strtok(str, delim)], then [strtok(NULL, delim)] until it returns NULL, [n] calls at most. *)
Fixpoint strtoks (n : nat) (str dl : Z) : M (mem * Z) (list Z) :=
  match n with
  | O => return []
  | S n' => r <~ strtok str dl ;; if r =? 0 then return [] else rs <~ strtoks n' 0 dl ;; return (r :: rs)
  end.

Lemma cstr_ext m m' p s : cstr m p s -> (forall a, p <= a <= p + Z.of_nat (length s) -> m' !! a = m !! a) -> cstr m' p s.
Proof. intros [H Hn] He. split; [|done]. eapply bytes_at_ext; [done|]. intros a Ha. rewrite length_app in Ha. simpl in Ha. apply He. lia. Qed.
Lemma cstr_front m m' p s c s' : cstr m p (s ++ c :: s') -> m' !! (p + Z.of_nat (length s)) = Some 0 ->
  (forall a, p <= a < p + Z.of_nat (length s) -> m' !! a = m !! a) -> cstr m' p s.
Proof.
  intros [H Hn] H0 He. rewrite <-app_assoc in H. apply bytes_at_app in H as [H _]. apply Forall_app in Hn as [Hn _]. split; [|done]. apply bytes_at_app. split; [apply (bytes_at_ext m); [exact H|exact He]|done].
Qed.

(** Calling [strtok] on a string and then with NULL until it returns NULL yields exactly the pieces between the
    delimiters, the empty ones left out, in order, each a string of its own afterwards; only bytes of the string change. *)
Theorem strtok_tokens n : forall s m sp str p dl ds, (length s < n)%nat -> cstr m p s -> cstr m dl ds -> 0 < p ->
  apart p (Z.of_nat (length s) + 1) dl (Z.of_nat (length ds) + 1) -> (str = p \/ (str = 0 /\ sp = p)) ->
  exists rs m' sp', strtoks n str dl (m, sp) = Some (rs, (m', sp')) /\ Forall2 (cstr m') rs (tokens ds s) /\
  forall a, ~ (p <= a < p + Z.of_nat (length s)) -> m' !! a = m !! a.
Proof.
  induction n as [|n IH]; intros s m sp str p dl ds Hn H Hd Hp Ha Hs; [lia|]. pose proof (strtok_step m sp str p dl ds s H Hd Hp Hs) as E. cbn [strtoks].
  destruct (span (delim ds) s) as [a b] eqn:Ea. destruct (span_app _ _ _ _ Ea) as (->&Hda&Hhd). cbn zeta in E. set (q := p + Z.of_nat (length a)) in *.
  destruct (span (fun c => negb (delim ds c)) b) as [t r] eqn:Et. destruct (span_app _ _ _ _ Et) as (Eb&Htd&Hrd). rewrite tokens_lead by done.
  destruct b as [|x b]. { mstep E. exists [], m, q. split; [done|]. split; [constructor|done]. }
  rewrite length_app in Hn, Ha |- *. unfold apart in *. assert (t <> []) as Htn by (intros ->; simpl in Et; rewrite Hhd in Et; simpl in Et; by destruct (span _ b)).
  pose proof (cstr_app _ _ _ _ H) as Hb. fold q in Hb. assert (Forall (fun c => delim ds c = false) t) as Htd' by (eapply Forall_impl; [exact Htd|]; intros c ?; by apply negb_true_iff).
  rewrite Eb in *. rewrite length_app in Hn, Ha |- *. assert (0 < Z.of_nat (length t)) by (destruct t; simpl; [done|lia]).
  destruct r as [|d r]; mstep E; rewrite (proj2 (Z.eqb_neq q 0)) by lia; unfold tokens; rewrite split_tokens_tok by done.
  - rewrite app_nil_r in *. destruct (IH [] m (q + Z.of_nat (length t)) 0 (q + Z.of_nat (length t)) dl ds) as (rs&m'&sp'&E'&Hf&Ho); [simpl; lia| |done|lia|simpl in *; lia|by right|].
    { pose proof (cstr_app m q t []) as Hx. rewrite app_nil_r in Hx. by apply Hx. }
    mstep E'. apply Forall2_nil_inv_r in Hf as ->. exists [q], m', sp'. split; [done|]. split; [|intros a' Ha'; apply Ho; simpl; lia].
    constructor; [|constructor]. eapply cstr_ext; [exact Hb|]. intros a' Ha'. apply Ho. simpl. lia.
  - simpl in Hrd. apply negb_false_iff in Hrd. rewrite Hrd. set (e := q + Z.of_nat (length t)) in *. set (m1 := <[e := 0]> m) in *. simpl length in *.
    assert (forall a', a' <> e -> m1 !! a' = m !! a') as Hm1 by (intros; by apply lookup_insert_ne).
    assert (cstr m (e + 1) r) as Hr by (pose proof (cstr_app m q (t ++ [d]) r) as Hx; rewrite <-app_assoc, length_app in Hx; simpl in Hx; specialize (Hx Hb); unfold e; by replace (q + Z.of_nat (length t) + 1) with (q + Z.of_nat (length t + 1)) by lia).
    destruct (IH r m1 (e + 1) 0 (e + 1) dl ds) as (rs&m'&sp'&E'&Hf&Ho); [lia|eapply cstr_ext; [exact Hr|]; intros; apply Hm1; lia|eapply cstr_ext; [exact Hd|]; intros; apply Hm1; lia|lia|lia|by right|].
    mstep E'. exists (q :: rs), m', sp'. split; [done|]. split.
    + constructor; [|exact Hf]. apply (cstr_front m m' q t d r Hb); fold e; [rewrite Ho by lia; apply lookup_insert_eq|]. intros a' Ha'. rewrite Ho by lia. apply Hm1. lia.
    + intros a' Ha'. rewrite Ho by lia. apply Hm1. lia.
Qed.

(** ** Concrete strings *)

(** A memory with the bytes [l] at [p]. *)
Definition mem_of (p : Z) (l : list Z) : mem := list_to_map (imap (fun i c => (p + Z.of_nat i, c)) l).
(** "ab,,cd" at 4096 and "," at 4103. *)
Definition mem1 : mem := mem_of 4096 [97; 98; 44; 44; 99; 100; 0; 44; 0].
Lemma mem1_str : cstr mem1 4096 [97; 98; 44; 44; 99; 100] /\ cstr mem1 4103 [44] /\ cstr mem1 4100 [99; 100].
Proof. split_and!; (split; [vm_compute; repeat split; reflexivity|repeat constructor; lia]). Qed.

Lemma memmove_exact_witness : exists m', memmove 4098 4096 5 mem1 = Some (4098, m') /\ m' !! 4100 = Some 44.
Proof.
  destruct (memmove_exact mem1 4098 4096 5) as (m'&E&Hm).
  - apply map_Forall_to_list. vm_compute. repeat constructor; discriminate.
  - lia.
  - intros a Ha. assert (a = 4098 \/ a = 4099 \/ a = 4100 \/ a = 4101 \/ a = 4102) as Hc by lia. destruct_or! Hc; subst a; vm_compute; eexists; reflexivity.
  - intros a Ha. assert (a = 4096 \/ a = 4097 \/ a = 4098 \/ a = 4099 \/ a = 4100) as Hc by lia. destruct_or! Hc; subst a; vm_compute; eexists; reflexivity.
  - exists m'. split; [exact E|]. rewrite (Hm 4100). vm_compute. reflexivity.
Defined.
Lemma strstr_first_witness : exists r, strstr 4096 4100 mem1 = Some (r, mem1).
Proof. destruct (strstr_first mem1 4096 4100 _ _ (proj1 mem1_str) (proj2 (proj2 mem1_str))) as (r&E&_). exists r. exact E. Defined.
Lemma strcmp_order_witness : exists r, strcmp 4096 4100 mem1 = Some (r, mem1).
Proof. destruct (strcmp_order mem1 4096 4100 _ _ (proj1 mem1_str) (proj2 (proj2 mem1_str))) as (r&E&_). exists r. exact E. Defined.
Lemma strtok_tokens_witness : exists rs m' sp', strtoks 7 4096 4103 (mem1, 0) = Some (rs, (m', sp')) /\ Forall2 (cstr m') rs [[97; 98]; [99; 100]].
Proof.
  destruct (strtok_tokens 7 [97; 98; 44; 44; 99; 100] mem1 0 4096 4096 4103 [44] ltac:(simpl; lia) (proj1 mem1_str) (proj1 (proj2 mem1_str)) ltac:(lia) ltac:(left; simpl; lia) (or_introl eq_refl)) as (rs&m'&sp'&E&F&_).
  exists rs, m', sp'. split; [exact E|exact F].
Defined.
