(* ===== verification/LibcStdlib.v ===== *)
(** * The C library: numbers, sorting, searching, character classes (src/libc/common/stdlib.c, ctype.c)

    On the byte memory of LibcString.v.  A comparison function is a parameter: an
    operation on the memory that takes two addresses. *)

From stdpp Require Import base numbers gmap list options.
From S2P Require Import Prelude LibcString.

Definition LONG_MAX : Z := 2 ^ 63 - 1.
Definition LONG_MIN : Z := - 2 ^ 63.
Definition ULONG_MAX : Z := 2 ^ 64 - 1.

(** ** strtol, strtoul *)

Definition is_ws (c : Z) : bool := (c =? 32) || (c =? 9) || (c =? 10) || (c =? 13) || (c =? 12) || (c =? 11).
Fixpoint skip_ws (k : nat) (p : Z) : M mem Z :=
  match k with O => mfault | S k' => c <~ ld p ;; if is_ws c then skip_ws k' (p + 1) else return p end.

Definition digit_val (c : Z) : option Z :=
  let c := i8 c in
  if (48 <=? c) && (c <=? 57) then Some (c - 48)
  else if (97 <=? c) && (c <=? 122) then Some (c - 97 + 10)
  else if (65 <=? c) && (c <=? 90) then Some (c - 65 + 10) else None.

(** The sign: negative?, and where the digits start. *)
Definition read_sign (p : Z) : M mem (bool * Z) :=
  c <~ ld p ;; if c =? 45 then return (true, p + 1) else if c =? 43 then return (false, p + 1) else return (false, p).
(** The base, and the prefix of a hexadecimal or octal number. *)
Definition read_base (p base : Z) : M mem (Z * Z) :=
  if base =? 0 then
    c <~ ld p ;;
    if c =? 48 then c1 <~ ld (p + 1) ;; if (c1 =? 120) || (c1 =? 88) then return (16, p + 2) else return (8, p + 1)
    else return (10, p)
  else if base =? 16 then
    c <~ ld p ;;
    if c =? 48 then c1 <~ ld (p + 1) ;; if (c1 =? 120) || (c1 =? 88) then return (base, p + 2) else return (base, p)
    else return (base, p)
  else return (base, p).

(** The digits: the wrapped value, the overflow flag and where they end. *)
Fixpoint digits_loop (k : nat) (p base cutoff cutoff_rem accum : Z) (overflow : bool) : M mem (Z * bool * Z) :=
  match k with
  | O => mfault
  | S k' =>
    c <~ ld p ;;
    match digit_val c with
    | None => return (accum, overflow, p)
    | Some digit =>
      if base <=? digit then return (accum, overflow, p) else
      let overflow := overflow || (cutoff <? accum) || ((accum =? cutoff) && (cutoff_rem <? digit)) in
      digits_loop k' (p + 1) base cutoff cutoff_rem (u64 (accum * base + digit)) overflow
    end
  end.

(** Both results: the value and [*endp]. *)
Definition strtol (s base : Z) : M mem (Z * Z) :=
  p <~ fuelled (fun k => skip_ws k s) ;;
  ' (negative, p) <~ read_sign p ;;
  ' (base, p) <~ read_base p base ;;
  if (base <? 2) || (36 <? base) then return (0, s) else
  let cutoff := LONG_MAX / base in
  let cutoff_rem := LONG_MAX mod base in
  let start := p in
  ' (accum, overflow, p) <~ fuelled (fun k => digits_loop k start base cutoff cutoff_rem 0 false) ;;
  if p =? start then return (0, s) else
  if overflow : bool then return (if negative : bool then LONG_MIN else LONG_MAX, p) else
  return (if negative : bool then - i64 accum else i64 accum, p).
Definition strtoul (s base : Z) : M mem (Z * Z) :=
  p <~ fuelled (fun k => skip_ws k s) ;;
  ' (negative, p) <~ read_sign p ;;
  ' (base, p) <~ read_base p base ;;
  if (base <? 2) || (36 <? base) then return (0, s) else
  let cutoff := ULONG_MAX / base in
  let cutoff_rem := ULONG_MAX mod base in
  let start := p in
  ' (result, overflow, p) <~ fuelled (fun k => digits_loop k start base cutoff cutoff_rem 0 false) ;;
  if p =? start then return (0, s) else
  if overflow : bool then return (ULONG_MAX, p) else
  return (if negative : bool then u64 (- result) else result, p).

Definition atoi (s : Z) : M mem Z := ' (v, _) <~ strtol s 10 ;; return (i32 v).
Definition atol (s : Z) : M mem Z := ' (v, _) <~ strtol s 10 ;; return v.
Definition atoll (s : Z) : M mem Z := ' (v, _) <~ strtol s 10 ;; return v.

(** ** rand, abs, div *)

Definition rand : M Z Z :=
  mmodify (fun rand_state => u32 (rand_state * 1103515245 + 12345)) ;;;
  rand_state <~ mget ;; return (Z.land (Z.shiftr rand_state 16) 0x7FFF).
Definition srand (seed : Z) : M Z unit := mput seed.

(** Signed overflow ([abs(INT_MIN)], [INT_MIN / -1]) and division by zero are faults. *)
Definition abs_w (w x : Z) : option Z := if x =? - 2 ^ (w - 1) then None else Some (if x <? 0 then - x else x).
Definition abs (x : Z) : option Z := abs_w 32 x.
Definition labs (x : Z) : option Z := abs_w 64 x.
Definition llabs (x : Z) : option Z := abs_w 64 x.
Definition div_w (w numer denom : Z) : option (Z * Z) :=
  if (denom =? 0) || ((numer =? - 2 ^ (w - 1)) && (denom =? -1)) then None
  else let quot := Z.quot numer denom in Some (quot, numer - quot * denom).
Definition div (numer denom : Z) : option (Z * Z) := div_w 32 numer denom.
Definition ldiv (numer denom : Z) : option (Z * Z) := div_w 64 numer denom.
Definition lldiv (numer denom : Z) : option (Z * Z) := div_w 64 numer denom.

(** ** qsort, bsearch *)

Fixpoint swap_loop (n : nat) (a b : Z) : M mem unit :=
  match n with O => return tt | S n' => tmp <~ ld a ;; x <~ ld b ;; st a x ;;; st b tmp ;;; swap_loop n' (a + 1) (b + 1) end.
Definition swap_bytes (a b size : Z) : M mem unit := swap_loop (Z.to_nat size) a b.

Section Sort.
Context (compar : Z -> Z -> M mem Z).

(** [sizeof(void * )] is 8. *)
Definition median3 (a b c : Z) : M mem Z :=
  r <~ compar a b ;; mwhen (0 <? r) (swap_bytes a b 8) ;;;
  r <~ compar a c ;; mwhen (0 <? r) (swap_bytes a c 8) ;;;
  r <~ compar b c ;; mwhen (0 <? r) (swap_bytes b c 8) ;;;
  return b.

(** [while (i <= j && compar(i, lo) <= 0) i += size]; at most [k] steps. *)
Fixpoint scan_up (k : nat) (i j lo size : Z) : M mem Z :=
  if j <? i then return i else
  match k with O => mfault | S k' => r <~ compar i lo ;; if r <=? 0 then scan_up k' (i + size) j lo size else return i end.
Fixpoint scan_down (k : nat) (i j lo size : Z) : M mem Z :=
  if j <? i then return j else
  match k with O => mfault | S k' => r <~ compar j lo ;; if 0 <? r then scan_down k' i (j - size) lo size else return j end.
(** The partition loop: the final [j]. *)
Fixpoint part_loop (k : nat) (i j lo size : Z) : M mem Z :=
  match k with
  | O => mfault
  | S k' =>
    i <~ scan_up k i j lo size ;;
    j <~ scan_down k i j lo size ;;
    if j <=? i then return j else swap_bytes i j size ;;; part_loop k' i j lo size
  end.
(** [k] bounds the nesting and every loop: a range of [n] elements needs [n + 1]. *)
Fixpoint qsort_impl (k : nat) (lo hi size : Z) : M mem unit :=
  if hi <=? lo then return tt else
  match k with
  | O => mfault
  | S k' =>
    pivot <~ median3 lo (lo + size * ((hi - lo) / size / 2)) (hi - size) ;;
    swap_bytes lo pivot size ;;;
    j <~ part_loop k (lo + size) (hi - size) lo size ;;
    swap_bytes lo j size ;;;
    if j - lo <? hi - (j + size)
    then mwhen (lo <? j) (qsort_impl k' lo j size) ;;; qsort_impl k' (j + size) hi size
    else mwhen (j + size <? hi) (qsort_impl k' (j + size) hi size) ;;; qsort_impl k' lo j size
  end.
Definition qsort (base nmemb size : Z) : M mem unit :=
  if (nmemb <? 2) || (size =? 0) then return tt
  else qsort_impl (S (Z.to_nat nmemb)) base (base + nmemb * size) size.

(** [nmemb] at least halves; [k] steps. *)
Fixpoint bsearch_loop (k : nat) (key base nmemb size : Z) : M mem Z :=
  if nmemb <=? 0 then return 0 else
  match k with
  | O => mfault
  | S k' =>
    let mid := nmemb / 2 in
    let p := base + mid * size in
    cmp <~ compar key p ;;
    if cmp =? 0 then return p else
    if cmp <? 0 then bsearch_loop k' key base mid size else bsearch_loop k' key (p + size) (nmemb - (mid + 1)) size
  end.
Definition bsearch (key base nmemb size : Z) : M mem Z := bsearch_loop 65 key base nmemb size.

End Sort.

(** ** ctype *)

Definition isdigit (c : Z) : bool := (48 <=? u8 c) && (u8 c <=? 57).
Definition islower (c : Z) : bool := (97 <=? u8 c) && (u8 c <=? 122).
Definition isupper (c : Z) : bool := (65 <=? u8 c) && (u8 c <=? 90).
Definition isalpha (c : Z) : bool := isupper c || islower c.
Definition isalnum (c : Z) : bool := isalpha c || isdigit c.
Definition isblank (c : Z) : bool := (c =? 32) || (c =? 9).
Definition iscntrl (c : Z) : bool := (u8 c <? 32) || (c =? 127).
Definition isprint (c : Z) : bool := (32 <=? u8 c) && (u8 c <=? 126).
Definition isgraph (c : Z) : bool := isprint c && negb (u8 c =? 32).
Definition ispunct (c : Z) : bool := isprint c && negb (isalnum c) && negb (u8 c =? 32).
Definition isspace (c : Z) : bool := (c =? 32) || (c =? 9) || (c =? 10) || (c =? 11) || (c =? 12) || (c =? 13).
Definition isxdigit (c : Z) : bool := isdigit c || ((97 <=? u8 c) && (u8 c <=? 102)) || ((65 <=? u8 c) && (u8 c <=? 70)).
Definition tolower (c : Z) : Z := if isupper c then c + (97 - 65) else c.
Definition toupper (c : Z) : Z := if islower c then c - (97 - 65) else c.
