(* ===== verification/LibcSort.v ===== *)
(** * The C library: qsort and bsearch are correct (the theorems on LibcStdlib.v)

    An array of 8-byte elements is a list of byte lists.  [qsort] is shown to end, to
    sort the array by the comparison function and to be a permutation of it, when the
    elements have the 8 bytes that [median3] swaps whatever their size; for any other
    size it moves bytes that are not elements. *)

From stdpp Require Import base numbers gmap list sorting options.
From S2P Require Import Prelude LibcString LibcStringSpec LibcStdlib.

(** ** Swapping bytes *)

Lemma bytes_at_cons m p c l : bytes_at m p (c :: l) <-> m !! p = Some c /\ bytes_at m (p + 1) l.
Proof. done. Qed.
Lemma swap_loop_run x : forall y m a b, length x = length y -> Forall byte_ok x -> Forall byte_ok y -> bytes_at m a x -> bytes_at m b y ->
  apart a (Z.of_nat (length x)) b (Z.of_nat (length x)) -> exists m', swap_loop (length x) a b m = Some (tt, m') /\
  bytes_at m' a y /\ bytes_at m' b x /\ forall q, ~ (a <= q < a + Z.of_nat (length x)) -> ~ (b <= q < b + Z.of_nat (length x)) -> m' !! q = m !! q.
Proof.
  unfold apart. induction x as [|c x IH]; intros [|d y] m a b Hl Hx Hy Ha Hb Hap; simplify_eq/=; [by exists m|].
  apply Forall_cons in Hx as [Hc Hx], Hy as [Hd Hy]. destruct Ha as [Ha1 Ha], Hb as [Hb1 Hb]. rd Ha1. rd Hb1. mstep (st_run m a d c Ha1). rewrite (u8_id d) by done.
  assert (<[a := d]> m !! b = Some d) as Hb1' by (rewrite lookup_insert_ne by lia; done). mstep (st_run (<[a := d]> m) b c d Hb1'). rewrite (u8_id c) by done.
  set (m1 := <[b := c]> (<[a := d]> m)). assert (forall q, q <> a -> q <> b -> m1 !! q = m !! q) as Hm1 by (intros; unfold m1; rewrite !lookup_insert_ne by done; done).
  destruct (IH y m1 (a + 1) (b + 1)) as (m'&E&Ya&Xb&Ho); [done|done|done|eapply bytes_at_ext; [done|]; intros; apply Hm1; lia|eapply bytes_at_ext; [done|]; intros; apply Hm1; lia|lia|].
  exists m'. split; [done|]. split; [split; [|done]|split; [split; [|done]|]].
  - rewrite Ho by lia. unfold m1. rewrite lookup_insert_ne, lookup_insert_eq by lia. done.
  - rewrite Ho by lia. apply lookup_insert_eq.
  - intros q H1 H2. rewrite Ho by lia. apply Hm1; lia.
Qed.
Lemma swap_loop_self x : forall m a, Forall byte_ok x -> bytes_at m a x -> swap_loop (length x) a a m = Some (tt, m).
Proof.
  induction x as [|c x IH]; intros m a Hx Ha; [done|]. apply Forall_cons in Hx as [Hc Hx]. destruct Ha as [Ha1 Ha]. cbn [length swap_loop]. rd Ha1. rd Ha1.
  mstep (st_run m a c c Ha1). rewrite u8_id, insert_id by done. mstep (st_run m a c c Ha1). rewrite u8_id, insert_id by done. by apply IH.
Qed.

Section Sort.
Context (base : Z) (m0 : mem) (compar : Z -> Z -> M mem Z) (cmp : list Z -> list Z -> Z).
(** [compar] compares the elements at its two addresses ... *)
Context (compar_run : forall m a b x y, length x = 8%nat -> length y = 8%nat -> bytes_at m a x -> bytes_at m b y -> compar a b m = Some (cmp x y, m)).
(** ... and is a total preorder. *)
Context (cmp_total : forall x y, 0 < cmp x y -> cmp y x <= 0) (cmp_trans : forall x y z, cmp x y <= 0 -> cmp y z <= 0 -> cmp x z <= 0).

Definition adr (i : nat) : Z := base + 8 * Z.of_nat i.

(** The elements [xs] are at [base], and outside of them memory is that of [m0]. *)
Record array (m : mem) (xs : list (list Z)) : Prop := {
  ar_at : forall i x, xs !! i = Some x -> bytes_at m (adr i) x;
  ar_len : Forall (fun x => length x = 8%nat /\ Forall byte_ok x) xs;
  ar_out : forall a, ~ (base <= a < base + 8 * Z.of_nat (length xs)) -> m !! a = m0 !! a
}.
Local Notation le x y := (cmp x y <= 0).

Lemma ar_elem m xs i x : array m xs -> xs !! i = Some x -> length x = 8%nat /\ Forall byte_ok x.
Proof. intros H Hi. apply (proj1 (Forall_lookup _ _) (ar_len _ _ H) _ _ Hi). Qed.
Lemma cmp_run m xs i j x y : array m xs -> xs !! i = Some x -> xs !! j = Some y -> compar (adr i) (adr j) m = Some (cmp x y, m).
Proof using compar_run.
  intros H Hi Hj. destruct (ar_elem _ _ _ _ H Hi), (ar_elem _ _ _ _ H Hj). apply compar_run; [done..| |]; by eapply ar_at.
Qed.

Definition swapped (xs : list (list Z)) (i j : nat) (x y : list Z) : list (list Z) := <[i := y]> (<[j := x]> xs).
Lemma swapped_perm xs i j x y : xs !! i = Some x -> xs !! j = Some y -> swapped xs i j x y ≡ₚ xs.
Proof. intros Hi Hj. by apply Permutation_insert_swap. Qed.
Lemma swap_at m xs i j x y : array m xs -> xs !! i = Some x -> xs !! j = Some y ->
  exists m', swap_bytes (adr i) (adr j) 8 m = Some (tt, m') /\ array m' (swapped xs i j x y).
Proof.
  intros H Hi Hj. destruct (ar_elem _ _ _ _ H Hi) as [Lx Bx], (ar_elem _ _ _ _ H Hj) as [Ly By]. unfold swap_bytes. change (Z.to_nat 8) with 8%nat.
  pose proof (lookup_lt_Some _ _ _ Hi) as Li. pose proof (lookup_lt_Some _ _ _ Hj) as Lj. destruct (decide (i = j)) as [->|Hne].
  - simplify_eq. exists m. split; [rewrite <-Lx; apply swap_loop_self; [done|by eapply ar_at]|]. unfold swapped. by rewrite !list_insert_id by (rewrite ?list_insert_id by done; done).
  - destruct (swap_loop_run x y m (adr i) (adr j)) as (m'&E&Yi&Xj&Ho); [congruence|done|done|by eapply ar_at|by eapply ar_at|rewrite Lx; unfold apart, adr; lia|].
    rewrite Lx in E, Ho. exists m'. split; [done|]. split.
    + intros k z Hk. unfold swapped in Hk. destruct (decide (k = i)) as [->|]; [rewrite list_lookup_insert_eq in Hk by (rewrite length_insert; done); congruence|].
      rewrite list_lookup_insert_ne in Hk by done. destruct (decide (k = j)) as [->|]; [rewrite list_lookup_insert_eq in Hk by done; congruence|].
      rewrite list_lookup_insert_ne in Hk by done. eapply bytes_at_ext; [by eapply ar_at|]. destruct (ar_elem _ _ _ _ H Hk) as [-> _].
      intros q Hq. apply Ho; unfold adr in *; lia.
    + unfold swapped. apply Forall_insert; [apply Forall_insert; [apply H|done]|done].
    + intros q Hq. unfold swapped in Hq. rewrite !length_insert in Hq. rewrite Ho; [by apply (ar_out _ _ H)|unfold adr in *; lia..].
Qed.

(** ** Sorting the range between [pre] and [post] *)

Lemma swap_mid m pre mid post i j x y : array m (pre ++ mid ++ post) -> mid !! i = Some x -> mid !! j = Some y ->
  exists m', swap_bytes (adr (length pre + i)) (adr (length pre + j)) 8 m = Some (tt, m') /\ array m' (pre ++ swapped mid i j x y ++ post).
Proof.
  intros H Hi Hj. pose proof (lookup_lt_Some _ _ _ Hi) as Li. pose proof (lookup_lt_Some _ _ _ Hj) as Lj.
  assert (forall k z, mid !! k = Some z -> (pre ++ mid ++ post) !! (length pre + k)%nat = Some z) as Hl.
  { intros k z Hk. rewrite lookup_app_r by lia. rewrite lookup_app_l by (apply lookup_lt_Some in Hk; lia). by replace (length pre + k - length pre)%nat with k by lia. }
  destruct (swap_at m _ _ _ x y H (Hl _ _ Hi) (Hl _ _ Hj)) as (m'&E&Ha). exists m'. split; [done|]. unfold swapped in *.
  by rewrite insert_app_r, (insert_app_l mid), insert_app_r, (insert_app_l (<[j := x]> mid)) in Ha by (rewrite ?length_insert; done).
Qed.
Lemma cmp_mid m pre mid post i j x y : array m (pre ++ mid ++ post) -> mid !! i = Some x -> mid !! j = Some y ->
  compar (adr (length pre + i)) (adr (length pre + j)) m = Some (cmp x y, m).
Proof using compar_run.
  intros H Hi Hj. eapply cmp_run; [exact H| |]; rewrite lookup_app_r by lia; rewrite lookup_app_l by (apply lookup_lt_Some in Hi, Hj; lia);
    match goal with |- mid !! (_ + ?k - _)%nat = _ => replace (length pre + k - length pre)%nat with k by lia end; done.
Qed.

(** One step of [median3]. *)
Lemma order_mid m pre mid post i j : array m (pre ++ mid ++ post) -> (i < length mid)%nat -> (j < length mid)%nat -> exists r m' mid',
  compar (adr (length pre + i)) (adr (length pre + j)) m = Some (r, m) /\ mwhen (0 <? r) (swap_bytes (adr (length pre + i)) (adr (length pre + j)) 8) m = Some (tt, m') /\
  array m' (pre ++ mid' ++ post) /\ mid' ≡ₚ mid.
Proof using compar_run.
  intros H Hi Hj. apply lookup_lt_is_Some in Hi as [x Hx], Hj as [y Hy]. exists (cmp x y). pose proof (cmp_mid _ _ _ _ _ _ _ _ H Hx Hy) as E.
  destruct (0 <? cmp x y); cbn [mwhen]; [|by exists m, mid]. destruct (swap_mid _ _ _ _ _ _ _ _ H Hx Hy) as (m'&E'&Ha). exists m', (swapped mid i j x y).
  split; [done|]. split; [done|]. split; [done|by apply swapped_perm].
Qed.
Lemma median3_run m pre mid post i j k : array m (pre ++ mid ++ post) -> (i < length mid)%nat -> (j < length mid)%nat -> (k < length mid)%nat ->
  exists m' mid', median3 compar (adr (length pre + i)) (adr (length pre + j)) (adr (length pre + k)) m = Some (adr (length pre + j), m') /\
  array m' (pre ++ mid' ++ post) /\ mid' ≡ₚ mid.
Proof using compar_run.
  intros H Hi Hj Hk. unfold median3. destruct (order_mid _ _ _ _ i j H Hi Hj) as (r1&m1&l1&E1&S1&H1&P1). mstep E1. mstep S1. rewrite <-P1 in Hi, Hj, Hk.
  destruct (order_mid _ _ _ _ i k H1 Hi Hk) as (r2&m2&l2&E2&S2&H2&P2). mstep E2. mstep S2. rewrite <-P2 in Hi, Hj, Hk.
  destruct (order_mid _ _ _ _ j k H2 Hj Hk) as (r3&m3&l3&E3&S3&H3&P3). mstep E3. mstep S3. exists m3, l3. split; [done|]. split; [done|]. by rewrite P3, P2.
Qed.

(** ** The partition: the pivot [p], the elements not above it, the unknown ones, those above it *)

Lemma adr_up i : adr i + 8 = adr (S i).
Proof. unfold adr. lia. Qed.
Lemma adr_lt i j : adr i < adr j <-> (i < j)%nat.
Proof. unfold adr. lia. Qed.

Lemma scan_up_run m pre post p G U : forall L k, (length U < k)%nat -> Forall (fun x => le x p) L -> array m (pre ++ (p :: L ++ U ++ G) ++ post) ->
  exists L' U', L ++ U = L' ++ U' /\ (length U' <= length U)%nat /\ Forall (fun x => le x p) L' /\ match U' with [] => True | a :: _ => 0 < cmp a p end /\
  scan_up compar k (adr (length pre + S (length L))) (adr (length pre + (length L + length U))) (adr (length pre + 0)) 8 m = Some (adr (length pre + S (length L')), m).
Proof using compar_run.
  induction U as [|a U IH]; intros L [|k] Hk HL H; simpl in Hk; try lia; cbn [scan_up].
  - exists L, []. rewrite (proj2 (Z.ltb_lt _ _)) by (apply adr_lt; simpl; lia). done.
  - rewrite (proj2 (Z.ltb_ge _ _)) by (unfold adr; simpl; lia).
    pose proof (cmp_mid m pre _ post (S (length L)) 0 a p H ltac:(simpl; by rewrite lookup_app_r, Nat.sub_diag by lia) eq_refl) as E. mstep E.
    destruct (Z.leb_spec (cmp a p) 0) as [Hle|Hgt].
    + rewrite adr_up. destruct (IH (L ++ [a]) k) as (L'&U'&E1&Hlen&HL'&HU'&Er); [lia|apply Forall_app; auto|by rewrite <-app_assoc|]. exists L', U'. split; [by rewrite <-E1, <-app_assoc|].
      split; [simpl; lia|]. split; [done|]. split; [done|]. rewrite <-Er, length_app. do 2 f_equal; simpl; lia.
    + exists L, (a :: U). done.
Qed.
Lemma scan_down_run m pre post p L U : forall G k, (length U < k)%nat -> Forall (fun x => 0 < cmp x p) G -> array m (pre ++ (p :: L ++ U ++ G) ++ post) ->
  exists U' G', U ++ G = U' ++ G' /\ Forall (fun x => 0 < cmp x p) G' /\ (length U' <= length U)%nat /\ match last U' with None => True | Some b => le b p end /\
  scan_down compar k (adr (length pre + S (length L))) (adr (length pre + (length L + length U))) (adr (length pre + 0)) 8 m = Some (adr (length pre + (length L + length U')), m).
Proof using compar_run.
  induction U as [|b U IH] using rev_ind; intros G [|k] Hk HG H; rewrite ?length_app in *; simpl in Hk; try lia; cbn [scan_down].
  - exists [], G. rewrite (proj2 (Z.ltb_lt _ _)) by (apply adr_lt; simpl; lia). done.
  - change (length [b]) with 1%nat. rewrite (proj2 (Z.ltb_ge _ _)) by (unfold adr; simpl; lia). assert (array m (pre ++ (p :: L ++ U ++ b :: G) ++ post)) as H' by (by rewrite <-(app_assoc U) in H).
    assert ((p :: L ++ U ++ b :: G) !! (length L + (length U + 1))%nat = Some b) as Hl.
    { replace (length L + (length U + 1))%nat with (S (length L + length U)) by lia. change ((L ++ U ++ b :: G) !! (length L + length U)%nat = Some b). rewrite !lookup_app_r by lia.
      by replace (length L + length U - length L - length U)%nat with 0%nat by lia. }
    pose proof (cmp_mid m pre _ post _ 0 b p H' Hl eq_refl) as E. mstep E. destruct (Z.ltb_spec 0 (cmp b p)) as [Hgt|Hle].
    + replace (adr (length pre + (length L + (length U + 1))) - 8) with (adr (length pre + (length L + length U))) by (unfold adr; lia).
      destruct (IH (b :: G) k) as (U'&G'&E1&HG'&Hlen&HU'&Er); [lia|by constructor|done|]. exists U', G'. split; [by rewrite <-E1, <-app_assoc|]. split; [done|]. split; [simpl; lia|]. split; [exact HU'|exact Er].
    + exists (U ++ [b]), G. rewrite last_snoc, length_app. done.
Qed.

(** The elements [i] and [j] point at when the loop goes on. *)
Lemma ends_eq (U : list (list Z)) : (2 <= length U)%nat -> exists a V b, U = a :: V ++ [b].
Proof.
  destruct U as [|a U]; simpl; [lia|]. destruct U as [|x U _] using rev_ind; simpl; [lia|]. intros _. by exists a, U, x.
Qed.
Lemma swapped_ends p L a V b G : swapped (p :: L ++ (a :: V ++ [b]) ++ G) (S (length L)) (length L + length (a :: V ++ [b])) a b = p :: L ++ (b :: V ++ [a]) ++ G.
Proof.
  unfold swapped. replace (length L + length (a :: V ++ [b]))%nat with (S (length L + S (length V))) by (simpl; rewrite length_app; simpl; lia). simpl. f_equal. rewrite insert_app_r. simpl. rewrite <-!app_assoc.
  pose proof (insert_app_r V ([b] ++ G) 0 a) as E1. rewrite Nat.add_0_r in E1. rewrite E1. pose proof (insert_app_r L (a :: V ++ a :: G) 0 b) as E2. rewrite Nat.add_0_r in E2. exact E2.
Qed.

Lemma part_loop_run pre post p k : forall m L U G, (S (length U) < k)%nat \/ ((length U < k)%nat /\ exists b t, U = b :: t /\ le b p) ->
  Forall (fun x => le x p) L -> Forall (fun x => 0 < cmp x p) G -> array m (pre ++ (p :: L ++ U ++ G) ++ post) -> exists m' L' G',
  part_loop compar k (adr (length pre + S (length L))) (adr (length pre + (length L + length U))) (adr (length pre + 0)) 8 m = Some (adr (length pre + length L'), m') /\
  array m' (pre ++ (p :: L' ++ G') ++ post) /\ L' ++ G' ≡ₚ L ++ U ++ G /\ Forall (fun x => le x p) L' /\ Forall (fun x => 0 < cmp x p) G'.
Proof using compar_run.
  induction k as [|k IH]; intros m L U G Hk HL HG H; [lia|]. cbn [part_loop].
  destruct (scan_up_run m pre post p G U L (S k) ltac:(lia) HL H) as (L1&U1&E1&Hl1&HL1&HU1&Er1). mstep Er1.
  assert (length L + length U = length L1 + length U1)%nat as Hlen by (rewrite <-!length_app; by rewrite E1). rewrite Hlen.
  assert ((length U1 < k)%nat) as Hk1.
  { destruct Hk as [|[Hk (b&t&->&Hb)]]; [lia|]. destruct (decide (length U1 = length (b :: t))) as [El|]; [|lia].
    apply app_inj_2 in E1 as [_ <-]; [lia|done]. }
  rewrite (app_assoc L), E1, <-app_assoc in H.
  destruct (scan_down_run m pre post p L1 U1 G (S k) ltac:(lia) HG H) as (U2&G2&E2&HG2&Hl2&HU2&Er2). mstep Er2. rewrite E2 in H.
  assert (L1 ++ U2 ++ G2 ≡ₚ L ++ U ++ G) as Hp by (rewrite <-E2, !app_assoc, E1; done).
  destruct (decide (2 <= length U2)%nat) as [H2|H2].
  - rewrite (proj2 (Z.leb_gt _ _)) by (apply adr_lt; lia). destruct (ends_eq U2 H2) as (a&V&b&->).
    destruct (swap_mid m pre _ post (S (length L1)) (length L1 + length (a :: V ++ [b])) a b H) as (m1&Es&Ha).
    { simpl. rewrite lookup_app_r, Nat.sub_diag by lia. done. }
    { replace (length L1 + length (a :: V ++ [b]))%nat with (S (length L1 + S (length V))) by (simpl; rewrite length_app; simpl; lia). simpl.
      rewrite lookup_app_r by lia. replace (length L1 + S (length V) - length L1)%nat with (S (length V)) by lia. simpl. rewrite <-app_assoc, lookup_app_r, Nat.sub_diag by lia. done. }
    mstep Es. rewrite swapped_ends in Ha. replace (length (a :: V ++ [b])) with (length (b :: V ++ [a])) in * by (simpl; rewrite !length_app; done).
    destruct (IH m1 L1 (b :: V ++ [a]) G2) as (m'&L'&G'&El&Ha'&Hp'&HL'&HG'); [right; split; [lia|]; exists b, (V ++ [a]); split; [done|]; change (a :: V ++ [b]) with ((a :: V) ++ [b]) in HU2; by rewrite last_snoc in HU2|done..|].
    exists m', L', G'. split; [done|]. split; [done|]. split; [|done]. rewrite Hp', <-Hp. f_equiv. f_equiv. simpl. rewrite (Permutation_app_comm V [a]), (Permutation_app_comm V [b]). simpl. apply perm_swap.
  - rewrite (proj2 (Z.leb_le _ _)) by (unfold adr; lia). destruct U2 as [|a U2].
    + exists m, L1, G2. rewrite Nat.add_0_r. simpl in *. split; [done|]. split; [done|]. split; [done|done].
    + exfalso. destruct U2; [|simpl in H2; lia]. simpl in *. destruct U1 as [|a' U1]; [simpl in Hl2; lia|]. simplify_eq/=. lia.
Qed.
(** ** qsort *)

(** The pivot goes between the two parts. *)
Lemma front_swap p L G : exists y F, (p :: L ++ G) !! length L = Some y /\ swapped (p :: L ++ G) 0 (length L) p y = F ++ p :: G /\ F ≡ₚ L.
Proof.
  destruct L as [|x L _] using rev_ind; [by exists p, []|]. exists x, (x :: L). rewrite length_app, Nat.add_1_r. simpl. rewrite <-app_assoc. split; [by rewrite lookup_app_r, Nat.sub_diag by lia|].
  split; [|by rewrite Permutation_app_comm]. unfold swapped. simpl. pose proof (insert_app_r L ([x] ++ G) 0 p) as E. rewrite Nat.add_0_r in E. f_equal. exact E.
Qed.
Lemma qsort_halves k' m pre F p G post : (forall m pre mid post, (length mid < k')%nat -> array m (pre ++ mid ++ post) -> exists m' mid',
    qsort_impl compar k' (adr (length pre)) (adr (length pre + length mid)) 8 m = Some (tt, m') /\ array m' (pre ++ mid' ++ post) /\ mid' ≡ₚ mid /\ StronglySorted (fun x y => le x y) mid') ->
  (length F < k')%nat -> (length G < k')%nat -> array m (pre ++ (F ++ p :: G) ++ post) -> exists m' F' G',
  (let lo := adr (length pre) in let j := adr (length pre + length F) in let hi := adr (length pre + S (length F + length G)) in
   if j - lo <? hi - (j + 8)
   then mwhen (lo <? j) (qsort_impl compar k' lo j 8) ;;; qsort_impl compar k' (j + 8) hi 8
   else mwhen (j + 8 <? hi) (qsort_impl compar k' (j + 8) hi 8) ;;; qsort_impl compar k' lo j 8) m = Some (tt, m') /\
  array m' (pre ++ (F' ++ p :: G') ++ post) /\ F' ≡ₚ F /\ G' ≡ₚ G /\ StronglySorted (fun x y => le x y) F' /\ StronglySorted (fun x y => le x y) G'.
Proof.
  intros IH HF HG H. cbn zeta. assert (forall a b m, mwhen (a <? b) (qsort_impl compar k' a b 8) m = qsort_impl compar k' a b 8 m) as Hw.
  { intros a b m'. destruct (Z.ltb_spec a b); [done|]. cbn [mwhen]. destruct k'; cbn [qsort_impl]; by rewrite (proj2 (Z.leb_le b a)) by lia. }
  rewrite adr_up. assert (forall m F G, array m (pre ++ (F ++ p :: G) ++ post) <-> array m ((pre ++ F ++ [p]) ++ G ++ post)) as HreG by (intros; rewrite <-!app_assoc; done).
  assert (forall m F G, array m (pre ++ (F ++ p :: G) ++ post) <-> array m (pre ++ F ++ (p :: G ++ post))) as HreF by (intros; rewrite <-!app_assoc; done).
  assert (forall F1 : list (list Z), length F1 = length F -> adr (S (length pre + length F)) = adr (length (pre ++ F1 ++ [p])) /\
    adr (length pre + S (length F + length G)) = adr (length (pre ++ F1 ++ [p]) + length G)) as Hadr by (intros F1 El; rewrite !length_app, El; simpl; split; f_equal; lia).
  destruct (_ <? _).
  - destruct (IH m pre F (p :: G ++ post) HF) as (m1&F'&E1&H1&P1&S1); [by apply HreF|]. pose proof (proj1 (HreG _ _ _) (proj2 (HreF _ _ _) H1)) as H1'.
    destruct (IH m1 _ G post HG H1') as (m2&G'&E2&H2&P2&S2). exists m2, F', G'. destruct (Hadr F' (Permutation_length P1)) as [-> ->]. unfold mbind_ at 1. rewrite Hw, E1.
    split; [exact E2|]. split; [by apply HreG|]. done.
  - destruct (Hadr F eq_refl) as [-> ->]. destruct (IH m (pre ++ F ++ [p]) G post HG) as (m1&G'&E1&H1&P1&S1); [by apply HreG|]. pose proof (proj1 (HreF _ _ _) (proj2 (HreG _ _ _) H1)) as H1'.
    destruct (IH m1 pre F _ HF H1') as (m2&F'&E2&H2&P2&S2). exists m2, F', G'. unfold mbind_ at 1. rewrite Hw, E1.
    split; [exact E2|]. split; [by apply HreF|]. done.
Qed.
Lemma qsort_impl_run k : forall m pre mid post, (length mid < k)%nat -> array m (pre ++ mid ++ post) -> exists m' mid',
  qsort_impl compar k (adr (length pre)) (adr (length pre + length mid)) 8 m = Some (tt, m') /\ array m' (pre ++ mid' ++ post) /\
  mid' ≡ₚ mid /\ StronglySorted (fun x y => le x y) mid'.
Proof using compar_run cmp_total cmp_trans.
  induction k as [|k IH]; intros m pre mid post Hk H; [lia|]. cbn [qsort_impl]. destruct mid as [|e mid0] eqn:Em.
  { exists m, []. rewrite (proj2 (Z.leb_le _ _)) by (unfold adr; simpl; lia). split; [done|]. split; [done|]. split; [done|constructor]. }
  rewrite <-Em in *. assert (0 < length mid)%nat as Hpos by (rewrite Em; simpl; lia). clear e mid0 Em. set (n := length mid) in *.
  rewrite (proj2 (Z.leb_gt _ _)) by (apply adr_lt; lia).
  replace (adr (length pre) + 8 * ((adr (length pre + n) - adr (length pre)) / 8 / 2)) with (adr (length pre + n / 2))
    by (replace (adr (length pre + n) - adr (length pre)) with (Z.of_nat n * 8) by (unfold adr; lia); rewrite Z.div_mul by lia; unfold adr; rewrite Nat2Z.inj_add, Nat2Z.inj_div; lia).
  replace (adr (length pre + n) - 8) with (adr (length pre + (n - 1))) by (unfold adr; lia).
  assert (n / 2 < n)%nat as Hh by (apply Nat.div_lt; lia).
  destruct (median3_run m pre mid post 0 (n / 2) (n - 1) H) as (m1&l1&E1&H1&P1); [lia..|]. rewrite Nat.add_0_r in E1. mstep E1. pose proof (Permutation_length P1) as L1. fold n in L1.
  destruct (proj2 (lookup_lt_is_Some l1 0) ltac:(lia)) as [x Hx], (proj2 (lookup_lt_is_Some l1 (n / 2)) ltac:(lia)) as [y Hy].
  destruct (swap_mid m1 pre l1 post 0 (n / 2) x y H1 Hx Hy) as (m2&E2&H2). rewrite Nat.add_0_r in E2. mstep E2. pose proof (swapped_perm _ _ _ _ _ Hx Hy) as P2. pose proof (Permutation_length P2) as L2.
  destruct (swapped l1 0 (n / 2) x y) as [|p rest] eqn:Er; [simpl in L2; lia|]. simpl in L2.
  destruct (part_loop_run pre post p (S k) m2 [] rest []) as (m3&L&G&E3&H3&P3&HL&HG); [left; lia|constructor|constructor|by rewrite app_nil_r|].
  rewrite Nat.add_0_r in E3. simpl length in E3. rewrite adr_up. replace (S (length pre)) with (length pre + 1)%nat by lia. replace (n - 1)%nat with (0 + length rest)%nat by lia. mstep E3.
  rewrite app_nil_r in P3. simpl in P3. destruct (front_swap p L G) as (z&F&Hz&Es&PF). destruct (swap_mid m3 pre _ post 0 (length L) p z H3 eq_refl Hz) as (m4&E4&H4).
  rewrite Nat.add_0_r in E4. mstep E4. rewrite Es in H4. pose proof (Permutation_length PF) as LF. pose proof (Permutation_length P3) as L3. rewrite length_app in L3.
  destruct (qsort_halves k m4 pre F p G post IH) as (m5&F'&G'&E5&H5&P5&P6&S5&S6); [lia|lia|done|]. rewrite <-LF. replace n with (S (length F + length G)) by lia.
  exists m5, (F' ++ p :: G'). split; [exact E5|]. split; [done|]. split.
  - rewrite P5, P6, PF, <-Permutation_middle, P3. rewrite <-P1, <-P2. done.
  - assert (forall x, x ∈ F' -> le x p) as HF by (intros w Hw; rewrite P5, PF in Hw; apply (proj1 (Forall_forall _ _) HL w Hw)).
    assert (forall x, x ∈ G' -> le p x) as HG' by (intros w Hw; rewrite P6 in Hw; apply cmp_total, (proj1 (Forall_forall _ _) HG w Hw)).
    apply StronglySorted_app_2; [|done|constructor; [done|by apply Forall_forall]]. intros w1 w2 H1' [-> |H2']%elem_of_cons; [by apply HF|]. eapply cmp_trans; [by apply HF|by apply HG'].
Qed.
End Sort.

(** C17: [qsort] of an array of 8-byte elements, with any comparison function that is a total preorder on them, ends; the
    array is then a sorted permutation of what it was and no other byte of memory has changed. *)
Theorem qsort_sorts base m compar cmp xs :
  (forall m a b x y, length x = 8%nat -> length y = 8%nat -> bytes_at m a x -> bytes_at m b y -> compar a b m = Some (cmp x y, m)) ->
  (forall x y, 0 < cmp x y -> cmp y x <= 0) -> (forall x y z, cmp x y <= 0 -> cmp y z <= 0 -> cmp x z <= 0) -> array base m m xs ->
  exists m' ys, qsort compar base (Z.of_nat (length xs)) 8 m = Some (tt, m') /\ array base m m' ys /\ ys ≡ₚ xs /\ StronglySorted (fun x y => cmp x y <= 0) ys.
Proof.
  intros Hrun Htot Htr H. unfold qsort. destruct (Z.ltb_spec (Z.of_nat (length xs)) 2) as [Hlt|Hge]; cbn [orb].
  - exists m, xs. split; [done|]. split; [done|]. split; [done|]. destruct xs as [|x [|y xs]]; [constructor|repeat constructor|simpl in Hlt; lia].
  - rewrite Nat2Z.id. change (8 =? 0) with false. cbn iota.
    destruct (qsort_impl_run base m compar cmp Hrun Htot Htr (S (length xs)) m [] xs []) as (m'&ys&E&Ha&P&S); [lia|by rewrite app_nil_r|]. rewrite app_nil_r in Ha.
    exists m', ys. split; [|done]. rewrite <-E. unfold adr. simpl length. f_equal; lia.
Qed.

(** ** bsearch *)

Lemma bsearch_loop_run compar m key size f k : forall base n, 0 <= n < 2 ^ Z.of_nat k ->
  (forall i, 0 <= i < n -> compar key (base + i * size) m = Some (f i, m)) ->
  (forall i j, 0 <= i <= j -> j < n -> (f i < 0 -> f j < 0) /\ (0 < f j -> 0 < f i)) ->
  exists r, bsearch_loop compar k key base n size m = Some (r, m) /\
  ((exists i, 0 <= i < n /\ f i = 0 /\ r = base + i * size) \/ (r = 0 /\ forall i, 0 <= i < n -> f i <> 0)).
Proof.
  revert f. induction k as [|k IH]; intros f base n Hn Hc Hm; cbn [bsearch_loop].
  - assert (n = 0) as -> by lia. exists 0. split; [done|]. right. split; [done|lia].
  - destruct (Z.leb_spec n 0); [exists 0; split; [done|]; right; split; [done|lia]|]. rewrite Nat2Z.inj_succ, Z.pow_succ_r in Hn by lia.
    pose proof (Z.div_mod n 2 ltac:(lia)). pose proof (Z.mod_pos_bound n 2 ltac:(lia)). set (mid := n / 2) in *.
    mstep (Hc mid ltac:(lia)). destruct (Z.eqb_spec (f mid) 0) as [Hz|Hnz]; [exists (base + mid * size); split; [done|]; left; exists mid; split; [lia|done]|].
    destruct (Z.ltb_spec (f mid) 0) as [Hl|Hg].
    + destruct (IH f base mid) as (r&E&Hr); [lia|intros; apply Hc; lia|intros; apply Hm; lia|]. exists r. split; [exact E|].
      destruct Hr as [(i&?&?&?)|[-> Hno]]; [left; exists i; split; [lia|done]|right; split; [done|]]. intros i Hi. destruct (decide (i < mid)); [apply Hno; lia|].
      destruct (Hm mid i ltac:(lia) ltac:(lia)) as [Hx _]. specialize (Hx Hl). lia.
    + destruct (IH (fun i => f (mid + 1 + i)) (base + mid * size + size) (n - (mid + 1))) as (r&E&Hr); [lia| |intros; apply Hm; lia|].
      { intros i Hi. rewrite <-(Hc (mid + 1 + i)) by lia. f_equal. lia. }
      exists r. split; [exact E|]. destruct Hr as [(i&?&?&?)|[-> Hno]]; [left; exists (mid + 1 + i); split; [lia|split; [done|lia]]|right; split; [done|]].
      intros i Hi. destruct (decide (mid < i)); [replace i with (mid + 1 + (i - (mid + 1))) by lia; apply Hno; lia|]. destruct (Hm i mid ltac:(lia) ltac:(lia)) as [_ Hx]. specialize (Hx ltac:(lia)). lia.
Qed.

(** [bsearch] ends, and on an array that the comparison with the key cuts into smaller, equal and greater elements
    it returns the address of an equal element, or NULL exactly when there is none. *)
Theorem bsearch_exact compar m key base n size f : 0 <= n < 2 ^ 64 ->
  (forall i, 0 <= i < n -> compar key (base + i * size) m = Some (f i, m)) ->
  (forall i j, 0 <= i <= j -> j < n -> (f i < 0 -> f j < 0) /\ (0 < f j -> 0 < f i)) ->
  exists r, bsearch compar key base n size m = Some (r, m) /\
  ((exists i, 0 <= i < n /\ f i = 0 /\ r = base + i * size) \/ (r = 0 /\ forall i, 0 <= i < n -> f i <> 0)).
Proof. intros Hn. unfold bsearch. apply bsearch_loop_run. change (2 ^ Z.of_nat 65) with (2 * 2 ^ 64). lia. Qed.

(** ** Concrete arrays *)

(** The comparison of two unsigned little-endian numbers of [w] bytes. *)
Fixpoint load_le (p : Z) (w : nat) : M mem Z :=
  match w with O => return 0 | S w' => x <~ ld p ;; y <~ load_le (p + 1) w' ;; return (x + 256 * y) end.
Definition compare_le (w : nat) (a b : Z) : M mem Z := x <~ load_le a w ;; y <~ load_le b w ;; return (x - y).

Lemma load_le_run l : forall m p, bytes_at m p l -> load_le p (length l) m = Some (le_dec l, m).
Proof. induction l as [|c l IH]; intros m p H; [done|]. destruct H as [Hc H]. cbn [length load_le le_dec]. rd Hc. mstep (IH _ _ H). done. Qed.

(** Sorting four 4-byte numbers: the comparison function is the same total order, but [median3] swaps 8 bytes, and the
    number behind the array ends up in it. *)
Theorem qsort_wrong_size : let m := mem_of 4096 (concat (le_enc 4 <$> [5; 3; 2; 1; 77])) in
  exists m', qsort (compare_le 4) 4096 4 4 m = Some (tt, m') /\ fst <$> load_le 4108 4 m' = Some 77 /\ fst <$> load_le 4112 4 m' = Some 5.
Proof. eexists. split; [vm_compute; reflexivity|]. split; reflexivity. Qed.

Definition xs3 : list (list Z) := le_enc 8 <$> [5; 3; 9].
Lemma xs3_array : array 4096 (mem_of 4096 (concat xs3)) (mem_of 4096 (concat xs3)) xs3.
Proof.
  split; [|apply Forall_fmap, Forall_true; intros n; split; [apply le_enc_length|apply le_enc_bytes]|done]. intros i x Hi. do 3 (destruct i as [|i]; [injection Hi as <-; vm_compute; repeat split; reflexivity|]). discriminate.
Qed.
Lemma compare_le8_run m a b x y : length x = 8%nat -> length y = 8%nat -> bytes_at m a x -> bytes_at m b y -> compare_le 8 a b m = Some (le_dec x - le_dec y, m).
Proof. intros Hx Hy Ha Hb. unfold compare_le. rewrite <-Hx at 1. mstep (load_le_run x m a Ha). rewrite <-Hy. mstep (load_le_run y m b Hb). done. Qed.
Lemma qsort_sorts_witness : exists m' ys, qsort (compare_le 8) 4096 3 8 (mem_of 4096 (concat xs3)) = Some (tt, m') /\ ys ≡ₚ xs3 /\
  StronglySorted (fun x y => le_dec x - le_dec y <= 0) ys.
Proof.
  destruct (qsort_sorts 4096 (mem_of 4096 (concat xs3)) (compare_le 8) (fun x y => le_dec x - le_dec y) xs3 compare_le8_run ltac:(intros; lia) ltac:(intros; lia) xs3_array) as (m'&ys&E&_&P&S).
  exists m', ys. split; [exact E|]. split; [exact P|exact S].
Defined.
(** The key 9 behind a sorted array. *)
Lemma bsearch_exact_witness : exists r, bsearch (compare_le 8) 4120 4096 3 8 (mem_of 4096 (concat (le_enc 8 <$> [3; 5; 9; 9]))) = Some (r, mem_of 4096 (concat (le_enc 8 <$> [3; 5; 9; 9]))).
Proof.
  destruct (bsearch_exact (compare_le 8) (mem_of 4096 (concat (le_enc 8 <$> [3; 5; 9; 9]))) 4120 4096 3 8 (fun i => 9 - default 0 (zget [3; 5; 9] i)) ltac:(lia)) as (r&E&_).
  - intros i Hi. assert (i = 0 \/ i = 1 \/ i = 2) as [-> | [-> | ->]] by lia; vm_compute; reflexivity.
  - intros i j Hi Hj. assert (j = 0 \/ j = 1 \/ j = 2) as [-> | [-> | ->]] by lia; assert (i = 0 \/ i = 1 \/ i = 2) as [-> | [-> | ->]] by lia; vm_compute; split; intros; (discriminate || reflexivity || lia).
  - exists r. exact E.
Defined.
