(* ===== verification/LibcNumber.v ===== *)
(** * The C library: strtol reads numbers exactly (the theorems on LibcStdlib.v) *)

From stdpp Require Import base numbers gmap list options.
From S2P Require Import Prelude LibcString LibcStringSpec LibcStdlib.

(** The digits of [base], and the number they denote when [v] comes before them. *)
Definition is_digit (base c : Z) : bool := match digit_val c with Some d => d <? base | None => false end.
Definition digit (c : Z) : Z := default 0 (digit_val c).
Fixpoint number (base v : Z) (ds : list Z) : Z := match ds with [] => v | c :: ds' => number base (v * base + digit c) ds' end.
(** What follows the digits. *)
Definition stops (base : Z) (r : list Z) : Prop := match r with [] => True | c :: _ => is_digit base c = false end.

Lemma is_digit_spec base c : is_digit base c = true -> digit_val c = Some (digit c) /\ 0 <= digit c < base.
Proof.
  unfold is_digit, digit. destruct (digit_val c) as [d|] eqn:E; [|done]. intros H%Z.ltb_lt. split; [done|]. split; [|done]. cbn. revert E. unfold digit_val.
  repeat match goal with |- context [if ?b then _ else _] => destruct b eqn:? end; intros [= <-]; rewrite ?andb_true_iff, ?Z.leb_le in *; lia.
Qed.
Lemma number_mono base ds : forall v, 0 <= v -> 1 <= base -> Forall (fun c => is_digit base c = true) ds -> v <= number base v ds.
Proof.
  induction ds as [|c ds IH]; intros v Hv Hb H; [done|]. apply Forall_cons in H as [[_ Hc]%is_digit_spec H]. cbn [number].
  pose proof (IH (v * base + digit c) ltac:(nia) Hb H). nia.
Qed.
(** The test against the cut-off is the test for the limit. *)
Lemma cutoff_test lim base v d : 2 <= base -> 0 <= lim -> 0 <= v -> 0 <= d < base ->
  ((lim / base <? v) || ((v =? lim / base) && (lim mod base <? d))) = (lim <? v * base + d).
Proof.
  intros Hb Hl Hv Hd. pose proof (Z.div_mod lim base ltac:(lia)) as E. pose proof (Z.mod_pos_bound lim base ltac:(lia)). set (q := lim / base) in *. set (r := lim mod base) in *.
  destruct (Z.ltb_spec q v); cbn [orb]; [symmetry; apply Z.ltb_lt; nia|]. destruct (Z.eqb_spec v q) as [->|]; cbn [andb].
  - destruct (Z.ltb_spec r d), (Z.ltb_spec lim (q * base + d)); lia.
  - symmetry. apply Z.ltb_ge. nia.
Qed.

Lemma digits_loop_run lim base ds r : forall k m p v ov, (length ds < k)%nat -> 2 <= base -> 0 <= lim < 2 ^ 64 -> 0 <= v -> cstr m p (ds ++ r) ->
  Forall (fun c => is_digit base c = true) ds -> stops base r -> exists v' ov',
  digits_loop k p base (lim / base) (lim mod base) v ov m = Some ((v', ov', p + Z.of_nat (length ds)), m) /\
  (ov = true -> ov' = true) /\ (ov = false -> v <= lim -> if number base v ds <=? lim then ov' = false /\ v' = number base v ds else ov' = true).
Proof.
  induction ds as [|c ds IH]; intros [|k] m p v ov Hk Hb Hl Hv H Hds Hr; simpl in Hk; try lia; cbn [digits_loop].
  - exists v, ov. simpl length. rewrite Z.add_0_r. split; [|split; [done|]; intros -> Hle; cbn [number]; by rewrite (proj2 (Z.leb_le _ _))]. cbn [app] in H. destruct r as [|c r].
    + cz H. done.
    + apply cstr_cons in H as (Hc&_&_). rd Hc. simpl in Hr. unfold is_digit in Hr. destruct (digit_val c) as [d|]; [|done]. apply Z.ltb_ge in Hr. by rewrite (proj2 (Z.leb_le _ _)).
  - apply cstr_cons in H as (Hc&_&H). rd Hc. apply Forall_cons in Hds as [[Ed Hd]%is_digit_spec Hds]. rewrite Ed, (proj2 (Z.leb_gt base _)) by lia. rewrite <-orb_assoc, cutoff_test by lia.
    destruct (IH k m (p + 1) (u64 (v * base + digit c)) (ov || (lim <? v * base + digit c)) ltac:(lia) Hb Hl ltac:(apply wrap_range; lia) H Hds Hr) as (v'&ov'&E&H1&H2).
    exists v', ov'. split; [rewrite E; do 3 f_equal; simpl; lia|]. split; [intros ->; by apply H1|]. intros -> Hle. cbn [number orb] in *.
    destruct (Z.ltb_spec lim (v * base + digit c)) as [Hgt|Hle'].
    + pose proof (number_mono base ds (v * base + digit c) ltac:(nia) ltac:(lia) Hds). rewrite (proj2 (Z.leb_gt _ _)) by lia. by apply H1.
    + replace (u64 (v * base + digit c)) with (v * base + digit c) in H2 by (unwrap; rewrite wrap_small by (unfold in_w; nia); done). by apply H2.
Qed.

Lemma skip_ws_run w c s : forall k m p, (length w < k)%nat -> cstr m p (w ++ c :: s) -> Forall (fun c => is_ws c = true) w -> is_ws c = false ->
  skip_ws k p m = Some (p + Z.of_nat (length w), m).
Proof.
  induction w as [|x w IH]; intros [|k] m p Hk H Hw Hc; simpl in Hk; try lia; cbn [skip_ws app] in *.
  - apply cstr_cons in H as (Hx&_&_). rd Hx. by rewrite Hc, Z.add_0_r.
  - apply cstr_cons in H as (Hx&_&H). rd Hx. apply Forall_cons in Hw as [-> Hw]. rewrite IH by (done || lia). do 2 f_equal. simpl. lia.
Qed.
Lemma digit_plain base c : is_digit base c = true -> is_ws c = false /\ c <> 45 /\ c <> 43.
Proof.
  intros [E _]%is_digit_spec. split; [|split; intros ->; discriminate]. unfold is_ws. rewrite !orb_false_iff, !Z.eqb_neq. split_and!; intros ->; discriminate.
Qed.

(** The sign of a number: nothing, '+' or '-'. *)
Definition sign_of (sg : list Z) : option bool :=
  match sg with [] => Some false | [43] => Some false | [45] => Some true | _ => None end.
Definition clamp (neg : bool) (v : Z) : Z := if neg then Z.max LONG_MIN (- v) else Z.min LONG_MAX v.

Lemma clamp_in neg v : 0 <= v <= LONG_MAX -> clamp neg v = if neg then - v else v.
Proof. unfold clamp, LONG_MAX, LONG_MIN. destruct neg; lia. Qed.
Lemma clamp_out neg v : LONG_MAX < v -> clamp neg v = if neg then LONG_MIN else LONG_MAX.
Proof. unfold clamp, LONG_MAX, LONG_MIN. destruct neg; lia. Qed.

Lemma read_sign_run m p sg neg c s base : cstr m p (sg ++ c :: s) -> sign_of sg = Some neg -> is_digit base c = true ->
  read_sign p m = Some ((neg, p + Z.of_nat (length sg)), m).
Proof.
  intros H Hs (_&H1&H2)%digit_plain. unfold read_sign. destruct sg as [|x [|? ?]]; simpl in Hs; [|destruct x; try done; repeat (destruct p0; try done)|by destruct x; try done; repeat (destruct p0; try done)].
  - simplify_eq. apply cstr_cons in H as (Hc&_&_). rd Hc. rewrite !(proj2 (Z.eqb_neq c _)), Z.add_0_r by done. done.
  - simplify_eq. apply cstr_cons in H as (Hc&_&_). rd Hc. done.
  - simplify_eq. apply cstr_cons in H as (Hc&_&_). rd Hc. done.
Qed.
Definition has_0x (l : list Z) : bool := match l with 48 :: x :: _ => (x =? 120) || (x =? 88) | _ => false end.
Lemma read_base_run m p base c s : cstr m p (c :: s) -> base <> 0 -> (base = 16 -> has_0x (c :: s) = false) -> read_base p base m = Some ((base, p), m).
Proof.
  intros H Hb Hx. unfold read_base. rewrite (proj2 (Z.eqb_neq base 0)) by done. destruct (Z.eqb_spec base 16) as [E|]; [|done]. specialize (Hx E).
  apply cstr_cons in H as (Hc&_&H). rd Hc. destruct (Z.eqb_spec c 48) as [->|]; [|done]. destruct s as [|x s]; [cz H; done|]. apply cstr_cons in H as (Hc1&_&_). rd Hc1.
  cbn [has_0x] in Hx. by rewrite Hx.
Qed.

Lemma strtol_run m p w sg neg ds r base : cstr m p (w ++ sg ++ ds ++ r) -> Forall (fun c => is_ws c = true) w -> sign_of sg = Some neg ->
  2 <= base <= 36 -> ds <> [] -> Forall (fun c => is_digit base c = true) ds -> stops base r -> (base = 16 -> has_0x (ds ++ r) = false) ->
  strtol p base m = Some ((clamp neg (number base 0 ds), p + Z.of_nat (length w + length sg + length ds)), m).
Proof.
  intros H Hw Hsg Hb Hne Hds Hr Hx. destruct ds as [|c ds]; [done|]. pose proof Hds as [Hc _]%Forall_cons. destruct (digit_plain base c Hc) as (Hcw&_&_).
  assert (exists x t, sg ++ (c :: ds) ++ r = x :: t /\ is_ws x = false) as (x&t&Ext&Hxw).
  { destruct sg as [|y sg]; [by exists c, (ds ++ r)|]. exists y, (sg ++ (c :: ds) ++ r). split; [done|]. destruct sg; simpl in Hsg; destruct y; try done; repeat (destruct p0; try done). }
  assert (fuelled (fun k => skip_ws k p) m = Some (p + Z.of_nat (length w), m)) as E0
    by (apply (skip_ws_run w x t); [apply cstr_size in H; rewrite length_app in H; lia|by rewrite <-Ext|done..]).
  unfold strtol. mstep E0.
  apply cstr_app in H. set (q := p + Z.of_nat (length w)) in *. mstep (read_sign_run m q sg neg c (ds ++ r) base H Hsg Hc). cbn beta iota.
  apply cstr_app in H. set (d := q + Z.of_nat (length sg)) in *. mstep (read_base_run m d base c (ds ++ r) H ltac:(lia) Hx). cbn beta iota.
  rewrite (proj2 (Z.ltb_ge base 2)), (proj2 (Z.ltb_ge 36 base)) by lia. cbn [orb].
  destruct (digits_loop_run LONG_MAX base (c :: ds) r (S (size m)) m d 0 false) as (v'&ov'&E&_&Hv); [apply cstr_size in H; rewrite length_app in H; lia|lia|unfold LONG_MAX; lia|lia|exact H|done|done|].
  mstep (E : fuelled (fun k => digits_loop k d base (LONG_MAX / base) (LONG_MAX mod base) 0 false) m = _). cbn beta iota. rewrite (proj2 (Z.eqb_neq _ d)) by (simpl; lia). specialize (Hv eq_refl ltac:(unfold LONG_MAX; lia)).
  assert (p + Z.of_nat (length w + length sg + length (c :: ds)) = d + Z.of_nat (length (c :: ds))) as -> by (unfold d, q; lia).
  pose proof (number_mono base (c :: ds) 0 ltac:(lia) ltac:(lia) Hds) as Hpos. destruct (Z.leb_spec (number base 0 (c :: ds)) LONG_MAX) as [Hle|Hgt].
  - destruct Hv as [-> ->]. cbn iota. replace (i64 (number base 0 (c :: ds))) with (number base 0 (c :: ds)) by (unfold i64, swrap, LONG_MAX in *; rewrite wrap_small by (unfold in_w; lia); by rewrite (proj2 (Z.ltb_lt _ _)) by lia).
    rewrite clamp_in by lia. by destruct neg.
  - rewrite Hv. cbn iota. rewrite clamp_out by lia. by destruct neg.
Qed.

(** [strtol] with an explicit base: on white space, an optional sign, and digits of the base it ends, returns the
    number they denote, clamped to the range of [long], and [*endp] is the first byte behind the digits, whatever follows. *)
Theorem strtol_exact m p w sg neg ds r base : cstr m p (w ++ sg ++ ds ++ r) -> Forall (fun c => is_ws c = true) w -> sign_of sg = Some neg ->
  2 <= base <= 36 -> ds <> [] -> Forall (fun c => is_digit base c = true) ds -> stops base r -> (base = 16 -> has_0x (ds ++ r) = false) ->
  strtol p base m = Some ((clamp neg (number base 0 ds), p + Z.of_nat (length w + length sg + length ds)), m).
Proof. apply strtol_run. Qed.

(** With base 0 the number "0" is not read: the leading 0 is taken for the octal prefix, and [*endp] is the start. *)
Theorem strtol_base0_zero m p : cstr m p [48] -> strtol p 0 m = Some ((0, p), m).
Proof.
  intros H. pose proof H as (H0&_&H1)%cstr_cons. apply cstr_nil in H1. unfold strtol.
  assert (fuelled (fun k => skip_ws k p) m = Some (p, m)) as E0 by (unfold fuelled; cbn [skip_ws]; rd H0; done). mstep E0.
  assert (read_sign p m = Some ((false, p), m)) as E1 by (unfold read_sign; rd H0; done). mstep E1. cbn beta iota.
  assert (read_base p 0 m = Some ((8, p + 1), m)) as E2 by (unfold read_base; cbn [Z.eqb]; rd H0; cbn [Z.eqb Pos.eqb]; rd H1; done). mstep E2. cbn beta iota.
  assert (forall c d, fuelled (fun k => digits_loop k (p + 1) 8 c d 0 false) m = Some ((0, false, p + 1), m)) as E3 by (intros; unfold fuelled; cbn [digits_loop]; rd H1; done).
  cbn [Z.ltb Z.compare orb Pos.compare Pos.compare_cont]. mstep (E3 (LONG_MAX / 8) (LONG_MAX mod 8)). cbn beta iota. by rewrite Z.eqb_refl.
Qed.

(** " -42x" *)
Definition mem2 : mem := mem_of 4096 [32; 45; 52; 50; 120; 0].
Lemma strtol_exact_witness : strtol 4096 10 mem2 = Some ((-42, 4100), mem2).
Proof.
  apply (strtol_exact mem2 4096 [32] [45] true [52; 50] [120] 10).
  - split; [vm_compute; repeat split; reflexivity|repeat constructor; lia].
  - repeat constructor.
  - reflexivity.
  - lia.
  - discriminate.
  - repeat constructor.
  - reflexivity.
  - discriminate.
Defined.
