(* ===== verification/Vfs.v ===== *)
(** * Virtual file system switch (src/fs/vfs.c, vfs.h)

    The mount table and the path-based operations.  A file system is a table of
    operations on a world [W] ([vfs_fs_ops], its function pointers may be NULL); the
    mount table holds pointers to such tables, followed with [vops].  Paths are C
    strings, the lists of their bytes before the 0.  The state holds the mount table,
    the descriptor table of [task_get_current()] and the world.  The log is left out. *)

From stdpp Require Import base numbers gmap list options.
From S2P Require Import Prelude LinkedList Task Ext2Data Ext2File.

(** ** Data *)

Definition VFS_MAX_MOUNTS : Z := 4.
Definition VFS_MAX_MP_LEN : Z := 64.

(** Results follow the C prototypes: the return value, then the out-parameters. *)
Record vfs_fs_ops (W : Type) := FsOps {
  op_name : option (list Z);
  op_open : option (list Z -> Z -> M W (Z * option nat * option nat));
  op_stat : option (list Z -> M W (Z * option ext2_stat_t));
  op_unlink : option (list Z -> M W Z);
  op_rmdir : option (list Z -> M W Z);
  op_rename : option (list Z -> list Z -> M W Z);
  op_mkdir : option (list Z -> Z -> M W Z);
  op_getdents : option (list Z -> option Z -> option (list Z) -> Z -> M W (Z * option Z * option (list Z)))
}.
Arguments FsOps {W}. Arguments op_name {W}. Arguments op_open {W}. Arguments op_stat {W}. Arguments op_unlink {W}.
Arguments op_rmdir {W}. Arguments op_rename {W}. Arguments op_mkdir {W}. Arguments op_getdents {W}.

Record vfs_mount_entry := Mount { prefix : list Z; m_ops : option nat; m_data : option nat; mounted : bool }.
Definition mount0 : vfs_mount_entry := Mount [] None None false.

Section Vfs.
Context {W : Type} (vops : nat -> option (vfs_fs_ops W)).

Record vfs := Vfs { g_mounts : list vfs_mount_entry; g_ext2_ops : option nat; vf_fds : option (list file); vf_world : W }.

Definition set_mounts ms s := Vfs ms (g_ext2_ops s) (vf_fds s) (vf_world s).
Definition on_world {A} (c : M W A) : M vfs A :=
  fun s => match c (vf_world s) with Some (a, w) => Some (a, Vfs (g_mounts s) (g_ext2_ops s) (vf_fds s) w) | None => None end.

(** [s[i]] of a C string, the terminating 0 included. *)
Definition char_at (s : list Z) (i : Z) : option Z := zget (s ++ [0]) i.

Fixpoint path_cmp_prefix (path prefix : list Z) {struct prefix} : bool :=
  match prefix with
  | [] => true
  | c :: prefix' => match path with [] => false | d :: path' => if negb (d =? c) then false else path_cmp_prefix path' prefix' end
  end.

(** ** Mount table *)

Definition vfs_init : M vfs unit :=
  mmodify (fun s => Vfs (replicate (Z.to_nat VFS_MAX_MOUNTS) mount0) None (vf_fds s) (vf_world s)).

(** "ext2" *)
Definition ext2_name : list Z := [101; 120; 116; 50].
Definition vfs_register_fs (ops : option nat) : M vfs unit :=
  match ops with
  | None => return tt
  | Some p =>
    o <~ mlift (vops p) ;;
    mwhen (bool_decide (op_name o = Some ext2_name)) (mmodify (fun s => Vfs (g_mounts s) (Some p) (vf_fds s) (vf_world s)))
  end.

(** The loops over the table: the first index that satisfies [P]. *)
Fixpoint find_mount (P : vfs_mount_entry -> bool) (ms : list vfs_mount_entry) : option nat :=
  match ms with [] => None | m :: ms' => if P m then Some 0%nat else S <$> find_mount P ms' end.
Definition mounted_at (mp : list Z) (m : vfs_mount_entry) : bool := mounted m && bool_decide (prefix m = mp).

Definition vfs_mount (mount_point : option (list Z)) (ops data : option nat) : M vfs Z :=
  match mount_point, ops with
  | Some mp, Some _ =>
    s <~ mget ;;
    match find_mount (mounted_at mp) (g_mounts s) with
    | Some _ => return (-1)
    | None =>
      match find_mount (fun m => negb (mounted m)) (g_mounts s) with
      | None => return (-1)
      | Some i =>
        mput (set_mounts (<[i := Mount (take (Z.to_nat (VFS_MAX_MP_LEN - 1)) mp) ops data true]> (g_mounts s)) s) ;;; return 0
      end
    end
  | _, _ => return (-1)
  end.

Definition vfs_unmount (mount_point : option (list Z)) : M vfs Z :=
  match mount_point with
  | None => return (-1)
  | Some mp =>
    s <~ mget ;;
    match find_mount (mounted_at mp) (g_mounts s) with
    | None => return (-1)
    | Some i =>
      m <~ mlift (g_mounts s !! i) ;;
      mput (set_mounts (<[i := Mount (prefix m) None None false]> (g_mounts s)) s) ;;; return 0
    end
  end.

(** ** Path resolution *)

(** One round of the search: does the entry match?  A read of [prefix[-1]] is a fault. *)
Definition mount_matches (m : vfs_mount_entry) (path : list Z) : option bool :=
  if negb (mounted m) then Some false else
  let plen := Z.of_nat (length (prefix m)) in
  if negb (path_cmp_prefix path (prefix m)) then Some false else
  c ← char_at path plen;
  if (c =? 0) || (c =? 47) then Some true else
  l ← zget (prefix m) (plen - 1); Some (l =? 47).
Fixpoint resolve_mounts (ms : list vfs_mount_entry) (path : list Z) (i : nat) (best : option nat * Z) : option (option nat * Z) :=
  match ms with
  | [] => Some best
  | m :: ms' =>
    b ← mount_matches m path;
    let plen := Z.of_nat (length (prefix m)) in
    resolve_mounts ms' path (S i) (if b && (best.2 <? plen) then (Some i, plen) else best)
  end.
(** The index of the mount and the relative path. *)
Definition vfs_resolve_path (path : list Z) : M vfs (option (nat * list Z)) :=
  s <~ mget ;;
  ' (best_idx, best_len) <~ mlift (resolve_mounts (g_mounts s) path 0 (None, 0)) ;;
  match best_idx with
  | None => return None
  | Some i =>
    m <~ mlift (g_mounts s !! i) ;;
    let rp := drop (Z.to_nat best_len) path in
    l <~ (if (hd 0 rp =? 47) && (0 <? best_len) then mlift (zget (prefix m) (best_len - 1)) else return 47) ;;
    let rp := if negb (l =? 47) then tail rp else rp in
    return (Some (i, if decide (rp = []) then [47] else rp))
  end.

(** ** Path-based operations *)

(** The operations of the mount that a path resolves to. *)
Definition resolve_ops (path : list Z) : M vfs (option (option (vfs_fs_ops W) * list Z)) :=
  r <~ vfs_resolve_path path ;;
  match r with
  | None => return None
  | Some (i, rel) =>
    s <~ mget ;;
    m <~ mlift (g_mounts s !! i) ;;
    match m_ops m with
    | None => return (Some (None, rel))
    | Some p => o <~ mlift (vops p) ;; return (Some (Some o, rel))
    end
  end.

(** The first descriptor without operations. *)
Fixpoint free_fd (fds : list file) : option nat :=
  match fds with [] => None | f :: fds' => if f_ops f then S <$> free_fd fds' else Some 0%nat end.

Definition vfs_open (path : list Z) (flags : Z) : M vfs Z :=
  r <~ resolve_ops path ;;
  match r with
  | Some (Some o, rel) =>
    match op_open o with
    | None => return (-1)
    | Some open =>
      ' (result, ops, data) <~ on_world (open rel flags) ;;
      if result <? 0 then return (-1) else
      s <~ mget ;;
      match vf_fds s with
      | None => return (-1)
      | Some fds =>
        match free_fd fds with
        | None => return (-1)
        | Some fd =>
          mput (Vfs (g_mounts s) (g_ext2_ops s) (Some (<[fd := File ops data 1 flags]> fds)) (vf_world s)) ;;;
          return (Z.of_nat fd)
        end
      end
    end
  | _ => return (-1)
  end.

(** Resolve, check the function pointer, delegate; [e] is the result on failure. *)
Definition delegate {F A} (path : list Z) (op : vfs_fs_ops W -> option F) (e : A) (call : F -> list Z -> M W A) : M vfs A :=
  r <~ resolve_ops path ;;
  match r with
  | Some (Some o, rel) => match op o with None => return e | Some f => on_world (call f rel) end
  | _ => return e
  end.
Definition vfs_stat (path : list Z) : M vfs (Z * option ext2_stat_t) := delegate path op_stat (-1, None) (fun f rel => f rel).
Definition vfs_unlink (path : list Z) : M vfs Z := delegate path op_unlink (-1) (fun f rel => f rel).
Definition vfs_rmdir (path : list Z) : M vfs Z := delegate path op_rmdir (-1) (fun f rel => f rel).
Definition vfs_mkdir (path : list Z) (mode : Z) : M vfs Z := delegate path op_mkdir (-1) (fun f rel => f rel mode).
Definition vfs_getdents (path : list Z) (cookie : option Z) (buf : option (list Z)) (count : Z) : M vfs (Z * option Z * option (list Z)) :=
  delegate path op_getdents (-1, cookie, buf) (fun f rel => f rel cookie buf count).
Definition vfs_rename (old_path new_path : list Z) : M vfs Z :=
  ro <~ vfs_resolve_path old_path ;;
  match ro with
  | None => return (-1)
  | Some (old_mnt, old_rel) =>
    rn <~ vfs_resolve_path new_path ;;
    match rn with
    | None => return (-1)
    | Some (new_mnt, new_rel) =>
      if negb (bool_decide (old_mnt = new_mnt)) then return (-1) else
      delegate old_path op_rename (-1) (fun f rel => f rel new_rel)
    end
  end.
Definition vfs_get_ext2_ops : M vfs (option nat) := mgets g_ext2_ops.

End Vfs.
Arguments vfs : clear implicits.
Arguments Vfs {W}.
