(* ===== verification/VfsSpec.v ===== *)
(** * The switch resolves paths to the longest mounted prefix (the theorems on Vfs.v) *)

From stdpp Require Import base numbers gmap list options.
From S2P Require Import Prelude LinkedList Task Ext2Data Ext2File Vfs.

(** ** Paths and mount points *)

(** The path lies under the mount point: it is the prefix, or goes on behind it with a new component. *)
Definition covers (m : vfs_mount_entry) (path : list Z) : Prop :=
  mounted m = true /\ exists rest, path = prefix m ++ rest /\ (rest = [] \/ hd 0 rest = 47 \/ last (prefix m) = Some 47).
(** What is left of the path behind the prefix, "/" when that is nothing. *)
Definition rel_path (pre rest : list Z) : list Z :=
  let r := if bool_decide (last pre = Some 47) then rest else if hd 0 rest =? 47 then tail rest else rest in if decide (r = []) then [47] else r.

Lemma path_cmp_prefix_spec p : forall path, path_cmp_prefix path p = true <-> exists rest, path = p ++ rest.
Proof.
  induction p as [|c p IH]; intros path; cbn [path_cmp_prefix]; [by split; [exists path|]|]. destruct path as [|d path]; [split; [done|by intros [rest ?]]|].
  destruct (Z.eqb_spec d c) as [->|]; cbn [negb]; [rewrite IH; split; intros [rest E]; exists rest; simpl in *; congruence|split; [done|intros [rest ?]; by simplify_eq/=]].
Qed.
Lemma char_at_rest p rest : char_at (p ++ rest) (Z.of_nat (length p)) = Some (hd 0 rest).
Proof. unfold char_at. rewrite zget_nat, <-app_assoc, lookup_app_r, Nat.sub_diag by lia. by destruct rest. Qed.
Lemma zget_last (p : list Z) : p <> [] -> zget p (Z.of_nat (length p) - 1) = last p.
Proof.
  intros Hp. destruct p as [|x p _] using rev_ind; [done|]. rewrite length_app. replace (Z.of_nat (length p + length [x]) - 1) with (Z.of_nat (length p)) by (simpl; lia).
  by rewrite zget_nat, last_snoc, lookup_app_r, Nat.sub_diag by lia.
Qed.
Lemma last_47 (p : list Z) l : last p = Some l -> (l =? 47) = bool_decide (last p = Some 47).
Proof. intros ->. destruct (Z.eqb_spec l 47) as [->|]; [by rewrite bool_decide_true|]. rewrite bool_decide_false; [done|congruence]. Qed.
Lemma last_is_Some (p : list Z) : p <> [] -> exists l, last p = Some l.
Proof. intros Hp. destruct (last p) as [l|] eqn:E; [by exists l|]. by apply last_None in E. Qed.

Lemma mount_matches_run m path : (mounted m = true -> prefix m <> []) -> Forall (fun c => c <> 0) path ->
  exists b, mount_matches m path = Some b /\ (b = true <-> covers m path).
Proof.
  intros Hne Hnz. unfold mount_matches, covers. destruct (mounted m) eqn:Hm; cbn [negb]; [|exists false; split; [done|]; split; [done|by intros [? _]]]. specialize (Hne eq_refl).
  destruct (path_cmp_prefix path (prefix m)) eqn:Hp; cbn [negb].
  2:{ exists false. split; [done|]. split; [done|]. intros (_&rest&E&_). assert (path_cmp_prefix path (prefix m) = true) by (apply path_cmp_prefix_spec; eauto). congruence. }
  apply path_cmp_prefix_spec in Hp as [rest ->]. rewrite char_at_rest. cbn [mbind option_bind]. destruct (last_is_Some _ Hne) as [l Hl]. rewrite zget_last, Hl by done.
  assert (forall r', prefix m ++ rest = prefix m ++ r' -> r' = rest) as Hinj by (intros r' E; by apply app_inv_head in E).
  assert ((hd 0 rest =? 0) = true <-> rest = []) as H0.
  { rewrite Z.eqb_eq. split; [|by intros ->]. destruct rest as [|c rest]; [done|]. apply Forall_app in Hnz as [_ [? _]%Forall_cons]. done. }
  destruct (hd 0 rest =? 0) eqn:E0; cbn [orb]; [exists true; split; [done|]; split; [|done]; intros _; split; [done|]; exists rest; naive_solver|].
  destruct (Z.eqb_spec (hd 0 rest) 47) as [E47|N47]; [exists true; split; [done|]; split; [|done]; intros _; split; [done|]; exists rest; naive_solver|].
  exists (l =? 47). split; [done|]. split; [intros ->%Z.eqb_eq; split; [done|]; exists rest; naive_solver|]. intros (_&r'&E&Hc). rewrite (Hinj _ E) in Hc. naive_solver.
Qed.

(** ** Longest match *)

Lemma resolve_mounts_run path : Forall (fun c => c <> 0) path -> forall ms i best bm, Forall (fun m => mounted m = true -> prefix m <> []) ms ->
  (match bm with None => best = (None, 0) | Some m => 0 < best.2 /\ best.2 = Z.of_nat (length (prefix m)) /\ covers m path /\ is_Some best.1 end) ->
  exists best' bm', resolve_mounts ms path i best = Some best' /\
  (match bm' with
   | None => best' = (None, 0) /\ bm = None
   | Some m => 0 < best'.2 /\ best'.2 = Z.of_nat (length (prefix m)) /\ covers m path /\
       ((best' = best /\ bm = Some m) \/ exists j, best'.1 = Some (i + j)%nat /\ ms !! j = Some m) end) /\
  best.2 <= best'.2 /\ forall m, m ∈ ms -> covers m path -> Z.of_nat (length (prefix m)) <= best'.2.
Proof.
  intros Hnz. induction ms as [|m ms IH]; intros i best bm Hne Hb.
  - exists best, bm. split; [done|]. split; [destruct bm; [|done]; naive_solver|]. split; [done|]. by intros m ?%elem_of_nil.
  - apply Forall_cons in Hne as [Hm Hne]. cbn [resolve_mounts]. destruct (mount_matches_run m path Hm Hnz) as (b&->&Hcov). cbn [mbind option_bind].
    set (plen := Z.of_nat (length (prefix m))). destruct (b && (best.2 <? plen)) eqn:Hc.
    + apply andb_true_iff in Hc as [-> Hlt%Z.ltb_lt]. pose proof (proj1 Hcov eq_refl) as Hcm. destruct (IH (S i) (Some i, plen) (Some m) Hne) as (best'&bm'&E&Hbm&Hle&Hall).
      { cbn [fst snd]. pose proof (length_zero_iff_nil (prefix m)). split; [destruct bm; [lia|subst best; simpl in Hlt; lia]|]. split; [done|]. split; [done|eauto]. }
      exists best', bm'. split; [exact E|]. split; [|split; [simpl in Hle; lia|]].
      * destruct bm' as [m'|]; [|naive_solver]. destruct Hbm as (?&?&?&[[-> [= <-]]|(j&Hj&Hl)]); (split; [done|]; split; [done|]; split; [done|]; right).
        -- exists 0%nat. rewrite Nat.add_0_r. done.
        -- exists (S j). rewrite Hj. split; [f_equal; lia|done].
      * intros m' [-> |Hin]%elem_of_cons Hc'; [simpl in Hle; lia|by apply Hall].
    + destruct (IH (S i) best bm Hne Hb) as (best'&bm'&E&Hbm&Hle&Hall). exists best', bm'. split; [exact E|]. split; [|split; [done|]].
      * destruct bm' as [m'|]; [|done]. destruct Hbm as (?&?&?&[?|(j&Hj&Hl)]); (split; [done|]; split; [done|]; split; [done|]); [by left|right]. exists (S j). rewrite Hj. split; [f_equal; lia|done].
      * intros m' [-> |Hin]%elem_of_cons Hc'; [|by apply Hall]. apply andb_false_iff in Hc as [-> |Hc%Z.ltb_ge]; [discriminate (proj2 Hcov Hc')|lia].
Qed.

(** ** The mount table is a finite map *)

Definition entry (m : vfs_mount_entry) : list Z * (option nat * option nat) := (prefix m, (m_ops m, m_data m)).
Definition live (ms : list vfs_mount_entry) : list vfs_mount_entry := filter (fun m => mounted m = true) ms.
Definition mtab (ms : list vfs_mount_entry) : gmap (list Z) (option nat * option nat) := list_to_map (entry <$> live ms).
(** Four slots, no mount point twice. *)
Definition minv (ms : list vfs_mount_entry) : Prop := length ms = 4%nat /\ NoDup (prefix <$> live ms).

Lemma entry_fst l : (entry <$> l).*1 = prefix <$> l.
Proof. by rewrite <-list_fmap_compose. Qed.
Lemma live_split l1 m l2 : live (l1 ++ m :: l2) ≡ₚ (if mounted m then [m] else []) ++ live (l1 ++ l2).
Proof.
  unfold live. rewrite !filter_app, filter_cons. destruct (mounted m); [rewrite decide_True by done; simpl; by rewrite Permutation_middle|]. rewrite decide_False by done. done.
Qed.
Lemma mtab_split l1 m l2 : NoDup (prefix <$> live (l1 ++ m :: l2)) ->
  mtab (l1 ++ m :: l2) = if mounted m then <[prefix m := (m_ops m, m_data m)]> (mtab (l1 ++ l2)) else mtab (l1 ++ l2).
Proof.
  intros Hnd. unfold mtab. pose proof (live_split l1 m l2) as Hp. rewrite (list_to_map_proper _ (entry <$> ((if mounted m then [m] else []) ++ live (l1 ++ l2)))).
  - by destruct (mounted m).
  - by rewrite entry_fst.
  - by rewrite Hp.
Qed.
Lemma mtab_None ms mp : minv ms -> (mtab ms !! mp = None <-> forall m, m ∈ live ms -> prefix m <> mp).
Proof.
  intros [_ Hnd]. unfold mtab. rewrite <-not_elem_of_list_to_map, entry_fst, list_elem_of_fmap. naive_solver.
Qed.
Lemma mtab_size ms : minv ms -> size (mtab ms) = length (live ms).
Proof. intros [_ Hnd]. unfold mtab. rewrite map_size_list_to_map by (by rewrite entry_fst). by rewrite length_fmap. Qed.
Lemma find_mount_run P ms : match find_mount P ms with
  | None => forall m, m ∈ ms -> P m = false
  | Some i => exists l1 m l2, ms = l1 ++ m :: l2 /\ length l1 = i /\ P m = true end.
Proof.
  induction ms as [|m ms IH]; cbn [find_mount]; [by intros m ?%elem_of_nil|]. destruct (P m) eqn:Hp; [by exists [], m, ms|].
  destruct (find_mount P ms); simpl; [destruct IH as (l1&m'&l2&->&<-&?); by exists (m :: l1), m', l2|]. intros m' [-> |?]%elem_of_cons; [done|by apply IH].
Qed.
Lemma live_full ms : length (live ms) = length ms <-> forall m, m ∈ ms -> mounted m = true.
Proof.
  induction ms as [|m ms IH]; [split; [by intros _ m ?%elem_of_nil|done]|]. unfold live in *. rewrite filter_cons. pose proof (length_filter (fun m => mounted m = true) ms).
  destruct (decide (mounted m = true)) as [Hm|Hm]; simpl.
  - split; [intros [= E] m' [-> |?]%elem_of_cons; [done|by apply IH]|intros Ha; f_equal; apply IH; intros; apply Ha; by right].
  - split; [lia|intros Ha; destruct Hm; apply Ha; by left].
Qed.

Section VfsSpec.
Context {W : Type}.
Local Notation st := (vfs W).

(** Path resolution returns, without effect: with no mounted prefix of the path it fails; otherwise it yields an entry
    whose mount point is the longest of those the path lies under, and the path relative to it ("/" for the mount
    point itself, the separating slash left out). *)
Theorem vfs_resolve_longest (s : st) path : Forall (fun c => c <> 0) path -> Forall (fun m => mounted m = true -> prefix m <> []) (g_mounts s) ->
  exists r, vfs_resolve_path path s = Some (r, s) /\
  match r with
  | None => forall m, m ∈ g_mounts s -> ~ covers m path
  | Some (i, rel) => exists m rest, g_mounts s !! i = Some m /\ covers m path /\ path = prefix m ++ rest /\ rel = rel_path (prefix m) rest /\
      forall m', m' ∈ g_mounts s -> covers m' path -> (length (prefix m') <= length (prefix m))%nat
  end.
Proof.
  intros Hnz Hne. unfold vfs_resolve_path. unfold mbind_ at 1, mget. destruct (resolve_mounts_run path Hnz (g_mounts s) 0 (None, 0) None Hne eq_refl) as ([bi bl]&bm&E&Hb&_&Hall).
  unfold mbind_ at 1, mlift. rewrite E. cbn [fst snd] in *. destruct bm as [m|].
  - destruct Hb as (Hpos&->&Hcov&[[[= -> ?] ?]|(j&->&Hj)]); [done|]. cbn [Nat.add]. unfold mbind_ at 1. rewrite Hj. pose proof Hcov as (Hm&rest&->&Hrest).
    assert (prefix m <> []) as Hp by (intros Ep; rewrite Ep in Hpos; done). destruct (last_is_Some _ Hp) as [l Hl].
    rewrite Nat2Z.id, drop_app_length, (proj2 (Z.ltb_lt 0 _)), andb_true_r, zget_last, Hl by done. exists (Some (j, rel_path (prefix m) rest)). split.
    + unfold rel_path. rewrite <-(last_47 _ _ Hl). unfold mbind_. destruct (hd 0 rest =? 47); destruct (l =? 47); done.
    + exists m, rest. split; [done|]. split; [done|]. split; [done|]. split; [done|]. intros m' Hm' Hc'. pose proof (Hall m' Hm' Hc'). lia.
  - destruct Hb as [[= -> ->] _]. exists None. split; [done|]. intros m Hm Hc. pose proof (Hall m Hm Hc) as Hl. pose proof Hc as [Hmt _].
    apply (proj1 (Forall_forall _ _) Hne m Hm) in Hmt. destruct (prefix m); simpl in Hl; [done|lia].
Qed.

Lemma mtab_Some ms mp : minv ms -> is_Some (mtab ms !! mp) <-> exists m, m ∈ ms /\ mounted_at mp m = true.
Proof.
  intros Hi. rewrite <-not_eq_None_Some, (mtab_None ms mp Hi). unfold mounted_at. split.
  - intros Hn. destruct (decide (Exists (fun m => mounted_at mp m = true) ms)) as [He|He]; [by apply Exists_exists in He|]. destruct Hn. intros m [Hm Hin]%list_elem_of_filter Hp.
    apply He, Exists_exists. exists m. split; [done|]. unfold mounted_at. by rewrite Hm, bool_decide_true.
  - intros (m&Hin&[Hm Hp%bool_decide_eq_true]%andb_true_iff) Hn. apply (Hn m); [by apply list_elem_of_filter|done].
Qed.

(** A slot changes; the others stay. *)
Lemma minv_update l1 m l2 m' : minv (l1 ++ m :: l2) -> (mounted m = true -> mounted m' = false) -> (mounted m' = true -> mtab (l1 ++ m :: l2) !! prefix m' = None) ->
  minv (l1 ++ m' :: l2) /\ mtab (l1 ++ m' :: l2) = if mounted m' then <[prefix m' := (m_ops m', m_data m')]> (mtab (l1 ++ m :: l2)) else mtab (l1 ++ l2).
Proof.
  intros Hi Hmm Hnew. assert (minv (l1 ++ m' :: l2)) as Hi'.
  { split; [pose proof (proj1 Hi) as L; rewrite !length_app in *; done|]. rewrite live_split, fmap_app. pose proof (proj2 Hi) as Hnd. rewrite live_split, fmap_app in Hnd.
    destruct (mounted m') eqn:Hm'; simpl; [|by destruct (mounted m); simpl in Hnd; [apply NoDup_cons in Hnd as [_ ?]|]].
    apply NoDup_cons. split; [|by destruct (mounted m); simpl in Hnd; [apply NoDup_cons in Hnd as [_ ?]|]]. intros (x&Ex&Hx)%list_elem_of_fmap.
    apply (proj1 (mtab_None _ (prefix m') Hi) (Hnew eq_refl) x); [|done]. rewrite live_split. apply elem_of_app. by right. }
  split; [done|]. rewrite mtab_split by apply Hi'. destruct (mounted m') eqn:Hm'; [|done]. rewrite mtab_split by apply Hi. destruct (mounted m); [by discriminate Hmm|done].
Qed.
Lemma mount_run (s : st) mp fs data : minv (g_mounts s) -> (length mp <= 63)%nat -> exists s', vfs_mount (Some mp) (Some fs) data s =
    Some (if decide (is_Some (mtab (g_mounts s) !! mp) \/ size (mtab (g_mounts s)) = 4%nat) then (-1, s) else (0, s')) /\
  (~ (is_Some (mtab (g_mounts s) !! mp) \/ size (mtab (g_mounts s)) = 4%nat) ->
   minv (g_mounts s') /\ mtab (g_mounts s') = <[mp := (Some fs, data)]> (mtab (g_mounts s)) /\ vf_fds s' = vf_fds s /\ vf_world s' = vf_world s).
Proof.
  intros Hi Hlen. unfold vfs_mount. unfold mbind_ at 1, mget. pose proof (find_mount_run (mounted_at mp) (g_mounts s)) as Hd. destruct (find_mount (mounted_at mp) (g_mounts s)) as [i|].
  { destruct Hd as (l1&m&l2&E&_&Hm). assert (is_Some (mtab (g_mounts s) !! mp)) as Hs by (apply mtab_Some; [done|]; exists m; split; [rewrite E; set_solver|done]).
    exists s. rewrite decide_True by (by left). split; [done|]. intros Hn. destruct Hn. by left. }
  assert (mtab (g_mounts s) !! mp = None) as Hnone.
  { apply eq_None_not_Some. intros (m&Hin&Hm)%mtab_Some; [|done]. by rewrite Hd in Hm. }
  pose proof (find_mount_run (fun m => negb (mounted m)) (g_mounts s)) as Hf. rewrite (mtab_size _ Hi). destruct (find_mount (fun m => negb (mounted m)) (g_mounts s)) as [i|].
  - destruct Hf as (l1&m&l2&E&<-&Hm%negb_true_iff). destruct (decide (is_Some (mtab (g_mounts s) !! mp) \/ length (live (g_mounts s)) = 4%nat)) as [[[x Hx]|Hfull]|Hn].
    + congruence.
    + rewrite <-(proj1 Hi) in Hfull. rewrite (proj1 (live_full _) Hfull m) in Hm by (rewrite E; set_solver). done.
    + eexists. split; [reflexivity|]. intros _. cbn [set_mounts g_mounts vf_fds vf_world]. rewrite take_ge by (change (Z.to_nat (VFS_MAX_MP_LEN - 1)) with 63%nat; lia).
      rewrite E in *. rewrite <-(Nat.add_0_r (length l1)), insert_app_r. cbn [insert list_insert].
      destruct (minv_update l1 m l2 (Mount mp (Some fs) data true) Hi) as [Hi' Ht]; [congruence|done|]. split; [done|]. split; [exact Ht|done].
  - assert (length (live (g_mounts s)) = 4%nat) as Hfull by (rewrite <-(proj1 Hi); apply live_full; intros m Hm; apply Hf in Hm; by apply negb_false_iff).
    exists s. rewrite decide_True by (by right). split; [done|]. intros Hn. destruct Hn. by right.
Qed.
Lemma unmount_run (s : st) mp : minv (g_mounts s) -> exists s', vfs_unmount (Some mp) s = Some (if decide (is_Some (mtab (g_mounts s) !! mp)) then (0, s') else (-1, s)) /\
  (is_Some (mtab (g_mounts s) !! mp) -> minv (g_mounts s') /\ mtab (g_mounts s') = delete mp (mtab (g_mounts s)) /\ vf_fds s' = vf_fds s /\ vf_world s' = vf_world s).
Proof.
  intros Hi. unfold vfs_unmount. unfold mbind_ at 1, mget. pose proof (find_mount_run (mounted_at mp) (g_mounts s)) as Hd. destruct (find_mount (mounted_at mp) (g_mounts s)) as [i|].
  - destruct Hd as (l1&m&l2&E&<-&Hm). assert (is_Some (mtab (g_mounts s) !! mp)) as Hs by (apply mtab_Some; [done|]; exists m; split; [rewrite E; set_solver|done]).
    apply andb_true_iff in Hm as [Hm Hp%bool_decide_eq_true]. assert (g_mounts s !! length l1 = Some m) as Hl by (rewrite E, lookup_app_r, Nat.sub_diag by lia; done).
    eexists. split; [unfold mbind_, mlift; rewrite Hl, decide_True by done; reflexivity|]. intros _. cbn [set_mounts g_mounts vf_fds vf_world]. rewrite E in *.
    rewrite <-(Nat.add_0_r (length l1)), insert_app_r. cbn [insert list_insert].
    destruct (minv_update l1 m l2 (Mount (prefix m) None None false) Hi) as [Hi' Ht]; [done|done|]. split; [done|]. split; [|done]. rewrite Ht. cbn [mounted].
    rewrite mtab_split by apply Hi. rewrite Hm, Hp. symmetry. apply delete_insert_id. pose proof (proj2 Hi) as Hnd. rewrite live_split, fmap_app, Hm in Hnd. simpl in Hnd. apply NoDup_cons in Hnd as [Hnin _].
    unfold mtab. apply not_elem_of_list_to_map. rewrite entry_fst. by rewrite <-Hp.
  - assert (~ is_Some (mtab (g_mounts s) !! mp)) as Hn by (intros (m&Hin&Hm)%mtab_Some; [by rewrite Hd in Hm|done]). exists s. rewrite decide_False by done. done.
Qed.

(** The four-slot mount table implements a finite map from mount points (of at most 63 characters) to file systems:
    mounting adds the mount point, and fails without effect exactly when it is taken or four are mounted; unmounting
    removes it, and fails without effect exactly when it is not mounted. *)
Theorem vfs_mount_refines (s : st) mp fs data : minv (g_mounts s) -> (length mp <= 63)%nat ->
  (exists s', vfs_mount (Some mp) (Some fs) data s = Some (if decide (is_Some (mtab (g_mounts s) !! mp) \/ size (mtab (g_mounts s)) = 4%nat) then (-1, s) else (0, s')) /\
    (~ (is_Some (mtab (g_mounts s) !! mp) \/ size (mtab (g_mounts s)) = 4%nat) ->
     minv (g_mounts s') /\ mtab (g_mounts s') = <[mp := (Some fs, data)]> (mtab (g_mounts s)) /\ vf_fds s' = vf_fds s /\ vf_world s' = vf_world s)) /\
  (exists s', vfs_unmount (Some mp) s = Some (if decide (is_Some (mtab (g_mounts s) !! mp)) then (0, s') else (-1, s)) /\
    (is_Some (mtab (g_mounts s) !! mp) -> minv (g_mounts s') /\ mtab (g_mounts s') = delete mp (mtab (g_mounts s)) /\ vf_fds s' = vf_fds s /\ vf_world s' = vf_world s)).
Proof. intros Hi Hl. split; [by apply mount_run|by apply unmount_run]. Qed.
End VfsSpec.

(** "/", "/mnt" and "/mnt/usb" mounted, the fourth slot free. *)
Definition slash : list Z := [47].
Definition mnt : list Z := [47; 109; 110; 116].
Definition usb : list Z := mnt ++ [47; 117; 115; 98].
Definition three_mounts : vfs unit :=
  Vfs [Mount slash (Some 1%nat) None true; Mount mnt (Some 2%nat) None true; Mount usb (Some 2%nat) (Some 5%nat) true; mount0] None (Some []) tt.
(** "/mnt/usbx" lies under "/mnt" and not under "/mnt/usb". *)
Lemma vfs_resolve_longest_witness : exists m rest, g_mounts three_mounts !! 1%nat = Some m /\ covers m (usb ++ [120]) /\
  usb ++ [120] = prefix m ++ rest /\ [117; 115; 98; 120] = rel_path (prefix m) rest /\
  forall m', m' ∈ g_mounts three_mounts -> covers m' (usb ++ [120]) -> (length (prefix m') <= length (prefix m))%nat.
Proof.
  destruct (vfs_resolve_longest three_mounts (usb ++ [120])) as (r&E&H).
  - repeat constructor; discriminate.
  - do 4 (apply Forall_cons_2; [simpl; discriminate|]). apply Forall_nil_2.
  - assert (vfs_resolve_path (usb ++ [120]) three_mounts = Some (Some (1%nat, [117; 115; 98; 120]), three_mounts)) as E' by reflexivity.
    rewrite E' in E. injection E as <-. exact H.
Defined.
Lemma vfs_mount_refines_witness : exists s', vfs_mount (Some [47; 97]) (Some 2%nat) None three_mounts = Some (0, s') /\
  mtab (g_mounts s') = <[[47; 97] := (Some 2%nat, None)]> (mtab (g_mounts three_mounts)).
Proof.
  assert (minv (g_mounts three_mounts)) as Hi.
  { split; [reflexivity|]. change (NoDup [slash; mnt; usb]). apply (bool_decide_unpack _). vm_compute. exact I. }
  destruct (vfs_mount_refines three_mounts [47; 97] 2%nat None Hi) as [(s'&E&H) _]; [simpl; lia|].
  assert (~ (is_Some (mtab (g_mounts three_mounts) !! [47; 97]) \/ size (mtab (g_mounts three_mounts)) = 4%nat)) as Hn.
  { intros [[x Hx]|Hx]; vm_compute in Hx; discriminate. }
  exists s'. rewrite decide_False in E by exact Hn. split; [exact E|]. apply (H Hn).
Defined.
