(* ===== verification/LibcFormat.v ===== *)
(** * The text ISO C asks of the printf family

    A reference for the formatted output, written from the standard and not from the code: directives are parsed into a
    record, a number is its numeral in its base, and a field is filled to its width.  [c_text] is [None] where the standard
    leaves the result open and where the program is known to print something else ([exact]). *)

From stdpp Require Import base numbers list options.
From S2P Require Import Prelude.

(** ** Numbers *)

(** The value of the low [w] bits, in two's complement. *)
Definition two_complement (w a : Z) : Z := let r := a mod 2 ^ w in if 2 ^ (w - 1) <=? r then r - 2 ^ w else r.
(** The digit [d], [ten] the character of ten. *)
Definition digit_of (ten d : Z) : Z := if d <? 10 then 48 + d else ten + (d - 10).
(** The numeral, most significant digit first; [n] bounds the digits. *)
Fixpoint numeral (n : nat) (ten base v : Z) : list Z :=
  if v <? base then [digit_of ten v] else
  match n with O => [] | S n' => numeral n' ten base (v / base) ++ [digit_of ten (v mod base)] end.

(** ** Directives *)

(** [d_flags]: the flag characters; [d_mod]: the length modifier. *)
Record directive := Directive { d_flags : list Z; d_width : Z; d_prec : option Z; d_mod : list Z; d_conv : Z }.
Definition flagged (c : Z) (fs : list Z) : bool := bool_decide (c ∈ fs).
Fixpoint span_of (p : Z -> bool) (s : list Z) : list Z * list Z :=
  match s with c :: s' => if p c then let '(l, r) := span_of p s' in (c :: l, r) else ([], s) | [] => ([], []) end.
Definition flag_sign (c : Z) : bool := flagged c [45; 43; 32; 48; 35].
Definition decimal_sign (c : Z) : bool := (48 <=? c) && (c <=? 57).
Definition decimal_value (l : list Z) : Z := foldl (fun v c => 10 * v + (c - 48)) 0 l.
Definition after (c : Z) (s : list Z) : option (list Z) := match s with x :: s' => if x =? c then Some s' else None | [] => None end.

(** A decimal integer that is an [int]. *)
Definition decimal (s : list Z) : option (Z * list Z) :=
  let '(ds, r) := span_of decimal_sign s in if decimal_value ds <? 2 ^ 31 then Some (decimal_value ds, r) else None.
(** A negative width argument is the flag '-' and a width. *)
Definition width_part (fs s args : list Z) : option (list Z * Z * list Z * list Z) :=
  match after 42 s with
  | None => '(w, r) ← decimal s; Some (fs, w, r, args)
  | Some r =>
    match args with
    | [] => None
    | a :: args' => let w := two_complement 32 a in
      if w =? - 2 ^ 31 then None else Some (if w <? 0 then 45 :: fs else fs, Z.abs w, r, args')
    end
  end.
(** A negative precision argument is no precision. *)
Definition precision_part (s args : list Z) : option (option Z * list Z * list Z) :=
  match after 46 s with
  | None => Some (None, s, args)
  | Some r =>
    match after 42 r with
    | None => '(p, r) ← decimal r; Some (Some p, r, args)
    | Some r =>
      match args with
      | [] => None
      | a :: args' => let p := two_complement 32 a in Some (if p <? 0 then None else Some p, r, args')
      end
    end
  end.
Definition mod_part (s : list Z) : list Z * list Z :=
  match after 108 s, after 104 s, after 122 s, after 116 s with
  | Some r, _, _, _ => match after 108 r with Some r => ([108; 108], r) | None => ([108], r) end
  | _, Some r, _, _ => match after 104 r with Some r => ([104; 104], r) | None => ([104], r) end
  | _, _, Some r, _ => ([122], r)
  | _, _, _, Some r => ([116], r)
  | _, _, _, _ => ([], s)
  end.
Definition directive_of (s args : list Z) : option (directive * list Z * list Z) :=
  let '(fs, s1) := span_of flag_sign s in
  '(fs, w, s2, args) ← width_part fs s1 args;
  '(p, s3, args) ← precision_part s2 args;
  let '(md, s4) := mod_part s3 in
  match s4 with [] => None | conv :: s5 => Some (Directive fs w p md conv, s5, args) end.
(** The bits of an argument: hh, h, none, and the others. *)
Definition mod_bits (md : list Z) : Z :=
  if bool_decide (md = [104; 104]) then 8 else if bool_decide (md = [104]) then 16 else if bool_decide (md = []) then 32 else 64.

(** ** Fields *)

(** The sign and the body, filled to the width. *)
Definition fill (d : directive) (zeros : bool) (sign body : list Z) : list Z :=
  let n := Z.to_nat (d_width d - Z.of_nat (length sign) - Z.of_nat (length body)) in
  if flagged 45 (d_flags d) then sign ++ body ++ replicate n 32
  else if zeros then sign ++ replicate n 48 ++ body else replicate n 32 ++ sign ++ body.
(** At least as many digits as the precision says; the flag '0' counts without a precision. *)
Definition number_field (d : directive) (sign digits : list Z) : list Z :=
  fill d (flagged 48 (d_flags d) && negb (bool_decide (is_Some (d_prec d)))) sign
    (replicate (Z.to_nat (default 1 (d_prec d) - Z.of_nat (length digits))) 48 ++ digits).
Definition sign_text (fs : list Z) (v : Z) : list Z :=
  if v <? 0 then [45] else if flagged 43 fs then [43] else if flagged 32 fs then [32] else [].
Definition string_field (d : directive) (s : list Z) : list Z :=
  fill d false [] (match d_prec d with Some p => take (Z.to_nat p) s | None => s end).

(** Where the program prints what the standard asks for.  A number: not the value 0 with precision 0; not zeros of the flag
    '0' after a sign; not both zeros of the precision and blanks before the number. *)
Definition exact_number (d : directive) (sign digits : list Z) (v : Z) : bool :=
  negb (bool_decide (d_prec d = Some 0) && (v =? 0)) &&
  (flagged 45 (d_flags d) || (d_width d <=? Z.of_nat (length sign) + Z.of_nat (length digits)) ||
   match d_prec d with
   | Some p => p <=? Z.of_nat (length digits)
   | None => negb (flagged 48 (d_flags d)) || bool_decide (sign = [])
   end).
(** A hexadecimal or octal number: without '#', and of a modifier whose width the program knows for the conversion. *)
Definition exact_unsigned (d : directive) : bool :=
  negb (flagged 35 (d_flags d)) &&
  (if d_conv d =? 111 then bool_decide (d_mod d ∈ [[]; [108]; [108; 108]]) else negb (bool_decide (d_mod d = [116]))).
(** A string or character: no modifier, no flag but '-' and '#'; a string is not both cut and filled. *)
Definition exact_text (d : directive) (s : list Z) : bool :=
  bool_decide (d_mod d = []) && negb (flagged 43 (d_flags d)) && negb (flagged 32 (d_flags d)) && negb (flagged 48 (d_flags d)) &&
  match d_prec d with Some p => (Z.of_nat (length s) <=? p) || (d_width d <=? p) || (d_conv d =? 99) | None => true end.
Definition when {A} (b : bool) (x : A) : option A := if b then Some x else None.

(** The text of the argument [a]; [sv] gives the strings that arguments point to. *)
Definition field (sv : Z -> option (list Z)) (d : directive) (a : Z) : option (list Z) :=
  let conv := d_conv d in
  if (conv =? 100) || (conv =? 105) then
    let v := two_complement (mod_bits (d_mod d)) a in
    let sign := sign_text (d_flags d) v in let digits := numeral 64 97 10 (Z.abs v) in
    when (exact_number d sign digits v) (number_field d sign digits)
  else if (conv =? 120) || (conv =? 88) || (conv =? 111) then
    let v := a mod 2 ^ mod_bits (d_mod d) in
    let digits := numeral 64 (if conv =? 88 then 65 else 97) (if conv =? 111 then 8 else 16) v in
    when (exact_unsigned d && exact_number d [] digits v) (number_field d [] digits)
  else if conv =? 115 then
    s ← (if a =? 0 then Some [40; 110; 117; 108; 108; 41] else sv a); when (exact_text d s) (string_field d s)
  else if conv =? 99 then when (exact_text d [a mod 256]) (fill d false [] [a mod 256])
  else None.

(** The text of a format; [k] bounds its length. *)
Fixpoint c_text (sv : Z -> option (list Z)) (k : nat) (s args : list Z) : option (list Z) :=
  match k with
  | O => None
  | S k' =>
    match s with
    | [] => Some []
    | c :: s' =>
      if negb (c =? 37) then cons c <$> c_text sv k' s' args else
      match after 37 s' with
      | Some r => cons 37 <$> c_text sv k' r args
      | None =>
        '(d, r, args) ← directive_of s' args;
        match args with [] => None | a :: args' => t ← field sv d a; app t <$> c_text sv k' r args' end
      end
    end
  end.
