(* ===== verification/LibcPrintf.v ===== *)
(** * The C library: formatted output and input (src/libc/common/vsnprintf.c)

    On the byte memory of LibcString.v.  A [va_list] is the list of its 8-byte slots,
    each a [u64]; taking an argument that was not passed is a fault.  [numbuf] is the
    list of the characters stored in it, of which there is room for 32. *)

From stdpp Require Import base numbers gmap list options.
From S2P Require Import Prelude LibcString LibcStdlib.

Definition va_arg (ap : list Z) : M mem (Z * list Z) :=
  match ap with [] => mfault | a :: ap' => return (a, ap') end.

(** The store of an [int] or [unsigned int]. *)
Definition st32 (p v : Z) : M mem unit :=
  st p (u32 v) ;;; st (p + 1) (u32 v / 2 ^ 8) ;;; st (p + 2) (u32 v / 2 ^ 16) ;;; st (p + 3) (u32 v / 2 ^ 24).

(** ** Output *)

Definition vsnprintf_write (buf size pos c : Z) : M mem Z :=
  mwhen (pos <? u64 (size - 1)) (st (buf + pos) c) ;;; return (u64 (pos + 1)).

(** What [str] points to: a string in memory, or a local array or literal. *)
Inductive src := SPtr (p : Z) | SBuf (l : list Z).
Definition src_at (s : src) (i : Z) : M mem Z :=
  match s with SPtr p => ld (p + i) | SBuf l => mlift (zget l i) end.
Fixpoint writes_loop (n : nat) (buf size pos : Z) (s : src) (i : Z) : M mem Z :=
  match n with
  | O => return pos
  | S n' => c <~ src_at s i ;; pos <~ vsnprintf_write buf size pos c ;; writes_loop n' buf size pos s (i + 1)
  end.
Definition vsnprintf_writes (buf size pos : Z) (s : src) (len : Z) : M mem Z := writes_loop (Z.to_nat len) buf size pos s 0.
(** [while (n-- > 0) pos = vsnprintf_write(buf, size, pos, c)]. *)
Fixpoint pad_loop (n : nat) (buf size pos c : Z) : M mem Z :=
  match n with O => return pos | S n' => pos <~ vsnprintf_write buf size pos c ;; pad_loop n' buf size pos c end.

(** ** The conversion specification *)

Record pflags := Flags { flag_minus : bool; flag_plus : bool; flag_space : bool; flag_zero : bool; flag_hash : bool }.
Definition flags0 : pflags := Flags false false false false false.
Definition set_minus (f : pflags) := Flags true (flag_plus f) (flag_space f) (flag_zero f) (flag_hash f).
(** The effect of a flag character. *)
Definition flag_char (c : Z) (f : pflags) : option pflags :=
  if c =? 45 then Some (set_minus f)
  else if c =? 43 then Some (Flags (flag_minus f) true (flag_space f) (flag_zero f) (flag_hash f))
  else if c =? 32 then Some (Flags (flag_minus f) (flag_plus f) true (flag_zero f) (flag_hash f))
  else if c =? 48 then Some (Flags (flag_minus f) (flag_plus f) (flag_space f) true (flag_hash f))
  else if c =? 35 then Some (Flags (flag_minus f) (flag_plus f) (flag_space f) (flag_zero f) true)
  else None.
Fixpoint flags_loop (k : nat) (fmt : Z) (f : pflags) : M mem (pflags * Z) :=
  match k with
  | O => mfault
  | S k' => c <~ ld fmt ;; match flag_char c f with Some f' => flags_loop k' (fmt + 1) f' | None => return (f, fmt) end
  end.
(** [while ( *fmt >= '0' && *fmt <= '9') v = v * 10 + ( *fmt++ - '0')] on an [int]. *)
Fixpoint num_loop (k : nat) (fmt v : Z) : M mem (Z * Z) :=
  match k with
  | O => mfault
  | S k' => c <~ ld fmt ;; if (48 <=? i8 c) && (i8 c <=? 57) then num_loop k' (fmt + 1) (i32 (v * 10 + (i8 c - 48))) else return (v, fmt)
  end.

Definition read_width (fmt : Z) (f : pflags) (ap : list Z) : M mem (pflags * Z * Z * list Z) :=
  c <~ ld fmt ;;
  if c =? 42 then
    ' (a, ap) <~ va_arg ap ;;
    let width := i32 a in
    if width <? 0 then return (set_minus f, i32 (- width), fmt + 1, ap) else return (f, width, fmt + 1, ap)
  else ' (width, fmt) <~ fuelled (fun k => num_loop k fmt 0) ;; return (f, width, fmt, ap).
Definition read_prec (fmt : Z) (ap : list Z) : M mem (Z * Z * list Z) :=
  c <~ ld fmt ;;
  if c =? 46 then
    c <~ ld (fmt + 1) ;;
    if c =? 42 then ' (a, ap) <~ va_arg ap ;; return (i32 a, fmt + 2, ap)
    else ' (prec, fmt) <~ fuelled (fun k => num_loop k (fmt + 1) 0) ;; return (prec, fmt, ap)
  else return (-1, fmt, ap).

(** Which of [mod_long], [mod_longlong], [mod_size], [mod_ptrdiff], [mod_short] (1 and 2) is set. *)
Inductive lmod := MNone | MLong | MLongLong | MSize | MPtrdiff | MShort | MChar.
Definition read_mod (fmt : Z) : M mem (lmod * Z) :=
  c <~ ld fmt ;;
  if c =? 108 then c <~ ld (fmt + 1) ;; if c =? 108 then return (MLongLong, fmt + 2) else return (MLong, fmt + 1)
  else if c =? 122 then return (MSize, fmt + 1)
  else if c =? 116 then return (MPtrdiff, fmt + 1)
  else if c =? 104 then c <~ ld (fmt + 1) ;; if c =? 104 then return (MChar, fmt + 2) else return (MShort, fmt + 1)
  else return (MNone, fmt).

(** ** Conversions *)

(** The arguments of 'd', of 'u', 'x' and 'X', and of 'o'. *)
Definition signed_arg (m : lmod) (a : Z) : Z :=
  match m with
  | MLongLong | MLong | MSize | MPtrdiff => i64 a
  | MNone => i32 a
  | MShort => i16 (i32 a)
  | MChar => i8 (i32 a)
  end.
Definition unsigned_arg (m : lmod) (a : Z) : Z :=
  match m with
  | MLongLong | MLong | MSize => u64 a
  | MNone | MPtrdiff => u32 a
  | MShort => u16 (u32 a)
  | MChar => u8 (u32 a)
  end.
Definition octal_arg (m : lmod) (a : Z) : Z :=
  match m with MLongLong | MLong => u64 a | _ => u32 a end.

Definition hex_lower : list Z := [48; 49; 50; 51; 52; 53; 54; 55; 56; 57; 97; 98; 99; 100; 101; 102].
Definition hex_upper : list Z := [48; 49; 50; 51; 52; 53; 54; 55; 56; 57; 65; 66; 67; 68; 69; 70].
(** [while (uval > 0) { numbuf[numlen++] = dig(uval % base); uval /= base; }], [room] characters left in the buffer. *)
Fixpoint num_digits (room : nat) (dig : Z -> option Z) (base uval : Z) : option (list Z) :=
  if uval <=? 0 then Some [] else
  match room with
  | O => None
  | S room' => d ← dig (uval mod base); ds ← num_digits room' dig base (uval / base); Some (d :: ds)
  end.
(** The loop that turns the digits round in place: [n] rounds from index [i] on. *)
Fixpoint turn_loop (n i : nat) (l : list Z) : option (list Z) :=
  match n with
  | O => Some l
  | S n' =>
    t ← l !! i; u ← l !! (length l - 1 - i)%nat;
    turn_loop n' (S i) (<[(length l - 1 - i)%nat := t]> (<[i := u]> l))
  end.
Definition number_text (dig : Z -> option Z) (base uval : Z) : option (list Z) :=
  if uval =? 0 then Some [48] else
  l ← num_digits 32 dig base uval; turn_loop (length l / 2) 0 l.

(** The local variables after the switch. *)
Record converted := Conv { negative : bool; is_unsigned : bool; c_base : Z; numbuf : list Z; str : option src; strlen_val : Z }.

Definition null_text : list Z := [40; 110; 117; 108; 108; 41].
(** The switch on the conversion character: [inl pos] for the cases that go on with the loop. *)
Definition convert (buf size pos : Z) (m : lmod) (conv : Z) (ap : list Z) : M mem ((Z + converted) * list Z) :=
  if (conv =? 100) || (conv =? 105) then
    ' (a, ap) <~ va_arg ap ;;
    let val := signed_arg m a in
    t <~ mlift (number_text (fun d => Some (48 + d)) 10 (if val <? 0 then u64 (- (val + 1)) + 1 else val)) ;;
    return (inr (Conv (val <? 0) false 10 t None 0), ap)
  else if (conv =? 117) || (conv =? 120) || (conv =? 88) then
    ' (a, ap) <~ va_arg ap ;;
    t <~ mlift (number_text (zget (if conv =? 88 then hex_upper else hex_lower)) 16 (unsigned_arg m a)) ;;
    return (inr (Conv false true 16 t None 0), ap)
  else if conv =? 111 then
    ' (a, ap) <~ va_arg ap ;;
    t <~ mlift (number_text (fun d => Some (48 + d)) 8 (octal_arg m a)) ;;
    return (inr (Conv false true 8 t None 0), ap)
  else if conv =? 115 then
    ' (a, ap) <~ va_arg ap ;;
    if a =? 0 then return (inr (Conv false false 10 [] (Some (SBuf null_text)) 6), ap)
    else n <~ strlen a ;; return (inr (Conv false false 10 [] (Some (SPtr a)) (i32 n)), ap)
  else if conv =? 99 then
    ' (a, ap) <~ va_arg ap ;; return (inr (Conv false false 10 [u8 a] None 1), ap)
  else if conv =? 112 then
    ' (a, ap) <~ va_arg ap ;;
    t <~ mlift (if a =? 0 then Some [48] else reverse <$> num_digits 16 (zget hex_lower) 16 a) ;;
    return (inr (Conv false false 10 ([48; 120] ++ t) None 0), ap)
  else if conv =? 37 then pos <~ vsnprintf_write buf size pos 37 ;; return (inl pos, ap)
  else if conv =? 110 then
    ' (p, ap) <~ va_arg ap ;;
    (if p =? 0 then return tt else st32 p pos) ;;; return (inl pos, ap)
  else pos <~ vsnprintf_write buf size pos 37 ;; pos <~ vsnprintf_write buf size pos conv ;; return (inl pos, ap).

(** The sign and the prefix of the number. *)
Definition prefix_text (f : pflags) (conv : Z) (c : converted) : list Z :=
  if conv =? 112 then [48; 120] else
  (if negative c then [45]
   else if flag_plus f && negb (is_unsigned c) then [43]
   else if flag_space f && negb (is_unsigned c) then [32] else []) ++
  (if flag_hash f && negb (is_unsigned c) && negb (conv =? 115) && negb (conv =? 99) then
     if c_base c =? 16 then [48; if conv =? 88 then 88 else 120] else if c_base c =? 8 then [48] else []
   else []).

(** [while (prec > num_width)]: the zeros written, [total_pad] afterwards. *)
Fixpoint prec_loop (n : nat) (buf size pos total_pad : Z) : M mem (Z * Z) :=
  match n with
  | O => return (pos, total_pad)
  | S n' => pos <~ vsnprintf_write buf size pos 48 ;; prec_loop n' buf size pos (if 0 <? total_pad then total_pad - 1 else total_pad)
  end.

(** From [int pad_char] to the end of the loop's body. *)
Definition emit (buf size pos : Z) (f : pflags) (width prec conv : Z) (c : converted) : M mem Z :=
  let text := negb (conv =? 115) && negb (conv =? 99) in
  let numlen := Z.of_nat (length (numbuf c)) in
  let pad_char := if (0 <=? prec) && text then 32 else if flag_zero f && negb (flag_minus f) then 48 else 32 in
  let s := default (SBuf (numbuf c)) (str c) in
  let strlen_val := if text && negb (conv =? 112) then numlen else strlen_val c in
  let prefix := prefix_text f conv c in
  let content_len := i32 (Z.of_nat (length prefix) + strlen_val) in
  let total_pad := if content_len <? width then i32 (width - content_len) else 0 in
  pos <~ (if flag_minus f then return pos else pad_loop (Z.to_nat total_pad) buf size pos pad_char) ;;
  let total_pad := if flag_minus f then total_pad else -1 in
  pos <~ vsnprintf_writes buf size pos (SBuf prefix) (Z.of_nat (length prefix)) ;;
  ' (pos, total_pad) <~ (if (0 <? prec) && text then prec_loop (Z.to_nat (prec - numlen)) buf size pos total_pad else return (pos, total_pad)) ;;
  let strlen_val := if (conv =? 115) && (0 <=? prec) && (prec <? strlen_val) then prec else strlen_val in
  pos <~ vsnprintf_writes buf size pos s strlen_val ;;
  pad_loop (Z.to_nat total_pad) buf size pos 32.

(** ** The loop over the format *)

Fixpoint format_loop (k : nat) (buf size pos fmt : Z) (ap : list Z) : M mem Z :=
  match k with
  | O => mfault
  | S k' =>
    c <~ ld fmt ;;
    if c =? 0 then return pos else
    if negb (c =? 37) then pos <~ vsnprintf_write buf size pos c ;; format_loop k' buf size pos (fmt + 1) ap else
    ' (f, fmt) <~ fuelled (fun k => flags_loop k (fmt + 1) flags0) ;;
    ' (f, width, fmt, ap) <~ read_width fmt f ap ;;
    ' (prec, fmt, ap) <~ read_prec fmt ap ;;
    ' (m, fmt) <~ read_mod fmt ;;
    conv <~ ld fmt ;;
    ' (r, ap) <~ convert buf size pos m conv ap ;;
    match r with
    | inl pos => format_loop k' buf size pos (fmt + 1) ap
    | inr c => pos <~ emit buf size pos f width prec conv c ;; format_loop k' buf size pos (fmt + 1) ap
    end
  end.

Definition vsnprintf (buf size fmt : Z) (ap : list Z) : M mem Z :=
  if size =? 0 then return 0 else
  let size := if size =? 2 ^ 64 - 1 then 2 ^ 63 - 1 else size in
  pos <~ fuelled (fun k => format_loop k buf size 0 fmt ap) ;;
  (if pos <? size then st (buf + pos) 0 else if 0 <? size then st (buf + (size - 1)) 0 else return tt) ;;;
  return (i32 pos).
Definition snprintf (buf size fmt : Z) (ap : list Z) : M mem Z := vsnprintf buf size fmt ap.
Definition vsprintf (buf fmt : Z) (ap : list Z) : M mem Z := vsnprintf buf (2 ^ 64 - 1) fmt ap.
Definition sprintf (buf fmt : Z) (ap : list Z) : M mem Z := vsnprintf buf (2 ^ 64 - 1) fmt ap.

(** ** sscanf *)

Definition is_blank (c : Z) : bool := (c =? 32) || (c =? 9) || (c =? 10).
Fixpoint skip_blanks (k : nat) (s : Z) : M mem Z :=
  match k with O => mfault | S k' => c <~ ld s ;; if is_blank c then skip_blanks k' (s + 1) else return s end.
(** The digits of [parse_int] and [parse_uint] go up to 'f'. *)
Definition scan_digit (c : Z) : option Z :=
  let c := i8 c in
  if (48 <=? c) && (c <=? 57) then Some (c - 48)
  else if (97 <=? c) && (c <=? 102) then Some (c - 97 + 10)
  else if (65 <=? c) && (c <=? 70) then Some (c - 65 + 10) else None.
(** The loop over the digits, [cast] the type of [result]. *)
Fixpoint scan_loop (k : nat) (cast : Z -> Z) (s base result : Z) : M mem (Z * Z) :=
  match k with
  | O => mfault
  | S k' =>
    c <~ ld s ;;
    if c =? 0 then return (result, s) else
    match scan_digit c with
    | None => return (result, s)
    | Some digit => if base <=? digit then return (result, s) else scan_loop k' cast (s + 1) base (cast (result * base + digit))
    end
  end.
Definition parse_int (s base : Z) : M mem (Z * Z) :=
  s <~ fuelled (fun k => skip_blanks k s) ;;
  ' (neg, s) <~ read_sign s ;;
  ' (result, s) <~ fuelled (fun k => scan_loop k i32 s base 0) ;;
  return (if neg : bool then i32 (- result) else result, s).
Definition parse_uint (s base : Z) : M mem (Z * Z) :=
  s <~ fuelled (fun k => skip_blanks k s) ;;
  ' (base, s) <~
    (c <~ ld s ;;
     if (c =? 48) && ((base =? 0) || (base =? 16)) then
       c1 <~ ld (s + 1) ;; if (c1 =? 120) || (c1 =? 88) then return (16, s + 2) else return (base, s)
     else return (base, s)) ;;
  base <~ (if base =? 0 then c <~ ld s ;; return (if c =? 48 then 8 else 10) else return base) ;;
  fuelled (fun k => scan_loop k u32 s base 0).

(** The number cases: the value is stored and counted unless suppressed. *)
Definition scan_number (parse : M mem (Z * Z)) (suppress : bool) (ap : list Z) (count : Z) : M mem (Z * list Z * Z) :=
  ' (val, s) <~ parse ;;
  if suppress then return (s, ap, count) else ' (p, ap) <~ va_arg ap ;; st32 p val ;;; return (s, ap, count + 1).
(** The loop of case 's': [dest] is 0 when suppressed. *)
Fixpoint word_loop (k : nat) (s dest n width : Z) : M mem (Z * Z * Z) :=
  match k with
  | O => mfault
  | S k' =>
    c <~ ld s ;;
    if (c =? 0) || is_blank c || ((0 <? width) && (width <=? n)) then return (s, dest, n) else
    (if dest =? 0 then return tt else st dest c) ;;;
    word_loop k' (s + 1) (if dest =? 0 then 0 else dest + 1) (n + 1) width
  end.
(** The switch: [None] when the scan is over. *)
Definition scan_conv (s fmt conv : Z) (suppress : bool) (width : Z) (ap : list Z) (count : Z) : M mem (option (Z * list Z * Z)) :=
  if (conv =? 100) || (conv =? 105) then
    s <~ fuelled (fun k => skip_blanks k s) ;; r <~ scan_number (parse_int s 10) suppress ap count ;; return (Some r)
  else if conv =? 117 then
    s <~ fuelled (fun k => skip_blanks k s) ;; r <~ scan_number (parse_uint s 10) suppress ap count ;; return (Some r)
  else if (conv =? 120) || (conv =? 88) then
    s <~ fuelled (fun k => skip_blanks k s) ;; r <~ scan_number (parse_uint s 16) suppress ap count ;; return (Some r)
  else if conv =? 115 then
    s <~ fuelled (fun k => skip_blanks k s) ;;
    ' (dest, ap) <~ (if suppress then return (0, ap) else va_arg ap) ;;
    ' (s, dest, n) <~ fuelled (fun k => word_loop k s dest 0 width) ;;
    (if dest =? 0 then return tt else st dest 0) ;;;
    return (Some (s, ap, if 0 <? n then count + 1 else count))
  else if conv =? 99 then
    ' (dest, ap) <~ (if suppress then return (0, ap) else va_arg ap) ;;
    (if dest =? 0 then return tt else c <~ ld s ;; st dest c) ;;;
    return (Some (s + 1, ap, if suppress then count else count + 1))
  else if conv =? 110 then
    if suppress then return (Some (s, ap, count)) else
    ' (p, ap) <~ va_arg ap ;; st32 p (s - fmt) ;;; return (Some (s, ap, count))
  else if conv =? 37 then c <~ ld s ;; if negb (c =? 37) then return None else return (Some (s + 1, ap, count))
  else return None.
Fixpoint sscanf_loop (k : nat) (s fmt : Z) (ap : list Z) (count : Z) : M mem Z :=
  match k with
  | O => mfault
  | S k' =>
    f <~ ld fmt ;;
    if f =? 0 then return count else
    c <~ ld s ;;
    if c =? 0 then return count else
    if is_blank f then s <~ fuelled (fun k => skip_blanks k s) ;; sscanf_loop k' s (fmt + 1) ap count else
    if negb (f =? 37) then
      if negb (f =? c) then return count else sscanf_loop k' (s + 1) (fmt + 1) ap count
    else
    let fmt := fmt + 1 in
    f <~ ld fmt ;;
    let suppress := f =? 42 in
    ' (width, fmt) <~ fuelled (fun k => num_loop k (if suppress then fmt + 1 else fmt) 0) ;;
    f <~ ld fmt ;;
    fmt <~ (if f =? 108 then f1 <~ ld (fmt + 1) ;; return (if f1 =? 108 then fmt + 2 else fmt + 1) else return fmt) ;;
    conv <~ ld fmt ;;
    r <~ scan_conv s fmt conv suppress width ap count ;;
    match r with None => return count | Some (s, ap, count) => sscanf_loop k' s (fmt + 1) ap count end
  end.
Definition sscanf (s fmt : Z) (ap : list Z) : M mem Z := fuelled (fun k => sscanf_loop k s fmt ap 0).
