(* ===== verification/LibcPrintfSpec.v ===== *)
(** * The C library: what the formatted output is

    [render] gives the text of a format and its arguments as a function of lists, with the program's own conversions;
    [vsnprintf] is shown to store the part of it that fits, and [render] to be the text of the standard ([c_text] of
    LibcFormat.v) wherever that is defined.  Numbers are printed as their
    numerals, so that [strtol] and [sscanf] read back what was printed. *)

From stdpp Require Import base numbers gmap list options.
From S2P Require Import Prelude LibcString LibcStringSpec LibcStdlib LibcNumber LibcFormat LibcPrintf.

(** ** The text of a format *)

Fixpoint parse_flags (f : pflags) (s : list Z) : pflags * list Z :=
  match s with [] => (f, []) | c :: s' => match flag_char c f with Some f' => parse_flags f' s' | None => (f, s) end end.
Fixpoint parse_num (v : Z) (s : list Z) : Z * list Z :=
  match s with
  | [] => (v, [])
  | c :: s' => if (48 <=? i8 c) && (i8 c <=? 57) then parse_num (i32 (v * 10 + (i8 c - 48))) s' else (v, s)
  end.
(** What follows the character [c], when the text starts with it. *)
Definition eat (c : Z) (s : list Z) : option (list Z) :=
  match s with x :: s' => if x =? c then Some s' else None | [] => None end.
Definition parse_width (f : pflags) (s args : list Z) : option (pflags * Z * list Z * list Z) :=
  match eat 42 s with
  | Some s' => match args with
               | [] => None
               | a :: args' => Some (if i32 a <? 0 then (set_minus f, i32 (- i32 a), s', args') else (f, i32 a, s', args'))
               end
  | None => let '(w, s') := parse_num 0 s in Some (f, w, s', args)
  end.
Definition parse_prec (s args : list Z) : option (Z * list Z * list Z) :=
  match eat 46 s with
  | Some s' =>
    match eat 42 s' with
    | Some s' => match args with [] => None | a :: args' => Some (i32 a, s', args') end
    | None => let '(p, s'') := parse_num 0 s' in Some (p, s'', args)
    end
  | None => Some (-1, s, args)
  end.
Definition parse_mod (s : list Z) : lmod * list Z :=
  match eat 108 s with
  | Some s' => match eat 108 s' with Some s'' => (MLongLong, s'') | None => (MLong, s') end
  | None =>
    match eat 122 s with
    | Some s' => (MSize, s')
    | None =>
      match eat 116 s with
      | Some s' => (MPtrdiff, s')
      | None =>
        match eat 104 s with
        | Some s' => match eat 104 s' with Some s'' => (MChar, s'') | None => (MShort, s') end
        | None => (MNone, s)
        end
      end
    end
  end.

(** One conversion: prefix, zeros and body, padded to the width. *)
Definition layout (f : pflags) (width prec conv : Z) (c : converted) (body : list Z) : list Z :=
  let text := negb (conv =? 115) && negb (conv =? 99) in
  let prefix := prefix_text f conv c in
  let pad := width - (Z.of_nat (length prefix) + if conv =? 112 then 0 else Z.of_nat (length body)) in
  let zeros := replicate (if text then Z.to_nat (prec - Z.of_nat (length (numbuf c))) else 0) 48 in
  let shown := if conv =? 112 then [] else if (conv =? 115) && (0 <=? prec) then take (Z.to_nat prec) body else body in
  if flag_minus f then prefix ++ zeros ++ shown ++ replicate (Z.to_nat (pad - Z.of_nat (length zeros))) 32
  else replicate (Z.to_nat pad) (if (0 <=? prec) && text then 32 else if flag_zero f then 48 else 32) ++ prefix ++ zeros ++ shown.

(** The conversion of an argument, and its text.  [sv] gives the strings that arguments point to. *)
Definition convert_arg (sv : Z -> option (list Z)) (m : lmod) (conv a : Z) : option (converted * list Z) :=
  if (conv =? 100) || (conv =? 105) then
    t ← number_text (fun d => Some (48 + d)) 10 (Z.abs (signed_arg m a)); Some (Conv (signed_arg m a <? 0) false 10 t None 0, t)
  else if (conv =? 117) || (conv =? 120) || (conv =? 88) then
    t ← number_text (zget (if conv =? 88 then hex_upper else hex_lower)) 16 (unsigned_arg m a); Some (Conv false true 16 t None 0, t)
  else if conv =? 111 then t ← number_text (fun d => Some (48 + d)) 8 (octal_arg m a); Some (Conv false true 8 t None 0, t)
  else if conv =? 115 then
    if a =? 0 then Some (Conv false false 10 [] (Some (SBuf null_text)) 6, null_text)
    else s ← sv a; Some (Conv false false 10 [] (Some (SPtr a)) (Z.of_nat (length s)), s)
  else if conv =? 99 then Some (Conv false false 10 [u8 a] None 1, [u8 a])
  else if conv =? 112 then
    t ← (if a =? 0 then Some [48] else reverse <$> num_digits 16 (zget hex_lower) 16 a);
    Some (Conv false false 10 ([48; 120] ++ t) None 0, [48; 120] ++ t)
  else None.
Definition is_conv (c : Z) : bool := bool_decide (c ∈ [100; 105; 117; 120; 88; 111; 115; 99; 112]).

(** The text of a format; [None] when an argument is missing, for "%n" with a pointer, and for a format that ends within
    a conversion.  [k] bounds the length of the format. *)
Fixpoint render (sv : Z -> option (list Z)) (k : nat) (s args : list Z) : option (list Z) :=
  match k with
  | O => None
  | S k' =>
    match s with
    | [] => Some []
    | c :: s' =>
      if negb (c =? 37) then cons c <$> render sv k' s' args else
      let '(f, s1) := parse_flags flags0 s' in
      '(f, width, s2, args) ← parse_width f s1 args;
      '(prec, s3, args) ← parse_prec s2 args;
      let '(m, s4) := parse_mod s3 in
      match s4 with
      | [] => None
      | conv :: s5 =>
        if is_conv conv then
          match args with
          | [] => None
          | a :: args' => '(c, body) ← convert_arg sv m conv a; app (layout f width prec conv c body) <$> render sv k' s5 args'
          end
        else if conv =? 37 then cons 37 <$> render sv k' s5 args
        else if conv =? 110 then match args with 0 :: args' => render sv k' s5 args' | _ => None end
        else app [37; conv] <$> render sv k' s5 args
      end
    end
  end.

(** ** Numerals *)

Lemma num_digits_run base dig : 2 <= base -> (forall d, 0 <= d < base -> exists c, dig d = Some c /\ 0 < c < 256 /\ digit_val c = Some d) ->
  forall room v, 0 <= v < base ^ Z.of_nat room -> exists ds, num_digits room dig base v = Some ds /\ (length ds <= room)%nat /\
  Forall (fun c => is_digit base c = true) ds /\ nz ds /\ number base 0 (reverse ds) = v /\ (0 < v -> ds <> []).
Proof.
  intros Hb Hdig. induction room as [|room IH]; intros v Hv; cbn [num_digits].
  - replace v with 0 by (simpl in Hv; lia). exists []. split_and!; first [apply Forall_nil_2 | done | simpl; lia].
  - destruct (Z.leb_spec v 0); [replace v with 0 by lia; exists []; split_and!; simpl; first [apply Forall_nil_2 | done | simpl; lia]|].
    pose proof (Z.mod_pos_bound v base ltac:(lia)). destruct (Hdig (v mod base) ltac:(lia)) as (c&->&Hc&Hd). cbn [mbind option_bind].
    destruct (IH (v / base)) as (ds&->&Hl&Hds&Hnz&Hn&_).
    { split; [apply Z.div_pos; lia|]. apply Z.div_lt_upper_bound; [lia|]. replace (Z.of_nat (S room)) with (Z.succ (Z.of_nat room)) in Hv by lia. rewrite Z.pow_succ_r in Hv by lia. lia. }
    cbn [mbind option_bind]. exists (c :: ds). split; [done|]. split; [simpl; lia|]. assert (is_digit base c = true) by (unfold is_digit; rewrite Hd; apply Z.ltb_lt; lia).
    split; [by constructor|]. split; [by constructor|]. split; [|done]. rewrite reverse_cons.
    assert (forall l x, number base x (l ++ [c]) = number base x l * base + digit c) as Hsnoc by (intros l; induction l as [|y l IHl]; intros x; simpl; [done|apply IHl]).
    rewrite Hsnoc, Hn. unfold digit. rewrite Hd. simpl. pose proof (Z.div_mod v base ltac:(lia)). lia.
Qed.

Lemma swap_ends (x y : Z) l : <[(length (x :: l ++ [y]) - 1)%nat := x]> (<[0%nat := y]> (x :: l ++ [y])) = y :: l ++ [x].
Proof.
  replace (length (x :: l ++ [y]) - 1)%nat with (S (length l + 0)) by (simpl; rewrite length_app; simpl; lia). cbn [insert list_insert].
  f_equal. exact (insert_app_r l [y] 0 x).
Qed.
Lemma turn_loop_shift n : forall i p l q, length p = length q -> (2 * (i + n) <= length l)%nat ->
  turn_loop n (i + length p) (p ++ l ++ q) = (fun l' => p ++ l' ++ q) <$> turn_loop n i l.
Proof.
  induction n as [|n IH]; intros i p l q Hpq Hn; cbn [turn_loop]; [done|]. rewrite !length_app.
  assert (forall j, (j < length l)%nat -> (p ++ l ++ q) !! (length p + j)%nat = l !! j) as Hget.
  { intros j Hj. rewrite lookup_app_r, lookup_app_l by lia. f_equal. lia. }
  replace (length p + (length l + length q) - 1 - (i + length p))%nat with (length p + (length l - 1 - i))%nat by lia. rewrite (Nat.add_comm i (length p)), !Hget by lia.
  destruct (lookup_lt_is_Some_2 l i ltac:(lia)) as [t Ht], (lookup_lt_is_Some_2 l (length l - 1 - i)%nat ltac:(lia)) as [u Hu]. rewrite Ht, Hu. cbn [mbind option_bind].
  rewrite insert_app_r, (insert_app_l l), insert_app_r, insert_app_l by (rewrite ?length_insert; lia).
  rewrite <-(IH (S i)) by (rewrite ?length_insert; lia). f_equal. lia.
Qed.
Lemma turn_loop_reverse l : turn_loop (length l / 2) 0 l = Some (reverse l).
Proof.
  remember (length l) as n eqn:Hn. revert l Hn. induction (lt_wf n) as [n _ IH]. intros l Hn. destruct l as [|x l]; [by subst|]. destruct l as [|y l _] using rev_ind; [by subst|].
  simpl in Hn. rewrite length_app in Hn. simpl in Hn. replace (n / 2)%nat with (S (length l / 2)) by (subst n; replace (S (length l + 1)) with (length l + 1 * 2)%nat by lia; rewrite Nat.div_add by done; lia).
  cbn [turn_loop]. replace ((x :: l ++ [y]) !! 0%nat) with (Some x) by done. cbn [mbind option_bind]. rewrite Nat.sub_0_r.
  replace ((x :: l ++ [y]) !! (length (x :: l ++ [y]) - 1)%nat) with (Some y).
  2:{ replace (length (x :: l ++ [y]) - 1)%nat with (S (length l)) by (simpl; rewrite length_app; simpl; lia). symmetry. exact (list_lookup_middle l [] y (length l) eq_refl). }
  cbn [mbind option_bind]. rewrite swap_ends.
  pose proof (turn_loop_shift (length l / 2) 0 [y] l [x] eq_refl) as Hs. pose proof (Nat.div_mod (length l) 2 ltac:(lia)). specialize (Hs ltac:(lia)). cbn [app length Nat.add] in Hs.
  rewrite Hs, (IH (length l) ltac:(lia) l eq_refl). simpl. by rewrite reverse_cons, reverse_app.
Qed.

(** A character for every digit. *)
Definition digits_ok (base : Z) (dig : Z -> option Z) : Prop := forall d, 0 <= d < base -> exists c, dig d = Some c /\ 0 < c < 256 /\ digit_val c = Some d.
Lemma number_text_run base dig v : 8 <= base -> digits_ok base dig -> 0 <= v < 2 ^ 64 -> exists ds, number_text dig base v = Some ds /\ (length ds <= 32)%nat /\
  Forall (fun c => is_digit base c = true) ds /\ nz ds /\ number base 0 ds = v /\ ds <> [].
Proof.
  intros Hb Hd Hv. unfold number_text. destruct (Z.eqb_spec v 0) as [->|Hn].
  - exists [48]. split_and!; try done; [simpl; lia| |repeat constructor; lia]. constructor; [|done]. unfold is_digit. change (digit_val 48) with (Some 0). apply Z.ltb_lt. lia.
  - pose proof (Z.pow_le_mono_l 8 base 32 ltac:(lia)). destruct (num_digits_run base dig ltac:(lia) Hd 32 v) as (ds&->&Hl&Hf&Hz&Hnum&Hne); [change (Z.of_nat 32) with 32; lia|]. cbn [mbind option_bind].
    rewrite turn_loop_reverse. exists (reverse ds). split_and!; [done|by rewrite length_reverse|by apply Forall_reverse|by apply Forall_reverse|done|].
    intros E. apply Hne; [lia|]. rewrite <-(reverse_involutive ds), E. done.
Qed.
Lemma dec_digits base : base <= 10 -> digits_ok base (fun d => Some (48 + d)).
Proof.
  intros Hb d Hd. exists (48 + d). split; [done|]. split; [lia|]. unfold digit_val, i8, swrap. rewrite wrap_small by (unfold in_w; lia).
  rewrite (proj2 (Z.ltb_lt (48 + d) _)) by lia. rewrite (proj2 (Z.leb_le 48 _)), (proj2 (Z.leb_le _ 57)) by lia. cbn [andb]. f_equal. lia.
Qed.
Lemma hex_digits (b : bool) : digits_ok 16 (zget (if b then hex_upper else hex_lower)).
Proof.
  intros d Hd. assert (d ∈ seqZ 0 16) as Hin by (apply elem_of_seqZ; lia). change (seqZ 0 16) with [0; 1; 2; 3; 4; 5; 6; 7; 8; 9; 10; 11; 12; 13; 14; 15] in Hin.
  rewrite !elem_of_cons, elem_of_nil in Hin. destruct b; naive_solver (eexists; split; [reflexivity|split; [lia|reflexivity]]).
Qed.

(** ** What is stored *)

Section Output.
Context (buf size T : Z).
(** The whole text has at most [T] characters, and there is room for what is stored of it. *)
Hypothesis (Hsize : 0 < size < 2 ^ 64) (HT : 0 <= T < 2 ^ 31).
Local Notation cap := (Z.min size (T + 1)).
#[local] Set Default Proof Using "Type*".

(** The characters of [out] from position [pos] on, those that fit. *)
Fixpoint put_text (pos : Z) (out : list Z) (m : mem) : mem :=
  match out with [] => m | c :: out' => put_text (pos + 1) out' (if pos <? size - 1 then <[buf + pos := c]> m else m) end.
Definition roomy (m : mem) : Prop := mem_ok m /\ mapped m buf cap.
(** The [n] bytes from [p] on are not in the buffer. *)
Definition outside (p n : Z) : Prop := p + n <= buf \/ buf + cap <= p.

Lemma put_text_app out : forall pos out' m, put_text pos (out ++ out') m = put_text (pos + Z.of_nat (length out)) out' (put_text pos out m).
Proof using Type.
  induction out as [|c out IH]; intros pos out' m; simpl; [by rewrite Z.add_0_r|]. rewrite IH. f_equal. lia.
Qed.
Lemma put_text_get out : forall pos m a, put_text pos out m !! a =
  if decide (buf + pos <= a < buf + Z.min (pos + Z.of_nat (length out)) (size - 1)) then zget out (a - buf - pos) else m !! a.
Proof using Type.
  induction out as [|c out IH]; intros pos m a; simpl length; cbn [put_text]; [rewrite decide_False by (simpl; lia); done|]. rewrite IH. destruct (decide (a = buf + pos)) as [->|Hne].
  - rewrite decide_False by lia. destruct (Z.ltb_spec pos (size - 1)); [|rewrite decide_False by lia; done]. rewrite lookup_insert_eq, decide_True by lia.
    by replace (buf + pos - buf - pos) with 0 by lia.
  - case_decide as H1; case_decide as H2; try lia; [|destruct (pos <? size - 1); [by rewrite lookup_insert_ne by congruence|done]].
    unfold zget. rewrite !(proj2 (Z.leb_le 0 _)) by lia. replace (Z.to_nat (a - buf - pos)) with (S (Z.to_nat (a - buf - (pos + 1)))) by lia. done.
Qed.
Lemma put_text_outside pos out m a : 0 <= pos -> pos + Z.of_nat (length out) <= T -> a < buf \/ buf + cap <= a -> put_text pos out m !! a = m !! a.
Proof using Type. intros. rewrite put_text_get, decide_False by lia. done. Qed.
Lemma roomy_put pos out m : roomy m -> Forall byte_ok out -> roomy (put_text pos out m).
Proof using Type.
  intros [Hok Hm] Ho. split.
  - intros a v. rewrite put_text_get. case_decide; [|apply Hok]. intros [_ Hv]%zget_Some. rewrite Forall_lookup in Ho. eauto.
  - intros a Ha. rewrite put_text_get. case_decide; [apply zget_is_Some; lia|by apply Hm].
Qed.
Lemma cstr_put pos out m p s : 0 <= pos -> pos + Z.of_nat (length out) <= T -> outside p (Z.of_nat (length s) + 1) -> cstr m p s -> cstr (put_text pos out m) p s.
Proof using Type.
  intros Hp Hl Ho [Hb Hz]. split; [|done]. apply (bytes_at_ext m); [done|]. rewrite length_app. simpl. intros a Ha. apply put_text_outside; [done..|]. unfold outside in Ho. lia.
Qed.

(** A piece of the output: the text [out] is written at [pos]. *)
Definition writes (c : M mem Z) (m : mem) (pos : Z) (out : list Z) : Prop := c m = Some (pos + Z.of_nat (length out), put_text pos out m).

Lemma write_run m pos c : roomy m -> 0 <= pos -> pos + 1 <= T -> byte_ok c -> writes (vsnprintf_write buf size pos c) m pos [c].
Proof.
  intros [Hok Hm] Hp HpT Hc. unfold writes, vsnprintf_write. cbn [put_text length]. unwrap. rewrite wrap_small by (unfold in_w; lia).
  rewrite (wrap_small _ (pos + 1)) by (unfold in_w; lia). destruct (Z.ltb_spec pos (size - 1)); [|done].
  destruct (Hm (buf + pos) ltac:(lia)) as [x Hx]. cbn [mwhen]. mstep (st_run m (buf + pos) c x Hx). by rewrite u8_id by done.
Qed.
Lemma pad_run c n : forall m pos, roomy m -> 0 <= pos -> pos + Z.of_nat n <= T -> byte_ok c -> writes (pad_loop n buf size pos c) m pos (replicate n c).
Proof.
  induction n as [|n IH]; intros m pos Hr Hp Hl Hc; unfold writes; cbn [pad_loop]; [simpl; by rewrite Z.add_0_r|].
  mstep (write_run m pos c Hr Hp ltac:(lia) Hc). cbn [length]. rewrite (IH _ (pos + Z.of_nat 1)) by first [lia | done | apply roomy_put; [done|by apply Forall_singleton]].
  simpl. rewrite length_replicate. do 2 f_equal. lia.
Qed.

(** The text [s] can be read from [src]. *)
Definition src_text (m : mem) (s : src) (l : list Z) : Prop :=
  match s with SBuf l' => l = take (length l) l' | SPtr p => bytes_at m p l /\ outside p (Z.of_nat (length l)) end.
Lemma src_text_put m s l pos out : 0 <= pos -> pos + Z.of_nat (length out) <= T -> src_text m s l -> src_text (put_text pos out m) s l.
Proof using Type.
  intros Hp Hl. destruct s as [p|l']; [|done]. intros [Hb Ho]. split; [|done]. apply (bytes_at_ext m); [done|]. intros a Ha. apply put_text_outside; [done..|]. unfold outside in Ho. lia.
Qed.
Lemma src_at_run m s l i c : src_text m s l -> l !! i = Some c -> src_at s (Z.of_nat i) m = Some (c, m).
Proof using Type.
  intros Hs Hc. pose proof (lookup_lt_Some _ _ _ Hc). destruct s as [p|l']; simpl in *.
  - destruct Hs as [Hb _]. apply ld_run. rewrite (bytes_at_get _ _ _ _ Hb) by lia. by replace (p + Z.of_nat i - p) with (Z.of_nat i) by lia; rewrite zget_nat.
  - unfold mlift. rewrite zget_nat. rewrite Hs, lookup_take in Hc. case_decide; [|done]. by rewrite Hc.
Qed.
Lemma writes_loop_run s l : Forall byte_ok l -> forall n i m pos, (i + n = length l)%nat -> roomy m -> 0 <= pos -> pos + Z.of_nat n <= T -> src_text m s l ->
  writes (writes_loop n buf size pos s (Z.of_nat i)) m pos (drop i l).
Proof.
  intros Hl. induction n as [|n IH]; intros i m pos Hi Hr Hp HpT Hs; unfold writes; cbn [writes_loop].
  - rewrite drop_ge by lia. simpl. by rewrite Z.add_0_r.
  - destruct (lookup_lt_is_Some_2 l i ltac:(lia)) as [c Hc]. mstep (src_at_run m s l i c Hs Hc). pose proof (proj1 (Forall_lookup _ _) Hl i c Hc) as Hb.
    mstep (write_run m pos c Hr Hp ltac:(lia) Hb). replace (Z.of_nat i + 1) with (Z.of_nat (S i)) by lia. cbn [length].
    rewrite (IH (S i) _ (pos + Z.of_nat 1)) by first [lia | apply roomy_put; [done|by apply Forall_singleton] | apply src_text_put; simpl; [lia..|done]].
    rewrite (drop_S l c i Hc). simpl. rewrite length_drop. do 2 f_equal. lia.
Qed.
Lemma writes_run m pos s l : Forall byte_ok l -> roomy m -> 0 <= pos -> pos + Z.of_nat (length l) <= T -> src_text m s l ->
  writes (vsnprintf_writes buf size pos s (Z.of_nat (length l))) m pos l.
Proof. intros. unfold vsnprintf_writes. rewrite Nat2Z.id. by apply (writes_loop_run s l H (length l) 0). Qed.
Lemma prec_loop_run n : forall m pos tp, roomy m -> 0 <= pos -> pos + Z.of_nat n <= T ->
  prec_loop n buf size pos tp m = Some ((pos + Z.of_nat n, if 0 <=? tp then Z.max 0 (tp - Z.of_nat n) else tp), put_text pos (replicate n 48) m).
Proof.
  induction n as [|n IH]; intros m pos tp Hr Hp Hl; cbn [prec_loop].
  - simpl. rewrite Z.add_0_r. destruct (Z.leb_spec 0 tp); [|done]. unfold mret. do 3 f_equal. lia.
  - assert (byte_ok 48) as H48 by (unfold byte_ok; lia). mstep (write_run m pos 48 Hr Hp ltac:(lia) H48). cbn [length].
    rewrite IH by first [lia | apply roomy_put; [done|by apply Forall_singleton]]. simpl. f_equal. f_equal. f_equal; [lia|].
    destruct (Z.ltb_spec 0 tp); destruct (Z.leb_spec 0 tp); destruct (Z.leb_spec 0 (tp - 1)); lia.
Qed.
End Output.

(** ** Reading the format *)

(** [s'] is what is left at [p'] of the string [s] at [p]. *)
Definition left_at (m : mem) (p : Z) (s : list Z) (p' : Z) (s' : list Z) : Prop :=
  cstr m p' s' /\ p <= p' /\ p' + Z.of_nat (length s') = p + Z.of_nat (length s).
Lemma left_refl m p s : cstr m p s -> left_at m p s p s.
Proof. done. Qed.
Lemma left_trans m p s p1 s1 p2 s2 : left_at m p s p1 s1 -> left_at m p1 s1 p2 s2 -> left_at m p s p2 s2.
Proof. intros (?&?&?) (?&?&?). split; [done|lia]. Qed.
Lemma left_next m p c s : cstr m p (c :: s) -> left_at m p (c :: s) (p + 1) s.
Proof. intros (_&_&H)%cstr_cons. split; [done|simpl; lia]. Qed.
(** The first character of a string, 0 for the empty one. *)
Lemma ld_hd m p s : cstr m p s -> ld p m = Some (hd 0 s, m).
Proof. intros H. apply ld_run. destruct s; [by apply cstr_nil in H|by apply cstr_cons in H as [? _]]. Qed.
Lemma eat_hd m p c s : cstr m p s -> 0 < c -> match eat c s with Some s' => hd 0 s = c /\ left_at m p s (p + 1) s' | None => hd 0 s <> c end.
Proof.
  intros H Hc. destruct s as [|x s]; simpl; [lia|]. destruct (Z.eqb_spec x c); [|done]. split; [done|by apply left_next].
Qed.

Lemma flags_loop_run s : forall k m p f f' s', (length s < k)%nat -> cstr m p s -> parse_flags f s = (f', s') ->
  exists p', flags_loop k p f m = Some ((f', p'), m) /\ left_at m p s p' s'.
Proof.
  induction s as [|c s IH]; intros [|k] m p f f' s' Hk H Hp; simpl in Hk; try lia; cbn [flags_loop parse_flags] in *.
  - simplify_eq. mstep (ld_hd m p [] H). exists p. by split; [|apply left_refl].
  - mstep (ld_hd m p _ H). cbn [hd]. destruct (flag_char c f) as [f1|].
    + pose proof (left_next _ _ _ _ H) as Hl. destruct (IH k m (p + 1) f1 f' s' ltac:(lia) (proj1 Hl) Hp) as (p'&->&Hl'). exists p'. split; [done|by eapply left_trans].
    + simplify_eq. exists p. by split; [|apply left_refl].
Qed.
Lemma num_loop_run s : forall k m p v v' s', (length s < k)%nat -> cstr m p s -> parse_num v s = (v', s') ->
  exists p', num_loop k p v m = Some ((v', p'), m) /\ left_at m p s p' s'.
Proof.
  induction s as [|c s IH]; intros [|k] m p v v' s' Hk H Hp; simpl in Hk; try lia; cbn [num_loop parse_num] in *.
  - simplify_eq. mstep (ld_hd m p [] H). exists p. by split; [|apply left_refl].
  - mstep (ld_hd m p _ H). cbn [hd]. destruct ((48 <=? i8 c) && (i8 c <=? 57)).
    + pose proof (left_next _ _ _ _ H) as Hl. destruct (IH k m (p + 1) _ v' s' ltac:(lia) (proj1 Hl) Hp) as (p'&->&Hl'). exists p'. split; [done|by eapply left_trans].
    + simplify_eq. exists p. by split; [|apply left_refl].
Qed.
Lemma num_run m p s v' s' : cstr m p s -> parse_num 0 s = (v', s') -> exists p', fuelled (fun k => num_loop k p 0) m = Some ((v', p'), m) /\ left_at m p s p' s'.
Proof. intros H Hp. apply num_loop_run; [apply cstr_size in H; lia|done..]. Qed.

Lemma read_width_run m p f s args f' w s' args' : cstr m p s -> parse_width f s args = Some (f', w, s', args') ->
  exists p', read_width p f args m = Some ((f', w, p', args'), m) /\ left_at m p s p' s'.
Proof.
  intros H Hp. unfold read_width, parse_width in *. mstep (ld_hd m p s H). pose proof (eat_hd m p 42 s H ltac:(lia)) as He. destruct (eat 42 s) as [s1|].
  - destruct He as [-> Hl]. destruct args as [|a args]; [done|]. cbn [Z.eqb Pos.eqb va_arg]. exists (p + 1). unfold mbind_, mret. destruct (i32 a <? 0); simplify_eq; done.
  - rewrite (proj2 (Z.eqb_neq _ _) He). destruct (parse_num 0 s) as [w1 s1] eqn:En. simplify_eq. destruct (num_run m p s _ _ H En) as (p'&E&Hl). mstep E. by exists p'.
Qed.
Lemma read_prec_run m p s args prec s' args' : cstr m p s -> parse_prec s args = Some (prec, s', args') ->
  exists p', read_prec p args m = Some ((prec, p', args'), m) /\ left_at m p s p' s'.
Proof.
  intros H Hp. unfold read_prec, parse_prec in *. mstep (ld_hd m p s H). pose proof (eat_hd m p 46 s H ltac:(lia)) as He. destruct (eat 46 s) as [s1|].
  - destruct He as [-> Hl]. cbn [Z.eqb Pos.eqb]. mstep (ld_hd m (p + 1) s1 (proj1 Hl)). pose proof (eat_hd m (p + 1) 42 s1 (proj1 Hl) ltac:(lia)) as He. destruct (eat 42 s1) as [s2|].
    + destruct He as [-> Hl2]. destruct args as [|a args]; [done|]. simplify_eq. exists (p + 1 + 1). replace (p + 2) with (p + 1 + 1) by lia. by split; [|eapply left_trans].
    + rewrite (proj2 (Z.eqb_neq _ _) He). destruct (parse_num 0 s1) as [w1 s2] eqn:En. simplify_eq. destruct (num_run m (p + 1) s1 _ _ (proj1 Hl) En) as (p'&E&Hl2). mstep E.
      exists p'. by split; [|eapply left_trans].
  - rewrite (proj2 (Z.eqb_neq _ _) He). simplify_eq. exists p. by split; [|apply left_refl].
Qed.
(** The second letter of "ll" and "hh". *)
Lemma read_twice m p s c s1 (a b : lmod) : 0 < c -> cstr m p s -> eat c s = Some s1 -> exists p',
  (x <~ ld (p + 1) ;; if x =? c then return (a, p + 2) else return (b, p + 1)) m = Some ((match eat c s1 with Some _ => a | None => b end, p'), m) /\
  left_at m p s p' (match eat c s1 with Some s2 => s2 | None => s1 end).
Proof.
  intros Hc H E. pose proof (eat_hd m p c s H Hc) as He. rewrite E in He. destruct He as [_ Hl]. mstep (ld_hd m (p + 1) s1 (proj1 Hl)).
  pose proof (eat_hd m (p + 1) c s1 (proj1 Hl) Hc) as He. destruct (eat c s1) as [s2|].
  - destruct He as [-> Hl2]. rewrite Z.eqb_refl. exists (p + 1 + 1). replace (p + 2) with (p + 1 + 1) by lia. by split; [|eapply left_trans].
  - rewrite (proj2 (Z.eqb_neq _ _) He). by exists (p + 1).
Qed.
Lemma read_mod_run m p s md s' : cstr m p s -> parse_mod s = (md, s') -> exists p', read_mod p m = Some ((md, p'), m) /\ left_at m p s p' s'.
Proof.
  intros H Hp. unfold read_mod, parse_mod in *. mstep (ld_hd m p s H). pose proof (eat_hd m p 108 s H ltac:(lia)) as He. destruct (eat 108 s) as [s1|] eqn:E1.
  { destruct He as [-> Hl]. cbn [Z.eqb Pos.eqb]. destruct (read_twice m p s 108 s1 MLongLong MLong ltac:(lia) H E1) as (p'&->&Hl'). exists p'. destruct (eat 108 s1); by simplify_eq. }
  rewrite (proj2 (Z.eqb_neq _ _) He). clear He. pose proof (eat_hd m p 122 s H ltac:(lia)) as He. destruct (eat 122 s) as [s1|] eqn:E2.
  { destruct He as [-> Hl]. simplify_eq. by exists (p + 1). }
  rewrite (proj2 (Z.eqb_neq _ _) He). clear He. pose proof (eat_hd m p 116 s H ltac:(lia)) as He. destruct (eat 116 s) as [s1|] eqn:E3.
  { destruct He as [-> Hl]. simplify_eq. by exists (p + 1). }
  rewrite (proj2 (Z.eqb_neq _ _) He). clear He. pose proof (eat_hd m p 104 s H ltac:(lia)) as He. destruct (eat 104 s) as [s1|] eqn:E4.
  { destruct He as [-> Hl]. cbn [Z.eqb Pos.eqb]. destruct (read_twice m p s 104 s1 MChar MShort ltac:(lia) H E4) as (p'&->&Hl'). exists p'. destruct (eat 104 s1); by simplify_eq. }
  rewrite (proj2 (Z.eqb_neq _ _) He). simplify_eq. by exists p.
Qed.

(** ** Conversions *)

Lemma i32_lt x : i32 x < 2 ^ 31.
Proof. unfold i32, swrap. pose proof (wrap_range 32 x ltac:(lia)) as H. unfold in_w in H. simpl Z.sub. case_match eqn:E; [apply Z.ltb_lt in E|]; lia. Qed.
Lemma small_sw w x : 0 < w -> 0 <= x < 2 ^ (w - 1) -> swrap w x = x.
Proof.
  intros Hw Hx. unfold swrap. assert (2 ^ w = 2 * 2 ^ (w - 1)) by (rewrite <-Z.pow_succ_r by lia; f_equal; lia). rewrite wrap_small by (unfold in_w; lia). by rewrite (proj2 (Z.ltb_lt _ _)) by lia.
Qed.
Lemma swrap_range w x : 0 < w -> - 2 ^ (w - 1) <= swrap w x < 2 ^ (w - 1).
Proof.
  intros Hw. unfold swrap. assert (2 ^ w = 2 * 2 ^ (w - 1)) by (rewrite <-Z.pow_succ_r by lia; f_equal; lia). pose proof (wrap_range w x ltac:(lia)) as H1. unfold in_w in H1.
  case_match eqn:E; [apply Z.ltb_lt in E|apply Z.ltb_ge in E]; lia.
Qed.
Lemma signed_arg_range md a : - 2 ^ 63 <= signed_arg md a < 2 ^ 63.
Proof. destruct md; cbn [signed_arg]; unfold i64, i32, i16, i8; match goal with |- context [swrap ?w ?x] => pose proof (swrap_range w x ltac:(lia)) end; lia. Qed.
Lemma unsigned_arg_range md a : 0 <= unsigned_arg md a < 2 ^ 64.
Proof. destruct md; cbn [unsigned_arg]; unwrap; match goal with |- context [wrap ?w ?x] => pose proof (wrap_range w x ltac:(lia)) as H; unfold in_w in H end; lia. Qed.
Lemma octal_arg_range md a : 0 <= octal_arg md a < 2 ^ 64.
Proof. destruct md; cbn [octal_arg]; unwrap; match goal with |- context [wrap ?w ?x] => pose proof (wrap_range w x ltac:(lia)) as H; unfold in_w in H end; lia. Qed.
Lemma nz_bytes l : nz l -> Forall byte_ok l.
Proof. intros H. apply (Forall_impl _ _ _ H). unfold byte_ok. lia. Qed.

Lemma is_conv_false conv : is_conv conv = false -> ((conv =? 100) || (conv =? 105)) = false /\ ((conv =? 117) || (conv =? 120) || (conv =? 88)) = false /\
  (conv =? 111) = false /\ (conv =? 115) = false /\ (conv =? 99) = false /\ (conv =? 112) = false.
Proof.
  intros H%bool_decide_eq_false. rewrite !orb_false_iff, !Z.eqb_neq. split_and!; intros ->; apply H; set_solver.
Qed.

Section Convert.
Context (buf size T : Z) (sv : Z -> option (list Z)).
Hypothesis (Hsize : 0 < size < 2 ^ 64) (HT : 0 <= T < 2 ^ 31).
#[local] Set Default Proof Using "Type*".
Local Notation outside := (outside buf size T).
Local Notation src_text := (src_text buf size T).

(** The strings the arguments point to are in memory, and not in the buffer. *)
Definition strings_ok (m : mem) : Prop := forall a s, sv a = Some s -> cstr m a s /\ outside a (Z.of_nat (length s) + 1) /\ Z.of_nat (length s) < 2 ^ 30.
(** A conversion done: [body] is the text of [str]. *)
Definition conv_ok (m : mem) (conv : Z) (c : converted) (body : list Z) : Prop :=
  src_text m (default (SBuf (numbuf c)) (str c)) body /\ Forall byte_ok body /\ Z.of_nat (length body) < 2 ^ 30 /\
  (conv = 115 \/ conv = 99 -> strlen_val c = Z.of_nat (length body)) /\ (conv = 112 -> strlen_val c = 0) /\
  (conv <> 115 -> conv <> 99 -> conv <> 112 -> length (numbuf c) = length body).

Lemma number_conv_ok m conv neg uns base dig v ds : 8 <= base -> digits_ok base dig -> 0 <= v < 2 ^ 64 -> number_text dig base v = Some ds ->
  conv <> 115 -> conv <> 99 -> conv <> 112 -> conv_ok m conv (Conv neg uns base ds None 0) ds.
Proof.
  intros Hb Hd Hv E H1 H2 H3. destruct (number_text_run base dig v Hb Hd Hv) as (ds'&E'&Hl&_&Hz&_). rewrite E in E'. simplify_eq.
  split; [simpl; by rewrite take_ge|]. split; [by apply nz_bytes|]. simpl. split; [lia|]. split; [lia|]. split; [lia|done].
Qed.
Lemma convert_run m pos md conv a args c body : strings_ok m -> 0 <= a < 2 ^ 64 -> convert_arg sv md conv a = Some (c, body) ->
  convert buf size pos md conv (a :: args) m = Some ((inr c, args), m) /\ conv_ok m conv c body.
Proof.
  intros Hs Ha. unfold convert_arg, convert. destruct ((conv =? 100) || (conv =? 105)) eqn:Ed.
  { apply orb_true_iff in Ed. rewrite !Z.eqb_eq in Ed. pose proof (signed_arg_range md a) as Hr. intros (t&Et&[= <- <-])%bind_Some. split.
    - cbn [va_arg]. unfold mbind_ at 1, mret at 1. replace (if signed_arg md a <? 0 then _ else _) with (Z.abs (signed_arg md a)); [unfold mbind_, mlift; by rewrite Et|].
      destruct (Z.ltb_spec (signed_arg md a) 0); [|lia]. unwrap. rewrite wrap_small by (unfold in_w; lia). lia.
    - apply (number_conv_ok m conv _ false 10 _ (Z.abs (signed_arg md a)) t ltac:(lia) (dec_digits 10 ltac:(lia))); [lia|done|lia..]. }
  destruct ((conv =? 117) || (conv =? 120) || (conv =? 88)) eqn:Eu.
  { rewrite !orb_true_iff, !Z.eqb_eq in Eu. intros (t&Et&[= <- <-])%bind_Some. split; [unfold mbind_, mlift; simpl; by rewrite Et|].
    apply (number_conv_ok m conv false true 16 _ (unsigned_arg md a) t ltac:(lia) (hex_digits (conv =? 88)) (unsigned_arg_range md a) Et); lia. }
  destruct (Z.eqb_spec conv 111) as [->|].
  { intros (t&Et&[= <- <-])%bind_Some. split; [unfold mbind_, mlift; simpl; by rewrite Et|].
    apply (number_conv_ok m 111 false true 8 _ (octal_arg md a) t ltac:(lia) (dec_digits 8 ltac:(lia)) (octal_arg_range md a) Et); lia. }
  destruct (Z.eqb_spec conv 115) as [->|].
  { cbn [va_arg]. unfold mbind_ at 1, mret at 1. destruct (Z.eqb_spec a 0).
    - intros [= <- <-]. split; [done|]. split; [done|]. split; [repeat (apply Forall_cons_2; [unfold byte_ok; lia|]); apply Forall_nil_2|]. split; [simpl; lia|]. split; [done|lia].
    - intros (s&Es&[= <- <-])%bind_Some. destruct (Hs a s Es) as (Hc&Ho&Hl). split; [|split; [split|]].
      + mstep (strlen_run m a s Hc). unfold i32. by rewrite small_sw by (simpl Z.sub; lia).
      + by destruct Hc as [[? _]%bytes_at_app _].
      + unfold LibcPrintfSpec.outside in *. lia.
      + split; [apply nz_bytes, Hc|]. split; [done|]. split; [done|]. split; lia. }
  destruct (Z.eqb_spec conv 99) as [->|].
  { intros [= <- <-]. split; [done|]. split; [done|]. split; [apply Forall_singleton; apply wrap_range; lia|]. split; [simpl; lia|]. split; [done|]. split; lia. }
  destruct (Z.eqb_spec conv 112) as [->|]; [|done]. intros (t&Et&[= <- <-])%bind_Some. split; [unfold mbind_, mlift; cbn [va_arg mret]; by rewrite Et|].
  assert (Forall byte_ok t /\ (length t <= 16)%nat) as [Ht Hl].
  { destruct (Z.eqb_spec a 0); [simplify_eq; split; [apply Forall_singleton; unfold byte_ok; lia|simpl; lia]|].
    destruct (num_digits_run 16 (zget hex_lower) ltac:(lia) (hex_digits false) 16 a) as (ds&E&Hl&_&Hz&_); [change (16 ^ Z.of_nat 16) with (2 ^ 64); lia|]. rewrite E in Et. simplify_eq/=. rewrite length_reverse.
    split; [by apply Forall_reverse, nz_bytes|done]. }
  split; [simpl; by rewrite take_ge|]. split; [do 2 (apply Forall_cons_2; [unfold byte_ok; lia|]); done|]. simpl. split; [lia|]. split; [lia|]. done.
Qed.
Local Notation put_text := (put_text buf size).
Local Notation roomy := (roomy buf size T).
Local Notation writes := (writes buf size).

Lemma writes_seq (c : M mem Z) k m pos out out' : writes c m pos out -> writes (k (pos + Z.of_nat (length out))) (put_text pos out m) (pos + Z.of_nat (length out)) out' ->
  writes (x <~ c ;; k x) m pos (out ++ out').
Proof using Type.
  intros H1 H2. unfold LibcPrintfSpec.writes in *. mstep H1. rewrite H2, put_text_app, length_app. do 2 f_equal. lia.
Qed.
Lemma writes_prec n tp k m pos out : roomy m -> 0 <= pos -> pos + Z.of_nat n <= T ->
  writes (k (pos + Z.of_nat n) (if 0 <=? tp then Z.max 0 (tp - Z.of_nat n) else tp)) (put_text pos (replicate n 48) m) (pos + Z.of_nat n) out ->
  writes (' (p, t) <~ prec_loop n buf size pos tp ;; k p t) m pos (replicate n 48 ++ out).
Proof.
  intros Hr Hp Hl H. unfold LibcPrintfSpec.writes in *. mstep (prec_loop_run buf size T Hsize HT n m pos tp Hr Hp Hl). cbn beta iota.
  rewrite H, put_text_app, length_app, length_replicate. do 2 f_equal. lia.
Qed.
Lemma prefix_text_bytes f conv c : Forall byte_ok (prefix_text f conv c) /\ (length (prefix_text f conv c) <= 3)%nat.
Proof using Type.
  assert (Forall byte_ok [] /\ Forall byte_ok [45] /\ Forall byte_ok [43] /\ Forall byte_ok [32] /\ Forall byte_ok [48] /\ Forall byte_ok [48; 88] /\ Forall byte_ok [48; 120])
    as (?&?&?&?&?&?&?) by (split_and!; repeat (apply Forall_cons_2; [unfold byte_ok; lia|]); apply Forall_nil_2).
  unfold prefix_text. repeat case_match; (split; [first [done|apply Forall_app; split; done]|simpl; lia]).
Qed.

Lemma src_text_take m s l n : src_text m s l -> src_text m s (take n l).
Proof using Type.
  destruct s as [p|l']; simpl.
  - intros [Hb Ho]. rewrite <-(take_drop n l) in Hb. apply bytes_at_app in Hb as [Hb _]. split; [done|]. unfold LibcPrintfSpec.outside in *. rewrite length_take. lia.
  - intros E. rewrite length_take, E at 1. by rewrite take_take.
Qed.
Lemma prec_part prec (text : bool) numlen pos tp : 0 <= numlen ->
  (if (0 <? prec) && text then prec_loop (Z.to_nat (prec - numlen)) buf size pos tp else return (pos, tp)) = prec_loop (if text then Z.to_nat (prec - numlen) else 0) buf size pos tp.
Proof using Type.
  intros Hn. destruct text; [|by rewrite andb_false_r]. destruct (Z.ltb_spec 0 prec); [done|]. by replace (Z.to_nat (prec - numlen)) with O by lia.
Qed.

(** The pieces in the order they are written. *)
Lemma emit_parts (minus : bool) padc tp prefix n (pz : Z -> Z -> M mem (Z * Z)) s shown m pos : (forall p t, pz p t = prec_loop n buf size p t) -> roomy m -> src_text m s shown -> Forall byte_ok prefix -> Forall byte_ok shown -> byte_ok padc -> 0 <= pos -> 0 <= tp ->
  let out := if minus then prefix ++ replicate n 48 ++ shown ++ replicate (Z.to_nat (tp - Z.of_nat n)) 32 else replicate (Z.to_nat tp) padc ++ prefix ++ replicate n 48 ++ shown in
  pos + Z.of_nat (length out) <= T ->
  writes (p <~ (if minus then return pos else pad_loop (Z.to_nat tp) buf size pos padc) ;;
          p <~ vsnprintf_writes buf size p (SBuf prefix) (Z.of_nat (length prefix)) ;;
          ' (p, t) <~ pz p (if minus then tp else -1) ;;
          p <~ vsnprintf_writes buf size p s (Z.of_nat (length shown)) ;; pad_loop (Z.to_nat t) buf size p 32) m pos out.
Proof.
  intros Hpz Hr Hs Hpb Hsb Hpc Hp Htp out HT'.
  assert (forall q o m', roomy m' /\ src_text m' s shown -> 0 <= q -> q + Z.of_nat (length o) <= T -> Forall byte_ok o -> roomy (put_text q o m') /\ src_text (put_text q o m') s shown) as Hput.
  { intros q o m' [H1 H2] Hq Ho Hb. split; [by apply roomy_put|by apply src_text_put]. }
  assert (Forall byte_ok (replicate n 48)) as Hz by (apply Forall_replicate; unfold byte_ok; lia). assert (byte_ok 32) as H32 by (unfold byte_ok; lia).
  set (k := fun t p => p <~ vsnprintf_writes buf size p s (Z.of_nat (length shown)) ;; pad_loop (Z.to_nat t) buf size p 32).
  assert (forall t m' q, roomy m' /\ src_text m' s shown -> 0 <= q -> q + Z.of_nat (length shown) + Z.of_nat (Z.to_nat t) <= T -> writes (k t q) m' q (shown ++ replicate (Z.to_nat t) 32)) as Hk.
  { intros t m' q [H1 H2] Hq Hl. apply (writes_seq (vsnprintf_writes buf size q s (Z.of_nat (length shown))) (fun p => pad_loop (Z.to_nat t) buf size p 32)).
    - apply (writes_run buf size T Hsize HT); [done..|lia|done].
    - apply (pad_run buf size T Hsize HT); [by apply roomy_put|lia|lia|done]. }
  set (k2 := fun tp0 p => ' (p, t) <~ pz p tp0 ;; k t p).
  assert (forall tp0 m' q, roomy m' /\ src_text m' s shown -> 0 <= q -> let t := if 0 <=? tp0 then Z.max 0 (tp0 - Z.of_nat n) else tp0 in
    q + Z.of_nat (length prefix) + Z.of_nat n + Z.of_nat (length shown) + Z.of_nat (Z.to_nat t) <= T ->
    writes (p <~ vsnprintf_writes buf size q (SBuf prefix) (Z.of_nat (length prefix)) ;; k2 tp0 p) m' q (prefix ++ replicate n 48 ++ shown ++ replicate (Z.to_nat t) 32)) as Hk2.
  { intros tp0 m' q H12 Hq t Hl. apply writes_seq; [apply (writes_run buf size T Hsize HT); [done|apply H12|lia|lia|simpl; by rewrite take_ge]|].
    destruct (Hput q prefix m' H12 Hq ltac:(lia) Hpb) as [H1 H2]. unfold k2. rewrite Hpz. apply (writes_prec n tp0 (fun p t => k t p)); [done|lia|lia|]. apply Hk; [|lia|fold t; lia].
    apply Hput; [done|lia|rewrite length_replicate; lia|done]. }
  unfold out in *. destruct minus.
  - unfold mbind_ at 1, mret at 1. fold (k2 tp). rewrite !length_app, !length_replicate in HT'. pose proof (Hk2 tp m pos (conj Hr Hs) Hp) as H. rewrite (proj2 (Z.leb_le 0 tp)) in H by done.
    replace (Z.to_nat (tp - Z.of_nat n)) with (Z.to_nat (Z.max 0 (tp - Z.of_nat n))) by lia. apply H. lia.
  - rewrite !length_app, !length_replicate in HT'. apply (writes_seq (pad_loop (Z.to_nat tp) buf size pos padc) (fun p => p <~ vsnprintf_writes buf size p (SBuf prefix) (Z.of_nat (length prefix)) ;; k2 (-1) p)).
    + apply (pad_run buf size T Hsize HT); [done|done|lia|done].
    + rewrite length_replicate. pose proof (Hk2 (-1) (put_text pos (replicate (Z.to_nat tp) padc) m) (pos + Z.of_nat (Z.to_nat tp))) as H. simpl in H. rewrite app_nil_r in H. apply H; [|lia|lia].
      apply Hput; [done|done|rewrite length_replicate; lia|by apply Forall_replicate].
Qed.

Lemma layout_emit m pos f width prec conv c body : roomy m -> conv_ok m conv c body -> width < 2 ^ 31 -> 0 <= pos ->
  pos + Z.of_nat (length (layout f width prec conv c body)) <= T -> writes (emit buf size pos f width prec conv c) m pos (layout f width prec conv c body).
Proof.
  intros Hr (Hsrc&Hbytes&Hlen&Hsl&Hpl&Hnl) Hw Hp. unfold layout, emit. destruct (prefix_text_bytes f conv c) as [Hpb Hp3]. set (prefix := prefix_text f conv c) in *.
  set (s := default (SBuf (numbuf c)) (str c)) in *. set (text := negb (conv =? 115) && negb (conv =? 99)) in *.
  set (blen := if conv =? 112 then 0 else Z.of_nat (length body)).
  assert (blen = if text && negb (conv =? 112) then Z.of_nat (length (numbuf c)) else strlen_val c) as <-.
  { unfold blen, text. destruct (Z.eqb_spec conv 112) as [->|]; [by rewrite (Hpl eq_refl)|]. destruct (Z.eqb_spec conv 115); [by rewrite Hsl by lia|]. destruct (Z.eqb_spec conv 99); [by rewrite Hsl by lia|].
    cbn [negb andb]. by rewrite Hnl. }
  assert (0 <= blen < 2 ^ 30) as Hbl by (unfold blen; destruct (conv =? 112); lia).
  replace (i32 (Z.of_nat (length prefix) + blen)) with (Z.of_nat (length prefix) + blen) by (unfold i32; rewrite small_sw by (simpl Z.sub; lia); done).
  set (content := Z.of_nat (length prefix) + blen). rewrite length_replicate. set (shown := if conv =? 112 then [] else _).
  assert (exists n, shown = take n body /\ Z.of_nat (length shown) = if (conv =? 115) && (0 <=? prec) && (prec <? blen) then prec else blen) as (n&Esh&<-).
  { unfold shown, blen. destruct (Z.eqb_spec conv 112) as [->|]; [by exists 0%nat|]. destruct ((conv =? 115) && (0 <=? prec)) eqn:E; [|exists (length body); by rewrite take_ge].
    exists (Z.to_nat prec). split; [done|]. apply andb_true_iff in E as [_ E%Z.leb_le]. cbn [andb]. rewrite length_take. destruct (Z.ltb_spec prec (Z.of_nat (length body))); lia. }
  set (tp := if content <? width then _ else 0). assert (tp = Z.max 0 (width - content)) as -> by (unfold tp; destruct (Z.ltb_spec content width); [|lia]; unfold i32; rewrite small_sw by (simpl Z.sub; lia); lia).
  intros HpT. set (padc := if (0 <=? prec) && text then 32 else if flag_zero f && negb (flag_minus f) then 48 else 32).
  set (nzeros := if text then _ else 0%nat) in *. set (pad := width - content) in *.
  assert (forall x, Z.to_nat (Z.max 0 x) = Z.to_nat x) as Hmax by lia.
  match type of HpT with context [length ?o] => assert (o = if flag_minus f then prefix ++ replicate nzeros 48 ++ shown ++ replicate (Z.to_nat (Z.max 0 pad - Z.of_nat nzeros)) 32
    else replicate (Z.to_nat (Z.max 0 pad)) padc ++ prefix ++ replicate nzeros 48 ++ shown) as Ht end;
    [|rewrite Ht in HpT |- *; apply (emit_parts (flag_minus f) padc (Z.max 0 pad) prefix nzeros
       (fun p t => if (0 <? prec) && text then prec_loop (Z.to_nat (prec - Z.of_nat (length (numbuf c)))) buf size p t else return (p, t)) s shown m pos)]; try done.
  - unfold padc. destruct (flag_minus f); [do 4 f_equal; lia|]. rewrite Hmax. cbn [negb]. by rewrite andb_true_r.
  - intros p t. apply prec_part. lia.
  - rewrite Esh. by apply src_text_take.
  - rewrite Esh. by apply Forall_take.
  - unfold padc, byte_ok. repeat case_match; lia.
  - lia.
Qed.
Lemma layout_bytes f width prec conv c body : Forall byte_ok body -> Forall byte_ok (layout f width prec conv c body).
Proof using Type.
  intros Hb. destruct (prefix_text_bytes f conv c) as [Hp _]. assert (byte_ok 32 /\ byte_ok 48) as [? ?] by (unfold byte_ok; lia). unfold layout.
  assert (forall n (b b' : bool), Forall byte_ok (if b then [] else if b' then take n body else body)) as Hs by (intros n [] []; [apply Forall_nil_2..|by apply Forall_take|done]).
  destruct (flag_minus f); rewrite !Forall_app; (split_and!; [try done..|]); try apply Forall_replicate; try done; try apply Hs; repeat case_match; done.
Qed.
Lemma strings_ok_put m pos out : strings_ok m -> 0 <= pos -> pos + Z.of_nat (length out) <= T -> strings_ok (put_text pos out m).
Proof using Type. intros H Hp Hl a s E. destruct (H a s E) as (Hc&Ho&Hn). split; [|done]. by apply (cstr_put buf size T). Qed.
Local Notation arg_ok := (fun a => 0 <= a < 2 ^ 64).
Lemma parse_num_lt s : forall v v' s', v < 2 ^ 31 -> parse_num v s = (v', s') -> v' < 2 ^ 31.
Proof using Type.
  induction s as [|c s IH]; intros v v' s' Hv H; cbn [parse_num] in H; [by simplify_eq|]. case_match; [|by simplify_eq]. by apply (IH _ _ _ (i32_lt _) H).
Qed.
Lemma parse_width_ok f s args f' w s' args' : parse_width f s args = Some (f', w, s', args') -> Forall arg_ok args -> w < 2 ^ 31 /\ Forall arg_ok args'.
Proof using Type.
  unfold parse_width. destruct (eat 42 s) as [s1|].
  - destruct args as [|a args]; [done|]. intros E [_ Ha]%Forall_cons. case_match; simplify_eq; (split; [apply i32_lt|done]).
  - destruct (parse_num 0 s) as [w1 s1] eqn:E. intros [= <- <- <- <-] Ha. split; [by apply (parse_num_lt s 0 _ _ ltac:(lia) E)|done].
Qed.
Lemma parse_prec_ok s args prec s' args' : parse_prec s args = Some (prec, s', args') -> Forall arg_ok args -> Forall arg_ok args'.
Proof using Type.
  unfold parse_prec. destruct (eat 46 s) as [s1|]; [|by intros [= <- <- <-]]. destruct (eat 42 s1) as [s2|].
  - destruct args as [|a args]; [done|]. by intros [= <- <- <-] [_ ?]%Forall_cons.
  - destruct (parse_num 0 s1). by intros [= <- <- <-].
Qed.

(** The state between two pieces: the rest [s] of the format is at [p]. *)
Definition between (m : mem) (p : Z) (s args : list Z) : Prop :=
  cstr m p s /\ outside p (Z.of_nat (length s) + 1) /\ strings_ok m /\ roomy m /\ Forall arg_ok args.
Lemma between_put m p s args pos out : between m p s args -> 0 <= pos -> pos + Z.of_nat (length out) <= T -> Forall byte_ok out -> between (put_text pos out m) p s args.
Proof using Type.
  intros (Hc&Ho&Hs&Hr&Ha) Hp Hl Hb. split_and!; [by apply (cstr_put buf size T)|done|by apply strings_ok_put|by apply roomy_put|done].
Qed.
Lemma between_left m p s args p' s' args' : between m p s args -> left_at m p s p' s' -> Forall arg_ok args' -> between m p' s' args'.
Proof using Type. intros (Hc&Ho&Hs&Hr&_) (Hc'&?&?) Ha. unfold between, LibcPrintfSpec.outside in *. split_and!; try done. lia. Qed.
(** The specification of a conversion is read. *)
Lemma spec_run m p s f s1 f' w s2 args args1 prec s3 args2 md s4 : between m p s args -> parse_flags flags0 s = (f, s1) -> parse_width f s1 args = Some (f', w, s2, args1) ->
  parse_prec s2 args1 = Some (prec, s3, args2) -> parse_mod s3 = (md, s4) -> exists p4, between m p4 s4 args2 /\ p4 + Z.of_nat (length s4) = p + Z.of_nat (length s) /\ p <= p4 /\
  forall (A : Type) (K : pflags -> Z -> Z -> lmod -> Z -> list Z -> M mem A),
   (' (f, fmt) <~ fuelled (fun k => flags_loop k p flags0) ;; ' (f, width, fmt, ap) <~ read_width fmt f args ;; ' (prec, fmt, ap) <~ read_prec fmt ap ;; ' (m, fmt) <~ read_mod fmt ;; K f width prec m fmt ap) m
   = K f' w prec md p4 args2 m.
Proof using Type.
  intros Hb E1 E2 E3 E4. pose proof Hb as (Hc&_&_&_&Ha). destruct (flags_loop_run s (S (base.size m)) m p flags0 f s1) as (p1&R1&L1); [apply cstr_size in Hc; lia|done..|].
  destruct (read_width_run m p1 f s1 args _ _ _ _ (proj1 L1) E2) as (p2&R2&L2). destruct (read_prec_run m p2 s2 args1 _ _ _ (proj1 L2) E3) as (p3&R3&L3).
  destruct (read_mod_run m p3 s3 _ _ (proj1 L3) E4) as (p4&R4&L4). exists p4. pose proof (left_trans _ _ _ _ _ _ _ L1 (left_trans _ _ _ _ _ _ _ L2 (left_trans _ _ _ _ _ _ _ L3 L4))) as L.
  split; [apply (between_left m p s args); [done..|]; eapply parse_prec_ok, parse_width_ok; done|]. destruct L as (_&?&?). split; [done|]. split; [done|]. intros A K.
  change (fuelled (fun k => flags_loop k p flags0) m = Some ((f, p1), m)) in R1. mstep R1. cbn beta iota. mstep R2. cbn beta iota. mstep R3. cbn beta iota. mstep R4. done.
Qed.
Lemma convert_percent m pos md args : roomy m -> 0 <= pos -> pos + 1 <= T -> convert buf size pos md 37 args m = Some ((inl (pos + 1), args), put_text pos [37] m).
Proof.
  intros Hr Hp Hl. unfold convert. simpl. assert (byte_ok 37) as Hb by (unfold byte_ok; lia). mstep (write_run buf size T Hsize HT m pos 37 Hr Hp Hl Hb). done.
Qed.
Lemma convert_other m pos md conv args : is_conv conv = false -> conv <> 37 -> conv <> 110 -> byte_ok conv -> roomy m -> 0 <= pos -> pos + 2 <= T ->
  convert buf size pos md conv args m = Some ((inl (pos + 2), args), put_text pos [37; conv] m).
Proof.
  intros (E1&E2&E3&E4&E5&E6)%is_conv_false H37 H110 Hc Hr Hp Hl. unfold convert. rewrite E1, E2, E3, E4, E5, E6, !(proj2 (Z.eqb_neq _ _)) by done.
  assert (byte_ok 37) as Hb by (unfold byte_ok; lia). mstep (write_run buf size T Hsize HT m pos 37 Hr Hp ltac:(lia) Hb).
  assert (roomy (put_text pos [37] m)) as Hr' by (apply roomy_put; [done|by apply Forall_singleton]).
  mstep (write_run buf size T Hsize HT _ (pos + Z.of_nat (length [37])) conv Hr' ltac:(simpl; lia) ltac:(simpl; lia) Hc). simpl. unfold mret. change (Z.of_nat 1) with 1. by replace (pos + 1 + 1) with (pos + 2) by lia.
Qed.

Lemma writes_app (r : option (Z * mem)) m pos out out' : r = Some (pos + Z.of_nat (length out) + Z.of_nat (length out'), put_text (pos + Z.of_nat (length out)) out' (put_text pos out m)) ->
  r = Some (pos + Z.of_nat (length (out ++ out')), put_text pos (out ++ out') m).
Proof using Type. intros ->. rewrite put_text_app, length_app. do 2 f_equal. lia. Qed.

Lemma format_run k : forall k' m pos p s args out, render sv k s args = Some out -> (length s < k')%nat -> between m p s args -> 0 <= pos -> pos + Z.of_nat (length out) <= T ->
  writes (format_loop k' buf size pos p args) m pos out.
Proof.
  induction k as [|k IH]; intros k' m pos p s args out Hren Hk Hb Hp Hl; [done|]. destruct k' as [|k']; [lia|]. cbn [render format_loop] in *. pose proof Hb as (Hc&Ho&Hs&Hr&Ha).
  unfold LibcPrintfSpec.writes. mstep (ld_hd m p s Hc). destruct s as [|c s]; cbn [hd]; [simplify_eq; simpl; by rewrite Z.add_0_r|].
  pose proof (left_next _ _ _ _ Hc) as Hl1. apply cstr_cons in Hc as (_&Hc0&_). rewrite (proj2 (Z.eqb_neq c 0)) by lia. simpl in Hk.
  destruct (Z.eqb_spec c 37) as [->|Hne]; cbn [negb] in *.
  2:{ apply fmap_Some in Hren as (out'&Hren&->). simpl in Hl. assert (byte_ok c) as Hbc by (unfold byte_ok; lia). mstep (write_run buf size T Hsize HT m pos c Hr Hp ltac:(lia) Hbc).
      apply (writes_app _ m pos [c]), (IH k' _ _ (p + 1) s args); [done|lia| |simpl; lia|simpl; lia]. apply between_put; [by eapply between_left|done|simpl; lia|by apply Forall_singleton]. }
  destruct (parse_flags flags0 s) as [f s1] eqn:E1. apply bind_Some in Hren as ([[[f' w] s2] args1]&E2&Hren). apply bind_Some in Hren as ([[prec s3] args2]&E3&Hren).
  destruct (parse_mod s3) as [md s4] eqn:E4. destruct (spec_run m (p + 1) s f s1 f' w s2 args args1 prec s3 args2 md s4) as (p4&Hb4&Hlen&Hle&Hrun); [by eapply between_left|done..|].
  pose proof (parse_width_ok _ _ _ _ _ _ _ E2 Ha) as [Hw _]. destruct s4 as [|conv s5]; [done|]. simpl in Hlen. pose proof Hb4 as (Hc4&_&_&_&Ha4). pose proof (left_next _ _ _ _ Hc4) as Hl5.
  rewrite Hrun. mstep (ld_hd m p4 _ Hc4). cbn [hd]. apply cstr_cons in Hc4 as (_&Hconv&_). assert (byte_ok conv) as Hbc by (unfold byte_ok; lia). destruct (is_conv conv) eqn:Eic.
  - destruct args2 as [|a args2]; [done|]. apply bind_Some in Hren as ([c body]&Ec&Hren). apply fmap_Some in Hren as (out'&Hren&->). apply Forall_cons in Ha4 as [Ha4 Ha5]. rewrite length_app in Hl.
    destruct (convert_run m pos md conv a args2 c body Hs Ha4 Ec) as [Rc Hok]. mstep Rc. cbn beta iota. mstep (layout_emit m pos f' w prec conv c body Hr Hok Hw Hp ltac:(lia)).
    apply writes_app, (IH k' _ _ (p4 + 1) s5 args2); [done|lia| |lia|lia]. apply between_put; [by eapply between_left|done|lia|]. apply layout_bytes, Hok.
  - destruct (Z.eqb_spec conv 37) as [->|].
    + apply fmap_Some in Hren as (out'&Hren&->). simpl in Hl. mstep (convert_percent m pos md args2 Hr Hp ltac:(lia)). cbn beta iota.
      apply (writes_app _ m pos [37]), (IH k' _ _ (p4 + 1) s5 args2); [done|lia| |simpl; lia|simpl; lia]. apply between_put; [by eapply between_left|done|simpl; lia|by apply Forall_singleton].
    + destruct (Z.eqb_spec conv 110) as [->|].
      * destruct args2 as [|a args2]; [done|]. destruct a; try done. apply Forall_cons in Ha4 as [_ Ha5]. apply (IH k' m pos (p4 + 1) s5 args2); [done|lia|by eapply between_left|done|done].
      * apply fmap_Some in Hren as (out'&Hren&->). rewrite length_app in Hl. simpl in Hl. mstep (convert_other m pos md conv args2 Eic n n0 Hbc Hr Hp ltac:(lia)). cbn beta iota.
        apply (writes_app _ m pos [37; conv]), (IH k' _ _ (p4 + 1) s5 args2); [done|lia| |simpl; lia|simpl; lia].
        apply between_put; [by eapply between_left|done|simpl; lia|]. repeat (apply Forall_cons_2; [unfold byte_ok in *; lia|]). apply Forall_nil_2.
Qed.
End Convert.

(** ** vsnprintf *)

Lemma vsnprintf_run m buf size fmt s args sv out : mem_ok m -> 0 < size < 2 ^ 64 -> Z.of_nat (length out) < 2 ^ 31 -> let T := Z.of_nat (length out) in
  mapped m buf (Z.min size (T + 1)) -> cstr m fmt s -> outside buf size T fmt (Z.of_nat (length s) + 1) -> strings_ok buf size T sv m ->
  Forall (fun a => 0 <= a < 2 ^ 64) args -> render sv (S (length s)) s args = Some out ->
  exists m', vsnprintf buf size fmt args m = Some (T, m') /\ bytes_at m' buf (take (Z.to_nat (size - 1)) out ++ [0]) /\
  forall a, a < buf \/ buf + Z.min size (T + 1) <= a -> m' !! a = m !! a.
Proof.
  intros Hok Hsz HT T Hmap Hc Ho Hs Ha Hren. unfold vsnprintf. rewrite (proj2 (Z.eqb_neq size 0)) by lia. set (sz := if size =? 2 ^ 64 - 1 then 2 ^ 63 - 1 else size).
  assert (Z.min sz (T + 1) = Z.min size (T + 1) /\ 0 < sz < 2 ^ 64 /\ (T < sz <-> T < size) /\ (sz <= T -> sz = size)) as (Ecap&Hsz'&Hlt&Hge).
  { unfold sz, T. destruct (Z.eqb_spec size (2 ^ 64 - 1)); lia. }
  assert (between buf sz T sv m fmt s args) as Hb.
  { unfold between, roomy, strings_ok, outside in *. rewrite Ecap. done. }
  assert (fuelled (fun k => format_loop k buf sz 0 fmt args) m = Some (T, put_text buf sz 0 out m)) as R.
  { unfold fuelled. change T with (0 + Z.of_nat (length out)) at 1. apply (format_run buf sz T sv Hsz' ltac:(lia) (S (length s)) _ m 0 fmt s); [done|apply cstr_size in Hc; lia|done|lia|lia]. }
  mstep R. clearbody sz. assert (i32 T = T) as -> by (unfold i32; apply small_sw; simpl Z.sub; lia). rewrite (proj2 (Z.ltb_lt 0 sz)) by lia. set (last := Z.min T (sz - 1)).
  assert (exists x, put_text buf sz 0 out m !! (buf + last) = Some x) as [x Hx] by (rewrite put_text_get, decide_False by lia; apply Hmap; lia).
  exists (<[buf + last := 0]> (put_text buf sz 0 out m)). split; [|split].
  - destruct (Z.ltb_spec T sz).
    + replace last with T in * by lia. mstep (st_run _ _ 0 _ Hx). done.
    + replace last with (sz - 1) in * by lia. mstep (st_run _ _ 0 _ Hx). done.
  - assert (length (take (Z.to_nat (size - 1)) out) = Z.to_nat last) as Hl by (rewrite length_take; unfold last; destruct (decide (T < sz)); lia).
    apply bytes_at_app. rewrite Hl, Z2Nat.id by lia. split; [|simpl; by rewrite lookup_insert_eq]. apply bytes_at_intro. intros i c Hi. pose proof (zget_range _ _ _ Hi). rewrite Hl in *.
    rewrite lookup_insert_ne, put_text_get, decide_True by lia. apply zget_Some in Hi as [Hi0 Hi]. apply zget_Some. replace (buf + i - buf - 0) with i by lia. split; [done|].
    rewrite lookup_take in Hi. by case_decide.
  - intros a Hout. rewrite lookup_insert_ne, put_text_get, decide_False by lia. done.
Qed.

(** ** The text is the one ISO C asks for *)






(** ** Printing and reading back *)

Lemma swrap_id w x : 0 < w -> - 2 ^ (w - 1) <= x < 2 ^ (w - 1) -> swrap w x = x.
Proof.
  intros Hw Hx. destruct (decide (0 <= x)); [apply small_sw; lia|]. unfold swrap. assert (2 ^ w = 2 * 2 ^ (w - 1)) by (rewrite <-Z.pow_succ_r by lia; f_equal; lia).
  replace (wrap w x) with (x + 2 ^ w); [rewrite (proj2 (Z.ltb_ge _ _)) by lia; lia|]. 
  unfold wrap. apply (Z.mod_unique _ _ (-1)); lia.
Qed.
Lemma swrap_wrap w x : 0 <= w -> swrap w (wrap w x) = swrap w x.
Proof. intros. unfold swrap. by rewrite wrap_wrap. Qed.
(** The text of a signed number: a sign and the digits of its absolute value. *)
Definition dec_text (v : Z) (t : list Z) : Prop := exists ds, t = (if v <? 0 then [45] else []) ++ ds /\ (length ds <= 32)%nat /\ ds <> [] /\ nz ds /\
  Forall (fun c => is_digit 10 c = true) ds /\ number 10 0 ds = Z.abs v.
Lemma plain_signed sv md a k mods : parse_flags flags0 (mods ++ [100]) = (flags0, mods ++ [100]) -> parse_width flags0 (mods ++ [100]) [a] = Some (flags0, 0, mods ++ [100], [a]) ->
  parse_prec (mods ++ [100]) [a] = Some (-1, mods ++ [100], [a]) -> parse_mod (mods ++ [100]) = (md, [100]) ->
  exists out, render sv (S (S k)) (37 :: mods ++ [100]) [a] = Some out /\ dec_text (signed_arg md a) out.
Proof.
  intros E1 E2 E3 E4. pose proof (signed_arg_range md a). destruct (number_text_run 10 (fun d => Some (48 + d)) (Z.abs (signed_arg md a)) ltac:(lia) (dec_digits 10 ltac:(lia)) ltac:(lia)) as (ds&Et&Hl&Hd&Hz&Hn&Hne).
  exists ((if signed_arg md a <? 0 then [45] else []) ++ ds). split; [|by exists ds]. cbn [render Z.eqb Pos.eqb negb]. rewrite E1, E2. cbn [mbind option_bind]. rewrite E3. cbn [mbind option_bind]. rewrite E4.
  change (is_conv 100) with true. cbn iota. unfold convert_arg. cbn [Z.eqb Pos.eqb orb]. rewrite Et. cbn [mbind option_bind render fmap option_fmap option_map]. rewrite app_nil_r. f_equal.
  unfold layout, prefix_text. cbn [Z.eqb Pos.eqb negb andb flag_minus flag_plus flag_space flag_hash flags0 negative numbuf is_unsigned Z.leb Z.compare]. rewrite app_nil_r.
  replace (Z.to_nat (-1 - Z.of_nat (length ds))) with O by lia. by destruct (signed_arg md a <? 0); simpl; replace (Z.to_nat _) with O by lia.
Qed.

(** The memory for a call: the format [s], and a buffer of [size] bytes away from it. *)
Definition print_room (m : mem) (buf size fmt : Z) (s : list Z) : Prop :=
  mem_ok m /\ 34 <= size < 2 ^ 63 /\ mapped m buf size /\ cstr m fmt s /\ (fmt + Z.of_nat (length s) + 1 <= buf \/ buf + size <= fmt).
Lemma print_signed m buf size fmt mods md v : print_room m buf size fmt (37 :: mods ++ [100]) -> mods = [] /\ md = MNone \/ mods = [108] /\ md = MLong ->
  exists t m', snprintf buf size fmt [u64 v] m = Some (Z.of_nat (length t), m') /\ dec_text (signed_arg md (u64 v)) t /\ cstr m' buf t /\ forall a, a < buf \/ buf + size <= a -> m' !! a = m !! a.
Proof.
  intros (Hok&Hsz&Hm&Hc&Ho) Hmods. destruct (plain_signed (fun _ => None) md (u64 v) (length (mods ++ [100])) mods) as (t&Hren&Ht); [by destruct Hmods as [[-> ->]|[-> ->]]..|].
  pose proof Ht as (ds&Et&Hl&_&Hz&_). assert ((length t <= 33)%nat) as Hlt by (rewrite Et, length_app; destruct (_ <? 0); simpl; lia).
  destruct (vsnprintf_run m buf size fmt (37 :: mods ++ [100]) [u64 v] (fun _ => None) t Hok ltac:(lia) ltac:(lia)) as (m'&R&Hb&Hout); [| done | | done | | done |].
  - intros a Ha. apply Hm. lia.
  - unfold outside. lia.
  - apply Forall_singleton. apply wrap_range. lia.
  - rewrite take_ge in Hb by lia. exists t, m'. split; [exact R|]. split; [done|]. split; [|intros a Ha; apply Hout; lia]. split; [done|]. rewrite Et. apply Forall_app. split; [|done].
    destruct (_ <? 0); [apply Forall_singleton; lia|apply Forall_nil_2].
Qed.

(** Numbers survive printing: what [snprintf] writes for "%ld" is read back by [strtol] as the same number, for every
    [long], and [strtol] stops at the end of the text. *)
Theorem snprintf_strtol_roundtrip m buf size fmt v : print_room m buf size fmt [37; 108; 100] -> - 2 ^ 63 <= v < 2 ^ 63 ->
  exists n m', snprintf buf size fmt [u64 v] m = Some (n, m') /\ strtol buf 10 m' = Some ((v, buf + n), m').
Proof.
  intros Hp Hv. destruct (print_signed m buf size fmt [108] MLong v Hp ltac:(auto)) as (t&m'&R&(ds&->&_&Hne&_&Hd&Hn)&Hc&_). exists (Z.of_nat (length ((if signed_arg MLong (u64 v) <? 0 then [45] else []) ++ ds))), m'. split; [done|].
  cbn [signed_arg] in *. unfold i64 in *. unwrap. rewrite swrap_wrap, swrap_id in * by (simpl; lia).
  rewrite (strtol_run m' buf [] (if v <? 0 then [45] else []) (v <? 0) ds [] 10); try done; [|by rewrite app_nil_r|by destruct (v <? 0)].
  rewrite Hn, length_app. do 3 f_equal. unfold clamp, LONG_MIN, LONG_MAX. destruct (Z.ltb_spec v 0); lia.
Qed.

(** ** sscanf *)

Lemma skip_blanks_run m s c t : cstr m s (c :: t) -> is_blank c = false -> fuelled (fun k => skip_blanks k s) m = Some (s, m).
Proof. intros (Hc&_&_)%cstr_cons Hb. unfold fuelled. cbn [skip_blanks]. rd Hc. by rewrite Hb. Qed.
Lemma scan_digit_10 c : is_digit 10 c = true -> scan_digit c = Some (digit c) /\ is_blank c = false.
Proof.
  intros H. pose proof (digit_plain 10 c H) as (Hw&_&_). apply is_digit_spec in H as [E Hd]. split.
  - revert E Hd. unfold scan_digit, digit_val. destruct ((48 <=? i8 c) && (i8 c <=? 57)); [done|]. intros E Hd. exfalso.
    revert E. destruct ((97 <=? i8 c) && (i8 c <=? 122)) eqn:E1; [|destruct ((65 <=? i8 c) && (i8 c <=? 90)) eqn:E2; [|done]]; intros [= E]; rewrite ?andb_true_iff, ?Z.leb_le in *; lia.
  - unfold is_ws in Hw. unfold is_blank. destruct (c =? 32), (c =? 9), (c =? 10); done.
Qed.
(** The arithmetic of [int] is arithmetic modulo 2^32. *)
Lemma i32_cong x y : u32 x = u32 y -> i32 x = i32 y.
Proof. unfold u32, i32, swrap. by intros ->. Qed.
Lemma u32_i32' x : u32 (i32 x) = u32 x.
Proof. pose proof (u32_i32 x 0) as H. by rewrite !Z.add_0_r in H. Qed.
Lemma i32_step x b d : i32 (i32 x * b + d) = i32 (x * b + d).
Proof.
  apply i32_cong. unfold u32, wrap. rewrite Z.add_mod, Z.mul_mod by lia. fold (wrap 32 (i32 x)). change (wrap 32 (i32 x)) with (u32 (i32 x)). rewrite u32_i32'. unfold u32, wrap.
  rewrite <-Z.mul_mod, <-Z.add_mod by lia. done.
Qed.
Lemma i32_neg x : i32 (- i32 x) = i32 (- x).
Proof. pose proof (i32_step x (-1) 0) as H. by rewrite !Z.add_0_r, <-!Z.opp_eq_mul_m1 in H. Qed.
Lemma i32_number ds : forall x, i32 (number 10 (i32 x) ds) = i32 (number 10 x ds).
Proof.
  induction ds as [|c ds IH]; intros x; cbn [number]; [unfold i32; unfold swrap at 2; apply i32_cong, u32_i32'|]. by rewrite <-IH, i32_step, IH.
Qed.
Lemma scan_loop_run ds : forall k m s x, (length ds < k)%nat -> cstr m s ds -> Forall (fun c => is_digit 10 c = true) ds ->
  scan_loop k i32 s 10 (i32 x) m = Some ((i32 (number 10 x ds), s + Z.of_nat (length ds)), m).
Proof.
  induction ds as [|c ds IH]; intros [|k] m s x Hk H Hd; simpl in Hk; try lia; cbn [scan_loop number].
  - cz H. simpl. by rewrite Z.add_0_r.
  - apply Forall_cons in Hd as [Hc Hd]. destruct (scan_digit_10 c Hc) as [E _]. apply is_digit_spec in Hc as [_ Hc]. cs H. rewrite E, (proj2 (Z.leb_gt 10 _)) by lia.
    rewrite i32_step, IH by (done || lia). do 3 f_equal. simpl. lia.
Qed.
Lemma st32_run m p v : mapped m p 4 -> exists m', st32 p v m = Some (tt, m') /\ bytes_at m' p (le_enc 4 (u32 v)) /\ forall a, a < p \/ p + 4 <= a -> m' !! a = m !! a.
Proof.
  intros Hm. destruct (Hm p ltac:(lia)) as [x0 H0], (Hm (p + 1) ltac:(lia)) as [x1 H1], (Hm (p + 2) ltac:(lia)) as [x2 H2], (Hm (p + 3) ltac:(lia)) as [x3 H3].
  unfold st32. mstep (st_run m p (u32 v) _ H0). set (m1 := <[p := _]> m). assert (m1 !! (p + 1) = Some x1) as H1' by (unfold m1; by rewrite lookup_insert_ne by lia).
  mstep (st_run m1 _ (u32 v / 2 ^ 8) _ H1'). set (m2 := <[p + 1 := _]> m1). assert (m2 !! (p + 2) = Some x2) as H2' by (unfold m2, m1; by rewrite !lookup_insert_ne by lia).
  mstep (st_run m2 _ (u32 v / 2 ^ 16) _ H2'). set (m3 := <[p + 2 := _]> m2). assert (m3 !! (p + 3) = Some x3) as H3' by (unfold m3, m2, m1; by rewrite !lookup_insert_ne by lia).
  rewrite (st_run m3 _ (u32 v / 2 ^ 24) _ H3'). unfold m3, m2, m1.
  eexists. split; [done|]. split; [|intros a Ha; by rewrite !lookup_insert_ne by lia].
  assert (forall a, u32 v / 256 ^ a mod 256 = u8 (u32 v / 256 ^ a)) as Hb by done. cbn [le_enc bytes_at Z.to_nat]. rewrite !Z.div_div by lia.
  replace (p + 1 + 1) with (p + 2) by lia. replace (p + 2 + 1) with (p + 3) by lia.
  rewrite lookup_insert_eq, !(lookup_insert_ne _ _ p) by lia. rewrite lookup_insert_eq, !(lookup_insert_ne _ _ (p + 1)), lookup_insert_eq, !(lookup_insert_ne _ _ (p + 2)), lookup_insert_eq by lia.
  done.
Qed.

Lemma parse_int_run m s neg ds : ds <> [] -> cstr m s ((if neg : bool then [45] else []) ++ ds) -> Forall (fun c => is_digit 10 c = true) ds ->
  parse_int s 10 m = Some ((i32 (if neg then - number 10 0 ds else number 10 0 ds), s + Z.of_nat (length ((if neg then [45] else []) ++ ds))), m) /\
  fuelled (fun k => skip_blanks k s) m = Some (s, m).
Proof.
  intros Hne H Hd. destruct ds as [|c ds]; [done|]. pose proof Hd as [Hc _]%Forall_cons. destruct (scan_digit_10 c Hc) as [_ Hcb].
  assert (fuelled (fun k => skip_blanks k s) m = Some (s, m)) as E0.
  { destruct neg; [by apply (skip_blanks_run m s 45 (c :: ds))|by apply (skip_blanks_run m s c ds)]. }
  split; [|done]. unfold parse_int. mstep E0. set (sg := if neg then [45] else [] : list Z) in *.
  assert (sign_of sg = Some neg) as Hs by (by destruct neg). mstep (read_sign_run m s sg neg c ds 10 H Hs Hc). cbn beta iota. apply cstr_app in H.
  assert (fuelled (fun k => scan_loop k i32 (s + Z.of_nat (length sg)) 10 0) m = Some ((i32 (number 10 0 (c :: ds)), s + Z.of_nat (length sg) + Z.of_nat (length (c :: ds))), m)) as E1.
  { apply (scan_loop_run (c :: ds) _ m _ 0); [apply cstr_size in H; lia|done..]. }
  mstep E1. cbn beta iota. rewrite length_app, Nat2Z.inj_add, Z.add_assoc. destruct neg; [by rewrite i32_neg|done].
Qed.
Lemma sscanf_d m s fmt p neg ds : ds <> [] -> cstr m s ((if neg : bool then [45] else []) ++ ds) -> Forall (fun c => is_digit 10 c = true) ds -> cstr m fmt [37; 100] -> mapped m p 4 ->
  p + 4 <= fmt \/ fmt + 3 <= p -> exists m', sscanf s fmt [p] m = Some (1, m') /\ bytes_at m' p (le_enc 4 (u32 (if neg then - number 10 0 ds else number 10 0 ds))) /\
  forall a, a < p \/ p + 4 <= a -> m' !! a = m !! a.
Proof.
  intros Hne H Hd Hf Hm Hap. destruct (parse_int_run m s neg ds Hne H Hd) as [E1 E0]. set (v := if neg then - number 10 0 ds else number 10 0 ds) in *.
  destruct (st32_run m p (i32 v) Hm) as (m'&E2&Hb&Hout). exists m'. split; [|split; [by rewrite u32_i32' in Hb|done]]. pose proof (cstr_size _ _ _ Hf) as Hsz. simpl in Hsz.
  apply cstr_cons in Hf as (F0&_&Hf). apply cstr_cons in Hf as (F1&_&F2). apply cstr_nil in F2.
  assert (exists c, m !! s = Some c /\ c <> 0) as (c&Hc&Hc0).
  { destruct neg; [apply cstr_cons in H as (?&?&_); exists 45; by split|]. destruct ds as [|c ds]; [done|]. apply cstr_cons in H as (?&?&_). exists c. split; [done|lia]. }
  unfold sscanf, fuelled. destruct (size m) as [|k] eqn:Ek; [lia|]. cbn [sscanf_loop]. rd F0. cbn [Z.eqb Pos.eqb]. rd Hc. rewrite (proj2 (Z.eqb_neq c 0)) by done.
  change (is_blank 37) with false. cbn iota. cbn [negb]. rd F1. change (100 =? 42) with false. cbn zeta iota.
  assert (fuelled (fun k => num_loop k (fmt + 1) 0) m = Some ((0, fmt + 1), m)) as E3 by (unfold fuelled; cbn [num_loop]; rd F1; done). mstep E3. cbn beta iota. rd F1.
  change (100 =? 108) with false. cbn iota. unfold mbind_ at 1, mret at 1. rd F1.
  assert (scan_conv s (fmt + 1) 100 false 0 [p] 0 m = Some (Some (s + Z.of_nat (length ((if neg then [45] else []) ++ ds)), [], 1), m')) as E4.
  { unfold scan_conv. cbn [Z.eqb Pos.eqb orb]. mstep E0. unfold scan_number. unfold mbind_ at 1 2. rewrite E1. cbn [va_arg]. unfold mbind_, mret. by rewrite E2. }
  mstep E4. cbn beta iota. assert (m' !! (fmt + 1 + 1) = Some 0) as F3 by (rewrite Hout by lia; done). rd F3. done.
Qed.

(** An [int] that [snprintf] printed with "%d" is read back by [sscanf] with "%d": one item is assigned, the four bytes
    at its destination are the number, and no other byte changes. *)
Theorem snprintf_sscanf_roundtrip m buf size fmt p v : print_room m buf size fmt [37; 100] -> - 2 ^ 31 <= v < 2 ^ 31 -> mapped m p 4 ->
  p + 4 <= fmt \/ fmt + 3 <= p -> p + 4 <= buf \/ buf + size <= p ->
  exists n m1 m2, snprintf buf size fmt [u64 v] m = Some (n, m1) /\ sscanf buf fmt [p] m1 = Some (1, m2) /\ bytes_at m2 p (le_enc 4 (u32 v)) /\
  forall a, a < p \/ p + 4 <= a -> m2 !! a = m1 !! a.
Proof.
  intros Hp Hv Hm Ha1 Ha2. pose proof Hp as (_&_&_&Hf&Ho). destruct (print_signed m buf size fmt [] MNone v Hp ltac:(auto)) as (t&m1&R&(ds&->&_&Hne&_&Hd&Hn)&Hc&Hout).
  assert (signed_arg MNone (u64 v) = v) as Ev.
  { cbn [signed_arg]. rewrite <-(swrap_id 32 v) at 2 by (simpl; lia). apply i32_cong. unfold u32, u64, wrap. change (2 ^ 64) with (2 ^ 32 * 2 ^ 32). rewrite Z.rem_mul_r by lia.
    rewrite Z.mul_comm, Z_mod_plus_full. apply Z.mod_mod. lia. }
  rewrite Ev in *. destruct (sscanf_d m1 buf fmt p (v <? 0) ds Hne Hc Hd) as (m2&S&Hb&Hk).
  - destruct Hf as [Hf Hz]. split; [|done]. apply (bytes_at_ext m); [done|]. simpl. intros a Ha. apply Hout. simpl in Ho. lia.
  - intros a Ha. rewrite Hout by lia. by apply Hm.
  - lia.
  - eexists _, m1, m2. split; [exact R|]. split; [done|]. split; [|done]. rewrite Hn in Hb. replace (if v <? 0 then - Z.abs v else Z.abs v) with v in Hb by (destruct (Z.ltb_spec v 0); lia). done.
Qed.

(** ** What the conversions do not do *)

(** "%u" prints hexadecimal: it is "%x". *)
Lemma percent_u_is_hex buf size pos md ap : convert buf size pos md 117 ap = convert buf size pos md 120 ap.
Proof. done. Qed.
(** "%p" prints "0x" and no digit of the pointer. *)
Lemma percent_p_no_digits sv a : 0 <= a < 2 ^ 64 -> render sv 3 [37; 112] [a] = Some [48; 120].
Proof.
  intros Ha. assert (exists t, convert_arg sv MNone 112 a = Some (Conv false false 10 ([48; 120] ++ t) None 0, [48; 120] ++ t)) as [t Et].
  { unfold convert_arg. cbn [Z.eqb Pos.eqb orb]. destruct (a =? 0); [by eexists|].
    destruct (num_digits_run 16 (zget hex_lower) ltac:(lia) (hex_digits false) 16 a) as (ds&->&_); [change (16 ^ Z.of_nat 16) with (2 ^ 64); lia|by eexists]. }
  transitivity ('(c, body) ← convert_arg sv MNone 112 a; app (layout flags0 0 (-1) 112 c body) <$> Some []); [done|]. rewrite Et. done.
Qed.
(** Where the program leaves the standard: "%05d" of -42, "%#x" of 255, "%.0d" of 0, "%5.3d" of 7, "%tx" of 2^32 + 1, "%+s". *)
Lemma printf_deviations : let out s args := render (fun _ => Some [97]) 8 (37 :: s) args in
  out [48; 53; 100] [u64 (-42)] = Some [48; 48; 45; 52; 50] /\ out [35; 120] [255] = Some [102; 102] /\ out [46; 48; 100] [0] = Some [48] /\
  out [53; 46; 51; 100] [7] = Some [32; 32; 32; 32; 48; 48; 55] /\ out [116; 120] [2 ^ 32 + 1] = Some [49] /\ out [43; 115] [1] = Some [43; 97].
Proof. by vm_compute. Qed.
(** A call with size 0 returns 0 and not the length of the text. *)
Lemma snprintf_size_0 buf fmt ap m : snprintf buf 0 fmt ap m = Some (0, m).
Proof. done. Qed.

(** ** Concrete calls *)

(** "%ld" and "%d" at 4096, 34 bytes from 4100 on, an [int] at 4134. *)
Definition mem_ld : mem := mem_of 4096 ([37; 108; 100; 0] ++ replicate 34 0).
Definition mem_d : mem := mem_of 4096 ([37; 100; 0; 0] ++ replicate 38 0).
Lemma snprintf_strtol_roundtrip_witness : exists n m', snprintf 4100 34 4096 [u64 (-42)] mem_ld = Some (n, m') /\ strtol 4100 10 m' = Some ((-42, 4100 + n), m').
Proof.
  apply (snprintf_strtol_roundtrip mem_ld 4100 34 4096 (-42)); [|lia]. split; [apply map_Forall_to_list; vm_compute; repeat constructor; discriminate|]. split; [lia|].
  split; [apply (bytes_at_mapped mem_ld 4100 (replicate 34 0)); vm_compute; repeat split; reflexivity|]. split; [split; [vm_compute; repeat split; reflexivity|repeat constructor; lia]|]. left. simpl. lia.
Defined.
Lemma snprintf_sscanf_roundtrip_witness : exists n m1 m2, snprintf 4100 34 4096 [u64 (-42)] mem_d = Some (n, m1) /\ sscanf 4100 4096 [4134] m1 = Some (1, m2) /\ bytes_at m2 4134 (le_enc 4 (u32 (-42))).
Proof.
  destruct (snprintf_sscanf_roundtrip mem_d 4100 34 4096 4134 (-42)) as (n&m1&m2&R&S&B&_); [|lia| |lia|lia|exists n, m1, m2; split; [exact R|]; split; [exact S|exact B]].
  - split; [apply map_Forall_to_list; vm_compute; repeat constructor; discriminate|]. split; [lia|].
    split; [apply (bytes_at_mapped mem_d 4100 (replicate 34 0)); vm_compute; repeat split; reflexivity|]. split; [split; [vm_compute; repeat split; reflexivity|repeat constructor; lia]|]. left. simpl. lia.
  - apply (bytes_at_mapped mem_d 4134 (replicate 4 0)). vm_compute. repeat split; reflexivity.
Defined.
