(* ===== verification/Stdio.v ===== *)
(** * C library: streams (src/libc/userspace/stdio.c, src/libc/include/stdio.h)

    A [FILE] with its buffer, over the system calls and the heap, which are the interface [StdioEnv].  The bytes of a buffer
    are kept with the stream: no two streams share one.  Strings and the data of fread and fwrite are given as their bytes,
    and the text of the printf family as vsnprintf leaves it (LibcPrintf.v). *)

From stdpp Require Import base numbers gmap list options.
From S2P Require Import Prelude.

Definition FBUF_SIZE : Z := 4096.
Definition EOF : Z := -1.
Definition SEEK_SET : Z := 0.
Definition SEEK_CUR : Z := 1.
Definition SEEK_END : Z := 2.
Definition IONBF : Z := 0.
Definition IOLBF : Z := 1.
Definition IOFBF : Z := 2.
Definition O_RDONLY : Z := 0.
Definition O_WRONLY : Z := 1.
Definition O_RDWR : Z := 2.
Definition O_ACCMODE : Z := 3.
Definition O_CREAT : Z := 0x40.
Definition O_TRUNC : Z := 0x200.
Definition O_APPEND : Z := 0x400.

Class StdioEnv (W : Type) := {
  so_open : list Z -> Z -> M W Z;
  so_close : Z -> M W Z;
  so_read : Z -> Z -> M W (Z * list Z);          (* fd, size: what it returns, the bytes it stored *)
  so_write : Z -> list Z -> M W Z;
  so_lseek : Z -> Z -> Z -> M W Z;
  so_malloc : Z -> M W (option (Z * list Z));    (* the block and what is in it *)
  so_free : Z -> M W unit
}.

(** [buf]: the address of the buffer and its bytes. *)
Record FILE := File' {
  fd : Z; eof_flag : Z; error_flag : Z; buf : option (Z * list Z); buf_size : Z; buf_pos : Z; buf_len : Z; buf_mode : Z; mode_flags : Z
}.
Definition set_flags e r f := File' (fd f) e r (buf f) (buf_size f) (buf_pos f) (buf_len f) (buf_mode f) (mode_flags f).
Definition set_buf b n f := File' (fd f) (eof_flag f) (error_flag f) b n (buf_pos f) (buf_len f) (buf_mode f) (mode_flags f).
Definition set_pos p l f := File' (fd f) (eof_flag f) (error_flag f) (buf f) (buf_size f) p l (buf_mode f) (mode_flags f).
Definition set_mode m f := File' (fd f) (eof_flag f) (error_flag f) (buf f) (buf_size f) (buf_pos f) (buf_len f) m (mode_flags f).
Definition writable (f : FILE) : bool := negb (Z.land (mode_flags f) (Z.lor (Z.lor O_WRONLY O_RDWR) O_APPEND) =? 0).

Section Stdio.
Context {W : Type} `{!StdioEnv W}.

(** A stream and the system. *)
Record strm := Strm { s_file : FILE; s_env : W }.
Definition upd (g : FILE -> FILE) : M strm unit := mmodify (fun s => Strm (g (s_file s)) (s_env s)).
Definition sys {A} (m : M W A) : M strm A := fun s => match m (s_env s) with Some (a, w) => Some (a, Strm (s_file s) w) | None => None end.
Definition file_ : M strm FILE := mgets s_file.
Definition is_null (f : FILE) : bool := match buf f with Some _ => false | None => true end.

(** ** Buffers *)

Definition buf_init : M strm unit :=
  f <~ file_ ;;
  if negb (is_null f) then return tt else
  b <~ sys (so_malloc FBUF_SIZE) ;;
  match b with None => upd (set_buf None (buf_size f)) | Some blk => upd (fun f => set_pos 0 0 (set_buf (Some blk) FBUF_SIZE f)) end.
Definition buf_free : M strm unit :=
  f <~ file_ ;;
  match buf f with None => return tt | Some (a, _) => sys (so_free a) ;;; upd (set_buf None 0) end.
(** [f->buf[i]], [f->buf[i] = c] *)
Definition buf_get (i : Z) : M strm Z := f <~ file_ ;; match buf f with None => mfault | Some (_, b) => mlift (zget b i) end.
Definition buf_put (i c : Z) : M strm unit :=
  f <~ file_ ;; match buf f with None => mfault | Some (a, b) => b' <~ mlift (zset b i c) ;; upd (set_buf (Some (a, b')) (buf_size f)) end.

(** [while (written < total)]; [n] bounds the calls: each writes something or the loop ends. *)
Fixpoint drain_loop (n : nat) (data : list Z) (written total : Z) : M strm Z :=
  if written <? total then
    match n with
    | O => mfault
    | S n' =>
      f <~ file_ ;; rest <~ mlift (slice written (total - written) data) ;;
      k <~ sys (so_write (fd f) rest) ;;
      if k <=? 0 then upd (fun f => set_flags (eof_flag f) 1 f) ;;; return (-1) else drain_loop n' data (u64 (written + k)) total
    end
  else upd (fun f => set_pos 0 (buf_len f) f) ;;; return 0.
Definition buf_flush : M strm Z :=
  f <~ file_ ;;
  match buf f with
  | None => return 0
  | Some (_, b) => if buf_pos f =? 0 then return 0 else drain_loop (Z.to_nat (buf_pos f)) b 0 (buf_pos f)
  end.
Definition buf_refill : M strm Z :=
  f <~ file_ ;;
  match buf f with
  | None => return EOF
  | Some (a, b) =>
    '(n, bytes) <~ sys (so_read (fd f) (buf_size f)) ;;
    b' <~ mlift (splice 0 bytes b) ;; upd (set_buf (Some (a, b')) (buf_size f)) ;;;
    if n <=? 0 then upd (set_flags (if n =? 0 then 1 else 0) (if n <? 0 then 1 else 0)) ;;; return EOF else
    upd (set_pos 1 n) ;;; buf_get 0
  end.

(** ** Reading and writing *)

(** [done] bytes are in [dst], last first. *)
Fixpoint fread_loop (n : nat) (dst : list Z) : M strm (list Z) :=
  match n with
  | O => return dst
  | S n' =>
    f <~ file_ ;;
    more <~ (if buf_len f <=? buf_pos f then
               if negb (eof_flag f =? 0) then return false else c <~ buf_refill ;; return (negb (c =? EOF))
             else return true) ;;
    if negb more then return dst else
    f <~ file_ ;; c <~ buf_get (buf_pos f) ;; upd (fun f => set_pos (u64 (buf_pos f + 1)) (buf_len f) f) ;;; fread_loop n' (c :: dst)
  end.
(** The result and the bytes stored. *)
Definition fread (size nmemb : Z) : M strm (Z * list Z) :=
  if (size =? 0) || (nmemb =? 0) then return (0, []) else
  dst <~ fread_loop (Z.to_nat (u64 (size * nmemb))) [] ;; return (Z.of_nat (length dst) / size, rev dst).

(** [while (done < total)] of an unbuffered stream; [n] bounds the calls. *)
Fixpoint write_direct (n : nat) (src : list Z) (done total : Z) : M strm Z :=
  if done <? total then
    match n with
    | O => mfault
    | S n' =>
      f <~ file_ ;; rest <~ mlift (slice done (total - done) src) ;; k <~ sys (so_write (fd f) rest) ;;
      if k <? 0 then upd (fun f => set_flags (eof_flag f) 1 f) ;;; return done else write_direct n' src (u64 (done + k)) total
    end
  else return done.
Definition store_byte (c : Z) : M strm unit :=
  f <~ file_ ;; buf_put (buf_pos f) c ;;; upd (fun f => set_pos (u64 (buf_pos f + 1)) (buf_len f) f).
Fixpoint write_buffered (src : list Z) (done : Z) : M strm Z :=
  match src with
  | [] => return done
  | c :: rest =>
    f <~ file_ ;;
    ok <~ (if buf_size f <=? buf_pos f then r <~ buf_flush ;; return (r =? 0) else return true) ;;
    if negb ok then return done else store_byte c ;;; write_buffered rest (done + 1)
  end.
(** [src]: the bytes at [ptr]. *)
Definition fwrite (src : list Z) (size nmemb : Z) : M strm Z :=
  if (size =? 0) || (nmemb =? 0) then return 0 else
  let total := u64 (size * nmemb) in
  f <~ file_ ;;
  done <~ (if (buf_mode f =? IONBF) || is_null f then write_direct (Z.to_nat total) src 0 total
           else src <~ mlift (slice 0 total src) ;; buf_init ;;; write_buffered src 0) ;;
  return (done / size).

Definition fputc (c : Z) : M strm Z :=
  let ch := u8 c in
  f <~ file_ ;;
  if (buf_mode f =? IONBF) || is_null f then n <~ sys (so_write (fd f) [ch]) ;; return (if n =? 1 then c else EOF) else
  buf_init ;;;
  f <~ file_ ;;
  ok <~ (if buf_size f <=? buf_pos f then r <~ buf_flush ;; return (r =? 0) else return true) ;;
  if negb ok then return EOF else
  store_byte ch ;;;
  f <~ file_ ;; (if (buf_mode f =? IOLBF) && (ch =? 10) then buf_flush ;;; return tt else return tt) ;;; return c.
(** The characters of a string are signed. *)
Fixpoint fputs (s : list Z) : M strm Z :=
  match s with [] => return 0 | c :: rest => r <~ fputc (i8 c) ;; if r =? EOF then return EOF else fputs rest end.
Definition puts (s : list Z) : M strm Z :=
  r <~ fputs s ;; if r =? EOF then return EOF else r <~ fputc 10 ;; if r =? EOF then return EOF else return 0.

Definition fgetc : M strm Z :=
  f <~ file_ ;;
  if negb (buf_mode f =? IONBF) && negb (is_null f) then
    if buf_len f <=? buf_pos f then if negb (eof_flag f =? 0) then return EOF else buf_refill else
    c <~ buf_get (buf_pos f) ;; upd (fun f => set_pos (u64 (buf_pos f + 1)) (buf_len f) f) ;;; return c
  else
    '(n, bytes) <~ sys (so_read (fd f) 1) ;;
    if n <=? 0 then upd (fun f => set_flags (if n =? 0 then 1 else 0) (error_flag f) f) ;;; return EOF else mlift (zget bytes 0).
(** The characters stored, without the terminating 0. *)
Fixpoint fgets_loop (n : nat) : M strm (list Z) :=
  match n with
  | O => return []
  | S n' => c <~ fgetc ;; if c =? EOF then return [] else if c =? 10 then return [c] else rest <~ fgets_loop n' ;; return (c :: rest)
  end.
(** [None]: NULL. *)
Definition fgets (size : Z) : M strm (option (list Z)) :=
  if size <=? 0 then return None else
  l <~ fgets_loop (Z.to_nat (size - 1)) ;; return (match l with [] => None | _ => Some l end).
Definition ungetc (c : Z) : M strm Z :=
  if c =? EOF then return EOF else
  f <~ file_ ;;
  if negb (is_null f) && (0 <? buf_pos f) then
    upd (set_pos (buf_pos f - 1) (buf_len f)) ;;; buf_put (buf_pos f - 1) (u8 c) ;;; upd (fun f => set_flags 0 (error_flag f) f) ;;; return c
  else return EOF.

(** ** Positions, buffering, state *)

Definition fseek (offset whence : Z) : M strm Z :=
  f <~ file_ ;; (if writable f then buf_flush ;;; return tt else return tt) ;;;
  ret <~ sys (so_lseek (fd f) offset whence) ;;
  if ret <? 0 then return (-1) else upd (fun f => set_flags 0 (error_flag f) (set_pos 0 0 f)) ;;; return 0.
Definition ftell : M strm Z :=
  f <~ file_ ;; ret <~ sys (so_lseek (fd f) 0 SEEK_CUR) ;;
  if ret <? 0 then return (-1) else
  f <~ file_ ;; return (if (0 <? buf_len f) && (buf_pos f <=? buf_len f) then ret - i64 (buf_len f - buf_pos f) else ret).
Definition rewind : M strm unit := fseek 0 SEEK_SET ;;; return tt.
Definition fflush : M strm Z := buf_flush.
(** [ubuf]: the buffer given, with its bytes. *)
Definition setvbuf (ubuf : option (Z * list Z)) (mode size : Z) : M strm Z :=
  buf_flush ;;; buf_free ;;; upd (set_mode mode) ;;;
  (if mode =? IONBF then upd (set_buf None 0) else
   match ubuf with
   | Some b => if 0 <? size then upd (set_buf (Some b) size) else buf_init
   | None => buf_init
   end) ;;;
  upd (set_pos 0 0) ;;; return 0.
(** [len], [text]: the result of vsnprintf into the local buffer of 4096 bytes, and the buffer; [n] bounds the writes. *)
Fixpoint vfprintf_loop (n : nat) (text : list Z) (p remaining : Z) : M strm unit :=
  if 0 <? remaining then
    match n with
    | O => mfault
    | S n' =>
      f <~ file_ ;; rest <~ mlift (slice p remaining text) ;; k <~ sys (so_write (fd f) rest) ;;
      if k <? 0 then upd (fun f => set_flags (eof_flag f) 1 f) else vfprintf_loop n' text (p + k) (i32 (remaining - i32 k))
    end
  else return tt.
Definition vfprintf (len : Z) (text : list Z) : M strm Z :=
  if len <? 0 then return (-1) else vfprintf_loop (Z.to_nat len) text 0 len ;;; return len.
Definition feof : M strm Z := mgets (fun s => eof_flag (s_file s)).
Definition ferror : M strm Z := mgets (fun s => error_flag (s_file s)).
Definition fileno : M strm Z := mgets (fun s => fd (s_file s)).
Definition clearerr : M strm unit := upd (set_flags 0 0).

(** ** Streams by address *)

(** The [FILE]s: [stdin], [stdout] and [stderr], and those on the heap. *)
Record stdio := Stdio { streams : gmap Z FILE; st_env : W }.
Definition on_env {A} (m : M W A) : M stdio A := fun s => match m (st_env s) with Some (a, w) => Some (a, Stdio (streams s) w) | None => None end.
(** A call on [stream]; [null] is what it returns for NULL. *)
Definition on_stream {A} (stream : Z) (null : A) (m : M strm A) : M stdio A :=
  if stream =? 0 then return null else
  s <~ mget ;; f <~ mlift (streams s !! stream) ;;
  fun _ => match m (Strm f (st_env s)) with Some (a, t) => Some (a, Stdio (<[stream := s_file t]> (streams s)) (s_env t)) | None => None end.
Definition std_stream (n : Z) : FILE := File' n 0 0 None 0 0 0 IONBF 0.
Definition sizeof_FILE : Z := 56.

(** [mode]: its first two characters. *)
Definition open_flags (m0 m1 : Z) : option Z :=
  flags ← (if m0 =? 114 then Some O_RDONLY else if m0 =? 119 then Some (Z.lor (Z.lor O_WRONLY O_CREAT) O_TRUNC)
           else if m0 =? 97 then Some (Z.lor (Z.lor O_WRONLY O_CREAT) O_APPEND) else None);
  Some (if m1 =? 43 then Z.lor (Z.land flags (Z.lnot O_ACCMODE)) O_RDWR else flags).
Definition fopen (path : list Z) (m0 m1 : Z) : M stdio Z :=
  match open_flags m0 m1 with
  | None => return 0
  | Some flags =>
    r <~ on_env (so_open path flags) ;;
    let fd := i32 r in
    if fd <? 0 then return 0 else
    b <~ on_env (so_malloc sizeof_FILE) ;;
    match b with
    | None => on_env (so_close fd) ;;; return 0
    | Some (p, _) =>
      mmodify (fun s => Stdio (<[p := File' fd 0 0 None 0 0 0 IOFBF flags]> (streams s)) (st_env s)) ;;;
      on_stream p tt buf_init ;;; return p
    end
  end.
Definition close_stream : M strm Z :=
  f <~ file_ ;;
  ret <~ (if writable f then r <~ buf_flush ;; return (if r =? 0 then 0 else EOF) else return 0) ;;
  r <~ sys (so_close (fd f)) ;;
  buf_free ;;; return (if r =? 0 then ret else EOF).
Definition fclose (stream : Z) : M stdio Z :=
  if stream =? 0 then return EOF else
  ret <~ on_stream stream EOF close_stream ;;
  on_env (so_free stream) ;;; mmodify (fun s => Stdio (delete stream (streams s)) (st_env s)) ;;; return ret.
End Stdio.
Arguments strm : clear implicits.
Arguments Strm {W}.
Arguments stdio : clear implicits.
Arguments Stdio {W}.
