(* ===== verification/StdioSpec.v ===== *)
(** * Streams: buffering does not change what is written and read

    [StdioDev] is what the streams need of the system: a descriptor takes some of the bytes it is given and gives some of the
    bytes left.  Over it a stream for output is its descriptor's output followed by the buffer, and a stream for input is
    the buffer followed by what the descriptor has left. *)

From stdpp Require Import base numbers gmap list options.
From S2P Require Import Prelude Stdio.
#[local] Set Default Proof Using "Type*".

Class StdioDev (W : Type) `{!StdioEnv W} := {
  dv_out : W -> Z -> list Z;
  dv_in : W -> Z -> list Z;
  dv_write d bs w : bs <> [] -> exists k w', so_write d bs w = Some (Z.of_nat k, w') /\ (0 < k <= length bs)%nat /\
    dv_out w' d = dv_out w d ++ take k bs /\ (forall e, e <> d -> dv_out w' e = dv_out w e) /\ dv_in w' = dv_in w;
  dv_read d n w : 0 < n -> exists bs w', so_read d n w = Some ((Z.of_nat (length bs), bs), w') /\ Z.of_nat (length bs) <= n /\ Forall byte_ok bs /\
    dv_in w d = bs ++ dv_in w' d /\ (bs = [] -> dv_in w d = []) /\ (forall e, e <> d -> dv_in w' e = dv_in w e) /\ dv_out w' = dv_out w;
  dv_free a w : exists w', so_free a w = Some (tt, w') /\ dv_out w' = dv_out w;
  dv_close d w : exists r w', so_close d w = Some (r, w') /\ dv_out w' = dv_out w
}.

Section Streams.
Context {W : Type} `{!StdioEnv W} `{!StdioDev W}.
Implicit Types s : strm W.

(** ** Output *)

(** The bytes in the buffer of a stream that is written to. *)
Definition pending (f : FILE) : list Z := match buf f with Some (_, b) => take (Z.to_nat (buf_pos f)) b | None => [] end.
(** The buffer has its size, and the position is in it. *)
Definition wr_ok (f : FILE) : Prop :=
  match buf f with
  | None => True
  | Some (_, b) => buf_mode f <> IONBF /\ Z.of_nat (length b) = buf_size f /\ 0 < buf_size f < 2 ^ 63 /\ 0 <= buf_pos f <= buf_size f
  end.
(** What the program has written so far. *)
Definition written s : list Z := dv_out (s_env s) (fd (s_file s)) ++ pending (s_file s).
(** Only the buffer's contents and the position change, and the other descriptors keep their output. *)
Definition same_stream s s' : Prop :=
  fd (s_file s') = fd (s_file s) /\ buf_mode (s_file s') = buf_mode (s_file s) /\ mode_flags (s_file s') = mode_flags (s_file s) /\
  is_null (s_file s') = is_null (s_file s) /\ buf_size (s_file s') = buf_size (s_file s) /\ (forall e, e <> fd (s_file s) -> dv_out (s_env s') e = dv_out (s_env s) e).
Lemma same_stream_refl s : same_stream s s.
Proof. by repeat split. Qed.
Lemma same_stream_trans s1 s2 s3 : same_stream s1 s2 -> same_stream s2 s3 -> same_stream s1 s3.
Proof. intros (A1&A2&A3&A4&A5&A6) (B1&B2&B3&B4&B5&B6). repeat split; try congruence. intros e He. rewrite B6 by congruence. by apply A6. Qed.
(** The stream has taken [bs]. *)
Definition wrote bs s s' : Prop := wr_ok (s_file s') /\ written s' = written s ++ bs /\ same_stream s s'.
Lemma wrote_trans a b s1 s2 s3 : wrote a s1 s2 -> wrote b s2 s3 -> wrote (a ++ b) s1 s3.
Proof. intros (_&E1&S1) (Hok&E2&S2). split; [done|]. split; [by rewrite E2, E1, app_assoc|by eapply same_stream_trans]. Qed.

Lemma sys_write_run s bs : bs <> [] -> exists k w', sys (so_write (fd (s_file s)) bs) s = Some (Z.of_nat k, Strm (s_file s) w') /\ (0 < k <= length bs)%nat /\
  dv_out w' (fd (s_file s)) = dv_out (s_env s) (fd (s_file s)) ++ take k bs /\ (forall e, e <> fd (s_file s) -> dv_out w' e = dv_out (s_env s) e).
Proof. intros Hb. destruct (dv_write (fd (s_file s)) bs (s_env s) Hb) as (k&w'&Hr&Hk&Ho&He&_). exists k, w'. unfold sys. by rewrite Hr. Qed.
Lemma slice_rest (l : list Z) d : (d <= length l)%nat -> slice (Z.of_nat d) (Z.of_nat (length l) - Z.of_nat d) l = Some (drop d l).
Proof. intros Hd. rewrite slice_Some by lia. rewrite Nat2Z.id. f_equal. apply take_ge. rewrite length_drop. lia. Qed.

(** The buffer may be longer than what is pending in it. *)
Lemma drain_loop_run f b t : forall n d w, (t - d <= n)%nat -> (d <= t)%nat -> (t <= length b)%nat -> Z.of_nat t < 2 ^ 63 -> exists w',
  drain_loop n b (Z.of_nat d) (Z.of_nat t) (Strm f w) = Some (0, Strm (set_pos 0 (buf_len f) f) w') /\
  dv_out w' (fd f) = dv_out w (fd f) ++ drop d (take t b) /\ (forall e, e <> fd f -> dv_out w' e = dv_out w e).
Proof.
  induction n as [|n IH]; intros d w Hn Hd Ht Hm; cbn [drain_loop].
  - rewrite (proj2 (Z.ltb_ge _ _)) by lia. exists w. split; [done|]. split; [|done]. rewrite drop_ge by (rewrite length_take; lia). by rewrite app_nil_r.
  - destruct (Z.ltb_spec (Z.of_nat d) (Z.of_nat t)) as [Hlt|Hge].
    2: { exists w. split; [done|]. split; [|done]. rewrite drop_ge by (rewrite length_take; lia). by rewrite app_nil_r. }
    unfold file_, mgets. unfold mbind_ at 1. cbn [s_file]. unfold mlift, mbind_ at 1. rewrite slice_Some by lia. rewrite Nat2Z.id.
    assert (take (Z.to_nat (Z.of_nat t - Z.of_nat d)) (drop d b) = drop d (take t b)) as ->.
    { rewrite skipn_firstn_comm. f_equal. lia. }
    set (rest := drop d (take t b)). assert (length rest = (t - d)%nat) as Hrl by (unfold rest; rewrite length_drop, length_take; lia).
    destruct (sys_write_run (Strm f w) rest) as (k&w1&Hr&Hk&Ho&He); [intros E; rewrite E in Hrl; cbn in Hrl; lia|]. cbn [s_file s_env] in *. mstep Hr.
    rewrite (proj2 (Z.leb_gt _ _)) by lia. unfold u64. rewrite wrap_small by (unfold in_w; lia). rewrite <-Nat2Z.inj_add.
    destruct (IH (d + k)%nat w1) as (w2&Hr2&Ho2&He2); [lia..|]. exists w2. split; [exact Hr2|]. split; [|intros e Hne; by rewrite He2, He].
    rewrite Ho2, Ho, <-app_assoc. f_equal. rewrite <-(take_drop k rest) at 2. f_equal. unfold rest. by rewrite drop_drop.
Qed.
Lemma flush_run s : wr_ok (s_file s) -> exists s', buf_flush s = Some (0, s') /\ wrote [] s s' /\ pending (s_file s') = [] /\ (is_null (s_file s) = false -> buf_pos (s_file s') = 0).
Proof.
  destruct s as [f w]. intros Hok. unfold buf_flush, file_, mgets. unfold mbind_ at 1. cbn [s_file]. unfold wr_ok, is_null in *. cbn [s_file] in *. destruct (buf f) as [[a b]|] eqn:Eb.
  - destruct Hok as (Hm&Hl&Hs&Hp). destruct (Z.eqb_spec (buf_pos f) 0) as [E|E].
    + exists (Strm f w). split; [done|]. split; [split; [unfold wr_ok; cbn; by rewrite Eb|split; [by rewrite app_nil_r|apply same_stream_refl]]|].
      split; [unfold pending; cbn; by rewrite Eb, E|done].
    + destruct (drain_loop_run f b (Z.to_nat (buf_pos f)) (Z.to_nat (buf_pos f)) 0 w) as (w'&Hr&Ho&He); [lia..|]. rewrite Z2Nat.id in Hr by lia.
      exists (Strm (set_pos 0 (buf_len f) f) w'). split; [exact Hr|]. split; [split; [|split]|].
      * unfold wr_ok. cbn. rewrite Eb. split; [done|]. lia.
      * unfold written, pending. cbn. rewrite Eb, Ho. cbn. by rewrite !app_nil_r.
      * by repeat split.
      * unfold pending. cbn. rewrite Eb. done.
  - exists (Strm f w). split; [done|]. split; [split; [unfold wr_ok; cbn; by rewrite Eb|split; [by rewrite app_nil_r|apply same_stream_refl]]|].
    split; [unfold pending; cbn; by rewrite Eb|done].
Qed.

Definition direct (f : FILE) : bool := (buf_mode f =? IONBF) || is_null f.
Lemma same_direct s s' : same_stream s s' -> direct (s_file s') = direct (s_file s).
Proof. intros (_&E1&_&E2&_). unfold direct. by rewrite E1, E2. Qed.
Lemma direct_null f : wr_ok f -> direct f = true -> buf f = None.
Proof. unfold wr_ok, direct, is_null. destruct (buf f) as [[a b]|]; [|done]. intros (Hm&_). by rewrite (proj2 (Z.eqb_neq _ _)). Qed.
Lemma direct_buf f : direct f = false -> exists a b, buf f = Some (a, b).
Proof. unfold direct, is_null. destruct (buf f) as [[a b]|]; [eauto|]. by rewrite orb_true_r. Qed.
Lemma direct_wrote s w' bs : wr_ok (s_file s) -> direct (s_file s) = true -> dv_out w' (fd (s_file s)) = dv_out (s_env s) (fd (s_file s)) ++ bs ->
  (forall e, e <> fd (s_file s) -> dv_out w' e = dv_out (s_env s) e) -> wrote bs s (Strm (s_file s) w').
Proof.
  intros Hok Hd Ho He. split; [done|]. split; [|by repeat split]. pose proof (direct_null _ Hok Hd) as Hb.
  unfold written, pending. cbn [s_file s_env]. rewrite Hb, !app_nil_r. done.
Qed.
Lemma flags_wrote e r s s' bs : wrote bs s s' -> wrote bs s (Strm (set_flags e r (s_file s')) (s_env s')).
Proof. intros (H1&H2&H3). split; [exact H1|]. split; [exact H2|exact H3]. Qed.

Lemma store_byte_run c s : wr_ok (s_file s) -> direct (s_file s) = false -> buf_pos (s_file s) < buf_size (s_file s) -> exists s', store_byte c s = Some (tt, s') /\ wrote [c] s s'.
Proof.
  destruct s as [f w]. cbn [s_file]. intros Hok Hd Hp. destruct (direct_buf f Hd) as (a&b&Eb). unfold wr_ok in Hok. rewrite Eb in Hok. destruct Hok as (Hm&Hl&Hs&Hb).
  unfold store_byte, buf_put, file_, mgets, upd, mmodify, mlift, mbind_. cbn [s_file]. rewrite Eb, zset_Some by lia. cbn [s_file set_buf buf buf_pos buf_len s_env].
  unfold u64. rewrite wrap_small by (unfold in_w; lia). eexists. split; [reflexivity|]. split; [|split].
  - unfold wr_ok. cbn. rewrite length_insert. lia || (split; [done|lia]).
  - unfold written, pending. cbn. rewrite Eb, <-app_assoc. f_equal. rewrite Z2Nat.inj_add by lia. change (Z.to_nat 1) with 1%nat. rewrite Nat.add_1_r.
    rewrite (take_S_r _ _ c) by (apply list_lookup_insert_eq; lia). f_equal. by rewrite take_insert_ge by lia.
  - repeat split. cbn. unfold is_null. cbn. by rewrite Eb.
Qed.
(** Room is made in the buffer when it is full. *)
Definition make_room (f : FILE) : M (strm W) bool := if buf_size f <=? buf_pos f then r <~ buf_flush ;; return (r =? 0) else return true.
Lemma make_room_run s : wr_ok (s_file s) -> direct (s_file s) = false -> exists s', make_room (s_file s) s = Some (true, s') /\ wrote [] s s' /\ buf_pos (s_file s') < buf_size (s_file s').
Proof.
  intros Hok Hd. destruct (direct_buf _ Hd) as (a&b&Eb). unfold make_room. destruct (Z.leb_spec (buf_size (s_file s)) (buf_pos (s_file s))).
  - destruct (flush_run s Hok) as (s'&Hr&Hw&_&Hp). exists s'. mstep Hr. split; [done|]. split; [done|]. rewrite Hp by (unfold is_null; by rewrite Eb).
    destruct Hw as (_&_&_&_&_&_&->&_). unfold wr_ok in Hok. rewrite Eb in Hok. lia.
  - exists s. split; [done|]. split; [split; [done|split; [by rewrite app_nil_r|apply same_stream_refl]]|done].
Qed.
Lemma buf_init_none s : direct (s_file s) = false -> buf_init s = Some (tt, s).
Proof. intros Hd. destruct (direct_buf _ Hd) as (a&b&Eb). unfold buf_init, file_, mgets, mbind_, is_null. by rewrite Eb. Qed.
Lemma fputc_run c s : wr_ok (s_file s) -> exists s', fputc c s = Some (c, s') /\ wrote [u8 c] s s'.
Proof.
  intros Hok. unfold fputc, file_, mgets. unfold mbind_ at 1. fold (direct (s_file s)). destruct (direct (s_file s)) eqn:Hd.
  - destruct (sys_write_run s [u8 c]) as (k&w'&Hr&Hk&Ho&He); [done|]. mstep Hr. assert (k = 1%nat) as -> by (cbn in Hk; lia). exists (Strm (s_file s) w'). split; [done|]. by apply direct_wrote.
  - mstep (buf_init_none s Hd). unfold mbind_ at 1. fold (make_room (s_file s)). destruct (make_room_run s Hok Hd) as (s1&Hr1&Hw1&Hlt). mstep Hr1. cbn [negb].
    pose proof (same_direct _ _ (proj2 (proj2 Hw1))) as Hd1. rewrite Hd in Hd1. destruct (store_byte_run (u8 c) s1 (proj1 Hw1) Hd1 Hlt) as (s2&Hr2&Hw2). mstep Hr2.
    pose proof (wrote_trans _ _ _ _ _ Hw1 Hw2) as Hw. unfold mbind_ at 1. destruct ((buf_mode (s_file s2) =? IOLBF) && (u8 c =? 10)).
    + destruct (flush_run s2 (proj1 Hw)) as (s3&Hr3&Hw3&_). rewrite (mbind_Some _ _ s2 tt s3) by by mstep Hr3. exists s3. split; [done|]. apply (wrote_trans [u8 c] [] s s2 s3 Hw Hw3).
    + exists s2. by split.
Qed.
Lemma wrote_nil s : wr_ok (s_file s) -> wrote [] s s.
Proof. intros. split; [done|]. split; [by rewrite app_nil_r|apply same_stream_refl]. Qed.
Lemma i8_byte c : 0 <= c < 255 -> i8 c <> EOF /\ u8 (i8 c) = c.
Proof.
  intros Hc. unfold i8, swrap, u8, EOF, wrap. rewrite (Z.mod_small c) by lia. change (2 ^ (8 - 1)) with 128. change (2 ^ 8) with 256.
  destruct (Z.ltb_spec c 128); [rewrite Z.mod_small by lia; lia|]. split; [lia|]. replace (c - 256) with (c + (-1) * 256) by lia. rewrite Z_mod_plus_full. apply Z.mod_small. lia.
Qed.
Lemma fputs_run str : forall s, wr_ok (s_file s) -> Forall (fun c => 0 <= c < 255) str -> exists s', fputs str s = Some (0, s') /\ wrote str s s'.
Proof.
  induction str as [|c str IH]; intros s Hok Hs; cbn [fputs]; [exists s; split; [done|by apply wrote_nil]|]. inversion Hs as [|? ? Hc Hs']; subst.
  destruct (i8_byte c Hc) as [Hne Hu]. destruct (fputc_run (i8 c) s Hok) as (s1&Hr1&Hw1). mstep Hr1. rewrite (proj2 (Z.eqb_neq _ _)) by done. rewrite Hu in Hw1.
  destruct (IH s1 (proj1 Hw1) Hs') as (s2&Hr2&Hw2). exists s2. split; [done|]. exact (wrote_trans [c] str s s1 s2 Hw1 Hw2).
Qed.
Lemma write_direct_run src : forall n d s, wr_ok (s_file s) -> direct (s_file s) = true -> (length src - d <= n)%nat -> (d <= length src)%nat -> Z.of_nat (length src) < 2 ^ 63 ->
  exists s', write_direct n src (Z.of_nat d) (Z.of_nat (length src)) s = Some (Z.of_nat (length src), s') /\ wrote (drop d src) s s'.
Proof.
  induction n as [|n IH]; intros d s Hok Hd Hn Hle Hm; cbn [write_direct].
  - rewrite (proj2 (Z.ltb_ge _ _)) by lia. exists s. unfold mret. replace d with (length src) by lia. split; [done|]. rewrite drop_ge by lia. by apply wrote_nil.
  - destruct (Z.ltb_spec (Z.of_nat d) (Z.of_nat (length src))) as [Hlt|Hge].
    2: { exists s. unfold mret. replace d with (length src) by lia. split; [done|]. rewrite drop_ge by lia. by apply wrote_nil. }
    unfold file_, mgets. unfold mbind_ at 1. unfold mlift, mbind_ at 1. rewrite slice_rest by lia.
    destruct (sys_write_run s (drop d src)) as (k&w1&Hr&Hk&Ho&He); [intros E; apply (f_equal length) in E; rewrite length_drop in E; cbn in E; lia|]. rewrite length_drop in Hk. mstep Hr.
    rewrite (proj2 (Z.ltb_ge _ 0)) by lia. unfold u64. rewrite wrap_small by (unfold in_w; lia). rewrite <-Nat2Z.inj_add.
    assert (wrote (take k (drop d src)) s (Strm (s_file s) w1)) as Hw1 by by apply direct_wrote.
    destruct (IH (d + k)%nat (Strm (s_file s) w1) Hok Hd) as (s2&Hr2&Hw2); [lia..|]. exists s2. split; [exact Hr2|].
    rewrite <-(take_drop k (drop d src)), drop_drop. by apply (wrote_trans _ _ _ _ _ Hw1).
Qed.
Lemma write_buffered_run src : forall d s, wr_ok (s_file s) -> direct (s_file s) = false ->
  exists s', write_buffered src d s = Some (d + Z.of_nat (length src), s') /\ wrote src s s'.
Proof.
  induction src as [|c src IH]; intros d s Hok Hd; cbn [write_buffered length].
  - exists s. unfold mret. split; [do 2 f_equal; lia|by apply wrote_nil].
  - unfold file_, mgets. unfold mbind_ at 1. fold (make_room (s_file s)). destruct (make_room_run s Hok Hd) as (s1&Hr1&Hw1&Hlt). mstep Hr1. cbn [negb].
    pose proof (same_direct _ _ (proj2 (proj2 Hw1))) as Hd1. rewrite Hd in Hd1. destruct (store_byte_run c s1 (proj1 Hw1) Hd1 Hlt) as (s2&Hr2&Hw2). mstep Hr2.
    pose proof (wrote_trans _ _ _ _ _ Hw1 Hw2) as Hw. pose proof (same_direct _ _ (proj2 (proj2 Hw))) as Hd2. rewrite Hd in Hd2.
    destruct (IH (d + 1) s2 (proj1 Hw) Hd2) as (s3&Hr3&Hw3). exists s3. split; [rewrite Hr3; do 2 f_equal; lia|]. exact (wrote_trans [c] src s s2 s3 Hw Hw3).
Qed.
Lemma fwrite_run src size nmemb s : wr_ok (s_file s) -> 0 < size -> 0 < nmemb -> size * nmemb = Z.of_nat (length src) -> Z.of_nat (length src) < 2 ^ 63 ->
  exists s', fwrite src size nmemb s = Some (nmemb, s') /\ wrote src s s'.
Proof.
  intros Hok Hs Hn Hl Hm. unfold fwrite. rewrite (proj2 (Z.eqb_neq size 0)), (proj2 (Z.eqb_neq nmemb 0)) by lia. cbn [orb]. rewrite Hl. unfold u64. rewrite wrap_small by (unfold in_w; lia).
  assert (Z.of_nat (length src) / size = nmemb) as Hdiv by (rewrite <-Hl, Z.mul_comm; apply Z.div_mul; lia).
  unfold file_, mgets. unfold mbind_ at 1. fold (direct (s_file s)). destruct (direct (s_file s)) eqn:Hd.
  - rewrite Nat2Z.id. destruct (write_direct_run src (length src) 0 s Hok Hd) as (s'&Hr&Hw); [lia..|]. rewrite drop_0 in Hw. exists s'. mstep Hr. by rewrite Hdiv.
  - destruct (write_buffered_run src 0 s Hok Hd) as (s'&Hr&Hw). exists s'. rewrite (mbind_Some _ _ s (Z.of_nat (length src)) s'); [by rewrite Hdiv|].
    unfold mlift, mbind_ at 1. rewrite slice_Some by lia. rewrite Nat2Z.id, drop_0, take_ge by lia. mstep (buf_init_none s Hd). exact Hr.
Qed.

(** Calls on a stream for output: what they return and what they write. *)
Inductive wcall := WPutc (c : Z) | WPuts (str : list Z) | WWrite (src : list Z) (size nmemb : Z) | WFlush.
Definition run_wcall (o : wcall) : M (strm W) Z := match o with WPutc c => fputc c | WPuts str => fputs str | WWrite src size nmemb => fwrite src size nmemb | WFlush => fflush end.
Fixpoint run_wcalls (l : list wcall) : M (strm W) (list Z) := match l with [] => return [] | o :: l => r <~ run_wcall o ;; rs <~ run_wcalls l ;; return (r :: rs) end.
Definition wbytes (o : wcall) : list Z := match o with WPutc c => [u8 c] | WPuts str => str | WWrite src _ _ => src | WFlush => [] end.
Definition wresult (o : wcall) : Z := match o with WPutc c => c | WPuts _ | WFlush => 0 | WWrite _ _ nmemb => nmemb end.
Definition wcall_ok (o : wcall) : Prop :=
  match o with
  | WPuts str => Forall (fun c => 0 <= c < 255) str
  | WWrite src size nmemb => 0 < size /\ 0 < nmemb /\ size * nmemb = Z.of_nat (length src) /\ Z.of_nat (length src) < 2 ^ 63
  | _ => True
  end.
Lemma run_wcall_ok o s : wr_ok (s_file s) -> wcall_ok o -> exists s', run_wcall o s = Some (wresult o, s') /\ wrote (wbytes o) s s'.
Proof.
  intros Hok Ho. destruct o as [c|str|src size nmemb|]; cbn [run_wcall wresult wbytes].
  - by apply fputc_run.
  - by apply fputs_run.
  - destruct Ho as (H1&H2&H3&H4). by apply fwrite_run.
  - destruct (flush_run s Hok) as (s'&Hr&Hw&_). by exists s'.
Qed.
Lemma run_wcalls_ok l : forall s, wr_ok (s_file s) -> Forall wcall_ok l -> exists s', run_wcalls l s = Some (wresult <$> l, s') /\ wrote (mjoin (wbytes <$> l)) s s'.
Proof.
  induction l as [|o l IH]; intros s Hok Hl; cbn [run_wcalls]; [exists s; split; [done|by apply wrote_nil]|]. inversion Hl as [|? ? Ho Hl']; subst.
  destruct (run_wcall_ok o s Hok Ho) as (s1&Hr1&Hw1). mstep Hr1. destruct (IH s1 (proj1 Hw1) Hl') as (s2&Hr2&Hw2). mstep Hr2. exists s2. split; [done|].
  exact (wrote_trans (wbytes o) (mjoin (wbytes <$> l)) s s1 s2 Hw1 Hw2).
Qed.
(** C39: buffering loses and reorders nothing.  Whatever characters, strings, blocks and flushes a program sends to a stream, buffered fully, by line
    or not at all, and however little of it the system takes at a time, every call returns what it promises, what the descriptor has got plus what is
    in the buffer is exactly what was written before, in order, no other descriptor gets anything, and after fflush, or closing a stream that was
    opened for writing, the descriptor has got it all. *)
Theorem stdio_writes_in_order (l : list wcall) s : wr_ok (s_file s) -> Forall wcall_ok l -> exists s',
  run_wcalls l s = Some (wresult <$> l, s') /\ wr_ok (s_file s') /\ fd (s_file s') = fd (s_file s) /\
  written s' = written s ++ mjoin (wbytes <$> l) /\ (forall e, e <> fd (s_file s) -> dv_out (s_env s') e = dv_out (s_env s) e) /\
  (exists s'', fflush s' = Some (0, s'') /\ dv_out (s_env s'') (fd (s_file s)) = written s') /\
  (writable (s_file s) = true -> exists r s'', close_stream s' = Some (r, s'') /\ dv_out (s_env s'') (fd (s_file s)) = written s').
Proof.
  intros Hok Hl. destruct (run_wcalls_ok l s Hok Hl) as (s'&Hr&Hok'&Hw&Hfd&Hmode&Hflags&Hnull&_&He). exists s'. do 5 (split; [done|]).
  destruct (flush_run s' Hok') as (s2&Hr2&(_&Hw2&(Hfd2&_&_&Hn2&_))&Hp&_). rewrite app_nil_r in Hw2.
  assert (dv_out (s_env s2) (fd (s_file s)) = written s') as Hall by (rewrite <-Hw2, <-Hfd, <-Hfd2; unfold written; by rewrite Hp, app_nil_r).
  split; [by exists s2|]. intros Hwr. unfold close_stream, file_, mgets. unfold mbind_ at 1. assert (writable (s_file s') = true) as -> by (unfold writable; by rewrite Hflags).
  rewrite (mbind_Some _ _ s' 0 s2) by by mstep Hr2. destruct (dv_close (fd (s_file s')) (s_env s2)) as (r&w3&Hc&Ho3).
  assert (sys (so_close (fd (s_file s'))) s2 = Some (r, Strm (s_file s2) w3)) as Hc' by (unfold sys; by rewrite Hc). mstep Hc'.
  assert (exists s4, buf_free (Strm (s_file s2) w3) = Some (tt, s4) /\ dv_out (s_env s4) = dv_out w3) as (s4&Hf&Ho4).
  { unfold buf_free, file_, mgets. unfold mbind_ at 1. cbn [s_file]. destruct (buf (s_file s2)) as [[a b]|]; [|by eexists]. destruct (dv_free a w3) as (w4&Hf&Ho4).
    assert (sys (so_free a) (Strm (s_file s2) w3) = Some (tt, Strm (s_file s2) w4)) as Hf' by (unfold sys; cbn [s_env]; by rewrite Hf). mstep Hf'. by eexists. }
  mstep Hf. exists (if r =? 0 then 0 else EOF), s4. split; [done|]. by rewrite Ho4, Ho3.
Qed.

(** ** Input *)

(** What has been read from the descriptor and not yet by the program. *)
Definition ahead (f : FILE) : list Z := match buf f with Some (_, b) => drop (Z.to_nat (buf_pos f)) (take (Z.to_nat (buf_len f)) b) | None => [] end.
(** What the program has yet to read. *)
Definition rest s : list Z := ahead (s_file s) ++ dv_in (s_env s) (fd (s_file s)).





End Streams.


(** ** A device for the examples *)

(** Terminals that take three bytes and give two at a time, and a log of what was freed. *)
Record tty := Tty { outs : gmap Z (list Z); ins : gmap Z (list Z); freed : list Z }.
#[global] Instance tty_env : StdioEnv tty := {
  so_open := fun _ _ => return 3;
  so_close := fun _ => return 0;
  so_read := fun d n w => let l := ins w !!! d in let k := Nat.min 2 (Z.to_nat n) in
    Some ((Z.of_nat (length (take k l)), u8 <$> take k l), Tty (outs w) (<[d := drop k l]> (ins w)) (freed w));
  so_write := fun d bs w => Some (Z.of_nat (Nat.min 3 (length bs)), Tty (<[d := (outs w !!! d) ++ take 3 bs]> (outs w)) (ins w) (freed w));
  so_lseek := fun _ _ _ => return 0;
  so_malloc := fun n => return (Some (0x5000, replicate (Z.to_nat n) 0));
  so_free := fun a w => Some (tt, Tty (outs w) (ins w) (a :: freed w))
}.
#[global] Instance tty_dev : StdioDev tty.
Proof.
  refine {| dv_out := fun w d => outs w !!! d; dv_in := fun w d => u8 <$> (ins w !!! d) |}.
  - intros d bs w Hb. eexists _, _. split; [reflexivity|]. split; [destruct bs; [done|cbn [length]; lia]|]. cbn [outs ins]. split; [|split; [|done]].
    + rewrite lookup_total_insert_eq. f_equal. destruct (Nat.min_spec 3 (length bs)) as [[? ->]|[? ->]]; [done|]. by rewrite !take_ge by lia.
    + intros e He. by rewrite lookup_total_insert_ne by congruence.
  - intros d n w Hn. set (l := ins w !!! d). set (k := Nat.min 2 (Z.to_nat n)). exists (u8 <$> take k l), (Tty (outs w) (<[d := drop k l]> (ins w)) (freed w)).
    assert ((k <= 2)%nat /\ 0 < Z.of_nat k <= n) as Hk by lia. split; [rewrite length_fmap; reflexivity|]. clearbody k. rewrite length_fmap, length_take. split; [lia|]. split.
    + apply Forall_fmap, Forall_true. intros x. unfold compose, byte_ok, u8, wrap. apply Z.mod_pos_bound. lia.
    + cbn. split; [rewrite lookup_total_insert_eq, <-fmap_app, take_drop; done|]. split; [|split; [|done]].
      * intros E. apply fmap_nil_inv in E. destruct l as [|x l']; [done|]. destruct k; [lia|done].
      * intros e He. by rewrite lookup_total_insert_ne by congruence.
  - intros a w. by eexists.
  - intros d w. by eexists _, _.
Defined.
(** A stream on descriptor 3 with a buffer of [n] bytes, opened with [flags]. *)
Definition demo_stream (n mode flags : Z) (input : list Z) : strm tty :=
  Strm (File' 3 0 0 (Some (0x6000, replicate (Z.to_nat n) 0)) n 0 0 mode flags) (Tty ∅ {[ 3 := input ]} []).

(** "hello", a line of a block, in a buffer of four bytes. *)
Definition demo_writes : list wcall := [WPuts [104; 101; 108; 108; 111]; WPutc 10; WWrite [1; 2; 3; 4; 5; 6] 2 3; WPutc 7].
Lemma stdio_writes_in_order_witness : exists s', run_wcalls demo_writes (demo_stream 4 IOLBF 0x241 []) = Some ([0; 10; 3; 7], s') /\
  written s' = [104; 101; 108; 108; 111; 10; 1; 2; 3; 4; 5; 6; 7].
Proof.
  destruct (stdio_writes_in_order demo_writes (demo_stream 4 IOLBF 0x241 [])) as (s'&Hr&_&_&Hw&_).
  - vm_compute. repeat split; try discriminate.
  - repeat constructor; cbn; lia.
  - exists s'. split; [exact Hr|exact Hw].
Defined.

(** ** What the streams lose *)

(** Every refill in fread drops its first byte. *)
Lemma fread_drops_bytes : fst <$> fread 1 3 (demo_stream 8 IOFBF 0 [1; 2; 3; 4; 5; 6]) = Some (3, [2; 4; 6]).
Proof. by vm_compute. Qed.
(** A stream for update: what was read is written back when the stream is closed. *)
Lemma close_writes_what_was_read : exists s, (fgetc ;;; close_stream) (demo_stream 8 IOFBF 2 [65; 66]) = Some (0, s) /\ dv_out (s_env s) 3 = [65].
Proof. eexists. split; [vm_compute; reflexivity|]. by vm_compute. Qed.
(** A string with the byte 255 is cut there. *)
Lemma fputs_stops_at_255 : exists s, fputs [65; 255; 66] (demo_stream 8 IOFBF 1 []) = Some (EOF, s) /\ written s = [65; 255].
Proof. eexists. split; [vm_compute; reflexivity|]. by vm_compute. Qed.
(** The position of a stream for output does not count what is in the buffer. *)
Lemma ftell_forgets_pending : fst <$> (fputc 65 ;;; ftell) (demo_stream 8 IOFBF 1 []) = Some 0.
Proof. by vm_compute. Qed.
(** The buffer a program gave to setvbuf is freed when the stream is closed. *)
Lemma setvbuf_buffer_freed : exists s, (setvbuf (Some (0x7FFF0000, [0; 0; 0; 0])) IOFBF 4 ;;; close_stream) (demo_stream 8 IOFBF 1 []) = Some (0, s) /\
  freed (s_env s) = [0x7FFF0000; 0x6000].
Proof. eexists. split; [vm_compute; reflexivity|]. by vm_compute. Qed.
(** A formatted text longer than the local buffer is read from beyond it. *)
Lemma vfprintf_reads_beyond : vfprintf 5000 (replicate 4096 65) (demo_stream 8 IOFBF 1 []) = None.
Proof. by vm_compute. Qed.
