(* ===== verification/Slab.v ===== *)
(** * Slab allocator and kernel malloc (src/kernel/slab.c, src/libc/kernel/malloc.c)

    Small objects cut out of heap pages.  The heap below is an interface, [PageHeap]:
    the slab allocator only calls [kmalloc] and [kfree].  A slab page is memory: its header
    is the first five words at its address, a free slot holds the index of the next
    free slot in its first word.  The heap's pages are mapped on demand and zeroed, so
    a word never written is 0.  The lock and the serial log are left out; a loop over a
    list that has not ended after one step per heap page, or per slot, is a fault. *)

From stdpp Require Import base numbers gmap list options.
From S2P Require Import Prelude.

Class PageHeap (H : Type) := { heap_alloc : Z -> M H Z; heap_free : Z -> M H unit }.

Definition SLAB_CLASS_COUNT : Z := 7.
Definition slab_sizes : list Z := [16; 32; 64; 128; 256; 512; 1024].
Definition SLAB_HEADER_SIZE : Z := 48.
Definition SLAB_PAGE : Z := 4096.
(** The pages of the kernel heap. *)
Definition max_pages : nat := Z.to_nat 4096.

Section Slab.
Context {H : Type} `{!PageHeap H}.

Record slab := SlabState { sl_heap : H; sl_mem : gmap Z Z; g_slab_lists : list Z; g_slab_initialized : bool; g_slab_allocated_bytes : Z }.
Definition set_mem m s := SlabState (sl_heap s) m (g_slab_lists s) (g_slab_initialized s) (g_slab_allocated_bytes s).
Definition set_lists l s := SlabState (sl_heap s) (sl_mem s) l (g_slab_initialized s) (g_slab_allocated_bytes s).
Definition add_bytes n s := SlabState (sl_heap s) (sl_mem s) (g_slab_lists s) (g_slab_initialized s) (u64 (g_slab_allocated_bytes s + n)).
Definition on_pages {A} (c : M H A) : M slab A :=
  fun s => match c (sl_heap s) with
           | Some (a, h) => Some (a, SlabState h (sl_mem s) (g_slab_lists s) (g_slab_initialized s) (g_slab_allocated_bytes s))
           | None => None
           end.

(** A word of memory. *)
Definition word (m : gmap Z Z) (a : Z) : Z := default 0 (m !! a).
Definition rdw (a : Z) : M slab Z := mgets (fun s => word (sl_mem s) a).
Definition wrw (a v : Z) : M slab unit := mmodify (fun s => set_mem (<[a := u64 v]> (sl_mem s)) s).

(** ** slab_page_t *)

Definition class_size (sp : Z) : Z := sp.
Definition free_head (sp : Z) : Z := sp + 8.
Definition used_count (sp : Z) : Z := sp + 16.
Definition slot_count (sp : Z) : Z := sp + 24.
Definition sp_next (sp : Z) : Z := sp + 32.

Fixpoint class_loop (size : Z) (sizes : list Z) (i : Z) : option Z :=
  match sizes with [] => None | c :: sizes' => if size <=? c then Some i else class_loop size sizes' (i + 1) end.
Definition size_to_class (size : Z) : option Z := class_loop size slab_sizes 0.

Definition slot_addr (sp slot_idx : Z) : M slab Z :=
  c <~ rdw (class_size sp) ;; return (u64 (sp + SLAB_HEADER_SIZE + slot_idx * c)).

Definition slab_page_init (sp class_idx : Z) : M slab unit :=
  obj_size <~ mlift (zget slab_sizes class_idx) ;;
  let usable := SLAB_PAGE - SLAB_HEADER_SIZE in
  let count := usable / obj_size in
  wrw (class_size sp) obj_size ;;;
  wrw (slot_count sp) count ;;;
  wrw (used_count sp) 0 ;;;
  wrw (sp_next sp) 0 ;;;
  for_range 0 (count - 1) (fun i => link <~ slot_addr sp i ;; wrw link (i + 1)) ;;;
  last <~ slot_addr sp (count - 1) ;;
  wrw last count ;;;
  wrw (free_head sp) 0.

Definition slab_page_alloc (sp : Z) : M slab Z :=
  slot <~ rdw (free_head sp) ;; count <~ rdw (slot_count sp) ;;
  if count <=? slot then return 0 else
  link <~ slot_addr sp slot ;;
  next <~ rdw link ;; wrw (free_head sp) next ;;;
  used <~ rdw (used_count sp) ;; wrw (used_count sp) (used + 1) ;;;
  slot_addr sp slot.

(** The walk along the free list: does it meet the slot? *)
Fixpoint double_free (n : nat) (sp check slot : Z) : M slab bool :=
  count <~ rdw (slot_count sp) ;;
  if count <=? check then return false else
  match n with
  | O => mfault
  | S n' => if check =? slot then return true else link <~ slot_addr sp check ;; check <~ rdw link ;; double_free n' sp check slot
  end.
Definition slab_page_free (sp ptr : Z) : M slab bool :=
  let base := u64 (sp + SLAB_HEADER_SIZE) in
  if ptr <? base then return false else
  if u64 (sp + SLAB_PAGE) <=? ptr then return false else
  let offset := ptr - base in
  c <~ rdw (class_size sp) ;;
  if c =? 0 then mfault else
  if negb (offset mod c =? 0) then return false else
  let slot := offset / c in
  head <~ rdw (free_head sp) ;; count <~ rdw (slot_count sp) ;;
  d <~ double_free (Z.to_nat count) sp head slot ;;
  if d : bool then return false else
  link <~ slot_addr sp slot ;;
  wrw link head ;;;
  wrw (free_head sp) slot ;;;
  used <~ rdw (used_count sp) ;; wrw (used_count sp) (used - 1) ;;; return true.

Definition slab_page_empty (sp : Z) : M slab bool := used <~ rdw (used_count sp) ;; return (used =? 0).

(** ** The allocator *)

Definition slab_init : M slab unit :=
  mmodify (fun s => SlabState (sl_heap s) (sl_mem s) (replicate (Z.to_nat SLAB_CLASS_COUNT) 0) true 0).

(** The first page of the list with a free slot, NULL when there is none. *)
Fixpoint find_page (n : nat) (sp : Z) : M slab Z :=
  if sp =? 0 then return 0 else
  match n with
  | O => mfault
  | S n' =>
    head <~ rdw (free_head sp) ;; count <~ rdw (slot_count sp) ;;
    if count <=? head then next <~ rdw (sp_next sp) ;; find_page n' next else return sp
  end.

Definition slab_alloc (size : Z) : M slab Z :=
  s <~ mget ;;
  if negb (g_slab_initialized s) || (size =? 0) then return 0 else
  match size_to_class size with
  | None => on_pages (heap_alloc size)
  | Some class_idx =>
    list_head <~ mlift (zget (g_slab_lists s) class_idx) ;;
    sp <~ find_page max_pages list_head ;;
    sp <~ (if sp =? 0 then
             page <~ on_pages (heap_alloc SLAB_PAGE) ;;
             if page =? 0 then return 0 else
             slab_page_init page class_idx ;;;
             s <~ mget ;;
             head <~ mlift (zget (g_slab_lists s) class_idx) ;;
             wrw (sp_next page) head ;;;
             ls <~ mlift (zset (g_slab_lists s) class_idx page) ;;
             mmodify (set_lists ls) ;;; return page
           else return sp) ;;
    if sp =? 0 then return 0 else
    obj <~ slab_page_alloc sp ;;
    (if obj =? 0 then return tt else c <~ rdw (class_size sp) ;; mmodify (add_bytes c)) ;;;
    return obj
  end.

(** [while ( *pp && *pp != sp) pp = &( *pp)->next; if ( *pp) *pp = sp->next]: [pp] is the list head of class [i] when
    [prev] is 0, and the link of the page [prev] otherwise. *)
Fixpoint unlink_page (n : nat) (i prev cur sp : Z) : M slab unit :=
  if cur =? 0 then return tt else
  if cur =? sp then
    next <~ rdw (sp_next sp) ;;
    if prev =? 0 then s <~ mget ;; ls <~ mlift (zset (g_slab_lists s) i next) ;; mmodify (set_lists ls)
    else wrw (sp_next prev) next
  else match n with O => mfault | S n' => next <~ rdw (sp_next cur) ;; unlink_page n' i cur next sp end.

(** The pages of one class: [true] when the pointer was freed. *)
Fixpoint free_in_class (n : nat) (i sp ptr : Z) : M slab bool :=
  if sp =? 0 then return false else
  match n with
  | O => mfault
  | S n' =>
    freed <~ (if (sp <=? ptr) && (ptr <? u64 (sp + SLAB_PAGE)) then slab_page_free sp ptr else return false) ;;
    if freed : bool then
      c <~ rdw (class_size sp) ;; mmodify (add_bytes (- c)) ;;;
      empty <~ slab_page_empty sp ;;
      (if empty : bool then
         s <~ mget ;; head <~ mlift (zget (g_slab_lists s) i) ;;
         unlink_page max_pages i 0 head sp ;;; on_pages (heap_free sp)
       else return tt) ;;;
      return true
    else next <~ rdw (sp_next sp) ;; free_in_class n' i next ptr
  end.
Fixpoint free_in_classes (n : nat) (i ptr : Z) : M slab bool :=
  match n with
  | O => return false
  | S n' =>
    s <~ mget ;; head <~ mlift (zget (g_slab_lists s) i) ;;
    freed <~ free_in_class max_pages i head ptr ;;
    if freed : bool then return true else free_in_classes n' (i + 1) ptr
  end.
Definition slab_free (ptr : Z) : M slab unit :=
  s <~ mget ;;
  if negb (g_slab_initialized s) || (ptr =? 0) then return tt else
  freed <~ free_in_classes (Z.to_nat SLAB_CLASS_COUNT) 0 ptr ;;
  if freed : bool then return tt else on_pages (heap_free ptr).

Definition slab_get_allocated_bytes (s : slab) : Z := g_slab_allocated_bytes s.

(** ** malloc of the kernel's C library *)

Definition SLAB_MAX_SIZE : Z := 1024.
Definition kmalloc_libc (size : Z) : M slab Z :=
  if size =? 0 then return 0 else
  if size <=? SLAB_MAX_SIZE then slab_alloc size else on_pages (heap_alloc size).
Definition kfree_libc (ptr : Z) : M slab unit := if ptr =? 0 then return tt else slab_free ptr.

End Slab.
Arguments slab : clear implicits.
Arguments SlabState {H}.
