(* ===== verification/SlabSpec.v ===== *)
(** * The slab allocator hands out disjoint objects (the theorems on Slab.v)

    [PageHeapLaws] states what the allocator needs of the heap below; KheapSpec.v
    discharges it for the kernel heap.  The invariant [sinv] ties the words in memory to a
    list of pages per class and a list of free slots per page; the objects in use are
    the slots that are not free, and the heap's blocks that are not slab pages. *)

From stdpp Require Import base numbers gmap list options.
From S2P Require Import Prelude Pmm PageTable Vmm Kheap KheapSpec Slab.

(** ** What the heap promises *)

Class PageHeapLaws (H : Type) `{!PageHeap H} := {
  heap_ok : H -> Prop;
  (** [heap_block h p n]: the block of [n] bytes at [p] is in use. *)
  heap_block : H -> Z -> Z -> Prop;
  heap_block_range h p n : heap_ok h -> heap_block h p n -> (4096 | p) /\ 0 < p /\ 4096 <= n /\ p + n < 2 ^ 64;
  heap_block_apart h p n q m : heap_ok h -> heap_block h p n -> heap_block h q m -> p = q /\ n = m \/ p + n <= q \/ q + m <= p;
  heap_alloc_law h size : heap_ok h -> 0 <= size < 2 ^ 64 -> exists p h', heap_alloc size h = Some (p, h') /\ heap_ok h' /\
    ((p = 0 /\ h' = h) \/
     (exists n, (size <= 2 ^ 23 -> size <= n) /\ heap_block h' p n /\ (forall q m, heap_block h' q m <-> heap_block h q m \/ q = p /\ m = n) /\ forall m, ~ heap_block h p m));
  heap_free_law h p n : heap_ok h -> heap_block h p n -> exists h', heap_free p h = Some (tt, h') /\ heap_ok h' /\
    forall q m, heap_block h' q m <-> heap_block h q m /\ q <> p;
  heap_block_count h l : heap_ok h -> NoDup l -> (forall p, p ∈ l -> exists n, heap_block h p n) -> (length l <= max_pages)%nat;
  heap_free_unaligned h p : heap_ok h -> 0 <= p < 2 ^ 64 -> ~ (4096 | p) -> heap_free p h = Some (tt, h)
}.

(** ** The kernel heap keeps the promise *)

#[global] Instance kheap_heap : PageHeap kheap := { heap_alloc := kmalloc; heap_free := kfree }.

Definition kheap_block (s : kheap) (p n : Z) : Prop := exists q k, 0 <= k <= 11 /\ p = HEAP_BASE + PAGE_SIZE * q /\ n = PAGE_SIZE * 2 ^ k /\
  (2 ^ k | q) /\ 0 <= q /\ q + 2 ^ k <= 4096 /\ forall q', inb q k q' -> al s q' = Some (k + 1).

Lemma kheap_block_meet s q k q' k' x : (2 ^ k | q) -> (2 ^ k' | q') -> 0 <= k -> inb q k x -> inb q' k' x ->
  (forall x, inb q k x -> al s x = Some (k + 1)) -> (forall x, inb q' k' x -> al s x = Some (k' + 1)) -> q = q' /\ k = k'.
Proof.
  intros A A' Hk I I' T T'. pose proof (T x I) as E. rewrite (T' x I') in E. assert (k = k') as <- by (injection E as ?; lia). split; [by apply (blocks_eq q q' k x)|done].
Qed.
Lemma kheap_alloc_law s size : kinv s -> 0 <= size < 2 ^ 64 -> exists p s', kmalloc size s = Some (p, s') /\ kinv s' /\
  ((p = 0 /\ s' = s) \/
   (exists n, (size <= 2 ^ 23 -> size <= n) /\ kheap_block s' p n /\ (forall q m, kheap_block s' q m <-> kheap_block s q m \/ q = p /\ m = n) /\ forall m, ~ kheap_block s p m)).
Proof.
  intros Hs Hz. destruct (kmalloc_run s size Hs) as (r&s'&E&Hs'&Hr). destruct (request_level_run size ltac:(lia)) as (R&A&_). set (k := request_level size) in *.
  exists r, s'. split; [done|]. split; [done|]. destruct Hr as [(->&->&_)|(p&->&(G1&G2&G3&G4)&Hh)]; [by left|right]. destruct (pow2_level k R) as [W _].
  assert (kheap_block s' (HEAP_BASE + PAGE_SIZE * p) (PAGE_SIZE * 2 ^ k)) as Hb.
  { exists p, k. split_and!; try done; try lia. intros q Hq. by rewrite (Hh q), decide_True. }
  exists (PAGE_SIZE * 2 ^ k). split; [done|]. split; [done|]. split.
  - intros q m. split.
    + intros (q1&k1&K1&->&->&D1&P1&P2&T1). destruct (pow2_level k1 K1) as [W1 _]. destruct (decide (al s q1 = Some (k1 + 1))) as [Hal|Hal].
      * left. exists q1, k1. split_and!; try done; try lia. intros x Hx. pose proof (T1 x Hx) as T. rewrite (Hh x) in T. case_decide as Hi; [|done]. exfalso.
        pose proof (T1 q1 ltac:(unfold inb; lia)) as T0. destruct (kheap_block_meet s' q1 k1 p k x D1 G1 ltac:(lia) Hx Hi T1) as [-> ->]; [intros y Hy; by rewrite (Hh y), decide_True|].
        rewrite (G4 p) in Hal by (unfold inb; lia). injection Hal as ?. lia.
      * right. pose proof (T1 q1 ltac:(unfold inb; lia)) as T0. rewrite (Hh q1) in T0. case_decide as Hi; [|congruence].
        destruct (kheap_block_meet s' q1 k1 p k q1 D1 G1 ltac:(lia) ltac:(unfold inb; lia) Hi T1) as [-> ->]; [intros y Hy; by rewrite (Hh y), decide_True|done].
    + intros [(q1&k1&K1&->&->&D1&P1&P2&T1)|[-> ->]]; [|done]. exists q1, k1. split_and!; try done; try lia. intros x Hx. rewrite (Hh x). case_decide as Hi; [|by apply T1].
      pose proof (T1 x Hx) as T. rewrite (G4 x Hi) in T. injection T as ?. lia.
  - intros m (q1&k1&K1&E1&->&D1&P1&P2&T1). assert (q1 = p) as -> by (change PAGE_SIZE with 4096 in E1; lia). destruct (pow2_level k1 K1) as [W1 _].
    pose proof (T1 p ltac:(unfold inb; lia)) as T. rewrite (G4 p) in T by (unfold inb; lia). injection T as ?. lia.
Qed.
Lemma kheap_free_law s p n : kinv s -> kheap_block s p n -> exists s', kfree p s = Some (tt, s') /\ kinv s' /\ forall q m, kheap_block s' q m <-> kheap_block s q m /\ q <> p.
Proof.
  intros Hs (q0&k&K&->&->&D&P1&P2&T). destruct (pow2_level k K) as [W _]. destruct (kfree_page s q0 k Hs ltac:(lia) (proj1 K)) as (s'&E&Hs'&Hh); [apply T; unfold inb; lia|].
  assert (q0 / 2 ^ k * 2 ^ k = q0) as Eq by (destruct D as [z ->]; rewrite Z.div_mul by lia; done). rewrite Eq in Hh. exists s'. split; [done|]. split; [done|]. intros q m. split.
  - intros (q1&k1&K1&->&->&D1&Q1&Q2&T1). destruct (pow2_level k1 K1) as [W1 _]. assert (forall x, inb q1 k1 x -> ~ inb q0 k x) as Hno.
    { intros x Hx Hi. pose proof (T1 x Hx) as Tx. rewrite (Hh x), decide_True in Tx by done. injection Tx as ?. lia. }
    split; [|intros Ep; apply (Hno q1); [unfold inb; lia|]; change PAGE_SIZE with 4096 in Ep; unfold inb; lia]. exists q1, k1. split_and!; try done; try lia. intros x Hx. rewrite <-(T1 x Hx), (Hh x).
    by rewrite decide_False by (by apply Hno).
  - intros [(q1&k1&K1&->&->&D1&Q1&Q2&T1) Hne]. exists q1, k1. split_and!; try done; try lia. intros x Hx. rewrite (Hh x). case_decide as Hi; [|by apply T1]. exfalso.
    destruct (kheap_block_meet s q1 k1 q0 k x D1 D ltac:(lia) Hx Hi T1 T) as [-> _]. done.
Qed.

Lemma kheap_block_range s p n : kinv s -> kheap_block s p n -> (4096 | p) /\ 0 < p /\ 4096 <= n /\ p + n < 2 ^ 64.
Proof.
  intros _ (q&k&K&->&->&D&P1&P2&_). destruct (pow2_level k K) as [W _]. change PAGE_SIZE with 4096. change HEAP_BASE with (4096 * 0xFFFFFFFFC0000).
  split; [exists (0xFFFFFFFFC0000 + q); lia|lia].
Qed.
Lemma kheap_block_apart s p n p' n' : kinv s -> kheap_block s p n -> kheap_block s p' n' -> p = p' /\ n = n' \/ p + n <= p' \/ p' + n' <= p.
Proof.
  intros _ (q&k&K&->&->&D&P1&P2&T) (q'&k'&K'&->&->&D'&P1'&P2'&T'). destruct (pow2_level k K) as [W _], (pow2_level k' K') as [W' _]. change PAGE_SIZE with 4096.
  destruct (decide (q + 2 ^ k <= q' \/ q' + 2 ^ k' <= q)); [lia|].
  destruct (kheap_block_meet s q k q' k' (Z.max q q') D D' ltac:(lia) ltac:(unfold inb; lia) ltac:(unfold inb; lia) T T') as [-> ->]. by left.
Qed.
Lemma kheap_free_unaligned s p : kinv s -> 0 <= p < 2 ^ 64 -> ~ (4096 | p) -> kfree p s = Some (tt, s).
Proof.
  intros Hs Hp Hal. destruct (kfree_run s p Hs Hp) as (s'&E&_&[(q&k&_&_&->&_)|[-> _]]); [|done]. destruct Hal.
  exists (0xFFFFFFFFC0000 + q). change HEAP_BASE with (4096 * 0xFFFFFFFFC0000). change PAGE_SIZE with 4096. lia.
Qed.
Lemma kheap_block_count s l : kinv s -> NoDup l -> (forall p, p ∈ l -> exists n, kheap_block s p n) -> (length l <= max_pages)%nat.
Proof.
  intros _ Hnd Hl. assert (l ⊆ (fun q => HEAP_BASE + PAGE_SIZE * q) <$> seqZ 0 4096) as Hsub.
  { intros p Hp. destruct (Hl p Hp) as (n&q&k&K&->&_&_&P1&P2&_). apply list_elem_of_fmap. exists q. split; [done|]. apply elem_of_seqZ. pose proof (pow2_level k K) as [W _]. lia. }
  pose proof (submseteq_length _ _ (NoDup_submseteq _ _ Hnd Hsub)) as Hle. rewrite length_fmap, length_seqZ in Hle. done.
Qed.
#[global] Instance kheap_laws : PageHeapLaws kheap := {|
  heap_ok := kinv; heap_block := kheap_block; heap_block_range := kheap_block_range; heap_block_apart := kheap_block_apart;
  heap_alloc_law := kheap_alloc_law; heap_free_law := kheap_free_law; heap_block_count := kheap_block_count; heap_free_unaligned := kheap_free_unaligned |}.

(** ** Slab pages *)

Definition slots (c : Z) : Z := (SLAB_PAGE - SLAB_HEADER_SIZE) / c.
Definition slot (p c j : Z) : Z := p + SLAB_HEADER_SIZE + j * c.
(** The free slots, from [head] on. *)
Fixpoint fchain (m : gmap Z Z) (p c head : Z) (fs : list Z) : Prop :=
  match fs with [] => head = slots c | j :: fs' => head = j /\ 0 <= j < slots c /\ fchain m p c (word m (slot p c j)) fs' end.
Record page_ok (m : gmap Z Z) (p c : Z) (fs : list Z) : Prop := {
  po_class : word m (class_size p) = c;
  po_count : word m (slot_count p) = slots c;
  po_chain : fchain m p c (word m (free_head p)) fs;
  po_nodup : NoDup fs;
  po_used : word m (used_count p) = slots c - Z.of_nat (length fs)
}.
(** The pages of a class, from [sp] on. *)
Fixpoint plist (m : gmap Z Z) (sp : Z) (l : list Z) : Prop :=
  match l with [] => sp = 0 | p :: l' => sp = p /\ p <> 0 /\ plist m (word m (sp_next p)) l' end.

(** Where a heap page can lie. *)
Definition page_at (p : Z) : Prop := (4096 | p) /\ 0 < p /\ p + 4096 < 2 ^ 64.

Lemma word_insert m a v b : word (<[a := v]> m) b = if decide (a = b) then v else word m b.
Proof. unfold word. case_decide as E; [by rewrite E, lookup_insert_eq|by rewrite lookup_insert_ne]. Qed.
Lemma sizes_cases c i : zget slab_sizes i = Some c -> 16 <= c <= 1024 /\ 3 <= slots c /\ SLAB_HEADER_SIZE + slots c * c <= SLAB_PAGE /\ 0 <= i < 7.
Proof.
  intros H. pose proof (zget_range _ _ _ H) as Hr. simpl in Hr. assert (i = 0 \/ i = 1 \/ i = 2 \/ i = 3 \/ i = 4 \/ i = 5 \/ i = 6) as Hi by lia.
  destruct_or! Hi; subst i; injection H as <-; vm_compute; intuition discriminate.
Qed.
Lemma slot_range p c i j : zget slab_sizes i = Some c -> 0 <= j < slots c -> p + 48 <= slot p c j /\ slot p c j + c <= p + 4096.
Proof. intros (?&?&Hs&_)%sizes_cases Hj. unfold slot, SLAB_HEADER_SIZE, SLAB_PAGE in *. nia. Qed.
Lemma slot_inj p c i j : 0 < c -> slot p c i = slot p c j -> i = j.
Proof. unfold slot. nia. Qed.
Lemma fchain_ext m m' p c fs : forall head, fchain m p c head fs -> (forall j, j ∈ fs -> word m' (slot p c j) = word m (slot p c j)) -> fchain m' p c head fs.
Proof.
  induction fs as [|j fs IH]; intros head; simpl; [done|]. intros (->&Hj&H) He. split; [done|]. split; [done|]. rewrite He by (by left). apply IH; [done|]. intros k Hk. apply He. by right.
Qed.
Lemma fchain_range m p c fs : forall head j, fchain m p c head fs -> j ∈ fs -> 0 <= j < slots c.
Proof. induction fs as [|k fs IH]; intros head j H; [by intros ?%elem_of_nil|]. destruct H as (_&?&H). intros [-> |Hj]%elem_of_cons; [done|by eapply IH]. Qed.
Lemma slots_length c fs : 0 <= slots c -> NoDup fs -> (forall j, j ∈ fs -> 0 <= j < slots c) -> Z.of_nat (length fs) <= slots c.
Proof.
  intros Hc Hnd Hr. assert (fs ⊆+ seqZ 0 (slots c)) as Hsub%submseteq_length; [|rewrite length_seqZ in Hsub; lia]. apply NoDup_submseteq; [done|]. intros k Hk. apply elem_of_seqZ. pose proof (Hr k Hk). lia.
Qed.
Lemma page_ok_ext m m' p c i fs : zget slab_sizes i = Some c -> page_ok m p c fs -> (forall a, p <= a < p + 4096 -> a <> sp_next p -> word m' a = word m a) -> page_ok m' p c fs.
Proof.
  intros Hc [H1 H2 H3 H4 H5] He. unfold class_size, slot_count, free_head, used_count, sp_next in *. split; unfold class_size, slot_count, free_head, used_count; rewrite ?He by lia; try done.
  apply (fchain_ext m); [done|]. intros j Hj. pose proof (slot_range p c i j Hc (fchain_range _ _ _ _ _ _ H3 Hj)). pose proof (sizes_cases _ _ Hc). apply He; lia.
Qed.

Section Pages.
Context {H : Type} `{!PageHeap H}.
Implicit Types s : slab H.
Local Notation mem s := (sl_mem s).

(** Only words of the page [p] other than its link to the next page change. *)
Definition in_page (p : Z) s s' : Prop := s' = set_mem (sl_mem s') s /\ forall a, a < p \/ p + 4096 <= a \/ a = sp_next p -> word (mem s') a = word (mem s) a.

Lemma slot_addr_run s p c j i : page_at p -> word (mem s) (class_size p) = c -> zget slab_sizes i = Some c -> 0 <= j < slots c -> slot_addr p j s = Some (slot p c j, s).
Proof.
  intros Hp Hw Hc Hj. pose proof (slot_range p c i j Hc Hj). pose proof (sizes_cases _ _ Hc). unfold slot_addr, mbind_, rdw, mgets, mret. cbn beta iota. rewrite Hw. unfold slot in *. unwrap. rewrite wrap_small; [done|].
  unfold in_w, page_at in *. lia.
Qed.
Lemma page_alloc_run s p c i j fs : page_at p -> zget slab_sizes i = Some c -> page_ok (mem s) p c (j :: fs) ->
  exists s', slab_page_alloc p s = Some (slot p c j, s') /\ in_page p s s' /\ page_ok (mem s') p c fs.
Proof.
  intros Hp Hc [H1 H2 H3 H4 H5]. destruct H3 as (E&Hj&H3). pose proof (slot_range p c i j Hc Hj). pose proof (sizes_cases _ _ Hc) as (Hc1&Hn&Hs&_). apply NoDup_cons in H4 as [Hnin H4].
  unfold slab_page_alloc. unfold mbind_ at 1 2, rdw at 1 2, mgets. cbn beta iota. rewrite E, H2, (proj2 (Z.leb_gt _ _)) by lia.
  mstep (slot_addr_run s p c j i Hp H1 Hc Hj). unfold mbind_ at 1, rdw at 1, mgets at 1. set (next := word (mem s) (slot p c j)) in *. set (s1 := set_mem (<[free_head p := next]> (mem s)) s).
  assert (0 <= next <= slots c) as Hnext by (destruct fs as [|k fs]; simpl in H3; lia). set (m2 := <[used_count p := slots c - Z.of_nat (length fs)]> (<[free_head p := next]> (mem s))).
  assert (u64 next = next) as En by (unwrap; rewrite wrap_small; [done|unfold in_w; unfold SLAB_PAGE, SLAB_HEADER_SIZE in *; nia]).
  assert (word (mem s1) (used_count p) = slots c - Z.of_nat (length (j :: fs))) as Eu by (simpl; rewrite word_insert, decide_False by (unfold free_head, used_count; lia); done).
  assert (Z.of_nat (length (j :: fs)) <= slots c) as Hlen.
  { apply slots_length; [lia|by apply NoDup_cons|]. intros k. by apply (fchain_range (mem s) p c (j :: fs) j). }
  exists (set_mem m2 s). split; [|split; [split; [done|]|]].
  - unfold mbind_ at 1, wrw at 1, mmodify at 1. rewrite En. fold s1. unfold mbind_ at 1, rdw at 1, mgets at 1. rewrite Eu. unfold mbind_ at 1, wrw at 1, mmodify at 1.
    replace (u64 (slots c - Z.of_nat (length (j :: fs)) + 1)) with (slots c - Z.of_nat (length fs)).
    + apply (slot_addr_run (set_mem m2 s) p c j i Hp); [|done..]. cbn [sl_mem set_mem]. unfold m2. rewrite !word_insert, !decide_False by (unfold class_size, free_head, used_count; lia). done.
    + simpl length in *. unwrap. rewrite wrap_small by (unfold in_w, SLAB_PAGE, SLAB_HEADER_SIZE in *; nia). lia.
  - intros a Ha. cbn [sl_mem set_mem]. unfold m2. rewrite !word_insert, !decide_False by (unfold free_head, used_count, sp_next in *; lia). done.
  - cbn [sl_mem set_mem]. unfold m2. split; rewrite ?word_insert; unfold class_size, slot_count, free_head, used_count in *; rewrite ?decide_False by lia; rewrite ?decide_True by lia; try done.
    apply (fchain_ext (mem s)); [done|]. intros k Hk. pose proof (slot_range p c i k Hc (fchain_range _ _ _ _ _ _ H3 Hk)). rewrite !word_insert, !decide_False by lia. done.
Qed.
(** Only words of the page [p] change. *)
Definition in_page' (p : Z) s s' : Prop := s' = set_mem (sl_mem s') s /\ forall a, a < p \/ p + 4096 <= a -> word (mem s') a = word (mem s) a.
Lemma in_page_write p s s' a v : in_page' p s s' -> p <= a < p + 4096 -> in_page' p s (set_mem (<[a := v]> (mem s')) s').
Proof.
  intros [E Ho] Ha. split; [by rewrite E|]. intros b Hb. cbn [sl_mem set_mem]. rewrite word_insert, decide_False by lia. by apply Ho.
Qed.
Lemma fchain_seq m p c i : zget slab_sizes i = Some c -> (forall j, 0 <= j < slots c -> word m (slot p c j) = j + 1) ->
  forall n j, 0 <= j -> j + Z.of_nat n = slots c -> fchain m p c j (seqZ j (Z.of_nat n)).
Proof.
  intros Hc Hw. induction n as [|n IH]; intros j Hj Hn; [simpl; lia|]. rewrite seqZ_cons by lia. cbn [fchain]. split; [done|]. split; [lia|]. rewrite Hw by lia.
  replace (Z.pred (Z.of_nat (S n))) with (Z.of_nat n) by lia. replace (Z.succ j) with (j + 1) by lia. apply IH; lia.
Qed.
Lemma page_init_run s p c i : page_at p -> zget slab_sizes i = Some c ->
  exists s', slab_page_init p i s = Some (tt, s') /\ in_page' p s s' /\ page_ok (mem s') p c (seqZ 0 (slots c)) /\ word (mem s') (sp_next p) = 0.
Proof.
  intros Hp Hc. pose proof (sizes_cases _ _ Hc) as (Hc1&Hn&Hs&_). unfold slab_page_init. unfold mbind_ at 1, mlift at 1. rewrite Hc. cbn beta iota. fold (slots c).
  assert (forall x, 0 <= x <= 4096 -> u64 x = x) as Hu by (intros; unwrap; apply wrap_small; unfold in_w; lia). assert (slots c <= 4096) as Hsl by (unfold SLAB_PAGE, SLAB_HEADER_SIZE in *; nia).
  set (m1 := <[sp_next p := 0]> (<[used_count p := 0]> (<[slot_count p := slots c]> (<[class_size p := c]> (mem s))))).
  unfold mbind_ at 1 2 3 4, wrw at 1 2 3 4, mmodify at 1 2 3 4. rewrite !Hu by lia. change (set_mem _ _) with (set_mem m1 s).
  pose (I := fun (n : Z) (s' : slab H) => s' = set_mem (mem s') s /\ (forall j, 0 <= j < n -> word (mem s') (slot p c j) = j + 1) /\
     forall a, a < p + 48 \/ p + 4096 <= a -> word (mem s') a = word m1 a).
  assert (forall n s', 0 <= n < slots c -> I n s' -> exists s'', (link <~ slot_addr p n ;; wrw link (n + 1)) s' = Some (tt, s'') /\ I (n + 1) s'') as Hstep.
  { intros n s' Hn0 (E&Hw&Ho). exists (set_mem (<[slot p c n := n + 1]> (mem s')) s'). pose proof (slot_range p c i n Hc Hn0). split.
    - assert (word (mem s') (class_size p) = c) as Hcl by (rewrite Ho by (unfold class_size; lia); unfold m1; rewrite !word_insert; unfold sp_next, used_count, slot_count, class_size; rewrite !decide_False, decide_True by lia; done).
      mstep (slot_addr_run s' p c n i Hp Hcl Hc Hn0). unfold wrw, mmodify. by rewrite Hu by lia.
    - split; [by rewrite E|]. cbn [sl_mem set_mem]. split.
      + intros j Hj. rewrite word_insert. case_decide as Ej; [apply slot_inj in Ej; lia|]. apply Hw. assert (j <> n) by (intros ->; done). lia.
      + intros a Ha. rewrite word_insert, decide_False by lia. by apply Ho. }
  destruct (for_range_inv I 0 (slots c - 1) (fun n => link <~ slot_addr p n ;; wrw link (n + 1)) (set_mem m1 s)) as (s2&E2&HI2); [lia|split; [done|split; [intros; lia|done]]|intros n s' Hn0; apply Hstep; lia|].
  mstep E2. destruct (Hstep (slots c - 1) s2 ltac:(lia) HI2) as (s3&E3&(E&Hw&Ho)).
  assert ((last <~ slot_addr p (slots c - 1) ;; wrw last (slots c)) s2 = Some (tt, s3)) as E3' by (by replace (slots c - 1 + 1) with (slots c) in E3 by lia).
  replace (slots c - 1 + 1) with (slots c) in Hw by lia.
  exists (set_mem (<[free_head p := 0]> (mem s3)) s3). split.
  { revert E3'. unfold mbind_. destruct (slot_addr p (slots c - 1) s2) as [[l s2']|]; [|done]. intros ->. unfold wrw, mmodify. by rewrite Hu by lia. }
  assert (forall a, a < p + 48 \/ p + 4096 <= a -> word (<[free_head p := 0]> (mem s3)) a = if decide (a = free_head p) then 0 else word m1 a) as Hget.
  { intros a Ha. rewrite word_insert. destruct (decide (free_head p = a)), (decide (a = free_head p)); try congruence. by apply Ho. }
  split; [split|split]; cbn [sl_mem set_mem].
  - by rewrite E.
  - intros a Ha. rewrite Hget, decide_False by (unfold free_head; lia). unfold m1. rewrite !word_insert, !decide_False by (unfold sp_next, used_count, slot_count, class_size; lia). done.
  - split; unfold class_size, slot_count, free_head, used_count in *; rewrite ?Hget by lia; rewrite ?decide_False by lia; unfold m1; rewrite ?word_insert; unfold class_size, slot_count, used_count, sp_next; rewrite ?(decide_False (P := _ = _)), ?(decide_True (P := _ = _)) by lia; try done.
    + apply (fchain_ext (mem s3)).
      * pose proof (fchain_seq (mem s3) p c i Hc Hw (Z.to_nat (slots c)) 0 ltac:(lia) ltac:(lia)) as Hf. rewrite Z2Nat.id in Hf by lia. done.
      * intros j Hj. rewrite elem_of_seqZ in Hj. pose proof (slot_range p c i j Hc ltac:(lia)). rewrite word_insert, decide_False by lia. done.
    + apply NoDup_seqZ.
    + rewrite length_seqZ. lia.
  - unfold sp_next. rewrite Hget, decide_False by (unfold free_head; lia). unfold m1. by rewrite word_insert, decide_True by (unfold sp_next; lia).
Qed.
Lemma double_free_run s p c i fs0 sl : page_at p -> zget slab_sizes i = Some c -> page_ok (mem s) p c fs0 -> forall fs n head, fchain (mem s) p c head fs -> (length fs <= n)%nat ->
  double_free n p head sl s = Some (bool_decide (sl ∈ fs), s).
Proof.
  intros Hp Hc [H1 H2 _ _ _]. induction fs as [|k fs IH]; intros n head Hch Hn; destruct n as [|n]; simpl in Hn; try lia; cbn [double_free]; unfold mbind_ at 1, rdw at 1, mgets; cbn beta iota; rewrite H2.
  - simpl in Hch. by rewrite (proj2 (Z.leb_le _ _)) by lia.
  - simpl in Hch. by rewrite (proj2 (Z.leb_le _ _)) by lia.
  - destruct Hch as (->&Hk&Hch). rewrite (proj2 (Z.leb_gt _ _)) by lia. destruct (Z.eqb_spec k sl) as [->|Hne]; [by rewrite bool_decide_true by (by left)|].
    mstep (slot_addr_run s p c k i Hp H1 Hc Hk). unfold mbind_ at 1, rdw at 1, mgets at 1. rewrite IH by (done || lia). do 2 f_equal. apply bool_decide_ext. rewrite elem_of_cons. naive_solver.
Qed.
Lemma page_free_run s p c i fs j : page_at p -> zget slab_sizes i = Some c -> page_ok (mem s) p c fs -> 0 <= j < slots c ->
  if decide (j ∈ fs) then slab_page_free p (slot p c j) s = Some (false, s) else
  exists s', slab_page_free p (slot p c j) s = Some (true, s') /\ in_page p s s' /\ page_ok (mem s') p c (j :: fs).
Proof.
  intros Hp Hc Hok Hj. pose proof Hok as [H1 H2 H3 H4 H5]. pose proof (slot_range p c i j Hc Hj) as Hsl. pose proof (sizes_cases _ _ Hc) as (Hc1&Hn&Hs&_). pose proof Hp as (_&Hp0&Hp1).
  assert (Z.of_nat (length fs) <= slots c) as Hlen.
  { apply slots_length; [lia|done|]. intros k. by apply (fchain_range (mem s) p c fs (word (mem s) (free_head p))). }
  assert (slab_page_free p (slot p c j) s = (d <~ double_free (Z.to_nat (slots c)) p (word (mem s) (free_head p)) j ;; if d : bool then return false else link <~ slot_addr p j ;;
    wrw link (word (mem s) (free_head p)) ;;; wrw (free_head p) j ;;; used <~ rdw (used_count p) ;; wrw (used_count p) (used - 1) ;;; return true) s) as ->.
  { unfold slab_page_free. change SLAB_HEADER_SIZE with 48 in *. change SLAB_PAGE with 4096 in *. unwrap. rewrite !(wrap_small 64 (p + _)) by (unfold in_w; lia). rewrite (proj2 (Z.ltb_ge _ _)), (proj2 (Z.leb_gt _ _)) by lia.
    unfold mbind_ at 1, rdw at 1, mgets at 1. rewrite H1, (proj2 (Z.eqb_neq c 0)) by lia. replace (slot p c j - (p + 48)) with (j * c) by (unfold slot, SLAB_HEADER_SIZE; lia). rewrite Z_mod_mult, Z.div_mul by lia.
    cbn [Z.eqb negb]. unfold mbind_ at 1 2, rdw at 1 2, mgets at 1 2. rewrite H2. done. }
  mstep (double_free_run s p c i fs j Hp Hc Hok fs (Z.to_nat (slots c)) _ H3 ltac:(lia)). case_decide as Hin; [by rewrite bool_decide_true by done|]. rewrite bool_decide_false by done.
  mstep (slot_addr_run s p c j i Hp H1 Hc Hj). set (head := word (mem s) (free_head p)) in *. assert (0 <= head <= slots c) as Hhead by (destruct fs as [|k fs]; simpl in H3; lia).
  assert (forall x, 0 <= x <= 4096 -> u64 x = x) as Hu by (intros; unwrap; apply wrap_small; unfold in_w; lia). assert (slots c <= 4096) by (unfold SLAB_PAGE, SLAB_HEADER_SIZE in *; nia).
  set (m2 := <[used_count p := slots c - Z.of_nat (length fs) - 1]> (<[free_head p := j]> (<[slot p c j := head]> (mem s)))).
  assert (Z.of_nat (length (j :: fs)) <= slots c) as Hlen1.
  { apply slots_length; [lia|by apply NoDup_cons|]. intros k [-> |Hk]%elem_of_cons; [done|]. by apply (fchain_range (mem s) p c fs head). }
  simpl length in Hlen1. exists (set_mem m2 s). split; [|split; [split; [done|]|]].
  - unfold mbind_ at 1 2, wrw at 1 2, mmodify at 1 2. rewrite !Hu by lia. unfold mbind_ at 1, rdw, mgets. unfold mbind_, wrw, mmodify, mret. cbn [sl_mem set_mem].
    rewrite !word_insert, !decide_False by (unfold free_head, used_count; lia). rewrite H5, Hu by lia. done.
  - intros a Ha. cbn [sl_mem set_mem]. unfold m2. rewrite !word_insert, !decide_False by (unfold free_head, used_count, sp_next in *; lia). done.
  - cbn [sl_mem set_mem]. unfold m2. split; rewrite ?word_insert; unfold class_size, slot_count, free_head, used_count in *; rewrite ?decide_False by lia; rewrite ?decide_True by lia; try done.
    + simpl. split; [done|]. split; [done|]. rewrite !word_insert, !decide_False, decide_True by lia. apply (fchain_ext (mem s)); [done|]. intros k Hk.
      pose proof (slot_range p c i k Hc (fchain_range _ _ _ _ _ _ H3 Hk)). rewrite !word_insert, !decide_False; [done| |lia|lia]. intros E. apply slot_inj in E; [|lia]. by subst k.
    + by apply NoDup_cons.
    + simpl. lia.
Qed.
End Pages.

(** ** The invariant *)

Section Slabs.
Context {H : Type} `{!PageHeap H, !PageHeapLaws H}.
Implicit Types s : slab H.
Local Notation mem s := (sl_mem s).

(** The bytes of the objects in use on the pages [l] of class size [c], and on all of them. *)
Definition class_bytes (F : gmap Z (list Z)) (c : Z) (l : list Z) : Z := foldr (fun p n => c * (slots c - Z.of_nat (length (F !!! p))) + n) 0 l.
Fixpoint total (F : gmap Z (list Z)) (cs : list Z) (L : list (list Z)) : Z :=
  match cs, L with c :: cs', l :: L' => class_bytes F c l + total F cs' L' | _, _ => 0 end.

(** [L]: the pages of each class; [F]: the free slots of each page. *)
Record sinv s (L : list (list Z)) (F : gmap Z (list Z)) : Prop := {
  si_init : g_slab_initialized s = true;
  si_heap : heap_ok (sl_heap s);
  si_len : length L = 7%nat /\ length (g_slab_lists s) = 7%nat;
  si_lists : forall i l sp, zget L i = Some l -> zget (g_slab_lists s) i = Some sp -> plist (mem s) sp l;
  si_nodup : NoDup (concat L);
  si_page : forall i l p c, zget L i = Some l -> p ∈ l -> zget slab_sizes i = Some c ->
    exists fs n, F !! p = Some fs /\ page_ok (mem s) p c fs /\ heap_block (sl_heap s) p n;
  si_bytes : g_slab_allocated_bytes s = u64 (total F slab_sizes L)
}.

(** An object in use: a slot that is not free, or a block of the heap that is not a slab page. *)
Definition slot_used (L : list (list Z)) (F : gmap Z (list Z)) (a c : Z) : Prop :=
  exists i l p fs j, zget L i = Some l /\ p ∈ l /\ zget slab_sizes i = Some c /\ F !! p = Some fs /\ 0 <= j < slots c /\ j ∉ fs /\ a = slot p c j.
Definition object s L F (a n : Z) : Prop := slot_used L F a n \/ (heap_block (sl_heap s) a n /\ a ∉ concat L).

Lemma class_of (L : list (list Z)) i l : length L = 7%nat -> zget L i = Some l -> exists c, zget slab_sizes i = Some c.
Proof. intros HL Hl. apply zget_is_Some. pose proof (zget_range _ _ _ Hl) as Hr. rewrite HL in Hr. simpl. lia. Qed.
Lemma in_concat_class L i (l : list Z) p : zget L i = Some l -> p ∈ l -> p ∈ concat L.
Proof. intros [_ Hl]%zget_Some Hp. apply list_elem_of_In, in_concat. exists l. rewrite <-!list_elem_of_In. split; [by eapply list_elem_of_lookup_2|done]. Qed.
Lemma concat_class L (p : Z) : p ∈ concat L -> exists i l, zget L i = Some l /\ p ∈ l.
Proof.
  intros (l&Hl&Hp)%list_elem_of_In%in_concat. apply list_elem_of_In in Hl, Hp. apply list_elem_of_lookup in Hl as [i Hi]. exists (Z.of_nat i), l. by rewrite zget_nat.
Qed.
Lemma page_facts s L F i l p : sinv s L F -> zget L i = Some l -> p ∈ l -> exists c fs n, zget slab_sizes i = Some c /\ F !! p = Some fs /\ page_ok (mem s) p c fs /\ heap_block (sl_heap s) p n /\ page_at p.
Proof.
  intros Hi Hl Hp. destruct (class_of L i l (proj1 (si_len _ _ _ Hi)) Hl) as [c Hc]. destruct (si_page _ _ _ Hi i l p c Hl Hp Hc) as (fs&n&HF&Hok&Hb). exists c, fs, n. split_and!; try done.
  destruct (heap_block_range _ _ _ (si_heap _ _ _ Hi) Hb) as (?&?&?&?). unfold page_at. lia || (split; [done|lia]).
Qed.
Lemma page_eq s L F p q a : sinv s L F -> p ∈ concat L -> q ∈ concat L -> p <= a < p + 4096 -> q <= a < q + 4096 -> p = q.
Proof.
  intros Hi (i&l&Hl&Hp)%concat_class (i'&l'&Hl'&Hq)%concat_class Ha Ha'. destruct (page_facts _ _ _ _ _ _ Hi Hl Hp) as (_&_&n&_&_&_&Hb&_), (page_facts _ _ _ _ _ _ Hi Hl' Hq) as (_&_&n'&_&_&_&Hb'&_).
  destruct (heap_block_range _ _ _ (si_heap _ _ _ Hi) Hb) as (_&_&?&_), (heap_block_range _ _ _ (si_heap _ _ _ Hi) Hb') as (_&_&?&_).
  destruct (heap_block_apart _ _ _ _ _ (si_heap _ _ _ Hi) Hb Hb') as [[? _]|?]; [done|lia].
Qed.
Lemma class_list_nodup s L F i l : sinv s L F -> zget L i = Some l -> NoDup l.
Proof.
  intros Hi [_ Hl]%zget_Some. pose proof (si_nodup _ _ _ Hi) as Hnd. destruct (list_elem_of_split_length _ _ _ Hl) as (L1&L2&->&_). rewrite concat_app in Hnd. apply NoDup_app in Hnd as (_&_&Hnd). simpl in Hnd. by apply NoDup_app in Hnd as (?&_).
Qed.
Lemma class_length s L F i l : sinv s L F -> zget L i = Some l -> (length l <= max_pages)%nat.
Proof.
  intros Hi Hl. apply (heap_block_count (sl_heap s)); [apply Hi| |].
  - by apply (class_list_nodup s L F i).
  - intros p Hp. destruct (page_facts _ _ _ _ _ _ Hi Hl Hp) as (_&_&n&_&_&_&?&_). by exists n.
Qed.

Lemma find_page_run s (F : gmap Z (list Z)) c : forall l n sp, (length l <= n)%nat -> plist (mem s) sp l -> (forall p, p ∈ l -> exists fs, F !! p = Some fs /\ page_ok (mem s) p c fs) ->
  exists r, find_page n sp s = Some (r, s) /\ ((r = 0 /\ forall p, p ∈ l -> F !! p = Some []) \/ (r ∈ l /\ r <> 0 /\ exists j fs, F !! r = Some (j :: fs))).
Proof.
  induction l as [|p l IH]; intros n sp Hn Hpl Hok; simpl in Hpl.
  - subst sp. exists 0. split; [by destruct n|]. left. split; [done|]. by intros p ?%elem_of_nil.
  - destruct Hpl as (->&Hp0&Hpl). destruct n as [|n]; simpl in Hn; [lia|]. cbn [find_page]. rewrite (proj2 (Z.eqb_neq p 0)) by done. destruct (Hok p ltac:(by left)) as (fs&HF&[H1 H2 H3 _ _]).
    unfold mbind_ at 1 2, rdw at 1 2, mgets at 1 2. rewrite H2. destruct fs as [|j fs].
    + simpl in H3. rewrite (proj2 (Z.leb_le _ _)) by lia. unfold mbind_ at 1, rdw, mgets. destruct (IH n _ ltac:(lia) Hpl) as (r&E&Hr); [intros q Hq; apply Hok; by right|]. exists r. split; [exact E|].
      destruct Hr as [[-> Hall]|(Hin&?&?)]; [left|right]; [|by split; [right|]]. split; [done|]. intros q [-> |Hq]%elem_of_cons; [done|by apply Hall].
    + destruct H3 as (->&Hj&_). rewrite (proj2 (Z.leb_gt _ _)) by lia. exists p. split; [done|]. right. split; [by left|]. split; [done|by exists j, fs].
Qed.
(** ** Counting *)

Lemma class_bytes_other F c l p x : p ∉ l -> class_bytes (<[p := x]> F) c l = class_bytes F c l.
Proof using Type.
  induction l as [|q l IH]; [done|]. intros [Hne Hp]%not_elem_of_cons. simpl. rewrite lookup_total_insert_ne by done. by rewrite IH.
Qed.
Lemma class_bytes_upd F c l p fs x : NoDup l -> p ∈ l -> F !! p = Some fs -> class_bytes (<[p := x]> F) c l = class_bytes F c l + c * (Z.of_nat (length fs) - Z.of_nat (length x)).
Proof using Type.
  intros Hnd Hp HF. induction l as [|q l IH]; [by apply elem_of_nil in Hp|]. apply NoDup_cons in Hnd as [Hq Hnd]. simpl. destruct (decide (q = p)) as [->|Hne].
  - rewrite lookup_total_insert_eq, (lookup_total_correct _ _ _ HF), class_bytes_other by done. lia.
  - apply elem_of_cons in Hp as [?|Hp]; [congruence|]. rewrite lookup_total_insert_ne, (IH Hnd Hp) by done. lia.
Qed.
Lemma total_other F p x : forall cs L, p ∉ concat L -> total (<[p := x]> F) cs L = total F cs L.
Proof using Type.
  induction cs as [|c cs IH]; intros [|l L]; simpl; try done. intros [? ?]%not_elem_of_app. by rewrite class_bytes_other, IH.
Qed.
Lemma total_upd F p fs x c l : forall cs L i, NoDup (concat L) -> L !! i = Some l -> cs !! i = Some c -> p ∈ l -> F !! p = Some fs ->
  total (<[p := x]> F) cs L = total F cs L + c * (Z.of_nat (length fs) - Z.of_nat (length x)).
Proof using Type.
  induction cs as [|c0 cs IH]; intros [|l0 L] [|i] Hnd Hl Hc Hp HF; simpl in *; try done; apply NoDup_app in Hnd as (Hnd&Hdis&HndL).
  - simplify_eq. rewrite (class_bytes_upd F c l p fs), total_other by (done || by apply Hdis). lia.
  - assert (p ∈ concat L) as HpL by (apply (in_concat_class L (Z.of_nat i) l); [by rewrite zget_nat|done]). rewrite class_bytes_other by (intros Hin; by apply (Hdis p)). rewrite (IH L i) by done. lia.
Qed.
Lemma total_cons F p c l : forall cs L i, L !! i = Some l -> cs !! i = Some c -> total F cs (<[i := p :: l]> L) = total F cs L + c * (slots c - Z.of_nat (length (F !!! p))).
Proof using Type.
  induction cs as [|c0 cs IH]; intros [|l0 L] [|i] Hl Hc; simpl in *; try done; simplify_eq; [simpl; lia|]. rewrite (IH L i) by done. lia.
Qed.
Lemma concat_insert_cons (p : Z) l : forall L i, L !! i = Some l -> concat (<[i := p :: l]> L) ≡ₚ p :: concat L.
Proof using Type.
  induction L as [|l0 L IH]; intros [|i] Hl; simpl in *; try done; simplify_eq; [done|]. rewrite (IH i Hl). by rewrite Permutation_middle.
Qed.
(** ** One page changes *)

Lemma plist_ext m m' l : forall sp, plist m sp l -> (forall p, p ∈ l -> word m' (sp_next p) = word m (sp_next p)) -> plist m' sp l.
Proof using Type.
  induction l as [|p l IH]; intros sp; simpl; [done|]. intros (->&Hp&Hl) He. split; [done|]. split; [done|]. rewrite He by (by left). apply IH; [done|]. intros q Hq. apply He. by right.
Qed.
Lemma in_page_frame p s s0 : in_page p s s0 -> sl_heap s0 = sl_heap s /\ g_slab_lists s0 = g_slab_lists s /\ g_slab_initialized s0 = g_slab_initialized s /\ g_slab_allocated_bytes s0 = g_slab_allocated_bytes s.
Proof using Type. intros [-> _]. done. Qed.
(** Words of one page change, not its link. *)
Lemma sinv_page s s0 L F i l p c fs fs' n : sinv s L F -> zget L i = Some l -> p ∈ l -> zget slab_sizes i = Some c -> F !! p = Some fs -> in_page p s s0 -> page_ok (mem s0) p c fs' ->
  n = c * (Z.of_nat (length fs) - Z.of_nat (length fs')) -> sinv (add_bytes n s0) L (<[p := fs']> F).
Proof.
  intros Hi Hl Hp Hc HF [E Ho] Hok ->. assert (forall q, q ∈ concat L -> q <> p -> forall a, q <= a < q + 4096 -> word (mem s0) a = word (mem s) a) as Hother.
  { intros q Hq Hne a Ha. apply Ho. destruct (decide (a < p \/ p + 4096 <= a)); [tauto|]. destruct Hne. apply (page_eq s L F q p a Hi); [done|by eapply in_concat_class|lia..]. }
  destruct (in_page_frame p s s0 (conj E Ho)) as (E1&E2&E3&E4).
  split; cbn [add_bytes g_slab_initialized sl_heap g_slab_lists sl_mem g_slab_allocated_bytes]; rewrite ?E1, ?E2, ?E3, ?E4.
  - apply Hi.
  - apply Hi.
  - apply Hi.
  - intros i' l' sp Hl' Hsp. apply (plist_ext (mem s)); [by apply (si_lists _ _ _ Hi i')|]. intros q Hq. destruct (decide (q = p)) as [->|Hne]; [apply Ho; lia|].
    apply (Hother q); [by eapply in_concat_class|done|unfold sp_next; lia].
  - apply Hi.
  - intros i' l' q c' Hl' Hq Hc'. destruct (si_page _ _ _ Hi i' l' q c' Hl' Hq Hc') as (gs&b&HF'&Hok'&Hb). destruct (decide (q = p)) as [->|Hne].
    + exists fs', b. split; [apply lookup_insert_eq|]. split; [|done]. destruct (si_page _ _ _ Hi i l p c Hl Hp Hc) as (fs1&_&_&Hok1&_). replace c' with c; [done|]. by rewrite <-(po_class _ _ _ _ Hok1), (po_class _ _ _ _ Hok').
    + exists gs, b. split; [by rewrite lookup_insert_ne|]. split; [|done]. apply (page_ok_ext (mem s) _ q c' i'); [done..|]. intros a Ha _. apply (Hother q); [by eapply in_concat_class|done|done].
  - rewrite (si_bytes _ _ _ Hi). unfold u64. rewrite wrap_add_wrap_l by lia. f_equal. symmetry. apply zget_Some in Hl as [Hi0 Hl], Hc as [_ Hc]. by apply (total_upd F p fs fs' c l slab_sizes L (Z.to_nat i)); [apply Hi|..].
Qed.
(** A fresh page at the head of its class. *)
Lemma sinv_new_page s s0 L F i l p c h n sp : sinv s L F -> zget L i = Some l -> zget slab_sizes i = Some c -> zget (g_slab_lists s) i = Some sp -> heap_ok h ->
  heap_block h p n -> (forall q m, heap_block h q m <-> heap_block (sl_heap s) q m \/ q = p /\ m = n) -> (forall m, ~ heap_block (sl_heap s) p m) ->
  sl_heap s0 = h -> g_slab_lists s0 = <[Z.to_nat i := p]> (g_slab_lists s) -> g_slab_initialized s0 = true -> g_slab_allocated_bytes s0 = g_slab_allocated_bytes s ->
  (forall a, a < p \/ p + 4096 <= a -> word (mem s0) a = word (mem s) a) -> word (mem s0) (sp_next p) = sp -> page_ok (mem s0) p c (seqZ 0 (slots c)) ->
  sinv s0 (<[Z.to_nat i := p :: l]> L) (<[p := seqZ 0 (slots c)]> F).
Proof.
  intros Hi Hl Hc Hsp Hh Hb Hiff Hfresh E1 E2 E3 E4 Ho Hnext Hok. pose proof (sizes_cases _ _ Hc) as (_&Hn3&_&Hi7).
  assert (forall q, q ∈ concat L -> exists m, heap_block (sl_heap s) q m) as Hblk.
  { intros q (i'&l'&Hl'&Hq)%concat_class. destruct (page_facts _ _ _ _ _ _ Hi Hl' Hq) as (_&_&m&_&_&_&?&_). by exists m. }
  assert (p ∉ concat L) as Hnin by (intros Hin; destruct (Hblk p Hin) as [m Hm]; by apply (Hfresh m)).
  assert (forall q a, q ∈ concat L -> q <= a < q + 4096 -> word (mem s0) a = word (mem s) a) as Hother.
  { intros q a Hq Ha. apply Ho. destruct (Hblk q Hq) as [m Hm]. destruct (heap_block_range h q m Hh ltac:(apply Hiff; by left)) as (_&_&?&_), (heap_block_range h p n Hh Hb) as (_&_&?&_).
    destruct (heap_block_apart h p n q m Hh Hb ltac:(apply Hiff; by left)) as [[-> _]|?]; [done|lia]. }
  destruct (heap_block_range h p n Hh Hb) as (_&Hp0&_&_). apply zget_Some in Hl as [Hi0 Hl]. pose proof (lookup_lt_Some _ _ _ Hl) as Hlt.
  split.
  - done.
  - by rewrite E1.
  - rewrite length_insert, E2, length_insert. apply Hi.
  - intros i' l' sp' Hl' Hsp'. rewrite E2 in Hsp'. rewrite zget_insert in Hl' by lia. rewrite zget_insert in Hsp' by (rewrite (proj2 (si_len _ _ _ Hi)); lia).
    case_decide as Ei.
    + injection Hl' as <-. injection Hsp' as <-. simpl. split; [done|]. split; [lia|]. rewrite Hnext. apply (plist_ext (mem s)); [apply (si_lists _ _ _ Hi i); [apply zget_Some; done|done]|].
      intros q Hq. apply (Hother q); [|unfold sp_next; lia]. apply (in_concat_class L i l); [apply zget_Some; done|done].
    + apply (plist_ext (mem s)); [by apply (si_lists _ _ _ Hi i')|]. intros q Hq. apply (Hother q); [by eapply in_concat_class|unfold sp_next; lia].
  - rewrite concat_insert_cons by done. apply NoDup_cons. split; [done|apply Hi].
  - intros i' l' q c' Hl' Hq Hc'. rewrite zget_insert in Hl' by lia. rewrite E1. destruct (decide (q = p)) as [->|Hne].
    + exists (seqZ 0 (slots c)), n. split; [apply lookup_insert_eq|]. split; [|done]. case_decide as Ei; [by simplify_eq|]. destruct Hnin. by eapply in_concat_class.
    + assert (exists l'', zget L i' = Some l'' /\ q ∈ l'') as (l''&Hl''&Hq'').
      { case_decide as Ei; [|by exists l']. simplify_eq. apply elem_of_cons in Hq as [?|Hq]; [done|]. exists l. split; [apply zget_Some; done|done]. }
      destruct (si_page _ _ _ Hi i' l'' q c' Hl'' Hq'' Hc') as (gs&b&HF'&Hok'&Hb'). exists gs, b. split; [by rewrite lookup_insert_ne|]. split; [|apply Hiff; by left].
      apply (page_ok_ext (mem s) _ q c' i'); [done..|]. intros a Ha _. apply (Hother q); [by eapply in_concat_class|done].
  - rewrite E4, (si_bytes _ _ _ Hi). f_equal. apply zget_Some in Hc as [_ Hc]. rewrite (total_cons _ p c l slab_sizes L (Z.to_nat i)) by done. rewrite lookup_total_insert_eq, length_seqZ, total_other by done. lia.
Qed.

(** ** The objects *)

Lemma page_class s L F i l i' l' p c c' : sinv s L F -> zget L i = Some l -> p ∈ l -> zget slab_sizes i = Some c -> zget L i' = Some l' -> p ∈ l' -> zget slab_sizes i' = Some c' -> c' = c.
Proof.
  intros Hi Hl Hp Hc Hl' Hp' Hc'. destruct (si_page _ _ _ Hi i l p c Hl Hp Hc) as (?&?&_&Hok&_), (si_page _ _ _ Hi i' l' p c' Hl' Hp' Hc') as (?&?&_&Hok'&_).
  by rewrite <-(po_class _ _ _ _ Hok), <-(po_class _ _ _ _ Hok').
Qed.
Lemma slot_used_in s L F a c : sinv s L F -> slot_used L F a c -> exists p, p ∈ concat L /\ p + 48 <= a /\ a + c <= p + 4096 /\ 16 <= c.
Proof.
  intros Hi (i&l&p&fs&j&Hl&Hp&Hc&HF&Hj&_&->). pose proof (slot_range p c i j Hc Hj). pose proof (sizes_cases _ _ Hc). exists p. split; [by eapply in_concat_class|lia].
Qed.
(** The slots in use when the free list of one page changes. *)
Lemma slot_used_upd s L F i l p c fs fs' a n : sinv s L F -> zget L i = Some l -> p ∈ l -> zget slab_sizes i = Some c -> F !! p = Some fs ->
  slot_used L (<[p := fs']> F) a n <-> (exists k, 0 <= k < slots c /\ k ∉ fs' /\ a = slot p c k /\ n = c) \/ (slot_used L F a n /\ ~ (p <= a < p + 4096)).
Proof.
  intros Hi Hl Hp Hc HF. split.
  - intros (i1&l1&p1&fs1&j&Hl1&Hp1&Hc1&HF1&Hj&Hnin&->). pose proof (slot_range p1 n i1 j Hc1 Hj). pose proof (sizes_cases _ _ Hc1). destruct (decide (p1 = p)) as [->|Hne].
    + left. rewrite lookup_insert_eq in HF1. injection HF1 as <-.
      assert (n = c) as -> by (by apply (page_class s L F i l i1 l1 p)). by exists j.
    + right. rewrite lookup_insert_ne in HF1 by done. split; [by exists i1, l1, p1, fs1, j|]. intros Ha. apply Hne. apply (page_eq s L F p1 p (slot p1 n j) Hi); [exact (in_concat_class _ _ _ _ Hl1 Hp1)|exact (in_concat_class _ _ _ _ Hl Hp)|lia|lia].
  - intros [(k&Hk&Hnin&->&->)|[(i1&l1&p1&fs1&j&Hl1&Hp1&Hc1&HF1&Hj&Hnin&->) Ho]].
    + exists i, l, p, fs', k. split_and!; try done; try lia. apply lookup_insert_eq.
    + exists i1, l1, p1, fs1, j. split_and!; try done; try lia. rewrite lookup_insert_ne; [done|]. intros <-. pose proof (slot_range p n i1 j Hc1 Hj). pose proof (sizes_cases _ _ Hc1). lia.
Qed.
Lemma object_apart s L F a n b m : sinv s L F -> object s L F a n -> object s L F b m -> (a = b /\ n = m) \/ a + n <= b \/ b + m <= a.
Proof.
  intros Hi. assert (forall p x k, p ∈ concat L -> heap_block (sl_heap s) x k -> x ∉ concat L -> x + k <= p \/ p + 4096 <= x) as Hpb.
  { intros p x k (i&l&Hl&Hp)%concat_class Hx Hnin. destruct (page_facts _ _ _ _ _ _ Hi Hl Hp) as (_&_&n'&_&_&_&Hb&_). destruct (heap_block_range _ _ _ (si_heap _ _ _ Hi) Hb) as (_&_&?&_).
    destruct (heap_block_apart _ _ _ _ _ (si_heap _ _ _ Hi) Hb Hx) as [[-> _]|?]; [|lia]. destruct Hnin. by eapply in_concat_class. }
  intros [Ha|[Ha Ha']] [Hb|[Hb Hb']].
  - destruct Ha as (i&l&p&fs&j&Hl&Hp&Hc&HF&Hj&Hnin&->), Hb as (i'&l'&p'&fs'&j'&Hl'&Hp'&Hc'&HF'&Hj'&Hnin'&->). pose proof (slot_range p n i j Hc Hj). pose proof (slot_range p' m i' j' Hc' Hj').
    pose proof (sizes_cases _ _ Hc). pose proof (sizes_cases _ _ Hc'). destruct (decide (p = p')) as [<-|Hne].
    + assert (m = n) as -> by (by apply (page_class s L F i l i' l' p)).
      unfold slot in *. destruct (Z.lt_trichotomy j j') as [|[->|]]; [right; left; nia|by left|right; right; nia].
    + destruct (page_facts _ _ _ _ _ _ Hi Hl Hp) as (_&_&k&_&_&_&Hk&_), (page_facts _ _ _ _ _ _ Hi Hl' Hp') as (_&_&k'&_&_&_&Hk'&_).
      destruct (heap_block_range _ _ _ (si_heap _ _ _ Hi) Hk) as (_&_&?&_), (heap_block_range _ _ _ (si_heap _ _ _ Hi) Hk') as (_&_&?&_).
      destruct (heap_block_apart _ _ _ _ _ (si_heap _ _ _ Hi) Hk Hk') as [[? _]|?]; [done|lia].
  - destruct (slot_used_in _ _ _ _ _ Hi Ha) as (p&Hp&?&?&?). pose proof (Hpb p b m Hp Hb Hb'). lia.
  - destruct (slot_used_in _ _ _ _ _ Hi Hb) as (p&Hp&?&?&?). pose proof (Hpb p a n Hp Ha Ha'). lia.
  - by apply (heap_block_apart _ _ _ _ _ (si_heap _ _ _ Hi)).
Qed.

Lemma size_to_class_run size : 0 < size -> match size_to_class size with Some i => exists c, zget slab_sizes i = Some c /\ size <= c | None => 1024 < size end.
Proof using Type.
  intros Hs. unfold size_to_class, slab_sizes. cbn [class_loop]. repeat match goal with |- context [Z.leb ?a ?b] => destruct (Z.leb_spec a b); [by eexists; split; [reflexivity|]|] end. lia.
Qed.
(** A slot of a page with a free one. *)
Lemma alloc_slot s L F i l p c j fs : sinv s L F -> zget L i = Some l -> p ∈ l -> zget slab_sizes i = Some c -> F !! p = Some (j :: fs) ->
  exists s', (obj <~ slab_page_alloc p ;; (if obj =? 0 then return tt else c <~ rdw (class_size p) ;; mmodify (add_bytes c)) ;;; return obj) s = Some (slot p c j, s') /\
  sl_heap s' = sl_heap s /\ sinv s' L (<[p := fs]> F) /\ forall a n, slot_used L (<[p := fs]> F) a n <-> slot_used L F a n \/ a = slot p c j /\ n = c.
Proof.
  intros Hi Hl Hp Hc HF. destruct (si_page _ _ _ Hi i l p c Hl Hp Hc) as (fs0&b&HF0&Hok&Hb). rewrite HF in HF0. injection HF0 as <-. destruct (page_facts _ _ _ _ _ _ Hi Hl Hp) as (_&_&_&_&_&_&_&Hpa).
  destruct (page_alloc_run s p c i j fs Hpa Hc Hok) as (s1&E&Hin&Hok1). pose proof (fchain_range _ _ _ _ _ _ (po_chain _ _ _ _ Hok) ltac:(by left)) as Hj. pose proof (slot_range p c i j Hc Hj) as Hsr.
  pose proof (po_nodup _ _ _ _ Hok) as [Hnin Hnd]%NoDup_cons. exists (add_bytes c s1). split; [|split; [|split]].
  - mstep E. destruct Hpa as (_&?&_). rewrite (proj2 (Z.eqb_neq _ 0)) by lia. unfold mbind_, rdw, mgets, mmodify, mret. by rewrite (po_class _ _ _ _ Hok1).
  - by destruct (in_page_frame p s s1 Hin) as (?&_).
  - apply (sinv_page s s1 L F i l p c (j :: fs) fs c); try done. simpl. lia.
  - intros a n. rewrite (slot_used_upd s L F i l p c (j :: fs) fs a n Hi Hl Hp Hc HF). split.
    + intros [(k&Hk&Hnk&->&->)|[? _]]; [|by left]. destruct (decide (k = j)) as [->|Hne]; [by right|]. left. exists i, l, p, (j :: fs), k. split_and!; try done; try lia. by apply not_elem_of_cons.
    + intros [Hu|[-> ->]]; [|left; by exists j]. destruct (decide (p <= a < p + 4096)) as [Hpp|]; [left|by right]. destruct Hu as (i1&l1&p1&fs1&k&Hl1&Hp1&Hc1&HF1&Hk&Hnk&->).
      pose proof (slot_range p1 n i1 k Hc1 Hk). pose proof (sizes_cases _ _ Hc1). assert (p1 = p) as -> by (apply (page_eq s L F p1 p (slot p1 n k) Hi); [exact (in_concat_class _ _ _ _ Hl1 Hp1)|exact (in_concat_class _ _ _ _ Hl Hp)|lia|lia]).
      assert (n = c) as -> by (by apply (page_class s L F i l i1 l1 p)).
      rewrite HF in HF1. injection HF1 as <-. apply not_elem_of_cons in Hnk as [_ Hnk]. by exists k.
Qed.
(** ** slab_alloc *)

Definition with_heap (h : H) s : slab H := SlabState h (sl_mem s) (g_slab_lists s) (g_slab_initialized s) (g_slab_allocated_bytes s).
Lemma sinv_heap s L F h : sinv s L F -> heap_ok h -> (forall p n, p ∈ concat L -> heap_block (sl_heap s) p n -> heap_block h p n) -> sinv (with_heap h s) L F.
Proof.
  intros Hi Hh Hb. split; try apply Hi; [done|]. intros i l p c Hl Hp Hc. destruct (si_page _ _ _ Hi i l p c Hl Hp Hc) as (fs&n&?&?&?). exists fs, n. split; [done|]. split; [done|]. apply Hb; [by eapply in_concat_class|done].
Qed.
Lemma list_head s L F i l sp : sinv s L F -> zget L i = Some l -> zget (g_slab_lists s) i = Some sp -> u64 sp = sp.
Proof.
  intros Hi Hl Hsp. pose proof (si_lists _ _ _ Hi i l sp Hl Hsp) as Hpl. destruct l as [|p l]; simpl in Hpl; [by subst|]. destruct Hpl as (->&_).
  destruct (page_facts _ _ _ _ _ p Hi Hl ltac:(by left)) as (_&_&_&_&_&_&_&(_&?&?)). unwrap. apply wrap_small. unfold in_w. lia.
Qed.
Lemma new_page_run s L F i l c : sinv s L F -> zget L i = Some l -> zget slab_sizes i = Some c ->
  let code := (page <~ on_pages (heap_alloc SLAB_PAGE) ;; if page =? 0 then return 0 else slab_page_init page i ;;; s <~ mget ;; head <~ mlift (zget (g_slab_lists s) i) ;;
     wrw (sp_next page) head ;;; ls <~ mlift (zset (g_slab_lists s) i page) ;; mmodify (set_lists ls) ;;; return page) in
  code s = Some (0, s) \/ exists p h n s1, code s = Some (p, s1) /\ p <> 0 /\ sl_heap s1 = h /\ heap_ok h /\ p ∉ concat L /\ (forall m, ~ heap_block (sl_heap s) p m) /\ (forall q m, heap_block h q m <-> heap_block (sl_heap s) q m \/ q = p /\ m = n) /\
    sinv s1 (<[Z.to_nat i := p :: l]> L) (<[p := seqZ 0 (slots c)]> F).
Proof.
  intros Hi Hl Hc code. destruct (heap_alloc_law (sl_heap s) SLAB_PAGE (si_heap _ _ _ Hi) ltac:(unfold SLAB_PAGE; lia)) as (p&h&E&Hh&Hcase). assert (on_pages (heap_alloc SLAB_PAGE) s = Some (p, with_heap h s)) as E1 by (unfold on_pages; by rewrite E).
  unfold code. destruct Hcase as [[-> ->]|(n&_&Hb&Hiff&Hfresh)].
  { left. mstep E1. by destruct s. }
  right. destruct (heap_block_range h p n Hh Hb) as (Hal&Hp0&Hn&Hpn). assert (page_at p) as Hpa by (split; [done|lia]). mstep E1. rewrite (proj2 (Z.eqb_neq p 0)) by lia.
  destruct (page_init_run (with_heap h s) p c i Hpa Hc) as (s2&E2&[Es2 Ho2]&Hok2&Hnx). mstep E2. assert (g_slab_lists s2 = g_slab_lists s /\ sl_heap s2 = h /\ g_slab_initialized s2 = true /\ g_slab_allocated_bytes s2 = g_slab_allocated_bytes s) as (El&Eh&Ei&Eb).
  { rewrite Es2. simpl. split_and!; try done. apply Hi. }
  pose proof (zget_range _ _ _ Hl) as Hir. destruct (si_len _ _ _ Hi) as [HL1 HL2]. destruct (zget_is_Some (g_slab_lists s) i ltac:(lia)) as [sp Hsp]. unfold mbind_ at 1, mget at 1. rewrite El. unfold mbind_ at 1, mlift at 1. rewrite Hsp.
  assert (zset (g_slab_lists s) i p = Some (<[Z.to_nat i := p]> (g_slab_lists s))) as Hzs by (apply zset_Some; lia).
  unfold mbind_ at 1, wrw at 1, mmodify at 1. rewrite (list_head s L F i l sp Hi Hl Hsp). unfold mbind_ at 1, mlift at 1. rewrite Hzs. unfold mbind_ at 1, mmodify at 1. set (s1 := set_lists _ _).
  exists p, h, n, s1. split; [done|]. split; [lia|]. split; [done|]. split; [done|]. split.
  { intros (i'&l'&Hl'&Hp')%concat_class. destruct (page_facts _ _ _ _ _ _ Hi Hl' Hp') as (_&_&m&_&_&_&Hm&_). by apply (Hfresh m). }
  split; [done|]. split; [done|]. apply (sinv_new_page s s1 L F i l p c h n sp Hi Hl Hc Hsp Hh Hb Hiff Hfresh); try done; unfold s1; cbn [set_lists set_mem sl_mem].
  - intros a Ha. rewrite word_insert, decide_False by (unfold sp_next; lia). by apply Ho2.
  - by rewrite word_insert, decide_True.
  - apply (page_ok_ext (mem s2) _ p c i); [done|done|]. intros a _ Ha. by rewrite word_insert, decide_False.
Qed.

(** A free slot is no object. *)
Lemma free_slot_fresh s L F i l p c fs j m : sinv s L F -> zget L i = Some l -> p ∈ l -> zget slab_sizes i = Some c -> F !! p = Some fs -> j ∈ fs -> ~ object s L F (slot p c j) m.
Proof.
  intros Hi Hl Hp Hc HF Hj. destruct (si_page _ _ _ Hi i l p c Hl Hp Hc) as (fs0&b&HF0&Hok&Hb). rewrite HF in HF0. injection HF0 as <-. pose proof (fchain_range _ _ _ _ _ _ (po_chain _ _ _ _ Hok) Hj) as Hjr.
  pose proof (slot_range p c i j Hc Hjr). pose proof (sizes_cases _ _ Hc) as (?&_). intros [(i1&l1&p1&fs1&k&Hl1&Hp1&Hc1&HF1&Hk&Hnk&E)|[Hb' Hnin]].
  - pose proof (slot_range p1 m i1 k Hc1 Hk). pose proof (sizes_cases _ _ Hc1). assert (p1 = p) as -> by (apply (page_eq s L F p1 p (slot p c j) Hi); [exact (in_concat_class _ _ _ _ Hl1 Hp1)|exact (in_concat_class _ _ _ _ Hl Hp)|lia|lia]).
    assert (m = c) as -> by (by apply (page_class s L F i l i1 l1 p)). apply slot_inj in E; [|lia]. subst k. rewrite HF in HF1. by injection HF1 as <-.
  - destruct (heap_block_range _ _ _ (si_heap _ _ _ Hi) Hb) as (_&_&?&_), (heap_block_range _ _ _ (si_heap _ _ _ Hi) Hb') as (_&_&?&_).
    destruct (heap_block_apart _ _ _ _ _ (si_heap _ _ _ Hi) Hb Hb') as [[? _]|?]; lia.
Qed.
Lemma new_page_objects s s1 L F i l p c h n b m : sinv s L F -> zget L i = Some l -> zget slab_sizes i = Some c -> sl_heap s1 = h -> p ∉ concat L -> (forall m, ~ heap_block (sl_heap s) p m) ->
  (forall q m, heap_block h q m <-> heap_block (sl_heap s) q m \/ q = p /\ m = n) ->
  object s1 (<[Z.to_nat i := p :: l]> L) (<[p := seqZ 0 (slots c)]> F) b m <-> object s L F b m.
Proof.
  intros Hi Hl Hc Eh Hnin Hpfresh Hiff. pose proof (zget_range _ _ _ Hl) as Hir. assert (forall x, x ∈ concat (<[Z.to_nat i := p :: l]> L) <-> x = p \/ x ∈ concat L) as Hcon.
  { intros x. apply zget_Some in Hl as [_ Hl]. rewrite (concat_insert_cons p l L _ Hl). apply elem_of_cons. }
  unfold object. rewrite Eh, Hiff, Hcon. assert (slot_used (<[Z.to_nat i := p :: l]> L) (<[p := seqZ 0 (slots c)]> F) b m <-> slot_used L F b m) as ->.
  { split; intros (i1&l1&q&fs&k&Hl1&Hq&Hc1&HF1&Hk&Hnk&->).
    - rewrite zget_insert in Hl1 by lia. destruct (decide (q = p)) as [->|Hne].
      + exfalso. rewrite lookup_insert_eq in HF1. injection HF1 as <-. case_decide as Ei; [|destruct Hnin; exact (in_concat_class _ _ _ _ Hl1 Hq)]. subst i1. rewrite Hc in Hc1. injection Hc1 as <-. apply Hnk, elem_of_seqZ. lia.
      + rewrite lookup_insert_ne in HF1 by done. case_decide as Ei; [|by exists i1, l1, q, fs, k]. subst i1. injection Hl1 as <-. apply elem_of_cons in Hq as [?|Hq]; [done|]. by exists i, l, q, fs, k.
    - assert (q <> p) by (intros ->; apply Hnin; exact (in_concat_class _ _ _ _ Hl1 Hq)). destruct (decide (i = i1)) as [<-|Hne].
      + rewrite Hl in Hl1. injection Hl1 as <-. exists i, (p :: l), q, fs, k. rewrite zget_insert_eq, lookup_insert_ne by (done || lia). split_and!; try done; try lia. by right.
      + exists i1, l1, q, fs, k. rewrite zget_insert_ne, lookup_insert_ne by (done || lia). split_and!; done || lia. }
  split; [|intros [?|[? ?]]; [by left|right; split; [by left|]]].
  - intros [?|[[?|[-> ->]] Hno]]; [by left|right|tauto]. split; [done|tauto].
  - intros [-> |?]; [|done]. destruct (Hpfresh m); done.
Qed.
Lemma slab_alloc_run s L F size : sinv s L F -> 0 <= size < 2 ^ 64 -> exists a s' L' F', slab_alloc size s = Some (a, s') /\ sinv s' L' F' /\
  ((a = 0 /\ forall b m, object s' L' F' b m <-> object s L F b m) \/
   (exists n, 0 < size /\ (size <= 2 ^ 23 -> size <= n) /\ (forall b m, object s' L' F' b m <-> object s L F b m \/ b = a /\ m = n) /\ (forall m, ~ object s L F a m))).
Proof.
  intros Hi Hsz. unfold slab_alloc. unfold mbind_ at 1, mget at 1. rewrite (si_init _ _ _ Hi). cbn [negb orb]. destruct (Z.eqb_spec size 0) as [->|Hne]; [exists 0, s, L, F; split; [done|]; split; [done|by left]|].
  pose proof (size_to_class_run size ltac:(lia)) as Hcls. destruct (size_to_class size) as [i|].
  - destruct Hcls as (c&Hc&Hsc). pose proof (sizes_cases _ _ Hc) as (Hc1&Hn3&_&Hi7). destruct (si_len _ _ _ Hi) as [HL1 HL2]. destruct (zget_is_Some L i ltac:(lia)) as [l Hl].
    destruct (zget_is_Some (g_slab_lists s) i ltac:(lia)) as [sp Hsp]. unfold mbind_ at 1, mlift at 1. rewrite Hsp.
    destruct (find_page_run s F c l max_pages sp (class_length s L F i l Hi Hl) (si_lists _ _ _ Hi i l sp Hl Hsp)) as (r&E&Hr). { intros q Hq. destruct (si_page _ _ _ Hi i l q c Hl Hq Hc) as (fs&n&?&?&_). by exists fs. }
    mstep E. destruct Hr as [[-> _]|(Hrl&Hr0&j&fs&HF)].
    + cbn [Z.eqb]. destruct (new_page_run s L F i l c Hi Hl Hc) as [E1|(p&h&n&s1&E1&Hp0&Eh&Hh&Hnin&Hfresh&Hiff&Hi1)]; mstep E1; [exists 0, s, L, F; split; [done|]; split; [done|by left]|].
      rewrite (proj2 (Z.eqb_neq p 0)) by done. set (L1 := <[Z.to_nat i := p :: l]> L) in *. set (F1 := <[p := seqZ 0 (slots c)]> F) in *.
      assert (zget L1 i = Some (p :: l)) as Hl1 by (apply zget_insert_eq; lia). assert (F1 !! p = Some (0 :: seqZ 1 (Z.pred (slots c)))) as HF1 by (unfold F1; rewrite lookup_insert_eq, seqZ_cons by lia; done).
      destruct (alloc_slot s1 L1 F1 i (p :: l) p c 0 _ Hi1 Hl1 ltac:(by left) Hc HF1) as (s'&E2&Eh2&Hi2&Hsu). exists (slot p c 0), s', L1, (<[p := seqZ 1 (Z.pred (slots c))]> F1). split; [exact E2|]. split; [done|]. right.
      exists c. split; [lia|]. split; [lia|]. pose proof (fun b m => new_page_objects s s1 L F i l p c h n b m Hi Hl Hc Eh Hnin Hfresh Hiff) as Hobj. fold L1 F1 in Hobj. split.
      * intros b m. rewrite <-Hobj. unfold object at 1 2. rewrite Hsu, Eh2. tauto.
      * intros m. rewrite <-Hobj. apply (free_slot_fresh s1 L1 F1 i (p :: l) p c _ 0 m Hi1 Hl1 ltac:(by left) Hc HF1). by left.
    + rewrite (proj2 (Z.eqb_neq r 0)) by done. unfold mbind_ at 1, mret at 1. rewrite (proj2 (Z.eqb_neq r 0)) by done.
      destruct (alloc_slot s L F i l r c j fs Hi Hl Hrl Hc HF) as (s'&E2&Eh2&Hi2&Hsu). exists (slot r c j), s', L, (<[r := fs]> F). split; [exact E2|]. split; [done|]. right. exists c. split; [lia|]. split; [lia|]. split.
      * intros b m. unfold object. rewrite Hsu, Eh2. tauto.
      * intros m. apply (free_slot_fresh s L F i l r c _ j m Hi Hl Hrl Hc HF). by left.
  - destruct (heap_alloc_law (sl_heap s) size (si_heap _ _ _ Hi) Hsz) as (p&h&E&Hh&Hcase). assert (on_pages (heap_alloc size) s = Some (p, with_heap h s)) as -> by (unfold on_pages; by rewrite E).
    exists p, (with_heap h s), L, F. split; [done|]. destruct Hcase as [[-> ->]|(n&Hsn&Hb&Hiff&Hfresh)].
    + assert (with_heap (sl_heap s) s = s) as -> by (by destruct s). split; [done|by left].
    + assert (p ∉ concat L) as Hnin. { intros (i'&l'&Hl'&Hp')%concat_class. destruct (page_facts _ _ _ _ _ _ Hi Hl' Hp') as (_&_&m&_&_&_&Hm&_). by apply (Hfresh m). }
      assert (sinv (with_heap h s) L F) as Hi'. { apply sinv_heap; [done..|]. intros q m _ Hq. apply Hiff. by left. }
      split; [done|]. right. exists n. split; [lia|]. split; [done|]. split.
      * intros b m. unfold object. cbn [with_heap sl_heap]. rewrite Hiff. split; [tauto|]. intros [?|[-> ->]]; tauto.
      * intros m [Hu|[Hm _]]; [|by apply (Hfresh m)]. destruct (slot_used_in _ _ _ _ _ Hi Hu) as (q&Hq&?&?&?). apply concat_class in Hq as (i'&l'&Hl'&Hq). destruct (page_facts _ _ _ _ _ _ Hi' Hl' Hq) as (_&_&m'&_&_&_&Hm'&_).
        destruct (heap_block_range h q m' Hh Hm') as (_&_&?&_), (heap_block_range h p n Hh Hb) as (_&_&?&_). destruct (heap_block_apart h q m' p n Hh Hm' Hb) as [[? _]|?]; lia.
Qed.
(** ** slab_free *)

(** A page leaves its list: the list head or the link of the page before it is set to the page after it. *)
Definition unlinked s (i : Z) (l1 : list Z) (p : Z) : slab H :=
  let next := word (mem s) (sp_next p) in
  match last l1 with None => set_lists (<[Z.to_nat i := next]> (g_slab_lists s)) s | Some q => set_mem (<[sp_next q := u64 next]> (mem s)) s end.
Lemma unlink_run s i p l2 : 0 <= i < Z.of_nat (length (g_slab_lists s)) -> forall l1 n prev l0 cur, (length l1 <= n)%nat -> plist (mem s) cur (l1 ++ p :: l2) -> p ∉ l1 ->
  (match last l0 with None => prev = 0 | Some q => prev = q /\ q <> 0 end) -> unlink_page n i prev cur p s = Some (tt, unlinked s i (l0 ++ l1) p).
Proof using Type.
  intros Hir. induction l1 as [|q l1 IH]; intros n prev l0 cur Hn Hpl Hnin Hprev; simpl in Hpl; destruct Hpl as (->&Hq&Hpl).
  - assert (unlink_page n i prev p p s = (next <~ rdw (sp_next p) ;; if prev =? 0 then s <~ mget ;; ls <~ mlift (zset (g_slab_lists s) i next) ;; mmodify (set_lists ls) else wrw (sp_next prev) next) s) as ->
      by (destruct n; cbn [unlink_page]; rewrite (proj2 (Z.eqb_neq p 0)), Z.eqb_refl by done; done).
    rewrite app_nil_r. unfold unlinked. unfold mbind_ at 1, rdw, mgets. set (next := word (mem s) (sp_next p)). destruct (last l0) as [q|].
    + destruct Hprev as [-> Hq0]. rewrite (proj2 (Z.eqb_neq q 0)) by done. done.
    + rewrite Hprev. cbn [Z.eqb]. unfold mbind_ at 1, mget. assert (zset (g_slab_lists s) i next = Some (<[Z.to_nat i := next]> (g_slab_lists s))) as Hz by (apply zset_Some; lia). unfold mbind_, mlift. by rewrite Hz.
  - destruct n as [|n]; simpl in Hn; [lia|]. apply not_elem_of_cons in Hnin as [Hne Hnin]. cbn [unlink_page]. rewrite (proj2 (Z.eqb_neq q 0)), (proj2 (Z.eqb_neq q p)) by congruence.
    unfold mbind_, rdw, mgets. rewrite (IH n q (l0 ++ [q]) _ ltac:(lia) Hpl Hnin); [by rewrite <-app_assoc|]. by rewrite last_snoc.
Qed.
Lemma plist_link m q x : forall l l2 sp, plist m sp (l ++ q :: l2) -> forall l3, q ∉ l -> (forall y, y ∈ l3 -> y <> q) -> plist m x l3 -> plist (<[sp_next q := x]> m) sp (l ++ q :: l3).
Proof using Type.
  induction l as [|y l IH]; intros l2 sp Hpl l3 Hnin Hl3 Hx; simpl in *; destruct Hpl as (->&Hy&Hpl).
  - split; [done|]. split; [done|]. rewrite word_insert, decide_True by done. apply (plist_ext m); [done|]. intros z Hz. rewrite word_insert, decide_False; [done|]. pose proof (Hl3 z Hz). unfold sp_next. lia.
  - apply not_elem_of_cons in Hnin as [Hne Hnin]. split; [done|]. split; [done|]. rewrite word_insert, decide_False by (unfold sp_next; lia). by apply (IH l2).
Qed.
Lemma plist_suffix m : forall l1 sp l2, plist m sp (l1 ++ l2) -> exists sp', plist m sp' l2.
Proof using Type. induction l1 as [|p l1 IH]; intros sp l2 Hpl; [by exists sp|]. destruct Hpl as (_&_&Hpl). by apply (IH _ _ Hpl). Qed.

(** The page [p] is off the list. *)
Lemma unlinked_plist s i l1 p l2 sp : plist (mem s) sp (l1 ++ p :: l2) -> zget (g_slab_lists s) i = Some sp -> NoDup (l1 ++ p :: l2) -> u64 (word (mem s) (sp_next p)) = word (mem s) (sp_next p) ->
  exists sp', zget (g_slab_lists (unlinked s i l1 p)) i = Some sp' /\ plist (mem (unlinked s i l1 p)) sp' (l1 ++ l2).
Proof using Type.
  intros Hpl Hsp Hnd Hu. unfold unlinked. destruct l1 as [|q l1 _] using rev_ind.
  - simpl in *. destruct Hpl as (->&_&Hpl). exists (word (mem s) (sp_next p)). split; [|done]. cbn [set_lists g_slab_lists]. apply zget_insert_eq. by apply zget_range in Hsp.
  - rewrite last_snoc, Hu. exists sp. split; [done|]. cbn [set_mem sl_mem]. rewrite <-app_assoc in *. simpl in *. apply NoDup_app in Hnd as (_&Hd&Hnd). apply NoDup_cons in Hnd as [Hq Hnd]. apply NoDup_cons in Hnd as [Hp Hnd].
    destruct (plist_suffix _ _ _ _ Hpl) as (sp'&_&_&_&_&Hl2). apply (plist_link (mem s) q _ l1 (p :: l2)); [done| | |done].
    + intros Hin. apply (Hd q Hin). by left.
    + intros y Hy ->. apply Hq. by right.
Qed.
Lemma total_drop F p c l1 l2 : forall cs L i, L !! i = Some (l1 ++ p :: l2) -> cs !! i = Some c ->
  total F cs L = total F cs (<[i := l1 ++ l2]> L) + c * (slots c - Z.of_nat (length (F !!! p))).
Proof using Type.
  assert (forall l l', class_bytes F c (l ++ l') = class_bytes F c l + class_bytes F c l') as Happ by (intros l l'; induction l as [|q l IH]; simpl; [done|rewrite IH; lia]).
  induction cs as [|c0 cs IH]; intros [|l0 L] [|i] Hl Hc; simpl in *; try done; simplify_eq; [rewrite !Happ; simpl; lia|]. rewrite (IH L i Hl Hc). lia.
Qed.
Lemma concat_drop (p : Z) l1 l2 : forall L i, L !! i = Some (l1 ++ p :: l2) -> concat L ≡ₚ p :: concat (<[i := l1 ++ l2]> L).
Proof using Type.
  induction L as [|l0 L IH]; intros [|i] Hl; simpl in *; try done; simplify_eq; [by rewrite <-(Permutation_middle l1 l2 p)|]. rewrite (IH i Hl). by rewrite Permutation_middle.
Qed.
Lemma class_nodup L i i' (l l' : list Z) x : NoDup (concat L) -> zget L i = Some l -> zget L i' = Some l' -> x ∈ l -> x ∈ l' -> i = i'.
Proof using Type.
  intros Hnd [Hi Hl]%zget_Some [Hi' Hl']%zget_Some Hx Hx'. assert (Z.to_nat i = Z.to_nat i') as E; [|lia]. clear Hi Hi'. revert Hl Hl'. generalize (Z.to_nat i) (Z.to_nat i'). intros j j'. revert L Hnd j'.
  induction j as [|j IH]; intros [|l0 L] Hnd [|j'] Hl Hl'; simpl in *; try done; apply NoDup_app in Hnd as (_&Hd&Hnd); simplify_eq.
  - destruct (Hd x Hx). apply (in_concat_class L (Z.of_nat j') l'); [by rewrite zget_nat|done].
  - destruct (Hd x Hx'). apply (in_concat_class L (Z.of_nat j) l); [by rewrite zget_nat|done].
  - f_equal. by apply (IH L Hnd).
Qed.

(** A page without objects leaves. *)
Lemma sinv_drop s L F i l1 p l2 c fs h : sinv s L F -> zget L i = Some (l1 ++ p :: l2) -> zget slab_sizes i = Some c -> F !! p = Some fs -> Z.of_nat (length fs) = slots c ->
  heap_ok h -> (forall q m, heap_block h q m <-> heap_block (sl_heap s) q m /\ q <> p) ->
  sinv (with_heap h (unlinked s i l1 p)) (<[Z.to_nat i := l1 ++ l2]> L) F.
Proof.
  intros Hi Hl Hc HF Hfs Hh Hiff. pose proof (zget_range _ _ _ Hl) as Hir. destruct (si_len _ _ _ Hi) as [HL1 HL2]. destruct (zget_is_Some (g_slab_lists s) i ltac:(lia)) as [sp Hsp]. pose proof Hl as [Hi0 Hl']%zget_Some.
  pose proof (concat_drop p l1 l2 L _ Hl') as Hperm. pose proof (si_nodup _ _ _ Hi) as Hnd. pose proof Hnd as Hnd'. rewrite Hperm in Hnd'. apply NoDup_cons in Hnd' as [Hpn Hnd'].
  pose proof (class_list_nodup s L F i _ Hi Hl) as Hndl.
  pose proof (si_lists _ _ _ Hi i _ sp Hl Hsp) as Hpl. assert (u64 (word (mem s) (sp_next p)) = word (mem s) (sp_next p)) as Hu.
  { destruct (plist_suffix _ l1 sp _ Hpl) as (sp'&_&_&Hpl2). destruct l2 as [|y l2]; simpl in Hpl2; [by rewrite Hpl2|]. destruct Hpl2 as (->&_). destruct (page_facts _ _ _ _ _ y Hi Hl ltac:(set_solver)) as (_&_&_&_&_&_&_&(_&?&?)). unwrap. apply wrap_small. unfold in_w. lia. }
  destruct (unlinked_plist s i l1 p l2 sp Hpl Hsp Hndl Hu) as (sp1&Hsp1&Hpl1). assert (forall a, (forall q, last l1 = Some q -> a <> sp_next q) -> word (mem (unlinked s i l1 p)) a = word (mem s) a) as Hw.
  { intros a Ha. unfold unlinked. destruct (last l1) as [q|]; [|done]. cbn [set_mem sl_mem]. rewrite word_insert, decide_False; [done|]. intros E. by apply (Ha q). }
  assert (forall q, last l1 = Some q -> q ∈ l1 ++ p :: l2) as Hlast by (intros q Hq; apply last_Some in Hq as [l' ->]; set_solver).
  assert (g_slab_initialized (unlinked s i l1 p) = true /\ g_slab_allocated_bytes (unlinked s i l1 p) = g_slab_allocated_bytes s /\ length (g_slab_lists (unlinked s i l1 p)) = 7%nat /\
    forall i', i' <> i -> zget (g_slab_lists (unlinked s i l1 p)) i' = zget (g_slab_lists s) i') as (U1&U2&U3&U4).
  { unfold unlinked. destruct (last l1); cbn; (split; [apply Hi|]; split; [done|]; split; [by rewrite ?length_insert|]); [done|]. intros i' Hne. by apply zget_insert_ne. }
  split; cbn [with_heap g_slab_initialized sl_heap g_slab_lists sl_mem g_slab_allocated_bytes].
  - done.
  - done.
  - by rewrite length_insert.
  - intros i' l' sp' Hl1 Hsp'. rewrite zget_insert in Hl1 by lia. case_decide as Ei; [subst i'; simplify_eq; done|]. rewrite U4 in Hsp' by done. apply (plist_ext (mem s)); [by apply (si_lists _ _ _ Hi i')|].
    intros y Hy. apply Hw. intros q Hq E. assert (y = q) as -> by (unfold sp_next in E; lia). destruct Ei. by apply (class_nodup L i i' _ l' q Hnd Hl Hl1 (Hlast q Hq)).
  - done.
  - intros i' l' q c' Hl1 Hq Hc'. assert (exists l'', zget L i' = Some l'' /\ q ∈ l'') as (l''&Hl''&Hq''). { rewrite zget_insert in Hl1 by lia. case_decide as Ei; [subst i'; simplify_eq; exists (l1 ++ p :: l2); split; [done|set_solver]|by exists l']. }
    destruct (si_page _ _ _ Hi i' l'' q c' Hl'' Hq'' Hc') as (gs&b&HF'&Hok'&Hb'). exists gs, b. split; [done|]. split.
    + apply (page_ok_ext (mem s) _ q c' i'); [done..|]. intros a Ha Hne. apply Hw. intros y Hy ->. apply Hne. f_equal. symmetry. apply (page_eq s L F q y (sp_next y) Hi); [by eapply in_concat_class|exact (in_concat_class _ _ _ _ Hl (Hlast y Hy))|done|unfold sp_next; lia].
    + apply Hiff. split; [done|]. intros ->. apply Hpn. by eapply in_concat_class.
  - rewrite U2, (si_bytes _ _ _ Hi). f_equal. apply zget_Some in Hc as [_ Hc]. rewrite (total_drop F p c l1 l2 slab_sizes L (Z.to_nat i) Hl' Hc), (lookup_total_correct _ _ _ HF), Hfs. lia.
Qed.
Lemma drop_objects s L F i l1 p l2 c fs s' : sinv s L F -> zget L i = Some (l1 ++ p :: l2) -> zget slab_sizes i = Some c -> F !! p = Some fs -> (forall j, 0 <= j < slots c -> j ∈ fs) ->
  (forall q m, heap_block (sl_heap s') q m <-> heap_block (sl_heap s) q m /\ q <> p) -> forall b m, object s' (<[Z.to_nat i := l1 ++ l2]> L) F b m <-> object s L F b m.
Proof.
  intros Hi Hl Hc HF Hall Hiff b m. pose proof (zget_range _ _ _ Hl) as Hir. pose proof Hl as [Hi0 Hl']%zget_Some. pose proof (concat_drop p l1 l2 L _ Hl') as Hperm.
  pose proof (si_nodup _ _ _ Hi) as Hnd'. rewrite Hperm in Hnd'. apply NoDup_cons in Hnd' as [Hpn _]. unfold object. rewrite Hiff, Hperm, not_elem_of_cons.
  assert (slot_used (<[Z.to_nat i := l1 ++ l2]> L) F b m <-> slot_used L F b m) as ->; [|split; [intros [?|[[? ?] ?]]|intros [?|[? [? ?]]]]; tauto].
  split; intros (i1&l&q&gs&k&Hl1&Hq&Hc1&HF1&Hk&Hnk&->).
  - rewrite zget_insert in Hl1 by lia. case_decide as Ei; [|by exists i1, l, q, gs, k]. subst i1. simplify_eq. exists i, (l1 ++ p :: l2), q, gs, k. split_and!; try done; try lia. set_solver.
  - assert (q <> p) as Hne. { intros ->. assert (m = c) as -> by (by apply (page_class s L F i (l1 ++ p :: l2) i1 l p c m Hi Hl ltac:(set_solver) Hc)). rewrite HF in HF1. injection HF1 as <-. by apply Hnk, Hall. }
    destruct (decide (i = i1)) as [<-|Hnei].
    + rewrite Hl in Hl1. injection Hl1 as <-. exists i, (l1 ++ l2), q, gs, k. rewrite zget_insert_eq by lia. split_and!; try done; try lia. set_solver.
    + exists i1, l, q, gs, k. rewrite zget_insert_ne by lia. split_and!; done || lia.
Qed.
Lemma all_free c fs : 0 <= slots c -> NoDup fs -> (forall j, j ∈ fs -> 0 <= j < slots c) -> Z.of_nat (length fs) = slots c -> forall j, 0 <= j < slots c -> j ∈ fs.
Proof using Type.
  intros Hc Hnd Hr Hlen j Hj. assert (fs ⊆+ seqZ 0 (slots c)) as Hsub. { apply NoDup_submseteq; [done|]. intros k Hk. apply elem_of_seqZ. pose proof (Hr k Hk). lia. }
  assert (fs ≡ₚ seqZ 0 (slots c)) as -> by (apply submseteq_length_Permutation; [done|]; rewrite length_seqZ; lia). apply elem_of_seqZ. lia.
Qed.

(** A slot becomes free. *)
Lemma free_slot_objects s s' L F i l p c fs j : sinv s L F -> zget L i = Some l -> p ∈ l -> zget slab_sizes i = Some c -> F !! p = Some fs -> 0 <= j < slots c -> j ∉ fs -> sl_heap s' = sl_heap s ->
  forall b m, object s' L (<[p := j :: fs]> F) b m <-> object s L F b m /\ b <> slot p c j.
Proof.
  intros Hi Hl Hp Hc HF Hj Hnin Eh. pose proof (sizes_cases _ _ Hc) as (Hc16&_). set (F1 := <[p := j :: fs]> F).
  intros b m. assert (slot_used L F1 b m <-> slot_used L F b m /\ b <> slot p c j) as Hsu.
  { unfold F1. rewrite (slot_used_upd s L F i l p c fs (j :: fs) b m Hi Hl Hp Hc HF). pose proof (slot_range p c i j Hc Hj). pose proof (sizes_cases _ _ Hc). split.
    - intros [(k&Hk&Hnk&->&->)|[Hu Ho]]; [|split; [done|]; intros ->; lia]. apply not_elem_of_cons in Hnk as [Hne Hnk]. split; [by exists i, l, p, fs, k|]. intros E. apply slot_inj in E; [done|lia].
    - intros [Hu Hne]. destruct (decide (p <= b < p + 4096)) as [Hpp|]; [left|by right]. destruct Hu as (i1&l1&p1&fs1&k&Hl1&Hp1&Hc1&HF1'&Hk&Hnk&->).
      pose proof (slot_range p1 m i1 k Hc1 Hk). pose proof (sizes_cases _ _ Hc1). assert (p1 = p) as -> by (apply (page_eq s L F p1 p (slot p1 m k) Hi); [exact (in_concat_class _ _ _ _ Hl1 Hp1)|exact (in_concat_class _ _ _ _ Hl Hp)|lia|lia]).
      assert (m = c) as -> by (by apply (page_class s L F i l i1 l1 p)). rewrite HF in HF1'. injection HF1' as <-. exists k. split_and!; try done; try lia. apply not_elem_of_cons. split; [|done]. intros ->. done. }
  unfold object. rewrite Hsu. rewrite Eh. split; [|tauto]. intros [?|[Hb Hnc]]; [tauto|]. split; [tauto|]. intros ->. destruct (page_facts _ _ _ _ _ _ Hi Hl Hp) as (_&_&n&_&_&_&Hbp&_).
  pose proof (slot_range p c i j Hc Hj). destruct (heap_block_range _ _ _ (si_heap _ _ _ Hi) Hb) as (_&_&?&_), (heap_block_range _ _ _ (si_heap _ _ _ Hi) Hbp) as (_&_&?&_).
  destruct (heap_block_apart _ _ _ _ _ (si_heap _ _ _ Hi) Hb Hbp) as [[? _]|?]; lia.
Qed.

(** What [free_in_class] does once a page took the pointer back. *)
Definition after_free (i sp : Z) : M (slab H) bool :=
  c <~ rdw (class_size sp) ;; mmodify (add_bytes (- c)) ;;; empty <~ slab_page_empty sp ;;
  (if empty : bool then s <~ mget ;; head <~ mlift (zget (g_slab_lists s) i) ;; unlink_page max_pages i 0 head sp ;;; on_pages (heap_free sp) else return tt) ;;; return true.
Lemma after_free_run s s1 L F i l p c fs j : sinv s L F -> zget L i = Some l -> p ∈ l -> zget slab_sizes i = Some c -> F !! p = Some fs -> 0 <= j < slots c -> j ∉ fs ->
  in_page p s s1 -> page_ok (mem s1) p c (j :: fs) -> exists s' L' F', after_free i p s1 = Some (true, s') /\ sinv s' L' F' /\ forall b m, object s' L' F' b m <-> object s L F b m /\ b <> slot p c j.
Proof.
  intros Hi Hl Hp Hc HF Hj Hnin Hin Hok. pose proof (sizes_cases _ _ Hc) as (Hc16&Hn3&_). set (F1 := <[p := j :: fs]> F). pose proof (sinv_page s s1 L F i l p c fs (j :: fs) (- c) Hi Hl Hp Hc HF Hin Hok ltac:(simpl; lia)) as Hi2. fold F1 in Hi2.
  set (s2 := add_bytes (- c) s1) in *. assert (F1 !! p = Some (j :: fs)) as HF1 by apply lookup_insert_eq. destruct (in_page_frame p s s1 Hin) as (Eh&_).
  pose proof (free_slot_objects s s2 L F i l p c fs j Hi Hl Hp Hc HF Hj Hnin Eh) as Hobj. fold F1 in Hobj.
  unfold after_free. unfold mbind_ at 1, rdw, mgets. rewrite (po_class _ _ _ _ Hok). unfold mbind_ at 1, mmodify at 1. fold s2. unfold slab_page_empty. unfold mbind_ at 1 2, rdw, mgets, mret.
  change (mem s2) with (mem s1). rewrite (po_used _ _ _ _ Hok). destruct (Z.eqb_spec (slots c - Z.of_nat (length (j :: fs))) 0) as [Efull|Hnf]; [|exists s2, L, F1; done].
  destruct (list_elem_of_split _ _ Hp) as (l1&l2&->). pose proof (zget_range _ _ _ Hl) as Hir. destruct (si_len _ _ _ Hi2) as [HL1 HL2]. destruct (zget_is_Some (g_slab_lists s2) i ltac:(lia)) as [sp Hsp].
  unfold mbind_ at 1 2, mget at 1. unfold mbind_ at 1, mlift at 1. rewrite Hsp. assert (p ∉ l1) as Hpl1.
  { pose proof (class_list_nodup s L F i _ Hi Hl) as (_&Hd&_)%NoDup_app. intros Hx. apply (Hd p Hx). by left. }
  pose proof (class_length s2 L F1 i _ Hi2 Hl) as Hml. rewrite length_app in Hml. unfold mbind_ at 1. rewrite (unlink_run s2 i p l2 ltac:(lia) l1 max_pages 0 [] sp ltac:(lia) (si_lists _ _ _ Hi2 i _ sp Hl Hsp) Hpl1 eq_refl).
  destruct (si_page _ _ _ Hi2 i _ p c Hl Hp Hc) as (_&n&_&_&Hbp). destruct (heap_free_law (sl_heap s2) p n (si_heap _ _ _ Hi2) Hbp) as (h&Ef&Hh&Hiff).
  assert (on_pages (heap_free p) (unlinked s2 i ([] ++ l1) p) = Some (tt, with_heap h (unlinked s2 i l1 p))) as ->.
  { cbn [app]. assert (sl_heap (unlinked s2 i l1 p) = sl_heap s2) as E' by (unfold unlinked; by destruct (last l1)). unfold on_pages. rewrite E', Ef. done. }
  exists (with_heap h (unlinked s2 i l1 p)), (<[Z.to_nat i := l1 ++ l2]> L), F1. split; [done|]. split.
  - apply (sinv_drop s2 L F1 i l1 p l2 c (j :: fs) h Hi2 Hl Hc HF1); [lia|done|done].
  - intros b m. rewrite <-Hobj. apply (drop_objects s2 L F1 i l1 p l2 c (j :: fs)); try done. apply all_free; [lia|apply Hok| |lia]. intros k. apply (fchain_range _ _ _ _ _ _ (po_chain _ _ _ _ Hok)).
Qed.
Lemma free_in_class_skip s L F i : sinv s L F -> forall l n sp ptr, (length l <= n)%nat -> plist (mem s) sp l -> (forall p, p ∈ l -> page_at p /\ (ptr < p \/ p + 4096 <= ptr)) -> free_in_class n i sp ptr s = Some (false, s).
Proof.
  intros Hi. induction l as [|p l IH]; intros n sp ptr Hn Hpl Hout; simpl in Hpl; [subst sp; by destruct n|]. destruct Hpl as (->&Hp0&Hpl). destruct n as [|n]; simpl in Hn; [lia|]. cbn [free_in_class].
  rewrite (proj2 (Z.eqb_neq p 0)) by done. destruct (Hout p ltac:(by left)) as [(_&?&?) Ho]. change SLAB_PAGE with 4096. unwrap. rewrite wrap_small by (unfold in_w; lia).
  assert ((p <=? ptr) && (ptr <? p + 4096) = false) as -> by (apply andb_false_iff; rewrite Z.leb_gt, Z.ltb_ge; lia). unfold mbind_ at 1, mret. unfold mbind_, rdw, mgets. apply IH; [lia|done|]. intros q Hq. apply Hout. by right.
Qed.
(** The page that holds the pointer is reached. *)
Lemma free_in_class_at s L F i p ptr : sinv s L F -> page_at p -> p <= ptr < p + 4096 -> forall l1 l2 n sp, (length (l1 ++ p :: l2) <= n)%nat -> plist (mem s) sp (l1 ++ p :: l2) ->
  (forall q, q ∈ l1 ++ l2 -> page_at q /\ (ptr < q \/ q + 4096 <= ptr)) ->
  (forall s1, slab_page_free p ptr s = Some (true, s1) -> free_in_class n i sp ptr s = after_free i p s1) /\
  (slab_page_free p ptr s = Some (false, s) -> free_in_class n i sp ptr s = Some (false, s)).
Proof.
  intros Hi Hpa Hptr. induction l1 as [|q l1 IH]; intros l2 n sp Hn Hpl Hout; simpl in Hpl; destruct Hpl as (->&Hq0&Hpl); (destruct n as [|n]; simpl in Hn; [lia|]); cbn [free_in_class]; rewrite (proj2 (Z.eqb_neq _ 0)) by done.
  - assert ((p <=? ptr) && (ptr <? u64 (p + SLAB_PAGE)) = true) as ->. { destruct Hpa as (_&?&?). change SLAB_PAGE with 4096. unwrap. rewrite wrap_small by (unfold in_w; lia). rewrite andb_true_iff, Z.leb_le, Z.ltb_lt. lia. }
    split; [intros s1 E; mstep E; done|]. intros E. mstep E. unfold mbind_, rdw, mgets. apply (free_in_class_skip s L F i Hi l2); [lia|done|done].
  - destruct (Hout q ltac:(by left)) as [(_&?&?) Ho]. assert ((q <=? ptr) && (ptr <? u64 (q + SLAB_PAGE)) = false) as ->.
    { change SLAB_PAGE with 4096. unwrap. rewrite wrap_small by (unfold in_w; lia). apply andb_false_iff. rewrite Z.leb_gt, Z.ltb_ge. lia. }
    destruct (IH l2 n (word (mem s) (sp_next q)) ltac:(lia) Hpl) as [A B]; [intros x Hx; apply Hout; by right|]. split; [intros s1 E; unfold mbind_ at 1, mret; unfold mbind_, rdw, mgets; by apply A|].
    intros E. unfold mbind_ at 1, mret. unfold mbind_, rdw, mgets. by apply B.
Qed.
(** A class without the page is passed over. *)
Lemma class_step s L F ptr n i l : sinv s L F -> zget L i = Some l -> (forall p, p ∈ l -> ptr < p \/ p + 4096 <= ptr) -> free_in_classes (S n) i ptr s = free_in_classes n (i + 1) ptr s.
Proof.
  intros Hi Hl Hout. cbn [free_in_classes]. destruct (si_len _ _ _ Hi) as [HL1 HL2]. pose proof (zget_range _ _ _ Hl). destruct (zget_is_Some (g_slab_lists s) i ltac:(lia)) as [sp Hsp].
  unfold mbind_ at 1, mget. unfold mbind_ at 1, mlift. rewrite Hsp. unfold mbind_ at 1. rewrite (free_in_class_skip s L F i Hi l max_pages sp ptr (class_length s L F i l Hi Hl) (si_lists _ _ _ Hi i l sp Hl Hsp)); [done|].
  intros p Hp. destruct (page_facts _ _ _ _ _ _ Hi Hl Hp) as (_&_&_&_&_&_&_&?). split; [done|]. by apply Hout.
Qed.
Lemma free_in_classes_skip s L F ptr : sinv s L F -> forall n i, 0 <= i -> i + Z.of_nat n = 7 -> (forall i' l' p, i <= i' -> zget L i' = Some l' -> p ∈ l' -> ptr < p \/ p + 4096 <= ptr) ->
  free_in_classes n i ptr s = Some (false, s).
Proof.
  intros Hi n. induction n as [|n IH]; intros i Hi0 Hin Hout; [done|]. destruct (si_len _ _ _ Hi) as [HL1 HL2]. destruct (zget_is_Some L i ltac:(lia)) as [l Hl].
  rewrite (class_step s L F ptr n i l Hi Hl); [apply IH; [lia|lia|]; intros i' l' p Hle; apply Hout; lia|]. intros p. apply (Hout i l p); [lia|done].
Qed.
Lemma free_in_classes_at s L F i l p c fs j : sinv s L F -> zget L i = Some l -> p ∈ l -> zget slab_sizes i = Some c -> F !! p = Some fs -> 0 <= j < slots c ->
  forall n k, 0 <= k <= i -> k + Z.of_nat n = 7 ->
  (j ∈ fs -> free_in_classes n k (slot p c j) s = Some (false, s)) /\
  (j ∉ fs -> exists s' L' F', free_in_classes n k (slot p c j) s = Some (true, s') /\ sinv s' L' F' /\ forall b m, object s' L' F' b m <-> object s L F b m /\ b <> slot p c j).
Proof.
  intros Hi Hl Hp Hc HF Hj. pose proof (slot_range p c i j Hc Hj) as Hsr. pose proof (sizes_cases _ _ Hc) as (Hc16&_&_&Hi7). destruct (si_len _ _ _ Hi) as [HL1 HL2].
  assert (forall i' l' q, zget L i' = Some l' -> q ∈ l' -> q <> p -> page_at q /\ (slot p c j < q \/ q + 4096 <= slot p c j)) as Hout.
  { intros i' l' q Hl' Hq Hne. destruct (page_facts _ _ _ _ _ _ Hi Hl' Hq) as (_&_&_&_&_&_&_&?). split; [done|]. destruct (decide (q <= slot p c j < q + 4096)); [|lia]. destruct Hne.
    apply (page_eq s L F q p (slot p c j) Hi); [exact (in_concat_class _ _ _ _ Hl' Hq)|exact (in_concat_class _ _ _ _ Hl Hp)|lia|lia]. }
  assert (forall i' l' q, i' <> i -> zget L i' = Some l' -> q ∈ l' -> slot p c j < q \/ q + 4096 <= slot p c j) as Hout'.
  { intros i' l' q Hne Hl' Hq. apply (Hout i' l' q Hl' Hq). intros ->. apply Hne. by apply (class_nodup L i' i l' l p (si_nodup _ _ _ Hi)). }
  induction n as [|n IH]; intros k Hk Hkn; [lia|]. destruct (zget_is_Some (g_slab_lists s) k ltac:(lia)) as [sp Hsp], (zget_is_Some L k ltac:(lia)) as [lk Hlk]. destruct (decide (k = i)) as [->|Hne].
  2:{ rewrite (class_step s L F (slot p c j) n k lk Hi Hlk) by (intros q; by apply (Hout' k lk q Hne)). apply IH; lia. }
  rewrite Hl in Hlk. injection Hlk as <-. destruct (list_elem_of_split _ _ Hp) as (l1&l2&->). destruct (page_facts _ _ _ _ _ _ Hi Hl Hp) as (_&_&_&_&_&_&_&Hpa). destruct (si_page _ _ _ Hi i _ p c Hl Hp Hc) as (fs0&b&HF0&Hok&_). rewrite HF in HF0. injection HF0 as <-.
  destruct (free_in_class_at s L F i p (slot p c j) Hi Hpa ltac:(lia) l1 l2 max_pages sp (class_length s L F i _ Hi Hl) (si_lists _ _ _ Hi i _ sp Hl Hsp)) as [A B].
  { intros q Hq. apply (Hout i (l1 ++ p :: l2)); [done|set_solver|]. intros ->. pose proof (class_list_nodup s L F i _ Hi Hl) as Hndl. rewrite <-Permutation_middle in Hndl. by apply NoDup_cons in Hndl as [? _]. }
  assert (forall x, free_in_class max_pages i sp (slot p c j) s = x -> free_in_classes (S n) i (slot p c j) s = match x with Some (true, s') => Some (true, s') | Some (false, s') => free_in_classes n (i + 1) (slot p c j) s' | None => None end) as Hx.
  { intros x <-. cbn [free_in_classes]. unfold mbind_ at 1, mget. unfold mbind_ at 1, mlift. rewrite Hsp. unfold mbind_ at 1. by destruct (free_in_class max_pages i sp (slot p c j) s) as [[[] ?]|]. }
  pose proof (page_free_run s p c i fs j Hpa Hc Hok Hj) as Hpf. split; intros Hin; [rewrite decide_True in Hpf by done|rewrite decide_False in Hpf by done].
  - rewrite (Hx _ (B Hpf)). apply (free_in_classes_skip s L F _ Hi); [lia|lia|]. intros i' l' q Hle. apply Hout'. lia.
  - destruct Hpf as (s1&E1&Hinp&Hok1). destruct (after_free_run s s1 L F i _ p c fs j Hi Hl Hp Hc HF Hj Hin Hinp Hok1) as (s'&L'&F'&E2&Hi'&Ho). exists s', L', F'. split; [|done].
    rewrite (Hx (Some (true, s'))); [done|]. by rewrite (A s1 E1).
Qed.

(** [slab_alloc] never faults and keeps the allocator sound.  Either it returns NULL and no object appears or
    disappears, or it returns a fresh object: its address was no object before, its size is at least the one asked for
    (up to the heap's 8 MiB), and every other object stays. *)
Theorem slab_alloc_exact s L F size : sinv s L F -> 0 <= size < 2 ^ 64 -> exists a s' L' F', slab_alloc size s = Some (a, s') /\ sinv s' L' F' /\
  ((a = 0 /\ forall b m, object s' L' F' b m <-> object s L F b m) \/
   (exists n, 0 < size /\ (size <= 2 ^ 23 -> size <= n) /\ (forall b m, object s' L' F' b m <-> object s L F b m \/ b = a /\ m = n) /\ (forall m, ~ object s L F a m))).
Proof. apply slab_alloc_run. Qed.

Lemma slab_free_run s L F : sinv s L F ->
  (forall a n, object s L F a n -> exists s' L' F', slab_free a s = Some (tt, s') /\ sinv s' L' F' /\ forall b m, object s' L' F' b m <-> object s L F b m /\ b <> a) /\
  (forall i l p c fs j, zget L i = Some l -> p ∈ l -> zget slab_sizes i = Some c -> F !! p = Some fs -> j ∈ fs -> slab_free (slot p c j) s = Some (tt, s)) /\
  (forall a n b m, object s L F a n -> object s L F b m -> (a = b /\ n = m) \/ a + n <= b \/ b + m <= a).
Proof.
  intros Hi. split; [|split]; [| |intros a n b m; by apply object_apart].
  - intros a n [(i&l&p&fs&j&Hl&Hp&Hc&HF&Hj&Hnin&->)|[Hb Hnc]].
    + destruct (page_facts _ _ _ _ _ _ Hi Hl Hp) as (_&_&_&_&_&_&_&(_&?&?)). pose proof (slot_range p n i j Hc Hj). pose proof (sizes_cases _ _ Hc) as (_&_&_&Hi7).
      destruct (proj2 (free_in_classes_at s L F i l p n fs j Hi Hl Hp Hc HF Hj 7 0 ltac:(lia) ltac:(lia)) Hnin) as (s'&L'&F'&E&Hi'&Ho). exists s', L', F'. split; [|done].
      unfold slab_free. unfold mbind_ at 1, mget. rewrite (si_init _ _ _ Hi), (proj2 (Z.eqb_neq _ 0)) by lia. cbn [negb orb]. change (Z.to_nat SLAB_CLASS_COUNT) with 7%nat. mstep E. done.
    + destruct (heap_block_range _ _ _ (si_heap _ _ _ Hi) Hb) as (_&?&?&_). destruct (heap_free_law (sl_heap s) a n (si_heap _ _ _ Hi) Hb) as (h&Ef&Hh&Hiff). exists (with_heap h s), L, F. split; [|split].
      * unfold slab_free. unfold mbind_ at 1, mget. rewrite (si_init _ _ _ Hi), (proj2 (Z.eqb_neq _ 0)) by lia. cbn [negb orb]. change (Z.to_nat SLAB_CLASS_COUNT) with 7%nat.
        unfold mbind_ at 1. rewrite (free_in_classes_skip s L F a Hi 7 0 ltac:(lia) ltac:(lia)); [unfold on_pages; by rewrite Ef|]. intros i l p _ Hl Hp. destruct (page_facts _ _ _ _ _ _ Hi Hl Hp) as (_&_&k&_&_&_&Hk&_).
        destruct (heap_block_range _ _ _ (si_heap _ _ _ Hi) Hk) as (_&_&?&_). destruct (heap_block_apart _ _ _ _ _ (si_heap _ _ _ Hi) Hb Hk) as [[-> _]|?]; [|lia]. destruct Hnc. by eapply in_concat_class.
      * apply sinv_heap; [done..|]. intros q m Hq Hqb. apply Hiff. split; [done|]. by intros ->.
      * intros b m. unfold object. cbn [with_heap sl_heap]. rewrite Hiff. split; [|intros [[?|[? ?]] ?]; [by left|right; tauto]]. intros [Hu|[[? ?] ?]]; [|tauto]. split; [by left|]. intros ->.
        destruct (object_apart s L F a m a n Hi (or_introl Hu) (or_intror (conj Hb Hnc))) as [[_ ->]|?]; [|destruct (slot_used_in _ _ _ _ _ Hi Hu) as (?&_&?&?&?); lia].
        destruct (slot_used_in _ _ _ _ _ Hi Hu) as (?&_&?&?&?). lia.
  - intros i l p c fs j Hl Hp Hc HF Hj. destruct (page_facts _ _ _ _ _ _ Hi Hl Hp) as (_&_&_&_&_&_&_&Hpa). destruct (si_page _ _ _ Hi i _ p c Hl Hp Hc) as (fs0&b&HF0&Hok&_). rewrite HF in HF0. injection HF0 as <-.
    pose proof (fchain_range _ _ _ _ _ _ (po_chain _ _ _ _ Hok) Hj) as Hjr. pose proof (slot_range p c i j Hc Hjr). pose proof (sizes_cases _ _ Hc) as (?&_&_&Hi7). destruct Hpa as ([z ->]&?&?).
    pose proof (proj1 (free_in_classes_at s L F i l _ c fs j Hi Hl Hp Hc HF Hjr 7 0 ltac:(lia) ltac:(lia)) Hj) as E. unfold slab_free. unfold mbind_ at 1, mget. rewrite (si_init _ _ _ Hi), (proj2 (Z.eqb_neq _ 0)) by lia. cbn [negb orb].
    change (Z.to_nat SLAB_CLASS_COUNT) with 7%nat. mstep E. unfold on_pages. rewrite heap_free_unaligned; [by destruct s|apply Hi|lia|]. intros [y Ey]. lia.
Qed.

(** [slab_free] of an object frees exactly it, and returns a page without objects to the heap; a second free of a
    small object is noticed and changes nothing.  Objects never overlap. *)
Theorem slab_free_exact s L F : sinv s L F ->
  (forall a n, object s L F a n -> exists s' L' F', slab_free a s = Some (tt, s') /\ sinv s' L' F' /\ forall b m, object s' L' F' b m <-> object s L F b m /\ b <> a) /\
  (forall i l p c fs j, zget L i = Some l -> p ∈ l -> zget slab_sizes i = Some c -> F !! p = Some fs -> j ∈ fs -> slab_free (slot p c j) s = Some (tt, s)) /\
  (forall a n b m, object s L F a n -> object s L F b m -> (a = b /\ n = m) \/ a + n <= b \/ b + m <= a).
Proof. apply slab_free_run. Qed.

(** ** Clients *)

Lemma object_nonzero s L F a n : sinv s L F -> object s L F a n -> a <> 0.
Proof.
  intros Hi [(i&l&p&fs&j&Hl&Hp&Hc&_&Hj&_&->)|[Hb _]].
  - destruct (page_facts _ _ _ _ _ _ Hi Hl Hp) as (_&_&_&_&_&_&_&(_&?&_)). pose proof (slot_range p n i j Hc Hj). lia.
  - destruct (heap_block_range _ _ _ (si_heap _ _ _ Hi) Hb) as (_&?&_). lia.
Qed.

(** An object can be written to. *)
Lemma sinv_write s L F a n w v : sinv s L F -> object s L F a n -> a <= w < a + n -> sinv (set_mem (<[w := v]> (mem s)) s) L F.
Proof.
  intros Hi Hobj Hw. assert (forall i l p c, zget L i = Some l -> p ∈ l -> zget slab_sizes i = Some c -> w < p \/ p + 4096 <= w \/ exists j, 0 <= j < slots c /\ j ∉ F !!! p /\ slot p c j <= w < slot p c j + c) as Hwhere.
  { intros i l p c Hl Hp Hc. destruct Hobj as [(i1&l1&q&fs&j&Hl1&Hq&Hc1&HF1&Hj&Hnj&->)|[Hb Hnc]].
    - pose proof (slot_range q n i1 j Hc1 Hj). destruct (decide (q = p)) as [->|Hne].
      + right; right. assert (n = c) as -> by (by apply (page_class s L F i l i1 l1 p)). exists j. split; [done|]. split; [by rewrite (lookup_total_correct _ _ _ HF1)|done].
      + destruct (decide (p <= w < p + 4096)); [|lia]. destruct Hne. apply (page_eq s L F q p w Hi); [exact (in_concat_class _ _ _ _ Hl1 Hq)|exact (in_concat_class _ _ _ _ Hl Hp)|lia|lia].
    - destruct (page_facts _ _ _ _ _ _ Hi Hl Hp) as (_&_&k&_&_&_&Hk&_). destruct (heap_block_range _ _ _ (si_heap _ _ _ Hi) Hk) as (_&_&?&_).
      destruct (heap_block_apart _ _ _ _ _ (si_heap _ _ _ Hi) Hb Hk) as [[-> _]|?]; [destruct Hnc; by eapply in_concat_class|lia]. }
  assert (forall i l p, zget L i = Some l -> p ∈ l -> forall x, p <= x < p + 48 -> word (<[w := v]> (mem s)) x = word (mem s) x) as Hhd.
  { intros i l p Hl Hp x Hx. rewrite word_insert, decide_False; [done|]. intros ->. destruct (class_of L i l (proj1 (si_len _ _ _ Hi)) Hl) as [c Hc]. destruct (Hwhere i l p c Hl Hp Hc) as [?|[?|(j&Hj&_&?)]]; [lia..|]. pose proof (slot_range p c i j Hc Hj). lia. }
  split; try apply Hi.
  - intros i l sp Hl Hsp. apply (plist_ext (mem s)); [by apply (si_lists _ _ _ Hi i)|]. intros p Hp. apply (Hhd i l p Hl Hp). unfold sp_next. lia.
  - intros i l p c Hl Hp Hc. destruct (si_page _ _ _ Hi i l p c Hl Hp Hc) as (fs&m&HF&[H1 H2 H3 H4 H5]&Hb). exists fs, m. split; [done|]. split; [|done]. cbn [set_mem sl_mem].
    split; rewrite ?(Hhd i l p Hl Hp) by (unfold class_size, slot_count, free_head, used_count; lia); try done. apply (fchain_ext (mem s)); [done|]. intros j Hj. rewrite word_insert, decide_False; [done|]. intros ->.
    pose proof (fchain_range _ _ _ _ _ _ H3 Hj) as Hjr. pose proof (slot_range p c i j Hc Hjr). pose proof (sizes_cases _ _ Hc) as (?&_). destruct (Hwhere i l p c Hl Hp Hc) as [?|[?|(k&Hk&Hnk&Hkw)]]; [lia..|].
    rewrite (lookup_total_correct _ _ _ HF) in Hnk. unfold slot in Hkw. destruct (Z.lt_trichotomy j k) as [|[->|]]; [nia|done|nia].
Qed.

Lemma alloc_object s L F size a s' : sinv s L F -> 0 <= size < 2 ^ 64 -> slab_alloc size s = Some (a, s') -> a <> 0 -> exists L' F' n, sinv s' L' F' /\ object s' L' F' a n.
Proof.
  intros Hi Hsz E Ha. destruct (slab_alloc_run s L F size Hi Hsz) as (a'&s1&L'&F'&E'&Hi'&[[-> _]|(n&_&_&Hiff&_)]); rewrite E in E'; injection E' as -> ->; [done|].
  exists L', F', n. split; [done|]. apply Hiff. by right.
Qed.
Lemma object_size s L F a n : sinv s L F -> object s L F a n -> 0 <= n.
Proof.
  intros Hi [(i&l&p&fs&j&_&_&Hc&_)|[Hb _]]; [by destruct (sizes_cases _ _ Hc) as (?&_); lia|]. destruct (heap_block_range _ _ _ (si_heap _ _ _ Hi) Hb) as (_&_&?&_). lia.
Qed.
(** What a client may use of a request it was granted: all of it up to the largest block of the heap, 8 MiB.  A larger request is granted too,
    with less than was asked for, and nothing of it is relied on. *)
Definition usable (size : Z) : Z := if size <=? 2 ^ 23 then size else 0.
(** A client that holds the objects of [K] (address to usable size): it asks for memory of any size, frees what it holds, writes into it. *)
Inductive client : gmap Z Z * slab H -> gmap Z Z * slab H -> Prop :=
| client_alloc K s size a s' : 0 <= size < 2 ^ 64 -> slab_alloc size s = Some (a, s') -> client (K, s) (if decide (a = 0) then K else <[a := usable size]> K, s')
| client_free K s a n s' : K !! a = Some n -> slab_free a s = Some (tt, s') -> client (K, s) (delete a K, s')
| client_write K s a n w v : K !! a = Some n -> a <= w < a + n -> client (K, s) (K, set_mem (<[w := v]> (mem s)) s).

Definition client_ok (x : gmap Z Z * slab H) : Prop := exists L F, sinv x.2 L F /\ forall a n, x.1 !! a = Some n -> exists m, n <= m /\ object x.2 L F a m.
Lemma client_step x y : client_ok x -> client x y -> client_ok y.
Proof.
  intros (L&F&Hi&HK) Hs. destruct Hs as [K s size a s' Hsz E|K s a n s' Ha E|K s a n w v Ha Hw]; simpl in *.
  - destruct (slab_alloc_run s L F size Hi Hsz) as (a'&s1&L'&F'&E'&Hi'&Hcase). rewrite E in E'. injection E' as <- <-. exists L', F'. split; [done|]. intros b m Hb. simpl in Hb.
    destruct Hcase as [[-> Hiff]|(n&_&Hsn&Hiff&Hfresh)].
    + cbn in Hb. destruct (HK b m Hb) as (k&?&?). exists k. split; [done|]. by apply Hiff.
    + case_decide as Ea; [destruct (HK b m Hb) as (k&?&?); exists k; split; [done|]; apply Hiff; by left|]. apply lookup_insert_Some in Hb as [[<- <-]|[Hne Hb]].
      * assert (object s' L' F' a n) as Ho by (apply Hiff; by right). exists n. split; [|done]. unfold usable. destruct (Z.leb_spec size (2 ^ 23)); [by apply Hsn|].
        by apply (object_size s' L' F' a n).
      * destruct (HK b m Hb) as (k&?&?). exists k. split; [done|]. apply Hiff. by left.
  - destruct (HK a n Ha) as (k&Hk&Hobj). destruct (proj1 (slab_free_run s L F Hi) a k Hobj) as (s1&L'&F'&E'&Hi'&Hiff). rewrite E in E'. injection E' as <-. exists L', F'. split; [done|]. intros b m Hb. cbn [fst] in Hb. apply lookup_delete_Some in Hb as [Hne Hb]. destruct (HK b m Hb) as (k'&?&?).
    exists k'. split; [done|]. apply Hiff. by split.
  - destruct (HK a n Ha) as (k&Hk&Hobj). exists L, F. split; [apply (sinv_write s L F a k); [done|done|lia]|done].
Qed.
Lemma slab_init_run s : heap_ok (sl_heap s) -> exists s', slab_init s = Some (tt, s') /\ client_ok (∅, s').
Proof.
  intros Hh. eexists. split; [reflexivity|]. exists (replicate 7 []), ∅. split; [|intros a n Ha; cbn [fst] in Ha; by apply lookup_empty_Some in Ha]. split; try done.
  - intros i l sp [_ Hl]%zget_Some [_ Hsp]%zget_Some. apply lookup_replicate in Hl as [-> _], Hsp as [-> _]. done.
  - apply NoDup_nil_2.
  - intros i l p c [_ Hl]%zget_Some Hp. apply lookup_replicate in Hl as [-> _]. by apply elem_of_nil in Hp.
Qed.

(** C19: on a sound heap, whatever sequence of requests of any size, frees of held objects and writes into held objects clients make after
    [slab_init], the objects held (their usable sizes, [usable]: a request of more than 8 MiB is answered with less than it asked for, and its
    object may only be freed) never overlap and are not at address 0, no call faults, and freeing a held object returns. *)
Theorem slab_clients_safe s s0 x : heap_ok (sl_heap s) -> slab_init s = Some (tt, s0) -> rtc client (∅, s0) x ->
  (forall a n b m, x.1 !! a = Some n -> x.1 !! b = Some m -> a = b \/ a + n <= b \/ b + m <= a) /\ (forall a n, x.1 !! a = Some n -> a <> 0) /\
  (forall size, 0 <= size < 2 ^ 64 -> exists a s', slab_alloc size x.2 = Some (a, s')) /\ (forall a n, x.1 !! a = Some n -> exists s', slab_free a x.2 = Some (tt, s')).
Proof.
  intros Hh E0 Hx. destruct (slab_init_run s Hh) as (s1&E1&Hok0). rewrite E0 in E1. injection E1 as <-. assert (client_ok x) as (L&F&Hi&HK).
  { clear E0. remember (∅, s0) as y. clear Heqy. induction Hx as [y|y z w Hyz _ IH]; [done|]. apply IH. by eapply client_step. }
  split; [|split; [|split]].
  - intros a n b m Ha Hb. destruct (HK a n Ha) as (k&?&Ho), (HK b m Hb) as (k'&?&Ho'). destruct (object_apart _ _ _ _ _ _ _ Hi Ho Ho') as [[-> _]|?]; [by left|right; lia].
  - intros a n Ha. destruct (HK a n Ha) as (k&_&Ho). by apply (object_nonzero x.2 L F a k).
  - intros size Hsz. destruct (slab_alloc_run _ _ _ size Hi Hsz) as (a&s'&_&_&E&_). by exists a, s'.
  - intros a n Ha. destruct (HK a n Ha) as (k&_&Ho). destruct (proj1 (slab_free_run _ _ _ Hi) a k Ho) as (s'&_&_&E&_). by exists s'.
Qed.
End Slabs.

(** ** On the kernel heap *)

(** The address of the first object, and the page it is cut from. *)
Definition page0 : Z := HEAP_BASE + 2048 * 4096.
Definition slab_any : slab kheap := SlabState kh0 ∅ [] false 0.
Definition slab0 : slab kheap := state_after slab_init slab_any.
Lemma slab_any_heap : heap_ok (sl_heap slab_any).
Proof. exact (proj1 kh0_kinv). Qed.
Lemma slab0_ok : client_ok (∅, slab0).
Proof. destruct (slab_init_run slab_any slab_any_heap) as (s'&E&H). unfold slab0, state_after. rewrite E. exact H. Qed.
Definition first_alloc (size : Z) : slab kheap := state_after (slab_alloc size) slab0.
Lemma first_alloc_24 : slab_alloc 24 slab0 = Some (page0 + 48, first_alloc 24).
Proof.
  assert ((fun r => r.1) <$> slab_alloc 24 slab0 = Some (page0 + 48)) as E by (vm_compute; reflexivity). unfold first_alloc, state_after.
  destruct (slab_alloc 24 slab0) as [[a s']|]; [|discriminate]. injection E as ->. reflexivity.
Qed.

Lemma slab0_init : slab_init slab_any = Some (tt, slab0).
Proof. reflexivity. Qed.
Definition held_24 : gmap Z Z * slab kheap := (if decide (page0 + 48 = 0) then ∅ else <[page0 + 48 := usable 24]> ∅, first_alloc 24).
Lemma client_24 : rtc client (∅, slab0) held_24.
Proof. eapply rtc_l; [|apply rtc_refl]. constructor; [lia|exact first_alloc_24]. Qed.
Lemma slab_clients_safe_witness : exists a s', slab_alloc 100 held_24.2 = Some (a, s').
Proof. destruct (slab_clients_safe slab_any slab0 held_24 slab_any_heap slab0_init client_24) as (_&_&H&_). apply (H 100). lia. Defined.
Lemma slab_alloc_exact_witness : exists a s', slab_alloc 24 slab0 = Some (a, s').
Proof.
  destruct slab0_ok as (L&F&Hi&_). destruct (slab_alloc_exact slab0 L F 24 Hi ltac:(lia)) as (a&s'&_&_&E&_). exists a, s'. exact E.
Defined.
Lemma slab_free_exact_witness : exists s', slab_free (page0 + 48) (first_alloc 24) = Some (tt, s').
Proof.
  destruct slab0_ok as (L&F&Hi&_). destruct (alloc_object slab0 L F 24 _ _ Hi ltac:(lia) first_alloc_24 ltac:(discriminate)) as (L'&F'&n&Hi'&Ho).
  destruct (proj1 (slab_free_exact (first_alloc 24) L' F' Hi') (page0 + 48) n Ho) as (s'&_&_&E&_). exists s'. exact E.
Defined.

(** ** Pointers that are no objects *)

(** A heap of which only the pages in use matter. *)
#[local] Instance page_list : PageHeap (list Z) := {
  heap_alloc := fun _ ps => let p := 4096 * (1 + Z.of_nat (length ps)) in Some (p, p :: ps); heap_free := fun p ps => Some (tt, filter (fun q => q <> p) ps) }.
Definition one_object (size : Z) : slab (list Z) := state_after (slab_init ;;; slab_alloc size) (SlabState [] ∅ [] false 0).
(** The page of a live object can be freed under it: its base is in no slot, so [slab_free] hands it to [kfree], while the
    page stays on its list. *)
Lemma slab_free_page_base : sl_heap (one_object 24) = [4096] /\
  (fun r => (sl_heap r.2, zget (g_slab_lists r.2) 1)) <$> slab_free 4096 (one_object 24) = Some ([], Some 4096).
Proof. split; vm_compute; reflexivity. Qed.
(** The slot behind the last one is accepted: in the class of 1024 bytes there are three slots, and freeing a fourth makes
    the page look full, with the free slots lost. *)
Lemma slab_free_no_slot : word (sl_mem (one_object 1024)) (slot_count 4096) = 3 /\ word (sl_mem (one_object 1024)) (free_head 4096) = 1 /\
  (fun r => word (sl_mem r.2) (free_head 4096)) <$> slab_free (4096 + 48 + 3 * 1024) (one_object 1024) = Some 3.
Proof. split_and!; vm_compute; reflexivity. Qed.
