(* ===== verification/TaskLife.v ===== *)
(** * Task life cycle (src/kernel/task.c)

    Creation, destruction, exit and wait on the PCBs of Task.v, and the first frame
    on a new kernel stack.  A PCB is identified by its address; freeing it takes it out of
    the heap, so a use of a freed PCB is a fault.  What task.c calls in other parts of the
    kernel is the interface [TaskEnv]; the scheduler is the one of Scheduler.v.  Log
    output is left out.  A walk along a list that has not ended after one step per
    PCB (a cycle) is a fault. *)

From stdpp Require Import base numbers gmap list options.
From S2P Require Import Prelude LinkedList Task Mlfq Scheduler Pmm PageTable Vmm UserMem.

(** The calls of task.c into slab.c, kheap.c, vmm.c, elf.c and the open files.  Pointers are
    addresses, 0 is NULL. *)
Class TaskEnv (R : Type) := {
  te_slab_alloc : Z -> M R Z;
  te_slab_free : Z -> M R unit;
  te_kmalloc : Z -> M R Z;
  te_kfree : Z -> M R unit;
  te_kernel_space : M R Z;                       (* vmm_get_kernel_address_space *)
  te_create_space : Z -> M R vmm_status;         (* vmm_create_address_space *)
  te_destroy_space : Z -> M R unit;              (* vmm_destroy_address_space *)
  te_map_demand : Z -> Z -> Z -> M R unit;       (* vmm_map_demand_page *)
  te_clone_space : Z -> Z -> M R vmm_status;     (* vmm_clone_address_space *)
  te_elf_load : Z -> Z -> Z -> M R (option (Z * Z));  (* elf_load: entry and top, when it is ELF_OK *)
  te_close : nat -> Z -> option nat -> M R unit  (* f->ops->close(i, f->data), nothing when close is NULL *)
}.
(** What the assembly and the linker fix: the reset of the FPU and two code addresses. *)
Class Machine := { fninit : Z -> Z; user_task_iretq_trampoline : Z; idle_task_entry : Z }.

Definition TASK_KERNEL_STACK_SIZE : Z := 32 * 1024.
Definition TASK_USER_STACK_SIZE : Z := 64 * 1024.
Definition TASK_USER_STACK_BASE : Z := 0x0000004000000000.
Definition GDT_USER_DS_SEL : Z := 0x1B.
Definition GDT_USER_CS_SEL : Z := 0x23.
(** [sizeof(task_t)], [sizeof(address_space_t)], [sizeof(elf64_header_t)]. *)
Definition sizeof_task : Z := 2112.
Definition sizeof_address_space : Z := 24.
Definition sizeof_elf64_header : Z := 64.

(** A pointer to a PCB or to another structure, from its address and back. *)
Definition ptr (a : Z) : option nat := if a =? 0 then None else Some (Z.to_nat a).
Definition addr (p : option nat) : Z := match p with None => 0 | Some n => Z.of_nat n end.

Section TaskLife.
Context {R : Type} `{!TaskEnv R} `{!Machine}.

(** The globals of task.c, the kernel stacks (a word never written is 0) and the rest of the kernel. *)
Record tasks := Tasks {
  tk_sched : sched;
  g_next_pid : Z;
  g_init_task : option nat;
  g_task_list : option nat;
  tk_stack : gmap Z Z;
  tk_env : R
}.
Definition set_sched x s := Tasks x (g_next_pid s) (g_init_task s) (g_task_list s) (tk_stack s) (tk_env s).
Definition set_next_pid x s := Tasks (tk_sched s) x (g_init_task s) (g_task_list s) (tk_stack s) (tk_env s).
Definition set_init_task x s := Tasks (tk_sched s) (g_next_pid s) x (g_task_list s) (tk_stack s) (tk_env s).
Definition set_task_list x s := Tasks (tk_sched s) (g_next_pid s) (g_init_task s) x (tk_stack s) (tk_env s).
Definition set_stack x s := Tasks (tk_sched s) (g_next_pid s) (g_init_task s) (g_task_list s) x (tk_env s).
Definition set_env x s := Tasks (tk_sched s) (g_next_pid s) (g_init_task s) (g_task_list s) (tk_stack s) x.

Definition on_env {A} (c : M R A) : M tasks A :=
  fun s => match c (tk_env s) with Some (a, r) => Some (a, set_env r s) | None => None end.
Definition on_sched (c : sched -> option sched) : M tasks unit :=
  fun s => match c (tk_sched s) with Some x => Some (tt, set_sched x s) | None => None end.

(** The PCBs. *)
Definition pcbs (s : tasks) : gmap nat task := heap (mq (tk_sched s)).
Definition set_pcbs (h : gmap nat task) (s : tasks) : tasks :=
  set_sched (set_mq (with_heap h (mq (tk_sched s))) (tk_sched s)) s.
Definition pcb (t : nat) : M tasks task := s <~ mget ;; mlift (pcbs s !! t).
Definition pcb_upd (t : nat) (f : task -> task) : M tasks unit :=
  pcb t ;;; mmodify (fun s => set_pcbs (alter f t (pcbs s)) s).
Definition walk_steps (s : tasks) : nat := S (size (pcbs s)).

(** The FPU: [fninit; fxsave (area)]. *)
Definition fpu_init (area : nat) : M tasks unit :=
  mmodify (fun s => let c := tk_sched s in let f := fninit (fpu c) in
    set_sched (Sched (mq c) (g_current c) (g_idle_task c) (g_ready_count c) (g_sched_initialized c) (g_current_task c)
      (tss_rsp0 c) (cpu_kernel_rsp c) (active_space c) f (<[area := f]> (fpu_areas c))) s).

(** ** The first frame *)

(** [sp--; *sp = v] *)
Definition push (sp v : Z) : M tasks Z :=
  let sp' := u64 (sp - 8) in mmodify (fun s => set_stack (<[sp' := u64 v]> (tk_stack s)) s) ;;; return sp'.
Fixpoint pushes (sp : Z) (vs : list Z) : M tasks Z :=
  match vs with [] => return sp | v :: vs' => sp' <~ push sp v ;; pushes sp' vs' end.

Definition stack_top_of (t : task) : Z := Z.land (u64 (t_kernel_stack_base t + t_kernel_stack_size t)) (not64 0xF).

Definition setup_initial_stack (task : nat) (entry : Z) : M tasks unit :=
  t <~ pcb task ;;
  let stack_top := stack_top_of t in
  if t_is_kernel t then
    sp <~ pushes stack_top [entry; 0; 0; 0; 0; 0; 0] ;;
    pcb_upd task (set_kernel_rsp sp)
  else
    let user_stack_top := u64 (t_user_stack_base t + t_user_stack_size t) in
    sp <~ pushes stack_top [GDT_USER_DS_SEL; user_stack_top; 0x202; GDT_USER_CS_SEL; entry] ;;
    sp <~ pushes sp [user_task_iretq_trampoline; 0; 0; 0; 0; 0; 0] ;;
    pcb_upd task (set_kernel_rsp sp).

(** What a switch to a task takes from its stack: [context_switch] pops rbx, rbp, r12 to r15 and returns
    ([rip]); the trampoline's IRETQ then takes RIP, CS, RFLAGS, RSP and SS. *)
Definition stack_word (w : gmap Z Z) (a : Z) : Z := default 0 (w !! a).
Definition context_restore (w : gmap Z Z) (rsp : Z) : list Z * Z * Z :=
  ([stack_word w rsp; stack_word w (rsp + 8); stack_word w (rsp + 16); stack_word w (rsp + 24); stack_word w (rsp + 32); stack_word w (rsp + 40)],
   stack_word w (rsp + 48), rsp + 56).
Definition iretq (w : gmap Z Z) (rsp : Z) : list Z :=
  [stack_word w rsp; stack_word w (rsp + 8); stack_word w (rsp + 16); stack_word w (rsp + 24); stack_word w (rsp + 32)].

(** ** The global list *)

Definition task_init : M tasks unit :=
  mmodify (fun s => let c := tk_sched s in
    set_next_pid 1 (set_sched (Sched (mq c) (g_current c) (g_idle_task c) (g_ready_count c) (g_sched_initialized c) None
      (tss_rsp0 c) (cpu_kernel_rsp c) (active_space c) (fpu c) (fpu_areas c)) s)).
Definition task_get_current : M tasks (option nat) := mgets (fun s => g_current_task (tk_sched s)).
Definition task_set_current (task : option nat) : M tasks unit :=
  mmodify (fun s => let c := tk_sched s in
    set_sched (Sched (mq c) (g_current c) (g_idle_task c) (g_ready_count c) (g_sched_initialized c) task
      (tss_rsp0 c) (cpu_kernel_rsp c) (active_space c) (fpu c) (fpu_areas c)) s).
Definition task_get_next_pid : M tasks Z := mgets g_next_pid.
Definition task_get_list_head : M tasks (option nat) := mgets g_task_list.

Definition task_list_add (task : nat) : M tasks unit :=
  s <~ mget ;; pcb_upd task (set_g_next (g_task_list s)) ;;; mmodify (set_task_list (Some task)).
Definition task_list_remove (task : nat) : M tasks unit :=
  s <~ mget ;;
  '(found, head, h) <~ mlift (unlink link_g_next (walk_steps s) (fun x _ => bool_decide (x = task)) (pcbs s) None (g_task_list s)) ;;
  mmodify (fun s => set_task_list head (set_pcbs h s)) ;;;
  match found with None => return tt | Some x => pcb_upd x (set_g_next None) end.
Definition task_find_by_pid (pid : Z) : M tasks (option nat) :=
  s <~ mget ;; mlift (walk_find link_g_next (walk_steps s) (fun _ t => t_pid t =? pid) (pcbs s) (g_task_list s)).

Definition task_wake (task : option nat) : M tasks unit :=
  match task with
  | None => return tt
  | Some x =>
    t <~ pcb x ;;
    if negb (bool_decide (t_state t = TASK_STATE_BLOCKED)) then return tt else
    pcb_upd x (set_is_waiting_for_children false) ;;; on_sched (scheduler_wake_task task)
  end.

Definition task_close_all_fds (task : nat) : M tasks unit :=
  for_range 0 TASK_MAX_FDS (fun i =>
    t <~ pcb task ;;
    f <~ mlift (zget (t_fd_table t) i) ;;
    (match f_ops f with Some ops => on_env (te_close ops i (f_data f)) | None => return tt end) ;;;
    t <~ pcb task ;;
    fds <~ mlift (zset (t_fd_table t) i (File None None 0 0)) ;;
    pcb_upd task (set_fd_table fds)).

Definition task_state_char (state : task_state) : Z :=
  match state with
  | TASK_STATE_CREATED => 67 | TASK_STATE_READY => 82 | TASK_STATE_RUNNING => 88 | TASK_STATE_BLOCKED => 66
  | TASK_STATE_SLEEPING => 83 | TASK_STATE_ZOMBIE => 90 | TASK_STATE_DEAD => 68
  end.

(** ** Creation and destruction *)

(** [slab_free(task)] for a PCB. *)
Definition free_pcb (task : nat) : M tasks unit :=
  mmodify (fun s => set_pcbs (delete task (pcbs s)) s) ;;; on_env (te_slab_free (Z.of_nat task)).
(** [memset((void * )base, 0, size)] on a kernel stack. *)
Definition stack_zero (base size : Z) : M tasks unit :=
  mmodify (fun s => set_stack (filter (fun w => ~ (base <= w.1 < base + size)) (tk_stack s)) s).

(** A PCB: allocated and zeroed. *)
Definition pcb_alloc : M tasks (option nat) :=
  a <~ on_env (te_slab_alloc sizeof_task) ;;
  if a =? 0 then return None else
  mmodify (fun s => set_pcbs (<[Z.to_nat a := task0]> (pcbs s)) s) ;;; return (Some (Z.to_nat a)).

(** The common beginning of [task_create] and [task_create_elf]: the PCB with its PID and defaults,
    the global list, the FPU area and the kernel stack. *)
Definition pcb_defaults (pid : Z) (name : list Z) (is_kernel : bool) (t : task) : task :=
  set_remaining_ticks 5 (set_time_slice 5 (set_state TASK_STATE_CREATED (set_is_kernel is_kernel (set_name name (set_pid pid t))))).
Definition task_new (name : list Z) (is_kernel : bool) : M tasks (option nat) :=
  p <~ pcb_alloc ;;
  match p with
  | None => return None
  | Some task =>
    pid <~ mgets g_next_pid ;;
    mmodify (set_next_pid (u64 (pid + 1))) ;;;
    pcb_upd task (pcb_defaults pid name is_kernel) ;;;
    mwhen (pid =? 1) (mmodify (set_init_task (Some task))) ;;;
    task_list_add task ;;;
    fpu_state <~ on_env (te_kmalloc 512) ;;
    pcb_upd task (set_fpu_state (ptr fpu_state)) ;;;
    if fpu_state =? 0 then task_list_remove task ;;; free_pcb task ;;; return None else
    fpu_init (Z.to_nat fpu_state) ;;;
    base <~ on_env (te_slab_alloc TASK_KERNEL_STACK_SIZE) ;;
    pcb_upd task (set_kernel_stack base TASK_KERNEL_STACK_SIZE) ;;;
    if base =? 0 then on_env (te_kfree fpu_state) ;;; task_list_remove task ;;; free_pcb task ;;; return None else
    stack_zero base TASK_KERNEL_STACK_SIZE ;;;
    return (Some task)
  end.

(** The error exits after the kernel stack: stack, FPU area, list, PCB. *)
Definition task_undo (task : nat) : M tasks (option nat) :=
  t <~ pcb task ;;
  on_env (te_slab_free (t_kernel_stack_base t)) ;;;
  on_env (te_kfree (addr (t_fpu_state t))) ;;;
  task_list_remove task ;;; free_pcb task ;;; return None.
(** The address space of a user task: [false] after the error exits. *)
Definition task_new_space (task : nat) : M tasks bool :=
  a <~ on_env (te_slab_alloc sizeof_address_space) ;;
  pcb_upd task (set_address_space (ptr a)) ;;;
  if a =? 0 then task_undo task ;;; return false else
  st <~ on_env (te_create_space a) ;;
  if negb (bool_decide (st = VMM_OK)) then on_env (te_slab_free a) ;;; task_undo task ;;; return false
  else return true.
(** The user stack, mapped on demand. *)
Definition stack_flags : Z := Z.lor PTE_WRITABLE PTE_USER.
Definition map_user_stack (task : nat) : M tasks unit :=
  pcb_upd task (set_user_stack TASK_USER_STACK_BASE TASK_USER_STACK_SIZE) ;;;
  t <~ pcb task ;;
  for_range 0 (TASK_USER_STACK_SIZE / PAGE_SIZE) (fun i =>
    on_env (te_map_demand (addr (t_address_space t)) (TASK_USER_STACK_BASE + i * PAGE_SIZE) stack_flags)).

Definition task_create (name : list Z) (entry : Z) (is_kernel : bool) : M tasks (option nat) :=
  p <~ task_new name is_kernel ;;
  match p with
  | None => return None
  | Some task =>
    ok <~ (if is_kernel then
             a <~ on_env te_kernel_space ;; pcb_upd task (set_address_space (ptr a)) ;;; return true
           else
             ok <~ task_new_space task ;;
             if negb ok then return false else
             map_user_stack task ;;;
             pcb_upd task (set_user_heap 0 0) ;;; return true) ;;
    if negb ok then return None else
    setup_initial_stack task entry ;;;
    return (Some task)
  end.

Definition task_create_elf (name : list Z) (elf_data elf_size : Z) : M tasks (option nat) :=
  if (elf_data =? 0) || (elf_size <? sizeof_elf64_header) then return None else
  p <~ task_new name false ;;
  match p with
  | None => return None
  | Some task =>
    ok <~ task_new_space task ;;
    if negb ok then return None else
    t <~ pcb task ;;
    r <~ on_env (te_elf_load elf_data elf_size (addr (t_address_space t))) ;;
    match r with
    | None =>
      on_env (te_destroy_space (addr (t_address_space t))) ;;;
      on_env (te_slab_free (addr (t_address_space t))) ;;; task_undo task
    | Some (entry, top) =>
      map_user_stack task ;;;
      pcb_upd task (set_user_heap (page_up top) (page_up top)) ;;;
      setup_initial_stack task entry ;;;
      return (Some task)
    end
  end.

Definition idle_name : list Z := [105; 100; 108; 101].
Definition task_create_idle : M tasks (option nat) :=
  p <~ pcb_alloc ;;
  match p with
  | None => return None
  | Some idle =>
    pcb_upd idle (fun t => set_remaining_ticks 1 (set_time_slice 1 (set_state TASK_STATE_READY (set_is_kernel true (set_name idle_name t))))) ;;;
    base <~ on_env (te_slab_alloc 4096) ;;
    pcb_upd idle (set_kernel_stack base 4096) ;;;
    if base =? 0 then free_pcb idle ;;; return None else
    stack_zero base 4096 ;;;
    a <~ on_env te_kernel_space ;;
    pcb_upd idle (set_address_space (ptr a)) ;;;
    fpu_state <~ on_env (te_kmalloc 512) ;;
    pcb_upd idle (set_fpu_state (ptr fpu_state)) ;;;
    if fpu_state =? 0 then on_env (te_slab_free base) ;;; free_pcb idle ;;; return None else
    fpu_init (Z.to_nat fpu_state) ;;;
    setup_initial_stack idle idle_task_entry ;;;
    return (Some idle)
  end.

Definition task_destroy (task : option nat) : M tasks unit :=
  match task with
  | None => return tt
  | Some x =>
    task_close_all_fds x ;;;
    task_list_remove x ;;;
    t <~ pcb x ;;
    match t_address_space t with
    | Some a => if t_is_kernel t then return tt
                else on_env (te_destroy_space (Z.of_nat a)) ;;; on_env (te_slab_free (Z.of_nat a))
    | None => return tt
    end ;;;
    match t_fpu_state t with Some f => on_env (te_kfree (Z.of_nat f)) | None => return tt end ;;;
    mwhen (negb (t_kernel_stack_base t =? 0)) (on_env (te_slab_free (t_kernel_stack_base t))) ;;;
    pcb_upd x (set_state TASK_STATE_DEAD) ;;;
    free_pcb x
  end.

(** Boot: [task_init], and [scheduler_init] with its [task_create_idle]; [false] when there is no idle task
    and the kernel halts. *)
Definition tasks_boot : M tasks bool :=
  task_init ;;;
  idle <~ task_create_idle ;;
  match idle with
  | None => return false
  | Some _ => on_sched (scheduler_init idle) ;;; return true
  end.

(** ** Exit and wait *)

(** The loop of [task_reparent_children]; [init] is the new parent. *)
Fixpoint reparent_loop (n : nat) (init child : option nat) : M tasks unit :=
  match child with
  | None => return tt
  | Some c =>
    match n with
    | O => mfault
    | S n' =>
      t <~ pcb c ;;
      let next := t_sibling_next t in
      pcb_upd c (set_parent init) ;;;
      match init with
      | None => pcb_upd c (set_sibling_next None)
      | Some i => ti <~ pcb i ;; pcb_upd c (set_sibling_next (t_children ti)) ;;; pcb_upd i (set_children (Some c))
      end ;;;
      reparent_loop n' init next
    end
  end.
Definition task_reparent_children (task : option nat) : M tasks unit :=
  match task with
  | None => return tt
  | Some x =>
    t <~ pcb x ;;
    match t_children t with
    | None => return tt
    | Some c =>
      s <~ mget ;;
      reparent_loop (walk_steps s) (g_init_task s) (Some c) ;;;
      pcb_upd x (set_children None)
    end
  end.

(** [false]: the init task exited and the kernel halts. *)
Definition task_exit (code : Z) : M tasks bool :=
  cur <~ task_get_current ;;
  match cur with
  | None => return true
  | Some x =>
    pcb_upd x (set_exit_code code) ;;;
    task_reparent_children (Some x) ;;;
    pcb_upd x (set_state TASK_STATE_ZOMBIE) ;;;
    t <~ pcb x ;;
    match t_parent t with
    | Some p => tp <~ pcb p ;; mwhen (t_is_waiting_for_children tp) (task_wake (Some p))
    | None => return tt
    end ;;;
    t <~ pcb x ;;
    return (negb (t_pid t =? 1))
  end.

(** The value and, when a child was reaped, what [*status] becomes. *)
Definition task_wait : M tasks (Z * option Z) :=
  cur <~ task_get_current ;;
  match cur with
  | None => return (-1, None)
  | Some x =>
    s <~ mget ;; t <~ pcb x ;;
    '(found, head, h) <~ mlift (unlink link_sibling (walk_steps s)
        (fun _ c => bool_decide (t_state c = TASK_STATE_ZOMBIE)) (pcbs s) None (t_children t)) ;;
    match found with
    | Some child =>
      c <~ pcb child ;;
      mmodify (set_pcbs h) ;;; pcb_upd x (set_children head) ;;;
      task_destroy (Some child) ;;;
      return (i32 (t_pid c), Some (t_exit_code c))
    | None =>
      match t_children t with
      | Some _ =>
        pcb_upd x (set_is_waiting_for_children true) ;;;
        on_sched (scheduler_unqueue_task (Some x)) ;;;
        pcb_upd x (set_state TASK_STATE_BLOCKED) ;;;
        return (-1, None)
      | None => return (-1, None)
      end
    end
  end.

End TaskLife.
Arguments tasks : clear implicits.
Arguments Tasks {R}.
