(* ===== verification/TaskLifeSpec.v ===== *)
(** * Creation and destruction of tasks (the theorems on TaskLife.v)

    [TaskEnvLaws] states what task.c needs of the allocators and the memory manager: every
    block handed out is fresh and can be given back once.  The invariant [tinv] ties the PCBs
    to the global list, to the process tree, to the blocks each task holds and to the
    scheduler's queues. *)

From stdpp Require Import base numbers gmap list options.
From S2P Require Import Prelude LinkedList Task Mlfq Scheduler Pmm PageTable Vmm UserMem TaskLife.
#[local] Set Default Proof Using "Type*".

(** ** What the rest of the kernel promises *)

(** The blocks in use: objects of the slab allocator, blocks of the heap, and the
    structures that hold a live address space. *)
Record held := Held { hl_slab : gset Z; hl_heap : gset Z; hl_space : gset Z }.

Class TaskEnvLaws (R : Type) `{!TaskEnv R} := {
  env_rep : R -> held -> Prop;
  law_slab_alloc r k n : env_rep r k -> 0 < n <= 2 ^ 23 -> exists a r', te_slab_alloc n r = Some (a, r') /\
    (a = 0 /\ env_rep r' k \/ 0 < a /\ a + n < 2 ^ 64 /\ a ∉ hl_slab k /\ env_rep r' (Held ({[a]} ∪ hl_slab k) (hl_heap k) (hl_space k)));
  law_slab_free r k a : env_rep r k -> a ∈ hl_slab k -> a ∉ hl_space k -> exists r', te_slab_free a r = Some (tt, r') /\
    env_rep r' (Held (hl_slab k ∖ {[a]}) (hl_heap k) (hl_space k));
  law_kmalloc r k n : env_rep r k -> 0 < n <= 2 ^ 23 -> exists a r', te_kmalloc n r = Some (a, r') /\
    (a = 0 /\ env_rep r' k \/ 0 < a /\ a ∉ hl_heap k /\ env_rep r' (Held (hl_slab k) ({[a]} ∪ hl_heap k) (hl_space k)));
  law_kfree r k a : env_rep r k -> a ∈ hl_heap k -> exists r', te_kfree a r = Some (tt, r') /\
    env_rep r' (Held (hl_slab k) (hl_heap k ∖ {[a]}) (hl_space k));
  law_kernel_space r k : env_rep r k -> exists a r', te_kernel_space r = Some (a, r') /\ env_rep r' k;
  law_create r k a : env_rep r k -> a ∈ hl_slab k -> a ∉ hl_space k -> exists st r', te_create_space a r = Some (st, r') /\
    env_rep r' (if decide (st = VMM_OK) then Held (hl_slab k) (hl_heap k) ({[a]} ∪ hl_space k) else k);
  law_destroy r k a : env_rep r k -> a ∈ hl_space k -> exists r', te_destroy_space a r = Some (tt, r') /\
    env_rep r' (Held (hl_slab k) (hl_heap k) (hl_space k ∖ {[a]}));
  law_map r k a va flags : env_rep r k -> a ∈ hl_space k -> exists r', te_map_demand a va flags r = Some (tt, r') /\ env_rep r' k;
  law_clone r k a b : env_rep r k -> a ∈ hl_space k -> b ∈ hl_space k -> exists st r', te_clone_space a b r = Some (st, r') /\ env_rep r' k;
  law_elf r k d n a : env_rep r k -> a ∈ hl_space k -> exists x r', te_elf_load d n a r = Some (x, r') /\ env_rep r' k;
  law_close r k o i d : env_rep r k -> exists r', te_close o i d r = Some (tt, r') /\ env_rep r' k;
  law_space r k : env_rep r k -> hl_space k ⊆ hl_slab k
}.

Section Life.
Context {R : Type} {TE : TaskEnv R} {TL : TaskEnvLaws R} {MC : Machine}.
Implicit Types (s : tasks R) (h : gmap nat task) (c : sched) (k : held) (G : list nat).

(** ** Running one step *)

(** A state from its parts: the scheduler's fields but the PCBs, the PCBs, the globals, the stacks, the rest. *)
Definition mk (c : sched) (h : gmap nat task) (n : Z) (i l : option nat) (w : gmap Z Z) (r : R) : tasks R :=
  Tasks (set_mq (with_heap h (mq c)) c) n i l w r.
Lemma mk_eta s : s = mk (tk_sched s) (pcbs s) (g_next_pid s) (g_init_task s) (g_task_list s) (tk_stack s) (tk_env s).
Proof. destruct s as [[[] ? ? ? ? ? ? ? ? ? ?] ? ? ? ? ?]. reflexivity. Qed.
Lemma pcb_mk c h n i l w r x a : h !! x = Some a -> pcb x (mk c h n i l w r) = Some (a, mk c h n i l w r).
Proof. intros H. unfold pcb, mbind_, mget, mlift. change (pcbs (mk c h n i l w r)) with h. by rewrite H. Qed.
Lemma alter_insert_some (f : task -> task) h x a : h !! x = Some a -> alter f x h = <[x := f a]> h.
Proof. intros H. apply map_eq. intros y. rewrite lookup_alter, lookup_insert. case_decide; subst; [by rewrite H|done]. Qed.
Lemma upd_mk c h n i l w r x a f : h !! x = Some a -> pcb_upd x f (mk c h n i l w r) = Some (tt, mk c (<[x := f a]> h) n i l w r).
Proof.
  intros H. unfold pcb_upd, mbind_. rewrite (pcb_mk _ _ _ _ _ _ _ _ _ H). unfold mmodify. change (pcbs (mk c h n i l w r)) with h.
  by rewrite (alter_insert_some _ _ _ _ H).
Qed.
Lemma pcb_run s x a : pcbs s !! x = Some a -> pcb x s = Some (a, s).
Proof. intros H. unfold pcb, mbind_, mget, mlift. by rewrite H. Qed.
Lemma upd_run s x a f : pcbs s !! x = Some a -> pcb_upd x f s = Some (tt, set_pcbs (<[x := f a]> (pcbs s)) s).
Proof. intros H. unfold pcb_upd, mbind_. rewrite (pcb_run _ _ _ H). unfold mmodify. by rewrite (alter_insert_some _ _ _ _ H). Qed.
Lemma set_pcbs_id s : set_pcbs (pcbs s) s = s.
Proof. by destruct s as [[[] ? ? ? ? ? ? ? ? ? ?] ? ? ? ? ?]. Qed.
Lemma env_mk {X} (e : M R X) c h n i l w r v r' : e r = Some (v, r') -> on_env e (mk c h n i l w r) = Some (v, mk c h n i l w r').
Proof. intros H. unfold on_env. change (tk_env (mk c h n i l w r)) with r. by rewrite H. Qed.
(** The scheduler's fields after [fpu_init]. *)
Definition fpu_set (area : nat) (c : sched) : sched :=
  Sched (mq c) (g_current c) (g_idle_task c) (g_ready_count c) (g_sched_initialized c) (g_current_task c)
    (tss_rsp0 c) (cpu_kernel_rsp c) (active_space c) (fninit (fpu c)) (<[area := fninit (fpu c)]> (fpu_areas c)).
Lemma fpu_mk c h n i l w r (f : nat) : fpu_init f (mk c h n i l w r) = Some (tt, mk (fpu_set f c) h n i l w r).
Proof. reflexivity. Qed.
Lemma add_mk c h n i l w r x a : h !! x = Some a -> task_list_add x (mk c h n i l w r) = Some (tt, mk c (<[x := set_g_next l a]> h) n i (Some x) w r).
Proof. intros H. unfold task_list_add, mbind_ at 1, mget. cbn [g_task_list mk]. mstep (upd_mk c h n i l w r x a (set_g_next l) H). reflexivity. Qed.
Lemma free_mk c h n i l w r r' x : te_slab_free (Z.of_nat x) r = Some (tt, r') -> free_pcb x (mk c h n i l w r) = Some (tt, mk c (delete x h) n i l w r').
Proof. intros H. unfold free_pcb, mbind_, mmodify. by apply (env_mk _ c (delete x h)). Qed.

(** A list without duplicates of PCBs is no longer than there are PCBs. *)
Lemma pcbs_length h G : NoDup G -> (forall x, x ∈ G -> is_Some (h !! x)) -> (length G < S (size h))%nat.
Proof.
  intros Hnd Hin. rewrite <-size_dom. assert (list_to_set G ⊆ dom h) as Hs by (intros x Hx; apply elem_of_dom, Hin; set_solver).
  apply subseteq_size in Hs. rewrite size_list_to_set in Hs by done. lia.
Qed.

(** ** The global list *)

(** Two heaps that differ in the links of the global list only. *)
Definition same_but_g (h h' : gmap nat task) : Prop := forall y, set_g_next None <$> h' !! y = set_g_next None <$> h !! y.
Lemma same_but_g_refl h : same_but_g h h.
Proof. done. Qed.
Lemma same_but_g_insert h x a b : h !! x = Some a -> set_g_next None b = set_g_next None a -> same_but_g h (<[x := b]> h).
Proof. intros H E y. rewrite lookup_insert. case_decide; subst; [by rewrite H; simpl; rewrite E|done]. Qed.
Lemma same_but_g_trans h1 h2 h3 : same_but_g h1 h2 -> same_but_g h2 h3 -> same_but_g h1 h3.
Proof. intros A B y. by rewrite B, A. Qed.
Lemma same_but_g_view {X} (f : task -> X) h h' y : (forall a, f (set_g_next None a) = f a) -> same_but_g h h' -> f <$> h' !! y = f <$> h !! y.
Proof. intros Hf E. specialize (E y). destruct (h !! y), (h' !! y); try done. simpl in *. apply (inj Some) in E. f_equal. by rewrite <-Hf, E, Hf. Qed.
Lemma same_but_g_lookup h h' y a : same_but_g h h' -> h !! y = Some a -> exists v, h' !! y = Some (set_g_next v a).
Proof.
  intros E Ha. specialize (E y). rewrite Ha in E. destruct (h' !! y) as [b|]; [|done]. apply (inj Some) in E. exists (t_g_next b). f_equal.
  transitivity (set_g_next (t_g_next b) (set_g_next None b)); [by destruct b|]. by rewrite E.
Qed.

Notation glist := (lseg link_g_next).
(** Taking a task out of the list. *)
Lemma remove_mk c h n i l w r G x : glist h l G None -> NoDup G -> x ∈ G ->
  exists h' l', task_list_remove x (mk c h n i l w r) = Some (tt, mk c h' n i l' w r) /\ glist h' l' (rm x G) None /\ same_but_g h h'.
Proof.
  intros Hl Hnd Hx. apply list_elem_of_split in Hx as (l1&l2&->). pose proof Hnd as (_&Hd&[Hx2 Hnd2]%NoDup_cons)%NoDup_app.
  assert (x ∉ l1) as Hx1 by (intros ?; eapply Hd; [done|left]). assert (exists a, h !! x = Some a) as [a Ha] by (eapply lseg_in; [exact Hl|set_solver]).
  rewrite (rm_split _ _ _ Hnd).
  pose proof (lseg_remove link_g_next h l l1 x l2 a Hl Hnd Ha) as Hrem. unfold task_list_remove, mbind_ at 1, mget. change (pcbs (mk c h n i l w r)) with h. change (g_task_list (mk c h n i l w r)) with l.
  assert (length l1 < walk_steps (mk c h n i l w r))%nat as Hlen.
  { pose proof (pcbs_length h _ Hnd (fun y Hy => lseg_in _ _ _ _ _ y Hl Hy)) as L. rewrite length_app in L. unfold walk_steps. change (pcbs (mk c h n i l w r)) with h. lia. }
  rewrite (unlink_spec link_g_next _ _ h l l1 x l2 a Hl); [|intros y b Hy _; apply bool_decide_eq_false; intros ->; done|done|by apply bool_decide_eq_true|done].
  destruct (last l1) as [y|] eqn:El; cbn [mlift mbind_ mmodify].
  - apply last_Some in El as [l1' ->]. assert (y <> x) as Hne by (intros ->; set_solver). assert (exists b, h !! y = Some b) as [b Hb] by (eapply lseg_in; [exact Hl|set_solver]).
    set (h1 := alter (lset link_g_next (lget link_g_next a)) y h) in *. assert (h1 !! x = Some a) as Hx' by (unfold h1; by rewrite lookup_alter_ne).
    exists (<[x := set_g_next None a]> h1), l. split; [exact (upd_mk c h1 n i l w r x a _ Hx')|]. split; [apply lseg_insert_ne; [set_solver|done]|].
    apply (same_but_g_trans _ h1); [|by apply (same_but_g_insert _ _ a)]. unfold h1. rewrite (alter_insert_some _ _ _ _ Hb). by apply (same_but_g_insert _ _ b).
  - exists (<[x := set_g_next None a]> h), (t_g_next a). split; [exact (upd_mk c h n i (t_g_next a) w r x a _ Ha)|]. split; [apply lseg_insert_ne; [set_solver|done]|by apply (same_but_g_insert _ _ a)].
Qed.
(** Taking the task just added out again: the other PCBs and the list are as before. *)
Lemma remove_head c h n i l w r G x a : glist h l G None -> NoDup G -> h !! x = None -> t_g_next a = l ->
  exists b, task_list_remove x (mk c (<[x := a]> h) n i (Some x) w r) = Some (tt, mk c (<[x := b]> h) n i l w r).
Proof.
  intros Hl Hnd Hx Ea. assert (x ∉ G) as HxG by (intros Hin; destruct (lseg_in _ _ _ _ _ _ Hl Hin); congruence). set (h1 := <[x := a]> h).
  assert (h1 !! x = Some a) as H1 by apply lookup_insert_eq. assert (glist h1 (Some x) ([] ++ x :: G) None) as Hl1.
  { cbn [app lseg]. split; [done|]. exists a. split; [done|]. rewrite <-Ea in Hl. by apply lseg_insert_ne. }
  unfold task_list_remove, mbind_ at 1, mget. change (pcbs (mk c h1 n i (Some x) w r)) with h1. change (g_task_list (mk c h1 n i (Some x) w r)) with (Some x).
  rewrite (unlink_spec link_g_next _ _ h1 (Some x) [] x G a Hl1); [|set_solver|done|by apply bool_decide_eq_true|apply Nat.lt_0_succ]. cbn [last mlift mbind_ mmodify].
  exists (set_g_next None a). cbn [lget link_g_next]. rewrite Ea. pose proof (upd_mk c h1 n i l w r x a (set_g_next None) H1) as E. unfold h1 in E at 2. rewrite insert_insert_eq in E. exact E.
Qed.

(** ** Creation *)

(** The PCB after the common beginning. *)
Definition new_pcb (pid : Z) (name : list Z) (kern : bool) (l : option nat) (f : nat) (base : Z) : task :=
  set_kernel_stack base TASK_KERNEL_STACK_SIZE (set_fpu_state (Some f) (set_g_next l (pcb_defaults pid name kern task0))).
(** A failed creation: the PCBs, the list and the blocks in use are what they were.  A PID may have been used
    up, the FPU reset and the stack area zeroed. *)
Definition undone c h (n : Z) (i l : option nat) k (s' : tasks R) : Prop := exists c' n' i' w' r',
  s' = mk c' h n' i' l w' r' /\ env_rep r' k /\ (n' = n \/ n' = u64 (n + 1)) /\ (n <> 1 -> i' = i) /\ (c' = c \/ exists f, c' = fpu_set f c).
Definition add_slab (x : Z) k : held := Held ({[x]} ∪ hl_slab k) (hl_heap k) (hl_space k).
Definition add_heap (x : Z) k : held := Held (hl_slab k) ({[x]} ∪ hl_heap k) (hl_space k).
Definition add_space (x : Z) k : held := Held (hl_slab k) (hl_heap k) ({[x]} ∪ hl_space k).
Lemma alloc_cases r k n : env_rep r k -> 0 < n <= 2 ^ 23 -> exists a r', te_slab_alloc n r = Some (a, r') /\
  (a = 0 /\ env_rep r' k \/ a <> 0 /\ 0 < a /\ a + n < 2 ^ 64 /\ a ∉ hl_slab k /\ a ∉ hl_space k /\ env_rep r' (add_slab a k)).
Proof.
  intros Hr Hn. destruct (law_slab_alloc r k n Hr Hn) as (a&r'&E&Hc). exists a, r'. split; [done|]. pose proof (law_space r k Hr).
  destruct Hc as [Hc|(?&?&?&?)]; [by left|right]. split_and!; [lia|done|done|done|set_solver|done].
Qed.
Lemma free_added r k x : env_rep r (add_slab x k) -> x ∉ hl_slab k -> x ∉ hl_space k -> exists r', te_slab_free x r = Some (tt, r') /\ env_rep r' k.
Proof.
  intros Hr Hx Hy. destruct (law_slab_free r _ x Hr) as (r'&E&Hr'); [set_solver|done|]. exists r'. split; [done|]. destruct k as [a b c]. cbn [add_slab hl_slab hl_heap hl_space] in *.
  replace (({[x]} ∪ a) ∖ {[x]}) with a in Hr' by set_solver. exact Hr'.
Qed.
Lemma kfree_added r k x : env_rep r (add_heap x k) -> x ∉ hl_heap k -> exists r', te_kfree x r = Some (tt, r') /\ env_rep r' k.
Proof.
  intros Hr Hx. destruct (law_kfree r _ x Hr) as (r'&E&Hr'); [set_solver|]. exists r'. split; [done|]. destruct k as [a b c]. cbn [add_heap hl_slab hl_heap hl_space] in *.
  replace (({[x]} ∪ b) ∖ {[x]}) with b in Hr' by set_solver. exact Hr'.
Qed.
Lemma destroy_added r k x : env_rep r (add_space x k) -> x ∉ hl_space k -> exists r', te_destroy_space x r = Some (tt, r') /\ env_rep r' k.
Proof.
  intros Hr Hx. destruct (law_destroy r _ x Hr) as (r'&E&Hr'); [set_solver|]. exists r'. split; [done|]. destruct k as [a b c]. cbn [add_space hl_slab hl_heap hl_space] in *.
  replace (({[x]} ∪ c) ∖ {[x]}) with c in Hr' by set_solver. exact Hr'.
Qed.

(** Runs the next step of the goal's program: [e] is the equation of the step. *)
Ltac run e := rewrite (mbind_Some _ _ _ _ _ e).

(** The new PCB is written over. *)
Lemma upd_at c h n i l w r x a f : pcb_upd x f (mk c (<[x := a]> h) n i l w r) = Some (tt, mk c (<[x := f a]> h) n i l w r).
Proof. rewrite (upd_mk c _ n i l w r x a f) by apply lookup_insert_eq. by rewrite insert_insert_eq. Qed.
Lemma add_at c h n i l w r x a : task_list_add x (mk c (<[x := a]> h) n i l w r) = Some (tt, mk c (<[x := set_g_next l a]> h) n i (Some x) w r).
Proof. rewrite (add_mk c _ n i l w r x a) by apply lookup_insert_eq. by rewrite insert_insert_eq. Qed.
Lemma pcb_at c h n i l w r x a : pcb x (mk c (<[x := a]> h) n i l w r) = Some (a, mk c (<[x := a]> h) n i l w r).
Proof. apply pcb_mk, lookup_insert_eq. Qed.
(** The list and the PCB are given back. *)
Lemma drop_mk c h n i l w r k x a G : glist h l G None -> NoDup G -> h !! x = None -> t_g_next a = l -> env_rep r (add_slab (Z.of_nat x) k) ->
  Z.of_nat x ∉ hl_slab k -> Z.of_nat x ∉ hl_space k -> forall (o : option nat),
  exists r', (task_list_remove x ;;; free_pcb x ;;; return o) (mk c (<[x := a]> h) n i (Some x) w r) = Some (o, mk c h n i l w r') /\ env_rep r' k.
Proof.
  intros Hl Hnd Hx Ea Hr H1 H2 o. destruct (remove_head c h n i l w r G x a Hl Hnd Hx Ea) as [b E]. destruct (free_added r k _ Hr H1 H2) as (r'&Ef&Hr'). exists r'. split; [|done].
  run E. run (free_mk c (<[x := b]> h) n i l w r r' x Ef). by rewrite delete_insert_id.
Qed.

Lemma task_new_run c h n i l w r k G name kern : glist h l G None -> NoDup G -> env_rep r k -> (forall x, is_Some (h !! x) -> Z.of_nat x ∈ hl_slab k) ->
  exists o s', task_new name kern (mk c h n i l w r) = Some (o, s') /\
    match o with
    | None => undone c h n i l k s'
    | Some x => exists f base w' r', s' = mk (fpu_set f c) (<[x := new_pcb n name kern l f base]> h) (u64 (n + 1)) (if n =? 1 then Some x else i) (Some x) w' r' /\
        h !! x = None /\ 0 < base /\ base + TASK_KERNEL_STACK_SIZE < 2 ^ 64 /\ Z.of_nat f ∉ hl_heap k /\ Z.of_nat x ∉ hl_slab k /\ Z.of_nat x ∉ hl_space k /\ base ∉ hl_slab (add_slab (Z.of_nat x) k) /\ base ∉ hl_space k /\
        env_rep r' (add_slab base (add_heap (Z.of_nat f) (add_slab (Z.of_nat x) k)))
    end.
Proof.
  intros Hl Hnd Hr Hdom. unfold task_new, pcb_alloc. unfold mbind_ at 1. destruct (alloc_cases r k sizeof_task Hr ltac:(vm_compute; intuition discriminate)) as (a&r1&E1&Hc1).
  run (env_mk _ c h n i l w r _ _ E1). destruct Hc1 as [[-> Hr1]|(Ha&Ha0&_&Ha1&Ha2&Hr1)].
  { exists None. eexists. split; [reflexivity|]. exists c, n, i, w, r1. split_and!; auto. }
  rewrite (proj2 (Z.eqb_neq _ _) Ha). set (x := Z.to_nat a). assert (Z.of_nat x = a) as Ex by (unfold x; lia). rewrite <-Ex in *. assert (h !! x = None) as Hx.
  { apply eq_None_not_Some. intros Hs. by apply Ha1, Hdom. }
  unfold mbind_ at 1, mmodify. cbn beta iota. change (Z.to_nat a) with x. change (set_pcbs _ _) with (mk c (<[x := task0]> h) n i l w r1). cbn [mret].
  unfold mbind_ at 1, mgets. change (g_next_pid (mk c (<[x := task0]> h) n i l w r1)) with n. unfold mbind_ at 1. change (set_next_pid _ _) with (mk c (<[x := task0]> h) (u64 (n + 1)) i l w r1).
  run (upd_at c h (u64 (n + 1)) i l w r1 x task0 (pcb_defaults n name kern)). set (i' := if n =? 1 then Some x else i).
  assert (forall a : task, mwhen (n =? 1) (fun s => Some (tt, set_init_task (Some x) s)) (mk c (<[x := a]> h) (u64 (n + 1)) i l w r1) = Some (tt, mk c (<[x := a]> h) (u64 (n + 1)) i' l w r1)) as Ei.
  { intros b. unfold i', mwhen. by destruct (n =? 1). }
  assert (n <> 1 -> i' = i) as Hi' by (unfold i'; intros ?; by rewrite (proj2 (Z.eqb_neq n 1))). run (Ei (pcb_defaults n name kern task0)).
  run (add_at c h (u64 (n + 1)) i' l w r1 x (pcb_defaults n name kern task0)). destruct (law_kmalloc r1 _ 512 Hr1 ltac:(lia)) as (f&r2&E2&Hc2). run (env_mk _ c (<[x := set_g_next l (pcb_defaults n name kern task0)]> h) (u64 (n + 1)) i' (Some x) w r1 _ _ E2).
  run (upd_at c h (u64 (n + 1)) i' (Some x) w r2 x (set_g_next l (pcb_defaults n name kern task0)) (set_fpu_state (ptr f))). destruct Hc2 as [[-> Hr2]|(Hf0&Hf1&Hr2)].
  { destruct (drop_mk c h (u64 (n + 1)) i' l w r2 k x (set_fpu_state None (set_g_next l (pcb_defaults n name kern task0))) G Hl Hnd Hx eq_refl Hr2 Ha1 Ha2 None) as (r3&E3&Hr3). exists None. eexists. split; [exact E3|]. exists c, (u64 (n + 1)), i', w, r3. split_and!; auto. }
  rewrite (proj2 (Z.eqb_neq f 0)) by lia. set (g := Z.to_nat f). assert (f = Z.of_nat g) as Ef by (unfold g; lia). run (fpu_mk c (<[x := set_fpu_state (ptr f) (set_g_next l (pcb_defaults n name kern task0))]> h) (u64 (n + 1)) i' (Some x) w r2 g).
  replace (ptr f) with (Some g) by (unfold ptr; by rewrite (proj2 (Z.eqb_neq f 0)) by lia). rewrite Ef in *.
  destruct (alloc_cases r2 _ TASK_KERNEL_STACK_SIZE Hr2 ltac:(vm_compute; intuition discriminate)) as (base&r3&E3&Hc3). run (env_mk _ (fpu_set g c) (<[x := set_fpu_state (Some g) (set_g_next l (pcb_defaults n name kern task0))]> h) (u64 (n + 1)) i' (Some x) w r2 _ _ E3).
  run (upd_at (fpu_set g c) h (u64 (n + 1)) i' (Some x) w r3 x (set_fpu_state (Some g) (set_g_next l (pcb_defaults n name kern task0))) (set_kernel_stack base TASK_KERNEL_STACK_SIZE)). destruct Hc3 as [[-> Hr3]|(Hb0&Hb1&Hbe&Hb2&Hb3&Hr3)].
  { destruct (kfree_added r3 _ _ Hr3 Hf1) as (r4&E4&Hr4). destruct (drop_mk (fpu_set g c) h (u64 (n + 1)) i' l w r4 k x (new_pcb n name kern l g 0) G Hl Hnd Hx eq_refl Hr4 Ha1 Ha2 None) as (r5&E5&Hr5). exists None. eexists.
    rewrite Z.eqb_refl. run (env_mk _ (fpu_set g c) (<[x := new_pcb n name kern l g 0]> h) (u64 (n + 1)) i' (Some x) w r3 _ _ E4). split; [exact E5|]. exists (fpu_set g c), (u64 (n + 1)), i', w, r5. split_and!; eauto. }
  rewrite (proj2 (Z.eqb_neq _ _) Hb0). exists (Some x). eexists. split; [reflexivity|]. exists g, base. eexists _, r3. split_and!; done.
Qed.
(** ** The first frame *)

(** The words [sp--; *sp = v] writes for a list of values, and where [sp] ends. *)
Fixpoint push_words (sp : Z) (vs : list Z) (w : gmap Z Z) : gmap Z Z :=
  match vs with [] => w | v :: vs' => push_words (sp - 8) vs' (<[sp - 8 := u64 v]> w) end.
Lemma pushes_mk c h n i l w r vs sp : 8 * Z.of_nat (length vs) <= sp < 2 ^ 64 ->
  pushes sp vs (mk c h n i l w r) = Some (sp - 8 * Z.of_nat (length vs), mk c h n i l (push_words sp vs w) r).
Proof.
  revert sp w. induction vs as [|v vs IH]; intros sp w Hsp; cbn [pushes length push_words].
  - unfold mret. do 2 f_equal. lia.
  - cbn [length] in Hsp. unfold push. unfold mbind_ at 2, mmodify. unfold mbind_ at 1. cbn [mret]. assert (u64 (sp - 8) = sp - 8) as -> by (apply wrap_small; unfold in_w; lia).
    change (set_stack _ _) with (mk c h n i l (<[sp - 8 := u64 v]> w) r). unfold mret. rewrite IH by lia. do 2 f_equal. lia.
Qed.
Lemma push_words_app sp vs us w : push_words sp (vs ++ us) w = push_words (sp - 8 * Z.of_nat (length vs)) us (push_words sp vs w).
Proof. revert sp w. induction vs as [|v vs IH]; intros sp w; cbn [app push_words length]; [f_equal; lia|]. rewrite IH. f_equal. lia. Qed.
Lemma push_words_out sp vs w q : q < sp - 8 * Z.of_nat (length vs) \/ sp <= q -> push_words sp vs w !! q = w !! q.
Proof. revert sp w. induction vs as [|v vs IH]; intros sp w Hq; cbn [push_words length] in *; [done|]. rewrite IH by lia. apply lookup_insert_ne. lia. Qed.
Lemma push_words_in sp vs w j v : vs !! j = Some v -> push_words sp vs w !! (sp - 8 * Z.of_nat (S j)) = Some (u64 v).
Proof.
  revert sp w j. induction vs as [|u vs IH]; intros sp w [|j] Hj; try done; cbn [push_words].
  - injection Hj as ->. rewrite push_words_out by lia. apply lookup_insert_eq.
  - rewrite <-(IH (sp - 8) (<[sp - 8 := u64 u]> w) j Hj). f_equal. lia.
Qed.

(** The values pushed for a first frame, highest address first. *)
Definition frame (a : task) (entry : Z) : list Z :=
  (if t_is_kernel a then [entry]
   else [GDT_USER_DS_SEL; u64 (t_user_stack_base a + t_user_stack_size a); 0x202; GDT_USER_CS_SEL; entry; user_task_iretq_trampoline]) ++ [0; 0; 0; 0; 0; 0].
Definition frame_rsp (a : task) (entry : Z) : Z := stack_top_of a - 8 * Z.of_nat (length (frame a entry)).
Lemma stack_top_range a : 0 <= t_kernel_stack_base a -> 0 <= t_kernel_stack_size a -> t_kernel_stack_base a + t_kernel_stack_size a < 2 ^ 64 ->
  t_kernel_stack_base a + t_kernel_stack_size a - 16 < stack_top_of a <= t_kernel_stack_base a + t_kernel_stack_size a /\ stack_top_of a mod 16 = 0.
Proof.
  intros H1 H2 H3. unfold stack_top_of. assert (u64 (t_kernel_stack_base a + t_kernel_stack_size a) = t_kernel_stack_base a + t_kernel_stack_size a) as -> by (apply wrap_small; unfold in_w; lia).
  set (v := t_kernel_stack_base a + t_kernel_stack_size a) in *. assert (Z.land v (not64 0xF) = v - v mod 16) as -> by (apply (clear_low_bits 64 4); unfold in_w; lia).
  pose proof (Z.mod_pos_bound v 16 ltac:(lia)). split; [lia|]. by rewrite Zminus_mod_idemp_r, Z.sub_diag.
Qed.
Lemma setup_mk c h n i l w r x a entry : h !! x = Some a -> 96 <= stack_top_of a < 2 ^ 64 ->
  setup_initial_stack x entry (mk c h n i l w r) =
    Some (tt, mk c (<[x := set_kernel_rsp (frame_rsp a entry) a]> h) n i l (push_words (stack_top_of a) (frame a entry) w) r).
Proof.
  intros Hx Ht. unfold setup_initial_stack. run (pcb_mk c h n i l w r x a Hx). unfold frame_rsp, frame. destruct (t_is_kernel a).
  - run (pushes_mk c h n i l w r [entry; 0; 0; 0; 0; 0; 0] (stack_top_of a) ltac:(simpl; lia)). by apply upd_mk.
  - set (vs := [GDT_USER_DS_SEL; u64 (t_user_stack_base a + t_user_stack_size a); 0x202; GDT_USER_CS_SEL; entry]). run (pushes_mk c h n i l w r vs (stack_top_of a) ltac:(simpl; lia)).
    run (pushes_mk c h n i l (push_words (stack_top_of a) vs w) r [user_task_iretq_trampoline; 0; 0; 0; 0; 0; 0] (stack_top_of a - 8 * Z.of_nat (length vs)) ltac:(simpl; lia)).
    rewrite (upd_mk c h _ _ _ _ _ x a _ Hx). rewrite <-push_words_app. replace (stack_top_of a - _ - _) with (stack_top_of a - 8 * Z.of_nat 12) by (simpl; lia). reflexivity.
Qed.

(** C23: the first switch to a task starts it.  [setup_initial_stack] leaves a frame inside the task's kernel stack from which
    the switch pops six zeros and returns: for a kernel task to its entry point, with the stack empty and 16-byte aligned; for
    a user task to the trampoline, whose IRETQ enters the entry point in ring 3, interrupts on, on the top of the user stack. *)
Theorem first_frame_enters s x a entry : pcbs s !! x = Some a -> 0 <= t_kernel_stack_base a -> 112 <= t_kernel_stack_size a -> t_kernel_stack_base a + t_kernel_stack_size a < 2 ^ 64 ->
  exists s' rsp, setup_initial_stack x entry s = Some (tt, s') /\ pcbs s' = <[x := set_kernel_rsp rsp a]> (pcbs s) /\ t_kernel_stack_base a <= rsp /\
    (forall q, q < t_kernel_stack_base a \/ t_kernel_stack_base a + t_kernel_stack_size a <= q -> tk_stack s' !! q = tk_stack s !! q) /\
    if t_is_kernel a
    then context_restore (tk_stack s') rsp = ([0; 0; 0; 0; 0; 0], u64 entry, stack_top_of a) /\ stack_top_of a mod 16 = 0
    else context_restore (tk_stack s') rsp = ([0; 0; 0; 0; 0; 0], u64 user_task_iretq_trampoline, rsp + 56) /\
      iretq (tk_stack s') (rsp + 56) = [u64 entry; GDT_USER_CS_SEL; 0x202; u64 (t_user_stack_base a + t_user_stack_size a); GDT_USER_DS_SEL] /\ rsp + 96 = stack_top_of a.
Proof.
  intros Hx H0 H1 H2. destruct (stack_top_range a H0 ltac:(lia) H2) as [Ht Hal]. set (T := stack_top_of a) in *. pose proof (setup_mk (tk_sched s) (pcbs s) (g_next_pid s) (g_init_task s) (g_task_list s) (tk_stack s) (tk_env s) x a entry Hx) as E. fold T in E. rewrite <-mk_eta in E.
  eexists _, (frame_rsp a entry). split; [apply E; lia|]. split; [reflexivity|]. cbn [mk tk_stack]. fold T. unfold frame_rsp. fold T. set (w := tk_stack s). set (vs := frame a entry).
  assert (length vs <= 12)%nat as Hlen by (unfold vs, frame; destruct (t_is_kernel a); simpl; lia). split; [lia|]. split; [intros q Hq; apply push_words_out; lia|].
  assert (forall j v q, vs !! j = Some v -> q = T - 8 * Z.of_nat (S j) -> stack_word (push_words T vs w) q = u64 v) as Hw by (intros j v q Hj ->; unfold stack_word; by rewrite (push_words_in T vs w j v Hj)).
  unfold vs, frame in *. destruct (t_is_kernel a); cbn [app length] in *; unfold context_restore, iretq.
  - split; [|done]. rewrite (Hw 6%nat 0), (Hw 5%nat 0), (Hw 4%nat 0), (Hw 3%nat 0), (Hw 2%nat 0), (Hw 1%nat 0), (Hw 0%nat entry) by (reflexivity || lia). do 2 f_equal. lia.
  - rewrite (Hw 11%nat 0), (Hw 10%nat 0), (Hw 9%nat 0), (Hw 8%nat 0), (Hw 7%nat 0), (Hw 6%nat 0), (Hw 5%nat user_task_iretq_trampoline) by (reflexivity || lia). split; [done|]. split; [|lia].
    rewrite (Hw 4%nat entry), (Hw 3%nat GDT_USER_CS_SEL), (Hw 2%nat 0x202), (Hw 1%nat (u64 (t_user_stack_base a + t_user_stack_size a))), (Hw 0%nat GDT_USER_DS_SEL) by (reflexivity || lia).
    unfold u64 at 4. by rewrite (wrap_wrap 64 _ ltac:(lia)).
Qed.

(** ** Address space and error exits *)

Lemma undo_mk c h n i l w r k x a f base G : glist h l G None -> NoDup G -> h !! x = None -> t_g_next a = l -> t_kernel_stack_base a = base -> t_fpu_state a = Some f ->
  env_rep r (add_slab base (add_heap (Z.of_nat f) (add_slab (Z.of_nat x) k))) -> Z.of_nat f ∉ hl_heap k -> Z.of_nat x ∉ hl_slab k -> Z.of_nat x ∉ hl_space k ->
  base ∉ hl_slab (add_slab (Z.of_nat x) k) -> base ∉ hl_space k ->
  exists r', task_undo x (mk c (<[x := a]> h) n i (Some x) w r) = Some (None, mk c h n i l w r') /\ env_rep r' k.
Proof.
  intros Hl Hnd Hx Eg Eb Ef Hr H1 H2 H3 H4 H5. unfold task_undo. run (pcb_at c h n i (Some x) w r x a). rewrite Eb, Ef. cbn [addr].
  destruct (free_added r _ base Hr H4 H5) as (r1&E1&Hr1). run (env_mk _ c (<[x := a]> h) n i (Some x) w r _ _ E1).
  destruct (kfree_added r1 _ _ Hr1 H1) as (r2&E2&Hr2). run (env_mk _ c (<[x := a]> h) n i (Some x) w r1 _ _ E2). exact (drop_mk c h n i l w r2 k x a G Hl Hnd Hx Eg Hr2 H2 H3 None).
Qed.
Lemma space_mk c h n i l w r k x a f base G : glist h l G None -> NoDup G -> h !! x = None -> t_g_next a = l -> t_kernel_stack_base a = base -> t_fpu_state a = Some f ->
  env_rep r (add_slab base (add_heap (Z.of_nat f) (add_slab (Z.of_nat x) k))) -> Z.of_nat f ∉ hl_heap k -> Z.of_nat x ∉ hl_slab k -> Z.of_nat x ∉ hl_space k ->
  base ∉ hl_slab (add_slab (Z.of_nat x) k) -> base ∉ hl_space k ->
  (exists r', task_new_space x (mk c (<[x := a]> h) n i (Some x) w r) = Some (false, mk c h n i l w r') /\ env_rep r' k) \/
  (exists (p : nat) r', task_new_space x (mk c (<[x := a]> h) n i (Some x) w r) = Some (true, mk c (<[x := set_address_space (Some p) a]> h) n i (Some x) w r') /\
     Z.of_nat p <> base /\ p <> x /\ Z.of_nat p ∉ hl_slab k /\ Z.of_nat p ∉ hl_space k /\
     env_rep r' (add_space (Z.of_nat p) (add_slab (Z.of_nat p) (add_slab base (add_heap (Z.of_nat f) (add_slab (Z.of_nat x) k)))))).
Proof.
  intros Hl Hnd Hx Eg Eb Ef Hr H1 H2 H3 H4 H5. unfold task_new_space. destruct (alloc_cases r _ sizeof_address_space Hr ltac:(vm_compute; intuition discriminate)) as (p&r1&E1&Hc1).
  run (env_mk _ c (<[x := a]> h) n i (Some x) w r _ _ E1). run (upd_at c h n i (Some x) w r1 x a (set_address_space (ptr p))). destruct Hc1 as [[-> Hr1]|(Hp0&Hp&_&Hp1&Hp2&Hr1)].
  { destruct (undo_mk c h n i l w r1 k x (set_address_space (ptr 0) a) f base G) as (r2&E2&Hr2); try done. left. exists r2. split; [|done]. cbn [Z.eqb]. run E2. reflexivity. }
  rewrite (proj2 (Z.eqb_neq _ _) Hp0). set (q := Z.to_nat p). assert (p = Z.of_nat q) as Eq by (unfold q; lia). replace (ptr p) with (Some q) by (unfold ptr; by rewrite (proj2 (Z.eqb_neq p 0))). rewrite Eq in *.
  destruct (law_create r1 _ (Z.of_nat q) Hr1) as (st&r2&E2&Hr2); [set_solver|done|]. run (env_mk _ c (<[x := set_address_space (Some q) a]> h) n i (Some x) w r1 _ _ E2). case_decide as Hst.
  - right. exists q, r2. rewrite bool_decide_eq_true_2 by done. cbn [negb]. split; [reflexivity|]. cbn [add_slab add_heap hl_slab hl_space] in *. split_and!; [set_solver|intros ->; set_solver|set_solver|set_solver|done].
  - rewrite bool_decide_eq_false_2 by done. cbn [negb]. destruct (free_added r2 _ _ Hr2 Hp1 Hp2) as (r3&E3&Hr3). run (env_mk _ c (<[x := set_address_space (Some q) a]> h) n i (Some x) w r2 _ _ E3).
    destruct (undo_mk c h n i l w r3 k x (set_address_space (Some q) a) f base G) as (r4&E4&Hr4); try done. left. exists r4. split; [|done]. run E4. reflexivity.
Qed.
Lemma map_stack_mk c h n i l w r k x a (p : nat) : env_rep r k -> Z.of_nat p ∈ hl_space k -> t_address_space a = Some p ->
  exists r', map_user_stack x (mk c (<[x := a]> h) n i l w r) = Some (tt, mk c (<[x := set_user_stack TASK_USER_STACK_BASE TASK_USER_STACK_SIZE a]> h) n i l w r') /\ env_rep r' k.
Proof.
  intros Hr Hp Ea. unfold map_user_stack. set (b := set_user_stack TASK_USER_STACK_BASE TASK_USER_STACK_SIZE a). run (upd_at c h n i l w r x a (set_user_stack TASK_USER_STACK_BASE TASK_USER_STACK_SIZE)). fold b.
  run (pcb_at c h n i l w r x b). replace (addr (t_address_space b)) with (Z.of_nat p) by (cbn; by rewrite Ea).
  destruct (for_range_inv (fun _ s => exists r', s = mk c (<[x := b]> h) n i l w r' /\ env_rep r' k) 0 (TASK_USER_STACK_SIZE / PAGE_SIZE)
    (fun j => on_env (te_map_demand (Z.of_nat p) (TASK_USER_STACK_BASE + j * PAGE_SIZE) stack_flags)) (mk c (<[x := b]> h) n i l w r)) as (s'&E&r'&->&Hr').
  - done.
  - by exists r.
  - intros j s _ (r0&->&Hr0). destruct (law_map r0 k (Z.of_nat p) (TASK_USER_STACK_BASE + j * PAGE_SIZE) stack_flags Hr0 Hp) as (r1&E1&Hr1). eexists. split; [exact (env_mk _ c _ n i l w r0 _ _ E1)|]. by exists r1.
  - exists r'. by split.
Qed.

(** ** The invariant *)

(** The slab objects of a task: PCB, kernel stack and, for a user task, the address-space structure. *)
Definition blocks (x : nat) (a : task) : list Z :=
  Z.of_nat x :: t_kernel_stack_base a :: (if t_is_kernel a then [] else [addr (t_address_space a)]).
Record owns k (x : nat) (a : task) : Prop := {
  ow_slab : forall z, z ∈ blocks x a -> z ∈ hl_slab k;
  ow_nodup : NoDup (blocks x a);
  ow_plain : Z.of_nat x ∉ hl_space k /\ t_kernel_stack_base a ∉ hl_space k /\ 0 < t_kernel_stack_base a;
  ow_space : t_is_kernel a = false -> exists p : nat, t_address_space a = Some p /\ Z.of_nat p ∈ hl_space k;
  ow_fpu : exists f, t_fpu_state a = Some f /\ Z.of_nat f ∈ hl_heap k
}.
Record mem_ok h k : Prop := {
  mo_owns : forall x a, h !! x = Some a -> owns k x a;
  mo_apart : forall x y a b, x <> y -> h !! x = Some a -> h !! y = Some b -> (forall z, z ∈ blocks x a -> z ∉ blocks y b) /\ t_fpu_state a <> t_fpu_state b
}.
(** The process tree: [C x] are the children of [x] in the order of its list. *)
Record tree h (C : nat -> list nat) : Prop := {
  tr_seg : forall x a, h !! x = Some a -> lseg link_sibling h (t_children a) (C x) None;
  tr_nodup : forall x, NoDup (C x);
  tr_self : forall x, x ∉ C x;
  tr_down : forall x y, y ∈ C x -> is_Some (h !! x) /\ exists b, h !! y = Some b /\ t_parent b = Some x;
  tr_up : forall y b x, h !! y = Some b -> t_parent b = Some x -> y ∈ C x
}.
Record pids_ok h G (n : Z) : Prop := {
  po_range : forall x a, x ∈ G -> h !! x = Some a -> 1 <= t_pid a < n;
  po_inj : forall x y a b, x ∈ G -> y ∈ G -> h !! x = Some a -> h !! y = Some b -> t_pid a = t_pid b -> x = y
}.
Record tinv s G (C : nat -> list nat) k (A : aq) : Prop := {
  ti_env : env_rep (tk_env s) k;
  ti_list : glist (pcbs s) (g_task_list s) G None;
  ti_nodup : NoDup G;
  ti_tree : tree (pcbs s) C;
  ti_mem : mem_ok (pcbs s) k;
  ti_pids : pids_ok (pcbs s) G (g_next_pid s);
  ti_next : 1 <= g_next_pid s < 2 ^ 64;
  ti_init : forall i, g_init_task s = Some i -> is_Some (pcbs s !! i);
  ti_fds : forall x a, pcbs s !! x = Some a -> length (t_fd_table a) = Z.to_nat TASK_MAX_FDS;
  ti_sched : sched_inv (tk_sched s) A
}.

(** Each part of the invariant looks at some fields only. *)
Definition mview (a : task) := (t_kernel_stack_base a, t_address_space a, t_is_kernel a, t_fpu_state a).
Definition tview (a : task) := (t_parent a, t_children a, t_sibling_next a).
Definition nfds (a : task) : nat := length (t_fd_table a).
Lemma view_inv {X} (f : task -> X) h h' x b : (forall y, f <$> h' !! y = f <$> h !! y) -> h' !! x = Some b -> exists a, h !! x = Some a /\ f a = f b.
Proof. intros E Hb. specialize (E x). rewrite Hb in E. destruct (h !! x) as [a|]; [|done]. exists a. split; [done|]. by apply (inj Some) in E. Qed.
Lemma blocks_view x a b : mview a = mview b -> blocks x a = blocks x b.
Proof. unfold mview, blocks. by intros [= -> -> -> _]. Qed.
Lemma mem_ext h h' k : (forall y, mview <$> h' !! y = mview <$> h !! y) -> mem_ok h k -> mem_ok h' k.
Proof.
  intros E [H1 H2]. split.
  - intros x b Hb. destruct (view_inv mview h h' x b E Hb) as (a&Ha&Ev). destruct (H1 x a Ha) as [A1 A2 A3 A4 A5]. rewrite (blocks_view x a b Ev) in A1, A2. unfold mview in Ev. injection Ev as E1 E2 E3 E4.
    rewrite E1 in A3. rewrite E2, E3 in A4. rewrite E4 in A5. by split.
  - intros x y b b' Hne Hb Hb'. destruct (view_inv mview h h' x b E Hb) as (a&Ha&Ev), (view_inv mview h h' y b' E Hb') as (a'&Ha'&Ev'). destruct (H2 x y a a' Hne Ha Ha') as [B1 B2].
    rewrite (blocks_view x a b Ev), (blocks_view y a' b' Ev') in B1. unfold mview in *. injection Ev as _ _ _ E4. injection Ev' as _ _ _ E4'. by rewrite <-E4, <-E4'.
Qed.
Lemma tree_ext h h' C : (forall y, tview <$> h' !! y = tview <$> h !! y) -> tree h C -> tree h' C.
Proof.
  intros E [H1 H2 H2' H3 H4]. assert (forall y, tview <$> h !! y = tview <$> h' !! y) as E' by done. split; [|done|done| |].
  - intros x b Hb. destruct (view_inv tview h h' x b E Hb) as (a&Ha&Ev). unfold tview in Ev. injection Ev as _ E2 _. rewrite <-E2. apply (lseg_frame _ h); [|by apply H1].
    intros y _. specialize (E y). destruct (h !! y), (h' !! y); try done. injection E as _ _ E. simpl. by f_equal.
  - intros x y Hy. destruct (H3 x y Hy) as ([a Ha]&b&Hb&Hp). destruct (view_inv tview h' h x a E' Ha) as (a'&Ha'&_). destruct (view_inv tview h' h y b E' Hb) as (b'&Hb'&Ev). split; [by exists a'|].
    exists b'. split; [done|]. unfold tview in Ev. injection Ev as -> _ _. done.
  - intros y b x Hb Hp. destruct (view_inv tview h h' y b E Hb) as (a&Ha&Ev). apply (H4 y a x Ha). unfold tview in Ev. injection Ev as -> _ _. done.
Qed.
Lemma pids_ext h h' G n : (forall y, t_pid <$> h' !! y = t_pid <$> h !! y) -> pids_ok h G n -> pids_ok h' G n.
Proof.
  intros E [H1 H2]. split.
  - intros x b Hx Hb. destruct (view_inv t_pid h h' x b E Hb) as (a&Ha&<-). by apply (H1 x).
  - intros x y b b' Hx Hy Hb Hb' Ep. destruct (view_inv t_pid h h' x b E Hb) as (a&Ha&Ea), (view_inv t_pid h h' y b' E Hb') as (a'&Ha'&Ea'). apply (H2 x y a a'); congruence.
Qed.

(** A new task without parent and children. *)
Lemma tree_new h C x a : tree h C -> h !! x = None -> t_parent a = None -> t_children a = None -> tree (<[x := a]> h) C.
Proof.
  intros [H1 H2 H2' H3 H4] Hx Ep Ec. assert (C x = []) as Ex by (destruct (C x) as [|y l] eqn:E; [done|]; destruct (H3 x y) as [[? ?] _]; [rewrite E; left|congruence]). split; [|done|done| |].
  - intros y b [[<- <-]|[Hne Hb]]%lookup_insert_Some; [by rewrite Ex, Ec|]. apply lseg_insert_ne; [|by apply H1]. intros Hin. destruct (H3 y x Hin) as (_&?&?&_). congruence.
  - intros y z Hz. destruct (H3 y z Hz) as (Hy&b&Hb&Hp). split; [rewrite lookup_insert; case_decide; eauto|]. exists b. split; [|done]. rewrite lookup_insert_ne; [done|]. intros <-. congruence.
  - intros y b z [[<- <-]|[Hne Hb]]%lookup_insert_Some Hp; [congruence|by apply (H4 y b)].
Qed.
Lemma tree_drop h C x : tree h C -> C x = [] -> (forall y, x ∉ C y) -> tree (delete x h) C.
Proof.
  intros [H1 H2 H2' H3 H4] Ex Hout. split; [|done|done| |].
  - intros y b [Hne Hb]%lookup_delete_Some. apply (lseg_frame _ h); [|by apply H1]. intros z Hz. rewrite lookup_delete_ne; [done|]. intros <-. by apply (Hout y).
  - intros y z Hz. destruct (H3 y z Hz) as (Hy&b&Hb&Hp). assert (y <> x) by (intros ->; rewrite Ex in Hz; by apply elem_of_nil in Hz). assert (z <> x) by (intros ->; by apply (Hout y)).
    rewrite !lookup_delete_ne by done. eauto.
  - intros y b z [Hne Hb]%lookup_delete_Some Hp. by apply (H4 y b).
Qed.

(** The blocks in use with those of one task more, or less. *)
Definition fpu_area (a : task) : Z := addr (t_fpu_state a).
Definition space_set (a : task) : gset Z := if t_is_kernel a then ∅ else {[addr (t_address_space a)]}.
Definition with_task (x : nat) (a : task) k : held := Held (list_to_set (blocks x a) ∪ hl_slab k) ({[fpu_area a]} ∪ hl_heap k) (space_set a ∪ hl_space k).
Definition without_task (x : nat) (a : task) k : held := Held (hl_slab k ∖ list_to_set (blocks x a)) (hl_heap k ∖ {[fpu_area a]}) (hl_space k ∖ space_set a).
Lemma mem_new h k x a : mem_ok h k -> h !! x = None -> (forall z, z ∈ blocks x a -> z ∉ hl_slab k) -> (exists f, t_fpu_state a = Some f /\ Z.of_nat f ∉ hl_heap k) ->
  hl_space k ⊆ hl_slab k -> owns (with_task x a k) x a -> mem_ok (<[x := a]> h) (with_task x a k).
Proof.
  intros [H1 H2] Hx Hb (f&Ef&Hf) Hsp Ho. assert (forall y b, h !! y = Some b -> owns (with_task x a k) y b) as Hold.
  { intros y b Hy. destruct (H1 y b Hy) as [A1 A2 A3 A4 A5]. split; [| |destruct A3 as (P1&P2&P3)| |].
    - intros z Hz. apply elem_of_union_r. by apply A1.
    - done.
    - assert (forall z, z ∈ hl_slab k -> z ∉ hl_space k -> z ∉ hl_space (with_task x a k)) as Hout.
      { intros z Hz Hz' [Hs|Hs]%elem_of_union; [|done]. unfold space_set in Hs. destruct (t_is_kernel a) eqn:Ek; [by apply elem_of_empty in Hs|]. apply elem_of_singleton in Hs as ->. apply (Hb (addr (t_address_space a))); [|done]. unfold blocks. rewrite Ek. set_solver. }
      split_and!; [apply Hout; [apply A1; left|done]|apply Hout; [apply A1; right; left|done]|done].
    - intros Ek. destruct (A4 Ek) as (p&Ep&Hp). exists p. split; [done|]. by apply elem_of_union_r.
    - destruct A5 as (g&Eg&Hg). exists g. split; [done|]. by apply elem_of_union_r. }
  assert (forall y b, h !! y = Some b -> (forall z, z ∈ blocks x a -> z ∉ blocks y b) /\ t_fpu_state a <> t_fpu_state b) as Hap.
  { intros y b Hy. destruct (H1 y b Hy) as [A1 _ _ _ (g&Eg&Hg)]. split; [intros z Hz Hz'; by apply (Hb z Hz), A1|]. rewrite Ef, Eg. by intros [= ->]. }
  split.
  - intros y b [[<- <-]|[Hne Hy]]%lookup_insert_Some; [done|by apply Hold].
  - intros y z b d Hne [[<- <-]|[Hn1 Hy]]%lookup_insert_Some [[<- <-]|[Hn2 Hz]]%lookup_insert_Some; [done|by apply Hap| |by apply (H2 y z)].
    destruct (Hap y b Hy) as [B1 B2]. split; [intros q Hq Hq'; by apply (B1 q)|done].
Qed.
Lemma mem_drop h k x a : mem_ok h k -> h !! x = Some a -> mem_ok (delete x h) (without_task x a k).
Proof.
  intros [H1 H2] Hx. split; [|intros y z b d Hne [_ Hy]%lookup_delete_Some [_ Hz]%lookup_delete_Some; by apply (H2 y z)].
  intros y b [Hne Hy]%lookup_delete_Some. destruct (H1 y b Hy) as [A1 A2 A3 A4 A5]. destruct (H2 y x b a ltac:(done) Hy Hx) as [B1 B2]. destruct A3 as (P1&P2&P3). split; [| done| | |].
  - intros z Hz. apply elem_of_difference. split; [by apply A1|]. rewrite elem_of_list_to_set. by apply B1.
  - split_and!; [by intros [? _]%elem_of_difference|by intros [? _]%elem_of_difference|done].
  - intros Ek. destruct (A4 Ek) as (p&Ep&Hp). exists p. split; [done|]. apply elem_of_difference. split; [done|]. unfold space_set. destruct (t_is_kernel a) eqn:Eka; [apply not_elem_of_empty|].
    intros Hin%elem_of_singleton. apply (B1 (Z.of_nat p)); unfold blocks; rewrite ?Ek, ?Ep, ?Eka; cbn [addr]; set_solver.
  - destruct A5 as (g&Eg&Hg). exists g. split; [done|]. apply elem_of_difference. split; [done|]. destruct (H1 x a Hx) as [_ _ _ _ (f&Ef&_)]. unfold fpu_area. rewrite Ef. cbn [addr]. intros E%elem_of_singleton. apply B2. rewrite Ef, Eg. f_equal. lia.
Qed.

(** ** The scheduler's view of a PCB that comes or goes *)

Lemma queue_ok_heap h h' j (q : mlfd_queue) ls : (forall x, x ∈ ls -> h' !! x = h !! x) -> queue_ok h j q ls -> queue_ok h' j q ls.
Proof.
  intros E [H1 H2 H3 H4 H5]. split; try done; [apply (lseg_frame _ h); [|done]; intros y Hy; by rewrite E|]. intros t Ht. rewrite E by done. by apply H5.
Qed.
Lemma sched_heap c A h' lv : sched_inv c A -> (forall x, x ∈ queued A -> h' !! x = heap (mq c) !! x) -> Z.of_nat (size h') < 2 ^ 32 ->
  t_mlfq_level <$> h' = lv -> (forall t j, lv !! t = Some j -> 0 <= j < 4) -> (forall x, g_current c = Some x \/ g_idle_task c = Some x -> is_Some (h' !! x)) ->
  (forall t a b, h' !! t = Some a -> t_fpu_state a = Some b -> is_Some (fpu_areas c !! b)) ->
  sched_inv (set_mq (with_heap h' (mq c)) c) (AQ (aq_lists A) lv (aq_ticks A)).
Proof.
  intros [([R1 R2 R3 R4 R5]&_&_&Htk) H2 (cu&Hc&_) H4 (id&Hid&_) _] E Hsz Hlv Hrg Hcur Hfpu. split; [|done|exists cu; split; [done|apply Hcur; by left]|done|exists id; split; [done|apply Hcur; by right]|done].
  split_and!; [|done|done|done]. split; try done. intros j Hj. destruct (R2 j Hj) as (q&Hq&Hok). exists q. split; [done|]. apply (queue_ok_heap (heap (mq c))); [|done]. intros x Hx. apply E, elem_of_queued. eauto.
Qed.
Lemma sched_new c A x a : sched_inv c A -> heap (mq c) !! x = None -> t_mlfq_level a = 0 -> Z.of_nat (size (heap (mq c))) + 1 < 2 ^ 32 ->
  (forall b, t_fpu_state a = Some b -> is_Some (fpu_areas c !! b)) ->
  sched_inv (set_mq (with_heap (<[x := a]> (heap (mq c))) (mq c)) c) (AQ (aq_lists A) (<[x := 0]> (aq_level A)) (aq_ticks A)).
Proof.
  intros Hi Hx Hl Hsz Hf. destruct (si_abs _ _ Hi) as (HR&Hlv&Hrg&_). apply sched_heap; [done| | | | | |].
  - intros y Hy. rewrite lookup_insert_ne; [done|]. intros <-. apply elem_of_queued in Hy as (j&Hj&Hin). destruct (mr_queue _ _ HR j Hj) as (q&_&Hok). destruct (qo_level _ _ _ _ Hok x Hin) as (?&?&_). congruence.
  - rewrite map_size_insert_None by done. lia.
  - by rewrite fmap_insert, Hlv, Hl.
  - intros t j [[<- <-]|[_ ?]]%lookup_insert_Some; [lia|by apply (Hrg t)].
  - intros y Hy. rewrite lookup_insert. case_decide; [eauto|]. destruct (si_current _ _ Hi) as (?&?&?), (si_idle _ _ Hi) as (?&?&?). destruct Hy; simplify_eq; done.
  - intros t b f [[<- <-]|[_ Ht]]%lookup_insert_Some; [by apply Hf|by apply (si_fpu _ _ Hi t b)].
Qed.
Lemma sched_drop c A x : sched_inv c A -> x ∉ queued A -> g_current c <> Some x -> g_idle_task c <> Some x ->
  sched_inv (set_mq (with_heap (delete x (heap (mq c))) (mq c)) c) (AQ (aq_lists A) (delete x (aq_level A)) (aq_ticks A)).
Proof.
  intros Hi Hx Hc Hid. destruct (si_abs _ _ Hi) as (HR&Hlv&Hrg&_). apply sched_heap; [done| | | | | |].
  - intros y Hy. rewrite lookup_delete_ne; [done|]. by intros <-.
  - pose proof (mr_size _ _ HR). rewrite map_size_delete. destruct (heap (mq c) !! x); cbn in *; lia.
  - by rewrite fmap_delete, Hlv.
  - intros t j [_ ?]%lookup_delete_Some. by apply (Hrg t).
  - intros y Hy. rewrite lookup_delete_ne by (intros <-; naive_solver). destruct (si_current _ _ Hi) as (?&?&?), (si_idle _ _ Hi) as (?&?&?). destruct Hy; simplify_eq; done.
  - intros t b f [_ Ht]%lookup_delete_Some. by apply (si_fpu _ _ Hi t b).
Qed.
Lemma sched_fpu c A (f : nat) : sched_inv c A -> sched_inv (fpu_set f c) A.
Proof. intros [H1 H2 H3 H4 H5 H6]. split; try done. intros t a b Ht Hb. cbn. rewrite lookup_insert. case_decide; [eauto|by apply (H6 t a)]. Qed.

(** ** task_create *)

(** The PCB [task_create] leaves. *)
Definition ready_pcb (pid : Z) (name : list Z) (kern : bool) (l : option nat) (f : nat) (base : Z) (space : option nat) : task :=
  let a := set_address_space space (new_pcb pid name kern l f base) in
  if kern then a else set_user_heap 0 0 (set_user_stack TASK_USER_STACK_BASE TASK_USER_STACK_SIZE a).
Definition created (pid : Z) (name : list Z) (kern : bool) (l : option nat) (f : nat) (base : Z) (space : option nat) (entry : Z) : task :=
  let a := ready_pcb pid name kern l f base space in set_kernel_rsp (frame_rsp a entry) a.

Lemma held_kernel k x f base : add_slab base (add_heap (Z.of_nat f) (add_slab (Z.of_nat x) k)) =
  Held ({[Z.of_nat x; base]} ∪ hl_slab k) ({[Z.of_nat f]} ∪ hl_heap k) (∅ ∪ hl_space k).
Proof. unfold add_slab, add_heap. cbn [hl_slab hl_heap hl_space]. f_equal; set_solver. Qed.
Lemma held_user k x f base p : add_space p (add_slab p (add_slab base (add_heap (Z.of_nat f) (add_slab (Z.of_nat x) k)))) =
  Held ({[Z.of_nat x; base; p]} ∪ hl_slab k) ({[Z.of_nat f]} ∪ hl_heap k) ({[p]} ∪ hl_space k).
Proof. unfold add_slab, add_heap, add_space. cbn [hl_slab hl_heap hl_space]. f_equal; set_solver. Qed.
Lemma with_task_created k x pid name kern l f base space entry : with_task x (created pid name kern l f base space entry) k =
  if kern then Held ({[Z.of_nat x; base]} ∪ hl_slab k) ({[Z.of_nat f]} ∪ hl_heap k) (∅ ∪ hl_space k)
  else Held ({[Z.of_nat x; base; addr space]} ∪ hl_slab k) ({[Z.of_nat f]} ∪ hl_heap k) ({[addr space]} ∪ hl_space k).
Proof. destruct kern; unfold with_task, blocks, space_set, fpu_area; cbn; f_equal; set_solver. Qed.

(** What is known of the new task besides its PCB. *)
Record fresh h k (x : nat) (a : task) : Prop := {
  fr_none : h !! x = None;
  fr_blocks : forall z, z ∈ blocks x a -> z ∉ hl_slab k;
  fr_fpu : exists f, t_fpu_state a = Some f /\ Z.of_nat f ∉ hl_heap k;
  fr_owns : owns (with_task x a k) x a
}.
Lemma fresh_created h k x f base pid name kern l space entry : h !! x = None -> 0 < base -> Z.of_nat f ∉ hl_heap k ->
  Z.of_nat x ∉ hl_slab k -> Z.of_nat x ∉ hl_space k -> base ∉ hl_slab (add_slab (Z.of_nat x) k) -> base ∉ hl_space k ->
  (kern = true \/ exists p : nat, space = Some p /\ Z.of_nat p <> base /\ p <> x /\ Z.of_nat p ∉ hl_slab k /\ Z.of_nat p ∉ hl_space k) ->
  fresh h k x (created pid name kern l f base space entry).
Proof.
  intros Hx Hb0 Hf Hx1 Hx2 Hb2 Hb3 Hsp. cbn [add_slab hl_slab] in Hb2. assert (base <> Z.of_nat x /\ base ∉ hl_slab k) as [Hbx Hbk] by set_solver.
  assert (forall z, z ∈ blocks x (created pid name kern l f base space entry) <-> z = Z.of_nat x \/ z = base \/ kern = false /\ z = addr space) as Hbl.
  { intros z. destruct kern; unfold blocks; cbn; set_solver. }
  split; [done| | |].
  - intros z [-> | [-> | [Hk ->]]]%Hbl; [done..|]. destruct Hsp as [?|(p&->&_&_&?&_)]; [congruence|done].
  - exists f. by destruct kern.
  - rewrite with_task_created. split.
    + intros z Hz%Hbl. destruct kern; cbn [hl_slab]; set_solver.
    + destruct Hsp as [->|(p&->&Hpb&Hpx&_)]; [|destruct kern]; unfold blocks; cbn; rewrite ?NoDup_cons, ?elem_of_cons, ?elem_of_nil; split_and!; try (by apply NoDup_nil_2); intros Hin; destruct_or?; simplify_eq; naive_solver lia.
    + replace (t_kernel_stack_base (created pid name kern l f base space entry)) with base by (by destruct kern). destruct Hsp as [->|(p&->&Hpb&Hpx&_)]; [|destruct kern]; cbn [hl_space addr]; split_and!; try done; set_solver by lia.
    + intros Ek. destruct Hsp as [->|(p&->&_)]; [done|]. destruct kern; [done|]. exists p. split; [done|]. cbn [hl_space addr]. set_solver.
    + exists f. split; [by destruct kern|]. destruct kern; cbn [hl_heap]; set_solver.
Qed.

Lemma task_create_run c h n i l w r k G name entry kern : glist h l G None -> NoDup G -> env_rep r k -> (forall x, is_Some (h !! x) -> Z.of_nat x ∈ hl_slab k) ->
  exists o s', task_create name entry kern (mk c h n i l w r) = Some (o, s') /\
    match o with
    | None => undone c h n i l k s'
    | Some x => exists f base space w' r', let a := created n name kern l f base space entry in
        s' = mk (fpu_set f c) (<[x := a]> h) (u64 (n + 1)) (if n =? 1 then Some x else i) (Some x) (push_words (stack_top_of a) (frame a entry) w') r' /\
        fresh h k x a /\ env_rep r' (with_task x a k) /\ base + TASK_KERNEL_STACK_SIZE < 2 ^ 64
    end.
Proof.
  intros Hl Hnd Hr Hdom. destruct (task_new_run c h n i l w r k G name kern Hl Hnd Hr Hdom) as (o&s'&E&Ho). unfold task_create. run E. destruct o as [x|]; [|exists None, s'; by split].
  destruct Ho as (f&base&w'&r'&->&Hx&Hb0&Hb1&Hf&Hx1&Hx2&Hb2&Hb3&Hr'). set (c' := fpu_set f c). set (n' := u64 (n + 1)). set (i' := if n =? 1 then Some x else i). set (a := new_pcb n name kern l f base). 
  assert (forall b : task, t_kernel_stack_base b = base -> t_kernel_stack_size b = TASK_KERNEL_STACK_SIZE -> 96 <= stack_top_of b < 2 ^ 64) as Htop.
  { intros b E1 E2. pose proof (stack_top_range b) as T. rewrite E1, E2 in T. destruct T as [? _]; unfold TASK_KERNEL_STACK_SIZE in *; lia. }
  destruct kern.
  - destruct (law_kernel_space r' _ Hr') as (sp&r2&E2&Hr2). unfold mbind_ at 1. run (env_mk _ c' (<[x := a]> h) n' i' (Some x) w' r' _ _ E2). run (upd_at c' h n' i' (Some x) w' r2 x a (set_address_space (ptr sp))). cbn [mret negb].
    set (b := set_address_space (ptr sp) a). run (setup_mk c' (<[x := b]> h) n' i' (Some x) w' r2 x b entry (lookup_insert_eq _ _ _) (Htop b eq_refl eq_refl)). rewrite insert_insert_eq.
    exists (Some x). eexists. split; [reflexivity|]. exists f, base, (ptr sp), w', r2. split; [reflexivity|]. split; [apply fresh_created; auto|]. rewrite with_task_created, <-held_kernel. done.
  - destruct (space_mk c' h n' i' l w' r' k x a f base G Hl Hnd Hx eq_refl eq_refl eq_refl Hr' Hf Hx1 Hx2 Hb2 Hb3) as [(r2&E2&Hr2)|(p&r2&E2&Hpb&Hpx&Hp1&Hp2&Hr2)]; unfold mbind_ at 1; run E2; cbn [negb].
    { exists None. eexists. split; [reflexivity|]. exists c', n', i', w', r2. split_and!; eauto. unfold i'. intros ?. by rewrite (proj2 (Z.eqb_neq n 1)). }
    destruct (map_stack_mk c' h n' i' (Some x) w' r2 _ x (set_address_space (Some p) a) p Hr2) as (r3&E3&Hr3); [cbn [add_space hl_space]; set_solver|done|]. run E3.
    set (b0 := set_user_stack TASK_USER_STACK_BASE TASK_USER_STACK_SIZE (set_address_space (Some p) a)). run (upd_at c' h n' i' (Some x) w' r3 x b0 (set_user_heap 0 0)). cbn [mret negb]. set (b := set_user_heap 0 0 b0).
    run (setup_mk c' (<[x := b]> h) n' i' (Some x) w' r3 x b entry (lookup_insert_eq _ _ _) (Htop b eq_refl eq_refl)). rewrite insert_insert_eq.
    exists (Some x). eexists. split; [reflexivity|]. exists f, base, (Some p), w', r3. split; [reflexivity|]. split; [apply fresh_created; eauto 10|]. rewrite with_task_created. cbn [addr]. rewrite <-held_user. done.
Qed.

(** What the invariant gives the runs above. *)
Lemma tinv_pcb s G C k A x : tinv s G C k A -> is_Some (pcbs s !! x) -> Z.of_nat x ∈ hl_slab k.
Proof. intros Hi [a Ha]. apply (ow_slab _ _ _ (mo_owns _ _ (ti_mem _ _ _ _ _ Hi) x a Ha)). left. Qed.
Lemma sched_mk_id c : set_mq (with_heap (heap (mq c)) (mq c)) c = c.
Proof. by destruct c as [[] ? ? ? ? ? ? ? ? ? ?]. Qed.
Lemma tinv_undone s G C k A s' : tinv s G C k A -> g_next_pid s <> 1 -> g_next_pid s + 1 < 2 ^ 64 ->
  undone (tk_sched s) (pcbs s) (g_next_pid s) (g_init_task s) (g_task_list s) k s' -> tinv s' G C k A.
Proof.
  intros [H1 H2 H3 H4 H5 H6 H7 H8 H9 H10] Hn Hn' (c'&n'&i'&w'&r'&->&Hr&En&Ei&Ec). assert (n' = g_next_pid s \/ n' = g_next_pid s + 1) as En'.
  { destruct En as [->| ->]; [by left|right]. apply wrap_small. unfold in_w. lia. }
  split; try done; cbn [mk g_next_pid g_init_task pcbs tk_sched].
  - split; [|apply H6]. intros x a Hx Ha. pose proof (po_range _ _ _ H6 x a Hx Ha). lia.
  - lia.
  - intros j. rewrite (Ei Hn). apply H8.
  - assert (sched_inv c' A) as Hc by (destruct Ec as [->|[f ->]]; [done|by apply sched_fpu]). assert (pcbs s = heap (mq c')) as -> by (destruct Ec as [->|[f ->]]; done). by rewrite sched_mk_id.
Qed.
(** A new task at the head of the list. *)
Lemma tinv_new s G C k A x a w' r' (f : nat) : tinv s G C k A -> fresh (pcbs s) k x a -> env_rep r' (with_task x a k) -> g_next_pid s + 1 < 2 ^ 64 ->
  Z.of_nat (size (pcbs s)) + 1 < 2 ^ 32 -> t_g_next a = g_task_list s -> t_parent a = None -> t_children a = None -> t_pid a = g_next_pid s ->
  t_mlfq_level a = 0 -> t_fpu_state a = Some f -> length (t_fd_table a) = Z.to_nat TASK_MAX_FDS ->
  tinv (mk (fpu_set f (tk_sched s)) (<[x := a]> (pcbs s)) (u64 (g_next_pid s + 1)) (if g_next_pid s =? 1 then Some x else g_init_task s) (Some x) w' r')
    (x :: G) C (with_task x a k) (AQ (aq_lists A) (<[x := 0]> (aq_level A)) (aq_ticks A)).
Proof.
  intros [H1 H2 H3 H4 H5 H6 H7 H8 H9 H10] [F1 F2 F3 F4] Hr Hn Hsz Eg Ep Ec Epid El Ef Efd. assert (u64 (g_next_pid s + 1) = g_next_pid s + 1) as -> by (apply wrap_small; unfold in_w; lia).
  assert (x ∉ G) as HxG by (intros Hin; destruct (lseg_in _ _ _ _ _ _ H2 Hin); congruence).
  assert (forall y b, y ∈ x :: G -> <[x := a]> (pcbs s) !! y = Some b -> y = x /\ b = a \/ y <> x /\ y ∈ G /\ pcbs s !! y = Some b) as Hcase.
  { intros y b Hy [[<- <-]|[Hne Hb]]%lookup_insert_Some; [by left|right]. apply elem_of_cons in Hy as [->|?]; [done|]. split_and!; auto. }
  split; cbn [mk tk_env g_task_list g_next_pid g_init_task pcbs tk_sched].
  - done.
  - cbn [lseg]. split; [done|]. exists a. split; [apply lookup_insert_eq|]. cbn [lget link_g_next]. rewrite Eg. by apply lseg_insert_ne.
  - by apply NoDup_cons.
  - by apply tree_new.
  - apply mem_new; try done. by apply (law_space (tk_env s)).
  - split.
    + intros y b Hy Hb. destruct (Hcase y b Hy Hb) as [[-> ->]|(_&Hy'&Hb')]; [lia|]. pose proof (po_range _ _ _ H6 y b Hy' Hb'). lia.
    + intros y z b d Hy Hz Hb Hd Epp. destruct (Hcase y b Hy Hb) as [[-> ->]|(_&Hy'&Hb')], (Hcase z d Hz Hd) as [[-> ->]|(_&Hz'&Hd')]; [done| | |by apply (po_inj _ _ _ H6 y z b d)].
      * pose proof (po_range _ _ _ H6 z d Hz' Hd'). lia.
      * pose proof (po_range _ _ _ H6 y b Hy' Hb'). lia.
  - lia.
  - intros j Hj. change (is_Some (<[x := a]> (pcbs s) !! j)). rewrite lookup_insert. case_decide; [eauto|]. destruct (g_next_pid s =? 1); [congruence|by apply H8].
  - intros y b Hb. change (<[x := a]> (pcbs s) !! y = Some b) in Hb. apply lookup_insert_Some in Hb as [[<- <-]|[_ Hb]]; [done|by apply (H9 y)].
  - apply (sched_new (fpu_set f (tk_sched s)) A x a); [by apply sched_fpu|done|done|done|]. intros b [= <-]%(eq_trans (eq_sym Ef)). cbn. rewrite lookup_insert_eq. eauto.
Qed.

Lemma task_create_ok s G C k A name entry kern : tinv s G C k A -> g_next_pid s + 1 < 2 ^ 64 -> Z.of_nat (size (pcbs s)) + 1 < 2 ^ 32 ->
  exists o s', task_create name entry kern s = Some (o, s') /\
    match o with
    | None => pcbs s' = pcbs s /\ g_task_list s' = g_task_list s /\ env_rep (tk_env s') k /\ (g_next_pid s <> 1 -> tinv s' G C k A)
    | Some x => exists f base space A', let a := created (g_next_pid s) name kern (g_task_list s) f base space entry in
        pcbs s !! x = None /\ base + TASK_KERNEL_STACK_SIZE < 2 ^ 64 /\ pcbs s' = <[x := a]> (pcbs s) /\ g_next_pid s' = g_next_pid s + 1 /\ tinv s' (x :: G) C (with_task x a k) A' /\
        queued A' = queued A /\ g_current_task (tk_sched s') = g_current_task (tk_sched s)
    end.
Proof.
  intros Hi Hn Hsz. destruct (task_create_run (tk_sched s) (pcbs s) (g_next_pid s) (g_init_task s) (g_task_list s) (tk_stack s) (tk_env s) k G name entry kern) as (o&s'&E&Ho); [apply Hi|apply Hi|apply Hi|intros x; by apply (tinv_pcb s G C k A)|].
  rewrite <-mk_eta in E. exists o, s'. split; [done|]. destruct o as [x|].
  - destruct Ho as (f&base&space&w'&r'&->&Hf&Hr&Hbound). exists f, base, space, (AQ (aq_lists A) (<[x:=0]> (aq_level A)) (aq_ticks A)). split; [apply Hf|]. split; [done|]. split; [done|]. split; [apply wrap_small; unfold in_w; pose proof (ti_next _ _ _ _ _ Hi); lia|].
    split; [|done]. apply tinv_new; try done; by destruct kern.
  - pose proof Ho as (c'&n'&i'&w'&r'&->&Hr&_). split_and!; try done. intros Hne. by apply (tinv_undone s).
Qed.
(** C21: [task_create] always returns.  When some allocation or the address space fails it returns NULL and has given
    back every block, and the PCBs and the global list are what they were; otherwise the task is new, at the head of the
    list, with the next PID and exactly its own blocks more in use, and nothing else changed.  Either way the kernel's
    tasks stay sound, unless it is PID 1 that fails. *)
Theorem task_create_exact s G C k A name entry kern : tinv s G C k A -> g_next_pid s + 1 < 2 ^ 64 -> Z.of_nat (size (pcbs s)) + 1 < 2 ^ 32 ->
  exists o s', task_create name entry kern s = Some (o, s') /\
    match o with
    | None => pcbs s' = pcbs s /\ g_task_list s' = g_task_list s /\ env_rep (tk_env s') k /\ (g_next_pid s <> 1 -> tinv s' G C k A)
    | Some x => exists f base space A', let a := created (g_next_pid s) name kern (g_task_list s) f base space entry in
        pcbs s !! x = None /\ base + TASK_KERNEL_STACK_SIZE < 2 ^ 64 /\ pcbs s' = <[x := a]> (pcbs s) /\ g_next_pid s' = g_next_pid s + 1 /\ tinv s' (x :: G) C (with_task x a k) A' /\
        queued A' = queued A /\ g_current_task (tk_sched s') = g_current_task (tk_sched s)
    end.
Proof. apply task_create_ok. Qed.

(** ** task_create_elf *)

Lemma with_task_view x a b k : mview a = mview b -> with_task x a k = with_task x b k.
Proof. intros E. unfold with_task, space_set, fpu_area. rewrite (blocks_view x a b E). unfold mview in E. by injection E as _ -> -> ->. Qed.
Lemma fresh_view h k x a b : mview a = mview b -> fresh h k x a -> fresh h k x b.
Proof.
  intros E [H1 H2 H3 [A1 A2 A3 A4 A5]]. rewrite (blocks_view x a b E) in H2, A1, A2. rewrite (with_task_view x a b k E) in A1, A3, A4, A5. unfold mview in E. injection E as E1 E2 E3 E4.
  rewrite E1 in A3. rewrite E2, E3 in A4. rewrite E4 in A5, H3. by split; [..|split].
Qed.
Definition created_elf (pid : Z) (name : list Z) (l : option nat) (f : nat) (base : Z) (space : option nat) (entry top : Z) : task :=
  let a := set_user_heap (page_up top) (page_up top) (set_user_stack TASK_USER_STACK_BASE TASK_USER_STACK_SIZE (set_address_space space (new_pcb pid name false l f base))) in
  set_kernel_rsp (frame_rsp a entry) a.
Lemma task_create_elf_run c h n i l w r k G name data size : glist h l G None -> NoDup G -> env_rep r k -> (forall x, is_Some (h !! x) -> Z.of_nat x ∈ hl_slab k) ->
  exists o s', task_create_elf name data size (mk c h n i l w r) = Some (o, s') /\
    match o with
    | None => undone c h n i l k s'
    | Some x => exists f base space w' r' entry top, let a := created_elf n name l f base space entry top in
        s' = mk (fpu_set f c) (<[x := a]> h) (u64 (n + 1)) (if n =? 1 then Some x else i) (Some x) (push_words (stack_top_of a) (frame a entry) w') r' /\
        fresh h k x a /\ env_rep r' (with_task x a k)
    end.
Proof.
  intros Hl Hnd Hr Hdom. unfold task_create_elf. destruct ((data =? 0) || (size <? sizeof_elf64_header)).
  { exists None. eexists. split; [reflexivity|]. exists c, n, i, w, r. split_and!; auto. }
  destruct (task_new_run c h n i l w r k G name false Hl Hnd Hr Hdom) as (o&s'&E&Ho). run E. destruct o as [x|]; [|exists None, s'; by split].
  destruct Ho as (f&base&w'&r'&->&Hx&Hb0&Hb1&Hf&Hx1&Hx2&Hb2&Hb3&Hr'). set (c' := fpu_set f c). set (n' := u64 (n + 1)). set (i' := if n =? 1 then Some x else i). set (a := new_pcb n name false l f base).
  assert (n <> 1 -> i' = i) as Hi' by (unfold i'; intros ?; by rewrite (proj2 (Z.eqb_neq n 1))). assert (forall r0, env_rep r0 k -> undone c h n i l k (mk c' h n' i' l w' r0)) as Hun.
  { intros r0 Hr0. exists c', n', i', w', r0. split_and!; eauto. }
  destruct (space_mk c' h n' i' l w' r' k x a f base G Hl Hnd Hx eq_refl eq_refl eq_refl Hr' Hf Hx1 Hx2 Hb2 Hb3) as [(r2&E2&Hr2)|(p&r2&E2&Hpb&Hpx&Hp1&Hp2&Hr2)]; run E2; cbn [negb].
  { exists None. eexists. split; [reflexivity|by apply Hun]. }
  set (b := set_address_space (Some p) a). run (pcb_at c' h n' i' (Some x) w' r2 x b). change (addr (t_address_space b)) with (Z.of_nat p). assert (Z.of_nat p ∈ hl_space (add_space (Z.of_nat p) (add_slab (Z.of_nat p) (add_slab base (add_heap (Z.of_nat f) (add_slab (Z.of_nat x) k)))))) as Hin by (cbn [add_space hl_space]; set_solver).
  destruct (law_elf r2 _ data size (Z.of_nat p) Hr2 Hin) as (res&r3&E3&Hr3). run (env_mk _ c' (<[x := b]> h) n' i' (Some x) w' r2 _ _ E3). destruct res as [[entry top]|].
  - destruct (map_stack_mk c' h n' i' (Some x) w' r3 _ x b p Hr3 Hin eq_refl) as (r4&E4&Hr4). run E4. set (b0 := set_user_stack TASK_USER_STACK_BASE TASK_USER_STACK_SIZE b).
    run (upd_at c' h n' i' (Some x) w' r4 x b0 (set_user_heap (page_up top) (page_up top))). set (b1 := set_user_heap (page_up top) (page_up top) b0).
    assert (96 <= stack_top_of b1 < 2 ^ 64) as Htop. { pose proof (stack_top_range b1) as T. change (t_kernel_stack_base b1) with base in T. change (t_kernel_stack_size b1) with TASK_KERNEL_STACK_SIZE in T. destruct T as [? _]; unfold TASK_KERNEL_STACK_SIZE in *; lia. }
    run (setup_mk c' (<[x := b1]> h) n' i' (Some x) w' r4 x b1 entry (lookup_insert_eq _ _ _) Htop). rewrite insert_insert_eq. exists (Some x). eexists. split; [reflexivity|]. exists f, base, (Some p), w', r4, entry, top. split; [reflexivity|]. split.
    + apply (fresh_view h k x (created n name false l f base (Some p) entry)); [done|]. apply fresh_created; eauto 10.
    + rewrite (with_task_view x _ (created n name false l f base (Some p) entry)) by done. rewrite with_task_created. cbn [addr]. rewrite <-held_user. done.
  - destruct (destroy_added r3 _ _ Hr3) as (r4&E4&Hr4); [done|]. run (env_mk _ c' (<[x := b]> h) n' i' (Some x) w' r3 _ _ E4).
    destruct (free_added r4 _ (Z.of_nat p) Hr4) as (r5&E5&Hr5); [cbn [add_slab add_heap hl_slab]; set_solver|done|]. run (env_mk _ c' (<[x := b]> h) n' i' (Some x) w' r4 _ _ E5).
    destruct (undo_mk c' h n' i' l w' r5 k x b f base G) as (r6&E6&Hr6); try done. exists None. eexists. split; [exact E6|by apply Hun].
Qed.

(** [task_create_elf] always returns.  An invalid image, a failed allocation or a failed load gives NULL, with every
    block given back; otherwise the new task has the loaded image's entry point on its first frame and its heap starts
    above the image. *)
Theorem task_create_elf_exact s G C k A name data size : tinv s G C k A -> g_next_pid s + 1 < 2 ^ 64 -> Z.of_nat (base.size (pcbs s)) + 1 < 2 ^ 32 ->
  exists o s', task_create_elf name data size s = Some (o, s') /\
    match o with
    | None => pcbs s' = pcbs s /\ g_task_list s' = g_task_list s /\ env_rep (tk_env s') k /\ (g_next_pid s <> 1 -> tinv s' G C k A)
    | Some x => exists f base space entry top A', let a := created_elf (g_next_pid s) name (g_task_list s) f base space entry top in
        pcbs s !! x = None /\ pcbs s' = <[x := a]> (pcbs s) /\ g_next_pid s' = g_next_pid s + 1 /\ tinv s' (x :: G) C (with_task x a k) A'
    end.
Proof.
  intros Hi Hn Hsz. destruct (task_create_elf_run (tk_sched s) (pcbs s) (g_next_pid s) (g_init_task s) (g_task_list s) (tk_stack s) (tk_env s) k G name data size) as (o&s'&E&Ho); [apply Hi|apply Hi|apply Hi|intros x; by apply (tinv_pcb s G C k A)|].
  rewrite <-mk_eta in E. exists o, s'. split; [done|]. destruct o as [x|].
  - destruct Ho as (f&base&space&w'&r'&entry&top&->&Hf&Hr). exists f, base, space, entry, top. eexists. split; [apply Hf|]. split; [done|]. split; [apply wrap_small; unfold in_w; pose proof (ti_next _ _ _ _ _ Hi); lia|].
    by apply tinv_new.
  - pose proof Ho as (c'&n'&i'&w'&r'&->&Hr&_). split_and!; try done. intros Hne. by apply (tinv_undone s).
Qed.

(** ** task_destroy *)

Lemma close_mk c h n i l w r k x a : h !! x = Some a -> length (t_fd_table a) = Z.to_nat TASK_MAX_FDS -> env_rep r k ->
  exists r', task_close_all_fds x (mk c h n i l w r) = Some (tt, mk c (<[x := set_fd_table (replicate (Z.to_nat TASK_MAX_FDS) file0) a]> h) n i l w r') /\ env_rep r' k.
Proof.
  intros Hx Hlen Hr. unfold task_close_all_fds. destruct (for_range_inv (fun j s => exists fds r', s = mk c (<[x := set_fd_table fds a]> h) n i l w r' /\ length fds = Z.to_nat TASK_MAX_FDS /\
      (forall q, q < j -> forall f, zget fds q = Some f -> f = file0) /\ env_rep r' k) 0 TASK_MAX_FDS (fun j =>
    t <~ pcb x ;; f <~ mlift (zget (t_fd_table t) j) ;; match f_ops f with Some ops => on_env (te_close ops j (f_data f)) | None => return tt end ;;;
    t <~ pcb x ;; fds <~ mlift (zset (t_fd_table t) j (File None None 0 0)) ;; pcb_upd x (set_fd_table fds)) (mk c h n i l w r)) as (s'&E&fds&r'&->&Hl&Hz&Hr').
  - done.
  - exists (t_fd_table a), r. split_and!; [|done| |done]; [f_equal; symmetry; apply insert_id; rewrite Hx; by destruct a|]. intros q Hq f [? _]%zget_Some. lia.
  - intros j s Hj (fds&r0&->&Hl&Hz&Hr0). set (b := set_fd_table fds a). rewrite (mbind_Some _ _ _ _ _ (pcb_at c h n i l w r0 x b)). destruct (zget_is_Some fds j) as [f Hf]; [unfold TASK_MAX_FDS in *; lia|]. change (t_fd_table b) with fds. rewrite Hf. unfold mlift at 1. unfold mbind_ at 1.
    assert (exists r1, match f_ops f with Some ops => on_env (te_close ops j (f_data f)) | None => return tt end (mk c (<[x := b]> h) n i l w r0) = Some (tt, mk c (<[x := b]> h) n i l w r1) /\ env_rep r1 k) as (r1&E1&Hr1).
    { destruct (f_ops f) as [ops|]; [|by exists r0]. destruct (law_close r0 k ops j (f_data f) Hr0) as (r1&E1&Hr1). exists r1. split; [exact (env_mk _ c _ n i l w r0 _ _ E1)|done]. }
    run E1. run (pcb_at c h n i l w r1 x b). change (t_fd_table b) with fds. rewrite zset_Some by (unfold TASK_MAX_FDS in *; lia). unfold mlift. unfold mbind_. eexists. split; [exact (upd_at c h n i l w r1 x b _)|].
    eexists (<[Z.to_nat j := file0]> fds), r1. split_and!; [done|by rewrite length_insert| |done]. intros q Hq g. rewrite zget_insert by (unfold TASK_MAX_FDS in *; lia). case_decide; [by intros [= <-]|]. apply Hz. lia.
  - exists r'. split; [|done]. rewrite E. replace fds with (replicate (Z.to_nat TASK_MAX_FDS) file0); [done|]. apply replicate_as_Forall. split; [done|]. apply Forall_lookup. intros q f Hq. symmetry.
    pose proof (lookup_lt_Some _ _ _ Hq). apply (Hz (Z.of_nat q)); [unfold TASK_MAX_FDS in *; lia|]. by rewrite zget_nat.
Qed.

(** The frees at the end of [task_destroy]. *)
Lemma release_run c h n i l w r k x a : env_rep r k -> owns k x a -> exists r',
  (match t_address_space a with
   | Some p => if t_is_kernel a then return tt else on_env (te_destroy_space (Z.of_nat p)) ;;; on_env (te_slab_free (Z.of_nat p))
   | None => return tt
   end ;;;
   match t_fpu_state a with Some f => on_env (te_kfree (Z.of_nat f)) | None => return tt end ;;;
   mwhen (negb (t_kernel_stack_base a =? 0)) (on_env (te_slab_free (t_kernel_stack_base a))))
  (mk c h n i l w r) = Some (tt, mk c h n i l w r') /\ exists r2, te_slab_free (Z.of_nat x) r' = Some (tt, r2) /\ env_rep r2 (without_task x a k).
Proof.
  intros Hr [A1 A2 (P1&P2&P3) A4 (f&Ef&Hf)]. unfold blocks in A1, A2. assert (exists r1, (match t_address_space a with
   | Some p => if t_is_kernel a then return tt else on_env (te_destroy_space (Z.of_nat p)) ;;; on_env (te_slab_free (Z.of_nat p)) | None => return tt end) (mk c h n i l w r) = Some (tt, mk c h n i l w r1) /\
   env_rep r1 (Held (hl_slab k ∖ (if t_is_kernel a then ∅ else {[addr (t_address_space a)]})) (hl_heap k) (hl_space k ∖ space_set a))) as (r1&E1&Hr1).
  { unfold space_set. destruct (t_is_kernel a) eqn:Ek.
    - exists r. split; [by destruct (t_address_space a)|]. rewrite !difference_empty_L. by destruct k.
    - destruct (A4 eq_refl) as (p&Ep&Hp). rewrite Ep in *. cbn [addr] in *. destruct (law_destroy r k _ Hr Hp) as (r1&E1&Hr1). destruct (law_slab_free r1 _ (Z.of_nat p) Hr1) as (r2&E2&Hr2); [cbn [hl_slab]; apply A1; set_solver|cbn [hl_space]; set_solver|].
      exists r2. split; [|done]. run (env_mk _ c h n i l w r _ _ E1). exact (env_mk _ c h n i l w r1 _ _ E2). }
  rewrite (mbind_Some _ _ _ _ _ E1). rewrite Ef. destruct (law_kfree r1 _ (Z.of_nat f) Hr1 ltac:(done)) as (r2&E2&Hr2). rewrite (mbind_Some _ _ _ _ _ (env_mk _ c h n i l w r1 _ _ E2)). rewrite (proj2 (Z.eqb_neq _ 0)) by lia. cbn [negb mwhen hl_slab hl_heap hl_space] in *.
  apply NoDup_cons in A2 as [B1 [B2 _]%NoDup_cons]. destruct (law_slab_free r2 _ (t_kernel_stack_base a) Hr2) as (r3&E3&Hr3); cbn [hl_slab hl_heap hl_space] in *.
  { apply elem_of_difference. split; [apply A1; right; left|]. destruct (t_is_kernel a); set_solver. }
  { by intros [? _]%elem_of_difference. }
  exists r3. split; [exact (env_mk _ c h n i l w r2 _ _ E3)|]. destruct (law_slab_free r3 _ (Z.of_nat x) Hr3) as (r4&E4&Hr4); cbn [hl_slab hl_heap hl_space] in *.
  { rewrite !elem_of_difference, elem_of_singleton. split; [split; [apply A1; left|]; destruct (t_is_kernel a); set_solver|set_solver]. }
  { by intros [? _]%elem_of_difference. }
  exists r4. split; [done|]. unfold without_task, fpu_area, blocks. rewrite Ef. cbn [addr]. replace (hl_slab k ∖ list_to_set _) with (hl_slab k ∖ (if t_is_kernel a then ∅ else {[addr (t_address_space a)]}) ∖ {[t_kernel_stack_base a]} ∖ {[Z.of_nat x]}); [done|].
  destruct (t_is_kernel a); set_solver.
Qed.

Lemma destroy_mk c h n i l w r k x a G : glist h l G None -> NoDup G -> x ∈ G -> h !! x = Some a -> length (t_fd_table a) = Z.to_nat TASK_MAX_FDS -> env_rep r k -> owns k x a ->
  exists h' l' r', task_destroy (Some x) (mk c h n i l w r) = Some (tt, mk c (delete x h') n i l' w r') /\ glist (delete x h') l' (rm x G) None /\
    same_but_g (delete x h) (delete x h') /\ env_rep r' (without_task x a k).
Proof.
  intros Hl Hnd Hx Ha Hfd Hr Ho. unfold task_destroy. destruct (close_mk c h n i l w r k x a Ha Hfd Hr) as (r1&E1&Hr1). run E1. set (a1 := set_fd_table _ a). set (h1 := <[x := a1]> h).
  assert (glist h1 l G None) as Hl1. { apply (lseg_frame _ h); [|done]. intros y _. unfold h1. rewrite lookup_insert. case_decide; subst; [by rewrite Ha|done]. }
  destruct (remove_mk c h1 n i l w r1 G x Hl1 Hnd Hx) as (h2&l2&E2&Hl2&Hs2). run E2. destruct (same_but_g_lookup h1 h2 x a1 Hs2 (lookup_insert_eq _ _ _)) as [v Hv]. run (pcb_mk c h2 n i l2 w r1 x _ Hv).
  set (a2 := set_g_next v a1) in *. destruct (release_run c h2 n i l2 w r1 k x a Hr1 Ho) as (r2&E3&r3&Ef&Hr3). unfold mbind_ in E3 at 1. change (t_address_space a) with (t_address_space a2) in E3. change (t_is_kernel a) with (t_is_kernel a2) in E3. change (t_fpu_state a) with (t_fpu_state a2) in E3.
  change (t_kernel_stack_base a) with (t_kernel_stack_base a2) in E3. set (h3 := <[x := set_state TASK_STATE_DEAD a2]> h2). exists h3, l2, r3. split; [|split; [|split; [|done]]].
  - unfold mbind_ at 1. destruct (match t_address_space a2 with _ => _ end (mk c h2 n i l2 w r1)) as [[[] s1]|]; [|done]. unfold mbind_ in E3 at 1. unfold mbind_ at 1. destruct (match t_fpu_state a2 with _ => _ end s1) as [[[] s2]|]; [|done].
    unfold mbind_ at 1. rewrite E3. run (upd_mk c h2 n i l2 w r2 x a2 (set_state TASK_STATE_DEAD) Hv). exact (free_mk c h3 n i l2 w r2 r3 x Ef).
  - unfold h3. rewrite delete_insert_eq. apply (lseg_frame _ h2); [|done]. intros y [_ Hy]%elem_of_rm. by rewrite lookup_delete_ne.
  - unfold h3. rewrite delete_insert_eq. intros y. rewrite !lookup_delete. case_decide as Hyx; [done|]. rewrite (Hs2 y). unfold h1. by rewrite lookup_insert_ne.
Qed.

(** The invariant but for the tree. *)
Record tcore s G k (A : aq) : Prop := {
  tc_env : env_rep (tk_env s) k;
  tc_list : glist (pcbs s) (g_task_list s) G None;
  tc_nodup : NoDup G;
  tc_mem : mem_ok (pcbs s) k;
  tc_pids : pids_ok (pcbs s) G (g_next_pid s);
  tc_next : 1 <= g_next_pid s < 2 ^ 64;
  tc_init : forall i, g_init_task s = Some i -> is_Some (pcbs s !! i);
  tc_fds : forall x a, pcbs s !! x = Some a -> length (t_fd_table a) = Z.to_nat TASK_MAX_FDS;
  tc_sched : sched_inv (tk_sched s) A
}.
Lemma tinv_core s G C k A : tinv s G C k A <-> tcore s G k A /\ tree (pcbs s) C.
Proof. split; [intros []; by split|intros [[] ?]; by split]. Qed.
Lemma sched_view c A h' : sched_inv c A -> (forall y, t_next <$> h' !! y = t_next <$> heap (mq c) !! y) ->
  (forall y, t_mlfq_level <$> h' !! y = t_mlfq_level <$> heap (mq c) !! y) -> (forall y, t_fpu_state <$> h' !! y = t_fpu_state <$> heap (mq c) !! y) ->
  sched_inv (set_mq (with_heap h' (mq c)) c) A.
Proof.
  intros [(HR&Hlv&Hrg&Htk) S2 (cu&Hc&Hcs) S4 (id&Hid&Hids) S6] En El Ef. assert (forall y, is_Some (heap (mq c) !! y) <-> is_Some (h' !! y)) as Hs.
  { intros y. specialize (En y). destruct (h' !! y), (heap (mq c) !! y); try done; split; by intros [? ?]. }
  split; cbn [set_mq mq with_heap heap g_current g_idle_task g_sched_initialized g_current_task fpu_areas]; [|done|exists cu; split; [done|by apply Hs]|done|exists id; split; [done|by apply Hs]|].
  - split_and!; [|cbn [heap]; rewrite <-Hlv; apply map_eq; intros y; rewrite !lookup_fmap; apply El|done|done]. destruct HR as [R1 R2 R3 R4 R5]. split; try done; cbn [heap mlfq_queues].
    + intros j Hj. destruct (R2 j Hj) as (q&Hq&[Q1 Q2 Q3 Q4 Q5]). exists q. split; [done|]. split; try done; [apply (lseg_frame _ (heap (mq c))); [|done]; intros y _; apply En|].
      intros t Ht. destruct (Q5 t Ht) as (a&Ha&Hl). destruct (proj1 (Hs t) ltac:(eauto)) as [b Hb]. exists b. split; [done|]. destruct (view_inv t_mlfq_level _ _ t b El Hb) as (a'&Ha'&<-). congruence.
    + replace (size h') with (size (heap (mq c))); [done|]. rewrite <-!size_dom. f_equal. apply set_eq. intros y. rewrite !elem_of_dom. apply Hs.
  - intros t b f Hb Hf. destruct (view_inv t_fpu_state _ _ t b Ef Hb) as (a&Ha&Ev). apply (S6 t a f Ha). congruence.
Qed.
(** A change of the PCBs that the other parts of the invariant do not see. *)
Lemma tcore_pcbs s G k A h' : tcore s G k A -> (forall y, mview <$> h' !! y = mview <$> pcbs s !! y) -> (forall y, t_pid <$> h' !! y = t_pid <$> pcbs s !! y) ->
  (forall y, t_g_next <$> h' !! y = t_g_next <$> pcbs s !! y) -> (forall y, nfds <$> h' !! y = nfds <$> pcbs s !! y) ->
  (forall y, t_next <$> h' !! y = t_next <$> pcbs s !! y) -> (forall y, t_mlfq_level <$> h' !! y = t_mlfq_level <$> pcbs s !! y) ->
  tcore (set_pcbs h' s) G k A.
Proof.
  intros [H1 H2 H3 H4 H5 H6 H7 H8 H9] Em Ep Eg Ef En El. assert (forall y, is_Some (pcbs s !! y) -> is_Some (h' !! y)) as Hs.
  { intros y [a Ha]. specialize (Ep y). rewrite Ha in Ep. destruct (h' !! y); [eauto|done]. }
  assert (forall y, is_Some (h' !! y) -> is_Some (pcbs s !! y)) as Hs'. { intros y [a Ha]. specialize (Ep y). rewrite Ha in Ep. destruct (pcbs s !! y); [eauto|done]. }
  split; try done.
  - apply (lseg_frame _ (pcbs s)); [|done]. intros y _. apply Eg.
  - by apply (mem_ext (pcbs s)).
  - by apply (pids_ext (pcbs s)).
  - intros j Hj. apply Hs. by apply H7.
  - intros x b Hb. destruct (view_inv nfds _ _ x b Ef Hb) as (a&Ha&E). change (nfds b = Z.to_nat TASK_MAX_FDS). rewrite <-E. by apply (H8 x).
  - apply sched_view; [done|exact En|exact El|]. intros y. specialize (Em y). change (heap (mq (tk_sched s))) with (pcbs s). destruct (h' !! y), (pcbs s !! y); try done. cbn in Em |- *. by injection Em as _ _ _ ->.
Qed.

Lemma destroy_run s G C k A x a : tcore s G k A -> tree (delete x (pcbs s)) C -> x ∈ G -> pcbs s !! x = Some a ->
  g_init_task s <> Some x -> g_current (tk_sched s) <> Some x -> g_idle_task (tk_sched s) <> Some x -> x ∉ queued A ->
  exists s' A', task_destroy (Some x) s = Some (tt, s') /\ tinv s' (rm x G) C (without_task x a k) A' /\ queued A' = queued A /\
    pcbs s' !! x = None /\ same_but_g (delete x (pcbs s)) (pcbs s') /\ g_next_pid s' = g_next_pid s /\ g_init_task s' = g_init_task s /\
    g_current_task (tk_sched s') = g_current_task (tk_sched s).
Proof.
  intros [H1 H2 H3 H4 H5 H6 H7 H8 H9] Htr Hx Ha Hni Hnc Hnd Hq.
  destruct (destroy_mk (tk_sched s) (pcbs s) (g_next_pid s) (g_init_task s) (g_task_list s) (tk_stack s) (tk_env s) k x a G H2 H3 Hx Ha (H8 x a Ha) H1 (mo_owns _ _ H4 x a Ha)) as (h'&l'&r'&E&Hl'&Hsame&Hr').
  rewrite <-mk_eta in E. set (hd := delete x h') in *. assert (forall X (f : task -> X), (forall a, f (set_g_next None a) = f a) -> forall y, f <$> hd !! y = f <$> delete x (pcbs s) !! y) as Hv by (intros X f Hf y; by apply same_but_g_view).
  eexists _, (AQ (aq_lists A) (delete x (aq_level A)) (aq_ticks A)). split; [exact E|]. split; [|split_and!; [done|apply lookup_delete_eq|done..]].
  apply tinv_core. split; [|by apply (tree_ext (delete x (pcbs s))), Htr; apply Hv].
  assert (forall y b, y ∈ rm x G -> hd !! y = Some b -> exists d, y ∈ G /\ pcbs s !! y = Some d /\ t_pid d = t_pid b) as Hpid.
  { intros y b [Hy Hne]%elem_of_rm Hb. destruct (view_inv t_pid _ _ y b (Hv _ t_pid ltac:(done)) Hb) as (d&Hd&Ed). exists d. split; [done|]. split; [|done]. by rewrite lookup_delete_ne in Hd. }
  split; try done; cbn [mk tk_sched tk_env g_next_pid g_init_task g_task_list].
  - by apply NoDup_filter.
  - apply (mem_ext (delete x (pcbs s))); [by apply Hv|by apply mem_drop].
  - split.
    + intros y b Hy Hb. destruct (Hpid y b Hy Hb) as (d&Hy'&Hd&<-). by apply (po_range _ _ _ H5 y).
    + intros y z b d Hy Hz Hb Hd Ep. destruct (Hpid y b Hy Hb) as (b'&Hy'&Hb'&Eb), (Hpid z d Hz Hd) as (d'&Hz'&Hd'&Ed). apply (po_inj _ _ _ H5 y z b' d'); congruence.
  - intros j Hj. assert (j <> x) as Hjx by congruence. destruct (H7 j Hj) as [b Hb]. pose proof (Hv _ t_pid ltac:(done) j) as E'. rewrite lookup_delete_ne, Hb in E' by done. change (is_Some (hd !! j)). destruct (hd !! j); [eauto|done].
  - intros y b Hb. destruct (view_inv t_fd_table _ _ y b (Hv _ t_fd_table ltac:(done)) Hb) as (d&Hd&<-). apply lookup_delete_Some in Hd as [_ Hd]. by apply (H8 y).
  - apply (sched_view (set_mq (with_heap (delete x (pcbs s)) (mq (tk_sched s))) (tk_sched s)) _ hd (sched_drop _ A x H9 Hq Hnc Hnd)); by apply Hv.
Qed.
Lemma without_with h k x a : fresh h k x a -> hl_space k ⊆ hl_slab k -> without_task x a (with_task x a k) = k.
Proof.
  intros [_ F2 (f&Ef&Hf) _] Hsp. assert (forall z, z ∈ space_set a -> z ∈ blocks x a) as Hin by (unfold space_set, blocks; destruct (t_is_kernel a); set_solver).
  unfold without_task, with_task, fpu_area. rewrite Ef. cbn [addr hl_slab hl_heap hl_space]. destruct k as [K1 K2 K3]. cbn [hl_slab hl_heap hl_space] in *. f_equal; [set_solver..|].
  apply set_eq. intros z. rewrite elem_of_difference, elem_of_union. split; [tauto|]. intros Hz. split; [by right|]. intros Hz'. by apply (F2 z (Hin z Hz')), Hsp.
Qed.

(** Only PCBs are queued. *)
Lemma queued_pcb s G C k A x : tinv s G C k A -> x ∈ queued A -> is_Some (pcbs s !! x).
Proof.
  intros Hi (j&Hj&Hin)%elem_of_queued. destruct (mr_queue _ _ (proj1 (si_abs _ _ (ti_sched _ _ _ _ _ Hi))) j Hj) as (q&_&Hok). destruct (qo_level _ _ _ _ Hok x Hin) as (a&Ha&_). exists a. exact Ha.
Qed.

(** C22: destroying a task of the kernel that is neither the current nor the idle task nor init, in no queue, without children and without a
    parent, gives its PCB, stack, FPU area and (for a user task) address space back, each once, takes
    it out of the global list, leaves every other PCB as it was but for the list pointer, and keeps the kernel's tasks sound. *)
Theorem task_destroy_exact s G C k A x a : tinv s G C k A -> x ∈ G -> pcbs s !! x = Some a -> C x = [] -> t_parent a = None ->
  g_init_task s <> Some x -> g_current (tk_sched s) <> Some x -> g_idle_task (tk_sched s) <> Some x -> x ∉ queued A ->
  exists s' A', task_destroy (Some x) s = Some (tt, s') /\ tinv s' (rm x G) C (without_task x a k) A' /\ queued A' = queued A /\
    pcbs s' !! x = None /\ same_but_g (delete x (pcbs s)) (pcbs s').
Proof.
  intros Hi Hx Ha HC Hp Hni Hnc Hnd Hq. apply tinv_core in Hi as [Hc Ht]. destruct (destroy_run s G C k A x a Hc) as (s'&A'&E&H1&H2&H3&H4&_); [|done..|].
  - apply tree_drop; [done|done|]. intros y Hy. destruct (tr_down _ _ Ht y x Hy) as (_&b&Hb&Eb). congruence.
  - exists s', A'. by split_and!.
Qed.

(** [task_find_by_pid] always returns, changes nothing, and finds exactly the task of the global list with that PID;
    there is at most one. *)
Theorem task_find_by_pid_exact s G C k A pid : tinv s G C k A -> exists o, task_find_by_pid pid s = Some (o, s) /\
  forall x, o = Some x <-> x ∈ G /\ t_pid <$> pcbs s !! x = Some pid.
Proof.
  intros Hi. pose proof (ti_list _ _ _ _ _ Hi) as Hl. pose proof (pcbs_length (pcbs s) G (ti_nodup _ _ _ _ _ Hi) (fun y Hy => lseg_in _ _ _ _ _ y Hl Hy)) as Hlen.
  unfold task_find_by_pid, mbind_, mget. destruct (walk_find_total link_g_next (walk_steps s) (fun _ t => t_pid t =? pid) (pcbs s) (g_task_list s) G Hl Hlen) as [[-> Hno]|(x&a&->&Hx&Ha&Hp)]; cbn [mlift]; eexists; (split; [reflexivity|]).
  - intros y. split; [done|]. intros [Hy Ep]. destruct (pcbs s !! y) as [b|] eqn:Eb; [|done]. injection Ep as Ep. pose proof (Hno y b Hy Eb) as Hf. apply Z.eqb_neq in Hf. done.
  - apply Z.eqb_eq in Hp. intros y. split; [intros [= <-]; by rewrite Ha, <-Hp|]. intros [Hy Ep]. destruct (pcbs s !! y) as [b|] eqn:Eb; [|done]. injection Ep as Ep.
    f_equal. apply (po_inj _ _ _ (ti_pids _ _ _ _ _ Hi) x y a b); congruence.
Qed.

(** ** Boot *)

Definition idle_pcb (f : nat) (base : Z) (space : option nat) : task :=
  let a := set_fpu_state (Some f) (set_address_space space (set_kernel_stack base 4096
    (set_remaining_ticks 1 (set_time_slice 1 (set_state TASK_STATE_READY (set_is_kernel true (set_name idle_name task0))))))) in
  set_kernel_rsp (frame_rsp a idle_task_entry) a.
Lemma idle_run c h n i l w r k : env_rep r k -> (forall x, is_Some (h !! x) -> Z.of_nat x ∈ hl_slab k) ->
  exists o s', task_create_idle (mk c h n i l w r) = Some (o, s') /\
    match o with
    | None => env_rep (tk_env s') k
    | Some x => exists f base space w' r', let a := idle_pcb f base space in s' = mk (fpu_set f c) (<[x := a]> h) n i l w' r' /\ fresh h k x a /\ env_rep r' (with_task x a k)
    end.
Proof.
  intros Hr Hdom. unfold task_create_idle, pcb_alloc. unfold mbind_ at 1. destruct (alloc_cases r k sizeof_task Hr ltac:(vm_compute; intuition discriminate)) as (a&r1&E1&Hc1).
  run (env_mk _ c h n i l w r _ _ E1). destruct Hc1 as [[-> Hr1]|(Ha&Ha0&_&Ha1&Ha2&Hr1)]; [exists None; eexists; by split|].
  rewrite (proj2 (Z.eqb_neq _ _) Ha). set (x := Z.to_nat a). assert (Z.of_nat x = a) as Ex by (unfold x; lia). rewrite <-Ex in *. assert (h !! x = None) as Hx by (apply eq_None_not_Some; intros Hs; by apply Ha1, Hdom).
  unfold mbind_ at 1, mmodify. cbn beta iota. change (Z.to_nat a) with x. change (set_pcbs _ _) with (mk c (<[x := task0]> h) n i l w r1). cbn [mret]. run (upd_at c h n i l w r1 x task0 (fun t => set_remaining_ticks 1 (set_time_slice 1 (set_state TASK_STATE_READY (set_is_kernel true (set_name idle_name t)))))).
  set (a1 := set_remaining_ticks 1 _). destruct (alloc_cases r1 _ 4096 Hr1 ltac:(lia)) as (base&r2&E2&Hc2). run (env_mk _ c (<[x := a1]> h) n i l w r1 _ _ E2). run (upd_at c h n i l w r2 x a1 (set_kernel_stack base 4096)). destruct Hc2 as [[-> Hr2]|(Hb0&Hb1&Hbe&Hb2&Hb3&Hr2)].
  { destruct (free_added r2 k _ Hr2 Ha1 Ha2) as (r3&E3&Hr3). rewrite Z.eqb_refl. run (free_mk c (<[x := set_kernel_stack 0 4096 a1]> h) n i l w r2 r3 x E3). exists None. eexists. by split. }
  rewrite (proj2 (Z.eqb_neq _ _) Hb0). set (a2 := set_kernel_stack base 4096 a1). unfold stack_zero, mbind_ at 1, mmodify. change (set_stack _ _) with (mk c (<[x := a2]> h) n i l (filter (fun w0 => ~ (base <= w0.1 < base + 4096)) w) r2). set (w' := filter _ w).
  destruct (law_kernel_space r2 _ Hr2) as (sp&r3&E3&Hr3). run (env_mk _ c (<[x := a2]> h) n i l w' r2 _ _ E3). run (upd_at c h n i l w' r3 x a2 (set_address_space (ptr sp))). set (a3 := set_address_space (ptr sp) a2).
  destruct (law_kmalloc r3 _ 512 Hr3 ltac:(lia)) as (f&r4&E4&Hc4). run (env_mk _ c (<[x := a3]> h) n i l w' r3 _ _ E4). run (upd_at c h n i l w' r4 x a3 (set_fpu_state (ptr f))). destruct Hc4 as [[-> Hr4]|(Hf0&Hf1&Hr4)].
  { rewrite Z.eqb_refl. destruct (free_added r4 _ base Hr4 Hb2 Hb3) as (r5&E5&Hr5). run (env_mk _ c (<[x := set_fpu_state (ptr 0) a3]> h) n i l w' r4 _ _ E5). destruct (free_added r5 k _ Hr5 Ha1 Ha2) as (r6&E6&Hr6).
    run (free_mk c (<[x := set_fpu_state (ptr 0) a3]> h) n i l w' r5 r6 x E6). exists None. eexists. by split. }
  rewrite (proj2 (Z.eqb_neq f 0)) by lia. set (g := Z.to_nat f). assert (f = Z.of_nat g) as Ef by (unfold g; lia). replace (ptr f) with (Some g) by (unfold ptr; by rewrite (proj2 (Z.eqb_neq f 0)) by lia). rewrite Ef in *. run (fpu_mk c (<[x := set_fpu_state (Some g) a3]> h) n i l w' r4 g).
  set (a4 := set_fpu_state (Some g) a3). assert (96 <= stack_top_of a4 < 2 ^ 64) as Htop. { pose proof (stack_top_range a4) as T. change (t_kernel_stack_base a4) with base in T. change (t_kernel_stack_size a4) with 4096 in T. destruct T as [? _]; lia. }
  run (setup_mk (fpu_set g c) (<[x := a4]> h) n i l w' r4 x a4 idle_task_entry (lookup_insert_eq _ _ _) Htop). rewrite insert_insert_eq. exists (Some x). eexists. split; [reflexivity|]. exists g, base, (ptr sp). eexists _, r4. split; [reflexivity|]. split.
  - apply (fresh_view h k x (created 0 [] true l g base (ptr sp) 0)); [done|]. apply fresh_created; auto.
  - rewrite (with_task_view x _ (created 0 [] true l g base (ptr sp) 0)) by done. rewrite with_task_created, <-held_kernel. unfold add_slab, add_heap in *. cbn [hl_slab hl_heap hl_space] in *. done.
Qed.
Lemma froz_view {X} (f : task -> X) h h' y : (forall a, f (frozen a) = f a) -> froz h h' -> f <$> h' !! y = f <$> h !! y.
Proof. intros Hf E. specialize (E y). destruct (h !! y), (h' !! y); try done. cbn in *. apply (inj Some) in E. f_equal. by rewrite <-Hf, E, Hf. Qed.

(** The idle task [x] is the only task, has PID 0, is current and running, and is alone in the queue of the last level. *)
Definition booted s (x f : nat) (base : Z) (space : option nat) (b : task) (A : aq) : Prop :=
  g_current (tk_sched s) = Some x /\ g_current_task (tk_sched s) = Some x /\ g_idle_task (tk_sched s) = Some x /\ g_next_pid s = 1 /\ g_init_task s = None /\
  dom (pcbs s) = {[x]} /\ pcbs s !! x = Some b /\ frozen b = frozen (idle_pcb f base space) /\ t_pid b = 0 /\ t_is_kernel b = true /\
  t_state b = TASK_STATE_RUNNING /\ t_mlfq_level b = 3 /\ aq_lists A 3 = [x] /\ (forall i, i <> 3 -> aq_lists A i = []).
Lemma tasks_boot_ok s k : pcbs s = ∅ -> g_task_list s = None -> g_init_task s = None -> env_rep (tk_env s) k ->
  exists b s', tasks_boot s = Some (b, s') /\
    if b : bool then exists x f base space A b, booted s' x f base space b A /\ tinv s' [] (fun _ => []) (with_task x (idle_pcb f base space) k) A
    else env_rep (tk_env s') k.
Proof.
  intros Hp Hl Hin Hr. unfold tasks_boot, task_init, mbind_ at 1, mmodify. set (c := Sched (mq (tk_sched s)) (g_current (tk_sched s)) (g_idle_task (tk_sched s)) (g_ready_count (tk_sched s)) (g_sched_initialized (tk_sched s)) None
    (tss_rsp0 (tk_sched s)) (cpu_kernel_rsp (tk_sched s)) (active_space (tk_sched s)) (fpu (tk_sched s)) (fpu_areas (tk_sched s))).
  replace (set_next_pid 1 (set_sched c s)) with (mk c ∅ 1 None None (tk_stack s) (tk_env s)) by (unfold c; clear -Hp Hl Hin; destruct s as [[[] ? ? ? ? ? ? ? ? ? ?] ? ? ? ? ?]; cbn in Hp, Hl, Hin; by subst).
  destruct (idle_run c ∅ 1 None None (tk_stack s) (tk_env s) k Hr) as (o&s1&E1&Ho); [intros x [? Hx]; by rewrite lookup_empty in Hx|]. run E1. destruct o as [x|]; [|exists false, s1; by split].
  destruct Ho as (f&base&space&w'&r'&->&Hf&Hr'). set (a := idle_pcb f base space) in *. set (c1 := set_mq (with_heap (<[x := a]> ∅) (mq (fpu_set f c))) (fpu_set f c)).
  assert (heap (mq c1) = {[x := a]}) as Eh by apply insert_empty. destruct (init_ok x c1 (aq_init (mq c1))) as (c2&E2&Hi2&Hc2&Hid&Hst&_&Hfz).
  { rewrite Eh, lookup_singleton_eq. eauto. }
  { apply init_abs; [by rewrite Eh, map_size_singleton|]. unfold levels_ok. rewrite Eh. by apply map_Forall_singleton. }
  { done. }
  { intros t b d Ht Hd. rewrite Eh in Ht. apply lookup_singleton_Some in Ht as [<- <-]. injection Hd as <-. cbn. rewrite lookup_insert_eq. eauto. }
  assert (on_sched (scheduler_init (Some x)) (mk (fpu_set f c) (<[x := a]> ∅) 1 None None w' r') = Some (tt, Tasks c2 1 None None w' r')) as E3 by (unfold on_sched; change (tk_sched _) with c1; by rewrite E2).
  run E3. exists true. eexists. split; [reflexivity|]. rewrite Eh in Hfz.
  assert (exists b, heap (mq c2) !! x = Some b) as [b Hb]. { destruct (heap (mq c2) !! x) as [b|] eqn:Eb; [by exists b|]. specialize (Hfz x). rewrite lookup_singleton_eq, Eb in Hfz. done. }
  assert (frozen b = frozen a) as Efr. { specialize (Hfz x). rewrite lookup_singleton_eq, Hb in Hfz. by apply (inj Some) in Hfz. }
  exists x, f, base, space, (spec_op (OpEnqueue x 3) (aq_init (mq c1))), b. fold a. split.
  { unfold booted. cbn [tk_sched g_next_pid g_init_task]. split_and!; try done.
    - by rewrite (si_same _ _ Hi2).
    - change (dom (heap (mq c2)) = {[x]}). rewrite <-(dom_singleton_L (D := gset nat) x a). apply set_eq. intros y. rewrite !elem_of_dom. specialize (Hfz y). destruct (heap (mq c2) !! y), (({[x := a]} : gmap nat task) !! y); try done; naive_solver.
    - by apply (f_equal t_pid) in Efr.
    - by apply (f_equal t_is_kernel) in Efr.
    - unfold state_of in Hst. rewrite Hb in Hst. by injection Hst.
    - destruct (si_abs _ _ Hi2) as (_&Hlv&_). apply (f_equal (fun m : gmap nat Z => m !! x)) in Hlv. rewrite lookup_fmap, Hb in Hlv. cbn in Hlv. rewrite lookup_insert_eq in Hlv. by injection Hlv.
    - intros i Hi. cbn. unfold upd. by case_decide. }
  assert (forall X (g : task -> X), (forall a, g (frozen a) = g a) -> forall y, g <$> heap (mq c2) !! y = g <$> ({[x := a]} : gmap nat task) !! y) as Hv by (intros X g Hg y; by apply froz_view).
  clear b Hb Efr. split; cbn [tk_env tk_sched g_task_list g_next_pid g_init_task]; try done.
  - apply NoDup_nil_2.
  - apply (tree_ext {[x := a]}); [by apply Hv|]. rewrite <-(insert_empty x a). apply tree_new; try done. split; [intros y b Hy; by rewrite lookup_empty in Hy|intros _; apply NoDup_nil_2|intros y; apply not_elem_of_nil|intros y z Hz; by apply elem_of_nil in Hz|intros y b z Hy; by rewrite lookup_empty in Hy].
  - apply (mem_ext {[x := a]}); [by apply Hv|]. rewrite <-(insert_empty x a). apply mem_new; try apply Hf; [|by apply (law_space (tk_env s))]. split; [intros y b Hy|intros y z b d _ Hy]; by rewrite lookup_empty in Hy.
  - split; [intros y b Hy|intros y z b d Hy]; by apply elem_of_nil in Hy.
  - intros y b Hb. destruct (view_inv t_fd_table _ _ y b (Hv _ t_fd_table ltac:(done)) Hb) as (d&Hd&<-). by apply lookup_singleton_Some in Hd as [_ <-].
Qed.
(** C20: booting from an empty kernel either creates the idle task and leaves the tasks sound, or finds no memory for it, with every block given
    back.  The idle task is then the only PCB, with PID 0 and outside the list of processes, it is the current, the running and the idle task,
    and it alone is queued, at the last level; the next task gets PID 1. *)
Theorem tasks_boot_sound s k : pcbs s = ∅ -> g_task_list s = None -> g_init_task s = None -> env_rep (tk_env s) k ->
  exists b s', tasks_boot s = Some (b, s') /\
    if b : bool then exists x f base space A b, booted s' x f base space b A /\ tinv s' [] (fun _ => []) (with_task x (idle_pcb f base space) k) A
    else env_rep (tk_env s') k.
Proof. apply tasks_boot_ok. Qed.
End Life.
