(* ===== verification/TaskTree.v ===== *)
(** * Exit and wait: the process tree (the theorems on TaskLife.v) *)

From stdpp Require Import base numbers gmap list options.
From S2P Require Import Prelude LinkedList Task Mlfq Scheduler Pmm PageTable Vmm UserMem TaskLife TaskLifeSpec.
#[local] Set Default Proof Using "Type*".

Section Tree.
Context {R : Type} {TE : TaskEnv R} {TL : TaskEnvLaws R} {MC : Machine}.
Implicit Types (s : tasks R) (h : gmap nat task) (c : sched) (k : held) (G : list nat) (C : nat -> list nat).

(** The children move from [x] to the task [init]; without one they lose their parent. *)
Definition moved (x : nat) (init : option nat) (C : nat -> list nat) : nat -> list nat :=
  fun y => if decide (y = x) then [] else if decide (init = Some y) then reverse (C x) ++ C y else C y.

(** A PCB without its place in the tree. *)
Definition notree (a : task) : task := set_parent None (set_children None (set_sibling_next None a)).
Definition same_but_tree (h h' : gmap nat task) : Prop := forall y, notree <$> h' !! y = notree <$> h !! y.
Lemma same_but_tree_view {X} (f : task -> X) h h' y : (forall a, f (notree a) = f a) -> same_but_tree h h' -> f <$> h' !! y = f <$> h !! y.
Proof. intros Hf E. specialize (E y). destruct (h !! y), (h' !! y); try done. cbn in *. apply (inj Some) in E. f_equal. by rewrite <-Hf, E, Hf. Qed.
Lemma same_but_tree_insert h0 h x a b : same_but_tree h0 h -> h !! x = Some a -> notree b = notree a -> same_but_tree h0 (<[x := b]> h).
Proof. intros E Ha Hn y. rewrite <-(E y), lookup_insert. case_decide; subst; [by rewrite Ha; cbn; rewrite Hn|done]. Qed.

(** The loop of [task_reparent_children] after the children [l1]. *)
Record moving (h h' : gmap nat task) (init : option nat) (l1 Ci : list nat) : Prop := {
  mv_same : same_but_tree h h';
  mv_parent : forall y b, h' !! y = Some b -> exists a, h !! y = Some a /\ t_parent b = if decide (y ∈ l1) then init else t_parent a;
  mv_children : forall y, init <> Some y -> t_children <$> h' !! y = t_children <$> h !! y;
  mv_sibling : forall y, y ∉ l1 -> t_sibling_next <$> h' !! y = t_sibling_next <$> h !! y;
  mv_init : forall i, init = Some i -> exists b, h' !! i = Some b /\ lseg link_sibling h' (t_children b) (reverse l1 ++ Ci) None
}.
Lemma moving_step h h' i l1 Ci x b : moving h h' (Some i) l1 Ci -> h' !! x = Some b -> x <> i -> x ∉ l1 -> x ∉ Ci -> forall bi, h' !! i = Some bi ->
  moving h (<[i := set_children (Some x) bi]> (<[x := set_sibling_next (t_children bi) (set_parent (Some i) b)]> h')) (Some i) (l1 ++ [x]) Ci.
Proof.
  intros [M1 M2 M3 M4 M5] Hx Hxi Hx1 HxC bi Hi. destruct (M5 i eq_refl) as (bi'&Hi'&Hl). rewrite Hi in Hi'. injection Hi' as <-. split.
  - apply (same_but_tree_insert _ _ _ bi); [|by rewrite lookup_insert_ne|done]. by apply (same_but_tree_insert _ _ _ b).
  - intros y d Hd. rewrite lookup_insert in Hd. case_decide as E1; [|rewrite lookup_insert in Hd; case_decide as E2].
    + injection Hd as <-. subst y. destruct (M2 i bi Hi) as (a&Ha&Hp). exists a. split; [done|]. cbn. rewrite Hp. repeat case_decide; set_solver.
    + injection Hd as <-. subst y. destruct (M2 x b Hx) as (a&Ha&_). exists a. split; [done|]. cbn. rewrite decide_True by set_solver. done.
    + destruct (M2 y d Hd) as (a&Ha&Hp). exists a. split; [done|]. rewrite Hp. repeat case_decide; set_solver.
  - intros y Hy. rewrite lookup_insert_ne by congruence. rewrite lookup_insert. case_decide as E; [|by apply M3]. subst. rewrite <-(M3 y Hy), Hx. done.
  - intros y Hy. assert (y <> x /\ y ∉ l1) as [? ?] by set_solver. rewrite <-(M4 y) by done. rewrite lookup_insert. case_decide; subst; [by rewrite Hi|by rewrite lookup_insert_ne].
  - intros j [= <-]. eexists. split; [apply lookup_insert_eq|]. cbn [t_children set_children]. rewrite reverse_app. cbn [reverse rev_append app lseg]. split; [done|].
    assert (lseg link_sibling h' (t_children bi) (reverse l1 ++ Ci) None) as Hl' by done. eexists. split; [rewrite lookup_insert_ne by done; apply lookup_insert_eq|]. cbn [lget link_sibling t_sibling_next set_sibling_next].
    apply (lseg_frame _ h'); [|done]. intros y Hy. assert (y <> x) by set_solver. rewrite lookup_insert. case_decide; subst; [by rewrite Hi|]. by rewrite lookup_insert_ne.
Qed.
Lemma moving_orphan h h' l1 x b : moving h h' None l1 [] -> h' !! x = Some b -> moving h (<[x := set_sibling_next None (set_parent None b)]> h') None (l1 ++ [x]) [].
Proof.
  intros [M1 M2 M3 M4 M5] Hx. split; [by apply (same_but_tree_insert _ _ _ b)| | | |done].
  - intros y d Hd. rewrite lookup_insert in Hd. case_decide as E2.
    + injection Hd as <-. subst y. destruct (M2 x b Hx) as (a&Ha&_). exists a. split; [done|]. cbn. rewrite decide_True by set_solver. done.
    + destruct (M2 y d Hd) as (a&Ha&Hp). exists a. split; [done|]. rewrite Hp. repeat case_decide; set_solver.
  - intros y Hy. rewrite lookup_insert. case_decide as E; [|by apply M3]. subst. rewrite <-(M3 y Hy), Hx. done.
  - intros y Hy. assert (y <> x /\ y ∉ l1) as [? ?] by set_solver. rewrite <-(M4 y) by done. by rewrite lookup_insert_ne.
Qed.
Lemma reparent_loop_run c n i l w (r : R) h init Ci lc : NoDup lc -> (forall y, y ∈ lc -> is_Some (h !! y) /\ init <> Some y /\ y ∉ Ci) -> forall l2 l1 m p h', lc = l1 ++ l2 ->
  moving h h' init l1 Ci -> lseg link_sibling h p l2 None -> (init = None -> Ci = []) -> (length l2 <= m)%nat ->
  exists h2, reparent_loop m init p (mk c h' n i l w r) = Some (tt, mk c h2 n i l w r) /\ moving h h2 init lc Ci.
Proof.
  intros Hnd Hin. induction l2 as [|x l2 IH]; intros l1 m p h' -> Hm Hl Hno Hlen.
  { cbn in Hl. subst p. exists h'. rewrite app_nil_r. split; [by destruct m|done]. }
  cbn [lseg] in Hl. destruct Hl as (->&a&Ha&Hl). destruct m as [|m]; [simpl in Hlen; lia|]. cbn [reparent_loop]. destruct (Hin x) as (_&Hxi&HxC); [set_solver|]. apply NoDup_app in Hnd as (_&Hd&_).
  assert (x ∉ l1) as Hx1 by (intros ?; eapply Hd; [done|left]). pose proof (mv_sibling _ _ _ _ _ Hm x Hx1) as Hsib. rewrite Ha in Hsib. destruct (h' !! x) as [b|] eqn:Hb; [|done]. injection Hsib as Hsib.
  rewrite (mbind_Some _ _ _ _ _ (pcb_mk c h' n i l w r x b Hb)). rewrite (mbind_Some _ _ _ _ _ (upd_mk c h' n i l w r x b (set_parent init) Hb)). set (b1 := set_parent init b). set (h1 := <[x := b1]> h'). assert (h1 !! x = Some b1) as Hb1 by apply lookup_insert_eq.
  assert (exists h2, (match init with None => pcb_upd x (set_sibling_next None) | Some j => ti <~ pcb j ;; pcb_upd x (set_sibling_next (t_children ti)) ;;; pcb_upd j (set_children (Some x)) end) (mk c h1 n i l w r) = Some (tt, mk c h2 n i l w r) /\
    moving h h2 init (l1 ++ [x]) Ci) as (h2&E2&Hm2).
  { destruct init as [j|].
    - assert (x <> j) as Hxj by congruence. destruct (mv_init _ _ _ _ _ Hm j eq_refl) as (bj&Hbj&_). assert (h1 !! j = Some bj) as Hj1 by (unfold h1; by rewrite lookup_insert_ne). eexists. split; [|exact (moving_step h h' j l1 Ci x b Hm Hb Hxj Hx1 HxC bj Hbj)].
      rewrite (mbind_Some _ _ _ _ _ (pcb_mk c h1 n i l w r j bj Hj1)). rewrite (mbind_Some _ _ _ _ _ (upd_mk c h1 n i l w r x b1 (set_sibling_next (t_children bj)) Hb1)). unfold h1. rewrite insert_insert_eq. apply upd_mk. by rewrite lookup_insert_ne.
    - rewrite (Hno eq_refl) in *. eexists. split; [|exact (moving_orphan h h' l1 x b Hm Hb)]. rewrite (upd_mk c h1 n i l w r x b1 (set_sibling_next None) Hb1). unfold h1. by rewrite insert_insert_eq. }
  rewrite (mbind_Some _ _ _ _ _ E2). cbn in Hsib. rewrite Hsib. apply (IH (l1 ++ [x])); [by rewrite <-app_assoc|done|done|done|simpl in Hlen; lia].
Qed.

Definition init_children (init : option nat) (C : nat -> list nat) : list nat := match init with Some i => C i | None => [] end.
(** The children of different tasks are different. *)
Lemma tree_apart h C x y z : tree h C -> z ∈ C x -> z ∈ C y -> x = y.
Proof. intros Ht Hx Hy. destruct (tr_down _ _ Ht x z Hx) as (_&b&Hb&Eb), (tr_down _ _ Ht y z Hy) as (_&d&Hd&Ed). congruence. Qed.
Lemma moved_tree h h' C x init b : tree h C -> moving h h' init (C x) (init_children init C) -> h' !! x = Some b -> init <> Some x ->
  (forall i, init = Some i -> i ∉ C x) -> tree (<[x := set_children None b]> h') (moved x init C).
Proof.
  intros Ht [M1 M2 M3 M4 M5] Hb Hix Hic. set (h2 := <[x := set_children None b]> h'). assert (forall y, is_Some (h !! y) -> is_Some (h2 !! y)) as Hs.
  { intros y [a Ha]. unfold h2. rewrite lookup_insert. case_decide; [eauto|]. specialize (M1 y). rewrite Ha in M1. destruct (h' !! y); [eauto|done]. }
  assert (forall y, t_sibling_next <$> h2 !! y = t_sibling_next <$> h' !! y) as Hsib by (intros y; unfold h2; rewrite lookup_insert; case_decide; subst; [by rewrite Hb|done]).
  assert (forall y d, h2 !! y = Some d -> exists a, h !! y = Some a /\ t_parent d = if decide (y ∈ C x) then init else t_parent a) as Hpar.
  { intros y d. unfold h2. rewrite lookup_insert. case_decide as E; [|apply M2]. subst. intros [= <-]. apply (M2 y b Hb). }
  split.
  - intros y d Hd. unfold moved. case_decide as E1; [subst; unfold h2 in Hd; rewrite lookup_insert_eq in Hd; by injection Hd as <-|]. unfold h2 in Hd. rewrite lookup_insert_ne in Hd by done. case_decide as E2.
    + subst init. destruct (M5 y eq_refl) as (d'&Hd'&Hl). rewrite Hd in Hd'. injection Hd' as <-. apply (lseg_frame _ h'); [intros z _; apply Hsib|done].
    + pose proof (M3 y E2) as Ec. rewrite Hd in Ec. destruct (h !! y) as [a|] eqn:Ha; [|done]. injection Ec as ->. apply (lseg_frame _ h); [|by apply (tr_seg _ _ Ht y)]. intros z Hz. cbn [lget link_sibling]. rewrite (Hsib z). apply M4.
      intros Hz'. by destruct E1; apply (tree_apart h C y x z).
  - intros y. unfold moved. case_decide as E1; [apply NoDup_nil_2|]. case_decide; [|apply Ht]. apply NoDup_app. split; [rewrite reverse_Permutation; apply Ht|]. split; [|apply Ht]. intros z Hz Hz'. rewrite elem_of_reverse in Hz. destruct E1. by apply (tree_apart h C y x z).
  - intros y. unfold moved. case_decide; [apply not_elem_of_nil|]. case_decide; [|apply Ht]. rewrite elem_of_app, elem_of_reverse. intros [Hy|Hy]; [by apply (Hic y)|by apply (tr_self _ _ Ht y)].
  - intros y z. unfold moved. case_decide as E1; [intros []%elem_of_nil|]. assert (forall q, q ∈ C y -> is_Some (h2 !! y) /\ exists d, h2 !! q = Some d /\ t_parent d = Some y) as Hold.
    { intros q Hq. destruct (tr_down _ _ Ht y q Hq) as (Hy&a&Ha&Hp). split; [by apply Hs|]. destruct (Hs q ltac:(eauto)) as [d Hd]. exists d. split; [done|]. destruct (Hpar q d Hd) as (a'&Ha'&Ep). rewrite Ep, decide_False by (intros Hq'; by destruct E1; apply (tree_apart h C y x q)). congruence. }
    case_decide as E2; [|apply Hold]. intros [Hz|Hz]%elem_of_app; [|by apply Hold]. rewrite elem_of_reverse in Hz. destruct (tr_down _ _ Ht x z Hz) as (_&a&Ha&_). destruct (Hs z ltac:(eauto)) as [d Hd]. split.
    + apply Hs. destruct (M5 y E2) as (d'&Hd'&_). destruct (M2 y d' Hd') as (a'&Ha'&_). eauto.
    + exists d. split; [done|]. destruct (Hpar z d Hd) as (a'&_&Ep). by rewrite Ep, decide_True.
  - intros z d y Hd Hp. destruct (Hpar z d Hd) as (a&Ha&Ep). rewrite Hp in Ep. unfold moved. case_decide as Hz.
    + rewrite <-Ep in *. rewrite decide_False by congruence. rewrite decide_True by done. apply elem_of_app. left. by apply elem_of_reverse.
    + pose proof (tr_up _ _ Ht z a y Ha (eq_sym Ep)) as Hin. case_decide as E; [by subst|]. case_decide; [|done]. apply elem_of_app. by right.
Qed.

(** Facts about the children of a task in the heap. *)
Lemma children_length h C x : tree h C -> (length (C x) < S (size h))%nat.
Proof. intros Ht. apply pcbs_length; [apply Ht|]. intros y Hy. destruct (tr_down _ _ Ht x y Hy) as (_&b&Hb&_). eauto. Qed.
Lemma moving_refl h C init : tree h C -> (forall i, init = Some i -> is_Some (h !! i)) -> moving h h init [] (init_children init C).
Proof.
  intros Ht Hi. split; try done; [intros y b Hb; exists b; split; [done|]; by rewrite decide_False by (intros []%elem_of_nil)|]. intros i ->. destruct (Hi i eq_refl) as [b Hb]. exists b. split; [done|]. by apply (tr_seg _ _ Ht i).
Qed.
Lemma reparent_run s C x a : tree (pcbs s) C -> pcbs s !! x = Some a -> g_init_task s <> Some x -> (forall i, g_init_task s = Some i -> is_Some (pcbs s !! i) /\ i ∉ C x) ->
  exists h', task_reparent_children (Some x) s = Some (tt, set_pcbs h' s) /\ tree h' (moved x (g_init_task s) C) /\ same_but_tree (pcbs s) h' /\ (t_parent <$> h' !! x = Some (t_parent a)).
Proof.
  intros Ht Ha Hix Hi. unfold task_reparent_children. rewrite (mbind_Some _ _ _ _ _ (pcb_run s x a Ha)). pose proof (tr_seg _ _ Ht x a Ha) as Hl. destruct (t_children a) as [ch|] eqn:Ec.
  - unfold mbind_ at 1, mget. destruct (reparent_loop_run (tk_sched s) (g_next_pid s) (g_init_task s) (g_task_list s) (tk_stack s) (tk_env s) (pcbs s) (g_init_task s) (init_children (g_init_task s) C) (C x) (tr_nodup _ _ Ht x)) with (l1 := @nil nat) (l2 := C x) (m := walk_steps s) (p := Some ch) (h' := pcbs s) as (h2&E2&Hm).
    + intros y Hy. destruct (tr_down _ _ Ht x y Hy) as (_&b&Hb&_). split_and!; [eauto|intros E; by apply (proj2 (Hi y E))|]. destruct (g_init_task s) as [i|]; cbn; [|apply not_elem_of_nil]. intros Hy'. destruct Hix. f_equal. by apply (tree_apart (pcbs s) C i x y).
    + done.
    + apply (moving_refl _ C); [done|]. intros i E. by apply Hi.
    + done.
    + by intros ->.
    + pose proof (children_length _ C x Ht). unfold walk_steps. lia.
    + rewrite <-mk_eta in E2. rewrite (mbind_Some _ _ _ _ _ E2). destruct (h2 !! x) as [b|] eqn:Hb; [|pose proof (mv_same _ _ _ _ _ Hm x) as E; rewrite Ha, Hb in E; done]. exists (<[x := set_children None b]> h2).
      split; [exact (upd_mk (tk_sched s) h2 _ _ _ _ _ x b _ Hb)|]. split; [apply (moved_tree (pcbs s)); try done; intros i E; by apply Hi|].
      split; [apply (same_but_tree_insert _ _ _ b); [apply Hm|done|done]|]. rewrite lookup_insert_eq. cbn. destruct (mv_parent _ _ _ _ _ Hm x b Hb) as (a'&Ha'&->). rewrite Ha in Ha'. injection Ha' as <-. by rewrite decide_False by apply Ht.
  - exists (pcbs s). split; [by rewrite set_pcbs_id|]. cbn [lseg] in Hl. destruct (C x) as [|y l] eqn:EC; [|by destruct Hl]. split; [|by rewrite Ha].
    assert (forall y, moved x (g_init_task s) C y = C y) as Hsame. { intros y. unfold moved. case_decide; subst; [done|]. case_decide; [|done]. by rewrite EC. }
    destruct Ht as [T1 T2 T3 T4 T5]. split; intros y *; rewrite ?Hsame; eauto.
Qed.

(** The scheduler changes only fields the other parts do not look at. *)
Lemma tcore_sched s G k A c' A' : tcore s G k A -> sched_inv c' A' -> froz (pcbs s) (heap (mq c')) -> tcore (set_sched c' s) G k A'.
Proof.
  intros [H1 H2 H3 H4 H5 H6 H7 H8 H9] Hc Hf. assert (forall X (f : task -> X), (forall a, f (frozen a) = f a) -> forall y, f <$> heap (mq c') !! y = f <$> pcbs s !! y) as Hv by (intros X f E y; by apply froz_view). split; try done.
  - apply (lseg_frame _ (pcbs s)); [|done]. intros y _. by apply Hv.
  - apply (mem_ext (pcbs s)); [by apply Hv|done].
  - apply (pids_ext (pcbs s)); [by apply Hv|done].
  - intros i Hi. change (is_Some (heap (mq c') !! i)). apply (froz_is_Some (pcbs s)); [done|by apply H7].
  - intros y b Hb. destruct (view_inv t_fd_table _ _ y b (Hv _ t_fd_table ltac:(done)) Hb) as (d&Hd&<-). by apply (H8 y).
Qed.
Lemma tree_froz h h' C : froz h h' -> tree h C -> tree h' C.
Proof. intros Hf. apply tree_ext. intros y. by apply froz_view. Qed.

(** A write to one PCB that keeps the fields the invariant looks at. *)
Definition kept (a : task) := (mview a, t_pid a, t_g_next a, nfds a, t_next a, t_mlfq_level a).
Lemma tcore_upd s G k A x a b : tcore s G k A -> pcbs s !! x = Some a -> kept b = kept a -> tcore (set_pcbs (<[x := b]> (pcbs s)) s) G k A.
Proof.
  intros Hc Ha E. unfold kept in E. injection E as E1 E2 E3 E4 E5 E6.
  apply tcore_pcbs; [done|..]; intros y; rewrite lookup_insert; case_decide; subst; try done; rewrite Ha; cbn; by f_equal; (unfold mview; congruence) || congruence.
Qed.
Lemma tree_upd s C x a b : tree (pcbs s) C -> pcbs s !! x = Some a -> tview b = tview a -> tree (<[x := b]> (pcbs s)) C.
Proof. intros Ht Ha E. apply (tree_ext (pcbs s)); [|done]. intros y. rewrite lookup_insert. case_decide; subst; [by rewrite Ha; cbn; rewrite E|done]. Qed.
Lemma tcore_tree s G k A h' : tcore s G k A -> same_but_tree (pcbs s) h' -> tcore (set_pcbs h' s) G k A.
Proof. intros Hc E. apply tcore_pcbs; [done|..]; intros y; by apply same_but_tree_view. Qed.

(** A task joins the ready queue of level 0. *)
Lemma add_run s G C k A p b : tcore s G k A -> tree (pcbs s) C -> pcbs s !! p = Some b -> p ∉ queued A ->
  exists s' A' q, on_sched (scheduler_add_task (Some p)) s = Some (tt, s') /\ tcore s' G k A' /\ tree (pcbs s') C /\ (forall y, y <> p -> set_next None <$> pcbs s' !! y = set_next None <$> pcbs s !! y) /\
    pcbs s' !! p = Some (enqueued 0 q b) /\ (forall y, y ∈ queued A' <-> y ∈ queued A \/ y = p) /\ exists c', s' = set_sched c' s /\ g_current_task c' = g_current_task (tk_sched s).
Proof.
  intros Hc Ht Hb Hq. destruct (add_ok (tk_sched s) A p (tc_sched _ _ _ _ Hc)) as (c'&E&Hi'&_); [exists b; exact Hb|done|]. pose proof E as E'. unfold scheduler_add_task in E'. pose proof (si_abs _ _ (tc_sched _ _ _ _ Hc)) as Ha.
  assert (unqueued (aq_lists A) p) as Hu by (intros j Hj Hin; apply Hq, elem_of_queued; eauto). destruct (enqueue_rep (mq (tk_sched s)) (aq_lists A) p b 0 (proj1 Ha) Hb Hu ltac:(lia)) as (q2&cq&Eq2&_&_&Hp2&Hsb&_). rewrite Eq2 in E'. cbn [mbind option_bind] in E'. injection E' as E'.
  assert (heap (mq c') = heap q2) as Eh by (by rewrite <-E'). assert (froz (pcbs s) (heap (mq c'))) as Hfz.
  { rewrite Eh. intros y. apply (op_frozen (OpEnqueue p 0) (mq (tk_sched s)) A q2 y Ha); [|exact Eq2]. split_and!; [lia|lia|done|]. apply (abs_pre _ A p Ha). exists b. exact Hb. }
  exists (set_sched c' s), (spec_op (OpEnqueue p 0) A), cq. split; [unfold on_sched; by rewrite E|]. split; [by apply (tcore_sched s G k A)|]. split; [by apply (tree_froz (pcbs s))|]. split.
  - intros y Hy. change (pcbs (set_sched c' s)) with (heap (mq c')). rewrite Eh, (Hsb y). by rewrite lookup_insert_ne.
  - split; [change (heap (mq c') !! p = Some (enqueued 0 cq b)); by rewrite Eh|]. split; [|exists c'; split; [done|by rewrite <-E']].
    intros y. rewrite !elem_of_queued. cbn [spec_op aq_lists]. split.
    + intros (j&Hj&Hy). unfold Mlfq.upd in Hy. case_decide; [|eauto]. subst. apply elem_of_app in Hy as [?|?%list_elem_of_singleton]; [left; eauto|by right].
    + intros [(j&Hj&Hy)| ->]; [exists j|exists 0]; (split; [lia|]); unfold Mlfq.upd; case_decide; subst; set_solver.
Qed.
Lemma wake_run s G C k A p b : tcore s G k A -> tree (pcbs s) C -> pcbs s !! p = Some b -> t_state b = TASK_STATE_BLOCKED -> p ∉ queued A ->
  exists s' A', task_wake (Some p) s = Some (tt, s') /\ tcore s' G k A' /\ tree (pcbs s') C /\ (forall y, y <> p -> set_next None <$> pcbs s' !! y = set_next None <$> pcbs s !! y) /\
    (exists b', pcbs s' !! p = Some b' /\ t_state b' = TASK_STATE_READY /\ t_is_waiting_for_children b' = false) /\ (forall y, y ∈ queued A' <-> y ∈ queued A \/ y = p).
Proof.
  intros Hc Ht Hb Hst Hq. unfold task_wake. rewrite (mbind_Some _ _ _ _ _ (pcb_run s p b Hb)). rewrite bool_decide_eq_true_2 by done. cbn [negb]. rewrite (mbind_Some _ _ _ _ _ (upd_run s p b _ Hb)).
  set (b1 := set_is_waiting_for_children false b). set (s1 := set_pcbs (<[p := b1]> (pcbs s)) s). set (b2 := set_state TASK_STATE_READY b1). set (s2 := set_pcbs (<[p := b2]> (pcbs s)) s).
  destruct (add_run s2 G C k A p b2) as (s'&A'&q&E&Hc'&Ht'&Hoth&Hp&Hq'&_); [by apply (tcore_upd s G k A p b)|by apply (tree_upd s C p b)|apply lookup_insert_eq|done|].
  exists s', A'. split; [|split_and!; try done; [intros y Hy; rewrite (Hoth y Hy); change (pcbs s2) with (<[p := b2]> (pcbs s)); by rewrite lookup_insert_ne|by exists (enqueued 0 q b2)]].
  rewrite <-E. unfold on_sched, scheduler_wake_task. change (heap (mq (tk_sched s1))) with (<[p := b1]> (pcbs s)). rewrite lookup_insert_eq. cbn [mbind option_bind]. rewrite bool_decide_eq_true_2 by done. cbn [negb].
  assert (alter_task (set_state TASK_STATE_READY) p (mq (tk_sched s1)) = mq (tk_sched s2)) as ->.
  { unfold alter_task. change (heap (mq (tk_sched s1))) with (<[p := b1]> (pcbs s)). rewrite (alter_insert_some _ _ _ b1) by apply lookup_insert_eq. by rewrite insert_insert_eq. }
  unfold scheduler_add_task. by destruct (mlfq_enqueue (Some p) 0 (mq (tk_sched s2))).
Qed.

(** ** task_exit *)

Definition zombie (code : Z) (a a' : task) : Prop := t_state a' = TASK_STATE_ZOMBIE /\ t_exit_code a' = code /\ t_parent a' = t_parent a /\ t_pid a' = t_pid a.
(** The exiting task up to the wake-up of its parent. *)
Lemma exit_steps s G C k A x a code : tinv s G C k A -> pcbs s !! x = Some a -> g_init_task s <> Some x -> (forall i, g_init_task s = Some i -> i ∉ C x) ->
  exists h', (pcb_upd x (set_exit_code code) ;;; task_reparent_children (Some x) ;;; pcb_upd x (set_state TASK_STATE_ZOMBIE)) s = Some (tt, set_pcbs h' s) /\
    tinv (set_pcbs h' s) G (moved x (g_init_task s) C) k A /\ (exists a', h' !! x = Some a' /\ zombie code a a') /\ (forall y, y <> x -> notree <$> h' !! y = notree <$> pcbs s !! y).
Proof.
  intros [Hc Ht]%tinv_core Ha Hix Hic. set (a1 := set_exit_code code a). set (s1 := set_pcbs (<[x := a1]> (pcbs s)) s). assert (tcore s1 G k A) as Hc1 by (by apply (tcore_upd s G k A x a)). assert (tree (pcbs s1) C) as Ht1 by (by apply (tree_upd s C x a)).
  assert (pcbs s1 !! x = Some a1) as Ha1 by apply lookup_insert_eq. rewrite (mbind_Some _ _ _ _ _ (upd_run s x a _ Ha)). fold a1 s1. destruct (reparent_run s1 C x a1 Ht1 Ha1 Hix) as (h2&E2&Ht2&Hs2&Hp2); [intros i Hi; split; [by apply Hc1|by apply Hic]|].
  rewrite (mbind_Some _ _ _ _ _ E2). set (s2 := set_pcbs h2 s1) in *. assert (tcore s2 G k A) as Hc2 by (by apply tcore_tree). destruct (h2 !! x) as [a2|] eqn:Ha2; [|done]. cbn in Hp2. injection Hp2 as Hp2. set (a3 := set_state TASK_STATE_ZOMBIE a2). exists (<[x := a3]> h2).
  assert (pcbs s2 !! x = Some a2) as Ha2' by done. split; [exact (upd_run s2 x a2 (set_state TASK_STATE_ZOMBIE) Ha2')|]. split; [|split].
  - apply tinv_core. split; [exact (tcore_upd s2 G k A x a2 a3 Hc2 Ha2' eq_refl)|]. exact (tree_upd s2 _ x a2 a3 Ht2 Ha2' eq_refl).
  - exists a3. split; [apply lookup_insert_eq|]. pose proof (Hs2 x) as E. rewrite Ha1, Ha2 in E. apply (inj Some) in E. split_and!; [done|exact (f_equal t_exit_code E)|exact Hp2|exact (f_equal t_pid E)].
  - intros y Hy. rewrite lookup_insert_ne by done. rewrite (Hs2 y). unfold s1. change (pcbs (set_pcbs (<[x := a1]> (pcbs s)) s)) with (<[x := a1]> (pcbs s)). by rewrite lookup_insert_ne.
Qed.
Lemma mbind3 {S X} (a b d : M S unit) (g : M S X) (s s' : S) : (a ;;; b ;;; d) s = Some (tt, s') -> (a ;;; b ;;; d ;;; g) s = g s'.
Proof. unfold mbind_. destruct (a s) as [[? s1]|]; [|done]. destruct (b s1) as [[? s2]|]; [|done]. by intros ->. Qed.

Lemma task_exit_ok s G C k A x a code : tinv s G C k A -> g_current_task (tk_sched s) = Some x -> pcbs s !! x = Some a ->
  g_init_task s <> Some x -> (forall i, g_init_task s = Some i -> i ∉ C x) ->
  (forall p b, t_parent a = Some p -> pcbs s !! p = Some b -> t_state b = TASK_STATE_BLOCKED -> p ∉ queued A) ->
  exists s' A', task_exit code s = Some (negb (t_pid a =? 1), s') /\ tinv s' G (moved x (g_init_task s) C) k A' /\ (exists a', pcbs s' !! x = Some a' /\ zombie code a a') /\
    (forall y, y ∈ queued A' -> y ∈ queued A \/ t_parent a = Some y) /\
    (forall p b, t_parent a = Some p -> pcbs s !! p = Some b -> t_is_waiting_for_children b = true -> t_state b = TASK_STATE_BLOCKED ->
       p ∈ queued A' /\ exists b', pcbs s' !! p = Some b' /\ t_state b' = TASK_STATE_READY /\ t_is_waiting_for_children b' = false).
Proof.
  intros Hi Hcur Ha Hix Hic Hpq. destruct (exit_steps s G C k A x a code Hi Ha Hix Hic) as (h'&E&Hi3&(a3&Ha3&Z1&Z2&Z3&Z4)&Hoth). set (s3 := set_pcbs h' s) in *. unfold task_exit, task_get_current, mbind_ at 1, mgets. rewrite Hcur.
  rewrite (mbind3 _ _ _ _ _ _ E). assert (pcbs s3 !! x = Some a3) as Ha3' by done. rewrite (mbind_Some _ _ _ _ _ (pcb_run s3 x a3 Ha3')). rewrite Z3.
  assert (forall A', (fun s => match pcb x s with Some (t, s0) => Some (negb (t_pid t =? 1), s0) | None => None end) s3 = Some (negb (t_pid a =? 1), s3) /\ A' = A' :> aq) as Hret by (intros; by rewrite (pcb_run s3 x a3 Ha3'), Z4).
  destruct (t_parent a) as [p|] eqn:Ep.
  2: { exists s3, A. split; [unfold mbind_ at 1, mret; exact (proj1 (Hret A))|]. split; [done|]. split; [exists a3; split; [done|]; split_and!; congruence|]. split; [by left|done]. }
  pose proof (tr_up _ _ (ti_tree _ _ _ _ _ Hi) x a p Ha Ep) as Hxp. destruct (tr_down _ _ (ti_tree _ _ _ _ _ Hi) p x Hxp) as ([b Hb]&_). assert (p <> x) as Hpx by (intros ->; by apply (tr_self _ _ (ti_tree _ _ _ _ _ Hi) x)).
  pose proof (Hoth p Hpx) as Eb. rewrite Hb in Eb. destruct (h' !! p) as [b3|] eqn:Hb3; [|done]. apply (inj Some) in Eb. assert (pcbs s3 !! p = Some b3) as Hb3' by done.
  assert (t_state b3 = t_state b) as Est by exact (f_equal t_state Eb). assert (t_is_waiting_for_children b3 = t_is_waiting_for_children b) as Ewt by exact (f_equal t_is_waiting_for_children Eb). unfold mbind_ at 1. rewrite (mbind_Some _ _ _ _ _ (pcb_run s3 p b3 Hb3')). rewrite Ewt.
  destruct (decide (t_is_waiting_for_children b = true /\ t_state b = TASK_STATE_BLOCKED)) as [[Hw Hs]|Hno].
  - apply tinv_core in Hi3 as [Hc3 Ht3]. destruct (wake_run s3 G _ k A p b3 Hc3 Ht3 Hb3' ltac:(congruence) (Hpq p b eq_refl Hb Hs)) as (s4&A4&E4&Hc4&Ht4&Hoth4&Hp4&Hq4). rewrite Hw. cbn [mwhen]. rewrite E4.
    pose proof (Hoth4 x ltac:(done)) as Ex. rewrite Ha3' in Ex. destruct (pcbs s4 !! x) as [a4|] eqn:Ha4; [|done]. apply (inj Some) in Ex. exists s4, A4. split; [|split; [by apply tinv_core|split; [|split]]].
    + rewrite (mbind_Some _ _ _ _ _ (pcb_run s4 x a4 Ha4)). unfold mret. do 3 f_equal. rewrite <-Z4. f_equal. exact (f_equal t_pid Ex).
    + exists a4. split; [done|]. split_and!; [exact (eq_trans (f_equal t_state Ex) Z1)|exact (eq_trans (f_equal t_exit_code Ex) Z2)|exact (eq_trans (f_equal t_parent Ex) (eq_trans Z3 (eq_sym Ep)))|exact (eq_trans (f_equal t_pid Ex) Z4)].
    + intros y [?| ->]%Hq4; [by left|by right].
    + intros p' b' [= <-] _ _ _. split; [apply Hq4; by right|done].
  - assert (mwhen (t_is_waiting_for_children b) (task_wake (Some p)) s3 = Some (tt, s3)) as E4.
    { destruct (t_is_waiting_for_children b) eqn:Hw; [|done]. cbn [mwhen task_wake]. rewrite (mbind_Some _ _ _ _ _ (pcb_run s3 p b3 Hb3')). rewrite bool_decide_eq_false_2; [done|]. rewrite Est. intros ?. by destruct Hno. }
    rewrite E4. exists s3, A. split; [exact (proj1 (Hret A))|]. split; [done|]. split; [exists a3; split; [done|]; split_and!; congruence|]. split; [by left|]. intros p' b' [= <-] Hb' Hw' Hs'. rewrite Hb in Hb'. injection Hb' as <-. by destruct Hno.
Qed.
(** C24: [task_exit] of a task other than init makes it a zombie with the exit code, hands all its children to init, the
    last one first, and wakes the parent when it sleeps in wait: the parent is ready, queued and no longer waiting.  The tasks
    stay sound.  It returns unless the task had PID 1. *)
Theorem task_exit_exact s G C k A x a code : tinv s G C k A -> g_current_task (tk_sched s) = Some x -> pcbs s !! x = Some a ->
  g_init_task s <> Some x -> (forall i, g_init_task s = Some i -> i ∉ C x) ->
  (forall p b, t_parent a = Some p -> pcbs s !! p = Some b -> t_state b = TASK_STATE_BLOCKED -> p ∉ queued A) ->
  exists s' A', task_exit code s = Some (negb (t_pid a =? 1), s') /\ tinv s' G (moved x (g_init_task s) C) k A' /\ (exists a', pcbs s' !! x = Some a' /\ zombie code a a') /\
    (forall y, y ∈ queued A' -> y ∈ queued A \/ t_parent a = Some y) /\
    (forall p b, t_parent a = Some p -> pcbs s !! p = Some b -> t_is_waiting_for_children b = true -> t_state b = TASK_STATE_BLOCKED ->
       p ∈ queued A' /\ exists b', pcbs s' !! p = Some b' /\ t_state b' = TASK_STATE_READY /\ t_is_waiting_for_children b' = false).
Proof. apply task_exit_ok. Qed.

(** ** task_wait *)

(** A child leaves the list of [x] and the heap. *)
Definition unlinked (h : gmap nat task) (l1 : list nat) (b : task) : gmap nat task :=
  match last l1 with Some z => alter (set_sibling_next (t_sibling_next b)) z h | None => h end.
Definition child_head (l1 : list nat) (a b : task) : option nat := match last l1 with Some _ => t_children a | None => t_sibling_next b end.
Definition reaped (x y : nat) (C : nat -> list nat) : nat -> list nat := fun z => if decide (z = x) then rm y (C z) else C z.
Lemma unlinked_same h l1 b : same_but_tree h (unlinked h l1 b).
Proof. unfold unlinked. destruct (last l1) as [z|]; [|done]. intros y. rewrite lookup_alter. case_decide; subst; [by destruct (h !! y)|done]. Qed.
Lemma unlinked_ne h l1 b y : y ∉ l1 -> unlinked h l1 b !! y = h !! y.
Proof. intros Hy. unfold unlinked. destruct (last l1) as [z|] eqn:E; [|done]. apply lookup_alter_ne. intros ->. apply Hy. apply last_Some in E as [l' ->]. set_solver. Qed.
Lemma reaped_tree h C x y a b l1 l2 : tree h C -> h !! x = Some a -> h !! y = Some b -> C x = l1 ++ y :: l2 -> C y = [] ->
  tree (delete y (<[x := set_children (child_head l1 a b) a]> (unlinked h l1 b))) (reaped x y C).
Proof.
  intros Ht Ha Hb EC Ey. pose proof (tr_nodup _ _ Ht x) as Hnd. rewrite EC in Hnd. assert (x ∉ C x) as Hxx by apply Ht. assert (y ∈ C x) as Hyx by (rewrite EC; set_solver). assert (y <> x) as Hne by (intros ->; done).
  set (h1 := unlinked h l1 b). set (h2 := <[x := set_children (child_head l1 a b) a]> h1). assert (rm y (C x) = l1 ++ l2) as Erm by (rewrite EC; by apply rm_split). assert (x ∉ l1) as Hx1 by (rewrite EC in Hxx; set_solver). assert (h1 !! x = Some a) as Hx by (unfold h1; by rewrite unlinked_ne).
  assert (forall z d, z <> x -> delete y h2 !! z = Some d -> exists d0, h !! z = Some d0 /\ t_parent d = t_parent d0 /\ t_children d = t_children d0) as Hold.
  { intros z d Hzx [Hzy Hd]%lookup_delete_Some. unfold h2 in Hd. rewrite lookup_insert_ne in Hd by done. unfold h1, unlinked in Hd. destruct (last l1) as [q|]; [|by exists d]. rewrite lookup_alter in Hd. case_decide; [|by exists d]. subst. destruct (h !! z) as [d0|]; [|done]. exists d0. by injection Hd as <-. }
  assert (forall z, z ∈ dom h -> z <> y -> is_Some (delete y h2 !! z)) as Hs.
  { intros z Hz Hzy. rewrite lookup_delete_ne by done. unfold h2. rewrite lookup_insert. case_decide; [eauto|]. unfold h1, unlinked. apply elem_of_dom in Hz. destruct (last l1) as [q|]; [|done]. rewrite lookup_alter. case_decide; [|done]. subst. destruct Hz as [? ->]. eauto. }
  assert (forall p l, lseg link_sibling h1 p l None -> y ∉ l -> lseg link_sibling (delete y h2) p l None) as Hseg.
  { intros p l Hl Hy. apply (lseg_frame _ h1); [|done]. intros z Hz. rewrite lookup_delete_ne by (intros ->; done). unfold h2. rewrite lookup_insert. case_decide; subst; [by rewrite Hx|done]. }
  split.
  - intros z d Hd. unfold reaped. case_decide as E.
    + subst z. rewrite lookup_delete_ne in Hd by done. unfold h2 in Hd. rewrite lookup_insert_eq in Hd. injection Hd as <-. cbn [t_children set_children]. rewrite Erm. apply Hseg; [|pose proof Hnd as Hnd'; apply NoDup_app in Hnd' as (_&Hd&[Hy2 _]%NoDup_cons); rewrite elem_of_app; intros [Hy1|Hy2']; [by eapply Hd; [exact Hy1|left]|done]].
      pose proof (tr_seg _ _ Ht x a Ha) as Hl. rewrite EC in Hl. pose proof (lseg_remove link_sibling h _ l1 y l2 b Hl Hnd Hb) as Hr. unfold child_head, h1, unlinked. by destruct (last l1).
    + destruct (Hold z d E Hd) as (d0&Hd0&_&->). apply Hseg; [|intros Hyz; by destruct E; apply (tree_apart h C z x y)]. apply (lseg_frame _ h); [|by apply (tr_seg _ _ Ht z)]. intros q Hq. unfold h1. rewrite unlinked_ne; [done|]. intros Hq1. destruct E. apply (tree_apart h C z x q); [done|done|]. rewrite EC. set_solver.
  - intros z. unfold reaped. case_decide; [apply NoDup_filter|]; apply Ht.
  - intros z. unfold reaped. case_decide; [rewrite elem_of_rm; intros [? _]|]; by apply (tr_self _ _ Ht z).
  - assert (forall z q, q ∈ reaped x y C z -> q ∈ C z /\ q <> y) as Hsub. { intros z q. unfold reaped. case_decide as E; [by rewrite elem_of_rm|]. intros Hq. split; [done|]. intros ->. by destruct E; apply (tree_apart h C z x y). }
    intros z q [Hq Hqy]%Hsub. destruct (tr_down _ _ Ht z q Hq) as (Hz&d&Hd&Hp). assert (z <> y) as Hzy by (intros ->; rewrite Ey in Hq; by apply elem_of_nil in Hq). split; [by apply Hs; [apply elem_of_dom|]|]. destruct (Hs q) as [d' Hd']; [apply elem_of_dom; eauto|done|]. exists d'. split; [done|].
    destruct (decide (q = x)) as [->|Hqx]; [|destruct (Hold q d' Hqx Hd') as (d0&Hd0&->&_); congruence]. rewrite lookup_delete_ne in Hd' by done. unfold h2 in Hd'. rewrite lookup_insert_eq in Hd'. injection Hd' as <-. cbn. congruence.
  - intros z d q Hd Hp. assert (exists d0, h !! z = Some d0 /\ t_parent d0 = Some q) as (d0&Hd0&Hp0).
    { destruct (decide (z = x)) as [->|Hzx]; [|destruct (Hold z d Hzx Hd) as (d0&Hd0&Ep&_); exists d0; split; congruence]. rewrite lookup_delete_ne in Hd by done. unfold h2 in Hd. rewrite lookup_insert_eq in Hd. injection Hd as <-. by exists a. }
    pose proof (tr_up _ _ Ht z d0 q Hd0 Hp0) as Hin. unfold reaped. case_decide; [|done]. apply elem_of_rm. split; [done|]. intros ->. by apply lookup_delete_Some in Hd as [? _].
Qed.

Lemma first_match (P : nat -> bool) (l : list nat) : (forall z, z ∈ l -> P z = false) \/ exists l1 y l2, l = l1 ++ y :: l2 /\ P y = true /\ forall z, z ∈ l1 -> P z = false.
Proof.
  induction l as [|x l IH]; [left; intros z Hz; by apply elem_of_nil in Hz|]. destruct (P x) eqn:E; [right; exists [], x, l; split_and!; [done..|intros z Hz; by apply elem_of_nil in Hz]|].
  destruct IH as [IH|(l1&y&l2&->&Hy&H1)]; [left|right; exists (x :: l1), y, l2; split_and!; [done..|]]; intros z [->|Hz]%elem_of_cons; auto.
Qed.
Definition is_zombie (a : task) : bool := bool_decide (t_state a = TASK_STATE_ZOMBIE).
(** Blocking the caller. *)
Lemma block_run s G C k A x a : tcore s G k A -> tree (pcbs s) C -> pcbs s !! x = Some a -> t_state a = TASK_STATE_RUNNING ->
  exists s' A', (pcb_upd x (set_is_waiting_for_children true) ;;; on_sched (scheduler_unqueue_task (Some x)) ;;; pcb_upd x (set_state TASK_STATE_BLOCKED)) s = Some (tt, s') /\ tinv s' G C k A' /\
    x ∉ queued A' /\ exists a', pcbs s' !! x = Some a' /\ t_state a' = TASK_STATE_BLOCKED /\ t_is_waiting_for_children a' = true.
Proof.
  intros Hc Ht Ha Hst. rewrite (mbind_Some _ _ _ _ _ (upd_run s x a _ Ha)). set (a1 := set_is_waiting_for_children true a). set (s1 := set_pcbs (<[x := a1]> (pcbs s)) s). assert (tcore s1 G k A) as Hc1 by (by apply (tcore_upd s G k A x a)). assert (tree (pcbs s1) C) as Ht1 by (by apply (tree_upd s C x a)).
  assert (pcbs s1 !! x = Some a1) as Ha1 by apply lookup_insert_eq. destruct (unqueue_ok (tk_sched s1) A x a1 (tc_sched _ _ _ _ Hc1) Ha1 ltac:(by left)) as (c'&E&Hi'). pose proof E as E'. unfold scheduler_unqueue_task in E'. change (heap (mq (tk_sched s1)) !! x) with (pcbs s1 !! x) in E'.
  rewrite Ha1 in E'. cbn [mbind option_bind] in E'. change (t_state a1) with (t_state a) in E'. rewrite Hst in E'. cbn [bool_decide negb andb] in E'. pose proof (si_abs _ _ (tc_sched _ _ _ _ Hc1)) as Habs.
  destruct (dequeue_rep (mq (tk_sched s1)) (aq_lists A) x a1 (proj1 Habs) Ha1) as (q&Eq&_&Hsb&_). rewrite Eq in E'. cbn in E'. assert (heap (mq c') = heap q) as Eh by (injection E' as <-; by case_bool_decide).
  assert (froz (pcbs s1) (heap (mq c'))) as Hfz. { rewrite Eh. intros y. apply (op_frozen (OpDequeue x) (mq (tk_sched s1)) A q y Habs); [|exact Eq]. apply (abs_pre _ A x Habs). exists a1. exact Ha1. }
  set (s2 := set_sched c' s1). assert (on_sched (scheduler_unqueue_task (Some x)) s1 = Some (tt, s2)) as E2 by (unfold on_sched; by rewrite E). rewrite (mbind_Some _ _ _ _ _ E2).
  pose proof (Hsb x) as Ex. change (heap (mq (tk_sched s1)) !! x) with (pcbs s1 !! x) in Ex. rewrite Ha1, <-Eh in Ex. destruct (heap (mq c') !! x) as [a2|] eqn:Ha2; [|done]. apply (inj Some) in Ex. assert (pcbs s2 !! x = Some a2) as Ha2' by done.
  assert (tcore s2 G k (spec_op (OpDequeue x) A)) as Hc2 by (by apply (tcore_sched s1 G k A)). assert (tree (pcbs s2) C) as Ht2 by (by apply (tree_froz (pcbs s1))). eexists _, (spec_op (OpDequeue x) A). split; [exact (upd_run s2 x a2 _ Ha2')|]. split; [|split].
  - apply tinv_core. split; [by apply (tcore_upd s2 G k _ x a2)|by apply (tree_upd s2 C x a2)].
  - intros [_ ?]%queued_dequeue. done.
  - exists (set_state TASK_STATE_BLOCKED a2). split; [apply lookup_insert_eq|]. split; [done|]. exact (f_equal t_is_waiting_for_children Ex).
Qed.
Lemma mbind3_ret {S X} (a b d : M S unit) (v : X) (s s' : S) : (a ;;; b ;;; d) s = Some (tt, s') -> (a ;;; b ;;; d ;;; return v) s = Some (v, s').
Proof. intros E. by rewrite (mbind3 _ _ _ _ _ _ E). Qed.

(** C25: [task_wait] reaps the first zombie child: it returns its PID and exit code, the child is no longer in the tree or the
    global list, and every block it held is given back.  With living children only it blocks the caller, which leaves the
    ready queues; without children it changes nothing; both return -1.  The tasks stay sound. *)
Theorem task_wait_exact s G C k A x a : tinv s G C k A -> g_current_task (tk_sched s) = Some x -> pcbs s !! x = Some a -> t_state a = TASK_STATE_RUNNING ->
  (forall y b, y ∈ C x -> pcbs s !! y = Some b -> t_state b = TASK_STATE_ZOMBIE -> y ∈ G /\ y ∉ queued A /\ C y = [] /\ g_init_task s <> Some y /\ g_idle_task (tk_sched s) <> Some y) ->
  exists v st s', task_wait s = Some ((v, st), s') /\
   ((exists l1 y l2 b A', C x = l1 ++ y :: l2 /\ (forall z d, z ∈ l1 -> pcbs s !! z = Some d -> t_state d <> TASK_STATE_ZOMBIE) /\ pcbs s !! y = Some b /\ t_state b = TASK_STATE_ZOMBIE /\
       v = i32 (t_pid b) /\ st = Some (t_exit_code b) /\ pcbs s' !! y = None /\ tinv s' (rm y G) (reaped x y C) (without_task y b k) A') \/
    ((forall z d, z ∈ C x -> pcbs s !! z = Some d -> t_state d <> TASK_STATE_ZOMBIE) /\ v = -1 /\ st = None /\
       if decide (C x = []) then s' = s
       else exists a' A', pcbs s' !! x = Some a' /\ t_state a' = TASK_STATE_BLOCKED /\ t_is_waiting_for_children a' = true /\ x ∉ queued A' /\ tinv s' G C k A')).
Proof.
  intros Hi Hcur Ha Hst Hz. pose proof Hi as [Hc Ht]%tinv_core. unfold task_wait, task_get_current, mbind_ at 1, mgets. rewrite Hcur. unfold mbind_ at 1, mget. rewrite (mbind_Some _ _ _ _ _ (pcb_run s x a Ha)).
  pose proof (tr_seg _ _ Ht x a Ha) as Hl. pose proof (children_length _ C x Ht) as Hlen. assert (forall z, z ∈ C x -> is_Some (pcbs s !! z)) as Hin by (intros z Hzx; destruct (tr_down _ _ Ht x z Hzx) as (_&b&Hb&_); eauto).
  assert (forall l : list nat, (forall z, z ∈ l -> (fun z => match pcbs s !! z with Some d => is_zombie d | None => false end) z = false) -> forall z d, z ∈ l -> pcbs s !! z = Some d -> is_zombie d = false) as Hconv by (intros l Hf z d Hzl Hd; specialize (Hf z Hzl); cbn in Hf; by rewrite Hd in Hf).
  destruct (first_match (fun z => match pcbs s !! z with Some d => is_zombie d | None => false end) (C x)) as [Hno|(l1&y&l2&EC&Hy&H1)].
  - rewrite (unlink_none link_sibling (walk_steps s) (fun _ d => bool_decide (t_state d = TASK_STATE_ZOMBIE)) (pcbs s) (t_children a) (C x) Hl (Hconv _ Hno) Hlen). unfold mlift, mbind_ at 1. assert (forall z d, z ∈ C x -> pcbs s !! z = Some d -> t_state d <> TASK_STATE_ZOMBIE) as Hno' by (intros z d Hzx Hd; exact (proj1 (bool_decide_eq_false _) (Hconv _ Hno z d Hzx Hd))).
    destruct (t_children a) as [ch|] eqn:Ec.
    + destruct (block_run s G C k A x a Hc Ht Ha Hst) as (s'&A'&E&Hi'&Hq&a'&Ha'&Hs'&Hw'). exists (-1), None, s'. split; [exact (mbind3_ret _ _ _ _ _ _ E)|]. right. split_and!; try done. rewrite decide_False by (intros E0; by rewrite E0 in Hl). exists a', A'. done.
    + exists (-1), None, s. split; [done|]. right. split_and!; try done. rewrite decide_True; [done|]. destruct (C x) as [|z l0]; [done|by destruct Hl].
  - destruct (Hin y) as [b Hb]; [rewrite EC; set_solver|]. rewrite Hb in Hy. assert (t_state b = TASK_STATE_ZOMBIE) as Hzb by exact (proj1 (bool_decide_eq_true _) Hy). destruct (Hz y b) as (HyG&Hyq&Hyc&Hyi&Hyd); [rewrite EC; set_solver|done|done|].
    rewrite EC in Hl. rewrite (unlink_spec link_sibling (walk_steps s) (fun _ d => bool_decide (t_state d = TASK_STATE_ZOMBIE)) (pcbs s) (t_children a) l1 y l2 b Hl (Hconv _ H1) Hb Hy) by (rewrite EC, length_app in Hlen; unfold walk_steps; lia).
    assert (x ∉ C x) as Hxx by apply Ht. rewrite EC in Hxx. assert (y <> x) as Hyx by set_solver. assert (y ∉ l1) as Hy1 by (pose proof (tr_nodup _ _ Ht x) as Hnd; rewrite EC in Hnd; apply NoDup_app in Hnd as (_&Hd&_); intros ?; by eapply Hd; [|left]).
    set (h1 := unlinked (pcbs s) l1 b). set (h2 := <[x := set_children (child_head l1 a b) a]> h1). set (s2 := set_pcbs h2 s). assert (h1 !! x = Some a) as Hx1 by (unfold h1; rewrite unlinked_ne; [done|set_solver]). assert (pcbs s2 !! y = Some b) as Hb2 by (change (h2 !! y = Some b); unfold h2; rewrite lookup_insert_ne by done; unfold h1; by rewrite unlinked_ne).
    assert (tcore s2 G k A) as Hc2 by (apply tcore_tree; [done|]; apply (same_but_tree_insert _ _ _ a); [apply unlinked_same|done|done]). destruct (destroy_run s2 G (reaped x y C) k A y b Hc2) as (s'&A'&E&Hi'&_&Hgone&_); try done.
    { by apply (reaped_tree (pcbs s) C x y a b l1 l2). }
    { change (g_current (tk_sched s) <> Some y). rewrite <-(si_same _ _ (ti_sched _ _ _ _ _ Hi)), Hcur. congruence. }
    exists (i32 (t_pid b)), (Some (t_exit_code b)), s'. split; [|left; exists l1, y, l2, b, A'; split_and!; try done; intros z d Hzl Hd; exact (proj1 (bool_decide_eq_false _) (Hconv _ H1 z d Hzl Hd))].
    match goal with |- mbind_ ?m ?f s = _ => transitivity (f (Some y, child_head l1 a b, h1) s) end; [unfold mlift, child_head, h1, unlinked, mbind_ at 1; by destruct (last l1)|]. cbn beta iota. rewrite (mbind_Some _ _ _ _ _ (pcb_run s y b Hb)).
    unfold mbind_ at 1, mmodify. rewrite (mbind_Some _ _ _ _ _ (upd_run (set_pcbs h1 s) x a (set_children (child_head l1 a b)) Hx1)). change (set_pcbs _ (set_pcbs h1 s)) with s2. rewrite (mbind_Some _ _ _ _ _ E). done.
Qed.
End Tree.
