(* ===== verification/TaskSys.v ===== *)
(** * Process system calls (src/kernel/syscall.c)

    fork, exit, wait, getpid, getppid and execve on the tasks of TaskLife.v.  A system call gets the register frame that
    syscall_entry.asm saved, as a list of 64-bit words. *)

From stdpp Require Import base numbers gmap list options.
From S2P Require Import Prelude LinkedList Task Mlfq Scheduler Pmm PageTable Vmm UserMem TaskLife.

(** User memory, as the system calls use it. *)
Class UserEnv (R : Type) := {
  ue_validate : Z -> Z -> M R bool;          (* validate_user_pointer(ptr, size) != 0 *)
  ue_write32 : Z -> Z -> M R unit            (* *(int * )ptr = v *)
}.

(** Word indices of the saved registers. *)
Definition SC_RSI : Z := 5.
Definition SC_RDI : Z := 6.
Definition SC_R11 : Z := 13.
Definition SC_RCX : Z := 14.

Section TaskSys.
Context {R : Type} `{!TaskEnv R} `{!UserEnv R} `{!Machine}.

(** [task_exit] and the endless [hlt] after it: the call does not return. *)
Definition sys_exit (frame : list Z) : M (tasks R) bool :=
  code <~ mlift (zget frame SC_RDI) ;; task_exit (i32 code).

Definition sys_getpid (frame : list Z) : M (tasks R) Z :=
  cur <~ task_get_current ;;
  match cur with None => return (-1) | Some x => t <~ pcb x ;; return (t_pid t) end.
Definition sys_getppid (frame : list Z) : M (tasks R) Z :=
  cur <~ task_get_current ;;
  match cur with
  | None => return 1
  | Some x => t <~ pcb x ;; match t_parent t with None => return 1 | Some p => tp <~ pcb p ;; return (t_pid tp) end
  end.

Definition sys_wait (frame : list Z) : M (tasks R) Z :=
  status_ptr <~ mlift (zget frame SC_RDI) ;;
  ok <~ (if status_ptr =? 0 then return true else on_env (ue_validate status_ptr 4)) ;;
  if negb ok then return (-1) else
  '(child_pid, st) <~ task_wait ;;
  mwhen (negb (status_ptr =? 0) && (0 <=? child_pid)) (on_env (ue_write32 status_ptr (default 0 st))) ;;;
  return child_pid.

Definition child_name : list Z := [99; 104; 105; 108; 100].
(** [for (i) if (parent->fd_table[i].ops) { child->fd_table[i] = parent->fd_table[i]; ...refcount++; }] *)
Definition dup_file (f g : file) : file :=
  match f_ops f with Some _ => File (f_ops f) (f_data f) (i32 (f_refcount f + 1)) (f_flags f) | None => g end.

(** The part of [sys_fork] after the child was created. *)
Definition fork_child (parent child : nat) (frame : list Z) : M (tasks R) Z :=
  pcb_upd child (set_parent (Some parent)) ;;;
  tp <~ pcb parent ;;
  pcb_upd child (set_sibling_next (t_children tp)) ;;;
  pcb_upd parent (set_children (Some child)) ;;;
  tp <~ pcb parent ;; tc <~ pcb child ;;
  st <~ on_env (te_clone_space (addr (t_address_space tp)) (addr (t_address_space tc))) ;;
  if negb (bool_decide (st = VMM_OK)) then task_destroy (Some child) ;;; return (-1) else
  user_rip <~ mlift (zget frame SC_RCX) ;; user_rflags <~ mlift (zget frame SC_R11) ;;
  pcb_upd child (set_fd_table (zip_with dup_file (t_fd_table tp) (t_fd_table tc))) ;;;
  let stack_top := stack_top_of tc in
  sp <~ pushes stack_top [user_task_iretq_trampoline; 0; 0; 0; 0; 0; 0] ;;
  pcb_upd child (set_kernel_rsp sp) ;;;
  let user_stack_top := u64 (t_user_stack_base tc + t_user_stack_size tc) in
  pushes sp [user_rip; GDT_USER_CS_SEL; user_rflags; user_stack_top; GDT_USER_DS_SEL] ;;;
  on_sched (scheduler_add_task (Some child)) ;;;
  return (t_pid tc).
Definition sys_fork (frame : list Z) : M (tasks R) Z :=
  cur <~ task_get_current ;;
  match cur with
  | None => return (-1)
  | Some parent =>
    c <~ task_create child_name 0 false ;;
    match c with None => return (-1) | Some child => fork_child parent child frame end
  end.

(** [syscall_set_kernel_rsp] *)
Definition set_cpu_rsp (rsp : Z) : M (tasks R) unit :=
  mmodify (fun s => let c := tk_sched s in
    set_sched (Sched (mq c) (g_current c) (g_idle_task c) (g_ready_count c) (g_sched_initialized c) (g_current_task c)
      (tss_rsp0 c) rsp (active_space c) (fpu c) (fpu_areas c)) s).

Definition sys_execve (frame : list Z) : M (tasks R) Z :=
  elf_addr <~ mlift (zget frame SC_RDI) ;; elf_size <~ mlift (zget frame SC_RSI) ;;
  cur <~ task_get_current ;;
  match cur with
  | None => return (-1)
  | Some x =>
    ok <~ on_env (ue_validate elf_addr elf_size) ;;
    if negb ok then return (-1) else
    new_as <~ on_env (te_slab_alloc sizeof_address_space) ;;
    if new_as =? 0 then return (-1) else
    st <~ on_env (te_create_space new_as) ;;
    if negb (bool_decide (st = VMM_OK)) then on_env (te_slab_free new_as) ;;; return (-1) else
    result <~ on_env (te_elf_load elf_addr elf_size new_as) ;;
    match result with
    | None => on_env (te_destroy_space new_as) ;;; on_env (te_slab_free new_as) ;;; return (-1)
    | Some (entry, top) =>
      t <~ pcb x ;;
      (match t_address_space t with
       | Some a => on_env (te_destroy_space (Z.of_nat a)) ;;; on_env (te_slab_free (Z.of_nat a))
       | None => return tt
       end) ;;;
      pcb_upd x (set_address_space (ptr new_as)) ;;;
      map_user_stack x ;;;
      pcb_upd x (set_user_heap (page_up top) (page_up top)) ;;;
      t <~ pcb x ;;
      sp <~ pushes (stack_top_of t) [user_task_iretq_trampoline; 0; 0; 0; 0; 0; 0] ;;
      let user_stack_top := u64 (t_user_stack_base t + t_user_stack_size t) in
      sp <~ pushes sp [entry; GDT_USER_CS_SEL; 0x202; user_stack_top; GDT_USER_DS_SEL] ;;
      pcb_upd x (set_kernel_rsp sp) ;;;
      set_cpu_rsp sp ;;;
      return 0
    end
  end.

End TaskSys.
