(* ===== verification/TaskSysSpec.v ===== *)
(** * fork, and the life of a process (the theorems on TaskSys.v) *)

From stdpp Require Import base numbers gmap list options.
From S2P Require Import Prelude LinkedList Task Mlfq Scheduler Pmm PageTable Vmm UserMem TaskLife TaskLifeSpec TaskTree TaskSys.
#[local] Set Default Proof Using "Type*".

Section Fork.
Context {R : Type} {TE : TaskEnv R} {UE : UserEnv R} {TL : TaskEnvLaws R} {MC : Machine}.
Implicit Types (s : tasks R) (h : gmap nat task) (c : sched) (k : held) (G : list nat) (C : nat -> list nat).

(** A new child at the head of the list of [x]. *)
Definition linked (x y : nat) (C : nat -> list nat) : nat -> list nat := fun z => if decide (z = x) then y :: C z else C z.
Lemma orphan_out h C y b z : tree h C -> h !! y = Some b -> t_parent b = None -> y ∉ C z.
Proof. intros Ht Hb Hp Hin. destruct (tr_down _ _ Ht z y Hin) as (_&d&Hd&Ed). congruence. Qed.
Lemma linked_tree h C x y a b : tree h C -> h !! x = Some a -> h !! y = Some b -> x <> y -> t_parent b = None ->
  tree (<[x := set_children (Some y) a]> (<[y := set_sibling_next (t_children a) (set_parent (Some x) b)]> h)) (linked x y C).
Proof.
  intros Ht Ha Hb Hne Hp. set (b' := set_sibling_next _ _). set (h2 := <[x := _]> _). assert (h2 !! y = Some b') as Hy by (unfold h2; rewrite lookup_insert_ne by done; apply lookup_insert_eq). assert (h2 !! x = Some (set_children (Some y) a)) as Hx by apply lookup_insert_eq.
  assert (forall z, z <> x -> z <> y -> h2 !! z = h !! z) as Hz by (intros z ? ?; unfold h2; by rewrite !lookup_insert_ne). assert (forall z, y ∉ C z) as Hout by (intros z; by apply (orphan_out h C y b z)).
  assert (forall p l, lseg link_sibling h p l None -> y ∉ l -> lseg link_sibling h2 p l None) as Hseg.
  { intros p l Hl Hyl. apply (lseg_frame _ h); [|done]. intros z Hzl. destruct (decide (z = x)) as [->|]; [by rewrite Hx, Ha|]. by rewrite Hz by (done || intros ->; done). }
  split.
  - intros z d Hd. unfold linked. case_decide as E; [subst z; rewrite Hx in Hd; injection Hd as <-|].
    + cbn [t_children set_children lseg]. split; [done|]. exists b'. split; [done|]. apply Hseg; [by apply (tr_seg _ _ Ht x)|done].
    + destruct (decide (z = y)) as [->|Hzy]; [rewrite Hy in Hd; injection Hd as <-; apply Hseg; [exact (tr_seg _ _ Ht y b Hb)|done]|]. rewrite Hz in Hd by done. apply Hseg; [by apply (tr_seg _ _ Ht z)|done].
  - intros z. unfold linked. case_decide; [apply NoDup_cons; split; [done|]|]; apply Ht.
  - intros z. unfold linked. case_decide; [subst; apply not_elem_of_cons; split; [done|]|]; apply Ht.
  - intros z q Hq. assert (q = y /\ z = x \/ q <> y /\ q ∈ C z) as [[-> ->]|[Hqy Hin]].
    { unfold linked in Hq. case_decide; [apply elem_of_cons in Hq as [->|Hq]; [by left|]|]; right; (split; [|done]); intros ->; by eapply Hout. }
    + split; [eauto|]. by exists b'.
    + destruct (tr_down _ _ Ht z q Hin) as ([e He]&d&Hd&Hpd). split.
      * destruct (decide (z = x)) as [->|]; [eauto|]. destruct (decide (z = y)) as [->|]; [eauto|]. rewrite Hz by done. eauto.
      * destruct (decide (q = x)) as [->|]; [exists (set_children (Some y) a); split; [done|]; cbn; congruence|]. exists d. by rewrite Hz.
  - intros q d z Hd Hpd. destruct (decide (q = y)) as [->|Hqy].
    + rewrite Hy in Hd. injection Hd as <-. injection Hpd as <-. unfold linked. rewrite decide_True by done. left.
    + assert (q ∈ C z) as Hin. { destruct (decide (q = x)) as [->|]; [rewrite Hx in Hd; injection Hd as <-; by apply (tr_up _ _ Ht x a)|]. rewrite Hz in Hd by done. by apply (tr_up _ _ Ht q d). }
      unfold linked. case_decide; [by right|done].
Qed.

(** The child's PCB when it is handed to the scheduler. *)
Definition forked (x : nat) (a b : task) (rsp : Z) : task :=
  set_kernel_rsp rsp (set_fd_table (zip_with dup_file (t_fd_table a) (t_fd_table b)) (set_sibling_next (t_children a) (set_parent (Some x) b))).

Lemma tcore_env s G k A w r' : tcore s G k A -> env_rep r' k -> tcore (set_env r' (set_stack w s)) G k A.
Proof. intros [] Hr. by split. Qed.
Lemma fork_child_run s G C k A x y a b rip rflags frame : tinv s G C k A -> pcbs s !! x = Some a -> pcbs s !! y = Some b -> x <> y -> y ∈ G -> t_parent b = None -> y ∉ queued A ->
  t_is_kernel a = false -> t_is_kernel b = false -> zget frame SC_RCX = Some rip -> zget frame SC_R11 = Some rflags ->
  0 <= t_kernel_stack_base b -> 112 <= t_kernel_stack_size b -> t_kernel_stack_base b + t_kernel_stack_size b < 2 ^ 64 ->
  exists v s', fork_child x y frame s = Some (v, s') /\
    ((v = -1 /\ t_children <$> pcbs s' !! x = Some (Some y) /\ pcbs s' !! y = None) \/
     (v = t_pid b /\ exists A' q, tinv s' G (linked x y C) k A' /\ y ∈ queued A' /\ pcbs s' !! y = Some (enqueued 0 q (forked x a b (stack_top_of b - 56))) /\
        tk_stack s' = push_words (stack_top_of b) [user_task_iretq_trampoline; 0; 0; 0; 0; 0; 0; rip; GDT_USER_CS_SEL; rflags; u64 (t_user_stack_base b + t_user_stack_size b); GDT_USER_DS_SEL] (tk_stack s))).
Proof.
  intros Hi Ha Hb Hxy HyG Hpb Hq Hka Hkb Hrip Hfl H0 H1 H2. pose proof Hi as [Hc Ht]%tinv_core. unfold fork_child. set (b1 := set_parent (Some x) b). set (b2 := set_sibling_next (t_children a) b1). set (a2 := set_children (Some y) a).
  rewrite (mbind_Some _ _ _ _ _ (upd_run s y b _ Hb)). set (s1 := set_pcbs (<[y := b1]> (pcbs s)) s). assert (pcbs s1 !! x = Some a) as Ha1 by (change (<[y := b1]> (pcbs s) !! x = Some a); by rewrite lookup_insert_ne).
  rewrite (mbind_Some _ _ _ _ _ (pcb_run s1 x a Ha1)). rewrite (mbind_Some _ _ _ _ _ (upd_run s1 y b1 (set_sibling_next (t_children a)) (lookup_insert_eq _ _ _))). change (pcbs s1) with (<[y := b1]> (pcbs s)). rewrite insert_insert_eq.
  set (h2 := <[y := b2]> (pcbs s)). assert (h2 !! x = Some a) as Ha2 by (unfold h2; by rewrite lookup_insert_ne). rewrite (mbind_Some _ _ _ _ _ (upd_run (set_pcbs h2 s1) x a (set_children (Some y)) Ha2)). change (pcbs (set_pcbs h2 s1)) with h2. fold a2.
  set (h3 := <[x := a2]> h2). set (s3 := set_pcbs h3 s). change (set_pcbs h3 (set_pcbs h2 s1)) with s3. assert (pcbs s3 !! x = Some a2) as Ha3 by apply lookup_insert_eq. assert (pcbs s3 !! y = Some b2) as Hb3 by (change (h3 !! y = Some b2); unfold h3; rewrite lookup_insert_ne by done; apply lookup_insert_eq).
  assert (tree h3 (linked x y C)) as Ht3 by (by apply linked_tree). assert (tcore s3 G k A) as Hc3.
  { apply tcore_tree; [done|]. apply (same_but_tree_insert _ _ _ a); [by apply (same_but_tree_insert _ _ _ b)|done|done]. }
  rewrite (mbind_Some _ _ _ _ _ (pcb_run s3 x a2 Ha3)), (mbind_Some _ _ _ _ _ (pcb_run s3 y b2 Hb3)). change (t_address_space a2) with (t_address_space a). change (t_address_space b2) with (t_address_space b). pose proof (mo_owns _ _ (tc_mem _ _ _ _ Hc)) as Ho.
  destruct (ow_space _ _ _ (Ho x a Ha) Hka) as (pa&Epa&Hpa), (ow_space _ _ _ (Ho y b Hb) Hkb) as (pb&Epb&Hpb'). rewrite Epa, Epb. cbn [addr]. destruct (law_clone (tk_env s3) k _ _ (tc_env _ _ _ _ Hc) Hpa Hpb') as (st&r'&Ecl&Hr').
  pose proof (env_mk _ (tk_sched s) h3 (g_next_pid s) (g_init_task s) (g_task_list s) (tk_stack s) (tk_env s) _ _ Ecl) as E4. rewrite (mbind_Some _ _ _ _ _ E4). set (s4 := mk (tk_sched s) h3 (g_next_pid s) (g_init_task s) (g_task_list s) (tk_stack s) r') in *.
  destruct (decide (st = VMM_OK)) as [Hst|Hst]; [rewrite bool_decide_eq_true_2 by done|rewrite bool_decide_eq_false_2 by done]; cbn [negb].
  2: { destruct (destroy_mk (tk_sched s) h3 (g_next_pid s) (g_init_task s) (g_task_list s) (tk_stack s) r' k y b2 G (tc_list _ _ _ _ Hc3) (tc_nodup _ _ _ _ Hc) HyG Hb3 (tc_fds _ _ _ _ Hc y b Hb) Hr' (mo_owns _ _ (tc_mem _ _ _ _ Hc3) y b2 Hb3)) as (h'&l'&r2&E5&_&Hs5&_).
       rewrite (mbind_Some _ _ _ _ _ E5). exists (-1). eexists. split; [reflexivity|]. left. split; [done|]. split; [|apply lookup_delete_eq]. change (t_children <$> delete y h' !! x = Some (Some y)).
       rewrite (same_but_g_view t_children (delete y h3) (delete y h') x) by done. rewrite lookup_delete_ne by done. unfold h3. by rewrite lookup_insert_eq. }
  rewrite Hrip, Hfl. unfold mlift at 1, mbind_ at 1. unfold mlift at 1, mbind_ at 1. assert (pcbs s4 !! y = Some b2) as Hb4 by exact Hb3. rewrite (mbind_Some _ _ _ _ _ (upd_run s4 y b2 _ Hb4)). change (t_fd_table a2) with (t_fd_table a). change (t_fd_table b2) with (t_fd_table b).
  set (b3 := set_fd_table _ b2). change (stack_top_of b2) with (stack_top_of b). pose proof (stack_top_range b H0 ltac:(lia) H2) as [Htop _]. set (vs1 := [user_task_iretq_trampoline; 0; 0; 0; 0; 0; 0]). set (h5 := <[y := b3]> (pcbs s4)).
  pose proof (pushes_mk (tk_sched s) h5 (g_next_pid s) (g_init_task s) (g_task_list s) (tk_stack s) r' vs1 (stack_top_of b) ltac:(simpl; lia)) as E6. rewrite (mbind_Some _ _ _ _ _ E6). change (8 * Z.of_nat (length vs1)) with 56 in *. set (w1 := push_words (stack_top_of b) vs1 (tk_stack s)).
  rewrite (mbind_Some _ _ _ _ _ (upd_mk (tk_sched s) h5 (g_next_pid s) (g_init_task s) (g_task_list s) w1 r' y b3 (set_kernel_rsp (stack_top_of b - 56)) (lookup_insert_eq _ _ _))). unfold h5. rewrite insert_insert_eq. set (b4 := set_kernel_rsp _ b3). change (t_user_stack_base b2) with (t_user_stack_base b). change (t_user_stack_size b2) with (t_user_stack_size b).
  set (vs2 := [rip; GDT_USER_CS_SEL; rflags; u64 (t_user_stack_base b + t_user_stack_size b); GDT_USER_DS_SEL]). set (h6 := <[y := b4]> (pcbs s4)). pose proof (pushes_mk (tk_sched s) h6 (g_next_pid s) (g_init_task s) (g_task_list s) w1 r' vs2 (stack_top_of b - 56) ltac:(simpl; lia)) as E7.
  rewrite (mbind_Some _ _ _ _ _ E7). assert (push_words (stack_top_of b - 56) vs2 w1 = push_words (stack_top_of b) (vs1 ++ vs2) (tk_stack s)) as -> by (by rewrite push_words_app).
  set (w2 := push_words (stack_top_of b) (vs1 ++ vs2) (tk_stack s)). set (s7 := mk (tk_sched s) h6 (g_next_pid s) (g_init_task s) (g_task_list s) w2 r').
  assert (nfds b3 = nfds b2) as Efd. { unfold nfds, b3. cbn [t_fd_table set_fd_table]. rewrite length_zip_with. change (t_fd_table b2) with (t_fd_table b). rewrite (tc_fds _ _ _ _ Hc x a Ha), (tc_fds _ _ _ _ Hc y b Hb). apply Nat.min_id. }
  assert (tcore s7 G k A) as Hc7. { apply (tcore_env (set_pcbs h6 s3) G k A w2 r'); [|done]. apply (tcore_upd s3 G k A y b2 b4 Hc3 Hb3). unfold kept. change (nfds b4) with (nfds b3). rewrite Efd. done. }
  assert (tree (pcbs s7) (linked x y C)) as Ht7 by (apply (tree_upd s3 _ y b2 b4); done).
  destruct (add_run s7 G (linked x y C) k A y b4 Hc7 Ht7 (lookup_insert_eq _ _ _) Hq) as (s8&A8&q&E8&Hc8&Ht8&_&Hb8&Hq8&c8&Es8&_). rewrite (mbind_Some _ _ _ _ _ E8). exists (t_pid b), s8. split; [done|]. right. split; [done|]. exists A8, q.
  split; [by apply tinv_core|]. split; [apply Hq8; by right|]. split; [exact Hb8|]. by rewrite Es8.
Qed.

Lemma sys_fork_ok s G C k A x a rip rflags frame : tinv s G C k A -> g_current_task (tk_sched s) = Some x -> pcbs s !! x = Some a -> t_is_kernel a = false ->
  g_next_pid s + 1 < 2 ^ 64 -> Z.of_nat (size (pcbs s)) + 1 < 2 ^ 32 -> g_next_pid s <> 1 -> zget frame SC_RCX = Some rip -> zget frame SC_R11 = Some rflags ->
  exists v s', sys_fork frame s = Some (v, s') /\
    ((v = -1 /\ tinv s' G C k A /\ pcbs s' = pcbs s) \/
     (v = -1 /\ exists y, pcbs s !! y = None /\ t_children <$> pcbs s' !! x = Some (Some y) /\ pcbs s' !! y = None) \/
     (v = g_next_pid s /\ exists y b b' A', tinv s' (y :: G) (linked x y C) (with_task y b k) A' /\ y ∈ queued A' /\ pcbs s !! y = None /\ pcbs s' !! y = Some b' /\
        t_pid b' = g_next_pid s /\ t_parent b' = Some x /\ t_state b' = TASK_STATE_READY /\ t_fd_table b' = zip_with dup_file (t_fd_table a) (t_fd_table b) /\
        exists T, t_kernel_rsp b' = T - 56 /\ T mod 16 = 0 /\ t_kernel_stack_base b' + t_kernel_stack_size b' - 16 < T <= t_kernel_stack_base b' + t_kernel_stack_size b' /\
          exists w, tk_stack s' = push_words T [user_task_iretq_trampoline; 0; 0; 0; 0; 0; 0; rip; GDT_USER_CS_SEL; rflags; u64 (TASK_USER_STACK_BASE + TASK_USER_STACK_SIZE); GDT_USER_DS_SEL] w)).
Proof.
  intros Hi Hcur Ha Hk Hn Hsz Hne Hrip Hfl. unfold sys_fork, task_get_current, mbind_ at 1, mgets. rewrite Hcur. destruct (task_create_ok s G C k A child_name 0 false Hi Hn Hsz) as (o&s1&E1&Ho). rewrite (mbind_Some _ _ _ _ _ E1). destruct o as [y|].
  2: { destruct Ho as (Ep&_&_&Hi'). exists (-1), s1. split; [done|]. left. split_and!; [done|by apply Hi'|done]. }
  destruct Ho as (f&base&space&A1&Hy&Hbnd&Ep&_&Hi1&Hq1&Hc1). set (b := created _ _ _ _ f base space 0) in *. assert (x <> y) as Hxy by congruence. assert (pcbs s1 !! y = Some b) as Hb by (rewrite Ep; apply lookup_insert_eq).
  destruct (ow_plain _ _ _ (mo_owns _ _ (ti_mem _ _ _ _ _ Hi1) y b Hb)) as (_&_&Hbase). change (t_kernel_stack_base b) with base in Hbase. assert (y ∉ queued A1) as Hq by (rewrite Hq1; intros Hin; destruct (queued_pcb s G C k A y Hi Hin); congruence).
  destruct (fork_child_run s1 (y :: G) C (with_task y b k) A1 x y a b rip rflags frame Hi1) as (v&s2&E2&Hcase); try done; [by rewrite Ep, lookup_insert_ne|left|change (t_kernel_stack_base b) with base; lia|].
  exists v, s2. split; [done|]. right. destruct Hcase as [(->&Hch&Hgone)|(->&A2&q&Hi2&Hq2&Hb2&Hst)]; [left; split; [done|]; by exists y|right]. split; [done|]. exists y, b. eexists _, A2. split; [done|]. split; [done|]. split; [done|]. split; [exact Hb2|].
  split; [done|]. split; [done|]. split; [done|]. split; [done|]. pose proof (stack_top_range b) as Htop. change (t_kernel_stack_base b) with base in Htop. change (t_kernel_stack_size b) with TASK_KERNEL_STACK_SIZE in Htop. destruct Htop as [Htop Hal]; [lia|done|done|].
  exists (stack_top_of b). split; [done|]. split; [done|]. split; [exact Htop|]. by exists (tk_stack s1).
Qed.

(** C26: [sys_fork] of a user task.  When the child cannot be created nothing changes; when the address space cannot be
    cloned it returns -1 as well, but the parent keeps a pointer to the child it just freed; otherwise it returns the child's
    PID, and the child is the first in its parent's list, ready and queued, with the parent's open files counted once more.
    The frame for the trampoline lies below the child's saved stack pointer, whose return leaves the stack empty. *)
Theorem sys_fork_exact s G C k A x a rip rflags frame : tinv s G C k A -> g_current_task (tk_sched s) = Some x -> pcbs s !! x = Some a -> t_is_kernel a = false ->
  g_next_pid s + 1 < 2 ^ 64 -> Z.of_nat (size (pcbs s)) + 1 < 2 ^ 32 -> g_next_pid s <> 1 -> zget frame SC_RCX = Some rip -> zget frame SC_R11 = Some rflags ->
  exists v s', sys_fork frame s = Some (v, s') /\
    ((v = -1 /\ tinv s' G C k A /\ pcbs s' = pcbs s) \/
     (v = -1 /\ exists y, pcbs s !! y = None /\ t_children <$> pcbs s' !! x = Some (Some y) /\ pcbs s' !! y = None) \/
     (v = g_next_pid s /\ exists y b b' A', tinv s' (y :: G) (linked x y C) (with_task y b k) A' /\ y ∈ queued A' /\ pcbs s !! y = None /\ pcbs s' !! y = Some b' /\
        t_pid b' = g_next_pid s /\ t_parent b' = Some x /\ t_state b' = TASK_STATE_READY /\ t_fd_table b' = zip_with dup_file (t_fd_table a) (t_fd_table b) /\
        exists T, t_kernel_rsp b' = T - 56 /\ T mod 16 = 0 /\ t_kernel_stack_base b' + t_kernel_stack_size b' - 16 < T <= t_kernel_stack_base b' + t_kernel_stack_size b' /\
          exists w, tk_stack s' = push_words T [user_task_iretq_trampoline; 0; 0; 0; 0; 0; 0; rip; GDT_USER_CS_SEL; rflags; u64 (TASK_USER_STACK_BASE + TASK_USER_STACK_SIZE); GDT_USER_DS_SEL] w)).
Proof. apply sys_fork_ok. Qed.
End Fork.
