(* ===== verification/TaskDemo.v ===== *)
(** * The theorems on tasks, on a machine that runs

    A concrete allocator and memory manager that satisfy [TaskEnvLaws], and a kernel that boots, creates init, forks a
    child that exits, and waits for it. *)

From stdpp Require Import base numbers gmap list options.
From S2P Require Import Prelude LinkedList Task Mlfq Scheduler Pmm PageTable Vmm UserMem TaskLife TaskLifeSpec TaskTree TaskSys TaskSysSpec.

(** Addresses are handed out one after the other, up to a limit; an address space is a set of addresses. *)
Record bump := Bump { bp_next : Z; bp_limit : Z; bp_clone : vmm_status; bp_held : held }.
Definition bump_set (k : held) (b : bump) : bump := Bump (bp_next b) (bp_limit b) (bp_clone b) k.
Definition bump_alloc (f : Z -> held -> held) : M bump Z := fun b =>
  if bp_limit b <=? bp_next b then Some (0, b) else Some (bp_next b, Bump (bp_next b + 1) (bp_limit b) (bp_clone b) (f (bp_next b) (bp_held b))).
Definition bump_upd (f : held -> held) : M bump unit := mmodify (fun b => bump_set (f (bp_held b)) b).
#[global] Instance bump_env : TaskEnv bump := {
  te_slab_alloc := fun _ => bump_alloc (fun a k => Held ({[a]} ∪ hl_slab k) (hl_heap k) (hl_space k));
  te_slab_free := fun a => bump_upd (fun k => Held (hl_slab k ∖ {[a]}) (hl_heap k) (hl_space k));
  te_kmalloc := fun _ => bump_alloc (fun a k => Held (hl_slab k) ({[a]} ∪ hl_heap k) (hl_space k));
  te_kfree := fun a => bump_upd (fun k => Held (hl_slab k) (hl_heap k ∖ {[a]}) (hl_space k));
  te_kernel_space := return 0;
  te_create_space := fun a => bump_upd (fun k => Held (hl_slab k) (hl_heap k) ({[a]} ∪ hl_space k)) ;;; return VMM_OK;
  te_destroy_space := fun a => bump_upd (fun k => Held (hl_slab k) (hl_heap k) (hl_space k ∖ {[a]}));
  te_map_demand := fun _ _ _ => return tt;
  te_clone_space := fun _ _ => mgets bp_clone;
  te_elf_load := fun _ _ _ => return (Some (0x400000, 0x401234));
  te_close := fun _ _ _ => return tt
}.
Definition bump_rep (b : bump) (k : held) : Prop := bp_held b = k /\ 1 <= bp_next b /\ bp_limit b <= 2 ^ 20 /\
  (forall z, z ∈ hl_slab k \/ z ∈ hl_heap k -> z < bp_next b) /\ hl_space k ⊆ hl_slab k.
Lemma bump_alloc_law (f : Z -> held -> held) b k : bump_rep b k -> (forall a, (forall z, z ∈ hl_slab (f a k) \/ z ∈ hl_heap (f a k) -> z = a \/ z ∈ hl_slab k \/ z ∈ hl_heap k) /\ hl_space (f a k) ⊆ hl_slab (f a k)) ->
  exists a b', bump_alloc f b = Some (a, b') /\ (a = 0 /\ bump_rep b' k \/ 0 < a < 2 ^ 20 /\ a ∉ hl_slab k /\ a ∉ hl_heap k /\ bump_rep b' (f a k)).
Proof.
  intros (<-&H1&H2&H3&H4) Hf. unfold bump_alloc. destruct (Z.leb_spec (bp_limit b) (bp_next b)); eexists _, _; (split; [reflexivity|]); [left; by repeat split|right].
  split; [lia|]. split; [intros Hz; specialize (H3 _ (or_introl Hz)); lia|]. split; [intros Hz; specialize (H3 _ (or_intror Hz)); lia|]. destruct (Hf (bp_next b)) as [F1 F2]. split_and!; try done; cbn; [lia|].
  intros z [-> |Hz]%F1; [lia|]. specialize (H3 z Hz). lia.
Qed.
Lemma bump_upd_law (f : held -> held) b k : bump_rep b k -> (forall z, z ∈ hl_slab (f k) \/ z ∈ hl_heap (f k) -> z ∈ hl_slab k \/ z ∈ hl_heap k) -> hl_space (f k) ⊆ hl_slab (f k) ->
  exists b', bump_upd f b = Some (tt, b') /\ bump_rep b' (f k).
Proof. intros (<-&H1&H2&H3&H4) F1 F2. eexists. split; [reflexivity|]. split_and!; try done. intros z Hz. by apply H3, F1. Qed.

#[global] Program Instance bump_laws : TaskEnvLaws bump := {| env_rep := bump_rep |}.
Next Obligation.
  intros r k n Hr Hn. destruct (bump_alloc_law (fun a k => Held ({[a]} ∪ hl_slab k) (hl_heap k) (hl_space k)) r k Hr) as (a&b'&E&Hc); [intros a; cbn; destruct Hr as (_&_&_&_&?); set_solver|].
  exists a, b'. split; [exact E|]. destruct Hc as [Hc|(?&?&?&?)]; [by left|right; split_and!; try done; lia].
Qed.
Next Obligation. intros r k a Hr Ha Hs. apply (bump_upd_law (fun k => Held (hl_slab k ∖ {[a]}) (hl_heap k) (hl_space k))); [done|cbn; set_solver|cbn; destruct Hr as (_&_&_&_&?); set_solver]. Qed.
Next Obligation.
  intros r k n Hr Hn. destruct (bump_alloc_law (fun a k => Held (hl_slab k) ({[a]} ∪ hl_heap k) (hl_space k)) r k Hr) as (a&b'&E&Hc); [intros a; cbn; destruct Hr as (_&_&_&_&?); set_solver|].
  exists a, b'. split; [exact E|]. destruct Hc as [Hc|(?&?&?&?)]; [by left|right; split_and!; try done; lia].
Qed.
Next Obligation. intros r k a Hr Ha. apply (bump_upd_law (fun k => Held (hl_slab k) (hl_heap k ∖ {[a]}) (hl_space k))); [done|cbn; set_solver|cbn; by destruct Hr as (_&_&_&_&?)]. Qed.
Next Obligation. intros r k Hr. by exists 0, r. Qed.
Next Obligation.
  intros r k a Hr Ha Hs. destruct (bump_upd_law (fun k => Held (hl_slab k) (hl_heap k) ({[a]} ∪ hl_space k)) r k Hr) as (r'&E&Hr'); [done|cbn; destruct Hr as (_&_&_&_&?); set_solver|].
  exists VMM_OK, r'. split; [|done]. cbn [te_create_space bump_env]. rewrite (mbind_Some _ _ _ _ _ E). done.
Qed.
Next Obligation. intros r k a Hr Ha. apply (bump_upd_law (fun k => Held (hl_slab k) (hl_heap k) (hl_space k ∖ {[a]}))); [done|done|cbn; destruct Hr as (_&_&_&_&?); set_solver]. Qed.
Next Obligation. intros r k a va fl Hr _. by exists r. Qed.
Next Obligation. intros r k a b Hr _ _. by eexists _, r. Qed.
Next Obligation. intros r k d n a Hr _. by eexists _, r. Qed.
Next Obligation. intros r k o i d Hr. by exists r. Qed.
Next Obligation. intros r k Hr. apply Hr. Qed.
#[global] Instance demo_machine : Machine := { fninit := fun _ => 0; user_task_iretq_trampoline := 0x1000; idle_task_entry := 0x2000 }.
#[global] Instance demo_user : UserEnv bump := { ue_validate := fun _ _ => return true; ue_write32 := fun _ _ => return tt }.

(** ** The history of a kernel *)

(** The state after a call that returned. *)
Definition after {S A} (c : M S A) (s : S) : S := match c s with Some (_, s') => s' | None => s end.
Lemma after_run {S A} (c : M S A) (s : S) a : (fun r => r.1) <$> c s = Some a -> c s = Some (a, after c s).
Proof. unfold after. destruct (c s) as [[b s']|]; [|done]. cbn. by intros [= ->]. Qed.

Lemma same_result {S A} (m : option (A * S)) a b s t : m = Some (a, s) -> m = Some (b, t) -> a = b /\ s = t.
Proof. by intros -> [= <- <-]. Qed.

Definition no_blocks : held := Held ∅ ∅ ∅.
Definition demo0 : tasks bump := Tasks (Sched (Mlfq ∅ [] 0 0) None None 0 false None 0 0 None 0 ∅) 1 None None ∅ (Bump 1 1000 VMM_OK no_blocks).
Lemma demo0_rep : env_rep (tk_env demo0) no_blocks.
Proof. split_and!; try done. cbn. intros z [[]%elem_of_empty|[]%elem_of_empty]. Qed.
Definition demo1 : tasks bump := after tasks_boot demo0.
Lemma demo1_boot : tasks_boot demo0 = Some (true, demo1).
Proof. refine (after_run _ _ _ _). vm_compute. reflexivity. Qed.
Lemma tasks_boot_sound_witness : exists x f base space b A, booted demo1 x f base space b A.
Proof.
  destruct (tasks_boot_sound demo0 no_blocks) as (b&s'&E&H); [reflexivity|reflexivity|reflexivity|exact demo0_rep|]. destruct (same_result _ _ _ _ _ E demo1_boot) as [-> ->]. destruct H as (x&f&base&space&A&b&H&_). exists x, f, base, space, b, A. exact H.
Defined.
Definition sound (s : tasks bump) : Prop := exists G C k A, tinv s G C k A.
Lemma demo1_sound : exists x a A, tinv demo1 [] (fun _ => []) (with_task x a no_blocks) A.
Proof.
  destruct (tasks_boot_ok demo0 no_blocks) as (b&s'&E&H); [reflexivity|reflexivity|reflexivity|exact demo0_rep|]. rewrite demo1_boot in E. injection E as <- <-. destruct H as (x&f&base&space&A&b&_&H). eauto.
Qed.
Lemma small_heap (s : tasks bump) (n : nat) : size (pcbs s) = n -> (n < 1000)%nat -> Z.of_nat (size (pcbs s)) + 1 < 2 ^ 32.
Proof. lia. Qed.

(** init, PID 1 *)
Definition init_name : list Z := [105; 110; 105; 116].
Definition demo2 : tasks bump := after (task_create init_name 0x400000 false) demo1.
Lemma demo2_create : task_create init_name 0x400000 false demo1 = Some (Some 4%nat, demo2).
Proof. refine (after_run _ _ _ _). vm_compute. reflexivity. Qed.
#[local] Opaque demo1 demo2.
Lemma task_create_exact_witness : exists o s', task_create init_name 0x400000 false demo1 = Some (o, s').
Proof.
  destruct demo1_sound as (x&a&A&Hi). destruct (task_create_exact demo1 _ _ _ _ init_name 0x400000 false Hi) as (o&s'&E&_); [vm_compute; reflexivity|vm_compute; reflexivity|].
  exists o, s'. exact E.
Defined.
Lemma demo2_sound : exists k A f b p, let a := created 1 init_name false None f b p 0x400000 in tinv demo2 [4%nat] (fun _ => []) k A /\ pcbs demo2 !! 4%nat = Some a.
Proof.
  destruct demo1_sound as (x&a&A&Hi). destruct (task_create_ok demo1 _ _ _ _ init_name 0x400000 false Hi) as (o&s'&E&Ho); [vm_compute; reflexivity|vm_compute; reflexivity|].
  destruct (same_result _ _ _ _ _ E demo2_create) as [-> ->]. destruct Ho as (f&b&p&A'&_&_&Ep&_&Hi'&_). change (g_next_pid demo1) with 1 in *. exists (with_task 4 (created 1 init_name false (g_task_list demo1) f b p 0x400000) (with_task x a no_blocks)), A', f, b, p.
  assert (g_task_list demo1 = None) as El by (vm_compute; reflexivity). rewrite <-El. split; [exact Hi'|]. rewrite Ep. apply lookup_insert_eq.
Qed.

(** The scheduler switches to a task: it leaves its queue and is current. *)
Definition dispatch (x : nat) : M (tasks bump) unit := on_sched (fun c =>
  q ← mlfq_dequeue (Some x) (mq c);
  Some (Sched (alter_task (set_state TASK_STATE_RUNNING) x q) (Some x) (g_idle_task c) (g_ready_count c) (g_sched_initialized c) (Some x)
    (tss_rsp0 c) (cpu_kernel_rsp c) (active_space c) (fpu c) (fpu_areas c))).
Lemma dispatch_run s G C k A x a : tinv s G C k A -> pcbs s !! x = Some a ->
  exists s' A', dispatch x s = Some (tt, s') /\ tinv s' G C k A' /\ forall y, y ∈ queued A' <-> y ∈ queued A /\ y <> x.
Proof.
  intros [Hc Ht]%tinv_core Ha. pose proof (tc_sched _ _ _ _ Hc) as Hs. pose proof (si_abs _ _ Hs) as Habs. assert (op_pre (OpDequeue x) A) as Hpre by (apply (abs_pre _ A x Habs); exists a; exact Ha).
  destruct (op_simulates _ _ _ Habs Hpre) as (q&Eq&Hq). assert (froz (heap (mq (tk_sched s))) (heap q)) as Hfz by (intros y; by apply (op_frozen (OpDequeue x) (mq (tk_sched s)) A q y Habs)).
  set (c' := Sched (alter_task (set_state TASK_STATE_RUNNING) x q) (Some x) (g_idle_task (tk_sched s)) (g_ready_count (tk_sched s)) (g_sched_initialized (tk_sched s)) (Some x) (tss_rsp0 (tk_sched s)) (cpu_kernel_rsp (tk_sched s)) (active_space (tk_sched s)) (fpu (tk_sched s)) (fpu_areas (tk_sched s))).
  assert (froz (pcbs s) (heap (mq c'))) as Hfz' by (refine (froz_trans _ _ _ Hfz (froz_alter _ _ _ _)); done). exists (set_sched c' s), (spec_op (OpDequeue x) A). split; [unfold dispatch, on_sched; cbn in Eq; by rewrite Eq|]. split; [|intros y; apply queued_dequeue].
  apply tinv_core. split; [|by apply (tree_froz (pcbs s))]. apply (tcore_sched s G k A); [done| |done]. apply (inv_step (tk_sched s) c' A _ x); try done; [by apply alter_abs|apply Hs].
Qed.

Definition fork_frame : list Z := replicate 15 0x400100.
Definition demo3 : tasks bump := after (dispatch 4) demo2.
Lemma demo3_run : dispatch 4 demo2 = Some (tt, demo3).
Proof. refine (after_run _ _ _ _). vm_compute. reflexivity. Qed.
Definition demo4 : tasks bump := after (sys_fork fork_frame) demo3.
Lemma demo4_run : sys_fork fork_frame demo3 = Some (2, demo4).
Proof. refine (after_run _ _ _ _). vm_compute. reflexivity. Qed.
#[local] Opaque demo3 demo4.
Lemma demo3_sound : exists k A, tinv demo3 [4%nat] (fun _ => []) k A.
Proof.
  destruct demo2_sound as (k&A&f&b&p&Hi&Ha). destruct (dispatch_run demo2 _ _ _ _ 4%nat _ Hi Ha) as (s'&A'&E&Hi'&_). destruct (same_result _ _ _ _ _ E demo3_run) as [_ ->]. eauto.
Qed.
(** A field of a PCB of a concrete state. *)
Lemma field_of {X} (s : tasks bump) (x : nat) (f : task -> X) v : f <$> pcbs s !! x = Some v -> exists a, pcbs s !! x = Some a /\ f a = v.
Proof. destruct (pcbs s !! x) as [a|]; [|done]. intros [= <-]. eauto. Qed.
Lemma sys_fork_exact_witness : exists v s', sys_fork fork_frame demo3 = Some (v, s').
Proof.
  destruct demo3_sound as (k&A&Hi). destruct (field_of demo3 4 t_is_kernel false) as (a&Ha&Hk); [vm_compute; reflexivity|].
  destruct (sys_fork_exact demo3 _ _ _ _ 4%nat a 0x400100 0x400100 fork_frame Hi) as (v&s'&E&_); [vm_compute; reflexivity|exact Ha|exact Hk|vm_compute; reflexivity|vm_compute; reflexivity|vm_compute; discriminate|vm_compute; reflexivity|vm_compute; reflexivity|]. exists v, s'. exact E.
Defined.
Lemma demo4_sound : exists k A, tinv demo4 [8%nat; 4%nat] (linked 4 8 (fun _ => [])) k A.
Proof.
  destruct demo3_sound as (k&A&Hi). destruct (field_of demo3 4 t_is_kernel false) as (a&Ha&Hk); [vm_compute; reflexivity|].
  destruct (sys_fork_ok demo3 _ _ _ _ 4%nat a 0x400100 0x400100 fork_frame Hi) as (v&s'&E&Hc); [vm_compute; reflexivity|exact Ha|exact Hk|vm_compute; reflexivity|vm_compute; reflexivity|vm_compute; discriminate|vm_compute; reflexivity|vm_compute; reflexivity|].
  destruct (same_result _ _ _ _ _ E demo4_run) as [-> ->]. destruct Hc as [[Hv _]|[[Hv _]|(_&y&b&b'&A'&Hi'&_)]]; [discriminate Hv|discriminate Hv|].
  assert (g_task_list demo4 = Some 8%nat) as El by (vm_compute; reflexivity). pose proof (lseg_head _ _ _ _ (ti_list _ _ _ _ _ Hi')) as Eh. rewrite El in Eh. injection Eh as <-. eauto.
Qed.

Definition demo5 : tasks bump := after (dispatch 8) demo4.
Lemma demo5_run : dispatch 8 demo4 = Some (tt, demo5).
Proof. refine (after_run _ _ _ _). vm_compute. reflexivity. Qed.
#[local] Opaque demo5.
Lemma demo5_sound : exists k A, tinv demo5 [8%nat; 4%nat] (linked 4 8 (fun _ => [])) k A /\ 8%nat ∉ queued A.
Proof.
  destruct demo4_sound as (k&A&Hi). destruct (field_of demo4 8 t_pid 2) as (a&Ha&_); [vm_compute; reflexivity|].
  destruct (dispatch_run demo4 _ _ _ _ 8%nat _ Hi Ha) as (s'&A'&E&Hi'&Hq). destruct (same_result _ _ _ _ _ E demo5_run) as [_ ->]. exists k, A'. split; [exact Hi'|]. intros Hin. exact (proj2 (proj1 (Hq 8%nat) Hin) eq_refl).
Qed.
Lemma linked_48 : linked 4 8 (fun _ => []) 8 = [] /\ linked 4 8 (fun _ => []) 4 = [8%nat].
Proof. done. Qed.
Definition demo6 : tasks bump := after (task_exit 7) demo5.
Lemma demo6_run : task_exit 7 demo5 = Some (true, demo6).
Proof. refine (after_run _ _ _ _). vm_compute. reflexivity. Qed.
#[local] Opaque demo6.
(** What exit needs of the child. *)
Lemma demo5_exit : exists k A a, tinv demo5 [8%nat; 4%nat] (linked 4 8 (fun _ => [])) k A /\ 8%nat ∉ queued A /\ g_current_task (tk_sched demo5) = Some 8%nat /\ pcbs demo5 !! 8%nat = Some a /\ t_parent a = Some 4%nat /\
  g_init_task demo5 = Some 4%nat /\ (forall p b, t_parent a = Some p -> pcbs demo5 !! p = Some b -> t_state b = TASK_STATE_BLOCKED -> p ∉ queued A).
Proof.
  destruct demo5_sound as (k&A&Hi&Hq). destruct (field_of demo5 8 t_parent (Some 4%nat)) as (a&Ha&Hp); [vm_compute; reflexivity|]. exists k, A, a. split; [exact Hi|]. split; [exact Hq|]. split; [vm_compute; reflexivity|]. split; [exact Ha|]. split; [exact Hp|]. split; [vm_compute; reflexivity|].
  intros p b Ep Hb Hs. rewrite Hp in Ep. injection Ep as <-. destruct (field_of demo5 4 t_state TASK_STATE_RUNNING) as (d&Hd&Es); [vm_compute; reflexivity|]. rewrite Hd in Hb. injection Hb as ->. rewrite Es in Hs. discriminate Hs.
Qed.
Lemma task_exit_exact_witness : exists b s', task_exit 7 demo5 = Some (b, s').
Proof.
  destruct demo5_exit as (k&A&a&Hi&_&Hc&Ha&_&Hin&Hpq). destruct (task_exit_exact demo5 _ _ k A 8%nat a 7 Hi Hc Ha) as (s'&A'&E&_).
  - intros E. rewrite Hin in E. discriminate E.
  - intros i E. rewrite Hin in E. injection E as <-. apply not_elem_of_nil.
  - exact Hpq.
  - eexists _, s'. exact E.
Defined.
Lemma demo6_sound : exists k A, tinv demo6 [8%nat; 4%nat] (moved 8 (Some 4%nat) (linked 4 8 (fun _ => []))) k A /\ 8%nat ∉ queued A.
Proof.
  destruct demo5_exit as (k&A&a&Hi&Hq&Hc&Ha&Hp&Hin&Hpq). destruct (task_exit_ok demo5 _ _ k A 8%nat a 7 Hi Hc Ha) as (s'&A'&E&Hi'&_&Hq'&_).
  - intros E. rewrite Hin in E. discriminate E.
  - intros i E. rewrite Hin in E. injection E as <-. apply not_elem_of_nil.
  - exact Hpq.
  - destruct (same_result _ _ _ _ _ E demo6_run) as [_ ->]. rewrite Hin in Hi'. exists k, A'. split; [exact Hi'|]. intros Hin8. destruct (Hq' 8%nat Hin8) as [H8|E8]; [exact (Hq H8)|]. rewrite Hp in E8. discriminate E8.
Qed.
Definition demo7 : tasks bump := after (dispatch 4) demo6.
Lemma demo7_run : dispatch 4 demo6 = Some (tt, demo7).
Proof. refine (after_run _ _ _ _). vm_compute. reflexivity. Qed.
#[local] Opaque demo7.
Lemma task_wait_exact_witness : exists v st s', task_wait demo7 = Some ((v, st), s').
Proof.
  destruct demo6_sound as (k&A&Hi&Hq). destruct (field_of demo6 4 t_pid 1) as (a&Ha&_); [vm_compute; reflexivity|]. destruct (dispatch_run demo6 _ _ _ _ 4%nat a Hi Ha) as (s'&A'&E&Hi'&Hq').
  destruct (same_result _ _ _ _ _ E demo7_run) as [_ ->]. destruct (field_of demo7 4 t_state TASK_STATE_RUNNING) as (b&Hb&Hs); [vm_compute; reflexivity|].
  destruct (task_wait_exact demo7 _ _ _ A' 4%nat b Hi') as (v&st&s2&E2&_); [vm_compute; reflexivity|exact Hb|exact Hs| |exists v, st, s2; exact E2].
  intros y d Hy _ _. change (y ∈ [8%nat]) in Hy. apply list_elem_of_singleton in Hy as ->. split; [left|]. split; [intros Hin; exact (Hq (proj1 (proj1 (Hq' 8%nat) Hin)))|]. split; [reflexivity|]. split; vm_compute; discriminate.
Defined.
Lemma task_find_by_pid_exact_witness : exists o, task_find_by_pid 2 demo6 = Some (o, demo6).
Proof. destruct demo6_sound as (k&A&Hi&_). destruct (task_find_by_pid_exact demo6 _ _ k A 2 Hi) as (o&E&_). exists o. exact E. Defined.
Definition demo_thread : tasks bump := after (task_create [] 0x5000 true) demo2.
Lemma task_destroy_exact_witness : exists s', task_destroy (Some 8%nat) demo_thread = Some (tt, s') /\ pcbs s' !! 8%nat = None.
Proof.
  destruct demo2_sound as (k&A&f&b&p&Hi&_).
  destruct (task_create_ok demo2 _ _ _ _ [] 0x5000 true Hi) as (o&s'&E&Ho); [vm_compute; reflexivity|vm_compute; reflexivity|].
  assert (task_create [] 0x5000 true demo2 = Some (Some 8%nat, demo_thread)) as Er by (refine (after_run _ _ _ _); vm_compute; reflexivity).
  destruct (same_result _ _ _ _ _ E Er) as [-> ->]. destruct Ho as (g&base&space&A'&Hx&_&Ep&_&Hi'&Hq&_).
  destruct (task_destroy_exact demo_thread _ _ _ A' 8%nat _ Hi' (list_elem_of_here _ _) (eq_trans (f_equal (fun h => h !! 8%nat) Ep) (lookup_insert_eq _ _ _))) as (s'&A2&Ed&_&_&Hgone&_);
    [reflexivity|reflexivity|vm_compute; discriminate|vm_compute; discriminate|vm_compute; discriminate| |exists s'; split; [exact Ed|exact Hgone]].
  rewrite Hq. intros Hin. destruct (queued_pcb demo2 _ _ k A 8%nat Hi Hin) as [c Hc]. rewrite Hx in Hc. discriminate Hc.
Defined.
Lemma task_create_elf_exact_witness : exists o s', task_create_elf init_name 0x9000 4096 demo1 = Some (o, s').
Proof.
  destruct demo1_sound as (x&a&A&Hi). destruct (task_create_elf_exact demo1 _ _ _ _ init_name 0x9000 4096 Hi) as (o&s'&E&_); [vm_compute; reflexivity|vm_compute; reflexivity|]. exists o, s'. exact E.
Defined.
Lemma first_frame_enters_witness : exists s', setup_initial_stack 8 0x400000 demo6 = Some (tt, s').
Proof.
  destruct (field_of demo6 8 (fun a => (t_kernel_stack_base a, t_kernel_stack_size a)) (10, 32768)) as (a&Ha&Es); [vm_compute; reflexivity|]. injection Es as Eb Es.
  destruct (first_frame_enters demo6 8%nat a 0x400000 Ha) as (s'&rsp&E&_); [lia|lia|lia|exists s'; exact E].
Defined.

(** ** What goes wrong *)

Definition tick : M (tasks bump) unit := on_sched (fun c => snd <$> scheduler_tick c).
Fixpoint ticks (n : nat) : M (tasks bump) unit := match n with O => return tt | S n' => tick ;;; ticks n' end.
(** init waits; the child runs, uses up its quantum and, as nothing else is ready, stays on the processor while it is queued; it
    exits and init reaps it.  The freed PCB is still in the ready queue, and two ticks later the scheduler uses it. *)
Lemma reaped_task_stays_queued : exists s, (task_wait ;;; ticks 8 ;;; task_exit 7 ;;; ticks 4 ;;; task_wait) demo4 = Some ((2, Some 7), s) /\
  pcbs s !! 8%nat = None /\ q_head <$> zget (mlfq_queues (mq (tk_sched s))) 1 = Some (Some 8%nat) /\ ticks 2 s = None.
Proof. eexists. split; [refine (after_run _ _ _ _); vm_compute; reflexivity|]. split_and!; vm_compute; reflexivity. Qed.
(** The address space cannot be cloned: fork returns -1, and the next wait follows the parent's pointer to the freed child. *)
Definition no_clone (s : tasks bump) : tasks bump := set_env (Bump (bp_next (tk_env s)) (bp_limit (tk_env s)) VMM_ERR_NO_MEM (bp_held (tk_env s))) s.
Lemma failed_fork_dangles : (fun r => r.1) <$> sys_fork fork_frame (no_clone demo3) = Some (-1) /\ (sys_fork fork_frame ;;; task_wait) (no_clone demo3) = None.
Proof. split; vm_compute; reflexivity. Qed.
(** The first PCB is PID 1 and becomes init before its other blocks are allocated.  When one of them fails, init is a freed PCB, and the
    exit of a task with children uses it. *)
Definition demo_small : tasks bump := set_env (Bump (bp_next (tk_env demo1)) (bp_next (tk_env demo1) + 1) VMM_OK (bp_held (tk_env demo1))) demo1.
Definition more_memory (s : tasks bump) : tasks bump := set_env (Bump (bp_next (tk_env s)) 1000 VMM_OK (bp_held (tk_env s))) s.
Lemma failed_init_dangles : exists s, task_create init_name 0x400000 false demo_small = Some (None, s) /\ g_init_task s = Some 4%nat /\ pcbs s !! 4%nat = None /\
  (task_create [] 0x400000 false ;;; dispatch 5 ;;; sys_fork fork_frame ;;; task_exit 0) (more_memory s) = None.
Proof. eexists. split; [refine (after_run _ _ _ _); vm_compute; reflexivity|]. split_and!; vm_compute; reflexivity. Qed.
(** The child of a fork never reaches user mode: its stack is empty when the trampoline executes IRETQ; the frame lies below. *)
Lemma forked_child_frame : t_kernel_rsp <$> pcbs demo4 !! 8%nat = Some (32768 - 56) /\ context_restore (tk_stack demo4) (32768 - 56) = ([0; 0; 0; 0; 0; 0], 0x1000, 32768) /\
  iretq (tk_stack demo4) 32768 = [0; 0; 0; 0; 0] /\ stack_word (tk_stack demo4) (32768 - 64) = 0x400100.
Proof. split_and!; vm_compute; reflexivity. Qed.
(** [sys_execve] leaves the stack pointer below the frame, where [context_switch] would pop the frame's words as registers and return to 0. *)
Lemma execve_frame : exists s rsp, sys_execve fork_frame demo3 = Some (0, s) /\ t_kernel_rsp <$> pcbs s !! 4%nat = Some rsp /\
  context_restore (tk_stack s) rsp = ([GDT_USER_DS_SEL; TASK_USER_STACK_BASE + TASK_USER_STACK_SIZE; 0x202; GDT_USER_CS_SEL; 0x400000; 0], 0, rsp + 56).
Proof. eexists _, _. split; [refine (after_run _ _ _ _); vm_compute; reflexivity|]. split; vm_compute; reflexivity. Qed.
