(* ===== verification/UMalloc.v ===== *)
(** * The C library: the allocator of user programs (src/libc/userspace/malloc.c)

    A list of blocks in address order, each behind a 24-byte header in the heap itself: [size_t size], [int free],
    [struct block_header *next].  The heap is byte memory in which the kernel maps more bytes when the break grows; the system
    call is the interface [BrkEnv].  A walk along the list takes at most one step per byte that exists. *)

From stdpp Require Import base numbers gmap list options.
From S2P Require Import Prelude LibcString LibcSort.

(** [sys_brk]: it changes the user memory and the kernel; the value is the register as a [long]. *)
Class BrkEnv (R : Type) := sys_brk : Z -> M (mem * R) Z.

(** Words of [n] bytes in memory, the lowest byte first; reading is [load_le]. *)
Fixpoint store_le (p : Z) (n : nat) (v : Z) : M mem unit :=
  match n with O => return tt | S n' => st p (v mod 256) ;;; store_le (p + 1) n' (v / 256) end.

Definition BRK_PAGE : Z := 4096.
Definition MIN_BLOCK_SIZE : Z := 16.
Definition BLOCK_HDR_SIZE : Z := 24.

(** The fields of a [block_header_t]. *)
Definition get_size (b : Z) : M mem Z := load_le b 8.
Definition get_free (b : Z) : M mem bool := v <~ load_le (b + 8) 4 ;; return (negb (v =? 0)).
Definition get_next (b : Z) : M mem Z := load_le (b + 16) 8.
Definition put_size (b v : Z) : M mem unit := store_le b 8 v.
Definition put_free (b v : Z) : M mem unit := store_le (b + 8) 4 v.
Definition put_next (b v : Z) : M mem unit := store_le (b + 16) 8 v.

Definition page_align (size : Z) : Z := Z.land (u64 (size + (BRK_PAGE - 1))) (u64 (Z.lnot (BRK_PAGE - 1))).

Definition split_block (blk size : Z) : M mem unit :=
  s <~ get_size blk ;;
  if u64 (size + BLOCK_HDR_SIZE + MIN_BLOCK_SIZE) <=? s then
    let new_blk := u64 (blk + BLOCK_HDR_SIZE + size) in
    put_size new_blk (u64 (s - size - BLOCK_HDR_SIZE)) ;;;
    put_free new_blk 1 ;;;
    nx <~ get_next blk ;; put_next new_blk nx ;;;
    put_next blk new_blk ;;;
    put_size blk size
  else return tt.

Fixpoint coalesce_loop (k : nat) (cur : Z) : M mem unit :=
  match k with
  | O => mfault
  | S k' =>
    if cur =? 0 then return tt else
    nx <~ get_next cur ;;
    if nx =? 0 then return tt else
    f <~ get_free cur ;; g <~ (if f : bool then get_free nx else return false) ;;
    if g then
      s <~ get_size cur ;; t <~ get_size nx ;; put_size cur (u64 (s + (BLOCK_HDR_SIZE + t))) ;;;
      nn <~ get_next nx ;; put_next cur nn ;;;
      coalesce_loop k' cur
    else coalesce_loop k' nx
  end.

(** The first free block of at least [size] bytes, 0 when there is none. *)
Fixpoint fit_loop (k : nat) (cur size : Z) : M mem Z :=
  match k with
  | O => mfault
  | S k' =>
    if cur =? 0 then return 0 else
    f <~ get_free cur ;; s <~ (if f : bool then get_size cur else return 0) ;;
    if f && (size <=? s) then return cur else nx <~ get_next cur ;; fit_loop k' nx size
  end.
(** [while (last->next) last = last->next]. *)
Fixpoint last_loop (k : nat) (last : Z) : M mem Z :=
  match k with O => mfault | S k' => nx <~ get_next last ;; if nx =? 0 then return last else last_loop k' nx end.

Section UMalloc.
Context {R : Type} `{!BrkEnv R}.

(** The memory, the kernel and the globals of malloc.c. *)
Record um := Um { um_mem : mem; um_os : R; g_heap_head : Z; g_heap_brk : Z; g_heap_base : Z }.
Definition set_heap_head x s := Um (um_mem s) (um_os s) x (g_heap_brk s) (g_heap_base s).
Definition set_heap_brk x s := Um (um_mem s) (um_os s) (g_heap_head s) x (g_heap_base s).
Definition set_heap_base x s := Um (um_mem s) (um_os s) (g_heap_head s) (g_heap_brk s) x.
Definition on_umem {A} (c : M mem A) : M um A :=
  fun s => match c (um_mem s) with Some (a, m) => Some (a, Um m (um_os s) (g_heap_head s) (g_heap_brk s) (g_heap_base s)) | None => None end.
Definition brk (a : Z) : M um Z :=
  fun s => match sys_brk a (um_mem s, um_os s) with
           | Some (v, (m, r)) => Some (v, Um m r (g_heap_head s) (g_heap_brk s) (g_heap_base s)) | None => None end.

(** [false] is the return value -1. *)
Definition grow_heap (nbytes : Z) : M um bool :=
  let pages := page_align nbytes in
  b <~ mgets g_heap_brk ;;
  ret <~ brk (u64 (b + pages)) ;;
  if ret <? 0 then return false else mmodify (set_heap_brk (u64 ret)) ;;; return true.

Definition coalesce : M um unit := h <~ mgets g_heap_head ;; on_umem (fuelled (fun k => coalesce_loop k h)).

(** [size = (size + 7) & ~7; if (size < MIN_BLOCK_SIZE) size = MIN_BLOCK_SIZE]. *)
Definition round_size (size : Z) : Z :=
  let s := Z.land (u64 (size + 7)) (u64 (Z.lnot 7)) in if s <? MIN_BLOCK_SIZE then MIN_BLOCK_SIZE else s.

(** The first call: [false] when the break cannot be read. *)
Definition heap_init : M um bool :=
  b <~ mgets g_heap_base ;;
  if negb (b =? 0) then return true else
  ret <~ brk 0 ;;
  if ret <? 0 then return false else
  mmodify (set_heap_base (u64 ret)) ;;; mmodify (set_heap_brk (u64 ret)) ;;; return true.

(** After the heap has grown by [needed] bytes: the last block, when it is free, grows with it; else a new block comes behind it. *)
Definition malloc_place (size needed : Z) : M um Z :=
  h <~ mgets g_heap_head ;;
  if negb (h =? 0) then
    last <~ on_umem (fuelled (fun k => last_loop k h)) ;;
    f <~ on_umem (get_free last) ;;
    if f : bool then
      s <~ on_umem (get_size last) ;;
      on_umem (put_size last (u64 (s + needed))) ;;;
      on_umem (split_block last size) ;;; on_umem (put_free last 0) ;;;
      return (u64 (last + BLOCK_HDR_SIZE))
    else
      s <~ on_umem (get_size last) ;;
      let new_blk := u64 (last + BLOCK_HDR_SIZE + s) in
      on_umem (put_size new_blk (u64 (needed - BLOCK_HDR_SIZE)) ;;; put_free new_blk 0 ;;; put_next new_blk 0) ;;;
      last <~ on_umem (fuelled (fun k => last_loop k h)) ;;
      on_umem (put_next last new_blk) ;;;
      return (u64 (new_blk + BLOCK_HDR_SIZE))
  else
    new_blk <~ mgets g_heap_base ;;
    on_umem (put_size new_blk (u64 (needed - BLOCK_HDR_SIZE)) ;;; put_free new_blk 0 ;;; put_next new_blk 0) ;;;
    mmodify (set_heap_head new_blk) ;;;
    return (u64 (new_blk + BLOCK_HDR_SIZE)).
(** No free block fits. *)
Definition malloc_grow (size : Z) : M um Z :=
  let needed := u64 (size + BLOCK_HDR_SIZE) in
  ok <~ grow_heap needed ;;
  if negb ok then return 0 else malloc_place size needed.

Definition malloc (size : Z) : M um Z :=
  if size =? 0 then return 0 else
  let size := round_size size in
  ok <~ heap_init ;;
  if negb ok then return 0 else
  h <~ mgets g_heap_head ;;
  cur <~ on_umem (fuelled (fun k => fit_loop k h size)) ;;
  if negb (cur =? 0) then
    on_umem (split_block cur size) ;;; on_umem (put_free cur 0) ;;;
    return (u64 (cur + BLOCK_HDR_SIZE))
  else malloc_grow size.

Definition calloc (nmemb size : Z) : M um Z :=
  if (nmemb =? 0) || (size =? 0) then return 0 else
  let total := u64 (nmemb * size) in
  if negb (total / nmemb =? size) then return 0 else
  p <~ malloc total ;;
  if p =? 0 then return 0 else
  on_umem (set_loop (Z.to_nat total) p 0) ;;; return p.

Definition free (p : Z) : M um unit :=
  if p =? 0 then return tt else
  on_umem (put_free (u64 (p - BLOCK_HDR_SIZE)) 1) ;;; coalesce.

(** The block is extended over the free block behind it: [false] when that does not work. *)
Definition extend_block (blk size : Z) : M mem bool :=
  nx <~ get_next blk ;;
  if nx =? 0 then return false else
  f <~ get_free nx ;;
  if negb f then return false else
  s <~ get_size blk ;; t <~ get_size nx ;;
  if size <=? u64 (s + BLOCK_HDR_SIZE + t) then
    put_size blk (u64 (s + (BLOCK_HDR_SIZE + t))) ;;;
    nn <~ get_next nx ;; put_next blk nn ;;;
    split_block blk size ;;; return true
  else return false.

Definition realloc (p size : Z) : M um Z :=
  if p =? 0 then malloc size else
  if size =? 0 then free p ;;; return 0 else
  let blk := u64 (p - BLOCK_HDR_SIZE) in
  s <~ on_umem (get_size blk) ;;
  if size <=? s then return p else
  ok <~ on_umem (extend_block blk size) ;;
  if ok : bool then return p else
  new_ptr <~ malloc size ;;
  if new_ptr =? 0 then return 0 else
  s <~ on_umem (get_size blk) ;;
  let copy_size := if s <? size then s else size in
  on_umem (copy_up (Z.to_nat copy_size) new_ptr p) ;;;
  free p ;;; return new_ptr.

End UMalloc.
Arguments um : clear implicits.
Arguments Um {R}.
