(* ===== verification/UMallocSpec.v ===== *)
(** * The allocator of user programs: what its clients may rely on

    [seg m p L q]: from [p] on memory holds the blocks [L], each a size and a flag (free or not), one directly behind the
    other, the last of them linked to [q]. *)

From stdpp Require Import base numbers gmap list options.
From S2P Require Import Prelude LibcString LibcStringSpec LibcSort UMalloc.
#[local] Set Default Proof Using "Type*".

(** ** Words and headers *)

(** From [m] to [m'] only bytes of [P] change, and no byte disappears. *)
Record touched (P : Z -> Prop) (m m' : mem) : Prop := {
  tch_out : forall a, ~ P a -> m' !! a = m !! a;
  tch_dom : forall a, is_Some (m !! a) -> is_Some (m' !! a);
  tch_ok : mem_ok m -> mem_ok m'
}.
Lemma touched_refl P m : touched P m m.
Proof. by split. Qed.
Lemma touched_trans (P Q T : Z -> Prop) m1 m2 m3 : touched P m1 m2 -> touched Q m2 m3 -> (forall a, P a -> T a) -> (forall a, Q a -> T a) -> touched T m1 m3.
Proof. intros [A1 A2 A3] [B1 B2 B3] HP HQ. split; [|by auto|by auto]. intros a Ha. rewrite B1, A1 by auto. done. Qed.
Lemma touched_weaken (P T : Z -> Prop) m m' : touched P m m' -> (forall a, P a -> T a) -> touched T m m'.
Proof. intros [A1 A2 A3] H. split; auto. Qed.
Lemma touched_mapped P m m' p n : touched P m m' -> mapped m p n -> mapped m' p n.
Proof. intros H Hm a Ha. by apply (tch_dom _ _ _ H), Hm. Qed.
Lemma touched_bytes P m m' p l : touched P m m' -> (forall a, p <= a < p + Z.of_nat (length l) -> ~ P a) -> bytes_at m p l -> bytes_at m' p l.
Proof. intros H Hd Hb. apply (bytes_at_ext m); [done|]. intros a Ha. apply (tch_out _ _ _ H), Hd, Ha. Qed.

Definition rng (a n x : Z) : Prop := a <= x < a + n.

Lemma store_le_run n : forall m p v, mapped m p (Z.of_nat n) -> exists m', store_le p n v m = Some (tt, m') /\ bytes_at m' p (le_enc n v) /\ touched (rng p (Z.of_nat n)) m m'.
Proof.
  induction n as [|n IH]; intros m p v Hm; [exists m; split; [done|]; split; [done|apply touched_refl]|].
  destruct (Hm p ltac:(lia)) as [c Hc]. cbn [store_le]. mstep (st_run m p (v mod 256) c Hc). destruct (IH (<[p := u8 (v mod 256)]> m) (p + 1) (v / 256)) as (m'&E&Hb&Ht).
  { apply (mapped_insert m _ _ p _ c); [|done]. intros a Ha. apply Hm. lia. }
  exists m'. split; [done|]. split.
  - cbn [le_enc bytes_at]. split; [|done]. rewrite (tch_out _ _ _ Ht) by (unfold rng; lia). rewrite lookup_insert_eq. f_equal. unfold u8, wrap. apply Z.mod_mod. lia.
  - apply (touched_trans (rng p 1) (rng (p + 1) (Z.of_nat n)) _ m (<[p := u8 (v mod 256)]> m)); [|done|unfold rng; lia..]. split.
    + intros a Ha. rewrite lookup_insert_ne; [done|]. unfold rng in Ha. lia.
    + intros a [x Hx]. destruct (decide (a = p)) as [->|]; [by rewrite lookup_insert_eq|]. rewrite lookup_insert_ne by done. by exists x.
    + intros Hok. apply mem_ok_insert; [done|]. apply (wrap_range 8). lia.
Qed.

Definition word (m : mem) (p : Z) (n : nat) (v : Z) : Prop := bytes_at m p (le_enc n v) /\ 0 <= v < 256 ^ Z.of_nat n.
Lemma word_run m p n v : word m p n v -> load_le p n m = Some (v, m).
Proof. intros [Hb Hv]. pose proof (load_le_run _ _ _ Hb) as E. rewrite le_enc_length in E. rewrite E. by rewrite le_dec_enc. Qed.
Lemma word_ext P m m' p n v : touched P m m' -> (forall a, p <= a < p + Z.of_nat n -> ~ P a) -> word m p n v -> word m' p n v.
Proof. intros Ht Hd [Hb Hv]. split; [|done]. apply (touched_bytes P m); [done| |done]. by rewrite le_enc_length. Qed.
Lemma word_mapped m p n v : word m p n v -> mapped m p (Z.of_nat n).
Proof. intros [Hb _]. apply bytes_at_mapped in Hb. by rewrite le_enc_length in Hb. Qed.
Lemma word_store m p n v : mapped m p (Z.of_nat n) -> 0 <= v < 256 ^ Z.of_nat n ->
  exists m', store_le p n v m = Some (tt, m') /\ word m' p n v /\ touched (rng p (Z.of_nat n)) m m'.
Proof. intros Hm Hv. destruct (store_le_run n m p v Hm) as (m'&E&Hb&Ht). exists m'. by split_and!. Qed.

(** A header at [p]: size, flag and link. *)
Record hdr (m : mem) (p n : Z) (f : bool) (nx : Z) : Prop := {
  h_size : word m p 8 n;
  h_free : word m (p + 8) 4 (Z.b2z f);
  h_next : word m (p + 16) 8 nx
}.
Lemma get_size_run m p n f nx : hdr m p n f nx -> get_size p m = Some (n, m).
Proof. intros H. apply word_run, H. Qed.
Lemma get_free_run m p n f nx : hdr m p n f nx -> get_free p m = Some (f, m).
Proof. intros H. unfold get_free. mstep (word_run _ _ _ _ (h_free _ _ _ _ _ H)). by destruct f. Qed.
Lemma get_next_run m p n f nx : hdr m p n f nx -> get_next p m = Some (nx, m).
Proof. intros H. apply word_run, H. Qed.
Lemma hdr_ext P m m' p n f nx : touched P m m' -> (forall a, p <= a < p + 24 -> ~ P a) -> hdr m p n f nx -> hdr m' p n f nx.
Proof. intros Ht Hd [H1 H2 H3]. split; (eapply word_ext; [exact Ht| |done]); intros a Ha; apply Hd; lia. Qed.

Lemma put_size_run m p n f nx v : hdr m p n f nx -> 0 <= v < 2 ^ 64 -> exists m', put_size p v m = Some (tt, m') /\ hdr m' p v f nx /\ touched (rng p 24) m m'.
Proof.
  intros [H1 H2 H3] Hv. destruct (word_store m p 8 v (word_mapped _ _ _ _ H1) Hv) as (m'&E&Hw&Ht). exists m'. split; [done|]. split; [|apply (touched_weaken _ _ _ _ Ht); unfold rng; lia].
  split; [done|..]; (eapply word_ext; [exact Ht| |done]); unfold rng; lia.
Qed.
Lemma put_free_run m p n f nx g : hdr m p n f nx -> exists m', put_free p (Z.b2z g) m = Some (tt, m') /\ hdr m' p n g nx /\ touched (rng p 24) m m'.
Proof.
  intros [H1 H2 H3]. destruct (word_store m (p + 8) 4 (Z.b2z g) (word_mapped _ _ _ _ H2) ltac:(destruct g; simpl; lia)) as (m'&E&Hw&Ht).
  exists m'. split; [done|]. split; [|apply (touched_weaken _ _ _ _ Ht); unfold rng; lia]. split; [|done|]; (eapply word_ext; [exact Ht| |done]); unfold rng; lia.
Qed.
Lemma put_next_run m p n f nx v : hdr m p n f nx -> 0 <= v < 2 ^ 64 -> exists m', put_next p v m = Some (tt, m') /\ hdr m' p n f v /\ touched (rng p 24) m m'.
Proof.
  intros [H1 H2 H3] Hv. destruct (word_store m (p + 16) 8 v (word_mapped _ _ _ _ H3) Hv) as (m'&E&Hw&Ht). exists m'. split; [done|]. split; [|apply (touched_weaken _ _ _ _ Ht); unfold rng; lia].
  split; [..|done]; (eapply word_ext; [exact Ht| |done]); unfold rng; lia.
Qed.
(** A header written where there was none: its size and flag, then, after other reads, its link. *)
Lemma new_hdr_run m p n f : mapped m p 24 -> 0 <= n < 2 ^ 64 -> exists m1 m2, put_size p n m = Some (tt, m1) /\ put_free p (Z.b2z f) m1 = Some (tt, m2) /\ touched (rng p 24) m m2 /\
  forall nx, 0 <= nx < 2 ^ 64 -> exists m3, put_next p nx m2 = Some (tt, m3) /\ hdr m3 p n f nx /\ touched (rng p 24) m m3.
Proof.
  intros Hm Hn. destruct (word_store m p 8 n ltac:(intros a Ha; apply Hm; lia) Hn) as (m1&E1&W1&T1).
  destruct (word_store m1 (p + 8) 4 (Z.b2z f)) as (m2&E2&W2&T2); [intros a Ha; apply (touched_mapped _ _ _ p 24 T1 Hm); lia|destruct f; simpl; lia|].
  exists m1, m2. assert (touched (rng p 24) m m2) as T12 by (apply (touched_trans _ _ _ _ _ _ T1 T2); unfold rng; lia). split_and!; [done..|]. intros nx Hnx.
  destruct (word_store m2 (p + 16) 8 nx) as (m3&E3&W3&T3); [intros a Ha; apply (touched_mapped _ _ _ p 24 T12 Hm); lia|done|].
  exists m3. split; [done|]. split; [|apply (touched_trans _ _ _ _ _ _ T12 T3); unfold rng; lia]. split; [..|done].
  - eapply word_ext; [exact T3|unfold rng; lia|]. eapply word_ext; [exact T2|unfold rng; lia|done].
  - eapply word_ext; [exact T3|unfold rng; lia|done].
Qed.

(** ** Blocks in a row *)

Fixpoint bsz (L : list (Z * bool)) : Z := match L with [] => 0 | (n, _) :: L' => 24 + n + bsz L' end.
Fixpoint seg (m : mem) (p : Z) (L : list (Z * bool)) (q : Z) : Prop :=
  match L with [] => True | (n, f) :: L' => hdr m p n f (match L' with [] => q | _ => p + 24 + n end) /\ seg m (p + 24 + n) L' q end.
(** The address is in a header. *)
Fixpoint in_hdr (p : Z) (L : list (Z * bool)) (a : Z) : Prop :=
  match L with [] => False | (n, _) :: L' => rng p 24 a \/ in_hdr (p + 24 + n) L' a end.
Definition sized (L : list (Z * bool)) : Prop := Forall (fun b => 16 <= b.1) L.

Lemma bsz_app L L' : bsz (L ++ L') = bsz L + bsz L'.
Proof. induction L as [|[n f] L IH]; simpl; lia. Qed.
Lemma bsz_nonneg L : sized L -> 40 * Z.of_nat (length L) <= bsz L.
Proof. induction 1 as [|[n f] L Hn _ IH]; simpl in *; lia. Qed.
Lemma seg_app m p L L' q : seg m p (L ++ L') q <-> seg m p L (match L' with [] => q | _ => p + bsz L end) /\ seg m (p + bsz L) L' q.
Proof.
  revert p. induction L as [|[n f] L IH]; intros p; simpl; [rewrite Z.add_0_r; tauto|]. rewrite IH. replace (p + 24 + n + bsz L) with (p + (24 + n + bsz L)) by lia.
  destruct L as [|b L]; [destruct L'; simpl; rewrite ?Z.add_0_r; try tauto; replace (p + (24 + n)) with (p + 24 + n) by lia; tauto|]. cbn [app]. tauto.
Qed.
Lemma in_hdr_range p L a : sized L -> in_hdr p L a -> rng p (bsz L) a.
Proof. intros H. revert p. induction H as [|[n f] L Hn HL IH]; intros p; simpl; [done|]. pose proof (bsz_nonneg _ HL). simpl in Hn. intros [Ha|Ha]; [unfold rng in *; lia|]. apply IH in Ha. unfold rng in *. lia. Qed.
Lemma in_hdr_app p L L' a : in_hdr p (L ++ L') a <-> in_hdr p L a \/ in_hdr (p + bsz L) L' a.
Proof. revert p. induction L as [|[n f] L IH]; intros p; simpl; [rewrite Z.add_0_r; tauto|]. rewrite IH. replace (p + 24 + n + bsz L) with (p + (24 + n + bsz L)) by lia. tauto. Qed.
Lemma seg_ext P m m' p L q : touched P m m' -> (forall a, in_hdr p L a -> ~ P a) -> seg m p L q -> seg m' p L q.
Proof.
  intros Ht. revert p. induction L as [|[n f] L IH]; intros p Hd; simpl in *; [done|]. intros [Hh Hs]. split; [|apply IH; auto].
  apply (hdr_ext P m); [done| |done]. intros a Ha. apply Hd. by left.
Qed.
Lemma bytes_mono m m' p l : m ⊆ m' -> bytes_at m p l -> bytes_at m' p l.
Proof. intros Hs Hb. apply bytes_at_intro. intros i c Hc. apply (lookup_weaken m); [|done]. rewrite (bytes_at_get m p l) by (apply zget_range in Hc; done || lia). by replace (p + i - p) with i by lia. Qed.
Lemma seg_mono m m' p L q : m ⊆ m' -> seg m p L q -> seg m' p L q.
Proof. intros Hs. revert p. induction L as [|[n f] L IH]; intros p; simpl; [done|]. intros [[[? ?] [? ?] [? ?]] Hs']. split; [|by apply IH]. split; (split; [by apply (bytes_mono m)|done]). Qed.
(** Some blocks in the middle replaced by others of the same total size. *)
Lemma seg_replace m m' p L1 X Y L2 q : seg m p (L1 ++ X ++ L2) q -> sized (L1 ++ X ++ L2) -> touched (rng (p + bsz L1) (bsz X)) m m' -> X <> [] -> Y <> [] -> bsz Y = bsz X ->
  seg m' (p + bsz L1) Y (match L2 with [] => q | _ => p + bsz L1 + bsz X end) -> seg m' p (L1 ++ Y ++ L2) q.
Proof.
  intros Hs Hz Ht HX HY HB HYs. apply Forall_app in Hz as [Hz1 [HzX Hz2]%Forall_app]. apply seg_app in Hs as [H1 [_ H2]%seg_app]. pose proof (bsz_nonneg _ HzX).
  assert (forall (Z0 : list (Z * bool)) (u v : Z), Z0 <> [] -> match Z0 ++ L2 with [] => u | _ => v end = v) as Hne by (intros [|] u v Hn; done).
  apply seg_app. rewrite Hne in H1 |- * by done. split; [|apply seg_app; split; [destruct L2; [done|by rewrite HB]|]].
  - apply (seg_ext _ m _ _ _ _ Ht); [|done]. intros a Ha%in_hdr_range; [|done]. unfold rng in *. lia.
  - rewrite HB. apply (seg_ext _ m _ _ _ _ Ht); [|done]. intros a Ha%in_hdr_range; [|done]. unfold rng in *. lia.
Qed.
(** The header in the middle. *)
Lemma seg_at m p L1 n f L2 q : seg m p (L1 ++ (n, f) :: L2) q -> hdr m (p + bsz L1) n f (match L2 with [] => q | _ => p + bsz L1 + 24 + n end).
Proof. intros [_ [H _]]%seg_app. exact H. Qed.

(** ** Splitting, merging and searching *)

Lemma u64_small x : 0 <= x < 2 ^ 64 -> u64 x = x.
Proof. intros. unfold u64. by wrap_small. Qed.

Definition split (n : Z) (f : bool) (size : Z) : list (Z * bool) := if size + 40 <=? n then [(size, f); (n - size - 24, true)] else [(n, f)].
Lemma split_bsz n f size : bsz (split n f size) = 24 + n.
Proof. unfold split. case_match; simpl; lia. Qed.
Lemma split_ne n f size : split n f size <> [].
Proof. unfold split. by case_match. Qed.
Lemma split_sized n f size : 16 <= size -> 16 <= n -> sized (split n f size).
Proof. intros. unfold split, sized. destruct (Z.leb_spec (size + 40) n); repeat constructor; simpl; lia. Qed.
Lemma split_block_run m p n f nx size : hdr m p n f nx -> mapped m p (24 + n) -> 16 <= size < 2 ^ 63 -> 0 <= p -> p + 24 + n < 2 ^ 63 -> 0 <= nx < 2 ^ 64 -> 0 <= n ->
  exists m', split_block p size m = Some (tt, m') /\ seg m' p (split n f size) nx /\ touched (fun a => rng p 24 a \/ rng (p + 24 + size) (n - size) a) m m'.
Proof.
  intros Hh Hm Hs Hp Hn Hnx Hn0. unfold split_block, split. mstep (get_size_run _ _ _ _ _ Hh). unfold BLOCK_HDR_SIZE, MIN_BLOCK_SIZE. rewrite (u64_small (size + 24 + 16)) by lia.
  replace (size + 24 + 16) with (size + 40) by lia. destruct (Z.leb_spec (size + 40) n) as [Hle|Hle]; [|exists m; simpl; split_and!; [done..|apply touched_refl]].
  rewrite (u64_small (p + 24 + size)), (u64_small (n - size - 24)) by lia. set (b := p + 24 + size) in *.
  destruct (new_hdr_run m b (n - size - 24) true) as (m1&m2&E1&E2&T2&Hnew); [intros a Ha; apply Hm; lia|lia|]. mstep E1. mstep E2.
  assert (hdr m2 p n f nx) as Hh2 by (apply (hdr_ext _ m _ _ _ _ _ T2); [unfold rng; lia|done]). mstep (get_next_run _ _ _ _ _ Hh2).
  destruct (Hnew nx Hnx) as (m3&E3&Hh3&T3). mstep E3. assert (hdr m3 p n f nx) as Hp3 by (apply (hdr_ext _ m _ _ _ _ _ T3); [unfold rng; lia|done]).
  destruct (put_next_run m3 p n f nx b Hp3 ltac:(lia)) as (m4&E4&Hp4&T4). mstep E4. destruct (put_size_run m4 p n f b size Hp4 ltac:(lia)) as (m5&E5&Hp5&T5).
  exists m5. split; [done|]. assert (touched (rng p 24) m3 m5) as T35 by (apply (touched_trans _ _ _ _ _ _ T4 T5); auto). split.
  - cbn [seg]. fold b. split_and!; [done| |done]. apply (hdr_ext _ m3 _ _ _ _ _ T35); [unfold rng; lia|done].
  - apply (touched_trans _ _ _ _ _ _ T3 T35); unfold rng; lia.
Qed.

(** What [coalesce] makes of the blocks: neighbours that are free become one. *)
Fixpoint merged (n : Z) (f : bool) (L : list (Z * bool)) : list (Z * bool) :=
  match L with
  | [] => [(n, f)]
  | (t, g) :: L' => if f && g then merged (n + 24 + t) f L' else (n, f) :: merged t g L'
  end.
Lemma merged_ne L : forall n f, merged n f L <> [].
Proof. induction L as [|[t g] L IH]; intros n f; simpl; [done|]. destruct (f && g); [apply IH|done]. Qed.
Lemma merged_bsz L : forall n f, bsz (merged n f L) = bsz ((n, f) :: L).
Proof. induction L as [|[t g] L IH]; intros n f; simpl; [done|]. destruct (f && g); cbn [bsz]; rewrite IH; simpl; lia. Qed.
Lemma merged_sized L : forall n f, sized ((n, f) :: L) -> sized (merged n f L).
Proof.
  induction L as [|[t g] L IH]; intros n f H; simpl; [done|]. apply Forall_cons in H as [Hn H]. pose proof H as [Ht HL]%Forall_cons. simpl in *.
  destruct (f && g); [apply IH; constructor; [simpl; lia|done]|constructor; [done|by apply IH]].
Qed.
Lemma merge_run L : forall k m p n f, (length L < k)%nat -> seg m p ((n, f) :: L) 0 -> sized ((n, f) :: L) -> 0 < p -> p + bsz ((n, f) :: L) < 2 ^ 63 ->
  exists m', coalesce_loop k p m = Some (tt, m') /\ seg m' p (merged n f L) 0 /\ touched (in_hdr p ((n, f) :: L)) m m'.
Proof.
  induction L as [|[t g] L IH]; intros [|k] m p n f Hk Hs Hz Hp Hb; simpl in Hk; try lia; cbn [coalesce_loop]; rewrite (proj2 (Z.eqb_neq p 0)) by lia.
  - destruct Hs as [Hh _]. mstep (get_next_run _ _ _ _ _ Hh). exists m. split_and!; [done|simpl; by split|apply touched_refl].
  - pose proof Hs as [Hh Hs']. pose proof Hz as [Hn Hz']%Forall_cons. pose proof Hz' as [Ht Hz'']%Forall_cons. pose proof (bsz_nonneg _ Hz''). cbn [fst bsz] in *. pose proof Hs' as [Hh' Hs''].
    mstep (get_next_run _ _ _ _ _ Hh). rewrite (proj2 (Z.eqb_neq (p + 24 + n) 0)) by lia. mstep (get_free_run _ _ _ _ _ Hh).
    assert ((if f then get_free (p + 24 + n) else return false) m = Some (f && g, m)) as Eg by (destruct f; [apply (get_free_run _ _ _ _ _ Hh')|done]). mstep Eg.
    cbn [merged]. destruct (f && g) eqn:Efg.
    + mstep (get_size_run _ _ _ _ _ Hh). mstep (get_size_run _ _ _ _ _ Hh'). unfold BLOCK_HDR_SIZE. rewrite u64_small by lia. replace (n + (24 + t)) with (n + 24 + t) by lia.
      destruct (put_size_run m p n f _ (n + 24 + t) Hh ltac:(lia)) as (m1&E1&Hh1&T1). mstep E1.
      assert (seg m1 (p + 24 + n) ((t, g) :: L) 0) as Hs1 by (apply (seg_ext _ m _ _ _ _ T1); [intros a Ha%in_hdr_range; [unfold rng in *; lia|done]|done]).
      pose proof Hs1 as [Hg1 Hs2]. mstep (get_next_run _ _ _ _ _ Hg1). set (nn := match L with [] => 0 | _ => p + 24 + n + 24 + t end) in *.
      destruct (put_next_run m1 p _ f _ nn Hh1) as (m2&E2&Hh2&T2); [unfold nn; destruct L; lia|]. mstep E2.
      assert (seg m2 (p + 24 + (n + 24 + t)) L 0) as Hs3 by (replace (p + 24 + (n + 24 + t)) with (p + 24 + n + 24 + t) by lia; apply (seg_ext _ m1 _ _ _ _ T2); [intros a Ha%in_hdr_range; [unfold rng in *; lia|done]|done]).
      destruct (IH k m2 p (n + 24 + t) f) as (m3&E3&Hs4&T3); [lia| |constructor; [simpl; lia|done]|done|simpl; lia|].
      { split; [|done]. destruct L; [done|]. unfold nn in Hh2. by replace (p + 24 + (n + 24 + t)) with (p + 24 + n + 24 + t) by lia. }
      exists m3. split; [done|]. split; [done|]. eapply touched_trans; [eapply (touched_trans _ _ (rng p 24) _ _ _ T1 T2); auto|exact T3|simpl; auto|].
      intros a [Ha|Ha]; [by left|]. right; right. by replace (p + 24 + n + 24 + t) with (p + 24 + (n + 24 + t)) by lia.
    + destruct (IH k m (p + 24 + n) t g) as (m'&E&Hs1&T1); [lia|done..|lia|simpl; lia|]. rewrite E. exists m'. split; [done|]. split; [|apply (touched_weaken _ _ _ _ T1); simpl; auto].
      cbn [seg]. split; [|done]. apply (hdr_ext _ m _ _ _ _ _ T1); [intros a Ha Hi%in_hdr_range; [unfold rng in *; lia|done]|].
      pose proof (merged_ne L t g). by destruct (merged t g L).
Qed.

Definition fits (size : Z) (b : Z * bool) : bool := b.2 && (size <=? b.1).
Lemma fit_run L size : forall k m p, (length L < k)%nat -> seg m p L 0 -> sized L -> 0 < p ->
  (fit_loop k (if L is [] then 0 else p) size m = Some (0, m) /\ Forall (fun b => fits size b = false) L) \/
  exists L1 n L2, L = L1 ++ (n, true) :: L2 /\ size <= n /\ Forall (fun b => fits size b = false) L1 /\ fit_loop k (if L is [] then 0 else p) size m = Some (p + bsz L1, m).
Proof.
  induction L as [|[n f] L IH]; intros [|k] m p Hk Hs Hz Hp; simpl in Hk; try lia; cbn [fit_loop]; [by left|]. rewrite (proj2 (Z.eqb_neq p 0)) by lia.
  destruct Hs as [Hh Hs]. apply Forall_cons in Hz as [Hn Hz]. simpl in Hn. mstep (get_free_run _ _ _ _ _ Hh).
  assert ((if f then get_size p else return 0) m = Some (if f then n else 0, m)) as Eg by (destruct f; [apply (get_size_run _ _ _ _ _ Hh)|done]). mstep Eg.
  destruct (fits size (n, f)) eqn:Ef; unfold fits in Ef; simpl in Ef.
  - apply andb_true_iff in Ef as [-> Ef]. rewrite Ef. right. exists [], n, L. apply Z.leb_le in Ef. simpl. rewrite Z.add_0_r. by split_and!.
  - assert (f && (size <=? (if f then n else 0)) = false) as -> by (by destruct f). mstep (get_next_run _ _ _ _ _ Hh).
    destruct (IH k m (p + 24 + n) ltac:(lia) Hs Hz ltac:(lia)) as [[E HF]|(L1&t&L2&->&Ht&HF&E)]; [left|right].
    + split; [done|]. by constructor.
    + exists ((n, f) :: L1), t, L2. split_and!; [done..|by constructor|]. rewrite E. do 2 f_equal. simpl. lia.
Qed.
Lemma last_run L n f : forall k m p, (length L < k)%nat -> seg m p (L ++ [(n, f)]) 0 -> sized (L ++ [(n, f)]) -> 0 < p -> last_loop k p m = Some (p + bsz L, m).
Proof.
  induction L as [|[t g] L IH]; intros [|k] m p Hk Hs Hz Hp; simpl in Hk; try lia; cbn [last_loop app] in *; destruct Hs as [Hh Hs]; mstep (get_next_run _ _ _ _ _ Hh).
  - simpl. by rewrite Z.add_0_r.
  - apply Forall_cons in Hz as [Ht Hz]. simpl in Ht. assert (match L ++ [(n, f)] with [] => 0 | _ => p + 24 + t end = p + 24 + t) as -> by (by destruct L).
    rewrite (proj2 (Z.eqb_neq (p + 24 + t) 0)) by lia. rewrite IH by (done || lia). do 2 f_equal. simpl. lia.
Qed.

(** ** Objects *)

(** At [a] lies the payload of a block of [n] bytes that is in use. *)
Definition obj (p : Z) (L : list (Z * bool)) (a n : Z) : Prop := exists L1 L2, L = L1 ++ (n, false) :: L2 /\ a = p + bsz L1 + 24.
Lemma same_place L1 : forall L1' b b' L2 L2', sized L1 -> sized L1' -> 16 <= b.1 -> 16 <= b'.1 -> L1 ++ b :: L2 = L1' ++ b' :: L2' ->
  (L1 = L1' /\ b = b' /\ L2 = L2') \/ bsz L1 + 24 + b.1 <= bsz L1' \/ bsz L1' + 24 + b'.1 <= bsz L1.
Proof.
  induction L1 as [|[n f] L1 IH]; intros [|[n' f'] L1'] b b' L2 L2' H H' Hb Hb' E; cbn [app] in E.
  - injection E as -> ->. by left.
  - injection E as -> ->. apply Forall_cons in H' as [Hn H']. pose proof (bsz_nonneg _ H'). right. left. simpl. lia.
  - injection E as <- <-. apply Forall_cons in H as [Hn H]. pose proof (bsz_nonneg _ H). right. right. simpl. lia.
  - injection E as <- <- E. apply Forall_cons in H as [Hn H], H' as [Hn' H']. destruct (IH L1' b b' L2 L2' H H' Hb Hb' E) as [(->&->&->)|]; [by left|right; simpl; lia].
Qed.
Lemma obj_sized p L a n : sized L -> obj p L a n -> 16 <= n /\ p + 24 <= a /\ a + n <= p + bsz L.
Proof. intros Hz (L1&L2&->&->). rewrite bsz_app. apply Forall_app in Hz as [H1 [Hn H2]%Forall_cons]. pose proof (bsz_nonneg _ H1). pose proof (bsz_nonneg _ H2). simpl in *. lia. Qed.
Lemma obj_apart p L a n b k : sized L -> obj p L a n -> obj p L b k -> (a = b /\ n = k) \/ a + n + 24 <= b \/ b + k + 24 <= a.
Proof.
  intros Hz (L1&L2&E1&->) (L1'&L2'&E2&->). rewrite E1 in Hz, E2. pose proof Hz as [H1 [Hn _]%Forall_cons]%Forall_app. rewrite E2 in Hz. apply Forall_app in Hz as [H1' [Hn' _]%Forall_cons].
  destruct (same_place _ _ _ _ _ _ H1 H1' Hn Hn' E2) as [(->&[= ->]&->)|]; [by left|simpl in *; lia].
Qed.
(** A position that is not the object's: the object keeps its place when the block there is replaced. *)
Lemma obj_replace p L1 X Y L2 a n : bsz Y = bsz X -> obj p (L1 ++ X ++ L2) a n -> (forall X1 X2, X = X1 ++ (n, false) :: X2 -> a = p + bsz L1 + bsz X1 + 24 -> False) -> obj p (L1 ++ Y ++ L2) a n.
Proof.
  intros HB (P&S&E&->) Hx. destruct (decide (length P < length L1)%nat) as [Hl|Hl].
  - exists P. apply app_eq_inv in E as [(k&E1&E2)|(k&E1&E2)]; [|subst P; rewrite length_app in Hl; lia]. subst L1. destruct k as [|b k]; [rewrite app_nil_r in Hl; lia|]. injection E2 as <- E2. exists (k ++ Y ++ L2). by rewrite <-app_assoc.
  - apply app_eq_inv in E as [(k&E1&E2)|(k&E1&E2)]; [destruct k; [rewrite app_nil_r in E1; subst|subst L1; rewrite length_app in Hl; simpl in Hl; lia]|subst P].
    + simpl in E2. destruct X as [|b X]; [|injection E2 as <- _; destruct (Hx [] X); [done|simpl; lia]]. simpl in *. exists (P ++ Y), S. rewrite <-app_assoc, bsz_app. split; [by f_equal; f_equal|lia].
    + apply app_eq_inv in E2 as [(j&E1&E2)|(j&E1&E2)].
      * destruct j as [|b j]; [rewrite app_nil_r in E1; subst X; simpl in E2; subst L2; exists (L1 ++ Y), S; rewrite !bsz_app, <-app_assoc; split; [done|lia]|].
        injection E2 as <- E2. subst X. destruct (Hx k j); [done|]. rewrite bsz_app. lia.
      * subst k. exists (L1 ++ Y ++ j), S. rewrite !bsz_app, <-!app_assoc, E2. split; [done|lia].
Qed.
Lemma obj_in_hdr p L a n x : sized L -> obj p L a n -> rng a n x -> ~ in_hdr p L x.
Proof.
  intros Hz (L1&L2&->&->) Hx Hh. apply Forall_app in Hz as [H1 [Hn H2]%Forall_cons]. apply in_hdr_app in Hh as [Hh|Hh]; [apply in_hdr_range in Hh; [|done]; unfold rng in *; lia|].
  simpl in Hh. destruct Hh as [Hh|Hh]; [unfold rng in *; lia|]. apply in_hdr_range in Hh; [|done]. unfold rng in *. simpl in *. lia.
Qed.
Lemma obj_app p L1 L2 a n : obj p (L1 ++ L2) a n <-> obj p L1 a n \/ obj (p + bsz L1) L2 a n.
Proof.
  split.
  - intros (P&S&E&->). apply app_eq_inv in E as [(k&E1&E2)|(k&E1&E2)].
    + destruct k as [|b k]; [rewrite app_nil_r in E1; subst P; simpl in E2; right; exists [], S; split; [done|simpl; lia]|]. injection E2 as <- E2. left. by exists P, k.
    + subst P. right. exists k, S. split; [done|]. rewrite bsz_app. lia.
  - intros [(P&S&->&->)|(P&S&->&->)]; [exists P, (S ++ L2); by rewrite <-app_assoc|]. exists (L1 ++ P), S. rewrite bsz_app, <-app_assoc. split; [done|lia].
Qed.
Lemma obj_cons p n f L a k : obj p ((n, f) :: L) a k <-> (f = false /\ a = p + 24 /\ k = n) \/ obj (p + 24 + n) L a k.
Proof.
  change ((n, f) :: L) with ([(n, f)] ++ L). rewrite obj_app. simpl. replace (p + (24 + n + 0)) with (p + 24 + n) by lia. apply or_iff_compat_r. split.
  - intros ([|b P]&S&E&->); [injection E as -> -> _; simpl; split_and!; [done|lia|done]|by destruct P].
  - intros (->&->&->). exists [], []. split; [done|simpl; lia].
Qed.
Lemma obj_nil p a n : ~ obj p [] a n.
Proof. intros ([|b P]&S&E&_); done. Qed.

(** The objects of [L] are objects of [L'], and their bytes are the same. *)
Definition keeps (p : Z) (L L' : list (Z * bool)) (m m' : mem) : Prop := forall a n, obj p L a n -> obj p L' a n /\ forall x, rng a n x -> m' !! x = m !! x.
Lemma keeps_refl p L m : keeps p L L m m.
Proof. by intros a n Ho. Qed.
Lemma keeps_trans p L1 L2 L3 m1 m2 m3 : keeps p L1 L2 m1 m2 -> keeps p L2 L3 m2 m3 -> keeps p L1 L3 m1 m3.
Proof. intros H1 H2 a n Ho. destruct (H1 a n Ho) as [Ho2 E1], (H2 a n (proj1 (H1 a n Ho))) as [Ho3 E2]. split; [done|]. intros x Hx. rewrite E2, E1; done. Qed.
Lemma keeps_replace p L1 X Y L2 m m' : sized (L1 ++ X ++ L2) -> bsz Y = bsz X -> (forall q a n, ~ obj q X a n) -> touched (rng (p + bsz L1) (bsz X)) m m' ->
  keeps p (L1 ++ X ++ L2) (L1 ++ Y ++ L2) m m'.
Proof.
  intros Hz HB HX Ht a n Ho. apply Forall_app in Hz as [H1 [HzX H2]%Forall_app]. rewrite !obj_app in Ho |- *. rewrite HB. split; [destruct Ho as [?|[Ho|?]]; [by left|by apply HX in Ho|by right; right]|].
  intros x Hx. apply (tch_out _ _ _ Ht). pose proof (bsz_nonneg _ HzX). destruct Ho as [Ho|[Ho|Ho]]; [|by apply HX in Ho|]; apply obj_sized in Ho as (?&?&?); try done; unfold rng in *; lia.
Qed.

(** ** No two neighbours are free *)

Fixpoint nofrag (pf : bool) (L : list (Z * bool)) : bool := match L with [] => true | (_, f) :: L' => negb (pf && f) && nofrag f L' end.
Fixpoint lastf (pf : bool) (L : list (Z * bool)) : bool := match L with [] => pf | (_, f) :: L' => lastf f L' end.
Lemma nofrag_app L1 L2 : forall pf, nofrag pf (L1 ++ L2) = nofrag pf L1 && nofrag (lastf pf L1) L2.
Proof. induction L1 as [|[n f] L1 IH]; intros pf; simpl; [done|]. by rewrite IH, andb_assoc. Qed.
Lemma nofrag_weaken L pf : nofrag true L = true -> nofrag pf L = true.
Proof. destruct L as [|[n f] L]; [done|]. simpl. destruct pf, f; done. Qed.
Lemma merged_nofrag L : forall n f pf, pf && f = false -> nofrag pf (merged n f L) = true.
Proof. induction L as [|[t g] L IH]; intros n f pf H; simpl; [by rewrite H|]. destruct (f && g) eqn:E; [by apply IH|]. simpl. rewrite H. simpl. by apply IH. Qed.
Lemma split_nofrag L1 X n size L2 : nofrag false (L1 ++ X ++ L2) = true -> lastf (lastf false L1) X = true -> nofrag false (L1 ++ split n false size ++ L2) = true.
Proof.
  rewrite !nofrag_app. intros (->&[_ H]%andb_true_iff)%andb_true_iff E. rewrite E in H. simpl. unfold split. case_match; simpl; rewrite andb_false_r; simpl; [done|]. by apply nofrag_weaken.
Qed.

(** ** Blocks changed in place *)

Lemma split_at m p L1 n f L2 size : seg m p (L1 ++ (n, f) :: L2) 0 -> sized (L1 ++ (n, f) :: L2) -> mapped m p (bsz (L1 ++ (n, f) :: L2)) -> 0 < p -> p + bsz (L1 ++ (n, f) :: L2) < 2 ^ 63 -> 16 <= size < 2 ^ 63 ->
  exists m', split_block (p + bsz L1) size m = Some (tt, m') /\ seg m' p (L1 ++ split n f size ++ L2) 0 /\ touched (fun a => rng (p + bsz L1) 24 a \/ rng (p + bsz L1 + 24 + size) (n - size) a) m m'.
Proof.
  intros Hs Hz Hm Hp Hb Hsz. pose proof Hz as [H1 [Hn H2]%Forall_cons]%Forall_app. pose proof (bsz_nonneg _ H1). pose proof (bsz_nonneg _ H2). rewrite bsz_app in *. cbn [bsz fst] in *.
  destruct (split_block_run m (p + bsz L1) n f _ size (seg_at _ _ _ _ _ _ _ Hs)) as (m'&E&Hs'&Ht); [intros a Ha; apply Hm; lia|lia|lia|lia|destruct L2; lia|lia|].
  exists m'. split; [done|]. split; [|done]. apply (seg_replace m m' p L1 [(n, f)] (split n f size) L2); try done; [|apply split_ne|rewrite split_bsz; simpl; lia|].
  - apply (touched_weaken _ _ _ _ Ht). simpl. unfold rng. lia.
  - simpl. destruct L2; [done|]. replace (p + bsz L1 + (24 + n + 0)) with (p + bsz L1 + 24 + n) by lia. done.
Qed.
Lemma flag_at m p L1 n f g L2 : seg m p (L1 ++ (n, f) :: L2) 0 -> sized (L1 ++ (n, f) :: L2) ->
  exists m', put_free (p + bsz L1) (Z.b2z g) m = Some (tt, m') /\ seg m' p (L1 ++ (n, g) :: L2) 0 /\ touched (rng (p + bsz L1) 24) m m'.
Proof.
  intros Hs Hz. destruct (put_free_run _ _ _ _ _ g (seg_at _ _ _ _ _ _ _ Hs)) as (m'&E&Hh&Ht). exists m'. split; [done|]. split; [|done]. pose proof Hz as [_ [Hn _]%Forall_cons]%Forall_app. simpl in Hn.
  apply (seg_replace m m' p L1 [(n, f)] [(n, g)] L2); try done; [apply (touched_weaken _ _ _ _ Ht); simpl; unfold rng; lia|].
  simpl. split; [|done]. destruct L2; [done|]. replace (p + bsz L1 + (24 + n + 0)) with (p + bsz L1 + 24 + n) by lia. done.
Qed.
(** A free block taken: split, and its flag cleared. *)
Lemma take_at m p L1 n L2 size : seg m p (L1 ++ (n, true) :: L2) 0 -> sized (L1 ++ (n, true) :: L2) -> mapped m p (bsz (L1 ++ (n, true) :: L2)) -> 0 < p -> p + bsz (L1 ++ (n, true) :: L2) < 2 ^ 63 -> 16 <= size <= n ->
  exists m', (split_block (p + bsz L1) size ;;; put_free (p + bsz L1) 0) m = Some (tt, m') /\ seg m' p (L1 ++ split n false size ++ L2) 0 /\ touched (rng (p + bsz L1) (24 + n)) m m'.
Proof.
  intros Hs Hz Hm Hp Hb Hsz. pose proof Hz as [H1 [Hn H2]%Forall_cons]%Forall_app. pose proof (bsz_nonneg _ H1). pose proof (bsz_nonneg _ H2). rewrite bsz_app in Hb. simpl in Hb, Hn.
  destruct (split_at m p L1 n true L2 size) as (m1&E1&Hs1&T1); try done; [rewrite bsz_app; simpl; lia|lia|]. mstep E1.
  assert (exists k L3, split n true size ++ L2 = (k, true) :: L3 /\ split n false size ++ L2 = (k, false) :: L3) as (k&L3&E2&E3) by (unfold split; case_match; simpl; eauto). rewrite E2 in Hs1.
  destruct (flag_at m1 p L1 k true false L3 Hs1) as (m2&E4&Hs2&T2); [rewrite <-E2; apply Forall_app; split; [done|]; apply Forall_app; split; [apply split_sized; lia|done]|].
  change (Z.b2z false) with 0 in E4. rewrite E4, E3. exists m2. split; [done|]. split; [done|]. apply (touched_trans _ _ _ _ _ _ T1 T2); unfold rng; lia.
Qed.

(** ** Sizes *)

Lemma round_size_run size : 0 < size <= 2 ^ 63 -> size <= round_size size < size + 16 /\ 16 <= round_size size /\ round_size size mod 8 = 0.
Proof.
  intros H. unfold round_size, MIN_BLOCK_SIZE. rewrite u64_small by lia. change (u64 (Z.lnot 7)) with (Z.lxor (Z.ones 3) (Z.ones 64)). rewrite clear_low_bits by (unfold in_w; lia). change (2 ^ 3) with 8.
  pose proof (Z.mod_pos_bound (size + 7) 8 ltac:(lia)). destruct (Z.ltb_spec (size + 7 - (size + 7) mod 8) 16); [|split_and!; [lia..|]]. - split_and!; [lia..|done]. - rewrite Zminus_mod_idemp_r, Z.sub_diag. done.
Qed.
Lemma page_align_run n : 0 <= n < 2 ^ 64 - 4096 -> n <= page_align n < n + 4096.
Proof.
  intros H. unfold page_align, BRK_PAGE. rewrite u64_small by lia. change (u64 (Z.lnot (4096 - 1))) with (Z.lxor (Z.ones 12) (Z.ones 64)). rewrite clear_low_bits by (unfold in_w; lia). change (2 ^ 12) with 4096.
  pose proof (Z.mod_pos_bound (n + (4096 - 1)) 4096 ltac:(lia)). lia.
Qed.

(** ** The kernel's side *)

(** [brk_rep r b]: the kernel state [r] has the break at [b].  Asking with 0 returns it; asking for more either maps every byte up to
    the new break, keeping what was mapped, or refuses with a negative number. *)
Class BrkLaws (R : Type) `{!BrkEnv R} := {
  brk_rep : R -> Z -> Prop;
  brk_range r b : brk_rep r b -> 0 < b <= 2 ^ 47;
  brk_query m r b : brk_rep r b -> sys_brk 0 (m, r) = Some (b, (m, r));
  brk_grow m r b a : brk_rep r b -> mem_ok m -> b <= a < 2 ^ 64 -> exists v m' r', sys_brk a (m, r) = Some (v, (m', r')) /\ m ⊆ m' /\ mem_ok m' /\
    ((v = a /\ brk_rep r' a /\ mapped m' b (a - b)) \/ (v < 0 /\ brk_rep r' b))
}.

Section Heap.
Context {R : Type} `{!BrkEnv R} `{!BrkLaws R}.
Implicit Types s : um R.

(** The heap between its base and the break: its first bytes are the blocks [L], no two free ones next to each other. *)
Record hinv s (L : list (Z * bool)) : Prop := {
  hv_ok : mem_ok (um_mem s);
  hv_base : 0 < g_heap_base s;
  hv_end : g_heap_base s + bsz L <= g_heap_brk s;
  hv_rep : brk_rep (um_os s) (g_heap_brk s);
  hv_map : mapped (um_mem s) (g_heap_base s) (g_heap_brk s - g_heap_base s);
  hv_head : g_heap_head s = if L is [] then 0 else g_heap_base s;
  hv_seg : seg (um_mem s) (g_heap_base s) L 0;
  hv_sized : sized L;
  hv_frag : nofrag false L = true
}.
(** Or no call has been made yet. *)
Definition uinv s (L : list (Z * bool)) : Prop :=
  hinv s L \/ (g_heap_base s = 0 /\ g_heap_head s = 0 /\ L = [] /\ mem_ok (um_mem s) /\ exists b, brk_rep (um_os s) b).

Definition with_mem (m : mem) s : um R := Um m (um_os s) (g_heap_head s) (g_heap_brk s) (g_heap_base s).
Lemma on_umem_run {A} (c : M mem A) s v m : c (um_mem s) = Some (v, m) -> on_umem c s = Some (v, with_mem m s).
Proof. unfold on_umem. by intros ->. Qed.
Lemma on_umem_read {A} (c : M mem A) s v : c (um_mem s) = Some (v, um_mem s) -> on_umem c s = Some (v, s).
Proof. intros E. rewrite (on_umem_run _ _ _ _ E). by destruct s. Qed.
Lemma with_mem_hinv s L L' m : hinv s L -> touched (rng (g_heap_base s) (g_heap_brk s - g_heap_base s)) (um_mem s) m -> seg m (g_heap_base s) L' 0 -> sized L' -> nofrag false L' = true ->
  (L = [] <-> L' = []) -> g_heap_base s + bsz L' <= g_heap_brk s -> hinv (with_mem m s) L'.
Proof.
  intros [] Ht Hs Hz Hf Hne Hb. split; try done; simpl; [by apply (tch_ok _ _ _ Ht)|by apply (touched_mapped _ _ _ _ _ Ht)|]. rewrite hv_head0. destruct L, L'; try done; naive_solver.
Qed.
Lemma heap_bound s L : hinv s L -> 0 < g_heap_base s /\ g_heap_base s + bsz L <= g_heap_brk s <= 2 ^ 47 /\ 0 <= bsz L.
Proof. intros H. pose proof (hv_end _ _ H). pose proof (brk_range _ _ (hv_rep _ _ H)). pose proof (bsz_nonneg _ (hv_sized _ _ H)). pose proof (hv_base _ _ H). lia. Qed.
Lemma blocks_fuel s L : hinv s L -> (length L < S (size (um_mem s)))%nat.
Proof.
  intros H. pose proof (mapped_size _ _ _ (hv_map _ _ H)). pose proof (bsz_nonneg _ (hv_sized _ _ H)). pose proof (hv_end _ _ H). lia.
Qed.
Lemma blocks_mapped s L : hinv s L -> mapped (um_mem s) (g_heap_base s) (bsz L).
Proof. intros H a Ha. apply (hv_map _ _ H). pose proof (hv_end _ _ H). lia. Qed.

Lemma heap_init_run s L : uinv s L -> exists s', heap_init s = Some (true, s') /\ hinv s' L /\ um_mem s' = um_mem s /\ (L <> [] -> s' = s).
Proof.
  unfold heap_init, mbind_, mgets. intros [Hi|(Eb&Eh&->&Hok&b&Hb)].
  - rewrite (proj2 (Z.eqb_neq _ 0)) by (pose proof (hv_base _ _ Hi); lia). exists s. by split_and!.
  - rewrite Eb. cbn [Z.eqb negb]. unfold brk. rewrite (brk_query _ _ _ Hb). pose proof (brk_range _ _ Hb). rewrite (proj2 (Z.ltb_ge b 0)) by lia. eexists. split; [reflexivity|]. rewrite u64_small by lia.
    split; [|by split]. split; simpl; try done; try lia; [|by constructor]. intros a Ha. lia.
Qed.

(** The break moved up by at least [n] bytes, or not at all. *)
Lemma grow_run s L n : hinv s L -> 0 <= n < 2 ^ 64 - 2 ^ 48 -> exists b s', grow_heap n s = Some (b, s') /\ um_mem s ⊆ um_mem s' /\ hinv s' L /\ g_heap_base s' = g_heap_base s /\
  (exists v m r, sys_brk (g_heap_brk s + page_align n) (um_mem s, um_os s) = Some (v, (m, r)) /\ b = negb (v <? 0)) /\ g_heap_brk s' = (if b : bool then g_heap_brk s + page_align n else g_heap_brk s).
Proof.
  intros Hi Hn. destruct (heap_bound _ _ Hi) as (B1&B2&B3). destruct (page_align_run n ltac:(lia)) as [Hp1 Hp2].
  destruct (brk_grow (um_mem s) _ _ (g_heap_brk s + page_align n) (hv_rep _ _ Hi) (hv_ok _ _ Hi) ltac:(lia)) as (v&m&r&E&Hsub&Hok&Hv).
  assert (grow_heap n s = Some (negb (v <? 0), Um m r (g_heap_head s) (if negb (v <? 0) then g_heap_brk s + page_align n else g_heap_brk s) (g_heap_base s))) as Eg.
  { unfold grow_heap, mbind_, mgets, brk. rewrite u64_small, E by lia. destruct Hv as [(->&_&_)|[Hneg _]]; [|by rewrite (proj2 (Z.ltb_lt _ _) Hneg)]. rewrite (proj2 (Z.ltb_ge _ 0)) by lia. unfold mmodify, mret, set_heap_brk. simpl. by rewrite u64_small by lia. }
  exists (negb (v <? 0)). eexists. split; [exact Eg|]. split; [done|]. split; [|split; [done|split; [by exists v, m, r|done]]].
  assert (forall p k, mapped (um_mem s) p k -> mapped m p k) as Hmm by (intros p k Hk a Ha; destruct (Hk a Ha) as [c Hc]; exists c; by apply (lookup_weaken (um_mem s))).
  destruct Hi. split; cbn [um_mem um_os g_heap_head g_heap_brk g_heap_base]; try done.
  - destruct Hv as [(->&_&_)|[Hneg _]]; [rewrite (proj2 (Z.ltb_ge _ 0)) by lia|rewrite (proj2 (Z.ltb_lt _ _) Hneg)]; simpl; lia.
  - destruct Hv as [(->&Hr&_)|[Hneg Hr]]; [rewrite (proj2 (Z.ltb_ge _ 0)) by lia|rewrite (proj2 (Z.ltb_lt _ _) Hneg)]; done.
  - destruct Hv as [(->&_&Hm)|[Hneg _]]; [rewrite (proj2 (Z.ltb_ge _ 0)) by lia|rewrite (proj2 (Z.ltb_lt _ _) Hneg); by apply Hmm]. cbn [negb].
    intros a Ha. destruct (decide (a < g_heap_brk s)); [apply (Hmm _ _ hv_map0)|apply Hm]; lia.
  - by apply (seg_mono (um_mem s)).
Qed.
Lemma on_umem_bind {A B} (a : M mem A) (k : A -> M mem B) s : (x <~ on_umem a ;; on_umem (k x)) s = on_umem (mbind_ a k) s.
Proof. unfold mbind_, on_umem. destruct (a (um_mem s)) as [[x m]|]; [|done]. simpl. by destruct (k x m) as [[? ?]|]. Qed.

(** What a request of [r] bytes (rounded) finds and does: [v] is the result. *)
Definition fit_case (r : Z) s (L : list (Z * bool)) s' L' (v : Z) : Prop := exists L1 n L2, L = L1 ++ (n, true) :: L2 /\ r <= n /\ Forall (fun b => fits r b = false) L1 /\
  v = g_heap_base s + bsz L1 + 24 /\ L' = L1 ++ split n false r ++ L2 /\ um_os s' = um_os s /\ g_heap_brk s' = g_heap_brk s.
Definition grow_case (r : Z) s (L : list (Z * bool)) s' L' (v : Z) : Prop := Forall (fun b => fits r b = false) L /\ exists x m o, sys_brk (g_heap_brk s + page_align (r + 24)) (um_mem s, um_os s) = Some (x, (m, o)) /\
  ((x < 0 /\ v = 0 /\ L' = L /\ g_heap_brk s' = g_heap_brk s) \/
   (0 <= x /\ g_heap_brk s' = g_heap_brk s + page_align (r + 24) /\
    ((exists L1 n, L = L1 ++ [(n, true)] /\ v = g_heap_base s + bsz L1 + 24 /\ L' = L1 ++ split (n + (r + 24)) false r) \/
     (lastf false L = false /\ v = g_heap_base s + bsz L + 24 /\ L' = L ++ [(r, false)])))).

Lemma take_run s L1 n L2 r : hinv s (L1 ++ (n, true) :: L2) -> 16 <= r <= n -> let P := g_heap_base s + bsz L1 in
  exists m, (on_umem (split_block P r) ;;; on_umem (put_free P 0)) s = Some (tt, with_mem m s) /\ hinv (with_mem m s) (L1 ++ split n false r ++ L2) /\
    keeps (g_heap_base s) (L1 ++ (n, true) :: L2) (L1 ++ split n false r ++ L2) (um_mem s) m.
Proof.
  intros Hi Hr P. destruct (heap_bound _ _ Hi) as (B1&B2&B3). pose proof (hv_sized _ _ Hi) as Hz. pose proof Hz as [H1 [Hn H2]%Forall_cons]%Forall_app. pose proof (bsz_nonneg _ H1). pose proof (bsz_nonneg _ H2).
  rewrite bsz_app in *. cbn [bsz] in *.
  destruct (take_at (um_mem s) (g_heap_base s) L1 n L2 r (hv_seg _ _ Hi) Hz (blocks_mapped _ _ Hi)) as (m&E&Hs&Ht); [lia|rewrite bsz_app; simpl; lia|done|]. exists m.
  split; [rewrite (on_umem_bind (split_block P r)); by apply on_umem_run|]. split.
  - apply (with_mem_hinv s _ _ m Hi); [apply (touched_weaken _ _ _ _ Ht); unfold rng; lia|done|..].
    + apply Forall_app; split; [done|]. apply Forall_app; split; [apply split_sized; lia|done].
    + apply (split_nofrag L1 [(n, true)]); [apply Hi|done].
    + split; intros E'; [by destruct L1|]. apply app_eq_nil in E' as [_ [E' _]%app_eq_nil]. by apply split_ne in E'.
    + rewrite !bsz_app, split_bsz. lia.
  - apply (keeps_replace _ L1 [(n, true)]); [done|rewrite split_bsz; simpl; lia| |apply (touched_weaken _ _ _ _ Ht); simpl; unfold rng; lia].
    intros q a k Ho. apply obj_cons in Ho as [[? _]|Ho]; [done|by apply obj_nil in Ho].
Qed.
Lemma fit_exact s L1 n L2 r : hinv s (L1 ++ (n, true) :: L2) -> 16 <= r <= n -> let P := g_heap_base s + bsz L1 in let L' := L1 ++ split n false r ++ L2 in
  exists s', (on_umem (split_block P r) ;;; on_umem (put_free P 0) ;;; return (u64 (P + BLOCK_HDR_SIZE))) s = Some (P + 24, s') /\ hinv s' L' /\ um_os s' = um_os s /\ g_heap_brk s' = g_heap_brk s /\
    g_heap_base s' = g_heap_base s /\ keeps (g_heap_base s) (L1 ++ (n, true) :: L2) L' (um_mem s) (um_mem s').
Proof.
  intros Hi Hr P L'. destruct (take_run s L1 n L2 r Hi Hr) as (m&E&Hi'&Hk). exists (with_mem m s). split; [|by split_and!]. destruct (heap_bound _ _ Hi) as (B1&B2&B3). pose proof (hv_sized _ _ Hi) as [H1 [Hn H2]%Forall_cons]%Forall_app.
  pose proof (bsz_nonneg _ H1). pose proof (bsz_nonneg _ H2). rewrite bsz_app in *. cbn [bsz] in *. simpl in Hn. fold P in E. unfold mbind_ in E |- *. destruct (on_umem (split_block P r) s) as [[[] s1]|]; [|done]. rewrite E. unfold mret, BLOCK_HDR_SIZE. rewrite u64_small by lia. done.
Qed.
(** The last block, free, extended by [k] bytes. *)
Lemma extend_last s L n k : hinv s (L ++ [(n, true)]) -> g_heap_base s + bsz (L ++ [(n, true)]) + k <= g_heap_brk s -> 0 <= k ->
  exists m, on_umem (put_size (g_heap_base s + bsz L) (u64 (n + k))) s = Some (tt, with_mem m s) /\ hinv (with_mem m s) (L ++ [(n + k, true)]) /\ keeps (g_heap_base s) (L ++ [(n, true)]) (L ++ [(n + k, true)]) (um_mem s) m.
Proof.
  intros Hi Hb Hk. destruct (heap_bound _ _ Hi) as (B1&B2&B3). pose proof (hv_sized _ _ Hi) as Hz. pose proof Hz as [H1 [Hn _]%Forall_cons]%Forall_app. pose proof (bsz_nonneg _ H1). rewrite bsz_app in *. simpl in *.
  rewrite u64_small by lia. pose proof (hv_seg _ _ Hi) as [Hs1 [Hh _]]%seg_app. destruct (put_size_run _ _ _ _ _ (n + k) Hh ltac:(lia)) as (m&E&Hh'&Ht). exists m. split; [by apply on_umem_run|]. split.
  - apply (with_mem_hinv s _ _ m Hi); [apply (touched_weaken _ _ _ _ Ht); unfold rng; lia| |..].
    + apply seg_app. split; [|by split]. apply (seg_ext _ _ _ _ _ _ Ht); [|done]. intros a Ha%in_hdr_range; [unfold rng in *; lia|done].
    + apply Forall_app; split; [done|]. repeat constructor. simpl. lia.
    + pose proof (hv_frag _ _ Hi) as Hf. rewrite nofrag_app in Hf |- *. done.
    + split; intros E'; by destruct L.
    + rewrite bsz_app. simpl. lia.
  - intros a c Ho. apply obj_app in Ho as [Ho|Ho]; [|apply obj_cons in Ho as [[? _]|Ho]; [done|by apply obj_nil in Ho]]. split; [apply obj_app; by left|].
    intros x Hx. apply (tch_out _ _ _ Ht). apply obj_sized in Ho as (?&?&?); [|done]. unfold rng in *. lia.
Qed.
(** A new block behind the last one: the header first, then the link to it. *)
Lemma append_block s L n : hinv s L -> lastf false L = false -> g_heap_base s + bsz L + 24 + n <= g_heap_brk s -> 16 <= n -> L <> [] -> let b := g_heap_base s + bsz L in
  exists m1 m, on_umem (put_size b n ;;; put_free b 0 ;;; put_next b 0) s = Some (tt, with_mem m1 s) /\
    (last <~ on_umem (fuelled (fun k => last_loop k (g_heap_base s))) ;; on_umem (put_next last b)) (with_mem m1 s) = Some (tt, with_mem m s) /\
    hinv (with_mem m s) (L ++ [(n, false)]) /\ keeps (g_heap_base s) L (L ++ [(n, false)]) (um_mem s) m.
Proof.
  intros Hi Hl Hb Hn Hne b. destruct (heap_bound _ _ Hi) as (B1&B2&B3). destruct (new_hdr_run (um_mem s) b n false) as (m1&m2&E1&E2&T2&Hnew); [intros a Ha; apply (hv_map _ _ Hi); unfold b in *; lia|lia|].
  destruct (Hnew 0 ltac:(lia)) as (m3&E3&Hh3&T3). exists m3. destruct (exists_last Hne) as (L0&[k f]&->). pose proof (hv_sized _ _ Hi) as Hz. pose proof Hz as [H1 [Hk _]%Forall_cons]%Forall_app. pose proof (bsz_nonneg _ H1). unfold b in *. rewrite bsz_app in *. simpl in *.
  assert (f = false) as -> by (clear -Hl; revert Hl; generalize false at 1; induction L0 as [|[? ?] L0 IH]; simpl; [done|]; intros ?; apply IH).
  assert (seg m3 (g_heap_base s) (L0 ++ [(k, false)]) 0) as Hs3 by (apply (seg_ext _ _ _ _ _ _ T3); [intros a Ha%in_hdr_range; [rewrite bsz_app in Ha; unfold rng in *; simpl in *; lia|done]|apply Hi]).
  pose proof Hs3 as [Hs0 [Hh _]]%seg_app. set (c := g_heap_base s + (bsz L0 + (24 + k + 0))) in *. destruct (put_next_run _ _ _ _ _ c Hh ltac:(unfold c; lia)) as (m4&E4&Hh4&T4). exists m4.
  split; [apply on_umem_run; mstep E1; mstep E2; by rewrite E3|].
  assert (on_umem (fuelled (fun k0 => last_loop k0 (g_heap_base s))) (with_mem m3 s) = Some (g_heap_base s + bsz L0, with_mem m3 s)) as El.
  { apply on_umem_read. unfold fuelled. apply (last_run L0 k false); try done. simpl. pose proof (mapped_size m3 (g_heap_base s) _ (touched_mapped _ _ _ _ _ T3 (hv_map _ _ Hi))). lia. }
  mstep El. split; [by rewrite (on_umem_run _ _ tt m4)|]. assert (touched (fun a => rng (g_heap_base s + bsz L0) 24 a \/ rng c 24 a) (um_mem s) m4) as T by (apply (touched_trans _ _ _ _ _ _ T3 T4); auto). split.
  - apply (with_mem_hinv s _ _ m4 Hi); [apply (touched_weaken _ _ _ _ T); unfold rng, c; lia| |..].
    + apply seg_app. rewrite bsz_app. simpl. fold c. split; [|split; [|done]].
      * apply seg_app. simpl. split; [apply (seg_ext _ _ _ _ _ _ T4); [intros a Ha%in_hdr_range; [unfold rng in *; lia|done]|done]|split; [|done]]. done.
      * apply (hdr_ext _ m3 _ _ _ _ _ T4); [unfold rng, c; lia|done].
    + apply Forall_app; split; [done|]. by repeat constructor.
    + pose proof (hv_frag _ _ Hi) as Hf. rewrite nofrag_app, Hf, Hl. done.
    + split; intros E'; by destruct L0.
    + rewrite !bsz_app. simpl. lia.
  - intros a j Ho. split; [apply obj_app; by left|]. intros x Hx. apply (tch_out _ _ _ T). pose proof (obj_in_hdr _ _ _ _ x Hz Ho Hx) as Hnh. apply obj_sized in Ho as (?&?&?); [|done]. rewrite bsz_app in *. simpl in *.
    intros [Hr|Hr]; [apply Hnh, in_hdr_app; right; by left|unfold rng, c in *; lia].
Qed.
Lemma lastf_snoc L n f pf : lastf pf (L ++ [(n, f)]) = f.
Proof. revert pf. induction L as [|[t g] L IH]; intros pf; simpl; [done|apply IH]. Qed.
(** The heap's first block. *)
Lemma first_block s n : hinv s [] -> g_heap_base s + 24 + n <= g_heap_brk s -> 16 <= n -> let b := g_heap_base s in
  exists m, (on_umem (put_size b n ;;; put_free b 0 ;;; put_next b 0) ;;; mmodify (set_heap_head b)) s = Some (tt, set_heap_head b (with_mem m s)) /\ hinv (set_heap_head b (with_mem m s)) [(n, false)].
Proof.
  intros Hi Hb Hn b. destruct (heap_bound _ _ Hi) as (B1&B2&B3). destruct (new_hdr_run (um_mem s) b n false) as (m1&m2&E1&E2&T2&Hnew); [intros a Ha; apply (hv_map _ _ Hi); unfold b in *; lia|lia|].
  destruct (Hnew 0 ltac:(lia)) as (m&E3&Hh&T3). exists m. split.
  - assert (on_umem (put_size b n ;;; put_free b 0 ;;; put_next b 0) s = Some (tt, with_mem m s)) as E by (apply on_umem_run; mstep E1; mstep E2; by rewrite E3). mstep E. done.
  - destruct Hi. split; simpl; try done; [by apply (tch_ok _ _ _ T3)|lia|by apply (touched_mapped _ _ _ _ _ T3)|by repeat constructor].
Qed.
Lemma grown_cases s L r : hinv s L -> let needed := r + 24 in g_heap_base s + bsz L + needed <= g_heap_brk s -> 16 <= r ->
  exists v s' L', malloc_place r needed s = Some (v, s') /\ hinv s' L' /\ g_heap_base s' = g_heap_base s /\ g_heap_brk s' = g_heap_brk s /\ keeps (g_heap_base s) L L' (um_mem s) (um_mem s') /\
  ((exists L1 n, L = L1 ++ [(n, true)] /\ v = g_heap_base s + bsz L1 + 24 /\ L' = L1 ++ split (n + (r + 24)) false r) \/ (lastf false L = false /\ v = g_heap_base s + bsz L + 24 /\ L' = L ++ [(r, false)])).
Proof.
  intros Hi needed Hb Hr. destruct (heap_bound _ _ Hi) as (B1&B2&B3). unfold malloc_place, mgets at 1. unfold mbind_ at 1. rewrite (hv_head _ _ Hi). unfold needed in *. rewrite (u64_small (r + 24 - BLOCK_HDR_SIZE)) by (unfold BLOCK_HDR_SIZE; lia). replace (r + 24 - BLOCK_HDR_SIZE) with r by (unfold BLOCK_HDR_SIZE; lia).
  destruct (decide (L = [])) as [->|Hne].
  - cbn [Z.eqb negb]. destruct (first_block s r Hi ltac:(simpl in *; lia) Hr) as (m&E&Hi'). unfold mgets, mbind_ at 1. set (b := g_heap_base s) in *. eexists _, _, [(r, false)]. split.
    { unfold mbind_ in E |- *. destruct (on_umem _ s) as [[[] s1]|]; [|done]. unfold mmodify in E |- *. assert (set_heap_head b s1 = set_heap_head b (with_mem m s)) as -> by congruence. unfold mret. rewrite u64_small by (unfold BLOCK_HDR_SIZE, b in *; lia). reflexivity. }
    split; [exact Hi'|]. split_and!; [done|done|intros a n Ho; by apply obj_nil in Ho|]. right. split_and!; [done|simpl; unfold BLOCK_HDR_SIZE; lia|done].
  - destruct (exists_last Hne) as (L0&[n f]&->). pose proof (hv_sized _ _ Hi) as Hz. pose proof Hz as [Z1 [Hn _]%Forall_cons]%Forall_app. pose proof (bsz_nonneg _ Z1) as B4. simpl in Hn.
    assert (match L0 ++ [(n, f)] with [] => 0 | _ => g_heap_base s end = g_heap_base s) as -> by (by destruct L0). rewrite (proj2 (Z.eqb_neq (g_heap_base s) 0)) by lia. cbn [negb].
    assert (on_umem (fuelled (fun k => last_loop k (g_heap_base s))) s = Some (g_heap_base s + bsz L0, s)) as El.
    { apply on_umem_read. unfold fuelled. apply (last_run L0 n f); [|apply Hi|done|lia]. pose proof (blocks_fuel _ _ Hi) as Hf. rewrite length_app in Hf. simpl in Hf. lia. }
    mstep El. pose proof (hv_seg _ _ Hi) as [_ [Hh _]]%seg_app. mstep (on_umem_read _ _ _ (get_free_run _ _ _ _ _ Hh)). pose proof (on_umem_read _ _ _ (get_size_run _ _ _ _ _ Hh)) as Es.
    destruct f; mstep Es.
    + destruct (extend_last s L0 n (r + 24) Hi ltac:(lia) ltac:(lia)) as (m&E&Hi1&Hk1). mstep E. rewrite bsz_app in Hb. simpl in Hb.
      destruct (fit_exact (with_mem m s) L0 (n + (r + 24)) [] r Hi1 ltac:(lia)) as (s'&E2&Hi2&Eo&Eb&Ebs&Hk2). eexists _, s', _. split; [exact E2|]. rewrite app_nil_r in *. split; [exact Hi2|]. split_and!; [done..|by apply (keeps_trans _ _ _ _ _ _ _ Hk1)|]. left. by exists L0, n.
    + rewrite bsz_app in Hb, B2. simpl in Hb, B2. replace (u64 (g_heap_base s + bsz L0 + BLOCK_HDR_SIZE + n)) with (g_heap_base s + bsz (L0 ++ [(n, false)])) by (rewrite bsz_app; simpl; unfold BLOCK_HDR_SIZE; rewrite u64_small by lia; lia).
      destruct (append_block s _ r Hi) as (m1&m&E1&E2&Hi2&Hk2); [apply lastf_snoc|rewrite bsz_app; simpl; lia|done|done|]. cbn zeta. mstep E1. unfold mbind_ in E2. unfold mbind_ at 1.
      destruct (on_umem (fuelled _) (with_mem m1 s)) as [[l s2]|]; [|done]. mstep E2. eexists _, _, _. split; [unfold mret, BLOCK_HDR_SIZE; rewrite u64_small by (rewrite bsz_app; simpl; lia); reflexivity|].
      split; [exact Hi2|]. split_and!; [done..|]. right. split; [apply lastf_snoc|]. by split.
Qed.

Lemma malloc_exact_ok s L size : hinv s L -> 0 < size <= 2 ^ 63 -> exists v s' L', malloc size s = Some (v, s') /\ hinv s' L' /\ g_heap_base s' = g_heap_base s /\ keeps (g_heap_base s) L L' (um_mem s) (um_mem s') /\
  (fit_case (round_size size) s L s' L' v \/ grow_case (round_size size) s L s' L' v).
Proof.
  intros Hi Hsz. destruct (round_size_run size Hsz) as (R1&R2&_). destruct (heap_bound _ _ Hi) as (B1&B2&B3). unfold malloc. rewrite (proj2 (Z.eqb_neq size 0)) by lia. set (r := round_size size) in *.
  assert (heap_init s = Some (true, s)) as Ei by (unfold heap_init, mbind_, mgets; by rewrite (proj2 (Z.eqb_neq (g_heap_base s) 0)) by lia). mstep Ei. cbn [negb]. unfold mgets, mbind_ at 1. rewrite (hv_head _ _ Hi).
  destruct (fit_run L r (S (base.size (um_mem s))) (um_mem s) (g_heap_base s)) as [[E HF]|(L1&n&L2&->&Hn&HF&E)]; [apply (blocks_fuel _ _ Hi)|apply Hi|apply Hi|lia|..].
  - mstep (on_umem_read (fuelled (fun k => fit_loop k (if L is [] then 0 else g_heap_base s) r)) s _ E). cbn [Z.eqb negb]. unfold malloc_grow. rewrite (u64_small (r + BLOCK_HDR_SIZE)) by (unfold BLOCK_HDR_SIZE; lia). change (r + BLOCK_HDR_SIZE) with (r + 24).
    destruct (grow_run s L (r + 24) Hi ltac:(lia)) as (b&s1&Eg&Hsub&Hi1&Ebs&(x&m&o&Ex&->)&Ebrk). mstep Eg. assert (keeps (g_heap_base s) L L (um_mem s) (um_mem s1)) as Hk1.
    { intros a n Ho. split; [done|]. intros y Hy. apply obj_sized in Ho as (O1&O2&O3); [|apply Hi]. destruct (hv_map _ _ Hi y ltac:(unfold rng in *; lia)) as [c Hc]. rewrite Hc. by apply (lookup_weaken (um_mem s)). }
    destruct (page_align_run (r + 24) ltac:(lia)) as [P1 P2]. destruct (Z.ltb_spec x 0) as [Hx|Hx]; cbn [negb] in *.
    + exists 0, s1, L. split_and!; [done..|]. right. split; [done|]. exists x, m, o. split; [done|]. left. by split_and!.
    + rewrite <-Ebs in *. destruct (grown_cases s1 L r Hi1 ltac:(lia) R2) as (v&s'&L'&E'&Hi'&Eb'&Ebrk'&Hk&Hc). exists v, s', L'. split; [exact E'|]. split_and!; [done..|by apply (keeps_trans _ _ _ _ _ _ _ Hk1)|].
      right. split; [done|]. exists x, m, o. split; [done|]. right. split_and!; [done|congruence|]. rewrite Ebs in Hc. exact Hc.
  - mstep (on_umem_read (fuelled (fun k => fit_loop k (if L1 ++ (n, true) :: L2 is [] then 0 else g_heap_base s) r)) s _ E). pose proof (hv_sized _ _ Hi) as [Z1 _]%Forall_app. pose proof (bsz_nonneg _ Z1) as B4. rewrite (proj2 (Z.eqb_neq (g_heap_base s + bsz L1) 0)) by lia. cbn [negb].
    destruct (fit_exact s L1 n L2 r Hi ltac:(lia)) as (s'&E'&Hi'&Eo&Ebk&Eb&Hk). exists (g_heap_base s + bsz L1 + 24), s', (L1 ++ split n false r ++ L2). split; [exact E'|]. split_and!; [done..|]. left. exists L1, n, L2. by split_and!.
Qed.

(** ** The calls, on the blocks *)

Lemma not_free_obj p L1 n L2 k : sized (L1 ++ (n, true) :: L2) -> ~ obj p (L1 ++ (n, true) :: L2) (p + bsz L1 + 24) k.
Proof.
  intros Hz (P&S&E&Ea). pose proof Hz as [Z1 [Zn _]%Forall_cons]%Forall_app. rewrite E in Hz. apply Forall_app in Hz as [Z2 [Zk _]%Forall_cons].
  destruct (same_place _ _ _ _ _ _ Z1 Z2 Zn Zk E) as [(_&[=]&_)|H]; simpl in *; lia.
Qed.
Lemma split_first p L1 n size L2 : exists k, obj p (L1 ++ split n false size ++ L2) (p + bsz L1 + 24) k /\ (size <= n -> size <= k).
Proof. unfold split. destruct (Z.leb_spec (size + 40) n); eexists; (split; [eexists L1, _; split; [reflexivity|done]|]); lia. Qed.
Lemma malloc_run s L size : uinv s L -> 0 < size <= 2 ^ 63 -> exists v s' L', malloc size s = Some (v, s') /\ hinv s' L' /\ keeps (g_heap_base s') L L' (um_mem s) (um_mem s') /\ (L <> [] -> g_heap_base s' = g_heap_base s) /\
  (v = 0 \/ (0 < v /\ (exists k, obj (g_heap_base s') L' v k /\ size <= k) /\ forall k, ~ obj (g_heap_base s') L v k)).
Proof.
  intros Hu Hsz. destruct (heap_init_run s L Hu) as (s1&Ei&Hi&Em&Es). destruct (malloc_exact_ok s1 L size Hi Hsz) as (v&s'&L'&E&Hi'&Eb&Hk&Hc).
  exists v, s', L'. rewrite <-Em, Eb. split.
  { rewrite <-E. unfold malloc. rewrite (proj2 (Z.eqb_neq size 0)) by lia. destruct (heap_bound _ _ Hi) as (B1&_). assert (heap_init s1 = Some (true, s1)) as E1 by (unfold heap_init, mbind_, mgets; by rewrite (proj2 (Z.eqb_neq _ 0)) by lia). mstep Ei. by mstep E1. }
  split; [done|]. split; [done|]. split; [intros Hne; by rewrite Es|]. destruct (round_size_run size Hsz) as (R1&R2&_). destruct (heap_bound _ _ Hi) as (B1&B2&B3). pose proof (hv_sized _ _ Hi) as Hz.
  destruct Hc as [(L1&n&L2&->&Hn&_&->&->&_)|(_&x&m&o&_&[(_&->&_)|(_&_&[(L1&n&->&->&->)|(_&->&->)])])]; [right|by left|right..].
  - pose proof Hz as [Z1 _]%Forall_app. pose proof (bsz_nonneg _ Z1) as B4. destruct (split_first (g_heap_base s1) L1 n (round_size size) L2) as (k&Ho&Hle). split_and!; [lia|exists k; split; [done|lia]|intros j; by apply not_free_obj].
  - pose proof Hz as [Z1 [Zn _]%Forall_cons]%Forall_app. pose proof (bsz_nonneg _ Z1) as B4. simpl in Zn. destruct (split_first (g_heap_base s1) L1 (n + (round_size size + 24)) (round_size size) []) as (k&Ho&Hle). rewrite app_nil_r in Ho. split_and!; [lia|exists k; split; [done|lia]|intros j; by apply not_free_obj].
  - split_and!; [lia|exists (round_size size); split; [exists L, []; by split|lia]|]. intros j Ho%obj_sized; [lia|done].
Qed.

Lemma merged_obj L : forall p n f a k, obj p ((n, f) :: L) a k -> obj p (merged n f L) a k.
Proof.
  induction L as [|[t g] L IH]; intros p n f a k Ho; simpl; [done|]. destruct (f && g) eqn:E.
  - apply andb_true_iff in E as [-> ->]. apply IH. apply obj_cons in Ho as [[? _]|Ho]; [done|]. apply obj_cons in Ho as [[? _]|Ho]; [done|]. apply obj_cons. right. by replace (p + 24 + (n + 24 + t)) with (p + 24 + n + 24 + t) by lia.
  - apply obj_cons in Ho as [Ho|Ho]; apply obj_cons; [by left|right; by apply IH].
Qed.
(** As [keeps], for all objects but the one at [q]. *)
Definition keeps_but (q p : Z) (L L' : list (Z * bool)) (m m' : mem) : Prop := forall a n, obj p L a n -> a <> q -> obj p L' a n /\ forall x, rng a n x -> m' !! x = m !! x.

Lemma free_run s L1 n L2 : let L := L1 ++ (n, false) :: L2 in let p := g_heap_base s + bsz L1 + 24 in hinv s L -> exists s' L', free p s = Some (tt, s') /\ hinv s' L' /\ g_heap_base s' = g_heap_base s /\
  keeps_but p (g_heap_base s) L L' (um_mem s) (um_mem s') /\ L' = match L1 ++ (n, true) :: L2 with [] => [] | (k, f) :: T => merged k f T end.
Proof.
  intros L p Hi. unfold L in *. destruct (heap_bound _ _ Hi) as (B1&B2&B3). pose proof (hv_sized _ _ Hi) as Hz. pose proof Hz as [Z1 [Zn Z2]%Forall_cons]%Forall_app. pose proof (bsz_nonneg _ Z1) as B4. pose proof (bsz_nonneg _ Z2) as B5. rewrite bsz_app in *. simpl in Zn, B2, B3.
  unfold free, BLOCK_HDR_SIZE. rewrite (proj2 (Z.eqb_neq p 0)) by (unfold p; lia). rewrite u64_small by (unfold p; lia). replace (p - 24) with (g_heap_base s + bsz L1) by (unfold p; lia).
  destruct (flag_at _ _ L1 n false true L2 (hv_seg _ _ Hi) Hz) as (m1&E1&Hs1&T1). change (Z.b2z true) with 1 in E1. mstep (on_umem_run _ s _ _ E1).
  assert (sized (L1 ++ (n, true) :: L2)) as Hz1 by (apply Forall_app; split; [done|by constructor]). assert (bsz (L1 ++ (n, true) :: L2) = bsz L1 + (24 + n + bsz L2)) as Eb by (rewrite bsz_app; done).
  destruct (L1 ++ (n, true) :: L2) as [|[k f] T] eqn:ET; [by destruct L1|]. unfold coalesce, mgets, mbind_. assert (g_heap_head (with_mem m1 s) = g_heap_base s) as -> by (simpl; rewrite (hv_head _ _ Hi); by destruct L1).
  assert (mapped m1 (g_heap_base s) (g_heap_brk s - g_heap_base s)) as Hm1 by (apply (touched_mapped _ _ _ _ _ T1), Hi). pose proof (mapped_size _ _ _ Hm1). pose proof (bsz_nonneg _ Hz1) as B6. simpl length in B6.
  destruct (merge_run T (S (base.size m1)) m1 (g_heap_base s) k f) as (m2&E2&Hs2&T2); [lia|done..|lia|]. exists (with_mem m2 s), (merged k f T).
  split; [by rewrite (on_umem_run _ (with_mem m1 s) tt m2)|]. split; [|split; [done|split; [|done]]].
  - apply (with_mem_hinv s _ _ m2 Hi); [apply (touched_trans _ _ _ _ _ _ T1 T2); [unfold rng; lia|]|done|by apply merged_sized|by apply merged_nofrag; rewrite andb_false_l|..].
    + intros a Ha%in_hdr_range; [unfold rng in *; lia|done].
    + split; intros E; [by destruct L1|by apply merged_ne in E].
    + rewrite merged_bsz. lia.
  - intros a j Ho Hne. assert (obj (g_heap_base s) ((k, f) :: T) a j) as Ho1.
    { rewrite <-ET. rewrite obj_app, obj_cons in Ho |- *. destruct Ho as [Ho|[(_&->&_)|Ho]]; [by left|done|by right; right]. }
    split; [by apply merged_obj|]. intros x Hx. simpl. rewrite (tch_out _ _ _ T2) by (by apply (obj_in_hdr _ _ a j)). apply (tch_out _ _ _ T1). intros Hr. apply (obj_in_hdr _ _ a j x Hz Ho Hx), in_hdr_app. right. by left.
Qed.
(** A block in use extended over the free one behind it. *)
Lemma extend_run s L1 n t L3 size : let L := L1 ++ (n, false) :: (t, true) :: L3 in let L' := L1 ++ split (n + 24 + t) false size ++ L3 in let P := g_heap_base s + bsz L1 in
  hinv s L -> n < size <= n + 24 + t -> exists m, extend_block P size (um_mem s) = Some (true, m) /\ hinv (with_mem m s) L' /\ keeps_but (P + 24) (g_heap_base s) L L' (um_mem s) m /\
    (exists k, obj (g_heap_base s) L' (P + 24) k /\ size <= k) /\ forall x, rng (P + 24) n x -> m !! x = um_mem s !! x.
Proof.
  intros L L' P Hi Hsz. unfold L, L' in *. destruct (heap_bound _ _ Hi) as (B1&B2&B3). pose proof (hv_sized _ _ Hi) as Hz. pose proof Hz as [Z1 [Zn [Zt Z3]%Forall_cons]%Forall_cons]%Forall_app. pose proof (bsz_nonneg _ Z1) as B4. pose proof (bsz_nonneg _ Z3) as B5.
  rewrite bsz_app in B2, B3. simpl in Zn, Zt, B2, B3. pose proof (hv_seg _ _ Hi) as [_ [Hh [Hh' Hs3]]]%seg_app. fold P in Hh, Hh', Hs3. unfold extend_block. mstep (get_next_run _ _ _ _ _ Hh). rewrite (proj2 (Z.eqb_neq (P + 24 + n) 0)) by (unfold P; lia).
  mstep (get_free_run _ _ _ _ _ Hh'). cbn [negb]. mstep (get_size_run _ _ _ _ _ Hh). mstep (get_size_run _ _ _ _ _ Hh'). unfold BLOCK_HDR_SIZE. rewrite (u64_small (n + 24 + t)), (u64_small (n + (24 + t))), (proj2 (Z.leb_le size (n + 24 + t))) by lia.
  replace (n + (24 + t)) with (n + 24 + t) by lia. destruct (put_size_run _ _ _ _ _ (n + 24 + t) Hh ltac:(lia)) as (m1&E1&Hh1&T1). mstep E1.
  assert (hdr m1 (P + 24 + n) t true (match L3 with [] => 0 | _ => P + 24 + n + 24 + t end)) as Hh1' by (apply (hdr_ext _ _ _ _ _ _ _ T1); [unfold rng; lia|done]). mstep (get_next_run _ _ _ _ _ Hh1').
  destruct (put_next_run _ _ _ _ _ (match L3 with [] => 0 | _ => P + 24 + n + 24 + t end) Hh1) as (m2&E2&Hh2&T2); [destruct L3; unfold P; lia|]. mstep E2.
  assert (touched (rng P 24) (um_mem s) m2) as T12 by (apply (touched_trans _ _ _ _ _ _ T1 T2); auto).
  assert (seg m2 (g_heap_base s) (L1 ++ (n + 24 + t, false) :: L3) 0) as Hs2.
  { apply (seg_replace (um_mem s) m2 _ L1 [(n, false); (t, true)] [(n + 24 + t, false)] L3); [apply Hi|done|apply (touched_weaken _ _ _ _ T12); unfold rng; simpl; fold P; lia|done|done|simpl; lia|].
    fold P. simpl. split; [|done]. destruct L3; [done|]. replace (P + (24 + n + (24 + t + 0))) with (P + 24 + n + 24 + t) by lia. done. }
  assert (sized (L1 ++ (n + 24 + t, false) :: L3)) as Hz2 by (apply Forall_app; split; [done|]; constructor; [simpl; lia|done]). assert (bsz (L1 ++ (n + 24 + t, false) :: L3) = bsz L1 + (24 + n + (24 + t + bsz L3))) as Eb by (rewrite bsz_app; simpl; lia).
  destruct (split_at m2 (g_heap_base s) L1 (n + 24 + t) false L3 size Hs2 Hz2) as (m3&E3&Hs3'&T3); [intros a Ha; apply (touched_mapped _ _ _ _ _ T12 (hv_map _ _ Hi)); lia|lia..|]. fold P in E3, T3. mstep E3. exists m3. split; [done|].
  assert (touched (fun a => rng P 24 a \/ rng (P + 24 + size) (n + 24 + t - size) a) (um_mem s) m3) as T by (apply (touched_trans _ _ _ _ _ _ T12 T3); auto). split; [|split; [|split]].
  - apply (with_mem_hinv s _ _ m3 Hi); [apply (touched_weaken _ _ _ _ T); unfold rng, P; lia|done|..].
    + apply Forall_app; split; [done|]. apply Forall_app; split; [apply split_sized; lia|done].
    + apply (split_nofrag L1 [(n, false); (t, true)]); [apply Hi|done].
    + split; intros E'; [by destruct L1|]. apply app_eq_nil in E' as [_ [E' _]%app_eq_nil]. by apply split_ne in E'.
    + rewrite !bsz_app, split_bsz. lia.
  - intros a k Ho Hne. rewrite obj_app, !obj_cons in Ho. fold P in Ho. split.
    + rewrite !obj_app, split_bsz. fold P. destruct Ho as [Ho|[(_&->&_)|[[? _]|Ho]]]; [by left|done|done|right; right]. by replace (P + (24 + (n + 24 + t))) with (P + 24 + n + 24 + t) by lia.
    + intros x Hx. apply (tch_out _ _ _ T). destruct Ho as [Ho|[(_&->&_)|[[? _]|Ho]]]; [|done|done|]; apply obj_sized in Ho as (O1&O2&O3); try done; unfold rng, P in *; lia.
  - destruct (split_first (g_heap_base s) L1 (n + 24 + t) size L3) as (k&Ho&Hle). exists k. split; [done|lia].
  - intros x Hx. apply (tch_out _ _ _ T). unfold rng in *. lia.
Qed.
Lemma extend_none s L1 n L2 size : hinv s (L1 ++ (n, false) :: L2) -> match L2 with (t, true) :: _ => n + 24 + t < size | _ => True end ->
  extend_block (g_heap_base s + bsz L1) size (um_mem s) = Some (false, um_mem s).
Proof.
  intros Hi H2. destruct (heap_bound _ _ Hi) as (B1&B2&B3). pose proof (hv_sized _ _ Hi) as [Z1 [Zn Z2]%Forall_cons]%Forall_app. pose proof (bsz_nonneg _ Z1) as B4. simpl in Zn. pose proof (hv_seg _ _ Hi) as [_ [Hh Hs]]%seg_app.
  unfold extend_block. mstep (get_next_run _ _ _ _ _ Hh). destruct L2 as [|[t f] L3]; [done|]. rewrite (proj2 (Z.eqb_neq (g_heap_base s + bsz L1 + 24 + n) 0)) by lia. destruct Hs as [Hh' _].
  mstep (get_free_run _ _ _ _ _ Hh'). destruct f; [|done]. cbn [negb]. mstep (get_size_run _ _ _ _ _ Hh). mstep (get_size_run _ _ _ _ _ Hh'). apply Forall_cons in Z2 as [Zt Z3]. pose proof (bsz_nonneg _ Z3) as B5. rewrite bsz_app in *. simpl in *.
  unfold BLOCK_HDR_SIZE. rewrite u64_small by lia. by rewrite (proj2 (Z.leb_gt size (n + 24 + t))) by lia.
Qed.

Lemma keeps_but_of q p L L' m m' : keeps p L L' m m' -> keeps_but q p L L' m m'.
Proof. intros H a n Ho _. by apply H. Qed.
(** What [realloc] gives for the object at [p]. *)
Definition realloced p (n size : Z) s L s' L' v : Prop := 0 < v /\ keeps_but p (g_heap_base s) L L' (um_mem s) (um_mem s') /\ (exists k, obj (g_heap_base s) L' v k /\ size <= k) /\ (v = p \/ forall k, ~ obj (g_heap_base s) L v k) /\
  forall i, 0 <= i < n `min` size -> um_mem s' !! (v + i) = um_mem s !! (p + i).
(** The last way: a new block, the bytes copied, the old block freed. *)
Lemma move_run s L p n size : hinv s L -> obj (g_heap_base s) L p n -> n < size <= 2 ^ 63 -> exists v s' L', (new_ptr <~ malloc size ;;
    if new_ptr =? 0 then return 0 else
    s <~ on_umem (get_size (u64 (p - BLOCK_HDR_SIZE))) ;;
    let copy_size := if s <? size then s else size in
    on_umem (copy_up (Z.to_nat copy_size) new_ptr p) ;;; free p ;;; return new_ptr) s = Some (v, s') /\ hinv s' L' /\ g_heap_base s' = g_heap_base s /\
  ((v = 0 /\ keeps (g_heap_base s) L L' (um_mem s) (um_mem s')) \/ realloced p n size s L s' L' v).
Proof.
  intros Hi Ho Hsz. pose proof (obj_sized _ _ _ _ (hv_sized _ _ Hi) Ho) as (O1&O2&O3). destruct (heap_bound _ _ Hi) as (B1&B2&B3).
  destruct (malloc_run s L size (or_introl Hi) ltac:(lia)) as (v&s1&L1&E&Hi1&Hk&Eb&Hv). assert (g_heap_base s1 = g_heap_base s) as Eb1 by (apply Eb; intros ->; by apply obj_nil in Ho). rewrite Eb1 in *. mstep E.
  destruct Hv as [->|(Hv0&(k&Hok&Hk')&Hfr)]; [exists 0, s1, L1; split; [done|]; split_and!; [done..|by left]|]. rewrite (proj2 (Z.eqb_neq v 0)) by lia.
  destruct (Hk p n Ho) as [Ho1 Hm1]. pose proof Ho1 as (A1&A2&EL&Ep). unfold BLOCK_HDR_SIZE. rewrite u64_small by lia. replace (p - 24) with (g_heap_base s + bsz A1) by lia.
  pose proof Hi1 as Hi1'. rewrite EL in Hi1'. pose proof (seg_at _ _ _ _ _ _ _ (hv_seg _ _ Hi1')) as Hh. rewrite Eb1 in Hh. mstep (on_umem_read _ _ _ (get_size_run _ _ _ _ _ Hh)). rewrite (proj2 (Z.ltb_lt n size)) by lia. cbn zeta.
  destruct (obj_apart _ _ _ _ _ _ (hv_sized _ _ Hi1) Hok Ho1) as [[-> _]|Hap]; [by apply Hfr in Ho|]. pose proof (obj_sized _ _ _ _ (hv_sized _ _ Hi1) Hok) as (Q1&Q2&Q3). pose proof (obj_sized _ _ _ _ (hv_sized _ _ Hi1) Ho1) as (U1&U2&U3). destruct (heap_bound _ _ Hi1) as (C1&C2&C3). rewrite Eb1 in *.
  assert (forall a c, g_heap_base s <= a -> a + c <= g_heap_base s + bsz L1 -> mapped (um_mem s1) a c) as Hmp by (intros a c ? ? x Hx; apply (hv_map _ _ Hi1); rewrite Eb1; lia).
  destruct (copy_up_run (Z.to_nat n) (um_mem s1) v p (hv_ok _ _ Hi1)) as (m2&E2&Hmv); [apply Hmp; lia|apply Hmp; lia|lia|]. mstep (on_umem_run _ s1 _ _ E2). rewrite Z2Nat.id in Hmv by lia.
  assert (touched (rng v n) (um_mem s1) m2) as T2.
  { split; [intros a Ha; rewrite Hmv; by rewrite decide_False|intros a [c Ha]; rewrite Hmv; case_decide; [apply Hmp with p n; lia|by exists c]|].
    intros Hm a c Ha. rewrite Hmv in Ha. by case_decide; apply Hm in Ha. }
  assert (hinv (with_mem m2 s1) L1) as Hi2.
  { apply (with_mem_hinv s1 L1 L1 m2 Hi1); [apply (touched_weaken _ _ _ _ T2); unfold rng; lia| |apply Hi1|apply Hi1|done|lia]. apply (seg_ext _ _ _ _ _ _ T2); [|apply Hi1]. rewrite Eb1. intros a Ha Hr.
    apply (obj_in_hdr _ _ v k a (hv_sized _ _ Hi1) Hok); [unfold rng in *; lia|done]. }
  rewrite EL in Hi2. destruct (free_run _ _ _ _ Hi2) as (s3&L3&E3&Hi3&Eb3&Hk3&_). simpl g_heap_base in *. rewrite Eb1 in *. rewrite <-Ep, <-EL in *. mstep E3. exists v, s3, L3. split; [done|]. split; [done|]. split; [done|]. right.
  assert (v <> p) as Hne by lia. split; [lia|]. split; [|split; [|split]].
  - intros a j Hoa Hna. destruct (Hk a j Hoa) as [Hoa1 Ha1]. destruct (Hk3 a j Hoa1 Hna) as [Hoa3 Ha3]. split; [done|]. intros x Hx. rewrite Ha3 by done. simpl. rewrite (tch_out _ _ _ T2); [by apply Ha1|].
    destruct (obj_apart _ _ _ _ _ _ (hv_sized _ _ Hi1) Hok Hoa1) as [[-> _]|?]; [by apply Hfr in Hoa|unfold rng in *; lia].
  - exists k. split; [by apply (Hk3 v k)|lia].
  - by right.
  - intros i Hir. destruct (Hk3 v k Hok Hne) as [_ Hb]. rewrite Hb by (unfold rng; lia). simpl. rewrite Hmv, decide_True by lia. replace (p + (v + i - v)) with (p + i) by lia. apply Hm1. unfold rng. lia.
Qed.
Lemma realloc_run s L p n size : hinv s L -> obj (g_heap_base s) L p n -> 0 < size <= 2 ^ 63 -> exists v s' L', realloc p size s = Some (v, s') /\ hinv s' L' /\ g_heap_base s' = g_heap_base s /\
  ((v = 0 /\ keeps (g_heap_base s) L L' (um_mem s) (um_mem s')) \/ realloced p n size s L s' L' v).
Proof.
  intros Hi Ho Hsz. pose proof (obj_sized _ _ _ _ (hv_sized _ _ Hi) Ho) as (O1&O2&O3). destruct (heap_bound _ _ Hi) as (B1&B2&B3). unfold realloc. rewrite (proj2 (Z.eqb_neq p 0)), (proj2 (Z.eqb_neq size 0)) by lia. cbn zeta.
  pose proof (move_run s L p n size Hi Ho) as Hmove. pose proof Ho as (L1&L2&->&Ep). assert (u64 (p - BLOCK_HDR_SIZE) = g_heap_base s + bsz L1) as EP by (unfold BLOCK_HDR_SIZE; rewrite u64_small by lia; lia). rewrite EP in *.
  mstep (on_umem_read _ _ _ (get_size_run _ _ _ _ _ (seg_at _ _ _ _ _ _ _ (hv_seg _ _ Hi)))). destruct (Z.leb_spec size n) as [Hle|Hgt].
  { exists p, s, (L1 ++ (n, false) :: L2). split; [done|]. split; [done|]. split; [done|]. right. split; [lia|]. split; [apply keeps_but_of, keeps_refl|]. split; [by exists n|]. split; [by left|done]. }
  assert (match L2 with (t, true) :: _ => n + 24 + t < size | _ => True end \/ exists t L3, L2 = (t, true) :: L3 /\ size <= n + 24 + t) as [Hno|(t&L3&->&Hle)].
  { destruct L2 as [|[t [|]] L3]; [by left| |by left]. destruct (Z.lt_ge_cases (n + 24 + t) size); [by left|right]. by exists t, L3. }
  - mstep (on_umem_read _ s _ (extend_none s L1 n L2 size Hi Hno)). apply Hmove. lia.
  - destruct (extend_run s L1 n t L3 size Hi ltac:(lia)) as (m&E&Hi'&Hk&Hobj&Hsame). mstep (on_umem_run _ s _ _ E). rewrite <-Ep in *.
    exists p, (with_mem m s), (L1 ++ split (n + 24 + t) false size ++ L3). split; [done|]. split; [done|]. split; [done|]. right. split; [lia|]. split; [done|]. split; [done|]. split; [by left|].
    intros i Hir. apply Hsame. unfold rng. lia.
Qed.

(** ** The promise to clients: a store of objects *)

Notation objects := (gmap Z (list Z)).
Inductive call := CMalloc (n : Z) | CCalloc (n k : Z) | CRealloc (p n : Z) | CFree (p : Z) | CWrite (p i c : Z) | CRead (p i : Z).
Definition exec (c : call) : M (um R) Z :=
  match c with
  | CMalloc n => malloc n | CCalloc n k => calloc n k | CRealloc p n => realloc p n | CFree p => free p ;;; return 0
  | CWrite p i c => on_umem (st (p + i) c) ;;; return 0 | CRead p i => on_umem (ld (p + i))
  end.
(** A client names objects it holds, stays inside them, and asks for no more than [2 ^ 63] bytes. *)
Definition legal (K : objects) (c : call) : Prop :=
  match c with
  | CMalloc n => 0 <= n <= 2 ^ 63
  | CCalloc n k => 0 <= n < 2 ^ 64 /\ 0 <= k < 2 ^ 64 /\ (n * k <= 2 ^ 63 \/ 2 ^ 64 <= n * k)
  | CRealloc p n => 0 <= n <= 2 ^ 63 /\ (p = 0 \/ is_Some (K !! p))
  | CFree p => p = 0 \/ is_Some (K !! p)
  | CWrite p i _ | CRead p i => exists l, K !! p = Some l /\ 0 <= i < Z.of_nat (length l)
  end.
Definition apart_from (K : objects) (p n : Z) : Prop := 0 < p /\ K !! p = None /\ forall q l, K !! q = Some l -> p + n <= q \/ q + Z.of_nat (length l) <= p.
(** The new object at [p] holds [l]. *)
Definition added (K : objects) (p : Z) (l : list Z) (K' : objects) : Prop := apart_from K p (Z.of_nat (length l)) /\ K' = <[p := l]> K.
(** What the call may return, and the objects after it. *)
Definition answers (K : objects) (c : call) (v : Z) (K' : objects) : Prop :=
  match c with
  | CMalloc n => (v = 0 /\ K' = K) \/ exists l, n <> 0 /\ Z.of_nat (length l) = n /\ added K v l K'
  | CCalloc n k => (v = 0 /\ K' = K) \/ (0 < n * k < 2 ^ 64 /\ added K v (replicate (Z.to_nat (n * k)) 0) K')
  | CRealloc p n =>
    if p =? 0 then (v = 0 /\ K' = K) \/ exists l, n <> 0 /\ Z.of_nat (length l) = n /\ added K v l K'
    else if n =? 0 then v = 0 /\ K' = delete p K
    else (v = 0 /\ K' = K) \/ exists l l', K !! p = Some l /\ Z.of_nat (length l') = n /\ take (length l) l' = take (length l') l /\ added (delete p K) v l' K'
  | CFree p => v = 0 /\ K' = if p =? 0 then K else delete p K
  | CWrite p i c => exists l, K !! p = Some l /\ K' = <[p := <[Z.to_nat i := u8 c]> l]> K
  | CRead p i => exists l, K !! p = Some l /\ zget l i = Some v /\ K' = K
  end.
(** The objects lie in blocks that are in use, with their bytes. *)
Definition holds s (L : list (Z * bool)) (K : objects) : Prop := forall p l, K !! p = Some l -> exists n, obj (g_heap_base s) L p n /\ Z.of_nat (length l) <= n /\ bytes_at (um_mem s) p l.
Definition rel s (K : objects) : Prop := exists L, uinv s L /\ holds s L K.

(** The bytes of a range. *)
Definition snap (m : mem) (p n : Z) : list Z := (fun i => default 0 (m !! (p + Z.of_nat i))) <$> seq 0 (Z.to_nat n).
Lemma snap_length m p n : 0 <= n -> Z.of_nat (length (snap m p n)) = n.
Proof. intros. unfold snap. rewrite length_fmap, length_seq. lia. Qed.
Lemma snap_at m p n i : 0 <= i < n -> zget (snap m p n) i = Some (default 0 (m !! (p + i))).
Proof.
  intros Hi. unfold zget, snap. rewrite (proj2 (Z.leb_le 0 i)) by lia. rewrite list_lookup_fmap, lookup_seq_lt by lia. simpl. do 3 f_equal. lia.
Qed.
Lemma snap_bytes m p n : mapped m p n -> 0 <= n -> bytes_at m p (snap m p n).
Proof.
  intros Hm Hn. apply bytes_at_intro. intros i c Hc. pose proof (zget_range _ _ _ Hc) as Hr. rewrite snap_length in Hr by done. rewrite snap_at in Hc by done. destruct (Hm (p + i) ltac:(lia)) as [x Hx]. rewrite Hx in Hc |- *. exact Hc.
Qed.
Lemma holds_keeps s s' L L' K : holds s L K -> keeps (g_heap_base s') L L' (um_mem s) (um_mem s') -> (L <> [] -> g_heap_base s' = g_heap_base s) -> holds s' L' K.
Proof.
  intros HK Hk Hb p l Hp. destruct (HK p l Hp) as (n&Ho&Hn&Hby). rewrite <-Hb in Ho by (intros ->; by apply obj_nil in Ho). destruct (Hk p n Ho) as [Ho' Hs]. exists n. split; [done|]. split; [done|].
  apply (bytes_at_ext (um_mem s)); [done|]. intros a Ha. apply Hs. unfold rng. lia.
Qed.
Lemma holds_but s s' L L' K p : holds s L K -> keeps_but p (g_heap_base s) L L' (um_mem s) (um_mem s') -> g_heap_base s' = g_heap_base s -> holds s' L' (delete p K).
Proof.
  intros HK Hk Hb q l [Hne Hq]%lookup_delete_Some. destruct (HK q l Hq) as (n&Ho&Hn&Hby). destruct (Hk q n Ho) as [Ho' Hs]; [done|]. exists n. rewrite Hb. split; [done|]. split; [done|].
  apply (bytes_at_ext (um_mem s)); [done|]. intros a Ha. apply Hs. unfold rng. lia.
Qed.
(** A new object: one more block in use. *)
Lemma holds_add s L K v n l : hinv s L -> holds s L K -> obj (g_heap_base s) L v n -> Z.of_nat (length l) <= n -> bytes_at (um_mem s) v l -> (forall l', K !! v = Some l' -> False) -> 0 < v -> holds s L (<[v := l]> K) /\ added K v l (<[v := l]> K).
Proof.
  intros Hi HK Ho Hl Hb Hfr Hv. split.
  - intros q l' [[<- <-]|[Hne Hq]]%lookup_insert_Some; [by exists n|by apply HK].
  - split; [|done]. split; [done|]. split; [destruct (K !! v) as [l'|] eqn:Ev; [by destruct (Hfr l')|done]|]. intros q l' Hq. destruct (HK q l' Hq) as (k&Hok&Hlk&_). destruct (obj_apart _ _ _ _ _ _ (hv_sized _ _ Hi) Ho Hok) as [[-> _]|H]; [by apply Hfr in Hq|lia].
Qed.
Lemma obj_mapped s L p n : hinv s L -> obj (g_heap_base s) L p n -> mapped (um_mem s) p n.
Proof. intros Hi Ho a Ha. apply (hv_map _ _ Hi). pose proof (obj_sized _ _ _ _ (hv_sized _ _ Hi) Ho). destruct (heap_bound _ _ Hi). lia. Qed.

Lemma malloc_answers s K n : rel s K -> 0 < n <= 2 ^ 63 -> exists v s' K', malloc n s = Some (v, s') /\ rel s' K' /\ ((v = 0 /\ K' = K) \/ exists l, n <> 0 /\ Z.of_nat (length l) = n /\ added K v l K').
Proof.
  intros (L&Hu&HK) Hn. destruct (malloc_run s L n Hu Hn) as (v&s'&L'&E&Hi'&Hk&Hb&Hv). pose proof (holds_keeps _ _ _ _ _ HK Hk Hb) as HK'. destruct Hv as [->|(Hv0&(k&Ho&Hle)&Hfr)].
  - exists 0, s', K. split; [done|]. split; [|by left]. exists L'. split; [by left|done].
  - pose proof (obj_mapped _ _ _ _ Hi' Ho) as Hm. destruct (holds_add s' L' K v k (snap (um_mem s') v n) Hi' HK' Ho) as [HK2 Had]; [rewrite snap_length; lia|apply snap_bytes; [|lia]; intros a Ha; apply Hm; lia| |done|].
    { intros l Hl. destruct (HK v l Hl) as (j&Hj&_). apply (Hfr j). rewrite Hb; [done|]. intros ->. by apply obj_nil in Hj. }
    exists v, s', (<[v := snap (um_mem s') v n]> K). split; [done|]. split; [exists L'; split; [by left|done]|]. right. exists (snap (um_mem s') v n). split; [lia|]. split; [apply snap_length; lia|done].
Qed.
Lemma payload_write s L v k m n : hinv s L -> obj (g_heap_base s) L v k -> touched (rng v n) (um_mem s) m -> n <= k -> hinv (with_mem m s) L /\
  forall K, holds s L K -> holds (with_mem m s) L (delete v K).
Proof.
  intros Hi Ho Ht Hn. pose proof (obj_sized _ _ _ _ (hv_sized _ _ Hi) Ho) as (O1&O2&O3). destruct (heap_bound _ _ Hi) as (B1&B2&B3). split.
  - apply (with_mem_hinv s L L m Hi); [apply (touched_weaken _ _ _ _ Ht); unfold rng; lia| |apply Hi|apply Hi|done|lia]. apply (seg_ext _ _ _ _ _ _ Ht); [|apply Hi]. intros a Ha Hr. apply (obj_in_hdr _ _ v k a (hv_sized _ _ Hi) Ho); [unfold rng in *; lia|done].
  - intros K HK. apply (holds_but s _ L L); [done| |done]. intros a j Hoa Hne. split; [done|]. intros x Hx. apply (tch_out _ _ _ Ht). destruct (obj_apart _ _ _ _ _ _ (hv_sized _ _ Hi) Ho Hoa) as [[-> _]|?]; [done|unfold rng in *; lia].
Qed.
Lemma calloc_answers s K n k : rel s K -> 0 <= n < 2 ^ 64 -> 0 <= k < 2 ^ 64 -> n * k <= 2 ^ 63 \/ 2 ^ 64 <= n * k ->
  exists v s' K', calloc n k s = Some (v, s') /\ rel s' K' /\ ((v = 0 /\ K' = K) \/ (0 < n * k < 2 ^ 64 /\ added K v (replicate (Z.to_nat (n * k)) 0) K')).
Proof.
  intros Hr Hn Hk Hnk. unfold calloc. destruct (Z.eqb_spec n 0) as [->|Hn0]; [exists 0, s, K; split_and!; [done|done|by left]|]. destruct (Z.eqb_spec k 0) as [->|Hk0]; [exists 0, s, K; split_and!; [done|done|by left]|]. cbn [orb].
  destruct (decide (2 ^ 64 <= n * k)) as [Hbig|Hsmall].
  - assert (u64 (n * k) / n =? k = false) as ->; [|exists 0, s, K; split_and!; [done|done|by left]]. apply Z.eqb_neq. intros E. pose proof (Z.mul_div_le (u64 (n * k)) n ltac:(lia)) as H1. rewrite E in H1. pose proof (wrap_range 64 (n * k) ltac:(lia)) as H2. unfold in_w in H2. unfold u64 in H1. lia.
  - rewrite u64_small by nia. rewrite Z.mul_comm, Z.div_mul, Z.eqb_refl by lia. cbn [negb]. rewrite (Z.mul_comm k n). destruct (malloc_answers s K (n * k) Hr ltac:(nia)) as (v&s1&K1&E&(L1&[Hi1|(_&_&->&_)]&HK1)&Hv); mstep E.
    2:{ destruct Hv as [[-> ->]|(l&_&Hl&_&->)]; [exists 0, s1, K; split; [done|]; split; [|by left]|]; [|destruct (HK1 v l) as (?&Ho&_); [apply lookup_insert_eq|by apply obj_nil in Ho]].
        destruct Hr as (L&Hu&HK). destruct (malloc_run s L (n * k) Hu ltac:(nia)) as (v'&s2&L2&E2&Hi2&Hk2&Hb2&_). rewrite E in E2. injection E2 as <- <-. exists L2. split; [by left|]. by apply (holds_keeps s _ L). }
    destruct Hv as [[-> ->]|(l&Hne&Hl&(Hap&->))]; [exists 0, s1, K; split; [done|]; split; [exists L1; split; [by left|done]|by left]|]. destruct Hap as (Hv0&Hnone&_). rewrite (proj2 (Z.eqb_neq v 0)) by lia.
    destruct (HK1 v l) as (j&Ho&Hlj&_); [apply lookup_insert_eq|]. pose proof (obj_mapped _ _ _ _ Hi1 Ho) as Hm. destruct (set_loop_run (Z.to_nat (n * k)) (um_mem s1) v 0) as (m&Em&Hset); [intros a Ha; apply Hm; lia|]. mstep (on_umem_run _ s1 _ _ Em).
    rewrite Z2Nat.id in Hset by lia. assert (touched (rng v (n * k)) (um_mem s1) m) as Ht.
    { split; [intros a Ha; rewrite Hset; by rewrite decide_False|intros a [c Ha]; rewrite Hset; case_decide; [eauto|by exists c]|]. intros Hm' a c Ha. rewrite Hset in Ha. case_decide; [by injection Ha as <-|by apply Hm' in Ha]. }
    destruct (payload_write s1 L1 v j m (n * k) Hi1 Ho Ht ltac:(lia)) as [Hi2 HK2]. specialize (HK2 _ HK1).
    assert (holds (with_mem m s1) L1 K) as HK3.
    { intros q x Hq. apply HK2. destruct (decide (q = v)) as [->|Hqv]; [by rewrite Hq in Hnone|]. by rewrite lookup_delete_ne, lookup_insert_ne. }
    destruct (holds_add (with_mem m s1) L1 K v j (replicate (Z.to_nat (n * k)) 0) Hi2 HK3 Ho) as [HK4 Had]; [rewrite length_replicate; lia| | |done|].
    { apply bytes_at_intro. intros i c Hc. pose proof (zget_range _ _ _ Hc) as Hi. rewrite length_replicate in Hi. apply zget_Some in Hc as [_ [-> _]%lookup_replicate]. simpl. rewrite Hset, decide_True by lia. done. }
    { intros x Hx. by rewrite Hx in Hnone. }
    exists v, (with_mem m s1), (<[v := replicate (Z.to_nat (n * k)) 0]> K). split; [done|]. split; [exists L1; split; [by left|done]|]. right. split; [nia|done].
Qed.
Lemma free_answers s K p : rel s K -> is_Some (K !! p) -> exists s', free p s = Some (tt, s') /\ rel s' (delete p K) /\ p <> 0.
Proof.
  intros (L&[Hi|(_&_&->&_)]&HK) [l Hl]; destruct (HK p l Hl) as (n&Ho&_); [|by apply obj_nil in Ho]. destruct Ho as (L1&L2&->&->). destruct (free_run s L1 n L2 Hi) as (s'&L'&E&Hi'&Eb&Hk&_). exists s'. split; [done|]. split.
  - exists L'. split; [by left|]. apply (holds_but s s' (L1 ++ (n, false) :: L2)); done.
  - pose proof (hv_sized _ _ Hi) as [Z1 _]%Forall_app. pose proof (bsz_nonneg _ Z1). destruct (heap_bound _ _ Hi). lia.
Qed.
Lemma realloc_answers s K p n l : rel s K -> K !! p = Some l -> 0 < n <= 2 ^ 63 -> exists v s' K', realloc p n s = Some (v, s') /\ rel s' K' /\ p <> 0 /\
  ((v = 0 /\ K' = K) \/ exists l', Z.of_nat (length l') = n /\ take (length l) l' = take (length l') l /\ added (delete p K) v l' K').
Proof.
  intros (L&[Hi|(_&_&->&_)]&HK) Hl Hn; destruct (HK p l Hl) as (k&Ho&Hlk&Hb); [|by apply obj_nil in Ho]. destruct (heap_bound _ _ Hi) as (B1&_). pose proof (obj_sized _ _ _ _ (hv_sized _ _ Hi) Ho) as (O1&O2&_).
  destruct (realloc_run s L p k n Hi Ho Hn) as (v&s'&L'&E&Hi'&Eb&Hv). exists v, s'. destruct Hv as [[-> Hk]|(Hv0&Hk&(j&Hoj&Hj)&Hfr&Hsame)].
  - exists K. split; [done|]. split; [|split; [lia|by left]]. exists L'. split; [by left|]. by apply (holds_keeps s _ L); [|rewrite Eb|].
  - assert (holds s' L' (delete p K)) as HK' by (by apply (holds_but s _ L)). rewrite <-Eb in Hoj. pose proof (obj_mapped _ _ _ _ Hi' Hoj) as Hm. set (l' := snap (um_mem s') v n).
    assert (Z.of_nat (length l') = n) as Hl' by (apply snap_length; lia). destruct (holds_add s' L' (delete p K) v j l' Hi' HK' Hoj) as [HK2 Had]; [lia|apply snap_bytes; [intros a Ha; apply Hm; lia|lia]| |done|].
    { intros x [Hne Hx]%lookup_delete_Some. destruct (HK v x Hx) as (i&Hi2&_). destruct Hfr as [->|Hfr]; [done|by apply Hfr in Hi2]. }
    exists (<[v := l']> (delete p K)). split; [done|]. split; [exists L'; split; [by left|done]|]. split; [lia|]. right. exists l'. split; [done|]. split; [|done].
    apply list_eq. intros i. destruct (decide (i < length l)%nat); destruct (decide (i < length l')%nat); [rewrite !lookup_take_lt by done|rewrite (lookup_ge_None_2 (take _ l')), (lookup_ge_None_2 (take _ l)) by (rewrite length_take; lia); done..].
    pose proof (snap_at (um_mem s') v n (Z.of_nat i) ltac:(lia)) as E1. fold l' in E1. rewrite zget_nat in E1. rewrite E1, Hsame by lia. pose proof (bytes_at_get _ _ _ (p + Z.of_nat i) Hb ltac:(lia)) as E2. replace (p + Z.of_nat i - p) with (Z.of_nat i) in E2 by lia.
    rewrite zget_nat in E2. rewrite E2. destruct (l !! i) eqn:Eli; [done|]. apply lookup_ge_None in Eli. lia.
Qed.
Lemma access_answers s K p l i : rel s K -> K !! p = Some l -> 0 <= i < Z.of_nat (length l) -> (forall c, exists s', on_umem (st (p + i) c) s = Some (tt, s') /\ rel s' (<[p := <[Z.to_nat i := u8 c]> l]> K)) /\
  exists v, on_umem (ld (p + i)) s = Some (v, s) /\ zget l i = Some v.
Proof.
  intros (L&[Hi|(_&_&->&_)]&HK) Hl Hir; destruct (HK p l Hl) as (k&Ho&Hlk&Hb); [|by apply obj_nil in Ho]. pose proof (bytes_at_get _ _ _ (p + i) Hb ltac:(lia)) as E. replace (p + i - p) with i in E by lia.
  destruct (zget_is_Some l i Hir) as [v Hv]. rewrite Hv in E. split; [|exists v; split; [by apply on_umem_read, ld_run|done]]. intros c. exists (with_mem (<[p + i := u8 c]> (um_mem s)) s). split; [apply on_umem_run; by rewrite (st_run _ _ _ v)|].
  assert (touched (rng p (Z.of_nat (length l))) (um_mem s) (<[p + i := u8 c]> (um_mem s))) as Ht.
  { split; [intros a Ha; rewrite lookup_insert_ne; [done|unfold rng in Ha; lia]|intros a [x Ha]; destruct (decide (a = p + i)) as [->|]; [rewrite lookup_insert_eq; eauto|rewrite lookup_insert_ne by done; eauto]|]. intros Hm. apply mem_ok_insert; [done|]. apply (wrap_range 8). lia. }
  destruct (payload_write s L p k _ _ Hi Ho Ht Hlk) as [Hi2 HK2]. exists L. split; [by left|]. intros q x [[<- <-]|[Hne Hq]]%lookup_insert_Some; [|apply (HK2 K HK); by apply lookup_delete_Some].
  exists k. split; [done|]. split; [by rewrite length_insert|]. apply bytes_at_intro. intros j d [Hj Hd]%zget_Some. simpl. apply list_lookup_insert_Some in Hd as [(Ej&<-&_)|[Ej Hd]].
  - assert (j = i) as -> by lia. by rewrite lookup_insert_eq.
  - assert (zget l j = Some d) as Hjd by (by apply zget_Some). pose proof (zget_range _ _ _ Hjd). rewrite lookup_insert_ne by lia. rewrite (bytes_at_get _ _ _ (p + j) Hb) by lia. by replace (p + j - p) with j by lia.
Qed.

(** C27: the allocator of user programs implements a store of objects: from its first call on, whatever legal calls a client makes, each one returns; new objects
    lie apart from all others, [calloc] clears, [realloc] keeps the common bytes, and no call changes another object's bytes. *)
Theorem umalloc_refines : (forall s, g_heap_base s = 0 -> g_heap_head s = 0 -> mem_ok (um_mem s) -> (exists b, brk_rep (um_os s) b) -> rel s ∅) /\
  forall s K c, rel s K -> legal K c -> exists v s' K', exec c s = Some (v, s') /\ answers K c v K' /\ rel s' K'.
Proof.
  split; [intros s Hb Hh Hm Hr; exists []; split; [by right|intros p l Hp; by apply lookup_empty_Some in Hp]|].
  intros s K c Hr Hl. destruct c as [n|n k|p n|p|p i c|p i]; cbn [exec answers legal] in *.
  - destruct (Z.eqb_spec n 0) as [->|Hn]; [exists 0, s, K; split_and!; [done|by left|done]|]. destruct (malloc_answers s K n Hr ltac:(lia)) as (v&s'&K'&E&Hr'&Ha). by exists v, s', K'.
  - destruct Hl as (Hn&Hk&Hnk). destruct (calloc_answers s K n k Hr Hn Hk Hnk) as (v&s'&K'&E&Hr'&Ha). by exists v, s', K'.
  - destruct Hl as [Hn Hp]. destruct (Z.eqb_spec p 0) as [->|Hp0].
    + unfold realloc. cbn [Z.eqb]. destruct (Z.eqb_spec n 0) as [->|Hn0]; [exists 0, s, K; split_and!; [done|by left|done]|]. destruct (malloc_answers s K n Hr ltac:(lia)) as (v&s'&K'&E&Hr'&Ha). by exists v, s', K'.
    + destruct Hp as [?|[l Hl]]; [done|]. destruct (Z.eqb_spec n 0) as [->|Hn0].
      * destruct (free_answers s K p Hr ltac:(by exists l)) as (s'&E&Hr'&_). exists 0, s', (delete p K). split; [|done]. unfold realloc. rewrite (proj2 (Z.eqb_neq p 0)) by done. cbn [Z.eqb]. by mstep E.
      * destruct (realloc_answers s K p n l Hr Hl ltac:(lia)) as (v&s'&K'&E&Hr'&_&Ha). exists v, s', K'. split; [done|]. split; [|done]. destruct Ha as [?|(l'&?&?&?)]; [by left|right]. by exists l, l'.
  - destruct (Z.eqb_spec p 0) as [->|Hp0]; [by exists 0, s, K|]. destruct Hl as [?|Hl]; [done|]. destruct (free_answers s K p Hr Hl) as (s'&E&Hr'&_). mstep E. by exists 0, s', (delete p K).
  - destruct Hl as (l&Hl&Hi). destruct (proj1 (access_answers s K p l i Hr Hl Hi) c) as (s'&E&Hr'). mstep E. exists 0, s', (<[p := <[Z.to_nat i := u8 c]> l]> K). split; [done|]. split; [by exists l|done].
  - destruct Hl as (l&Hl&Hi). destruct (proj2 (access_answers s K p l i Hr Hl Hi)) as (v&E&Hv). exists v, s, K. split; [done|]. split; [by exists l|done].
Qed.
(** On a sound heap [malloc] takes the first free block that is large enough and returns what is left of it to the list; only when no block fits it asks the
    kernel for whole pages, and it fails exactly when the kernel refuses; free neighbours never remain. *)
Theorem umalloc_exact s L size : hinv s L -> 0 < size <= 2 ^ 63 -> exists v s' L', malloc size s = Some (v, s') /\ hinv s' L' /\ keeps (g_heap_base s) L L' (um_mem s) (um_mem s') /\
  (fit_case (round_size size) s L s' L' v \/ grow_case (round_size size) s L s' L' v).
Proof. intros Hi Hsz. destruct (malloc_exact_ok s L size Hi Hsz) as (v&s'&L'&E&Hi'&_&Hk&Hc). by exists v, s', L'. Qed.
End Heap.

(** ** A concrete kernel *)

(** The break of a task: where the heap starts, the break and the limit the kernel grants.  Growing maps zeroed pages, shrinking unmaps them. *)
Record brk_state := BrkState { bs_start : Z; bs_brk : Z; bs_limit : Z }.
Definition zero_bytes (a n : Z) : mem := list_to_map ((fun i => (i, 0)) <$> seqZ a n).
#[global] Instance demo_brk : BrkEnv brk_state := fun a x =>
  let '(m, r) := x in
  if a =? 0 then Some (bs_brk r, (m, r)) else
  if (a <? bs_start r) || (bs_limit r <? a) then Some (-1, (m, r)) else
  let r' := BrkState (bs_start r) a (bs_limit r) in
  if bs_brk r <=? a then Some (a, (m ∪ zero_bytes (bs_brk r) (a - bs_brk r), r')) else Some (a, (filter (fun x => x.1 < a) m, r')).
Lemma zero_bytes_lookup a n x : 0 <= n -> zero_bytes a n !! x = if decide (a <= x < a + n) then Some 0 else None.
Proof.
  intros Hn. unfold zero_bytes. case_decide as Hx.
  - apply elem_of_list_to_map_1; [|apply list_elem_of_fmap; exists x; split; [done|]; apply elem_of_seqZ; lia]. rewrite <-list_fmap_compose. replace (fst ∘ _) with (@id Z) by done. rewrite list_fmap_id. apply NoDup_seqZ.
  - apply not_elem_of_list_to_map_1. intros ([i c]&->&(j&[= -> ->]&Hj%elem_of_seqZ)%list_elem_of_fmap)%list_elem_of_fmap. simpl in Hx. lia.
Qed.
#[global] Program Instance demo_laws : BrkLaws brk_state := { brk_rep := fun r b => b = bs_brk r /\ 0 < bs_start r <= b /\ b <= bs_limit r /\ bs_limit r <= 2 ^ 47 }.
Next Obligation. intros r b (->&H). lia. Qed.
Next Obligation. intros m r b (->&_). done. Qed.
Next Obligation.
  intros m r b a (->&Hs&Hl&Hm) Hok Ha. unfold sys_brk, demo_brk. rewrite (proj2 (Z.eqb_neq a 0)), (proj2 (Z.ltb_ge a (bs_start r))) by lia. cbn [orb]. destruct (Z.ltb_spec (bs_limit r) a).
  - exists (-1), m, r. split_and!; try done. right. split; [lia|]. by split_and!; try lia.
  - rewrite (proj2 (Z.leb_le (bs_brk r) a)) by lia. eexists a, _, _. split; [reflexivity|]. split; [apply map_union_subseteq_l|]. split.
    + intros x c [Hx|[_ Hx]]%lookup_union_Some_raw; [by apply (Hok x)|]. rewrite zero_bytes_lookup in Hx by lia. case_decide; [|done]. by injection Hx as <-.
    + left. split; [done|]. split; [simpl; lia|]. intros x Hx. destruct (m !! x) eqn:E; [rewrite (lookup_union_Some_l _ _ _ _ E); eauto|]. rewrite lookup_union_r by done. rewrite zero_bytes_lookup, decide_True by lia. eauto.
Qed.

Definition heap0 : um brk_state := Um ∅ (BrkState 65536 65536 81920) 0 0 0.
Lemma heap0_start : uinv heap0 [].
Proof. right. split_and!; try done. exists 65536. split_and!; simpl; lia. Qed.
Lemma umalloc_refines_witness : exists v s' K', exec (CMalloc 100) heap0 = Some (v, s') /\ answers ∅ (CMalloc 100) v K' /\ rel s' K'.
Proof.
  destruct umalloc_refines as [H0 H1]. apply H1; [apply H0; [reflexivity|reflexivity|apply map_Forall_empty|exists 65536; split_and!; simpl; lia]|simpl; lia].
Defined.
(** The heap after its first call. *)
Definition heap1 : um brk_state := match heap_init heap0 with Some (_, s) => s | None => heap0 end.
Lemma heap1_sound : hinv heap1 [].
Proof. destruct (heap_init_run heap0 [] heap0_start) as (s'&E&Hi&_). unfold heap1. rewrite E. exact Hi. Qed.
Lemma umalloc_exact_witness : exists v s', malloc 100 heap1 = Some (v, s').
Proof. destruct (umalloc_exact heap1 [] 100 heap1_sound) as (v&s'&L'&E&_); [lia|]. exists v, s'. exact E. Defined.

(** ** What goes wrong *)

Fixpoint execs (cs : list call) : M (um brk_state) (list Z) :=
  match cs with [] => return [] | c :: cs' => v <~ exec c ;; vs <~ execs cs' ;; return (v :: vs) end.
(** A size within 7 of [2 ^ 64] is rounded to 0 and served with a block of 16 bytes. *)
Lemma malloc_wraps_to_16 : fst <$> malloc (2 ^ 64 - 1) heap0 = Some (65536 + 24).
Proof. by vm_compute. Qed.
(** A size near [2 ^ 64] moves the break down instead of failing: the kernel unmaps a page of the heap, and [malloc] then writes a header into it. *)
Lemma malloc_unmaps_heap : execs [CMalloc 5000; CMalloc (2 ^ 64 - 8192)] heap0 = None /\ fst <$> execs [CMalloc 5000; CMalloc (2 ^ 47)] heap0 = Some [65560; 0].
Proof. split; vm_compute; reflexivity. Qed.
(** [realloc] does not round the size: the rest of an extended block starts at an odd address, and so does what [malloc] returns from it. *)
Lemma realloc_loses_alignment : fst <$> execs [CMalloc 16; CMalloc 200; CMalloc 16; CFree 65600; CRealloc 65560 33; CMalloc 16] heap0 = Some [65560; 65600; 65824; 0; 65560; 65617].
Proof. vm_compute. reflexivity. Qed.
