(* ===== verification/Ports.v ===== *)
(** * I/O ports (src/drivers/portio.h)

    The bus behind the in and out instructions is hardware: the interface [Ports], which answers every access.  [bus] is
    the most general hardware: its answers are any function of the accesses so far, which it records. *)

From stdpp Require Import base numbers list options.
From S2P Require Import Prelude.

Class Ports (R : Type) := {
  bus_in8 : Z -> R -> Z * R;
  bus_out8 : Z -> Z -> R -> R;
  bus_in16 : Z -> R -> Z * R;
  bus_out16 : Z -> Z -> R -> R
}.
Section Ports.
Context {R : Type} `{!Ports R}.
Definition inb (port : Z) : M R Z := fun r => let (v, r') := bus_in8 (u16 port) r in Some (u8 v, r').
Definition outb (port v : Z) : M R unit := fun r => Some (tt, bus_out8 (u16 port) (u8 v) r).
Definition inw (port : Z) : M R Z := fun r => let (v, r') := bus_in16 (u16 port) r in Some (u16 v, r').
Definition outw (port v : Z) : M R unit := fun r => Some (tt, bus_out16 (u16 port) (u16 v) r).
Definition io_wait : M R unit := outb 0x80 0.
End Ports.

(** An access to a port, with the value. *)
Inductive access := In8 (p v : Z) | Out8 (p v : Z) | In16 (p v : Z) | Out16 (p v : Z).
Record bus := Bus { bus_answer : list access -> Z -> Z; bus_log : list access }.
Definition logged (a : access) (b : bus) : bus := Bus (bus_answer b) (bus_log b ++ [a]).
#[global] Instance bus_ports : Ports bus := {
  bus_in8 := fun p b => let v := u8 (bus_answer b (bus_log b) p) in (v, logged (In8 p v) b);
  bus_out8 := fun p v b => logged (Out8 p v) b;
  bus_in16 := fun p b => let v := u16 (bus_answer b (bus_log b) p) in (v, logged (In16 p v) b);
  bus_out16 := fun p v b => logged (Out16 p v) b
}.
(** What has been written to the ports, in order. *)
Definition writes (l : list access) : list (Z * Z) := omap (fun a => match a with Out8 p v | Out16 p v => Some (p, v) | _ => None end) l.

Lemma u8_u8 v : u8 (u8 v) = u8 v.
Proof. unfold u8. apply wrap_wrap. lia. Qed.
Lemma port_writes_app l l' : writes (l ++ l') = writes l ++ writes l'.
Proof. apply omap_app. Qed.
Lemma inb_total {R} `{!Ports R} p (r : R) : exists v r', inb p r = Some (v, r') /\ 0 <= v < 256.
Proof. unfold inb. destruct (bus_in8 (u16 p) r) as [v r']. exists (u8 v), r'. split; [done|]. apply (wrap_range 8). lia. Qed.
