(* ===== verification/Irq.v ===== *)
(** * Interrupts, timer and speaker (src/kernel/pic.c, isr.c, timer.c; src/drivers/pit.c, pcspk.c)

    The two interrupt controllers, the dispatch of a vector to its handler, the tick counter, the programming of the
    timer chip and the loops that wait for ticks.  The ports are the interface [Ports]; what the processor does while
    it waits, and what a tick does outside these files, is the interface [Cpu].  Interrupts arrive where the code waits; log output is left out. *)

From stdpp Require Import base numbers list options.
From S2P Require Import Prelude Ports.

(** The machine around these files: the interrupt flag; the vectors of the interrupts served from one [hlt] or [pause] of a task to its
    next instruction, in order, those in the time of other tasks included; what a tick does to the screen; the scheduler, which may run
    other tasks before it returns to the one interrupted, and how many ticks are counted meanwhile; what the handlers of other drivers do. *)
Class Cpu (R : Type) := {
  cpu_if : R -> bool;
  cpu_wait : R -> list Z * R;
  vga_tick : R -> R;
  scheduler_tick : R -> Z * R;
  other_handler : nat -> R -> R
}.

Definition PIC1_CMD_PORT : Z := 0x20.
Definition PIC1_DATA_PORT : Z := 0x21.
Definition PIC2_CMD_PORT : Z := 0xA0.
Definition PIC2_DATA_PORT : Z := 0xA1.
Definition PIC_ICW1_INIT : Z := 0x11.
Definition PIC_ICW4_8086 : Z := 0x01.
Definition PIC_EOI : Z := 0x20.
Definition PIC1_VECTOR_OFFSET : Z := 0x20.
Definition PIC2_VECTOR_OFFSET : Z := 0x28.
Definition SPURIOUS_MASTER_VEC : Z := 39.
Definition SPURIOUS_SLAVE_VEC : Z := 47.
Definition PIT_BASE_FREQ : Z := 1193182.
Definition PIT_CHANNEL0_PORT : Z := 0x40.
Definition PIT_CHANNEL2_PORT : Z := 0x42.
Definition PIT_COMMAND_PORT : Z := 0x43.
Definition PIT_DEFAULT_FREQ : Z := 100.
Definition PIT_CMD_CHANNEL0_MODE2 : Z := 0x34.
Definition PIT_CMD_LATCH_CH0 : Z := 0.
Definition PCSPK_PORT : Z := 0x61.
Definition PCSPK_CMD : Z := 0xB6.

Section Pic.
Context {R : Type} `{!Ports R}.

Definition is_slave_irq (irq : Z) : bool := 8 <=? irq.
Definition local_irq (irq : Z) : Z := irq - (if is_slave_irq irq then 8 else 0).
Definition pic_init : M R unit :=
  outb PIC1_CMD_PORT PIC_ICW1_INIT ;;; io_wait ;;;
  outb PIC1_DATA_PORT PIC1_VECTOR_OFFSET ;;; io_wait ;;;
  outb PIC1_DATA_PORT 0x04 ;;; io_wait ;;;
  outb PIC1_DATA_PORT PIC_ICW4_8086 ;;;
  outb PIC2_CMD_PORT PIC_ICW1_INIT ;;; io_wait ;;;
  outb PIC2_DATA_PORT PIC2_VECTOR_OFFSET ;;; io_wait ;;;
  outb PIC2_DATA_PORT 0x02 ;;; io_wait ;;;
  outb PIC2_DATA_PORT PIC_ICW4_8086 ;;;
  outb PIC1_DATA_PORT 0xFF ;;; outb PIC2_DATA_PORT 0xFF.
Definition data_port (irq : Z) : Z := if is_slave_irq irq then PIC2_DATA_PORT else PIC1_DATA_PORT.
Definition irq_bit (irq : Z) : Z := u8 (u32 (Z.shiftl 1 (local_irq irq))).
Definition pic_mask_irq (irq : Z) : M R unit := imr <~ inb (data_port irq) ;; outb (data_port irq) (Z.lor imr (irq_bit irq)).
Definition pic_unmask_irq (irq : Z) : M R unit :=
  imr <~ inb (data_port irq) ;; outb (data_port irq) (Z.land imr (u8 (Z.lnot (irq_bit irq)))) ;;;
  if is_slave_irq irq then m <~ inb PIC1_DATA_PORT ;; outb PIC1_DATA_PORT (Z.land m (u8 (Z.lnot 4))) else return tt.
Definition pic_send_eoi (irq : Z) : M R unit :=
  mwhen (is_slave_irq irq) (outb PIC2_CMD_PORT PIC_EOI) ;;; outb PIC1_CMD_PORT PIC_EOI.
Definition pic_send_eoi_master_only : M R unit := outb PIC1_CMD_PORT PIC_EOI.
Definition pic_get_imr_master : M R Z := inb PIC1_DATA_PORT.
Definition pic_get_imr_slave : M R Z := inb PIC2_DATA_PORT.

(** ** Dispatch: one entry per vector, a handler by its number *)

Definition isr_init : list (option nat) := replicate 256 None.
Definition isr_register_handler (vector : Z) (handler : nat) (handlers : list (option nat)) : option (list (option nat)) := zset handlers vector (Some handler).
Definition isr_unregister_handler (vector : Z) (handlers : list (option nat)) : option (list (option nat)) := zset handlers vector None.
Definition isr_eoi (vector : Z) : M R unit :=
  if (32 <=? vector) && (vector <=? 47) then
    if vector =? SPURIOUS_MASTER_VEC then return tt
    else if vector =? SPURIOUS_SLAVE_VEC then pic_send_eoi_master_only
    else pic_send_eoi (u8 (vector - 32))
  else return tt.
(** [handlers] is where the state keeps the table, [call] runs a handler. *)
Definition isr_common_handler (handlers : R -> list (option nat)) (call : nat -> M R unit) (frame_vector : Z) : M R unit :=
  let vector := u8 frame_vector in
  s <~ mget ;;
  h <~ mlift (zget (handlers s) vector) ;;
  match h with Some f => call f | None => return tt end ;;;
  isr_eoi vector.
(** The interrupts of one wait. *)
Fixpoint serve (handlers : R -> list (option nat)) (call : nat -> M R unit) (vectors : list Z) : M R unit :=
  match vectors with [] => return tt | v :: rest => isr_common_handler handlers call v ;;; serve handlers call rest end.
End Pic.

(** The numbers of the two handlers that are modelled. *)
Definition TIMER : nat := 0.
Definition KEYBOARD : nat := 1.

Section Timer.
Context {R : Type} `{!Ports R} `{!Cpu R}.

(** [g_ticks], [g_timer_initialized], [g_pit_frequency], the handler table and the hardware. *)
Record irqs := Irqs { g_ticks : Z; g_timer_initialized : bool; g_pit_frequency : Z; g_handlers : list (option nat); q_io : R }.
Definition set_g_ticks t s := Irqs t (g_timer_initialized s) (g_pit_frequency s) (g_handlers s) (q_io s).
Definition set_pit_frequency f s := Irqs (g_ticks s) (g_timer_initialized s) f (g_handlers s) (q_io s).
Definition set_timer_initialized b s := Irqs (g_ticks s) b (g_pit_frequency s) (g_handlers s) (q_io s).
Definition set_g_handlers h s := Irqs (g_ticks s) (g_timer_initialized s) (g_pit_frequency s) h (q_io s).
Definition set_q_io r s := Irqs (g_ticks s) (g_timer_initialized s) (g_pit_frequency s) (g_handlers s) r.
#[global] Instance irqs_ports : Ports irqs := {
  bus_in8 := fun p s => let (v, r) := bus_in8 p (q_io s) in (v, set_q_io r s);
  bus_out8 := fun p v s => set_q_io (bus_out8 p v (q_io s)) s;
  bus_in16 := fun p s => let (v, r) := bus_in16 p (q_io s) in (v, set_q_io r s);
  bus_out16 := fun p v s => set_q_io (bus_out16 p v (q_io s)) s
}.

(** The reload value for a frequency, and what is then reported as the frequency. *)
Definition pit_frequency (freq : Z) : Z :=
  let freq := if freq =? 0 then PIT_DEFAULT_FREQ else freq in if PIT_BASE_FREQ <? freq then PIT_BASE_FREQ else freq.
Definition pit_divisor (freq : Z) : Z :=
  let d := PIT_BASE_FREQ / pit_frequency freq in
  let d := if d =? 0 then 1 else d in if 65536 <? d then 65536 else d.
Definition pit_init (freq : Z) : M irqs unit :=
  let divisor := pit_divisor freq in
  outb PIT_COMMAND_PORT PIT_CMD_CHANNEL0_MODE2 ;;;
  outb PIT_CHANNEL0_PORT (Z.land divisor 0xFF) ;;;
  outb PIT_CHANNEL0_PORT (Z.land (Z.shiftr divisor 8) 0xFF) ;;;
  mmodify (set_pit_frequency (pit_frequency freq)).
Definition pit_get_frequency : M irqs Z := mgets g_pit_frequency.
Definition pit_get_counter : M irqs Z :=
  outb PIT_COMMAND_PORT PIT_CMD_LATCH_CH0 ;;;
  lo <~ inb PIT_CHANNEL0_PORT ;; hi <~ inb PIT_CHANNEL0_PORT ;;
  return (Z.lor lo (u16 (Z.shiftl hi 8))).

Definition timer_init : M irqs unit :=
  pit_init PIT_DEFAULT_FREQ ;;;
  s <~ mget ;; h <~ mlift (isr_register_handler 32 TIMER (g_handlers s)) ;; mput (set_g_handlers h s) ;;;
  pic_unmask_irq 0 ;;; mmodify (set_timer_initialized true).
Definition timer_get_ticks : M irqs Z := mgets g_ticks.
Definition timer_is_initialized : M irqs bool := mgets g_timer_initialized.
Definition timer_irq_handler : M irqs unit := mmodify (fun s => set_q_io (vga_tick (q_io s)) (set_g_ticks (u64 (g_ticks s + 1)) s)) ;;;
  pic_send_eoi 0 ;;;
  s <~ mget ;; let (away, r) := scheduler_tick (q_io s) in mput (set_q_io r (set_g_ticks (u64 (g_ticks s + away)) s)).

(** The handlers; those of other drivers change the rest of the machine only. *)
Definition call_handler (f : nat) : M irqs unit :=
  if (f =? TIMER)%nat then timer_irq_handler else mmodify (fun s => set_q_io (other_handler f (q_io s)) s).
(** One [hlt] or [pause]. *)
Definition cpu_pause : M irqs unit :=
  s <~ mget ;; let (vectors, r) := cpu_wait (q_io s) in mput (set_q_io r s) ;;; serve g_handlers call_handler vectors.
(** [while (c) pause]: at most [n] rounds. *)
Fixpoint wait_while (n : nat) (c : irqs -> bool) : M irqs unit :=
  s <~ mget ;; if negb (c s) then return tt else match n with O => mfault | S n' => cpu_pause ;;; wait_while n' c end.
(** Both loops of [timer_wait_ticks], with interrupts enabled ([hlt]) and disabled ([pause]), are the same loop. *)
Definition timer_wait_ticks (n : nat) (ticks : Z) : M irqs unit :=
  t <~ mgets g_ticks ;; let target := u64 (t + ticks) in wait_while n (fun s => g_ticks s <? target).
(** The usleep system call (src/kernel/syscall.c). *)
Definition sys_usleep (n : nat) (usec : Z) : M irqs Z :=
  if usec =? 0 then return 0 else
  start <~ timer_get_ticks ;;
  let target_ticks := u64 (usec * 100) / 1000000 in
  let target_ticks := if target_ticks =? 0 then 1 else target_ticks in
  wait_while n (fun s => u64 (g_ticks s - start) <? target_ticks) ;;; return 0.
Definition sys_uptime : M irqs Z := timer_get_ticks.

(** ** Speaker *)

Definition pcspk_mute : M irqs unit := tmp <~ inb PCSPK_PORT ;; outb PCSPK_PORT (Z.land tmp (Z.lnot 3)).
Fixpoint pauses (n : nat) : M irqs unit := match n with O => return tt | S n' => cpu_pause ;;; pauses n' end.
Definition pcspk_beep (n : nat) (freq_hz duration_ms : Z) : M irqs unit :=
  if (freq_hz <? 20) || (20000 <? freq_hz) then return tt else
  let divisor := u32 (PIT_BASE_FREQ / freq_hz) in
  outb PIT_COMMAND_PORT PCSPK_CMD ;;;
  outb PIT_CHANNEL2_PORT (Z.land divisor 0xFF) ;;;
  outb PIT_CHANNEL2_PORT (Z.land (Z.shiftr divisor 8) 0xFF) ;;;
  tmp <~ inb PCSPK_PORT ;;
  outb PCSPK_PORT (Z.lor tmp 3) ;;;
  s <~ mget ;;
  (if g_timer_initialized s then
     let target := u64 (g_ticks s + duration_ms * PIT_DEFAULT_FREQ / 1000) in
     if cpu_if (q_io s) then wait_while n (fun s => g_ticks s <? target) else pauses (Z.to_nat (u32 (duration_ms * 10000)))
   else pauses (Z.to_nat (u32 (duration_ms * 10000)))) ;;;
  pcspk_mute.
Definition pcspk_click (n : nat) : M irqs unit := pcspk_beep n 1000 50.
End Timer.
Arguments irqs : clear implicits.
Arguments Irqs {R}.
