(* ===== verification/IrqSpec.v ===== *)
(** * Interrupts and time: what is acknowledged, how the timer is programmed, which waits end

    [CpuTicks] is what the waiting loops rely on: with interrupts enabled a timer interrupt comes after a bounded number of waits, a task
    that waits runs again after a bounded number of ticks, with interrupts disabled no interrupt is served, and nothing else changes the
    interrupt flag. *)

From stdpp Require Import base numbers list sets options.
From S2P Require Import Prelude Ports Irq.
#[local] Set Default Proof Using "Type*".

Class CpuTicks (R : Type) `{!Ports R} `{!Cpu R} := {
  cpu_bound : nat;                                  (* waits without a timer interrupt, at most *)
  cpu_left : R -> nat;
  cpu_left_bound r : (cpu_left r <= cpu_bound)%nat;
  cpu_away : Z;                                     (* ticks counted before the scheduler returns, at most *)
  cpu_over : Z;                                     (* ticks counted in one wait, beyond the first, at most *)
  cpu_over_0 : 0 <= cpu_over;
  cpu_vectors r : Forall byte_ok (cpu_wait r).1 /\ Z.of_nat (length (filter (.= 32) (cpu_wait r).1)) * (1 + cpu_away) <= 1 + cpu_over;
  cpu_wait_on r : cpu_if r = true -> cpu_if (cpu_wait r).2 = true /\ (32 ∈ (cpu_wait r).1 \/ (cpu_left (cpu_wait r).2 < cpu_left r)%nat);
  cpu_wait_off r : cpu_if r = false -> cpu_if (cpu_wait r).2 = false /\ (cpu_wait r).1 = [];
  cpu_out8 p v r : cpu_if (bus_out8 p v r) = cpu_if r /\ cpu_left (bus_out8 p v r) = cpu_left r;
  cpu_in8 p r : cpu_if (bus_in8 p r).2 = cpu_if r /\ cpu_left (bus_in8 p r).2 = cpu_left r;
  cpu_vga r : cpu_if (vga_tick r) = cpu_if r /\ cpu_left (vga_tick r) = cpu_left r;
  cpu_sched r : 0 <= (scheduler_tick r).1 <= cpu_away /\ cpu_if (scheduler_tick r).2 = cpu_if r /\ cpu_left (scheduler_tick r).2 = cpu_left r;
  cpu_other f r : cpu_if (other_handler f r) = cpu_if r /\ cpu_left (other_handler f r) = cpu_left r
}.

(** Between [lo] and [hi] ticks later, on the counter that wraps. *)
Definition later (lo hi t t' : Z) : Prop := exists d, lo <= d <= hi /\ u64 t' = u64 (t + d) /\ (in_w 64 t -> in_w 64 t').
Lemma later_refl t : later 0 0 t t.
Proof. exists 0. by rewrite Z.add_0_r. Qed.
Lemma later_trans a b c d t1 t2 t3 : later a b t1 t2 -> later c d t2 t3 -> later (a + c) (b + d) t1 t3.
Proof.
  intros (x&Hx&Ex&Wx) (y&Hy&Ey&Wy). exists (x + y). split; [lia|]. split; [|auto]. rewrite Ey. unfold u64, wrap in *.
  rewrite <-Zplus_mod_idemp_l, Ex, Zplus_mod_idemp_l. f_equal. lia.
Qed.
Lemma later_weak a b c d t t' : later a b t t' -> c <= a -> b <= d -> later c d t t'.
Proof. intros (x&Hx&E) Hc Hd. exists x. split; [lia|done]. Qed.
Lemma later_add d t : later d d t (u64 (t + d)).
Proof. exists d. split; [lia|]. split; [unfold u64; by rewrite wrap_wrap|intros _; by apply wrap_range]. Qed.
Lemma later_at lo hi t t' : in_w 64 t -> later lo hi t t' -> exists d, lo <= d <= hi /\ t' = u64 (t + d) /\ in_w 64 t'.
Proof. intros Hw (d&Hd&E&W). exists d. split; [done|]. specialize (W Hw). split; [|done]. rewrite <-E. unfold u64. by rewrite wrap_small. Qed.
Lemma later_0 t t' : in_w 64 t -> later 0 0 t t' -> t' = t.
Proof. intros Hw Hl. destruct (later_at 0 0 t t' Hw Hl) as (d&Hd&->&_). replace (t + d) with t by lia. unfold u64. by apply wrap_small. Qed.

(** The handler table as timer_init leaves it: vector 32, and only it, has the timer's handler. *)
Definition timer_registered (h : list (option nat)) : Prop :=
  length h = 256%nat /\ zget h 32 = Some (Some TIMER) /\ forall v, v <> 32 -> zget h v <> Some (Some TIMER).

Section Waits.
Context {R : Type} `{!Ports R} `{!Cpu R} `{!CpuTicks R}.
Implicit Types s : irqs R.

(** The same up to the ticks and the hardware. *)
Definition quiet s s' : Prop :=
  g_handlers s' = g_handlers s /\ g_timer_initialized s' = g_timer_initialized s /\ g_pit_frequency s' = g_pit_frequency s /\
  cpu_if (q_io s') = cpu_if (q_io s) /\ cpu_left (q_io s') = cpu_left (q_io s).
Lemma quiet_trans s1 s2 s3 : quiet s1 s2 -> quiet s2 s3 -> quiet s1 s3.
Proof. unfold quiet. intuition congruence. Qed.
Lemma quiet_outb p v s : exists s', outb p v s = Some (tt, s') /\ quiet s s' /\ g_ticks s' = g_ticks s.
Proof.
  eexists. split; [reflexivity|]. split; [|done]. unfold quiet. cbn.
  destruct (cpu_out8 (u16 p) (u8 v) (q_io s)). auto.
Qed.
Lemma quiet_then (c1 c2 : M (irqs R) unit) s :
  (exists s', c1 s = Some (tt, s') /\ quiet s s' /\ g_ticks s' = g_ticks s) ->
  (forall s, exists s', c2 s = Some (tt, s') /\ quiet s s' /\ g_ticks s' = g_ticks s) ->
  exists s', (c1 ;;; c2) s = Some (tt, s') /\ quiet s s' /\ g_ticks s' = g_ticks s.
Proof.
  intros (s1&H1&Hq1&Ht1) H2. destruct (H2 s1) as (s2&Hs2&Hq2&Ht2). exists s2. mstep H1.
  split; [done|]. split; [by eapply quiet_trans|congruence].
Qed.
Lemma quiet_eoi v s : exists s', isr_eoi v s = Some (tt, s') /\ quiet s s' /\ g_ticks s' = g_ticks s.
Proof.
  assert (forall s, exists s', mret (S := irqs R) tt s = Some (tt, s') /\ quiet s s' /\ g_ticks s' = g_ticks s) as Hr
    by (intros t; exists t; done).
  unfold isr_eoi, pic_send_eoi_master_only, pic_send_eoi, mwhen.
  repeat case_match; try apply Hr; try apply quiet_outb; apply quiet_then; eauto using quiet_outb.
Qed.
Lemma quiet_handler s : exists s', timer_irq_handler s = Some (tt, s') /\ quiet s s' /\ later 1 (1 + cpu_away) (g_ticks s) (g_ticks s').
Proof.
  unfold timer_irq_handler, mbind_ at 1, mmodify. cbn [fst snd]. destruct (quiet_outb PIC1_CMD_PORT PIC_EOI (set_q_io (vga_tick (q_io s)) (set_g_ticks (u64 (g_ticks s + 1)) s))) as (s1&H1&Hq1&Ht1).
  assert (pic_send_eoi 0 (set_q_io (vga_tick (q_io s)) (set_g_ticks (u64 (g_ticks s + 1)) s)) = Some (tt, s1)) as H1' by exact H1. mstep H1'.
  unfold mget, mbind_ at 1. cbn [fst snd]. destruct (cpu_sched (q_io s1)) as (Ha&Hi&Hl). destruct (scheduler_tick (q_io s1)) as [away r]. cbn [fst snd] in *.
  eexists. split; [reflexivity|]. split.
  - destruct Hq1 as (A1&A2&A3&A4&A5). unfold quiet. cbn in *. destruct (cpu_vga (q_io s)) as [V1 V2]. rewrite Hi, Hl, A4, A5. auto.
  - cbn. rewrite Ht1. cbn. apply (later_weak (1 + away) (1 + away)); [|lia..]. eapply later_trans; apply later_add.
Qed.
(** The ticks that an interrupt, and a list of them, count at least and at most. *)
Definition least (v : Z) : Z := if decide (v = 32) then 1 else 0.
Definition most (v : Z) : Z := if decide (v = 32) then 1 + cpu_away else 0.
Definition timers (l : list Z) : Z := Z.of_nat (length (filter (.= 32) l)).
Lemma isr_run v s : timer_registered (g_handlers s) -> byte_ok v ->
  exists s', isr_common_handler g_handlers call_handler v s = Some (tt, s') /\ quiet s s' /\ later (least v) (most v) (g_ticks s) (g_ticks s').
Proof.
  intros (Hl&H32&Hne) Hv. unfold isr_common_handler, mbind_ at 1, mget. cbn. unfold u8. rewrite (wrap_small 8) by exact Hv.
  destruct (zget_is_Some (g_handlers s) v) as [h Hh]; [unfold byte_ok in Hv; lia|]. rewrite Hh.
  assert (forall c, (exists s1, c s = Some (tt, s1) /\ quiet s s1 /\ later (least v) (most v) (g_ticks s) (g_ticks s1)) ->
    exists s', (c ;;; isr_eoi v) s = Some (tt, s') /\ quiet s s' /\ later (least v) (most v) (g_ticks s) (g_ticks s')) as Hseq.
  { intros c (s1&H1&Hq1&Ht1). mstep H1. destruct (quiet_eoi v s1) as (s2&H2&Hq2&Ht2). exists s2.
    split; [done|]. split; [by eapply quiet_trans|by rewrite Ht2]. }
  cbn. unfold mlift, mbind_ at 1. apply Hseq. unfold least, most. destruct (decide (v = 32)) as [->|Hn].
  - rewrite H32 in Hh. simplify_eq. apply quiet_handler.
  - destruct h as [f|]; [|exists s; split; [done|split; [done|apply later_refl]]]. unfold call_handler. destruct (Nat.eqb_spec f TIMER); [subst; by edestruct Hne|].
    eexists. split; [reflexivity|]. split; [|apply later_refl]. unfold quiet. cbn. destruct (cpu_other f (q_io s)); auto.
Qed.
Lemma timers_cons v l a b c d t1 t2 t3 : a = least v -> b = most v -> c = Z.min 1 (timers l) -> d = timers l * (1 + cpu_away) -> 0 <= cpu_away ->
  later a b t1 t2 -> later c d t2 t3 -> later (Z.min 1 (timers (v :: l))) (timers (v :: l) * (1 + cpu_away)) t1 t3.
Proof.
  intros -> -> -> -> Ha H1 H2. eapply later_weak; [by eapply later_trans|..]; unfold least, most, timers in *; rewrite filter_cons; repeat case_decide; cbn [length]; lia.
Qed.
Lemma away_0 : 0 <= cpu_away \/ forall r : R, False.
Proof. destruct (decide (0 <= cpu_away)); [by left|right]. intros r. destruct (cpu_sched r). lia. Qed.
Lemma serve_run l : forall s, timer_registered (g_handlers s) -> Forall byte_ok l ->
  exists s', serve g_handlers call_handler l s = Some (tt, s') /\ quiet s s' /\ later (Z.min 1 (timers l)) (timers l * (1 + cpu_away)) (g_ticks s) (g_ticks s').
Proof.
  induction l as [|v l IH]; intros s Hr Hb; cbn [serve].
  { exists s. split; [done|]. split; [done|apply later_refl]. }
  apply Forall_cons in Hb as [Hv Hb].
  destruct (isr_run v s Hr Hv) as (s1&H1&Hq1&Ht1). mstep H1.
  destruct (IH s1) as (s2&H2&Hq2&Ht2); [by destruct Hq1 as (->&_)|done|].
  exists s2. split; [done|]. split; [by eapply quiet_trans|]. eapply timers_cons; [done..| |done|done]. destruct (away_0) as [|F]; [done|destruct (F (q_io s))].
Qed.
(** What a wait does to the counter: at least one tick, and at most those of [cpu_over] more, or none when there was no timer interrupt. *)
Lemma wait_later r t t' : in_w 64 t -> cpu_if r = true -> later (Z.min 1 (timers (cpu_wait r).1)) (timers (cpu_wait r).1 * (1 + cpu_away)) t t' ->
  later 1 (1 + cpu_over) t t' \/ t' = t /\ (cpu_left (cpu_wait r).2 < cpu_left r)%nat.
Proof.
  intros Hw Hif Hl. destruct (cpu_vectors r) as [_ Hov]. fold (timers (cpu_wait r).1) in Hov. destruct (cpu_wait_on r Hif) as [_ Hc].
  destruct (decide (32 ∈ (cpu_wait r).1)) as [Hin|Hout].
  - left. eapply later_weak; [exact Hl| |done]. unfold timers. assert (32 ∈ filter (.= 32) (cpu_wait r).1) as Hf by by apply list_elem_of_filter.
    destruct (filter (.= 32) (cpu_wait r).1); [by apply elem_of_nil in Hf|cbn [length]; lia].
  - right. split; [|by destruct Hc]. apply later_0; [done|]. replace (timers (cpu_wait r).1) with 0 in Hl; [exact Hl|]. unfold timers.
    assert (filter (.= 32) (cpu_wait r).1 = []) as ->; [|done]. apply elem_of_nil_inv. intros x [-> Hx]%list_elem_of_filter. done.
Qed.

(** One wait with interrupts enabled counts ticks or comes closer to one. *)
Lemma pause_run s : timer_registered (g_handlers s) -> cpu_if (q_io s) = true -> in_w 64 (g_ticks s) ->
  exists s', cpu_pause s = Some (tt, s') /\ g_handlers s' = g_handlers s /\ cpu_if (q_io s') = true /\
    (later 1 (1 + cpu_over) (g_ticks s) (g_ticks s') \/ g_ticks s' = g_ticks s /\ (cpu_left (q_io s') < cpu_left (q_io s))%nat).
Proof.
  intros Hr Hif Hw. destruct (cpu_vectors (q_io s)) as [Hb _]. destruct (cpu_wait_on _ Hif) as [Hif' _]. pose proof (fun t' => wait_later (q_io s) (g_ticks s) t' Hw Hif) as Hlat.
  unfold cpu_pause, mbind_ at 1, mget. cbn. destruct (cpu_wait (q_io s)) as [l r]. cbn in *.
  destruct (serve_run l (set_q_io r s)) as (s'&Hs&(Hh&_&_&Hi&Hlf)&Ht); [done..|]. exists s'. split; [exact Hs|].
  cbn in *. rewrite Hh, Hi, Hlf. split; [done|]. split; [done|]. by apply Hlat.
Qed.
Lemma pause_off s : cpu_if (q_io s) = false ->
  exists s', cpu_pause s = Some (tt, s') /\ g_ticks s' = g_ticks s /\ cpu_if (q_io s') = false.
Proof.
  intros Hif. destruct (cpu_wait_off _ Hif) as [Hif' Hl]. unfold cpu_pause, mbind_ at 1, mget. cbn.
  destruct (cpu_wait (q_io s)) as [l r]. cbn in *. subst l. eexists. split; [reflexivity|]. done.
Qed.

(** A loop on the tick counter runs until its condition fails, [k] ticks later or when the task is next back, and never when no interrupt comes. *)
Lemma wait_while_stop (c : irqs R -> bool) n s : c s = false -> wait_while n c s = Some (tt, s).
Proof. intros Hc. destruct n; cbn [wait_while]; unfold mbind_ at 1, mget; cbn; by rewrite Hc. Qed.
Lemma wait_while_run (c : Z -> bool) n : forall k s,
  timer_registered (g_handlers s) -> cpu_if (q_io s) = true -> in_w 64 (g_ticks s) ->
  (forall i, 0 <= i < Z.of_nat k -> c (u64 (g_ticks s + i)) = true) -> (forall i, Z.of_nat k <= i <= Z.of_nat k + cpu_over -> c (u64 (g_ticks s + i)) = false) ->
  (k * S cpu_bound + cpu_left (q_io s) <= n)%nat ->
  exists s' d, wait_while n (fun s => c (g_ticks s)) s = Some (tt, s') /\ g_ticks s' = u64 (g_ticks s + d) /\ Z.of_nat k <= d <= Z.of_nat k + cpu_over /\ (k = 0%nat -> d = 0) /\
    g_handlers s' = g_handlers s /\ cpu_if (q_io s') = true.
Proof.
  pose proof cpu_over_0 as Hov. assert (forall s, in_w 64 (g_ticks s) -> u64 (g_ticks s + 0) = g_ticks s) as H0.
  { intros s Hs. rewrite Z.add_0_r. unfold u64. by apply wrap_small. }
  induction n as [|n IH]; intros k s Hr Hif Hw Hc Hk Hn.
  all: destruct (decide (k = 0%nat)) as [->|Hk0];
    [pose proof (Hk 0 ltac:(lia)) as Hk1; rewrite H0 in Hk1 by done; exists s, 0; rewrite (wait_while_stop _ _ s Hk1), H0 by done; split_and!; done || lia|].
  { destruct k; [done|]. cbn in Hn. lia. }
  pose proof (Hc 0 ltac:(lia)) as Hc0; rewrite H0 in Hc0 by done. cbn [wait_while]; unfold mbind_ at 1, mget; cbn. rewrite Hc0; cbn.
  destruct (pause_run s Hr Hif Hw) as (s1&H1&Hh&Hif1&Hcase). mstep H1.
  destruct Hcase as [Ht|[Ht Hl]].
  - destruct (later_at _ _ _ _ Hw Ht) as (e&He&Et&Hw1). assert (forall i, u64 (g_ticks s1 + i) = u64 (g_ticks s + (e + i))) as Hs.
    { intros i. rewrite Et. unfold u64, wrap. rewrite Zplus_mod_idemp_l. f_equal. lia. }
    destruct (decide (Z.of_nat k <= e)) as [Hge|Hlt].
    + exists s1, e. rewrite (wait_while_stop _ n s1) by (rewrite Et; apply Hk; lia). split_and!; done || lia.
    + assert (exists j, k = (Z.to_nat e + j)%nat /\ Z.of_nat (Z.to_nat e) = e) as (j&->&Ee) by (exists (k - Z.to_nat e)%nat; lia).
      destruct (IH j s1) as (s'&d&Hrun&Ht'&Hd&_&Hh'&Hif'); [by rewrite Hh|done|done|..].
      * intros i Hi. rewrite Hs. apply Hc. lia.
      * intros i Hi. rewrite Hs. apply Hk. lia.
      * pose proof (cpu_left_bound (q_io s1)). assert (1 <= Z.to_nat e)%nat by lia. nia.
      * exists s', (e + d). rewrite Hrun, Ht', Hs, Hh', Hh. split_and!; done || lia.
  - destruct (IH k s1) as (s'&d&Hrun&Ht'&Hd&Hd0&Hh'&Hif'); [by rewrite Hh|done|by rewrite Ht|by rewrite Ht..|lia|].
    exists s', d. rewrite Hrun, Ht', Ht, Hh', Hh. split_and!; done || lia.
Qed.
Lemma wait_while_off (c : Z -> bool) n : forall s, cpu_if (q_io s) = false -> c (g_ticks s) = true ->
  wait_while n (fun s => c (g_ticks s)) s = None.
Proof.
  induction n as [|n IH]; intros s Hif Hc; cbn [wait_while]; unfold mbind_ at 1, mget; cbn; rewrite Hc; [done|]. cbn.
  destruct (pause_off s Hif) as (s'&Hs&Ht&Hif'). mstep Hs. apply IH; [done|by rewrite Ht].
Qed.

(** The loop [while (g_ticks < target)]. *)
Lemma wait_lt_run n target s : timer_registered (g_handlers s) -> cpu_if (q_io s) = true -> in_w 64 (g_ticks s) -> 0 <= target -> target + cpu_over < 2 ^ 64 ->
  (Z.to_nat (target - g_ticks s) * S cpu_bound + cpu_bound <= n)%nat ->
  exists s', wait_while n (fun s => g_ticks s <? target) s = Some (tt, s') /\
    (if g_ticks s <? target then target <= g_ticks s' <= target + cpu_over else g_ticks s' = g_ticks s) /\
    g_handlers s' = g_handlers s /\ cpu_if (q_io s') = true.
Proof.
  intros Hr Hif Hw Ht0 Ht Hn. unfold in_w in *. pose proof (cpu_left_bound (q_io s)). pose proof cpu_over_0. destruct (Z.ltb_spec (g_ticks s) target) as [Hlt|Hge].
  2: { exists s. rewrite wait_while_stop by by apply Z.ltb_ge. done. }
  assert (forall i, 0 <= i <= target - g_ticks s + cpu_over -> u64 (g_ticks s + i) = g_ticks s + i) as Hu.
  { intros i Hi. unfold u64. apply wrap_small. unfold in_w. lia. }
  destruct (wait_while_run (fun t => t <? target) n (Z.to_nat (target - g_ticks s)) s) as (s'&d&Hs&Hts&Hd&_&Hh&Hi);
    [done|done|done| | |lia|].
  - intros i Hi. rewrite Hu by lia. apply Z.ltb_lt. lia.
  - intros i Hi. rewrite Hu by lia. apply Z.ltb_ge. lia.
  - exists s'. split; [exact Hs|]. rewrite Hts, Hu by lia. split; [lia|done].
Qed.
(** The loop of usleep, on the ticks since its start. *)
Lemma wait_since_run n k s : timer_registered (g_handlers s) -> cpu_if (q_io s) = true -> in_w 64 (g_ticks s) -> 0 <= k -> k + cpu_over < 2 ^ 64 ->
  (Z.to_nat k * S cpu_bound + cpu_bound <= n)%nat ->
  exists s' d, wait_while n (fun s' => u64 (g_ticks s' - g_ticks s) <? k) s = Some (tt, s') /\ g_ticks s' = u64 (g_ticks s + d) /\ k <= d <= k + cpu_over.
Proof.
  intros Hr Hif Hw Hk0 Hk Hn. unfold in_w in *. pose proof (cpu_left_bound (q_io s)). pose proof cpu_over_0.
  assert (forall i, 0 <= i < 2 ^ 64 -> u64 (u64 (g_ticks s + i) - g_ticks s) = i) as Hu.
  { intros i Hi. unfold u64, wrap. rewrite Zminus_mod_idemp_l, Z.mod_small; lia. }
  destruct (wait_while_run (fun t => u64 (t - g_ticks s) <? k) n (Z.to_nat k) s) as (s'&d&Hs&Hts&Hd&_&_&_);
    [done|done|done| | |lia|].
  - intros i Hi. rewrite Hu by lia. apply Z.ltb_lt. lia.
  - intros i Hi. rewrite Hu by lia. apply Z.ltb_ge. lia.
  - exists s', d. split; [exact Hs|]. split; [done|lia].
Qed.
Lemma pauses_run n : forall s, timer_registered (g_handlers s) ->
  exists s', pauses n s = Some (tt, s') /\ g_handlers s' = g_handlers s.
Proof.
  induction n as [|n IH]; intros s Hr; cbn [pauses]; [by exists s|].
  assert (exists s1, cpu_pause s = Some (tt, s1) /\ g_handlers s1 = g_handlers s) as (s1&H1&Hh).
  { destruct (cpu_vectors (q_io s)) as [Hb _]. unfold cpu_pause, mbind_ at 1, mget. cbn. destruct (cpu_wait (q_io s)) as [l r].
    destruct (serve_run l (set_q_io r s)) as (s'&Hs&(Hh&_)&_); [done..|]. eauto. }
  mstep H1. destruct (IH s1) as (s2&H2&Hh2); [by rewrite Hh|]. exists s2. by rewrite H2, Hh2.
Qed.
Lemma inb_quiet p s : exists v s', inb p s = Some (v, s') /\ quiet s s' /\ g_ticks s' = g_ticks s.
Proof.
  unfold inb. cbn. destruct (bus_in8 (u16 p) (q_io s)) as [v r] eqn:E. eexists _, _. split; [reflexivity|]. split; [|done].
  unfold quiet. cbn. destruct (cpu_in8 (u16 p) (q_io s)) as [H1 H2]. rewrite E in *. cbn in *. auto.
Qed.
Lemma pcspk_mute_run s : exists s', pcspk_mute s = Some (tt, s').
Proof.
  destruct (inb_quiet PCSPK_PORT s) as (v&s1&H1&_). unfold pcspk_mute. mstep H1.
  destruct (quiet_outb PCSPK_PORT (Z.land v (Z.lnot 3)) s1) as (s2&H2&_). eauto.
Qed.
End Waits.

Section Properties.
Context {R : Type} `{!Ports R} `{!Cpu R} `{!CpuTicks R}.
Implicit Types s : irqs R.

(** Enough rounds of waiting for [k] ticks. *)
Definition rounds (k : Z) : nat := Z.to_nat k * S cpu_bound + cpu_bound.
(** How many ticks usleep waits for: hundredths of a second, at least one, of a product that wraps. *)
Definition usleep_ticks (usec : Z) : Z := Z.max 1 (u64 (usec * 100) / 1000000).
Lemma usleep_ticks_range usec : 1 <= usleep_ticks usec < 2 ^ 64.
Proof.
  unfold usleep_ticks. pose proof (wrap_range 64 (usec * 100)) as [? ?]; [lia|]. unfold u64. split; [lia|].
  apply Z.max_lub_lt; [lia|]. apply Z.div_lt_upper_bound; lia.
Qed.
Lemma sys_usleep_unfold n usec s : usec <> 0 ->
  sys_usleep n usec s = (wait_while n (fun s' => u64 (g_ticks s' - g_ticks s) <? usleep_ticks usec) ;;; return 0) s.
Proof.
  intros Hu. unfold sys_usleep. rewrite (proj2 (Z.eqb_neq _ _)) by done.
  unfold timer_get_ticks, mgets, mbind_ at 1. cbn [fst snd].
  enough ((if u64 (usec * 100) / 1000000 =? 0 then 1 else u64 (usec * 100) / 1000000) = usleep_ticks usec) as -> by done.
  unfold usleep_ticks. assert (0 <= u64 (usec * 100) / 1000000).
  { apply Z.div_pos; [|lia]. apply (wrap_range 64). lia. }
  destruct (Z.eqb_spec (u64 (usec * 100) / 1000000) 0); lia.
Qed.

(** C28: with interrupts enabled usleep and timer_wait_ticks return, never before the ticks they compute have passed (usleep: the time in hundredths
    of a second, rounded down, at least one) and at most [cpu_over] ticks after, those that other tasks may take before the task runs again; with no
    other task in between it is exactly then.  timer_wait_ticks returns at once for 0 ticks or when the target wraps.  With interrupts disabled, as in
    a system call, neither returns however long it is run, unless there is nothing to wait for; usleep of 0 always returns at once. *)
Theorem tick_waits_end s : timer_registered (g_handlers s) -> in_w 64 (g_ticks s) ->
  (cpu_if (q_io s) = true ->
    (forall usec n, usec <> 0 -> usleep_ticks usec + cpu_over < 2 ^ 64 -> (rounds (usleep_ticks usec) <= n)%nat ->
      exists s' d, sys_usleep n usec s = Some (0, s') /\ g_ticks s' = u64 (g_ticks s + d) /\ usleep_ticks usec <= d <= usleep_ticks usec + cpu_over) /\
    (forall ticks n, 0 < ticks -> g_ticks s + ticks + cpu_over < 2 ^ 64 -> (rounds ticks <= n)%nat ->
      exists s', timer_wait_ticks n ticks s = Some (tt, s') /\ g_ticks s + ticks <= g_ticks s' <= g_ticks s + ticks + cpu_over) /\
    (forall ticks n, ticks = 0 \/ in_w 64 ticks /\ 2 ^ 64 <= g_ticks s + ticks -> timer_wait_ticks n ticks s = Some (tt, s))) /\
  (cpu_if (q_io s) = false ->
    (forall usec n, usec <> 0 -> sys_usleep n usec s = None) /\
    (forall ticks n, 0 < ticks -> g_ticks s + ticks < 2 ^ 64 -> timer_wait_ticks n ticks s = None)) /\
  (forall n, sys_usleep n 0 s = Some (0, s)).
Proof.
  intros Hr Hw. pose proof cpu_over_0. split; [|split; [|done]]; intros Hif; [split; [|split]|split].
  - intros usec n Hu Ho Hn. rewrite sys_usleep_unfold by done. pose proof (usleep_ticks_range usec).
    destruct (wait_since_run n (usleep_ticks usec) s) as (s'&d&Hs&Ht&Hd); [done|done|done|lia|done|done|].
    exists s', d. by mstep Hs.
  - intros ticks n Ht Ho Hn. unfold timer_wait_ticks, mgets, mbind_ at 1. cbn [fst snd]. unfold in_w in *.
    unfold u64. rewrite wrap_small by (unfold in_w; lia). destruct (wait_lt_run n (g_ticks s + ticks) s) as (s'&Hs&Hts&_); [done|done|done|lia|done| |].
    + etransitivity; [|exact Hn]. unfold rounds. apply Nat.add_le_mono_r, Nat.mul_le_mono_r. lia.
    + exists s'. split; [done|]. by rewrite (proj2 (Z.ltb_lt _ _)) in Hts by lia.
  - intros ticks n Ht. unfold timer_wait_ticks, mgets, mbind_ at 1. cbn [fst snd]. apply wait_while_stop, Z.ltb_ge. unfold in_w, u64 in *. destruct Ht as [->|[? ?]].
    + rewrite Z.add_0_r, wrap_small; unfold in_w; lia.
    + unfold wrap. replace (g_ticks s + ticks) with (g_ticks s + ticks - 2 ^ 64 + 1 * 2 ^ 64) by lia. rewrite Z_mod_plus_full, Z.mod_small by lia. lia.
  - intros usec n Hu. rewrite sys_usleep_unfold by done. unfold mbind_ at 1.
    rewrite (wait_while_off (fun t => u64 (t - g_ticks s) <? usleep_ticks usec)); [done|done|].
    pose proof (usleep_ticks_range usec). rewrite Z.sub_diag. apply Z.ltb_lt. change (u64 0) with 0. lia.
  - intros ticks n Ht Hlt. unfold timer_wait_ticks, mgets, mbind_ at 1. cbn [fst snd]. unfold in_w in *.
    apply (wait_while_off (fun t => t <? u64 (g_ticks s + ticks))); [done|]. apply Z.ltb_lt.
    unfold u64. rewrite wrap_small by (unfold in_w; lia). lia.
Qed.

(** A beep ends, with the speaker muted, whether interrupts are enabled or not. *)
Lemma pcspk_beep_ends freq ms s : timer_registered (g_handlers s) -> in_w 64 (g_ticks s) -> in_w 32 ms -> g_ticks s + ms + cpu_over < 2 ^ 64 ->
  exists N, forall n, (N <= n)%nat -> exists s', pcspk_beep n freq ms s = Some (tt, s').
Proof.
  intros Hr Hw Hms Hov. set (target := u64 (g_ticks s + ms * PIT_DEFAULT_FREQ / 1000)).
  exists (rounds (target - g_ticks s)). intros n Hn. unfold pcspk_beep. case_match; [by exists s|].
  edestruct (quiet_outb PIT_COMMAND_PORT PCSPK_CMD s) as (s1&H1&Hq1&Ht1). mstep H1.
  match goal with |- context [outb ?p ?v ;;; _] => edestruct (quiet_outb p v s1) as (s2&H2&Hq2&Ht2) end. mstep H2.
  match goal with |- context [outb ?p ?v ;;; _] => edestruct (quiet_outb p v s2) as (s3&H3&Hq3&Ht3) end. mstep H3.
  destruct (inb_quiet PCSPK_PORT s3) as (v&s4&H4&Hq4&Ht4). mstep H4.
  match goal with |- context [outb ?p ?v ;;; _] => edestruct (quiet_outb p v s4) as (s5&H5&Hq5&Ht5) end. mstep H5.
  assert (quiet s s5) as (Hh&_&_&Hi&_) by eauto using quiet_trans.
  assert (g_ticks s5 = g_ticks s) as Ht by congruence. rewrite <-Hh in Hr.
  unfold mget, mbind_ at 1. cbn [fst snd].
  match goal with |- exists s', (?c ;;; _) s5 = _ => assert (exists s6, c s5 = Some (tt, s6)) as (s6&H6) end.
  { destruct (pauses_run (Z.to_nat (u32 (ms * 10000))) s5 Hr) as (s6&H6&_).
    destruct (g_timer_initialized s5); [|by eauto]. destruct (cpu_if (q_io s5)) eqn:Hif; [|by eauto].
    rewrite Ht. fold target. assert (0 <= ms * PIT_DEFAULT_FREQ / 1000 <= ms) as Hms'.
    { unfold PIT_DEFAULT_FREQ. split; [apply Z.div_pos; unfold in_w in *; lia|]. apply Z.div_le_upper_bound; unfold in_w in *; lia. }
    pose proof cpu_over_0. assert (target = g_ticks s + ms * PIT_DEFAULT_FREQ / 1000) as Et by (unfold target, u64; apply wrap_small; unfold in_w in *; lia).
    destruct (wait_lt_run n target s5) as (s7&H7&_); [done|done|by rewrite Ht|unfold in_w in *; lia|lia| |by eauto].
    unfold rounds in Hn. rewrite Ht. lia. }
  mstep H6. apply pcspk_mute_run.
Qed.
End Properties.

(** ** The timer chip *)

(** The frequency the chip is asked for: the default for 0, and at most its own. *)
Lemma pit_frequency_range freq : 0 <= freq -> 1 <= pit_frequency freq <= PIT_BASE_FREQ.
Proof.
  intros. unfold pit_frequency, PIT_DEFAULT_FREQ, PIT_BASE_FREQ. destruct (Z.eqb_spec freq 0).
  - destruct (Z.ltb_spec 1193182 100); lia.
  - destruct (Z.ltb_spec 1193182 freq); lia.
Qed.
Lemma pit_divisor_eq freq : 0 <= freq -> pit_divisor freq = Z.min 65536 (PIT_BASE_FREQ / pit_frequency freq) /\ 1 <= pit_divisor freq.
Proof.
  intros Hf. pose proof (pit_frequency_range freq Hf). unfold pit_divisor.
  assert (1 <= PIT_BASE_FREQ / pit_frequency freq) by (apply Z.div_le_lower_bound; lia).
  rewrite (proj2 (Z.eqb_neq _ _)) by lia. destruct (Z.ltb_spec 65536 (PIT_BASE_FREQ / pit_frequency freq)); lia.
Qed.

(** On any hardware pit_init returns after writing the command and the two bytes of a reload value between 1 and 65536 (written as 0),
    which is the base frequency over the frequency asked for, with 0 read as 100 Hz and the rest clamped; below 19 Hz the value is 65536,
    the chip runs at 18.2 Hz, and the frequency reported is still the one asked for. *)
Theorem pit_init_exact freq (s : irqs bus) : 0 <= freq < 2 ^ 32 ->
  let f := if freq =? 0 then 100 else Z.min freq PIT_BASE_FREQ in
  let d := Z.min 65536 (PIT_BASE_FREQ / f) in
  exists s' lo hi, pit_init freq s = Some (tt, s') /\ 1 <= d <= 65536 /\ byte_ok lo /\ byte_ok hi /\ lo + 256 * hi = d mod 65536 /\
    bus_log (q_io s') = bus_log (q_io s) ++ [Out8 0x43 0x34; Out8 0x40 lo; Out8 0x40 hi] /\
    g_pit_frequency s' = f /\ (f < 19 <-> f * d < PIT_BASE_FREQ - f).
Proof.
  intros Hf f d.
  assert (pit_frequency freq = f) as Ef.
  { unfold pit_frequency, f. destruct (Z.eqb_spec freq 0); [done|]. destruct (Z.ltb_spec PIT_BASE_FREQ freq); lia. }
  destruct (pit_divisor_eq freq) as [Hd H1]; [lia|]. rewrite Ef in Hd. fold d in Hd.
  pose proof (pit_frequency_range freq ltac:(lia)) as Hr. rewrite Ef in Hr.
  assert (1 <= d <= 65536) as Hb by lia.
  eexists _, (d mod 256), (d / 256 mod 256). split; [reflexivity|]. split; [done|].
  split; [by apply Z.mod_pos_bound|]. split; [by apply Z.mod_pos_bound|]. split.
  { change 65536 with (256 * 256). rewrite Z.rem_mul_r by lia. lia. }
  cbn. rewrite Hd. rewrite <-!app_assoc. cbn.
  change 255 with (Z.ones 8). rewrite !Z.land_ones, Z.shiftr_div_pow2 by lia. change (2 ^ 8) with 256.
  split; [by unfold u8, wrap; rewrite !Z.mod_mod|]. split; [done|].
  assert (PIT_BASE_FREQ = 1193182) as HB by done. pose proof (Z.div_mod PIT_BASE_FREQ f ltac:(lia)). pose proof (Z.mod_pos_bound PIT_BASE_FREQ f ltac:(lia)).
  destruct (decide (f < 19)); [|].
  - split; [|done]. intros _. unfold d. assert (f * 65536 < PIT_BASE_FREQ - f) by lia. nia.
  - split; [lia|]. intros Hlt. exfalso.
    assert (PIT_BASE_FREQ / f <= 65536) by (apply Z.div_le_upper_bound; lia).
    unfold d in Hlt. rewrite Z.min_r in Hlt by done. lia.
Qed.
Lemma pit_init_exact_witness : exists (s' : irqs bus) lo hi,
  pit_init 10 (Irqs 0 false 0 [] (Bus (fun _ _ => 0) [])) = Some (tt, s') /\ g_pit_frequency s' = 10 /\ lo + 256 * hi = 0.
Proof.
  destruct (pit_init_exact 10 (Irqs 0 false 0 [] (Bus (fun _ _ => 0) []))) as (s'&lo&hi&H&_&_&_&He&_&Hf&_); [lia|].
  exists s', lo, hi. split; [exact H|]. split; [exact Hf|exact He].
Defined.

(** ** Acknowledgement

    What an 8259 pair does with the commands it is given: the bits of the interrupts in service, master and slave, of which an
    end-of-interrupt command clears the lowest (the highest priority).  A line is accepted when nothing of its priority or above is in service. *)
Definition pic_step (ms : Z * Z) (w : Z * Z) : Z * Z :=
  let (m, s) := ms in
  if decide (w = (0x20, 0x20)) then (Z.land m (m - 1), s) else if decide (w = (0xA0, 0x20)) then (m, Z.land s (s - 1)) else ms.
Definition acked (ms : Z * Z) (w : list (Z * Z)) : Z * Z := foldl pic_step ms w.
Definition pic_accepts (irq : Z) (ms : Z * Z) : Prop :=
  0 <= ms.1 < 256 /\ 0 <= ms.2 < 256 /\
  if irq <? 8 then ms.1 mod 2 ^ (irq + 1) = 0 else ms.1 mod 8 = 0 /\ ms.2 mod 2 ^ (irq - 7) = 0.
Definition pic_accept (irq : Z) (ms : Z * Z) : Z * Z :=
  if irq <? 8 then (Z.lor ms.1 (2 ^ irq), ms.2) else (Z.lor ms.1 4, Z.lor ms.2 (2 ^ (irq - 8))).
(** What goes to the command ports. *)
Definition pic_commands (w : list (Z * Z)) : list (Z * Z) := filter (fun x => x.1 = 0x20 \/ x.1 = 0xA0) w.

Definition eoi_writes (vector : Z) : list access :=
  if (32 <=? vector) && (vector <=? 47) && negb (vector =? 39) then
    (if (40 <=? vector) && negb (vector =? 47) then [Out8 0xA0 0x20] else []) ++ [Out8 0x20 0x20]
  else [].
Lemma isr_eoi_writes v (s : irqs bus) : byte_ok v ->
  isr_eoi v s = Some (tt, set_q_io (Bus (bus_answer (q_io s)) (bus_log (q_io s) ++ eoi_writes v)) s).
Proof.
  intros Hv. unfold isr_eoi, eoi_writes, byte_ok in *.
  destruct s as [t i f h [a l]]. destruct (Z.leb_spec 32 v), (Z.leb_spec v 47); cbn [andb]; try by rewrite app_nil_r.
  unfold SPURIOUS_MASTER_VEC, SPURIOUS_SLAVE_VEC. destruct (Z.eqb_spec v 39); [by rewrite app_nil_r|]. cbn [negb andb].
  destruct (Z.eqb_spec v 47); [subst; reflexivity|]. unfold pic_send_eoi, is_slave_irq, u8. rewrite wrap_small by (unfold in_w; lia).
  destruct (Z.leb_spec 8 (v - 32)), (Z.leb_spec 40 v); try lia; unfold mwhen, mbind_, outb, mret; cbn; unfold set_q_io, logged; cbn; rewrite <-?app_assoc; reflexivity.
Qed.
Lemma acked_other ms w : pic_commands w = [] -> acked ms w = ms.
Proof.
  unfold pic_commands. revert ms. induction w as [|[p v] w IH]; intros [m s]; [done|]. rewrite filter_cons. case_decide as Hp; [done|].
  intros Hw. cbn. rewrite IH by done. rewrite !decide_False by (intros [= -> ->]; apply Hp; auto). done.
Qed.
Lemma acked_commands ms w : acked ms w = acked ms (pic_commands w).
Proof.
  unfold pic_commands. revert ms. induction w as [|[p v] w IH]; intros [m s]; [done|]. rewrite filter_cons. case_decide as Hp; [apply IH|].
  cbn. rewrite <-IH. by rewrite !decide_False by (intros [= -> ->]; apply Hp; auto).
Qed.
Lemma eoi_nothing v : acked (0, 0) (writes (eoi_writes v)) = (0, 0).
Proof. unfold eoi_writes. destruct ((32 <=? v) && (v <=? 47) && negb (v =? 39)); [|done]. by destruct ((40 <=? v) && negb (v =? 47)). Qed.
Lemma acked_app ms w w' : acked ms (w ++ w') = acked (acked ms w) w'.
Proof. apply foldl_app. Qed.

Lemma lowest_cleared m i : 0 <= i < 8 -> 0 <= m < 256 -> m mod 2 ^ (i + 1) = 0 -> Z.land (Z.lor m (2 ^ i)) (Z.lor m (2 ^ i) - 1) = m.
Proof.
  intros Hi Hm. enough (Forall (fun i => Forall (fun m => m mod 2 ^ (i + 1) = 0 -> Z.land (Z.lor m (2 ^ i)) (Z.lor m (2 ^ i) - 1) = m) (seqZ 0 256)) (seqZ 0 8)) as H.
  { rewrite Forall_forall in H. specialize (H i ltac:(apply elem_of_seqZ; lia)). rewrite Forall_forall in H. apply H, elem_of_seqZ. lia. }
  apply (bool_decide_unpack _). vm_compute. exact I.
Qed.
Lemma eoi_acks irq ms : 0 <= irq < 16 -> pic_accepts irq ms ->
  (irq <> 7 -> irq <> 15 -> acked (pic_accept irq ms) (writes (eoi_writes (32 + irq))) = ms) /\
  (irq = 7 -> acked ms (writes (eoi_writes 39)) = ms) /\
  (irq = 15 -> acked (pic_accept 2 ms) (writes (eoi_writes 47)) = ms).
Proof.
  intros Hi (Hm&Hs&Ha). destruct ms as [m s]. cbn [fst snd] in *. split; [|split]; [| |].
  - intros H7 H15. unfold eoi_writes, pic_accept. rewrite (proj2 (Z.leb_le 32 _)), (proj2 (Z.leb_le _ 47)), (proj2 (Z.eqb_neq (32 + irq) 39)), (proj2 (Z.eqb_neq (32 + irq) 47)) by lia.
    cbn [negb andb]. rewrite andb_true_r. destruct (Z.ltb_spec irq 8).
    + rewrite (proj2 (Z.leb_gt 40 _)) by lia. cbn [app writes omap list_omap acked foldl pic_step fst snd]. rewrite decide_True by done.
      f_equal. apply lowest_cleared; [lia|done|done].
    + rewrite (proj2 (Z.leb_le 40 _)) by lia. destruct Ha as [Ha1 Ha2]. cbn [app writes omap list_omap acked foldl pic_step fst snd].
      rewrite decide_False, decide_True by done. cbn [pic_step]. rewrite decide_True by done. f_equal.
      * change 4 with (2 ^ 2). apply lowest_cleared; [lia|done|done].
      * apply lowest_cleared; [lia|done|]. by replace (irq - 8 + 1) with (irq - 7) by lia.
  - intros ->. done.
  - intros ->. destruct Ha as [Ha _]. cbn [eoi_writes pic_accept Z.leb Z.eqb Z.compare Z.ltb Pos.compare Pos.compare_cont Pos.eqb andb negb app writes omap list_omap acked foldl pic_step fst snd].
    rewrite decide_True by done. f_equal. apply (lowest_cleared m 2); [lia|done|done].
Qed.
Lemma genuine_7_15 ms : (acked (pic_accept 7 ms) (writes (eoi_writes 39)) = pic_accept 7 ms) /\
  (0 <= ms.1 < 256 -> ms.1 mod 8 = 0 -> acked (pic_accept 15 ms) (writes (eoi_writes 47)) = (ms.1, Z.lor ms.2 128)).
Proof.
  split; [done|]. intros Hm Ha. destruct ms as [m s]. cbn [fst snd] in *.
  change (pic_accept 15 (m, s)) with (Z.lor m 4, Z.lor s 128). cbn [eoi_writes Z.leb Z.eqb Z.compare Pos.compare Pos.compare_cont Pos.eqb andb negb app writes omap list_omap acked foldl pic_step].
  rewrite decide_True by done. f_equal. apply (lowest_cleared m 2); [lia|done|done].
Qed.

(** C29: on every vector the dispatcher returns once the handler has, and then acknowledges the interrupt.  With a handler that sends no command to the
    controllers, on lines 0 to 14 but 7 and from any state in which the controllers can raise the line, exactly that line is taken out of service; a
    spurious 7 or 15 changes nothing that is in service; a genuine 7 or 15 stays in service.  With a handler that acknowledges its line itself, as
    those of the timer and the keyboard do, the dispatcher acknowledges a second time: nothing more changes when nothing else is in service,
    otherwise that interrupt is taken out of service too.  Vectors other than 32 to 47 write nothing. *)
Theorem isr_acknowledges (handlers : irqs bus -> list (option nat)) call v (s s1 : irqs bus) l :
  length (handlers s) = 256%nat ->
  match zget (handlers s) (u8 v) with Some (Some f) => call f s = Some (tt, s1) | _ => s1 = s end ->
  bus_log (q_io s1) = bus_log (q_io s) ++ l ->
  exists s' e, isr_common_handler handlers call v s = Some (tt, s') /\ bus_log (q_io s') = bus_log (q_io s) ++ l ++ e /\
    (~ 32 <= u8 v < 48 -> e = []) /\
    forall irq ms, 0 <= irq < 16 -> u8 v = 32 + irq -> pic_accepts irq ms ->
      let after ms := acked ms (writes (l ++ e)) in
      (pic_commands (writes l) = [] ->
        (irq <> 7 -> irq <> 15 -> after (pic_accept irq ms) = ms) /\
        (irq = 7 -> after ms = ms /\ after (pic_accept 7 ms) = pic_accept 7 ms) /\
        (irq = 15 -> after (pic_accept 2 ms) = ms /\ after (pic_accept 15 ms) = (ms.1, Z.lor ms.2 128))) /\
      (pic_commands (writes l) = writes (eoi_writes (u8 v)) -> irq <> 7 -> irq <> 15 ->
        after (pic_accept irq ms) = acked ms (writes (eoi_writes (u8 v))) /\ (ms = (0, 0) -> after (pic_accept irq ms) = (0, 0))).
Proof.
  intros Hlen Hc Hl. assert (byte_ok (u8 v)) as Hb by (apply (wrap_range 8); lia).
  exists (set_q_io (Bus (bus_answer (q_io s1)) (bus_log (q_io s1) ++ eoi_writes (u8 v))) s1), (eoi_writes (u8 v)).
  split; [|split; [|split]].
  - unfold isr_common_handler, mbind_ at 1, mget. cbn [fst snd].
    destruct (zget_is_Some (handlers s) (u8 v)) as [h Hh]; [unfold byte_ok in Hb; lia|]. rewrite Hh in *.
    unfold mlift, mbind_ at 1. destruct h as [f|].
    + mstep Hc. by apply isr_eoi_writes.
    + subst s1. unfold mret, mbind_ at 1. by apply isr_eoi_writes.
  - cbn. rewrite Hl. by rewrite app_assoc.
  - intros Hv. unfold eoi_writes. destruct (Z.leb_spec 32 (u8 v)), (Z.leb_spec (u8 v) 47); [exfalso; lia|done..].
  - intros irq ms Hi Hv Ha after. pose proof Ha as (Hm&_&Ha'). subst after. cbn beta. rewrite Hv, port_writes_app.
    destruct (eoi_acks irq ms Hi Ha) as (H1&H7&H15). destruct (genuine_7_15 ms) as [G7 G15]. rewrite !acked_app. split.
    + intros Hp. rewrite !(acked_other _ (writes l)) by done. split; [done|]. split; intros ->; (split; [by auto|]); [exact G7|apply G15; [done|apply Ha']].
    + intros Hp N7 N15. rewrite (acked_commands _ (writes l)), Hp, H1 by done. split; [done|]. intros ->. by apply eoi_nothing.
Qed.
Definition one_handler : list (option nat) := <[ 33%nat := Some 0%nat ]> isr_init.
Lemma isr_acknowledges_witness : exists (s' : irqs bus) e,
  isr_common_handler (fun _ => one_handler) (fun _ => outb 0x60 0xED) 33 (Irqs 0 false 0 [] (Bus (fun _ _ => 0) [])) = Some (tt, s') /\
  acked (pic_accept 1 (0, 0)) (writes ([Out8 0x60 0xED] ++ e)) = (0, 0).
Proof.
  destruct (isr_acknowledges (fun _ => one_handler) (fun _ => outb 0x60 0xED) 33 (Irqs 0 false 0 [] (Bus (fun _ _ => 0) []))
    (Irqs 0 false 0 [] (Bus (fun _ _ => 0) [Out8 0x60 0xED])) [Out8 0x60 0xED]) as (s'&e&H&_&_&Ha); [done|vm_compute; reflexivity|done|].
  exists s', e. split; [exact H|]. destruct (Ha 1 (0, 0)) as [H1 _]; [lia|done|split; [|split]; vm_compute; intuition congruence|]. apply (proj1 (H1 eq_refl)); lia.
Defined.
(** The timer's handler and then the dispatcher acknowledge line 0: an interrupt on line 1 that was in service is taken out of service with it. *)
Lemma timer_acknowledged_twice : pic_accepts 0 (2, 0) /\ acked (pic_accept 0 (2, 0)) (writes (eoi_writes 32 ++ eoi_writes 32)) = (0, 0).
Proof. split; [split; [|split]; vm_compute; intuition congruence|vm_compute; reflexivity]. Qed.

(** A processor on which every wait ends with a tick, when interrupts are enabled, and another task runs for one tick more. *)
#[global] Instance idle_ports : Ports bool := {
  bus_in8 := fun _ b => (0, b); bus_out8 := fun _ _ b => b; bus_in16 := fun _ b => (0, b); bus_out16 := fun _ _ b => b }.
#[global] Instance idle_cpu : Cpu bool := {
  cpu_if := fun b => b; cpu_wait := fun b => (if b then [32] else [], b); vga_tick := fun b => b; scheduler_tick := fun b => (1, b); other_handler := fun _ b => b }.
#[global] Instance idle_ticks : CpuTicks bool.
Proof.
  refine {| cpu_bound := 0; cpu_left := fun _ => 0%nat; cpu_away := 1; cpu_over := 1 |}; try done.
  - intros []; (split; [repeat constructor; unfold byte_ok; lia|]); vm_compute; discriminate.
  - intros [] [=]. cbn. split; [done|]. left. set_solver.
  - intros [] [=]. done.
Defined.
Definition booted (b : bool) : irqs bool := Irqs 5 true 100 (<[ 32%nat := Some TIMER ]> isr_init) b.
Lemma booted_registered b : timer_registered (g_handlers (booted b)).
Proof.
  split; [done|]. split; [done|]. intros v Hv. cbn [booted g_handlers]. rewrite (zget_insert_ne isr_init 32 v) by lia.
  intros H%zget_Some. destruct H as [_ H]. apply lookup_replicate in H as [? _]. done.
Qed.
Lemma tick_waits_end_witness :
  (exists s' d, sys_usleep 2 20000 (booted true) = Some (0, s') /\ g_ticks s' = u64 (5 + d) /\ 2 <= d <= 3) /\ (forall n, sys_usleep n 20000 (booted false) = None).
Proof.
  split.
  - destruct (tick_waits_end (booted true)) as [H _]; [apply booted_registered|vm_compute; intuition congruence|].
    destruct (proj1 (H eq_refl) 20000 2%nat) as (s'&d&Hs&Ht&Hd); [lia|vm_compute; reflexivity|vm_compute; lia|]. exists s', d. split; [exact Hs|]. split; [exact Ht|exact Hd].
  - intros n. destruct (tick_waits_end (booted false)) as (_&H&_); [apply booted_registered|vm_compute; intuition congruence|].
    apply (proj1 (H eq_refl) 20000 n). lia.
Defined.
