(* ===== verification/Ps2.v ===== *)
(** * Keyboard (src/drivers/ps2.c, ps2.h)

    The scancode and terminal decoders, the ring buffer between the interrupt handler and the readers, the read with a timeout and
    the programming of the controller.  The hardware is the interface [Ports]; the interrupts that arrive while the processor waits are
    those of the interface [Cpu], dispatched as in Irq.v.  Log output is left out. *)

From Stdlib Require Import String Ascii.
From stdpp Require Import base numbers list options.
From S2P Require Import Prelude Ports Irq.

Definition PS2_DATA_PORT : Z := 0x60.
Definition PS2_STATUS_PORT : Z := 0x64.
Definition PS2_CMD_ENABLE_KB : Z := 0xAE.
Definition PS2_CMD_DISABLE_KB : Z := 0xAD.
Definition PS2_CMD_ENABLE_SCAN : Z := 0xF4.
Definition PS2_CMD_RESET : Z := 0xFF.
Definition PS2_STATUS_OBF : Z := 1.
Definition PS2_STATUS_IBF : Z := 2.
Definition PS2_MOD_LSHIFT : Z := 1.
Definition PS2_MOD_RSHIFT : Z := 2.
Definition PS2_MOD_LCTRL : Z := 4.
Definition PS2_MOD_RCTRL : Z := 8.
Definition PS2_MOD_LALT : Z := 16.
Definition PS2_MOD_RALT : Z := 32.
Definition PS2_MOD_CAPSLOCK : Z := 64.
Definition PS2_MOD_SHIFT : Z := Z.lor PS2_MOD_LSHIFT PS2_MOD_RSHIFT.
Definition PS2_MOD_CTRL : Z := Z.lor PS2_MOD_LCTRL PS2_MOD_RCTRL.
Definition PS2_KEY_UP : Z := 0x80.
Definition PS2_KEY_DOWN : Z := 0x81.
Definition PS2_KEY_LEFT : Z := 0x82.
Definition PS2_KEY_RIGHT : Z := 0x83.
Definition PS2_KEY_F (n : Z) : Z := 0x83 + n.
Definition PS2_KEY_HOME : Z := 0x90.
Definition PS2_KEY_END : Z := 0x91.
Definition PS2_KEY_PAGE_UP : Z := 0x92.
Definition PS2_KEY_PAGE_DOWN : Z := 0x93.
Definition PS2_KEY_INSERT : Z := 0x94.
Definition PS2_KEY_DELETE : Z := 0x95.
Definition PS2_KEY_ENTER : Z := 13.
Definition PS2_KEY_TAB : Z := 9.
Definition PS2_KEY_BACKSPACE : Z := 8.
Definition PS2_KEY_ESC : Z := 0x1B.
Definition PS2_RING_SIZE : Z := 256.
Definition PS2_RING_MASK : Z := PS2_RING_SIZE - 1.
Definition PS2_TIMEOUT : Z := 100000.
Definition PS2_IRQ_LINE : Z := 1.
Definition PS2_IRQ_VECTOR : Z := 33.

Definition chars (s : string) : list Z := (fun c => Z.of_N (N_of_ascii c)) <$> list_ascii_of_string s.
(** The function keys of the tables, F1 at 0x40 and F11 at 0x58, and the entries without a key. *)
Definition sc1_tail : list Z :=
  replicate 6 0 ++ (PS2_KEY_F <$> [1; 2; 3; 4; 5; 6; 7; 8; 9; 10]) ++ replicate 14 0 ++ [PS2_KEY_F 11; PS2_KEY_F 12] ++ replicate 38 0.
Definition sc1_unshifted : list Z :=
  [0; PS2_KEY_ESC] ++ chars "1234567890-=" ++ [PS2_KEY_BACKSPACE; PS2_KEY_TAB] ++ chars "qwertyuiop[]" ++ [PS2_KEY_ENTER; 0] ++
  chars "asdfghjkl;'`" ++ [0] ++ chars "\zxcvbnm,./" ++ [0] ++ chars "*" ++ [0] ++ chars " " ++ sc1_tail.
Definition sc1_shifted : list Z :=
  [0; PS2_KEY_ESC] ++ chars "!@#$%^&*()_+" ++ [PS2_KEY_BACKSPACE; PS2_KEY_TAB] ++ chars "QWERTYUIOP{}" ++ [PS2_KEY_ENTER; 0] ++
  chars "ASDFGHJKL:" ++ [34] ++ chars "~" ++ [0] ++ chars "|ZXCVBNM<>?" ++ [0] ++ chars "*" ++ [0] ++ chars " " ++ sc1_tail.
Definition ext_entries : list (Z * Z) :=
  [(0x48, PS2_KEY_UP); (0x50, PS2_KEY_DOWN); (0x4B, PS2_KEY_LEFT); (0x4D, PS2_KEY_RIGHT); (0x47, PS2_KEY_HOME); (0x4F, PS2_KEY_END);
   (0x49, PS2_KEY_PAGE_UP); (0x51, PS2_KEY_PAGE_DOWN); (0x52, PS2_KEY_INSERT); (0x53, PS2_KEY_DELETE)] ++
  ((fun n => (0x3A + n, PS2_KEY_F n)) <$> [1; 2; 3; 4; 5; 6; 7; 8; 9; 10]) ++
  [(0x57, PS2_KEY_F 11); (0x58, PS2_KEY_F 12); (0x1D, PS2_MOD_RCTRL); (0x38, PS2_MOD_RALT)].
Definition ext_scancodes : list Z := (fun i => match list_find (fun e => e.1 = i) ext_entries with Some (_, e) => e.2 | None => 0 end) <$> seqZ 0 128.

Inductive ser_input_state := SER_STATE_GROUND | SER_STATE_ESC | SER_STATE_CSI | SER_STATE_CSI_NUM.

Section Controller.
Context {R : Type} `{!Ports R}.

(** ** The controller *)

Fixpoint wait_obf_loop (n : nat) : M R bool :=
  match n with O => return false | S n' => st <~ inb PS2_STATUS_PORT ;; if negb (Z.land st PS2_STATUS_OBF =? 0) then return true else wait_obf_loop n' end.
Definition wait_obf (timeout : Z) : M R bool := wait_obf_loop (Z.to_nat timeout).
Fixpoint wait_ibf_loop (n : nat) : M R bool :=
  match n with O => return false | S n' => st <~ inb PS2_STATUS_PORT ;; if Z.land st PS2_STATUS_IBF =? 0 then return true else wait_ibf_loop n' end.
Definition wait_ibf (timeout : Z) : M R bool := wait_ibf_loop (Z.to_nat timeout).

(** [wait_ibf(PS2_TIMEOUT); outb(port, v)] *)
Definition command (port v : Z) : M R unit := wait_ibf PS2_TIMEOUT ;;; outb port v.
(** [if (wait_obf(PS2_TIMEOUT)) v = inb(PS2_DATA_PORT)] *)
Definition response : M R (option Z) := ok <~ wait_obf PS2_TIMEOUT ;; if ok : bool then v <~ inb PS2_DATA_PORT ;; return (Some v) else return None.
(** [wait_obf(PS2_TIMEOUT); (void)inb(PS2_DATA_PORT)] *)
Definition flush_output : M R unit := wait_obf PS2_TIMEOUT ;;; inb PS2_DATA_PORT ;;; return tt.
(** Interrupts, translation and the two disable bits cleared. *)
Definition config_bits (config : Z) : Z :=
  Z.land (Z.land (Z.land (Z.land (Z.land config (u8 (Z.lnot 1))) (u8 (Z.lnot 2))) (u8 (Z.lnot 16))) (u8 (Z.lnot 32))) (u8 (Z.lnot 64)).

(** Phases 1 to 5: the configuration byte they leave. *)
Definition ps2_program : M R Z :=
  inb PS2_DATA_PORT ;;;
  command PS2_STATUS_PORT PS2_CMD_DISABLE_KB ;;;
  command PS2_STATUS_PORT 0xA7 ;;;
  flush_output ;;;
  command PS2_STATUS_PORT 0xAA ;;; response ;;;
  command PS2_STATUS_PORT 0xAB ;;; response ;;;
  command PS2_STATUS_PORT 0x20 ;;;
  config <~ response ;;
  let config := config_bits (default 0 config) in
  command PS2_STATUS_PORT 0x60 ;;;
  command PS2_DATA_PORT config ;;;
  command PS2_STATUS_PORT PS2_CMD_ENABLE_KB ;;;
  flush_output ;;;
  command PS2_DATA_PORT PS2_CMD_RESET ;;; response ;;; response ;;;
  command PS2_DATA_PORT 0xF0 ;;; response ;;;
  command PS2_DATA_PORT 0x01 ;;; response ;;;
  command PS2_DATA_PORT PS2_CMD_ENABLE_SCAN ;;; response ;;;
  return config.
End Controller.

Section Ps2.
Context {R : Type} `{!Ports R} `{!Cpu R}.

(** The statics of ps2.c; [k_serial] is the base port of the serial device when it is there and ready; the timer, the handlers and the hardware. *)
Record kbd := Kbd {
  g_ring_buf : list Z; g_ring_head : Z; g_ring_tail : Z; g_modifiers : Z; g_extended : bool;
  g_ser_state : ser_input_state; g_ser_param : Z; g_irq_count : Z; g_obf_count : Z; g_initialized : bool;
  k_serial : option Z; k_irq : irqs R
}.
Definition set_ring b h t s := Kbd b h t (g_modifiers s) (g_extended s) (g_ser_state s) (g_ser_param s) (g_irq_count s) (g_obf_count s) (g_initialized s) (k_serial s) (k_irq s).
Definition set_mods m e s := Kbd (g_ring_buf s) (g_ring_head s) (g_ring_tail s) m e (g_ser_state s) (g_ser_param s) (g_irq_count s) (g_obf_count s) (g_initialized s) (k_serial s) (k_irq s).
Definition set_ser st p s := Kbd (g_ring_buf s) (g_ring_head s) (g_ring_tail s) (g_modifiers s) (g_extended s) st p (g_irq_count s) (g_obf_count s) (g_initialized s) (k_serial s) (k_irq s).
Definition set_counts i o s := Kbd (g_ring_buf s) (g_ring_head s) (g_ring_tail s) (g_modifiers s) (g_extended s) (g_ser_state s) (g_ser_param s) i o (g_initialized s) (k_serial s) (k_irq s).
Definition set_initialized i s := Kbd (g_ring_buf s) (g_ring_head s) (g_ring_tail s) (g_modifiers s) (g_extended s) (g_ser_state s) (g_ser_param s) (g_irq_count s) (g_obf_count s) i (k_serial s) (k_irq s).
Definition set_serial d s := Kbd (g_ring_buf s) (g_ring_head s) (g_ring_tail s) (g_modifiers s) (g_extended s) (g_ser_state s) (g_ser_param s) (g_irq_count s) (g_obf_count s) (g_initialized s) d (k_irq s).
Definition set_irq q s := Kbd (g_ring_buf s) (g_ring_head s) (g_ring_tail s) (g_modifiers s) (g_extended s) (g_ser_state s) (g_ser_param s) (g_irq_count s) (g_obf_count s) (g_initialized s) (k_serial s) q.
Definition on_irq {A} (c : M (irqs R) A) : M kbd A := fun s => match c (k_irq s) with Some (a, q) => Some (a, set_irq q s) | None => None end.
#[global] Instance kbd_ports : Ports kbd := {
  bus_in8 := fun p s => let (v, q) := bus_in8 p (k_irq s) in (v, set_irq q s);
  bus_out8 := fun p v s => set_irq (bus_out8 p v (k_irq s)) s;
  bus_in16 := fun p s => let (v, q) := bus_in16 p (k_irq s) in (v, set_irq q s);
  bus_out16 := fun p v s => set_irq (bus_out16 p v (k_irq s)) s
}.
Definition k_handlers (s : kbd) : list (option nat) := g_handlers (k_irq s).

(** ** The ring buffer *)

Definition ring_count : M kbd Z := mgets (fun s => Z.land (u32 (g_ring_head s - g_ring_tail s)) PS2_RING_MASK).
Definition ring_push (val : Z) : M kbd unit :=
  s <~ mget ;;
  let next := Z.land (u32 (g_ring_head s + 1)) PS2_RING_MASK in
  if negb (next =? g_ring_tail s) then b <~ mlift (zset (g_ring_buf s) (g_ring_head s) (u8 val)) ;; mput (set_ring b next (g_ring_tail s) s)
  else return tt.
Definition ring_pop : M kbd Z :=
  s <~ mget ;;
  if g_ring_head s =? g_ring_tail s then return 0 else
  val <~ mlift (zget (g_ring_buf s) (g_ring_tail s)) ;;
  mput (set_ring (g_ring_buf s) (g_ring_head s) (Z.land (u32 (g_ring_tail s + 1)) PS2_RING_MASK) s) ;;; return val.

(** ** Serial input *)

Definition to_ser (st : ser_input_state) : M kbd unit := mmodify (fun s => set_ser st (g_ser_param s) s).
Definition printable (c : Z) : bool := (0x20 <=? c) && (c <=? 0x7E).
Definition digit (c : Z) : bool := (48 <=? c) && (c <=? 57).
(** ESC [ letter *)
Definition csi_key (c : Z) : option Z :=
  if c =? 65 then Some PS2_KEY_UP else if c =? 66 then Some PS2_KEY_DOWN else if c =? 67 then Some PS2_KEY_RIGHT else if c =? 68 then Some PS2_KEY_LEFT
  else if c =? 72 then Some PS2_KEY_HOME else if c =? 70 then Some PS2_KEY_END else None.
(** ESC [ number ~ *)
Definition csi_num_key (n : Z) : option Z :=
  if n =? 1 then Some PS2_KEY_HOME else if n =? 2 then Some PS2_KEY_INSERT else if n =? 3 then Some PS2_KEY_DELETE else if n =? 4 then Some PS2_KEY_END
  else if n =? 5 then Some PS2_KEY_PAGE_UP else if n =? 6 then Some PS2_KEY_PAGE_DOWN
  else if n =? 11 then Some (PS2_KEY_F 1) else if n =? 12 then Some (PS2_KEY_F 2) else if n =? 13 then Some (PS2_KEY_F 3) else if n =? 14 then Some (PS2_KEY_F 4)
  else if n =? 15 then Some (PS2_KEY_F 5) else if n =? 17 then Some (PS2_KEY_F 6) else if n =? 18 then Some (PS2_KEY_F 7) else if n =? 19 then Some (PS2_KEY_F 8)
  else if n =? 20 then Some (PS2_KEY_F 9) else if n =? 21 then Some (PS2_KEY_F 10) else if n =? 23 then Some (PS2_KEY_F 11) else if n =? 24 then Some (PS2_KEY_F 12)
  else None.
Definition push_key (k : option Z) : M kbd unit := match k with Some v => ring_push v | None => return tt end.

(** One byte through the parser; [c] is a [char], negative from 0x80 on. *)
Definition serial_byte (c : Z) : M kbd unit :=
  s <~ mget ;;
  match g_ser_state s with
  | SER_STATE_GROUND =>
    if c =? 0x1B then to_ser SER_STATE_ESC
    else if c =? 0x7F then ring_push PS2_KEY_BACKSPACE
    else if c =? 0x0D then ring_push PS2_KEY_ENTER
    else if c =? 0x0A then return tt
    else if c =? 0x09 then ring_push PS2_KEY_TAB
    else if printable c then ring_push c else return tt
  | SER_STATE_ESC =>
    if c =? 91 then mmodify (set_ser SER_STATE_CSI 0)
    else if c =? 79 then to_ser SER_STATE_GROUND
    else
      ring_push PS2_KEY_ESC ;;;
      to_ser SER_STATE_GROUND ;;;
      if c =? 0x1B then to_ser SER_STATE_ESC
      else if c =? 0x7F then ring_push PS2_KEY_BACKSPACE
      else if c =? 0x0D then ring_push PS2_KEY_ENTER
      else if printable c then ring_push c else return tt
  | SER_STATE_CSI =>
    if digit c then mmodify (set_ser SER_STATE_CSI_NUM (u8 (c - 48)))
    else push_key (csi_key c) ;;; to_ser SER_STATE_GROUND
  | SER_STATE_CSI_NUM =>
    if digit c then mmodify (set_ser SER_STATE_CSI_NUM (u8 (g_ser_param s * 10 + u8 (c - 48))))
    else if c =? 126 then push_key (csi_num_key (g_ser_param s)) ;;; to_ser SER_STATE_GROUND
    else to_ser SER_STATE_GROUND
  end.
(** [serial_data_available]: bit 0 of the line status register. *)
Definition serial_data_available (base : Z) : M kbd bool := lsr <~ inb (base + 5) ;; return (negb (Z.land lsr 1 =? 0)).
(** At most [n] bytes; a device that never runs dry keeps the loop going. *)
Fixpoint serial_loop (n : nat) (base : Z) : M kbd unit :=
  a <~ serial_data_available base ;;
  if negb a then return tt else
  match n with O => mfault | S n' => c <~ inb base ;; serial_byte (i8 c) ;;; serial_loop n' base end.
Definition serial_poll_input (n : nat) : M kbd unit :=
  s <~ mget ;; match k_serial s with None => return tt | Some base => serial_loop n base end.

(** ** Scancodes *)

Definition is_letter (scancode : Z) : bool :=
  ((0x10 <=? scancode) && (scancode <=? 0x19)) || ((0x1E <=? scancode) && (scancode <=? 0x26)) || ((0x2C <=? scancode) && (scancode <=? 0x32)).
Definition scancode_to_ascii (scancode : Z) : M kbd Z :=
  s <~ mget ;;
  if 128 <=? scancode then return 0 else
  let shift := negb (Z.land (g_modifiers s) PS2_MOD_SHIFT =? 0) in
  let ctrl := negb (Z.land (g_modifiers s) PS2_MOD_CTRL =? 0) in
  let caps := negb (Z.land (g_modifiers s) PS2_MOD_CAPSLOCK =? 0) in
  if is_letter scancode then
    ch <~ mlift (zget (if xorb shift caps then sc1_shifted else sc1_unshifted) scancode) ;;
    if ctrl then return (Z.land ch 0x1F) else return ch
  else mlift (zget (if shift then sc1_shifted else sc1_unshifted) scancode).

Definition mod_set (m : Z) : M kbd unit := mmodify (fun s => set_mods (Z.lor (g_modifiers s) m) (g_extended s) s).
Definition mod_clear (m : Z) : M kbd unit := mmodify (fun s => set_mods (Z.land (g_modifiers s) (u8 (Z.lnot m))) (g_extended s) s).
Definition mod_toggle (m : Z) : M kbd unit := mmodify (fun s => set_mods (Z.lxor (g_modifiers s) m) (g_extended s) s).
Definition put_extended (e : bool) : M kbd unit := mmodify (fun s => set_mods (g_modifiers s) e s).
Definition is_ext_mod (m : Z) : bool := (PS2_MOD_RCTRL <=? m) && (m <=? PS2_MOD_RALT).

(** A key released. *)
Definition ps2_break (code : Z) : M kbd unit :=
  s <~ mget ;;
  (if g_extended s then
     if code <? 128 then md <~ mlift (zget ext_scancodes code) ;; mwhen (is_ext_mod md) (mod_clear md) else return tt
   else if code =? 0x2A then mod_clear PS2_MOD_LSHIFT
   else if code =? 0x36 then mod_clear PS2_MOD_RSHIFT
   else if code =? 0x1D then mod_clear PS2_MOD_LCTRL
   else if code =? 0x38 then mod_clear PS2_MOD_LALT
   else return tt) ;;;
  put_extended false.
(** A key pressed: what is decoded is pushed. *)
Definition ps2_decoded (decoded : Z) : M kbd unit := mwhen (negb (decoded =? 0)) (ring_push decoded) ;;; put_extended false.
Definition ps2_make (code : Z) : M kbd unit :=
  s <~ mget ;;
  if g_extended s then
    (if code <? 128 then
       special <~ mlift (zget ext_scancodes code) ;;
       if (PS2_KEY_UP <=? special) && (special <=? PS2_KEY_DELETE) then ps2_decoded special
       else mwhen (is_ext_mod special) (mod_set special) ;;; ps2_decoded 0
     else ps2_decoded 0)
  else if code =? 0x2A then mod_set PS2_MOD_LSHIFT
  else if code =? 0x36 then mod_set PS2_MOD_RSHIFT
  else if code =? 0x1D then mod_set PS2_MOD_LCTRL
  else if code =? 0x38 then mod_set PS2_MOD_LALT
  else if code =? 0x3A then mod_toggle PS2_MOD_CAPSLOCK
  else decoded <~ scancode_to_ascii code ;; ps2_decoded decoded.
Definition ps2_process_scancode (scancode : Z) : M kbd unit :=
  if scancode =? 0xE0 then put_extended true else
  let code := Z.land scancode 0x7F in
  if negb (Z.land scancode 0x80 =? 0) then ps2_break code else ps2_make code.

Definition ps2_irq_handler : M kbd unit :=
  mmodify (fun s => set_counts (u32 (g_irq_count s + 1)) (g_obf_count s) s) ;;;
  scancode <~ inb PS2_DATA_PORT ;;
  ps2_process_scancode scancode ;;;
  pic_send_eoi 1.

(** ** Reading *)

Definition ps2_key_available : M kbd bool := c <~ ring_count ;; return (0 <? c).
Definition ps2_get_modifiers : M kbd Z := mgets g_modifiers.
Definition ps2_get_irq_count : M kbd Z := mgets g_irq_count.
Definition ps2_get_obf_count : M kbd Z := mgets g_obf_count.

(** The handlers: the keyboard's, and those of Irq.v. *)
Definition kbd_handler (f : nat) : M kbd unit := if (f =? KEYBOARD)%nat then ps2_irq_handler else on_irq (call_handler f).
Definition wait_interrupts : M kbd unit :=
  s <~ mget ;; let (vectors, r) := cpu_wait (q_io (k_irq s)) in mput (set_irq (set_q_io r (k_irq s)) s) ;;; serve k_handlers kbd_handler vectors.

(** A loop of pauses. *)
Fixpoint waits (n : nat) : M kbd unit := match n with O => return tt | S n' => wait_interrupts ;;; waits n' end.

(** The polling loop; [n] bounds the rounds and, in each, the serial bytes. *)
Fixpoint get_key_loop (n : nat) (deadline : Z) : M kbd Z :=
  match n with
  | O => mfault
  | S n' =>
    serial_poll_input n ;;;
    c <~ ring_count ;; if 0 <? c then ring_pop else
    st <~ inb PS2_STATUS_PORT ;;
    c <~ (if negb (Z.land st PS2_STATUS_OBF =? 0) then
       mmodify (fun s => set_counts (g_irq_count s) (u32 (g_obf_count s + 1)) s) ;;;
       raw <~ inb PS2_DATA_PORT ;; ps2_process_scancode raw ;;; ring_count
     else return 0) ;;
    if 0 <? c then ring_pop else
    s <~ mget ;;
    if cpu_if (q_io (k_irq s)) && g_timer_initialized (k_irq s) then
      if deadline <=? g_ticks (k_irq s) then return 0 else wait_interrupts ;;; get_key_loop n' deadline
    else
      waits (Z.to_nat 50000) ;;; c <~ ring_count ;; if 0 <? c then ring_pop else return 0
  end.
Definition ps2_get_key_timeout (n : nat) (timeout_ms : Z) : M kbd Z :=
  s <~ mget ;;
  if negb (g_initialized s) then return 0 else
  serial_poll_input n ;;;
  c <~ ring_count ;; if 0 <? c then ring_pop else
  s <~ mget ;;
  get_key_loop n (if g_timer_initialized (k_irq s) then u64 (g_ticks (k_irq s) + timeout_ms * PIT_DEFAULT_FREQ / 1000) else 0).
Definition ps2_get_key (n : nat) : M kbd Z := ps2_get_key_timeout n 1000.

(** ** Start *)

(** Phase 6. *)
Definition ps2_enable (config : Z) : M kbd unit :=
  s <~ mget ;; h <~ mlift (isr_register_handler PS2_IRQ_VECTOR KEYBOARD (k_handlers s)) ;; mput (set_irq (set_g_handlers h (k_irq s)) s) ;;;
  pic_unmask_irq PS2_IRQ_LINE ;;;
  command PS2_STATUS_PORT 0x60 ;;;
  command PS2_DATA_PORT (Z.lor config 1) ;;;
  mmodify (set_initialized true).
(** The diagnostics. *)
Definition ps2_poll : M kbd unit :=
  pic_get_imr_master ;;;
  st <~ inb PS2_STATUS_PORT ;;
  (if negb (Z.land st PS2_STATUS_OBF =? 0) then inb PS2_DATA_PORT ;;; return tt else return tt) ;;;
  waits (Z.to_nat 200000) ;;;
  st <~ inb PS2_STATUS_PORT ;;
  if negb (Z.land st PS2_STATUS_OBF =? 0) then data <~ inb PS2_DATA_PORT ;; ps2_process_scancode data else return tt.
Definition ps2_init (serial_dev : option Z) : M kbd unit :=
  mmodify (set_serial serial_dev) ;;; config <~ ps2_program ;; ps2_enable config ;;; ps2_poll.
End Ps2.
Arguments kbd : clear implicits.
Arguments Kbd {R}.
