(* ===== verification/Ps2Spec.v ===== *)
(** * The keyboard: its ring buffer, its decoders, its read and its start

    The ring holds a queue of at most 255 keys ([keys]).  The interrupt handler may push between any two accesses of a
    reader's pop ([ring_step]); the keys then come out once each and in order.  With a second writer, the polling
    reader, keys are lost. *)

From Stdlib Require Import String Ascii.
From stdpp Require Import base numbers list sets relations options.
From S2P Require Import Prelude Ports Irq IrqSpec Ps2.
#[local] Set Default Proof Using "Type*".

(** ** The queue in the ring *)

Definition at_ (b : list Z) (i : Z) : Z := default 0 (zget b i).
Definition ring_keys (b : list Z) (h t : Z) : list Z := (fun i => at_ b ((t + i) mod 256)) <$> seqZ 0 ((h - t) mod 256).
Definition ring_ok (b : list Z) (h t : Z) : Prop := length b = 256%nat /\ 0 <= h < 256 /\ 0 <= t < 256.

Lemma mask256 x : Z.land (u32 x) PS2_RING_MASK = x mod 256.
Proof.
  change PS2_RING_MASK with (Z.ones 8). rewrite Z.land_ones by lia. unfold u32, wrap. change (2 ^ 8) with 256.
  change (2 ^ 32) with (256 * 2 ^ 24). rewrite Z.rem_mul_r by lia. rewrite Z.mul_comm, Z_mod_plus_full. by rewrite Z.mod_mod.
Qed.
Lemma ring_keys_length b h t : Z.of_nat (length (ring_keys b h t)) = (h - t) mod 256.
Proof. unfold ring_keys. rewrite length_fmap, length_seqZ. pose proof (Z.mod_pos_bound (h - t) 256). lia. Qed.
Lemma ring_full b h t : ring_ok b h t -> (h + 1) mod 256 = t <-> length (ring_keys b h t) = 255%nat.
Proof.
  intros (_&Hh&Ht). pose proof (ring_keys_length b h t) as Hl.
  assert ((h + 1) mod 256 = t <-> (h - t) mod 256 = 255) as ->; [|lia].
  destruct (decide (h = 255)) as [->|].
  - change ((255 + 1) mod 256) with 0. destruct (decide (t = 0)) as [->|]; [done|]. rewrite (Z.mod_small (255 - t)) by lia. lia.
  - rewrite (Z.mod_small (h + 1)) by lia. destruct (decide (t <= h)).
    + rewrite Z.mod_small by lia. lia.
    + replace (h - t) with (h - t + 256 + (-1) * 256) by lia. rewrite Z_mod_plus_full, Z.mod_small by lia. lia.
Qed.
Lemma ring_empty b h t : ring_ok b h t -> h = t <-> ring_keys b h t = [].
Proof.
  intros (_&Hh&Ht). pose proof (ring_keys_length b h t) as Hl. split.
  - intros ->. unfold ring_keys. by rewrite Z.sub_diag.
  - intros E. rewrite E in Hl. cbn in Hl. symmetry in Hl. apply Z.mod_divide in Hl as [k Hk]; [|lia].
    assert (k = 0) as -> by lia. lia.
Qed.
Lemma seqZ_snoc n : 0 <= n -> seqZ 0 (n + 1) = seqZ 0 n ++ [n].
Proof. intros. rewrite seqZ_app by lia. by rewrite Z.add_0_l. Qed.
(** The slot written is none of those in use. *)
Lemma ring_push_keys b h t v : ring_ok b h t -> (h + 1) mod 256 <> t ->
  ring_ok (<[ Z.to_nat h := v ]> b) ((h + 1) mod 256) t /\
  ring_keys (<[ Z.to_nat h := v ]> b) ((h + 1) mod 256) t = ring_keys b h t ++ [v].
Proof.
  intros Hok Hn. pose proof Hok as (Hl&Hh&Ht). split; [split; [by rewrite length_insert|split; [by apply Z.mod_pos_bound|done]]|].
  assert (length (ring_keys b h t) <> 255%nat) as Hlen by (by rewrite <-ring_full).
  pose proof (ring_keys_length b h t) as Hk. pose proof (Z.mod_pos_bound (h - t) 256 ltac:(lia)) as Hb.
  unfold ring_keys at 1. replace (((h + 1) mod 256 - t) mod 256) with ((h - t) mod 256 + 1).
  2: { rewrite Zminus_mod_idemp_l. replace (h + 1 - t) with (h - t + 1) by lia. rewrite <-(Zplus_mod_idemp_l (h - t)).
       rewrite (Z.mod_small (_ + 1)) by lia. done. }
  rewrite seqZ_snoc, fmap_app by lia. f_equal.
  - apply list_fmap_ext. intros ? x Hx%list_elem_of_lookup_2. apply elem_of_seqZ in Hx.
    unfold at_. rewrite zget_insert_ne; [done|lia|]. intros E. apply (f_equal (fun y => (y - t) mod 256)) in E.
    rewrite Zminus_mod_idemp_l in E. replace (t + x - t) with x in E by lia. rewrite (Z.mod_small x) in E by lia. lia.
  - cbn. f_equal. rewrite Zplus_mod_idemp_r. replace (t + (h - t)) with h by lia. rewrite (Z.mod_small h) by lia.
    unfold at_. by rewrite zget_insert_eq by lia.
Qed.
Lemma ring_pop_keys b h t : ring_ok b h t -> h <> t ->
  zget b t = Some (at_ b t) /\ ring_ok b h ((t + 1) mod 256) /\ ring_keys b h t = at_ b t :: ring_keys b h ((t + 1) mod 256).
Proof.
  intros Hok Hn. pose proof Hok as (Hl&Hh&Ht). split; [|split].
  - destruct (zget_is_Some b t) as [x Hx]; [lia|]. unfold at_. by rewrite Hx.
  - split; [done|]. split; [done|]. by apply Z.mod_pos_bound.
  - assert (ring_keys b h t <> []) as Hne by (by rewrite <-ring_empty).
    pose proof (ring_keys_length b h t) as Hk. pose proof (Z.mod_pos_bound (h - t) 256 ltac:(lia)) as Hb.
    assert (0 < (h - t) mod 256) as Hpos by (destruct (ring_keys b h t); [done|cbn in Hk; lia]).
    unfold ring_keys. rewrite (seqZ_cons 0) by lia. cbn [fmap list_fmap]. rewrite Z.add_0_r, (Z.mod_small t) by lia. f_equal.
    rewrite <-(Zminus_mod_idemp_r h ((t + 1) mod 256)), Z.mod_mod, Zminus_mod_idemp_r by lia.
    replace (h - (t + 1)) with (h - t - 1) by lia. rewrite <-(Zminus_mod_idemp_l (h - t) 1), (Z.mod_small (_ - 1)) by lia.
    rewrite <-(fmap_add_seqZ 1 0). rewrite <-list_fmap_compose. replace (Z.pred ((h - t) mod 256)) with ((h - t) mod 256 - 1) by lia.
    apply list_fmap_ext. intros ? x _. cbn. rewrite Zplus_mod_idemp_l. do 2 f_equal. lia.
Qed.

Section Ring.
Context {R : Type} `{!Ports R} `{!Cpu R}.
Implicit Types s : kbd R.

Definition keys s : list Z := ring_keys (g_ring_buf s) (g_ring_head s) (g_ring_tail s).
Definition kring_ok s : Prop := ring_ok (g_ring_buf s) (g_ring_head s) (g_ring_tail s).
(** What a push leaves of the queue: the key is dropped when 255 wait. *)
Definition push_queue (v : Z) (q : list Z) : list Z := if decide (length q = 255%nat) then q else q ++ [v].

(** The ring apart, nothing changes. *)
Definition same_but_ring s s' : Prop := s' = set_ring (g_ring_buf s') (g_ring_head s') (g_ring_tail s') s.
Lemma same_but_ring_refl s : same_but_ring s s.
Proof. by destruct s. Qed.
Lemma same_but_ring_trans s1 s2 s3 : same_but_ring s1 s2 -> same_but_ring s2 s3 -> same_but_ring s1 s3.
Proof. unfold same_but_ring. intros H1 H2. rewrite H2, H1. done. Qed.

Lemma ring_push_run v s : kring_ok s -> byte_ok v ->
  exists s', ring_push v s = Some (tt, s') /\ kring_ok s' /\ keys s' = push_queue v (keys s) /\ same_but_ring s s'.
Proof.
  intros Hok Hv. unfold ring_push, mget, mbind_ at 1. cbn [fst snd]. rewrite mask256. unfold push_queue.
  pose proof (ring_full _ _ _ Hok) as Hf. fold (keys s) in Hf. unfold u8. rewrite (wrap_small 8) by exact Hv.
  destruct (Z.eqb_spec ((g_ring_head s + 1) mod 256) (g_ring_tail s)) as [E|E]; cbn [negb].
  - exists s. rewrite decide_True by (by apply Hf). split; [done|]. split; [done|]. split; [done|]. apply same_but_ring_refl.
  - rewrite decide_False by (by rewrite <-Hf). pose proof Hok as (Hl&Hh&_).
    destruct (ring_push_keys _ _ _ v Hok E) as [Hok' Hk']. rewrite zset_Some by (rewrite Hl; lia). cbn.
    eexists. split; [reflexivity|]. split; [exact Hok'|]. split; [exact Hk'|]. done.
Qed.
Lemma ring_pop_run s : kring_ok s ->
  exists v s', ring_pop s = Some (v, s') /\ kring_ok s' /\ same_but_ring s s' /\
    match keys s with [] => v = 0 /\ s' = s | k :: q => v = k /\ keys s' = q end.
Proof.
  intros Hok. unfold ring_pop, mget, mbind_ at 1. cbn [fst snd]. rewrite mask256.
  destruct (Z.eqb_spec (g_ring_head s) (g_ring_tail s)) as [E|E].
  - apply (ring_empty _ _ _ Hok) in E. fold (keys s) in E. rewrite E. exists 0, s. split; [done|]. split; [done|]. split; [apply same_but_ring_refl|done].
  - destruct (ring_pop_keys _ _ _ Hok E) as (Hg&Hok'&Hk). rewrite Hg. unfold keys. rewrite Hk. cbn.
    eexists _, _. split; [reflexivity|]. split; [exact Hok'|]. split; [done|]. split; [done|]. done.
Qed.
Lemma ring_count_run s : kring_ok s -> ring_count s = Some (Z.of_nat (length (keys s)), s).
Proof. intros Hok. unfold ring_count, mgets. rewrite mask256. unfold keys. by rewrite ring_keys_length. Qed.

(** ** The reader and the interrupt handler

    A pop makes three steps: it finds a key, reads it, moves the tail.  The handler's push comes whole between any two.
    [c_in] are the keys the ring accepted, [c_out] those returned. *)
Inductive pop_pc := Idle | Found | Read (v : Z).
Record config := Config { c_kbd : kbd R; c_pc : pop_pc; c_in : list Z; c_out : list Z }.
Inductive ring_step : config -> config -> Prop :=
| step_isr s s' pc i o v : byte_ok v -> ring_push v s = Some (tt, s') ->
    ring_step (Config s pc i o) (Config s' pc (if decide (g_ring_head s' = g_ring_head s) then i else i ++ [v]) o)
| step_empty s i o : g_ring_head s = g_ring_tail s -> ring_step (Config s Idle i o) (Config s Idle i o)
| step_found s i o : g_ring_head s <> g_ring_tail s -> ring_step (Config s Idle i o) (Config s Found i o)
| step_read s i o v : zget (g_ring_buf s) (g_ring_tail s) = Some v -> ring_step (Config s Found i o) (Config s (Read v) i o)
| step_advance s i o v :
    ring_step (Config s (Read v) i o)
      (Config (set_ring (g_ring_buf s) (g_ring_head s) (Z.land (u32 (g_ring_tail s + 1)) PS2_RING_MASK) s) Idle i (o ++ [v])).
(** The pop of a reader that is not interrupted makes just these steps. *)
Lemma ring_pop_steps s v s' i o : kring_ok s -> ring_pop s = Some (v, s') ->
  (v = 0 /\ s' = s /\ ring_step (Config s Idle i o) (Config s Idle i o)) \/ rtc ring_step (Config s Idle i o) (Config s' Idle i (o ++ [v])).
Proof.
  intros Hok. unfold ring_pop, mget, mbind_ at 1. cbn [fst snd]. destruct (Z.eqb_spec (g_ring_head s) (g_ring_tail s)) as [E|E].
  - intros [= <- <-]. left. split; [done|]. split; [done|]. by constructor.
  - destruct (ring_pop_keys _ _ _ Hok E) as (Hg&_). rewrite Hg. cbn. intros [= <- <-]. right.
    eapply rtc_l; [by apply step_found|]. eapply rtc_l; [by apply step_read|]. eapply rtc_l; [by apply step_advance|]. apply rtc_refl.
Qed.

Definition config_inv (c : config) : Prop :=
  kring_ok (c_kbd c) /\ c_in c = c_out c ++ keys (c_kbd c) /\
  match c_pc c with Idle => True | Found => keys (c_kbd c) <> [] | Read v => exists q, keys (c_kbd c) = v :: q end.
(** A push moves the head exactly when it stores its key. *)
Lemma push_head s s' v : kring_ok s -> ring_push v s = Some (tt, s') -> g_ring_head s' = g_ring_head s <-> length (keys s) = 255%nat.
Proof.
  intros Hok. rewrite <-(ring_full _ _ _ Hok). unfold ring_push, mget, mbind_ at 1. cbn [fst snd]. rewrite mask256.
  pose proof Hok as (Hl&Hh&_). destruct (Z.eqb_spec ((g_ring_head s + 1) mod 256) (g_ring_tail s)) as [E|E]; cbn [negb].
  - by intros [= ->].
  - rewrite zset_Some by (rewrite Hl; lia). cbn. intros [= <-]. cbn. split; [|done]. intros E3. exfalso.
    destruct (decide (g_ring_head s = 255)) as [E4|]; [rewrite E4 in E3; done|]. rewrite Z.mod_small in E3 by lia. lia.
Qed.
Lemma ring_step_inv c c' : ring_step c c' -> config_inv c -> config_inv c'.
Proof.
  intros Hs. destruct Hs as [s s' pc i o v Hv Hp|s i o He|s i o He|s i o v Hr|s i o v]; intros (Hok&Hin&Hpc);
    unfold config_inv in *; cbn [c_kbd c_pc c_in c_out] in *.
  - destruct (ring_push_run v s Hok Hv) as (s2&Hp2&Hok2&Hk2&Hsame). rewrite Hp in Hp2. injection Hp2 as <-.
    pose proof (push_head s s' v Hok Hp) as Hacc.
    split; [done|]. rewrite Hk2. unfold push_queue. split.
    + destruct (decide (g_ring_head s' = _)) as [E|E]; case_decide; rewrite ?Hacc in E; try done. by rewrite Hin, app_assoc.
    + destruct pc; [done| |]; case_decide; try done; [by destruct (keys s)|]. destruct Hpc as [q ->]. by eexists.
  - done.
  - split; [done|]. split; [done|]. by rewrite (ring_empty _ _ _ Hok) in He.
  - split; [done|]. split; [done|]. destruct (decide (g_ring_head s = g_ring_tail s)) as [E|E].
    + by apply (ring_empty _ _ _ Hok) in E.
    + destruct (ring_pop_keys _ _ _ Hok E) as (Hg&_&Hk). rewrite Hr in Hg. injection Hg as ->. unfold keys. rewrite Hk. eauto.
  - destruct Hpc as [q Hq]. assert (g_ring_head s <> g_ring_tail s) as E.
    { intros E. apply (ring_empty _ _ _ Hok) in E. unfold keys in Hq. congruence. }
    destruct (ring_pop_keys _ _ _ Hok E) as (Hg&Hok'&Hk). unfold keys in *. rewrite mask256. cbn.
    rewrite Hk in Hq. injection Hq as Hv Hq. split; [done|]. split; [|done]. rewrite Hin, Hk, Hv, <-app_assoc. done.
Qed.

Lemma ring_reachable_inv s c : kring_ok s -> keys s = [] -> rtc ring_step (Config s Idle [] []) c -> config_inv c.
Proof.
  intros Hok Hk Hs. assert (config_inv (Config s Idle [] [])) as H0 by (split; [done|]; cbn; by rewrite Hk).
  revert H0. induction Hs as [|c1 c2 c3 H12 _ IH]; [done|]. intros H1. by apply IH, (ring_step_inv c1).
Qed.

(** C30: from an empty ring, however the interrupt handler's pushes fall between the steps of a reader's pops, the keys accepted are
    those returned so far followed by those in the ring, in order and each once; the ring never holds more than 255, a push drops its key
    only then, the reader never faults or waits, and it reports no key only when there is none. *)
Theorem ring_interleaved s c : kring_ok s -> keys s = [] -> rtc ring_step (Config s Idle [] []) c ->
  c_in c = c_out c ++ keys (c_kbd c) /\ (length (keys (c_kbd c)) <= 255)%nat /\
  (forall v, byte_ok v -> exists s', ring_push v (c_kbd c) = Some (tt, s') /\ keys s' = push_queue v (keys (c_kbd c))) /\
  (exists c', ring_step c c' /\ c_in c' = c_in c /\
    match c_pc c with
    | Idle => c_out c' = c_out c /\ (c_pc c' = Idle <-> keys (c_kbd c) = [])
    | Found => c_out c' = c_out c /\ exists v, c_pc c' = Read v
    | Read v => c_out c' = c_out c ++ [v] /\ c_pc c' = Idle /\ keys (c_kbd c) = v :: keys (c_kbd c')
    end).
Proof.
  intros Hok Hk Hs. destruct (ring_reachable_inv _ _ Hok Hk Hs) as (Hok'&Hin&Hpc). destruct c as [k pc i o]. cbn [c_kbd c_pc c_in c_out] in *.
  split; [done|]. split; [|split].
  - pose proof (ring_keys_length (g_ring_buf k) (g_ring_head k) (g_ring_tail k)). pose proof (Z.mod_pos_bound (g_ring_head k - g_ring_tail k) 256).
    unfold keys. lia.
  - intros v Hv. destruct (ring_push_run v k Hok' Hv) as (s'&?&_&?&_). eauto.
  - pose proof (ring_empty _ _ _ Hok') as He. fold (keys k) in He. destruct pc as [| |v].
    + destruct (decide (g_ring_head k = g_ring_tail k)) as [E|E]; eexists; (split; [first [by apply step_empty|by apply step_found]|]); cbn; rewrite <-He; split_and?; done.
    + destruct (ring_pop_keys _ _ _ Hok') as (Hg&_&_); [by rewrite He|]. eexists. split; [by apply step_read|]. cbn. eauto.
    + eexists. split; [apply step_advance|]. cbn. split; [done|]. split; [done|]. split; [done|]. destruct Hpc as [q Hq].
      destruct (ring_pop_keys _ _ _ Hok') as (Hg&_&Hk'); [rewrite He, Hq; done|]. unfold keys in *. cbn. rewrite mask256.
      rewrite Hk' in Hq. injection Hq as Hv _. by rewrite Hk', Hv.
Qed.

(** A push of a reader that is polling is not whole: it stores the key, then moves the head. *)
Definition push_store (v : Z) : M (kbd R) unit := 
  s <~ mget ;; b <~ mlift (zset (g_ring_buf s) (g_ring_head s) (u8 v)) ;; mput (set_ring b (g_ring_head s) (g_ring_tail s) s).
Definition push_move (next : Z) : M (kbd R) unit := mmodify (fun s => set_ring (g_ring_buf s) next (g_ring_tail s) s).
Lemma push_in_two v s : kring_ok s -> (g_ring_head s + 1) mod 256 <> g_ring_tail s ->
  ring_push v s = (push_store v ;;; push_move ((g_ring_head s + 1) mod 256)) s.
Proof.
  intros (Hl&Hh&_) Hn. unfold ring_push, mget, mbind_ at 1. cbn [fst snd]. rewrite mask256, (proj2 (Z.eqb_neq _ _)) by done. cbn [negb].
  unfold push_store, mget, mlift, mbind_. rewrite zset_Some by (rewrite Hl; lia). done.
Qed.
End Ring.

(** ** The driver keeps its types

    A key in the ring is one of the codes of ps2.h, so never the 0 that reports an empty ring. *)

Definition key_ok (k : Z) : Prop := 1 <= k <= PS2_KEY_DELETE.
(** The serial line has finitely many bytes waiting. *)
Class SerialTicks (R : Type) `{!Ports R} := {
  ser_bound : nat;
  ser_left : R -> nat;
  ser_left_bound r : (ser_left r <= ser_bound)%nat;
  ser_status base r : ser_left (bus_in8 (u16 (base + 5)) r).2 = ser_left r /\
    (ser_left r = 0%nat -> Z.land (u8 (bus_in8 (u16 (base + 5)) r).1) 1 = 0);
  ser_data base r : (0 < ser_left r)%nat -> (ser_left (bus_in8 (u16 base) r).2 < ser_left r)%nat
}.

Section Types.
Context {R : Type} `{!Ports R} `{!Cpu R} `{!CpuTicks R}.
Implicit Types s : kbd R.

Definition kbd_ok s : Prop :=
  kring_ok s /\ Forall key_ok (keys s) /\ byte_ok (g_modifiers s) /\ byte_ok (g_ser_param s).
(** What a decoder leaves alone: the timer, the interrupt flag, the handlers, the start-up flag, the serial device. *)
Definition calm s s' : Prop :=
  quiet (k_irq s) (k_irq s') /\ g_ticks (k_irq s') = g_ticks (k_irq s) /\ g_initialized s' = g_initialized s /\ k_serial s' = k_serial s.
Lemma calm_refl s : calm s s.
Proof. done. Qed.
Lemma calm_trans s1 s2 s3 : calm s1 s2 -> calm s2 s3 -> calm s1 s3.
Proof. intros (Hq&Ht&Hi&Hs) (Hq'&Ht'&Hi'&Hs'). split; [by eapply quiet_trans|]. repeat split; congruence. Qed.

(** [runs c Q s]: from [s], [c] returns a value in [Q], with the types kept. *)
Definition runs {A} (c : M (kbd R) A) (Q : A -> Prop) s : Prop := kbd_ok s -> exists a s', c s = Some (a, s') /\ kbd_ok s' /\ calm s s' /\ Q a.
Definition any {A} : A -> Prop := fun _ => True.

Lemma runs_bind {A B} (c : M (kbd R) A) (k : A -> M (kbd R) B) P Q s :
  runs c P s -> (forall a s', P a -> calm s s' -> runs (k a) Q s') -> runs (a <~ c ;; k a) Q s.
Proof.
  intros Hc Hk Hok. destruct (Hc Hok) as (a&s1&H1&Hok1&Hq1&Ha). destruct (Hk a s1 Ha Hq1 Hok1) as (b&s2&H2&Hok2&Hq2&Hb).
  exists b, s2. mstep H1. split; [done|]. split; [done|]. split; [by eapply calm_trans|done].
Qed.
Lemma runs_get {A} (k : kbd R -> M (kbd R) A) Q s : runs (k s) Q s -> runs (s <~ mget ;; k s) Q s.
Proof. done. Qed.
Lemma runs_ret {A} (a : A) (Q : A -> Prop) s : Q a -> runs (return a) Q s.
Proof. intros Ha Hok. exists a, s. split; [done|]. split; [done|]. split; [apply calm_refl|done]. Qed.
Lemma runs_mono {A} (c : M (kbd R) A) (P Q : A -> Prop) s : (forall a, P a -> Q a) -> runs c P s -> runs c Q s.
Proof. intros Hi Hc Hok. destruct (Hc Hok) as (a&s1&?&?&?&?). eauto 10. Qed.
Lemma runs_seq {B} (c : M (kbd R) unit) (k : M (kbd R) B) Q s : runs c any s -> (forall s', calm s s' -> runs k Q s') -> runs (c ;;; k) Q s.
Proof. intros Hc Hk. eapply runs_bind; [exact Hc|]. intros [] s' _. apply Hk. Qed.
Lemma runs_modify f s : (kbd_ok s -> kbd_ok (f s)) -> calm s (f s) -> runs (mmodify f) any s.
Proof. intros Hf Hq Hok. exists tt, (f s). split; [done|]. split; [by apply Hf|done]. Qed.
Lemma runs_lift {A} (o : option A) (Q : A -> Prop) s a : o = Some a -> Q a -> runs (mlift o) Q s.
Proof. intros -> Ha Hok. exists a, s. split; [done|]. split; [done|]. split; [apply calm_refl|done]. Qed.

Lemma runs_push v s : key_ok v -> runs (ring_push v) any s.
Proof.
  intros Hv (Hr&Hk&Hm&Hp). assert (byte_ok v) as Hb by (unfold key_ok, byte_ok, PS2_KEY_DELETE in *; lia).
  destruct (ring_push_run v s Hr Hb) as (s'&Hs&Hr'&Hk'&Hsame). exists tt, s'. split; [done|]. split; [|split; [|done]].
  - split; [done|]. rewrite Hk'. split; [|by rewrite Hsame]. unfold push_queue. case_decide; [done|]. apply Forall_app. auto.
  - rewrite Hsame. done.
Qed.
Lemma runs_pop s : runs ring_pop (fun k => k = 0 \/ key_ok k) s.
Proof.
  intros (Hr&Hk&Hm&Hp). destruct (ring_pop_run s Hr) as (v&s'&Hs&Hr'&Hsame&Hv). exists v, s'. split; [done|].
  destruct (keys s) as [|k q] eqn:E.
  - destruct Hv as [-> ->]. split; [by split; [|split; [rewrite E|]]|]. split; [apply calm_refl|by left].
  - destruct Hv as [-> Hq]. apply Forall_cons in Hk as [Hk Hks]. split; [|split; [rewrite Hsame; done|by right]].
    split; [done|]. rewrite Hq. split; [done|]. by rewrite Hsame.
Qed.
Lemma runs_count s : runs ring_count (fun n => n = Z.of_nat (length (keys s))) s.
Proof. intros Hok. eexists _, s. rewrite ring_count_run by apply Hok. split; [done|]. split; [done|]. split; [apply calm_refl|done]. Qed.
(** Port accesses. *)
Lemma runs_inb p s : runs (inb p) byte_ok s.
Proof.
  intros (Hr&Hk&Hm&Hp). destruct (inb_quiet p (k_irq s)) as (v&q&Hq&Hqq&Ht). unfold inb in *. cbn in *.
  destruct (bus_in8 (u16 p) (q_io (k_irq s))) as [v' r] eqn:E. injection Hq as <- <-. eexists _, _. split; [reflexivity|].
  split; [done|]. split; [split; [exact Hqq|done]|]. apply (wrap_range 8). lia.
Qed.
Lemma runs_outb p v s : runs (outb p v) any s.
Proof.
  intros Hok. eexists _, _. split; [reflexivity|]. split; [exact Hok|]. split; [|done].
  destruct (quiet_outb p v (k_irq s)) as (q&Hq&Hqq&Ht). unfold outb in Hq. injection Hq as <-.
  split; [exact Hqq|]. split; [exact Ht|done].
Qed.

(** Bytes: what the decoders do to the modifiers stays one. *)
Lemma byte_lor a b : byte_ok a -> byte_ok b -> byte_ok (Z.lor a b).
Proof.
  unfold byte_ok. intros [? ?] [? ?]. split; [by apply Z.lor_nonneg|].
  destruct (decide (Z.lor a b = 0)) as [->|]; [lia|]. assert (0 <= Z.lor a b) by (by apply Z.lor_nonneg).
  change 256 with (2 ^ 8) in *. apply Z.log2_lt_pow2; [lia|]. rewrite Z.log2_lor by done. apply Z.max_lub_lt.
  - destruct (decide (a = 0)) as [->|]; [done|]. apply Z.log2_lt_pow2; lia.
  - destruct (decide (b = 0)) as [->|]; [done|]. apply Z.log2_lt_pow2; lia.
Qed.
Lemma byte_lxor a b : byte_ok a -> byte_ok b -> byte_ok (Z.lxor a b).
Proof.
  unfold byte_ok. intros [? ?] [? ?]. assert (0 <= Z.lxor a b) by (by apply Z.lxor_nonneg). split; [done|].
  destruct (decide (Z.lxor a b = 0)) as [->|]; [lia|].
  change 256 with (2 ^ 8) in *. apply Z.log2_lt_pow2; [lia|]. eapply Z.le_lt_trans; [by apply Z.log2_lxor|]. apply Z.max_lub_lt.
  - destruct (decide (a = 0)) as [->|]; [done|]. apply Z.log2_lt_pow2; lia.
  - destruct (decide (b = 0)) as [->|]; [done|]. apply Z.log2_lt_pow2; lia.
Qed.
Lemma byte_land a b : byte_ok a -> byte_ok b -> byte_ok (Z.land a b).
Proof.
  unfold byte_ok. intros [? ?] [? ?]. assert (0 <= Z.land a b) by (apply Z.land_nonneg; auto). split; [done|].
  destruct (decide (Z.land a b = 0)) as [->|]; [lia|]. destruct (decide (a = 0)) as [->|]; [done|].
  change 256 with (2 ^ 8) in *. apply Z.log2_lt_pow2; [lia|]. eapply Z.le_lt_trans; [by apply Z.log2_land|].
  eapply Z.le_lt_trans; [apply Z.le_min_l|]. apply Z.log2_lt_pow2; lia.
Qed.
Lemma byte_u8 x : byte_ok (u8 x).
Proof. apply (wrap_range 8). lia. Qed.

(** The tables: 128 entries, each no key or a key; under Ctrl a letter is still a key. *)
Definition table_ok (t : list Z) : Prop := length t = 128%nat /\ Forall (fun k => k = 0 \/ key_ok k) t.
Lemma sc1_unshifted_ok : table_ok sc1_unshifted.
Proof. split; [done|]. apply (bool_decide_unpack _). vm_compute. exact I. Qed.
Lemma sc1_shifted_ok : table_ok sc1_shifted.
Proof. split; [done|]. apply (bool_decide_unpack _). vm_compute. exact I. Qed.
Lemma ext_scancodes_bytes : length ext_scancodes = 128%nat /\ Forall byte_ok ext_scancodes.
Proof. split; [done|]. apply (bool_decide_unpack _). vm_compute. exact I. Qed.
Lemma table_get t i : table_ok t -> 0 <= i < 128 -> exists k, zget t i = Some k /\ (k = 0 \/ key_ok k).
Proof.
  intros [Hl Ht] Hi. destruct (zget_is_Some t i) as [k Hk]; [rewrite Hl; lia|]. exists k. split; [done|].
  apply zget_Some in Hk as [_ Hk]. by eapply Forall_lookup_1 in Ht.
Qed.
Definition letter_ok (t : list Z) (sc : Z) : bool :=
  match zget t sc with Some ch => bool_decide (key_ok ch /\ key_ok (Z.land ch 0x1F)) | None => false end.
Lemma letters_ok : forallb (fun sc => negb (is_letter sc) || letter_ok sc1_unshifted sc && letter_ok sc1_shifted sc) (seqZ 0 128) = true.
Proof. vm_compute. reflexivity. Qed.
Lemma letter_entries sc (b : bool) : is_letter sc = true ->
  exists ch, zget (if b then sc1_shifted else sc1_unshifted) sc = Some ch /\ key_ok ch /\ key_ok (Z.land ch 0x1F).
Proof.
  intros Hsc. assert (In sc (seqZ 0 128)) as Hin by (apply list_elem_of_In, elem_of_seqZ; unfold is_letter in Hsc; lia).
  pose proof (proj1 (forallb_forall _ _) letters_ok sc Hin) as H. cbn beta in H. rewrite Hsc in H. cbn [negb orb] in H. apply andb_true_iff in H as [H1 H2].
  unfold letter_ok in *. destruct (zget sc1_unshifted sc) eqn:E1; [|done]. destruct (zget sc1_shifted sc) eqn:E2; [|done].
  apply bool_decide_eq_true in H1, H2. destruct b; eauto.
Qed.

(** ** Every decoder keeps the types *)

Ltac run1 := first
  [ apply runs_get | apply runs_seq; [|intros ? ?] | apply runs_ret; done || (by left) || (by right) | apply runs_push; unfold key_ok, PS2_KEY_DELETE; done || lia ].
Lemma kbd_ok_mods m e s : byte_ok m -> kbd_ok s -> kbd_ok (set_mods m e s).
Proof. intros Hm (?&?&_&?). done. Qed.
Lemma kbd_ok_ser st p s : byte_ok p -> kbd_ok s -> kbd_ok (set_ser st p s).
Proof. intros Hm (?&?&?&_). done. Qed.
Lemma runs_mod_set m s : byte_ok m -> runs (mod_set m) any s.
Proof. intros. apply runs_modify; [|done]. intros Hok. apply kbd_ok_mods; [|done]. apply byte_lor; [apply Hok|done]. Qed.
Lemma runs_mod_clear m s : runs (mod_clear m) any s.
Proof. apply runs_modify; [|done]. intros Hok. apply kbd_ok_mods; [|done]. apply byte_land; [apply Hok|apply byte_u8]. Qed.
Lemma runs_mod_toggle m s : byte_ok m -> runs (mod_toggle m) any s.
Proof. intros. apply runs_modify; [|done]. intros Hok. apply kbd_ok_mods; [|done]. apply byte_lxor; [apply Hok|done]. Qed.
Lemma runs_extended e s : runs (put_extended e) any s.
Proof. apply runs_modify; [|done]. intros Hok. apply kbd_ok_mods; [apply Hok|done]. Qed.
Lemma runs_ser st p s : byte_ok p -> runs (mmodify (set_ser st p)) any s.
Proof. intros. apply runs_modify; [|done]. intros Hok. by apply kbd_ok_ser. Qed.
Lemma runs_to_ser st s : runs (to_ser st) any s.
Proof. apply runs_modify; [|done]. intros Hok. apply kbd_ok_ser; [apply Hok|done]. Qed.
Lemma runs_push_key k s : (forall v, k = Some v -> key_ok v) -> runs (push_key k) any s.
Proof. intros Hk. destruct k as [v|]; [by apply runs_push, Hk|by apply runs_ret]. Qed.
Lemma runs_when b c s : (b = true -> runs c any s) -> runs (mwhen b c) any s.
Proof. intros Hc. destruct b; [by apply Hc|by apply runs_ret]. Qed.
#[local] Hint Resolve runs_mod_clear runs_extended runs_to_ser byte_u8 runs_inb runs_outb : core.

Lemma csi_keys_ok c v : csi_key c = Some v -> key_ok v.
Proof. unfold csi_key. repeat case_match; intros [= <-]; unfold key_ok; vm_compute; intuition congruence. Qed.
Lemma csi_num_keys_ok n v : csi_num_key n = Some v -> key_ok v.
Proof. unfold csi_num_key. repeat case_match; intros [= <-]; unfold key_ok; vm_compute; intuition congruence. Qed.
Lemma printable_key c : printable c = true -> key_ok c.
Proof. unfold printable, key_ok, PS2_KEY_DELETE. lia. Qed.

Ltac case_eqb := match goal with |- runs (if ?c =? ?d then _ else _) _ _ => destruct (c =? d) end.
Lemma runs_serial_byte c s : runs (serial_byte c) any s.
Proof.
  unfold serial_byte. apply runs_get.
  assert (forall s, runs (if printable c then ring_push c else return tt) any s) as Hp.
  { intros t. destruct (printable c) eqn:E; [by apply runs_push, printable_key|by apply runs_ret]. }
  assert (forall k t, key_ok k -> runs (ring_push k) any t) as Hk by (intros; by apply runs_push).
  assert (forall t, runs (mret tt) any t) as Hr by (intros; by apply runs_ret).
  assert (key_ok PS2_KEY_BACKSPACE /\ key_ok PS2_KEY_ENTER /\ key_ok PS2_KEY_TAB /\ key_ok PS2_KEY_ESC) as (?&?&?&?)
    by (unfold key_ok; vm_compute; intuition congruence).
  destruct (g_ser_state s).
  - repeat case_eqb; auto.
  - case_eqb; [by apply runs_ser|]. case_eqb; [by auto|]. (apply runs_seq; [by auto|intros s1 _]); (apply runs_seq; [by auto|intros s2 _]); repeat case_eqb; auto.
  - destruct (digit c); [by apply runs_ser|]. apply runs_seq; [|auto]. apply runs_push_key, csi_keys_ok.
  - destruct (digit c); [by apply runs_ser|]. case_eqb; [|auto]. apply runs_seq; [|auto]. apply runs_push_key, csi_num_keys_ok.
Qed.

Lemma runs_decoded d s : d = 0 \/ key_ok d -> runs (ps2_decoded d) any s.
Proof.
  intros Hd. unfold ps2_decoded. apply runs_seq; [|auto]. apply runs_when. intros H. apply runs_push.
  destruct Hd as [->|]; [done|done].
Qed.
Lemma runs_ascii sc s : 0 <= sc -> runs (scancode_to_ascii sc) (fun d => d = 0 \/ key_ok d) s.
Proof.
  intros Hsc. unfold scancode_to_ascii. apply runs_get. destruct (Z.leb_spec 128 sc); [apply runs_ret; by left|].
  assert (forall (b : bool), table_ok (if b then sc1_shifted else sc1_unshifted)) as Ht by (intros []; [apply sc1_shifted_ok|apply sc1_unshifted_ok]).
  destruct (is_letter sc) eqn:E.
  - destruct (letter_entries sc (xorb (negb (Z.land (g_modifiers s) PS2_MOD_SHIFT =? 0)) (negb (Z.land (g_modifiers s) PS2_MOD_CAPSLOCK =? 0))) E) as (ch&Hch&Hk&Hc).
    eapply runs_bind; [by apply (runs_lift _ (fun x => x = ch) s ch)|]. intros ? s' -> _. destruct (Z.land (g_modifiers s) PS2_MOD_CTRL =? 0); apply runs_ret; by right.
  - destruct (table_get _ sc (Ht (negb (Z.land (g_modifiers s) PS2_MOD_SHIFT =? 0)))) as (k&Hk&Hok); [lia|]. by eapply runs_lift.
Qed.
Lemma ext_get code s : 0 <= code < 128 -> runs (mlift (zget ext_scancodes code)) byte_ok s.
Proof.
  intros Hc. destruct ext_scancodes_bytes as [Hl Hb]. destruct (zget_is_Some ext_scancodes code) as [k Hk]; [rewrite Hl; lia|].
  eapply runs_lift; [done|]. apply zget_Some in Hk as [_ Hk]. by eapply Forall_lookup_1 in Hb.
Qed.
Lemma runs_break code s : 0 <= code < 128 -> runs (ps2_break code) any s.
Proof.
  intros Hc. unfold ps2_break. apply runs_get. apply runs_seq; [|auto]. destruct (g_extended s).
  - rewrite (proj2 (Z.ltb_lt _ _)) by lia. eapply runs_bind; [by apply ext_get|]. intros md s' _ _. apply runs_when. auto.
  - repeat case_eqb; auto. by apply runs_ret.
Qed.
Lemma runs_make code s : 0 <= code < 128 -> runs (ps2_make code) any s.
Proof.
  intros Hc. unfold ps2_make. apply runs_get. destruct (g_extended s).
  - rewrite (proj2 (Z.ltb_lt _ _)) by lia. eapply runs_bind; [by apply ext_get|]. intros sp s1 Hsp _.
    destruct (Z.leb_spec PS2_KEY_UP sp), (Z.leb_spec sp PS2_KEY_DELETE); cbn [andb].
    1: { apply runs_decoded. right. unfold key_ok, PS2_KEY_UP in *. lia. }
    all: apply runs_seq; [apply runs_when; intros _; by apply runs_mod_set|intros s2 _]; apply runs_decoded; by left.
  - repeat case_eqb; try (apply runs_mod_set; vm_compute; intuition congruence).
    + apply runs_mod_toggle. vm_compute. intuition congruence.
    + eapply runs_bind; [apply runs_ascii; lia|]. intros d s1 Hd _. by apply runs_decoded.
Qed.
Lemma runs_scancode sc s : byte_ok sc -> runs (ps2_process_scancode sc) any s.
Proof.
  intros Hsc. unfold ps2_process_scancode. case_eqb; [auto|].
  assert (0 <= Z.land sc 0x7F < 128) as Hc by (change 0x7F with (Z.ones 7); rewrite Z.land_ones by lia; by apply Z.mod_pos_bound).
  destruct (Z.land sc 0x80 =? 0); [by apply runs_make|by apply runs_break].
Qed.
Lemma runs_eoi irq s : runs (pic_send_eoi irq) any s.
Proof. unfold pic_send_eoi. apply runs_seq; [|auto]. apply runs_when. auto. Qed.
Lemma runs_irq s : runs ps2_irq_handler any s.
Proof.
  unfold ps2_irq_handler. apply runs_seq; [apply runs_modify; done|intros s1 _].
  eapply runs_bind; [auto|]. intros sc s2 Hsc _. apply runs_seq; [by apply runs_scancode|]. intros s3 _. apply runs_eoi.
Qed.

(** The parser does not touch the ports. *)
Definition keeps {A} (c : M (kbd R) A) : Prop := forall s a s', c s = Some (a, s') -> k_irq s' = k_irq s.
Lemma keeps_bind {A B} (c : M (kbd R) A) (k : A -> M (kbd R) B) : keeps c -> (forall a, keeps (k a)) -> keeps (a <~ c ;; k a).
Proof. intros Hc Hk s b s' H. apply mbind_inv in H as (a&s1&H1&H2). rewrite (Hk _ _ _ _ H2). by eapply Hc. Qed.
Lemma keeps_get {A} (k : kbd R -> M (kbd R) A) : (forall s, keeps (k s)) -> keeps (s <~ mget ;; k s).
Proof. intros Hk s b s' H. apply mbind_inv in H as (a&s1&[= <- <-]&H2). by eapply Hk. Qed.
Lemma keeps_modify f : (forall s, k_irq (f s) = k_irq s) -> keeps (mmodify f).
Proof. intros Hf s a s' [= <- <-]. apply Hf. Qed.
Lemma keeps_ret {A} (a : A) : keeps (mret a).
Proof. by intros s a' s' [= <- <-]. Qed.
Lemma keeps_push v : keeps (ring_push v).
Proof.
  intros s a s'. unfold ring_push, mget, mbind_ at 1. cbn [fst snd]. destruct (negb _); [|by intros [= <- <-]].
  intros H. apply mbind_inv in H as (b&s1&H1&H2). unfold mlift in H1. destruct (zset _ _ _); [|done]. injection H1 as <- <-. by injection H2 as <- <-.
Qed.
Lemma keeps_serial_byte c : keeps (serial_byte c).
Proof.
  unfold serial_byte. apply keeps_get. intros s. unfold to_ser, push_key.
  repeat first [apply keeps_push | apply keeps_ret | apply keeps_modify; done | apply keeps_bind; [|intros []] | case_match].
Qed.

Section Poll.
Context `{!SerialTicks R}.
Definition ser_of s : nat := ser_left (q_io (k_irq s)).
Lemma inb_io p s v s' : inb p s = Some (v, s') -> q_io (k_irq s') = (bus_in8 (u16 p) (q_io (k_irq s))).2 /\ v = u8 (bus_in8 (u16 p) (q_io (k_irq s))).1.
Proof. unfold inb. cbn. destruct (bus_in8 (u16 p) (q_io (k_irq s))) as [x r]. by intros [= <- <-]. Qed.
(** The poll reads the bytes that are there and ends. *)
Lemma runs_serial_loop base n : forall s, (ser_of s <= n)%nat -> runs (serial_loop n base) any s.
Proof.
  induction n as [|n IH]; intros s Hn Hok; cbn [serial_loop];
    (destruct (runs_inb (base + 5) s Hok) as (l&s1&H1&Hok1&Hq1&_); destruct (inb_io _ _ _ _ H1) as [Hr1 Hl];
     destruct (ser_status base (q_io (k_irq s))) as [Hs1 Hz]; unfold ser_of in Hn;
     unfold serial_data_available, mbind_ at 1 2; rewrite H1; unfold mret at 1; rewrite <-Hl in Hz).
  - rewrite Hz by lia. cbn. exists tt, s1. done.
  - destruct (Z.eqb_spec (Z.land l 1) 0) as [E|E]; [exists tt, s1; done|]. cbn [negb].
    destruct (runs_inb base s1 Hok1) as (c&s2&H2&Hok2&Hq2&_). destruct (inb_io _ _ _ _ H2) as [Hr2 _]. mstep H2.
    destruct (runs_serial_byte (i8 c) s2 Hok2) as ([]&s3&H3&Hok3&Hq3&_). mstep H3.
    assert (0 < ser_left (q_io (k_irq s1)))%nat as Hpos.
    { rewrite Hr1, Hs1. destruct (ser_left (q_io (k_irq s))); [by rewrite Hz in E|lia]. }
    pose proof (ser_data base _ Hpos) as Hd. rewrite <-Hr2 in Hd.
    assert (ser_of s3 <= n)%nat as Hn3.
    { unfold ser_of. rewrite (keeps_serial_byte _ _ _ _ H3). rewrite Hr1, Hs1 in Hd. lia. }
    destruct (IH s3 Hn3 Hok3) as ([]&s4&H4&Hok4&Hq4&_).
    exists tt, s4. split; [done|]. split; [done|]. split; [|done]. eauto using calm_trans.
Qed.
Lemma runs_poll n s : (ser_bound <= n)%nat -> runs (serial_poll_input n) any s.
Proof.
  intros Hn. unfold serial_poll_input. apply runs_get. destruct (k_serial s) as [base|]; [|by apply runs_ret].
  apply runs_serial_loop. unfold ser_of. pose proof (ser_left_bound (q_io (k_irq s))). lia.
Qed.
End Poll.

(** ** Waiting *)

Definition kquiet s s' : Prop := quiet (k_irq s) (k_irq s') /\ g_initialized s' = g_initialized s /\ k_serial s' = k_serial s.
Lemma kquiet_trans s1 s2 s3 : kquiet s1 s2 -> kquiet s2 s3 -> kquiet s1 s3.
Proof. intros (Hq&Hi&Hs) (Hq'&Hi'&Hs'). split; [by eapply quiet_trans|]. split; congruence. Qed.
Lemma calm_kquiet s s' : calm s s' -> kquiet s s'.
Proof. intros (?&_&?&?). done. Qed.

Lemma kbd_handler_run f s : kbd_ok s ->
  exists s', kbd_handler f s = Some (tt, s') /\ kbd_ok s' /\ kquiet s s' /\
    if (f =? TIMER)%nat then later 1 (1 + cpu_away) (g_ticks (k_irq s)) (g_ticks (k_irq s')) else g_ticks (k_irq s') = g_ticks (k_irq s).
Proof.
  intros Hok. unfold kbd_handler. destruct (Nat.eqb_spec f KEYBOARD) as [->|].
  - destruct (runs_irq s Hok) as ([]&s'&Hs&Hok'&Hq&_). exists s'. split; [done|]. split; [done|]. split; [by apply calm_kquiet|apply Hq].
  - unfold on_irq, call_handler. destruct (Nat.eqb_spec f TIMER) as [->|].
    + destruct (quiet_handler (k_irq s)) as (q&Hq&Hqq&Ht). rewrite Hq. eexists. split; [reflexivity|]. split; [exact Hok|]. split; [done|]. exact Ht.
    + cbn. eexists. split; [reflexivity|]. split; [exact Hok|]. split; [|done]. split; [|done]. unfold quiet. cbn.
      destruct (cpu_other f (q_io (k_irq s))); auto.
Qed.
Lemma runs_isr_eoi v s : runs (isr_eoi v) any s.
Proof.
  unfold isr_eoi, pic_send_eoi_master_only. repeat case_match; auto using runs_eoi; by apply runs_ret.
Qed.
Lemma kisr_run v s : kbd_ok s -> timer_registered (k_handlers s) -> byte_ok v ->
  exists s', isr_common_handler k_handlers kbd_handler v s = Some (tt, s') /\ kbd_ok s' /\ kquiet s s' /\
    later (least v) (most v) (g_ticks (k_irq s)) (g_ticks (k_irq s')).
Proof.
  intros Hok (Hl&H32&Hne) Hv. unfold isr_common_handler, mbind_ at 1, mget. cbn. unfold u8. rewrite (wrap_small 8) by exact Hv.
  destruct (zget_is_Some (k_handlers s) v) as [h Hh]; [unfold byte_ok in Hv; lia|]. rewrite Hh. cbn. unfold mlift, mbind_ at 1.
  assert (exists s1, match h with Some f => kbd_handler f | None => return tt end s = Some (tt, s1) /\ kbd_ok s1 /\ kquiet s s1 /\
    later (least v) (most v) (g_ticks (k_irq s)) (g_ticks (k_irq s1))) as (s1&H1&Hok1&Hq1&Ht1).
  { unfold least, most. destruct h as [f|].
    - destruct (kbd_handler_run f s Hok) as (s1&H1&Hok1&Hq1&Ht1). exists s1. do 3 (split; [done|]).
      destruct (decide (v = 32)) as [->|Hn]; [rewrite H32 in Hh; by simplify_eq|].
      destruct (Nat.eqb_spec f TIMER) as [->|]; [by edestruct Hne|rewrite Ht1; apply later_refl].
    - exists s. do 3 (split; [done|]). destruct (decide (v = 32)) as [->|Hn]; [congruence|apply later_refl]. }
  rewrite H1. destruct (runs_isr_eoi v s1 Hok1) as ([]&s2&H2&Hok2&Hq2&_). exists s2. split; [done|]. split; [done|].
  split; [eapply kquiet_trans; [done|by apply calm_kquiet]|]. destruct Hq2 as (_&->&_). done.
Qed.
Lemma kserve_run l : forall s, kbd_ok s -> timer_registered (k_handlers s) -> Forall byte_ok l ->
  exists s', serve k_handlers kbd_handler l s = Some (tt, s') /\ kbd_ok s' /\ kquiet s s' /\
    later (Z.min 1 (timers l)) (timers l * (1 + cpu_away)) (g_ticks (k_irq s)) (g_ticks (k_irq s')).
Proof.
  induction l as [|v l IH]; intros s Hok Hr Hb; cbn [serve].
  { exists s. split; [done|]. split; [done|]. split; [done|apply later_refl]. }
  apply Forall_cons in Hb as [Hv Hb].
  destruct (kisr_run v s Hok Hr Hv) as (s1&H1&Hok1&Hq1&Ht1). mstep H1.
  destruct (IH s1) as (s2&H2&Hok2&Hq2&Ht2); [done|by destruct Hq1 as ((Hh&_)&_); unfold k_handlers; rewrite Hh|done|].
  exists s2. split; [done|]. split; [done|]. split; [by eapply kquiet_trans|]. eapply timers_cons; [done..| |done|done]. destruct (away_0) as [|F]; [done|destruct (F (q_io (k_irq s)))].
Qed.
Lemma kwait_run s : kbd_ok s -> timer_registered (k_handlers s) ->
  exists s', wait_interrupts s = Some (tt, s') /\ kbd_ok s' /\ k_handlers s' = k_handlers s /\ g_initialized s' = g_initialized s /\
    k_serial s' = k_serial s /\ g_timer_initialized (k_irq s') = g_timer_initialized (k_irq s) /\ cpu_if (q_io (k_irq s')) = cpu_if (q_io (k_irq s)) /\
    if cpu_if (q_io (k_irq s)) then
      in_w 64 (g_ticks (k_irq s)) -> later 1 (1 + cpu_over) (g_ticks (k_irq s)) (g_ticks (k_irq s')) \/
        g_ticks (k_irq s') = g_ticks (k_irq s) /\ (cpu_left (q_io (k_irq s')) < cpu_left (q_io (k_irq s)))%nat
    else g_ticks (k_irq s') = g_ticks (k_irq s).
Proof.
  intros Hok Hr. destruct (cpu_vectors (q_io (k_irq s))) as [Hb _]. pose proof (cpu_wait_on (q_io (k_irq s))) as Hon. pose proof (cpu_wait_off (q_io (k_irq s))) as Hoff.
  pose proof (fun t' Hw Hif => wait_later (q_io (k_irq s)) (g_ticks (k_irq s)) t' Hw Hif) as Hlat.
  unfold wait_interrupts, mbind_ at 1, mget. cbn. destruct (cpu_wait (q_io (k_irq s))) as [l r]. cbn in *.
  destruct (kserve_run l (set_irq (set_q_io r (k_irq s)) s)) as (s'&Hs&Hok'&((Hh&Hti&_&Hi&Hlf)&Hin&Hse)&Ht); [done..|].
  exists s'. split; [exact Hs|]. split; [done|]. cbn in *. unfold k_handlers in *. rewrite Hh, Hti, Hi, Hlf, Hin, Hse.
  do 4 (split; [done|]). destruct (cpu_if (q_io (k_irq s))).
  - destruct (Hon eq_refl) as [-> _]. split; [done|]. intros Hw. by apply Hlat.
  - destruct (Hoff eq_refl) as [-> ->]. split; [done|]. cbn in Hs. injection Hs as <-. done.
Qed.

Lemma waits_run n : forall s, kbd_ok s -> timer_registered (k_handlers s) ->
  exists s', waits n s = Some (tt, s') /\ kbd_ok s' /\ (cpu_if (q_io (k_irq s)) = false -> g_ticks (k_irq s') = g_ticks (k_irq s)).
Proof.
  induction n as [|n IH]; intros s Hok Hr; cbn [waits]; [by exists s|].
  destruct (kwait_run s Hok Hr) as (s1&H1&Hok1&Hh1&_&_&_&Hi1&Ht1). mstep H1.
  destruct (IH s1 Hok1) as (s2&H2&Hok2&Ht2); [by rewrite Hh1|]. exists s2. split; [done|]. split; [done|].
  intros Hoff. rewrite Hoff in *. rewrite Ht2 by done. done.
Qed.

Section GetKey.
Context `{!SerialTicks R}.
Definition result_ok (k : Z) : Prop := k = 0 \/ key_ok k.
(** One round up to the wait: the serial line and the controller are polled. *)
Definition round (n : nat) (rest : M (kbd R) Z) : M (kbd R) Z :=
  serial_poll_input n ;;;
  c <~ ring_count ;; if 0 <? c then ring_pop else
  st <~ inb PS2_STATUS_PORT ;;
  c <~ (if negb (Z.land st PS2_STATUS_OBF =? 0) then
     mmodify (fun s => set_counts (g_irq_count s) (u32 (g_obf_count s + 1)) s) ;;;
     raw <~ inb PS2_DATA_PORT ;; ps2_process_scancode raw ;;; ring_count
   else return 0) ;;
  if 0 <? c then ring_pop else rest.
Lemma pop_key s : kbd_ok s -> 0 < Z.of_nat (length (keys s)) ->
  exists k s', ring_pop s = Some (k, s') /\ kbd_ok s' /\ calm s s' /\ key_ok k.
Proof.
  intros Hok Hc. destruct (runs_pop s Hok) as (k&s'&Hs&Hok'&Hq&Hk). exists k, s'. do 3 (split; [done|]).
  destruct (ring_pop_run s) as (v&s2&H2&_&_&Hv); [apply Hok|]. rewrite Hs in H2. injection H2 as <- <-.
  destruct Hok as (_&Hks&_). destruct (keys s) as [|k0 q]; [done|]. destruct Hv as [-> _]. by apply Forall_cons in Hks as [? _].
Qed.
(** A round returns a key, or goes on to the wait with time as it was. *)
Lemma round_run n rest s : kbd_ok s -> (ser_bound <= n)%nat ->
  (exists k s', round n rest s = Some (k, s') /\ kbd_ok s' /\ calm s s' /\ key_ok k) \/
  (exists s', round n rest s = rest s' /\ kbd_ok s' /\ calm s s').
Proof.
  intros Hok Hn. unfold round. destruct (runs_poll n s Hn Hok) as ([]&s1&H1&Hok1&Hq1&_). mstep H1.
  mstep (ring_count_run s1 (proj1 Hok1)). destruct (Z.ltb_spec 0 (Z.of_nat (length (keys s1)))) as [Hc|Hc].
  { left. destruct (pop_key s1 Hok1 Hc) as (k&s2&H2&Hok2&Hq2&Hk). exists k, s2. eauto using calm_trans. }
  destruct (runs_inb PS2_STATUS_PORT s1 Hok1) as (st&s2&H2&Hok2&Hq2&_). mstep H2.
  destruct (negb (Z.land st PS2_STATUS_OBF =? 0)); [|right; exists s2; eauto using calm_trans].
  assert (runs (mmodify (fun s => set_counts (g_irq_count s) (u32 (g_obf_count s + 1)) s) ;;;
     raw <~ inb PS2_DATA_PORT ;; ps2_process_scancode raw) any s2) as Hd.
  { apply runs_seq; [apply runs_modify; done|]. intros s3 _. eapply runs_bind; [apply runs_inb|]. intros raw s4 Hraw _. by apply runs_scancode. }
  destruct (Hd Hok2) as ([]&s3&H3&Hok3&Hq3&_).
  assert ((mmodify (fun s => set_counts (g_irq_count s) (u32 (g_obf_count s + 1)) s) ;;;
     raw <~ inb PS2_DATA_PORT ;; ps2_process_scancode raw ;;; ring_count) s2 = Some (Z.of_nat (length (keys s3)), s3)) as Hr.
  { revert H3. unfold mbind_, mmodify. cbn. destruct (inb PS2_DATA_PORT _) as [[raw s4]|]; [|done]. intros ->. apply ring_count_run, Hok3. }
  mstep Hr. destruct (Z.ltb_spec 0 (Z.of_nat (length (keys s3)))) as [Hc3|Hc3].
  - left. destruct (pop_key s3 Hok3 Hc3) as (k&s4&H4&Hok4&Hq4&Hk). exists k, s4. eauto 10 using calm_trans.
  - right. exists s3. eauto using calm_trans.
Qed.
Lemma calm_fields s s' : calm s s' -> k_handlers s' = k_handlers s /\ g_ticks (k_irq s') = g_ticks (k_irq s) /\
  cpu_if (q_io (k_irq s')) = cpu_if (q_io (k_irq s)) /\ g_timer_initialized (k_irq s') = g_timer_initialized (k_irq s) /\
  cpu_left (q_io (k_irq s')) = cpu_left (q_io (k_irq s)).
Proof. intros ((?&?&?&?&?)&?&?&?). done. Qed.

(** With interrupts and the timer: a key, or none once the deadline has passed, as soon as the task runs again. *)
Lemma get_key_loop_run n : forall deadline s, kbd_ok s -> timer_registered (k_handlers s) ->
  cpu_if (q_io (k_irq s)) = true -> g_timer_initialized (k_irq s) = true -> 0 <= g_ticks (k_irq s) <= deadline + cpu_over -> deadline + cpu_over < 2 ^ 64 ->
  (Z.to_nat (deadline - g_ticks (k_irq s)) * S cpu_bound + cpu_left (q_io (k_irq s)) + ser_bound < n)%nat ->
  exists k s', get_key_loop n deadline s = Some (k, s') /\ kbd_ok s' /\ result_ok k /\
    g_ticks (k_irq s) <= g_ticks (k_irq s') <= deadline + cpu_over /\ (k = 0 -> deadline <= g_ticks (k_irq s')).
Proof.
  induction n as [|n IH]; intros deadline s Hok Hr Hif Hti Ht Hd Hn; [lia|]. pose proof cpu_over_0 as Hov.
  change (get_key_loop (S n) deadline) with (round (S n) (s <~ mget ;;
    if cpu_if (q_io (k_irq s)) && g_timer_initialized (k_irq s) then
      if deadline <=? g_ticks (k_irq s) then return 0 else wait_interrupts ;;; get_key_loop n deadline
    else waits (Z.to_nat 50000) ;;; c <~ ring_count ;; if 0 <? c then ring_pop else return 0)).
  match goal with |- context [round _ ?r] => destruct (round_run (S n) r s Hok) as [(k&s1&H1&Hok1&Hq1&Hk)|(s1&H1&Hok1&Hq1)]; [lia|..] end;
    rewrite H1; destruct (calm_fields _ _ Hq1) as (Hh1&Ht1&Hi1&Hti1&Hl1).
  { exists k, s1. rewrite Ht1. split; [done|]. split; [done|]. split; [by right|]. split; [lia|]. intros ->. unfold key_ok in Hk. lia. }
  unfold mget, mbind_ at 1. cbn [fst snd]. rewrite Hi1, Hif, Hti1, Hti. cbn [andb]. destruct (Z.leb_spec deadline (g_ticks (k_irq s1))).
  { exists 0, s1. split; [done|]. split; [done|]. split; [by left|]. lia. }
  destruct (kwait_run s1 Hok1) as (s2&H2&Hok2&Hh2&_&_&Hti2&Hi2&Ht2); [by rewrite Hh1|]. mstep H2.
  rewrite Hi1, Hif in *. rewrite Ht1, Hl1 in Ht2. assert (in_w 64 (g_ticks (k_irq s))) as Hw by (unfold in_w; lia). specialize (Ht2 Hw).
  assert (g_ticks (k_irq s) + 1 <= g_ticks (k_irq s2) <= g_ticks (k_irq s) + 1 + cpu_over \/ g_ticks (k_irq s2) = g_ticks (k_irq s) /\ (cpu_left (q_io (k_irq s2)) < cpu_left (q_io (k_irq s)))%nat) as Hc.
  { destruct Ht2 as [Ht2|]; [left|by right]. destruct (later_at _ _ _ _ Hw Ht2) as (e&He&->&_). unfold u64. rewrite wrap_small; unfold in_w; lia. }
  pose proof (cpu_left_bound (q_io (k_irq s2))).
  destruct (IH deadline s2) as (k&s3&H3&Hok3&Hk&Hb&Hz); [done|by rewrite Hh2, Hh1|done|by rewrite Hti2, Hti1|lia|done| |].
  { destruct Hc as [Hc|[Hc ?]]; [|rewrite Hc; lia]. assert (Z.to_nat (deadline - g_ticks (k_irq s2)) <= Z.to_nat (deadline - g_ticks (k_irq s)) - 1 /\ 1 <= Z.to_nat (deadline - g_ticks (k_irq s)))%nat by lia. nia. }
  exists k, s3. split; [done|]. split; [done|]. split; [done|]. split; [lia|done].
Qed.
End GetKey.

Section GetKeyEnds.
Context `{!SerialTicks R}.
(** With interrupts disabled one round is made. *)
Lemma get_key_loop_off n deadline s : kbd_ok s -> timer_registered (k_handlers s) -> cpu_if (q_io (k_irq s)) = false -> (ser_bound <= n)%nat ->
  exists k s', get_key_loop (S n) deadline s = Some (k, s') /\ kbd_ok s' /\ result_ok k /\ g_ticks (k_irq s') = g_ticks (k_irq s).
Proof.
  intros Hok Hr Hif Hn.
  change (get_key_loop (S n) deadline) with (round (S n) (s <~ mget ;;
    if cpu_if (q_io (k_irq s)) && g_timer_initialized (k_irq s) then
      if deadline <=? g_ticks (k_irq s) then return 0 else wait_interrupts ;;; get_key_loop n deadline
    else waits (Z.to_nat 50000) ;;; c <~ ring_count ;; if 0 <? c then ring_pop else return 0)).
  match goal with |- context [round _ ?r] => destruct (round_run (S n) r s Hok) as [(k&s1&H1&Hok1&Hq1&Hk)|(s1&H1&Hok1&Hq1)]; [lia|..] end;
    rewrite H1; destruct (calm_fields _ _ Hq1) as (Hh1&Ht1&Hi1&Hti1&Hl1).
  { exists k, s1. rewrite Ht1. split; [done|]. split; [done|]. split; [by right|done]. }
  unfold mget, mbind_ at 1. cbn [fst snd]. rewrite Hi1, Hif. cbn [andb].
  destruct (waits_run (Z.to_nat 50000) s1 Hok1) as (s2&H2&Hok2&Ht2); [by rewrite Hh1|]. mstep H2. rewrite Hi1, Ht1 in Ht2.
  mstep (ring_count_run s2 (proj1 Hok2)). destruct (Z.ltb_spec 0 (Z.of_nat (length (keys s2)))) as [Hc|Hc].
  - destruct (pop_key s2 Hok2 Hc) as (k&s3&H3&Hok3&Hq3&Hk). exists k, s3. destruct (calm_fields _ _ Hq3) as (_&Ht3&_).
    split; [done|]. split; [done|]. split; [by right|]. by rewrite Ht3, Ht2.
  - exists 0, s2. split; [done|]. split; [done|]. split; [by left|auto].
Qed.

(** C31: reading a key ends with a key or 0 and keeps the types.  With interrupts enabled, 0 is returned only when the timeout has passed, and the call
    returns at most [cpu_over] ticks after it, those that other tasks may take before the reader runs again.  With interrupts disabled, as in the
    get_key system call, it returns after one look at the devices and no time passes, whatever the timeout.  The serial line is taken to have a
    bounded number of bytes ready at a time ([SerialTicks]). *)
Theorem ps2_get_key_ends n timeout s : kbd_ok s -> timer_registered (k_handlers s) -> g_initialized s = true ->
  0 <= timeout -> 0 <= g_ticks (k_irq s) -> g_ticks (k_irq s) + timeout * 100 / 1000 + cpu_over < 2 ^ 64 ->
  (rounds (timeout * 100 / 1000) + ser_bound < n)%nat ->
  (cpu_if (q_io (k_irq s)) = true -> g_timer_initialized (k_irq s) = true ->
    exists k s', ps2_get_key_timeout n timeout s = Some (k, s') /\ kbd_ok s' /\ (k = 0 \/ key_ok k) /\
      g_ticks (k_irq s) <= g_ticks (k_irq s') <= g_ticks (k_irq s) + timeout * 100 / 1000 + cpu_over /\
      (k = 0 -> g_ticks (k_irq s) + timeout * 100 / 1000 <= g_ticks (k_irq s'))) /\
  (cpu_if (q_io (k_irq s)) = false ->
    exists k s', ps2_get_key_timeout n timeout s = Some (k, s') /\ kbd_ok s' /\ (k = 0 \/ key_ok k) /\ g_ticks (k_irq s') = g_ticks (k_irq s)).
Proof.
  intros Hok Hr Hini Ht0 Hw Hd Hn. pose proof cpu_over_0 as Hov. assert (0 <= timeout * 100 / 1000) as Hp by (apply Z.div_pos; lia).
  unfold rounds in Hn. destruct (runs_poll n s ltac:(lia) Hok) as ([]&s1&H1&Hok1&Hq1&_). destruct (calm_fields _ _ Hq1) as (Hh1&Ht1&Hi1&Hti1&Hl1).
  assert (exists k s', (0 < Z.of_nat (length (keys s1)) -> ring_pop s1 = Some (k, s') /\ kbd_ok s' /\ g_ticks (k_irq s') = g_ticks (k_irq s) /\ key_ok k)) as (kp&sp&Hpop).
  { destruct (decide (0 < Z.of_nat (length (keys s1)))) as [Hc|Hc]; [|by exists 0, s].
    destruct (pop_key s1 Hok1 Hc) as (k&s2&H2&Hok2&Hq2&Hk). exists k, s2. intros _. destruct (calm_fields _ _ Hq2) as (_&->&_). done. }
  assert (ps2_get_key_timeout n timeout s = if 0 <? Z.of_nat (length (keys s1)) then ring_pop s1 else
    get_key_loop n (if g_timer_initialized (k_irq s) then u64 (g_ticks (k_irq s) + timeout * 100 / 1000) else 0) s1) as ->.
  { unfold ps2_get_key_timeout, mget, mbind_ at 1. cbn [fst snd]. rewrite Hini. cbn [negb]. mstep H1. mstep (ring_count_run s1 (proj1 Hok1)).
    destruct (0 <? _); [done|]. unfold mbind_ at 1. cbn [fst snd]. by rewrite Hti1, Ht1. }
  destruct (Z.ltb_spec 0 (Z.of_nat (length (keys s1)))) as [Hc|Hc].
  { destruct (Hpop Hc) as (Hps&Hpo&Hpt&Hpk). split; intros Hif.
    - intros _. exists kp, sp. rewrite Hpt. split; [done|]. split; [done|]. split; [by right|]. split; [lia|]. intros ->. unfold key_ok in Hpk. lia.
    - exists kp, sp. split; [done|]. split; [done|]. split; [by right|done]. }
  split; intros Hif.
  - intros Hti. rewrite Hti. unfold u64. rewrite wrap_small by (unfold in_w; lia).
    destruct (get_key_loop_run n (g_ticks (k_irq s) + timeout * 100 / 1000) s1) as (k&s2&H2&Hok2&Hk&Hb&Hz);
      [done|by rewrite Hh1|by rewrite Hi1|by rewrite Hti1|lia|done|rewrite Ht1; pose proof (cpu_left_bound (q_io (k_irq s1))); replace (g_ticks (k_irq s) + timeout * 100 / 1000 - g_ticks (k_irq s)) with (timeout * 100 / 1000) by lia; lia|].
    exists k, s2. rewrite Ht1 in Hb. done.
  - destruct n as [|n]; [lia|].
    match goal with |- context [get_key_loop (S n) ?d] => destruct (get_key_loop_off n d s1) as (k&s2&H2&Hok2&Hk&Ht2);
      [done|by rewrite Hh1|by rewrite Hi1|lia|] end.
    exists k, s2. rewrite Ht2, Ht1. done.
Qed.

(** C32: whatever scancodes, terminal bytes and interrupts arrive in whatever order, the driver never faults (no index leaves the ring or the 128-entry
    tables) and stays well typed: ring indices below 256, modifiers and the parser's number a byte, and only key codes from 1 to 0x95 in the ring, so
    that a pop returns 0 exactly when the ring is empty. *)
Theorem ps2_driver_types s : kbd_ok s -> timer_registered (k_handlers s) ->
  (forall sc, byte_ok sc -> exists s', ps2_process_scancode sc s = Some (tt, s') /\ kbd_ok s') /\
  (forall c, exists s', serial_byte c s = Some (tt, s') /\ kbd_ok s') /\
  (forall n, (ser_bound <= n)%nat -> exists s', serial_poll_input n s = Some (tt, s') /\ kbd_ok s') /\
  (forall vector, byte_ok vector -> exists s', isr_common_handler k_handlers kbd_handler vector s = Some (tt, s') /\ kbd_ok s') /\
  (exists k s', ring_pop s = Some (k, s') /\ kbd_ok s' /\ (k = 0 <-> keys s = []) /\ (k = 0 \/ key_ok k)).
Proof.
  intros Hok Hr. assert (forall c : M (kbd R) unit, runs c any s -> exists s', c s = Some (tt, s') /\ kbd_ok s') as Hrun.
  { intros c Hc. destruct (Hc Hok) as ([]&s'&Hs&Hok'&_). eauto. }
  split; [|split; [|split; [|split]]].
  - intros sc Hsc. by apply Hrun, runs_scancode.
  - intros c. apply Hrun, runs_serial_byte.
  - intros n Hn. by apply Hrun, runs_poll.
  - intros v Hv. destruct (kisr_run v s Hok Hr Hv) as (s'&Hs&Hok'&_). eauto.
  - destruct (runs_pop s Hok) as (k&s'&Hs&Hok'&_&Hk). exists k, s'. split; [done|]. split; [done|]. split; [|done].
    destruct (ring_pop_run s (proj1 Hok)) as (v&s2&H2&_&_&Hv). rewrite Hs in H2. injection H2 as <- <-.
    destruct Hok as (_&Hks&_). destruct (keys s) as [|k0 q]; [destruct Hv; subst; done|].
    destruct Hv as [-> _]. apply Forall_cons in Hks as [Hk0 _]. unfold key_ok in Hk0. split; [lia|done].
Qed.
End GetKeyEnds.
End Types.

(** A machine without devices, with the keyboard started. *)
Definition kbd0 (b : bool) : kbd bool :=
  Kbd (replicate 256 0) 0 0 0 false SER_STATE_GROUND 0 0 0 true None
    (Irqs 5 true 100 (<[ 33%nat := Some KEYBOARD ]> (<[ 32%nat := Some TIMER ]> isr_init)) b).
#[global] Instance idle_serial : SerialTicks bool.
Proof. refine {| ser_bound := 0; ser_left := fun _ => 0%nat |}; done || (intros; lia). Defined.
Definition after (c : M (kbd bool) unit) (s : kbd bool) : kbd bool := match c s with Some (_, s') => s' | None => s end.
Lemma kbd0_ring b : kring_ok (kbd0 b).
Proof. split; [done|]. cbn. lia. Qed.
Lemma kbd0_ok b : kbd_ok (kbd0 b).
Proof. split; [apply kbd0_ring|]. split; [constructor|]. split; vm_compute; intuition congruence. Qed.
Lemma kbd0_registered b : timer_registered (k_handlers (kbd0 b)).
Proof.
  split; [done|]. split; [done|]. intros v Hv. cbn [kbd0 k_handlers k_irq g_handlers]. destruct (decide (v = 33)) as [->|]; [done|].
  rewrite (zget_insert_ne _ 33 v), (zget_insert_ne isr_init 32 v) by lia. intros H%zget_Some. destruct H as [_ H]. apply lookup_replicate in H as [? _]. done.
Qed.
Lemma ring_interleaved_witness :
  let c := Config (after (ring_push 98) (after (ring_push 97) (kbd0 true))) Found [97; 98] [] in
  rtc ring_step (Config (kbd0 true) Idle [] []) c /\ c_in c = c_out c ++ keys (c_kbd c).
Proof.
  intros c. assert (rtc ring_step (Config (kbd0 true) Idle [] []) c) as Hs.
  { eapply rtc_l; [apply (step_isr (kbd0 true) (after (ring_push 97) (kbd0 true)) Idle [] [] 97); [vm_compute; intuition congruence|reflexivity]|].
    eapply rtc_l; [apply step_found; done|].
    eapply rtc_l; [apply (step_isr _ (after (ring_push 98) (after (ring_push 97) (kbd0 true))) Found _ [] 98); [vm_compute; intuition congruence|reflexivity]|].
    apply rtc_refl. }
  split; [exact Hs|]. apply (ring_interleaved (kbd0 true) c); [apply kbd0_ring|reflexivity|exact Hs].
Defined.
(** The key that a polling reader stores is lost when an interrupt pushes before the reader moves the head. *)
Lemma poll_push_loses : exists s1 s2 s3,
  push_store 97 (kbd0 true) = Some (tt, s1) /\ ring_push 98 s1 = Some (tt, s2) /\ push_move 1 s2 = Some (tt, s3) /\ keys s3 = [98].
Proof.
  set (s1 := after (push_store 97) (kbd0 true)). set (s2 := after (ring_push 98) s1). exists s1, s2, (after (push_move 1) s2).
  split; [vm_compute; reflexivity|]. split; [vm_compute; reflexivity|]. split; vm_compute; reflexivity.
Qed.
Lemma ps2_get_key_ends_witness : (exists k s', ps2_get_key_timeout 8 50 (kbd0 true) = Some (k, s') /\ (k = 0 -> 10 <= g_ticks (k_irq s')) /\ g_ticks (k_irq s') <= 11) /\
  (exists k s', ps2_get_key_timeout 8 50 (kbd0 false) = Some (k, s') /\ g_ticks (k_irq s') = 5).
Proof.
  split.
  - destruct (ps2_get_key_ends 8 50 (kbd0 true)) as [H _]; [apply kbd0_ok|apply kbd0_registered|done|lia|cbn; lia|reflexivity|vm_compute; lia|].
    destruct (H eq_refl eq_refl) as (k&s'&Hs&_&_&[_ Hb]&Hk). exists k, s'. split; [exact Hs|]. split; [exact Hk|exact Hb].
  - destruct (ps2_get_key_ends 8 50 (kbd0 false)) as [_ H]; [apply kbd0_ok|apply kbd0_registered|done|lia|cbn; lia|reflexivity|vm_compute; lia|].
    destruct (H eq_refl) as (k&s'&Hs&_&_&Hk). exists k, s'. split; [exact Hs|exact Hk].
Defined.
Lemma ps2_driver_types_witness : exists s', ps2_process_scancode 0x1E (kbd0 true) = Some (tt, s') /\ kbd_ok s'.
Proof.
  destruct (ps2_driver_types (kbd0 true) (kbd0_ok true) (kbd0_registered true)) as [H _]. apply (H 0x1E). split; lia.
Defined.
