(* ===== verification/Ps2Keys.v ===== *)
(** * The keyboard: what is typed is what is queued, and how the controller is started

    The escape sequences of a terminal and the scancodes of the keyboard layout against the keys queued, and the commands
    written to the controller on any hardware. *)

From Stdlib Require Import String Ascii.
From stdpp Require Import base numbers list sets options.
From S2P Require Import Prelude Ports Irq IrqSpec Ps2 Ps2Spec.
#[local] Set Default Proof Using "Type*".

(** ** What a terminal sends is what is read

    The codes an ANSI terminal sends for its keys. *)
Definition esc_table : list (Z * list Z) :=
  [(PS2_KEY_ENTER, [13]); (PS2_KEY_TAB, [9]); (PS2_KEY_BACKSPACE, [127])] ++
  ((fun e => (e.1, 27 :: 91 :: chars e.2)) <$>
   [(PS2_KEY_UP, "A"); (PS2_KEY_DOWN, "B"); (PS2_KEY_RIGHT, "C"); (PS2_KEY_LEFT, "D"); (PS2_KEY_HOME, "H"); (PS2_KEY_END, "F");
    (PS2_KEY_INSERT, "2~"); (PS2_KEY_DELETE, "3~"); (PS2_KEY_PAGE_UP, "5~"); (PS2_KEY_PAGE_DOWN, "6~");
    (PS2_KEY_F 1, "11~"); (PS2_KEY_F 2, "12~"); (PS2_KEY_F 3, "13~"); (PS2_KEY_F 4, "14~"); (PS2_KEY_F 5, "15~"); (PS2_KEY_F 6, "17~");
    (PS2_KEY_F 7, "18~"); (PS2_KEY_F 8, "19~"); (PS2_KEY_F 9, "20~"); (PS2_KEY_F 10, "21~"); (PS2_KEY_F 11, "23~"); (PS2_KEY_F 12, "24~")]%string).
Definition term_seq (k : Z) : option (list Z) :=
  if printable k then Some [k] else match list_find (fun e => e.1 = k) esc_table with Some (_, e) => Some e.2 | None => None end.

(** A serial port that delivers the bytes of a list. *)
#[global] Instance script_ports : Ports (list Z) := {
  bus_in8 := fun p r => if p =? 0x3FD then (if decide (r = []) then 0 else 1, r) else if p =? 0x3F8 then (hd 0 r, tl r) else (0, r);
  bus_out8 := fun _ _ r => r; bus_in16 := fun _ r => (0, r); bus_out16 := fun _ _ r => r }.
#[global] Instance script_cpu : Cpu (list Z) := {
  cpu_if := fun _ => false; cpu_wait := fun r => ([], r); vga_tick := fun r => r; scheduler_tick := fun r => (0, r); other_handler := fun _ r => r }.
#[global] Instance script_ticks : CpuTicks (list Z).
Proof. refine {| cpu_bound := 0; cpu_left := fun _ => 0%nat; cpu_away := 0; cpu_over := 0 |}; done. Defined.

Section Terminal.
Implicit Types s : kbd (list Z).
Definition with_io (r : list Z) s : kbd (list Z) := set_irq (set_q_io r (k_irq s)) s.
Definition COM1 : Z := 0x3F8.

Lemma loop_end n s : q_io (k_irq s) = [] -> serial_loop n COM1 s = Some (tt, s).
Proof.
  intros Hio. destruct s as [? ? ? ? ? ? ? ? ? ? ? [? ? ? ? r]]. cbn in Hio. subst r.
  destruct n; cbn [serial_loop]; unfold serial_data_available, mbind_ at 1 2, inb; cbn; done.
Qed.
Lemma loop_byte n b r s s' : q_io (k_irq s) = b :: r -> 0 <= b < 128 -> serial_byte b (with_io r s) = Some (tt, s') ->
  serial_loop (S n) COM1 s = serial_loop n COM1 s' /\ k_irq s' = k_irq (with_io r s).
Proof.
  intros Hio Hb Hs. split; [|by eapply keeps_serial_byte]. cbn [serial_loop].
  assert (serial_data_available COM1 s = Some (true, s)) as Ha.
  { unfold serial_data_available, mbind_ at 1, inb. cbn. rewrite Hio. destruct s as [? ? ? ? ? ? ? ? ? ? ? []]. cbn in Hio. by subst. }
  mstep Ha. cbn [negb].
  assert (inb COM1 s = Some (b, with_io r s)) as Hc.
  { assert (u8 b = b) as Hu by (unfold u8; apply wrap_small; unfold in_w; lia).
    unfold inb. cbn -[u8]. rewrite Hio. cbn -[u8]. change (u16 COM1) with 0x3F8. cbn -[u8]. by rewrite Hu. }
  mstep Hc. replace (i8 b) with b; [by mstep Hs|]. unfold i8, swrap. rewrite wrap_small by (unfold in_w; lia).
  by rewrite (proj2 (Z.ltb_lt _ _)) by lia.
Qed.

(** After a key's code the parser is at rest and the key is queued. *)
Definition feeds (bs : list Z) (k : Z) : Prop := forall n r s, kring_ok s -> g_ser_state s = SER_STATE_GROUND -> q_io (k_irq s) = bs ++ r ->
  exists s', serial_loop (length bs + n) COM1 s = serial_loop n COM1 s' /\ kring_ok s' /\ g_ser_state s' = SER_STATE_GROUND /\
    q_io (k_irq s') = r /\ keys s' = push_queue k (keys s).
Lemma push_keeps k s : kring_ok s -> byte_ok k ->
  exists s', ring_push k s = Some (tt, s') /\ kring_ok s' /\ keys s' = push_queue k (keys s) /\
    g_ser_state s' = g_ser_state s /\ g_ser_param s' = g_ser_param s /\ k_irq s' = k_irq s.
Proof.
  intros Hr Hk. destruct (ring_push_run k s Hr Hk) as (s'&Hs&Hr'&Hq&Hsame). exists s'. do 3 (split; [done|]). rewrite Hsame. done.
Qed.
Lemma feeds_one b k : 0 <= b < 128 -> byte_ok k -> (forall s, g_ser_state s = SER_STATE_GROUND -> serial_byte b s = ring_push k s) -> feeds [b] k.
Proof.
  intros Hb Hk Hs n r s Hr Hg Hio. destruct (push_keeps k (with_io r s)) as (s'&Hs'&Hr'&Hq&Hg'&_&Hi); [done|done|].
  destruct (loop_byte n b r s s') as [Hl Hi']; [done|done|by rewrite Hs|]. exists s'. split; [done|]. split; [done|].
  split; [by rewrite Hg'|]. by rewrite Hi'.
Qed.
(** The introducer, then the rest. *)
Definition feeds_csi (bs : list Z) (k : Z) : Prop := forall n r s, kring_ok s -> g_ser_state s = SER_STATE_CSI -> q_io (k_irq s) = bs ++ r ->
  exists s', serial_loop (length bs + n) COM1 s = serial_loop n COM1 s' /\ kring_ok s' /\ g_ser_state s' = SER_STATE_GROUND /\
    q_io (k_irq s') = r /\ keys s' = push_queue k (keys s).
Lemma feeds_intro bs k : feeds_csi bs k -> feeds (27 :: 91 :: bs) k.
Proof.
  intros Hc n r s Hr Hg Hio. cbn [length Nat.add].
  destruct (loop_byte (S (length bs + n)) 27 (91 :: bs ++ r) s (set_ser SER_STATE_ESC (g_ser_param s) (with_io (91 :: bs ++ r) s))) as [-> _];
    [done|lia|unfold serial_byte, mget, mbind_; cbn [with_io set_irq g_ser_state fst snd]; by rewrite Hg|].
  match goal with |- context [serial_loop (S ?m) COM1 ?s1 = _] => destruct (loop_byte m 91 (bs ++ r) s1 (set_ser SER_STATE_CSI 0 (with_io (bs ++ r) s1))) as [-> _]; [done|lia|done|] end.
  match goal with |- context [serial_loop _ COM1 ?s1 = _] => destruct (Hc n r s1) as (s'&Hs'&Hr'&Hg'&Hi'&Hq'); [exact Hr|done|done|] end.
  exists s'. done.
Qed.
Lemma feeds_letter c k : 0 <= c < 128 -> byte_ok k -> csi_key c = Some k -> digit c = false -> feeds_csi [c] k.
Proof.
  intros Hc Hk Hck Hd n r s Hr Hg Hio. destruct (push_keeps k (with_io r s)) as (s'&Hs'&Hr'&Hq&Hg'&Hp&Hi); [done|done|].
  destruct (loop_byte n c r s (set_ser SER_STATE_GROUND (g_ser_param s') s')) as [Hl _]; [done|done|..].
  { unfold serial_byte, mget, mbind_ at 1. cbn [with_io set_irq g_ser_state fst snd]. rewrite Hg, Hd, Hck. cbn [push_key]. by mstep Hs'. }
  eexists. split; [exact Hl|]. split; [done|]. split; [done|]. split; [|done]. cbn. by rewrite Hi.
Qed.
Lemma feeds_tilde p k n r s : byte_ok k -> csi_num_key p = Some k -> kring_ok s -> g_ser_state s = SER_STATE_CSI_NUM -> g_ser_param s = p -> q_io (k_irq s) = 126 :: r ->
  exists s', serial_loop (S n) COM1 s = serial_loop n COM1 s' /\ kring_ok s' /\ g_ser_state s' = SER_STATE_GROUND /\
    q_io (k_irq s') = r /\ keys s' = push_queue k (keys s).
Proof.
  intros Hk Hck Hr Hg Hp Hio. destruct (push_keeps k (with_io r s)) as (s'&Hs'&Hr'&Hq&_&_&Hi); [done|done|].
  destruct (loop_byte n 126 r s (set_ser SER_STATE_GROUND (g_ser_param s') s')) as [Hl _]; [done|lia|..].
  { unfold serial_byte, mget, mbind_ at 1. cbn [with_io set_irq g_ser_state g_ser_param fst snd]. rewrite Hg, Hp, Hck. change (digit 126) with false. change (126 =? 126) with true. cbn [push_key]. by mstep Hs'. }
  eexists. split; [exact Hl|]. split; [done|]. split; [done|]. split; [|done]. cbn. by rewrite Hi.
Qed.
Lemma digit_true d : 0 <= d <= 9 -> digit (48 + d) = true.
Proof. unfold digit. lia. Qed.
Lemma feeds_number1 d k : 0 <= d <= 9 -> byte_ok k -> csi_num_key d = Some k -> feeds_csi [48 + d; 126] k.
Proof.
  intros Hd Hk Hck n r s Hr Hg Hio.
  destruct (loop_byte (S n) (48 + d) (126 :: r) s (set_ser SER_STATE_CSI_NUM d (with_io (126 :: r) s))) as [Hl _]; [done|lia|..].
  { unfold serial_byte, mget, mbind_ at 1. cbn [with_io set_irq g_ser_state fst snd]. rewrite Hg, digit_true by done.
    replace (48 + d - 48) with d by lia. unfold u8. rewrite wrap_small by (unfold in_w; lia). done. }
  cbn [length Nat.add]. rewrite Hl. match goal with |- context [serial_loop _ COM1 ?s1 = _] => destruct (feeds_tilde (d) k n r s1) as (s'&Hs'&Hr'&Hg'&Hi'&Hq'); [done|done|exact Hr|done..|] end.
  exists s'. done.
Qed.
Lemma feeds_number2 d e k : 0 <= d <= 9 -> 0 <= e <= 9 -> byte_ok k -> csi_num_key (d * 10 + e) = Some k -> feeds_csi [48 + d; 48 + e; 126] k.
Proof.
  intros Hd He Hk Hck n r s Hr Hg Hio.
  destruct (loop_byte (S (S n)) (48 + d) (48 + e :: 126 :: r) s (set_ser SER_STATE_CSI_NUM d (with_io (48 + e :: 126 :: r) s))) as [Hl _]; [done|lia|..].
  { unfold serial_byte, mget, mbind_ at 1. cbn [with_io set_irq g_ser_state fst snd]. rewrite Hg, digit_true by done.
    replace (48 + d - 48) with d by lia. unfold u8. rewrite wrap_small by (unfold in_w; lia). done. }
  cbn [length Nat.add]. rewrite Hl.
  match goal with |- context [serial_loop _ COM1 ?s1 = _] => destruct (loop_byte (S n) (48 + e) (126 :: r) s1 (set_ser SER_STATE_CSI_NUM (d * 10 + e) (with_io (126 :: r) s1))) as [Hl2 _]; [done|lia|..] end.
  { unfold serial_byte, mget, mbind_ at 1. cbn [with_io set_irq set_ser g_ser_state g_ser_param fst snd]. rewrite digit_true by done.
    replace (48 + e - 48) with e by lia. unfold u8. rewrite (wrap_small 8 e), wrap_small by (unfold in_w; lia). done. }
  rewrite Hl2. match goal with |- context [serial_loop _ COM1 ?s1 = _] => destruct (feeds_tilde (d * 10 + e) k n r s1) as (s'&Hs'&Hr'&Hg'&Hi'&Hq'); [done|done|exact Hr|done..|] end.
  exists s'. done.
Qed.

Lemma printable_feeds k : printable k = true -> feeds [k] k.
Proof.
  intros Hp. unfold printable in Hp. apply feeds_one; [lia|unfold byte_ok; lia|]. intros s Hg. unfold serial_byte, mget, mbind_. cbn [fst snd].
  rewrite Hg. unfold printable. rewrite Hp. repeat (match goal with |- context [k =? ?c] => destruct (Z.eqb_spec k c); [lia|] end). done.
Qed.
Lemma table_feeds : Forall (fun e => feeds e.2 e.1) esc_table.
Proof.
  assert (forall k, byte_ok k -> forall b, In (b, k) [(13, PS2_KEY_ENTER); (9, PS2_KEY_TAB); (127, PS2_KEY_BACKSPACE)] -> feeds [b] k) as H1.
  { intros k Hk b Hin. apply feeds_one; [destruct Hin as [E|[E|[E|[]]]]; injection E; lia|done|]. intros s Hg.
    unfold serial_byte, mget, mbind_. cbn [fst snd]. rewrite Hg. by destruct Hin as [[= <- <-]|[[= <- <-]|[[= <- <-]|[]]]]. }
  repeat (apply Forall_cons; split; [cbn [fst snd]|]); [..|apply Forall_nil; done].
  1-3: apply H1; [vm_compute; intuition congruence|vm_compute; intuition congruence].
  all: apply feeds_intro; first
    [ apply feeds_letter; (done || lia || (vm_compute; intuition congruence))
    | match goal with |- feeds_csi ?l ?k => let l' := eval vm_compute in l in
        match l' with
        | [?a; 126] => let d := eval vm_compute in (a - 48) in apply (feeds_number1 d k); (done || lia || (vm_compute; intuition congruence))
        | [?a; ?b; 126] => let d := eval vm_compute in (a - 48) in let e := eval vm_compute in (b - 48) in
            apply (feeds_number2 d e k); (done || lia || (vm_compute; intuition congruence))
        end end ].
Qed.
Lemma term_seq_feeds k bs : term_seq k = Some bs -> feeds bs k.
Proof.
  unfold term_seq. destruct (printable k) eqn:Hp; [intros [= <-]; by apply printable_feeds|].
  destruct (list_find _ esc_table) as [[i e]|] eqn:E; [|done]. intros [= <-]. apply list_find_Some in E as (He&<-&_).
  exact (Forall_lookup_1 _ _ _ _ table_feeds He).
Qed.
Lemma keys_length s : kring_ok s -> (length (keys s) <= 255)%nat.
Proof. intros (Hl&Hh&Ht). unfold keys, ring_keys. rewrite length_fmap, length_seqZ. pose proof (Z.mod_pos_bound (g_ring_head s - g_ring_tail s) 256). lia. Qed.
Lemma feed_keys ks : forall bss s n, kring_ok s -> g_ser_state s = SER_STATE_GROUND -> Forall2 (fun k bs => term_seq k = Some bs) ks bss ->
  q_io (k_irq s) = mjoin bss -> (length (mjoin bss) <= n)%nat ->
  exists s', serial_loop n COM1 s = Some (tt, s') /\ g_ser_state s' = SER_STATE_GROUND /\ q_io (k_irq s') = [] /\ keys s' = take 255 (keys s ++ ks).
Proof.
  induction ks as [|k ks IH]; intros bss s n Hr Hg Hf Hio Hn; pose proof (keys_length s Hr) as Hlen.
  - apply Forall2_nil_inv_l in Hf as ->. exists s. rewrite app_nil_r, take_ge by done. split; [by apply loop_end|done].
  - apply Forall2_cons_inv_l in Hf as (bs&bss'&Hk&Hf&->). change (mjoin (bs :: bss')) with (bs ++ mjoin bss') in *. rewrite length_app in Hn.
    replace n with (length bs + (n - length bs))%nat by lia.
    destruct (term_seq_feeds k bs Hk (n - length bs)%nat (mjoin bss') s Hr Hg Hio) as (s1&Hs1&Hr1&Hg1&Hi1&Hk1). rewrite Hs1.
    destruct (IH bss' s1 (n - length bs)%nat) as (s2&Hs2&Hg2&Hi2&Hk2); [done|done|done|done|lia|].
    exists s2. rewrite Hk2, Hk1. do 3 (split; [done|]). unfold push_queue. case_decide as Hfull; [|by rewrite <-app_assoc].
    by rewrite !take_app_le by lia.
Qed.

(** C33: an ANSI terminal sends printable characters, Enter, Tab and Backspace as bytes, and the arrows, Home, End, Insert, Delete, paging and F1 to
    F12 as the escape sequences of [esc_table].  When a sequence of those keys waits on the serial line, the parser at rest, one poll of the line
    returns, has read every byte, is at rest again, and has queued exactly those keys in order behind the keys that waited, up to the 255 that
    the ring holds; later ones are dropped. *)
Theorem terminal_keys_roundtrip ks bss s n : kring_ok s -> g_ser_state s = SER_STATE_GROUND -> k_serial s = Some COM1 ->
  Forall2 (fun k bs => term_seq k = Some bs) ks bss -> q_io (k_irq s) = mjoin bss -> (length (mjoin bss) <= n)%nat ->
  exists s', serial_poll_input n s = Some (tt, s') /\ keys s' = take 255 (keys s ++ ks) /\ q_io (k_irq s') = [] /\ g_ser_state s' = SER_STATE_GROUND.
Proof.
  intros Hr Hg Hs Hf Hio Hn. destruct (feed_keys ks bss s n Hr Hg Hf Hio Hn) as (s'&Hl&Hg'&Hi'&Hk').
  exists s'. unfold serial_poll_input, mget, mbind_ at 1. cbn [fst snd]. rewrite Hs. done.
Qed.
End Terminal.

(** ** The keyboard layout

    For a character, whether Shift is held and the key that is struck. *)
Definition stroke (c : Z) : option (bool * Z) :=
  match list_find (fun k => k = c) sc1_unshifted with
  | Some (i, _) => Some (false, Z.of_nat i)
  | None => match list_find (fun k => k = c) sc1_shifted with Some (i, _) => Some (true, Z.of_nat i) | None => None end
  end.
(** The scancodes sent: make and break, between those of the left Shift. *)
Definition type_char (c : Z) : list Z :=
  match stroke c with
  | Some (false, i) => [i; i + 128]
  | Some (true, i) => [0x2A; i; i + 128; 0xAA]
  | None => []
  end.
Definition plain (i : Z) : bool := (0 <=? i) && (i <? 0x60) && negb (existsb (Z.eqb i) [0x2A; 0x36; 0x1D; 0x38; 0x3A]).
Definition shift_mods (sh : bool) : Z := if sh then PS2_MOD_LSHIFT else 0.
Lemma strokes_plain : forallb (fun c => match stroke c with
  | Some (sh, i) => plain i && bool_decide (zget (if sh then sc1_shifted else sc1_unshifted) i = Some c) | None => false end) (seqZ 0x20 95) = true.
Proof. vm_compute. reflexivity. Qed.
Lemma stroke_printable c : printable c = true ->
  exists sh i, stroke c = Some (sh, i) /\ plain i = true /\ zget (if sh then sc1_shifted else sc1_unshifted) i = Some c.
Proof.
  intros Hc. assert (In c (seqZ 0x20 95)) as Hin by (apply list_elem_of_In, elem_of_seqZ; unfold printable in Hc; lia).
  pose proof (proj1 (forallb_forall _ _) strokes_plain c Hin) as H. cbn beta in H. destruct (stroke c) as [[sh i]|]; [|done].
  apply andb_true_iff in H as [H1 H2%bool_decide_eq_true]. eauto.
Qed.

Section Layout.
Context {R : Type} `{!Ports R} `{!Cpu R}.
Implicit Types s : kbd R.
Fixpoint process_all (l : list Z) : M (kbd R) unit := match l with [] => return tt | sc :: l' => ps2_process_scancode sc ;;; process_all l' end.
Lemma process_app l l' s s1 : process_all l s = Some (tt, s1) -> process_all (l ++ l') s = process_all l' s1.
Proof.
  revert s. induction l as [|sc l IH]; intros s H; [by injection H as ->|]. cbn [process_all app] in *.
  apply mbind_inv in H as ([]&s2&H1&H2). mstep H1. by apply IH.
Qed.
(** At rest but for Shift. *)
Definition at_rest (sh : bool) s : Prop := g_modifiers s = shift_mods sh /\ g_extended s = false.
Lemma plain_codes i : plain i = true -> 0 <= i < 96 /\ i <> 0x2A /\ i <> 0x36 /\ i <> 0x1D /\ i <> 0x38 /\ i <> 0x3A.
Proof. unfold plain. cbn [existsb]. intros H. lia. Qed.
Lemma code_low i : 0 <= i < 128 -> Z.land i 0x7F = i /\ Z.land i 0x80 = 0 /\ Z.land (i + 128) 0x7F = i /\ Z.land (i + 128) 0x80 = 128.
Proof.
  intros Hi. enough (forallb (fun i => (Z.land i 0x7F =? i) && (Z.land i 0x80 =? 0) && (Z.land (i + 128) 0x7F =? i) && (Z.land (i + 128) 0x80 =? 128)) (seqZ 0 128) = true) as H.
  { assert (In i (seqZ 0 128)) as Hin by (apply list_elem_of_In, elem_of_seqZ; lia). pose proof (proj1 (forallb_forall _ _) H i Hin) as H'. cbn beta in H'. lia. }
  vm_compute. reflexivity.
Qed.
Ltac no_eqb := repeat (match goal with |- context [?a =? ?b] => rewrite (proj2 (Z.eqb_neq a b)) by lia end).
Lemma press sh i c s : plain i = true -> kring_ok s -> at_rest sh s -> zget (if sh then sc1_shifted else sc1_unshifted) i = Some c -> printable c = true ->
  exists s', ps2_process_scancode i s = Some (tt, s') /\ kring_ok s' /\ at_rest sh s' /\ keys s' = push_queue c (keys s).
Proof.
  intros Hp Hr [Hm He] Hc Hpr. apply plain_codes in Hp as (Hi&Hn1&Hn2&Hn3&Hn4&Hn5). destruct (code_low i) as (H1&H2&_); [lia|].
  unfold printable in Hpr. destruct (ring_push_run c s Hr) as (s1&Hs1&Hr1&Hk1&Hsame); [unfold byte_ok; lia|].
  assert (scancode_to_ascii i s = Some (c, s)) as Ha.
  { unfold scancode_to_ascii, mget, mbind_ at 1. cbn [fst snd]. rewrite (proj2 (Z.leb_gt 128 i)) by lia. rewrite Hm.
    replace (negb (Z.land (shift_mods sh) PS2_MOD_SHIFT =? 0)) with sh by (by destruct sh).
    replace (negb (Z.land (shift_mods sh) PS2_MOD_CTRL =? 0)) with false by (by destruct sh).
    replace (negb (Z.land (shift_mods sh) PS2_MOD_CAPSLOCK =? 0)) with false by (by destruct sh).
    rewrite xorb_false_r, Hc. by destruct (is_letter i). }
  exists (set_mods (g_modifiers s1) false s1). unfold ps2_process_scancode. rewrite (proj2 (Z.eqb_neq i 0xE0)) by lia. rewrite H1, H2. cbn [Z.eqb negb].
  unfold ps2_make, mget, mbind_ at 1. cbn [fst snd]. rewrite He. no_eqb. mstep Ha. unfold ps2_decoded. rewrite (proj2 (Z.eqb_neq c 0)) by lia. cbn [negb mwhen].
  mstep Hs1. split; [done|]. split; [done|]. split; [|done]. split; [|done]. cbn. by rewrite Hsame.
Qed.
Lemma release sh i s : plain i = true -> kring_ok s -> at_rest sh s ->
  exists s', ps2_process_scancode (i + 128) s = Some (tt, s') /\ kring_ok s' /\ at_rest sh s' /\ keys s' = keys s.
Proof.
  intros Hp Hr [Hm He]. apply plain_codes in Hp as (Hi&Hn1&Hn2&Hn3&Hn4&Hn5). destruct (code_low i) as (_&_&H1&H2); [lia|].
  unfold ps2_process_scancode. rewrite (proj2 (Z.eqb_neq (i + 128) 0xE0)) by lia. rewrite H1, H2. cbn [Z.eqb negb].
  unfold ps2_break, mget, mbind_ at 1. cbn [fst snd]. rewrite He. no_eqb. exists (set_mods (g_modifiers s) false s).
  split; [done|]. split; [exact Hr|]. split; [|done]. done.
Qed.
Lemma shift_key sh s : kring_ok s -> at_rest sh s ->
  exists s', ps2_process_scancode (if sh then 0xAA else 0x2A) s = Some (tt, s') /\ kring_ok s' /\ at_rest (negb sh) s' /\ keys s' = keys s.
Proof.
  intros Hr [Hm He]. exists (set_mods (shift_mods (negb sh)) false s). split; [|split; [exact Hr|split; done]].
  destruct s. cbn in *. subst. by destruct sh.
Qed.
Lemma type_char_run c s : printable c = true -> kring_ok s -> at_rest false s ->
  exists s', process_all (type_char c) s = Some (tt, s') /\ kring_ok s' /\ at_rest false s' /\ keys s' = push_queue c (keys s).
Proof.
  intros Hc Hr Ha. destruct (stroke_printable c Hc) as (sh&i&Hs&Hp&Hg). unfold type_char. rewrite Hs. destruct sh.
  - destruct (shift_key false s Hr Ha) as (s1&H1&Hr1&Ha1&Hk1). destruct (press true i c s1 Hp Hr1 Ha1 Hg Hc) as (s2&H2&Hr2&Ha2&Hk2).
    destruct (release true i s2 Hp Hr2 Ha2) as (s3&H3&Hr3&Ha3&Hk3). destruct (shift_key true s3 Hr3 Ha3) as (s4&H4&Hr4&Ha4&Hk4).
    cbn [process_all]. mstep H1. mstep H2. mstep H3. mstep H4. exists s4. rewrite Hk4, Hk3, Hk2, Hk1. done.
  - destruct (press false i c s Hp Hr Ha Hg Hc) as (s2&H2&Hr2&Ha2&Hk2). destruct (release false i s2 Hp Hr2 Ha2) as (s3&H3&Hr3&Ha3&Hk3).
    cbn [process_all]. mstep H2. mstep H3. exists s3. by rewrite Hk3, Hk2.
Qed.

(** Whatever text is typed on the keyboard, each character as the make and break codes of its key with the left Shift around it where the
    layout needs it, the driver queues exactly that text and is at rest again, as long as the ring has room. *)
Theorem keyboard_types_text text : forall s, Forall (fun c => printable c = true) text -> kring_ok s -> g_modifiers s = 0 -> g_extended s = false ->
  (length (keys s) + length text <= 255)%nat ->
  exists s', process_all (text ≫= type_char) s = Some (tt, s') /\ keys s' = keys s ++ text /\ g_modifiers s' = 0 /\ g_extended s' = false.
Proof.
  assert (forall s, kring_ok s -> at_rest false s -> Forall (fun c => printable c = true) text -> (length (keys s) + length text <= 255)%nat ->
    exists s', process_all (text ≫= type_char) s = Some (tt, s') /\ keys s' = keys s ++ text /\ at_rest false s') as Hrun.
  { induction text as [|c text IH]; intros s Hr Ha Hf Hroom.
    - exists s. by rewrite app_nil_r.
    - apply Forall_cons in Hf as [Hc Hf]. cbn [length] in Hroom. destruct (type_char_run c s Hc Hr Ha) as (s1&H1&Hr1&Ha1&Hk1).
      unfold push_queue in Hk1. rewrite decide_False in Hk1 by lia.
      destruct (IH s1) as (s2&H2&Hk2&Ha2); [done|done|done|rewrite Hk1, length_app; cbn [length]; lia|].
      exists s2. rewrite bind_cons, (process_app _ _ _ _ H1), Hk2, Hk1, <-app_assoc. done. }
  intros s Hf Hr Hm He Hroom. destruct (Hrun s Hr (conj Hm He) Hf Hroom) as (s'&Hs&Hk&Hm'&He'). eauto.
Qed.
End Layout.

(** ** Starting the controller *)

Section Init.
Implicit Types s : kbd bus.
Definition written s : list (Z * Z) := writes (bus_log (q_io (k_irq s))).
(** [c] returns, having written [w]; the keyboard's own state and the handlers are as before. *)
Definition emits {A} (c : M (kbd bus) A) (w : list (Z * Z)) (Q : A -> Prop) : Prop := forall s,
  exists a s', c s = Some (a, s') /\ written s' = written s ++ w /\ Q a /\ k_handlers s' = k_handlers s /\ exists q, s' = set_irq q s.
Lemma emits_bind {A B} (c : M (kbd bus) A) (k : A -> M (kbd bus) B) w w' P Q :
  emits c w P -> (forall a, P a -> emits (k a) w' Q) -> emits (a <~ c ;; k a) (w ++ w') Q.
Proof.
  intros Hc Hk s. destruct (Hc s) as (a&s1&H1&Hw1&Ha&Hh1&q1&E1). destruct (Hk a Ha s1) as (b&s2&H2&Hw2&Hb&Hh2&q2&E2).
  exists b, s2. mstep H1. split; [done|]. split; [by rewrite Hw2, Hw1, app_assoc|]. split; [done|]. split; [congruence|].
  exists q2. by rewrite E2, E1.
Qed.
Lemma emits_ret {A} (a : A) (Q : A -> Prop) : Q a -> emits (return a) [] Q.
Proof. intros Ha s. exists a, s. rewrite app_nil_r. do 4 (split; [done|]). exists (k_irq s). by destruct s. Qed.
Lemma emits_inb p : emits (inb p) [] byte_ok.
Proof.
  intros s. eexists _, _. split; [reflexivity|]. split; [|split; [apply byte_u8|split; [done|by eexists]]].
  unfold written. cbn. rewrite port_writes_app. done.
Qed.
Lemma emits_outb p v : emits (outb p v) [(u16 p, u8 v)] (fun _ => True).
Proof.
  intros s. eexists _, _. split; [reflexivity|]. split; [|split; [done|split; [done|by eexists]]].
  unfold written. cbn -[u8 u16]. rewrite port_writes_app. done.
Qed.
Lemma emits_seq {A B} (c : M (kbd bus) A) (k : M (kbd bus) B) w w' Q : emits c w (fun _ => True) -> emits k w' Q -> emits (c ;;; k) (w ++ w') Q.
Proof. intros Hc Hk. eapply emits_bind; [exact Hc|]. done. Qed.
Lemma emits_weak {A} (c : M (kbd bus) A) w (P Q : A -> Prop) : emits c w P -> (forall a, P a -> Q a) -> emits c w Q.
Proof. intros Hc HPQ s. destruct (Hc s) as (a&s'&?&?&?&?). eauto 10. Qed.
Lemma emits_status (n : nat) (f : Z -> bool) (loop : nat -> M (kbd bus) bool) :
  (loop 0%nat = return false) -> (forall n, loop (S n) = (st <~ inb PS2_STATUS_PORT ;; if f st then return true else loop n)) ->
  emits (loop n) [] (fun _ => True).
Proof.
  intros H0 HS. induction n as [|n IH]; [rewrite H0; by apply emits_ret|]. rewrite HS. change [] with ([] ++ [] : list (Z * Z)).
  eapply emits_bind; [apply emits_inb|]. intros st _. destruct (f st); [by apply emits_ret|done].
Qed.
Lemma emits_wait_obf t : emits (wait_obf t) [] (fun _ => True).
Proof. unfold wait_obf. by apply (emits_status _ (fun st => negb (Z.land st PS2_STATUS_OBF =? 0)) wait_obf_loop). Qed.
Lemma emits_wait_ibf t : emits (wait_ibf t) [] (fun _ => True).
Proof. unfold wait_ibf. by apply (emits_status _ (fun st => Z.land st PS2_STATUS_IBF =? 0) wait_ibf_loop). Qed.
Lemma emits_command p v : emits (command p v) [(u16 p, u8 v)] (fun _ => True).
Proof. unfold command. apply (emits_seq _ _ []); [apply emits_wait_ibf|apply emits_outb]. Qed.
Lemma emits_response : emits response [] (fun o => byte_ok (default 0 o)).
Proof.
  unfold response. apply (emits_bind _ _ [] [] (fun _ => True)); [apply emits_wait_obf|]. intros [] _; [|by apply emits_ret].
  apply (emits_bind _ _ [] [] byte_ok); [apply emits_inb|]. intros v Hv. by apply emits_ret.
Qed.
Lemma emits_flush : emits flush_output [] (fun _ => True).
Proof. unfold flush_output. apply (emits_seq _ _ [] []); [apply emits_wait_obf|]. apply (emits_seq _ _ [] []); [eapply emits_weak; [apply emits_inb|done]|by apply emits_ret]. Qed.
Lemma emits_any {A} (c : M (kbd bus) A) w P : emits c w P -> emits c w (fun _ => True).
Proof. intros. by eapply emits_weak. Qed.

(** The commands, in order. *)
Definition program_writes (config : Z) : list (Z * Z) :=
  [(0x64, 0xAD); (0x64, 0xA7); (0x64, 0xAA); (0x64, 0xAB); (0x64, 0x20); (0x64, 0x60); (0x60, config); (0x64, 0xAE);
   (0x60, 0xFF); (0x60, 0xF0); (0x60, 0x01); (0x60, 0xF4)].
Lemma config_bits_eq c : byte_ok c -> config_bits c = Z.land c 0x8C.
Proof. intros _. unfold config_bits. rewrite <-!Z.land_assoc. done. Qed.
Lemma ps2_program_run s : exists c s', byte_ok c /\ ps2_program s = Some (config_bits c, s') /\ written s' = written s ++ program_writes (config_bits c) /\
  k_handlers s' = k_handlers s /\ exists q, s' = set_irq q s.
Proof.
  assert (forall c, byte_ok c -> emits (let config := config_bits c in
    command PS2_STATUS_PORT 0x60 ;;; command PS2_DATA_PORT config ;;; command PS2_STATUS_PORT PS2_CMD_ENABLE_KB ;;; flush_output ;;;
    command PS2_DATA_PORT PS2_CMD_RESET ;;; response ;;; response ;;; command PS2_DATA_PORT 0xF0 ;;; response ;;;
    command PS2_DATA_PORT 0x01 ;;; response ;;; command PS2_DATA_PORT PS2_CMD_ENABLE_SCAN ;;; response ;;; return config)
    (drop 5 (program_writes (config_bits c))) (fun x => x = config_bits c)) as Hlast.
  { intros c Hc. cbv zeta. set (cfg := config_bits c). assert (u8 cfg = cfg) as Hu.
    { unfold u8. apply wrap_small. unfold cfg. rewrite config_bits_eq by done. apply (byte_land c 0x8C); [done|vm_compute; intuition congruence]. }
    change (drop 5 (program_writes cfg)) with ([(0x64, 0x60)] ++ [(0x60, cfg)] ++ [(0x64, 0xAE)] ++ [] ++ [(0x60, 0xFF)] ++ [] ++ [] ++ [(0x60, 0xF0)] ++ [] ++
      [(0x60, 0x01)] ++ [] ++ [(0x60, 0xF4)] ++ [] ++ []).
    assert (emits (command PS2_DATA_PORT cfg) [(0x60, cfg)] (fun _ => True)) as Hcfg by (rewrite <-Hu at 2; apply emits_command).
    repeat (apply emits_seq; [first [exact Hcfg|apply emits_command|apply emits_flush|eapply emits_any, emits_response]|]). by apply emits_ret. }
  assert (forall s, exists o s', (inb PS2_DATA_PORT ;;; command PS2_STATUS_PORT PS2_CMD_DISABLE_KB ;;; command PS2_STATUS_PORT 0xA7 ;;; flush_output ;;;
    command PS2_STATUS_PORT 0xAA ;;; response ;;; command PS2_STATUS_PORT 0xAB ;;; response ;;; command PS2_STATUS_PORT 0x20 ;;; response) s = Some (o, s') /\
    written s' = written s ++ take 5 (program_writes 0) /\ byte_ok (default 0 o) /\ k_handlers s' = k_handlers s /\ exists q, s' = set_irq q s) as Hfirst.
  { change (emits (inb PS2_DATA_PORT ;;; command PS2_STATUS_PORT PS2_CMD_DISABLE_KB ;;; command PS2_STATUS_PORT 0xA7 ;;; flush_output ;;;
      command PS2_STATUS_PORT 0xAA ;;; response ;;; command PS2_STATUS_PORT 0xAB ;;; response ;;; command PS2_STATUS_PORT 0x20 ;;; response)
      ([] ++ [(0x64, 0xAD)] ++ [(0x64, 0xA7)] ++ [] ++ [(0x64, 0xAA)] ++ [] ++ [(0x64, 0xAB)] ++ [] ++ [(0x64, 0x20)] ++ []) (fun o => byte_ok (default 0 o))).
    repeat (apply emits_seq; [first [apply emits_command|apply emits_flush|eapply emits_any, emits_response|eapply emits_any, emits_inb]|]). apply emits_response. }
  destruct (Hfirst s) as (o&s1&H1&Hw1&Ho&Hh1&q1&E1). destruct (Hlast _ Ho s1) as (x&s2&H2&Hw2&->&Hh2&q2&E2).
  exists (default 0 o), s2. split; [done|]. split; [|split; [|split; [congruence|exists q2; by rewrite E2, E1]]].
  - clear Hfirst Hlast. unfold ps2_program. do 9 (apply mbind_inv in H1 as (?&?&Hx&H1); mstep Hx; clear Hx). mstep H1. exact H2.
  - rewrite Hw2, Hw1, <-app_assoc. done.
Qed.

(** Whatever the controller answers or fails to answer, the start of the driver does not hang: it writes exactly the commands of its phases in
    order, with a configuration byte that keeps bits 2, 3 and 7 of the one read (0 if none came) and clears the rest, sets its handler for
    vector 33, unmasks line 1 of the first interrupt controller and nothing else, enables the keyboard's interrupt in the configuration
    and is then initialised; what follows is its look at the output buffer. *)
Theorem ps2_init_writes `{!Cpu bus} dev s : length (k_handlers s) = 256%nat ->
  exists c m s1, byte_ok c /\ byte_ok m /\ ps2_init dev s = ps2_poll s1 /\
    written s1 = written s ++ program_writes (Z.land c 0x8C) ++ [(0x21, Z.land m 0xFD); (0x64, 0x60); (0x60, Z.lor (Z.land c 0x8C) 1)] /\
    k_handlers s1 = <[ 33%nat := Some KEYBOARD ]> (k_handlers s) /\ g_initialized s1 = true /\ k_serial s1 = dev /\ keys s1 = keys s.
Proof.
  intros Hl. destruct (ps2_program_run (set_serial dev s)) as (c&s1&Hc&H1&Hw1&Hh1&q1&E1). change (k_handlers (set_serial dev s)) with (k_handlers s) in Hh1.
  change (written (set_serial dev s)) with (written s) in Hw1. set (h := <[ 33%nat := Some KEYBOARD ]> (k_handlers s)). set (s2 := set_irq (set_g_handlers h (k_irq s1)) s1).
  destruct (emits_inb 0x21 s2) as (m&s3&H3&Hw3&Hm&Hh3&q3&E3).
  assert (emits (outb 0x21 (Z.land m (u8 (Z.lnot (irq_bit 1)))) ;;; return tt ;;; command PS2_STATUS_PORT 0x60 ;;; command PS2_DATA_PORT (Z.lor (config_bits c) 1))
    ([(0x21, u8 (Z.land m 0xFD))] ++ [] ++ [(0x64, 0x60)] ++ [(0x60, u8 (Z.lor (config_bits c) 1))]) (fun _ => True)) as Hem.
  { apply emits_seq; [apply (emits_outb 0x21)|]. apply emits_seq; [by apply emits_ret|]. apply emits_seq; [apply emits_command|apply emits_command]. }
  destruct (Hem s3) as ([]&s4&H4&Hw4&_&Hh4&q4&E4). exists c, m, (set_initialized true s4). split; [done|]. split; [done|]. split; [|split; [|split]].
  - unfold ps2_init. rewrite (mbind_Some (mmodify (set_serial dev)) _ s tt (set_serial dev s)) by done. mstep H1.
    assert (ps2_enable (config_bits c) s1 = Some (tt, set_initialized true s4)) as He; [|by mstep He].
    unfold ps2_enable, mget, mbind_ at 1. cbn [fst snd]. unfold isr_register_handler, mlift.
    rewrite Hh1, zset_Some by (rewrite Hl; done). unfold mbind_ at 1. rewrite (mbind_Some (mput _) _ s1 tt s2) by done.
    apply mbind_inv in H4 as ([]&t1&Ha&H4). apply mbind_inv in H4 as ([]&t2&[= <-]&H4). apply mbind_inv in H4 as ([]&t3&Hb&H4).
    assert (pic_unmask_irq PS2_IRQ_LINE s2 = Some (tt, t1)) as Hu.
    { unfold pic_unmask_irq. change (data_port PS2_IRQ_LINE) with 0x21. mstep H3. change (is_slave_irq PS2_IRQ_LINE) with false. mstep Ha. done. }
    mstep Hu. mstep Hb. mstep H4. done.
  - change (written (set_initialized true s4)) with (written s4). rewrite Hw4, Hw3. change (written s2) with (written s1). rewrite Hw1, app_nil_r, <-app_assoc.
    rewrite config_bits_eq by done. assert (byte_ok (Z.land c 0x8C)) as Hc' by (apply byte_land; [done|vm_compute; intuition congruence]).
    assert (forall x, byte_ok x -> u8 x = x) as Hu by (intros x Hx; unfold u8; by apply wrap_small).
    rewrite (Hu (Z.land m _)), (Hu (Z.lor _ _)); [done|apply byte_lor|apply byte_land]; done || (vm_compute; intuition congruence).
  - change (k_handlers (set_initialized true s4)) with (k_handlers s4). by rewrite Hh4, Hh3.
  - split; [done|]. rewrite E4, E3. unfold s2. rewrite E1. done.
Qed.
End Init.

(** ** Concrete machines *)

Definition script_kbd (bytes : list Z) : kbd (list Z) :=
  Kbd (replicate 256 0) 0 0 0 false SER_STATE_GROUND 0 0 0 true (Some COM1) (Irqs 5 true 100 isr_init bytes).
Lemma script_ring bytes : kring_ok (script_kbd bytes).
Proof. split; [done|]. cbn. lia. Qed.
Lemma terminal_keys_roundtrip_witness : exists s', serial_poll_input 4 (script_kbd [97; 27; 91; 65]) = Some (tt, s') /\ keys s' = [97; PS2_KEY_UP].
Proof.
  assert (Forall2 (fun k bs => term_seq k = Some bs) [97; PS2_KEY_UP] [[97]; [27; 91; 65]]) as Hf.
  { apply (bool_decide_unpack _). vm_compute. exact I. }
  destruct (terminal_keys_roundtrip [97; PS2_KEY_UP] [[97]; [27; 91; 65]] (script_kbd [97; 27; 91; 65]) 4) as (s'&Hs&Hk&_);
    [apply script_ring|done|done|exact Hf|done|vm_compute; lia|].
  exists s'. split; [exact Hs|exact Hk].
Defined.
Lemma keyboard_types_text_witness : exists s', process_all ([72; 105; 33] ≫= type_char) (kbd0 true) = Some (tt, s') /\ keys s' = [72; 105; 33].
Proof.
  destruct (keyboard_types_text [72; 105; 33] (kbd0 true)) as (s'&Hs&Hk&_); [repeat constructor|apply kbd0_ring|done|done|vm_compute; lia|].
  exists s'. split; [exact Hs|exact Hk].
Defined.
#[local] Instance bus_cpu : Cpu bus := {
  cpu_if := fun _ => false; cpu_wait := fun r => ([], r); vga_tick := fun r => r; scheduler_tick := fun r => (0, r); other_handler := fun _ r => r }.
Definition bus_kbd : kbd bus :=
  Kbd (replicate 256 0) 0 0 0 false SER_STATE_GROUND 0 0 0 false None (Irqs 0 false 0 isr_init (Bus (fun _ _ => 0xFF) [])).
Lemma ps2_init_writes_witness : exists c m s1, ps2_init None bus_kbd = ps2_poll s1 /\
  written s1 = program_writes (Z.land c 0x8C) ++ [(0x21, Z.land m 0xFD); (0x64, 0x60); (0x60, Z.lor (Z.land c 0x8C) 1)].
Proof.
  destruct (ps2_init_writes None bus_kbd) as (c&m&s1&_&_&Hi&Hw&_); [done|]. exists c, m, s1. split; [exact Hi|exact Hw].
Defined.
(** The function keys of a set-1 keyboard are 0x3B (F1) to 0x44 (F10), 0x57 and 0x58: the table has F1 to F10 five entries later. *)
Lemma f6_key_is_f1 : keys (after (ps2_process_scancode 0x40) (kbd0 true)) = [PS2_KEY_F 1] /\ keys (after (ps2_process_scancode 0x3B) (kbd0 true)) = [].
Proof. vm_compute. split; reflexivity. Qed.
(** A number in an escape sequence wraps at 256: ESC [ 258 ~ is Insert. *)
Lemma csi_number_wraps : exists s', serial_poll_input 6 (script_kbd [27; 91; 50; 53; 56; 126]) = Some (tt, s') /\ keys s' = [PS2_KEY_INSERT].
Proof.
  assert (match serial_poll_input 6 (script_kbd [27; 91; 50; 53; 56; 126]) with Some (_, s') => keys s' = [PS2_KEY_INSERT] | None => False end) as H by (vm_compute; reflexivity).
  destruct (serial_poll_input _ _) as [[[] s']|]; [by exists s'|done].
Qed.
