(* ===== verification/FileSys.v ===== *)
(** * System calls: files, time and dispatch (src/kernel/syscall.c)

    The calls that work on the descriptors of the current task and on paths, over the mount table of Vfs.v, and the dispatcher.
    The arguments are the words of the system-call frame.  What lies below is the interface [FileEnv]: user memory with its two
    checks (modelled in UserMem.v), the open-file objects, the inodes and the serial line. *)

From stdpp Require Import base numbers gmap list options.
From S2P Require Import Prelude LinkedList Task Ext2Data Ext2File Vfs.

Definition SC_OFF_RAX : Z := 0.
Definition SC_OFF_RDX : Z := 4.
Definition SC_OFF_RSI : Z := 5.
Definition SC_OFF_RDI : Z := 6.
Definition EXT2_SEEK_SET : Z := 0.
Definition EXT2_SEEK_CUR : Z := 1.
Definition EXT2_SEEK_END : Z := 2.
Definition sizeof_stat : Z := 52.
Definition sizeof_sysinfo : Z := 48.

(** A [file_ops_t]: pointers that may be NULL; the buffer is an address. *)
Record file_ops (W : Type) := FileOps {
  fo_read : option (Z -> Z -> Z -> option nat -> M W Z);
  fo_write : option (Z -> Z -> Z -> option nat -> M W Z);
  fo_close : option (Z -> option nat -> M W unit)
}.
Arguments FileOps {W}. Arguments fo_read {W}. Arguments fo_write {W}. Arguments fo_close {W}.

Class FileEnv (W : Type) := {
  fe_validate : Z -> Z -> M W bool;                    (* validate_user_pointer(ptr, size) != 0 *)
  fe_string : Z -> Z -> M W Z;                         (* validate_user_string *)
  fe_get : Z -> M W Z;                                 (* a byte the kernel reads at a user address *)
  fe_put : Z -> list Z -> M W unit;                    (* memcpy to a user address *)
  fe_fops : nat -> option (file_ops W);
  fe_file : nat -> M W ext2_file_t;                    (* *(ext2_file_t * )data *)
  fe_set_file : nat -> ext2_file_t -> M W unit;
  fe_stat : Z -> M W (ext2_status * option ext2_stat_t);
  fe_getdents : Z -> Z -> Z -> Z -> M W (Z * Z);       (* inode, cookie, buffer, size: result, cookie *)
  fe_serial : M W bool;                                (* g_sc_serial != NULL *)
  fe_serial_char : Z -> M W unit;
  fe_ticks : M W Z;
  fe_frames : M W (Z * Z * Z * Z * Z)                  (* total, free, used, reserved frames; ready tasks *)
}.

Section FileSys.
Context {W : Type} (vops : nat -> option (vfs_fs_ops W)) `{!FileEnv W}.
Local Notation K := (M (@vfs W)).

Definition arg (frame : list Z) (i : Z) : K Z := mlift (zget frame i).
Definition on_w {A} (c : M W A) : K A := on_world c.

(** [cur->fd_table[fd]] after the checks of the index; [None] where the calls return -1. *)
Definition fd_entry (fd : Z) : K (option file) :=
  s <~ mget ;;
  match vf_fds s with
  | None => return None
  | Some fds => if (fd <? 0) || (TASK_MAX_FDS <=? fd) then return None else f <~ mlift (zget fds fd) ;; return (Some f)
  end.
Definition set_fd (fd : Z) (f : file) : K unit :=
  s <~ mget ;;
  match vf_fds s with
  | None => mfault
  | Some fds => fds' <~ mlift (zset fds fd f) ;; mput (Vfs (g_mounts s) (g_ext2_ops s) (Some fds') (vf_world s))
  end.
Definition ops_of (f : file) : K (option (file_ops W)) :=
  match f_ops f with None => return None | Some p => o <~ mlift (fe_fops p) ;; return (Some o) end.

(** ** read, write, close *)

Fixpoint write_serial (n : nat) (buf : Z) : K unit :=
  match n with O => return tt | S n' => c <~ on_w (fe_get buf) ;; on_w (fe_serial_char (i8 c)) ;;; write_serial n' (u64 (buf + 1)) end.
Definition sys_write (frame : list Z) : K Z :=
  rdi <~ arg frame SC_OFF_RDI ;; buf <~ arg frame SC_OFF_RSI ;; count <~ arg frame SC_OFF_RDX ;;
  let fd := i32 rdi in
  if fd =? 1 then
    ok <~ on_w (fe_validate buf count) ;; if negb ok then return (-1) else
    s <~ on_w fe_serial ;; if negb s then return (-1) else
    write_serial (Z.to_nat count) buf ;;; return (i64 count)
  else
    f <~ fd_entry fd ;;
    match f with
    | None => return (-1)
    | Some f =>
      o <~ ops_of f ;;
      match o with
      | Some (FileOps _ (Some write) _) =>
        ok <~ on_w (fe_validate buf count) ;; if negb ok then return (-1) else on_w (write fd buf count (f_data f))
      | _ => return (-1)
      end
    end.
Definition sys_read (frame : list Z) : K Z :=
  rdi <~ arg frame SC_OFF_RDI ;; buf <~ arg frame SC_OFF_RSI ;; count <~ arg frame SC_OFF_RDX ;;
  let fd := i32 rdi in
  if fd =? 1 then return (-1) else
  f <~ fd_entry fd ;;
  match f with
  | None => return (-1)
  | Some f =>
    o <~ ops_of f ;;
    match o with
    | Some (FileOps (Some read) _ _) =>
      ok <~ on_w (fe_validate buf count) ;; if negb ok then return (-1) else on_w (read fd buf count (f_data f))
    | _ => return (-1)
    end
  end.
Definition sys_close (frame : list Z) : K Z :=
  rdi <~ arg frame SC_OFF_RDI ;;
  let fd := i32 rdi in
  f <~ fd_entry fd ;;
  match f with
  | None => return (-1)
  | Some f =>
    o <~ ops_of f ;;
    match o with
    | None => return (-1)
    | Some o =>
      match fo_close o with Some close => on_w (close fd (f_data f)) | None => return tt end ;;;
      set_fd fd file0 ;;; return 0
    end
  end.

(** ** Calls on paths *)

(** [while (src[i] && i < EXT2_MAX_PATH - 1) kpath[i++] = src[i]]: the string copied. *)
Fixpoint copy_loop (n : nat) (src i : Z) : K (list Z) :=
  c <~ on_w (fe_get (u64 (src + i))) ;;
  if (c =? 0) || negb (i <? EXT2_MAX_PATH - 1) then return [] else
  match n with O => mfault | S n' => rest <~ copy_loop n' src (i + 1) ;; return (c :: rest) end.
Definition copy_path (src : Z) : K (list Z) := copy_loop (Z.to_nat EXT2_MAX_PATH) src 0.

Definition sys_open (frame : list Z) : K Z :=
  user_path <~ arg frame SC_OFF_RDI ;; flags <~ arg frame SC_OFF_RSI ;;
  path_len <~ on_w (fe_string user_path EXT2_MAX_PATH) ;;
  if path_len <? 0 then return (-1) else
  kpath <~ copy_path user_path ;; vfs_open vops kpath (u32 flags).
(** [if (!validate_user_string(p, EXT2_MAX_PATH)) return -1;] *)
Definition check_string (p : Z) : K bool := r <~ on_w (fe_string p EXT2_MAX_PATH) ;; return (negb (r =? 0)).
Definition sys_unlink (frame : list Z) : K Z :=
  user_path <~ arg frame SC_OFF_RDI ;;
  ok <~ check_string user_path ;; if negb ok then return (-1) else
  kpath <~ copy_path user_path ;; vfs_unlink vops kpath.
Definition sys_rmdir (frame : list Z) : K Z :=
  user_path <~ arg frame SC_OFF_RDI ;;
  ok <~ check_string user_path ;; if negb ok then return (-1) else
  kpath <~ copy_path user_path ;; vfs_rmdir vops kpath.
Definition sys_mkdir (frame : list Z) : K Z :=
  user_path <~ arg frame SC_OFF_RDI ;; mode <~ arg frame SC_OFF_RSI ;;
  ok <~ check_string user_path ;; if negb ok then return (-1) else
  kpath <~ copy_path user_path ;; vfs_mkdir vops kpath (u32 mode).
Definition sys_rename (frame : list Z) : K Z :=
  user_old <~ arg frame SC_OFF_RDI ;; user_new <~ arg frame SC_OFF_RSI ;;
  ok <~ check_string user_old ;; if negb ok then return (-1) else
  ok <~ check_string user_new ;; if negb ok then return (-1) else
  old_path <~ copy_path user_old ;; new_path <~ copy_path user_new ;;
  vfs_rename vops old_path new_path.

(** ** Calls on the open file: any descriptor with operations is taken as an ext2 file *)

(** [fd_table[fd].data] of a descriptor in use. *)
Definition fd_data (fd : Z) : K (option nat) :=
  f <~ fd_entry fd ;;
  match f with
  | None => return None
  | Some f => match f_ops f with None => return None | Some _ => return (f_data f) end
  end.
(** [struct stat]: 13 words of 32 bits. *)
Definition stat_bytes (st : ext2_stat_t) : list Z :=
  mjoin (le_enc 4 <$> [0; st_ino st; st_mode st; st_links st; st_uid st; st_gid st; 0; st_size st; 512; st_blocks st; st_atime st; st_mtime st; st_ctime st]).
Definition sys_fstat (frame : list Z) : K Z :=
  rdi <~ arg frame SC_OFF_RDI ;; user_buf <~ arg frame SC_OFF_RSI ;;
  ok <~ on_w (fe_validate user_buf sizeof_stat) ;; if negb ok then return (-1) else
  d <~ fd_data (i32 rdi) ;;
  match d with
  | None => return (-1)
  | Some p =>
    file <~ on_w (fe_file p) ;;
    '(st, out) <~ on_w (fe_stat (f_ino file)) ;;
    match st, out with
    | EXT2_OK, Some st => on_w (fe_put user_buf (stat_bytes st)) ;;; return 0
    | _, _ => return (-1)
    end
  end.
Definition sys_lseek (frame : list Z) : K Z :=
  rdi <~ arg frame SC_OFF_RDI ;; rsi <~ arg frame SC_OFF_RSI ;; rdx <~ arg frame SC_OFF_RDX ;;
  let offset := i64 rsi in let whence := i32 rdx in
  d <~ fd_data (i32 rdi) ;;
  match d with
  | None => return (-1)
  | Some p =>
    file <~ on_w (fe_file p) ;;
    '(st, out) <~ on_w (fe_stat (f_ino file)) ;;
    match st, out with
    | EXT2_OK, Some st =>
      let base := if whence =? EXT2_SEEK_SET then Some 0 else if whence =? EXT2_SEEK_CUR then Some (i64 (f_offset file))
                  else if whence =? EXT2_SEEK_END then Some (st_size st) else None in
      match base with
      | None => return (-1)
      | Some b =>
        let new_pos := i64 (b + offset) in
        let new_pos := if new_pos <? 0 then 0 else new_pos in
        on_w (fe_set_file p (EFile (f_ino file) new_pos (f_flags file))) ;;; return new_pos
      end
    | _, _ => return (-1)
    end
  end.
Definition sys_getdents (frame : list Z) : K Z :=
  rdi <~ arg frame SC_OFF_RDI ;; user_buf <~ arg frame SC_OFF_RSI ;; rdx <~ arg frame SC_OFF_RDX ;;
  let count := u32 rdx in
  ok <~ on_w (fe_validate user_buf count) ;; if negb ok then return (-1) else
  d <~ fd_data (i32 rdi) ;;
  match d with
  | None => return (-1)
  | Some p =>
    file <~ on_w (fe_file p) ;;
    '(result, cookie) <~ on_w (fe_getdents (f_ino file) (f_offset file) user_buf count) ;;
    on_w (fe_set_file p (EFile (f_ino file) cookie (f_flags file))) ;;; return result
  end.

(** ** Time and statistics *)

Definition sys_gettimeofday (frame : list Z) : K Z :=
  tv_addr <~ arg frame SC_OFF_RDI ;;
  if tv_addr =? 0 then return 0 else
  ok <~ on_w (fe_validate tv_addr 16) ;; if negb ok then return (-1) else
  ticks <~ on_w fe_ticks ;;
  on_w (fe_put tv_addr (le_enc 8 (ticks / 100) ++ le_enc 8 (ticks mod 100 * 10000))) ;;; return 0.
Definition sys_sysinfo (frame : list Z) : K Z :=
  user <~ arg frame SC_OFF_RDI ;;
  ok <~ on_w (fe_validate user sizeof_sysinfo) ;; if negb ok then return (-1) else
  '(total, free, used, reserved, tasks) <~ on_w fe_frames ;;
  ticks <~ on_w fe_ticks ;;
  on_w (fe_put user (mjoin (le_enc 8 <$> [u64 (total * 4096); u64 (free * 4096); u64 (used * 4096); u64 (reserved * 4096); tasks; ticks]))) ;;; return 0.
End FileSys.

(** ** Dispatch *)

(** The handlers of [syscall_table]. *)
Inductive handler :=
  sc_write | sc_read | sc_exit | sc_fork | sc_getpid | sc_wait | sc_getppid | sc_brk | sc_mmap | sc_munmap | sc_execve | sc_open | sc_close
| sc_fstat | sc_lseek | sc_unlink | sc_getdents | sc_rename | sc_usleep | sc_gettimeofday | sc_mkdir | sc_rmdir | sc_get_key | sc_vga_write
| sc_vga_clear | sc_vga_set_color | sc_beep | sc_reboot | sc_vga_cursor_left | sc_vga_cursor_right | sc_vga_backspace | sc_vga_insert_char
| sc_vga_get_cursor | sc_vga_set_cursor | sc_vga_put_char | sc_vga_scroll | sc_vga_cursor_enable | sc_uptime | sc_sysinfo | sc_shutdown.
Definition syscall_numbers : list (Z * handler) :=
  [(0, sc_write); (1, sc_read); (2, sc_exit); (3, sc_fork); (4, sc_getpid); (5, sc_wait); (6, sc_getppid); (12, sc_brk); (9, sc_mmap); (11, sc_munmap);
   (59, sc_execve); (60, sc_open); (61, sc_close); (70, sc_fstat); (71, sc_lseek); (72, sc_unlink); (73, sc_getdents); (74, sc_rename); (75, sc_usleep);
   (76, sc_gettimeofday); (77, sc_mkdir); (78, sc_rmdir); (79, sc_get_key); (80, sc_vga_write); (81, sc_vga_clear); (82, sc_vga_set_color); (83, sc_beep);
   (84, sc_reboot); (85, sc_vga_cursor_left); (86, sc_vga_cursor_right); (87, sc_vga_backspace); (88, sc_vga_insert_char); (89, sc_vga_get_cursor);
   (90, sc_vga_set_cursor); (94, sc_vga_put_char); (95, sc_vga_scroll); (96, sc_vga_cursor_enable); (91, sc_uptime); (92, sc_sysinfo); (93, sc_shutdown)].
Definition SYS_COUNT : Z := 97.
(** The array: NULL where nothing is given. *)
Definition syscall_table : list (option handler) :=
  (fun i => match list_find (fun e => e.1 = i) syscall_numbers with Some (_, e) => Some e.2 | None => None end) <$> seqZ 0 SYS_COUNT.

Section Dispatch.
Context {S : Type} (run : handler -> list Z -> M S Z).
(** The frame after the call; [run] is the handler on the frame. *)
Definition syscall_handler (frame : list Z) : M S (list Z) :=
  rax <~ mlift (zget frame SC_OFF_RAX) ;;
  let num := i64 rax in
  h <~ (if (num <? 0) || (SYS_COUNT <=? num) then return None else mlift (zget syscall_table num)) ;;
  match h with
  | None => mlift (zset frame SC_OFF_RAX (u64 (-1)))
  | Some h => ret <~ run h frame ;; mlift (zset frame SC_OFF_RAX (u64 ret))
  end.
End Dispatch.
