(* ===== verification/FileSysSpec.v ===== *)
(** * System calls on files: paths, descriptors, positions, dispatch

    [FileMem] is what the calls rely on: a byte the kernel can read, a byte the user may read, and the check of a string as
    UserMem.v has it. *)

From stdpp Require Import base numbers gmap list options.
From S2P Require Import Prelude LinkedList Task Ext2Data Ext2File Vfs FileSys.
#[local] Set Default Proof Using "Type*".

(** The index of the first 0 among the next [n] bytes, -1 when one of the bytes before it is not the user's. *)
Fixpoint scan (user : Z -> bool) (byte : Z -> option Z) (n : nat) (a i : Z) : Z :=
  match n with
  | O => -1
  | S n' =>
    if negb (user (u64 (a + i))) then -1 else
    match byte (u64 (a + i)) with None => -1 | Some c => if c =? 0 then i else scan user byte n' a (i + 1) end
  end.
Class FileMem (W : Type) `{!FileEnv W} := {
  fm_byte : W -> Z -> option Z;
  fm_user : W -> Z -> bool;
  fm_get a w : fe_get a w = match fm_byte w a with Some c => Some (c, w) | None => None end;
  fm_validate a n w : exists b, fe_validate a n w = Some (b, w);
  fm_string a n w : fe_string a n w = Some (if a <? 0x1000 then -1 else scan (fm_user w) (fm_byte w) (Z.to_nat n) a 0, w)
}.

(** The bytes of [p], none of them 0, from [a] on. *)
Definition bytes_at (byte : Z -> option Z) (a : Z) (p : list Z) : Prop :=
  forall i c, p !! i = Some c -> byte (u64 (a + Z.of_nat i)) = Some c /\ c <> 0.
Definition string_at (byte : Z -> option Z) (a : Z) (p : list Z) : Prop :=
  bytes_at byte a p /\ byte (u64 (a + Z.of_nat (length p))) = Some 0.

Section Copying.
Context {W : Type} `{!FileEnv W} `{!FileMem W}.
Implicit Types s : @vfs W.
Local Notation byte s := (fm_byte (vf_world s)).
Local Notation user s := (fm_user (vf_world s)).

(** A string of the user's, with room for it in the kernel's buffer. *)
Definition user_string s (a : Z) (p : list Z) : Prop :=
  0x1000 <= a /\ string_at (byte s) a p /\ (length p < 256)%nat /\ forall i : nat, (i <= length p)%nat -> user s (u64 (a + Z.of_nat i)) = true.

Lemma on_w_get s a : on_w (fe_get a) s = match byte s a with Some c => Some (c, s) | None => None end.
Proof. unfold on_w, on_world. rewrite fm_get. destruct s. cbn. by destruct (fm_byte _ a). Qed.
Lemma copy_loop_run s a p : forall n k : nat, bytes_at (byte s) (a + Z.of_nat k) p -> (k + length p <= 255)%nat -> (length p < n)%nat ->
  (match byte s (u64 (a + Z.of_nat (k + length p))) with Some c => c = 0 \/ (k + length p = 255)%nat | None => False end) ->
  copy_loop n a (Z.of_nat k) s = Some (p, s).
Proof.
  induction p as [|c p IH]; intros n k Hb Hk Hn Hend; cbn [length] in *; (destruct n as [|n]; [lia|]); cbn [copy_loop]; unfold mbind_ at 1; rewrite on_w_get.
  - rewrite Nat.add_0_r in Hend. destruct (byte s (u64 (a + Z.of_nat k))) as [c|]; [|done].
    destruct (Z.eqb_spec c 0); [done|]. destruct Hend as [|Hend]; [done|]. cbn [orb].
    destruct (Z.ltb_spec (Z.of_nat k) (EXT2_MAX_PATH - 1)) as [Hlt|]; [unfold EXT2_MAX_PATH in Hlt; lia|done].
  - destruct (Hb 0%nat c eq_refl) as [Hc Hc0]. rewrite Z.add_0_r in Hc. rewrite Hc, (proj2 (Z.eqb_neq c 0)) by done.
    rewrite (proj2 (Z.ltb_lt _ _)) by (unfold EXT2_MAX_PATH; lia). cbn [orb negb].
    replace (Z.of_nat k + 1) with (Z.of_nat (S k)) by lia. rewrite (mbind_Some _ _ s p s); [done|]. apply IH; [|lia|lia|].
    + intros i d Hi. destruct (Hb (S i) d Hi) as [H1 H2]. split; [|done]. rewrite <-H1. do 2 f_equal. lia.
    + by replace (S k + length p)%nat with (k + S (length p))%nat by lia.
Qed.
(** What is copied: the string, or its first 255 bytes. *)
Lemma copy_path_run s a p : bytes_at (byte s) a p -> (length p <= 255)%nat ->
  (match byte s (u64 (a + Z.of_nat (length p))) with Some c => c = 0 \/ length p = 255%nat | None => False end) -> copy_path a s = Some (p, s).
Proof.
  intros Hb Hl He. unfold copy_path. apply (copy_loop_run s a p _ 0); [by rewrite Z.add_0_r|lia|change (Z.to_nat EXT2_MAX_PATH) with 256%nat; lia|done].
Qed.
Lemma copy_path_fault s a : byte s (u64 (a + 0)) = None -> copy_path a s = None.
Proof. intros H. unfold copy_path. change (Z.to_nat EXT2_MAX_PATH) with 256%nat. cbn [copy_loop]. unfold mbind_ at 1. by rewrite on_w_get, H. Qed.

Lemma scan_run s a p : forall n k : nat, bytes_at (byte s) (a + Z.of_nat k) p -> byte s (u64 (a + Z.of_nat (k + length p))) = Some 0 ->
  (forall i : nat, (k <= i <= k + length p)%nat -> user s (u64 (a + Z.of_nat i)) = true) -> (length p < n)%nat ->
  scan (user s) (byte s) n a (Z.of_nat k) = Z.of_nat (k + length p).
Proof.
  induction p as [|c p IH]; intros n k Hb He Hu Hn; cbn [length] in *; (destruct n as [|n]; [lia|]); cbn [scan]; rewrite Hu by lia; cbn [negb].
  - rewrite Nat.add_0_r in *. by rewrite He.
  - destruct (Hb 0%nat c eq_refl) as [Hc Hc0]. rewrite Z.add_0_r in Hc. rewrite Hc, (proj2 (Z.eqb_neq c 0)) by done.
    replace (Z.of_nat k + 1) with (Z.of_nat (S k)) by lia. rewrite IH; [lia| | | |lia].
    + intros i d Hi. destruct (Hb (S i) d Hi) as [H1 H2]. split; [|done]. rewrite <-H1. do 2 f_equal. lia.
    + by replace (S k + length p)%nat with (k + S (length p))%nat by lia.
    + intros i Hi. apply Hu. lia.
Qed.
Lemma string_check s a p : user_string s a p -> on_w (fe_string a EXT2_MAX_PATH) s = Some (Z.of_nat (length p), s) /\ copy_path a s = Some (p, s).
Proof.
  intros (Ha&[Hb He]&Hl&Hu). split.
  - unfold on_w, on_world. rewrite fm_string, (proj2 (Z.ltb_ge _ _)) by lia. destruct s. cbn in *. do 2 f_equal.
    apply (scan_run (Vfs g_mounts g_ext2_ops vf_fds vf_world) a p _ 0); [by rewrite Z.add_0_r|done|intros i Hi; apply Hu; lia|change (Z.to_nat EXT2_MAX_PATH) with 256%nat; lia].
  - apply copy_path_run; [done|lia|]. rewrite He. by left.
Qed.

(** The calls behind [if (!validate_user_string(...))]. *)
Definition path_call (run : list Z -> M (@vfs W) Z) (user_path : Z) : M (@vfs W) Z :=
  ok <~ check_string user_path ;; if negb ok then return (-1) else kpath <~ copy_path user_path ;; run kpath.
Lemma check_string_run s a p : user_string s a p -> check_string a s = Some (bool_decide (p <> []), s).
Proof.
  intros Hs. destruct (string_check s a p Hs) as [H1 _]. unfold check_string. mstep H1. unfold mret. do 2 f_equal.
  destruct p; [done|]. rewrite (proj2 (Z.eqb_neq _ _)) by (cbn; lia). done.
Qed.
Lemma path_call_run run s a p : user_string s a p -> path_call run a s = if decide (p = []) then Some (-1, s) else run p s.
Proof.
  intros Hs. unfold path_call. mstep (check_string_run s a p Hs). destruct (decide (p = [])) as [->|Hp]; [done|].
  rewrite bool_decide_eq_true_2 by done. cbn [negb]. mstep (proj2 (string_check s a p Hs)). done.
Qed.
(** Not refused: what is not a string of the user's is copied all the same. *)
Lemma path_call_invalid run s a : fe_string a EXT2_MAX_PATH (vf_world s) = Some (-1, vf_world s) ->
  path_call run a s = (kpath <~ copy_path a ;; run kpath) s.
Proof.
  intros Hs. unfold path_call. rewrite (mbind_Some _ _ s true s); [done|].
  unfold check_string. rewrite (mbind_Some _ _ s (-1) s); [done|]. unfold on_w, on_world. rewrite Hs. by destruct s.
Qed.
Lemma args2 (frame : list Z) : (7 <= length frame)%nat -> exists rdi rsi, zget frame SC_OFF_RDI = Some rdi /\ zget frame SC_OFF_RSI = Some rsi.
Proof.
  intros Hl. destruct (zget_is_Some frame SC_OFF_RDI) as [rdi Hd]; [unfold SC_OFF_RDI; lia|].
  destruct (zget_is_Some frame SC_OFF_RSI) as [rsi Hs]; [unfold SC_OFF_RSI; lia|]. eauto.
Qed.
Lemma arg_run (frame : list Z) i v s : zget frame i = Some v -> arg frame i s = Some (v, s).
Proof. unfold arg, mlift. by intros ->. Qed.

End Copying.

Section Paths.
Context {W : Type} (vops : nat -> option (vfs_fs_ops W)) `{!FileEnv W} `{!FileMem W}.
Implicit Types s : @vfs W.
Local Notation byte s := (fm_byte (vf_world s)).
Local Notation user s := (fm_user (vf_world s)).

(** What the kernel copies from [a]: the string there, or its first 255 bytes when it is longer. *)
Definition kernel_path s (a : Z) (p : list Z) : Prop :=
  bytes_at (byte s) a p /\
  ((length p < 256)%nat /\ byte s (u64 (a + Z.of_nat (length p))) = Some 0 \/ length p = 255%nat /\ is_Some (byte s (u64 (a + 255)))).
(** Not a readable string of the user's of fewer than 256 bytes. *)
Definition bad_string s (a : Z) : Prop := fe_string a EXT2_MAX_PATH (vf_world s) = Some (-1, vf_world s).
(** The inverted check of unlink, rmdir, mkdir and rename lets [a] pass, and the path they act on is [p]. *)
Definition passes s (a : Z) (p : list Z) : Prop := user_string s a p /\ p <> [] \/ bad_string s a /\ kernel_path s a p.
Lemma kernel_path_copy s a p : kernel_path s a p -> copy_path a s = Some (p, s).
Proof.
  intros [Hb He]. apply copy_path_run; [done|destruct He as [[H _]|[-> _]]; lia|]. destruct He as [[_ ->]|[Hl [c Hc]]]; [by left|].
  rewrite Hl. change (Z.of_nat 255) with 255. rewrite Hc. by right.
Qed.
Lemma bad_string_check s a : bad_string s a -> check_string a s = Some (true, s).
Proof. intros Hs. unfold check_string. rewrite (mbind_Some _ _ s (-1) s); [done|]. unfold on_w, on_world. rewrite Hs. by destruct s. Qed.
Lemma passes_run s a p : passes s a p -> check_string a s = Some (true, s) /\ copy_path a s = Some (p, s).
Proof.
  intros [[Hs Hp]|[Hb Hk]]; [|split; [by apply bad_string_check|by apply kernel_path_copy]].
  split; [|apply (string_check s a p Hs)]. rewrite (check_string_run s a p Hs). by rewrite bool_decide_eq_true_2.
Qed.
Lemma path_call_passes run s a p : passes s a p -> path_call run a s = run p s.
Proof. intros [Hc Hp]%passes_run. unfold path_call. mstep Hc. cbn [negb]. by mstep Hp. Qed.
Lemma path_call_empty run s a : user_string s a [] -> path_call run a s = Some (-1, s).
Proof. intros Hs. rewrite (path_call_run run s a [] Hs). by rewrite decide_True. Qed.
Lemma path_call_fault run s a : bad_string s a -> byte s (u64 (a + 0)) = None -> path_call run a s = None.
Proof. intros Hb Hn. rewrite (path_call_invalid run s a Hb). unfold mbind_. by rewrite (copy_path_fault s a Hn). Qed.
Lemma one_path_calls (frame : list Z) s a : zget frame SC_OFF_RDI = Some a ->
  sys_unlink vops frame s = path_call (vfs_unlink vops) a s /\ sys_rmdir vops frame s = path_call (vfs_rmdir vops) a s /\
  (forall mode, zget frame SC_OFF_RSI = Some mode -> sys_mkdir vops frame s = path_call (fun k => vfs_mkdir vops k (u32 mode)) a s).
Proof.
  intros Ha. split; [|split].
  - change (sys_unlink vops frame) with (x <~ arg frame SC_OFF_RDI ;; path_call (vfs_unlink vops) x). by mstep (arg_run frame _ a s Ha).
  - change (sys_rmdir vops frame) with (x <~ arg frame SC_OFF_RDI ;; path_call (vfs_rmdir vops) x). by mstep (arg_run frame _ a s Ha).
  - intros mode Hm. unfold sys_mkdir. mstep (arg_run frame _ a s Ha). by mstep (arg_run frame _ mode s Hm).
Qed.
Lemma sys_rename_run (frame : list Z) s a b : zget frame SC_OFF_RDI = Some a -> zget frame SC_OFF_RSI = Some b ->
  sys_rename vops frame s = (ok <~ check_string a ;; if negb ok then return (-1) else ok <~ check_string b ;; if negb ok then return (-1) else
    old_path <~ copy_path a ;; new_path <~ copy_path b ;; vfs_rename vops old_path new_path) s.
Proof. intros Ha Hb. unfold sys_rename. mstep (arg_run frame _ a s Ha). by mstep (arg_run frame _ b s Hb). Qed.
Lemma sys_rename_passes (frame : list Z) s a b p q : zget frame SC_OFF_RDI = Some a -> zget frame SC_OFF_RSI = Some b ->
  passes s a p -> passes s b q -> sys_rename vops frame s = vfs_rename vops p q s.
Proof.
  intros Ha Hb [H1 H2]%passes_run [H3 H4]%passes_run. rewrite (sys_rename_run frame s a b Ha Hb). mstep H1. cbn [negb]. mstep H3. cbn [negb]. mstep H2. by mstep H4.
Qed.
Lemma sys_rename_empty (frame : list Z) s a b : zget frame SC_OFF_RDI = Some a -> zget frame SC_OFF_RSI = Some b ->
  user_string s a [] \/ (exists p, passes s a p) /\ user_string s b [] -> sys_rename vops frame s = Some (-1, s).
Proof.
  intros Ha Hb H. rewrite (sys_rename_run frame s a b Ha Hb). destruct H as [H|[[p [H1 _]%passes_run] H]].
  - by mstep (check_string_run s a [] H).
  - mstep H1. cbn [negb]. by mstep (check_string_run s b [] H).
Qed.
Lemma sys_open_check (frame : list Z) s a flags : zget frame SC_OFF_RDI = Some a -> zget frame SC_OFF_RSI = Some flags ->
  (forall p, user_string s a p -> sys_open vops frame s = vfs_open vops p (u32 flags) s) /\ (bad_string s a -> sys_open vops frame s = Some (-1, s)).
Proof.
  intros Ha Hf. split; [intros p Hp; pose proof (string_check s a p Hp) as [Hs Hc]|intros Hi]; unfold sys_open; mstep (arg_run frame _ a s Ha); mstep (arg_run frame _ flags s Hf).
  - mstep Hs. rewrite (proj2 (Z.ltb_ge _ 0)) by lia. by mstep Hc.
  - rewrite (mbind_Some _ _ s (-1) s); [done|]. unfold on_w, on_world. rewrite Hi. by destruct s.
Qed.

(** C34: open acts on exactly the string given when that is a readable string of fewer than 256 bytes, and refuses everything else with -1.
    unlink, rmdir, mkdir and rename have the check inverted: of the readable strings they refuse only the empty one and act on the others, and
    what is not a readable string they never refuse: they act on what the kernel reads there, cut to 255 bytes, or fault when nothing is mapped. *)
Theorem path_calls_exact (frame : list Z) s a b : zget frame SC_OFF_RDI = Some a -> zget frame SC_OFF_RSI = Some b ->
  (forall p, user_string s a p -> sys_open vops frame s = vfs_open vops p (u32 b) s) /\ (bad_string s a -> sys_open vops frame s = Some (-1, s)) /\
  (forall p, passes s a p ->
    sys_unlink vops frame s = vfs_unlink vops p s /\ sys_rmdir vops frame s = vfs_rmdir vops p s /\ sys_mkdir vops frame s = vfs_mkdir vops p (u32 b) s /\
    (forall q, passes s b q -> sys_rename vops frame s = vfs_rename vops p q s) /\ (user_string s b [] -> sys_rename vops frame s = Some (-1, s))) /\
  (user_string s a [] -> sys_unlink vops frame s = Some (-1, s) /\ sys_rmdir vops frame s = Some (-1, s) /\
    sys_mkdir vops frame s = Some (-1, s) /\ sys_rename vops frame s = Some (-1, s)) /\
  (bad_string s a -> byte s (u64 (a + 0)) = None -> sys_unlink vops frame s = None /\ sys_rmdir vops frame s = None /\ sys_mkdir vops frame s = None /\
    (bad_string s b \/ (exists q, passes s b q) -> sys_rename vops frame s = None)).
Proof.
  intros Ha Hb. destruct (sys_open_check frame s a b Ha Hb) as [Ho1 Ho2]. destruct (one_path_calls frame s a Ha) as (Hu&Hr&Hm). specialize (Hm b Hb).
  split; [done|]. split; [done|]. split; [|split].
  - intros p Hp. rewrite Hu, Hr, Hm. split; [by apply path_call_passes|]. split; [by apply path_call_passes|]. split; [exact (path_call_passes (fun k => vfs_mkdir vops k (u32 b)) s a p Hp)|]. split; [intros q; by apply (sys_rename_passes frame s a b)|].
    intros He. apply (sys_rename_empty frame s a b Ha Hb). right. eauto.
  - intros He. rewrite Hu, Hr, Hm. do 3 (split; [by apply path_call_empty|]). apply (sys_rename_empty frame s a b Ha Hb). by left.
  - intros Hi Hn. rewrite Hu, Hr, Hm. do 3 (split; [by apply path_call_fault|]). intros Hbb.
    assert (check_string b s = Some (true, s)) as Hcb by (destruct Hbb as [Hbb|[q [Hq _]%passes_run]]; [by apply bad_string_check|done]).
    rewrite (sys_rename_run frame s a b Ha Hb). mstep (bad_string_check s a Hi). cbn [negb]. mstep Hcb. cbn [negb].
    unfold mbind_ at 1. by rewrite (copy_path_fault s a Hn).
Qed.
End Paths.

(** ** Descriptors *)

Section Descriptors.
Context {W : Type} `{!FileEnv W} `{!FileMem W}.
Implicit Types s : @vfs W.

(** No task, no such descriptor, or one that is closed. *)
Definition bad_fd s (fd : Z) : Prop := forall fds, vf_fds s = Some fds -> 0 <= fd < TASK_MAX_FDS -> exists f, zget fds fd = Some f /\ f_ops f = None.
Lemma fd_entry_bad s fd : bad_fd s fd -> exists o, fd_entry fd s = Some (o, s) /\ match o with Some f => f_ops f = None | None => True end.
Proof.
  intros Hb. unfold fd_entry, mget, mbind_ at 1. cbn [fst snd]. destruct (vf_fds s) as [fds|] eqn:E; [|by exists None].
  destruct (Z.ltb_spec fd 0); [by exists None|]. destruct (Z.leb_spec TASK_MAX_FDS fd); [by exists None|]. cbn [orb].
  destruct (Hb fds E) as (f&Hf&Ho); [lia|]. exists (Some f). unfold mlift, mbind_. by rewrite Hf.
Qed.
Lemma fd_data_bad s fd : bad_fd s fd -> fd_data fd s = Some (None, s).
Proof.
  intros Hb. destruct (fd_entry_bad s fd Hb) as (o&He&Ho). unfold fd_data. mstep He. destruct o as [f|]; [|done]. by rewrite Ho.
Qed.
Lemma validate_run s a n : exists b, on_w (fe_validate a n) s = Some (b, s).
Proof. destruct (fm_validate a n (vf_world s)) as [b Hb]. exists b. unfold on_w, on_world. rewrite Hb. by destruct s. Qed.
Lemma frame_args (frame : list Z) : (7 <= length frame)%nat -> exists rdi rsi rdx,
  zget frame SC_OFF_RDI = Some rdi /\ zget frame SC_OFF_RSI = Some rsi /\ zget frame SC_OFF_RDX = Some rdx.
Proof.
  intros Hl. destruct (args2 frame Hl) as (rdi&rsi&Hd&Hs). destruct (zget_is_Some frame SC_OFF_RDX) as [rdx Hx]; [unfold SC_OFF_RDX; lia|]. eauto 10.
Qed.

(** Every descriptor call on a descriptor that is out of range or not open, or without a current task, returns -1 and changes nothing;
    write to descriptor 1 is the exception, which goes to the serial line without looking at the table, and read from 1 always fails. *)
Theorem fd_calls_reject (frame : list Z) rdi s : (7 <= length frame)%nat -> zget frame SC_OFF_RDI = Some rdi -> bad_fd s (i32 rdi) ->
  sys_read frame s = Some (-1, s) /\ sys_close frame s = Some (-1, s) /\ sys_fstat frame s = Some (-1, s) /\
  sys_lseek frame s = Some (-1, s) /\ sys_getdents frame s = Some (-1, s) /\
  (i32 rdi <> 1 -> sys_write frame s = Some (-1, s)).
Proof.
  intros Hl Hd Hb. destruct (frame_args frame Hl) as (rdi'&rsi&rdx&Hd'&Hs&Hx). rewrite Hd in Hd'. injection Hd' as <-.
  destruct (fd_entry_bad s _ Hb) as (o&He&Ho). pose proof (fd_data_bad s _ Hb) as Hdata.
  assert (forall f, o = Some f -> ops_of f s = Some (None, s)) as Hops by (intros f ->; unfold ops_of; by rewrite Ho).
  split; [|split; [|split; [|split; [|split]]]].
  - unfold sys_read. mstep (arg_run frame _ _ s Hd). mstep (arg_run frame _ _ s Hs). mstep (arg_run frame _ _ s Hx).
    destruct (i32 rdi =? 1); [done|]. mstep He. destruct o as [f|]; [|done]. by mstep (Hops f eq_refl).
  - unfold sys_close. mstep (arg_run frame _ _ s Hd). mstep He. destruct o as [f|]; [|done]. by mstep (Hops f eq_refl).
  - unfold sys_fstat. mstep (arg_run frame _ _ s Hd). mstep (arg_run frame _ _ s Hs). destruct (validate_run s rsi sizeof_stat) as [b Hv]. mstep Hv.
    destruct b; [|done]. cbn [negb]. by mstep Hdata.
  - unfold sys_lseek. mstep (arg_run frame _ _ s Hd). mstep (arg_run frame _ _ s Hs). mstep (arg_run frame _ _ s Hx). by mstep Hdata.
  - unfold sys_getdents. mstep (arg_run frame _ _ s Hd). mstep (arg_run frame _ _ s Hs). mstep (arg_run frame _ _ s Hx).
    destruct (validate_run s rsi (u32 rdx)) as [b Hv]. mstep Hv. destruct b; [|done]. cbn [negb]. by mstep Hdata.
  - intros H1. unfold sys_write. mstep (arg_run frame _ _ s Hd). mstep (arg_run frame _ _ s Hs). mstep (arg_run frame _ _ s Hx).
    rewrite (proj2 (Z.eqb_neq _ _)) by done. mstep He. destruct o as [f|]; [|done]. by mstep (Hops f eq_refl).
Qed.

Lemma free_fd_Some fds i : free_fd fds = Some i -> (exists f, fds !! i = Some f /\ f_ops f = None) /\ forall j g, (j < i)%nat -> fds !! j = Some g -> f_ops g <> None.
Proof.
  revert i. induction fds as [|f fds IH]; intros i; [done|]. cbn. destruct (f_ops f) as [o|] eqn:E.
  - destruct (free_fd fds) as [k|]; [|done]. intros [= <-]. destruct (IH k eq_refl) as [Hk Hj]. split; [done|].
    intros [|j] g Hlt Hg; [|by apply (Hj j g); [lia|]]. injection Hg as <-. by rewrite E.
  - intros [= <-]. split; [by exists f|]. lia.
Qed.
End Descriptors.

Section Opening.
Context {W : Type} (vops : nat -> option (vfs_fs_ops W)) `{!FileEnv W} `{!FileMem W}.
Implicit Types s : @vfs W.
(** Looking up a path changes nothing. *)
Lemma resolve_same p s r s' : resolve_ops vops p s = Some (r, s') -> s' = s.
Proof.
  intros H. unfold resolve_ops in H. apply mbind_inv in H as (x&s1&H1&H). assert (s1 = s) as ->.
  { unfold vfs_resolve_path in H1. apply mbind_inv in H1 as (y&s2&[= <- <-]&H1). apply mbind_inv in H1 as ([i l]&s3&H2&H1).
    unfold mlift in H2. destruct (resolve_mounts _ _ _ _); [|done]. injection H2 as _ <-. destruct i as [i|]; [|by injection H1 as _ <-].
    apply mbind_inv in H1 as (m&s4&H2&H1). unfold mlift in H2. destruct (_ !! i); [|done]. injection H2 as _ <-.
    apply mbind_inv in H1 as (c&s5&H2&H1). assert (s5 = s) as ->; [|by injection H1 as _ <-].
    destruct (_ && _); [|by injection H2 as _ <-]. unfold mlift in H2. destruct (zget _ _); [by injection H2 as _ <-|done]. }
  destruct x as [[i rel]|]; [|by injection H as _ <-]. apply mbind_inv in H as (y&s2&[= <- <-]&H).
  apply mbind_inv in H as (m&s4&H2&H). unfold mlift in H2. destruct (_ !! i); [|done]. injection H2 as <- <-.
  destruct (m_ops _) as [q|]; [|by injection H as _ <-]. apply mbind_inv in H as (o&s5&H2&H). unfold mlift in H2. destruct (vops q); [|done].
  injection H2 as <- <-. by injection H as _ <-.
Qed.
(** A successful open fills the first closed descriptor. *)
Lemma vfs_open_fd p flags s fd s1 : vfs_open vops p flags s = Some (fd, s1) -> 0 <= fd ->
  exists fds i ops data, vf_fds s = Some fds /\ fd = Z.of_nat i /\ free_fd fds = Some i /\ vf_fds s1 = Some (<[i := File ops data 1 flags]> fds).
Proof.
  unfold vfs_open. intros H Hfd. apply mbind_inv in H as (r&s2&Hr&H). apply resolve_same in Hr as ->.
  destruct r as [[[o|] rel]|]; [|injection H as <- _; lia|injection H as <- _; lia].
  destruct (op_open o) as [op|]; [|injection H as <- _; lia]. apply mbind_inv in H as ([[result ops] data]&s3&Hw&H).
  unfold on_world in Hw. destruct (op _ _ _) as [[x w]|]; [|done]. injection Hw as -> <-.
  destruct (result <? 0); [injection H as <- _; lia|]. apply mbind_inv in H as (s4&s5&[= <- <-]&H).
  cbn [vf_fds] in H. destruct (vf_fds s) as [fds|]; [|injection H as <- _; lia]. destruct (free_fd fds) as [i|] eqn:Ef; [|injection H as <- _; lia].
  apply mbind_inv in H as (u&s6&[= <- <-]&H). injection H as <- <-. by exists fds, i, ops, data.
Qed.

(** C35: a successful open takes the lowest closed descriptor and changes no other; closing it calls the file's close once and gives back the
    table as it was before the open. *)
Theorem open_close_restores (frame frame' : list Z) a p flags s fd s1 fds w' :
  (7 <= length frame')%nat -> zget frame SC_OFF_RDI = Some a -> zget frame SC_OFF_RSI = Some flags -> user_string s a p ->
  vf_fds s = Some fds -> Z.of_nat (length fds) = TASK_MAX_FDS -> (forall f, f ∈ fds -> f_ops f = None -> f = file0) ->
  sys_open vops frame s = Some (fd, s1) -> 0 <= fd ->
  exists f, zget fds fd = Some file0 /\ (forall j g, 0 <= j < fd -> zget fds j = Some g -> f_ops g <> None) /\ vf_fds s1 = Some (<[Z.to_nat fd := f]> fds) /\
    (forall q o, zget frame' SC_OFF_RDI = Some fd -> f_ops f = Some q -> fe_fops q = Some o ->
      match fo_close o with Some close => close fd (f_data f) (vf_world s1) = Some (tt, w') | None => w' = vf_world s1 end ->
      exists s2, sys_close frame' s1 = Some (0, s2) /\ vf_fds s2 = vf_fds s /\ vf_world s2 = w').
Proof.
  intros Hl Ha Hf Hp Hfds Hlen Hz Ho Hfd. destruct (string_check s a p Hp) as [Hs Hc].
  unfold sys_open in Ho. revert Ho. mstep (arg_run frame _ a s Ha). mstep (arg_run frame _ flags s Hf). mstep Hs.
  rewrite (proj2 (Z.ltb_ge _ 0)) by lia. mstep Hc. intros Ho. destruct (vfs_open_fd _ _ _ _ _ Ho Hfd) as (fds'&i&ops&data&Hfds'&->&Hfree&Hs1).
  rewrite Hfds in Hfds'. injection Hfds' as <-. destruct (free_fd_Some _ _ Hfree) as [(f0&Hf0&Hn0) Hlow].
  assert (f0 = file0) as -> by (apply Hz; [by eapply list_elem_of_lookup_2|done]). pose proof (lookup_lt_Some _ _ _ Hf0) as Hi.
  exists (File ops data 1 (u32 flags)). rewrite Nat2Z.id, zget_nat. split; [done|]. split; [|split; [done|]].
  { intros j g Hj Hg. apply zget_Some in Hg as [_ Hg]. apply (Hlow (Z.to_nat j) g); [lia|done]. }
  cbn [f_ops f_data]. intros q o Hrdi -> Hq Hclose. set (fds1 := <[i := File (Some q) data 1 (u32 flags)]> fds) in *.
  assert (i32 (Z.of_nat i) = Z.of_nat i) as Hi32.
  { unfold i32, swrap. assert (Z.of_nat i < 64) by (unfold TASK_MAX_FDS in Hlen; lia). rewrite wrap_small by (unfold in_w; lia).
    by rewrite (proj2 (Z.ltb_lt _ _)) by (change (2 ^ (32 - 1)) with (2 ^ 31); lia). }
  assert (fd_entry (Z.of_nat i) s1 = Some (Some (File (Some q) data 1 (u32 flags)), s1)) as He.
  { unfold fd_entry, mget, mbind_ at 1. cbn [fst snd]. rewrite Hs1, (proj2 (Z.ltb_ge _ 0)), (proj2 (Z.leb_gt _ _)) by lia. cbn [orb].
    unfold mlift, mbind_, fds1. rewrite zget_nat, list_lookup_insert_eq by done. done. }
  unfold sys_close. mstep (arg_run frame' _ _ s1 Hrdi). rewrite Hi32. mstep He.
  assert (ops_of (File (Some q) data 1 (u32 flags)) s1 = Some (Some o, s1)) as Hops by (unfold ops_of, mlift, mbind_; cbn [f_ops]; by rewrite Hq).
  mstep Hops. set (s1' := Vfs (g_mounts s1) (g_ext2_ops s1) (vf_fds s1) w').
  assert ((match fo_close o with Some close => on_w (close (Z.of_nat i) data) | None => return tt end) s1 = Some (tt, s1')) as Hcl.
  { destruct (fo_close o) as [cl|]; [unfold on_w, on_world; by rewrite Hclose|]. subst w'. unfold s1'. by destruct s1. }
  mstep Hcl. assert (set_fd (Z.of_nat i) file0 s1' = Some (tt, Vfs (g_mounts s1) (g_ext2_ops s1) (Some fds) w')) as Hset.
  { unfold set_fd, mget, mbind_ at 1. cbn [fst snd s1' vf_fds]. rewrite Hs1. unfold mlift, mbind_.
    rewrite zset_Some by (unfold fds1; rewrite length_insert; lia). rewrite Nat2Z.id. unfold fds1. rewrite list_insert_insert_eq, list_insert_id by done. done. }
  mstep Hset. eexists. split; [reflexivity|]. cbn. by rewrite Hfds.
Qed.
(** Descriptor 1 is the serial line whatever is open there: a file that open put at 1 is never read or written. *)
Lemma descriptor_1_is_serial (frame : list Z) buf count s : zget frame SC_OFF_RDI = Some 1 -> zget frame SC_OFF_RSI = Some buf -> zget frame SC_OFF_RDX = Some count ->
  sys_read frame s = Some (-1, s) /\
  sys_write frame s = (ok <~ on_w (fe_validate buf count) ;; if negb ok then return (-1) else
    ser <~ on_w fe_serial ;; if negb ser then return (-1) else write_serial (Z.to_nat count) buf ;;; return (i64 count)) s.
Proof.
  intros Hd Hs Hx. split.
  - unfold sys_read. mstep (arg_run frame _ _ s Hd). mstep (arg_run frame _ _ s Hs). by mstep (arg_run frame _ _ s Hx).
  - unfold sys_write. mstep (arg_run frame _ _ s Hd). mstep (arg_run frame _ _ s Hs). by mstep (arg_run frame _ _ s Hx).
Qed.
End Opening.

(** ** The position *)

(** The open-file objects: what is stored at a pointer. *)
Class FileObjs (W : Type) `{!FileEnv W} := {
  fo_at : W -> nat -> option ext2_file_t;
  fo_put : nat -> ext2_file_t -> W -> W;
  fo_get_law p w : fe_file p w = match fo_at w p with Some f => Some (f, w) | None => None end;
  fo_set_law p f w : fe_set_file p f w = match fo_at w p with Some _ => Some (tt, fo_put p f w) | None => None end;
  fo_put_eq p f w : is_Some (fo_at w p) -> fo_at (fo_put p f w) p = Some f;
  fo_put_ne p q f w : p <> q -> fo_at (fo_put p f w) q = fo_at w q
}.

Section Seek.
Context {W : Type} `{!FileEnv W} `{!FileObjs W}.
Implicit Types s : @vfs W.

Lemma fd_data_run s fds fd f q : vf_fds s = Some fds -> 0 <= fd < TASK_MAX_FDS -> zget fds fd = Some f -> f_ops f = Some q -> fd_data fd s = Some (f_data f, s).
Proof.
  intros Hs Hr Hf Hq. assert (fd_entry fd s = Some (Some f, s)) as He.
  { unfold fd_entry, mget, mbind_ at 1. cbn [fst snd]. rewrite Hs, (proj2 (Z.ltb_ge _ 0)), (proj2 (Z.leb_gt _ _)) by lia. cbn [orb].
    unfold mlift, mbind_. by rewrite Hf. }
  unfold fd_data. mstep He. by rewrite Hq.
Qed.
Definition with_world (w : W) s : @vfs W := Vfs (g_mounts s) (g_ext2_ops s) (vf_fds s) w.
(** The position asked for: from the start, the current position or the end. *)
Definition seek_target (file : ext2_file_t) (size whence offset : Z) : option Z :=
  if decide (whence = 0) then Some offset else if decide (whence = 1) then Some (f_offset file + offset)
  else if decide (whence = 2) then Some (size + offset) else None.

(** Lseek on an open file moves its position to the one asked for, or to 0 when that is negative, returns it and changes nothing else, neither
    another file nor the descriptor table; any other whence is refused without effect.  So seeking by 0 from the current position reports it. *)
Theorem sys_lseek_exact (frame : list Z) rdi rsi rdx s fds f q p file st w1 :
  zget frame SC_OFF_RDI = Some rdi -> zget frame SC_OFF_RSI = Some rsi -> zget frame SC_OFF_RDX = Some rdx ->
  vf_fds s = Some fds -> 0 <= i32 rdi < TASK_MAX_FDS -> zget fds (i32 rdi) = Some f -> f_ops f = Some q -> f_data f = Some p ->
  fo_at (vf_world s) p = Some file -> 0 <= f_offset file < 2 ^ 62 -> 0 <= st_size st < 2 ^ 62 -> - 2 ^ 62 <= i64 rsi < 2 ^ 62 ->
  fe_stat (f_ino file) (vf_world s) = Some ((EXT2_OK, Some st), w1) -> fo_at w1 p = Some file ->
  match seek_target file (st_size st) (i32 rdx) (i64 rsi) with
  | None => sys_lseek frame s = Some (-1, with_world w1 s)
  | Some t =>
    let pos := Z.max 0 t in let w2 := fo_put p (EFile (f_ino file) pos (f_flags file)) w1 in
    sys_lseek frame s = Some (pos, with_world w2 s) /\ fo_at w2 p = Some (EFile (f_ino file) pos (f_flags file)) /\
    (forall p', p' <> p -> fo_at w2 p' = fo_at w1 p') /\ (i64 rsi = 0 -> i32 rdx = 1 -> pos = f_offset file)
  end.
Proof.
  intros Hd Hs Hx Hfds Hr Hf Hq Hp Hfile Hoff Hsize Hrsi Hstat Hfile1.
  assert (forall x, - 2 ^ 63 <= x < 2 ^ 63 -> i64 x = x) as Hi64.
  { intros x Hxr. unfold i64, swrap, wrap. change (64 - 1) with 63. destruct (decide (0 <= x)).
    - rewrite Z.mod_small by lia. by rewrite (proj2 (Z.ltb_lt _ _)) by lia.
    - replace x with (x + 2 ^ 64 + (-1) * 2 ^ 64) by lia. rewrite Z_mod_plus_full, Z.mod_small by lia. rewrite (proj2 (Z.ltb_ge _ _)) by lia. lia. }
  assert (sys_lseek frame s = (match seek_target file (st_size st) (i32 rdx) (i64 rsi) with None => return (-1) | Some t =>
    on_w (fe_set_file p (EFile (f_ino file) (Z.max 0 t) (f_flags file))) ;;; return (Z.max 0 t) end) (with_world w1 s)) as ->.
  { unfold sys_lseek. rewrite (mbind_Some _ _ s rdi s) by (unfold arg, mlift; by rewrite Hd). rewrite (mbind_Some _ _ s rsi s) by (unfold arg, mlift; by rewrite Hs).
    rewrite (mbind_Some _ _ s rdx s) by (unfold arg, mlift; by rewrite Hx). mstep (fd_data_run s fds _ f q Hfds Hr Hf Hq). rewrite Hp.
    rewrite (mbind_Some _ _ s file s) by (unfold on_w, on_world; rewrite fo_get_law, Hfile; by destruct s).
    rewrite (mbind_Some _ _ s (EXT2_OK, Some st) (with_world w1 s)) by (unfold on_w, on_world; by rewrite Hstat). cbv beta iota.
    unfold seek_target, EXT2_SEEK_SET, EXT2_SEEK_CUR, EXT2_SEEK_END.
    assert (forall x, (if x <? 0 then 0 else x) = Z.max 0 x) as Hmax by (intros x; destruct (Z.ltb_spec x 0); lia).
    destruct (Z.eqb_spec (i32 rdx) 0); [rewrite decide_True by done|rewrite decide_False by done; destruct (Z.eqb_spec (i32 rdx) 1);
      [rewrite decide_True by done|rewrite decide_False by done; destruct (Z.eqb_spec (i32 rdx) 2); [rewrite decide_True by done|by rewrite decide_False by done]]].
    - rewrite Z.add_0_l, (Hi64 (i64 rsi)), Hmax by lia. done.
    - rewrite (Hi64 (f_offset file)), Hi64, Hmax by lia. done.
    - rewrite Hi64, Hmax by lia. done. }
  destruct (seek_target file (st_size st) (i32 rdx) (i64 rsi)) as [t|] eqn:Et; [|done]. cbv zeta. split; [|split; [|split]].
  - rewrite (mbind_Some _ _ _ tt (with_world (fo_put p (EFile (f_ino file) (Z.max 0 t) (f_flags file)) w1) s)); [done|].
    unfold on_w, on_world. cbn [with_world vf_world]. by rewrite fo_set_law, Hfile1.
  - apply fo_put_eq. by rewrite Hfile1.
  - intros p' Hne. by apply fo_put_ne.
  - intros H0 H1. unfold seek_target in Et. rewrite H0, H1 in Et. cbn in Et. rewrite Z.add_0_r in Et. injection Et as <-. lia.
Qed.
End Seek.

(** ** Dispatch *)

Lemma syscall_numbers_distinct : NoDup syscall_numbers.*1 /\ forall n h, (n, h) ∈ syscall_numbers -> 0 <= n < SYS_COUNT.
Proof.
  split; [apply (bool_decide_unpack _); vm_compute; exact I|]. intros n h Hin.
  assert (Forall (fun e => 0 <= e.1 < SYS_COUNT) syscall_numbers) as HF by (apply (bool_decide_unpack _); vm_compute; exact I).
  rewrite Forall_forall in HF. exact (HF (n, h) Hin).
Qed.
Lemma syscall_table_get n : 0 <= n < SYS_COUNT ->
  zget syscall_table n = Some (match list_find (fun e => e.1 = n) syscall_numbers with Some (_, e) => Some e.2 | None => None end).
Proof.
  intros Hn. unfold syscall_table. apply zget_Some. split; [lia|]. rewrite list_lookup_fmap, lookup_seqZ_lt by lia. cbn. do 2 f_equal.
  by replace (Z.of_nat (Z.to_nat n)) with n by lia.
Qed.
Lemma numbers_find n h : (n, h) ∈ syscall_numbers -> exists i, list_find (fun e => e.1 = n) syscall_numbers = Some (i, (n, h)).
Proof.
  intros Hin. pose proof (proj1 syscall_numbers_distinct) as Hnd. destruct (list_find (fun e => e.1 = n) syscall_numbers) as [[i e]|] eqn:E.
  - exists i. apply list_find_Some in E as (He&Hn&_). apply list_elem_of_lookup_1 in Hin as [j Hj]. do 2 f_equal.
    assert (i = j) as ->; [|congruence]. eapply (NoDup_lookup syscall_numbers.*1); [done|by rewrite list_lookup_fmap, He|].
    rewrite list_lookup_fmap, Hj. cbn. congruence.
  - apply list_find_None in E. rewrite Forall_forall in E. by destruct (E _ Hin).
Qed.

Section Dispatching.
Context {S : Type} (run : handler -> list Z -> M S Z).
(** The dispatcher runs the handler of the number in rax on the frame, and only that, and puts its result, as 64 bits, into rax; a number that
    is negative, too large or has no handler gives -1 in rax and runs nothing; no other word of the frame changes. *)
Theorem syscall_handler_exact (frame : list Z) rax s : zget frame SC_OFF_RAX = Some rax ->
  (forall h, (i64 rax, h) ∈ syscall_numbers ->
    syscall_handler run frame s = match run h frame s with Some (ret, s') => Some (<[0%nat := u64 ret]> frame, s') | None => None end) /\
  ((forall h, (i64 rax, h) ∉ syscall_numbers) -> syscall_handler run frame s = Some (<[0%nat := 2 ^ 64 - 1]> frame, s)).
Proof.
  intros Hr. pose proof (zget_range _ _ _ Hr) as Hlen. assert (forall v, zset frame SC_OFF_RAX v = Some (<[0%nat := v]> frame)) as Hset by (intros v; by apply zset_Some).
  split.
  - intros h Hin. destruct syscall_numbers_distinct as [_ Hb]. specialize (Hb _ _ Hin). unfold syscall_handler.
    rewrite (mbind_Some _ _ s rax s) by (unfold mlift; by rewrite Hr). rewrite (proj2 (Z.ltb_ge _ 0)), (proj2 (Z.leb_gt SYS_COUNT _)) by lia. cbn [orb].
    rewrite syscall_table_get by done. destruct (numbers_find _ _ Hin) as [i ->]. unfold mlift at 1, mbind_ at 1. cbn [fst snd]. unfold mbind_.
    destruct (run h frame s) as [[ret s']|]; [|done]. unfold mlift. by rewrite Hset.
  - intros Hn. unfold syscall_handler. rewrite (mbind_Some _ _ s rax s) by (unfold mlift; by rewrite Hr).
    assert ((if (i64 rax <? 0) || (SYS_COUNT <=? i64 rax) then return None else mlift (zget syscall_table (i64 rax))) s = Some (None, s)) as Hnone.
    { destruct (Z.ltb_spec (i64 rax) 0); [done|]. destruct (Z.leb_spec SYS_COUNT (i64 rax)); [done|]. cbn [orb]. rewrite syscall_table_get by lia.
      destruct (list_find _ _) as [[i [n h]]|] eqn:E; [|done]. apply list_find_Some in E as (He&Hn'&_). cbn in Hn'. subst n.
      by destruct (Hn h); eapply list_elem_of_lookup_2. }
    mstep Hnone. unfold mlift. by rewrite Hset.
Qed.
End Dispatching.

(** ** A small machine

    User memory at 0x2000, open-file objects, and one file system at the root on which every path opens. *)
Record demo := Demo { d_mem : list Z; d_files : gmap nat ext2_file_t }.
Definition d_byte (w : demo) (a : Z) : option Z := if a <? 0x2000 then None else zget (d_mem w) (a - 0x2000).
Definition d_user (w : demo) (a : Z) : bool := bool_decide (is_Some (d_byte w a)).
Definition demo_ops : file_ops demo := FileOps (Some (fun _ _ _ _ => return 0)) (Some (fun _ _ n _ => return n))
  (Some (fun _ d => mmodify (fun w => match d with Some p => Demo (d_mem w) (delete p (d_files w)) | None => w end))).
#[global] Instance demo_env : FileEnv demo := {
  fe_validate := fun a n w => Some (d_user w a, w);
  fe_string := fun a n w => Some (if a <? 0x1000 then -1 else scan (d_user w) (d_byte w) (Z.to_nat n) a 0, w);
  fe_get := fun a w => match d_byte w a with Some c => Some (c, w) | None => None end;
  fe_put := fun a l => return tt;
  fe_fops := fun p => if (p =? 0)%nat then Some demo_ops else None;
  fe_file := fun p w => match d_files w !! p with Some f => Some (f, w) | None => None end;
  fe_set_file := fun p f w => match d_files w !! p with Some _ => Some (tt, Demo (d_mem w) (<[p := f]> (d_files w))) | None => None end;
  fe_stat := fun ino => return (EXT2_OK, Some (Stat ino 100 0 1 1 0 0 0 0 0));
  fe_getdents := fun _ c _ _ => return (0, c);
  fe_serial := return true;
  fe_serial_char := fun _ => return tt;
  fe_ticks := return 0;
  fe_frames := return (0, 0, 0, 0, 0)
}.
#[global] Instance demo_mem : FileMem demo.
Proof. refine {| fm_byte := d_byte; fm_user := d_user |}; try done. intros a n w. by eexists. Defined.
#[global] Instance demo_objs : FileObjs demo.
Proof.
  refine {| fo_at := fun w p => d_files w !! p; fo_put := fun p f w => Demo (d_mem w) (<[p := f]> (d_files w)) |}; try done.
  - intros. cbn. by rewrite lookup_insert_eq.
  - intros. cbn. by rewrite lookup_insert_ne.
Defined.
Definition demo_vops (p : nat) : option (vfs_fs_ops demo) := Some (FsOps (Some ext2_name)
  (Some (fun _ flags w => let p := fresh (dom (d_files w)) in Some ((0, Some 0%nat, Some p), Demo (d_mem w) (<[p := EFile 12 0 flags]> (d_files w)))))
  None (Some (fun _ => return 0)) None None None None).
(** "/a" in user memory, and descriptor 0 open when [b]. *)
Definition demo_vfs (b : bool) : @vfs demo :=
  Vfs (Mount [47] (Some 0%nat) None true :: replicate 3 mount0) None
    (Some ((if b then File (Some 0%nat) (Some 0%nat) 1 2 else file0) :: replicate 63 file0)) (Demo [47; 97; 0] (if b then {[ 0%nat := EFile 12 5 2 ]} else ∅)).
Definition regs (rax rdi rsi rdx : Z) : list Z := [rax; 0; 0; 0; rdx; rsi; rdi] ++ replicate 8 0.

Lemma demo_string b : user_string (demo_vfs b) 0x2000 [47; 97].
Proof.
  split; [lia|]. split; [|split; [cbn; lia|]].
  - split; [|by vm_compute]. intros [|[|i]] c; cbn [lookup list_lookup]; [intros [= <-]|intros [= <-]|done]; split; by vm_compute.
  - intros [|[|[|i]]] Hi; [by vm_compute..|cbn in Hi; lia].
Qed.
Lemma path_calls_exact_witness :
  sys_unlink demo_vops (regs 72 0x2000 0x2000 0) (demo_vfs false) = vfs_unlink demo_vops [47; 97] (demo_vfs false) /\
  sys_rename demo_vops (regs 72 0x2000 0x2000 0) (demo_vfs false) = vfs_rename demo_vops [47; 97] [47; 97] (demo_vfs false) /\
  sys_open demo_vops (regs 72 0x2000 0x2000 0) (demo_vfs false) = vfs_open demo_vops [47; 97] (u32 0x2000) (demo_vfs false).
Proof.
  destruct (path_calls_exact demo_vops (regs 72 0x2000 0x2000 0) (demo_vfs false) 0x2000 0x2000 eq_refl eq_refl) as (Ho&_&H&_).
  assert (passes (demo_vfs false) 0x2000 [47; 97]) as Hp by (left; split; [apply demo_string|done]).
  destruct (H _ Hp) as (Hu&_&_&Hr&_). split; [exact Hu|]. split; [exact (Hr _ Hp)|exact (Ho _ (demo_string false))].
Defined.
Lemma fd_calls_reject_witness : sys_read (regs 1 3 0x2000 1) (demo_vfs false) = Some (-1, demo_vfs false).
Proof.
  destruct (fd_calls_reject (regs 1 3 0x2000 1) 3 (demo_vfs false)) as [H _]; [cbn; lia|done| |exact H].
  intros fds [= <-] _. exists file0. by split.
Defined.
Definition opened : Z * @vfs demo := default (0, demo_vfs false) (sys_open demo_vops (regs 60 0x2000 2 0) (demo_vfs false)).
Lemma opened_ok : sys_open demo_vops (regs 60 0x2000 2 0) (demo_vfs false) = Some (0, opened.2).
Proof. vm_compute. reflexivity. Qed.
Lemma demo_closed f : f ∈ file0 :: replicate 63 file0 -> f = file0.
Proof. change (file0 :: replicate 63 file0) with (replicate 64 file0). by intros [-> _]%elem_of_replicate. Qed.
Lemma open_close_restores_witness : exists f, vf_fds opened.2 = Some (<[0%nat := f]> (file0 :: replicate 63 file0)).
Proof.
  destruct (open_close_restores demo_vops (regs 60 0x2000 2 0) (regs 61 0 0 0) 0x2000 [47; 97] 2 (demo_vfs false) 0 opened.2 (file0 :: replicate 63 file0) (vf_world opened.2))
    as (f&_&_&Hf&_); [cbn; lia|done|done|apply demo_string|done|done|intros f Hf _; by apply demo_closed|apply opened_ok|lia|].
  exists f. exact Hf.
Defined.
Lemma sys_lseek_exact_witness : exists s', sys_lseek (regs 71 0 3 1) (demo_vfs true) = Some (8, s').
Proof.
  pose proof (sys_lseek_exact (regs 71 0 3 1) 0 3 1 (demo_vfs true) (File (Some 0%nat) (Some 0%nat) 1 2 :: replicate 63 file0)
    (File (Some 0%nat) (Some 0%nat) 1 2) 0%nat 0%nat (EFile 12 5 2) (Stat 12 100 0 1 1 0 0 0 0 0) (vf_world (demo_vfs true))
    eq_refl eq_refl eq_refl eq_refl) as H.
  destruct H as [H _]; [vm_compute; intuition congruence|reflexivity|reflexivity|reflexivity|reflexivity|vm_compute; intuition congruence|vm_compute; intuition congruence|vm_compute; intuition congruence|reflexivity|reflexivity|].
  eexists. exact H.
Defined.
Lemma syscall_handler_exact_witness :
  syscall_handler (fun _ _ s => Some (7, s)) (regs 4 0 0 0) tt = Some (<[0%nat := u64 7]> (regs 4 0 0 0), tt) /\
  syscall_handler (fun _ _ s => Some (7, s)) (regs 8 0 0 0) tt = Some (<[0%nat := 2 ^ 64 - 1]> (regs 8 0 0 0), tt).
Proof.
  split.
  - apply (proj1 (syscall_handler_exact (fun _ _ s => Some (7, s)) (regs 4 0 0 0) 4 tt eq_refl) sc_getpid).
    apply (list_elem_of_lookup_2 _ 4). reflexivity.
  - apply (proj2 (syscall_handler_exact (fun _ _ s => Some (7, s)) (regs 8 0 0 0) 8 tt eq_refl)).
    intros h Hin. destruct (numbers_find _ _ Hin) as [i Hi]. vm_compute in Hi. discriminate.
Defined.
(** The descriptors of two opens from an empty table: the second is the serial line. *)
Lemma second_open_is_1 : fst <$> sys_open demo_vops (regs 60 0x2000 2 0) opened.2 = Some 1.
Proof. vm_compute. reflexivity. Qed.
(** close frees the open-file object whatever its count: of two descriptors that share it, as after a fork, the other is left with a freed one. *)
Definition shared : @vfs demo :=
  Vfs (g_mounts (demo_vfs true)) None (Some (File (Some 0%nat) (Some 0%nat) 2 2 :: File (Some 0%nat) (Some 0%nat) 2 2 :: replicate 62 file0)) (vf_world (demo_vfs true)).
Lemma close_frees_shared : match sys_close (regs 61 0 0 0) shared with
  | Some (r, s') => r = 0 /\ sys_lseek (regs 71 1 0 1) s' = None | None => False end.
Proof. vm_compute. split; reflexivity. Qed.
