(* ===== verification/Vga.v ===== *)
(** * Text screen (src/drivers/vga.c, vga.h; the screen calls of src/kernel/syscall.c)

    The shadow buffer with its dirty cells, the video memory it is flushed to, the cursor and its registers, and the system
    calls of the shell.  A cell is 16 bits.  Characters are given as their bytes. *)

From stdpp Require Import base numbers list options.
From S2P Require Import Prelude Ports FileSys.

Definition VGA_WIDTH : Z := 80.
Definition VGA_HEIGHT : Z := 25.
Definition CELLS : Z := VGA_WIDTH * VGA_HEIGHT.
Definition VGA_CRT_ADDR_PORT : Z := 0x3D4.
Definition VGA_CRT_DATA_PORT : Z := 0x3D5.
Definition VGA_CRT_CURSOR_HIGH : Z := 0x0E.
Definition VGA_CRT_CURSOR_LOW : Z := 0x0F.
Definition VGA_COLOR_BLACK : Z := 0.
Definition VGA_COLOR_DARK_GRAY : Z := 8.
Definition SC_OFF_R10 : Z := 1.

(** User memory, as sys_vga_write uses it. *)
Class UserBytes (R : Type) := { ub_validate : Z -> Z -> R -> bool; ub_get : Z -> R -> option Z }.

Definition vga_entry (c color : Z) : Z := u16 (Z.lor (Z.shiftl (u8 color) 8) (u8 c)).
Definition vga_make_color (fg bg : Z) : Z := u8 (Z.lor (Z.shiftl bg 4) fg).

Section Vga.
Context {R : Type} `{!Ports R}.

(** The statics of vga.c; [g_vga_mem] is the video memory when it is mapped. *)
Record vga := Vga {
  g_shadow : list Z; g_dirty : list Z; g_fg : Z; g_bg : Z; g_vga_mem : option (list Z); g_cursor_x : Z; g_cursor_y : Z;
  g_blink_enabled : bool; g_blink_visible : bool; g_scanline_enabled : bool; g_batch_mode : bool; tick_count : Z; v_io : R
}.
Definition set_cells sh di s := Vga sh di (g_fg s) (g_bg s) (g_vga_mem s) (g_cursor_x s) (g_cursor_y s) (g_blink_enabled s) (g_blink_visible s) (g_scanline_enabled s) (g_batch_mode s) (tick_count s) (v_io s).
Definition set_colors f b s := Vga (g_shadow s) (g_dirty s) f b (g_vga_mem s) (g_cursor_x s) (g_cursor_y s) (g_blink_enabled s) (g_blink_visible s) (g_scanline_enabled s) (g_batch_mode s) (tick_count s) (v_io s).
Definition set_mem m s := Vga (g_shadow s) (g_dirty s) (g_fg s) (g_bg s) m (g_cursor_x s) (g_cursor_y s) (g_blink_enabled s) (g_blink_visible s) (g_scanline_enabled s) (g_batch_mode s) (tick_count s) (v_io s).
Definition set_cursor x y s := Vga (g_shadow s) (g_dirty s) (g_fg s) (g_bg s) (g_vga_mem s) x y (g_blink_enabled s) (g_blink_visible s) (g_scanline_enabled s) (g_batch_mode s) (tick_count s) (v_io s).
Definition set_blink e v s := Vga (g_shadow s) (g_dirty s) (g_fg s) (g_bg s) (g_vga_mem s) (g_cursor_x s) (g_cursor_y s) e v (g_scanline_enabled s) (g_batch_mode s) (tick_count s) (v_io s).
Definition set_scanline b s := Vga (g_shadow s) (g_dirty s) (g_fg s) (g_bg s) (g_vga_mem s) (g_cursor_x s) (g_cursor_y s) (g_blink_enabled s) (g_blink_visible s) b (g_batch_mode s) (tick_count s) (v_io s).
Definition set_batch b s := Vga (g_shadow s) (g_dirty s) (g_fg s) (g_bg s) (g_vga_mem s) (g_cursor_x s) (g_cursor_y s) (g_blink_enabled s) (g_blink_visible s) (g_scanline_enabled s) b (tick_count s) (v_io s).
Definition set_tick t s := Vga (g_shadow s) (g_dirty s) (g_fg s) (g_bg s) (g_vga_mem s) (g_cursor_x s) (g_cursor_y s) (g_blink_enabled s) (g_blink_visible s) (g_scanline_enabled s) (g_batch_mode s) t (v_io s).
Definition set_v_io r s := Vga (g_shadow s) (g_dirty s) (g_fg s) (g_bg s) (g_vga_mem s) (g_cursor_x s) (g_cursor_y s) (g_blink_enabled s) (g_blink_visible s) (g_scanline_enabled s) (g_batch_mode s) (tick_count s) r.
#[global] Instance vga_ports : Ports vga := {
  bus_in8 := fun p s => let (v, r) := bus_in8 p (v_io s) in (v, set_v_io r s);
  bus_out8 := fun p v s => set_v_io (bus_out8 p v (v_io s)) s;
  bus_in16 := fun p s => let (v, r) := bus_in16 p (v_io s) in (v, set_v_io r s);
  bus_out16 := fun p v s => set_v_io (bus_out16 p v (v_io s)) s
}.

(** [g_shadow[i] = e; g_dirty[i] = d] *)
Definition put_cell (i e d : Z) : M vga unit :=
  s <~ mget ;; sh <~ mlift (zset (g_shadow s) i e) ;; di <~ mlift (zset (g_dirty s) i d) ;; mput (set_cells sh di s).
(** [g_vga_mem[i] = g_shadow[i]] *)
Definition show_cell (i : Z) : M vga unit :=
  s <~ mget ;; e <~ mlift (zget (g_shadow s) i) ;; m <~ mlift (g_vga_mem s) ;; m' <~ mlift (zset m i e) ;; mput (set_mem (Some m') s).
Definition clean_cell (i : Z) : M vga unit := s <~ mget ;; di <~ mlift (zset (g_dirty s) i 0) ;; mput (set_cells (g_shadow s) di s).

Definition update_cursor (x y : Z) : M vga unit :=
  let pos := u16 (y * VGA_WIDTH + x) in
  outb VGA_CRT_ADDR_PORT VGA_CRT_CURSOR_HIGH ;;;
  outb VGA_CRT_DATA_PORT (Z.shiftr pos 8) ;;;
  outb VGA_CRT_ADDR_PORT VGA_CRT_CURSOR_LOW ;;;
  outb VGA_CRT_DATA_PORT (Z.land pos 0xFF).

(** The sum of the dirty bytes. *)
Definition dirty_count (di : list Z) : Z := foldr Z.add 0 di.
Definition vga_flush : M vga unit :=
  s <~ mget ;;
  match g_vga_mem s with
  | None => return tt
  | Some _ =>
    if g_batch_mode s then return tt else
    (if CELLS * 3 / 4 <=? dirty_count (g_dirty s) then for_range 0 CELLS show_cell
     else for_range 0 CELLS (fun i => s <~ mget ;; d <~ mlift (zget (g_dirty s) i) ;; mwhen (negb (d =? 0)) (show_cell i))) ;;;
    for_range 0 CELLS clean_cell
  end.
Definition vga_flush_cell (x y : Z) : M vga unit :=
  s <~ mget ;;
  match g_vga_mem s with
  | None => return tt
  | Some _ =>
    if g_batch_mode s then return tt else
    if (x <? 0) || (VGA_WIDTH <=? x) || (y <? 0) || (VGA_HEIGHT <=? y) then return tt else
    let idx := y * VGA_WIDTH + x in show_cell idx ;;; clean_cell idx
  end.

Definition blank_of (s : vga) : Z := vga_entry 32 (vga_make_color (g_fg s) (g_bg s)).
Definition vga_clear : M vga unit :=
  s <~ mget ;;
  for_range 0 CELLS (fun i => put_cell i (blank_of s) 1) ;;;
  mmodify (set_cursor 0 0) ;;;
  vga_flush ;;;
  update_cursor 0 0.
(** [mem]: the video memory that the page mapped by vga_init shows. *)
Definition vga_init (mem : list Z) : M vga unit :=
  mmodify (set_mem (Some mem)) ;;; for_range 0 CELLS clean_cell ;;; vga_clear.

Definition vga_put_char (x y c color : Z) : M vga Z :=
  if (x <? 0) || (VGA_WIDTH <=? x) || (y <? 0) || (VGA_HEIGHT <=? y) then return 0 else
  let idx := y * VGA_WIDTH + x in
  let entry := vga_entry c color in
  s <~ mget ;; old <~ mlift (zget (g_shadow s) idx) ;;
  mwhen (negb (old =? entry)) (put_cell idx entry 1) ;;;
  return (i8 (Z.land old 0xFF)).

(** [memmove(a, &a[off], n)] *)
Definition move_down (a : list Z) (off n : Z) : option (list Z) := src ← slice off n a; splice 0 src a.
Definition vga_scroll (lines : Z) : M vga unit :=
  if lines <=? 0 then return tt else
  if VGA_HEIGHT <=? lines then vga_clear else
  let kept := (VGA_HEIGHT - lines) * VGA_WIDTH in
  s <~ mget ;;
  sh <~ mlift (move_down (g_shadow s) (lines * VGA_WIDTH) kept) ;;
  di <~ mlift (move_down (g_dirty s) (lines * VGA_WIDTH) kept) ;;
  mput (set_cells sh di s) ;;;
  for_range kept CELLS (fun i => put_cell i (blank_of s) 1).

(** The loop of vga_put_str: the cursor it ends at. *)
Fixpoint put_str_loop (str : list Z) (cx cy color : Z) : M vga (Z * Z) :=
  match str with
  | [] => return (cx, cy)
  | c :: rest =>
    let '(cx, cy) := if VGA_WIDTH <=? cx then (0, cy + 1) else (cx, cy) in
    cy <~ (if VGA_HEIGHT <=? cy then vga_scroll 1 ;;; return (VGA_HEIGHT - 1) else return cy) ;;
    if c =? 10 then put_str_loop rest 0 (cy + 1) color else
    if c =? 13 then put_str_loop rest 0 cy color else
    if c =? 9 then put_str_loop rest (Z.land (cx + 8) (Z.lnot 7)) cy color else
    let idx := cy * VGA_WIDTH + cx in
    let entry := vga_entry c color in
    s <~ mget ;; old <~ mlift (zget (g_shadow s) idx) ;;
    mwhen (negb (old =? entry)) (put_cell idx entry 1) ;;;
    put_str_loop rest (cx + 1) cy color
  end.
Definition vga_put_str (x y : Z) (str : option (list Z)) (color : Z) : M vga unit :=
  match str with
  | None => return tt
  | Some str =>
    '(cx, cy) <~ put_str_loop str x y color ;;
    mmodify (set_cursor cx cy) ;;; update_cursor cx cy ;;; vga_flush
  end.
Definition vga_put_str_centered (y : Z) (str : option (list Z)) (color : Z) : M vga unit :=
  match str with
  | None => return tt
  | Some l =>
    let x := Z.quot (VGA_WIDTH - Z.of_nat (length l)) 2 in
    vga_put_str (if x <? 0 then 0 else x) y str color
  end.

Definition vga_set_color (fg bg : Z) : M vga unit := mmodify (set_colors fg bg).
Definition vga_get_color : M vga Z := mgets (fun s => vga_make_color (g_fg s) (g_bg s)).
Definition vga_cursor_enable (start end_ : Z) : M vga unit :=
  outb VGA_CRT_ADDR_PORT 0x0A ;;; cur <~ inb VGA_CRT_DATA_PORT ;; outb VGA_CRT_DATA_PORT (Z.lor (Z.land cur 0xC0) start) ;;;
  outb VGA_CRT_ADDR_PORT 0x0B ;;; cur <~ inb VGA_CRT_DATA_PORT ;; outb VGA_CRT_DATA_PORT (Z.lor (Z.land cur 0xE0) end_).
Definition clamp_pos (v bound : Z) : Z := let v := if v <? 0 then 0 else v in if bound <=? v then bound - 1 else v.
Definition vga_cursor_set (x y : Z) : M vga unit :=
  let x := clamp_pos x VGA_WIDTH in let y := clamp_pos y VGA_HEIGHT in mmodify (set_cursor x y) ;;; update_cursor x y.
Definition vga_get_cursor_x : M vga Z := mgets g_cursor_x.
Definition vga_get_cursor_y : M vga Z := mgets g_cursor_y.

Definition vga_batch_start : M vga unit := mmodify (set_batch true).
Definition vga_batch_end : M vga unit :=
  mmodify (set_batch false) ;;;
  s <~ mget ;; match g_vga_mem s with None => return tt | Some _ => for_range 0 CELLS (fun i => show_cell i ;;; clean_cell i) end.
Definition vga_read_char (x y : Z) : M vga Z :=
  if (x <? 0) || (VGA_WIDTH <=? x) || (y <? 0) || (VGA_HEIGHT <=? y) then return 0 else
  s <~ mget ;; e <~ mlift (zget (g_shadow s) (y * VGA_WIDTH + x)) ;; return (i8 (Z.land e 0xFF)).
(** The sums are ints. *)
Definition vga_fill_rect (x y w h c color : Z) : M vga unit :=
  for_range y (i32 (y + h)) (fun row => for_range x (i32 (x + w)) (fun col => vga_put_char col row c color ;;; return tt)).
Definition vga_draw_hline (x y len color : Z) : M vga unit := for_range 0 len (fun i => vga_put_char (i32 (x + i)) y 32 color ;;; return tt).
Definition vga_cursor_blink_enable : M vga unit := mmodify (set_blink true true) ;;; vga_cursor_enable 13 15.
Definition vga_cursor_blink_disable : M vga unit := mmodify (set_blink false false) ;;; vga_cursor_enable 0 0.
Definition vga_scanline_enable : M vga unit := mmodify (set_scanline true).
Definition vga_scanline_disable : M vga unit := mmodify (set_scanline false).

(** A cell of an even row under the scanline overlay. *)
Definition scanline_cell (cell : Z) : Z :=
  let bg := Z.land (Z.shiftr cell 12) 0x0F in
  if bg =? VGA_COLOR_BLACK then Z.lor (Z.land cell 0x0FFF) (Z.shiftl VGA_COLOR_DARK_GRAY 12)
  else if bg =? VGA_COLOR_DARK_GRAY then Z.lor (Z.land cell 0x0FFF) (Z.shiftl VGA_COLOR_BLACK 12) else cell.
(** [for (y = 0; y < VGA_HEIGHT; y += 2) for (x ...)]; the dirty bytes are not written. *)
Definition scanline_pass : M vga unit :=
  for_range 0 13 (fun k => for_range 0 VGA_WIDTH (fun x =>
    let idx := 2 * k * VGA_WIDTH + x in
    s <~ mget ;; cell <~ mlift (zget (g_shadow s) idx) ;; sh <~ mlift (zset (g_shadow s) idx (scanline_cell cell)) ;; mput (set_cells sh (g_dirty s) s))).
Definition vga_tick : M vga unit :=
  s <~ mget ;; let t := u32 (tick_count s + 1) in mput (set_tick t s) ;;;
  (if g_blink_enabled s && (t mod 50 =? 0) then
     let v := negb (g_blink_visible s) in
     mmodify (set_blink (g_blink_enabled s) v) ;;; if v then vga_cursor_enable 13 15 else vga_cursor_enable 0 0
   else return tt) ;;;
  if g_scanline_enabled s && (t mod 3 =? 0) then scanline_pass ;;; vga_flush else return tt.

(** ** System calls *)

Section Calls.
Context `{!UserBytes R}.
Definition varg (frame : list Z) (i : Z) : M vga Z := mlift (zget frame i).
(** One byte of sys_vga_write: the cursor after it. *)
Definition write_char (c x y color : Z) : M vga (Z * Z) :=
  if c =? 13 then return (0, y)
  else if c =? 10 then
    if VGA_HEIGHT <=? y + 1 then vga_scroll 1 ;;; return (0, VGA_HEIGHT - 1) else return (0, y + 1)
  else if c =? 9 then
    let x := Z.land (x + 8) (Z.lnot 7) in return (if VGA_WIDTH <=? x then (0, y + 1) else (x, y))
  else
    let '(x, y) := if VGA_WIDTH <=? x then (0, y + 1) else (x, y) in
    y <~ (if VGA_HEIGHT <=? y then vga_scroll 1 ;;; return (VGA_HEIGHT - 1) else return y) ;;
    vga_put_char x y c color ;;; return (x + 1, y).
Fixpoint write_chars (n : nat) (buf x y color : Z) : M vga (Z * Z) :=
  match n with
  | O => return (x, y)
  | S n' => s <~ mget ;; c <~ mlift (ub_get buf (v_io s)) ;; '(x, y) <~ write_char c x y color ;; write_chars n' (u64 (buf + 1)) x y color
  end.
Definition sys_vga_write (frame : list Z) : M vga Z :=
  buf <~ varg frame SC_OFF_RDI ;; count <~ varg frame SC_OFF_RSI ;;
  if count =? 0 then return 0 else
  s <~ mget ;; if negb (ub_validate buf count (v_io s)) then return (-1) else
  x <~ vga_get_cursor_x ;; y <~ vga_get_cursor_y ;; color <~ vga_get_color ;;
  '(x, y) <~ write_chars (Z.to_nat count) buf x y color ;;
  vga_flush ;;; vga_cursor_set x y ;;; return (i64 count).
Definition sys_vga_clear : M vga Z := vga_clear ;;; return 0.
Definition sys_vga_set_color (frame : list Z) : M vga Z :=
  fg <~ varg frame SC_OFF_RDI ;; bg <~ varg frame SC_OFF_RSI ;;
  if (15 <? u8 fg) || (15 <? u8 bg) then return (-1) else vga_set_color (u8 fg) (u8 bg) ;;; return 0.
Definition sys_vga_cursor_left : M vga Z :=
  x <~ vga_get_cursor_x ;; y <~ vga_get_cursor_y ;;
  (if 0 <? x then vga_cursor_set (x - 1) y else if 0 <? y then vga_cursor_set (VGA_WIDTH - 1) (y - 1) else return tt) ;;; return 0.
Definition sys_vga_cursor_right : M vga Z :=
  x <~ vga_get_cursor_x ;; y <~ vga_get_cursor_y ;;
  (if x <? VGA_WIDTH - 1 then vga_cursor_set (x + 1) y else if y <? VGA_HEIGHT - 1 then vga_cursor_set 0 (y + 1) else return tt) ;;; return 0.
Definition sys_vga_backspace : M vga Z :=
  x <~ vga_get_cursor_x ;; y <~ vga_get_cursor_y ;;
  if (x =? 0) && (y =? 0) then return 0 else
  let '(x, y) := if 0 <? x then (x - 1, y) else (VGA_WIDTH - 1, y - 1) in
  color <~ vga_get_color ;; vga_put_char x y 32 color ;;; vga_flush_cell x y ;;; vga_cursor_set x y ;;; return 0.
Definition sys_vga_insert_char (frame : list Z) : M vga Z :=
  c <~ varg frame SC_OFF_RDI ;; x <~ vga_get_cursor_x ;; y <~ vga_get_cursor_y ;; color <~ vga_get_color ;;
  vga_put_char x y c color ;;; vga_flush_cell x y ;;;
  let '(x, y) := if VGA_WIDTH <=? x + 1 then (0, y + 1) else (x + 1, y) in
  y <~ (if VGA_HEIGHT <=? y then vga_scroll 1 ;;; vga_flush ;;; return (VGA_HEIGHT - 1) else return y) ;;
  vga_cursor_set x y ;;; return 0.
Definition sys_vga_get_cursor : M vga Z :=
  x <~ vga_get_cursor_x ;; y <~ vga_get_cursor_y ;; return (Z.lor (u32 x) (u32 (Z.shiftl (u32 y) 16))).
Definition off_screen (x y : Z) : bool := (x <? 0) || (VGA_WIDTH <=? x) || (y <? 0) || (VGA_HEIGHT <=? y).
Definition sys_vga_set_cursor (frame : list Z) : M vga Z :=
  x <~ varg frame SC_OFF_RDI ;; y <~ varg frame SC_OFF_RSI ;;
  if off_screen (i32 x) (i32 y) then return (-1) else vga_cursor_set (i32 x) (i32 y) ;;; return 0.
Definition sys_vga_put_char (frame : list Z) : M vga Z :=
  x <~ varg frame SC_OFF_RDI ;; y <~ varg frame SC_OFF_RSI ;; c <~ varg frame SC_OFF_RDX ;; color <~ varg frame SC_OFF_R10 ;;
  if off_screen (i32 x) (i32 y) then return (-1) else
  vga_put_char (i32 x) (i32 y) c (u8 color) ;;; vga_flush_cell (i32 x) (i32 y) ;;; return 0.
Definition sys_vga_scroll (frame : list Z) : M vga Z :=
  lines <~ varg frame SC_OFF_RDI ;; if i32 lines <=? 0 then return (-1) else vga_scroll (i32 lines) ;;; vga_flush ;;; return 0.
Definition sys_vga_cursor_enable (frame : list Z) : M vga Z :=
  start <~ varg frame SC_OFF_RDI ;; end_ <~ varg frame SC_OFF_RSI ;; vga_cursor_enable (u8 start) (u8 end_) ;;; return 0.
End Calls.
End Vga.
Arguments vga : clear implicits.
Arguments Vga {R}.
