(* ===== verification/VgaSpec.v ===== *)
(** * Text screen: what is drawn, and when it is on the screen

    Drawing calls paint rectangles of the shadow buffer and mark what they change; a flush then makes the video memory equal
    to the shadow.  Writing text lays it out on an endless page of which the screen shows the last rows. *)

From stdpp Require Import base numbers list options.
From S2P Require Import Prelude Ports FileSys Vga.
#[local] Set Default Proof Using "Type*".

Ltac dims := unfold CELLS, VGA_WIDTH, VGA_HEIGHT in *; change (80 * 25) with 2000 in *.
(** Tests of comparisons, by cases. *)
Ltac ztests := repeat match goal with
  | |- context [Z.ltb ?a ?b] => destruct (Z.ltb_spec a b)
  | |- context [Z.leb ?a ?b] => destruct (Z.leb_spec a b)
  | |- context [Z.eqb ?a ?b] => destruct (Z.eqb_spec a b)
  end.

Section Screen.
Context {R : Type} `{!Ports R}.
Implicit Types s : vga R.

Definition screen_ok s : Prop :=
  length (g_shadow s) = 2000%nat /\ length (g_dirty s) = 2000%nat /\ (forall m, g_vga_mem s = Some m -> length m = 2000%nat) /\
  0 <= g_cursor_x s < 80 /\ 0 <= g_cursor_y s < 25.
(** A clean cell is on the screen. *)
Definition synced s : Prop := forall m i, g_vga_mem s = Some m -> zget (g_dirty s) i = Some 0 -> zget m i = zget (g_shadow s) i.
Definition shown s : Prop := forall m, g_vga_mem s = Some m -> m = g_shadow s.

(** ** Single cells *)

Lemma put_cell_run i e d s : screen_ok s -> 0 <= i < 2000 ->
  put_cell i e d s = Some (tt, set_cells (<[Z.to_nat i := e]> (g_shadow s)) (<[Z.to_nat i := d]> (g_dirty s)) s).
Proof. intros (H1&H2&_) Hi. unfold put_cell, mget, mlift, mbind_. rewrite !zset_Some by lia. done. Qed.
Lemma show_cell_run i s m : screen_ok s -> g_vga_mem s = Some m -> 0 <= i < 2000 -> exists m',
  show_cell i s = Some (tt, set_mem (Some m') s) /\ length m' = 2000%nat /\
  forall j, 0 <= j < 2000 -> zget m' j = if i =? j then zget (g_shadow s) j else zget m j.
Proof.
  intros (H1&H2&H3&_) Hm Hi. destruct (zget_is_Some (g_shadow s) i) as [e He]; [lia|]. specialize (H3 m Hm).
  exists (<[Z.to_nat i := e]> m). unfold show_cell, mget, mlift, mbind_. rewrite He, Hm, zset_Some by lia. split; [done|]. split; [by rewrite length_insert|].
  intros j Hj. rewrite zget_insert by lia. destruct (Z.eqb_spec i j) as [->|]; [by rewrite decide_True|by rewrite decide_False].
Qed.
Lemma set_mem_ok m s : screen_ok s -> length m = 2000%nat -> screen_ok (set_mem (Some m) s).
Proof. intros (H1&H2&H3&H4) Hm. do 2 (split; [done|]). split; [|done]. by intros ? [= <-]. Qed.
Lemma set_cells_ok sh di s : screen_ok s -> length sh = 2000%nat -> length di = 2000%nat -> screen_ok (set_cells sh di s).
Proof. intros (H1&H2&H3&H4) ??. done. Qed.

(** ** Flush *)

Lemma show_loop (wr : Z -> bool) (body : Z -> M (vga R) unit) s m : screen_ok s -> g_vga_mem s = Some m ->
  (forall i m', 0 <= i < 2000 -> body i (set_mem (Some m') s) = (if wr i then show_cell i else return tt) (set_mem (Some m') s)) ->
  exists m', for_range 0 CELLS body s = Some (tt, set_mem (Some m') s) /\ length m' = 2000%nat /\
  forall j, 0 <= j < 2000 -> zget m' j = if wr j then zget (g_shadow s) j else zget m j.
Proof.
  intros Hok Hm Hb. pose proof Hok as (_&_&Hl&_). specialize (Hl m Hm).
  destruct (for_range_inv (fun i s' => exists m', s' = set_mem (Some m') s /\ length m' = 2000%nat /\
    forall j, 0 <= j < 2000 -> zget m' j = if wr j && (j <? i) then zget (g_shadow s) j else zget m j) 0 CELLS body s) as (s'&Hr&m'&->&Hl'&Hm').
  - dims. lia.
  - exists m. split; [destruct s; cbn in *; by subst|]. split; [done|]. intros j Hj. by rewrite (proj2 (Z.ltb_ge j 0)), andb_false_r by lia.
  - dims. intros i s' Hi (m1&->&Hl1&Hm1). rewrite Hb by lia. destruct (wr i) eqn:E.
    + destruct (show_cell_run i (set_mem (Some m1) s) m1) as (m2&Hr&Hl2&Hm2); [by apply set_mem_ok|done|lia|]. exists (set_mem (Some m2) s). split; [done|].
      exists m2. split; [done|]. split; [done|]. intros j Hj. rewrite Hm2, Hm1 by done. cbn [g_shadow set_mem].
      destruct (Z.eqb_spec i j) as [->|]; [rewrite E, (proj2 (Z.ltb_lt _ _)) by lia; done|]. destruct (wr j); [|done]. cbn. ztests; done || lia.
    + exists (set_mem (Some m1) s). split; [done|]. exists m1. split; [done|]. split; [done|]. intros j Hj. rewrite Hm1 by done.
      destruct (decide (i = j)) as [->|]; [by rewrite E|]. destruct (wr j); [|done]. cbn. ztests; done || lia.
  - exists m'. split; [done|]. split; [done|]. intros j Hj. rewrite Hm' by done. dims. rewrite (proj2 (Z.ltb_lt j 2000)), andb_true_r by lia. done.
Qed.
Lemma clean_loop s : screen_ok s -> for_range 0 CELLS clean_cell s = Some (tt, set_cells (g_shadow s) (replicate 2000 0) s).
Proof.
  intros (H1&H2&H3). destruct (for_range_inv (fun i s' => exists di, s' = set_cells (g_shadow s) di s /\ length di = 2000%nat /\
    forall j, 0 <= j < i -> zget di j = Some 0) 0 CELLS clean_cell s) as (s'&Hr&di&->&Hl&Hd).
  - dims. lia.
  - exists (g_dirty s). split; [by destruct s|]. split; [done|]. lia.
  - dims. intros i s' Hi (di&->&Hl&Hd). unfold clean_cell, mget, mlift, mbind_. cbn. rewrite zset_Some by lia. eexists. split; [reflexivity|].
    eexists. split; [reflexivity|]. split; [by rewrite length_insert|]. intros j Hj. rewrite zget_insert by lia. case_decide; [done|]. apply Hd. lia.
  - rewrite Hr. do 3 f_equal. apply list_eq_same_length with 2000%nat; [by rewrite length_replicate|done|].
    dims. intros k x y Hk Hx Hy. apply lookup_replicate in Hy as [-> _]. specialize (Hd (Z.of_nat k) ltac:(lia)). rewrite zget_nat, Hx in Hd. congruence.
Qed.
(** The cells a flush writes: all when three quarters are dirty. *)
Definition flushes s (i : Z) : bool := (1500 <=? dirty_count (g_dirty s)) || match zget (g_dirty s) i with Some d => negb (d =? 0) | None => false end.
Lemma vga_flush_run s m : screen_ok s -> g_vga_mem s = Some m -> g_batch_mode s = false -> exists m',
  vga_flush s = Some (tt, set_cells (g_shadow s) (replicate 2000 0) (set_mem (Some m') s)) /\ length m' = 2000%nat /\
  forall j, 0 <= j < 2000 -> zget m' j = if flushes s j then zget (g_shadow s) j else zget m j.
Proof.
  intros Hok Hm Hb. unfold vga_flush, mget, mbind_ at 1. rewrite Hm, Hb. change (CELLS * 3 / 4) with 1500.
  assert (exists m', (if 1500 <=? dirty_count (g_dirty s) then for_range 0 CELLS show_cell
     else for_range 0 CELLS (fun i => s <~ mget ;; d <~ mlift (zget (g_dirty s) i) ;; mwhen (negb (d =? 0)) (show_cell i))) s = Some (tt, set_mem (Some m') s) /\
     length m' = 2000%nat /\ forall j, 0 <= j < 2000 -> zget m' j = if flushes s j then zget (g_shadow s) j else zget m j) as (m'&Hr&Hl&Hm').
  { unfold flushes. destruct (1500 <=? dirty_count (g_dirty s)).
    - by apply show_loop.
    - apply show_loop; [done..|]. intros i m' Hi. unfold mget, mlift, mbind_. cbn [g_dirty set_mem orb]. destruct (zget_is_Some (g_dirty s) i) as [d Hd]; [destruct Hok; lia|].
      rewrite Hd. by destruct (negb (d =? 0)). }
  exists m'. split; [|done]. unfold mget, mbind_ in Hr |- *. rewrite Hr. by rewrite clean_loop by by apply set_mem_ok.
Qed.
Lemma vga_flush_off s : g_vga_mem s = None \/ g_batch_mode s = true -> vga_flush s = Some (tt, s).
Proof. intros H. unfold vga_flush, mget, mbind_ at 1. destruct (g_vga_mem s), (g_batch_mode s), H; done. Qed.
(** What a flush leaves alone. *)
Definition same_but_screen s s' : Prop :=
  g_shadow s' = g_shadow s /\ g_fg s' = g_fg s /\ g_bg s' = g_bg s /\ g_cursor_x s' = g_cursor_x s /\ g_cursor_y s' = g_cursor_y s /\
  g_batch_mode s' = g_batch_mode s /\ (is_Some (g_vga_mem s') <-> is_Some (g_vga_mem s)) /\ v_io s' = v_io s.
Lemma synced_flush s : screen_ok s -> exists s', vga_flush s = Some (tt, s') /\ screen_ok s' /\ same_but_screen s s' /\
  (synced s -> synced s' /\ (g_batch_mode s = false -> shown s')).
Proof.
  intros Hok. destruct (decide (g_vga_mem s = None \/ g_batch_mode s = true)) as [Hoff|Hon].
  { exists s. split; [by apply vga_flush_off|]. split; [done|]. split; [by repeat split|]. intros Hs. split; [done|]. intros Hb m Hm. destruct Hoff; congruence. }
  destruct (g_vga_mem s) as [m|] eqn:Hm; [|tauto]. assert (g_batch_mode s = false) as Hb by (destruct (g_batch_mode s); tauto).
  destruct (vga_flush_run s m Hok Hm Hb) as (m'&Hr&Hl&Hm'). eexists. split; [exact Hr|]. split.
  { apply set_cells_ok; [by apply set_mem_ok|by destruct Hok|by rewrite length_replicate]. }
  split; [repeat split; cbn; rewrite ?Hm; eauto|]. intros Hs. assert (m' = g_shadow s) as ->; [|split; [by intros ? i [= <-]|by intros _ ? [= <-]]].
  pose proof Hok as (Hsh&Hdi&_). apply list_eq_same_length with 2000%nat; [done..|]. intros k x y Hk Hx Hy.
  specialize (Hm' (Z.of_nat k) ltac:(lia)). unfold flushes in Hm'. pose proof (Hs m (Z.of_nat k) Hm) as Hc. rewrite !zget_nat, Hx, Hy in *.
  destruct (lookup_lt_is_Some_2 (g_dirty s) k) as [d Hd]; [lia|]. rewrite Hd in Hm', Hc.
  destruct (_ || _) eqn:E in Hm'; [congruence|]. apply orb_false_iff in E as [_ E]. destruct (Z.eqb_spec d 0) as [Hd0|]; [|done]. rewrite Hc in Hm' by congruence. congruence.
Qed.

(** ** Painting *)

Definition on_screen (x y : Z) : Prop := 0 <= x < 80 /\ 0 <= y < 25.
Definition cell s (x y : Z) : option Z := zget (g_shadow s) (y * 80 + x).
(** The cells of [reg] get the entry [e], no other cell changes, and every change is marked. *)
Definition paints (reg : Z -> Z -> bool) (e : Z) s s' : Prop :=
  (exists sh di, s' = set_cells sh di s) /\ screen_ok s' /\ (synced s -> synced s') /\
  forall x y, on_screen x y -> cell s' x y = if reg x y then Some e else cell s x y.

Lemma paints_none e s : screen_ok s -> paints (fun _ _ => false) e s s.
Proof. intros. split; [exists (g_shadow s), (g_dirty s); by destruct s|]. done. Qed.
Lemma paints_ext reg reg' e s s' : (forall x y, on_screen x y -> reg x y = reg' x y) -> paints reg e s s' -> paints reg' e s s'.
Proof. intros He (H1&H2&H3&H4). do 3 (split; [done|]). intros x y Hxy. by rewrite <-He, H4. Qed.
Lemma paints_trans r1 r2 e s s1 s2 : paints r1 e s s1 -> paints r2 e s1 s2 -> paints (fun x y => r1 x y || r2 x y) e s s2.
Proof.
  intros ((sh&di&->)&H2&H3&H4) ((sh'&di'&->)&H2'&H3'&H4'). split; [by exists sh', di'|]. split; [done|]. split; [auto|].
  intros x y Hxy. rewrite H4', H4 by done. by destruct (r1 x y), (r2 x y).
Qed.
Lemma put_cell_paints i e s : screen_ok s -> 0 <= i < 2000 -> exists s',
  put_cell i e 1 s = Some (tt, s') /\ paints (fun x y => y * 80 + x =? i) e s s'.
Proof.
  intros Hok Hi. pose proof Hok as (H1&H2&_). eexists. split; [by apply put_cell_run|]. split; [by do 2 eexists|]. split; [|split].
  - apply set_cells_ok; [done|by rewrite length_insert..].
  - intros Hs m j Hm Hd. cbn in *. rewrite zget_insert in Hd by lia. rewrite zget_insert by lia. case_decide; [done|]. by apply Hs.
  - intros x y [Hx Hy]. unfold cell. cbn. rewrite zget_insert by lia. case_decide; ztests; done || lia.
Qed.
Lemma paints_loop (reg : Z -> Z -> Z -> bool) e a b body s : screen_ok s ->
  (forall i s, a <= i < b -> screen_ok s -> exists s', body i s = Some (tt, s') /\ paints (reg i) e s s') ->
  exists s', for_range a b body s = Some (tt, s') /\ paints (fun x y => existsb (fun i => reg i x y) (seqZ a (b - a))) e s s'.
Proof.
  intros Hok Hb. destruct (Z.le_gt_cases b a) as [Hab|Hab].
  { exists s. split; [by apply for_range_empty|]. rewrite (seqZ_nil a (b - a)) by lia. by apply paints_none. }
  apply (for_range_inv (fun i s' => paints (fun x y => existsb (fun i => reg i x y) (seqZ a (i - a))) e s s')); [lia| |].
  - rewrite Z.sub_diag. by apply paints_none.
  - intros i s1 Hi Hp. destruct (Hb i s1 Hi) as (s2&Hr&Hp2); [apply Hp|]. exists s2. split; [done|].
    refine (paints_ext _ _ _ _ _ _ (paints_trans _ _ _ _ _ _ Hp Hp2)). intros x y _. cbn. replace (i + 1 - a) with (i - a + 1) by lia.
    rewrite (seqZ_app a (i - a) 1), existsb_app, seqZ_1 by lia. cbn [existsb]. replace (a + (i - a)) with i by lia. by rewrite orb_false_r.
Qed.
Lemma existsb_seqZ (f : Z -> bool) a n (r : bool) : (r = true <-> exists i, a <= i < a + n /\ f i = true) -> existsb f (seqZ a n) = r.
Proof.
  intros Hr. apply eq_true_iff_eq. rewrite Hr, existsb_exists. split.
  - intros (i&Hi&Hf). exists i. split; [by apply elem_of_seqZ, list_elem_of_In|done].
  - intros (i&Hi&Hf). exists i. split; [by apply list_elem_of_In, elem_of_seqZ|done].
Qed.

(** The cell [x, y]; a rectangle. *)
Definition at_cell (x y x' y' : Z) : bool := (x' =? x) && (y' =? y).
Definition in_rect (x y w h x' y' : Z) : bool := (x <=? x') && (x' <? x + w) && (y <=? y') && (y' <? y + h).
Ltac bools := rewrite ?andb_true_iff, ?Z.leb_le, ?Z.ltb_lt, ?Z.eqb_eq.

Lemma put_char_paints x y c color s : screen_ok s -> exists v s',
  vga_put_char x y c color s = Some (v, s') /\ paints (at_cell x y) (vga_entry c color) s s' /\
  v = match (if off_screen x y then None else cell s x y) with Some old => i8 (Z.land old 0xFF) | None => 0 end.
Proof.
  intros Hok. pose proof Hok as (H1&H2&_). unfold vga_put_char. change ((x <? 0) || (VGA_WIDTH <=? x) || (y <? 0) || (VGA_HEIGHT <=? y)) with (off_screen x y).
  destruct (off_screen x y) eqn:E; unfold off_screen in E; dims.
  - exists 0, s. split; [done|]. split; [|done]. refine (paints_ext _ _ _ _ _ _ (paints_none _ s Hok)). intros x' y' [Hx Hy].
    symmetry. apply not_true_iff_false. unfold at_cell. bools. intros [-> ->]. rewrite !orb_true_iff, !Z.ltb_lt, !Z.leb_le in E. lia.
  - rewrite !orb_false_iff, !Z.ltb_ge, !Z.leb_gt in E. assert (0 <= y * 80 + x < 2000) as Hi by lia.
    destruct (zget_is_Some (g_shadow s) (y * 80 + x)) as [old Ho]; [lia|]. exists (i8 (Z.land old 0xFF)). unfold cell. rewrite Ho.
    unfold mget, mlift, mbind_, mwhen. rewrite Ho. destruct (Z.eqb_spec old (vga_entry c color)) as [->|Hne]; cbn [negb].
    + exists s. split; [done|]. split; [|done]. split; [exists (g_shadow s), (g_dirty s); by destruct s|]. do 2 (split; [done|]). intros x' y' Hxy.
      destruct (at_cell x y x' y') eqn:E'; [|done]. revert E'. unfold at_cell. bools. by intros [-> ->].
    + destruct (put_cell_paints _ (vga_entry c color) s Hok Hi) as (s'&Hr&Hp). exists s'. rewrite Hr. split; [done|]. split; [|done].
      refine (paints_ext _ _ _ _ _ _ Hp). intros x' y' [Hx Hy]. unfold at_cell. apply eq_true_iff_eq. bools. lia.
Qed.
(** A sum that an int holds. *)
Definition is_int (x : Z) : Prop := - 2 ^ 31 <= x < 2 ^ 31.
Lemma is_int_i32 x : is_int x -> i32 x = x.
Proof.
  unfold is_int, i32, swrap, wrap. intros Hx. change (32 - 1) with 31. destruct (decide (0 <= x)).
  - rewrite Z.mod_small by lia. by rewrite (proj2 (Z.ltb_lt _ _)) by lia.
  - replace x with (x + 2 ^ 32 + (-1) * 2 ^ 32) by lia. rewrite Z_mod_plus_full, Z.mod_small by lia. rewrite (proj2 (Z.ltb_ge _ _)) by lia. lia.
Qed.
Lemma fill_rect_paints x y w h c color s : screen_ok s -> is_int (x + w) -> is_int (y + h) -> exists s',
  vga_fill_rect x y w h c color s = Some (tt, s') /\ paints (in_rect x y w h) (vga_entry c color) s s'.
Proof.
  intros Hok Hw Hh. unfold vga_fill_rect. rewrite !is_int_i32 by done. destruct (paints_loop (fun row => in_rect x row w 1) (vga_entry c color) y (y + h)
    (fun row => for_range x (x + w) (fun col => vga_put_char col row c color ;;; return tt)) s Hok) as (s'&Hr&Hp).
  - intros row s1 Hrow Hok1. destruct (paints_loop (fun col => at_cell col row) (vga_entry c color) x (x + w)
      (fun col => vga_put_char col row c color ;;; return tt) s1 Hok1) as (s2&Hr2&Hp2).
    + intros col s3 Hcol Hok3. destruct (put_char_paints col row c color s3 Hok3) as (v&s4&Hr4&Hp4&_). exists s4. by mstep Hr4.
    + exists s2. split; [done|]. refine (paints_ext _ _ _ _ _ _ Hp2). intros x' y' _. apply existsb_seqZ. unfold in_rect, at_cell. bools.
      split; [intros; exists x'; bools; lia|intros (i&Hi&Hf); revert Hf; bools; lia].
  - exists s'. split; [done|]. refine (paints_ext _ _ _ _ _ _ Hp). intros x' y' _. apply existsb_seqZ. unfold in_rect. bools.
    split; [intros; exists y'; bools; lia|intros (i&Hi&Hf); revert Hf; bools; lia].
Qed.
Lemma hline_paints x y len color s : screen_ok s -> - 2 ^ 31 <= x -> x + len <= 2 ^ 31 -> exists s',
  vga_draw_hline x y len color s = Some (tt, s') /\ paints (in_rect x y len 1) (vga_entry 32 color) s s'.
Proof.
  intros Hok Hx Hl. destruct (paints_loop (fun i => at_cell (x + i) y) (vga_entry 32 color) 0 len (fun i => vga_put_char (i32 (x + i)) y 32 color ;;; return tt) s Hok) as (s'&Hr&Hp).
  - intros i s1 Hi Hok1. rewrite is_int_i32 by (unfold is_int; lia). destruct (put_char_paints (x + i) y 32 color s1 Hok1) as (v&s2&Hr2&Hp2&_). exists s2. by mstep Hr2.
  - exists s'. split; [done|]. refine (paints_ext _ _ _ _ _ _ Hp). intros x' y' _. apply existsb_seqZ. unfold in_rect, at_cell. bools.
    split; [intros; exists (x' - x); bools; lia|intros (i&Hi&Hf); revert Hf; bools; lia].
Qed.
Lemma update_cursor_run x y s : exists r, update_cursor x y s = Some (tt, set_v_io r s).
Proof. unfold update_cursor, outb, mbind_. cbn. eexists. reflexivity. Qed.

Lemma same_ok s s' : screen_ok s -> same_but_screen s s' -> length (g_dirty s') = 2000%nat -> (forall m, g_vga_mem s' = Some m -> length m = 2000%nat) -> screen_ok s'.
Proof. intros (H1&H2&H3&H4&H5) (E1&E2&E3&E4&E5&_) Hd Hm. unfold screen_ok. by rewrite E1, E4, E5. Qed.
Lemma flush_cell_run x y s : screen_ok s -> exists s',
  vga_flush_cell x y s = Some (tt, s') /\ screen_ok s' /\ same_but_screen s s' /\ (synced s -> synced s').
Proof.
  intros Hok. pose proof Hok as (H1&H2&H3&_). assert (same_but_screen s s) as Hself by by repeat split.
  unfold vga_flush_cell, mget, mbind_ at 1. destruct (g_vga_mem s) as [m|] eqn:Hm; [|by exists s]. destruct (g_batch_mode s); [by exists s|].
  dims. destruct (_ || _ || _ || _) eqn:E; [by exists s|]. rewrite !orb_false_iff, !Z.ltb_ge, !Z.leb_gt in E.
  set (i := y * 80 + x). destruct (zget_is_Some (g_shadow s) i) as [e He]; [lia|]. specialize (H3 m eq_refl).
  unfold show_cell, clean_cell, mget, mlift, mbind_. rewrite He, Hm, zset_Some by lia. cbn. rewrite zset_Some by lia. eexists. split; [reflexivity|].
  assert (same_but_screen s (set_cells (g_shadow s) (<[Z.to_nat i:=0]> (g_dirty s)) (set_mem (Some (<[Z.to_nat i:=e]> m)) s))) as Hsame.
  { repeat split; cbn; rewrite ?Hm; eauto. }
  split; [|split; [exact Hsame|]].
  - apply (same_ok _ _ Hok Hsame); [cbn; by rewrite length_insert|]. cbn. intros ? [= <-]. by rewrite length_insert.
  - intros Hs m' j [= <-] Hd. cbn in *. rewrite zget_insert in Hd |- * by lia. case_decide; [by subst|]. by apply Hs.
Qed.
Lemma batch_end_run s : screen_ok s -> exists s', vga_batch_end s = Some (tt, s') /\ screen_ok s' /\ same_but_screen (set_batch false s) s' /\ (synced s -> synced s').
Proof.
  intros Hok. unfold vga_batch_end, mmodify, mget, mbind_. set (s1 := set_batch false s). assert (screen_ok s1) as Hok1 by exact Hok.
  destruct (g_vga_mem s1) as [m|] eqn:Hm; [|by exists s1]. pose proof Hok1 as (H1&H2&H3&_). specialize (H3 m Hm).
  destruct (for_range_inv (fun i s' => exists m' di, s' = set_cells (g_shadow s1) di (set_mem (Some m') s1) /\ length m' = 2000%nat /\ length di = 2000%nat /\
    forall j, 0 <= j < i -> zget m' j = zget (g_shadow s1) j) 0 CELLS (fun i s' => match show_cell i s' with Some (_, t) => clean_cell i t | None => None end) s1)
    as (s'&Hr&m'&di&->&Hl&Hd&Hsh).
  - dims. lia.
  - exists m, (g_dirty s1). split; [destruct s1; cbn in *; by subst|]. split; [done|]. split; [done|lia].
  - dims. intros i s' Hi (m'&di&->&Hl&Hd&Hsh). destruct (zget_is_Some (g_shadow s1) i) as [e He]; [lia|].
    unfold show_cell, clean_cell, mget, mlift, mbind_. cbn [g_shadow g_vga_mem set_cells set_mem]. rewrite He, zset_Some by lia. cbn. rewrite zset_Some by lia.
    eexists. split; [reflexivity|]. eexists _, _. split; [reflexivity|]. rewrite !length_insert. do 2 (split; [done|]).
    intros j Hj. rewrite zget_insert by lia. case_decide; [by subst|]. apply Hsh. lia.
  - assert (same_but_screen s1 (set_cells (g_shadow s1) di (set_mem (Some m') s1))) as Hsame by (repeat split; cbn; rewrite ?Hm; eauto).
    eexists. split; [exact Hr|]. split; [apply (same_ok _ _ Hok1 Hsame); [done|by intros ? [= <-]]|]. split; [done|].
    intros _ m2 j [= <-] _. dims. destruct (decide (0 <= j < 2000)) as [Hj|Hj]; [by apply Hsh|]. change (zget m' j = zget (g_shadow s1) j). unfold zget. destruct (Z.leb_spec 0 j); [|done].
    rewrite !lookup_ge_None_2 by lia. done.
Qed.
Lemma clear_run s : screen_ok s -> exists s', vga_clear s = Some (tt, s') /\ screen_ok s' /\ g_fg s' = g_fg s /\ g_bg s' = g_bg s /\ (synced s -> synced s') /\
  g_cursor_x s' = 0 /\ g_cursor_y s' = 0 /\ forall x y, on_screen x y -> cell s' x y = Some (blank_of s).
Proof.
  intros Hok. destruct (paints_loop (fun i x y => y * 80 + x =? i) (blank_of s) 0 CELLS (fun i => put_cell i (blank_of s) 1) s Hok) as (s1&Hr1&(sh&di&E1)&Hok1&Hs1&Hp1).
  { dims. intros i t Hi Ht. by apply put_cell_paints. }
  assert (screen_ok (set_cursor 0 0 s1)) as Hok1'.
  { destruct Hok1 as (?&?&?&_). unfold screen_ok. cbn. repeat split; done || lia. }
  destruct (synced_flush (set_cursor 0 0 s1) Hok1') as (s2&Hr2&Hok2&(Esh&Ef&Eb&Ex&Ey&_)&Hs2). destruct (update_cursor_run 0 0 s2) as [r Hr].
  exists (set_v_io r s2). unfold vga_clear, mget, mbind_ at 1. rewrite (mbind_Some _ _ s tt s1 Hr1). unfold mmodify, mbind_ at 1. rewrite (mbind_Some _ _ _ _ _ Hr2).
  split; [exact Hr|]. split; [exact Hok2|]. cbn. rewrite Ef, Eb, Ex, Ey. rewrite E1. cbn. repeat (split; [done|]). split; [|split; [done|split; [done|]]].
  - intros Hs. apply Hs2, Hs1, Hs.
  - intros x y Hxy. unfold cell. cbn. rewrite Esh. change (g_shadow (set_cursor 0 0 s1)) with (g_shadow s1). fold (cell s1 x y). rewrite Hp1 by done.
    rewrite (existsb_seqZ _ _ _ true); [done|]. split; [|done]. intros _. exists (y * 80 + x). rewrite Z.eqb_refl. destruct Hxy. dims. lia.
Qed.
Lemma cursor_set_run x y s : screen_ok s -> exists r, vga_cursor_set x y s = Some (tt, set_v_io r (set_cursor (clamp_pos x 80) (clamp_pos y 25) s)) /\
  screen_ok (set_v_io r (set_cursor (clamp_pos x 80) (clamp_pos y 25) s)).
Proof.
  intros (H1&H2&H3&_). destruct (update_cursor_run (clamp_pos x 80) (clamp_pos y 25) (set_cursor (clamp_pos x 80) (clamp_pos y 25) s)) as [r Hr]. exists r. split; [exact Hr|].
  do 3 (split; [done|]). cbn. unfold clamp_pos. split; ztests; lia.
Qed.
Lemma cursor_enable_run a b s : exists r, vga_cursor_enable a b s = Some (tt, set_v_io r s).
Proof.
  unfold vga_cursor_enable, outb, inb, mbind_. cbn. destruct (bus_in8 _ _) as [v r]. cbn. destruct (bus_in8 _ _) as [v' r']. cbn. eexists. reflexivity.
Qed.

(** ** The drawing calls *)

Inductive draw :=
  DPut (x y c color : Z) | DFill (x y w h c color : Z) | DLine (x y len color : Z) | DColor (fg bg : Z) | DClear
| DCursor (x y : Z) | DShape (start end_ : Z) | DFlush | DFlushCell (x y : Z) | DBatch | DBatchEnd.
Definition run_draw (d : draw) : M (vga R) unit :=
  match d with
  | DPut x y c color => vga_put_char x y c color ;;; return tt
  | DFill x y w h c color => vga_fill_rect x y w h c color
  | DLine x y len color => vga_draw_hline x y len color
  | DColor fg bg => vga_set_color fg bg
  | DClear => vga_clear
  | DCursor x y => vga_cursor_set x y
  | DShape a b => vga_cursor_enable a b
  | DFlush => vga_flush
  | DFlushCell x y => vga_flush_cell x y
  | DBatch => vga_batch_start
  | DBatchEnd => vga_batch_end
  end.
Fixpoint run_draws (ds : list draw) : M (vga R) unit := match ds with [] => return tt | d :: ds => run_draw d ;;; run_draws ds end.

(** The picture the calls draw. *)
Record picture := Picture { pc_fg : Z; pc_bg : Z; pc_cell : Z -> Z -> Z }.
Definition pc_fill (reg : Z -> Z -> bool) (e : Z) (p : picture) : picture := Picture (pc_fg p) (pc_bg p) (fun x y => if reg x y then e else pc_cell p x y).
Definition paint (p : picture) (d : draw) : picture :=
  match d with
  | DPut x y c color => pc_fill (at_cell x y) (vga_entry c color) p
  | DFill x y w h c color => pc_fill (in_rect x y w h) (vga_entry c color) p
  | DLine x y len color => pc_fill (in_rect x y len 1) (vga_entry 32 color) p
  | DColor fg bg => Picture fg bg (pc_cell p)
  | DClear => pc_fill (fun _ _ => true) (vga_entry 32 (vga_make_color (pc_fg p) (pc_bg p))) p
  | _ => p
  end.
Definition depicts s (p : picture) : Prop := g_fg s = pc_fg p /\ g_bg s = pc_bg p /\ forall x y, on_screen x y -> cell s x y = Some (pc_cell p x y).
Definition drawn s (p : picture) : Prop := screen_ok s /\ synced s /\ depicts s p.

Lemma drawn_paints reg e s s' p : drawn s p -> paints reg e s s' -> drawn s' (pc_fill reg e p).
Proof.
  intros (_&Hs&Hf&Hb&Hc) ((sh&di&E)&Hok&Hs'&Hc'). split; [done|]. split; [auto|]. rewrite E in *. split; [done|]. split; [done|].
  intros x y Hxy. rewrite Hc', Hc by done. cbn. by destruct (reg x y).
Qed.
Lemma drawn_same s s' p : drawn s p -> screen_ok s' -> (synced s -> synced s') -> same_but_screen s s' -> drawn s' p.
Proof.
  intros (_&Hs&Hf&Hb&Hc) Hok Hs' (E1&E2&E3&_). split; [done|]. split; [auto|]. unfold depicts, cell. by rewrite E1, E2, E3.
Qed.
(** The sums the rectangle and the line compute fit an int. *)
Definition draw_fits (d : draw) : Prop :=
  match d with
  | DFill x y w h _ _ => is_int (x + w) /\ is_int (y + h)
  | DLine x _ len _ => - 2 ^ 31 <= x /\ x + len <= 2 ^ 31
  | _ => True
  end.
Lemma draw_step d s p : draw_fits d -> drawn s p -> exists s', run_draw d s = Some (tt, s') /\ drawn s' (paint p d).
Proof.
  intros Hi Hd. pose proof Hd as (Hok&Hs&Hf&Hb&Hc). destruct d as [x y c color|x y w h c color|x y len color|fg bg| |x y|a b| |x y| |]; cbn [run_draw paint].
  - destruct (put_char_paints x y c color s Hok) as (v&s'&Hr&Hp&_). exists s'. mstep Hr. split; [done|]. by eapply drawn_paints.
  - destruct (fill_rect_paints x y w h c color s Hok (proj1 Hi) (proj2 Hi)) as (s'&Hr&Hp). exists s'. split; [done|]. by eapply drawn_paints.
  - destruct (hline_paints x y len color s Hok (proj1 Hi) (proj2 Hi)) as (s'&Hr&Hp). exists s'. split; [done|]. by eapply drawn_paints.
  - eexists. split; [reflexivity|]. by split.
  - destruct (clear_run s Hok) as (s'&Hr&Hok'&Ef&Eb&Hs'&_&_&Hc'). exists s'. split; [done|]. split; [done|]. split; [auto|].
    split; [by rewrite Ef|]. split; [by rewrite Eb|]. intros x y Hxy. rewrite Hc' by done. unfold blank_of. by rewrite Hf, Hb.
  - destruct (cursor_set_run x y s Hok) as (r&Hr&Hok'). eexists. split; [exact Hr|]. by split.
  - destruct (cursor_enable_run a b s) as [r Hr]. eexists. split; [exact Hr|]. by split.
  - destruct (synced_flush s Hok) as (s'&Hr&Hok'&Hsame&Hs'). exists s'. split; [done|]. apply (drawn_same s); [done|done|intros H; by apply Hs'|done].
  - destruct (flush_cell_run x y s Hok) as (s'&Hr&Hok'&Hsame&Hs'). exists s'. split; [done|]. by apply (drawn_same s).
  - eexists. split; [reflexivity|]. by split.
  - destruct (batch_end_run s Hok) as (s'&Hr&Hok'&Hsame&Hs'). exists s'. split; [done|]. by apply (drawn_same (set_batch false s)).
Qed.
Lemma draws_run ds s p : Forall draw_fits ds -> drawn s p -> exists s', run_draws ds s = Some (tt, s') /\ drawn s' (foldl paint p ds).
Proof.
  intros Hds. revert s p. induction Hds as [|d ds Hi _ IH]; intros s p Hd; cbn; [by exists s|].
  destruct (draw_step d s p Hi Hd) as (s1&Hr&Hd1). destruct (IH s1 _ Hd1) as (s2&Hr2&Hd2). exists s2. by mstep Hr.
Qed.
(** C36: the drawing calls are a canvas.  Whatever sequence of single characters, filled rectangles, horizontal lines, clears, colours, cursor
    moves and shapes, flushes and batches is drawn (the calls of [draw], each whose sums fit an int, on a screen where the cells not marked dirty
    are shown), every call returns, no access leaves the screen, the shadow is the picture the sequence paints (each call exactly its cells,
    clipped to the screen), the cells not marked dirty are still shown, and the next flush outside a batch makes the video memory equal to the
    picture.  Scrolling, strings (which scroll) and the scanline overlay are not among the calls: they lose the marks of dirty cells
    ([scroll_not_shown], [scanlines_not_shown]). *)
Theorem drawing_shown (ds : list draw) s p : Forall draw_fits ds -> screen_ok s -> synced s -> depicts s p -> exists s',
  run_draws ds s = Some (tt, s') /\ screen_ok s' /\ synced s' /\ depicts s' (foldl paint p ds) /\
  exists s'', vga_flush s' = Some (tt, s'') /\ depicts s'' (foldl paint p ds) /\ (g_batch_mode s' = false -> shown s'').
Proof.
  intros Hds Hok Hs Hp. destruct (draws_run ds s p Hds ltac:(by split)) as (s'&Hr&Hd). exists s'. split; [done|]. pose proof Hd as (Hok'&Hs'&Hp').
  do 3 (split; [done|]). destruct (synced_flush s' Hok') as (s''&Hr''&Hok''&Hsame&Hs''). exists s''. split; [done|]. split; [|by apply Hs''].
  apply (drawn_same s' s'' _ Hd Hok''); [|done]. intros H. by apply Hs''.
Qed.
End Screen.

(** ** Text *)

(** An endless page: rows from 0 down; the cursor's column is 80 after a full row. *)
Notation page := (Z -> Z -> Z) (only parsing).
(** One byte of text, not a tab. *)
Definition tty_char (color : Z) (t : page * Z * Z) (c : Z) : page * Z * Z :=
  let '(pg, x, y) := t in
  if c =? 13 then (pg, 0, y) else if c =? 10 then (pg, 0, y + 1) else
  let '(x, y) := if 80 <=? x then (0, y + 1) else (x, y) in
  (fun x' y' => if at_cell x y x' y' then vga_entry c color else pg x' y', x + 1, y).

Section Text.
Context {R : Type} `{!Ports R}.
Implicit Types s : vga R.

(** The page a screen is the top of. *)
Definition page_of s : page := fun x y => if y <? 25 then default 0 (cell s x y) else blank_of s.
(** The shadow buffer holds the rows of the page from [k] on. *)
Definition window s (k : Z) (pg : page) : Prop := forall x y, on_screen x y -> cell s x y = Some (pg x (y + k)).

Lemma move_down_run a off n : 0 <= off -> 0 <= n -> off + n <= Z.of_nat (length a) -> exists a',
  move_down a off n = Some a' /\ length a' = length a /\ forall i, 0 <= i < n -> zget a' i = zget a (off + i).
Proof.
  intros H1 H2 H3. unfold move_down. rewrite slice_Some by lia. cbn. set (src := take _ _).
  assert (Z.of_nat (length src) = n) as Hn by (unfold src; rewrite length_take, length_drop; lia).
  destruct (splice 0 src a) as [a'|] eqn:E; [|rewrite splice_Some in E; done || lia]. exists a'. split; [done|]. split; [by eapply splice_length|].
  apply splice_inv in E as (_&_&->). intros i Hi. unfold zget. rewrite !(proj2 (Z.leb_le _ _)) by lia. change (take (Z.to_nat 0) a) with (@nil Z). rewrite app_nil_l.
  rewrite (lookup_app_l src) by lia. unfold src. rewrite lookup_take_lt, lookup_drop by lia. f_equal. lia.
Qed.
Lemma scroll_run n s : screen_ok s -> 0 < n < 25 -> exists s', vga_scroll n s = Some (tt, s') /\ (exists sh di, s' = set_cells sh di s) /\ screen_ok s' /\
  forall x y, on_screen x y -> cell s' x y = if y + n <? 25 then cell s x (y + n) else Some (blank_of s).
Proof.
  intros Hok Hn. pose proof Hok as (H1&H2&_). unfold vga_scroll. dims. rewrite (proj2 (Z.leb_gt n 0)), (proj2 (Z.leb_gt 25 n)) by lia.
  destruct (move_down_run (g_shadow s) (n * 80) ((25 - n) * 80)) as (sh&Hsh&Lsh&Gsh); [lia..|].
  destruct (move_down_run (g_dirty s) (n * 80) ((25 - n) * 80)) as (di&Hdi&Ldi&_); [lia..|].
  unfold mget, mlift, mput, mbind_. rewrite Hsh, Hdi. assert (screen_ok (set_cells sh di s)) as Hok1 by (apply set_cells_ok; [done|congruence..]).
  destruct (paints_loop (fun i x y => y * 80 + x =? i) (blank_of s) ((25 - n) * 80) 2000 (fun i => put_cell i (blank_of s) 1) _ Hok1) as (s'&Hr&(sh'&di'&->)&Hok'&_&Hp).
  { intros i t Hi Ht. apply put_cell_paints; [done|lia]. }
  eexists. split; [exact Hr|]. split; [by do 2 eexists|]. split; [done|]. intros x y Hxy. rewrite Hp by done. destruct Hxy as [Hx Hy].
  rewrite (existsb_seqZ _ _ _ (negb (y + n <? 25))).
  - destruct (Z.ltb_spec (y + n) 25); [|done]. cbn [negb]. unfold cell. cbn. rewrite Gsh by lia. f_equal. lia.
  - rewrite negb_true_iff, Z.ltb_ge. split; [intros; exists (y * 80 + x); rewrite Z.eqb_eq; lia|intros (i&Hi&Hf%Z.eqb_eq); lia].
Qed.
Lemma scroll_window n s k pg : screen_ok s -> 0 < n < 25 -> window s k pg -> (forall x y, k + 25 <= y -> pg x y = blank_of s) -> exists s',
  vga_scroll n s = Some (tt, s') /\ (exists sh di, s' = set_cells sh di s) /\ screen_ok s' /\ window s' (k + n) pg.
Proof.
  intros Hok Hn Hw Hb. destruct (scroll_run n s Hok Hn) as (s'&Hr&Hf&Hok'&Hc). exists s'. do 3 (split; [done|]). intros x y Hxy. rewrite Hc by done. destruct Hxy.
  destruct (Z.ltb_spec (y + n) 25); [rewrite Hw by (split; lia)|rewrite Hb by lia; done]. do 2 f_equal. lia.
Qed.

(** The state of the loop of [sys_vga_write] that started in [s0]. *)
Definition writing s0 s (k x y : Z) (pg : page) : Prop :=
  (exists sh di, s = set_cells sh di s0) /\ screen_ok s /\ window s k pg /\ 0 <= k /\ 0 <= x <= 80 /\ 0 <= y - k < 25 /\
  (forall x' y', k + 25 <= y' -> pg x' y' = blank_of s0) /\ (k = 0 -> synced s0 -> synced s).

Lemma writing_scroll s0 s k x pg : writing s0 s k x (k + 24) pg -> exists s',
  vga_scroll 1 s = Some (tt, s') /\ writing s0 s' (k + 1) x (k + 25) pg.
Proof.
  intros ((sh&di&->)&Hok&Hw&Hk&Hx&Hy&Hb&_). destruct (scroll_window 1 _ k pg Hok) as (s'&Hr&(sh'&di'&->)&Hok'&Hw'); [lia|done|exact Hb|].
  eexists. split; [exact Hr|]. split; [by do 2 eexists|]. do 2 (split; [done|]). do 3 (split; [lia|]). split; [|lia]. intros x' y' Hy'. apply Hb. lia.
Qed.
Lemma writing_put s0 s k x y pg c color : writing s0 s k x y pg -> x < 80 -> exists v s',
  vga_put_char x (y - k) c color s = Some (v, s') /\ writing s0 s' k (x + 1) y (fun x' y' => if at_cell x y x' y' then vga_entry c color else pg x' y').
Proof.
  intros ((sh&di&->)&Hok&Hw&Hk&Hx&Hy&Hb&Hs) Hx80. destruct (put_char_paints x (y - k) c color _ Hok) as (v&s'&Hr&((sh'&di'&->)&Hok'&Hs'&Hp)&_).
  exists v. eexists. split; [exact Hr|]. split; [by do 2 eexists|]. split; [done|]. split; [|split; [done|split; [lia|split; [done|split]]]].
  - intros x' y' Hxy. rewrite Hp, Hw by done. replace (at_cell x (y - k) x' y') with (at_cell x y x' (y' + k)); [by destruct (at_cell _ _ _ _)|].
    unfold at_cell. f_equal. apply eq_true_iff_eq. rewrite !Z.eqb_eq. lia.
  - intros x' y' Hy'. rewrite Hb by done. destruct (at_cell x y x' y') eqn:E; [|done]. revert E. unfold at_cell. rewrite andb_true_iff, !Z.eqb_eq. lia.
  - intros. by apply Hs', Hs.
Qed.
Lemma write_char_run s0 s k x y pg c color : writing s0 s k x y pg -> c <> 9 ->
  let '(pg', x', y') := tty_char color (pg, x, y) c in let k' := Z.max k (y' - 24) in exists s',
  write_char c x (y - k) color s = Some ((x', y' - k'), s') /\ writing s0 s' k' x' y' pg' /\ y <= y'.
Proof.
  intros Hw Hc. pose proof Hw as (Hf&Hok&Hwin&Hk&Hx&Hy&Hb&Hs). unfold tty_char, write_char. dims. destruct (Z.eqb_spec c 13) as [|_].
  { rewrite (Z.max_l k) by lia. exists s. split; [done|]. split; [|lia]. do 4 (split; [done|]). split; [lia|done]. }
  destruct (Z.eqb_spec c 10) as [|_].
  { destruct (Z.leb_spec 25 (y - k + 1)).
    - replace y with (k + 24) in Hw by lia. destruct (writing_scroll _ _ _ _ _ Hw) as (s'&Hr&(?&?&?&?&_&H')). exists s'. mstep Hr.
      replace (Z.max k (y + 1 - 24)) with (k + 1) by lia. unfold mret. split; [do 3 f_equal; lia|]. split; [|lia]. replace (y + 1) with (k + 25) by lia. by do 4 (split; [done|]).
    - rewrite (Z.max_l k) by lia. exists s. unfold mret. split; [do 3 f_equal; lia|]. split; [|lia]. do 4 (split; [done|]). split; [lia|]. split; [lia|done]. }
  rewrite (proj2 (Z.eqb_neq c 9)) by done.
  assert (exists x1 y1 s1 k1, (if 80 <=? x then (0, y + 1) else (x, y)) = (x1, y1) /\ x1 < 80 /\ k1 = Z.max k (y1 - 24) /\ writing s0 s1 k1 x1 y1 pg /\ y <= y1 /\
    (let '(x, y) := if 80 <=? x then (0, y - k + 1) else (x, y - k) in y <~ (if 25 <=? y then vga_scroll 1 ;;; return (25 - 1) else return y) ;;
     vga_put_char x y c color ;;; return (x + 1, y)) s = (vga_put_char x1 (y1 - k1) c color ;;; return (x1 + 1, y1 - k1)) s1) as (x1&y1&s1&k1&E1&Hx1&->&Hw1&Hle&Er).
  { destruct (Z.leb_spec 80 x).
    - exists 0, (y + 1). destruct (Z.leb_spec 25 (y - k + 1)).
      + assert (writing s0 s k 0 (k + 24) pg) as Hw0. { do 4 (split; [done|]). split; [lia|]. split; [lia|done]. }
        destruct (writing_scroll _ _ _ _ _ Hw0) as (s'&Hr&Hw'). exists s', (k + 1). split; [done|]. do 2 (split; [lia|]). split; [by replace (y + 1) with (k + 25) by lia|]. split; [lia|].
        unfold mbind_. rewrite Hr. cbn. by replace (y + 1 - (k + 1)) with 24 by lia.
      + exists s, k. split; [done|]. do 2 (split; [lia|]). split; [do 4 (split; [done|]); split; [lia|]; split; [lia|done]|]. split; [lia|]. unfold mret, mbind_. by replace (y - k + 1) with (y + 1 - k) by lia.
    - exists x, y, s, k. split; [done|]. split; [done|]. split; [lia|]. split; [done|]. split; [lia|]. rewrite (proj2 (Z.leb_gt 25 _)) by lia. done. }
  rewrite E1. set (k1 := Z.max k (y1 - 24)) in *. destruct (writing_put _ _ _ _ _ _ c color Hw1 Hx1) as (v&s2&Hr2&Hw2). exists s2. rewrite Er. mstep Hr2. done.
Qed.

Context `{!UserBytes R}.
Lemma u64_succ b (i : nat) : 0 <= b -> u64 (u64 (b + 1) + Z.of_nat i) = u64 (b + Z.of_nat (S i)).
Proof. intros. unfold u64. rewrite wrap_add_wrap_l by lia. f_equal. lia. Qed.
Lemma write_chars_run s0 text color : forall s k x y pg b, writing s0 s k x y pg -> 9 ∉ text -> 0 <= b < 2 ^ 64 ->
  (forall i c, text !! i = Some c -> ub_get (u64 (b + Z.of_nat i)) (v_io s0) = Some c) ->
  let '(pg', x', y') := foldl (tty_char color) (pg, x, y) text in let k' := Z.max k (y' - 24) in exists s',
  write_chars (length text) b x (y - k) color s = Some ((x', y' - k'), s') /\ writing s0 s' k' x' y' pg' /\ y <= y'.
Proof.
  induction text as [|c text IH]; intros s k x y pg b Hw Ht Hb Hm; cbn [foldl length].
  - pose proof Hw as (_&_&_&_&_&Hy&_). cbv zeta. rewrite (Z.max_l k) by lia. exists s. split; [done|]. split; [done|lia].
  - apply not_elem_of_cons in Ht as [Hc Ht]. pose proof (write_char_run s0 s k x y pg c color Hw ltac:(congruence)) as Hstep.
    destruct (tty_char color (pg, x, y) c) as [[pg1 x1] y1]. cbv zeta in Hstep. destruct Hstep as (s1&Hr&Hw1&Hle).
    pose proof (IH s1 _ x1 y1 pg1 (u64 (b + 1)) Hw1 Ht ltac:(apply (wrap_range 64); lia)) as IH'.
    destruct (foldl (tty_char color) (pg1, x1, y1) text) as [[pg2 x2] y2]. cbv zeta in *. destruct IH' as (s2&Hr2&Hw2&Hle2).
    { intros i d Hi. rewrite u64_succ by lia. by apply Hm. }
    replace (Z.max k (y2 - 24)) with (Z.max (Z.max k (y1 - 24)) (y2 - 24)) by lia. exists s2. split; [|split; [done|lia]].
    cbn [write_chars]. unfold mget at 1, mbind_ at 1. pose proof Hw as ((sh&di&Es)&_). pose proof (Hm 0%nat c eq_refl) as Hg. rewrite Z.add_0_r in Hg.
    unfold u64 in Hg. rewrite wrap_small in Hg by (unfold in_w; lia).
    assert (v_io s = v_io s0) as -> by by rewrite Es. rewrite Hg. unfold mlift at 1, mbind_ at 1. mstep Hr. exact Hr2.
Qed.
Lemma writing_start s : screen_ok s -> writing s s 0 (g_cursor_x s) (g_cursor_y s) (page_of s).
Proof.
  intros Hok. pose proof Hok as (H1&_&_&Hx&Hy). split; [exists (g_shadow s), (g_dirty s); by destruct s|]. split; [done|]. split; [|split; [done|split; [lia|split; [lia|split; [|done]]]]].
  - intros x y [Hcx Hcy]. unfold page_of. rewrite (proj2 (Z.ltb_lt _ _)) by lia. rewrite Z.add_0_r. unfold cell.
    destruct (zget_is_Some (g_shadow s) (y * 80 + x)) as [e ->]; [lia|done].
  - intros x y Hr. unfold page_of. by rewrite (proj2 (Z.ltb_ge _ _)) by lia.
Qed.

(** C37: sys_vga_write of a text without tabs lays it out as on an endless page.  Characters go from left to right, a full row goes on at the
    start of the next, line feeds and carriage returns move to the next and to the same row's start, and the shadow buffer then holds the page
    scrolled by just the rows needed to have the last row written in it, with blank rows coming in.  The call returns the count; the cursor is left
    after the text, but in the last column, on the text's last character, when the text filled its row.  What is in the shadow is on the screen
    only when nothing scrolled (and cells not marked dirty were on the screen and no batch is open): after a scroll the video memory of the rows
    that moved is not rewritten ([scroll_not_shown]). *)
Theorem sys_vga_write_layout (frame text : list Z) s buf : screen_ok s ->
  zget frame SC_OFF_RDI = Some buf -> zget frame SC_OFF_RSI = Some (Z.of_nat (length text)) -> text <> [] -> 9 ∉ text -> 0 <= buf < 2 ^ 64 ->
  ub_validate buf (Z.of_nat (length text)) (v_io s) = true ->
  (forall i c, text !! i = Some c -> ub_get (u64 (buf + Z.of_nat i)) (v_io s) = Some c) ->
  let '(pg, x, y) := foldl (tty_char (vga_make_color (g_fg s) (g_bg s))) (page_of s, g_cursor_x s, g_cursor_y s) text in let k := Z.max 0 (y - 24) in
  exists s', sys_vga_write frame s = Some (i64 (Z.of_nat (length text)), s') /\ screen_ok s' /\ window s' k pg /\
    g_cursor_x s' = Z.min x 79 /\ g_cursor_y s' = y - k /\ (k = 0 -> synced s -> g_batch_mode s = false -> shown s').
Proof.
  intros Hok Hbuf Hcount Hne Ht Hb Hv Hm. pose proof (write_chars_run s text (vga_make_color (g_fg s) (g_bg s)) s 0 _ _ _ buf (writing_start s Hok) Ht Hb Hm) as Hl.
  destruct (foldl _ _ text) as [[pg x] y]. cbv zeta in *. set (k := Z.max 0 (y - 24)) in *. destruct Hl as (s1&Hr&((sh&di&E1)&Hok1&Hw&Hk&Hx&Hy&_&Hs)&_).
  destruct (synced_flush s1 Hok1) as (s2&Hr2&Hok2&(Esh&_&_&_&_&Eb&_)&Hs2). destruct (cursor_set_run x (y - k) s2 Hok2) as (r&Hr3&Hok3). unfold mret.
  eexists. split; [|split; [exact Hok3|]].
  - unfold sys_vga_write, varg. unfold mlift at 1, mbind_ at 1. rewrite Hbuf. unfold mlift at 1, mbind_ at 1. rewrite Hcount.
    rewrite (proj2 (Z.eqb_neq _ 0)) by (destruct text; [done|cbn; lia]). unfold mget at 1, mbind_ at 1. rewrite Hv. cbn [negb].
    unfold vga_get_cursor_x, vga_get_cursor_y, vga_get_color, mgets. do 3 (unfold mbind_ at 1; cbn beta iota). rewrite Nat2Z.id. rewrite Z.sub_0_r in Hr. mstep Hr.
    mstep Hr2. mstep Hr3. reflexivity.
  - split; [|split; [|split]].
    + intros x' y' Hxy. unfold cell. cbn. rewrite Esh. by apply Hw.
    + cbn. unfold clamp_pos. ztests; lia.
    + cbn. unfold clamp_pos. ztests; lia.
    + intros Hk0 Hsy Hbm. apply (Hs2 (Hs Hk0 Hsy)). by rewrite E1.
Qed.
End Text.

(** ** What the screen does not show *)

(** A machine for the examples: ports that answer 0 and a user memory that starts at 0. *)
#[local] Instance demo_ports : Ports (list Z) := {
  bus_in8 := fun _ r => (0, r); bus_out8 := fun _ _ r => r; bus_in16 := fun _ r => (0, r); bus_out16 := fun _ _ r => r }.
#[local] Instance demo_bytes : UserBytes (list Z) := { ub_validate := fun _ _ _ => true; ub_get := fun a r => zget r a }.
Definition rows (f : Z -> Z) : list Z := mjoin ((fun y => replicate 80 (f y)) <$> seqZ 0 25).
(** Row [y] is full of the letter of index [y], and on the screen. *)
Definition demo_screen (x y : Z) (text : list Z) : vga (list Z) :=
  Vga (rows (fun y => 0x0741 + y)) (replicate 2000 0) 7 0 (Some (rows (fun y => 0x0741 + y))) x y false true false false 0 text.
Definition write_frame (text : list Z) : list Z := [80; 0; 0; 0; 0; Z.of_nat (length text); 0] ++ replicate 8 0.
Definition write_on (x y : Z) (text : list Z) : option (vga (list Z)) := snd <$> sys_vga_write (write_frame text) (demo_screen x y text).
Definition demo_text : list Z := [97; 98; 99; 10; 100].
Lemma demo_ok x y text : 0 <= x < 80 -> 0 <= y < 25 -> screen_ok (demo_screen x y text).
Proof. intros Hx Hy. split; [by vm_compute|]. split; [by vm_compute|]. split; [intros m [= <-]; by vm_compute|done]. Qed.
Lemma demo_synced x y text : synced (demo_screen x y text).
Proof. by intros m i [= <-] _. Qed.
Lemma sys_vga_write_layout_witness : exists s', sys_vga_write (write_frame demo_text) (demo_screen 78 10 demo_text) = Some (5, s') /\ g_cursor_x s' = 1 /\ g_cursor_y s' = 12.
Proof.
  destruct (sys_vga_write_layout (write_frame demo_text) demo_text (demo_screen 78 10 demo_text) 0 (demo_ok 78 10 demo_text ltac:(lia) ltac:(lia)) eq_refl eq_refl
    ltac:(done) ltac:(by apply (bool_decide_unpack (9 ∉ demo_text))) ltac:(lia) eq_refl) as (s'&Hr&_&_&Hx&Hy&_).
  - intros i c Hi. do 5 (destruct i as [|i]; [exact Hi|]). done.
  - exists s'. split; [exact Hr|]. split; [exact Hx|exact Hy].
Defined.
Definition demo_picture : picture := Picture 7 0 (fun _ y => 0x0741 + y).
Lemma demo_depicts : depicts (demo_screen 0 0 []) demo_picture.
Proof.
  split; [done|]. split; [done|]. intros x y [Hx Hy]. unfold cell. cbn [g_shadow demo_screen pc_cell demo_picture].
  assert (forall k, (k < 2000)%nat -> rows (fun y => 0x0741 + y) !! k = Some (0x0741 + Z.of_nat k / 80)) as Hk.
  { assert (forallb (fun k => bool_decide (rows (fun y => 0x0741 + y) !! k = Some (0x0741 + Z.of_nat k / 80))) (seq 0 2000) = true) as H by by vm_compute.
    rewrite forallb_forall in H. intros k Hk.
    apply (bool_decide_eq_true_1 _), H, in_seq. lia. }
  unfold zget. rewrite (proj2 (Z.leb_le _ _)), Hk by lia. rewrite Z2Nat.id by lia. do 2 f_equal. rewrite Z.div_add_l, Z.div_small by lia. lia.
Qed.
Definition demo_drawing : list draw := [DBatch; DColor 15 1; DFill (-3) 2 10 3 42 30; DPut 5 3 65 7; DFlush; DBatchEnd; DLine 0 24 90 112].
Lemma drawing_shown_witness : exists s' s'', run_draws demo_drawing (demo_screen 0 0 []) = Some (tt, s') /\ vga_flush s' = Some (tt, s'') /\
  cell s'' 5 3 = Some 0x0741.
Proof.
  destruct (drawing_shown demo_drawing (demo_screen 0 0 []) demo_picture
    ltac:(repeat constructor; unfold is_int; lia) (demo_ok 0 0 [] ltac:(lia) ltac:(lia)) (demo_synced 0 0 []) demo_depicts) as (s'&Hr&_&_&_&s''&Hf&(_&_&Hc)&_).
  exists s', s''. split; [exact Hr|]. split; [exact Hf|]. exact (Hc 5 3 ltac:(split; lia)).
Defined.

(** A line feed on the last row: the shadow is scrolled, the screen only gets its new last row. *)
Lemma scroll_not_shown : exists s m, write_on 0 24 [10] = Some s /\ g_vga_mem s = Some m /\
  zget (g_shadow s) 0 = Some 0x0742 /\ zget m 0 = Some 0x0741 /\ zget (g_dirty s) 0 = Some 0 /\ zget m 1920 = Some 0x0720.
Proof. eexists _, _. split; [vm_compute; reflexivity|]. by repeat split. Qed.
(** A row filled to its end by one call: the next call starts on its last column. *)
Lemma full_row_overwritten : exists s t t', write_on 0 0 (replicate 80 97) = Some s /\
  sys_vga_write (write_frame [98]) (set_v_io [98] s) = Some (1, t) /\ write_on 0 0 (replicate 80 97 ++ [98]) = Some t' /\
  zget (g_shadow t) 79 = Some 0x0762 /\ zget (g_shadow t') 79 = Some 0x0761 /\ zget (g_shadow t') 80 = Some 0x0762.
Proof. eexists _, _, _. split; [vm_compute; reflexivity|]. split; [vm_compute; reflexivity|]. split; [vm_compute; reflexivity|]. by repeat split. Qed.
(** A tab past the end of the last row: the row below is not scrolled in, and what follows overwrites the last row. *)
Lemma tab_overwrites_row : exists s t, write_on 76 24 [9] = Some s /\ g_cursor_x s = 0 /\ g_cursor_y s = 24 /\
  sys_vga_write (write_frame [98]) (set_v_io [98] s) = Some (1, t) /\ zget (g_shadow t) 1920 = Some 0x0762 /\ zget (g_shadow t) 1921 = Some (0x0741 + 24).
Proof. eexists _, _. split; [vm_compute; reflexivity|]. do 2 (split; [done|]). split; [vm_compute; reflexivity|]. by split. Qed.
(** The scanline overlay does not mark the cells it changes. *)
Lemma scanlines_not_shown : exists s m, (scanline_pass ;;; vga_flush) (demo_screen 0 0 []) = Some (tt, s) /\ g_vga_mem s = Some m /\
  zget (g_shadow s) 0 = Some 0x8741 /\ zget m 0 = Some 0x0741.
Proof. eexists _, _. split; [vm_compute; reflexivity|]. by repeat split. Qed.
(** [vga_put_str] of a text that ends with a line feed on the last row leaves the cursor below the screen. *)
Lemma put_str_below : exists s, vga_put_str 0 24 (Some [10]) 7 (demo_screen 0 0 []) = Some (tt, s) /\ g_cursor_y s = 25.
Proof. eexists. split; [vm_compute; reflexivity|]. done. Qed.
