(* ===== verification/Elf.v ===== *)
(** * ELF loader (src/kernel/elf.c, elf.h)

    A program is the bytes from the address the loader gets; what is read beyond them is a fault.  The address space, the
    frame allocator and the frames are the interface [ElfEnv]: the five calls the loader makes. *)

From stdpp Require Import base numbers gmap list options.
From S2P Require Import Prelude Pmm PageTable Vmm UserMem.

Inductive elf_status :=
  ELF_OK | ELF_ERR_INVALID | ELF_ERR_NOT_EXEC | ELF_ERR_NOT_X86_64 | ELF_ERR_TOO_MANY | ELF_ERR_NO_LOAD | ELF_ERR_NO_MEM
| ELF_ERR_MAP_FAILED | ELF_ERR_BAD_OFFSET | ELF_ERR_BAD_VADDR.
#[global] Instance elf_status_eq : EqDecision elf_status.
Proof. solve_decision. Defined.

Definition EI_MAGIC : list Z := [0x7F; 69; 76; 70].
Definition EI_CLASS : Z := 4.
Definition EI_DATA : Z := 5.
Definition ELFCLASS_64 : Z := 2.
Definition ELFDATA_LSB : Z := 1.
Definition ET_EXEC : Z := 2.
Definition ET_DYN : Z := 3.
Definition EM_X86_64 : Z := 0x3E.
Definition PT_LOAD : Z := 1.
Definition PF_X : Z := 1.
Definition PF_W : Z := 2.
Definition PF_R : Z := 4.
Definition sizeof_ehdr : Z := 64.
Definition sizeof_phdr : Z := 56.

Record elf64_header_t := Ehdr {
  e_ident : list Z; e_type : Z; e_machine : Z; e_version : Z; e_entry : Z; e_phoff : Z; e_shoff : Z; e_flags : Z;
  e_ehsize : Z; e_phentsize : Z; e_phnum : Z; e_shentsize : Z; e_shnum : Z; e_shstrndx : Z
}.
(** The header in the first 64 bytes. *)
Definition ehdr_of (b : list Z) : option elf64_header_t :=
  e_ident ← slice 0 16 b; e_type ← get16 16 b; e_machine ← get16 18 b; e_version ← get32 20 b; e_entry ← get64 24 b;
  e_phoff ← get64 32 b; e_shoff ← get64 40 b; e_flags ← get32 48 b; e_ehsize ← get16 52 b; e_phentsize ← get16 54 b;
  e_phnum ← get16 56 b; e_shentsize ← get16 58 b; e_shnum ← get16 60 b; e_shstrndx ← get16 62 b;
  Some (Ehdr e_ident e_type e_machine e_version e_entry e_phoff e_shoff e_flags e_ehsize e_phentsize e_phnum e_shentsize e_shnum e_shstrndx).
Record elf64_phdr_t := Phdr { p_type : Z; p_flags : Z; p_offset : Z; p_vaddr : Z; p_paddr : Z; p_filesz : Z; p_memsz : Z; p_align : Z }.
Definition phdr_of (b : list Z) (off : Z) : option elf64_phdr_t :=
  p_type ← get32 off b; p_flags ← get32 (off + 4) b; p_offset ← get64 (off + 8) b; p_vaddr ← get64 (off + 16) b;
  p_paddr ← get64 (off + 24) b; p_filesz ← get64 (off + 32) b; p_memsz ← get64 (off + 40) b; p_align ← get64 (off + 48) b;
  Some (Phdr p_type p_flags p_offset p_vaddr p_paddr p_filesz p_memsz p_align).
Record elf_load_result_t := ElfResult { r_entry : Z; r_base : Z; r_top : Z; r_phdr_count : Z }.

(** ** elf_validate *)

Definition ident (h : elf64_header_t) (i : Z) : Z := default 0 (zget (e_ident h) i).
(** The checks on the header. *)
Definition elf_check (h : elf64_header_t) (size : Z) : elf_status :=
  if negb (bool_decide (take 4 (e_ident h) = EI_MAGIC)) then ELF_ERR_INVALID else
  if negb (ident h EI_CLASS =? ELFCLASS_64) then ELF_ERR_INVALID else
  if negb (ident h EI_DATA =? ELFDATA_LSB) then ELF_ERR_INVALID else
  if negb (e_type h =? ET_EXEC) && negb (e_type h =? ET_DYN) then ELF_ERR_NOT_EXEC else
  if negb (e_machine h =? EM_X86_64) then ELF_ERR_NOT_X86_64 else
  if size <? u64 (e_phoff h + e_phentsize h * e_phnum h) then ELF_ERR_INVALID else
  if negb (e_entry h =? 0) && (0x800000000000 <=? e_entry h) then ELF_ERR_BAD_VADDR else ELF_OK.
(** [None] is a NULL pointer; the header when it was copied. *)
Definition elf_validate {W} (data : option (list Z)) (size : Z) : M W (elf_status * option elf64_header_t) :=
  match data with
  | None => return (ELF_ERR_INVALID, None)
  | Some file =>
    if size <? sizeof_ehdr then return (ELF_ERR_INVALID, None) else
    h <~ mlift (ehdr_of file) ;; return (elf_check h size, Some h)
  end.

(** ** elf_load *)

Class ElfEnv (W : Type) := {
  el_translate : Z -> M W Z;                     (* vmm_translate(as, va) *)
  el_merge : Z -> Z -> Z -> M W vmm_status;      (* vmm_map_page_merge(as, va, frame, flags) *)
  el_alloc : M W Z;                              (* pmm_alloc_frame() *)
  el_zero : Z -> M W unit;                       (* memset(page, 0, PAGE_SIZE) *)
  el_copy : Z -> Z -> list Z -> M W unit         (* memcpy(page + off, bytes) *)
}.

Section Load.
Context {W : Type} `{!ElfEnv W}.

Definition vstart_of (ph : elf64_phdr_t) : Z := Z.land (p_vaddr ph) PAGE_MASK32.
Definition vend_of (ph : elf64_phdr_t) : Z := Z.land (u64 (p_vaddr ph + p_memsz ph + PAGE_SIZE - 1)) PAGE_MASK32.
Definition seg_flags (ph : elf64_phdr_t) : Z :=
  let flags := PTE_USER in
  let flags := if has (p_flags ph) PF_R then Z.lor flags PTE_PRESENT else flags in
  let flags := if has (p_flags ph) PF_W then Z.lor flags PTE_WRITABLE else flags in
  if negb (has (p_flags ph) PF_X) then Z.lor flags PTE_NX else flags.

Definition copy_page_overlap (file : list Z) (ph : elf64_phdr_t) (frame_virt va : Z) : M W unit :=
  let seg_end := u64 (p_vaddr ph + p_filesz ph) in
  let page_end := u64 (va + PAGE_SIZE) in
  let lo := if p_vaddr ph <? va then va else p_vaddr ph in
  let hi := if page_end <? seg_end then page_end else seg_end in
  if hi <=? lo then return tt else
  src <~ mlift (slice (u64 (p_offset ph + (lo - p_vaddr ph))) (hi - lo) file) ;;
  el_copy frame_virt (lo - va) src.

Definition load_page (file : list Z) (ph : elf64_phdr_t) (va : Z) : M W elf_status :=
  existing <~ el_translate va ;;
  if negb (existing =? 0) then
    copy_page_overlap file ph (pt_phys_to_virt existing) va ;;;
    mst <~ el_merge va existing (seg_flags ph) ;;
    return (if bool_decide (mst = VMM_OK) then ELF_OK else ELF_ERR_MAP_FAILED)
  else
    frame <~ el_alloc ;;
    if frame =? 0 then return ELF_ERR_NO_MEM else
    el_zero (pt_phys_to_virt frame) ;;;
    copy_page_overlap file ph (pt_phys_to_virt frame) va ;;;
    mst <~ el_merge va frame (seg_flags ph) ;;
    return (if bool_decide (mst = VMM_OK) then ELF_OK else ELF_ERR_MAP_FAILED).
(** [for (va = vstart; va < vend; va += PAGE_SIZE)]; [n] bounds the pages. *)
Fixpoint page_loop (n : nat) (file : list Z) (ph : elf64_phdr_t) (va vend : Z) : M W elf_status :=
  if va <? vend then
    match n with
    | O => mfault
    | S n' => st <~ load_page file ph va ;; if bool_decide (st = ELF_OK) then page_loop n' file ph (u64 (va + PAGE_SIZE)) vend else return st
    end
  else return ELF_OK.

(** The checks on a segment. *)
Definition seg_check (ph : elf64_phdr_t) (size : Z) : elf_status :=
  if size <? u64 (p_offset ph + p_filesz ph) then ELF_ERR_BAD_OFFSET else
  if (p_vaddr ph <? 0x1000) || (0x800000000000 <? u64 (p_vaddr ph + p_memsz ph)) then ELF_ERR_BAD_VADDR else
  if ELF_MAX_LOAD_SIZE <? u64 (vend_of ph - vstart_of ph) then ELF_ERR_TOO_MANY else ELF_OK.
Definition load_segment (file : list Z) (size : Z) (ph : elf64_phdr_t) (res : elf_load_result_t) : M W (elf_status * elf_load_result_t) :=
  if negb (p_type ph =? PT_LOAD) then return (ELF_OK, res) else
  if negb (bool_decide (seg_check ph size = ELF_OK)) then return (seg_check ph size, res) else
  let res := ElfResult (r_entry res) (if vstart_of ph <? r_base res then vstart_of ph else r_base res)
                       (if r_top res <? vend_of ph then vend_of ph else r_top res) (r_phdr_count res) in
  st <~ page_loop (Z.to_nat ((vend_of ph - vstart_of ph) / PAGE_SIZE)) file ph (vstart_of ph) (vend_of ph) ;;
  if negb (bool_decide (st = ELF_OK)) then return (st, res) else
  return (ELF_OK, ElfResult (r_entry res) (r_base res) (r_top res) (u32 (r_phdr_count res + 1))).
(** [for (i = 0; i < e_phnum; i++)]; a header is read as an element of an array of [elf64_phdr_t]. *)
Fixpoint phdr_loop (n : nat) (i : Z) (file : list Z) (size phoff : Z) (res : elf_load_result_t) : M W (elf_status * elf_load_result_t) :=
  match n with
  | O => return (ELF_OK, res)
  | S n' =>
    ph <~ mlift (phdr_of file (u64 (phoff + i * sizeof_phdr))) ;;
    '(st, res) <~ load_segment file size ph res ;;
    if bool_decide (st = ELF_OK) then phdr_loop n' (i + 1) file size phoff res else return (st, res)
  end.
(** [as_], [result]: the pointers are not NULL.  The result as far as it was written. *)
Definition elf_load (data : option (list Z)) (size : Z) (as_ result : bool) : M W (elf_status * option elf_load_result_t) :=
  if negb (bool_decide (is_Some data)) || negb as_ || negb result then return (ELF_ERR_INVALID, None) else
  '(st, hdr) <~ elf_validate data size ;;
  match data, hdr with
  | Some file, Some h =>
    if negb (bool_decide (st = ELF_OK)) then return (st, None) else
    '(st, res) <~ phdr_loop (Z.to_nat (e_phnum h)) 0 file size (e_phoff h) (ElfResult (e_entry h) UINT64_MAX 0 0) ;;
    if negb (bool_decide (st = ELF_OK)) then return (st, Some res) else
    return (if r_phdr_count res =? 0 then ELF_ERR_NO_LOAD else ELF_OK, Some res)
  | _, _ => return (st, None)
  end.
End Load.

(** ** On the virtual memory manager *)

(** The bytes of a frame and back. *)
Definition page_bytes (ws : list Z) : list Z := mjoin (le_enc 8 <$> ws).
Fixpoint page_words (n : nat) (b : list Z) : list Z := match n with O => [] | S n' => le_dec (take 8 b) :: page_words n' (drop 8 b) end.
(** [memcpy((uint8_t * )page + off, src, n)] *)
Definition page_write (page off : Z) (src : list Z) : M mm unit :=
  s <~ mget ;; ws <~ mlift (ram s !! pt_virt_to_phys page) ;;
  b <~ mlift (splice off src (page_bytes ws)) ;;
  mput (set_ram (<[pt_virt_to_phys page := page_words (Z.to_nat PT_ENTRIES) b]> (ram s)) s).
#[global] Instance vmm_elf (as_ : address_space) : ElfEnv vmm := {
  el_translate := vmm_translate (Some as_);
  el_merge := vmm_map_page_merge (Some as_);
  el_alloc := on_mm (on_pmm pmm_alloc_frame);
  el_zero := fun page => on_mm (page_zero page);
  el_copy := fun page off src => on_mm (page_write page off src)
}.
