(* ===== verification/ElfSpec.v ===== *)
(** * ELF loader: the memory of a program is its image

    [ElfLaws] is what the loader needs of address spaces and frames: which pages are mapped, with which entries, and what the
    frames hold.  Over it the loader builds the memory image of the program. *)

From stdpp Require Import base numbers gmap list options.
From S2P Require Import Prelude Pmm PageTable Vmm UserMem VmmSpec Elf.
#[local] Set Default Proof Using "Type*".

Definition half_page (va : Z) : Prop := va mod 4096 = 0 /\ 0 < va < 2 ^ 47.
(** [P]: the present entries of the user half; [F]: the frames of its pages. *)
Class ElfLaws (W : Type) `{!ElfEnv W} := {
  el_rep : W -> gmap Z Z -> gmap Z (list Z) -> Prop;
  law_translate w P F va : el_rep w P F -> half_page va -> el_translate va w = Some (match P !! va with Some e => pte_addr e | None => 0 end, w);
  law_alloc w P F : el_rep w P F -> exists f w', el_alloc w = Some (f, w') /\
    (f = 0 /\ el_rep w' P F \/
     exists k bs, f = k * 4096 /\ 0 < k < 2 ^ 40 /\ F !! f = None /\ length bs = 4096%nat /\ el_rep w' P (<[f := bs]> F));
  law_zero w P F f bs : el_rep w P F -> F !! f = Some bs -> exists w',
    el_zero (pt_phys_to_virt f) w = Some (tt, w') /\ el_rep w' P (<[f := replicate 4096 0]> F);
  law_copy w P F f bs off src bs' : el_rep w P F -> F !! f = Some bs -> Forall byte_ok src -> splice off src bs = Some bs' -> exists w',
    el_copy (pt_phys_to_virt f) off src w = Some (tt, w') /\ el_rep w' P (<[f := bs']> F);
  law_merge w P F va f flags : el_rep w P F -> half_page va -> is_Some (F !! f) -> Z.land flags PTE_ADDR_MASK = 0 -> pte_huge flags = false -> exists st w',
    el_merge va f flags w = Some (st, w') /\
    (st = VMM_OK /\ el_rep w' (<[va := match P !! va with Some e => merged_pte e (Z.lor flags PTE_PRESENT) | None => leaf_pte f flags end]> P) F \/
     st <> VMM_OK /\ P !! va = None /\ el_rep w' P F)
}.

Ltac ztest := repeat match goal with |- context [Z.ltb ?a ?b] => destruct (Z.ltb_spec a b) end.

(** ** Memory images *)

Definition page_of_addr (a : Z) : Z := a - a mod 4096.
(** The byte at [a] of the mapped memory. *)
Definition byte_at (P : gmap Z Z) (F : gmap Z (list Z)) (a : Z) : option Z :=
  e ← P !! page_of_addr a; bs ← F !! pte_addr e; zget bs (a mod 4096).
Definition in_file (ph : elf64_phdr_t) (a : Z) : bool := (p_vaddr ph <=? a) && (a <? p_vaddr ph + p_filesz ph).
Definition in_pages (ph : elf64_phdr_t) (a : Z) : bool := (vstart_of ph <=? a) && (a <? vend_of ph).
(** What a segment makes of the byte at [a]: its own byte of the file, else what was there, else 0. *)
Definition seg_byte (file : list Z) (ph : elf64_phdr_t) (a : Z) (old : option Z) : option Z :=
  if in_file ph a then zget file (p_offset ph + (a - p_vaddr ph)) else Some (default 0 old).
Definition overlay (file : list Z) (acc : Z -> option Z) (ph : elf64_phdr_t) (a : Z) : option Z := if in_pages ph a then seg_byte file ph a (acc a) else acc a.
Definition loads (phs : list elf64_phdr_t) : list elf64_phdr_t := filter (fun ph => p_type ph = PT_LOAD) phs.
(** The memory image of a program. *)
Definition image (file : list Z) (phs : list elf64_phdr_t) : Z -> option Z := foldl (overlay file) (fun _ => None) (loads phs).
(** The entry of a page. *)
Definition seg_pte (ph : elf64_phdr_t) (f : Z) (old : option Z) : Z :=
  match old with Some e => merged_pte e (Z.lor (seg_flags ph) PTE_PRESENT) | None => leaf_pte f (seg_flags ph) end.

(** A segment the checks accept without an overflow, below 4 GiB. *)
Record seg_ok (size : Z) (ph : elf64_phdr_t) : Prop := {
  so_vaddr : 4096 <= p_vaddr ph; so_filesz : 0 <= p_filesz ph <= p_memsz ph; so_top : p_vaddr ph + p_memsz ph + 4095 < 2 ^ 32;
  so_offset : 0 <= p_offset ph; so_file : p_offset ph + p_filesz ph <= size; so_size : size < 2 ^ 64;
  so_span : vend_of ph - vstart_of ph <= ELF_MAX_LOAD_SIZE
}.

Lemma mask32 x : 0 <= x < 2 ^ 32 -> Z.land x PAGE_MASK32 = x - x mod 4096.
Proof. intros. change PAGE_MASK32 with (Z.lxor (Z.ones 12) (Z.ones 32)). rewrite (clear_low_bits 32 12); [done|lia|done]. Qed.
Lemma seg_bounds size ph : seg_ok size ph ->
  vstart_of ph = p_vaddr ph - p_vaddr ph mod 4096 /\ vend_of ph = (p_vaddr ph + p_memsz ph + 4095) - (p_vaddr ph + p_memsz ph + 4095) mod 4096 /\
  4096 <= vstart_of ph <= p_vaddr ph /\ p_vaddr ph + p_memsz ph <= vend_of ph < 2 ^ 32 /\ vstart_of ph <= vend_of ph /\
  vstart_of ph mod 4096 = 0 /\ vend_of ph mod 4096 = 0.
Proof.
  intros [H1 H2 H3 _ _ _ _]. assert (vstart_of ph = p_vaddr ph - p_vaddr ph mod 4096) as Es by (unfold vstart_of; apply mask32; lia).
  assert (vend_of ph = (p_vaddr ph + p_memsz ph + 4095) - (p_vaddr ph + p_memsz ph + 4095) mod 4096) as Ee.
  { unfold vend_of. change PAGE_SIZE with 4096. unfold u64. rewrite wrap_small by (unfold in_w; lia).
    replace (p_vaddr ph + p_memsz ph + 4096 - 1) with (p_vaddr ph + p_memsz ph + 4095) by lia. apply mask32. lia. }
  split; [done|]. split; [done|]. rewrite Es, Ee. clear Es Ee.
  pose proof (Z.div_mod (p_vaddr ph) 4096 ltac:(lia)). pose proof (Z.mod_pos_bound (p_vaddr ph) 4096 ltac:(lia)).
  pose proof (Z.div_mod (p_vaddr ph + p_memsz ph + 4095) 4096 ltac:(lia)). pose proof (Z.mod_pos_bound (p_vaddr ph + p_memsz ph + 4095) 4096 ltac:(lia)).
  assert (forall x, (x - x mod 4096) mod 4096 = 0) as Hm by (intros x; rewrite Zminus_mod_idemp_r, Z.sub_diag; done).
  rewrite !Hm. lia.
Qed.
Lemma seg_check_ok size ph : seg_ok size ph -> seg_check ph size = ELF_OK.
Proof.
  intros Hs. pose proof (seg_bounds size ph Hs) as (_&_&Hb). destruct Hs as [H1 H2 H3 H4 H5 H6 H7]. unfold seg_check, u64, ELF_MAX_LOAD_SIZE in *.
  rewrite !wrap_small by (unfold in_w; lia). rewrite (proj2 (Z.ltb_ge _ _)), (proj2 (Z.ltb_ge (p_vaddr ph) _)), (proj2 (Z.ltb_ge _ (p_vaddr ph + _))) by lia.
  by rewrite (proj2 (Z.ltb_ge _ _)) by lia.
Qed.

(** ** Entries *)

Lemma seg_flags_cases ph : Z.land (seg_flags ph) PTE_ADDR_MASK = 0 /\ pte_huge (seg_flags ph) = false /\ has (seg_flags ph) PTE_USER = true /\
  has (seg_flags ph) PTE_WRITABLE = has (p_flags ph) PF_W /\ has (seg_flags ph) PTE_NX = negb (has (p_flags ph) PF_X).
Proof. unfold seg_flags. by destruct (has (p_flags ph) PF_R), (has (p_flags ph) PF_W), (has (p_flags ph) PF_X). Qed.
Lemma merged_addr e fl : Z.land fl PTE_ADDR_MASK = 0 -> pte_addr (merged_pte e fl) = pte_addr e.
Proof.
  intros Hf. unfold merged_pte, pte_addr. assert (forall x, Z.land x PTE_ADDR_MASK = Z.land e PTE_ADDR_MASK -> Z.land (Z.lor (Z.land e PTE_ADDR_MASK) x) PTE_ADDR_MASK = Z.land e PTE_ADDR_MASK) as H.
  { intros x Hx. rewrite Z.land_lor_distr_l, Hx, <-Z.land_assoc, Z.land_diag. apply Z.lor_diag. }
  assert (Z.land (Z.lor e fl) PTE_ADDR_MASK = Z.land e PTE_ADDR_MASK) as H1 by by rewrite Z.land_lor_distr_l, Hf, Z.lor_0_r.
  destruct (has fl PTE_NX); apply H; [done|]. rewrite <-Z.land_assoc, (Z.land_comm (not64 PTE_NX)), Z.land_assoc, H1, <-Z.land_assoc. done.
Qed.
Lemma merged_flags e fl : has (merged_pte e (Z.lor fl PTE_PRESENT)) PTE_WRITABLE = has e PTE_WRITABLE || has fl PTE_WRITABLE /\
  has (merged_pte e (Z.lor fl PTE_PRESENT)) PTE_USER = has e PTE_USER || has fl PTE_USER /\
  has (merged_pte e (Z.lor fl PTE_PRESENT)) PTE_NX = has fl PTE_NX /\ pte_present (merged_pte e (Z.lor fl PTE_PRESENT)) = true.
Proof.
  unfold merged_pte, pte_present, PTE_WRITABLE, PTE_USER, PTE_NX, PTE_PRESENT. rewrite !has_bit by done. cbv zeta.
  set (x := Z.lor e (Z.lor fl (Z.shiftl 1 0))). match goal with |- context [if ?b then x else ?z] => set (y := if b then x else z) end.
  assert (forall k, 0 <= k < 63 -> Z.testbit y k = Z.testbit x k) as Hy.
  { intros k Hk. unfold y. destruct (Z.testbit _ 63); [done|]. rewrite Z.land_spec. unfold not64. rewrite Z.lxor_spec, pow2_testbit, bool_decide_eq_false_2 by lia.
    change UINT64_MAX with (Z.ones 64). rewrite Z.ones_spec_low by lia. apply andb_true_r. }
  assert (Z.testbit y 63 = Z.testbit fl 63) as Hy63.
  { unfold y, x. destruct (Z.testbit (Z.lor fl (Z.shiftl 1 0)) 63) eqn:E; rewrite Z.lor_spec in E; change (Z.testbit (Z.shiftl 1 0) 63) with false in E; rewrite orb_false_r in E; rewrite E.
    - rewrite !Z.lor_spec, E. apply orb_true_r.
    - rewrite Z.land_spec. change (Z.testbit (not64 (Z.shiftl 1 63)) 63) with false. apply andb_false_r. }
  rewrite !Z.lor_spec, !Z.land_spec, Hy63, !Hy by lia. unfold x. rewrite !Z.lor_spec.
  change (Z.testbit PTE_ADDR_MASK 1) with false. change (Z.testbit PTE_ADDR_MASK 2) with false. change (Z.testbit PTE_ADDR_MASK 63) with false.
  change (Z.testbit PTE_ADDR_MASK 0) with false. change (Z.testbit (Z.shiftl 1 0) 1) with false. change (Z.testbit (Z.shiftl 1 0) 2) with false.
  rewrite !andb_false_r, !orb_false_r. split; [done|]. split; [done|]. split; [done|]. change (Z.testbit (Z.shiftl 1 0) 0) with true. by rewrite !orb_true_r.
Qed.
Lemma leaf_flags f fl : has (leaf_pte f fl) PTE_WRITABLE = has fl PTE_WRITABLE /\ has (leaf_pte f fl) PTE_USER = has fl PTE_USER /\ has (leaf_pte f fl) PTE_NX = has fl PTE_NX.
Proof.
  unfold leaf_pte. rewrite !pte_make_has by done. unfold PTE_WRITABLE, PTE_USER, PTE_NX, PTE_PRESENT. rewrite !has_bit, !Z.lor_spec by done.
  change (Z.testbit (Z.shiftl 1 0) 1) with false. change (Z.testbit (Z.shiftl 1 0) 2) with false. change (Z.testbit (Z.shiftl 1 0) 63) with false. by rewrite !orb_false_r.
Qed.

(** Write and execute permission of a page as the loader leaves them: executable is what the last segment on it is. *)
Definition seg_perm (ph : elf64_phdr_t) (old : option (bool * bool)) : option (bool * bool) :=
  Some (match old with Some (w, _) => w | None => false end || has (p_flags ph) PF_W, has (p_flags ph) PF_X).
Definition overlay_perm (acc : Z -> option (bool * bool)) (ph : elf64_phdr_t) (va : Z) : option (bool * bool) := if in_pages ph va then seg_perm ph (acc va) else acc va.
Definition image_perm (phs : list elf64_phdr_t) : Z -> option (bool * bool) := foldl overlay_perm (fun _ => None) (loads phs).
(** The permissions the comment of vmm_map_page_merge promises: a page is writable when a segment on it is, and executable when one is. *)
Definition covering (va : Z) (phs : list elf64_phdr_t) : list elf64_phdr_t := filter (fun ph => in_pages ph va = true) (loads phs).
Definition doc_perm (phs : list elf64_phdr_t) (va : Z) : option (bool * bool) :=
  match covering va phs with
  | [] => None
  | cov => Some (existsb (fun ph => has (p_flags ph) PF_W) cov, existsb (fun ph => has (p_flags ph) PF_X) cov)
  end.
(** The segments on the page are all executable, or none is. *)
Definition one_mind (phs : list elf64_phdr_t) (va : Z) : Prop :=
  forall ph ph', ph ∈ covering va phs -> ph' ∈ covering va phs -> has (p_flags ph) PF_X = has (p_flags ph') PF_X.
Lemma perm_fold va l : let cov := filter (fun ph => in_pages ph va = true) l in foldl overlay_perm (fun _ => None) l va =
  (ph ← last cov; Some (existsb (fun ph => has (p_flags ph) PF_W) cov, has (p_flags ph) PF_X)).
Proof.
  cbv zeta. induction l as [|ph l IH] using rev_ind; [done|]. rewrite foldl_snoc, filter_app. unfold overlay_perm at 1. rewrite IH. clear IH. destruct (in_pages ph va) eqn:E.
  - rewrite filter_cons_True by done. change (filter _ []) with (@nil elf64_phdr_t). set (cov := filter _ l). rewrite last_snoc. cbn. unfold seg_perm.
    rewrite existsb_app. cbn [existsb]. rewrite orb_false_r. do 2 f_equal. destruct (last cov) as [x|] eqn:El; [done|]. apply last_None in El. by rewrite El.
  - rewrite filter_cons_False by congruence. change (filter _ []) with (@nil elf64_phdr_t). by rewrite app_nil_r.
Qed.
(** Where the segments agree, the loader's permissions are the documented ones; the write permission is so everywhere. *)
Lemma image_perm_doc phs va : one_mind phs va -> image_perm phs va = doc_perm phs va.
Proof.
  intros Ho. unfold image_perm, doc_perm. rewrite perm_fold. fold (covering va phs). unfold one_mind in Ho. destruct (last (covering va phs)) as [ph|] eqn:El.
  - assert (ph ∈ covering va phs) as Hin by (apply last_Some in El as [l' ->]; apply elem_of_app; right; by apply list_elem_of_singleton).
    destruct (covering va phs) as [|p l]; [done|]. cbn [mbind option_bind]. do 2 f_equal. symmetry. apply eq_true_iff_eq. rewrite existsb_exists. split.
    + intros (q&Hq&Hx). rewrite <-Hx. apply Ho; [done|by apply list_elem_of_In].
    + intros Hx. exists ph. by rewrite <-list_elem_of_In.
  - apply last_None in El. by rewrite El.
Qed.
Lemma image_perm_write phs va : fst <$> image_perm phs va = fst <$> doc_perm phs va.
Proof.
  unfold image_perm, doc_perm. rewrite perm_fold. fold (covering va phs). destruct (last (covering va phs)) as [ph|] eqn:El.
  - by destruct (covering va phs).
  - apply last_None in El. by rewrite El.
Qed.
Definition perm_of (e : Z) : bool * bool := (has e PTE_WRITABLE, negb (has e PTE_NX)).
Lemma seg_pte_perm ph f old : perm_of <$> Some (seg_pte ph f old) = seg_perm ph (perm_of <$> old).
Proof.
  destruct (seg_flags_cases ph) as (_&_&_&Ew&En). unfold perm_of, seg_perm, seg_pte. cbn [fmap option_fmap option_map]. do 2 f_equal.
  - destruct old as [e|]; cbn [fmap option_fmap option_map]; [destruct (merged_flags e (seg_flags ph)) as (->&_)|destruct (leaf_flags f (seg_flags ph)) as (->&_)]; by rewrite Ew.
  - destruct old as [e|]; [destruct (merged_flags e (seg_flags ph)) as (_&_&->&_)|destruct (leaf_flags f (seg_flags ph)) as (_&_&->)]; by rewrite En, negb_involutive.
Qed.

(** ** The loader *)

Section Loader.
Context {W : Type} `{!ElfEnv W} `{!ElfLaws W}.
Implicit Types (w : W) (P : gmap Z Z) (F : gmap Z (list Z)).

(** The mapped pages have their own frames, which hold [acc], and the permissions [perm]. *)
Record loaded P F (acc : Z -> option Z) (perm : Z -> option (bool * bool)) : Prop := {
  ld_frames : forall va e, P !! va = Some e -> pte_addr e <> 0 /\ exists bs, F !! pte_addr e = Some bs /\ length bs = 4096%nat;
  ld_inj : forall va va' e e', P !! va = Some e -> P !! va' = Some e' -> pte_addr e = pte_addr e' -> va = va';
  ld_user : forall va e, P !! va = Some e -> has e PTE_USER = true;
  ld_bytes : forall a, byte_at P F a = acc a;
  ld_perm : forall va, va mod 4096 = 0 -> perm_of <$> P !! va = perm va
}.
Lemma loaded_ext P F acc acc' perm perm' : (forall a, acc a = acc' a) -> (forall va, va mod 4096 = 0 -> perm va = perm' va) -> loaded P F acc perm -> loaded P F acc' perm'.
Proof. intros Ha Hp [H1 H2 H3 H4 H5]. split; [done..| |]; intros; [by rewrite H4|by rewrite <-Hp, H5]. Qed.

(** The part of a segment on one page. *)
Lemma overlap_run file size ph va f bs w P F : seg_ok size ph -> size <= Z.of_nat (length file) -> Forall byte_ok file ->
  vstart_of ph <= va -> va + 4096 <= vend_of ph -> el_rep w P F -> F !! f = Some bs -> length bs = 4096%nat -> exists w' bs',
  copy_page_overlap file ph (pt_phys_to_virt f) va w = Some (tt, w') /\ el_rep w' P (<[f := bs']> F) /\ length bs' = 4096%nat /\
  forall o, 0 <= o < 4096 -> zget bs' o = if in_file ph (va + o) then zget file (p_offset ph + (va + o - p_vaddr ph)) else zget bs o.
Proof.
  intros Hs Hl Hf Hv1 Hv2 Hr HF Hlen. pose proof (seg_bounds size ph Hs) as (_&_&Hb). destruct Hs as [H1 H2 H3 H4 H5 H6 H7].
  unfold copy_page_overlap, u64. change PAGE_SIZE with 4096. rewrite !(wrap_small 64 (p_vaddr ph + _)), !(wrap_small 64 (va + _)) by (unfold in_w; lia).
  set (lo := if p_vaddr ph <? va then va else p_vaddr ph). set (hi := if va + 4096 <? p_vaddr ph + p_filesz ph then va + 4096 else p_vaddr ph + p_filesz ph).
  assert (lo = Z.max va (p_vaddr ph)) as Elo by (unfold lo; destruct (Z.ltb_spec (p_vaddr ph) va); lia).
  assert (hi = Z.min (va + 4096) (p_vaddr ph + p_filesz ph)) as Ehi by (unfold hi; destruct (Z.ltb_spec (va + 4096) (p_vaddr ph + p_filesz ph)); lia).
  clearbody lo hi. unfold in_file. destruct (Z.leb_spec hi lo) as [Hle|Hlt].
  - exists w, bs. split; [done|]. split; [by rewrite insert_id|]. split; [done|]. intros o Ho.
    destruct (Z.leb_spec (p_vaddr ph) (va + o)), (Z.ltb_spec (va + o) (p_vaddr ph + p_filesz ph)); done || lia.
  - rewrite wrap_small by (unfold in_w; lia). unfold mlift, mbind_. rewrite slice_Some by lia. set (src := take _ _).
    assert (Z.of_nat (length src) = hi - lo) as Hsrc by (unfold src; rewrite length_take, length_drop; lia).
    destruct (splice (lo - va) src bs) as [bs'|] eqn:E; [|rewrite splice_Some in E by lia; done].
    destruct (law_copy w P F f bs (lo - va) src bs' Hr HF (Forall_take _ _ _ (Forall_drop _ _ _ Hf)) E) as (w'&Hw'&Hr').
    exists w', bs'. split; [exact Hw'|]. split; [done|]. split; [by rewrite (splice_length _ _ _ _ E)|]. intros o Ho. apply splice_inv in E as (_&_&->).
    unfold zget. rewrite !(proj2 (Z.leb_le 0 _)) by lia. destruct (Z.ltb_spec (va + o) lo).
    + rewrite lookup_app_l by (rewrite length_take; lia). rewrite lookup_take_lt by lia. destruct (Z.leb_spec (p_vaddr ph) (va + o)); [lia|done].
    + rewrite lookup_app_r by (rewrite length_take; lia). rewrite length_take. destruct (Z.ltb_spec (va + o) hi).
      * rewrite lookup_app_l by lia. unfold src. rewrite lookup_take_lt, lookup_drop by lia. rewrite (proj2 (Z.leb_le (p_vaddr ph) _)), (proj2 (Z.ltb_lt _ (p_vaddr ph + _))) by lia. cbn [andb].
        rewrite (proj2 (Z.leb_le 0 _)) by lia. f_equal. lia.
      * rewrite lookup_app_r by lia. rewrite lookup_drop. destruct (Z.ltb_spec (va + o) (p_vaddr ph + p_filesz ph)); [lia|]. rewrite andb_false_r. f_equal. lia.
Qed.

Lemma page_of_addr_add va o : va mod 4096 = 0 -> 0 <= o < 4096 -> page_of_addr (va + o) = va /\ (va + o) mod 4096 = o.
Proof.
  intros Hv Ho. unfold page_of_addr. assert ((va + o) mod 4096 = o) as -> by (rewrite Z.add_mod, Hv, Z.add_0_l, Zmod_mod, Z.mod_small by lia; done). lia.
Qed.
Lemma page_of_addr_split a : exists o, 0 <= o < 4096 /\ a = page_of_addr a + o /\ page_of_addr a mod 4096 = 0.
Proof.
  exists (a mod 4096). unfold page_of_addr. split; [apply Z.mod_pos_bound; lia|]. split; [lia|]. by rewrite Zminus_mod_idemp_r, Z.sub_diag.
Qed.
Definition page_acc (file : list Z) ph va (acc : Z -> option Z) (a : Z) : option Z := if page_of_addr a =? va then seg_byte file ph a (acc a) else acc a.
Definition page_perm ph va (perm : Z -> option (bool * bool)) (v : Z) : option (bool * bool) := if v =? va then seg_perm ph (perm v) else perm v.
(** The page [va] gets the frame [f], the entry of the segment and the segment's bytes. *)
Lemma loaded_set file ph P F acc perm va f bs' : loaded P F acc perm -> va mod 4096 = 0 -> f <> 0 -> length bs' = 4096%nat ->
  pte_addr (seg_pte ph f (P !! va)) = f -> (forall va' e', va' <> va -> P !! va' = Some e' -> pte_addr e' <> f) ->
  (forall o, 0 <= o < 4096 -> zget bs' o = seg_byte file ph (va + o) (acc (va + o))) ->
  loaded (<[va := seg_pte ph f (P !! va)]> P) (<[f := bs']> F) (page_acc file ph va acc) (page_perm ph va perm).
Proof.
  intros [H1 H2 H3 H4 H5] Hva Hf0 Hlen Haddr Hne Hb. split.
  - intros v e [[<- <-]|[Hv He]]%lookup_insert_Some; [rewrite Haddr; split; [done|]; exists bs'; by rewrite lookup_insert_eq|].
    destruct (H1 v e He) as (Hz&bs&HF&Hl). split; [done|]. exists bs. split; [|done]. rewrite lookup_insert_ne; [done|]. intros E. by apply (Hne v e).
  - intros v v' e e' [[<- <-]|[Hv He]]%lookup_insert_Some [[<- <-]|[Hv' He']]%lookup_insert_Some E; [done| | |by eapply H2].
    + exfalso. apply (Hne v' e'); [done|done|congruence].
    + exfalso. apply (Hne v e); [done|done|congruence].
  - intros v e [[<- <-]|[Hv He]]%lookup_insert_Some; [|by eapply H3]. destruct (seg_flags_cases ph) as (_&_&Eu&_). destruct (P !! va) as [e|]; cbn [seg_pte].
    + destruct (merged_flags e (seg_flags ph)) as (_&->&_). by rewrite Eu, orb_true_r.
    + by destruct (leaf_flags f (seg_flags ph)) as (_&->&_).
  - intros a. destruct (page_of_addr_split a) as (o&Ho&Ea&Hm). unfold page_acc, byte_at. destruct (Z.eqb_spec (page_of_addr a) va) as [E|E].
    + rewrite E, lookup_insert_eq. cbn. rewrite Haddr, lookup_insert_eq. cbn. rewrite Ea, E. destruct (page_of_addr_add va o Hva Ho) as [_ ->]. by apply Hb.
    + rewrite lookup_insert_ne by congruence. rewrite <-H4. unfold byte_at. destruct (P !! page_of_addr a) as [e|] eqn:He; [|done]. cbn. rewrite lookup_insert_ne; [done|]. intros E'. by apply (Hne _ _ E He).
  - intros v Hv. unfold page_perm. destruct (Z.eqb_spec v va) as [->|]; [|rewrite lookup_insert_ne by congruence; by apply H5]. rewrite lookup_insert_eq, <-H5 by done. apply seg_pte_perm.
Qed.

Lemma seg_pte_addr ph f k old : f = k * 4096 -> 0 <= k < 2 ^ 40 -> (forall e, old = Some e -> pte_addr e = f) -> pte_addr (seg_pte ph f old) = f.
Proof.
  intros -> Hk Ho. destruct (seg_flags_cases ph) as (Em&_). assert (Z.land (Z.lor (seg_flags ph) PTE_PRESENT) PTE_ADDR_MASK = 0) as Hm by by rewrite Z.land_lor_distr_l, Em.
  destruct old as [e|]; cbn [seg_pte]; [rewrite merged_addr by done; by apply Ho|]. unfold leaf_pte. change 4096 with PAGE_SIZE. by apply pte_make_addr.
Qed.
Section Segment.
Context (file : list Z) (size : Z) (Hsize : size <= Z.of_nat (length file)) (Hfile : Forall byte_ok file).

Lemma load_page_run ph va w P F acc perm : seg_ok size ph -> vstart_of ph <= va -> va + 4096 <= vend_of ph -> va mod 4096 = 0 ->
  el_rep w P F -> loaded P F acc perm -> exists st w' P' F', load_page file ph va w = Some (st, w') /\ el_rep w' P' F' /\
  (st = ELF_OK /\ loaded P' F' (page_acc file ph va acc) (page_perm ph va perm) \/ st = ELF_ERR_NO_MEM \/ st = ELF_ERR_MAP_FAILED).
Proof using Hsize Hfile.
  intros Hs Hv1 Hv2 Hva Hr Hld. pose proof (seg_bounds size ph Hs) as (_&_&Hb). assert (half_page va) as Hup by (split; [done|lia]).
  destruct (seg_flags_cases ph) as (Em&Eh&_). unfold load_page. mstep (law_translate w P F va Hr Hup). destruct (P !! va) as [e|] eqn:He.
  - destruct (ld_frames _ _ _ _ Hld va e He) as (Hz&bs&HF&Hl). rewrite (proj2 (Z.eqb_neq _ _)) by done. cbn [negb].
    destruct (overlap_run file size ph va (pte_addr e) bs w P F Hs Hsize Hfile Hv1 Hv2 Hr HF Hl) as (w1&bs'&Hc&Hr1&Hl'&Hbs). mstep Hc.
    destruct (law_merge w1 P _ va (pte_addr e) (seg_flags ph) Hr1 Hup ltac:(by rewrite lookup_insert_eq) Em Eh) as (st&w2&Hm&Hst). mstep Hm. unfold mret.
    destruct Hst as [[-> Hr2]|(Hne&Hnone&_)]; [|congruence]. eexists _, _, _, _. split; [done|]. split; [exact Hr2|]. left. split; [done|].
    pose proof (loaded_set file ph P F acc perm va (pte_addr e) bs' Hld Hva Hz Hl') as Hset. rewrite He in *. apply Hset.
    + cbn [seg_pte]. apply merged_addr. by rewrite Z.land_lor_distr_l, Em.
    + intros va' e' Hne He' E. apply Hne. by apply (ld_inj _ _ _ _ Hld va' va e' e).
    + intros o Ho. rewrite Hbs by done. unfold seg_byte. destruct (in_file ph (va + o)); [done|].
      rewrite <-(ld_bytes _ _ _ _ Hld). unfold byte_at. destruct (page_of_addr_add va o Hva Ho) as [-> ->]. rewrite He. cbn. rewrite HF. cbn.
      destruct (zget_is_Some bs o) as [b ->]; [lia|done].
  - cbn [Z.eqb negb]. destruct (law_alloc w P F Hr) as (f&w1&Ha&Hcase). mstep Ha. destruct Hcase as [[-> Hr1]|(k&bs&Hfk&Hk&Hnone&Hl&Hr1)].
    { exists ELF_ERR_NO_MEM, w1, P, F. auto. }
    rewrite (proj2 (Z.eqb_neq f 0)) by lia. destruct (law_zero w1 P _ f bs Hr1 ltac:(by rewrite lookup_insert_eq)) as (w2&Hz&Hr2). rewrite insert_insert_eq in Hr2. mstep Hz.
    destruct (overlap_run file size ph va f (replicate 4096 0) w2 P _ Hs Hsize Hfile Hv1 Hv2 Hr2 ltac:(by rewrite lookup_insert_eq) ltac:(by rewrite length_replicate)) as (w3&bs'&Hc&Hr3&Hl'&Hbs).
    rewrite insert_insert_eq in Hr3. mstep Hc. destruct (law_merge w3 P _ va f (seg_flags ph) Hr3 Hup ltac:(by rewrite lookup_insert_eq) Em Eh) as (st&w4&Hm&Hst). mstep Hm. unfold mret.
    destruct Hst as [[-> Hr4]|(Hne&_&Hr4)].
    + eexists _, _, _, _. split; [done|]. split; [exact Hr4|]. left. split; [done|].
      pose proof (loaded_set file ph P F acc perm va f bs' Hld Hva ltac:(lia) Hl') as Hset. rewrite He in *. apply Hset.
      * apply (seg_pte_addr ph f k None Hfk); [lia|done].
      * intros va' e' _ He' E. destruct (ld_frames _ _ _ _ Hld va' e' He') as (_&bs0&HF&_). rewrite E in HF. congruence.
      * intros o Ho. rewrite Hbs by done. unfold seg_byte. destruct (in_file ph (va + o)); [done|]. rewrite <-(ld_bytes _ _ _ _ Hld). unfold byte_at.
        destruct (page_of_addr_add va o Hva Ho) as [-> _]. rewrite He. cbn [mbind option_bind default]. unfold zget. rewrite (proj2 (Z.leb_le _ _)) by lia. rewrite lookup_replicate_2; [done|lia].
    + rewrite bool_decide_eq_false_2 by done. eexists _, _, _, _. split; [done|]. split; [exact Hr4|]. by right; right.
Qed.

(** The pages of [ph] from its first to [va]. *)
Definition part_acc ph va (acc : Z -> option Z) (a : Z) : option Z := if (vstart_of ph <=? a) && (a <? va) then seg_byte file ph a (acc a) else acc a.
Definition part_perm ph va (perm : Z -> option (bool * bool)) (v : Z) : option (bool * bool) := if (vstart_of ph <=? v) && (v <? va) then seg_perm ph (perm v) else perm v.
Lemma page_loop_run ph : seg_ok size ph -> forall n va w P F acc perm, vstart_of ph <= va -> va mod 4096 = 0 -> va + Z.of_nat n * 4096 = vend_of ph ->
  el_rep w P F -> loaded P F (part_acc ph va acc) (part_perm ph va perm) ->
  exists st w' P' F', page_loop n file ph va (vend_of ph) w = Some (st, w') /\ el_rep w' P' F' /\
  (st = ELF_OK /\ loaded P' F' (part_acc ph (vend_of ph) acc) (part_perm ph (vend_of ph) perm) \/ st = ELF_ERR_NO_MEM \/ st = ELF_ERR_MAP_FAILED).
Proof using Hsize Hfile.
  intros Hs. pose proof (seg_bounds size ph Hs) as (_&_&Hb). induction n as [|n IH]; intros va w P F acc perm Hv1 Hva Hn Hr Hld; cbn [page_loop].
  - rewrite (proj2 (Z.ltb_ge _ _)) by lia. exists ELF_OK, w, P, F. split; [done|]. split; [done|]. left. split; [done|]. by replace (vend_of ph) with va by lia.
  - rewrite (proj2 (Z.ltb_lt _ _)) by lia. destruct (load_page_run ph va w P F _ _ Hs Hv1 ltac:(lia) Hva Hr Hld) as (st&w1&P1&F1&Hp&Hr1&Hst). mstep Hp.
    destruct Hst as [[-> Hld1]|Hst].
    2: { rewrite bool_decide_eq_false_2 by (destruct Hst as [-> | ->]; done). exists st, w1, P1, F1. auto. }
    rewrite bool_decide_eq_true_2 by done. change PAGE_SIZE with 4096. unfold u64. rewrite wrap_small by (unfold in_w; lia).
    apply (IH (va + 4096) w1 P1 F1 acc perm); [lia|rewrite Z.add_mod, Hva by lia; done|lia|done|]. revert Hld1. apply loaded_ext.
    + intros a. destruct (page_of_addr_split a) as (o&Ho&Ea&Hm). unfold page_acc, part_acc. destruct (Z.eqb_spec (page_of_addr a) va) as [E|E].
      * rewrite !(proj2 (Z.leb_le (vstart_of ph) a)), (proj2 (Z.ltb_ge a va)), (proj2 (Z.ltb_lt a _)) by lia. done.
      * replace (a <? va + 4096) with (a <? va); [done|]. apply eq_true_iff_eq. rewrite !Z.ltb_lt. split; [lia|]. intros Hlt. destruct (decide (a < va)); [done|]. exfalso. apply E.
        assert (a = va + (a - va)) as Ea2 by lia. rewrite Ea2. by apply page_of_addr_add; [|lia].
    + intros v Hv. unfold page_perm, part_perm. destruct (Z.eqb_spec v va) as [->|E].
      * rewrite !(proj2 (Z.leb_le (vstart_of ph) va)), (proj2 (Z.ltb_ge va va)), (proj2 (Z.ltb_lt va _)) by lia. done.
      * replace (v <? va + 4096) with (v <? va); [done|]. apply eq_true_iff_eq. rewrite !Z.ltb_lt. split; [lia|]. intros Hlt. pose proof (Z.div_mod v 4096 ltac:(lia)). pose proof (Z.div_mod va 4096 ltac:(lia)). lia.
Qed.

(** The result after a segment. *)
Definition bump (res : elf_load_result_t) (ph : elf64_phdr_t) : elf_load_result_t :=
  ElfResult (r_entry res) (Z.min (r_base res) (vstart_of ph)) (Z.max (r_top res) (vend_of ph)) (u32 (r_phdr_count res + 1)).
Definition no_room (st : elf_status) : Prop := st = ELF_ERR_NO_MEM \/ st = ELF_ERR_MAP_FAILED.
Lemma load_segment_run ph res w P F acc perm : (p_type ph = PT_LOAD -> seg_ok size ph) -> el_rep w P F -> loaded P F acc perm -> exists st res' w' P' F',
  load_segment file size ph res w = Some ((st, res'), w') /\ el_rep w' P' F' /\
  (st = ELF_OK /\ loaded P' F' (foldl (overlay file) acc (loads [ph])) (foldl overlay_perm perm (loads [ph])) /\ res' = foldl bump res (loads [ph]) \/ no_room st).
Proof using Hsize Hfile.
  intros Hok Hr Hld. unfold load_segment, loads. destruct (Z.eqb_spec (p_type ph) PT_LOAD) as [Ht|Ht]; cbn [negb].
  2: { rewrite filter_cons_False by done. exists ELF_OK, res, w, P, F. split; [done|]. split; [done|]. by left. }
  rewrite filter_cons_True by done. cbn [filter list_filter foldl]. specialize (Hok Ht). rewrite (seg_check_ok size ph Hok). rewrite bool_decide_eq_true_2 by done. cbn [negb].
  pose proof (seg_bounds size ph Hok) as (_&_&Hb). set (n := Z.to_nat _).
  assert (vstart_of ph + Z.of_nat n * 4096 = vend_of ph) as Hn.
  { unfold n. change PAGE_SIZE with 4096. assert ((vend_of ph - vstart_of ph) mod 4096 = 0) as Hd by (rewrite Zminus_mod; destruct Hb as (_&_&_&->& ->); done).
    pose proof (Z.div_mod (vend_of ph - vstart_of ph) 4096 ltac:(lia)). pose proof (Z.div_pos (vend_of ph - vstart_of ph) 4096). lia. }
  destruct (page_loop_run ph Hok n (vstart_of ph) w P F acc perm) as (st&w1&P1&F1&Hp&Hr1&Hst); [lia|lia|done|done| |].
  { revert Hld. apply loaded_ext; [intros a; unfold part_acc|intros v _; unfold part_perm];
      (destruct (_ && _) eqn:E; [|done]); rewrite andb_true_iff, Z.leb_le, Z.ltb_lt in E; lia. }
  mstep Hp. destruct Hst as [[-> Hld1]|Hst].
  - rewrite bool_decide_eq_true_2 by done. cbn [negb r_entry r_base r_top r_phdr_count]. eexists _, _, w1, P1, F1. split; [reflexivity|]. split; [done|]. left. split; [done|]. split; [exact Hld1|].
    unfold bump. f_equal; ztest; lia.
  - rewrite bool_decide_eq_false_2 by (destruct Hst as [-> | ->]; done). cbn [negb]. eexists _, _, w1, P1, F1. split; [reflexivity|]. split; [done|]. by right.
Qed.
Lemma loads_cons ph phs : loads (ph :: phs) = loads [ph] ++ loads phs.
Proof. unfold loads. by rewrite <-filter_app. Qed.
Lemma phdr_loop_run phoff : forall phs i res w P F acc perm, Forall (seg_ok size) (loads phs) ->
  (forall (k : nat) ph, phs !! k = Some ph -> phdr_of file (u64 (phoff + (i + Z.of_nat k) * sizeof_phdr)) = Some ph) ->
  el_rep w P F -> loaded P F acc perm -> exists st res' w' P' F',
  phdr_loop (length phs) i file size phoff res w = Some ((st, res'), w') /\ el_rep w' P' F' /\
  (st = ELF_OK /\ loaded P' F' (foldl (overlay file) acc (loads phs)) (foldl overlay_perm perm (loads phs)) /\ res' = foldl bump res (loads phs) \/ no_room st).
Proof using Hsize Hfile.
  induction phs as [|ph phs IH]; intros i res w P F acc perm Hok Hph Hr Hld; cbn [length phdr_loop].
  { exists ELF_OK, res, w, P, F. split; [done|]. split; [done|]. by left. }
  pose proof (Hph 0%nat ph eq_refl) as H0. rewrite Z.add_0_r in H0. unfold mlift, mbind_ at 1. rewrite H0. rewrite loads_cons in Hok |- *. apply Forall_app in Hok as [Hok1 Hok].
  destruct (load_segment_run ph res w P F acc perm) as (st&res1&w1&P1&F1&Hs&Hr1&Hst); [|done|done|].
  { intros Ht. unfold loads in Hok1. rewrite filter_cons_True in Hok1 by done. by inversion Hok1. }
  mstep Hs. destruct Hst as [(->&Hld1&->)|Hst].
  - rewrite bool_decide_eq_true_2 by done. rewrite !foldl_app. apply (IH (i + 1) _ w1 P1 F1); [done| |done|done].
    intros k p Hk. rewrite <-(Hph (S k) p Hk). do 2 f_equal. lia.
  - rewrite bool_decide_eq_false_2 by (destruct Hst as [-> | ->]; done). exists st, res1, w1, P1, F1. auto.
Qed.
End Segment.

Lemma loaded_empty : forall F, loaded ∅ F (fun _ => None) (fun _ => None).
Proof. intros F. split; [intros va e H|intros va va' e e' H|intros va e H|done|done]; by rewrite lookup_empty in H. Qed.
Lemma bump_fold l : forall res, r_base res <= UINT64_MAX -> 0 <= r_phdr_count res -> r_phdr_count res + Z.of_nat (length l) < 2 ^ 32 ->
  foldl bump res l = ElfResult (r_entry res) (Z.min (r_base res) (foldr Z.min UINT64_MAX (vstart_of <$> l))) (foldr Z.max (r_top res) (vend_of <$> l)) (r_phdr_count res + Z.of_nat (length l)).
Proof.
  induction l as [|ph l IH]; intros res Hb H0 Hc; cbn [foldl fmap list_fmap foldr length].
  - destruct res as [e b t c]. cbn in *. f_equal; lia.
  - cbn [length] in Hc. assert (u32 (r_phdr_count res + 1) = r_phdr_count res + 1) as Hu by (unfold u32; rewrite wrap_small by (unfold in_w; lia); done).
    rewrite IH by (unfold bump; cbn [r_base r_phdr_count]; rewrite ?Hu; lia). unfold bump. cbn [r_entry r_base r_top r_phdr_count]. rewrite Hu. f_equal; [lia| |lia].
    clear. revert ph. induction l as [|p l IH]; intros ph; cbn [fmap list_fmap foldr]; [lia|]. rewrite IH. lia.
Qed.

(** C38: a program of well-formed segments below 4 GiB, loaded into an address space whose user half is empty, either loads or memory runs out;
    the number of its headers is that of the file, not limited to ELF_MAX_PHDRS.  When it loads, a page is mapped exactly when a segment covers it,
    to a frame of its own, for the user; every byte is the byte the last segment on it has for it in the file, or 0.  A page is writable exactly
    when a segment on it is, as vmm.h documents, and where the segments on a page agree about execution its permissions are the documented ones;
    where they do not, the last one decides ([image_perm]), against vmm.h.  The entry point, the lowest page, the end of the highest and the count
    of segments are returned. *)
Theorem elf_load_image file size h phs w F : ehdr_of file = Some h -> sizeof_ehdr <= size -> size <= Z.of_nat (length file) -> Forall byte_ok file ->
  elf_check h size = ELF_OK -> e_phnum h = Z.of_nat (length phs) -> e_phnum h < 2 ^ 16 ->
  (forall (k : nat) ph, phs !! k = Some ph -> phdr_of file (u64 (e_phoff h + Z.of_nat k * sizeof_phdr)) = Some ph) ->
  Forall (seg_ok size) (loads phs) -> el_rep w ∅ F ->
  exists st res w' P' F', elf_load (Some file) size true true w = Some ((st, Some res), w') /\ el_rep w' P' F' /\
  (no_room st \/
   st = (if decide (loads phs = []) then ELF_ERR_NO_LOAD else ELF_OK) /\ loaded P' F' (image file phs) (image_perm phs) /\
   (forall va, va mod 4096 = 0 -> fst <$> (perm_of <$> P' !! va) = fst <$> doc_perm phs va /\ (one_mind phs va -> perm_of <$> P' !! va = doc_perm phs va)) /\
   res = ElfResult (e_entry h) (foldr Z.min UINT64_MAX (vstart_of <$> loads phs)) (foldr Z.max 0 (vend_of <$> loads phs)) (Z.of_nat (length (loads phs)))).
Proof.
  intros Hh Hs1 Hs2 Hf Hc Hn Hn16 Hph Hok Hr. unfold elf_load. rewrite bool_decide_eq_true_2 by by eexists. cbn [negb orb].
  unfold elf_validate. rewrite (proj2 (Z.ltb_ge _ _)) by lia. unfold mlift, mbind_, mret. rewrite Hh, Hc. rewrite bool_decide_eq_true_2 by done. cbn [negb].
  destruct (phdr_loop_run file size Hs2 Hf (e_phoff h) phs 0 (ElfResult (e_entry h) UINT64_MAX 0 0) w ∅ F _ _ Hok Hph Hr (loaded_empty F)) as (st&res&w'&P'&F'&Hl&Hr'&Hst).
  rewrite Hn, Nat2Z.id, Hl. destruct Hst as [(->&Hld&->)|Hst].
  - rewrite bool_decide_eq_true_2 by done. cbn [negb]. assert (length (loads phs) <= length phs)%nat as Hle by apply length_filter.
    rewrite bump_fold by (cbn [r_base r_phdr_count]; lia). cbn [r_entry r_base r_top r_phdr_count]. eexists _, _, w', P', F'. split; [reflexivity|]. split; [done|]. right. split; [|split; [done|split]].
    + case_decide as E; [by rewrite E|]. destruct (loads phs); [done|]. cbn [length]. by rewrite (proj2 (Z.eqb_neq _ 0)) by lia.
    + intros va Hva. rewrite (ld_perm _ _ _ _ Hld va Hva). split; [apply image_perm_write|apply image_perm_doc].
    + f_equal. assert (foldr Z.min UINT64_MAX (vstart_of <$> loads phs) <= UINT64_MAX); [|lia]. clear. induction (loads phs); cbn [fmap list_fmap foldr]; lia.
  - rewrite bool_decide_eq_false_2 by (destruct Hst as [-> | ->]; done). cbn [negb]. eexists _, _, w', P', F'. split; [reflexivity|]. split; [done|]. by left.
Qed.
End Loader.
