(* ===== verification/ElfVmm.v ===== *)
(** * The ELF loader on the virtual memory manager

    The laws of ElfSpec.v hold of the page tables and the frame allocator: the frames of a program are in use and are no
    tables, so nothing the walks write meets them. *)

From stdpp Require Import base numbers gmap list options.
From S2P Require Import Prelude Pmm PageTable Vmm UserMem VmmSpec Elf ElfSpec.
#[local] Set Default Proof Using "Type*".

(** ** Pages as bytes *)

Lemma page_bytes_cons w ws : page_bytes (w :: ws) = le_enc 8 w ++ page_bytes ws.
Proof. done. Qed.
Lemma page_bytes_length ws : length (page_bytes ws) = (8 * length ws)%nat.
Proof. induction ws as [|w ws IH]; [done|]. rewrite page_bytes_cons, length_app, IH, le_enc_length. cbn [length]. lia. Qed.
Lemma page_bytes_ok ws : Forall byte_ok (page_bytes ws).
Proof. induction ws as [|w ws IH]; [constructor|]. rewrite page_bytes_cons. apply Forall_app. split; [apply le_enc_bytes|done]. Qed.
Lemma page_words_length n b : length (page_words n b) = n.
Proof. revert b. induction n; intros; cbn; auto. Qed.
Lemma page_bytes_words n : forall b, length b = (8 * n)%nat -> Forall byte_ok b -> page_bytes (page_words n b) = b.
Proof.
  induction n as [|n IH]; intros b Hl Hb; [by destruct b|]. cbn [page_words]. rewrite page_bytes_cons.
  rewrite IH; [|rewrite length_drop; lia|by apply Forall_drop]. rewrite <-(take_drop 8 b) at 3. f_equal.
  assert (length (take 8 b) = 8%nat) as H8 by (rewrite length_take; lia). rewrite <-H8 at 1. apply le_enc_dec. by apply Forall_take.
Qed.

(** ** Frames that hold data *)

Lemma ent_frame m f ws t j : t <> f -> ent (set_ram (<[f := ws]> (ram m)) m) t j = ent m t j.
Proof. intros Hne. unfold ent. cbn [set_ram ram]. by rewrite lookup_insert_ne. Qed.
Lemma data_ram m R lvl f : spaces m R lvl -> data_frame m lvl f -> 0 <= f < 2 ^ 31 /\ exists ws, ram m !! f = Some ws /\ length ws = 512%nat.
Proof.
  intros Hsp (_&k&->&Hk&_). pose proof (sp_window _ _ _ Hsp). split; [unfold PAGE_SIZE; lia|]. apply (sp_ram _ _ _ Hsp). lia.
Qed.
(** Writing a data frame changes no address space. *)
Lemma data_write m R lvl f ws : spaces m R lvl -> data_frame m lvl f -> length ws = 512%nat ->
  let m' := set_ram (<[f := ws]> (ram m)) m in spaces m' R lvl /\ same_views m m' R.
Proof.
  intros Hsp Hf Hl m'. assert (forall t x j, lvl !! t = Some x -> ent m' t j = ent m t j) as Hent.
  { intros t x j Ht. apply ent_frame. intros ->. destruct Hf as [Hn _]. congruence. }
  split.
  - pose proof Hsp as [H1 H2 H3 H4 H5 H6 H7 H8 H9 H10]. split; [done|done|done| |done|done| | |done|].
    + intros g Hg. unfold m'. cbn [set_ram ram]. destruct (decide (g * PAGE_SIZE = f)) as [<-|]; [rewrite lookup_insert_eq; eauto|rewrite lookup_insert_ne by done; by apply H4].
    + intros t p o Ht. destruct (H7 t p o Ht) as (?&?&Htop). split_and!; [done..|]. intros i e. rewrite (Hent t _ i Ht). apply Htop.
    + intros t l p o i e Ht. rewrite (Hent t _ i Ht). by apply H8.
    + intros t l p o Ht Hll. destruct (H10 t l p o Ht Hll) as (tp&pp&op&i&e&L1&L2&L3&L4&L5). exists tp, pp, op, i, e. split_and!; try done. by rewrite (Hent tp _ i L1).
  - intros r va Hr. pose proof (sp_root _ _ _ Hsp r Hr) as Ht. rewrite <-(pre_3 va) in Ht. apply (view_ram m m' R lvl Hsp Hent 3 r va r); [lia|done].
Qed.
(** A frame that is allocated and not used for a table. *)
Lemma spaces_claimed m R lvl a p' : spaces m R lvl -> fits (mm_pmm m) 1 a -> claims a 1 (mm_pmm m) p' -> pmm_inv p' ->
  let m' := Mm p' (ram m) (cr3 m) in spaces m' R lvl /\ data_frame m' lvl (a * PAGE_SIZE).
Proof.
  intros Hsp Hfit Hcl Hinv m'. destruct (used_alloc m R lvl a p' Hsp Hfit Hcl) as [Hn Hu]. pose proof (cl_total _ _ _ _ Hcl) as Htot. pose proof Hfit as (Ha1&Ha2&_).
  pose proof Hsp as [H1 H2 H3 H4 H5 H6 H7 H8 H9 H10]. split.
  - split; cbn [m' mm_pmm ram]; rewrite ?Htot; [done|by rewrite (cl_init _ _ _ _ Hcl)|done|done| |done|done|done|done|done].
    intros t x Hx. destruct (H5 t x Hx) as (f&->&Hf&Huf). exists f. split_and!; [done|lia..|]. rewrite Hu by lia. by rewrite Huf, orb_true_r.
  - split; [done|]. exists a. split; [done|]. cbn [m' mm_pmm]. rewrite Htot. split; [lia|]. rewrite Hu by lia. by rewrite bool_decide_eq_true_2.
Qed.

(** ** The laws *)

Section Laws.
Context (a : address_space).
#[local] Instance elf_ops : ElfEnv vmm := vmm_elf a.

Record vm_rep (s : vmm) (P : gmap Z Z) (F : gmap Z (list Z)) (R : gset Z) (lvl : gmap Z (nat * Z * Z)) (r : Z) : Prop := {
  vr_ok : vm_ok s R lvl;
  vr_root : at_root a r R;
  vr_view : forall va, half_page va -> pview (v_mm s) r va = (fun e => (0%nat, e)) <$> P !! va;
  vr_keys : forall va e, P !! va = Some e -> half_page va;
  vr_data : forall f bs, F !! f = Some bs -> data_frame (v_mm s) lvl f /\ page_bytes <$> ram (v_mm s) !! f = Some bs
}.
Definition vm_mem (s : vmm) P F : Prop := exists R lvl r, vm_rep s P F R lvl r.

Lemma half_page_valid va : half_page va -> validate_vaddr va = VMM_OK /\ va mod 4096 = 0 /\ ix 3 va < 256.
Proof.
  intros [Hm Hr]. split; [|split; [done|]].
  - unfold validate_vaddr, is_page_aligned, va_is_canonical. change (PAGE_SIZE - 1) with (Z.ones 12). rewrite Z.land_ones by lia. change (2 ^ 12) with 4096. rewrite Hm.
    cbn [Z.eqb negb]. rewrite (proj2 (Z.ltb_lt va _)) by lia. cbn [orb negb]. by rewrite (proj2 (Z.eqb_neq va 0)) by lia.
  - unfold ix. change (2 ^ (12 + 9 * Z.of_nat 3)) with (2 ^ 39). assert (0 <= va / 2 ^ 39 < 256); [|rewrite Z.mod_small; lia].
    split; [apply Z.div_pos; lia|]. apply Z.div_lt_upper_bound; lia.
Qed.
Lemma pte_addr_low e : Z.land (pte_addr e) 0xFFF = 0 /\ u64 (pte_addr e) = pte_addr e /\ 0 <= pte_addr e.
Proof.
  assert (0 <= pte_addr e < 2 ^ 52) as H.
  { unfold pte_addr. apply (in_w_bits 52); [lia| |].
    - rewrite Z.land_nonneg. right. done.
    - intros i Hi. rewrite Z.land_spec. change PTE_ADDR_MASK with (Z.shiftl (Z.ones 40) 12). rewrite Z.shiftl_spec, Z.ones_spec_high by lia. apply andb_false_r. }
  split; [|split; [unfold u64; apply wrap_small; unfold in_w; lia|lia]].
  unfold pte_addr. rewrite <-Z.land_assoc. change (Z.land PTE_ADDR_MASK 0xFFF) with 0. apply Z.land_0_r.
Qed.
Lemma vm_translate_law w P F va : vm_mem w P F -> half_page va ->
  vmm_translate (Some a) va w = Some (match P !! va with Some e => pte_addr e | None => 0 end, w).
Proof.
  intros (R&lvl&r&Hv) Hup. rewrite (translate_run w R lvl a r va (vr_ok _ _ _ _ _ _ Hv) (vr_root _ _ _ _ _ _ Hv)). rewrite (vr_view _ _ _ _ _ _ Hv va Hup).
  destruct (P !! va) as [e|]; [|done]. cbn. do 2 f_equal. change 0xFFF with (Z.ones 12). rewrite Z.land_ones by lia. destruct Hup as [Hm _]. change (2 ^ 12) with 4096. rewrite Hm, Z.add_0_r. apply pte_addr_low.
Qed.
(** The state with another memory that shows the same pages. *)
Lemma vm_rep_mem w P F R lvl lvl' r m' : vm_rep w P F R lvl r -> spaces m' R lvl' -> same_views (v_mm w) m' R -> keeps_data lvl lvl' (v_mm w) m' ->
  vm_rep (with_mm w m') P F R lvl' r.
Proof.
  intros [[Hi Hsp] Hroot Hview Hkeys Hdata] Hsp' Hv Hd. split; [by split|done| |done|].
  - intros va Hup. cbn [v_mm with_mm]. rewrite (Hv r va) by apply Hroot. by apply Hview.
  - intros f bs Hf. destruct (Hdata f bs Hf) as [Hfr Hb]. cbn [v_mm with_mm]. destruct (Hd f Hfr) as [Hfr' ->]. done.
Qed.
Lemma vm_alloc_law w P F : vm_mem w P F -> exists f w', on_mm (on_pmm pmm_alloc_frame) w = Some (f, w') /\
  (f = 0 /\ vm_mem w' P F \/ exists k bs, f = k * 4096 /\ 0 < k < 2 ^ 40 /\ F !! f = None /\ length bs = 4096%nat /\ vm_mem w' P (<[f := bs]> F)).
Proof.
  intros (R&lvl&r&Hv). pose proof Hv as [[Hi Hsp] Hroot Hview Hkeys Hdata].
  destruct (alloc_frame_spec (mm_pmm (v_mm w)) (sp_pmm _ _ _ Hsp) (sp_init _ _ _ Hsp)) as (f&p'&Ha&Hpost&Hinv).
  exists f, (with_mm w (Mm p' (ram (v_mm w)) (cr3 (v_mm w)))). split; [unfold on_mm, on_pmm; by rewrite Ha|].
  destruct Hpost as [(->&->&_)|(k&->&Hfit&_&Hcl)].
  - left. split; [done|]. exists R, lvl, r. apply (vm_rep_mem w P F R lvl lvl r _ Hv); destruct (v_mm w); [done|done|apply keeps_data_refl].
  - right. destruct (spaces_claimed _ R lvl k p' Hsp Hfit Hcl Hinv) as [Hsp' Hdf]. pose proof Hfit as (Hk1&Hk2&_). pose proof (sp_window _ _ _ Hsp) as Hwin.
    destruct (sp_ram _ _ _ Hsp k ltac:(lia)) as (ws&Hws&Hlen). exists k, (page_bytes ws). split; [done|]. split; [lia|].
    assert (F !! (k * PAGE_SIZE) = None) as Hnone.
    { destruct (F !! (k * PAGE_SIZE)) as [bs|] eqn:E; [|done]. destruct (Hdata _ _ E) as [Hfr _]. by destruct (data_alloc _ R lvl k p' _ Hsp Hfit Hcl Hfr). }
    change 4096 with PAGE_SIZE. split; [done|]. split; [rewrite page_bytes_length; lia|]. exists R, lvl, r.
    assert (vm_rep (with_mm w (Mm p' (ram (v_mm w)) (cr3 (v_mm w)))) P F R lvl r) as Hv'.
    { apply (vm_rep_mem w P F R lvl lvl r _ Hv Hsp'); [intros r' va Hr'; pose proof (sp_root _ _ _ Hsp r' Hr') as Ht; rewrite <-(pre_3 va) in Ht; by apply (view_ram _ _ R lvl Hsp ltac:(done) 3 r' va r' ltac:(lia))|].
      intros f Hf. by destruct (data_alloc _ R lvl k p' f Hsp Hfit Hcl Hf). }
    destruct Hv' as [Ho' Hr' Hvw' Hk' Hd']. split; [done..|]. intros f bs [[<- <-]|[Hne Hf]]%lookup_insert_Some; [|by apply Hd']. split; [done|]. cbn. by rewrite Hws.
Qed.
(** A data frame gets other contents. *)
Lemma vm_rep_write w P F R lvl r f ws : vm_rep w P F R lvl r -> is_Some (F !! f) -> length ws = 512%nat ->
  vm_rep (with_mm w (set_ram (<[f := ws]> (ram (v_mm w))) (v_mm w))) P (<[f := page_bytes ws]> F) R lvl r.
Proof.
  intros [[Hi Hsp] Hroot Hview Hkeys Hdata] [bs Hf] Hl. destruct (Hdata f bs Hf) as [Hfr _]. destruct (data_write _ R lvl f ws Hsp Hfr Hl) as [Hsp' Hv].
  split; [by split|done| |done|].
  - intros va Hup. cbn [v_mm with_mm]. rewrite (Hv r va) by apply Hroot. by apply Hview.
  - intros g bs' [[<- <-]|[Hne Hg]]%lookup_insert_Some; cbn [v_mm with_mm set_ram ram].
    + rewrite lookup_insert_eq. split; [exact Hfr|done].
    + rewrite lookup_insert_ne by done. destruct (Hdata g bs' Hg) as [Hgr Hgb]. split; [exact Hgr|done].
Qed.
Lemma vm_zero_law w P F f bs : vm_mem w P F -> F !! f = Some bs -> exists w',
  on_mm (page_zero (pt_phys_to_virt f)) w = Some (tt, w') /\ vm_mem w' P (<[f := replicate 4096 0]> F).
Proof.
  intros (R&lvl&r&Hv) Hf. pose proof Hv as [[Hi Hsp] Hroot Hview Hkeys Hdata]. destruct (Hdata f bs Hf) as [Hfr _]. destruct (data_ram _ R lvl f Hsp Hfr) as (Hrg&ws&Hws&_).
  pose proof (page_zero_at (v_mm w) f ws Hrg Hws) as Hz. eexists. split; [exact (on_mm_run _ w _ _ Hz)|]. exists R, lvl, r.
  replace (replicate 4096 0) with (page_bytes (replicate (Z.to_nat PT_ENTRIES) 0)) by by vm_compute. by apply (vm_rep_write w P F R lvl r f).
Qed.
Lemma vm_copy_law w P F f bs off src bs' : vm_mem w P F -> F !! f = Some bs -> Forall byte_ok src -> splice off src bs = Some bs' -> exists w',
  on_mm (page_write (pt_phys_to_virt f) off src) w = Some (tt, w') /\ vm_mem w' P (<[f := bs']> F).
Proof.
  intros (R&lvl&r&Hv) Hf Hsrc Hs. pose proof Hv as [[Hi Hsp] Hroot Hview Hkeys Hdata]. destruct (Hdata f bs Hf) as [Hfr Hb]. destruct (data_ram _ R lvl f Hsp Hfr) as (Hrg&ws&Hws&Hlen).
  rewrite Hws in Hb. injection Hb as Hb. assert (page_write (pt_phys_to_virt f) off src (v_mm w) = Some (tt, set_ram (<[f := page_words (Z.to_nat PT_ENTRIES) bs']> (ram (v_mm w))) (v_mm w))) as Hrun.
  { unfold page_write, mget, mlift, mput, mbind_. fold (virt f). rewrite virt_phys by (unfold in_w; lia). by rewrite Hws, Hb, Hs. }
  eexists. split; [exact (on_mm_run _ w _ _ Hrun)|]. exists R, lvl, r.
  assert (page_bytes (page_words (Z.to_nat PT_ENTRIES) bs') = bs') as Heq.
  { apply page_bytes_words; [rewrite (splice_length _ _ _ _ Hs), <-Hb, page_bytes_length, Hlen; done|]. apply (splice_bytes _ _ _ _ Hs Hsrc). rewrite <-Hb. apply page_bytes_ok. }
  pose proof (vm_rep_write w P F R lvl r f (page_words (Z.to_nat PT_ENTRIES) bs') Hv ltac:(by eexists) (page_words_length _ _)) as Hw. by rewrite Heq in Hw.
Qed.
Lemma half_page_span va va' : half_page va -> half_page va' -> span 0 va' = span 0 va -> va' = va.
Proof.
  intros [Hm Hr] [Hm' Hr'] E. unfold span, vpn in E. change (512 ^ Z.of_nat 0) with 1 in E. rewrite !Z.div_1_r in E.
  rewrite !Z.mod_small in E by (split; [apply Z.div_pos; lia|apply Z.div_lt_upper_bound; lia]).
  pose proof (Z.div_mod va 4096 ltac:(lia)). pose proof (Z.div_mod va' 4096 ltac:(lia)). lia.
Qed.
(** The leaf of a page is written. *)
Lemma vm_rep_leaf w P F R lvl r va t i v x : vm_rep w P F R lvl r -> half_page va -> lvl !! t = Some x -> spaces (put (v_mm w) t i v) R lvl ->
  updates (v_mm w) (put (v_mm w) t i v) R r va 0 (if pte_present v then Some (0%nat, v) else None) -> pte_present v = true ->
  vm_rep (with_mm w (put (v_mm w) t i v)) (<[va := v]> P) F R lvl r.
Proof.
  intros [[Hi Hsp] Hroot Hview Hkeys Hdata] Hup Ht Hsp' Hupd Hv. split; [by split|done| | |].
  - intros va' Hup'. cbn [v_mm with_mm]. rewrite (Hupd r va'); [|apply Hroot|by right]. rewrite Hv. case_decide as E.
    + destruct E as [_ E]. rewrite (half_page_span va va' Hup Hup' E). by rewrite lookup_insert_eq.
    + rewrite lookup_insert_ne by (intros <-; tauto). by apply Hview.
  - intros va' e [[<- _]|[_ He]]%lookup_insert_Some; [done|by eapply Hkeys].
  - intros g bs Hg. destruct (Hdata g bs Hg) as [Hgr Hgb]. cbn [v_mm with_mm]. destruct (data_put (v_mm w) lvl t i v x Ht g Hgr) as [Hgr' ->]. done.
Qed.
Lemma pview_leaf m r va l t i : find 3 m r va = Some (l, t, i) -> pview m r va = (e ← ent m t i; if pte_present e then Some (l, e) else None).
Proof. intros Hf. unfold pview, view, view_of. by rewrite Hf. Qed.
Lemma vm_merge_law w P F va f flags : vm_mem w P F -> half_page va -> is_Some (F !! f) -> Z.land flags PTE_ADDR_MASK = 0 -> pte_huge flags = false -> exists st w',
  vmm_map_page_merge (Some a) va f flags w = Some (st, w') /\
  (st = VMM_OK /\ vm_mem w' (<[va := match P !! va with Some e => merged_pte e (Z.lor flags PTE_PRESENT) | None => leaf_pte f flags end]> P) F \/
   st <> VMM_OK /\ P !! va = None /\ vm_mem w' P F).
Proof.
  intros (R&lvl&r&Hrep) Hup [bs Hf] Hfl Hh. pose proof Hrep as [Hok Hroot Hview Hkeys Hdata]. destruct (half_page_valid va Hup) as (Hva&_&_).
  assert (validate_paddr f = VMM_OK) as Hpa.
  { destruct (Hdata f bs Hf) as [(_&k&->&Hk&_) _]. unfold validate_paddr, is_page_aligned. change (PAGE_SIZE - 1) with (Z.ones 12). rewrite Z.land_ones by lia.
    change (2 ^ 12) with PAGE_SIZE. rewrite Z_mod_mult. cbn [Z.eqb negb]. by rewrite (proj2 (Z.eqb_neq _ 0)) by (unfold PAGE_SIZE; lia). }
  unfold vmm_map_page_merge. rewrite (checked_run w R lvl a r) by (done || by repeat constructor). cbv zeta.
  destruct (map_walk_data w R lvl a r va flags Hok Hroot) as (p&m'&lvl'&Hw&Hsp'&Hv&_&Hd&Hp). mstep Hw. pose proof Hroot as (_&_&Hr).
  pose proof (vm_rep_mem w P F R lvl lvl' r m' Hrep Hsp' Hv Hd) as Hrep'. pose proof (Hview va Hup) as Hpv. destruct p as [[tv i]|].
  2: { exists VMM_ERR_NO_MEM, (with_mm w m'). split; [done|]. right. split; [done|]. destruct Hp as [Hnone _]. rewrite Hpv in Hnone. split; [by destruct (P !! va)|]. by exists R, lvl', r. }
  destruct Hp as (l&t&->&Hfind). pose proof (pview_leaf m' r va l t i Hfind) as Hleaf. rewrite (Hv r va Hr), Hpv in Hleaf.
  assert (l = 0%nat) as ->.
  { destruct l as [|l]; [done|]. destruct (find_huge 3 m' r va l t i Hfind) as (e&He&Hpe&_). rewrite He in Hleaf. cbn in Hleaf. rewrite Hpe in Hleaf. by destruct (P !! va). }
  destruct (find_root m' R lvl' Hsp' r va 0 t i Hr Hfind) as (Hi&_&o&Ho&_).
  assert (forall v, pte_present v = true -> exists w', on_mm (tab_set (virt t) i v) (with_mm w m') = Some (tt, w') /\ vm_mem w' (<[va := v]> P) F) as Hset.
  { intros v Hpr. destruct (leaf_write m' R lvl' r va 0 t i v Hsp' Hr Hfind ltac:(by left)) as (_&Hs&Hsp2&Hupd). eexists. split; [exact (on_mm_run _ (with_mm w m') _ _ Hs)|].
    exists R, lvl', r. exact (vm_rep_leaf (with_mm w m') P F R lvl' r va t i v _ Hrep' Hup Ho Hsp2 Hupd Hpr). }
  destruct (leaf_write m' R lvl' r va 0 t i 0 Hsp' Hr Hfind ltac:(by left)) as ((e&He&Hg&_)&_).
  assert (on_mm (tab_get (virt t) i) (with_mm w m') = Some (e, with_mm w m')) as Hg' by exact (on_mm_run _ (with_mm w m') _ _ Hg). mstep Hg'.
  rewrite He in Hleaf. cbn in Hleaf. destruct (pte_present e) eqn:Hpe.
  - destruct (P !! va) as [e'|] eqn:EP; [|done]. injection Hleaf as ->. destruct (Z.eqb_spec (merged_pte e (Z.lor flags PTE_PRESENT)) e) as [Hsame|_].
    + exists VMM_OK, (with_mm w m'). split; [done|]. left. split; [done|]. rewrite Hsame, insert_id by done. by exists R, lvl', r.
    + destruct (Hset (merged_pte e (Z.lor flags PTE_PRESENT))) as (w'&Hs&Hm); [apply merged_flags|]. exists VMM_OK, w'. mstep Hs. split; [done|]. by left.
  - destruct (P !! va) as [e'|] eqn:EP; [done|]. destruct (Hset (leaf_pte f flags) (leaf_pte_present f flags)) as (w'&Hs&Hm). exists VMM_OK, w'. mstep Hs. split; [done|]. by left.
Qed.
#[global] Instance vmm_elf_laws : ElfLaws vmm := {
  el_rep := vm_mem; law_translate := vm_translate_law; law_alloc := vm_alloc_law; law_zero := vm_zero_law; law_copy := vm_copy_law; law_merge := vm_merge_law
}.
End Laws.

(** ** Programs *)

Definition ehdr_bytes (entry phoff phentsize phnum : Z) : list Z :=
  EI_MAGIC ++ [ELFCLASS_64; ELFDATA_LSB; 1] ++ replicate 9 0 ++ le_enc 2 ET_EXEC ++ le_enc 2 EM_X86_64 ++ le_enc 4 1 ++ le_enc 8 entry ++ le_enc 8 phoff ++
  le_enc 8 0 ++ le_enc 4 0 ++ le_enc 2 64 ++ le_enc 2 phentsize ++ le_enc 2 phnum ++ le_enc 2 0 ++ le_enc 2 0 ++ le_enc 2 0.
Definition phdr_bytes (ph : elf64_phdr_t) : list Z :=
  le_enc 4 (p_type ph) ++ le_enc 4 (p_flags ph) ++ le_enc 8 (p_offset ph) ++ le_enc 8 (p_vaddr ph) ++ le_enc 8 (p_paddr ph) ++ le_enc 8 (p_filesz ph) ++
  le_enc 8 (p_memsz ph) ++ le_enc 8 (p_align ph).
Definition program (entry phentsize : Z) (phs : list elf64_phdr_t) (data : list Z) : list Z :=
  ehdr_bytes entry 64 phentsize (Z.of_nat (length phs)) ++ mjoin (phdr_bytes <$> phs) ++ data.
(** Code and data that share the page 0x401000. *)
Definition demo_segments : list elf64_phdr_t :=
  [Phdr PT_LOAD 5 232 0x401000 0 8 8 4096; Phdr 4 4 0 0 0 0 0 0; Phdr PT_LOAD 6 240 0x401100 0 8 0x2000 4096].
Definition demo_program : list Z := program 0x401000 56 demo_segments (seqZ 0x50 72).
Definition demo_header : elf64_header_t := default (Ehdr [] 0 0 0 0 0 0 0 0 0 0 0 0 0) (ehdr_of demo_program).
Lemma vm32_empty : vm_mem kspace vm32 ∅ ∅.
Proof.
  exists R32, lvl32, 0x3000. pose proof vm32_ok as Hok. split; [done|apply kspace_root| |by intros va e H; rewrite lookup_empty in H|by intros f bs H; rewrite lookup_empty in H].
  intros va _. rewrite lookup_empty. cbn [fmap option_fmap option_map]. unfold pview, view, view_of. cbn [find].
  destruct (table_ent _ R32 lvl32 (vo_spaces _ _ _ Hok) 0x3000 (3%nat, 0, 0x3000) (ix 3 va)) as [e He]; [done|apply ix_range|].
  rewrite He. cbn. by rewrite (ent32 (ix 3 va) e He).
Qed.
Lemma demo_segments_ok : Forall (seg_ok 304) (loads demo_segments).
Proof.
  assert (loads demo_segments = [Phdr PT_LOAD 5 232 0x401000 0 8 8 4096; Phdr PT_LOAD 6 240 0x401100 0 8 0x2000 4096]) as -> by by vm_compute.
  repeat constructor; try (vm_compute; congruence); cbn; lia.
Qed.
Lemma elf_load_image_witness : exists st res s' P' F', @elf_load vmm (vmm_elf kspace) (Some demo_program) 304 true true vm32 = Some ((st, Some res), s') /\
  (no_room st \/ st = ELF_OK /\ r_top res = 0x404000 /\ byte_at P' F' 0x401104 = Some 0x5C /\ byte_at P' F' 0x403000 = Some 0).
Proof.
  destruct (@elf_load_image vmm (vmm_elf kspace) (vmm_elf_laws kspace) demo_program 304 demo_header demo_segments vm32 ∅) as (st&res&s'&P'&F'&Hr&_&Hst);
    [vm_compute; reflexivity|unfold sizeof_ehdr; lia|vm_compute; discriminate|apply (bool_decide_unpack _); vm_compute; exact I|vm_compute; reflexivity|vm_compute; reflexivity|vm_compute; reflexivity| |exact demo_segments_ok|exact vm32_empty|].
  { intros k ph Hk. do 3 (destruct k as [|k]; [injection Hk as <-; vm_compute; reflexivity|]). discriminate. }
  exists st, res, s', P', F'. split; [exact Hr|]. destruct Hst as [Hst|(Hst&Hl&_&Hres)]; [by left|right]. split; [exact Hst|]. split; [by rewrite Hres; vm_compute|].
  split; [exact (eq_trans (ld_bytes _ _ _ _ Hl 0x401104) ltac:(vm_compute; reflexivity))|exact (eq_trans (ld_bytes _ _ _ _ Hl 0x403000) ltac:(vm_compute; reflexivity))].
Defined.
(** The outcome of loading into the kernel's space of vm32. *)
Definition load_demo (file : list Z) : option (elf_status * option elf_load_result_t) := fst <$> @elf_load vmm (vmm_elf kspace) (Some file) (Z.of_nat (length file)) true true vm32.
Lemma demo_loads : load_demo demo_program = Some (ELF_OK, Some (ElfResult 0x401000 0x401000 0x404000 2)).
Proof. by vm_compute. Qed.
(** The sum of offset and size wraps: the segment is accepted and read from beyond the file. *)
Lemma wrapped_segment_read : seg_check (Phdr PT_LOAD 5 (2 ^ 64 - 8) 0x401000 0 8 8 4096) 248 = ELF_OK /\
  load_demo (program 0x401000 56 [Phdr PT_LOAD 5 (2 ^ 64 - 8) 0x401000 0 8 8 4096] []) = None.
Proof. by vm_compute. Qed.
(** The size of a program header is taken from the file for the check and from the structure for the access. *)
Lemma short_headers_read : load_demo (ehdr_bytes 0x401000 64 0 1) = None.
Proof. by vm_compute. Qed.
(** A segment above 4 GiB: its pages are mapped, empty, at the low 32 bits of its address. *)
Lemma high_segment_lost : exists s, (@elf_load vmm (vmm_elf kspace) (Some (program 0x100401000 56 [Phdr PT_LOAD 5 120 0x100401000 0 8 8 4096] (seqZ 1 8))) 128 true true vm32 =
    Some ((ELF_OK, Some (ElfResult 0x100401000 0x401000 0x402000 1)), s)) /\
  xlate s kspace 0x100401000 = Some 0 /\ xlate s kspace 0x401000 = Some 0x1000.
Proof. eexists. split; [vm_compute; reflexivity|]. split; vm_compute; reflexivity. Qed.
(** A page that holds code and then data is not executable, against the documented union. *)
Lemma shared_page_not_executable : image_perm demo_segments 0x401000 = Some (true, false) /\ doc_perm demo_segments 0x401000 = Some (true, true).
Proof. by vm_compute. Qed.
